(* ===== verification/_CoqProject ===== *)
-Q . S2P
Prelude.v
Errors.v
Effects.v
PyStr.v
Utf8.v
Multibase.v
Cbor.v
Json.v
Coroutine.v
Base64.v
Decimal.v
PyNum.v
Doubles.v
StatusIndex.v
StatusCodec.v
StatusCheck.v
Cache.v
Jcs.v
VerifyCommon.v
VcJwt.v
SdJwt.v
SdIssue.v
VcIssue.v
Schema.v
TypeMetadata.v
Did.v
Urllib.v
Datetime.v
StatusIssue.v
Messages.v
EbsiRegistry.v
OpenPgp.v
Nodes.v
Webvh.v
Keys.v
Contexts.v
ContextValidation.v
DataIntegrity.v
JwtVcIssuer.v
X5c.v
TrustModel.v
TrustXml.v
EcdsaSd.v
Cose.v
Mdoc.v
Jwe.v
KeyBackends.v
Verify.v
VerifySound.v
Resolvers.v
VpJwt.v
Dcql.v
OpenId4Vp.v
VpTokenSound.v
OpenId4Vci.v
EbsiTrust.v
RpCert.v
RpRegistration.v
TrustWalk.v
Lote.v
Fetch.v
HttpClient.v
NodeClient.v
EcdsaSdFlow.v
Aio.v
AioTwins.v
