(* ===== verification/Prelude.v ===== *)
(** * Verification of openvc

    openvc verifies (and in part issues) verifiable credentials: VC-JWT, SD-JWT VC, W3C Data
    Integrity, ISO mdoc; resolves the keys they are signed with; checks their status, schema
    and type metadata; and implements the verifier's side of OpenID4VP and the issuer's side of
    OpenID4VCI.  [openvc_ebsi] reads the registries of the European Blockchain Services
    Infrastructure and walks their chains of accreditation.  This library translates that
    code, under [src/src/openvc/] and [src/src/openvc_ebsi/], into executable definitions and
    proves what an accepted input establishes, how each piece of untrusted input is refused,
    and that the codecs are inverse to each other.

    ** How the program fits together

    [verify.py] is the entry point of a verifier: it detects the format of a credential, opens
    envelopes, resolves the issuer's key (through [did/], [jwt_vc_issuer.py] or [x5c.py]), runs
    one proof suite of [proof/] with the policy checks of [proof/_verify_common.py], binds the
    issuer to the key, and then runs the status ([status/]), schema ([schema.py]) and type
    ([type_metadata.py]) checks of its policy.  [openid4vp.py] answers a DCQL query: it routes
    every presentation of a [vp_token] to that pipeline, to the SD-JWT suite, to [vp_jwt.py] or
    to [mdoc.py] (over [cbor.py] and [cose.py]), and decides whether the query is satisfied.
    [openid4vci.py] verifies the key proofs of a Credential Request against a nonce store.
    The suites share [keys.py], [multibase.py], [_json.py], [_jws.py] and [_jcs.py].  [aio.py] is the
    same pipeline with its calls awaited.  [rp_cert.py] and [rp_registration.py] check who asks for a
    presentation and whether the request is within its registration; [trustlist/] turns signed lists of
    trusted entities into the anchors of [x5c.py].  In [openvc_ebsi], [nodes.py] verifies the list of
    nodes, [node_client.py] binds a run to one of them over [http.py], [versioning.py] reads its
    registries, [trust.py] walks the accreditations and [verify.py] composes the walk with the pipeline.

    ** The files

    Foundations.
    - [Prelude]: Python strings and bytes as lists of code points and bytes, dictionaries as
      association lists, big-endian integers, the sort by code units, and the hint database [py].
    - [Errors]: the exception classes with their bases (so that [except C] is a decidable
      test), the [result] monad, its loops [mapR] and [foldR], the tactics [inv_result], which
      reads a successful run, and [solve_errs], which bounds the exceptions of a run.
    - [PyStr], [Utf8], [Decimal], [PyNum], [Base64]: the parts of Python the code computes
      with: string methods, the UTF-8 codec, decimal strings, numbers (integers unbounded,
      floats as exact binary64 values), and base64url as the lenient decoder reads it.  [Doubles]:
      which floats are doubles, when two numbers have one value, and the double an integer is read as.
    Codecs.
    - [Multibase] ([multibase.py]), [Cbor] ([cbor.py]), [Json] ([_json.py]), [Jcs]
      ([proof/_jcs.py]), [StatusIndex], [StatusCodec] ([status/_index.py], [bitstring.py],
      [token_status_list.py], [_decompress.py]).
    Keys and identifiers.
    - [Keys] ([keys.py]), [X5c] ([x5c.py]), [Did] ([did/base.py], [did_key.py], [did_jwk.py],
      [did_web.py], [resolve_verification_key]), [Webvh] ([did/did_webvh.py]), [JwtVcIssuer]
      ([jwt_vc_issuer.py]), [Cache] ([cache.py], with its threads as interleavings of steps).
    Proof suites.
    - [VerifyCommon] ([proof/_verify_common.py]), [VcJwt] ([proof/vc_jwt.py], [_jws.py]),
      [SdJwt] and [SdIssue] ([proof/sd_jwt.py]), [DataIntegrity] ([proof/di_jcs.py],
      [data_integrity.py], [di_ecdsa_rdfc.py]), [VpJwt] ([proof/vp_jwt.py]), [Cose]
      ([cose.py]), [Mdoc] ([mdoc.py]), [Jwe] ([jwe.py]).
    Checks after the proof.
    - [StatusCheck] ([status/status_list.py], [token_status_list.py], the pointers of
      [issue.py]), [Schema] ([schema.py]), [TypeMetadata] ([type_metadata.py]).
    The compositions.
    - [Verify] and [VerifySound] ([verify.py]), [Dcql], [OpenId4Vp] and [VpTokenSound]
      ([openid4vp.py]), [OpenId4Vci] ([openid4vci.py]).
    - [Aio] and [AioTwins] ([aio.py] and the [_async] functions of the modules it awaits), over
      [Coroutine]: a computation that awaits calls, [asyncio.gather] as the interleavings of several,
      against the synchronous pipeline on every runtime.
    - [Resolvers] ([resolvers.py]): the status lists, schemas and metadata fetched by default.
    Selective disclosure and JSON-LD.
    - [Contexts] ([proof/contexts/__init__.py]), [ContextValidation]
      ([proof/_context_validation.py]), [EcdsaSd] and [EcdsaSdFlow] ([proof/ecdsa_sd.py]).
    Keys and issuing.
    - [KeyBackends] ([keys.py]: the backends that hold a private key and their factory), [VcIssue]
      ([proof/vc_jwt.py]), [StatusIssue] ([status/issue.py]).
    Transport, over [Effects]: computations that ask a world and log what they asked.
    - [Urllib] ([openvc_ebsi/_url.py] and what it uses of [urllib.parse]), [Fetch] ([fetch.py]),
      [HttpClient] ([openvc_ebsi/http.py], [environments.py]), [NodeClient]
      ([openvc_ebsi/node_client.py]), [Messages] ([openvc_ebsi/_message.py]); [Datetime] is what
      these compute with.
    EBSI.
    - [OpenPgp] ([_openpgp.py]), [Nodes] ([nodes.py]), [EbsiRegistry] ([versioning.py],
      [models.py]), [EbsiTrust] ([trust.py], [verify.py]).
    Relying parties and trusted lists.
    - [RpCert] ([rp_cert.py]), [RpRegistration] ([rp_registration.py]), [TrustModel]
      ([trustlist/model.py]), [TrustXml] ([trustlist/parse.py], [xades.py]), [TrustWalk]
      ([trustlist/consume.py]), [Lote] ([trustlist/lote.py]).

    ** Conventions

    A Python function of the source is a [Definition] (or a [Fixpoint]) of the same name without
    its leading underscore, returning [result A]: [Ok v] or [Err e] with the exception [e] it
    raises ([Errors]); a loop body that the code writes inline may have a name of its own.  A
    module of the source that clashes with another file prefixes its name ([vc_verify],
    [sd_verify], [jcs_verify], [vp_verify], [vci_check_audience]).  State is threaded: the
    digests an SD-JWT has used, the position of the CBOR decoder, the nonce store of an issuer,
    the entries of a cache.  Text of error messages is not modelled, their class is.

    What is outside the repository is a parameter of the definitions that use it: hash functions,
    curve arithmetic and signature primitives, the [cryptography] package's certificates, PyJWT,
    pyld's canonicalization, zlib and gzip, [urllib.parse], [datetime.fromisoformat], the
    text parser behind [json.loads] and the shortest decimal of a double, and every callback the
    caller injects (resolvers, fetchers, nonce stores, clocks).  They are grouped in records
    ([Verify.runtime], [Contexts.json_ld], [Verify.resolvers], [X5c.x509_library], ...) or taken through the classes
    of their module.  A theorem that needs such a piece to behave names the assumption as a
    hypothesis (a hash without a collision between two given inputs, a codec that reads what
    it wrote, an inflater with zlib's documented contract, a [jwt.decode] that returns the token's
    own claims and enforces their [exp] against its clock, a [repr] of floats that is the
    shortest decimal), and its witness instantiates it.  Code of the repository is never such a
    parameter of the pipeline: [Verify.runtime] holds pyld's calls, from which [Verify] builds the
    canonicalization, the context validation and the suites; only [DataIntegrity] and [EcdsaSd],
    taken alone, leave the validator of [ContextValidation] open.

    Time.  Each temporal check is stated against the clock it reads: [VerifyCommon.jwt_window] for
    [exp], [nbf] and [iat], [VerifyCommon.validity_window] for the dates of a credential and its
    proof, [Mdoc.in_validity] for those of a mobile security object, each with the leeway.

    Fuel.  Structural recursion is used where the code recurses on data.  The CBOR decoder, the
    SD-JWT unpacker and the JSON depth bound recurse on the nesting levels left, the bound the
    code itself enforces.  Loops take the length of the input they consume ([Cbor.decode_items],
    [StatusCodec.inflate_loop]) or the bit length of the number they divide
    ([Multibase.b58_digits]) as fuel, and a theorem of the same file shows the out-of-fuel
    outcome unreachable ([decode_errors], [inflate_bounded_spec], [b58btc_roundtrip]).

    ** What the theorems show

    - Acceptance is sound (safety): [verify_credential_sound], [accepted_meets_policy] and
      [issuer_key_binding] for the pipeline; [vp_token_sound], [vci_request_sound],
      [mdoc_verify_sound], [sd_verify_sound], [vc_verify_sound], [di_jcs_verify_sound],
      [disclosure_verify_sound], [vp_verify_sound], [jwe_decrypt_sound] for its parts;
      [x5c_key_sound], [jwt_vc_issuer_key_sound] and [resolve_verification_key_selects] for the keys;
      [check_credential_status_reads_all], [credential_schemas_enforced], [type_metadata_sound] and
      [policy_members_visible] for the checks beside the proof; [trust_chain_sound],
      [ebsi_badge_sound], [node_list_sound], [walk_lote_sound], [walk_lotl_sound],
      [rp_registration_sound] and [authorized_request_within_registration] for trust.  Each
      reads: if the function returns, the input had this signature under this key over these
      bytes, and these policy conditions held.
    - What reaches the network: [https_fetch_connects_safely], [ebsi_reads_reach_only_guarded_origins],
      [run_stays_on_one_node], [expired_client_reads_nothing], [https_body_bounded]; and what reaches
      a log, [credentials_not_in_message].
    - Order: [authenticated_before_parsed] (nothing of a node list is read before its signature);
      [nonces_accepted_once] over every run of an issuer; [verify_many_async_any_schedule] over every
      interleaving of a concurrent batch; [cache_bounded_and_fresh] over every interleaving of
      threads; [node_list_no_rollback] over every sequence of lists.
    - Selective disclosure: [selection_reveals_only], [selection_reveals_pointers],
      [derived_disclosure_verifies], [derived_proof_fails_closed], [undisclosed_claims_are_signed].
    - Codecs and keys: [decode_encode], [canonicalize_faithful], [issued_reveals_exactly],
      [jcs_add_verify_roundtrip], [signed_vc_verifies], [loaded_key_signs], [agreement_shared], and the
      two refinements of an array of statuses.
    - Agreement with a reference: [async_accepts_same] (the asynchronous pipeline against the
      synchronous one), [completeness_decides], [dcql_well_typed], [failover_table].
    - Errors, bounds, termination: [decode_errors], [inflate_bounded_spec], [trust_walk_bounded],
      [registry_walk_bounded], [walk_lote_total], [signing_key_from_jwk_errors].

    ** Not modelled

    Logging and spans ([observability.py]), package exports and the version guard: no value they
    compute reaches a caller.  Of messages, only what keeps a secret out of them ([Messages]) and
    the class of the exception.  RDF expansion, compaction and canonicalization are pyld's; XML
    events are expat's and the enveloped signature signxml's; certificates, curves and key
    formats are the [cryptography] package's; all of these are parameters, as is Python's [repr].
    A subclass of a built-in type that lies about itself, which the code reads through the base
    class, has no counterpart here.

    ** What is left

    Every module that decides something is modelled.  What could be refined further: the shared
    caches of a batch ([Cache]) threaded through [Verify.verify_many], which takes resolvers that
    answer the same each time, and an expansion of JSON-LD of this library's own in the place of
    the parameters of [ContextValidation] and [EcdsaSd].
*)
From Stdlib Require Export ZArith Lia.
From stdpp Require Export base tactics list gmap strings sorting.

#[export] Set Default Goal Selector "!".
#[global] Open Scope Z_scope.

(** * The data of the source language

    Everything numeric in the code is a Python integer, hence [Z]; only list
    positions are [nat].  A Python [str] is its sequence of code points (lone
    surrogates included), a Python [bytes] its sequence of integers below 256. *)
Abbreviation pystr := (list Z).
Abbreviation bytes := (list Z).

(** Literals: [$"abc"] is the Python string ["abc"]. *)
Definition str (s : string) : pystr :=
  (fun a => Z.of_N (Ascii.N_of_ascii a)) <$> String.list_ascii_of_string s.

#[global] Arguments str : simpl never.

Declare Scope py_scope.
Delimit Scope py_scope with py.
Notation "$ s" := (str s%string) (at level 1, s at level 0, format "$ s") : py_scope.
#[global] Open Scope py_scope.

(** Python's [len]. *)
Definition len {A} (l : list A) : Z := Z.of_nat (length l).

Definition is_byte (b : Z) : Prop := 0 <= b < 256.
Definition bytes_ok (l : bytes) : Prop := Forall is_byte l.

#[export] Instance is_byte_dec b : Decision (is_byte b).
Proof. unfold is_byte. apply _. Defined.
#[export] Instance bytes_ok_dec l : Decision (bytes_ok l).
Proof. unfold bytes_ok. apply _. Defined.

(** A slice [l[i:j]] with both bounds inside the list. *)
Definition slice {A} (l : list A) (i j : nat) : list A := take (j - i) (drop i l).

Create HintDb py.

(** * Dictionaries

    A Python dict keeps insertion order, so it is an association list; [dget] is
    [d.get(k)] (or [d[k]] where the key is known), [dset] is [d[k] = v]: in place
    when the key is there, at the end otherwise. *)
Section dict.
Context {K V : Type} `{EqDecision K}.

Fixpoint dget (d : list (K * V)) (k : K) : option V :=
  match d with
  | [] => None
  | (k', v) :: d' => if decide (k = k') then Some v else dget d' k
  end.

Definition dmem (d : list (K * V)) (k : K) : bool :=
  match dget d k with Some _ => true | None => false end.

Fixpoint dset (d : list (K * V)) (k : K) (v : V) : list (K * V) :=
  match d with
  | [] => [(k, v)]
  | (k', v') :: d' => if decide (k = k') then (k', v) :: d' else (k', v') :: dset d' k v
  end.

Definition ddel (d : list (K * V)) (k : K) : list (K * V) :=
  filter (fun kv => kv.1 <> k) d.

(** A dict holds each key once. *)
Definition dict_ok (d : list (K * V)) : Prop := NoDup d.*1.

#[export] Instance dict_ok_dec d : Decision (dict_ok d).
Proof. unfold dict_ok. apply _. Defined.

Lemma dget_Some_elem d k v : dget d k = Some v -> (k, v) ∈ d.
Proof.
  induction d as [|[k' v'] d IH]; simpl; [done|].
  case_decide; intros; simplify_eq; [left|right; auto].
Qed.

Lemma dget_None d k : dget d k = None <-> k ∉ d.*1.
Proof.
  induction d as [|[k' v'] d IH]; simpl; [set_solver|].
  case_decide; set_solver.
Qed.

Lemma dget_elem d k v : dict_ok d -> (k, v) ∈ d -> dget d k = Some v.
Proof.
  unfold dict_ok. induction d as [|[k' v'] d IH]; csimpl; [set_solver|].
  intros [Hni Hnd]%NoDup_cons [Heq|Hin]%elem_of_cons; simplify_eq.
  - by rewrite decide_True.
  - rewrite decide_False; [by apply IH|]. intros ->. apply Hni.
    apply list_elem_of_fmap. by exists (k', v).
Qed.

Lemma dmem_spec d k : dmem d k = true <-> k ∈ d.*1.
Proof.
  unfold dmem. destruct (dget d k) eqn:E.
  - apply dget_Some_elem in E. split; [|done]. intros _.
    apply list_elem_of_fmap. by exists (k, v).
  - apply dget_None in E. naive_solver.
Qed.

Lemma dget_dset d k v k' :
  dget (dset d k v) k' = if decide (k' = k) then Some v else dget d k'.
Proof.
  induction d as [|[k1 v1] d IH]; simpl; [by repeat case_decide|].
  repeat (case_decide; simplify_eq; simpl); congruence.
Qed.

Lemma dset_same d k v : dget d k = Some v -> dset d k v = d.
Proof. induction d as [|[k' v'] d IH]; simpl; [done|]. case_decide; [congruence|]. intros. by rewrite IH. Qed.

Lemma dset_new d k v : k ∉ d.*1 -> dset d k v = d ++ [(k, v)].
Proof.
  induction d as [|[k1 v1] d IH]; csimpl; [done|]. intros Hni.
  rewrite decide_False, IH by set_solver. done.
Qed.

Lemma dset_keys_old d k v : k ∈ d.*1 -> (dset d k v).*1 = d.*1.
Proof.
  induction d as [|[k1 v1] d IH]; csimpl; [set_solver|]. intros Hin.
  case_decide; csimpl; [done|]. rewrite IH; [done|set_solver].
Qed.

Lemma dset_ok d k v : dict_ok d -> dict_ok (dset d k v).
Proof.
  unfold dict_ok. intros Hd. destruct (decide (k ∈ d.*1)).
  - by rewrite dset_keys_old.
  - rewrite dset_new by done. rewrite fmap_app. apply NoDup_app. csimpl.
    split_and!; [done|set_solver|]. apply NoDup_singleton.
Qed.

Lemma ddel_elem d k kv : kv ∈ ddel d k <-> kv.1 <> k /\ kv ∈ d.
Proof. unfold ddel. by rewrite list_elem_of_filter. Qed.

Lemma ddel_ok d k : dict_ok d -> dict_ok (ddel d k).
Proof.
  unfold dict_ok, ddel. induction d as [|[k1 v1] d IH]; [done|].
  csimpl. intros [Hni Hnd]%NoDup_cons. rewrite filter_cons. case_decide; [|by apply IH].
  csimpl. constructor; [|by apply IH]. intros Hin. apply Hni.
  apply list_elem_of_fmap in Hin as [kv [-> Hin]]. apply list_elem_of_filter in Hin.
  apply list_elem_of_fmap. naive_solver.
Qed.

Lemma ddel_dget d k k' : dget (ddel d k) k' = if decide (k' = k) then None else dget d k'.
Proof.
  unfold ddel. induction d as [|[k1 v1] d IH]; [by case_decide|].
  rewrite filter_cons. simpl.
  repeat (case_decide; simplify_eq; simpl); congruence.
Qed.

Lemma ddel_length d k : (length (ddel d k) <= length d)%nat.
Proof. unfold ddel. apply length_filter. Qed.
End dict.

#[export] Hint Resolve dset_ok ddel_ok : py.

(** * Machine integers as byte strings *)

(** [int.from_bytes(data, "big")]. *)
Definition from_bytes_be (data : bytes) : Z :=
  foldl (fun acc b => acc * 256 + b) 0 data.

(** [n.to_bytes(k, "big")] for [0 <= n < 256 ^ k]. *)
Fixpoint to_bytes_be (k : nat) (n : Z) : bytes :=
  match k with
  | O => []
  | S k' => to_bytes_be k' (n / 256) ++ [n mod 256]
  end.

(** [n.bit_length()] of a non-negative integer. *)
Definition bit_length (n : Z) : Z := if n =? 0 then 0 else Z.log2 n + 1.

Lemma from_bytes_be_snoc l b : from_bytes_be (l ++ [b]) = from_bytes_be l * 256 + b.
Proof. unfold from_bytes_be. by rewrite foldl_app. Qed.

Lemma from_bytes_be_cons b l : from_bytes_be (b :: l) = b * 256 ^ len l + from_bytes_be l.
Proof.
  unfold len. induction l as [|x l IH] using rev_ind; [unfold from_bytes_be; simpl; lia|].
  change (b :: l ++ [x]) with ((b :: l) ++ [x]).
  rewrite !from_bytes_be_snoc, IH, length_app, Nat2Z.inj_add, Z.pow_add_r by lia.
  change (256 ^ Z.of_nat (length [x])) with 256. lia.
Qed.

Lemma length_to_bytes_be k n : length (to_bytes_be k n) = k.
Proof. revert n. induction k; intros; simpl; [done|]. rewrite length_app, IHk. simpl. lia. Qed.

Lemma to_bytes_be_ok k n : bytes_ok (to_bytes_be k n).
Proof.
  revert n. induction k; intros; simpl; [constructor|].
  apply Forall_app; split; [apply IHk|]. repeat constructor; apply Z.mod_pos_bound; lia.
Qed.

Lemma from_to_bytes_be k n : 0 <= n < 256 ^ Z.of_nat k -> from_bytes_be (to_bytes_be k n) = n.
Proof.
  revert n. induction k as [|k IH]; intros n Hn.
  - simpl in *. unfold from_bytes_be. simpl. lia.
  - simpl to_bytes_be. rewrite from_bytes_be_snoc, IH.
    + pose proof (Z_div_mod_eq_full n 256). lia.
    + rewrite Nat2Z.inj_succ, Z.pow_succ_r in Hn by lia. split.
      * apply Z.div_pos; lia.
      * apply Z.div_lt_upper_bound; lia.
Qed.

Lemma from_bytes_be_bounds l : bytes_ok l -> 0 <= from_bytes_be l < 256 ^ len l.
Proof.
  unfold bytes_ok, len. induction l as [|b l IH] using rev_ind; intros Hl.
  - unfold from_bytes_be; simpl; lia.
  - apply Forall_app in Hl as [Hl [Hb _]%Forall_cons]. specialize (IH Hl).
    rewrite from_bytes_be_snoc, length_app, Nat2Z.inj_add.
    change (Z.of_nat (length [b])) with 1.
    rewrite Z.pow_add_r, Z.pow_1_r by lia. unfold is_byte in Hb. nia.
Qed.

Lemma to_from_bytes_be l : bytes_ok l -> to_bytes_be (length l) (from_bytes_be l) = l.
Proof.
  unfold bytes_ok. induction l as [|b l IH] using rev_ind; intros Hl; [done|].
  apply Forall_app in Hl as [Hl [Hb _]%Forall_cons]. unfold is_byte in Hb.
  rewrite length_app, Nat.add_comm, from_bytes_be_snoc. simpl.
  rewrite Z.div_add_l, (Z.div_small b), Z.add_0_r, IH by (done || lia).
  by rewrite Z.add_comm, Z.mod_add, Z.mod_small by lia.
Qed.

Lemma from_bytes_be_inj l1 l2 :
  bytes_ok l1 -> bytes_ok l2 -> length l1 = length l2 ->
  from_bytes_be l1 = from_bytes_be l2 -> l1 = l2.
Proof. intros. rewrite <-(to_from_bytes_be l1), <-(to_from_bytes_be l2) by done. congruence. Qed.

(** * Lexicographic order and stable sorting

    Python compares [bytes] and tuples of integers lexicographically, a proper
    prefix first. *)
Fixpoint lex_leb (l1 l2 : list Z) : bool :=
  match l1, l2 with
  | [], _ => true
  | _ :: _, [] => false
  | x :: l1, y :: l2 => if x =? y then lex_leb l1 l2 else x <? y
  end.

Definition lex_le (l1 l2 : list Z) : Prop := lex_leb l1 l2 = true.

#[export] Instance lex_le_dec : RelDecision lex_le.
Proof. intros ??. unfold lex_le. apply _. Defined.

#[export] Instance lex_le_trans : Transitive lex_le.
Proof.
  unfold lex_le. intros x y z; revert y z.
  induction x as [|a x IH]; intros [|b y] [|c z]; simpl; try done.
  destruct (Z.eqb_spec a b), (Z.eqb_spec b c), (Z.eqb_spec a c); subst; try lia; eauto.
Qed.

#[export] Instance lex_le_antisymm : AntiSymm (=) lex_le.
Proof.
  unfold lex_le. intros x; induction x as [|a x IH]; intros [|b y]; simpl; try done.
  destruct (Z.eqb_spec a b), (Z.eqb_spec b a); subst; try lia. intros. f_equal. eauto.
Qed.

#[export] Instance lex_le_total : Total lex_le.
Proof.
  unfold lex_le. intros x; induction x as [|a x IH]; intros [|b y]; simpl; auto.
  destruct (Z.eqb_spec a b), (Z.eqb_spec b a); subst; auto; try lia.
Qed.

(** [sorted(l, key=key)] for keys compared lexicographically: insertion sort, which
    is stable as Python's sort is. *)
Section sort_by.
Context {A : Type} (key : A -> list Z).

Fixpoint insert_by (x : A) (l : list A) : list A :=
  match l with
  | [] => [x]
  | y :: l' => if lex_leb (key x) (key y) then x :: l else y :: insert_by x l'
  end.

Definition sort_by (l : list A) : list A := foldr insert_by [] l.

Definition key_le (x y : A) : Prop := lex_le (key x) (key y).

#[export] Instance key_le_trans : Transitive key_le.
Proof. intros x y z; unfold key_le. apply lex_le_trans. Qed.

Lemma insert_by_perm x l : insert_by x l ≡ₚ x :: l.
Proof.
  induction l as [|y l IH]; simpl; [done|]. case_match; [done|]. rewrite IH. constructor.
Qed.

Lemma sort_by_perm l : sort_by l ≡ₚ l.
Proof. induction l; simpl; [done|]. rewrite insert_by_perm. by f_equiv. Qed.

Lemma insert_by_sorted x l : StronglySorted key_le l -> StronglySorted key_le (insert_by x l).
Proof.
  induction 1 as [|y l Hl IH Hy]; simpl; [repeat constructor|].
  case_match eqn:E.
  - repeat constructor; [done..|]. eapply Forall_impl; [done|].
    intros z Hz. by trans y.
  - constructor; [done|]. rewrite insert_by_perm. constructor; [|done].
    destruct (total lex_le (key x) (key y)) as [H|H]; [|done].
    unfold lex_le in H. congruence.
Qed.

Lemma sort_by_sorted l : StronglySorted key_le (sort_by l).
Proof. induction l; simpl; [constructor|]. by apply insert_by_sorted. Qed.

Lemma insert_by_id x l : Forall (key_le x) l -> insert_by x l = x :: l.
Proof.
  destruct l as [|y l]; [done|]. intros [Hy _]%Forall_cons. simpl.
  unfold key_le, lex_le in Hy. by rewrite Hy.
Qed.

Lemma sort_by_id l : StronglySorted key_le l -> sort_by l = l.
Proof.
  induction 1 as [|x l Hl IH Hx]; simpl; [done|]. by rewrite IH, insert_by_id.
Qed.

(** With distinct keys the sorted list depends on the set of elements only. *)
Lemma sort_by_unique l1 l2 :
  NoDup (key <$> l1) -> l1 ≡ₚ l2 -> sort_by l1 = sort_by l2.
Proof.
  intros Hnd Hp. eapply StronglySorted_unique_strong; [|apply sort_by_sorted..|].
  - intros x y Hx Hy Hxy Hyx. rewrite sort_by_perm in Hx. rewrite sort_by_perm, <-Hp in Hy.
    apply (anti_symm lex_le) in Hxy as Hk; [|done].
    apply list_elem_of_lookup in Hx as [i Hi], Hy as [j Hj].
    assert (i = j) as <-; [|congruence].
    eapply NoDup_lookup; [done|..]; rewrite list_lookup_fmap.
    + by rewrite Hi.
    + by rewrite Hj; simpl; rewrite Hk.
  - by rewrite !sort_by_perm.
Qed.
End sort_by.

(** * Bit fields *)

Lemma testbit_small r s i : 0 <= s -> 0 <= r < 2 ^ s -> s <= i -> Z.testbit r i = false.
Proof.
  intros Hs Hr Hi. destruct (Z.eq_dec r 0) as [->|]; [apply Z.bits_0|].
  apply Z.bits_above_log2; [lia|]. eapply Z.lt_le_trans; [|done]. apply Z.log2_lt_pow2; lia.
Qed.

Lemma land_shiftl_disjoint r x s : 0 <= s -> 0 <= r < 2 ^ s -> Z.land r (Z.shiftl x s) = 0.
Proof.
  intros Hs Hr. apply Z.bits_inj'. intros i Hi. rewrite Z.land_spec, Z.bits_0.
  destruct (decide (i < s)).
  - by rewrite Z.shiftl_spec_low, andb_false_r by lia.
  - by rewrite (testbit_small r s i) by lia.
Qed.

Lemma lor_shiftl_add r x s : 0 <= s -> 0 <= r < 2 ^ s -> Z.lor r (Z.shiftl x s) = r + x * 2 ^ s.
Proof.
  intros Hs Hr. pose proof (land_shiftl_disjoint r x s Hs Hr) as Hd.
  rewrite <-Z.lxor_lor, <-Z.add_nocarry_lxor, Z.shiftl_mul_pow2 by done. done.
Qed.

Lemma land_ones_mod a n : 0 <= n -> Z.land a (2 ^ n - 1) = a mod 2 ^ n.
Proof. intros. rewrite <-Z.land_ones, Z.ones_equiv by done. f_equal; lia. Qed.

(** * Slices *)

Lemma slice_app {A} (pre b post : list A) i j :
  i = length pre -> j = (length pre + length b)%nat -> slice (pre ++ b ++ post) i j = b.
Proof.
  intros -> ->. unfold slice. rewrite drop_app_length.
  replace (length pre + length b - length pre)%nat with (length b) by lia.
  apply take_app_length.
Qed.

Lemma length_slice {A} (l : list A) i j : (j <= length l)%nat -> length (slice l i j) = (j - i)%nat.
Proof. intros. unfold slice. rewrite length_take, length_drop. lia. Qed.

Lemma slice_ok (l : bytes) i j : bytes_ok l -> bytes_ok (slice l i j).
Proof. intros. apply Forall_take, Forall_drop. done. Qed.

Lemma slice_split {A} (l : list A) i j :
  (i <= j <= length l)%nat -> l = take i l ++ slice l i j ++ drop j l.
Proof.
  intros. unfold slice. rewrite <-(take_drop i l) at 1. f_equal.
  rewrite <-(take_drop (j - i) (drop i l)) at 1. f_equal. rewrite drop_drop. f_equal. lia.
Qed.

#[export] Hint Resolve slice_ok : py.

Lemma sort_by_map {A B} (key : B -> list Z) (f : A -> B) l :
  sort_by key (map f l) = map f (sort_by (fun x => key (f x)) l).
Proof.
  assert (forall x l, insert_by key (f x) (map f l) = map f (insert_by (fun x => key (f x)) x l)) as Hi.
  { intros x l'. induction l' as [|y l' IH]; simpl; [done|]. case_match; [done|]. simpl. by rewrite IH. }
  induction l as [|x l IH]; simpl; [done|]. by rewrite IH, Hi.
Qed.

Lemma elem_of_sort_by {A} (key : A -> list Z) x l : x ∈ sort_by key l <-> x ∈ l.
Proof. by rewrite sort_by_perm. Qed.

Lemma length_sort_by {A} (key : A -> list Z) l : length (sort_by key l) = length l.
Proof. by rewrite sort_by_perm. Qed.

Lemma Forall2_impl_elem {A B} (P Q : A -> B -> Prop) l k :
  Forall2 P l k -> (forall x y, x ∈ l -> P x y -> Q x y) -> Forall2 Q l k.
Proof. induction 1; constructor; set_solver. Qed.

Lemma slice_app_slice {A} (l : list A) i j k :
  (i <= j <= k)%nat -> slice l i j ++ slice l j k = slice l i k.
Proof.
  intros. unfold slice. replace (drop j l) with (drop (j - i) (drop i l)).
  2:{ rewrite drop_drop. f_equal. lia. }
  replace (k - i)%nat with ((j - i) + (k - j))%nat by lia.
  by rewrite take_take_drop.
Qed.

Lemma slice_empty {A} (l : list A) i : slice l i i = [].
Proof. unfold slice. by rewrite Nat.sub_diag. Qed.

Lemma Forall2_elem_l {A B} (P : A -> B -> Prop) l k x :
  Forall2 P l k -> x ∈ l -> exists y, y ∈ k /\ P x y.
Proof. induction 1; intros Hin; [set_solver|]. apply elem_of_cons in Hin as [->|Hin]; set_solver. Qed.

Lemma dget_app {K V} `{EqDecision K} (d1 d2 : list (K * V)) k :
  dget (d1 ++ d2) k = match dget d1 k with Some v => Some v | None => dget d2 k end.
Proof. induction d1 as [|[k' v'] d1 IH]; simpl; [done|]. by case_decide. Qed.

Lemma NoDup_omap {A B} (f : A -> option B) l :
  (forall x y z, x ∈ l -> y ∈ l -> f x = Some z -> f y = Some z -> x = y) -> NoDup l -> NoDup (omap f l).
Proof.
  intros Hf. induction 1 as [|x l Hx Hl IH]; simpl; [constructor|].
  assert (NoDup (omap f l)) by (apply IH; intros; eapply Hf; eauto; by right).
  destruct (f x) as [z|] eqn:E; [|done]. constructor; [|done].
  intros (y & Hy & Hfy)%list_elem_of_omap. apply Hx. rewrite (Hf x y z); [done|left|by right|done|done].
Qed.

Lemma sublist_map_inv {A B} (f : A -> B) l k : k `sublist_of` map f l -> exists k', k = map f k' /\ k' `sublist_of` l.
Proof.
  revert k. induction l as [|x l IH]; simpl; intros k H.
  - apply sublist_nil_r in H as ->. by exists [].
  - apply sublist_cons_r in H as [H|(k' & -> & H)]; apply IH in H as (j & -> & ?).
    + exists j. split; [done|]. by apply sublist_cons.
    + exists (x :: j). split; [done|]. by apply sublist_skip.
Qed.

Lemma existsb_false_Forall {A} (f : A -> bool) l : existsb f l = false <-> Forall (fun x => f x = false) l.
Proof.
  induction l as [|x l IH]; cbn; [split; [constructor|done]|]. by rewrite orb_false_iff, Forall_cons, IH.
Qed.
