(* ===== verification/Errors.v ===== *)
(** Exceptions and fallible computations: the exception classes of
    [src/src/openvc/errors.py], [proof/errors.py] and the modules modelled here with
    their base classes, and the [result] monad every fallible operation returns. *)
From S2P Require Import Prelude.

(** One constructor per class the modelled code raises, catches or derives from.
    Messages carry no behaviour and are left out. *)
Inductive exn :=
  (* built-in and standard-library classes *)
  | PyException | ValueError | UnicodeEncodeError | UnicodeDecodeError | JSONDecodeError
  | LookupError | KeyError | IndexError | TypeError | AttributeError | ArithmeticError | OverflowError
  | RuntimeError | RecursionError | OSError | GaiError | EOFError | ZlibError | AssertionError
  (* openvc.errors *)
  | OpenvcError | VerificationError | KeyResolutionFailed
  (* openvc.proof.errors *)
  | ProofError | SignatureInvalid | ProofMalformed | UnsupportedCryptosuite
  | UnsupportedAlgorithm | MalformedToken | ClaimsInvalid | CredentialExpired
  | CredentialNotYetValid | MalformedTimestamp | ProofPurposeMismatch
  | KeyResolutionError | PresentationBindingError
  (* the modules' own classes *)
  | MultibaseError | CborError | JcsError | SdJwtError
  | StatusListError | CredentialRevoked | CredentialSuspended | DecompressionBomb
  | SchemaError | SchemaResolutionError
  | TypeMetadataError | TypeMetadataResolutionError | TypeMetadataMismatch
  | TypeMetadataClaimsInvalid
  | OpenID4VPError | VpTokenMalformed | VpTokenIncomplete | UnsupportedPresentationFormat
  | DidError | UnsupportedDidMethod | DidResolutionError | UnsafeUrlError
  | UnknownCredentialFormat | TypeMismatch | IssuerBindingError | StatusListIssuerUntrusted
  | StatusUnavailable | InvalidPolicy
  | KeyBackendError | CoseError | CoseMalformed | CoseUnsupportedAlgorithm
  | MdocError | MdocMalformed | MdocTrustError | MdocSignatureInvalid | MdocDigestMismatch
  | MdocValidityError | MdocDocTypeMismatch
  | SchemaUnavailable | SchemaBackendUnavailable | UnsupportedSchemaType | SchemaValidationError
  | RpRegistrationError | JwtVcIssuerError | DidWebvhError
  | OpenID4VCIError | CredentialRequestMalformed | CredentialOfferMalformed
  | IssuerMetadataMalformed | UnsupportedProofType | ProofReplayed
  | InvalidKey | DataIntegrityError | EcdsaSdError | ProofValueMalformed | DocumentLoaderError
  | JweError | JweMalformed | UnsupportedJweAlgorithm | JweDecryptionFailed | X5cError | RpCertError | MdocDeviceAuthError
  (* openvc_ebsi *)
  | EbsiError | MalformedRegistryResponse | HttpError | HttpNotFound | HttpForbiddenHost
  | TrustChainError | NoTrustedAnchor | AccreditationInvalid | AccreditationRevoked
  | EbsiVerificationError | VerificationMethodNotFound | IssuerNotTrusted
  | NodeListError | NodeListMalformed | NodeListSignatureError | NodeListThresholdError
  | NodeListRollback | NodeListExpired | NodeListNotYetValid | NodeListStale | NoHealthyNode
  | NodeListConfigError | NodeListEnvironmentMissing | OpenPgpError | NodeClientConfigError
  | HttpTransientExhausted | HttpUnexpectedEncoding | HttpForbiddenAddress | HttpAddressResolutionFailed
  | HttpAddressGuardUnavailable | UnknownEbsiEnvironment | NodeDerivedEnvironment
  (* httpx and http.client *)
  | TransportError | InvalidURL | DecodingError | HTTPException
  (* openvc.trustlist *)
  | TrustListError | TrustListParseError | TrustListSignatureUnavailable | TrustListSignatureError
  | TrustListProfileError | TrustListSignatureBackendUnavailable | ExpatError
  (* whatever a function the caller injects raises *)
  | CallerError (code : Z).

#[export] Instance exn_eq_dec : EqDecision exn.
Proof. solve_decision. Defined.

(** The classes of the library (as opposed to the built-in ones). *)
Definition bases (e : exn) : list exn :=
  match e with
  | PyException => []
  | ValueError | LookupError | TypeError | AttributeError | ArithmeticError | RuntimeError | OSError
  | EOFError | ZlibError | AssertionError | ExpatError | OpenvcError | JcsError | DecompressionBomb
  | TransportError | InvalidURL | DecodingError | HTTPException
  | CallerError _ => [PyException]
  | UnicodeEncodeError | UnicodeDecodeError | JSONDecodeError => [ValueError]
  | KeyError | IndexError => [LookupError]
  | OverflowError => [ArithmeticError]
  | RecursionError => [RuntimeError]
  | GaiError => [OSError]
  | VerificationError | ProofError | MultibaseError | CborError
  | StatusListError | CredentialRevoked | CredentialSuspended | SchemaError
  | TypeMetadataError | OpenID4VPError | DidError => [OpenvcError]
  | KeyResolutionFailed | UnknownCredentialFormat | TypeMismatch | IssuerBindingError
  | StatusListIssuerUntrusted | StatusUnavailable => [VerificationError]
  | SignatureInvalid | ProofMalformed | UnsupportedCryptosuite | UnsupportedAlgorithm
  | MalformedToken | ClaimsInvalid | CredentialExpired | CredentialNotYetValid
  | MalformedTimestamp | ProofPurposeMismatch | PresentationBindingError
  | SdJwtError | InvalidPolicy => [ProofError]
  | KeyResolutionError => [ProofError; KeyResolutionFailed]
  | SchemaResolutionError => [SchemaError]
  | TypeMetadataResolutionError | TypeMetadataMismatch
  | TypeMetadataClaimsInvalid => [TypeMetadataError]
  | VpTokenMalformed | UnsupportedPresentationFormat => [OpenID4VPError]
  | VpTokenIncomplete => [VpTokenMalformed]
  | UnsupportedDidMethod | DidResolutionError => [DidError]
  | UnsafeUrlError | DidWebvhError => [DidResolutionError]
  | KeyBackendError | CoseError | MdocError | RpRegistrationError | JwtVcIssuerError
  | OpenID4VCIError | DocumentLoaderError | JweError | X5cError
  | RpCertError | EbsiError | TrustListError => [OpenvcError]
  | TrustListParseError | TrustListSignatureUnavailable | TrustListSignatureError
  | TrustListProfileError => [TrustListError]
  | TrustListSignatureBackendUnavailable => [TrustListSignatureUnavailable]
  | JweMalformed | UnsupportedJweAlgorithm | JweDecryptionFailed => [JweError]
  | DataIntegrityError | EcdsaSdError => [ProofError]
  | ProofValueMalformed => [EcdsaSdError]
  | InvalidKey => [KeyBackendError]
  | MalformedRegistryResponse | HttpError | TrustChainError | EbsiVerificationError | NodeListError
  | NoHealthyNode => [EbsiError]
  | HttpNotFound | HttpForbiddenHost | HttpTransientExhausted | HttpUnexpectedEncoding | HttpAddressResolutionFailed
  | HttpAddressGuardUnavailable => [HttpError]
  | HttpForbiddenAddress => [HttpForbiddenHost]
  | NodeDerivedEnvironment => [UnknownEbsiEnvironment]
  | NoTrustedAnchor | AccreditationInvalid | AccreditationRevoked => [TrustChainError]
  | VerificationMethodNotFound | IssuerNotTrusted => [EbsiVerificationError]
  | NodeListMalformed | NodeListSignatureError | NodeListThresholdError | NodeListRollback
  | NodeListExpired | NodeListNotYetValid | NodeListStale | NodeListConfigError
  | NodeListEnvironmentMissing => [NodeListError]
  | OpenPgpError => [NodeListMalformed]
  | NodeClientConfigError | UnknownEbsiEnvironment => [EbsiError; ValueError]
  | CoseMalformed | CoseUnsupportedAlgorithm => [CoseError]
  | MdocMalformed | MdocTrustError | MdocSignatureInvalid | MdocDigestMismatch
  | MdocValidityError | MdocDocTypeMismatch | MdocDeviceAuthError => [MdocError]
  | SchemaUnavailable | SchemaBackendUnavailable | UnsupportedSchemaType
  | SchemaValidationError => [SchemaError]
  | CredentialRequestMalformed | CredentialOfferMalformed | IssuerMetadataMalformed
  | UnsupportedProofType | ProofReplayed => [OpenID4VCIError]
  end.

(** [isinstance(e, c)], the reflexive-transitive closure of [bases]; no class is more
    than five steps below [Exception]. *)
Fixpoint isinstance_fuel (fuel : nat) (e c : exn) : bool :=
  bool_decide (e = c) ||
  match fuel with
  | O => false
  | S fuel => existsb (fun b => isinstance_fuel fuel b c) (bases e)
  end.

Definition isinstance (e c : exn) : bool := isinstance_fuel 5 e c.

(** * Results *)

Inductive result (A : Type) := Ok (a : A) | Err (e : exn).
Arguments Ok {A} _.
Arguments Err {A} _.

#[export] Instance result_ret : MRet result := @Ok.
#[export] Instance result_bind : MBind result :=
  fun A B f m => match m with Ok a => f a | Err e => Err e end.
#[export] Instance result_fmap : FMap result :=
  fun A B f m => match m with Ok a => Ok (f a) | Err e => Err e end.

#[export] Instance result_eq_dec {A} `{EqDecision A} : EqDecision (result A).
Proof. solve_decision. Defined.

(** [if b: raise e]. *)
Definition raise_if (b : bool) (e : exn) : result unit := if b then Err e else Ok tt.

(** [try: m except <caught> as exc: raise e from exc]. *)
Definition catch_as {A} (caught : exn -> bool) (e : exn) (m : result A) : result A :=
  match m with
  | Ok a => Ok a
  | Err e' => if caught e' then Err e else Err e'
  end.

Definition is_ok {A} (m : result A) : bool := match m with Ok _ => true | Err _ => false end.

(** [[f(x) for x in l]] for an [f] that may raise: the first failure ends it. *)
Fixpoint mapR {A B} (f : A -> result B) (l : list A) : result (list B) :=
  match l with
  | [] => Ok []
  | x :: l => y ← f x; ys ← mapR f l; Ok (y :: ys)
  end.

(** [for x in l: acc = f(acc, x)] for an [f] that may raise. *)
Fixpoint foldR {A B} (f : B -> A -> result B) (b : B) (l : list A) : result B :=
  match l with
  | [] => Ok b
  | x :: l => b' ← f b x; foldR f b' l
  end.

(** Every failure of a computation is one of the classes [P] allows. *)
Definition errs_in {A} (P : exn -> Prop) (m : result A) : Prop :=
  forall e, m = Err e -> P e.

Lemma bind_Ok {A B} (m : result A) (f : A -> result B) b :
  (m ≫= f) = Ok b <-> exists a, m = Ok a /\ f a = Ok b.
Proof. destruct m; cbn; naive_solver. Qed.

Lemma bind_ext {A B} (m : result A) (f g : A -> result B) : (forall a, m = Ok a -> f a = g a) -> (m ≫= f) = (m ≫= g).
Proof. destruct m; cbn; [intros H; by apply H|done]. Qed.

Lemma bind_Err {A B} (m : result A) (f : A -> result B) e :
  (m ≫= f) = Err e <-> m = Err e \/ exists a, m = Ok a /\ f a = Err e.
Proof. destruct m; cbn; naive_solver. Qed.

Lemma raise_if_Ok b e u : raise_if b e = Ok u <-> b = false.
Proof. destruct b, u; cbn; naive_solver. Qed.

Lemma raise_if_Err b e e' : raise_if b e = Err e' <-> b = true /\ e' = e.
Proof. destruct b; cbn; naive_solver. Qed.

Lemma errs_in_bind {A B} P (m : result A) (f : A -> result B) :
  errs_in P m -> (forall a, m = Ok a -> errs_in P (f a)) -> errs_in P (m ≫= f).
Proof. intros Hm Hf e [He|(a & Ha & He)]%bind_Err; [by apply Hm|]. by eapply Hf. Qed.

Lemma errs_in_Ok {A} P (a : A) : errs_in P (Ok a).
Proof. by intros e. Qed.

Lemma errs_in_Err {A} (P : exn -> Prop) e : P e -> @errs_in A P (Err e).
Proof. intros ? e' [= ->]. done. Qed.

Lemma errs_in_raise_if (P : exn -> Prop) b e : P e -> errs_in P (raise_if b e).
Proof. intros ? e' [_ ->]%raise_if_Err. done. Qed.

Lemma errs_in_impl {A} (P Q : exn -> Prop) (m : result A) :
  (forall e, P e -> Q e) -> errs_in P m -> errs_in Q m.
Proof. unfold errs_in. naive_solver. Qed.

Lemma Ok_inj {A} (a b : A) : Ok a = Ok b -> a = b.
Proof. by intros [= ->]. Qed.

Lemma catch_as_Ok {A} caught e (m : result A) a : catch_as caught e m = Ok a <-> m = Ok a.
Proof. destruct m; cbn; [done|]. case_match; done. Qed.

Lemma catch_as_errs {A} caught e (m : result A) :
  errs_in (fun x => caught x = true) m -> errs_in (eq e) (catch_as caught e m).
Proof. intros Hm x. destruct m as [a|x']; simpl; [done|]. rewrite (Hm x') by done. by intros [= ->]. Qed.

Lemma mapR_Ok {A B} (f : A -> result B) l ys :
  mapR f l = Ok ys <-> Forall2 (fun x y => f x = Ok y) l ys.
Proof.
  revert ys. induction l as [|x l IH]; intros ys; simpl.
  - split; [intros [= <-]; constructor|]. by intros ->%Forall2_nil_inv_l.
  - rewrite bind_Ok. setoid_rewrite bind_Ok. split.
    + intros (y & Hy & ys' & Hys & [= <-]). constructor; [done|]. by apply IH.
    + intros (y & ys' & Hy & Hys & ->)%Forall2_cons_inv_l. exists y. split; [done|].
      exists ys'. by rewrite IH.
Qed.

Lemma mapR_map {A B C} (f : B -> result C) (g : A -> B) l :
  mapR f (map g l) = mapR (fun x => f (g x)) l.
Proof. induction l as [|x l IH]; simpl; [done|]. by rewrite IH. Qed.

Lemma mapR_total {A B} (f : A -> result B) l :
  Forall (fun x => exists y, f x = Ok y) l -> exists ys, mapR f l = Ok ys.
Proof.
  induction 1 as [|x l [y Hy] _ [ys Hys]]; simpl; [by eexists|].
  rewrite Hy. cbn. rewrite Hys. by eexists.
Qed.

(** A [mapR] fails with the error of the first element that fails. *)
Lemma mapR_Err {A B} (f : A -> result B) l e :
  mapR f l = Err e <-> exists i x, l !! i = Some x /\ f x = Err e /\
    forall j y, (j < i)%nat -> l !! j = Some y -> exists b, f y = Ok b.
Proof.
  induction l as [|x l IH]; cbn [mapR].
  - split; [done|]. by intros (i & x & H & _).
  - destruct (f x) as [b|e'] eqn:E; cbn [mbind result_bind].
    + transitivity (mapR f l = Err e); [destruct (mapR f l); cbn; split; congruence|]. rewrite IH. split.
      * intros (i & y & Hi & Hy & Hj). exists (S i), y. split; [done|]. split; [done|]. intros [|j] z Hlt Hz.
        -- injection Hz as <-. by exists b.
        -- by apply (Hj j); [lia|].
      * intros ([|i] & y & Hi & Hy & Hj); [injection Hi as <-; congruence|]. exists i, y. split; [done|]. split; [done|].
        intros j z Hlt Hz. apply (Hj (S j)); [lia|done].
    + split; [intros [= ->]; by exists 0%nat, x; split_and!; [..|lia]|].
      intros ([|i] & y & Hi & Hy & Hj); [injection Hi as <-; congruence|].
      destruct (Hj 0%nat x) as [b Hb]; [lia|done|congruence].
Qed.

(** [enumerate]: the results are those of the positions, one by one. *)
Lemma mapR_imap_Ok {A B} (f : nat * A -> result B) l ys :
  mapR f (imap (fun i x => (i, x)) l) = Ok ys ->
  length ys = length l /\ forall i x y, l !! i = Some x -> ys !! i = Some y -> f (i, x) = Ok y.
Proof.
  intros H%mapR_Ok. pose proof (Forall2_length _ _ _ H) as Hl. rewrite length_imap in Hl. split; [done|].
  intros i x y Hx Hy. assert (imap (fun i x => (i, x)) l !! i = Some (i, x)) as Hi by (rewrite list_lookup_imap, Hx; done).
  destruct (Forall2_lookup_l _ _ _ _ _ H Hi) as (y' & Hy' & Hf). rewrite Hy in Hy'. by injection Hy' as <-.
Qed.

Lemma mapR_errs_in {A B} P (f : A -> result B) l :
  (forall x, x ∈ l -> errs_in P (f x)) -> errs_in P (mapR f l).
Proof.
  induction l as [|x l IH]; intros Hf; simpl; [apply errs_in_Ok|].
  apply errs_in_bind; [apply Hf; left|]. intros y _.
  apply errs_in_bind; [apply IH; intros; apply Hf; by right|]. intros; apply errs_in_Ok.
Qed.

(** What every iteration of a loop preserves holds when it ends. *)
Lemma foldR_inv {A B} (I : B -> Prop) (f : B -> A -> result B) b l b' :
  foldR f b l = Ok b' -> I b -> (forall b x b', x ∈ l -> I b -> f b x = Ok b' -> I b') -> I b'.
Proof.
  revert b. induction l as [|x l IH]; intros b H Hb Hf; simpl in H; [by injection H as <-|].
  apply bind_Ok in H as (c & Hc & H). eapply IH; [done| |intros; eapply Hf; [by right|done..]].
  eapply Hf; [left|done|done].
Qed.

Lemma foldR_errs_in {A B} P (f : B -> A -> result B) b l :
  (forall b x, x ∈ l -> errs_in P (f b x)) -> errs_in P (foldR f b l).
Proof.
  revert b. induction l as [|x l IH]; intros b Hf; simpl; [apply errs_in_Ok|].
  apply errs_in_bind; [apply Hf; left|]. intros c _. apply IH. intros; apply Hf; by right.
Qed.

Lemma foldR_app {A B} (f : B -> A -> result B) b l k :
  foldR f b (l ++ k) = (c ← foldR f b l; foldR f c k).
Proof. revert b. induction l as [|x l IH]; intros b; simpl; [done|]. destruct (f b x); simpl; [apply IH|done]. Qed.

#[export] Hint Resolve errs_in_Ok errs_in_Err errs_in_raise_if : py.

(** Take a successful or failed computation apart, one binding at a time. *)
Ltac inv_result :=
  repeat match goal with
  | H : (_ ≫= _) = Ok _ |- _ => apply bind_Ok in H; destruct H as (? & ? & ?)
  | H : raise_if _ _ = Ok _ |- _ => apply raise_if_Ok in H
  | H : Ok _ = Ok _ |- _ => injection H; clear H; intros
  | H : Err _ = Ok _ |- _ => discriminate H
  | H : Ok _ = Err _ |- _ => discriminate H
  end; subst.

(** Prove that a computation raises only what [P] allows by following its structure. *)
Ltac solve_errs :=
  repeat first
    [ apply errs_in_Ok
    | apply errs_in_Err; solve [eauto with py]
    | apply errs_in_raise_if; solve [eauto with py]
    | apply errs_in_bind; [|intros]
    | case_match
    | solve [eauto with py] ].
