(* ===== verification/Effects.v ===== *)
(** Computations that read a world, change a state and fail: the code that talks to sockets,
    clocks and resolvers.

    The state of such a computation holds what has happened so far, and an answer of the world is
    a function of it.  [X] is the type of the failures. *)
From S2P Require Import Prelude Errors.

Inductive outcome (X A : Type) := Done (a : A) | Failed (x : X).
Arguments Done {X A} _.
Arguments Failed {X A} _.

Definition io (X S A : Type) : Type := S -> outcome X A * S.

#[export] Instance io_ret {X S} : MRet (io X S) := fun A a s => (Done a, s).
#[export] Instance io_bind {X S} : MBind (io X S) := fun A B f m s =>
  let '(r, s) := m s in match r with Done a => f a s | Failed x => (Failed x, s) end.

Section io.
Context {X S : Type}.

Definition raise {A} (x : X) : io X S A := fun s => (Failed x, s).
Definition raise_when (b : bool) (x : X) : io X S unit := if b then raise x else mret tt.
(** What was raised, as a value. *)
Definition attempt {A} (m : io X S A) : io X S (outcome X A) := fun s => let '(r, s) := m s in (Done r, s).
(** [try: m except ...]: [f] maps what is raised. *)
Definition rethrow {A} (f : X -> X) (m : io X S A) : io X S A :=
  fun s => let '(r, s) := m s in (match r with Done a => Done a | Failed x => Failed (f x) end, s).
Definition of_outcome {A} (r : outcome X A) : io X S A := fun s => (r, s).

(** ** What a computation does to the state *)

Section preserves.
Context (R : relation S) `{!PreOrder R}.

Definition preserves {A} (m : io X S A) : Prop := forall s, R s (m s).2.

Lemma preserves_silent {A} (m : io X S A) : (forall s, (m s).2 = s) -> preserves m.
Proof using PreOrder0. intros H s. by rewrite H. Qed.
Lemma preserves_ret {A} (a : A) : preserves (mret a : io X S A).
Proof using PreOrder0. by apply preserves_silent. Qed.
Lemma preserves_raise {A} x : preserves (raise x : io X S A).
Proof using PreOrder0. by apply preserves_silent. Qed.
Lemma preserves_raise_when b x : preserves (raise_when b x).
Proof using PreOrder0. apply preserves_silent. by destruct b. Qed.
Lemma preserves_of_outcome {A} (r : outcome X A) : preserves (of_outcome r).
Proof using PreOrder0. by apply preserves_silent. Qed.

Lemma preserves_bind {A B} (m : io X S A) (f : A -> io X S B) :
  preserves m -> (forall a, preserves (f a)) -> preserves (m ≫= f).
Proof using PreOrder0.
  intros Hm Hf s. unfold mbind, io_bind. specialize (Hm s). destruct (m s) as [[a|x] s1]; cbn in *; [|done].
  etrans; [done|]. apply Hf.
Qed.

Lemma preserves_attempt {A} (m : io X S A) : preserves m -> preserves (attempt m).
Proof using Type. intros Hm s. unfold attempt. specialize (Hm s). by destruct (m s). Qed.
Lemma preserves_rethrow {A} f (m : io X S A) : preserves m -> preserves (rethrow f m).
Proof using Type. intros Hm s. unfold rethrow. specialize (Hm s). by destruct (m s). Qed.
End preserves.

(** ** Taking a run apart *)

Lemma io_bind_Done {A B} (m : io X S A) (f : A -> io X S B) s b s' :
  (m ≫= f) s = (Done b, s') <-> exists a s1, m s = (Done a, s1) /\ f a s1 = (Done b, s').
Proof using Type.
  unfold mbind, io_bind. destruct (m s) as [[a|x] s1]; split.
  - intros H. by exists a, s1.
  - by intros (? & ? & [= <- <-] & ?).
  - done.
  - by intros (? & ? & [=] & ?).
Qed.

Lemma io_bind_Failed {A B} (m : io X S A) (f : A -> io X S B) s x s' :
  (m ≫= f) s = (Failed x, s') <-> m s = (Failed x, s') \/ exists a s1, m s = (Done a, s1) /\ f a s1 = (Failed x, s').
Proof using Type.
  unfold mbind, io_bind. destruct (m s) as [[a|y] s1]; split.
  - intros H. right. by exists a, s1.
  - intros [H|(? & ? & H & Hf)]; [discriminate H|]. by injection H as <- <-.
  - intros H. left. by injection H as -> ->.
  - intros [H|(? & ? & H & _)]; [by injection H as -> ->|discriminate H].
Qed.

Lemma bind_run {A B} (m : io X S A) (f : A -> io X S B) s :
  (m ≫= f) s = match m s with (Done a, s1) => f a s1 | (Failed x, s1) => (Failed x, s1) end.
Proof using Type. unfold mbind, io_bind. by destruct (m s) as [[]]. Qed.
Lemma bind_raise_when {A} b x (f : unit -> io X S A) s : (raise_when b x ≫= f) s = if b then (Failed x, s) else f tt s.
Proof using Type. by destruct b. Qed.
Lemma raise_when_Done b x s u s' : raise_when b x s = (Done u, s') <-> b = false /\ s' = s.
Proof using Type. destruct b, u; cbn; unfold raise, mret, io_ret; split; naive_solver. Qed.
Lemma raise_Done {A} x s (a : A) s' : raise x s = (Done a, s') <-> False.
Proof using Type. by split. Qed.
Lemma io_ret_Done {A} (a : A) s b s' : (mret a : io X S A) s = (Done b, s') <-> b = a /\ s' = s.
Proof using Type. unfold mret, io_ret. split; [by intros [= -> ->]|by intros [-> ->]]. Qed.
Lemma rethrow_Done {A} f (m : io X S A) s a s' : rethrow f m s = (Done a, s') <-> m s = (Done a, s').
Proof using Type. unfold rethrow. destruct (m s) as [[b|x] s1]; split; intros H; by inversion H. Qed.
Lemma of_outcome_Done {A} (r : outcome X A) s a s' : of_outcome r s = (Done a, s') <-> r = Done a /\ s' = s.
Proof using Type. unfold of_outcome. split; [by intros [= -> ->]|by intros [-> ->]]. Qed.
End io.

(** A [result] whose exception is the failure. *)
Definition lift_result {S A} (r : result A) : io exn S A := fun s => (match r with Ok a => Done a | Err e => Failed e end, s).
Lemma lift_result_Done {S A} (r : result A) (s : S) a s' : lift_result r s = (Done a, s') <-> r = Ok a /\ s' = s.
Proof. unfold lift_result. destruct r; split; intros H; try (by inversion H); destruct H as [H ->]; by inversion H. Qed.

Lemma bind_lift_result {S A B} (r : result A) (f : A -> io exn S B) s :
  (lift_result r ≫= f) s = match r with Ok a => f a s | Err e => (Failed e, s) end.
Proof. by destruct r. Qed.

(** ** Logs of events *)

Section log.
Context {E : Type}.

(** [t'] extends [t] by events each of which satisfies [P] of what came before it. *)
Definition logs (P : list E -> E -> Prop) (t t' : list E) : Prop :=
  exists new, t' = t ++ new /\ forall pre e post, new = pre ++ e :: post -> P (t ++ pre) e.

#[export] Instance logs_preorder P : PreOrder (logs P).
Proof.
  split.
  - intros t. exists []. rewrite app_nil_r. split; [done|]. by intros [].
  - intros t1 t2 t3 (n1 & -> & H1) (n2 & -> & H2). exists (n1 ++ n2). rewrite app_assoc. split; [done|].
    intros pre e post Heq. destruct (decide (length pre < length n1)%nat) as [Hl|Hl].
    + pose proof (f_equal (take (length n1)) Heq) as Ht. rewrite take_app_length, take_app_ge in Ht by lia.
      destruct (length n1 - length pre)%nat as [|k] eqn:Ek; [lia|]. cbn in Ht. eapply H1. done.
    + pose proof (f_equal (drop (length n1)) Heq) as Hd. rewrite drop_app_length, drop_app_le in Hd by lia.
      pose proof (f_equal (take (length n1)) Heq) as Ht. rewrite take_app_length, take_app_le in Ht by lia.
      specialize (H2 _ _ _ Hd). replace (t1 ++ pre) with ((t1 ++ n1) ++ drop (length n1) pre); [done|].
      rewrite <- app_assoc. f_equal. rewrite <- (take_drop (length n1) pre) at 2. by rewrite <- Ht.
Qed.

Lemma logs_one (P : list E -> E -> Prop) t e : P t e -> logs P t (t ++ [e]).
Proof.
  intros H. exists [e]. split; [done|]. intros [|x pre] e' post Heq; [|by destruct pre].
  injection Heq as <- _. by rewrite app_nil_r.
Qed.

Lemma logs_mono (P Q : list E -> E -> Prop) t t' : (forall t e, P t e -> Q t e) -> logs P t t' -> logs Q t t'.
Proof. intros HPQ (new & -> & H). exists new. split; [done|]. intros pre e post Heq. eapply HPQ, H, Heq. Qed.

(** Every event of the extension, wherever it stands. *)
Lemma logs_elem (P : list E -> E -> Prop) t t' : logs P t t' -> exists new, t' = t ++ new /\ forall e, e ∈ new -> exists t0, P t0 e.
Proof.
  intros (new & -> & H). exists new. split; [done|]. intros e (pre & post & ->)%list_elem_of_split. eexists. by eapply H.
Qed.
End log.
