(* ===== verification/PyStr.v ===== *)
(** Python's string operations the modules share ([str.split], [partition], [strip],
    [startswith], [encode("ascii")]) and their lemmas. *)
From S2P Require Import Prelude Errors.

(** [s.partition(c)], without the separator. *)
Fixpoint partition (c : Z) (s : pystr) : pystr * pystr :=
  match s with
  | [] => ([], [])
  | x :: s => if x =? c then ([], s) else let '(a, b) := partition c s in (x :: a, b)
  end.

(** [s.split(c)]. *)
Fixpoint split_on (c : Z) (s : pystr) : list pystr :=
  match s with
  | [] => [[]]
  | x :: s => if x =? c then [] :: split_on c s
              else match split_on c s with
                   | w :: ws => (x :: w) :: ws
                   | [] => [[x]]
                   end
  end.

Definition isascii (s : pystr) : bool := forallb (fun c => c <? 128) s.
(** [s.encode("ascii")]. *)
Definition encode_ascii (s : pystr) : result bytes := if isascii s then Ok s else Err UnicodeEncodeError.

(** [s.startswith(p)], [s.endswith(p)]. *)
Definition startswith (s p : pystr) : bool := bool_decide (take (length p) s = p).
Definition endswith (s p : pystr) : bool := bool_decide (drop (length s - length p) s = p).

(** [needle in s]. *)
Fixpoint contains (s needle : pystr) : bool :=
  startswith s needle || match s with [] => false | _ :: s => contains s needle end.

(** [s.replace(old, new)] for a non-empty [old]: what is matched is skipped. *)
Fixpoint replace_from (old new s : pystr) (skip : nat) : pystr :=
  match s with
  | [] => []
  | c :: s' =>
      match skip with
      | S skip => replace_from old new s' skip
      | O => if startswith s old then new ++ replace_from old new s' (length old - 1)
             else c :: replace_from old new s' 0
      end
  end.
Definition replace (old new s : pystr) : pystr := replace_from old new s 0.

(** [s.splitlines()]. *)
Definition is_linebreak (c : Z) : bool := bool_decide (c ∈ [10; 11; 12; 13; 28; 29; 30; 133; 8232; 8233]).
Fixpoint splitlines_from (word s : pystr) : list pystr :=
  match s with
  | [] => match word with [] => [] | _ => [reverse word] end
  | c :: s' =>
      if is_linebreak c then
        reverse word ::
          match s' with
          | d :: s'' => if (c =? 13) && (d =? 10) then splitlines_from [] s'' else splitlines_from [] s'
          | [] => []
          end
      else splitlines_from (c :: word) s'
  end.
Definition splitlines (s : pystr) : list pystr := splitlines_from [] s.

(** Unicode white space is a parameter. *)
Section white_space.
Context (is_space : Z -> bool).

Fixpoint lstrip_space (s : pystr) : pystr :=
  match s with c :: s' => if is_space c then lstrip_space s' else s | [] => [] end.
Definition strip (s : pystr) : pystr := reverse (lstrip_space (reverse (lstrip_space s))).

(** [s.split()]: the words between runs of white space. *)
Fixpoint split_ws_from (word s : pystr) : list pystr :=
  match s with
  | [] => match word with [] => [] | _ => [reverse word] end
  | c :: s => if is_space c
              then match word with [] => split_ws_from [] s | _ => reverse word :: split_ws_from [] s end
              else split_ws_from (c :: word) s
  end.
Definition split_ws (s : pystr) : list pystr := split_ws_from [] s.
End white_space.

Example pystr_ex : replace ($"aa") ($"b") ($"aaaxa") = $"baxa" /\
  splitlines ([97; 13; 10; 98; 10; 10]) = [$"a"; $"b"; []].
Proof. done. Qed.

(** * Lemmas *)

Lemma partition_absent c s : ~ c ∈ s -> partition c s = (s, []).
Proof.
  induction s as [|x s IH]; intros Hc; simpl; [done|].
  rewrite (proj2 (Z.eqb_neq x c)) by set_solver. by rewrite IH by set_solver.
Qed.

Lemma partition_present c s s' : ~ c ∈ s -> partition c (s ++ c :: s') = (s, s').
Proof.
  induction s as [|x s IH]; intros Hc; simpl; [by rewrite Z.eqb_refl|].
  rewrite (proj2 (Z.eqb_neq x c)) by set_solver. by rewrite IH by set_solver.
Qed.

Lemma split_on_app c s t : c ∉ s -> split_on c (s ++ c :: t) = s :: split_on c t.
Proof.
  induction s as [|x s IH]; intros H; cbn [app split_on]; [by rewrite Z.eqb_refl|].
  apply not_elem_of_cons in H as [Hx Hs]. rewrite (proj2 (Z.eqb_neq x c)) by done. by rewrite (IH Hs).
Qed.

Lemma split_on_none c s : c ∉ s -> split_on c s = [s].
Proof.
  induction s as [|x s IH]; intros H; cbn [split_on]; [done|].
  apply not_elem_of_cons in H as [Hx Hs]. rewrite (proj2 (Z.eqb_neq x c)) by done. by rewrite (IH Hs).
Qed.

Lemma encode_ascii_ok s : Forall (fun c => 0 <= c < 128) s -> encode_ascii s = Ok s.
Proof.
  intros Hs. unfold encode_ascii, isascii. assert (forallb (fun c => c <? 128) s = true) as ->; [|done].
  apply forallb_forall. intros c Hc%list_elem_of_In. rewrite Forall_forall in Hs. apply Z.ltb_lt, Hs, Hc.
Qed.

Lemma partition_split c s : c ∈ s -> s = (partition c s).1 ++ c :: (partition c s).2.
Proof.
  induction s as [|x s IH]; intros H; [by apply elem_of_nil in H|]. cbn [partition].
  destruct (Z.eqb_spec x c) as [->|Hx]; [done|]. apply elem_of_cons in H as [->|H]; [done|].
  destruct (partition c s) as [a b]. cbn in IH |- *. f_equal. by apply IH.
Qed.

(** Every character that is not the separator is in a part. *)
Lemma split_on_elem c s x : x ∈ s -> x <> c -> exists w, w ∈ split_on c s /\ x ∈ w.
Proof.
  intros H Hx. induction s as [|y s IH]; [by apply elem_of_nil in H|]. cbn [split_on].
  apply elem_of_cons in H as [->|H].
  - rewrite (proj2 (Z.eqb_neq y c)) by done. destruct (split_on c s) as [|w ws].
    + exists [y]. split; left.
    + exists (y :: w). split; left.
  - destruct (IH H) as (w & Hw & Hxw). destruct (y =? c); [exists w; split; [by right|done]|].
    destruct (split_on c s) as [|w0 ws]; [by apply elem_of_nil in Hw|].
    apply elem_of_cons in Hw as [->|Hw]; [exists (y :: w0)|exists w].
    + split; [left|by right].
    + split; [by right|done].
Qed.

Lemma partition_split_on c s : exists rest, split_on c s = (partition c s).1 :: rest.
Proof.
  induction s as [|x s [rest IH]]; [by exists []|]. cbn [split_on partition]. destruct (x =? c); [by eexists|].
  rewrite IH. destruct (partition c s) as [a b]. by eexists.
Qed.

Lemma startswith_spec s p : startswith s p = true <-> exists r, s = p ++ r.
Proof.
  unfold startswith. rewrite bool_decide_eq_true. split.
  - intros H. exists (drop (length p) s). by rewrite <-H at 1; rewrite take_drop.
  - intros [r ->]. by rewrite take_app_length.
Qed.

Lemma endswith_spec s p : endswith s p = true <-> exists r, s = r ++ p.
Proof.
  unfold endswith. rewrite bool_decide_eq_true. split.
  - intros H. exists (take (length s - length p) s). by rewrite <-H at 2; rewrite take_drop.
  - intros [r ->]. rewrite length_app, Nat.add_sub. apply drop_app_length.
Qed.
