(* ===== verification/Utf8.v ===== *)
(** The strict UTF-8 codec of [str.encode("utf-8")] and [bytes.decode("utf-8")]: a lone
    surrogate has no encoding, and an overlong form, a surrogate or a code point past
    U+10FFFF has no decoding.  [utf8] is the wrapper of [openvc._json]. *)
From S2P Require Import Prelude Errors.

Definition is_surrogate (cp : Z) : bool := (55296 <=? cp) && (cp <=? 57343).

(** What a Python [str] can hold. *)
Definition is_code_point (cp : Z) : Prop := 0 <= cp < 1114112.
Definition pystr_ok (s : pystr) : Prop := Forall is_code_point s.

#[export] Instance is_code_point_dec cp : Decision (is_code_point cp).
Proof. unfold is_code_point. apply _. Defined.
#[export] Instance pystr_ok_dec s : Decision (pystr_ok s).
Proof. unfold pystr_ok. apply _. Defined.

Definition encode_cp (cp : Z) : bytes :=
  if cp <? 128 then [cp]
  else if cp <? 2048 then [192 + cp / 64; 128 + cp mod 64]
  else if cp <? 65536 then [224 + cp / 4096; 128 + cp / 64 mod 64; 128 + cp mod 64]
  else [240 + cp / 262144; 128 + cp / 4096 mod 64; 128 + cp / 64 mod 64; 128 + cp mod 64].

Fixpoint utf8_encode (s : pystr) : result bytes :=
  match s with
  | [] => Ok []
  | cp :: s =>
      if is_surrogate cp then Err UnicodeEncodeError
      else rest ← utf8_encode s; Ok (encode_cp cp ++ rest)
  end.

(** A continuation byte's six bits. *)
Definition cont (b : Z) : option Z := if (128 <=? b) && (b <? 192) then Some (b - 128) else None.

(** One code point off the front, and how many bytes it took. *)
Definition decode_cp (l : bytes) : option (Z * nat) :=
  match l with
  | [] => None
  | b0 :: l1 =>
    if b0 <? 128 then Some (b0, 1%nat)
    else if (194 <=? b0) && (b0 <? 224) then
      c1 ← l1 !! 0%nat ≫= cont; Some ((b0 - 192) * 64 + c1, 2%nat)
    else if (224 <=? b0) && (b0 <? 240) then
      c1 ← l1 !! 0%nat ≫= cont; c2 ← l1 !! 1%nat ≫= cont;
      let cp := (b0 - 224) * 4096 + c1 * 64 + c2 in
      if (cp <? 2048) || is_surrogate cp then None else Some (cp, 3%nat)
    else if (240 <=? b0) && (b0 <? 245) then
      c1 ← l1 !! 0%nat ≫= cont; c2 ← l1 !! 1%nat ≫= cont; c3 ← l1 !! 2%nat ≫= cont;
      let cp := (b0 - 240) * 262144 + c1 * 4096 + c2 * 64 + c3 in
      if (cp <? 65536) || (1114111 <? cp) then None else Some (cp, 4%nat)
    else None
  end.

(** The decoder: every round consumes a byte, so the length of the input bounds it. *)
Fixpoint utf8_decode_fuel (fuel : nat) (l : bytes) : result pystr :=
  match l, fuel with
  | [], _ => Ok []
  | _, O => Err UnicodeDecodeError
  | _, S fuel =>
      match decode_cp l with
      | Some (cp, k) => s ← utf8_decode_fuel fuel (drop k l); Ok (cp :: s)
      | None => Err UnicodeDecodeError
      end
  end.

Definition utf8_decode (l : bytes) : result pystr := utf8_decode_fuel (length l) l.

(** [_json.utf8(text, error=error, what=...)]. *)
Definition utf8 (text : pystr) (error : exn) : result bytes :=
  catch_as (fun e => isinstance e UnicodeEncodeError) error (utf8_encode text).

Example utf8_ex : utf8_encode [104; 233; 8364; 128512] = Ok [104; 195; 169; 226; 130; 172; 240; 159; 152; 128].
Proof. vm_compute. reflexivity. Qed.
Example utf8_dec_ex : utf8_decode [104; 195; 169; 226; 130; 172; 240; 159; 152; 128] = Ok [104; 233; 8364; 128512].
Proof. vm_compute. reflexivity. Qed.
Example utf8_overlong : utf8_decode [192; 128] = Err UnicodeDecodeError.
Proof. vm_compute. reflexivity. Qed.
Example utf8_surrogate : utf8_decode [237; 160; 128] = Err UnicodeDecodeError.
Proof. vm_compute. reflexivity. Qed.

(** * Round trips *)

Ltac div_lia := Z.to_euclidean_division_equations; lia.

Ltac bcase :=
  match goal with
  | |- context [?x <? ?y] => destruct (Z.ltb_spec x y)
  | |- context [?x <=? ?y] => destruct (Z.leb_spec x y)
  end; cbn [andb orb]; try (exfalso; div_lia).

Lemma cont_mod n : cont (128 + n mod 64) = Some (n mod 64).
Proof. unfold cont. repeat bcase. f_equal. div_lia. Qed.

Lemma encode_cp_length cp : (1 <= length (encode_cp cp) <= 4)%nat.
Proof. unfold encode_cp. repeat case_match; simpl; lia. Qed.

Lemma encode_cp_ok cp : is_code_point cp -> bytes_ok (encode_cp cp).
Proof.
  unfold is_code_point. intros. unfold encode_cp.
  repeat case_match; rewrite ?Z.ltb_lt, ?Z.ltb_ge in *;
    repeat constructor; div_lia.
Qed.

Lemma decode_encode_cp cp rest :
  is_code_point cp -> is_surrogate cp = false ->
  decode_cp (encode_cp cp ++ rest) = Some (cp, length (encode_cp cp)).
Proof.
  unfold is_code_point. intros Hcp Hs. unfold encode_cp.
  destruct (Z.ltb_spec cp 128); [|destruct (Z.ltb_spec cp 2048); [|destruct (Z.ltb_spec cp 65536)]];
    cbn [app length decode_cp lookup list_lookup mbind option_bind].
  - by bcase.
  - repeat bcase. rewrite cont_mod. cbn. f_equal. f_equal. div_lia.
  - rewrite !cont_mod. cbn [mbind option_bind]. repeat bcase.
    replace ((224 + cp / 4096 - 224) * 4096 + (cp / 64) mod 64 * 64 + cp mod 64) with cp by div_lia.
    by rewrite Hs.
  - rewrite !cont_mod. cbn [mbind option_bind]. repeat bcase.
    all: replace ((240 + cp / 262144 - 240) * 262144 + (cp / 4096) mod 64 * 4096 +
                  (cp / 64) mod 64 * 64 + cp mod 64) with cp in * by div_lia.
    all: by repeat bcase.
Qed.

Lemma cont_Some b c : cont b = Some c -> 0 <= c < 64 /\ b = 128 + c.
Proof. unfold cont. repeat bcase; intros; simplify_eq; lia. Qed.


Lemma encode_cp_2 b0 c1 :
  194 <= b0 < 224 -> 0 <= c1 < 64 -> encode_cp ((b0 - 192) * 64 + c1) = [b0; 128 + c1].
Proof. intros. unfold encode_cp. repeat bcase. repeat f_equal; div_lia. Qed.

Lemma encode_cp_3 b0 c1 c2 cp :
  cp = (b0 - 224) * 4096 + c1 * 64 + c2 ->
  224 <= b0 < 240 -> 0 <= c1 < 64 -> 0 <= c2 < 64 -> 2048 <= cp ->
  encode_cp cp = [b0; 128 + c1; 128 + c2].
Proof. intros ->. intros. unfold encode_cp. repeat bcase. repeat f_equal; div_lia. Qed.

Lemma encode_cp_4 b0 c1 c2 c3 cp :
  cp = (b0 - 240) * 262144 + c1 * 4096 + c2 * 64 + c3 ->
  240 <= b0 < 245 -> 0 <= c1 < 64 -> 0 <= c2 < 64 -> 0 <= c3 < 64 -> 65536 <= cp ->
  encode_cp cp = [b0; 128 + c1; 128 + c2; 128 + c3].
Proof. intros ->. intros. unfold encode_cp. repeat bcase. repeat f_equal; div_lia. Qed.

Lemma not_surrogate_low cp : cp < 55296 \/ 57343 < cp -> is_surrogate cp = false.
Proof. unfold is_surrogate. intros. repeat bcase; done. Qed.

Ltac inv_cont :=
  repeat match goal with
  | H : (_ ≫= _) = Some _ |- _ => apply bind_Some in H as (? & ? & H)
  end;
  repeat match goal with
  | H : cont _ = Some _ |- _ => apply cont_Some in H as [? ->]
  end.

(** What one decoding step accepts is the encoding of the code point it returns. *)
Lemma decode_cp_Some l cp k :
  decode_cp l = Some (cp, k) -> bytes_ok l ->
  is_code_point cp /\ is_surrogate cp = false /\ k = length (encode_cp cp) /\
  l = encode_cp cp ++ drop k l.
Proof.
  destruct l as [|b0 l1]; [done|]. intros Hd [Hb0 _]%Forall_cons. unfold is_byte in Hb0.
  unfold is_code_point. cbn [decode_cp] in Hd.
  destruct (Z.ltb_spec b0 128) as [H1|H1].
  { injection Hd as -> <-. assert (encode_cp cp = [cp]) as ->.
    { unfold encode_cp. by bcase. }
    split_and!; [lia..|apply not_surrogate_low; lia|done|done]. }
  destruct ((194 <=? b0) && (b0 <? 224)) eqn:E2; [|destruct ((224 <=? b0) && (b0 <? 240)) eqn:E3;
    [|destruct ((240 <=? b0) && (b0 <? 245)) eqn:E4; [|done]]].
  - apply andb_true_iff in E2 as [?%Z.leb_le ?%Z.ltb_lt]. inv_cont.
    injection Hd as <- <-. destruct l1 as [|y l1]; simplify_eq/=.
    rewrite encode_cp_2 by lia. split_and!; [lia..|apply not_surrogate_low; lia|done|].
    by rewrite drop_0.
  - apply andb_true_iff in E3 as [?%Z.leb_le ?%Z.ltb_lt]. inv_cont.
    case_match eqn:Hor; [done|]. apply orb_false_iff in Hor as [Hor1%Z.ltb_ge Hor2].
    injection Hd as <- <-. destruct l1 as [|y [|y' l1]]; simplify_eq/=.
    erewrite encode_cp_3 by first [reflexivity|lia]. split_and!; [lia..|done|done|].
    by rewrite drop_0.
  - apply andb_true_iff in E4 as [?%Z.leb_le ?%Z.ltb_lt]. inv_cont.
    case_match eqn:Hor; [done|]. apply orb_false_iff in Hor as [Hor1%Z.ltb_ge Hor2%Z.ltb_ge].
    injection Hd as <- <-. destruct l1 as [|y [|y' [|y'' l1]]]; simplify_eq/=.
    erewrite encode_cp_4 by first [reflexivity|lia].
    split_and!; [lia..|apply not_surrogate_low; lia|done|]. by rewrite drop_0.
Qed.

#[global] Arguments decode_cp : simpl never.
#[global] Arguments encode_cp : simpl never.

Lemma utf8_encode_ok s b : pystr_ok s -> utf8_encode s = Ok b -> bytes_ok b.
Proof.
  revert b. induction s as [|cp s IH]; intros b; simpl; [intros _ [= <-]; constructor|].
  intros [Hcp Hs]%Forall_cons Hb. case_match; [done|]. inv_result.
  apply Forall_app. split; [by apply encode_cp_ok|by apply IH].
Qed.

Lemma utf8_decode_fuel_encode s b fuel :
  pystr_ok s -> utf8_encode s = Ok b -> (length b <= fuel)%nat -> utf8_decode_fuel fuel b = Ok s.
Proof.
  revert b fuel. induction s as [|cp s IH]; intros b fuel; simpl.
  { intros _ [= <-] _. by destruct fuel. }
  intros [Hcp Hs]%Forall_cons Hb Hf. destruct (is_surrogate cp) eqn:Esur; [done|]. inv_result.
  rename x into rest. rewrite length_app in Hf. pose proof (encode_cp_length cp).
  pose proof (decode_encode_cp cp rest Hcp Esur) as Hd.
  destruct fuel as [|fuel]; [lia|]. simpl.
  destruct (encode_cp cp ++ rest) as [|b0 l] eqn:E.
  { apply app_eq_nil in E as [E _]. rewrite E in *. simpl in *. lia. }
  rewrite Hd, <-E, drop_app_length, (IH rest); [done..|lia].
Qed.

Lemma utf8_encode_decode_fuel fuel l s :
  bytes_ok l -> utf8_decode_fuel fuel l = Ok s -> pystr_ok s /\ utf8_encode s = Ok l.
Proof.
  revert l s. induction fuel as [|fuel IH]; intros [|b0 l] s Hok Hd; simpl in Hd;
    [injection Hd as <-; by repeat constructor|done|injection Hd as <-; by repeat constructor|].
  destruct (decode_cp (b0 :: l)) as [[cp k]|] eqn:E; [|done]. inv_result.
  destruct (decode_cp_Some _ _ _ E Hok) as (Hcp & Hs & Hk & Hl).
  destruct (IH (drop k (b0 :: l)) x) as [Hx He]; [|done|].
  { rewrite <-(take_drop k (b0 :: l)) in Hok. by apply Forall_app in Hok as [_ ?]. }
  split; [by constructor|]. simpl. rewrite Hs, He. cbn. by rewrite <-Hl.
Qed.

(** Strict UTF-8 is a bijection between the strings without a lone surrogate and the
    well-formed byte strings. *)
Lemma utf8_decode_encode s b : pystr_ok s -> utf8_encode s = Ok b -> utf8_decode b = Ok s.
Proof. intros. by apply utf8_decode_fuel_encode. Qed.

Lemma utf8_encode_decode l s : bytes_ok l -> utf8_decode l = Ok s -> pystr_ok s /\ utf8_encode s = Ok l.
Proof. apply utf8_encode_decode_fuel. Qed.

Lemma utf8_encode_inj s1 s2 b :
  pystr_ok s1 -> pystr_ok s2 -> utf8_encode s1 = Ok b -> utf8_encode s2 = Ok b -> s1 = s2.
Proof.
  intros H1 H2 E1%utf8_decode_encode E2%utf8_decode_encode; [|done..]. congruence.
Qed.

Lemma utf8_encode_errs s : errs_in (eq UnicodeEncodeError) (utf8_encode s).
Proof. induction s; simpl; solve_errs. Qed.

Lemma utf8_decode_errs l : errs_in (eq UnicodeDecodeError) (utf8_decode l).
Proof.
  unfold utf8_decode. generalize (length l). intros n. revert l.
  induction n; intros [|b l]; simpl; solve_errs.
Qed.

Lemma utf8_encode_total s :
  (exists b, utf8_encode s = Ok b) <-> Forall (fun cp => is_surrogate cp = false) s.
Proof.
  induction s as [|cp s IH]; simpl; [split; [constructor|by eexists]|].
  rewrite Forall_cons, <-IH. destruct (is_surrogate cp); [naive_solver|].
  split; [intros (b & (? & ? & _)%bind_Ok); eauto|].
  intros [_ [b Hb]]. rewrite Hb. eauto.
Qed.
