(* ===== verification/Multibase.v ===== *)
(** [openvc.multibase] (src/src/openvc/multibase.py): base58btc, the multibase prefix
    and the multicodec varint.  The loops are the code's: [b58_accumulate] is the
    decoder's scan, [b58_digits] the encoder's [divmod] loop (its fuel, the bit
    length of the number, is enough because every round divides by 58), [read_varint_from]
    the LEB128 scan. *)
From S2P Require Import Prelude Errors.

Definition B58 : pystr := $"123456789ABCDEFGHJKLMNPQRSTUVWXYZabcdefghijkmnopqrstuvwxyz".

(** [_B58_INDEX.get(ch)]. *)
Fixpoint index_of (l : pystr) (c : Z) : option Z :=
  match l with
  | [] => None
  | x :: l => if x =? c then Some 0 else (fun i => i + 1) <$> index_of l c
  end.

Definition B58_INDEX (c : Z) : option Z := index_of B58 c.

(** [_B58[i]]. *)
Definition b58_char (i : Z) : Z := nth (Z.to_nat i) B58 0.

#[global] Arguments B58 : simpl never.
#[global] Arguments B58_INDEX : simpl never.
#[global] Arguments b58_char : simpl never.

Definition MAX_B58_LEN : Z := 4096.
Definition MAX_VARINT_BYTES : Z := 9.

(** [len(l) - len(l.lstrip(c))]. *)
Fixpoint count_leading (c : Z) (l : list Z) : nat :=
  match l with
  | x :: l => if x =? c then S (count_leading c l) else O
  | [] => O
  end.

Fixpoint b58_accumulate (num : Z) (s : pystr) : result Z :=
  match s with
  | [] => Ok num
  | ch :: s =>
      match B58_INDEX ch with
      | Some i => b58_accumulate (num * 58 + i) s
      | None => Err MultibaseError
      end
  end.

Definition b58btc_decode (s : pystr) : result bytes :=
  raise_if (MAX_B58_LEN <? len s) MultibaseError;;
  num ← b58_accumulate 0 s;
  let body := if num =? 0 then [] else to_bytes_be (Z.to_nat ((bit_length num + 7) / 8)) num in
  let n_leading := count_leading 49 s in
  Ok (replicate n_leading 0 ++ body).

(** The encoder's loop: [chars] grows at its end and is reversed afterwards, so it is
    kept here in its final order. *)
Fixpoint b58_digits (fuel : nat) (num : Z) (chars : pystr) : pystr :=
  match fuel with
  | O => chars
  | S fuel =>
      if 0 <? num
      then b58_digits fuel (num / 58) (b58_char (num mod 58) :: chars)
      else chars
  end.

Definition b58btc_encode (data : bytes) : pystr :=
  let num := from_bytes_be data in
  let n_leading := count_leading 0 data in
  replicate n_leading 49 ++ b58_digits (Z.to_nat (bit_length num)) num [].

Definition decode_multibase (value : pystr) : result bytes :=
  match value with
  | 122 :: rest => b58btc_decode rest
  | _ => Err MultibaseError
  end.

Definition encode_multibase (data : bytes) : pystr := $"z" ++ b58btc_encode data.

(** The varint loop over [enumerate(data)]: [i] is the position of the byte read. *)
Fixpoint read_varint_from (i result_ shift : Z) (data : bytes) : result (Z * Z) :=
  match data with
  | [] => Err MultibaseError
  | byte :: data =>
      raise_if (MAX_VARINT_BYTES <=? i) MultibaseError;;
      let result_ := Z.lor result_ (Z.shiftl (Z.land byte 127) shift) in
      if Z.land byte 128 =? 0 then Ok (result_, i + 1)
      else read_varint_from (i + 1) result_ (shift + 7) data
  end.

Definition read_varint (data : bytes) : result (Z * Z) := read_varint_from 0 0 0 data.

Example multibase_encode_ex : encode_multibase [0; 0; 40; 127; 180; 205] = $"z11233QC4".
Proof. vm_compute. reflexivity. Qed.
Example multibase_decode_ex : decode_multibase ($"z11233QC4") = Ok [0; 0; 40; 127; 180; 205].
Proof. vm_compute. reflexivity. Qed.
Example varint_ex : read_varint [237; 1; 7] = Ok (237, 2).
Proof. vm_compute. reflexivity. Qed.

(** * The alphabet *)

Lemma index_of_Some l c i :
  index_of l c = Some i -> 0 <= i < len l /\ nth (Z.to_nat i) l 0 = c.
Proof.
  unfold len. revert i. induction l as [|x l IH]; intros i; simpl; [done|].
  case_match eqn:E.
  - intros [= <-]. apply Z.eqb_eq in E. simpl. split; [lia|done].
  - intros (j & Hj & ->)%fmap_Some. destruct (IH j Hj) as [Hb <-]. split; [lia|].
    rewrite Z.add_1_r, Z2Nat.inj_succ by lia. done.
Qed.

Lemma B58_INDEX_Some c i : B58_INDEX c = Some i -> 0 <= i < 58 /\ b58_char i = c.
Proof. apply index_of_Some. Qed.

Lemma B58_INDEX_nth i : 0 <= i < 58 -> B58_INDEX (b58_char i) = Some i.
Proof.
  intros Hi. unfold b58_char. rewrite <-(Z2Nat.id i) at 2 by lia.
  assert (Z.to_nat i < 58)%nat as Hn by lia. revert Hn. generalize (Z.to_nat i). clear.
  do 58 (intros [|n]; [intros; vm_compute; reflexivity|revert n]). intros; lia.
Qed.

Lemma B58_INDEX_one c : B58_INDEX c = Some 0 <-> c = 49.
Proof.
  split; [|by intros ->]. intros [_ H]%B58_INDEX_Some. by rewrite <-H.
Qed.

(** * The decoder's scan *)

Lemma b58_accumulate_app n s1 s2 :
  b58_accumulate n (s1 ++ s2) = (m ← b58_accumulate n s1; b58_accumulate m s2).
Proof. revert n. induction s1; intros n; simpl; [done|]. by case_match. Qed.

Lemma b58_accumulate_ones k s : b58_accumulate 0 (replicate k 49 ++ s) = b58_accumulate 0 s.
Proof. induction k; simpl; [done|]. done. Qed.

Lemma b58_accumulate_nonneg n s m : 0 <= n -> b58_accumulate n s = Ok m -> n <= m.
Proof.
  revert n. induction s as [|c s IH]; intros n Hn; simpl; [naive_solver lia|].
  destruct (B58_INDEX c) as [i|] eqn:E; [|done].
  apply B58_INDEX_Some in E as [Hi _]. intros Hm. apply IH in Hm; lia.
Qed.

Lemma b58_accumulate_errs n s : errs_in (eq MultibaseError) (b58_accumulate n s).
Proof. revert n. induction s; intros n; simpl; solve_errs. Qed.

(** * The encoder's loop *)

Lemma div58_bound fuel n : 0 <= n < 2 ^ Z.of_nat (S fuel) -> 0 <= n / 58 < 2 ^ Z.of_nat fuel.
Proof.
  rewrite Nat2Z.inj_succ, Z.pow_succ_r by lia. intros. split.
  - apply Z.div_pos; lia.
  - apply Z.div_lt_upper_bound; lia.
Qed.

Lemma bit_length_bound n : 0 <= n -> 0 <= bit_length n /\ n < 2 ^ bit_length n.
Proof.
  intros Hn. unfold bit_length. destruct (Z.eqb_spec n 0); [subst; simpl; lia|].
  pose proof (Z.log2_nonneg n). pose proof (Z.log2_spec n). unfold Z.succ in *. lia.
Qed.

Lemma b58_digits_value fuel n chars :
  0 <= n < 2 ^ Z.of_nat fuel ->
  b58_accumulate 0 (b58_digits fuel n chars) = b58_accumulate n chars.
Proof.
  revert n chars. induction fuel as [|fuel IH]; intros n chars Hn; simpl.
  - simpl in Hn. by replace n with 0 by lia.
  - destruct (Z.ltb_spec 0 n); [|by replace n with 0 by lia].
    rewrite IH by by apply div58_bound. simpl.
    rewrite B58_INDEX_nth by (apply Z.mod_pos_bound; lia).
    f_equal. pose proof (Z_div_mod_eq_full n 58). lia.
Qed.

Lemma b58_digits_head fuel n chars :
  0 < n < 2 ^ Z.of_nat fuel -> count_leading 49 (b58_digits fuel n chars) = O.
Proof.
  revert n chars. induction fuel as [|fuel IH]; intros n chars Hn; simpl.
  - simpl in Hn. lia.
  - destruct (Z.ltb_spec 0 n); [|lia].
    destruct (decide (n / 58 = 0)) as [E|Hnz].
    + rewrite E. pose proof (Z_div_mod_eq_full n 58) as Hdm.
      rewrite E, Z.mul_0_r, Z.add_0_l in Hdm. rewrite <-Hdm.
      assert (B58_INDEX (b58_char n) = Some n) as Hi.
      { apply B58_INDEX_nth. pose proof (Z.mod_pos_bound n 58). lia. }
      destruct fuel; simpl; (case_match eqn:Ec; [|done]);
        apply Z.eqb_eq, B58_INDEX_one in Ec; naive_solver lia.
    + apply IH. destruct (div58_bound fuel n); lia.
Qed.

(** Base-58 digits without a leading zero are unique. *)
Lemma b58_digits_unique fuel s n chars :
  b58_accumulate 0 s = Ok n -> count_leading 49 s = O -> n < 2 ^ Z.of_nat fuel ->
  b58_digits fuel n chars = s ++ chars.
Proof.
  revert fuel n chars. induction s as [|c s IH] using rev_ind; intros fuel n chars Hn Hl Hf.
  - injection Hn as <-. by destruct fuel.
  - rewrite b58_accumulate_app in Hn. apply bind_Ok in Hn as (m & Hm & Hc). simpl in Hc.
    destruct (B58_INDEX c) as [i|] eqn:Ei; [|done]. injection Hc as <-.
    pose proof (b58_accumulate_nonneg 0 s m ltac:(lia) Hm) as Hm0.
    apply B58_INDEX_Some in Ei as Hi. destruct Hi as [Hi Hnth].
    assert (0 < m * 58 + i) as Hpos.
    { destruct s as [|c0 s]; simpl in Hm, Hl.
      - injection Hm as <-. case_match eqn:Ec; [done|]. apply Z.eqb_neq in Ec.
        assert (i <> 0) by (intros ->; apply B58_INDEX_one in Ei; done). lia.
      - case_match eqn:Ec; [done|]. destruct (B58_INDEX c0) as [j|] eqn:Ej; [|done].
        apply Z.eqb_neq in Ec. assert (j <> 0) by (intros ->; apply B58_INDEX_one in Ej; done).
        apply b58_accumulate_nonneg in Hm; [|apply B58_INDEX_Some in Ej; lia].
        apply B58_INDEX_Some in Ej. lia. }
    destruct fuel as [|fuel]; [simpl in Hf; lia|]. simpl b58_digits.
    destruct (Z.ltb_spec 0 (m * 58 + i)); [|lia].
    rewrite Z.div_add_l, Z.div_small, Z.add_0_r by lia.
    rewrite Z.add_comm, Z.mod_add, Z.mod_small, Hnth by lia.
    rewrite (IH fuel m); [by rewrite <-app_assoc|done| |].
    + destruct s as [|c0 s]; [done|]. simpl in Hl |- *. by case_match.
    + rewrite Nat2Z.inj_succ, Z.pow_succ_r in Hf by lia. lia.
Qed.

(** * Leading zeros and minimal byte strings *)

Lemma count_leading_split c l :
  exists l', l = replicate (count_leading c l) c ++ l' /\ count_leading c l' = O.
Proof.
  induction l as [|x l (l' & Hl & H0)]; [by exists []|]. simpl. case_match eqn:E.
  - apply Z.eqb_eq in E as ->. exists l'. simpl. by rewrite <-Hl.
  - exists (x :: l). simpl. by rewrite E.
Qed.

Lemma count_leading_replicate c k l : count_leading c l = O -> count_leading c (replicate k c ++ l) = k.
Proof. intros Hl. induction k; simpl; [done|]. by rewrite Z.eqb_refl, IHk. Qed.

Lemma from_bytes_be_zeros k l : from_bytes_be (replicate k 0 ++ l) = from_bytes_be l.
Proof. unfold from_bytes_be. rewrite foldl_app. f_equal. induction k; simpl; done. Qed.

(** The length the decoder computes is that of the minimal big-endian encoding. *)
Lemma minimal_length l :
  bytes_ok l -> count_leading 0 l = O -> 0 < from_bytes_be l ->
  (bit_length (from_bytes_be l) + 7) / 8 = len l.
Proof.
  intros Hok Hl Hpos. destruct l as [|b l]; [unfold from_bytes_be in Hpos; simpl in *; lia|].
  apply Forall_cons in Hok as [Hb Hok]. unfold is_byte in Hb.
  assert (from_bytes_be (b :: l) = b * 256 ^ len l + from_bytes_be l) as Hval by apply from_bytes_be_cons.
  pose proof (from_bytes_be_bounds l Hok) as Hlow.
  assert (b <> 0). { intros ->. by simpl in Hl. }
  assert (0 < 256 ^ len l) by (apply Z.pow_pos_nonneg; unfold len; lia).
  assert (8 * len l <= Z.log2 (from_bytes_be (b :: l)) < 8 * len l + 8) as [H1 H2].
  { unfold len in *. split.
    - apply Z.log2_le_pow2; [done|]. rewrite Z.pow_mul_r by lia. change (2 ^ 8) with 256. nia.
    - apply Z.log2_lt_pow2; [done|]. rewrite Z.pow_add_r, Z.pow_mul_r by lia.
      change (2 ^ 8) with 256. nia. }
  unfold bit_length. destruct (Z.eqb_spec (from_bytes_be (b :: l)) 0); [lia|].
  assert (len (b :: l) = len l + 1) as -> by (unfold len; simpl; lia).
  symmetry. apply Z.div_unique with (Z.log2 (from_bytes_be (b :: l)) - 8 * len l); lia.
Qed.

(** The bytes of a number, without a leading zero. *)
Definition b58_body (num : Z) : bytes :=
  if num =? 0 then [] else to_bytes_be (Z.to_nat ((bit_length num + 7) / 8)) num.

Lemma b58_body_minimal l :
  bytes_ok l -> count_leading 0 l = O -> b58_body (from_bytes_be l) = l.
Proof.
  intros Hok Hl. unfold b58_body. pose proof (from_bytes_be_bounds l Hok).
  destruct (Z.eqb_spec (from_bytes_be l) 0) as [E|Hnz].
  - destruct l as [|b l]; [done|]. exfalso. simpl in Hl.
    destruct (Z.eqb_spec b 0) as [|Hb]; [done|].
    apply Forall_cons in Hok as [Hbb Hok]. unfold is_byte in Hbb.
    assert (bytes_ok (b :: l)) by by constructor.
    pose proof (from_bytes_be_inj (b :: l) (replicate (length (b :: l)) 0)) as Hinj.
    assert (b :: l = replicate (length (b :: l)) 0); [|simplify_eq/=].
    apply Hinj; [done| |by rewrite length_replicate|].
    + apply Forall_replicate. unfold is_byte; lia.
    + rewrite E. rewrite <-(app_nil_r (replicate _ _)), from_bytes_be_zeros. done.
  - rewrite minimal_length by (done || lia). unfold len. rewrite Nat2Z.id.
    by apply to_from_bytes_be.
Qed.

Lemma b58_body_value num : 0 <= num -> from_bytes_be (b58_body num) = num.
Proof.
  intros Hn. unfold b58_body. destruct (Z.eqb_spec num 0) as [->|Hnz]; [done|].
  destruct (bit_length_bound num Hn) as [Hb1 Hb2].
  apply from_to_bytes_be. split; [done|].
  rewrite Z2Nat.id by (apply Z.div_pos; lia). change 256 with (2 ^ 8).
  rewrite <-Z.pow_mul_r by (try apply Z.div_pos; lia).
  eapply Z.lt_le_trans; [done|]. apply Z.pow_le_mono_r; [lia|].
  pose proof (Z_div_mod_eq_full (bit_length num + 7) 8).
  pose proof (Z.mod_pos_bound (bit_length num + 7) 8). lia.
Qed.

Lemma b58_body_ok num : bytes_ok (b58_body num).
Proof. unfold b58_body. case_match; [constructor|]. apply to_bytes_be_ok. Qed.

Lemma b58_body_no_leading num : 0 <= num -> count_leading 0 (b58_body num) = O.
Proof.
  intros Hn. destruct (count_leading_split 0 (b58_body num)) as (l & Hl & H0).
  pose proof (b58_body_ok num) as Hok. rewrite Hl in Hok.
  apply Forall_app in Hok as [_ Hok].
  pose proof (b58_body_value num Hn) as Hv. rewrite Hl, from_bytes_be_zeros in Hv.
  pose proof (b58_body_minimal l Hok H0) as Hm. rewrite Hv in Hm. by rewrite Hm.
Qed.

Lemma b58btc_decode_unfold s :
  b58btc_decode s =
    if MAX_B58_LEN <? len s then Err MultibaseError else
    (fun n => replicate (count_leading 49 s) 0 ++ b58_body n) <$> b58_accumulate 0 s.
Proof. unfold b58btc_decode, raise_if. destruct (_ <? _); cbn; [done|]. by destruct (b58_accumulate 0 s). Qed.

Lemma b58btc_encode_value data :
  bytes_ok data ->
  b58_accumulate 0 (b58btc_encode data) = Ok (from_bytes_be data) /\
  count_leading 49 (b58btc_encode data) = count_leading 0 data.
Proof.
  intros Hok. unfold b58btc_encode.
  destruct (from_bytes_be_bounds data Hok) as [Hn _].
  destruct (bit_length_bound _ Hn) as [Hb1 Hb2].
  split.
  - rewrite b58_accumulate_ones, b58_digits_value; [done|]. rewrite Z2Nat.id by done. done.
  - apply count_leading_replicate. destruct (Z.eq_dec (from_bytes_be data) 0) as [->|].
    + done.
    + apply b58_digits_head. rewrite Z2Nat.id by done. lia.
Qed.

Lemma b58btc_decode_encode (data : bytes) :
  bytes_ok data -> len (b58btc_encode data) <= MAX_B58_LEN ->
  b58btc_decode (b58btc_encode data) = Ok data.
Proof.
  intros Hok Hlen. rewrite b58btc_decode_unfold.
  destruct (Z.ltb_spec MAX_B58_LEN (len (b58btc_encode data))); [lia|].
  destruct (b58btc_encode_value data Hok) as [-> ->]. cbn. f_equal.
  destruct (count_leading_split 0 data) as (l & Hl & H0).
  assert (bytes_ok l) by (rewrite Hl in Hok; by apply Forall_app in Hok as [_ ?]).
  rewrite Hl at 2 3. by rewrite from_bytes_be_zeros, b58_body_minimal.
Qed.

Lemma decode_encode_multibase (data : bytes) :
  bytes_ok data -> len (b58btc_encode data) <= MAX_B58_LEN -> decode_multibase (encode_multibase data) = Ok data.
Proof. intros Hok Hlen. unfold encode_multibase. cbn [app]. by apply b58btc_decode_encode. Qed.

(** Base58btc round trip.  Encoding any byte string whose encoding fits the decoder's
    4096-character cap and decoding it again gives back the same bytes, leading NUL
    bytes included. *)
Theorem b58btc_roundtrip (data : bytes) :
  bytes_ok data -> len (b58btc_encode data) <= MAX_B58_LEN ->
  b58btc_decode (b58btc_encode data) = Ok data.
Proof. apply b58btc_decode_encode. Qed.

Lemma b58btc_roundtrip_witness :
  bytes_ok [0; 0; 237; 1; 255] /\ b58btc_decode (b58btc_encode [0; 0; 237; 1; 255]) = Ok [0; 0; 237; 1; 255].
Proof.
  split; [by apply (bool_decide_unpack _); vm_compute|].
  apply b58btc_roundtrip; [by apply (bool_decide_unpack _); vm_compute|vm_compute; discriminate].
Defined.

(** Multibase is not malleable.  A string the decoder accepts is the encoding of the
    bytes it decodes to, so no two strings decode to the same bytes, and only strings
    over the 58-character alphabet and prefixed [z] are accepted. *)
Theorem decode_multibase_canonical (value : pystr) (data : bytes) :
  decode_multibase value = Ok data -> bytes_ok data /\ encode_multibase data = value.
Proof.
  intros Hd. unfold encode_multibase.
  assert (exists s, value = 122 :: s /\ b58btc_decode s = Ok data) as (s & -> & Hs).
  { destruct value as [|z s]; [done|]. exists s. revert Hd. unfold decode_multibase.
    repeat case_match; by intros. }
  clear Hd. rewrite b58btc_decode_unfold in Hs. case_match; [done|].
  destruct (b58_accumulate 0 s) as [n|] eqn:En; [|done]. injection Hs as <-.
  pose proof (b58_accumulate_nonneg 0 s n ltac:(lia) En) as Hn.
  split.
  { apply Forall_app. split; [apply Forall_replicate; unfold is_byte; lia|apply b58_body_ok]. }
  simpl. f_equal. unfold b58btc_encode.
  rewrite from_bytes_be_zeros, b58_body_value by done.
  rewrite count_leading_replicate by by apply b58_body_no_leading.
  destruct (count_leading_split 49 s) as (s' & Hs' & H0). rewrite Hs' in En |- * at 2.
  rewrite b58_accumulate_ones in En. f_equal.
  destruct (bit_length_bound n Hn). rewrite <-(app_nil_r s').
  apply b58_digits_unique; [done..|]. by rewrite Z2Nat.id.
Qed.

Lemma decode_multibase_canonical_witness :
  encode_multibase [0; 0; 40; 127; 180; 205] = $"z11233QC4".
Proof. eapply decode_multibase_canonical. vm_compute. reflexivity. Defined.

(** * The varint reader *)

(** The bytes up to and including the first one whose continuation bit is clear. *)
Fixpoint terminated (data : bytes) : option bytes :=
  match data with
  | [] => None
  | b :: data => if Z.land b 128 =? 0 then Some [b] else (fun p => b :: p) <$> terminated data
  end.

(** The value of an LEB128 digit sequence, least significant group first. *)
Definition leb128_value (p : bytes) : Z := foldr (fun b acc => Z.land b 127 + 128 * acc) 0 p.

Lemma read_varint_from_spec i r data :
  0 <= i -> 0 <= r < 2 ^ (7 * i) ->
  read_varint_from i r (7 * i) data =
    match terminated data with
    | Some p => if i + len p <=? MAX_VARINT_BYTES
                then Ok (r + leb128_value p * 2 ^ (7 * i), i + len p) else Err MultibaseError
    | None => Err MultibaseError
    end.
Proof.
  unfold len. revert i r. induction data as [|b data IH]; intros i r Hi Hr; [done|].
  cbn [read_varint_from terminated]. unfold raise_if.
  destruct (Z.leb_spec MAX_VARINT_BYTES i); cbn [mbind result_bind].
  { destruct (_ =? 0); [|destruct (terminated data)]; cbn; try done.
    all: match goal with |- context [?x <=? ?y] => destruct (Z.leb_spec x y); [lia|done] end. }
  pose proof (Z.mod_pos_bound b 128 ltac:(lia)) as Hb.
  assert (Z.land b 127 = b mod 128) as Hland by apply (land_ones_mod b 7 ltac:(lia)).
  rewrite lor_shiftl_add by lia.
  destruct (_ =? 0).
  { change (Z.of_nat (length [b])) with 1. unfold leb128_value. cbn [foldr].
    destruct (Z.leb_spec (i + 1) MAX_VARINT_BYTES); [|lia]. f_equal. f_equal. ring. }
  assert (7 * i + 7 = 7 * (i + 1)) as -> by lia.
  assert (2 ^ (7 * (i + 1)) = 128 * 2 ^ (7 * i)) as Hpow.
  { rewrite Z.mul_add_distr_l, Z.pow_add_r by lia. change (2 ^ (7 * 1)) with 128. lia. }
  rewrite IH; [|lia|rewrite Hpow, Hland; nia].
  destruct (terminated data) as [p|]; cbn [fmap option_fmap option_map]; [|done].
  unfold leb128_value. cbn [length foldr]. fold (leb128_value p). rewrite Nat2Z.inj_succ.
  assert (i + 1 + Z.of_nat (length p) = i + Z.succ (Z.of_nat (length p))) as -> by lia.
  destruct (_ <=? _); [|done]. f_equal. f_equal. rewrite Hpow. ring.
Qed.

(** The multicodec varint reader is the LEB128 reference.  It reads exactly the bytes up
    to the first with a clear continuation bit, returns their little-endian base-128
    value and how many they are, and raises [MultibaseError] when there is no such byte
    or more than nine are needed. *)
Theorem read_varint_is_leb128 (data : bytes) :
  read_varint data =
    match terminated data with
    | Some p => if len p <=? MAX_VARINT_BYTES then Ok (leb128_value p, len p) else Err MultibaseError
    | None => Err MultibaseError
    end.
Proof.
  pose proof (read_varint_from_spec 0 0 data ltac:(lia) ltac:(simpl; lia)) as H.
  change (7 * 0) with 0 in H. rewrite Z.pow_0_r in H. unfold read_varint. rewrite H.
  destruct (terminated data); [|done]. by rewrite !Z.add_0_l, Z.mul_1_r.
Qed.
