(* ===== verification/Cbor.v ===== *)
(** [openvc.cbor] (src/src/openvc/cbor.py): the bounded CBOR codec.

    [encode] is the deterministic encoder ([_head], [_encode]); [decode] the fail-closed
    decoder.  The decoder of the code threads the input and a position, so it is written
    here in the [parser] monad over exactly that state.  [decode_at] recurses on the
    number of nesting levels left ([_MAX_DEPTH + 1 - depth]); the [for _ in range(n)]
    loops take the remaining input as fuel, which is enough because every item consumes
    a byte ([decode_errors] shows the out-of-fuel result is never returned). *)
From S2P Require Import Prelude Errors Utf8.

(** * Data *)

(** The map keys of the profile. *)
Inductive ckey := KInt (n : Z) | KBytes (b : bytes) | KText (s : pystr).

(** The Python objects [encode] is given and [decode] builds.  [CRaw] is [CborRaw],
    [CTag] is [CborTag] with its [raw] field, [COther] any object of another type. *)
Inductive cval :=
  | CNull
  | CBool (b : bool)
  | CInt (n : Z)
  | CBytes (b : bytes)
  | CText (s : pystr)
  | CArray (l : list cval)
  | CMap (d : list (ckey * cval))
  | CTag (tag : Z) (value : cval) (raw : option bytes)
  | CRaw (raw : bytes)
  | COther.

#[export] Instance ckey_eq_dec : EqDecision ckey.
Proof. solve_decision. Defined.

Definition MAX_DEPTH : nat := 64.

(** * Encoding *)

(** [out.append(b)] on a [bytearray]. *)
Definition append_byte (b : Z) : result bytes :=
  if (0 <=? b) && (b <? 256) then Ok [b] else Err ValueError.

Definition head (major n : Z) : result bytes :=
  let mt := Z.shiftl major 5 in
  if n <? 24 then append_byte (Z.lor mt n)
  else if n <? 256 then Ok [Z.lor mt 24; n]
  else if n <? 65536 then Ok (Z.lor mt 25 :: to_bytes_be 2 n)
  else if n <? 4294967296 then Ok (Z.lor mt 26 :: to_bytes_be 4 n)
  else if n <? 18446744073709551616 then Ok (Z.lor mt 27 :: to_bytes_be 8 n)
  else Err CborError.

Definition encode_int (n : Z) : result bytes :=
  if n <? 0 then head 1 (-1 - n) else head 0 n.

Definition encode_bytes (b : bytes) : result bytes :=
  h ← head 2 (len b); Ok (h ++ b).

Definition encode_text (s : pystr) : result bytes :=
  raw ← utf8_encode s; h ← head 3 (len raw); Ok (h ++ raw).

Definition encode_key (k : ckey) : result bytes :=
  match k with
  | KInt n => encode_int n
  | KBytes b => encode_bytes b
  | KText s => encode_text s
  end.

Fixpoint encode (obj : cval) : result bytes :=
  match obj with
  | CNull => Ok [246]
  | CBool true => Ok [245]
  | CBool false => Ok [244]
  | CRaw raw => Ok raw
  | CTag tag value _ => h ← head 6 tag; b ← encode value; Ok (h ++ b)
  | CInt n => encode_int n
  | CBytes b => encode_bytes b
  | CText s => encode_text s
  | CArray l =>
      h ← head 4 (len l);
      bs ← mapR id (map encode l);
      Ok (h ++ concat bs)
  | CMap d =>
      eks ← mapR encode_key d.*1;
      h ← head 5 (len d);
      let encoded := sort_by fst (zip eks (map (fun kv => encode (snd kv)) d)) in
      bs ← mapR (fun p : bytes * result bytes => b ← p.2; Ok (p.1 ++ b)) encoded;
      Ok (h ++ concat bs)
  | COther => Err CborError
  end.

(** * Decoding *)

(** A reader of the input from a position: the value read and the next position. *)
Definition parser (A : Type) : Type := bytes -> nat -> result (A * nat).

#[export] Instance parser_ret : MRet parser := fun A a data i => Ok (a, i).
#[export] Instance parser_bind : MBind parser :=
  fun A B f p data i => '(a, i) ← p data i; f a data i.

Definition fail {A} (e : exn) : parser A := fun data i => Err e.
Definition position : parser nat := fun data i => Ok (i, i).
Definition input : parser bytes := fun data i => Ok (data, i).
(** [if b: raise e]. *)
Definition fail_if (b : bool) (e : exn) : parser unit := fun data i => _ ← raise_if b e; Ok (tt, i).
Definition lift {A} (m : result A) : parser A := fun data i => a ← m; Ok (a, i).

(** The argument's width, by additional information. *)
Definition arg_bytes (info : Z) : option nat :=
  if info =? 24 then Some 1%nat else if info =? 25 then Some 2%nat
  else if info =? 26 then Some 4%nat else if info =? 27 then Some 8%nat else None.

(** [data[i:i+n]] with the bound check before it. *)
Definition take_bytes (n : Z) : parser bytes := fun data i =>
  if len data <? Z.of_nat i + n then Err CborError
  else Ok (slice data i (i + Z.to_nat n), (i + Z.to_nat n)%nat).

Definition read_head : parser (Z * Z) := fun data i =>
  match data !! i with
  | None => Err CborError
  | Some ib =>
      let major := Z.shiftr ib 5 in
      let info := Z.land ib 31 in
      if info <? 24 then Ok ((major, info), S i)
      else if info =? 31 then Err CborError
      else match arg_bytes info with
           | None => Err CborError
           | Some nbytes =>
               '(arg, i) ← take_bytes (Z.of_nat nbytes) data (S i);
               Ok ((major, from_bytes_be arg), i)
           end
  end.

(** [isinstance(key, (int, bytes, str)) and not isinstance(key, bool)]. *)
Definition key_of (v : cval) : option ckey :=
  match v with
  | CInt n => Some (KInt n)
  | CBytes b => Some (KBytes b)
  | CText s => Some (KText s)
  | _ => None
  end.

Section loops.
Context (item : parser cval).

(** [for _ in range(n)] over array items. *)
Fixpoint decode_items (fuel : nat) (n : Z) : parser (list cval) :=
  if n <=? 0 then mret [] else
  match fuel with
  | O => fail PyException
  | S fuel => v ← item; vs ← decode_items fuel (n - 1); mret (v :: vs)
  end.

(** [for _ in range(n)] over map entries, filling [out_map]. *)
Fixpoint decode_pairs (fuel : nat) (n : Z) (out_map : list (ckey * cval))
    : parser (list (ckey * cval)) :=
  if n <=? 0 then mret out_map else
  match fuel with
  | O => fail PyException
  | S fuel =>
      key ← item; val ← item;
      match key_of key with
      | None => fail CborError
      | Some k =>
          fail_if (dmem out_map k) CborError;;
          decode_pairs fuel (n - 1) (dset out_map k val)
      end
  end.
End loops.

(** What follows the head of an item that starts at [start], by major type; [item] reads
    a nested item. *)
Definition decode_body (item : parser cval) (start : nat) (major n : Z) : parser cval :=
  data ← input;
  if major =? 0 then mret (CInt n)
  else if major =? 1 then mret (CInt (-1 - n))
  else if major =? 2 then b ← take_bytes n; mret (CBytes b)
  else if major =? 3 then
    b ← take_bytes n;
    s ← lift (catch_as (fun e => isinstance e UnicodeDecodeError) CborError (utf8_decode b));
    mret (CText s)
  else if major =? 4 then
    out_list ← decode_items item (length data) n; mret (CArray out_list)
  else if major =? 5 then
    out_map ← decode_pairs item (length data) n []; mret (CMap out_map)
  else if major =? 6 then
    value ← item;
    i ← position;
    mret (CTag n value (Some (slice data start i)))
  else
    let info := Z.land (nth start data 0) 31 in
    if info =? 20 then mret (CBool false)
    else if info =? 21 then mret (CBool true)
    else if info =? 22 then mret CNull
    else fail CborError.

Fixpoint decode_at (levels : nat) : parser cval :=
  match levels with
  | O => fail CborError
  | S levels =>
      start ← position;
      '(major, n) ← read_head;
      decode_body (decode_at levels) start major n
  end.

Definition decode (data : bytes) : result cval :=
  '(obj, i) ← decode_at (S MAX_DEPTH) data 0%nat;
  _ ← raise_if (negb (Nat.eqb i (length data))) CborError;
  Ok obj.

(** One item from an offset; the input need not be consumed. *)
Definition decode_from (data : bytes) (offset : nat) : result (cval * nat) :=
  decode_at (S MAX_DEPTH) data offset.

Definition sample : cval :=
  CMap [(KText ($"b"), CArray [CInt (-7); CTag 24 (CBytes [1; 2]) None]);
        (KInt 1, CNull); (KText ($"a"), CBool true)].

Example cbor_encode_ex :
  encode sample = Ok [163; 1; 246; 97; 97; 245; 97; 98; 130; 38; 216; 24; 66; 1; 2].
Proof. vm_compute. reflexivity. Qed.
Example cbor_decode_ex :
  (encode sample ≫= decode) =
    Ok (CMap [(KInt 1, CNull); (KText ($"a"), CBool true);
              (KText ($"b"), CArray [CInt (-7); CTag 24 (CBytes [1; 2]) (Some [216; 24; 66; 1; 2])])]).
Proof. vm_compute. reflexivity. Qed.
Example cbor_decode_float : decode [249; 0; 21] = Err CborError.
Proof. vm_compute. reflexivity. Qed.
Example cbor_decode_dup : decode [162; 1; 1; 1; 2] = Err CborError.
Proof. vm_compute. reflexivity. Qed.

(** * Parsers that read a given encoding

    [reads p b v]: wherever [b] stands in the input, [p] reads [v] and stops at its end. *)
Definition reads {A} (p : parser A) (b : bytes) (v : A) : Prop :=
  forall pre post, p (pre ++ b ++ post) (length pre) = Ok (v, (length pre + length b)%nat).

Lemma parser_bind_unfold {A B} (p : parser A) (f : A -> parser B) data i :
  (p ≫= f) data i = match p data i with Ok (a, j) => f a data j | Err e => Err e end.
Proof. unfold mbind, parser_bind. by destruct (p data i) as [[]|]. Qed.

Lemma reads_ret {A} (v : A) : reads (mret v) [] v.
Proof. intros pre post. cbn. by rewrite Nat.add_0_r. Qed.

Lemma reads_bind {A B} (p : parser A) (f : A -> parser B) b1 b2 v1 v2 :
  reads p b1 v1 -> reads (f v1) b2 v2 -> reads (p ≫= f) (b1 ++ b2) v2.
Proof.
  intros H1 H2 pre post. rewrite parser_bind_unfold, <-app_assoc, H1.
  rewrite (app_assoc pre), length_app, Nat.add_assoc, <-length_app. by rewrite H2.
Qed.

Lemma reads_bind_ret {A B} (p : parser A) (f : A -> B) b v :
  reads p b v -> reads (x ← p; mret (f x)) b (f v).
Proof. intros H. rewrite <-(app_nil_r b). eapply reads_bind; [done|apply reads_ret]. Qed.

Lemma reads_take_bytes b : reads (take_bytes (len b)) b b.
Proof.
  intros pre post. unfold take_bytes, len. rewrite !length_app, Nat2Z.id.
  destruct (Z.ltb_spec (Z.of_nat (length pre + (length b + length post)))
    (Z.of_nat (length pre) + Z.of_nat (length b))); [lia|].
  by rewrite slice_app.
Qed.

(** The initial byte of a head is [major * 32 + info]. *)
Lemma initial_byte major n :
  0 <= major -> 0 <= n < 32 ->
  let ib := Z.lor (Z.shiftl major 5) n in
  ib = major * 32 + n /\ Z.shiftr ib 5 = major /\ Z.land ib 31 = n.
Proof.
  intros Hm Hn ib. subst ib. rewrite Z.lor_comm, lor_shiftl_add by lia. change (2 ^ 5) with 32.
  split_and!; [lia| |].
  - rewrite Z.shiftr_div_pow2 by lia. change (2 ^ 5) with 32. Z.to_euclidean_division_equations; lia.
  - change 31 with (2 ^ 5 - 1). rewrite land_ones_mod by lia. change (2 ^ 5) with 32.
    Z.to_euclidean_division_equations; lia.
Qed.

(** The five head forms, as one statement. *)
Lemma head_cases major n h :
  head major n = Ok h -> 0 <= major < 8 ->
  (0 <= n < 24 /\ h = [Z.lor (Z.shiftl major 5) n]) \/
  exists info nbytes, arg_bytes info = Some nbytes /\ 24 <= info < 28 /\
    h = Z.lor (Z.shiftl major 5) info :: to_bytes_be nbytes n /\
    0 <= n < 256 ^ Z.of_nat nbytes.
Proof.
  intros Hh Hmaj. unfold head, append_byte in Hh.
  destruct (Z.ltb_spec n 24).
  { left. destruct (Z.leb_spec 0 (Z.lor (Z.shiftl major 5) n)) as [Hl|]; [|done].
    apply Z.lor_nonneg in Hl as [_ ?].
    case_match; [|done]. split; [lia|]. congruence. }
  right.
  destruct (Z.ltb_spec n 256); [exists 24, 1%nat|
  destruct (Z.ltb_spec n 65536); [exists 25, 2%nat|
  destruct (Z.ltb_spec n 4294967296); [exists 26, 4%nat|
  destruct (Z.ltb_spec n 18446744073709551616); [exists 27, 8%nat|done]]]].
  all: injection Hh as <-; split_and!; try done; try lia.
  cbn. by rewrite Z.mod_small by lia.
Qed.

Lemma reads_head major n h :
  head major n = Ok h -> 0 <= major < 8 -> reads read_head h (major, n).
Proof.
  intros Hh Hmaj pre post.
  destruct (head_cases _ _ _ Hh Hmaj) as [[Hn ->]|(info & nb & Hnb & Hinfo & -> & Hn)].
  - unfold read_head. cbn [app]. rewrite list_lookup_middle by done.
    destruct (initial_byte major n) as (_ & -> & ->); [lia..|].
    destruct (Z.ltb_spec n 24); [|lia]. cbn. by rewrite Nat.add_1_r.
  - unfold read_head. cbn [app]. rewrite list_lookup_middle by done.
    destruct (initial_byte major info) as (_ & -> & ->); [lia..|].
    destruct (Z.ltb_spec info 24); [lia|]. destruct (Z.eqb_spec info 31); [lia|].
    rewrite Hnb. pose proof (length_to_bytes_be nb n) as Hlen.
    set (ib := Z.lor _ _). pose proof (reads_take_bytes (to_bytes_be nb n) (pre ++ [ib]) post) as Ht.
    unfold len in Ht. rewrite Hlen, length_app, <-app_assoc in Ht. cbn [length app] in Ht.
    rewrite Nat.add_1_r in Ht. cbn [app]. rewrite Ht. cbn.
    rewrite from_to_bytes_be by done. rewrite Hlen. repeat f_equal. lia.
Qed.

Lemma head_nonempty major n h : head major n = Ok h -> 0 <= major < 8 -> (1 <= length h)%nat.
Proof.
  intros Hh Hm. destruct (head_cases _ _ _ Hh Hm) as [[_ ->]|(?&?&_&_&->&_)]; simpl; lia.
Qed.

Lemma head_arg_nonneg major n h : head major n = Ok h -> 0 <= major < 8 -> 0 <= n < 2 ^ 64.
Proof.
  intros Hh Hm. destruct (head_cases _ _ _ Hh Hm) as [[? _]|(info&nb&Hnb&_&_&Hn)]; [lia|].
  unfold arg_bytes in Hnb. repeat case_match; simplify_eq; simpl in Hn; lia.
Qed.

Lemma head_first major n h :
  head major n = Ok h -> 0 <= major < 8 -> exists b t, h = b :: t /\ Z.shiftr b 5 = major.
Proof.
  intros Hh Hm. destruct (head_cases _ _ _ Hh Hm) as [[? ->]|(info&nb&_&?&->&_)];
    (eexists _, _; split; [done|]).
  - by destruct (initial_byte major n) as (_ & ? & _); [lia..|].
  - by destruct (initial_byte major info) as (_ & ? & _); [lia..|].
Qed.

(** * Values *)

Lemma cval_ind' (P : cval -> Prop) :
  P CNull -> (forall b, P (CBool b)) -> (forall n, P (CInt n)) -> (forall b, P (CBytes b)) ->
  (forall s, P (CText s)) -> (forall l, Forall P l -> P (CArray l)) ->
  (forall d, Forall (fun kv => P (snd kv)) d -> P (CMap d)) ->
  (forall t v r, P v -> P (CTag t v r)) -> (forall r, P (CRaw r)) -> P COther ->
  forall v, P v.
Proof.
  intros Hn Hb Hi Hby Ht Ha Hm Htag Hr Ho. fix IH 1. intros [|b|n|b|s|l|d|t v r|r|].
  - apply Hn.
  - apply Hb.
  - apply Hi.
  - apply Hby.
  - apply Ht.
  - apply Ha. induction l; constructor; auto.
  - apply Hm. induction d as [|[k v] d]; constructor; auto.
  - apply Htag, IH.
  - apply Hr.
  - apply Ho.
Qed.

(** How many levels of nesting an item needs below itself (an empty container none). *)
Fixpoint height (v : cval) : nat :=
  match v with
  | CArray l => list_max (map (fun x => S (height x)) l)
  | CMap d => list_max (map (fun kv => S (height (snd kv))) d)
  | CTag _ v _ => S (height v)
  | _ => O
  end.

Definition key_ok (k : ckey) : Prop :=
  match k with KInt _ => True | KBytes b => bytes_ok b | KText s => pystr_ok s end.

(** The objects of the documented domain: byte strings of bytes, strings of code points,
    dicts with distinct keys, and nothing pre-encoded. *)
Fixpoint cval_ok (v : cval) : Prop :=
  match v with
  | CNull | CBool _ | CInt _ => True
  | CBytes b => bytes_ok b
  | CText s => pystr_ok s
  | CArray l => foldr (fun x P => cval_ok x /\ P) True l
  | CMap d => dict_ok d /\ foldr (fun kv P => (key_ok (fst kv) /\ cval_ok (snd kv)) /\ P) True d
  | CTag _ v _ => cval_ok v
  | CRaw _ | COther => False
  end.

Definition key_bytes (k : ckey) : bytes := match encode_key k with Ok b => b | Err _ => [] end.

(** What a decoder makes of the encoding of a value: map entries in the order of their
    encoded keys, and the encoding of every tag recorded in its [raw] field. *)
Fixpoint received (v : cval) : cval :=
  match v with
  | CArray l => CArray (map received l)
  | CMap d => CMap (sort_by (fun kv => key_bytes (fst kv)) (map (fun kv => (fst kv, received (snd kv))) d))
  | CTag t v _ =>
      CTag t (received v) (match encode (CTag t v None) with Ok b => Some b | Err _ => None end)
  | v => v
  end.

Lemma foldr_Forall {A} (P : A -> Prop) l : foldr (fun x Q => P x /\ Q) True l <-> Forall P l.
Proof. induction l; simpl; [split; [constructor|done]|]. rewrite Forall_cons. naive_solver. Qed.

Lemma cval_ok_array l : cval_ok (CArray l) <-> Forall cval_ok l.
Proof. apply foldr_Forall. Qed.

Lemma cval_ok_map d :
  cval_ok (CMap d) <-> dict_ok d /\ Forall (fun kv => key_ok kv.1 /\ cval_ok kv.2) d.
Proof. simpl. by rewrite (foldr_Forall (fun kv => key_ok (fst kv) /\ cval_ok (snd kv))). Qed.

Lemma list_max_le l k : (list_max l <= k)%nat <-> Forall (fun x => (x <= k)%nat) l.
Proof. apply List.list_max_le. Qed.

(** The value a key decodes to. *)
Definition key_val (k : ckey) : cval :=
  match k with KInt n => CInt n | KBytes b => CBytes b | KText s => CText s end.

Lemma key_of_val k : key_of (key_val k) = Some k.
Proof. by destruct k. Qed.

Lemma items_read item ws bs fuel :
  Forall2 (reads item) bs ws -> (length ws <= fuel)%nat ->
  reads (decode_items item fuel (len ws)) (concat bs) ws.
Proof.
  intros Hf. revert fuel. unfold len. induction Hf as [|b w bs ws Hb Hf IH]; intros fuel Hl.
  - destruct fuel; apply reads_ret.
  - destruct fuel as [|fuel]; simpl in Hl; [lia|]. cbn [decode_items concat length].
    destruct (Z.leb_spec (Z.of_nat (S (length ws))) 0); [lia|].
    replace (Z.of_nat (S (length ws)) - 1) with (Z.of_nat (length ws)) by lia.
    eapply reads_bind; [done|]. apply (reads_bind_ret _ (cons w)). apply IH. lia.
Qed.

Lemma pairs_read item (kws : list (ckey * cval)) bs fuel out :
  Forall2 (fun b kw => exists bk bv, b = bk ++ bv /\
             reads item bk (key_val kw.1) /\ reads item bv kw.2) bs kws ->
  (length kws <= fuel)%nat -> dict_ok (out ++ kws) ->
  reads (decode_pairs item fuel (len kws) out) (concat bs) (out ++ kws).
Proof.
  intros Hf. revert fuel out. unfold len.
  induction Hf as [|b [k w] bs kws (bk & bv & -> & Hk & Hv) Hf IH]; intros fuel out Hl Hnd.
  - rewrite app_nil_r. destruct fuel; apply reads_ret.
  - destruct fuel as [|fuel]; simpl in Hl; [lia|]. cbn [decode_pairs concat length].
    destruct (Z.leb_spec (Z.of_nat (S (length kws))) 0); [lia|].
    replace (Z.of_nat (S (length kws)) - 1) with (Z.of_nat (length kws)) by lia.
    rewrite <-app_assoc. eapply reads_bind; [done|]. eapply reads_bind; [done|]. cbn [snd fst].
    rewrite key_of_val.
    assert (k ∉ out.*1) as Hni.
    { unfold dict_ok in Hnd. rewrite fmap_app in Hnd. apply NoDup_app in Hnd as (_ & Hd & _).
      intros Hin. apply (Hd k Hin). csimpl. left. }
    assert (dmem out k = false) as ->.
    { destruct (dmem out k) eqn:E; [|done]. apply dmem_spec in E. done. }
    rewrite dset_new by done. change (concat bs) with ([] ++ concat bs).
    eapply reads_bind; [apply reads_ret|].
    replace (out ++ (k, w) :: kws) with ((out ++ [(k, w)]) ++ kws) in * by by rewrite <-app_assoc.
    apply IH; [lia|done].
Qed.

Lemma decode_at_S levels data i :
  decode_at (S levels) data i =
    match read_head data i with
    | Ok ((major, n), j) => decode_body (decode_at levels) i major n data j
    | Err e => Err e
    end.
Proof.
  cbn [decode_at]. rewrite parser_bind_unfold. cbn [position]. rewrite parser_bind_unfold.
  by destruct (read_head data i) as [[[]]|].
Qed.

(** An item is read by reading its head and then its body. *)
Lemma reads_item levels major n h b v :
  reads read_head h (major, n) ->
  (forall pre post,
     decode_body (decode_at levels) (length pre) major n
       (pre ++ h ++ b ++ post) (length (pre ++ h)) = Ok (v, length (pre ++ h ++ b))) ->
  reads (decode_at (S levels)) (h ++ b) v.
Proof.
  intros Hh Hk pre post. rewrite decode_at_S, <-app_assoc, Hh.
  rewrite <-!length_app. by apply Hk.
Qed.

(** The same for a body that does not look at where the item started. *)
Lemma reads_item_body levels major n h b v :
  reads read_head h (major, n) ->
  (forall start, reads (decode_body (decode_at levels) start major n) b v) ->
  reads (decode_at (S levels)) (h ++ b) v.
Proof.
  intros Hh Hb. eapply reads_item; [done|]. intros pre post.
  rewrite (app_assoc pre h), Hb. by rewrite <-length_app, <-app_assoc.
Qed.

Lemma reads_leaf levels major n h v :
  reads read_head h (major, n) ->
  (forall start, reads (decode_body (decode_at levels) start major n) [] v) ->
  reads (decode_at (S levels)) h v.
Proof. intros. rewrite <-(app_nil_r h). by eapply reads_item_body. Qed.

Section bodies.
Context (item : parser cval) (start : nat).

Lemma body_unsigned n : reads (decode_body item start 0 n) [] (CInt n).
Proof. apply reads_ret. Qed.

Lemma body_negative n : reads (decode_body item start 1 n) [] (CInt (-1 - n)).
Proof. apply reads_ret. Qed.

Lemma body_bytes b : reads (decode_body item start 2 (len b)) b (CBytes b).
Proof.
  intros pre post. unfold decode_body. rewrite parser_bind_unfold. cbn [input Z.eqb Pos.eqb].
  apply (reads_bind_ret _ CBytes _ _ (reads_take_bytes b)).
Qed.

Lemma body_text s raw :
  utf8_decode raw = Ok s -> reads (decode_body item start 3 (len raw)) raw (CText s).
Proof.
  intros Hs pre post. unfold decode_body. rewrite parser_bind_unfold. cbn [input Z.eqb Pos.eqb].
  rewrite parser_bind_unfold, reads_take_bytes, parser_bind_unfold. unfold lift. by rewrite Hs.
Qed.

Lemma body_items ws bs :
  Forall2 (reads item) bs ws -> (length ws <= length (concat bs))%nat ->
  reads (decode_body item start 4 (len ws)) (concat bs) (CArray ws).
Proof.
  intros Hr Hl pre post. unfold decode_body. rewrite parser_bind_unfold. cbn [input Z.eqb Pos.eqb].
  assert (length ws <= length (pre ++ concat bs ++ post))%nat as Hf by (rewrite !length_app; lia).
  apply (reads_bind_ret _ CArray _ _ (items_read _ _ _ _ Hr Hf)).
Qed.

Lemma body_pairs (kws : list (ckey * cval)) bs :
  Forall2 (fun b kw => exists bk bv, b = bk ++ bv /\
             reads item bk (key_val kw.1) /\ reads item bv kw.2) bs kws ->
  dict_ok kws -> (length kws <= length (concat bs))%nat ->
  reads (decode_body item start 5 (len kws)) (concat bs) (CMap kws).
Proof.
  intros Hr Hnd Hl pre post. unfold decode_body. rewrite parser_bind_unfold.
  cbn [input Z.eqb Pos.eqb].
  assert (length kws <= length (pre ++ concat bs ++ post))%nat as Hf by (rewrite !length_app; lia).
  apply (reads_bind_ret _ CMap _ _ (pairs_read _ _ _ _ [] Hr Hf Hnd)).
Qed.
End bodies.

(** A tag's body records everything from the start of its head. *)
Lemma reads_tag levels t h b v :
  reads read_head h (6, t) -> reads (decode_at levels) b v ->
  reads (decode_at (S levels)) (h ++ b) (CTag t v (Some (h ++ b))).
Proof.
  intros Hh Hb. eapply reads_item; [done|]. intros pre post. unfold decode_body.
  rewrite parser_bind_unfold. cbn [input Z.eqb Pos.eqb].
  rewrite parser_bind_unfold, (app_assoc pre h), Hb, parser_bind_unfold. cbn [position].
  rewrite <-length_app, <-!app_assoc, (app_assoc h b), slice_app; [done|done|].
  by rewrite (length_app pre).
Qed.

(** The simple values are told apart by the additional information of the head's byte. *)
Definition simple_value (info : Z) : option cval :=
  if info =? 20 then Some (CBool false) else if info =? 21 then Some (CBool true)
  else if info =? 22 then Some CNull else None.

Lemma reads_simple levels h n v :
  reads read_head h (7, n) -> (1 <= length h)%nat ->
  simple_value (Z.land (nth 0 h 0) 31) = Some v ->
  reads (decode_at (S levels)) h v.
Proof.
  intros Hh Hl Hv. rewrite <-(app_nil_r h). eapply reads_item; [done|]. intros pre post.
  unfold decode_body. rewrite parser_bind_unfold. cbn [input Z.eqb Pos.eqb].
  rewrite app_nth2, Nat.sub_diag, app_nth1, app_nil_r by lia. revert Hv. unfold simple_value.
  repeat case_match; intros; by simplify_eq.
Qed.

Lemma int_reads levels n b : encode_int n = Ok b -> reads (decode_at (S levels)) b (CInt n).
Proof.
  unfold encode_int. destruct (Z.ltb_spec n 0); intros Hb%reads_head; try lia.
  - eapply reads_leaf; [done|]. intros.
    replace (CInt n) with (CInt (-1 - (-1 - n))) by (f_equal; lia). apply body_negative.
  - eapply reads_leaf; [done|]. intros. apply body_unsigned.
Qed.

Lemma bytes_reads levels x b : encode_bytes x = Ok b -> reads (decode_at (S levels)) b (CBytes x).
Proof.
  unfold encode_bytes. intros (h & Hh%reads_head & [= <-])%bind_Ok; [|lia].
  eapply reads_item_body; [done|]. intros. apply body_bytes.
Qed.

Lemma text_reads levels s b :
  pystr_ok s -> encode_text s = Ok b -> reads (decode_at (S levels)) b (CText s).
Proof.
  unfold encode_text. intros Hs (raw & Hraw & (h & Hh%reads_head & [= <-])%bind_Ok)%bind_Ok; [|lia].
  eapply reads_item_body; [done|]. intros. apply body_text. by apply utf8_decode_encode.
Qed.

Lemma key_reads levels k b :
  key_ok k -> encode_key k = Ok b -> reads (decode_at (S levels)) b (key_val k).
Proof. destruct k; simpl; intros; eauto using int_reads, bytes_reads, text_reads. Qed.

Lemma encode_key_inj k1 k2 b :
  key_ok k1 -> key_ok k2 -> encode_key k1 = Ok b -> encode_key k2 = Ok b -> k1 = k2.
Proof.
  intros Hk1 Hk2 E1%(key_reads O) E2%(key_reads O); [|done..].
  specialize (E1 [] []). specialize (E2 [] []). rewrite E1 in E2.
  injection E2 as E2. by destruct k1, k2; simplify_eq/=.
Qed.

Lemma encode_key_nonempty k b : encode_key k = Ok b -> (1 <= length b)%nat.
Proof.
  destruct k; simpl; unfold encode_int, encode_bytes, encode_text.
  - case_match; intros Hb; eapply head_nonempty; (done || lia).
  - intros (h & Hh & [= <-])%bind_Ok. rewrite length_app.
    apply head_nonempty in Hh; lia.
  - intros (r & _ & (h & Hh & [= <-])%bind_Ok)%bind_Ok. rewrite length_app.
    apply head_nonempty in Hh; lia.
Qed.

Lemma encode_nonempty v b : cval_ok v -> encode v = Ok b -> (1 <= length b)%nat.
Proof.
  destruct v as [|[]|n|x|s|l|d|t v r|r|]; simpl; intros Hok Hb; simplify_eq/=; try lia; try done.
  - by apply (encode_key_nonempty (KInt n)).
  - by apply (encode_key_nonempty (KBytes x)).
  - by apply (encode_key_nonempty (KText s)).
  - apply bind_Ok in Hb as (h & Hh & (bs & _ & [= <-])%bind_Ok). rewrite length_app.
    apply head_nonempty in Hh; lia.
  - apply bind_Ok in Hb as (? & _ & (h & Hh & (bs & _ & [= <-])%bind_Ok)%bind_Ok).
    rewrite length_app. apply head_nonempty in Hh; lia.
  - apply bind_Ok in Hb as (h & Hh & (bs & _ & [= <-])%bind_Ok). rewrite length_app.
    apply head_nonempty in Hh; lia.
Qed.

(** The encoding of an array: a head and the encodings of its items. *)
Lemma encode_array_Ok l b :
  encode (CArray l) = Ok b <->
  exists h bs, head 4 (len l) = Ok h /\ Forall2 (fun v b => encode v = Ok b) l bs /\ b = h ++ concat bs.
Proof.
  simpl. rewrite mapR_map, bind_Ok. setoid_rewrite bind_Ok. setoid_rewrite mapR_Ok.
  unfold id. naive_solver.
Qed.

Lemma mapR_key_bytes d eks :
  mapR encode_key d.*1 = Ok eks -> eks = map (fun kv : ckey * cval => key_bytes kv.1) d /\
  Forall (fun kv => encode_key kv.1 = Ok (key_bytes kv.1)) d.
Proof.
  intros H%mapR_Ok. remember d.*1 as ks eqn:E. revert d E.
  induction H as [|k b ks bs Hk H IH]; intros [|[k' v] d]; csimpl; intros; simplify_eq; [done|].
  destruct (IH d eq_refl) as [-> Hf].
  assert (key_bytes k' = b) as Hkb by (unfold key_bytes; by rewrite Hk).
  simpl. rewrite Hkb. split; [done|]. constructor; [|done]. simpl. by rewrite Hkb.
Qed.

(** The encoding of a dict: a head and, in the order of the encoded keys, each key's
    encoding followed by its value's. *)
Definition entry_encodes (kv : ckey * cval) (b : bytes) : Prop :=
  exists bk bv, b = bk ++ bv /\ encode_key kv.1 = Ok bk /\ encode kv.2 = Ok bv.

Lemma zip_keys_values (d : list (ckey * cval)) :
  zip (map (fun kv => key_bytes kv.1) d) (map (fun kv => encode (snd kv)) d) =
  map (fun kv => (key_bytes kv.1, encode kv.2)) d.
Proof. induction d; simpl; [done|]. by f_equal. Qed.

Lemma encode_map_Ok d b :
  encode (CMap d) = Ok b <->
  exists h bs, head 5 (len d) = Ok h /\ b = h ++ concat bs /\
    Forall2 entry_encodes (sort_by (fun kv => key_bytes kv.1) d) bs.
Proof.
  simpl. split.
  - intros (eks & Heks & (h & Hh & (bs & Hbs & [= <-])%bind_Ok)%bind_Ok)%bind_Ok.
    exists h, bs. split_and!; [done..|]. destruct (mapR_key_bytes _ _ Heks) as [-> Hkeys].
    rewrite zip_keys_values, sort_by_map, mapR_map in Hbs. apply mapR_Ok in Hbs.
    eapply Forall2_impl_elem; [exact Hbs|]. intros kv b' Hin. rewrite elem_of_sort_by in Hin.
    rewrite Forall_forall in Hkeys. intros (bv & Hbv & [= <-])%bind_Ok.
    exists (key_bytes kv.1), bv. eauto.
  - intros (h & bs & -> & -> & Hbs).
    destruct (mapR_total encode_key d.*1) as [eks Heks].
    { apply Forall_fmap, Forall_forall. intros kv Hin. rewrite <-elem_of_sort_by in Hin.
      apply list_elem_of_lookup in Hin as [i Hi].
      destruct (Forall2_lookup_l _ _ _ _ _ Hbs Hi) as (b' & _ & bk & bv & _ & Hk & _).
      by exists bk. }
    rewrite Heks. destruct (mapR_key_bytes _ _ Heks) as [-> Hkeys]. cbn.
    rewrite zip_keys_values, sort_by_map, mapR_map.
    match goal with |- (mapR ?f ?l ≫= _) = _ => replace (mapR f l) with (Ok bs) end; [done|].
    symmetry. apply mapR_Ok. eapply Forall2_impl_elem; [exact Hbs|]. intros kv b' Hin.
    rewrite elem_of_sort_by in Hin. rewrite Forall_forall in Hkeys.
    intros (bk & bv & -> & Hk & Hv). simpl. rewrite Hv. cbn.
    rewrite (Hkeys kv Hin) in Hk. by injection Hk as ->.
Qed.

(** A decoded value encodes to the bytes it came from. *)
Lemma encode_received v b : encode v = Ok b -> encode (received v) = Ok b.
Proof.
  revert b. induction v as [| | | | |l IH|d IH|t v r IH|r|] using cval_ind'; intros y Hb; try done.
  - apply encode_array_Ok in Hb as (h & bs & Hh & Hbs & ->). cbn [received].
    apply encode_array_Ok. exists h, bs. split_and!; [|..|done].
    { unfold len. by rewrite length_map. }
    apply Forall2_fmap_l. rewrite Forall_forall in IH. eapply Forall2_impl_elem; [done|]. eauto.
  - apply encode_map_Ok in Hb as (h & bs & Hh & -> & Hbs). cbn [received].
    apply encode_map_Ok. rewrite Forall_forall in IH.
    rewrite (sort_by_id _ (sort_by _ _)) by apply sort_by_sorted.
    exists h, bs. split_and!; [|done|].
    { unfold len. by rewrite length_sort_by, length_map. }
    rewrite sort_by_map. apply Forall2_fmap_l. eapply Forall2_impl_elem; [done|].
    intros kv b' Hin (bk & bv & -> & Hk & Hv). rewrite elem_of_sort_by in Hin.
    exists bk, bv. eauto.
  - simpl in *. apply bind_Ok in Hb as (h & -> & (bv & Hbv & [= <-])%bind_Ok). cbn.
    by rewrite (IH _ Hbv).
Qed.

Lemma Forall_list_max {A} (f : A -> nat) l k :
  (list_max (map f l) <= k)%nat -> Forall (fun x => (f x <= k)%nat) l.
Proof. rewrite list_max_le, Forall_map. done. Qed.

Lemma length_concat_ge {A} (bs : list (list A)) :
  Forall (fun b => (1 <= length b)%nat) bs -> (length bs <= length (concat bs))%nat.
Proof. induction 1; simpl; [lia|]. rewrite length_app. lia. Qed.

Lemma encode_reads_array levels l b :
  Forall (fun v => forall b, cval_ok v -> encode v = Ok b -> (height v < levels)%nat ->
            reads (decode_at levels) b (received v)) l ->
  cval_ok (CArray l) -> encode (CArray l) = Ok b -> (height (CArray l) < S levels)%nat ->
  reads (decode_at (S levels)) b (received (CArray l)).
Proof.
  intros IH Hok (h & bs & Hh & Hbs & ->)%encode_array_Ok Hht.
  apply cval_ok_array in Hok. apply Nat.lt_succ_r, Forall_list_max in Hht.
  rewrite Forall_forall in IH, Hok, Hht.
  assert (Forall2 (reads (decode_at levels)) bs (map received l)) as Hr.
  { apply Forall2_flip, Forall2_fmap_l. eapply Forall2_impl_elem; [done|]. intros v b Hin Hb.
    apply IH; auto. }
  assert (length bs <= length (concat bs))%nat as Hlen.
  { apply length_concat_ge. clear -Hbs Hok. induction Hbs; constructor.
    - eapply encode_nonempty; [|done]. apply Hok. left.
    - apply IHHbs. intros. apply Hok. by right. }
  rewrite (Forall2_length _ _ _ Hr) in Hlen. apply reads_head in Hh; [|lia].
  replace (len l) with (len (map received l)) in Hh by by unfold len; rewrite length_map.
  eapply reads_item_body; [done|]. intros. by apply body_items.
Qed.

Lemma encode_reads_map levels d b :
  Forall (fun kv => forall b, cval_ok (snd kv) -> encode (snd kv) = Ok b ->
            (height (snd kv) < levels)%nat -> reads (decode_at levels) b (received (snd kv))) d ->
  cval_ok (CMap d) -> encode (CMap d) = Ok b -> (height (CMap d) < S levels)%nat ->
  reads (decode_at (S levels)) b (received (CMap d)).
Proof.
  intros IH [Hnd Hok]%cval_ok_map (h & bs & Hh & -> & Hbs)%encode_map_Ok Hht.
  apply Nat.lt_succ_r, Forall_list_max in Hht.
  cbn [received]. rewrite sort_by_map. cbn [fst].
  set (ds := sort_by (fun kv => key_bytes kv.1) d) in *.
  assert (ds ≡ₚ d) as Hperm by apply sort_by_perm.
  rewrite <-Hperm in IH, Hok, Hht. rewrite Forall_forall in IH, Hok, Hht.
  set (kws := map (fun kv => (kv.1, received kv.2)) ds).
  assert (kws.*1 = ds.*1) as Hkeys by (subst kws; rewrite <-list_fmap_compose; done).
  assert (dict_ok kws) as Hnd'.
  { unfold dict_ok in *. by rewrite Hkeys, Hperm. }
  assert (Forall2 (fun b kw => exists bk bv, b = bk ++ bv /\
             reads (decode_at levels) bk (key_val kw.1) /\
             reads (decode_at levels) bv kw.2) bs kws) as Hr.
  { apply Forall2_flip, Forall2_fmap_l. eapply Forall2_impl_elem; [done|].
    intros kv b Hin (bk & bv & -> & Hbk & Hbv).
    destruct (Hok kv Hin) as [Hk Hv]. specialize (Hht kv Hin). simpl in Hht.
    exists bk, bv. split_and!; [done| |apply IH; (done || lia)].
    destruct levels as [|levels]; [lia|]. by apply key_reads. }
  assert (length bs <= length (concat bs))%nat as Hlen.
  { apply length_concat_ge. clear -Hbs. induction Hbs as [|kv b l k (bk & bv & -> & Hbk & _)];
      constructor; [|done]. rewrite length_app. apply encode_key_nonempty in Hbk. lia. }
  rewrite (Forall2_length _ _ _ Hr) in Hlen. apply reads_head in Hh; [|lia].
  replace (len d) with (len kws) in Hh by (unfold len, kws; by rewrite length_map, Hperm).
  eapply reads_item_body; [done|]. intros. by apply body_pairs.
Qed.

Lemma encode_reads v levels b :
  cval_ok v -> encode v = Ok b -> (height v < levels)%nat ->
  reads (decode_at levels) b (received v).
Proof.
  revert levels b. induction v as [|c|n|x|s|l IH|d IH|t v r IH|r|] using cval_ind';
    intros [|levels] b Hok Hb Hht; try lia.
  - simpl in Hb. injection Hb as <-. eapply (reads_simple _ _ 22); [by apply reads_head|done..].
  - destruct c; simpl in Hb; injection Hb as <-.
    + eapply (reads_simple _ _ 21); [by apply reads_head|done..].
    + eapply (reads_simple _ _ 20); [by apply reads_head|done..].
  - by apply int_reads.
  - by apply bytes_reads.
  - by apply text_reads.
  - apply encode_reads_array; try done. eapply Forall_impl; [exact IH|]. simpl. eauto.
  - apply encode_reads_map; try done. eapply Forall_impl; [exact IH|]. simpl. eauto.
  - cbn [received]. change (encode (CTag t v None)) with (encode (CTag t v r)). rewrite Hb.
    simpl in Hb. apply bind_Ok in Hb as (h & Hh & (bv & Hbv & [= <-])%bind_Ok).
    apply reads_head in Hh; [|lia]. simpl in Hht. apply reads_tag; [done|]. apply IH; (done || lia).
  - done.
  - done.
Qed.

Lemma decode_of_encode v b :
  cval_ok v -> (height v <= MAX_DEPTH)%nat -> encode v = Ok b -> decode b = Ok (received v).
Proof.
  intros Hok Hht Hb.
  pose proof (encode_reads v (S MAX_DEPTH) b Hok Hb ltac:(lia) [] []) as Hr.
  rewrite app_nil_r in Hr. unfold decode. simpl app in Hr. cbn [length Nat.add] in Hr.
  rewrite Hr. cbn [mbind result_bind]. by rewrite Nat.eqb_refl.
Qed.

(** Equal encodings are encodings of equal values. *)
Lemma encode_inj v w b :
  cval_ok v -> cval_ok w -> (height v <= MAX_DEPTH)%nat -> (height w <= MAX_DEPTH)%nat ->
  encode v = Ok b -> encode w = Ok b -> received v = received w.
Proof.
  intros Hv Hw Lv Lw Ev Ew. apply decode_of_encode in Ev; [|done..]. apply decode_of_encode in Ew; [|done..].
  rewrite Ev in Ew. by apply Ok_inj in Ew.
Qed.

(** C36: Deterministic CBOR round trip.  An object of the documented domain nested at most 64
    deep that encodes decodes back to itself: the same scalars, every map with its
    entries in the order of their encoded keys, and every tag carrying as [raw] the
    exact bytes it was encoded to. *)
Theorem decode_encode (v : cval) (b : bytes) :
  cval_ok v -> (height v <= MAX_DEPTH)%nat -> encode v = Ok b ->
  decode b = Ok (received v) /\ encode (received v) = Ok b.
Proof. split; [by apply decode_of_encode|by apply encode_received]. Qed.

Lemma decode_encode_witness :
  decode [163; 1; 246; 97; 97; 245; 97; 98; 130; 38; 216; 24; 66; 1; 2] = Ok (received sample) /\
  encode (received sample) = Ok [163; 1; 246; 97; 97; 245; 97; 98; 130; 38; 216; 24; 66; 1; 2].
Proof.
  apply decode_encode; [|vm_compute; lia|vm_compute; reflexivity].
  apply cval_ok_map. split; [by apply (bool_decide_unpack _); vm_compute|].
  repeat constructor; by apply (bool_decide_unpack _); vm_compute.
Defined.

(** * What a successful decoding says about its input *)

(** Head reading, inverted. *)
Lemma take_bytes_inv n data i b j :
  take_bytes n data i = Ok (b, j) -> 0 <= n ->
  b = slice data i j /\ j = (i + Z.to_nat n)%nat /\ (j <= length data)%nat /\ len b = n.
Proof.
  unfold take_bytes, len. case_match eqn:E; [done|]. apply Z.ltb_ge in E.
  intros [= <- <-] Hn. split_and!; [done..|lia|]. rewrite length_slice by lia. lia.
Qed.

Lemma byte_split b : 0 <= b < 256 ->
  0 <= Z.shiftr b 5 < 8 /\ 0 <= Z.land b 31 < 32 /\ b = Z.lor (Z.shiftl (Z.shiftr b 5) 5) (Z.land b 31).
Proof.
  intros Hb. change 31 with (2 ^ 5 - 1). rewrite land_ones_mod by lia.
  rewrite Z.shiftr_div_pow2 by lia. change (2 ^ 5) with 32.
  split_and!; try (Z.to_euclidean_division_equations; lia).
  rewrite Z.lor_comm, lor_shiftl_add; change (2 ^ 5) with 32; Z.to_euclidean_division_equations; lia.
Qed.

Lemma slice_cons {A} (l : list A) i j x :
  l !! i = Some x -> (i < j)%nat -> slice l i j = x :: slice l (S i) j.
Proof.
  intros Hx Hij. unfold slice. rewrite (drop_S _ _ _ Hx).
  replace (j - i)%nat with (S (j - S i)) by lia. done.
Qed.

Lemma read_head_inv data i major n j :
  bytes_ok data -> read_head data i = Ok ((major, n), j) ->
  (i < j <= length data)%nat /\ 0 <= major < 8 /\ 0 <= n < 2 ^ 64 /\
  reads read_head (slice data i j) (major, n) /\ Z.shiftr (nth i data 0) 5 = major.
Proof.
  intros Hok Hr. unfold read_head in Hr. revert Hr. destruct (data !! i) as [ib|] eqn:Ei; [|done].
  assert (0 <= ib < 256) as Hib by exact (Forall_lookup_1 _ _ _ _ Hok Ei).
  destruct (byte_split ib Hib) as (Hmaj & Hinfo & Hsplit).
  assert (nth i data 0 = ib) as Hnth by (apply nth_lookup_Some with (d := 0) in Ei; done).
  apply lookup_lt_Some in Ei as Hlt. rewrite Hnth. cbn zeta.
  destruct (Z.ltb_spec (Z.land ib 31) 24) as [Hlow|Hhigh].
  { intros [= <- <- <-]. split_and!; try lia.
    rewrite (slice_cons _ _ _ _ Ei), slice_empty by lia. intros pre post.
    unfold read_head. cbn [app]. rewrite list_lookup_middle by done. cbn zeta.
    destruct (Z.ltb_spec (Z.land ib 31) 24); [|lia]. cbn. by rewrite Nat.add_1_r. }
  destruct (_ =? 31) eqn:E31; [done|].
  destruct (arg_bytes (Z.land ib 31)) as [nb|] eqn:Enb; [|done].
  intros ([arg k] & Ht & [= <- <- <-])%bind_Ok.
  apply take_bytes_inv in Ht as (-> & -> & Hle & Hlen); [|lia].
  rewrite Nat2Z.id in *.
  assert (bytes_ok (slice data (S i) (S i + nb))) as Harg by auto with py.
  pose proof (from_bytes_be_bounds _ Harg) as Hb. rewrite Hlen in Hb.
  assert (256 ^ Z.of_nat nb <= 2 ^ 64).
  { unfold arg_bytes in Enb. repeat case_match; simplify_eq; simpl; lia. }
  split_and!; try lia.
  rewrite (slice_cons _ _ _ _ Ei) by lia. intros pre post.
  unfold read_head. cbn [app]. rewrite list_lookup_middle by done. cbn zeta.
  destruct (Z.ltb_spec (Z.land ib 31) 24); [lia|]. rewrite E31, Enb.
  set (arg := slice data (S i) (S i + nb)) in *.
  pose proof (reads_take_bytes arg (pre ++ [ib]) post) as Hr.
  rewrite Hlen, length_app, <-app_assoc in Hr. cbn [length app] in Hr.
  rewrite Nat.add_1_r in Hr. rewrite Hr. cbn. repeat f_equal. lia.
Qed.

(** A parser that succeeds more often with the same results. *)
Definition extends {A} (p q : parser A) : Prop :=
  forall data i r, p data i = Ok r -> q data i = Ok r.

Lemma extends_refl {A} (p : parser A) : extends p p.
Proof. by intros data i r. Qed.

Lemma extends_bind {A B} (p q : parser A) (f g : A -> parser B) :
  extends p q -> (forall a, extends (f a) (g a)) -> extends (p ≫= f) (q ≫= g).
Proof.
  intros Hp Hf data i r. rewrite !parser_bind_unfold.
  destruct (p data i) as [[a j]|e] eqn:E; [|done]. rewrite (Hp _ _ _ E). apply Hf.
Qed.

Lemma extends_items item item' fuel n :
  extends item item' -> extends (decode_items item fuel n) (decode_items item' fuel n).
Proof.
  intros Hi. revert n. induction fuel as [|fuel IH]; intros n; simpl; case_match;
    try apply extends_refl.
  apply extends_bind; [done|]. intros. apply extends_bind; [done|]. intros. apply extends_refl.
Qed.

Lemma extends_pairs item item' fuel n out :
  extends item item' -> extends (decode_pairs item fuel n out) (decode_pairs item' fuel n out).
Proof.
  intros Hi. revert n out. induction fuel as [|fuel IH]; intros n out; simpl; case_match;
    try apply extends_refl.
  apply extends_bind; [done|]. intros. apply extends_bind; [done|]. intros.
  case_match; [|apply extends_refl]. apply extends_bind; [apply extends_refl|]. intros. apply IH.
Qed.

Lemma extends_body item item' start major n :
  extends item item' -> extends (decode_body item start major n) (decode_body item' start major n).
Proof.
  intros Hi. unfold decode_body. apply extends_bind; [apply extends_refl|]. intros data.
  repeat case_match; try apply extends_refl; apply extends_bind; intros;
    eauto using extends_refl, extends_items, extends_pairs.
Qed.

Lemma extends_decode_at l1 l2 : (l1 <= l2)%nat -> extends (decode_at l1) (decode_at l2).
Proof.
  revert l2. induction l1 as [|l1 IH]; intros l2 Hl; [by intros data i r|].
  destruct l2 as [|l2]; [lia|]. intros data i r. rewrite !decode_at_S.
  destruct (read_head data i) as [[[major n] j]|]; [|done].
  apply extends_body, IH. lia.
Qed.

Lemma reads_extends {A} (p q : parser A) b v : extends p q -> reads p b v -> reads q b v.
Proof. intros He Hr pre post. apply He, Hr. Qed.

(** [x] is [v] or stands somewhere inside it. *)
Inductive occurs (x : cval) : cval -> Prop :=
  | occurs_here : occurs x x
  | occurs_array l v : v ∈ l -> occurs x v -> occurs x (CArray l)
  | occurs_map d k v : (k, v) ∈ d -> occurs x v -> occurs x (CMap d)
  | occurs_tag t v r : occurs x v -> occurs x (CTag t v r).

(** The [raw] field of every tag in [v] is the part of [data] the tag was decoded from. *)
Definition raws_ok (data : bytes) (v : cval) : Prop :=
  forall t w r, occurs (CTag t w r) v ->
  exists i j, (i < j <= length data)%nat /\ r = Some (slice data i j) /\
    decode (slice data i j) = Ok (CTag t w r).

Record item_inv (levels : nat) (data : bytes) (i : nat) (v : cval) (j : nat) : Prop := {
  inv_pos : (i < j <= length data)%nat;
  inv_reads : reads (decode_at levels) (slice data i j) v;
  inv_ok : cval_ok v;
  inv_height : (height v < levels)%nat;
  inv_encodes : exists b, encode v = Ok b;
  inv_raws : raws_ok data v;
}.

Section inversion.
Context (levels : nat) (data : bytes).
Hypothesis item_ok : forall i v j,
  decode_at levels data i = Ok (v, j) -> item_inv levels data i v j.

Lemma items_inv fuel n i ws j :
  decode_items (decode_at levels) fuel n data i = Ok (ws, j) -> (i <= length data)%nat -> 0 <= n ->
  exists bs, Forall2 (reads (decode_at levels)) bs ws /\ concat bs = slice data i j /\
    n = len ws /\ (i <= j <= length data)%nat /\
    Forall (fun v => exists i j, item_inv levels data i v j) ws /\
    (length ws <= length (concat bs))%nat.
Proof.
  revert n i ws. induction fuel as [|fuel IH]; intros n i ws; simpl;
    destruct (Z.leb_spec n 0) as [Hn|Hn].
  1,3: intros [= <- <-] Hi Hn'; exists []; rewrite slice_empty;
    split_and!; try done; unfold len; simpl; lia.
  { done. }
  rewrite parser_bind_unfold. intros Hd Hi _.
  destruct (decode_at levels data i) as [[v k]|] eqn:E; [|done].
  rewrite parser_bind_unfold in Hd.
  destruct (decode_items _ fuel _ data k) as [[vs l]|] eqn:E'; [|done].
  injection Hd as <- <-. pose proof (item_ok _ _ _ E) as Hv. destruct (inv_pos _ _ _ _ _ Hv).
  apply IH in E' as (bs & Hbs & Hc & Hlen & Hpos & Hf & Hge); [|lia..].
  exists (slice data i k :: bs). split_and!.
  - constructor; [|done]. apply Hv.
  - simpl. rewrite Hc. apply slice_app_slice. lia.
  - unfold len in *. simpl. lia.
  - lia.
  - lia.
  - constructor; [|done]. by exists i, k.
  - simpl. rewrite length_app, length_slice by lia. lia.
Qed.

Lemma key_of_Some v k : key_of v = Some k -> v = key_val k.
Proof. destruct v; simpl; intros; simplify_eq; done. Qed.

Lemma pairs_inv fuel n i out kws j :
  decode_pairs (decode_at levels) fuel n out data i = Ok (kws, j) ->
  (i <= length data)%nat -> 0 <= n -> dict_ok out ->
  exists bs new, kws = out ++ new /\ dict_ok kws /\
    Forall2 (fun b kw => exists bk bv, b = bk ++ bv /\
      reads (decode_at levels) bk (key_val kw.1) /\ reads (decode_at levels) bv kw.2) bs new /\
    concat bs = slice data i j /\ n = len new /\ (i <= j <= length data)%nat /\
    Forall (fun kw => (exists i j, item_inv levels data i (key_val kw.1) j) /\
                      (exists i j, item_inv levels data i kw.2 j)) new /\
    (length new <= length (concat bs))%nat.
Proof.
  revert n i out. induction fuel as [|fuel IH]; intros n i out; simpl;
    destruct (Z.leb_spec n 0) as [Hn|Hn].
  1,3: intros [= <- <-] Hi Hn' Hnd; exists [], []; rewrite slice_empty, app_nil_r;
    split_and!; try done; unfold len; simpl; lia.
  { done. }
  rewrite parser_bind_unfold. intros Hd Hi _ Hnd.
  destruct (decode_at levels data i) as [[kv k1]|] eqn:E1; [|done].
  rewrite parser_bind_unfold in Hd.
  destruct (decode_at levels data k1) as [[v k2]|] eqn:E2; [|done].
  destruct (key_of kv) as [key|] eqn:Ek; [|done]. apply key_of_Some in Ek as ->.
  rewrite parser_bind_unfold in Hd. unfold fail_if, raise_if in Hd.
  destruct (dmem out key) eqn:Em; [done|]. cbn in Hd.
  assert (key ∉ out.*1) as Hni by (intros Hin%dmem_spec; congruence).
  rewrite dset_new in Hd by done.
  pose proof (item_ok _ _ _ E1) as H1. destruct (inv_pos _ _ _ _ _ H1).
  pose proof (item_ok _ _ _ E2) as H2. destruct (inv_pos _ _ _ _ _ H2).
  apply IH in Hd as (bs & new & -> & Hok & Hbs & Hc & Hlen & Hpos & Hf & Hge); [|lia..|].
  2:{ rewrite <-(dset_new out key v) by done. by apply dset_ok. }
  exists (slice data i k2 :: bs), ((key, v) :: new). rewrite <-app_assoc in *. split_and!; try done.
  - constructor; [|done]. exists (slice data i k1), (slice data k1 k2).
    split_and!; [|apply H1|apply H2]. symmetry. apply slice_app_slice. lia.
  - simpl. rewrite Hc. apply slice_app_slice. lia.
  - unfold len in *. simpl. lia.
  - lia.
  - lia.
  - constructor; [|done]. split; by eexists _, _.
  - simpl. rewrite length_app, length_slice by lia. lia.
Qed.
End inversion.

Lemma reads_slice_full {A} (p : parser A) b v : reads p b v -> p b 0%nat = Ok (v, length b).
Proof. intros H. specialize (H [] []). by rewrite app_nil_r in H. Qed.

Lemma reads_decode levels b v :
  (levels <= S MAX_DEPTH)%nat -> reads (decode_at levels) b v -> decode b = Ok v.
Proof.
  intros Hl Hr. eapply reads_extends in Hr; [|by apply extends_decode_at].
  unfold decode. rewrite (reads_slice_full _ _ _ Hr). cbn. by rewrite Nat.eqb_refl.
Qed.

Lemma raws_ok_leaf data v : (forall t w r, ~ occurs (CTag t w r) v) -> raws_ok data v.
Proof. intros H t w r Ho. by apply H in Ho. Qed.

Lemma item_inv_leaf levels data i v j :
  (i < j <= length data)%nat -> reads (decode_at (S levels)) (slice data i j) v ->
  cval_ok v -> height v = O -> (exists b, encode v = Ok b) ->
  (forall t w r, ~ occurs (CTag t w r) v) -> item_inv (S levels) data i v j.
Proof. intros. constructor; try done; [lia|]. by apply raws_ok_leaf. Qed.

Lemma head_total major n : 0 <= major < 8 -> 0 <= n < 2 ^ 64 -> exists h, head major n = Ok h.
Proof.
  intros Hm Hn. unfold head, append_byte.
  destruct (Z.ltb_spec n 24).
  { destruct (initial_byte major n) as (-> & _ & _); [lia..|].
    destruct (Z.leb_spec 0 (major * 32 + n)), (Z.ltb_spec (major * 32 + n) 256); try lia.
    by eexists. }
  repeat (case_match; [by eexists|]). rewrite ?Z.ltb_ge in *. lia.
Qed.

Ltac no_tag := intros ??? Hocc; inversion Hocc.

Section body_inversion.
Context (levels : nat) (data : bytes) (i k : nat) (n : Z).
Hypotheses (Hok : bytes_ok data) (Hik : (i < k <= length data)%nat) (Hn : 0 <= n < 2 ^ 64).

Lemma int_inv major v :
  reads read_head (slice data i k) (major, n) ->
  (major = 0 /\ v = CInt n \/ major = 1 /\ v = CInt (-1 - n)) ->
  item_inv (S levels) data i v k.
Proof.
  intros Hh [[-> ->]|[-> ->]]; apply item_inv_leaf; try done; try no_tag.
  - eapply reads_leaf; [done|]. intros. apply body_unsigned.
  - simpl. unfold encode_int. destruct (Z.ltb_spec n 0); apply head_total; lia.
  - eapply reads_leaf; [done|]. intros. apply body_negative.
  - simpl. unfold encode_int. destruct (Z.ltb_spec (-1 - n) 0); apply head_total; lia.
Qed.

Lemma bytes_inv b j :
  reads read_head (slice data i k) (2, n) -> take_bytes n data k = Ok (b, j) ->
  item_inv (S levels) data i (CBytes b) j.
Proof.
  intros Hh Ht. apply take_bytes_inv in Ht as (Hb & Hj & Hle & Hlen); [|lia].
  apply item_inv_leaf; try done; try no_tag; [lia| |subst b; simpl; auto with py|].
  - rewrite <-(slice_app_slice data i k j), <-Hb by lia.
    eapply reads_item_body; [done|]. intros. rewrite <-Hlen. apply body_bytes.
  - simpl. unfold encode_bytes. destruct (head_total 2 (len b)) as [h ->]; [lia..|]. by eexists.
Qed.

Lemma text_inv b s j :
  reads read_head (slice data i k) (3, n) -> take_bytes n data k = Ok (b, j) ->
  utf8_decode b = Ok s -> item_inv (S levels) data i (CText s) j.
Proof.
  intros Hh Ht Hs. apply take_bytes_inv in Ht as (Hb & Hj & Hle & Hlen); [|lia].
  assert (bytes_ok b) as Hbok by (subst b; auto with py).
  destruct (utf8_encode_decode _ _ Hbok Hs) as [Hsok He].
  apply item_inv_leaf; try done; try no_tag; [lia| |].
  - rewrite <-(slice_app_slice data i k j), <-Hb by lia.
    eapply reads_item_body; [done|]. intros. rewrite <-Hlen. by apply body_text.
  - simpl. unfold encode_text. rewrite He. cbn.
    destruct (head_total 3 (len b)) as [h ->]; [lia..|]. by eexists.
Qed.

Lemma simple_inv v :
  reads read_head (slice data i k) (7, n) ->
  simple_value (Z.land (nth i data 0) 31) = Some v -> item_inv (S levels) data i v k.
Proof.
  intros Hh Hv. assert (exists b, data !! i = Some b) as [b Hb] by (apply lookup_lt_is_Some; lia).
  assert (nth 0 (slice data i k) 0 = nth i data 0) as Hnth.
  { rewrite (slice_cons _ _ _ _ Hb) by lia. simpl.
    by apply nth_lookup_Some with (d := 0) in Hb. }
  assert (v = CNull \/ exists c, v = CBool c) as Hcase.
  { unfold simple_value in Hv. repeat case_match; simplify_eq; eauto. }
  apply item_inv_leaf; try done.
  - eapply reads_simple; [done| |by rewrite Hnth]. rewrite length_slice; lia.
  - by destruct Hcase as [->|[c ->]].
  - by destruct Hcase as [->|[c ->]].
  - destruct Hcase as [->|[[] ->]]; by eexists.
  - destruct Hcase as [->|[c ->]]; no_tag.
Qed.

Hypothesis item_ok : forall i v j,
  decode_at levels data i = Ok (v, j) -> item_inv levels data i v j.

Lemma height_list {A} (f : A -> nat) l :
  Forall (fun x => (f x < levels)%nat) l -> (list_max (map (fun x => S (f x)) l) < S levels)%nat.
Proof.
  intros Hf. apply Nat.lt_succ_r, list_max_le, Forall_map. eapply Forall_impl; [done|].
  simpl. lia.
Qed.

Lemma array_inv fuel ws j :
  reads read_head (slice data i k) (4, n) ->
  decode_items (decode_at levels) fuel n data k = Ok (ws, j) ->
  item_inv (S levels) data i (CArray ws) j.
Proof.
  intros Hh Hd.
  destruct (items_inv levels data item_ok _ _ _ _ _ Hd)
    as (bs & Hbs & Hc & Hlen & Hpos & Hws & Hge); [lia..|].
  rewrite Forall_forall in Hws. constructor.
  - lia.
  - rewrite <-(slice_app_slice data i k j), <-Hc by lia.
    eapply reads_item_body; [done|]. intros. rewrite Hlen. by apply body_items.
  - apply cval_ok_array, Forall_forall. intros v Hv. by destruct (Hws v Hv) as (? & ? & []).
  - apply (height_list height), Forall_forall. intros v Hv. by destruct (Hws v Hv) as (? & ? & []).
  - destruct (mapR_total encode ws) as [ys Hys].
    { apply Forall_forall. intros v Hv. by destruct (Hws v Hv) as (? & ? & []). }
    destruct (head_total 4 (len ws)) as [h Hhd]; [lia..|].
    exists (h ++ concat ys). apply encode_array_Ok. exists h, ys. by rewrite <-mapR_Ok.
  - intros t w r Ho. inversion Ho as [|l v Hv Hin| |]; subst.
    destruct (Hws v Hv) as (? & ? & []). eauto.
Qed.

Lemma map_encode_total d :
  Forall (fun kv => exists b, encode_key (fst kv) = Ok b) d ->
  Forall (fun kv => exists b, encode (snd kv) = Ok b) d ->
  0 <= len d < 2 ^ 64 -> exists b, encode (CMap d) = Ok b.
Proof.
  intros Hk Hv Hl. simpl.
  destruct (mapR_total encode_key d.*1) as [eks Heks]; [by apply Forall_fmap|].
  rewrite Heks. cbn. destruct (head_total 5 (len d)) as [h ->]; [lia..|]. cbn.
  match goal with |- exists b, (mapR ?f ?l ≫= _) = _ => destruct (mapR_total f l) as [ys Hys] end.
  { apply Forall_forall. intros [bk rv]. rewrite elem_of_sort_by. intros Hin%elem_of_zip_r.
    apply list_elem_of_fmap in Hin as [kv [-> Hin]]. rewrite Forall_forall in Hv.
    destruct (Hv kv Hin) as [b Hb]. simpl. rewrite Hb. by eexists. }
  rewrite Hys. by eexists.
Qed.

Lemma map_inv fuel kws j :
  reads read_head (slice data i k) (5, n) ->
  decode_pairs (decode_at levels) fuel n [] data k = Ok (kws, j) ->
  item_inv (S levels) data i (CMap kws) j.
Proof.
  intros Hh Hd.
  destruct (pairs_inv levels data item_ok _ _ _ _ _ _ Hd)
    as (bs & new & Hnew & Hdict & Hbs & Hc & Hlen & Hpos & Hws & Hge); [lia..|constructor|].
  simpl in Hnew. subst new. rewrite Forall_forall in Hws. constructor.
  - lia.
  - rewrite <-(slice_app_slice data i k j), <-Hc by lia.
    eapply reads_item_body; [done|]. intros. rewrite Hlen. by apply body_pairs.
  - apply cval_ok_map. split; [done|]. apply Forall_forall. intros kv Hv.
    destruct (Hws kv Hv) as [(?&?&[_ _ Hk _ _ _]) (?&?&[_ _ Hval _ _ _])].
    split; [by destruct kv.1|done].
  - apply (height_list (fun kv : ckey * cval => height kv.2)), Forall_forall. intros v Hv.
    by destruct (Hws v Hv) as [_ (?&?&[])].
  - apply map_encode_total; [..|lia]; apply Forall_forall; intros kv Hv;
      destruct (Hws kv Hv) as [(?&?&[_ _ _ _ Hk _]) (?&?&[_ _ _ _ Hval _])]; [|done].
    by destruct kv.1.
  - intros t w r Ho. inversion Ho as [| |d key v Hv Hin|]; subst.
    destruct (Hws _ Hv) as [_ (?&?&[])]. eauto.
Qed.

Lemma tag_inv v j :
  (S levels <= S MAX_DEPTH)%nat ->
  reads read_head (slice data i k) (6, n) -> decode_at levels data k = Ok (v, j) ->
  item_inv (S levels) data i (CTag n v (Some (slice data i j))) j.
Proof.
  intros Hlev Hh Hd. destruct (item_ok _ _ _ Hd) as [Hpos Hr Hv Hht [b Hb] Hraw].
  assert (reads (decode_at (S levels)) (slice data i j) (CTag n v (Some (slice data i j)))) as Hrd.
  { rewrite <-(slice_app_slice data i k j) by lia. by apply reads_tag. }
  constructor; try done.
  - lia.
  - simpl. lia.
  - simpl. destruct (head_total 6 n) as [h ->]; [lia..|]. cbn. rewrite Hb. by eexists.
  - intros t w r Ho. inversion Ho as [| | |t' v' r' Hin]; subst; [|eauto].
    exists i, j. split_and!; [lia..|done|]. eapply reads_decode; [|done]. lia.
Qed.
End body_inversion.

Lemma decode_body_inv levels data i k major n v j :
  bytes_ok data -> (S levels <= S MAX_DEPTH)%nat ->
  (forall i v j, decode_at levels data i = Ok (v, j) -> item_inv levels data i v j) ->
  (i < k <= length data)%nat -> 0 <= major < 8 -> 0 <= n < 2 ^ 64 ->
  reads read_head (slice data i k) (major, n) ->
  decode_body (decode_at levels) i major n data k = Ok (v, j) -> item_inv (S levels) data i v j.
Proof.
  intros Hok Hl IH Hik Hmaj Hn Hh Hd. unfold decode_body in Hd.
  rewrite parser_bind_unfold in Hd. cbn [input] in Hd.
  destruct (Z.eqb_spec major 0) as [->|]; [injection Hd as <- <-; eapply int_inv; naive_solver|].
  destruct (Z.eqb_spec major 1) as [->|]; [injection Hd as <- <-; eapply int_inv; naive_solver|].
  destruct (Z.eqb_spec major 2) as [->|].
  { rewrite parser_bind_unfold in Hd. destruct (take_bytes n data k) as [[b k']|] eqn:E; [|done].
    injection Hd as <- <-. by eapply bytes_inv. }
  destruct (Z.eqb_spec major 3) as [->|].
  { rewrite parser_bind_unfold in Hd. destruct (take_bytes n data k) as [[b k']|] eqn:E; [|done].
    rewrite parser_bind_unfold in Hd. unfold lift in Hd.
    destruct (utf8_decode b) as [s|e] eqn:Eu; cbn [catch_as] in Hd;
      [|by destruct (isinstance e UnicodeDecodeError)].
    injection Hd as <- <-. by eapply text_inv. }
  destruct (Z.eqb_spec major 4) as [->|].
  { rewrite parser_bind_unfold in Hd. case_match eqn:E; [|done]. case_match.
    injection Hd as <- <-. by eapply array_inv. }
  destruct (Z.eqb_spec major 5) as [->|].
  { rewrite parser_bind_unfold in Hd. case_match eqn:E; [|done]. case_match.
    injection Hd as <- <-. by eapply map_inv. }
  destruct (Z.eqb_spec major 6) as [->|].
  { rewrite parser_bind_unfold in Hd. destruct (decode_at levels data k) as [[w k']|] eqn:E; [|done].
    rewrite parser_bind_unfold in Hd. injection Hd as <- <-. by eapply tag_inv. }
  assert (major = 7) as -> by lia.
  assert (j = k /\ simple_value (Z.land (nth i data 0) 31) = Some v) as [-> Hv].
  { unfold simple_value. repeat case_match; try done; by injection Hd as <- <-. }
  by eapply simple_inv.
Qed.

(** Everything a successful decoding of an item establishes. *)
Lemma decode_at_inv levels data i v j :
  bytes_ok data -> (levels <= S MAX_DEPTH)%nat ->
  decode_at levels data i = Ok (v, j) -> item_inv levels data i v j.
Proof.
  intros Hok. revert i v j. induction levels as [|levels IH]; intros i v j Hl Hd; [done|].
  rewrite decode_at_S in Hd.
  destruct (read_head data i) as [[[major n] k]|] eqn:Eh; [|done].
  destruct (read_head_inv _ _ _ _ _ Hok Eh) as (Hik & Hmaj & Hn & Hh & _).
  eapply decode_body_inv; eauto. intros. apply IH; [lia|done].
Qed.

Lemma decode_inv data v :
  bytes_ok data -> decode data = Ok v -> item_inv (S MAX_DEPTH) data 0 v (length data).
Proof.
  intros Hok Hd. unfold decode in Hd. apply bind_Ok in Hd as ([w j] & Hd & Hk).
  apply bind_Ok in Hk as (? & Hj & [= ->]). apply raise_if_Ok, negb_false_iff, Nat.eqb_eq in Hj as ->.
  by apply decode_at_inv.
Qed.

(** * Failures *)

Lemma take_bytes_errs n data i : errs_in (eq CborError) (take_bytes n data i).
Proof. unfold take_bytes. solve_errs. Qed.

Lemma read_head_errs data i : errs_in (eq CborError) (read_head data i).
Proof.
  unfold read_head. destruct (data !! i) as [ib|]; [|solve_errs]. cbn zeta.
  destruct (_ <? _); [solve_errs|]. destruct (_ =? _); [solve_errs|].
  destruct (arg_bytes _); [|solve_errs].
  apply errs_in_bind; [apply take_bytes_errs|]. intros [] _. solve_errs.
Qed.

Lemma parser_errs_bind {A B} (p : parser A) (f : A -> parser B) P data i :
  errs_in P (p data i) -> (forall a j, p data i = Ok (a, j) -> errs_in P (f a data j)) ->
  errs_in P ((p ≫= f) data i).
Proof.
  intros Hp Hf. rewrite parser_bind_unfold. destruct (p data i) as [[a j]|e]; [by apply Hf|].
  apply errs_in_Err, Hp. done.
Qed.

Section loop_errors.
Context (levels : nat) (data : bytes).
Hypothesis item_pos : forall i v j, decode_at levels data i = Ok (v, j) -> (i < j <= length data)%nat.
Hypothesis item_errs : forall i, errs_in (eq CborError) (decode_at levels data i).

(** The loops never run out of fuel: an item takes at least one byte. *)
Lemma items_errs fuel n i :
  (i <= length data < fuel + i)%nat ->
  errs_in (eq CborError) (decode_items (decode_at levels) fuel n data i).
Proof.
  revert n i. induction fuel as [|fuel IH]; intros n i Hi; simpl; (case_match; [apply errs_in_Ok|]); [lia|].
  apply parser_errs_bind; [apply item_errs|]. intros v j Hv%item_pos.
  apply parser_errs_bind; [apply IH; lia|]. intros. apply errs_in_Ok.
Qed.

Lemma pairs_errs fuel n out i :
  (i <= length data < fuel + i)%nat ->
  errs_in (eq CborError) (decode_pairs (decode_at levels) fuel n out data i).
Proof.
  revert n out i. induction fuel as [|fuel IH]; intros n out i Hi; simpl;
    (case_match; [apply errs_in_Ok|]); [lia|].
  apply parser_errs_bind; [apply item_errs|]. intros kv j Hk%item_pos.
  apply parser_errs_bind; [apply item_errs|]. intros v j' Hv%item_pos.
  case_match; [|by apply errs_in_Err]. apply parser_errs_bind.
  - unfold fail_if. solve_errs.
  - intros ? j'' Hf. unfold fail_if in Hf. apply bind_Ok in Hf as (? & _ & [= _ <-]).
    apply IH. lia.
Qed.
End loop_errors.

Lemma decode_at_errs levels data i :
  bytes_ok data -> (levels <= S MAX_DEPTH)%nat -> errs_in (eq CborError) (decode_at levels data i).
Proof.
  intros Hok. revert i. induction levels as [|levels IH]; intros i Hl; [by apply errs_in_Err|].
  rewrite decode_at_S. destruct (read_head data i) as [[[major n] k]|e] eqn:Eh.
  2:{ apply errs_in_Err, (read_head_errs data i). done. }
  destruct (read_head_inv _ _ _ _ _ Hok Eh) as (Hik & _).
  assert (forall i v j, decode_at levels data i = Ok (v, j) -> (i < j <= length data)%nat) as Hpos.
  { intros i' v j Hd%decode_at_inv; [apply Hd|done|lia]. }
  assert (forall i, errs_in (eq CborError) (decode_at levels data i)) as Herr by (intros; apply IH; lia).
  unfold decode_body. apply parser_errs_bind; [apply errs_in_Ok|]. intros ? ? [= <- <-].
  repeat (case_match; [first [apply errs_in_Ok | apply parser_errs_bind]|]);
    try (by apply errs_in_Err); try (by apply errs_in_Ok);
    try apply take_bytes_errs; try apply Herr; try (apply items_errs || apply pairs_errs; (done || lia));
    intros; try apply errs_in_Ok.
  apply parser_errs_bind; [|intros; apply errs_in_Ok]. unfold lift.
  apply errs_in_bind; [|intros; apply errs_in_Ok].
  destruct (utf8_decode a) as [|e] eqn:E; [apply errs_in_Ok|].
  apply utf8_decode_errs in E as <-. by apply errs_in_Err.
Qed.

Lemma decode_errs data : bytes_ok data -> errs_in (eq CborError) (decode data).
Proof.
  intros Hok e E. unfold decode in E. apply bind_Err in E as [E|([v j] & _ & E)].
  - apply decode_at_errs in E; (done || lia).
  - apply bind_Err in E as [[_ ->]%raise_if_Err|(? & _ & [=])]. done.
Qed.

(** The decoder fails closed and terminates.  On any byte string it either returns an
    item or raises [CborError]; no other exception leaves it, and the loops over
    attacker-chosen counts always stop (the model's out-of-fuel result is never
    returned). *)
Theorem decode_errors (data : bytes) :
  bytes_ok data -> (exists v, decode data = Ok v) \/ decode data = Err CborError.
Proof.
  intros Hok. destruct (decode data) as [v|e] eqn:E; [by left; exists v|]. right. f_equal. symmetry. by eapply decode_errs.
Qed.

Lemma decode_errors_witness :
  bytes_ok [159; 1; 255] /\
  ((exists v, decode [159; 1; 255] = Ok v) \/ decode [159; 1; 255] = Err CborError).
Proof.
  split; [by apply (bool_decide_unpack _); vm_compute|].
  apply decode_errors. by apply (bool_decide_unpack _); vm_compute.
Defined.

(** Bytes as received.  Every tag inside a decoded item carries in [raw] a contiguous
    part of the input, and that part alone decodes to the very same tag: a verifier that
    hashes or checks a signature over [raw] works on what the issuer sent. *)
Theorem decode_raw_as_received (data : bytes) (v : cval) (tag : Z) (w : cval) (raw : option bytes) :
  bytes_ok data -> decode data = Ok v -> occurs (CTag tag w raw) v ->
  exists pre b post, data = pre ++ b ++ post /\ raw = Some b /\ decode b = Ok (CTag tag w raw).
Proof.
  intros Hok Hd Ho. destruct (inv_raws _ _ _ _ _ (decode_inv _ _ Hok Hd) _ _ _ Ho)
    as (i & j & Hij & -> & Hr).
  exists (take i data), (slice data i j), (drop j data).
  split_and!; [apply slice_split; lia|done|done].
Qed.

Lemma decode_raw_as_received_witness :
  exists pre b post, [129; 216; 24; 65; 7] = pre ++ b ++ post /\
    Some [216; 24; 65; 7] = Some b /\ decode b = Ok (CTag 24 (CBytes [7]) (Some [216; 24; 65; 7])).
Proof.
  apply (decode_raw_as_received [129; 216; 24; 65; 7]
           (CArray [CTag 24 (CBytes [7]) (Some [216; 24; 65; 7])]) 24 (CBytes [7])
           (Some [216; 24; 65; 7])).
  - by apply (bool_decide_unpack _); vm_compute.
  - vm_compute. reflexivity.
  - eapply occurs_array; [apply list_elem_of_here|apply occurs_here].
Defined.

(** What decodes can be encoded again, canonically.  A decoded item is in the encoder's
    domain (distinct map keys, valid text, arguments within 64 bits, nesting within the
    bound); re-encoding it succeeds, and the canonical encoding decodes to the same item
    with its maps sorted and its [raw] fields recomputed. *)
Theorem decode_reencode (data : bytes) (v : cval) :
  bytes_ok data -> decode data = Ok v ->
  cval_ok v /\ (height v <= MAX_DEPTH)%nat /\
  exists b, encode v = Ok b /\ decode b = Ok (received v).
Proof.
  intros Hok Hd. destruct (decode_inv _ _ Hok Hd) as [_ _ Hv Hh [b Hb] _].
  split_and!; [done|lia|]. exists b. split; [done|]. apply decode_of_encode; (done || lia).
Qed.

Lemma decode_reencode_witness :
  exists b, encode (CInt 5) = Ok b /\ decode b = Ok (received (CInt 5)).
Proof.
  apply (decode_reencode [24; 5]); [by apply (bool_decide_unpack _); vm_compute|].
  vm_compute. reflexivity.
Defined.

(** * The encoder's failures *)

(** The classes [encode] raises: its own, and two built-in ones that escape it. *)
Lemma encode_errs v : errs_in (fun e => e ∈ [CborError; ValueError; UnicodeEncodeError]) (encode v).
Proof.
  assert (forall m n, errs_in (fun e => e ∈ [CborError; ValueError; UnicodeEncodeError]) (head m n)) as Hhead.
  { intros. unfold head, append_byte. repeat case_match; first [apply errs_in_Ok|apply errs_in_Err]; set_solver. }
  assert (forall k, errs_in (fun e => e ∈ [CborError; ValueError; UnicodeEncodeError]) (encode_key k)) as Hkey.
  { intros []; simpl; unfold encode_int, encode_bytes, encode_text; [by case_match| |].
    - apply errs_in_bind; [done|]. intros; apply errs_in_Ok.
    - apply errs_in_bind; [|intros; apply errs_in_bind; [done|]; intros; apply errs_in_Ok].
      eapply errs_in_impl; [|apply utf8_encode_errs]. intros ? <-. set_solver. }
  induction v as [|c|n|x|s|l IH|d IH|t v r IH|r|] using cval_ind'; simpl.
  - apply errs_in_Ok.
  - destruct c; apply errs_in_Ok.
  - apply (Hkey (KInt n)).
  - apply (Hkey (KBytes x)).
  - apply (Hkey (KText s)).
  - apply errs_in_bind; [done|]. intros. rewrite mapR_map. rewrite Forall_forall in IH.
    apply errs_in_bind; [by apply mapR_errs_in|]. intros; apply errs_in_Ok.
  - apply errs_in_bind; [by apply mapR_errs_in|]. intros. apply errs_in_bind; [done|]. intros.
    rewrite Forall_forall in IH. apply errs_in_bind; [|intros; apply errs_in_Ok].
    apply mapR_errs_in. intros [bk rv] Hin. rewrite elem_of_sort_by in Hin.
    apply elem_of_zip_r, list_elem_of_fmap in Hin as (kv & -> & Hin).
    apply errs_in_bind; [by apply IH|]. intros; apply errs_in_Ok.
  - apply errs_in_bind; [done|]. intros. apply errs_in_bind; [done|]. intros; apply errs_in_Ok.
  - apply errs_in_Ok.
  - apply errs_in_Err. set_solver.
Qed.

(** Two inputs make [encode] raise outside the library's exceptions, against its
    documentation ("Raises CborError on an unsupported type or an out-of-range
    integer"): a negative tag number (a bare [ValueError]) and a string holding a lone
    surrogate (a bare [UnicodeEncodeError]). *)
Theorem encode_escapes (v : cval) (raw : option bytes) (tag : Z) :
  tag < 0 ->
  encode (CTag tag v raw) = Err ValueError /\ isinstance ValueError OpenvcError = false /\
  encode (CText [55296]) = Err UnicodeEncodeError /\
  isinstance UnicodeEncodeError OpenvcError = false.
Proof.
  intros Ht. split_and!; [|vm_compute; reflexivity..].
  cbn [encode]. unfold head, append_byte. destruct (Z.ltb_spec tag 24); [|lia].
  destruct (Z.leb_spec 0 (Z.lor (Z.shiftl 6 5) tag)) as [Hl|]; [|done].
  apply Z.lor_nonneg in Hl. lia.
Qed.

Lemma encode_escapes_witness : encode (CTag (-1) CNull None) = Err ValueError.
Proof. apply (encode_escapes CNull None (-1)). lia. Defined.
