(* ===== verification/Json.v ===== *)
(** The values [json.loads] yields and callers hand over, and [openvc._json]
    (src/src/openvc/_json.py): the depth bound on untrusted JSON, the hook that refuses a
    repeated member name, and the loader's checks around the parser. *)
From Stdlib Require Import SpecFloat.
From S2P Require Import Prelude Errors.

(** * Values

    [JFloat] holds an IEEE-754 binary64 (an infinity and a NaN included, as
    [json.loads] accepts them); [JOther] is an object no JSON text yields.  A tuple is
    treated by the code exactly as the list of its items and is represented by it. *)
Inductive json :=
  | JNull
  | JBool (b : bool)
  | JInt (n : Z)
  | JFloat (f : spec_float)
  | JStr (s : pystr)
  | JList (l : list json)
  | JDict (d : list (pystr * json))
  | JOther.

Abbreviation jobject := (list (pystr * json)).

Lemma json_ind' (P : json -> Prop) :
  P JNull -> (forall b, P (JBool b)) -> (forall n, P (JInt n)) -> (forall f, P (JFloat f)) ->
  (forall s, P (JStr s)) -> (forall l, Forall P l -> P (JList l)) ->
  (forall d, Forall (fun kv => P (snd kv)) d -> P (JDict d)) -> P JOther -> forall v, P v.
Proof.
  intros Hn Hb Hi Hf Hs Hl Hd Ho. fix IH 1. intros [|b|n|f|s|l|d|].
  - apply Hn.
  - apply Hb.
  - apply Hi.
  - apply Hf.
  - apply Hs.
  - apply Hl. induction l; constructor; auto.
  - apply Hd. induction d as [|[k v] d]; constructor; auto.
  - apply Ho.
Qed.

#[export] Instance spec_float_eq_dec : EqDecision spec_float.
Proof. solve_decision. Defined.

Definition json_eq_dec_fix : forall v1 v2 : json, {v1 = v2} + {v1 <> v2}.
Proof.
  fix IH 1. intros v1 v2.
  destruct v1 as [|b1|n1|f1|s1|l1|d1|], v2 as [|b2|n2|f2|s2|l2|d2|]; try (right; discriminate).
  - by left.
  - destruct (decide (b1 = b2)); [left|right]; congruence.
  - destruct (decide (n1 = n2)); [left|right]; congruence.
  - destruct (decide (f1 = f2)); [left|right]; congruence.
  - destruct (decide (s1 = s2)); [left|right]; congruence.
  - destruct (@list_eq_dec json IH l1 l2); [left|right]; congruence.
  - destruct (@list_eq_dec (pystr * json) (@prod_eq_dec pystr _ json IH) d1 d2); [left|right]; congruence.
  - by left.
Defined.

#[export] Instance json_eq_dec : EqDecision json := json_eq_dec_fix.

(** [d.get(k)]: [None] when the member is absent. *)
Definition jget (d : jobject) (k : pystr) : json := default JNull (dget d k).

Definition is_none (v : json) : bool := match v with JNull => true | _ => false end.
Definition as_str (v : json) : option pystr := match v with JStr s => Some s | _ => None end.
Definition as_dict (v : json) : option jobject := match v with JDict d => Some d | _ => None end.
Definition as_list (v : json) : option (list json) := match v with JList l => Some l | _ => None end.
Definition is_str (v : json) : bool := match v with JStr _ => true | _ => false end.
Definition is_dict (v : json) : bool := match v with JDict _ => true | _ => false end.
Definition is_list (v : json) : bool := match v with JList _ => true | _ => false end.

Lemma jget_Some d k v : jget d k = v -> v <> JNull -> dget d k = Some v.
Proof. unfold jget. destruct (dget d k); cbn; congruence. Qed.

(** [bool(v)]. *)
Definition truthy (v : json) : bool :=
  match v with
  | JNull => false
  | JBool b => b
  | JInt n => negb (n =? 0)
  | JFloat f => match f with S754_zero _ => false | _ => true end
  | JStr s => negb (bool_decide (s = []))
  | JList l => match l with [] => false | _ => true end
  | JDict d => match d with [] => false | _ => true end
  | JOther => true
  end.

(** [v == s] for a string [s]. *)
Definition eq_str (v : json) (s : pystr) : bool :=
  match v with JStr s' => bool_decide (s' = s) | _ => false end.

Lemma eq_str_true v s : eq_str v s = true <-> v = JStr s.
Proof. unfold eq_str. destruct v; try done. rewrite bool_decide_eq_true. naive_solver. Qed.

(** Settle the comparisons of literal member names. *)
Ltac keys :=
  repeat match goal with
  | |- context [decide (str ?a = str ?b)] =>
      let eq := eval vm_compute in (bool_decide (str a = str b)) in
      match eq with
      | true => rewrite (decide_True (P := str a = str b)) by reflexivity
      | false => rewrite (decide_False (P := str a = str b)) by (vm_compute; discriminate)
      end
  end.
Ltac look := repeat (progress (unfold jget; cbn [dget default app from_option Datatypes.id]; keys)).

(** * The depth bound *)

Definition JSON_MAX_DEPTH : Z := 100.

Definition is_container (v : json) : bool :=
  match v with JList _ | JDict _ => true | _ => false end.

(** [node.values()] of a mapping, the items of a list. *)
Definition children (v : json) : list json :=
  match v with JList l => l | JDict d => d.*2 | _ => [] end.

(** The [while stack] loop, the top of the stack first: the children are appended in order,
    so the last one is popped next. *)
Fixpoint nesting_loop (fuel : nat) (limit : Z) (stack : list (json * Z)) : bool :=
  match fuel with
  | O => false
  | S fuel =>
      match stack with
      | [] => false
      | (node, depth) :: stack =>
          if is_container node then
            if limit <? depth then true
            else nesting_loop fuel limit
                   (reverse (map (fun c => (c, depth + 1)) (filter (fun c => is_container c = true) (children node)))
                    ++ stack)
          else nesting_loop fuel limit stack
      end
  end.

Fixpoint json_size (v : json) : nat :=
  match v with
  | JList l => S (sum_list_with json_size l)
  | JDict d => S (sum_list_with (fun kv => json_size (snd kv)) d)
  | _ => 1%nat
  end.

(** The loop visits each container once, so the size of the value is fuel enough. *)
Definition nesting_exceeds (value : json) (limit : Z) : bool :=
  nesting_loop (S (json_size value)) limit [(value, 1)].

(** [object_pairs_hook]: refuse a repeated member name. *)
Definition reject_duplicate_members (pairs : list (pystr * json)) : result jobject :=
  foldR (fun seen p => raise_if (dmem seen p.1) ValueError;; Ok (dset seen p.1 p.2)) [] pairs.

(** What [loads] makes of the parser's outcome: a [RecursionError] becomes a [ValueError],
    and so does a value nested too deeply. *)
Definition loads_checked (parsed : result json) : result json :=
  value ← catch_as (fun e => isinstance e RecursionError) ValueError parsed;
  raise_if (nesting_exceeds value JSON_MAX_DEPTH) ValueError;;
  Ok value.

(** * The loop computes the nesting depth *)

(** Reference: how deeply containers nest. *)
Fixpoint json_depth (v : json) : Z :=
  match v with
  | JList l => 1 + foldr (fun c m => Z.max (json_depth c) m) 0 l
  | JDict d => 1 + foldr (fun kv m => Z.max (json_depth (snd kv)) m) 0 d
  | _ => 0
  end.

Definition max_depth (l : list json) : Z := foldr (fun c m => Z.max (json_depth c) m) 0 l.
Definition sizes (l : list json) : nat := sum_list_with json_size l.

Lemma json_depth_children v :
  json_depth v = if is_container v then 1 + max_depth (children v) else 0.
Proof.
  destruct v as [| | | | |l|d|]; try done. cbn [json_depth is_container children].
  unfold max_depth. f_equal. induction d as [|kv d IH]; csimpl; [done|]. by rewrite IH.
Qed.

Lemma json_size_children v : json_size v = S (sizes (children v)).
Proof.
  destruct v as [| | | | |l|d|]; try done. cbn [json_size children]. unfold sizes. f_equal.
  induction d as [|kv d IH]; csimpl; [done|]. by rewrite IH.
Qed.

Lemma max_depth_nonneg l : 0 <= max_depth l.
Proof. unfold max_depth. induction l; simpl; lia. Qed.

Lemma json_depth_nonneg v : 0 <= json_depth v.
Proof.
  rewrite json_depth_children. pose proof (max_depth_nonneg (children v)). case_match; lia.
Qed.

Lemma sizes_app l1 l2 : sizes (l1 ++ l2) = (sizes l1 + sizes l2)%nat.
Proof. apply sum_list_with_app. Qed.

(** What is left of the traversal: some stacked node nests past the limit. *)
Definition stack_exceeds (limit : Z) (stack : list (json * Z)) : bool :=
  existsb (fun nd => is_container nd.1 && (limit <? nd.2 + json_depth nd.1 - 1)) stack.

Definition stack_size (stack : list (json * Z)) : nat := sizes stack.*1.

Lemma existsb_reverse {A} (f : A -> bool) l : existsb f (reverse l) = existsb f l.
Proof.
  apply eq_iff_eq_true. rewrite !existsb_exists.
  setoid_rewrite <-list_elem_of_In. by setoid_rewrite elem_of_reverse.
Qed.

Lemma children_exceed limit depth l :
  depth <= limit ->
  existsb (fun nd => is_container nd.1 && (limit <? nd.2 + json_depth nd.1 - 1))
    (map (fun c => (c, depth + 1)) (filter (fun c => is_container c = true) l)) =
  (limit <? depth + max_depth l).
Proof.
  intros Hd. unfold max_depth. induction l as [|c l IH]; simpl.
  { destruct (Z.ltb_spec limit (depth + 0)); [lia|done]. }
  rewrite filter_cons. pose proof (json_depth_children c) as Hc.
  pose proof (json_depth_nonneg c).
  pose proof (max_depth_nonneg l) as Hm. unfold max_depth in Hm.
  set (m := foldr _ 0 l) in *.
  destruct (is_container c) eqn:E; case_decide; try congruence; cbn [map existsb fst snd];
    rewrite IH, ?E; cbn [andb].
  - destruct (Z.ltb_spec limit (depth + 1 + json_depth c - 1)), (Z.ltb_spec limit (depth + m)),
      (Z.ltb_spec limit (depth + Z.max (json_depth c) m));
      first [done | exfalso; lia].
  - rewrite Hc in *. destruct (Z.ltb_spec limit (depth + m)),
      (Z.ltb_spec limit (depth + Z.max 0 m)); first [done | exfalso; lia].
Qed.

Lemma stack_size_children depth l stack :
  (stack_size (reverse (map (fun c => (c, depth)) (filter (fun c => is_container c = true) l)) ++ stack)
   <= sizes l + stack_size stack)%nat.
Proof.
  unfold stack_size. rewrite fmap_app, sizes_app. apply Nat.add_le_mono_r.
  assert (forall l, sizes (reverse l) = sizes l) as Hrev.
  { intros k. unfold sizes. by rewrite reverse_Permutation. }
  rewrite fmap_reverse, Hrev. unfold sizes. induction l as [|c l IH]; simpl; [done|].
  rewrite filter_cons. case_decide; csimpl; lia.
Qed.

Lemma nesting_loop_spec fuel limit stack :
  (stack_size stack < fuel)%nat -> nesting_loop fuel limit stack = stack_exceeds limit stack.
Proof.
  revert stack. induction fuel as [|fuel IH]; intros stack Hf; [lia|].
  destruct stack as [|[node depth] stack]; [done|]. cbn [nesting_loop].
  unfold stack_size in Hf. csimpl in Hf. unfold sizes in Hf. simpl in Hf.
  fold (sizes stack.*1) in Hf. fold (stack_size stack) in Hf.
  rewrite json_size_children in Hf. unfold stack_exceeds. cbn [existsb fst snd].
  pose proof (json_depth_children node) as Hd.
  destruct (is_container node); cbn [andb orb]; [|apply IH; lia].
  pose proof (max_depth_nonneg (children node)).
  destruct (Z.ltb_spec limit depth).
  { destruct (Z.ltb_spec limit (depth + json_depth node - 1)); [done|lia]. }
  rewrite IH.
  - unfold stack_exceeds. rewrite existsb_app, existsb_reverse, children_exceed by lia.
    f_equal. f_equal. lia.
  - eapply Nat.le_lt_trans; [apply stack_size_children|]. lia.
Qed.

Lemma nesting_exceeds_spec value limit :
  0 <= limit -> nesting_exceeds value limit = (limit <? json_depth value).
Proof.
  intros Hl. unfold nesting_exceeds. rewrite nesting_loop_spec.
  2:{ unfold stack_size, sizes. simpl. lia. }
  unfold stack_exceeds. cbn [existsb fst snd]. rewrite orb_false_r.
  pose proof (json_depth_children value) as Hd.
  destruct (is_container value); cbn [andb].
  - f_equal. lia.
  - rewrite Hd. symmetry. apply Z.ltb_ge. lia.
Qed.

(** The iterative depth check is the recursive one.  [nesting_exceeds], which walks an
    explicit stack so that it cannot overflow the interpreter's, terminates on every
    value and answers whether its containers nest deeper than the limit. *)
Theorem nesting_exceeds_depth (value : json) (limit : Z) :
  0 <= limit -> nesting_exceeds value limit = (limit <? json_depth value).
Proof. apply nesting_exceeds_spec. Qed.

Lemma nesting_exceeds_depth_witness :
  nesting_exceeds (JList [JDict [($"a", JList [])]; JInt 1]) 2 = true.
Proof. rewrite nesting_exceeds_depth by lia. vm_compute. reflexivity. Defined.

(** The hook accepts exactly the pairs with distinct names, and keeps them all. *)
Lemma reject_duplicate_members_spec pairs :
  reject_duplicate_members pairs = if decide (dict_ok pairs) then Ok pairs else Err ValueError.
Proof.
  unfold reject_duplicate_members.
  cut (forall seen, dict_ok seen ->
    foldR (fun seen p => raise_if (dmem seen p.1) ValueError;; Ok (dset seen p.1 p.2)) seen pairs =
    if decide (dict_ok (seen ++ pairs)) then Ok (seen ++ pairs) else Err ValueError).
  { intros H. apply (H []). constructor. }
  induction pairs as [|[k v] pairs IH]; intros seen Hs; cbn [foldR].
  { rewrite app_nil_r. by case_decide. }
  cbn [fst snd]. destruct (dmem seen k) eqn:E; cbn.
  - apply dmem_spec in E. rewrite decide_False; [done|].
    unfold dict_ok. rewrite fmap_app, NoDup_app. csimpl. set_solver.
  - assert (k ∉ seen.*1) by (intros ?%dmem_spec; congruence).
    rewrite dset_new by done. rewrite IH.
    + by rewrite <-app_assoc.
    + rewrite <-dset_new by done. by apply dset_ok.
Qed.

Lemma loads_checked_Ok parsed v :
  loads_checked parsed = Ok v <-> parsed = Ok v /\ json_depth v <= JSON_MAX_DEPTH.
Proof.
  unfold loads_checked. destruct parsed as [w|e]; cbn [catch_as mbind result_bind].
  - rewrite nesting_exceeds_spec by done. unfold raise_if.
    destruct (Z.ltb_spec JSON_MAX_DEPTH (json_depth w)); cbn; naive_solver lia.
  - destruct (isinstance e RecursionError); cbn; naive_solver.
Qed.
