(* ===== verification/Coroutine.v ===== *)
(** Coroutines, as the [async def] functions of src/src/openvc are: a computation that awaits calls
    outside the program and ends with a result.  [run] answers every call at once; [gathers] is
    [asyncio.gather], which resumes its tasks in whatever order their calls are answered.

    An answer of a call is a function of the call: the same call is answered the same way in every
    schedule. *)
From S2P Require Import Prelude Errors PyStr Json.

Inductive co (E : Type -> Type) (A : Type) : Type :=
  | Done (r : result A)
  | Await {X : Type} (e : E X) (k : result X -> co E A).
Arguments Done {E A} r.
Arguments Await {E A X} e k.

(** The calls of the default transport: one GET, run off the event loop. *)
Inductive transport : Type -> Type :=
  | GetJson (url : pystr) (timeout_s max_bytes : Z) : transport json
  | GetText (url : pystr) (timeout_s max_bytes : Z) : transport pystr
  | GetBytes (url : pystr) (timeout_s max_bytes : Z) : transport bytes.

Section co.
Context {E : Type -> Type}.

Fixpoint co_bind {A B} (f : A -> co E B) (m : co E A) : co E B :=
  match m with
  | Done (Ok a) => f a
  | Done (Err e) => Done (Err e)
  | Await e k => Await e (fun x => co_bind f (k x))
  end.
#[export] Instance co_ret : MRet (co E) := fun A a => Done (Ok a).
#[export] Instance co_mbind : MBind (co E) := @co_bind.

(** Code that awaits nothing. *)
Definition lift {A} (m : result A) : co E A := Done m.
(** [try: ... except <caught>: raise e]. *)
Fixpoint catching {A} (caught : exn -> bool) (e : exn) (m : co E A) : co E A :=
  match m with
  | Done r => Done (catch_as caught e r)
  | Await c k => Await c (fun x => catching caught e (k x))
  end.
(** [try: ... except <handled> as exc: return handler(exc)]. *)
Fixpoint handling {A B} (f : result A -> co E B) (m : co E A) : co E B :=
  match m with Done r => f r | Await c k => Await c (fun x => handling f (k x)) end.

Fixpoint mapC {A B} (f : A -> co E B) (l : list A) : co E (list B) :=
  match l with [] => mret [] | x :: l => y ← f x; ys ← mapC f l; mret (y :: ys) end.
Fixpoint foldC {A B} (f : B -> A -> co E B) (b : B) (l : list A) : co E B :=
  match l with [] => mret b | x :: l => b' ← f b x; foldC f b' l end.

(** ** One coroutine *)

Section world.
Context (w : forall X, E X -> result X).

Fixpoint run {A} (m : co E A) : result A := match m with Done r => r | Await e k => run (k (w _ e)) end.
(** How often it awaits. *)
Fixpoint awaits {A} (m : co E A) : nat := match m with Done _ => 0 | Await e k => S (awaits (k (w _ e))) end.

Lemma run_bind {A B} (m : co E A) (f : A -> co E B) : run (m ≫= f) = (a ← run m; run (f a)).
Proof. unfold mbind, co_mbind. induction m as [[a|e]|X e k IH]; [done|done|apply IH]. Qed.
Lemma run_lift {A} (m : result A) : run (lift m) = m.
Proof. done. Qed.
Lemma run_catching {A} caught e (m : co E A) : run (catching caught e m) = catch_as caught e (run m).
Proof. induction m as [r|X c k IH]; [done|apply IH]. Qed.
Lemma run_handling {A B} (f : result A -> co E B) (m : co E A) : run (handling f m) = run (f (run m)).
Proof. induction m as [r|X c k IH]; [done|apply IH]. Qed.
Lemma run_mapC {A B} (f : A -> co E B) l : run (mapC f l) = mapR (fun x => run (f x)) l.
Proof.
  induction l as [|x l IH]; [done|]. cbn [mapC mapR]. rewrite run_bind. destruct (run (f x)); [|done]. cbn [mbind result_bind].
  rewrite run_bind, IH. by destruct (mapR _ l).
Qed.
Lemma run_foldC {A B} (f : B -> A -> co E B) l : forall b, run (foldC f b l) = foldR (fun b x => run (f b x)) b l.
Proof.
  induction l as [|x l IH]; intros b; [done|]. cbn [foldC foldR]. rewrite run_bind. destruct (run (f b x)); [apply IH|done].
Qed.

(** ** Many *)

Section gather.
Context {A : Type}.
Implicit Types ts : list (co E A).

Definition failed (t : co E A) : bool := match t with Done (Err _) => true | _ => false end.
Definition awaiting (t : co E A) : bool := match t with Await _ _ => true | _ => false end.

(** One call is answered: its task runs to its next call or its end.  Nothing runs once a task has
    failed: [gather] has raised. *)
Inductive step : list (co E A) -> list (co E A) -> Prop :=
  step_at ts i {X} (e : E X) k : existsb failed ts = false -> ts !! i = Some (Await e k) -> step ts (<[i := k (w _ e)]> ts).

(** What [await asyncio.gather( *ts )] may end with. *)
Inductive gathers ts : result (list A) -> Prop :=
  | gathers_all vs : rtc step ts ((fun v => Done (Ok v)) <$> vs) -> gathers ts (Ok vs)
  | gathers_error ts' i e : rtc step ts ts' -> ts' !! i = Some (Done (Err e)) -> gathers ts (Err e).

Definition pending ts : nat := sum_list_with awaits ts.

Lemma step_runs ts ts' : step ts ts' -> run <$> ts' = run <$> ts.
Proof using Type.
  intros [ts0 i X e k _ Hi]. rewrite list_fmap_insert. apply list_insert_id. by rewrite list_lookup_fmap, Hi.
Qed.
Lemma steps_runs ts ts' : rtc step ts ts' -> run <$> ts' = run <$> ts.
Proof using Type. induction 1 as [|ts ts1 ts2 H _ IH]; [done|]. by rewrite IH, (step_runs _ _ H). Qed.

Lemma pending_insert ts : forall i t t', ts !! i = Some t -> (pending (<[i := t']> ts) + awaits t = pending ts + awaits t')%nat.
Proof using Type.
  unfold pending. induction ts as [|t0 ts IH]; intros [|i] t t' H; try done; cbn in *.
  - injection H as ->. lia.
  - rewrite <- !Nat.add_assoc. f_equal. by apply IH.
Qed.
Lemma step_pending ts ts' : step ts ts' -> pending ts = S (pending ts').
Proof using Type. intros [ts0 i X e k _ Hi]. pose proof (pending_insert ts0 i _ (k (w X e)) Hi) as H. cbn [awaits] in H. lia. Qed.

(** A batch stands still only when it is over. *)
Lemma step_progress ts : existsb failed ts = false -> (exists vs, ts = (fun v => Done (Ok v)) <$> vs) \/ exists ts', step ts ts'.
Proof using Type.
  intros Hf. assert ((exists vs, ts = (fun v => Done (Ok v)) <$> vs) \/ exists i X (e : E X) k, ts !! i = Some (Await e k)) as [H|(i & X & e & k & Hi)].
  { induction ts as [|t ts IH]; [left; by exists []|]. cbn in Hf. apply orb_false_iff in Hf as [Ht Hf].
    destruct (IH Hf) as [[vs ->]|(i & X & e & k & Hi)]; [|right; by exists (S i), X, e, k].
    destruct t as [[v|x]|X e k]; [left; by exists (v :: vs)|done|right; by exists 0%nat, X, e, k]. }
  - by left.
  - right. eexists. by eapply step_at.
Qed.

Lemma failed_lookup ts : existsb failed ts = true <-> exists i e, ts !! i = Some (Done (Err e)).
Proof using Type.
  induction ts as [|t ts IH]; [split; [done|by intros (i & e & H)]|]. cbn. rewrite orb_true_iff, IH. split.
  - intros [H|(i & e & H)]; [destruct t as [[v|e]|]; try done; by exists 0%nat, e|by exists (S i), e].
  - intros ([|i] & e & H); cbn in H; [injection H as ->; by left|right; by exists i, e].
Qed.

(** Every schedule of a batch ends. *)
Lemma gather_ends ts : exists r, gathers ts r.
Proof using Type.
  remember (pending ts) as n eqn:Hn. revert ts Hn. induction n as [n IH] using lt_wf_ind. intros ts ->.
  destruct (existsb failed ts) eqn:Hf.
  - apply failed_lookup in Hf as (i & e & Hi). exists (Err e). eapply gathers_error; [constructor|done].
  - destruct (step_progress ts Hf) as [[vs ->]|[ts' Hs]]; [exists (Ok vs); by constructor|].
    pose proof (step_pending _ _ Hs). destruct (IH (pending ts') ltac:(lia) ts' eq_refl) as [r Hr]. exists r.
    destruct Hr as [vs Hvs|ts2 i e H2 Hi]; [constructor; by eapply rtc_l|eapply gathers_error; [by eapply rtc_l|done]].
Qed.

Lemma runs_Ok ts vs : mapR run ts = Ok vs <-> run <$> ts = Ok <$> vs.
Proof using Type.
  rewrite mapR_Ok. split.
  - induction 1 as [|t v ts vs Ht _ IH]; [done|]. rewrite !fmap_cons. by rewrite Ht, IH.
  - revert vs. induction ts as [|t ts IH]; intros [|v vs] H; try done; constructor; rewrite !fmap_cons in H; injection H as Ht H; [done|by apply IH].
Qed.

(** A run of tasks with no failure reaches the values. *)
Lemma gather_values ts vs : mapR run ts = Ok vs -> rtc step ts ((fun v => Done (Ok v)) <$> vs).
Proof using Type.
  remember (pending ts) as n eqn:Hn. revert ts Hn. induction n as [n IH] using lt_wf_ind. intros ts -> Hr.
  assert (Hall : forall ts, mapR run ts = Ok vs -> existsb failed ts = false).
  { intros ts0 H. apply not_true_is_false. intros (i & e & Hi)%failed_lookup. apply mapR_Ok in H.
    destruct (Forall2_lookup_l _ _ _ _ _ H Hi) as (v & _ & Hv). done. }
  destruct (step_progress ts (Hall _ Hr)) as [[vs' ->]|[ts' Hs]].
  - assert (vs' = vs) as ->; [|constructor]. clear -Hr. apply mapR_Ok in Hr. revert vs Hr.
    induction vs' as [|v vs' IH]; intros vs H; [by apply Forall2_nil_inv_l in H|].
    apply Forall2_cons_inv_l in H as (u & us & [= ->] & H & ->). f_equal. by apply IH.
  - pose proof (step_pending _ _ Hs). eapply rtc_l; [done|]. apply (IH (pending ts')); [lia|done|].
    apply runs_Ok in Hr. apply runs_Ok. by rewrite (step_runs _ _ Hs).
Qed.

Lemma gathers_spec ts r : gathers ts r ->
  match r with Ok vs => mapR run ts = Ok vs | Err e => exists t, t ∈ ts /\ run t = Err e end.
Proof using Type.
  intros [vs H|ts' i e H Hi]; apply steps_runs in H.
  - apply runs_Ok. rewrite <- H. by rewrite <- list_fmap_compose.
  - assert (run <$> ts !! i = Some (Err e)) as Ht by (rewrite <- list_lookup_fmap, <- H, list_lookup_fmap, Hi; done).
    destruct (ts !! i) as [t|] eqn:Et; [|done]. injection Ht as Ht. exists t. split; [by eapply list_elem_of_lookup_2|done].
Qed.
End gather.
End world.
End co.

(** Concurrency changes nothing.  However the event loop interleaves the tasks of a [gather], the batch
    ends; it ends with values exactly when every task alone would, and with those values in the order of
    the tasks; and an error it raises is one a task raises alone.  No schedule takes more steps than the
    tasks await calls. *)
Lemma gather_schedule_independent {E A} (w : forall X, E X -> result X) (ts : list (co E A)) :
  (exists r, gathers w ts r) /\
  (forall vs, gathers w ts (Ok vs) <-> mapR (run w) ts = Ok vs) /\
  (forall e, gathers w ts (Err e) -> exists t, t ∈ ts /\ run w t = Err e) /\
  (forall n ts', relations.nsteps (step w) n ts ts' -> (n <= pending w ts)%nat).
Proof.
  split; [apply gather_ends|]. split; [|split].
  - intros vs. split; [apply (gathers_spec w ts (Ok vs))|]. intros H. by apply gathers_all, gather_values.
  - intros e. apply (gathers_spec w ts (Err e)).
  - intros n ts' H. induction H as [|n x y z Hs _ IH]; [lia|]. apply step_pending in Hs. lia.
Qed.
