(* ===== verification/Base64.v ===== *)
(** The URL-safe base64 idiom every module of the program carries a copy of
    ([proof/_jws.py], [proof/sd_jwt.py], [proof/ecdsa_sd.py], [cose.py], [jwe.py], ...):
    [base64.urlsafe_b64encode(data).rstrip(b"=")] and
    [base64.urlsafe_b64decode(s + "=" * (-len(s) % 4))], over the lenient decoder of
    [binascii.a2b_base64]. *)
From S2P Require Import Prelude Errors.

Definition URLSAFE : list Z :=
  $"ABCDEFGHIJKLMNOPQRSTUVWXYZabcdefghijklmnopqrstuvwxyz0123456789-_".

Definition b64_char (sextet : Z) : Z := nth (Z.to_nat sextet) URLSAFE 0.

(** [base64.urlsafe_b64encode], with its padding. *)
Fixpoint urlsafe_b64encode (data : bytes) : pystr :=
  match data with
  | [] => []
  | [a] => [b64_char (a / 4); b64_char (a mod 4 * 16); 61; 61]
  | [a; b] => [b64_char (a / 4); b64_char (a mod 4 * 16 + b / 16); b64_char (b mod 16 * 4); 61]
  | a :: b :: c :: rest =>
      b64_char (a / 4) :: b64_char (a mod 4 * 16 + b / 16)
        :: b64_char (b mod 16 * 4 + c / 64) :: b64_char (c mod 64) :: urlsafe_b64encode rest
  end.

(** [s.rstrip(c)] for one character. *)
Fixpoint rstrip (c : Z) (s : pystr) : pystr :=
  match s with
  | [] => []
  | x :: s' => match rstrip c s' with
               | [] => if x =? c then [] else [x]
               | r => x :: r
               end
  end.

Definition b64url_encode (data : bytes) : pystr := rstrip 61 (urlsafe_b64encode data).

(** The value of a character, after [-] and [_] became [+] and [/]; a character outside the
    alphabet is skipped. *)
Definition b64_value (c : Z) : option Z :=
  if (65 <=? c) && (c <=? 90) then Some (c - 65)
  else if (97 <=? c) && (c <=? 122) then Some (c - 71)
  else if (48 <=? c) && (c <=? 57) then Some (c + 4)
  else if (c =? 43) || (c =? 45) then Some 62
  else if (c =? 47) || (c =? 95) then Some 63
  else None.

(** [binascii.a2b_base64] in its default, lenient mode: the position in the quantum, the bits
    left over and the padding seen are its state. *)
Fixpoint a2b_base64 (s : pystr) (quad_pos leftchar pads : Z) : result bytes :=
  match s with
  | [] => if quad_pos =? 0 then Ok [] else Err ValueError
  | c :: s =>
      if c =? 61 then
        if (2 <=? quad_pos) && (4 <=? quad_pos + (pads + 1)) then Ok []
        else a2b_base64 s quad_pos leftchar (if 2 <=? quad_pos then pads + 1 else pads)
      else
        match b64_value c with
        | None => a2b_base64 s quad_pos leftchar pads
        | Some v =>
            if quad_pos =? 0 then a2b_base64 s 1 v 0
            else if quad_pos =? 1 then
              out ← a2b_base64 s 2 (v mod 16) 0; Ok (leftchar * 4 + v / 16 :: out)
            else if quad_pos =? 2 then
              out ← a2b_base64 s 3 (v mod 4) 0; Ok (leftchar * 16 + v / 4 :: out)
            else out ← a2b_base64 s 0 0 0; Ok (leftchar * 64 + v :: out)
        end
  end.

(** [base64.urlsafe_b64decode(s)]: a non-ASCII string and broken padding are [ValueError]. *)
Definition urlsafe_b64decode (s : pystr) : result bytes :=
  raise_if (existsb (fun c => 128 <=? c) s) ValueError;; a2b_base64 s 0 0 0.

Definition b64url_decode (segment : pystr) : result bytes :=
  urlsafe_b64decode (segment ++ repeat 61 (Z.to_nat ((- len segment) mod 4))).

(** ** The strict decoder of the standard alphabet *)

Definition b64_std_char (c : Z) : bool :=
  ((65 <=? c) && (c <=? 90)) || ((97 <=? c) && (c <=? 122)) || ((48 <=? c) && (c <=? 57)) || (c =? 43) || (c =? 47).
(** The characters before the padding, and how much padding there is. *)
Definition b64_data (s : pystr) : pystr := rstrip 61 s.
Definition b64_pads (s : pystr) : nat := length s - length (b64_data s).

(** [base64.b64decode(s, validate=True)]: the padding a length asks for, and nothing else. *)
Definition b64decode_validate (s : pystr) : result bytes :=
  let n := (length (b64_data s) mod 4)%nat in
  raise_if (negb (forallb b64_std_char (b64_data s) &&
                  (b64_pads s =? match n with O => 0 | 2%nat => 2 | 3%nat => 1 | _ => 4 end)%nat)) ValueError;;
  a2b_base64 s 0 0 0.

Example b64_ex : b64url_encode ($"hello") = $"aGVsbG8" /\ b64url_decode ($"aGVsbG8") = Ok ($"hello").
Proof. vm_compute. done. Qed.
Example b64_lenient : b64url_decode ($"aG Vs*bG8") = Ok ($"hello").
Proof. vm_compute. done. Qed.

(** * The alphabet *)

Definition sextets : list Z := Z.of_nat <$> seq 0 64.

Lemma sextets_spec v : 0 <= v < 64 -> v ∈ sextets.
Proof.
  intros. apply list_elem_of_fmap. exists (Z.to_nat v). split; [lia|]. apply elem_of_seq. lia.
Qed.

Lemma b64_char_ok v :
  0 <= v < 64 -> b64_value (b64_char v) = Some v /\ 0 <= b64_char v < 128 /\ b64_char v <> 61.
Proof.
  intros Hv%sextets_spec. revert v Hv. apply Forall_forall.
  apply (bool_decide_unpack _). vm_compute. done.
Qed.

(** * Encoding without the padding *)

Fixpoint b64_plain (data : bytes) : pystr :=
  match data with
  | [] => []
  | [a] => [b64_char (a / 4); b64_char (a mod 4 * 16)]
  | [a; b] => [b64_char (a / 4); b64_char (a mod 4 * 16 + b / 16); b64_char (b mod 16 * 4)]
  | a :: b :: c :: rest =>
      b64_char (a / 4) :: b64_char (a mod 4 * 16 + b / 16)
        :: b64_char (b mod 16 * 4 + c / 64) :: b64_char (c mod 64) :: b64_plain rest
  end.

(** Three bytes at a time. *)
Lemma bytes3_ind (P : bytes -> Prop) :
  P [] -> (forall a, P [a]) -> (forall a b, P [a; b]) ->
  (forall a b c l, P l -> P (a :: b :: c :: l)) -> forall l, P l.
Proof.
  intros H0 H1 H2 H3. fix IH 1. intros [|a [|b [|c l]]]; [done..|]. apply H3, IH.
Qed.

Ltac inv_bytes_ok :=
  repeat match goal with
  | H : bytes_ok (_ :: _) |- _ => apply Forall_cons in H as [? H]
  | H : Forall is_byte (_ :: _) |- _ => apply Forall_cons in H as [? H]
  | H : is_byte _ |- _ => unfold is_byte in H
  end.

Ltac sextet_lia := Z.to_euclidean_division_equations; lia.

Lemma b64_plain_ascii data :
  bytes_ok data -> Forall (fun c => 0 <= c < 128 /\ c <> 61) (b64_plain data).
Proof.
  induction data as [|a|a b|a b c l IH] using bytes3_ind; intros Hd; simpl; inv_bytes_ok;
    repeat (constructor; [apply b64_char_ok; sextet_lia|]); try done.
  by apply IH.
Qed.

Lemma urlsafe_b64encode_pad data :
  exists k, urlsafe_b64encode data = b64_plain data ++ repeat 61 k /\
            Z.of_nat k = (- len (b64_plain data)) mod 4.
Proof.
  induction data as [|a|a b|a b c l IH] using bytes3_ind.
  - exists 0%nat. done.
  - exists 2%nat. done.
  - exists 1%nat. done.
  - destruct IH as (k & IH & Hk). exists k. split; [simpl; by rewrite IH|]. rewrite Hk.
    unfold len. cbn [b64_plain length]. sextet_lia.
Qed.

Lemma rstrip_repeat c k : rstrip c (repeat c k) = [].
Proof. induction k; simpl; [done|]. by rewrite IHk, Z.eqb_refl. Qed.

Lemma rstrip_app c s k : Forall (fun x => x <> c) s -> rstrip c (s ++ repeat c k) = s.
Proof.
  induction 1 as [|x s Hx _ IH]; simpl; [apply rstrip_repeat|]. rewrite IH.
  destruct s; [|done]. by rewrite (proj2 (Z.eqb_neq x c)).
Qed.

Lemma b64url_encode_plain data : bytes_ok data -> b64url_encode data = b64_plain data.
Proof.
  intros Hd. unfold b64url_encode. destruct (urlsafe_b64encode_pad data) as (k & -> & _).
  apply rstrip_app. eapply Forall_impl; [by apply b64_plain_ascii|]. naive_solver.
Qed.

(** * Decoding *)

Lemma a2b_char v s q left pads :
  0 <= v < 64 ->
  a2b_base64 (b64_char v :: s) q left pads =
    if q =? 0 then a2b_base64 s 1 v 0
    else if q =? 1 then out ← a2b_base64 s 2 (v mod 16) 0; Ok (left * 4 + v / 16 :: out)
    else if q =? 2 then out ← a2b_base64 s 3 (v mod 4) 0; Ok (left * 16 + v / 4 :: out)
    else out ← a2b_base64 s 0 0 0; Ok (left * 64 + v :: out).
Proof.
  intros Hv. destruct (b64_char_ok v Hv) as (Hval & _ & Hne). cbn [a2b_base64].
  by rewrite (proj2 (Z.eqb_neq _ _) Hne), Hval.
Qed.

Lemma a2b_plain data :
  bytes_ok data ->
  a2b_base64 (b64_plain data ++ repeat 61 (Z.to_nat ((- len (b64_plain data)) mod 4))) 0 0 0
    = Ok data.
Proof.
  induction data as [|a|a b|a b c l IH] using bytes3_ind; intros Hd; inv_bytes_ok;
    [done|..]; cbn [b64_plain app];
    repeat (rewrite a2b_char by sextet_lia; cbn [Z.eqb Pos.eqb]).
  - change (Ok [a / 4 * 4 + a mod 4 * 16 / 16] = Ok [a]). do 2 f_equal. sextet_lia.
  - change (Ok [a / 4 * 4 + (a mod 4 * 16 + b / 16) / 16;
                (a mod 4 * 16 + b / 16) mod 16 * 16 + b mod 16 * 4 / 4] = Ok [a; b]).
    do 2 f_equal; [sextet_lia|]. f_equal. sextet_lia.
  - unfold len. cbn [length].
    replace ((- Z.of_nat (S (S (S (S (length (b64_plain l))))))) mod 4)
      with ((- len (b64_plain l)) mod 4) by (unfold len; sextet_lia).
    rewrite IH by done. cbn [mbind result_bind]. repeat f_equal; sextet_lia.
Qed.

(** Every segment the encoder emits decodes to the bytes it was made from. *)
Lemma b64url_decode_encode data : bytes_ok data -> b64url_decode (b64url_encode data) = Ok data.
Proof.
  intros Hd. rewrite b64url_encode_plain by done. unfold b64url_decode, urlsafe_b64decode.
  apply bind_Ok. exists tt. split; [|by apply a2b_plain]. apply raise_if_Ok.
  apply not_true_iff_false. intros [c [Hin Hc]]%existsb_exists.
  apply list_elem_of_In, elem_of_app in Hin as [Hin|Hin].
  - pose proof (b64_plain_ascii data Hd) as Ha. rewrite Forall_forall in Ha.
    specialize (Ha c Hin). lia.
  - apply list_elem_of_In, repeat_spec in Hin. subst. done.
Qed.

Lemma a2b_base64_errs s q left pads : errs_in (eq ValueError) (a2b_base64 s q left pads).
Proof. revert q left pads. induction s; intros; simpl; solve_errs. Qed.

Lemma b64url_decode_errs s : errs_in (eq ValueError) (b64url_decode s).
Proof. unfold b64url_decode, urlsafe_b64decode. pose proof a2b_base64_errs. solve_errs. Qed.

(** Whatever is decoded is bytes. *)
Lemma a2b_base64_bytes s : forall q left pads out, a2b_base64 s q left pads = Ok out ->
  0 <= q < 4 -> 0 <= left -> (q = 1 -> left < 64) -> (q = 2 -> left < 16) -> (q = 3 -> left < 4) -> bytes_ok out.
Proof.
  induction s as [|c s IH]; intros q left pads out H Hq Hl H1 H2 H3; cbn [a2b_base64] in H.
  - destruct (q =? 0); [injection H as <-; constructor|done].
  - destruct (c =? 61); [destruct (_ && _); [injection H as <-; constructor|by eapply IH]|].
    destruct (b64_value c) as [v|] eqn:Ev; [|by eapply IH].
    assert (0 <= v < 64) as Hv.
    { unfold b64_value in Ev. repeat case_match; simplify_eq/=; lia. }
    pose proof (Z.mod_pos_bound v 16 ltac:(lia)). pose proof (Z.mod_pos_bound v 4 ltac:(lia)).
    assert (0 <= v / 16 < 4) by (split; [apply Z.div_pos; lia|apply Z.div_lt_upper_bound; lia]).
    assert (0 <= v / 4 < 16) by (split; [apply Z.div_pos; lia|apply Z.div_lt_upper_bound; lia]).
    destruct (Z.eqb_spec q 0); [eapply IH; [done|lia..]|].
    destruct (Z.eqb_spec q 1); [|destruct (Z.eqb_spec q 2)]; apply bind_Ok in H as (o & Ho & [= <-]);
      (constructor; [unfold is_byte; lia|eapply IH; [done|lia..]]).
Qed.

Lemma b64url_decode_bytes s out : b64url_decode s = Ok out -> bytes_ok out.
Proof. unfold b64url_decode, urlsafe_b64decode. intros (? & _ & H)%bind_Ok. eapply a2b_base64_bytes; [done|lia..]. Qed.

Lemma b64url_encode_inj b1 b2 : bytes_ok b1 -> bytes_ok b2 -> b64url_encode b1 = b64url_encode b2 -> b1 = b2.
Proof. intros H1 H2 E. apply Ok_inj. by rewrite <- (b64url_decode_encode b1), <- (b64url_decode_encode b2), E. Qed.

Lemma b64url_encode_ascii data : bytes_ok data -> Forall (fun c => 0 <= c < 128 /\ c <> 61) (b64url_encode data).
Proof. intros. rewrite b64url_encode_plain by done. by apply b64_plain_ascii. Qed.

Lemma b64_char_urlsafe v : 0 <= v < 64 -> b64_char v ∈ URLSAFE.
Proof.
  intros Hv%sextets_spec. revert v Hv. apply Forall_forall.
  apply (bool_decide_unpack _). vm_compute. done.
Qed.

Lemma b64url_encode_urlsafe data : bytes_ok data -> Forall (fun c => c ∈ URLSAFE) (b64url_encode data).
Proof.
  intros Hd. rewrite b64url_encode_plain by done. revert Hd.
  induction data as [|a|a b|a b c l IH] using bytes3_ind; intros Hd; simpl; inv_bytes_ok;
    repeat (constructor; [apply b64_char_urlsafe; sextet_lia|]); try done.
  by apply IH.
Qed.

(** No separator of a compact serialisation occurs in an encoded segment. *)
Lemma b64url_encode_no c data : bytes_ok data -> c ∉ URLSAFE -> c ∉ b64url_encode data.
Proof. intros Hd%b64url_encode_urlsafe Hc Hin. rewrite Forall_forall in Hd. by apply Hc, Hd. Qed.

Lemma b64url_encode_nonempty data : data <> [] -> bytes_ok data -> b64url_encode data <> [].
Proof. intros Hne Hd. rewrite b64url_encode_plain by done. by destruct data as [|? [|? [|? ?]]]. Qed.
