(* ===== verification/Decimal.v ===== *)
(** Decimal strings: what [str.isdigit], [int] and [str] do on them. *)
From S2P Require Import Prelude.

(** [s.isascii() and s.isdigit()]. *)
Definition is_ascii_digit (c : Z) : bool := (48 <=? c) && (c <=? 57).
Definition ascii_digits (s : pystr) : bool := negb (bool_decide (s = [])) && forallb is_ascii_digit s.

(** [int(s)] of a string of ASCII digits. *)
Definition decimal_value (s : pystr) : Z := foldl (fun n c => n * 10 + (c - 48)) 0 s.

(** [s.lstrip("0") or "0"]. *)
Fixpoint lstrip_zeros (s : pystr) : pystr :=
  match s with
  | c :: s' => if c =? 48 then lstrip_zeros s' else s
  | [] => []
  end.
Definition significant (s : pystr) : pystr :=
  match lstrip_zeros s with [] => $"0" | d => d end.

(** [str(n)] of a non-negative integer: its digits, the last one first off; a number below
    [10 ^ fuel] needs no more rounds. *)
Fixpoint digits_of (fuel : nat) (n : Z) : pystr :=
  match fuel with
  | O => []
  | S fuel => if n <? 10 then [48 + n] else digits_of fuel (n / 10) ++ [48 + n mod 10]
  end.
Definition str_of_nonneg (n : Z) : pystr := digits_of (S (Z.to_nat (Z.log2 n))) n.

(** [str(n)]. *)
Definition str_of_int (n : Z) : pystr := if n <? 0 then 45 :: str_of_nonneg (- n) else str_of_nonneg n.

Example str_of_int_ex : str_of_int (-1050) = $"-1050" /\ str_of_int 0 = $"0".
Proof. vm_compute. done. Qed.

Lemma decimal_value_snoc s c : decimal_value (s ++ [c]) = decimal_value s * 10 + (c - 48).
Proof. unfold decimal_value. by rewrite foldl_app. Qed.

Definition digit_string (s : pystr) : Prop := s <> [] /\ Forall (fun c => 48 <= c <= 57) s.

Lemma ascii_digits_spec s : ascii_digits s = true <-> digit_string s.
Proof.
  unfold ascii_digits, digit_string. rewrite andb_true_iff, negb_true_iff, bool_decide_eq_false.
  rewrite forallb_forall, Forall_forall. unfold is_ascii_digit.
  setoid_rewrite andb_true_iff. setoid_rewrite Z.leb_le. by setoid_rewrite <-list_elem_of_In.
Qed.

Lemma decimal_value_bounds s :
  Forall (fun c => 48 <= c <= 57) s -> 0 <= decimal_value s < 10 ^ len s.
Proof.
  unfold len. induction s as [|c s IH] using rev_ind; intros Hs; [unfold decimal_value; simpl; lia|].
  apply Forall_app in Hs as [Hs [Hc _]%Forall_cons]. specialize (IH Hs).
  rewrite decimal_value_snoc, length_app, Nat2Z.inj_add, Z.pow_add_r by lia.
  change (10 ^ Z.of_nat (length [c])) with 10. lia.
Qed.

Lemma decimal_value_cons c s : decimal_value (c :: s) = (c - 48) * 10 ^ len s + decimal_value s.
Proof.
  unfold len. induction s as [|x s IH] using rev_ind; [unfold decimal_value; simpl; lia|].
  change (c :: s ++ [x]) with ((c :: s) ++ [x]).
  rewrite !decimal_value_snoc, IH, length_app, Nat2Z.inj_add, Z.pow_add_r by lia.
  change (10 ^ Z.of_nat (length [x])) with 10. ring.
Qed.

Lemma lstrip_zeros_value s : decimal_value (lstrip_zeros s) = decimal_value s.
Proof.
  induction s as [|c s IH]; simpl; [done|]. case_match eqn:E; [|done]. apply Z.eqb_eq in E as ->.
  rewrite IH, decimal_value_cons. lia.
Qed.

Lemma significant_value s : decimal_value (significant s) = decimal_value s.
Proof.
  rewrite <-(lstrip_zeros_value s). unfold significant. by destruct (lstrip_zeros s).
Qed.

Lemma lstrip_zeros_digits s :
  Forall (fun c => 48 <= c <= 57) s -> Forall (fun c => 48 <= c <= 57) (lstrip_zeros s).
Proof. induction 1; simpl; [constructor|]. case_match; [done|]. by constructor. Qed.


Lemma lstrip_zeros_snoc s c : lstrip_zeros s = s -> s <> [] -> lstrip_zeros (s ++ [c]) = s ++ [c].
Proof.
  destruct s as [|x s]; [done|]. simpl. intros H _. case_match; [|done].
  exfalso. assert (length (lstrip_zeros s) <= length s)%nat as Hl.
  { clear. induction s as [|y s IH]; simpl; [lia|]. case_match; simpl; lia. }
  rewrite H in Hl. simpl in Hl. lia.
Qed.

Lemma digits_of_S fuel n :
  digits_of (S fuel) n =
    if n <? 10 then [48 + n] else digits_of fuel (n / 10) ++ [48 + n mod 10].
Proof. done. Qed.

Lemma digits_of_spec fuel n :
  0 <= n < 2 ^ Z.of_nat (S fuel) ->
  let s := digits_of (S fuel) n in
  digit_string s /\ decimal_value s = n /\ (n <> 0 -> lstrip_zeros s = s).
Proof.
  revert n. induction fuel as [|fuel IH]; intros n Hn; cbn zeta.
  - simpl in Hn. assert (n = 0 \/ n = 1) as [-> | ->] by lia; vm_compute;
      (split; [split; [done|repeat constructor; done]|done]).
  - rewrite digits_of_S.
    destruct (Z.ltb_spec n 10) as [Hlt|Hge].
    + split_and!.
      * split; [done|]. repeat constructor; lia.
      * unfold decimal_value. simpl. lia.
      * intros Hne. simpl. by rewrite (proj2 (Z.eqb_neq (48 + n) 48)) by lia.
    + destruct (IH (n / 10)) as ((Hne & Hd) & Hv & Hs).
      { rewrite Nat2Z.inj_succ, Z.pow_succ_r in Hn by lia.
        split; [apply Z.div_pos; lia|]. apply Z.div_lt_upper_bound; lia. }
      assert (0 <= n mod 10 < 10) by (apply Z.mod_pos_bound; lia).
      split_and!.
      * split; [intros [? ?]%app_nil; done|]. apply Forall_app; split; [done|].
        repeat constructor; lia.
      * rewrite decimal_value_snoc, Hv. pose proof (Z_div_mod_eq_full n 10). lia.
      * intros _. apply lstrip_zeros_snoc; [|done]. apply Hs.
        intros E0. apply Z.div_small_iff in E0; lia.
Qed.

Lemma str_of_nonneg_spec n :
  0 <= n ->
  digit_string (str_of_nonneg n) /\ decimal_value (str_of_nonneg n) = n /\
  (n <> 0 -> lstrip_zeros (str_of_nonneg n) = str_of_nonneg n).
Proof.
  intros Hn. apply digits_of_spec. split; [done|].
  rewrite Nat2Z.inj_succ, Z2Nat.id by apply Z.log2_nonneg.
  destruct (Z.eq_dec n 0) as [->|]; [done|]. apply Z.log2_spec. lia.
Qed.

Lemma str_of_nonneg_inj n m : 0 <= n -> 0 <= m -> str_of_nonneg n = str_of_nonneg m -> n = m.
Proof.
  intros Hn Hm E. rewrite <-(proj1 (proj2 (str_of_nonneg_spec n Hn))), E. by apply str_of_nonneg_spec.
Qed.

Lemma str_of_int_inj n m : 0 <= n -> 0 <= m -> str_of_int n = str_of_int m -> n = m.
Proof.
  unfold str_of_int. intros Hn Hm. destruct (Z.ltb_spec n 0), (Z.ltb_spec m 0); [lia..|]. by apply str_of_nonneg_inj.
Qed.
