(* ===== verification/PyNum.v ===== *)
(** Python's numbers as JSON carries them: unbounded integers and IEEE-754 doubles, with
    the mixed comparisons and subtractions the clock checks use, and [==] on JSON values. *)
From Stdlib Require Import SpecFloat.
From S2P Require Import Prelude Errors Json.

(** [float(n)] of an integer, rounded to nearest even; past the range it overflows. *)
Definition float_of_int (n : Z) : result spec_float :=
  match binary_normalize 53 1024 n 0 false with
  | S754_infinity _ => Err OverflowError
  | f => Ok f
  end.

Inductive num := NInt (n : Z) | NFloat (f : spec_float).

(** [isinstance(v, (int, float))] of a value that is no [bool]. *)
Definition as_num (v : json) : option num :=
  match v with JInt n => Some (NInt n) | JFloat f => Some (NFloat f) | _ => None end.

(** The sign and the exact value [m * 2 ^ e] of a finite double. *)
Definition finite_value (f : spec_float) : option (Z * Z) :=
  match f with
  | S754_zero _ => Some (0, 0)
  | S754_finite s m e => Some (if s then Z.neg m else Z.pos m, e)
  | _ => None
  end.

(** [m * 2 ^ e] against [m' * 2 ^ e'], exactly. *)
Definition compare_scaled (m e m' e' : Z) : comparison :=
  let k := Z.min e e' in Z.compare (m * 2 ^ (e - k)) (m' * 2 ^ (e' - k)).

Definition num_value (a : num) : option (Z * Z) :=
  match a with NInt n => Some (n, 0) | NFloat f => finite_value f end.

(** Python compares an [int] with a [float] by value; nothing compares with a NaN. *)
Definition num_compare (a b : num) : option comparison :=
  match num_value a, num_value b with
  | Some (m, e), Some (m', e') => Some (compare_scaled m e m' e')
  | Some _, None => match b with NFloat (S754_infinity s) => Some (if s then Gt else Lt) | _ => None end
  | None, Some _ => match a with NFloat (S754_infinity s) => Some (if s then Lt else Gt) | _ => None end
  | None, None =>
      match a, b with
      | NFloat (S754_infinity s), NFloat (S754_infinity s') =>
          Some (match s, s' with true, false => Lt | false, true => Gt | _, _ => Eq end)
      | _, _ => None
      end
  end.

Definition num_ltb (a b : num) : bool := match num_compare a b with Some Lt => true | _ => false end.
Definition num_gtb (a b : num) : bool := match num_compare a b with Some Gt => true | _ => false end.
Definition num_geb (a b : num) : bool := match num_compare a b with Some Gt | Some Eq => true | _ => false end.
Definition num_eqb (a b : num) : bool := match num_compare a b with Some Eq => true | _ => false end.

Definition to_float (a : num) : result spec_float :=
  match a with NInt n => float_of_int n | NFloat f => Ok f end.

(** [a - b]: exact on integers, otherwise in doubles. *)
Definition num_sub (a b : num) : result num :=
  match a, b with
  | NInt n, NInt m => Ok (NInt (n - m))
  | _, _ => x ← to_float a; y ← to_float b; Ok (NFloat (SFsub 53 1024 x y))
  end.

(** [math.isfinite(v)]: an integer is cast to a double first. *)
Definition isfinite (a : num) : result bool :=
  f ← to_float a; Ok (match f with S754_infinity _ | S754_nan => false | _ => true end).

(** [v == w]; a [bool] is the integer it is, a dict is compared as a map. *)
Definition eq_num (v : json) : option num :=
  match v with JBool b => Some (NInt (Z.b2z b)) | _ => as_num v end.

Fixpoint py_eq (v w : json) : bool :=
  match v, w with
  | JNull, JNull => true
  | JStr s, JStr s' => bool_decide (s = s')
  | JList l, JList l' =>
      (fix eqs l l' := match l, l' with
                       | [], [] => true
                       | x :: l, y :: l' => py_eq x y && eqs l l'
                       | _, _ => false
                       end) l l'
  | JDict d, JDict d' =>
      (len d =? len d') &&
      (fix sub d := match d with
                    | [] => true
                    | (k, x) :: d => match dget d' k with Some y => py_eq x y | None => false end && sub d
                    end) d
  | _, _ => match eq_num v, eq_num w with Some a, Some b => num_eqb a b | _, _ => false end
  end.

Example num_mixed : num_compare (NInt 3) (NFloat (S754_finite false 6755399441055744 (-51))) = Some Eq.
Proof. vm_compute. done. Qed.
Example py_eq_ex : py_eq (JDict [($"a", JInt 1); ($"b", JNull)]) (JDict [($"b", JNull); ($"a", JBool true)]) = true.
Proof. vm_compute. done. Qed.

Lemma num_compare_int n m : num_compare (NInt n) (NInt m) = Some (n ?= m).
Proof.
  unfold num_compare, compare_scaled. cbn [num_value]. replace (Z.min 0 0) with 0 by done.
  by rewrite !Z.mul_1_r.
Qed.

Lemma num_ltb_int n m : num_ltb (NInt n) (NInt m) = (n <? m).
Proof. unfold num_ltb. rewrite num_compare_int. unfold Z.ltb. by destruct (n ?= m). Qed.

Lemma num_gtb_int n m : num_gtb (NInt n) (NInt m) = (m <? n).
Proof. unfold num_gtb. rewrite num_compare_int. destruct (Z.compare_spec n m), (Z.ltb_spec m n); done || lia. Qed.

Lemma num_geb_int n m : num_geb (NInt n) (NInt m) = (m <=? n).
Proof. unfold num_geb. rewrite num_compare_int. destruct (Z.compare_spec n m), (Z.leb_spec m n); done || lia. Qed.

Lemma py_eq_str v s : py_eq v (JStr s) = eq_str v s.
Proof. by destruct v. Qed.

(** What a subtraction can raise: only an operand no double holds. *)
Lemma num_sub_total a b x y : to_float a = Ok x -> to_float b = Ok y -> exists c, num_sub a b = Ok c.
Proof.
  intros Ha Hb. unfold num_sub. rewrite Ha, Hb. destruct a, b; eexists; reflexivity.
Qed.
