(* ===== verification/Doubles.v ===== *)
(** Binary64 as a number system, for the components that compare or print numbers: the value
    of a finite double, the uniqueness of its representation, and what the rounding of an
    integer ([float_of_int]) gives. *)
From Stdlib Require Import SpecFloat.
From S2P Require Import Prelude Errors Json PyNum.

(** A [float] object: a mantissa of at most 53 bits, normalised. *)
Definition is_double (f : spec_float) : Prop := valid_binary 53 1024 f = true.

#[export] Instance is_double_dec f : Decision (is_double f).
Proof. unfold is_double. apply _. Defined.

(** [x.1 * 2 ^ x.2] and [y.1 * 2 ^ y.2] are the same number. *)
Definition same_value (x y : Z * Z) : Prop :=
  let k := Z.min x.2 y.2 in x.1 * 2 ^ (x.2 - k) = y.1 * 2 ^ (y.2 - k).

#[export] Instance same_value_dec x y : Decision (same_value x y).
Proof. unfold same_value. apply _. Defined.

Lemma same_value_refl x : same_value x x.
Proof. done. Qed.

Lemma same_value_at k x y :
  k <= x.2 -> k <= y.2 -> same_value x y <-> x.1 * 2 ^ (x.2 - k) = y.1 * 2 ^ (y.2 - k).
Proof.
  intros Hx Hy. unfold same_value. set (e := Z.min x.2 y.2).
  replace (x.2 - k) with (x.2 - e + (e - k)) by lia. replace (y.2 - k) with (y.2 - e + (e - k)) by lia.
  rewrite !Z.pow_add_r, !Z.mul_assoc by lia. assert (0 < 2 ^ (e - k)) by (apply Z.pow_pos_nonneg; lia). nia.
Qed.

(** * One representation per double *)

Lemma digits2_pos_bounds p : 2 ^ (Z.pos (digits2_pos p) - 1) <= Z.pos p < 2 ^ Z.pos (digits2_pos p).
Proof.
  induction p as [p IH|p IH|]; cbn [digits2_pos]; [..|done];
    rewrite Pos2Z.inj_succ; replace (Z.succ (Z.pos (digits2_pos p)) - 1) with (Z.succ (Z.pos (digits2_pos p) - 1)) by lia;
    rewrite !Z.pow_succ_r by lia; lia.
Qed.

Lemma digits2_pos_unique p d : 0 < d -> 2 ^ (d - 1) <= Z.pos p < 2 ^ d -> Z.pos (digits2_pos p) = d.
Proof.
  intros Hd H. pose proof (digits2_pos_bounds p) as H'. set (d' := Z.pos (digits2_pos p)) in *.
  destruct (Z.lt_trichotomy d' d) as [Hlt|[?|Hlt]]; [|done|].
  - assert (2 ^ d' <= 2 ^ (d - 1)) by (apply Z.pow_le_mono_r; lia). lia.
  - assert (2 ^ d <= 2 ^ (d' - 1)) by (apply Z.pow_le_mono_r; lia). lia.
Qed.

Lemma digits2_pos_shift p q k : 0 <= k -> Z.pos p = Z.pos q * 2 ^ k ->
  Z.pos (digits2_pos p) = Z.pos (digits2_pos q) + k.
Proof.
  intros Hk E. apply digits2_pos_unique; [lia|]. rewrite E. pose proof (digits2_pos_bounds q) as [H1 H2].
  replace (Z.pos (digits2_pos q) + k - 1) with (Z.pos (digits2_pos q) - 1 + k) by lia.
  rewrite !Z.pow_add_r by lia. assert (0 < 2 ^ k) by (apply Z.pow_pos_nonneg; lia). nia.
Qed.

Lemma bounded_canonical m e : bounded 53 1024 m e = true -> fexp 53 1024 (Z.pos (digits2_pos m) + e) = e.
Proof. intros [H _]%andb_true_iff. by apply Z.eqb_eq in H. Qed.

Lemma bounded_unique m e m' e' :
  bounded 53 1024 m e = true -> bounded 53 1024 m' e' = true -> same_value (Z.pos m, e) (Z.pos m', e') ->
  m = m' /\ e = e'.
Proof.
  intros H%bounded_canonical H'%bounded_canonical E. unfold same_value in E. cbn [fst snd] in E.
  assert (Z.pos (digits2_pos m) + e = Z.pos (digits2_pos m') + e') as Ed.
  { destruct (Z.le_ge_cases e e') as [Hle|Hle].
    - rewrite Z.min_l, Z.sub_diag, Z.mul_1_r in E by lia. apply digits2_pos_shift in E; lia.
    - rewrite Z.min_r, Z.sub_diag, Z.mul_1_r in E by lia. symmetry in E. apply digits2_pos_shift in E; lia. }
  assert (e = e') as -> by (rewrite <-H, <-H'; by f_equal). split; [|done].
  rewrite Z.min_id, Z.sub_diag, !Z.mul_1_r in E. congruence.
Qed.

Lemma same_value_sign (s : bool) m e x : same_value (if s then Z.neg m else Z.pos m, e) x ->
  exists m', x.1 = (if s then Z.neg m' else Z.pos m') /\ same_value (Z.pos m, e) (Z.pos m', x.2).
Proof.
  destruct x as [n e']. unfold same_value. cbn [fst snd]. intros E. set (k := Z.min e e') in *.
  assert (0 < 2 ^ (e - k)) by (apply Z.pow_pos_nonneg; lia).
  assert (0 < 2 ^ (e' - k)) by (apply Z.pow_pos_nonneg; lia).
  destruct s, n as [|m'|m']; try nia; exists m'; (split; [done|nia]).
Qed.

(** Two finite doubles with the same value are the same object, the two zeros apart. *)
Lemma double_value_inj f g x y :
  is_double f -> is_double g -> finite_value f = Some x -> finite_value g = Some y -> same_value x y ->
  f = g \/ (exists s, f = S754_zero s) /\ (exists s, g = S754_zero s).
Proof.
  intros Hf Hg Hx Hy E. destruct f as [s|s| |s m e], g as [s'|s'| |s' m' e']; cbn in Hx, Hy; simplify_eq; [right; eauto|..].
  - exfalso. unfold same_value in E. cbn [fst snd] in E. pose proof (Z.pow_pos_nonneg 2 (e' - Z.min 0 e')) as Hp.
    destruct s'; lia.
  - exfalso. unfold same_value in E. cbn [fst snd] in E. pose proof (Z.pow_pos_nonneg 2 (e - Z.min e 0)) as Hp.
    destruct s; lia.
  - left. apply same_value_sign in E as (m2 & Em & E). cbn [fst snd] in Em, E.
    assert (s = s' /\ m2 = m') as [-> ->] by (destruct s, s'; split; congruence).
    by apply bounded_unique in E as [-> ->].
Qed.

(** * Rounding an integer *)

Lemma iter_pos_shr p : forall r, 0 <= shr_m r -> shr_m (SpecFloat.iter_pos shr_1 p r) = shr_m r / 2 ^ Z.pos p.
Proof.
  assert (forall r, 0 <= shr_m r -> shr_m (shr_1 r) = shr_m r / 2) as H1.
  { intros [[|[p'|p'|]|p'] a b]; cbn; intros H; try lia; try done;
      (rewrite Pos2Z.inj_xI || rewrite Pos2Z.inj_xO); Z.to_euclidean_division_equations; lia. }
  assert (forall a k, 0 <= a -> 0 <= k -> 0 <= a / 2 ^ k) as Hdiv.
  { intros a k Ha Hk. apply Z.div_pos; [done|]. by apply Z.pow_pos_nonneg. }
  assert (forall a j k, 0 <= j -> 0 <= k -> a / 2 ^ j / 2 ^ k = a / 2 ^ (j + k)) as Hdd.
  { intros a j k Hj Hk. rewrite Z.div_div, Z.pow_add_r; lia. }
  induction p as [p IH|p IH|]; intros r Hr; cbn [SpecFloat.iter_pos].
  - assert (0 <= shr_m (shr_1 r)) as Hs by (rewrite H1; [by apply (Hdiv _ 1)|done]).
    rewrite IH by (rewrite IH; auto with lia); rewrite IH by done. rewrite H1 by done. change 2 with (2 ^ 1) at 1.
    rewrite !Hdd by lia. do 2 f_equal. lia.
  - rewrite IH by (rewrite IH; auto with lia); rewrite IH by done. rewrite Hdd by lia. do 2 f_equal. lia.
  - by rewrite H1.
Qed.

Lemma shl_align_value m e e' : e' <= e ->
  exists m', shl_align m e e' = (m', e') /\ Z.pos m' = Z.pos m * 2 ^ (e - e').
Proof.
  intros He. unfold shl_align. destruct (e' - e) as [|d|d] eqn:E; [|lia|].
  - exists m. replace e' with e by lia. rewrite Z.sub_diag. split; [done|lia].
  - exists (Pos.iter xO m d). split; [done|]. replace (e - e') with (Z.pos d) by lia. clear.
    induction d as [|d IH] using Pos.peano_ind; [cbn; lia|].
    rewrite Pos.iter_succ, Pos2Z.inj_xO, IH, Pos2Z.inj_succ, Z.pow_succ_r by lia. lia.
Qed.

Lemma shr_fexp_none m e l : fexp 53 1024 (Zdigits2 m + e) <= e -> shr_fexp 53 1024 m e l = (shr_record_of_loc m l, e).
Proof. intros H. unfold shr_fexp, shr. destruct (_ - e) eqn:E; [done|lia|done]. Qed.

Definition top_bit (m : Z) : Prop := 2 ^ 52 <= m < 2 ^ 53.

Lemma top_bit_digits p : top_bit (Z.pos p) -> Z.pos (digits2_pos p) = 53.
Proof. intros H. by apply digits2_pos_unique. Qed.

(** A mantissa of 53 bits stays as it is. *)
Lemma round_aux_exact s p e :
  top_bit (Z.pos p) -> -1074 <= e ->
  binary_round_aux 53 1024 s (Z.pos p) e loc_Exact =
    if e <=? 971 then S754_finite s p e else S754_infinity s.
Proof.
  intros Hp%top_bit_digits He. unfold binary_round_aux.
  assert (fexp 53 1024 (Zdigits2 (Z.pos p) + e) <= e) as Hf.
  { cbn [Zdigits2]. rewrite Hp. unfold fexp, emin. lia. }
  rewrite shr_fexp_none by done. cbn [shr_record_of_loc shr_m loc_of_shr_record round_nearest_even].
  by rewrite shr_fexp_none.
Qed.

Lemma top_bit_bounded p e : top_bit (Z.pos p) -> -1074 <= e <= 971 -> bounded 53 1024 p e = true.
Proof.
  intros Hp%top_bit_digits He. unfold bounded, canonical_mantissa. rewrite Hp.
  apply andb_true_iff. split; [apply Z.eqb_eq; unfold fexp, emin; lia|apply Z.leb_le; lia].
Qed.

(** A longer mantissa loses its low bits, and may carry into the next power of two. *)
Lemma round_aux_long s p e :
  53 < Z.pos (digits2_pos p) -> 0 <= e ->
  exists q e', top_bit (Z.pos q) /\ 0 <= e' /\
    binary_round_aux 53 1024 s (Z.pos p) e loc_Exact = if e' <=? 971 then S754_finite s q e' else S754_infinity s.
Proof.
  intros Hd He. pose proof (digits2_pos_bounds p) as [B1 B2]. set (d := Z.pos (digits2_pos p)) in *.
  destruct (d - 53) as [|k|] eqn:Ek; [lia| |lia].
  assert (shr_fexp 53 1024 (Z.pos p) e loc_Exact =
    (SpecFloat.iter_pos shr_1 k {| shr_m := Z.pos p; shr_r := false; shr_s := false |}, e + Z.pos k)) as E.
  { unfold shr_fexp. cbn [Zdigits2]. fold d.
    replace (fexp 53 1024 (d + e) - e) with (Z.pos k) by (unfold fexp, emin; lia). done. }
  unfold binary_round_aux. rewrite E. clear E.
  pose proof (iter_pos_shr k {| shr_m := Z.pos p; shr_r := false; shr_s := false |}) as Hq. cbn [shr_m] in Hq.
  specialize (Hq ltac:(done)). destruct (SpecFloat.iter_pos shr_1 k _) as [q r t]. cbn [shr_m] in Hq |- *.
  assert (top_bit q) as Hqb.
  { subst q. unfold top_bit. replace d with (53 + Z.pos k) in B2 by lia. replace (d - 1) with (52 + Z.pos k) in B1 by lia.
    rewrite Z.pow_add_r in B1, B2 by lia. assert (0 < 2 ^ Z.pos k) by (by apply Z.pow_pos_nonneg).
    split; [apply Z.div_le_lower_bound|apply Z.div_lt_upper_bound]; lia. }
  set (q' := round_nearest_even q _). assert (q' = q \/ q' = q + 1) as Hq'.
  { subst q'. destruct r, t; cbn; auto. case_match; auto. }
  clearbody q'. unfold top_bit in Hqb. destruct (Z.eq_dec q' (2 ^ 53)) as [->|Hne].
  - exists (2 ^ 52)%positive, (e + Z.pos k + 1). split; [done|]. split; [lia|].
    unfold shr_fexp. change (Zdigits2 (2 ^ 53)) with 54.
    replace (fexp 53 1024 (54 + (e + Z.pos k)) - (e + Z.pos k)) with 1 by (unfold fexp, emin; lia). done.
  - destruct q' as [|q'|q']; try lia. exists q', (e + Z.pos k). assert (top_bit (Z.pos q')) by (unfold top_bit; lia).
    split; [done|]. split; [lia|]. rewrite shr_fexp_none; [done|]. cbn [Zdigits2]. rewrite top_bit_digits by done.
    unfold fexp, emin. lia.
Qed.

(** An integer of at most 53 bits is a double exactly; any other rounds to a double or
    overflows. *)
Lemma binary_round_int s p :
  (Z.pos p < 2 ^ 53 /\ exists m e, binary_round 53 1024 s p 0 = S754_finite s m e /\
     is_double (S754_finite s m e) /\ same_value (Z.pos m, e) (Z.pos p, 0)) \/
  (2 ^ 53 <= Z.pos p /\ (binary_round 53 1024 s p 0 = S754_infinity s \/
     exists m e, binary_round 53 1024 s p 0 = S754_finite s m e /\ is_double (S754_finite s m e))).
Proof.
  pose proof (digits2_pos_bounds p) as [B1 B2]. set (d := Z.pos (digits2_pos p)) in *.
  assert (fexp 53 1024 (d + 0) = d - 53) as Hf by (unfold fexp, emin; lia).
  unfold binary_round. fold d. rewrite Hf. destruct (Z.le_gt_cases d 53) as [Hd|Hd].
  - left. split; [eapply Z.lt_le_trans; [exact B2|by apply Z.pow_le_mono_r]|].
    destruct (shl_align_value p 0 (d - 53)) as (m & -> & Hm); [lia|].
    assert (top_bit (Z.pos m)) as Ht.
    { unfold top_bit. rewrite Hm. replace 53 with (d + (0 - (d - 53))) at 3 by lia.
      replace 52 with (d - 1 + (0 - (d - 53))) by lia. rewrite !Z.pow_add_r by lia.
      assert (0 < 2 ^ (0 - (d - 53))) by (apply Z.pow_pos_nonneg; lia). nia. }
    exists m, (d - 53). rewrite round_aux_exact by (done || lia). replace (d - 53 <=? 971) with true by lia.
    split; [done|]. split; [by apply top_bit_bounded; [|lia]|]. unfold same_value. cbn [fst snd].
    rewrite Z.min_l by lia. rewrite Hm, Z.sub_diag, Z.mul_1_r. done.
  - right. split; [eapply Z.le_trans; [|exact B1]; apply Z.pow_le_mono_r; lia|].
    assert (shl_align p 0 (d - 53) = (p, 0)) as -> by (unfold shl_align; destruct (d - 53 - 0) eqn:?; done || lia).
    destruct (round_aux_long s p 0) as (q & e & Hq & He & ->); [done..|].
    destruct (Z.leb_spec e 971); [right|by left]. exists q, e. split; [done|]. by apply top_bit_bounded; [|lia].
Qed.

Lemma float_of_int_double n f : float_of_int n = Ok f -> is_double f /\ exists x, finite_value f = Some x.
Proof.
  unfold float_of_int, binary_normalize. destruct n as [|p|p]; [by intros [= <-]; split; [|eexists]|..].
  - destruct (binary_round_int false p) as [(_ & m & e & -> & H & _)|(_ & [->|(m & e & -> & H)])]; [|done|];
      intros [= <-]; (split; [exact H|by eexists]).
  - destruct (binary_round_int true p) as [(_ & m & e & -> & H & _)|(_ & [->|(m & e & -> & H)])]; [|done|];
      intros [= <-]; (split; [exact H|by eexists]).
Qed.

Lemma float_of_int_exact n : - 2 ^ 53 < n < 2 ^ 53 ->
  exists f x, float_of_int n = Ok f /\ is_double f /\ finite_value f = Some x /\ same_value x (n, 0).
Proof.
  intros Hn. unfold float_of_int, binary_normalize. destruct n as [|p|p]; [by do 2 eexists|..].
  - destruct (binary_round_int false p) as [(_ & m & e & -> & H & Hv)|(Hp & _)]; [|lia].
    eexists _, _. split; [done|]. split; [exact H|]. split; [done|exact Hv].
  - destruct (binary_round_int true p) as [(_ & m & e & -> & H & Hv)|(Hp & _)]; [|lia].
    eexists _, _. split; [done|]. split; [exact H|]. split; [done|]. unfold same_value in *. cbn [fst snd] in *. lia.
Qed.
