(* ===== verification/StatusIndex.v ===== *)
(** [openvc.status._index] (src/src/openvc/status/_index.py): the one rule for a
    status-list index and a status-list size, used by both status conventions. *)
From S2P Require Import Prelude Errors Json Decimal.

(** [MAX_DECOMPRESSED_BYTES] of [_decompress.py]: 16 MiB. *)
Definition MAX_DECOMPRESSED_BYTES : Z := 16 * 1024 * 1024.
Definition MAX_STATUS_INDEX : Z := MAX_DECOMPRESSED_BYTES * 8.

(** [len(str(n))] of a positive number. *)
Fixpoint decimal_length (fuel : nat) (n : Z) : Z :=
  match fuel with
  | O => 0
  | S fuel => if n <? 10 then 1 else 1 + decimal_length fuel (n / 10)
  end.
Definition MAX_DIGITS : Z := decimal_length 64 MAX_STATUS_INDEX.

Definition status_index (value : json) (allow_string capped : bool) : result Z :=
  value ← match value with
          | JStr s =>
              if allow_string then
                raise_if (negb (ascii_digits s)) StatusListError;;
                let digits := significant s in
                raise_if (MAX_DIGITS <? len digits) StatusListError;;
                Ok (decimal_value digits)
              else Err StatusListError
          | JInt n => Ok n
          | _ => Err StatusListError
          end;
  raise_if (value <? 0) StatusListError;;
  raise_if (capped && (MAX_STATUS_INDEX <=? value)) StatusListError;;
  Ok value.

Definition packed_length (size : json) (per_byte : Z) : result Z :=
  size ← match size with JInt n => Ok n | _ => Err StatusListError end;
  raise_if (size <? 0) StatusListError;;
  let length := (size + per_byte - 1) / per_byte in
  raise_if (MAX_DECOMPRESSED_BYTES <? length) StatusListError;;
  Ok length.

Definition locate_status (index : json) (per_byte length : Z) : result (Z * Z) :=
  index ← status_index index false false;
  let byte_index := index / per_byte in
  let position := index mod per_byte in
  raise_if (length <=? byte_index) StatusListError;;
  Ok (byte_index, position).

Example status_index_ex : status_index (JStr ($"00042")) true true = Ok 42.
Proof. vm_compute. reflexivity. Qed.
Example status_index_plus : status_index (JStr ($"+5")) true true = Err StatusListError.
Proof. vm_compute. reflexivity. Qed.
Example status_index_bool : status_index (JBool true) true true = Err StatusListError.
Proof. vm_compute. reflexivity. Qed.

(** A number with more significant digits than the cap has is past it. *)
Lemma significant_long s :
  Forall (fun c => 48 <= c <= 57) s -> MAX_DIGITS < len (significant s) ->
  MAX_STATUS_INDEX <= decimal_value s.
Proof.
  intros Hs Hl. rewrite <-significant_value. change MAX_DIGITS with 9 in Hl. unfold significant in *.
  pose proof (lstrip_zeros_digits s Hs) as Hd.
  destruct (lstrip_zeros s) as [|c d] eqn:E; [unfold len in Hl; simpl in Hl; lia|].
  assert (c <> 48) as Hc.
  { clear -E. induction s as [|c' s IH]; simpl in E; [done|].
    case_match eqn:E'; [auto|]. apply Z.eqb_neq in E'. congruence. }
  apply Forall_cons in Hd as [Hcd Hd].
  rewrite decimal_value_cons. pose proof (decimal_value_bounds d Hd).
  assert (10 ^ 9 <= 10 ^ len d).
  { apply Z.pow_le_mono_r; [lia|]. unfold len in *. simpl in Hl. lia. }
  change MAX_STATUS_INDEX with 134217728. change (10 ^ 9) with 1000000000 in *. nia.
Qed.

(** What an index claim means, if anything: a JSON integer, or (W3C) a string of ASCII
    digits. *)
Definition index_denotes (allow_string : bool) (value : json) (n : Z) : Prop :=
  value = JInt n \/
  (allow_string = true /\ exists s, value = JStr s /\ digit_string s /\ decimal_value s = n).

Lemma status_index_Ok value allow_string n :
  status_index value allow_string true = Ok n <->
  index_denotes allow_string value n /\ 0 <= n < MAX_STATUS_INDEX.
Proof.
  unfold status_index, index_denotes.
  destruct value as [|b|m|f|s|l|d|]; try (cbn; naive_solver).
  - cbn [mbind result_bind]. unfold raise_if.
    destruct (Z.ltb_spec m 0); cbn; [naive_solver lia|].
    destruct (Z.leb_spec MAX_STATUS_INDEX m); cbn; naive_solver lia.
  - destruct allow_string; [|cbn; naive_solver]. unfold raise_if at 1.
    destruct (ascii_digits s) eqn:Ed; cbn [negb mbind result_bind].
    2:{ split; [done|]. intros [[[=]|(_ & s' & [= <-] & Hd & _)] _].
        apply ascii_digits_spec in Hd. congruence. }
    apply ascii_digits_spec in Ed as Hd. destruct Hd as [Hne Hdig].
    unfold raise_if at 1. destruct (Z.ltb_spec MAX_DIGITS (len (significant s))) as [Hl|_].
    { cbn. split; [done|]. apply significant_long in Hl; [|done]. naive_solver lia. }
    cbn [mbind result_bind]. rewrite significant_value.
    pose proof (decimal_value_bounds s Hdig). unfold raise_if. cbn.
    replace (decimal_value s <? 0) with false by lia. cbn.
    destruct (Z.leb_spec MAX_STATUS_INDEX (decimal_value s)); cbn.
    { split; [done|]. intros [[[=]|(_ & s' & [= <-] & _ & <-)] ?]. lia. }
    split; [intros [= <-]|].
    + split; [|lia]. right. split; [done|]. by exists s.
    + intros [[[=]|(_ & s' & [= <-] & _ & <-)] _]. done.
Qed.

Lemma status_index_errs value allow_string capped :
  errs_in (eq StatusListError) (status_index value allow_string capped).
Proof. unfold status_index. destruct value; try destruct allow_string; solve_errs. Qed.

(** The index rule.  An index read off a credential is accepted exactly when it is a JSON
    integer or, where the convention allows it, a non-empty string of ASCII digits
    (leading zeros allowed), whose value addresses a slot of the largest list openvc
    decodes; every other value (a boolean, a float, a sign, white space, another
    script's digits, a number past the end) is a [StatusListError]. *)
Theorem status_index_rule (value : json) (allow_string : bool) :
  (forall n, status_index value allow_string true = Ok n <->
     index_denotes allow_string value n /\ 0 <= n < MAX_STATUS_INDEX) /\
  ((~ exists n, index_denotes allow_string value n /\ 0 <= n < MAX_STATUS_INDEX) ->
     status_index value allow_string true = Err StatusListError).
Proof.
  split; [intros; apply status_index_Ok|]. intros Hno.
  destruct (status_index value allow_string true) as [n|e] eqn:E.
  - apply status_index_Ok in E. exfalso. eauto.
  - by apply status_index_errs in E as <-.
Qed.

Lemma status_index_rule_witness : status_index (JBool true) true true = Err StatusListError.
Proof.
  apply (status_index_rule (JBool true) true).
  intros (n & [[=]|(_ & s & [=] & _)] & _).
Defined.

(** * Locating a status *)

Lemma status_index_uncapped index n :
  status_index index false false = Ok n <-> index = JInt n /\ 0 <= n.
Proof.
  unfold status_index. destruct index; cbn; try naive_solver.
  unfold raise_if. destruct (Z.ltb_spec n0 0); cbn; naive_solver lia.
Qed.

Lemma locate_status_Ok index per_byte length_ b p :
  0 < per_byte ->
  locate_status index per_byte length_ = Ok (b, p) <->
  exists n, index = JInt n /\ 0 <= n < length_ * per_byte /\ b = n / per_byte /\ p = n mod per_byte.
Proof.
  intros Hp. unfold locate_status. rewrite bind_Ok. setoid_rewrite status_index_uncapped.
  split.
  - intros (n & [-> Hn] & H). unfold raise_if in H.
    destruct (Z.leb_spec length_ (n / per_byte)); [done|]. cbn in H. injection H as <- <-.
    exists n. split_and!; try done.
    apply Z.lt_le_trans with (n / per_byte * per_byte + per_byte).
    + pose proof (Z_div_mod_eq_full n per_byte). pose proof (Z.mod_pos_bound n per_byte). nia.
    + nia.
  - intros (n & -> & Hn & -> & ->). exists n. split; [split; [done|lia]|].
    unfold raise_if. assert (n / per_byte < length_) by (apply Z.div_lt_upper_bound; lia).
    destruct (Z.leb_spec length_ (n / per_byte)); [lia|]. done.
Qed.

Lemma locate_status_errs index per_byte length_ :
  errs_in (eq StatusListError) (locate_status index per_byte length_).
Proof.
  unfold locate_status. apply errs_in_bind; [apply status_index_errs|]. intros. solve_errs.
Qed.

(** The packed length is the least number of bytes that holds [size] statuses. *)
Lemma packed_length_Ok size per_byte k :
  0 < per_byte ->
  packed_length size per_byte = Ok k <->
  exists n, size = JInt n /\ 0 <= n /\ k <= MAX_DECOMPRESSED_BYTES /\
    per_byte * (k - 1) < n <= per_byte * k.
Proof.
  intros Hp. unfold packed_length. rewrite bind_Ok. split.
  - intros (n & Hn & H). destruct size; simplify_eq.
    unfold raise_if in H. destruct (Z.ltb_spec n 0); [done|]. cbn in H.
    destruct (Z.ltb_spec MAX_DECOMPRESSED_BYTES ((n + per_byte - 1) / per_byte)); [done|].
    injection H as <-. exists n. split_and!; try done; try lia;
      pose proof (Z_div_mod_eq_full (n + per_byte - 1) per_byte);
      pose proof (Z.mod_pos_bound (n + per_byte - 1) per_byte); nia.
  - intros (n & -> & Hn & Hk & Hb). exists n. split; [done|].
    assert ((n + per_byte - 1) / per_byte = k) as Hkv.
    { symmetry. apply Z.div_unique with (n + per_byte - 1 - per_byte * k); lia. }
    unfold raise_if. destruct (Z.ltb_spec n 0); [lia|]. cbn. rewrite Hkv.
    destruct (Z.ltb_spec MAX_DECOMPRESSED_BYTES k); [lia|]. done.
Qed.
