(* ===== verification/StatusCodec.v ===== *)
(** The two packed status lists: the W3C bitstring of [status/bitstring.py] (one bit per
    status, most significant bit first) and the IETF list of [status/token_status_list.py]
    (1, 2, 4 or 8 bits per status, least significant first), with the bounded inflation of
    [status/_decompress.py] they are read through.

    The abstract specification is an array of statuses: [statuses] of a packed list is that
    array, [new_*] allocates it, [get_*] reads it and [set_*] writes it. *)
From S2P Require Import Prelude Errors Json Base64 StatusIndex.

(** * The operations *)

(** [data[i]] and [data[i] = b] for an index inside the list. *)
Definition byte_at (data : bytes) (i : Z) : Z := nth (Z.to_nat i) data 0.
Definition set_byte (data : bytes) (i : Z) (b : Z) : bytes := <[Z.to_nat i := b]> data.

Definition zeros (n : Z) : bytes := replicate (Z.to_nat n) 0.

Definition new_bitstring (size : json) : result bytes :=
  n ← packed_length size 8; Ok (zeros n).

Definition get_status_bit (bits : bytes) (index : json) : result Z :=
  '(byte_index, bit_index) ← locate_status index 8 (len bits);
  Ok (Z.land (Z.shiftr (byte_at bits byte_index) (7 - bit_index)) 1).

(** [set_status_bit] returns the list as it leaves it. *)
Definition set_status_bit (bits : bytes) (index value : json) : result bytes :=
  '(byte_index, bit_index) ← locate_status index 8 (len bits);
  let mask := Z.shiftl 1 (7 - bit_index) in
  let b := byte_at bits byte_index in
  Ok (set_byte bits byte_index (if truthy value then Z.lor b mask else Z.land b (Z.lnot mask))).

Definition check_bits (bits : json) : result Z :=
  match bits with
  | JInt n => if bool_decide (n ∈ [1; 2; 4; 8]) then Ok n else Err StatusListError
  | _ => Err StatusListError
  end.

Definition new_status_list (size bits : json) : result bytes :=
  bits ← check_bits bits;
  n ← packed_length size (8 / bits);
  Ok (zeros n).

Definition get_status (data : bytes) (index bits : json) : result Z :=
  bits ← check_bits bits;
  let per_byte := 8 / bits in
  '(byte_index, pos) ← locate_status index per_byte (len data);
  let mask := Z.shiftl 1 bits - 1 in
  Ok (Z.land (Z.shiftr (byte_at data byte_index) (pos * bits)) mask).

(** [isinstance(value, int)], where a [bool] is the integer it is. *)
Definition int_value (v : json) : option Z :=
  match v with JInt n => Some n | JBool b => Some (Z.b2z b) | _ => None end.

Definition set_status (data : bytes) (index value bits : json) : result bytes :=
  bits ← check_bits bits;
  index ← status_index index false false;
  let mask := Z.shiftl 1 bits - 1 in
  value ← match int_value value with
          | Some v => if (0 <=? v) && (v <=? mask) then Ok v else Err StatusListError
          | None => Err StatusListError
          end;
  let per_byte := 8 / bits in
  '(byte_index, pos) ← locate_status (JInt index) per_byte (len data);
  let shift := pos * bits in
  Ok (set_byte data byte_index
        (Z.lor (Z.land (byte_at data byte_index) (Z.lnot (Z.shiftl mask shift)))
               (Z.shiftl value shift))).

Example bit_ex : set_status_bit [0; 0] (JInt 9) (JBool true) = Ok [0; 64] /\
                 get_status_bit [0; 64] (JInt 9) = Ok 1.
Proof. vm_compute. done. Qed.
Example status_ex : set_status [0; 0] (JInt 5) (JInt 2) (JInt 2) = Ok [0; 8] /\
                    get_status [0; 8] (JInt 5) (JInt 2) = Ok 2.
Proof. vm_compute. done. Qed.

(** * Fields of a byte *)

(** The [w]-bit field at shift [s]. *)
Definition field (w s b : Z) : Z := Z.land (Z.shiftr b s) (2 ^ w - 1).
Definition with_field (w s v b : Z) : Z :=
  Z.lor (Z.land b (Z.lnot (Z.shiftl (2 ^ w - 1) s))) (Z.shiftl v s).

Lemma testbit_ones w i : 0 <= w -> 0 <= i -> Z.testbit (2 ^ w - 1) i = (i <? w).
Proof.
  intros. replace (2 ^ w - 1) with (Z.ones w) by (rewrite Z.ones_equiv; lia).
  destruct (Z.ltb_spec i w); [by apply Z.ones_spec_low|by apply Z.ones_spec_high].
Qed.

Lemma field_bounds w s b : 0 <= w -> 0 <= field w s b < 2 ^ w.
Proof.
  intros. unfold field. rewrite land_ones_mod by done. apply Z.mod_pos_bound. lia.
Qed.

Lemma field_testbit w s b i :
  0 <= w -> 0 <= s -> 0 <= i -> Z.testbit (field w s b) i = Z.testbit b (i + s) && (i <? w).
Proof.
  intros. unfold field. rewrite Z.land_spec, Z.shiftr_spec, testbit_ones by done. done.
Qed.

Lemma with_field_testbit w s v b i :
  0 <= w -> 0 <= s -> 0 <= v < 2 ^ w -> 0 <= i ->
  Z.testbit (with_field w s v b) i =
    if (s <=? i) && (i <? s + w) then Z.testbit v (i - s) else Z.testbit b i.
Proof.
  intros Hw Hs Hv Hi. unfold with_field.
  rewrite Z.lor_spec, Z.land_spec, Z.lnot_spec, !Z.shiftl_spec by lia.
  destruct (Z.leb_spec s i) as [Hsi|Hsi]; cbn [andb].
  - rewrite testbit_ones by lia. destruct (Z.ltb_spec (i - s) w), (Z.ltb_spec i (s + w)); try lia.
    + by rewrite andb_false_r.
    + rewrite (testbit_small v w (i - s)) by lia. by rewrite andb_true_r, orb_false_r.
  - rewrite !(Z.testbit_neg_r _ (i - s)) by lia. by rewrite andb_true_r, orb_false_r.
Qed.

Lemma field_with_field_same w s v b :
  0 <= w -> 0 <= s -> 0 <= v < 2 ^ w -> field w s (with_field w s v b) = v.
Proof.
  intros Hw Hs Hv. apply Z.bits_inj'. intros i Hi.
  rewrite field_testbit, with_field_testbit by lia.
  replace (s <=? i + s) with true by lia. replace (i + s - s) with i by lia. cbn [andb].
  destruct (Z.ltb_spec i w), (Z.ltb_spec (i + s) (s + w)); try lia.
  - by rewrite andb_true_r.
  - by rewrite (testbit_small v w i), andb_false_r by lia.
Qed.

Lemma field_with_field_other w s s' v b :
  0 <= w -> 0 <= s -> 0 <= s' -> 0 <= v < 2 ^ w -> s + w <= s' \/ s' + w <= s ->
  field w s' (with_field w s v b) = field w s' b.
Proof.
  intros Hw Hs Hs' Hv Hd. apply Z.bits_inj'. intros i Hi.
  rewrite !field_testbit, with_field_testbit by lia.
  destruct (Z.ltb_spec i w); [|by rewrite !andb_false_r].
  by replace ((s <=? i + s') && (i + s' <? s + w)) with false by lia.
Qed.

Lemma with_field_byte w s v b :
  0 <= w -> 0 <= s -> s + w <= 8 -> 0 <= v < 2 ^ w -> is_byte b -> is_byte (with_field w s v b).
Proof.
  intros Hw Hs H8 Hv Hb. unfold is_byte in *.
  assert (0 <= with_field w s v b) as H0.
  { unfold with_field. apply Z.lor_nonneg. split; [apply Z.land_nonneg; lia|].
    apply Z.shiftl_nonneg. lia. }
  split; [done|]. destruct (Z.eq_dec (with_field w s v b) 0) as [->|Hne]; [lia|].
  change 256 with (2 ^ 8). apply Z.log2_lt_pow2; [lia|].
  destruct (Z.lt_ge_cases (Z.log2 (with_field w s v b)) 8) as [|Hge]; [done|].
  pose proof (Z.bit_log2 (with_field w s v b) ltac:(lia)) as Ht.
  rewrite with_field_testbit in Ht by lia.
  replace ((s <=? _) && (_ <? s + w)) with false in Ht by lia.
  rewrite (testbit_small b 8) in Ht by lia. done.
Qed.

Lemma byte_at_ok data i : bytes_ok data -> is_byte (byte_at data i).
Proof.
  intros Hd. unfold byte_at. rewrite nth_lookup.
  destruct (data !! Z.to_nat i) eqn:E; [by eapply Forall_lookup_1|]. done.
Qed.

(** * The array specification *)

(** Where an index points in an array, if it is an index of the array at all. *)
Definition array_index (l : list Z) (index : json) : option nat :=
  match index with
  | JInt i => if (0 <=? i) && (i <? len l) then Some (Z.to_nat i) else None
  | _ => None
  end.
Definition array_get (l : list Z) (index : json) : result Z :=
  match array_index l index with Some i => Ok (nth i l 0) | None => Err StatusListError end.
Definition array_set (l : list Z) (index : json) (v : Z) : result (list Z) :=
  match array_index l index with Some i => Ok (<[i := v]> l) | None => Err StatusListError end.

(** A packing: [p] fields of [w] bits to a byte, the field at position [pos] at shift
    [sh pos]. *)
Section packing.
Context (p w : Z) (sh : Z -> Z).

Definition cell (data : bytes) (i : Z) : Z := field w (sh (i mod p)) (byte_at data (i / p)).
Definition put (data : bytes) (i v : Z) : bytes :=
  set_byte data (i / p) (with_field w (sh (i mod p)) v (byte_at data (i / p))).

(** The abstraction function. *)
Definition statuses (data : bytes) : list Z := cell data <$> seqZ 0 (len data * p).

Context (Hp : 0 < p) (Hw : 0 <= w)
  (Hsh : forall pos, 0 <= pos < p -> 0 <= sh pos /\ sh pos + w <= 8)
  (Hdis : forall pos pos', 0 <= pos < p -> 0 <= pos' < p -> pos <> pos' ->
    sh pos + w <= sh pos' \/ sh pos' + w <= sh pos).

Lemma len_statuses data : len (statuses data) = len data * p.
Proof using Hp. unfold statuses, len. rewrite length_fmap, length_seqZ. lia. Qed.

Lemma statuses_lookup data i :
  0 <= i < len data * p -> statuses data !! Z.to_nat i = Some (cell data i).
Proof using Hp.
  intros Hi. unfold statuses. rewrite list_lookup_fmap.
  rewrite (proj2 (lookup_seqZ 0 (len data * p) (Z.to_nat i) i)) by lia. done.
Qed.

Lemma length_put data i v : length (put data i v) = length data.
Proof using. unfold put, set_byte. apply length_insert. Qed.

Lemma byte_at_put data i v j :
  0 <= i < len data * p -> 0 <= j ->
  byte_at (put data i v) (j / p) =
    if decide (j / p = i / p) then with_field w (sh (i mod p)) v (byte_at data (i / p))
    else byte_at data (j / p).
Proof using Hp.
  intros Hi Hj. unfold put, set_byte, byte_at.
  assert (0 <= i / p < len data) by (split; [apply Z.div_pos|apply Z.div_lt_upper_bound]; lia).
  assert (0 <= j / p) by (apply Z.div_pos; lia).
  rewrite !nth_lookup. case_decide as E.
  - rewrite E, list_lookup_insert_eq; [done|]. unfold len in *. lia.
  - rewrite list_lookup_insert_ne; [done|]. lia.
Qed.

Lemma cell_put data i v j :
  0 <= i < len data * p -> 0 <= j -> 0 <= v < 2 ^ w ->
  cell (put data i v) j = if decide (j = i) then v else cell data j.
Proof using Hp Hw Hsh Hdis.
  intros Hi Hj Hv. unfold cell. rewrite byte_at_put by done.
  assert (0 <= i mod p < p) by (apply Z.mod_pos_bound; lia).
  assert (0 <= j mod p < p) by (apply Z.mod_pos_bound; lia).
  destruct (decide (j = i)) as [->|Hne].
  - rewrite decide_True by done. apply field_with_field_same; [done| |done]. by apply Hsh.
  - case_decide as E; [|done]. rewrite E.
    apply field_with_field_other; [done|apply Hsh; done..|done|]. apply Hdis; [done..|].
    intros Em. apply Hne. rewrite (Z_div_mod_eq_full j p), (Z_div_mod_eq_full i p). congruence.
Qed.

Lemma statuses_put data i v :
  0 <= i < len data * p -> 0 <= v < 2 ^ w ->
  statuses (put data i v) = <[Z.to_nat i := v]> (statuses data).
Proof using Hp Hw Hsh Hdis.
  intros Hi Hv. apply list_eq. intros k.
  assert (len (put data i v) = len data) as Hl by (unfold len; by rewrite length_put).
  destruct (decide (Z.of_nat k < len data * p)) as [Hk|Hk].
  - replace k with (Z.to_nat (Z.of_nat k)) by lia.
    rewrite statuses_lookup, cell_put by (rewrite ?Hl; lia). case_decide as E.
    + rewrite E, list_lookup_insert_eq; [done|].
      pose proof (len_statuses data). unfold len in *. lia.
    + rewrite list_lookup_insert_ne by lia. by rewrite statuses_lookup by lia.
  - rewrite !lookup_ge_None_2; [done|rewrite length_insert|];
      pose proof (len_statuses data); pose proof (len_statuses (put data i v));
      unfold len in *; lia.
Qed.

Lemma put_ok data i v :
  bytes_ok data -> 0 <= i < len data * p -> 0 <= v < 2 ^ w -> bytes_ok (put data i v).
Proof using Hp Hw Hsh.
  intros Hd Hi Hv. unfold put, set_byte. apply Forall_insert; [done|].
  assert (0 <= i mod p < p) by (apply Z.mod_pos_bound; lia).
  assert (0 <= i / p < len data) by (split; [apply Z.div_pos|apply Z.div_lt_upper_bound]; lia).
  apply with_field_byte; [done|by apply Hsh|by apply Hsh|done|].
  by apply byte_at_ok.
Qed.

Lemma statuses_zeros n : 0 <= n -> statuses (zeros n) = replicate (Z.to_nat (n * p)) 0.
Proof using Hp.
  intros Hn. unfold statuses, zeros, len. rewrite length_replicate.
  rewrite Z2Nat.id by done. apply list_eq. intros k. rewrite list_lookup_fmap.
  destruct (decide (Z.of_nat k < n * p)) as [Hk|Hk].
  - rewrite (proj2 (lookup_seqZ 0 (n * p) k (Z.of_nat k))) by lia. simpl.
    rewrite lookup_replicate_2 by lia. f_equal. unfold cell, byte_at.
    replace (nth _ _ 0) with 0; [unfold field; by rewrite Z.shiftr_0_l, Z.land_0_l|].
    rewrite nth_lookup. destruct (replicate _ _ !! _) eqn:E; [|done].
    by apply lookup_replicate in E as [-> _].
  - rewrite !lookup_ge_None_2; [done|..]; rewrite ?length_replicate, ?length_seqZ; lia.
Qed.

(** Locating an index in the bytes is indexing the array. *)
Lemma locate_array data index :
  match array_index (statuses data) index with
  | Some i => index = JInt (Z.of_nat i) /\ 0 <= Z.of_nat i < len data * p /\
              locate_status index p (len data) = Ok (Z.of_nat i / p, Z.of_nat i mod p)
  | None => locate_status index p (len data) = Err StatusListError
  end.
Proof using Hp.
  destruct (array_index (statuses data) index) as [i|] eqn:E; unfold array_index in E;
    rewrite ?len_statuses in E by done.
  - destruct index; try done. case_match eqn:E'; [|done]. injection E as <-.
    apply andb_true_iff in E' as [?%Z.leb_le ?%Z.ltb_lt].
    rewrite Z2Nat.id by done. split_and!; [done..|].
    apply locate_status_Ok; [done|]. by exists n.
  - destruct (locate_status index p (len data)) as [[b pos]|e] eqn:El.
    + apply locate_status_Ok in El as (n & -> & Hn & _); [|done].
      replace ((0 <=? n) && (n <? len data * p)) with true in E by lia. done.
    + by apply locate_status_errs in El as <-.
Qed.

Lemma nth_statuses data i :
  Z.of_nat i < len data * p -> nth i (statuses data) 0 = cell data (Z.of_nat i).
Proof using Hp.
  intros Hi. rewrite nth_lookup. replace i with (Z.to_nat (Z.of_nat i)) at 1 by lia.
  by rewrite statuses_lookup by lia.
Qed.
End packing.

(** * The W3C bitstring *)

Definition bit_statuses : bytes -> list Z := statuses 8 1 (fun pos => 7 - pos).
Definition token_statuses (w : Z) : bytes -> list Z := statuses (8 / w) w (fun pos => pos * w).

Lemma set_bit_field s b : 0 <= s -> Z.lor b (Z.shiftl 1 s) = with_field 1 s 1 b.
Proof.
  intros Hs. unfold with_field. change (2 ^ 1 - 1) with 1. apply Z.bits_inj'. intros i Hi.
  rewrite !Z.lor_spec, Z.land_spec, Z.lnot_spec by done.
  by destruct (Z.testbit b i), (Z.testbit (Z.shiftl 1 s) i).
Qed.

Lemma clear_bit_field s b : Z.land b (Z.lnot (Z.shiftl 1 s)) = with_field 1 s 0 b.
Proof.
  unfold with_field. change (2 ^ 1 - 1) with 1. by rewrite Z.shiftl_0_l, Z.lor_0_r.
Qed.

(** Reading, writing and locating against one packing. *)
Ltac use_locate H :=
  match type of H with
  | context [array_index ?l ?i] => destruct (array_index l i) as [k|] eqn:Ek
  end; [destruct H as (-> & Hk & H)|]; rewrite H; cbn [mbind result_bind].

Lemma get_status_bit_array bits index :
  get_status_bit bits index = array_get (bit_statuses bits) index.
Proof.
  unfold get_status_bit, array_get, bit_statuses.
  pose proof (locate_array 8 1 (fun pos => 7 - pos) ltac:(lia) bits index) as H. use_locate H; [|done].
  by rewrite nth_statuses by lia.
Qed.

Lemma set_status_bit_array bits index value :
  match set_status_bit bits index value with
  | Ok bits' => array_set (bit_statuses bits) index (Z.b2z (truthy value)) = Ok (bit_statuses bits')
                /\ (bytes_ok bits -> bytes_ok bits') /\ length bits' = length bits
  | Err e => array_set (bit_statuses bits) index (Z.b2z (truthy value)) = Err e
  end.
Proof.
  unfold set_status_bit, array_set, bit_statuses.
  pose proof (locate_array 8 1 (fun pos => 7 - pos) ltac:(lia) bits index) as H. use_locate H; [|done].
  assert (0 <= Z.of_nat k mod 8 < 8) by (apply Z.mod_pos_bound; lia).
  set (v := Z.b2z (truthy value)). set (b := byte_at bits (Z.of_nat k / 8)).
  assert (0 <= v < 2 ^ 1) by (subst v; destruct (truthy value); done).
  replace (if truthy value then _ else _) with (with_field 1 (7 - Z.of_nat k mod 8) v b).
  2:{ subst v. destruct (truthy value); simpl Z.b2z.
      - symmetry. apply set_bit_field. lia.
      - symmetry. apply clear_bit_field. }
  change (set_byte bits (Z.of_nat k / 8) _) with (put 8 1 (fun pos => 7 - pos) bits (Z.of_nat k) v).
  rewrite statuses_put by lia. rewrite Nat2Z.id. split_and!; [done| |apply length_put].
  intros Hb. apply put_ok; [lia..| |lia|lia]. done.
Qed.

(** The W3C bitstring implements an array of bits, most significant bit first.
    [new_bitstring] allocates an array of clear bits with room for the size asked for,
    [get_status_bit] reads the slot an index names and [set_status_bit] writes that slot
    and no other, keeping the length and the bytes in range; an index that is not a
    non-negative integer inside the array is a [StatusListError] in both. *)
Theorem bitstring_refines_array :
  (forall size bits, new_bitstring size = Ok bits ->
     exists n, size = JInt n /\ 0 <= n <= len bits * 8 /\
       bit_statuses bits = replicate (Z.to_nat (len bits * 8)) 0) /\
  (forall bits index, get_status_bit bits index = array_get (bit_statuses bits) index) /\
  (forall bits index value,
     match set_status_bit bits index value with
     | Ok bits' => array_set (bit_statuses bits) index (Z.b2z (truthy value)) = Ok (bit_statuses bits')
                   /\ (bytes_ok bits -> bytes_ok bits') /\ length bits' = length bits
     | Err e => array_set (bit_statuses bits) index (Z.b2z (truthy value)) = Err e
     end).
Proof.
  split; [|split; [apply get_status_bit_array|apply set_status_bit_array]].
  intros size bits. unfold new_bitstring. rewrite bind_Ok. intros (n & Hn & [= <-]).
  apply packed_length_Ok in Hn as (m & -> & Hm & Hcap & Hb); [|lia].
  assert (len (zeros n) = n) as Hl by (unfold len, zeros; rewrite length_replicate; lia).
  exists m. rewrite Hl. split_and!; [done|lia|lia|]. apply statuses_zeros; lia.
Qed.

Lemma bitstring_refines_array_witness :
  exists n, JInt 9 = JInt n /\ 0 <= n <= len [0; 0] * 8 /\
    bit_statuses [0; 0] = replicate (Z.to_nat (len [0; 0] * 8)) 0.
Proof. apply bitstring_refines_array. vm_compute. reflexivity. Defined.

(** * The IETF token status list *)

Definition valid_width (w : Z) : Prop := w ∈ [1; 2; 4; 8].

Lemma check_bits_Ok bits w : check_bits bits = Ok w <-> bits = JInt w /\ valid_width w.
Proof. unfold check_bits, valid_width. destruct bits; try case_bool_decide; naive_solver. Qed.

Lemma check_bits_errs bits : errs_in (eq StatusListError) (check_bits bits).
Proof. unfold check_bits. solve_errs. Qed.

Lemma valid_width_geometry w :
  valid_width w ->
  0 < w /\ 0 < 8 / w /\ (8 / w) * w = 8 /\ Z.shiftl 1 w - 1 = 2 ^ w - 1.
Proof.
  unfold valid_width. rewrite !elem_of_cons, elem_of_nil.
  intros [->|[->|[->|[->|[]]]]]; vm_compute; done.
Qed.

Lemma token_shifts w :
  valid_width w ->
  (forall pos, 0 <= pos < 8 / w -> 0 <= pos * w /\ pos * w + w <= 8) /\
  (forall pos pos', 0 <= pos < 8 / w -> 0 <= pos' < 8 / w -> pos <> pos' ->
     pos * w + w <= pos' * w \/ pos' * w + w <= pos * w).
Proof. intros (? & ? & ? & _)%valid_width_geometry. split; intros; [split|]; nia. Qed.

Lemma get_status_array data index bits w :
  check_bits bits = Ok w ->
  get_status data index bits = array_get (token_statuses w data) index.
Proof.
  intros Hc. unfold get_status. rewrite Hc. cbn [mbind result_bind].
  apply check_bits_Ok in Hc as [-> Hw]. apply valid_width_geometry in Hw as (? & ? & ? & ->).
  unfold array_get, token_statuses.
  pose proof (locate_array (8 / w) w (fun pos => pos * w) ltac:(lia) data index) as H'.
  use_locate H'; [|done]. by rewrite nth_statuses by lia.
Qed.

(** The value a write stores, if it fits. *)
Definition status_value (w : Z) (value : json) : option Z :=
  match int_value value with
  | Some v => if (0 <=? v) && (v <? 2 ^ w) then Some v else None
  | None => None
  end.

Lemma set_status_array data index value bits w :
  check_bits bits = Ok w ->
  let spec := match status_value w value with
              | Some v => array_set (token_statuses w data) index v
              | None => Err StatusListError
              end in
  match set_status data index value bits with
  | Ok data' => spec = Ok (token_statuses w data') /\
                (bytes_ok data -> bytes_ok data') /\ length data' = length data
  | Err e => spec = Err e
  end.
Proof.
  intros Hc. unfold set_status. rewrite Hc. cbn [mbind result_bind].
  apply check_bits_Ok in Hc as [-> Hw]. pose proof (token_shifts w Hw) as [Hs1 Hs2].
  apply valid_width_geometry in Hw as (? & ? & ? & Hm). rewrite Hm.
  unfold array_set, token_statuses.
  pose proof (locate_array (8 / w) w (fun pos => pos * w) ltac:(lia) data index) as H'.
  destruct (status_index index false false) as [i|e] eqn:Ei; cbn [mbind result_bind].
  2:{ apply status_index_errs in Ei as Ee. subst e. destruct (array_index _ _) eqn:Ek.
      - destruct H' as (-> & ? & _). unfold status_index in Ei.
        cbn [mbind result_bind] in Ei. unfold raise_if in Ei.
        replace (Z.of_nat n <? 0) with false in Ei by lia. done.
      - by destruct (status_value w value). }
  apply status_index_uncapped in Ei as [-> Hi]. unfold status_value.
  destruct (int_value value) as [v|]; cbn [mbind result_bind]; [|done].
  replace (v <=? 2 ^ w - 1) with (v <? 2 ^ w) by (destruct (Z.ltb_spec v (2 ^ w)); lia).
  destruct ((0 <=? v) && (v <? 2 ^ w)) eqn:Ev; cbn [mbind result_bind]; [|done].
  use_locate H'; [|done].
  change (set_byte data (Z.of_nat k / (8 / w)) _)
    with (put (8 / w) w (fun pos => pos * w) data (Z.of_nat k) v).
  rewrite statuses_put by (done || lia). rewrite Nat2Z.id.
  split_and!; [done| |apply length_put]. intros Hb. apply put_ok; (done || lia).
Qed.

(** The IETF token status list implements an array of [w]-bit statuses, for each of the
    four widths.  [new_status_list] allocates one of zeros with room for the size asked
    for, [get_status] reads a slot, [set_status] writes one slot and no other with a value
    that fits the width; a value that does not fit, an index outside the list, and any
    other width are a [StatusListError]. *)
Theorem token_status_refines_array (bits : json) :
  match check_bits bits with
  | Err e => e = StatusListError /\
      (forall size, new_status_list size bits = Err e) /\
      (forall data index, get_status data index bits = Err e) /\
      (forall data index value, set_status data index value bits = Err e)
  | Ok w =>
      (forall size data, new_status_list size bits = Ok data ->
         exists n, size = JInt n /\ 0 <= n <= len data * (8 / w) /\
           token_statuses w data = replicate (Z.to_nat (len data * (8 / w))) 0) /\
      (forall data index, get_status data index bits = array_get (token_statuses w data) index) /\
      (forall data index value,
         let spec := match status_value w value with
                     | Some v => array_set (token_statuses w data) index v
                     | None => Err StatusListError
                     end in
         match set_status data index value bits with
         | Ok data' => spec = Ok (token_statuses w data') /\
                       (bytes_ok data -> bytes_ok data') /\ length data' = length data
         | Err e => spec = Err e
         end)
  end.
Proof.
  destruct (check_bits bits) as [w|e] eqn:Hc.
  - split; [|split; intros; [by apply get_status_array|by apply set_status_array]].
    intros size data. unfold new_status_list. rewrite Hc. cbn [mbind result_bind].
    apply check_bits_Ok in Hc as [-> Hw]. apply valid_width_geometry in Hw as (? & ? & ? & _).
    rewrite bind_Ok. intros (n & Hn & [= <-]).
    apply packed_length_Ok in Hn as (m & -> & Hm & Hcap & Hb); [|lia].
    assert (0 <= n) by nia.
    assert (len (zeros n) = n) as Hl by (unfold len, zeros; rewrite length_replicate; lia).
    exists m. rewrite Hl. split_and!; [done|lia|lia|]. apply statuses_zeros; lia.
  - apply check_bits_errs in Hc as He. subst e.
    unfold new_status_list, get_status, set_status. by rewrite Hc.
Qed.

Lemma token_status_refines_array_witness :
  exists n, JInt 5 = JInt n /\ 0 <= n <= len [0; 0] * (8 / 2) /\
    token_statuses 2 [0; 0] = replicate (Z.to_nat (len [0; 0] * (8 / 2))) 0.
Proof.
  apply (proj1 (token_status_refines_array (JInt 2)) (JInt 5) [0; 0]). vm_compute. reflexivity.
Defined.

(** * Bounded inflation ([status/_decompress.py]) *)

Definition CHUNK : Z := 65536.

(** A [zlib.decompressobj]: [decompress d data n] is the chunk it returns, the
    [unconsumed_tail] it leaves and the object afterwards. *)
Record zlib_object := {
  zstate : Type;
  decompressobj : zstate;
  decompress : zstate -> bytes -> Z -> result (bytes * bytes * zstate);
  flush : zstate -> result bytes;
}.

(** What the [zlib] documentation promises of it: at most [n] bytes a call, no input held
    back unless output was produced, and the pieces add up to what the stream holds. *)
Class zlib_laws (z : zlib_object) (output : zstate z -> bytes -> bytes) := {
  decompress_chunk d data n chunk tail d' : 0 < n ->
    decompress z d data n = Ok (chunk, tail, d') -> len chunk <= n;
  decompress_tail d data n chunk tail d' : 0 < n ->
    decompress z d data n = Ok (chunk, tail, d') -> tail <> [] -> chunk <> [];
  decompress_output d data n chunk tail d' : 0 < n ->
    decompress z d data n = Ok (chunk, tail, d') -> output d data = chunk ++ output d' tail;
  decompress_flush d out : flush z d = Ok out -> output d [] = out;
}.

(** The [while True] loop; [None] is a loop still running when the fuel is spent. *)
Fixpoint inflate_loop (z : zlib_object) (fuel : nat) (d : zstate z) (to_feed out : bytes)
    (max_out : Z) : option (result bytes) :=
  match fuel with
  | O => None
  | S fuel =>
      match decompress z d to_feed CHUNK with
      | Err e => Some (Err e)
      | Ok (chunk, unconsumed_tail, d) =>
          let out := out ++ chunk in
          if max_out <? len out then Some (Err DecompressionBomb)
          else match unconsumed_tail, chunk with
               | _ :: _, _ => inflate_loop z fuel d unconsumed_tail out max_out
               | [], _ :: _ => inflate_loop z fuel d [] out max_out
               | [], [] =>
                   Some (last ← flush z d;
                         let out := out ++ last in
                         raise_if (max_out <? len out) DecompressionBomb;;
                         Ok out)
               end
      end
  end.

Definition inflate_bounded (z : zlib_object) (data : bytes) (max_out : Z) : option (result bytes) :=
  inflate_loop z (S (S (Z.to_nat max_out))) (decompressobj z) data [] max_out.

Lemma len_nonneg {A} (l : list A) : 0 <= len l.
Proof. unfold len. lia. Qed.

Lemma len_app {A} (l k : list A) : len (l ++ k) = len l + len k.
Proof. unfold len. rewrite length_app. lia. Qed.

Lemma len_cons {A} (x : A) l : len (x :: l) = 1 + len l.
Proof. unfold len. simpl. lia. Qed.

Lemma CHUNK_pos : 0 < CHUNK.
Proof. reflexivity. Qed.

Section inflate.
Context (z : zlib_object) (output : zstate z -> bytes -> bytes) `{!zlib_laws z output}.

(** Each further round has appended a byte, so the ceiling bounds the rounds. *)
Lemma inflate_loop_total fuel d to_feed out max_out :
  len out <= max_out -> max_out - len out + 1 < Z.of_nat fuel ->
  exists r, inflate_loop z fuel d to_feed out max_out = Some r.
Proof using All.
  revert d to_feed out. induction fuel as [|fuel IH]; intros d to_feed out Ho Hf; [lia|].
  simpl. destruct (decompress z d to_feed CHUNK) as [[[chunk tail] d']|e] eqn:Ed; [|by eexists].
  pose proof (decompress_tail (output:=output) _ _ _ _ _ _ CHUNK_pos Ed) as Ht.
  destruct (Z.ltb_spec max_out (len (out ++ chunk))) as [|Hle]; [by eexists|].
  rewrite len_app in Hle.
  assert (chunk <> [] -> exists r, inflate_loop z fuel d' tail (out ++ chunk) max_out = Some r) as Hgo.
  { intros Hne. apply IH; rewrite len_app; [lia|]. destruct chunk; [done|].
    rewrite len_cons in *. pose proof (len_nonneg chunk). lia. }
  destruct tail, chunk; eauto.
Qed.

Lemma inflate_loop_spec fuel d to_feed out max_out r :
  inflate_loop z fuel d to_feed out max_out = Some r ->
  match r with
  | Ok res => res = out ++ output d to_feed /\ len res <= max_out
  | Err e => e = DecompressionBomb /\ max_out < len (out ++ output d to_feed) \/
             (exists d' data, decompress z d' data CHUNK = Err e) \/ (exists d', flush z d' = Err e)
  end.
Proof using All.
  revert d to_feed out. induction fuel as [|fuel IH]; intros d to_feed out; [done|].
  simpl. destruct (decompress z d to_feed CHUNK) as [[[chunk tail] d']|e] eqn:Ed.
  2:{ intros [= <-]. right. left. by do 2 eexists. }
  rewrite (decompress_output (output:=output) _ _ _ _ _ _ CHUNK_pos Ed), (assoc_L (++)).
  destruct (Z.ltb_spec max_out (len (out ++ chunk))) as [Hgt|Hle].
  { intros [= <-]. left. split; [done|]. rewrite len_app. pose proof (len_nonneg (output d' tail)). lia. }
  destruct tail as [|t tail], chunk as [|c chunk]; try apply IH.
  intros [= <-]. destruct (flush z d') as [l|e] eqn:Ef; cbn; [|by right; right; eexists].
  apply (decompress_flush (output:=output)) in Ef as ->. unfold raise_if.
  destruct (Z.ltb_spec max_out (len ((out ++ []) ++ l))); cbn; [by left|]. split; [done|lia].
Qed.
End inflate.

(** Bounded inflation.  Over any [zlib] object that keeps the documented contract, the
    inflation loop ends, whatever the compressed input; it returns the whole decompressed
    stream and never more than [max_out] bytes of it; and it raises
    [DecompressionBomb] only when the stream really is longer, any other failure being
    one [zlib] raised. *)
Theorem inflate_bounded_spec (z : zlib_object) (output : zstate z -> bytes -> bytes)
    (Hz : zlib_laws z output) (data : bytes) (max_out : Z) (Hmax : 0 <= max_out) :
  exists r, inflate_bounded z data max_out = Some r /\
    match r with
    | Ok out => out = output (decompressobj z) data /\ len out <= max_out
    | Err e => e = DecompressionBomb /\ max_out < len (output (decompressobj z) data) \/
               (exists d' data', decompress z d' data' CHUNK = Err e) \/ (exists d', flush z d' = Err e)
    end.
Proof.
  destruct (inflate_loop_total z output (S (S (Z.to_nat max_out))) (decompressobj z) data [] max_out)
    as [r Hr]; [done|unfold len; simpl length; lia|].
  exists r. split; [done|]. by apply (inflate_loop_spec z output) in Hr.
Qed.

(** A stream that stores its data: what has not been handed out is kept inside. *)
Definition stored_zlib : zlib_object := {|
  zstate := bytes; decompressobj := [];
  decompress d data n := Ok (take (Z.to_nat n) (d ++ data), [], drop (Z.to_nat n) (d ++ data));
  flush d := Ok d |}.

#[export] Instance stored_zlib_laws : zlib_laws stored_zlib (fun d data => d ++ data).
Proof.
  split; simpl; intros; simplify_eq; try done.
  - unfold len. rewrite length_take. lia.
  - by rewrite app_nil_r, take_drop.
  - by rewrite app_nil_r.
Qed.

Lemma inflate_bounded_spec_witness :
  exists r, inflate_bounded stored_zlib [1; 2; 3] 2 = Some r /\
    match r with
    | Ok out => out = [1; 2; 3] /\ len out <= 2
    | Err e => e = DecompressionBomb /\ 2 < len [1; 2; 3] \/
        (exists d' data', decompress stored_zlib d' data' CHUNK = Err e) \/
        (exists d', flush stored_zlib d' = Err e)
    end.
Proof. apply (inflate_bounded_spec stored_zlib _ stored_zlib_laws); lia. Defined.
