(* ===== verification/StatusCheck.v ===== *)
(** The verifier side of both status lists, [status/status_list.py] and the second half of
    [status/token_status_list.py], with the pointers [status/issue.py] builds for them.
    The compression libraries and the caller's resolvers are parameters. *)
From S2P Require Import Prelude Errors Json Base64 Decimal StatusIndex StatusCodec.

(** * The codecs *)

Section codec.
(** [GzipFile(...).read(n)] of a compressed stream, and [gzip.compress]. *)
Context (gzip_read : bytes -> Z -> result bytes) (gzip_compress : bytes -> bytes).
(** A [zlib] decompressor, and [zlib.compress]. *)
Context (z : zlib_object) (zlib_compress : bytes -> bytes).

Definition gunzip_bounded (data : bytes) (max_out : Z) : result bytes :=
  out ← gzip_read data (max_out + 1);
  raise_if (max_out <? len out) DecompressionBomb;;
  Ok out.

Definition value_or_type_error (e : exn) : bool := isinstance e ValueError || isinstance e TypeError.
Definition gunzip_error (e : exn) : bool :=
  isinstance e OSError || isinstance e EOFError || isinstance e ZlibError || isinstance e DecompressionBomb.

Definition decode_bitstring (encoded_list : pystr) : result bytes :=
  let encoded_list := match encoded_list with c :: rest => if c =? 117 then rest else encoded_list
                                            | [] => [] end in
  compressed ← catch_as value_or_type_error StatusListError (b64url_decode encoded_list);
  catch_as gunzip_error StatusListError (gunzip_bounded compressed MAX_DECOMPRESSED_BYTES).

Definition encode_bitstring (bits : bytes) : pystr := 117 :: b64url_encode (gzip_compress bits).

Definition inflate_error (e : exn) : bool := isinstance e ZlibError || isinstance e DecompressionBomb.

Definition decode_status_list (lst : pystr) : result bytes :=
  compressed ← catch_as value_or_type_error StatusListError (b64url_decode lst);
  catch_as inflate_error StatusListError
    (default (Err RuntimeError) (inflate_bounded z compressed MAX_DECOMPRESSED_BYTES)).

Definition encode_status_list (data : bytes) : pystr := b64url_encode (zlib_compress data).

(** * The W3C entries *)

Definition BITSTRING_ENTRY_TYPE : pystr := $"BitstringStatusListEntry".
(** The iteration order of a set of strings is the interpreter's; nothing reads which of the
    two types comes first. *)
Definition ENTRY_TYPES : list pystr := [BITSTRING_ENTRY_TYPE; $"StatusList2021Entry"].
Definition PURPOSE_REVOCATION : pystr := $"revocation".
Definition PURPOSE_SUSPENSION : pystr := $"suspension".

Record StatusEntry := {
  status_list_credential : pystr;
  index : Z;
  purpose : pystr;
  entry_type : pystr;
}.
Record StatusEntryResult := { entry : StatusEntry; is_set : bool }.
Record StatusResult := { revoked : bool; suspended : bool; entries : list StatusEntryResult }.

Definition as_entry_list (raw : json) : result (list jobject) :=
  match raw with
  | JNull => Ok []
  | JDict d => Ok [d]
  | JList l => mapR (fun e => match e with JDict d => Ok d | _ => Err StatusListError end) l
  | _ => Err StatusListError
  end.

(** [_ENTRY_TYPES.intersection(t for t in types if isinstance(t, str))]. *)
Definition matched_types (types : json) : list pystr :=
  let types := match types with
               | JStr s => [s]
               | JList l => omap as_str l
               | _ => []
               end in
  filter (fun t => t ∈ types) ENTRY_TYPES.

(** One round of the loop: [None] is [continue]. *)
Definition parse_status_entry (raw : jobject) : result (option StatusEntry) :=
  let types := jget raw ($"type") in
  raise_if (match types with JNull | JStr [] | JList [] => true | _ => false end) StatusListError;;
  match matched_types types with
  | [] => Ok None
  | t :: _ =>
      let url := jget raw ($"statusListCredential") in
      let idx := jget raw ($"statusListIndex") in
      raise_if (negb (truthy url) || is_none idx) StatusListError;;
      url ← match url with JStr s => Ok s | _ => Err StatusListError end;
      purpose ← match default (JStr PURPOSE_REVOCATION) (dget raw ($"statusPurpose")) with
                | JStr s => Ok s | _ => Err StatusListError
                end;
      index ← status_index idx true true;
      Ok (Some {| status_list_credential := url; index := index; purpose := purpose;
                  entry_type := t |})
  end.

Definition parse_status_entries (credential : jobject) : result (list StatusEntry) :=
  raws ← as_entry_list (jget credential ($"credentialStatus"));
  parsed ← mapR parse_status_entry raws;
  Ok (omap (M:=list) id parsed).

Definition encoded_list_of (status_vc : json) (entry : StatusEntry) : result pystr :=
  match status_vc with
  | JDict vc =>
      match jget vc ($"credentialSubject") with
      | JDict subject =>
          let list_purpose := jget subject ($"statusPurpose") in
          raise_if (truthy list_purpose && negb (eq_str list_purpose (purpose entry))) StatusListError;;
          match jget subject ($"encodedList") with
          | JStr encoded => raise_if (bool_decide (encoded = [])) StatusListError;; Ok encoded
          | _ => Err StatusListError
          end
      | _ => Err StatusListError
      end
  | _ => Err StatusListError
  end.

Definition read_status_bit (status_vc : json) (entry : StatusEntry) : result StatusEntryResult :=
  encoded ← encoded_list_of status_vc entry;
  bits ← decode_bitstring encoded;
  b ← get_status_bit bits (JInt (index entry));
  Ok {| entry := entry; is_set := negb (b =? 0) |}.

Definition tally_status (results : list StatusEntryResult) : StatusResult :=
  let any p := existsb (fun r => is_set r && bool_decide (purpose (entry r) = p)) results in
  {| revoked := any PURPOSE_REVOCATION; suspended := any PURPOSE_SUSPENSION; entries := results |}.

(** The caller's [resolve_status_list] fetches and verifies; it may raise anything. *)
Definition check_credential_status (credential : jobject)
    (resolve_status_list : pystr -> result json) : result StatusResult :=
  es ← parse_status_entries credential;
  results ← mapR (fun e => vc ← resolve_status_list (status_list_credential e);
                           read_status_bit vc e) es;
  Ok (tally_status results).

(** * The IETF reference *)

Record TokenStatusRef := { uri : pystr; ref_index : Z }.
Record TokenStatusResult := {
  ref : TokenStatusRef; status : Z; token_revoked : bool; token_suspended : bool }.

Definition STATUS_INVALID : Z := 1.
Definition STATUS_SUSPENDED : Z := 2.

Definition parse_token_status_ref (claims : jobject) : result (option TokenStatusRef) :=
  match jget claims ($"status") with
  | JDict status =>
      match jget status ($"status_list") with
      | JDict ref =>
          let uri := jget ref ($"uri") in
          let idx := jget ref ($"idx") in
          raise_if (negb (truthy uri) || is_none idx) StatusListError;;
          uri ← match uri with JStr s => Ok s | _ => Err StatusListError end;
          index ← status_index idx false true;
          Ok (Some {| uri := uri; ref_index := index |})
      | _ => Ok None
      end
  | _ => Ok None
  end.

Definition status_list_claim (token_claims : json) : result (Z * pystr) :=
  match token_claims with
  | JDict claims =>
      match jget claims ($"status_list") with
      | JDict sl =>
          match jget sl ($"bits"), jget sl ($"lst") with
          | JInt bits, JStr lst => Ok (bits, lst)
          | _, _ => Err StatusListError
          end
      | _ => Err StatusListError
      end
  | _ => Err StatusListError
  end.

Definition token_status_result (ref : TokenStatusRef) (token_claims : json) : result TokenStatusResult :=
  '(bits, lst) ← status_list_claim token_claims;
  data ← decode_status_list lst;
  value ← get_status data (JInt (ref_index ref)) (JInt bits);
  Ok {| ref := ref; status := value; token_revoked := value =? STATUS_INVALID;
        token_suspended := value =? STATUS_SUSPENDED |}.

Definition check_token_status (claims : jobject)
    (resolve_status_list_token : pystr -> result json) : result (option TokenStatusResult) :=
  ref ← parse_token_status_ref claims;
  match ref with
  | None => Ok None
  | Some ref => token_claims ← resolve_status_list_token (uri ref);
                r ← token_status_result ref token_claims; Ok (Some r)
  end.

(** * The pointers an issuer embeds ([status/issue.py]) *)

(** [_text]: a non-empty string. *)
Definition text (value : json) : result pystr :=
  match value with
  | JStr s => raise_if (bool_decide (s = [])) StatusListError;; Ok s
  | _ => Err StatusListError
  end.

Definition build_status_list_entry (status_list_credential index status_purpose id : json) : result jobject :=
  index ← status_index index false true;
  url ← text status_list_credential;
  status_purpose ← text status_purpose;
  id ← match id with JNull => Ok None | _ => i ← text id; Ok (Some i) end;
  let entry := [($"type", JStr BITSTRING_ENTRY_TYPE); ($"statusPurpose", JStr status_purpose);
                ($"statusListIndex", JStr (str_of_int index)); ($"statusListCredential", JStr url)] in
  Ok (match id with Some i => entry ++ [($"id", JStr i)] | None => entry end).

Definition build_token_status_reference (uri index : json) : result jobject :=
  idx ← status_index index false true;
  uri ← text uri;
  Ok [($"status", JDict [($"status_list", JDict [($"idx", JInt idx); ($"uri", JStr uri)])])].
End codec.

Lemma array_get_JInt l n v : array_get l (JInt n) = Ok v <-> 0 <= n /\ l !! Z.to_nat n = Some v.
Proof.
  unfold array_get, array_index. destruct ((0 <=? n) && (n <? len l)) eqn:E.
  - apply andb_true_iff in E as [?%Z.leb_le Hl%Z.ltb_lt]. rewrite nth_lookup.
    destruct (l !! Z.to_nat n) eqn:El; [cbn; naive_solver|].
    apply lookup_ge_None in El. unfold len in Hl. lia.
  - split; [done|]. intros [? Hl]. apply lookup_lt_Some in Hl. unfold len in E. lia.
Qed.

Lemma as_entry_list_errs raw : errs_in (eq StatusListError) (as_entry_list raw).
Proof.
  unfold as_entry_list. destruct raw; try solve_errs. apply mapR_errs_in. intros; solve_errs.
Qed.

Lemma text_Ok value s : text value = Ok s <-> value = JStr s /\ s <> [].
Proof.
  unfold text. destruct value; try naive_solver. rewrite bind_Ok. split.
  - intros (u & H%raise_if_Ok & [= <-]). by apply bool_decide_eq_false in H.
  - intros [[= ->] Hne]. exists tt. split; [|done]. apply raise_if_Ok. by apply bool_decide_eq_false.
Qed.

(** * What a check reads *)

Section check.
Context (gzip_read : bytes -> Z -> result bytes) (resolve : pystr -> result json).

(** The bit a recognised member of [credentialStatus] points at, and its purpose: the
    member's own URL, index and purpose, in the list the resolver returned. *)
Definition entry_reads (raw : jobject) (p : pystr) (b : Z) : Prop :=
  exists url n vc subject enc bits,
    jget raw ($"statusListCredential") = JStr url /\
    index_denotes true (jget raw ($"statusListIndex")) n /\ 0 <= n < MAX_STATUS_INDEX /\
    default (JStr PURPOSE_REVOCATION) (dget raw ($"statusPurpose")) = JStr p /\
    resolve url = Ok (JDict vc) /\ jget vc ($"credentialSubject") = JDict subject /\
    (truthy (jget subject ($"statusPurpose")) = true -> eq_str (jget subject ($"statusPurpose")) p = true) /\
    jget subject ($"encodedList") = JStr enc /\
    decode_bitstring gzip_read enc = Ok bits /\ bit_statuses bits !! Z.to_nat n = Some b.

Lemma parse_status_entry_Ok raw o :
  parse_status_entry raw = Ok o ->
  match o with
  | None => matched_types (jget raw ($"type")) = []
  | Some e =>
      matched_types (jget raw ($"type")) <> [] /\
      jget raw ($"statusListCredential") = JStr (status_list_credential e) /\
      default (JStr PURPOSE_REVOCATION) (dget raw ($"statusPurpose")) = JStr (purpose e) /\
      index_denotes true (jget raw ($"statusListIndex")) (index e) /\ 0 <= index e < MAX_STATUS_INDEX
  end.
Proof using.
  unfold parse_status_entry. intros H. apply bind_Ok in H as (? & _ & H).
  destruct (matched_types _) eqn:Em; [by injection H as <-|].
  apply bind_Ok in H as (? & _ & H). apply bind_Ok in H as (url & Hu & H).
  apply bind_Ok in H as (p & Hp & H). apply bind_Ok in H as (n & Hn & [= <-]).
  apply status_index_Ok in Hn as [Hn Hb]. cbn.
  destruct (jget raw ($"statusListCredential")); simplify_eq.
  destruct (default _ _); simplify_eq. done.
Qed.

Lemma encoded_list_of_Ok vc e enc :
  encoded_list_of vc e = Ok enc ->
  exists d subject, vc = JDict d /\ jget d ($"credentialSubject") = JDict subject /\
    (truthy (jget subject ($"statusPurpose")) = true ->
     eq_str (jget subject ($"statusPurpose")) (purpose e) = true) /\
    jget subject ($"encodedList") = JStr enc.
Proof using.
  unfold encoded_list_of. destruct vc as [| | | | | |d|]; try done.
  destruct (jget d _) as [| | | | | |subject|] eqn:Es; try done. intros H.
  apply bind_Ok in H as (? & Hp%raise_if_Ok & H).
  destruct (jget subject ($"encodedList")) eqn:Ee; try done.
  apply bind_Ok in H as (? & _ & [= <-]). exists d, subject. split_and!; try done.
  intros Ht. rewrite Ht in Hp. by destruct (eq_str _ _).
Qed.

Lemma read_status_bit_Ok raw e vc r :
  parse_status_entry raw = Ok (Some e) -> resolve (status_list_credential e) = Ok vc ->
  read_status_bit gzip_read vc e = Ok r ->
  entry r = e /\ exists b, entry_reads raw (purpose e) b /\ is_set r = negb (b =? 0).
Proof using.
  intros He Hvc H. apply parse_status_entry_Ok in He as (_ & Hu & Hp & Hi & Hb).
  unfold read_status_bit in H. apply bind_Ok in H as (enc & Henc & H).
  apply bind_Ok in H as (bits & Hbits & H). apply bind_Ok in H as (b & Hbit & [= <-]).
  rewrite get_status_bit_array in Hbit. apply array_get_JInt in Hbit as [_ Hbit].
  apply encoded_list_of_Ok in Henc as (d & subject & -> & Hs & Hpu & Hen).
  split; [done|]. exists b. split; [|done].
  exists (status_list_credential e), (index e), d, subject, enc, bits. done.
Qed.

Lemma entry_reads_functional raw p p' b b' :
  entry_reads raw p b -> entry_reads raw p' b' -> p = p' /\ b = b'.
Proof using.
  intros (u & n & vc & s & enc & bits & H1 & H2 & _ & H3 & H4 & H5 & _ & H6 & H7 & H8)
    (u' & n' & vc' & s' & enc' & bits' & H1' & H2' & _ & H3' & H4' & H5' & _ & H6' & H7' & H8').
  assert (n = n') as ->.
  { unfold index_denotes in *. naive_solver congruence. }
  assert (u = u') as -> by congruence. assert (vc = vc') as -> by congruence.
  assert (s = s') as -> by congruence. assert (enc = enc') as -> by congruence.
  assert (bits = bits') as -> by congruence. split; congruence.
Qed.

(** The tally of the entries that were read. *)
Lemma tally_spec (raws : list jobject) parsed results (p : pystr) :
  Forall2 (fun raw o => parse_status_entry raw = Ok o) raws parsed ->
  Forall2 (fun e r => exists vc, resolve (status_list_credential e) = Ok vc /\
                                 read_status_bit gzip_read vc e = Ok r) (omap (M:=list) id parsed) results ->
  (forall raw, raw ∈ raws -> matched_types (jget raw ($"type")) <> [] ->
     exists q b, entry_reads raw q b) /\
  (existsb (fun r => is_set r && bool_decide (purpose (entry r) = p)) results = true <->
   exists raw b, raw ∈ raws /\ matched_types (jget raw ($"type")) <> [] /\
     entry_reads raw p b /\ b <> 0).
Proof using.
  intros Hp. revert results. induction Hp as [|raw o raws parsed Ho Hp IH]; intros results Hr.
  - cbn in Hr. apply Forall2_nil_inv_l in Hr as ->. simpl. split; [set_solver|].
    split; [done|]. intros (raw & b & Hin & _). set_solver.
  - destruct o as [e|]; cbn in Hr.
    + apply Forall2_cons_inv_l in Hr as (r & rs & (vc & Hvc & Hr) & Hrs & ->).
      destruct (IH _ Hrs) as [IH1 IH2].
      apply parse_status_entry_Ok in Ho as Hm. destruct Hm as [Hm _].
      destruct (read_status_bit_Ok _ _ _ _ Ho Hvc Hr) as (He & b & Hb & Hs).
      split; [intros raw' [->|Hin]%elem_of_cons Hm'; eauto|].
      cbn [existsb]. rewrite orb_true_iff, andb_true_iff, bool_decide_eq_true, IH2, He, Hs, negb_true_iff.
      rewrite Z.eqb_neq. split.
      * intros [[Hb0 <-]|(raw' & b' & Hin & H)]; [exists raw, b|exists raw', b']; set_solver.
      * intros (raw' & b' & [->|Hin]%elem_of_cons & Hm' & Hrd & Hb0).
        -- left. destruct (entry_reads_functional _ _ _ _ _ Hb Hrd) as [-> ->]. done.
        -- right. eauto 10.
    + destruct (IH _ Hr) as [IH1 IH2]. apply parse_status_entry_Ok in Ho.
      split; [intros raw' [->|Hin]%elem_of_cons Hm'; [done|eauto]|].
      rewrite IH2. split.
      * intros (raw' & b' & Hin & H). exists raw', b'. set_solver.
      * intros (raw' & b' & [->|Hin]%elem_of_cons & Hm' & H); [done|eauto 10].
Qed.
End check.

Lemma check_credential_status_Ok gzip_read resolve credential res :
  check_credential_status gzip_read credential resolve = Ok res <->
  exists raws parsed results,
    as_entry_list (jget credential ($"credentialStatus")) = Ok raws /\
    Forall2 (fun raw o => parse_status_entry raw = Ok o) raws parsed /\
    Forall2 (fun e r => exists vc, resolve (status_list_credential e) = Ok vc /\
               read_status_bit gzip_read vc e = Ok r) (omap (M:=list) id parsed) results /\
    res = tally_status results.
Proof.
  unfold check_credential_status, parse_status_entries. rewrite bind_Ok. split.
  - intros (es & Hes & H). apply bind_Ok in Hes as (raws & Hraws & Hes).
    apply bind_Ok in Hes as (parsed & Hp%mapR_Ok & [= <-]).
    apply bind_Ok in H as (results & Hr%mapR_Ok & [= <-]).
    exists raws, parsed, results. split_and!; try done.
    eapply Forall2_impl; [done|]. intros e r Hb. by apply bind_Ok in Hb.
  - intros (raws & parsed & results & Hraws & Hp & Hr & ->). exists (omap (M:=list) id parsed).
    rewrite Hraws. cbn [mbind result_bind]. apply mapR_Ok in Hp. rewrite Hp. split; [done|].
    apply bind_Ok. exists results. split; [|done]. apply mapR_Ok.
    eapply Forall2_impl; [done|]. intros e r Hb. by apply bind_Ok.
Qed.

Lemma check_credential_status_reads (gzip_read : bytes -> Z -> result bytes)
    (resolve : pystr -> result json) (credential : jobject) (res : StatusResult)
    (H : check_credential_status gzip_read credential resolve = Ok res) :
  exists raws, as_entry_list (jget credential ($"credentialStatus")) = Ok raws /\
    (forall raw, raw ∈ raws -> matched_types (jget raw ($"type")) <> [] ->
       exists p b, entry_reads gzip_read resolve raw p b) /\
    (revoked res = true <-> exists raw b, raw ∈ raws /\ matched_types (jget raw ($"type")) <> [] /\
       entry_reads gzip_read resolve raw PURPOSE_REVOCATION b /\ b <> 0) /\
    (suspended res = true <-> exists raw b, raw ∈ raws /\ matched_types (jget raw ($"type")) <> [] /\
       entry_reads gzip_read resolve raw PURPOSE_SUSPENSION b /\ b <> 0).
Proof.
  apply check_credential_status_Ok in H as (raws & parsed & results & Hraws & Hp & Hr & ->).
  exists raws. split; [done|].
  pose proof (tally_spec _ _ _ _ _ PURPOSE_REVOCATION Hp Hr) as [Hall Hrev].
  pose proof (tally_spec _ _ _ _ _ PURPOSE_SUSPENSION Hp Hr) as [_ Hsus].
  done.
Qed.

(** No revocation is missed.  When the check of a credential returns, every member of
    its [credentialStatus] that names a status-list type was read at the index, in the
    list and for the purpose it states, and the result says revoked (suspended) exactly
    when one of them with that purpose points at a set bit. *)
Theorem check_credential_status_reads_all (gzip_read : bytes -> Z -> result bytes)
    (resolve : pystr -> result json) (credential : jobject) (res : StatusResult)
    (H : check_credential_status gzip_read credential resolve = Ok res) :
  exists raws, as_entry_list (jget credential ($"credentialStatus")) = Ok raws /\
    (forall raw, raw ∈ raws -> matched_types (jget raw ($"type")) <> [] ->
       exists p b, entry_reads gzip_read resolve raw p b) /\
    (revoked res = true <-> exists raw b, raw ∈ raws /\ matched_types (jget raw ($"type")) <> [] /\
       entry_reads gzip_read resolve raw PURPOSE_REVOCATION b /\ b <> 0) /\
    (suspended res = true <-> exists raw b, raw ∈ raws /\ matched_types (jget raw ($"type")) <> [] /\
       entry_reads gzip_read resolve raw PURPOSE_SUSPENSION b /\ b <> 0).
Proof. by apply check_credential_status_reads. Qed.

(** A compressor that stores: the "stream" is the data. *)
Definition stored_read (data : bytes) (n : Z) : result bytes := Ok (take (Z.to_nat n) data).

Definition witness_list (enc : pystr) : json :=
  JDict [($"credentialSubject", JDict [($"statusPurpose", JStr ($"revocation")); ($"encodedList", JStr enc)])].
Definition witness_credential : jobject :=
  [($"credentialStatus", JDict [($"type", JStr ($"BitstringStatusListEntry"));
     ($"statusListCredential", JStr ($"https://x/1")); ($"statusListIndex", JStr ($"9"))])].

(** The codec errors: [gzip] raising nothing but what its documentation names keeps the
    decoder within [StatusListError]. *)
Definition gzip_errors (gzip_read : bytes -> Z -> result bytes) : Prop :=
  forall data n, errs_in (fun e => (isinstance e OSError || isinstance e EOFError || isinstance e ZlibError) = true)
                         (gzip_read data n).

Lemma b64url_decode_errs_caught s :
  errs_in (fun x => value_or_type_error x = true) (b64url_decode s).
Proof. eapply errs_in_impl; [|apply b64url_decode_errs]. by intros ? <-. Qed.

Lemma decode_bitstring_errs gzip_read s :
  gzip_errors gzip_read -> errs_in (eq StatusListError) (decode_bitstring gzip_read s).
Proof.
  intros Hg. unfold decode_bitstring. apply errs_in_bind.
  - apply catch_as_errs, b64url_decode_errs_caught.
  - intros data _. apply catch_as_errs. unfold gunzip_bounded. apply errs_in_bind.
    + eapply errs_in_impl; [|apply Hg]. intros e He. unfold gunzip_error. by rewrite He.
    + intros out _. solve_errs.
Qed.

Lemma read_status_bit_errs gzip_read vc e :
  gzip_errors gzip_read -> errs_in (eq StatusListError) (read_status_bit gzip_read vc e).
Proof.
  intros Hg. unfold read_status_bit. apply errs_in_bind.
  - unfold encoded_list_of. solve_errs.
  - intros enc _. apply errs_in_bind; [by apply decode_bitstring_errs|]. intros bits _.
    apply errs_in_bind; [|solve_errs]. unfold get_status_bit.
    apply errs_in_bind; [apply locate_status_errs|]. intros [??] _. solve_errs.
Qed.

Lemma parse_status_entries_errs credential :
  errs_in (eq StatusListError) (parse_status_entries credential).
Proof.
  unfold parse_status_entries. apply errs_in_bind; [apply as_entry_list_errs|]. intros raws _.
  apply errs_in_bind; [|intros; solve_errs]. apply mapR_errs_in. intros raw _.
  pose proof status_index_errs. unfold parse_status_entry. solve_errs.
Qed.

(** The status check fails closed and typed.  Whatever the credential and whatever the
    resolver returns, the check raises nothing but [StatusListError] or an exception of
    the resolver itself; and a [credentialStatus] member that is no object, or an entry
    with no type, is such an error and never skipped. *)
Theorem check_credential_status_errors (gzip_read : bytes -> Z -> result bytes)
    (Hgzip : gzip_errors gzip_read) (resolve : pystr -> result json) (credential : jobject) :
  (forall e, check_credential_status gzip_read credential resolve = Err e ->
     e = StatusListError \/ exists url, resolve url = Err e) /\
  (forall l member, jget credential ($"credentialStatus") = JList l -> member ∈ l ->
     (forall d, member = JDict d -> jget d ($"type") ∈ [JNull; JStr []; JList []]) ->
     check_credential_status gzip_read credential resolve = Err StatusListError).
Proof.
  assert (errs_in (fun e => e = StatusListError \/ exists url, resolve url = Err e)
            (check_credential_status gzip_read credential resolve)) as Hall.
  { unfold check_credential_status. apply errs_in_bind.
    - eapply errs_in_impl; [|apply parse_status_entries_errs]. by left.
    - intros es _. apply errs_in_bind; [|solve_errs]. apply mapR_errs_in. intros e _.
      apply errs_in_bind; [intros x Hx; right; by eexists|]. intros vc _.
      eapply errs_in_impl; [|by apply read_status_bit_errs]. by left. }
  split; [exact Hall|]. intros l member Hl Hin Hm.
  assert (exists e, parse_status_entries credential = Err e) as [e He].
  { destruct (parse_status_entries credential) as [es|e] eqn:E; [exfalso|by eexists].
    unfold parse_status_entries in E. apply bind_Ok in E as (raws & Hraws & E).
    apply bind_Ok in E as (parsed & Hp & _). rewrite Hl in Hraws.
    apply mapR_Ok in Hraws, Hp.
    destruct (Forall2_elem_l _ _ _ _ Hraws Hin) as (d & Hd & Hdm).
    destruct (Forall2_elem_l _ _ _ _ Hp Hd) as (o & _ & Ho).
    destruct member as [| | | | | |d'|]; try done. injection Hdm as ->.
    specialize (Hm d eq_refl). unfold parse_status_entry in Ho. apply bind_Ok in Ho as (? & Ho%raise_if_Ok & _).
    rewrite !elem_of_cons, elem_of_nil in Hm. destruct Hm as [Hm|[Hm|[Hm|[]]]]; by rewrite Hm in Ho. }
  pose proof (parse_status_entries_errs credential e He) as <-.
  unfold check_credential_status. by rewrite He.
Qed.

Lemma check_credential_status_errors_witness :
  check_credential_status stored_read [($"credentialStatus", JList [JList []])] (fun _ => Err OSError)
    = Err StatusListError.
Proof.
  apply (check_credential_status_errors stored_read ltac:(by intros ???) (fun _ => Err OSError)
           _) with (l := [JList []]) (member := JList []); [reflexivity|left|done].
Defined.

Lemma check_credential_status_reads_all_witness :
  exists raws, as_entry_list (jget witness_credential ($"credentialStatus")) = Ok raws /\
    (forall raw, raw ∈ raws -> matched_types (jget raw ($"type")) <> [] ->
       exists p b, entry_reads stored_read (fun _ => Ok (witness_list ($"uAEA"))) raw p b) /\
    (true = true <-> exists raw b, raw ∈ raws /\ matched_types (jget raw ($"type")) <> [] /\
       entry_reads stored_read (fun _ => Ok (witness_list ($"uAEA"))) raw PURPOSE_REVOCATION b /\ b <> 0) /\
    (false = true <-> exists raw b, raw ∈ raws /\ matched_types (jget raw ($"type")) <> [] /\
       entry_reads stored_read (fun _ => Ok (witness_list ($"uAEA"))) raw PURPOSE_SUSPENSION b /\ b <> 0).
Proof.
  apply (check_credential_status_reads_all stored_read (fun _ => Ok (witness_list ($"uAEA")))
    witness_credential {| revoked := true; suspended := false; entries :=
      [{| entry := {| status_list_credential := $"https://x/1"; index := 9;
            purpose := $"revocation"; entry_type := BITSTRING_ENTRY_TYPE |}; is_set := true |}] |}).
  unfold check_credential_status, read_status_bit, decode_bitstring, gunzip_bounded, stored_read.
  vm_compute. reflexivity.
Defined.

(** * What an issuer publishes reads back *)

(** What [gzip] promises of its own output. *)
Definition gzip_roundtrip (gzip_read : bytes -> Z -> result bytes) (gzip_compress : bytes -> bytes) : Prop :=
  forall data, bytes_ok data -> bytes_ok (gzip_compress data) /\
    forall n, 0 <= n -> gzip_read (gzip_compress data) n = Ok (take (Z.to_nat n) data).

Lemma decode_encode_bitstring gzip_read gzip_compress bits :
  gzip_roundtrip gzip_read gzip_compress -> bytes_ok bits ->
  decode_bitstring gzip_read (encode_bitstring gzip_compress bits) =
    if MAX_DECOMPRESSED_BYTES <? len bits then Err StatusListError else Ok bits.
Proof.
  intros Hg Hb. destruct (Hg bits Hb) as [Hc Hr]. unfold decode_bitstring, encode_bitstring.
  rewrite Z.eqb_refl, b64url_decode_encode by done. cbn [catch_as mbind result_bind].
  unfold gunzip_bounded. rewrite Hr by done. cbn [mbind result_bind].
  assert ((MAX_DECOMPRESSED_BYTES <? len (take (Z.to_nat (MAX_DECOMPRESSED_BYTES + 1)) bits))
          = (MAX_DECOMPRESSED_BYTES <? len bits)) as ->.
  { unfold len. rewrite length_take. apply eq_true_iff_eq. rewrite !Z.ltb_lt.
    set (m := MAX_DECOMPRESSED_BYTES). assert (0 <= m) by done. lia. }
  unfold raise_if. destruct (Z.ltb_spec MAX_DECOMPRESSED_BYTES (len bits)) as [|Hle]; [done|].
  cbn [mbind result_bind catch_as]. rewrite firstn_all2; [done|].
  unfold len in Hle. set (m := MAX_DECOMPRESSED_BYTES) in *. lia.
Qed.

Lemma decimal_index n :
  0 <= n < MAX_STATUS_INDEX -> status_index (JStr (str_of_int n)) true true = Ok n.
Proof.
  intros Hn. apply status_index_Ok. split; [|done]. right. split; [done|].
  unfold str_of_int. replace (n <? 0) with false by lia.
  destruct (str_of_nonneg_spec n) as (? & ? & _); [lia|]. by eexists.
Qed.

Lemma build_status_list_entry_Ok url index p id entry :
  build_status_list_entry url index p id = Ok entry ->
  exists u n q, url = JStr u /\ u <> [] /\ index = JInt n /\ 0 <= n < MAX_STATUS_INDEX /\
    p = JStr q /\ parse_status_entry entry =
      Ok (Some {| status_list_credential := u; index := n; purpose := q;
                  entry_type := BITSTRING_ENTRY_TYPE |}).
Proof.
  unfold build_status_list_entry. intros H.
  apply bind_Ok in H as (n & [Hn Hb]%status_index_Ok & H).
  apply bind_Ok in H as (u & [-> Hu]%text_Ok & H). apply bind_Ok in H as (q & [-> Hq]%text_Ok & H).
  apply bind_Ok in H as (i & _ & [= <-]).
  destruct Hn as [->|[[=] _]]. exists u, n, q. split_and!; try done; try lia.
  assert (matched_types (JStr BITSTRING_ENTRY_TYPE) = [BITSTRING_ENTRY_TYPE]) as Hm by done.
  destruct i as [i|]; unfold parse_status_entry; look; rewrite Hm; destruct u; try done;
    cbn [truthy is_none mbind result_bind raise_if]; by rewrite decimal_index.
Qed.

(** A resolver that serves a list credential carrying [bits] answers for the entry that points at it. *)
Lemma entry_bit_reads_back gzip_read gzip_compress bits (url purpose index id : json) u q n pointer b resolve vc subject :
  gzip_roundtrip gzip_read gzip_compress -> bytes_ok bits -> len bits <= MAX_DECOMPRESSED_BYTES ->
  url = JStr u -> purpose = JStr q -> index = JInt n -> build_status_list_entry url index purpose id = Ok pointer ->
  bit_statuses bits !! Z.to_nat n = Some b -> resolve u = Ok (JDict vc) ->
  jget vc ($"credentialSubject") = JDict subject -> jget subject ($"statusPurpose") = purpose ->
  jget subject ($"encodedList") = JStr (encode_bitstring gzip_compress bits) ->
  exists res, check_credential_status gzip_read [($"credentialStatus", JDict pointer)] resolve = Ok res /\
    revoked res = negb (b =? 0) && bool_decide (q = PURPOSE_REVOCATION) /\
    suspended res = negb (b =? 0) && bool_decide (q = PURPOSE_SUSPENSION).
Proof.
  intros Hgzip Hbits Hlen Hu Hq Hn Hbuild Hb Hres Hsubject Hpurpose Henc.
  apply build_status_list_entry_Ok in Hbuild as (u' & n' & q' & -> & _ & -> & Hn' & -> & Hparse).
  injection Hu as ->. injection Hq as ->. injection Hn as ->.
  set (e := {| status_list_credential := u |}) in Hparse.
  assert (check_credential_status gzip_read [($"credentialStatus", JDict pointer)] resolve =
          Ok (tally_status [Build_StatusEntryResult e (negb (b =? 0))])) as ->.
  { apply check_credential_status_Ok. exists [pointer], [Some e]. eexists. split_and!; [done| | |done].
    - repeat constructor. done.
    - constructor; [|constructor]. eexists. split; [done|].
      unfold read_status_bit, encoded_list_of. rewrite Hsubject, Hpurpose, Henc. unfold eq_str. cbn [StatusCheck.purpose StatusCheck.index].
      rewrite (bool_decide_eq_true_2 (q = q)) by done. rewrite andb_false_r.
      rewrite (bool_decide_eq_false_2 (encode_bitstring _ _ = [])) by done.
      cbn [mbind result_bind raise_if]. rewrite decode_encode_bitstring by done.
      replace (MAX_DECOMPRESSED_BYTES <? len bits) with false by (symmetry; by apply Z.ltb_ge).
      cbn [mbind result_bind]. rewrite get_status_bit_array.
      rewrite (proj2 (array_get_JInt _ n b)) by (split; [lia|done]). done. }
  eexists. split; [done|]. cbn. by rewrite !orb_false_r.
Qed.

(** A published status reads back.  Put the entry [build_status_list_entry] made for a
    slot into a credential, serve the encoded bitstring under the entry's URL for the same
    purpose, and the check returns exactly the bit the issuer set in that slot: revoked
    (or suspended) if and only if the bit is set and the purpose says so. *)
Theorem issued_bitstring_reads_back (gzip_read : bytes -> Z -> result bytes)
    (gzip_compress : bytes -> bytes) (Hgzip : gzip_roundtrip gzip_read gzip_compress)
    (bits : bytes) (Hbits : bytes_ok bits) (Hlen : len bits <= MAX_DECOMPRESSED_BYTES)
    (url purpose index id : json) (u q : pystr) (n : Z) (pointer : jobject)
    (Hu : url = JStr u) (Hq : purpose = JStr q) (Hn : index = JInt n)
    (Hbuild : build_status_list_entry url index purpose id = Ok pointer)
    (b : Z) (Hb : bit_statuses bits !! Z.to_nat n = Some b)
    (resolve : pystr -> result json)
    (Hres : resolve u = Ok (JDict [($"credentialSubject", JDict
      [($"statusPurpose", purpose); ($"encodedList", JStr (encode_bitstring gzip_compress bits))])])) :
  exists res, check_credential_status gzip_read [($"credentialStatus", JDict pointer)] resolve = Ok res /\
    revoked res = negb (b =? 0) && bool_decide (q = PURPOSE_REVOCATION) /\
    suspended res = negb (b =? 0) && bool_decide (q = PURPOSE_SUSPENSION).
Proof. eapply (entry_bit_reads_back gzip_read gzip_compress bits _ _ _ _ _ _ _ _ _ _ _ _ Hgzip Hbits Hlen Hu Hq Hn Hbuild Hb Hres); reflexivity. Qed.

Lemma issued_bitstring_reads_back_witness :
  exists res, check_credential_status stored_read
      [($"credentialStatus", JDict [($"type", JStr BITSTRING_ENTRY_TYPE); ($"statusPurpose", JStr ($"revocation"));
         ($"statusListIndex", JStr ($"9")); ($"statusListCredential", JStr ($"https://x/1"))])]
      (fun _ => Ok (JDict [($"credentialSubject", JDict
        [($"statusPurpose", JStr ($"revocation"));
         ($"encodedList", JStr (encode_bitstring (fun d => d) [0; 64]))])])) = Ok res /\
    revoked res = negb (1 =? 0) && bool_decide (($"revocation") = PURPOSE_REVOCATION) /\
    suspended res = negb (1 =? 0) && bool_decide (($"revocation") = PURPOSE_SUSPENSION).
Proof.
  apply (issued_bitstring_reads_back stored_read (fun d => d)) with (bits := [0; 64])
    (url := JStr ($"https://x/1")) (purpose := JStr ($"revocation")) (index := JInt 9) (id := JNull)
    (u := $"https://x/1") (n := 9).
  - intros data Hd. split; [done|]. intros. reflexivity.
  - by apply (bool_decide_unpack _); vm_compute.
  - vm_compute. done.
  - reflexivity.
  - reflexivity.
  - reflexivity.
  - vm_compute. reflexivity.
  - vm_compute. reflexivity.
  - reflexivity.
Defined.

(** A stream [zlib] accepts from the first byte to the last. *)
Definition zlib_valid (z : zlib_object) (data : bytes) : Prop :=
  exists good : zstate z -> bytes -> Prop, good (decompressobj z) data /\
    (forall d b, good d b -> exists chunk tail d', decompress z d b CHUNK = Ok (chunk, tail, d') /\ good d' tail) /\
    (forall d b, good d b -> exists out, flush z d = Ok out).

Lemma inflate_loop_valid z output good fuel d b out max_out r :
  zlib_laws z output ->
  (forall d b, good d b -> exists chunk tail d', decompress z d b CHUNK = Ok (chunk, tail, d') /\ good d' tail) ->
  (forall d b, good d b -> exists out, flush z d = Ok out) -> good d b ->
  inflate_loop z fuel d b out max_out = Some r ->
  r = if max_out <? len (out ++ output d b) then Err DecompressionBomb else Ok (out ++ output d b).
Proof.
  intros Hl Hd Hf. revert d b out. induction fuel as [|fuel IH]; intros d b out Hg; [done|].
  simpl. destruct (Hd d b Hg) as (chunk & tail & d' & Ed & Hg'). rewrite Ed.
  rewrite (decompress_output (output:=output) _ _ _ _ _ _ CHUNK_pos Ed), (assoc_L (++)).
  destruct (Z.ltb_spec max_out (len (out ++ chunk))) as [Hgt|].
  { intros [= <-]. rewrite len_app. pose proof (len_nonneg (output d' tail)).
    by replace (max_out <? _) with true by lia. }
  destruct tail, chunk; try by apply IH.
  destruct (Hf d' _ Hg') as (l & El). rewrite El. apply (decompress_flush (output:=output)) in El as ->.
  cbn. unfold raise_if. by destruct (max_out <? _); intros [= <-].
Qed.

(** What [zlib] promises of its own output. *)
Record zlib_roundtrip (z : zlib_object) (output : zstate z -> bytes -> bytes)
    (zlib_compress : bytes -> bytes) : Prop := {
  zrt_laws : zlib_laws z output;
  zrt_ok data : bytes_ok data -> bytes_ok (zlib_compress data);
  zrt_valid data : bytes_ok data -> zlib_valid z (zlib_compress data);
  zrt_output data : bytes_ok data -> output (decompressobj z) (zlib_compress data) = data;
}.

Lemma decode_encode_status_list z output zlib_compress data :
  zlib_roundtrip z output zlib_compress -> bytes_ok data ->
  decode_status_list z (encode_status_list zlib_compress data) =
    if MAX_DECOMPRESSED_BYTES <? len data then Err StatusListError else Ok data.
Proof.
  intros Hz Hd. pose proof (zrt_laws _ _ _ Hz) as Hl. unfold decode_status_list, encode_status_list.
  rewrite b64url_decode_encode by by eapply zrt_ok. cbn [catch_as mbind result_bind].
  unfold inflate_bounded. set (s := zlib_compress data). set (m := MAX_DECOMPRESSED_BYTES).
  assert (0 <= m) as Hm by done.
  destruct (inflate_loop_total z output (S (S (Z.to_nat m))) (decompressobj z) s [] m)
    as [r Hr]; [done|unfold len; simpl length; lia|].
  rewrite Hr. cbn [default from_option Datatypes.id].
  destruct (zrt_valid _ _ _ Hz data Hd) as (good & Hg & Hgd & Hgf).
  apply (inflate_loop_valid z output good) in Hr as ->; [|done..]. cbn [app].
  unfold s. rewrite (zrt_output _ _ _ Hz) by done. by destruct (m <? len data).
Qed.

Lemma token_status_reads_back z output zlib_compress data w u n claims v resolve tc sl :
  zlib_roundtrip z output zlib_compress -> bytes_ok data -> len data <= MAX_DECOMPRESSED_BYTES -> valid_width w ->
  build_token_status_reference (JStr u) (JInt n) = Ok claims -> token_statuses w data !! Z.to_nat n = Some v ->
  resolve u = Ok (JDict tc) -> jget tc ($"status_list") = JDict sl -> jget sl ($"bits") = JInt w ->
  jget sl ($"lst") = JStr (encode_status_list zlib_compress data) ->
  exists r, check_token_status z claims resolve = Ok (Some r) /\
    uri (ref r) = u /\ ref_index (ref r) = n /\ status r = v /\
    token_revoked r = (v =? STATUS_INVALID) /\ token_suspended r = (v =? STATUS_SUSPENDED).
Proof.
  intros Hz Hdata Hlen Hw Hbuild Hv Hres Hsl Hbits Hlst.
  unfold build_token_status_reference in Hbuild.
  apply bind_Ok in Hbuild as (n' & Hn & Hbuild). apply bind_Ok in Hbuild as (u' & [[= <-] Hu]%text_Ok & [= <-]).
  apply status_index_Ok in Hn as Hn'. destruct Hn' as [[[= <-]|[[=] _]] Hb].
  set (r := {| ref := {| uri := u; ref_index := n |}; status := v;
               token_revoked := v =? STATUS_INVALID; token_suspended := v =? STATUS_SUSPENDED |}).
  exists r. split; [|done]. unfold check_token_status, parse_token_status_ref. look.
  replace (negb (truthy (JStr u))) with false by by destruct u. cbn [is_none orb raise_if mbind result_bind].
  rewrite Hn. cbn [mbind result_bind uri]. rewrite Hres. cbn [mbind result_bind].
  unfold token_status_result, status_list_claim. rewrite Hsl, Hbits, Hlst.
  cbn [mbind result_bind]. rewrite (decode_encode_status_list z output) by done.
  replace (MAX_DECOMPRESSED_BYTES <? len data) with false by (symmetry; by apply Z.ltb_ge).
  cbn [mbind result_bind]. rewrite (get_status_array _ _ _ w) by by apply check_bits_Ok.
  cbn [ref_index]. rewrite (proj2 (array_get_JInt _ n v)) by (split; [lia|done]). done.
Qed.

(** A published token status reads back.  A token carrying the reference
    [build_token_status_reference] made, checked against a status-list token that carries
    the encoded list under the same URI, reports exactly the value the issuer stored at
    that index, as revoked when it is INVALID and suspended when it is SUSPENDED. *)
Theorem issued_token_status_reads_back (z : zlib_object) (output : zstate z -> bytes -> bytes)
    (zlib_compress : bytes -> bytes) (Hz : zlib_roundtrip z output zlib_compress)
    (data : bytes) (Hdata : bytes_ok data) (Hlen : len data <= MAX_DECOMPRESSED_BYTES)
    (w : Z) (Hw : valid_width w) (u : pystr) (n : Z) (claims : jobject)
    (Hbuild : build_token_status_reference (JStr u) (JInt n) = Ok claims)
    (v : Z) (Hv : token_statuses w data !! Z.to_nat n = Some v)
    (resolve : pystr -> result json)
    (Hres : resolve u = Ok (JDict [($"status_list", JDict
      [($"bits", JInt w); ($"lst", JStr (encode_status_list zlib_compress data))])])) :
  exists r, check_token_status z claims resolve = Ok (Some r) /\
    uri (ref r) = u /\ ref_index (ref r) = n /\ status r = v /\
    token_revoked r = (v =? STATUS_INVALID) /\ token_suspended r = (v =? STATUS_SUSPENDED).
Proof. eapply (token_status_reads_back z output zlib_compress data _ _ _ _ _ _ _ _ Hz Hdata Hlen Hw Hbuild Hv Hres); reflexivity. Qed.

Lemma stored_zlib_roundtrip : zlib_roundtrip stored_zlib (fun d data => d ++ data) (fun d => d).
Proof.
  split; [apply _|done| |done]. intros data _. exists (fun _ _ => True). split; [done|].
  split; intros; [do 3 eexists; split; [reflexivity|done]|by eexists].
Qed.

Lemma issued_token_status_reads_back_witness :
  exists r, check_token_status stored_zlib
      [($"status", JDict [($"status_list", JDict [($"idx", JInt 5); ($"uri", JStr ($"https://x/1"))])])]
      (fun _ => Ok (JDict [($"status_list", JDict
         [($"bits", JInt 2); ($"lst", JStr (encode_status_list (fun d => d) [0; 8]))])])) = Ok (Some r) /\
    uri (ref r) = $"https://x/1" /\ ref_index (ref r) = 5 /\ status r = 2 /\
    token_revoked r = (2 =? STATUS_INVALID) /\ token_suspended r = (2 =? STATUS_SUSPENDED).
Proof.
  apply (issued_token_status_reads_back _ _ _ stored_zlib_roundtrip [0; 8]) with (w := 2).
  - by apply (bool_decide_unpack _); vm_compute.
  - vm_compute. done.
  - by apply (bool_decide_unpack _); vm_compute.
  - vm_compute. reflexivity.
  - vm_compute. reflexivity.
  - reflexivity.
Defined.
