(* ===== verification/Cache.v ===== *)
(** [openvc.cache] (src/src/openvc/cache.py): the bounded time-to-live cache, the
    memoisation built on it, and the threads that share one.

    A time is a reading of the injected clock, an integer number of ticks here (the
    code's floats, without their rounding) or the [float("inf")] of a batch cache.  A
    value is [Some v], or [None] for Python's [None], which [get] cannot tell from a
    miss.  Every operation that reads the clock takes the reading as an argument. *)
From S2P Require Import Prelude Errors.

Inductive time := At (t : Z) | Inf.

#[export] Instance time_eq_dec : EqDecision time.
Proof. solve_decision. Defined.

Definition time_add (now : Z) (ttl : time) : time :=
  match ttl with At d => At (now + d) | Inf => Inf end.
(** [expires < now]. *)
Definition time_ltb (expires : time) (now : Z) : bool :=
  match expires with At e => e <? now | Inf => false end.
Definition time_le (t u : time) : Prop :=
  match t, u with _, Inf => True | Inf, At _ => False | At a, At b => a <= b end.

Definition DEFAULT_DID_TTL_S : time := At 300.
Definition DEFAULT_STATUS_TTL_S : time := At 60.
Definition DEFAULT_MAX_ENTRIES : Z := 1024.

Section cache.
Context {A : Type}.
Abbreviation value := (option A).

(** [OrderedDict[str, tuple[float, Any]]], the oldest entry first. *)
Record TtlCache := {
  ttl : time;
  max_entries : Z;
  data : list (pystr * (time * value));
}.

Definition with_data (c : TtlCache) (d : list (pystr * (time * value))) : TtlCache :=
  {| ttl := ttl c; max_entries := max_entries c; data := d |}.

Definition new_cache (ttl_s : time) (max : Z) : TtlCache :=
  {| ttl := ttl_s; max_entries := max; data := [] |}.

(** [get]: what it returns, and the cache with the expired entry dropped. *)
Definition get (c : TtlCache) (now : Z) (key : pystr) : value * TtlCache :=
  match dget (data c) key with
  | None => (None, c)
  | Some (expires, v) =>
      if time_ltb expires now then (None, with_data c (ddel (data c) key)) else (v, c)
  end.

(** [set]: [popitem(last=False)] of an empty dict is a [KeyError]; [d[key] = e] then
    [move_to_end(key)] leaves [key] last, wherever it was. *)
Definition set (c : TtlCache) (now : Z) (key : pystr) (v : value) : result TtlCache :=
  d ← (if negb (dmem (data c) key) && (max_entries c <=? len (data c))
       then match data c with _ :: rest => Ok rest | [] => Err KeyError end
       else Ok (data c));
  Ok (with_data c (ddel d key ++ [(key, (time_add now (ttl c), v))])).

Definition clear (c : TtlCache) : TtlCache := with_data c [].

Definition cache_len (c : TtlCache) : Z := len (data c).

(** [cached_resolve]: one call, its two clock readings around the [fn] call. *)
Definition resolve (fn : pystr -> result value) (c : TtlCache) (now now' : Z) (key : pystr)
    : result value * TtlCache :=
  match get c now key with
  | (Some v, c) => (Ok (Some v), c)
  | (None, c) =>
      match fn key with
      | Err e => (Err e, c)
      | Ok v => match set c now' key v with
                | Ok c' => (Ok v, c')
                | Err e => (Err e, c)
                end
      end
  end.

(** * The invariant of a cache *)

Definition expiries (c : TtlCache) : list time := (fun kv => kv.2.1) <$> data c.

(** The entries are distinct, at most [max_entries], and in the order they expire. *)
Record cache_ok (c : TtlCache) : Prop := {
  ok_dict : dict_ok (data c);
  ok_bound : len (data c) <= Z.max 1 (max_entries c);
  ok_sorted : StronglySorted time_le (expiries c);
}.

(** Every stored expiry is one a [set] at or before [now] can have made. *)
Definition written_by (c : TtlCache) (now : Z) : Prop :=
  Forall (fun t => time_le t (time_add now (ttl c))) (expiries c).

#[local] Instance time_le_trans : Transitive time_le.
Proof. intros [x|] [y|] [z|]; simpl; try done; lia. Qed.

Lemma time_le_add now now' d : now <= now' -> time_le (time_add now d) (time_add now' d).
Proof. destruct d; simpl; [lia|done]. Qed.

Lemma sorted_sublist {B} (R : B -> B -> Prop) l k :
  sublist l k -> StronglySorted R k -> StronglySorted R l.
Proof.
  induction 1 as [|x l k Hs IH|x l k Hs IH]; intros Hk; [constructor|..]; inversion Hk; subst; auto.
  constructor; [auto|]. rewrite Forall_forall in *. intros y Hy. eauto using elem_of_sublist.
Qed.

Lemma ddel_sublist (d : list (pystr * (time * value))) key : sublist (ddel d key) d.
Proof. unfold ddel. induction d as [|kv d IH]; [done|]. rewrite filter_cons. case_decide; by constructor. Qed.

Lemma cache_ok_sub c d :
  cache_ok c -> sublist d (data c) -> cache_ok (with_data c d).
Proof.
  intros [Hd Hb Hs] Hsub. split; simpl.
  - unfold dict_ok in *. eapply sublist_NoDup; [done|]. by apply (fmap_sublist fst).
  - apply sublist_length in Hsub. unfold len in *. lia.
  - eapply sorted_sublist; [|done]. by apply (fmap_sublist (fun kv : pystr * (time * value) => kv.2.1)).
Qed.

Lemma written_sub c d now : written_by c now -> sublist d (data c) -> written_by (with_data c d) now.
Proof.
  unfold written_by. rewrite !Forall_forall. intros H Hs t Ht. apply H.
  eapply elem_of_sublist; [done|]. by apply (fmap_sublist (fun kv : pystr * (time * value) => kv.2.1)).
Qed.

Lemma get_sub c now key v c' :
  get c now key = (v, c') -> exists d, c' = with_data c d /\ sublist d (data c).
Proof.
  unfold get. assert (c = with_data c (data c)) as Hc by by destruct c.
  destruct (dget _ _) as [[ex w]|]; [case_match|]; intros [= <- <-].
  - eexists. split; [done|apply ddel_sublist].
  - by exists (data c).
  - by exists (data c).
Qed.

Lemma get_ok c now key v c' : cache_ok c -> get c now key = (v, c') -> cache_ok c'.
Proof. intros Hc (d & -> & Hs)%get_sub. by apply cache_ok_sub. Qed.

(** What [set] leaves: other entries in the same order, the oldest one gone when the cache
    was full, and the new entry last. *)
Lemma set_Ok c now key v c' :
  set c now key v = Ok c' ->
  exists d, sublist d (data c) /\ ~ key ∈ d.*1 /\
    (len (data c) <= Z.max 1 (max_entries c) -> len d + 1 <= Z.max 1 (max_entries c)) /\
    c' = with_data c (d ++ [(key, (time_add now (ttl c), v))]).
Proof.
  unfold set. intros H. apply bind_Ok in H as (d & Hd & [= <-]). exists (ddel d key).
  assert (sublist d (data c)) as Hs.
  { case_match; [|by injection Hd as <-]. destruct (data c); [done|]. injection Hd as ->. by constructor. }
  split_and!; [by etrans; [apply ddel_sublist|]| | |done].
  - intros (kv & -> & Hin%ddel_elem)%list_elem_of_fmap. naive_solver.
  - intros Hb. pose proof (ddel_length d key). destruct (dmem (data c) key) eqn:Em; cbn in Hd.
    + injection Hd as <-. apply dmem_spec in Em.
      assert (length (ddel (data c) key) < length (data c))%nat; [|unfold len in *; lia].
      clear -Em. unfold ddel. induction (data c) as [|[k w] l IH]; csimpl in *; [set_solver|].
      rewrite filter_cons. case_decide as E; simpl in E.
      * apply elem_of_cons in Em as [->|Em]; [done|]. simpl. apply IH in Em. lia.
      * pose proof (length_filter (fun kv : pystr * (time * value) => kv.1 <> key) l). simpl. lia.
    + destruct (Z.leb_spec (max_entries c) (len (data c))).
      * destruct (data c); [done|]. injection Hd as ->. unfold len in *. simpl in Hb. lia.
      * injection Hd as <-. unfold len in *. lia.
Qed.

Lemma set_total c now key v : 0 < max_entries c -> exists c', set c now key v = Ok c'.
Proof.
  intros Hm. unfold set. case_match eqn:E; [|by eexists].
  destruct (data c); [|by eexists]. apply andb_true_iff in E as [_ E%Z.leb_le].
  unfold len in E. simpl in E. lia.
Qed.

Lemma set_ok c now key v c' :
  cache_ok c -> written_by c now -> set c now key v = Ok c' ->
  cache_ok c' /\ written_by c' now /\ ttl c' = ttl c /\ max_entries c' = max_entries c.
Proof.
  intros Hc Hw (d & Hs & Hk & Hb & ->)%set_Ok. pose proof (cache_ok_sub c d Hc Hs) as [Hd _ Hso].
  pose proof (written_sub c d now Hw Hs) as Hw'. destruct Hc as [_ Hbc _].
  split; [|split; [|done]].
  - split; simpl.
    + unfold dict_ok in *. rewrite fmap_app. apply NoDup_app. split; [done|]. split; [|apply NoDup_singleton].
      intros x Hx Hx'. simpl in Hx'. apply list_elem_of_singleton in Hx' as ->. done.
    + specialize (Hb Hbc). unfold len in *. rewrite length_app. simpl. lia.
    + unfold expiries in *. simpl in *. rewrite fmap_app. apply StronglySorted_app_2; [|done|repeat constructor].
      intros x y Hx Hy. simpl in Hy. apply list_elem_of_singleton in Hy as ->.
      unfold written_by in Hw'. rewrite Forall_forall in Hw'. by apply Hw'.
  - unfold written_by, expiries in *. simpl in *. rewrite fmap_app. apply Forall_app. split; [done|].
    repeat constructor. destruct (ttl c); simpl; [lia|done].
Qed.

(** * Histories

    The lock makes a run of the cache a sequence of operations; the newest is first. *)
Inductive event :=
  | EGet (now : Z) (key : pystr)
  | ESet (now : Z) (key : pystr) (v : value)
  | EClear.

(** The last write to [key] that no [clear] has undone. *)
Fixpoint last_set (h : list event) (key : pystr) : option (Z * value) :=
  match h with
  | [] => None
  | ESet now k v :: h => if decide (k = key) then Some (now, v) else last_set h key
  | EGet _ _ :: h => last_set h key
  | EClear :: _ => None
  end.

(** A run from an empty cache: [set] reads a monotonic clock inside the lock, [get] reads
    it before taking the lock, so only the writes are ordered. *)
Inductive reachable (ttl_s : time) (max : Z) : list event -> Z -> TtlCache -> Prop :=
  | reach_new now : reachable ttl_s max [] now (new_cache ttl_s max)
  | reach_get h t c now key v c' :
      reachable ttl_s max h t c -> get c now key = (v, c') ->
      reachable ttl_s max (EGet now key :: h) t c'
  | reach_set h t c now key v c' :
      reachable ttl_s max h t c -> t <= now -> set c now key v = Ok c' ->
      reachable ttl_s max (ESet now key v :: h) now c'
  | reach_clear h t c :
      reachable ttl_s max h t c -> reachable ttl_s max (EClear :: h) t (clear c).

(** What an entry says happened. *)
Definition entries_sound (h : list event) (c : TtlCache) : Prop :=
  forall key ex v, (key, (ex, v)) ∈ data c ->
    exists now, last_set h key = Some (now, v) /\ ex = time_add now (ttl c).

Lemma reachable_inv ttl_s max h t c :
  reachable ttl_s max h t c ->
  cache_ok c /\ written_by c t /\ entries_sound h c /\ ttl c = ttl_s /\ max_entries c = max.
Proof.
  induction 1 as [now|h t c now key v c' Hr IH Hg|h t c now key v c' Hr IH Ht Hset|h t c Hr IH].
  - split_and!; try done.
    + split; simpl; [constructor|unfold len; simpl; lia|constructor].
    + constructor.
    + intros k ex v Hin. simpl in Hin. set_solver.
  - destruct IH as (Hok & Hw & Hs & <- & <-).
    destruct (get_sub _ _ _ _ _ Hg) as (d & -> & Hd).
    split_and!; [by apply cache_ok_sub|by apply written_sub| |done|done].
    intros k ex w Hin. apply (Hs k ex w). by eapply elem_of_sublist.
  - destruct IH as (Hok & Hw & Hs & <- & <-).
    assert (written_by c now) as Hw'.
    { unfold written_by in *. eapply Forall_impl; [done|]. intros e He.
      apply (time_le_trans _ _ _ He). by apply time_le_add. }
    destruct (set_ok _ _ _ _ _ Hok Hw' Hset) as (? & ? & ? & ?). split_and!; try done.
    apply set_Ok in Hset as (d & Hd & Hk & _ & ->). intros k ex w Hin. simpl in Hin.
    apply elem_of_app in Hin as [Hin|Hin%list_elem_of_singleton].
    + assert (k <> key) as Hne.
      { intros ->. apply Hk. apply list_elem_of_fmap. by exists (key, (ex, w)). }
      simpl. rewrite decide_False by congruence. apply (Hs k ex w). by eapply elem_of_sublist.
    + injection Hin as -> -> ->. exists now. simpl. by rewrite decide_True.
  - destruct IH as (Hok & Hw & Hs & <- & <-). split_and!; try done.
    + by apply cache_ok_sub; [|apply sublist_nil_l].
    + constructor.
    + intros k ex w Hin. simpl in Hin. set_solver.
Qed.
End cache.
#[global] Arguments TtlCache : clear implicits.
#[global] Arguments event : clear implicits.

Lemma get_fresh {A} (c : TtlCache A) now key v c' :
  get c now key = (Some v, c') ->
  exists ex, (key, (ex, Some v)) ∈ data c /\ time_ltb ex now = false.
Proof.
  unfold get. destruct (dget (data c) key) as [[ex w]|] eqn:E; [|done].
  destruct (time_ltb ex now) eqn:El; [done|]. intros [= -> <-]. exists ex.
  by split; [apply dget_Some_elem|].
Qed.

(** The cache is bounded and never stale.  In every run of interleaved [get], [set] and
    [clear] calls from an empty cache: the entries never outnumber [max_entries] (one at
    least), a [set] never fails when there is room for an entry at all, and whatever a
    [get] returns is the value of the last [set] of that key, not cleared since, at most
    one time-to-live before the reading [get] took of the clock.  The entries stay in the
    order they expire, so that the one evicted is the one soonest to expire. *)
Theorem cache_bounded_and_fresh {A} (ttl_s : time) (max : Z) (h : list (event A)) (t : Z)
    (c : TtlCache A) (H : reachable ttl_s max h t c) :
  cache_len c <= Z.max 1 max /\ StronglySorted time_le (expiries c) /\
  (forall now key v, 0 < max -> exists c', set c now key v = Ok c') /\
  (forall now key v c', get c now key = (Some v, c') ->
     exists t0, last_set h key = Some (t0, Some v) /\ time_ltb (time_add t0 ttl_s) now = false).
Proof.
  apply reachable_inv in H as ([Hd Hb Hs] & _ & Hsound & <- & <-).
  split_and!; [done|done|intros; by apply set_total|].
  intros now key v c' (ex & Hin & Hl)%get_fresh.
  destruct (Hsound _ _ _ Hin) as (t0 & Hlast & ->). by exists t0.
Qed.

Definition example_cache : TtlCache Z :=
  {| ttl := At 5; max_entries := 1; data := [($"b", (At 8, Some 2))] |}.

Lemma cache_bounded_and_fresh_witness :
  cache_len example_cache <= Z.max 1 1 /\ StronglySorted time_le (expiries example_cache) /\
  (forall now key v, 0 < 1 -> exists c', set example_cache now key v = Ok c') /\
  (forall now key v c', get example_cache now key = (Some v, c') ->
     exists t0, last_set [ESet 3 ($"b") (Some 2); ESet 0 ($"a") (Some 1)] key = Some (t0, Some v) /\
                time_ltb (time_add t0 (At 5)) now = false).
Proof.
  apply (cache_bounded_and_fresh (At 5) 1 [ESet 3 ($"b") (Some 2); ESet 0 ($"a") (Some 1)] 3).
  eapply reach_set; [eapply reach_set; [apply (reach_new _ _ 0)|lia|]|lia|]; reflexivity.
Defined.

Lemma dget_app_ne {V} (d : list (pystr * V)) key v k :
  k <> key -> dget (d ++ [(key, v)]) k = dget d k.
Proof.
  intros Hne. induction d as [|[k' w] d IH]; simpl; [by rewrite decide_False|]. by rewrite IH.
Qed.

(** * A batch: [batch_resolvers] and its caches that never expire *)

Definition BATCH_TTL_S : time := Inf.
Definition batch_cache {A} : TtlCache A := new_cache BATCH_TTL_S DEFAULT_MAX_ENTRIES.

(** The calls a batch makes through one memoised function, with their clock readings: the
    results, and the keys [fn] itself was called with. *)
Fixpoint resolve_all {A} (fn : pystr -> result (option A)) (c : TtlCache A)
    (requests : list (Z * Z * pystr)) : list (result (option A)) * list pystr :=
  match requests with
  | [] => ([], [])
  | (now, now', key) :: requests =>
      let '(r, c') := resolve fn c now now' key in
      let called := match (get c now key).1 with Some _ => [] | None => [key] end in
      let '(rs, calls) := resolve_all fn c' requests in
      (r :: rs, called ++ calls)
  end.

Definition resolves {A} (fn : pystr -> result (option A)) (key : pystr) : bool :=
  match fn key with Ok (Some _) => true | _ => false end.

Section batch.
Context {A : Type} (fn : pystr -> result (option A)) (K : list pystr) (max : Z).
Context (HK : len K <= max).

Record batch_ok (c : TtlCache A) : Prop := {
  b_ttl : ttl c = Inf;
  b_max : max_entries c = max;
  b_dict : dict_ok (data c);
  b_keys : (data c).*1 ⊆ K;
  b_entries : forall key ex v, (key, (ex, v)) ∈ data c -> ex = Inf /\ fn key = Ok v;
}.

Lemma batch_get c now key :
  batch_ok c ->
  get c now key =
    (match dget (data c) key with Some (_, v) => v | None => None end, c).
Proof using.
  intros Hc. unfold get. destruct (dget (data c) key) as [[ex v]|] eqn:E; [|done].
  apply dget_Some_elem in E. by destruct (b_entries _ Hc _ _ _ E) as [-> _].
Qed.

Lemma batch_set c now key v :
  batch_ok c -> key ∈ K -> fn key = Ok v ->
  exists c', set c now key v = Ok c' /\ batch_ok c' /\ (key ∈ (data c').*1) /\
    forall k, k <> key -> dget (data c') k = dget (data c) k.
Proof using HK.
  intros Hc Hk Hv. pose proof (b_max _ Hc) as Hmax.
  assert (set c now key v = Ok (with_data c (ddel (data c) key ++ [(key, (Inf, v))]))) as Hset.
  { unfold set. destruct (dmem (data c) key) eqn:Em; cbn [negb andb mbind result_bind].
    - by rewrite (b_ttl _ Hc).
    - assert (~ key ∈ (data c).*1) as Hn by (rewrite <-dmem_spec; congruence).
      assert (length (key :: (data c).*1) <= length K)%nat as Hl.
      { apply submseteq_length, NoDup_submseteq.
        - constructor; [done|]. apply (b_dict _ Hc).
        - intros x [->|Hx]%elem_of_cons; [done|]. by apply (b_keys _ Hc). }
      simpl in Hl. rewrite length_fmap in Hl.
      destruct (Z.leb_spec (max_entries c) (len (data c))); [unfold len in *; lia|].
      cbn. by rewrite (b_ttl _ Hc). }
  eexists. split; [exact Hset|]. split; [|split].
  - split; simpl; [apply Hc|apply Hc|..].
    + pose proof (ddel_ok _ key (b_dict _ Hc)) as Hd. unfold dict_ok in *. rewrite fmap_app.
      apply NoDup_app. split; [done|]. split; [|apply NoDup_singleton].
      intros x Hx Hx'. simpl in Hx'. apply list_elem_of_singleton in Hx' as ->.
      apply list_elem_of_fmap in Hx as (kv & -> & Hin%ddel_elem). naive_solver.
    + rewrite fmap_app. intros x [Hx|Hx]%elem_of_app.
      * apply (b_keys _ Hc). apply list_elem_of_fmap in Hx as (kv & -> & [_ Hin]%ddel_elem).
        apply list_elem_of_fmap. eauto.
      * simpl in Hx. by apply list_elem_of_singleton in Hx as ->.
    + intros k ex w [[_ Hin]%ddel_elem|Hin%list_elem_of_singleton]%elem_of_app.
      * by apply (b_entries _ Hc _ _ _ Hin).
      * by injection Hin as -> -> ->.
  - simpl. rewrite fmap_app. apply elem_of_app. right. simpl. by left.
  - intros k Hne. simpl. rewrite dget_app_ne by done. rewrite ddel_dget. by rewrite decide_False.
Qed.

Lemma batch_resolve c now now' key :
  batch_ok c -> key ∈ K ->
  exists c', resolve fn c now now' key = (fn key, c') /\ batch_ok c' /\
    (resolves fn key = true -> is_Some ((get c now key).1) \/ key ∈ (data c').*1) /\
    (forall k, k ∈ (data c).*1 -> k ∈ (data c').*1) /\
    (forall k, k ∈ (data c').*1 -> k ∈ (data c).*1 \/ k = key /\ (get c now key).1 = None).
Proof using HK.
  intros Hc Hk. unfold resolve. rewrite batch_get by done.
  assert (forall v, fn key = Ok v -> exists c', set c now' key v = Ok c' /\ batch_ok c' /\
    (key ∈ (data c').*1) /\ (forall k, k ∈ (data c).*1 -> k ∈ (data c').*1) /\
    (forall k, k ∈ (data c').*1 -> k ∈ (data c).*1 \/ k = key)) as Hset.
  { intros v Hv. destruct (batch_set c now' key v Hc Hk Hv) as (c' & Hs & Hok & Hin & Hget).
    exists c'. split_and!; try done; intros k Hkin; (destruct (decide (k = key)) as [->|Hne]; [by auto|]);
      [|left]; apply dmem_spec in Hkin; apply dmem_spec; unfold dmem in *;
      rewrite Hget in * by done; done. }
  destruct (dget (data c) key) as [[ex [v|]]|] eqn:E.
  - exists c. apply dget_Some_elem in E. destruct (b_entries _ Hc _ _ _ E) as [_ ->].
    split_and!; try done; [by left; eexists|by left].
  - destruct (fn key) as [v|e] eqn:Ef; [|exists c; split_and!; try done; [unfold resolves; by rewrite Ef|by left]].
    destruct (Hset v eq_refl) as (c' & -> & ? & ? & ? & Hback). exists c'. split_and!; try done; [by right|].
    intros k [?| ->]%Hback; auto.
  - destruct (fn key) as [v|e] eqn:Ef; [|exists c; split_and!; try done; [unfold resolves; by rewrite Ef|by left]].
    destruct (Hset v eq_refl) as (c' & -> & ? & ? & ? & Hback). exists c'. split_and!; try done; [by right|].
    intros k [?| ->]%Hback; auto.
Qed.

Lemma resolve_all_spec c requests :
  batch_ok c -> Forall (fun r => r.2 ∈ K) requests ->
  let '(results, calls) := resolve_all fn c requests in
  results = (fun r => fn r.2) <$> requests /\
  NoDup (filter (fun k => resolves fn k = true) calls) /\
  (forall k, k ∈ calls -> resolves fn k = true -> ~ k ∈ (data c).*1) /\
  (forall k, k ∈ requests.*2 -> k ∈ calls \/ k ∈ (data c).*1).
Proof using HK.
  revert c. induction requests as [|[[now now'] key] requests IH]; intros c Hc Hreq.
  { split_and!; [done|constructor|set_solver|set_solver]. }
  apply Forall_cons in Hreq as [Hk Hreq]. simpl in Hk. simpl.
  destruct (batch_resolve c now now' key Hc Hk) as (c' & Hr & Hc' & Hin & Hmono & Hback). rewrite Hr.
  specialize (IH c' Hc' Hreq). destruct (resolve_all fn c' requests) as [rs calls].
  destruct IH as (-> & Hnd & Hnot & Hall). rewrite batch_get in * by done. simpl in *.
  split_and!; [done|..].
  - destruct (dget (data c) key) as [[ex [v|]]|] eqn:E; simpl; [done|..];
      rewrite filter_cons; case_decide as Hs; try done; constructor; try done;
      intros [_ Hcall]%list_elem_of_filter; destruct (Hin Hs) as [[? ?]|Hin']; try done;
      by apply (Hnot _ Hcall Hs).
  - intros k [Hk'|Hk']%elem_of_app Hs Hdata.
    + destruct (dget (data c) key) as [[ex [v|]]|] eqn:E; simpl in Hk'; [set_solver|..];
        apply list_elem_of_singleton in Hk' as ->.
      * apply dget_Some_elem in E. destruct (b_entries _ Hc _ _ _ E) as [_ Ef].
        unfold resolves in Hs. by rewrite Ef in Hs.
      * by apply dget_None in E.
    + by apply (Hnot k Hk' Hs), Hmono.
  - intros k [->|Hk']%elem_of_cons.
    + destruct (dget (data c) key) as [[ex [v|]]|] eqn:E; simpl; [right|left; set_solver..].
      apply dmem_spec. unfold dmem. by rewrite E.
    + destruct (Hall k Hk') as [|Hd]; [set_solver|].
      destruct (Hback k Hd) as [|[-> Hn]]; [by right|]. left.
      simpl in Hn. rewrite Hn. set_solver.
Qed.
End batch.

(** A batch resolves each key once.  Over the per-batch caches, every request of a batch
    gets exactly what the wrapped function returns for its key, failures included; and as
    long as the batch names no more distinct keys than the cache holds (1024), the
    function is called for each distinct key it resolves, and exactly once. *)
Theorem batch_resolves_once {A} (fn : pystr -> result (option A)) (requests : list (Z * Z * pystr))
    (Hkeys : len (remove_dups (requests.*2)) <= DEFAULT_MAX_ENTRIES) :
  let '(results, calls) := resolve_all fn batch_cache requests in
  results = (fun r => fn r.2) <$> requests /\
  NoDup (filter (fun k => resolves fn k = true) calls) /\
  (forall k, k ∈ requests.*2 -> k ∈ calls).
Proof.
  pose proof (resolve_all_spec fn (remove_dups (requests.*2)) DEFAULT_MAX_ENTRIES Hkeys batch_cache requests) as H.
  destruct (resolve_all fn batch_cache requests) as [results calls]. destruct H as (H1 & H2 & _ & H4).
  - split; [done|done|constructor|set_solver|]. intros k ex v Hin. simpl in Hin. set_solver.
  - apply Forall_forall. intros r Hr. apply elem_of_remove_dups. apply list_elem_of_fmap. eauto.
  - split_and!; try done. intros k Hk. destruct (H4 k Hk) as [|Hd]; [done|]. simpl in Hd. set_solver.
Qed.

Lemma batch_resolves_once_witness :
  let '(results, calls) := resolve_all (fun k => Ok (Some (len k))) batch_cache
    [(0, 1, $"did:a"); (2, 3, $"did:b"); (4, 5, $"did:a")] in
  results = (fun r => Ok (Some (len r.2))) <$> [(0, 1, $"did:a"); (2, 3, $"did:b"); (4, 5, $"did:a")] /\
  NoDup (filter (fun k => resolves (fun k => Ok (Some (len k))) k = true) calls) /\
  (forall k, k ∈ [(0, 1, $"did:a"); (2, 3, $"did:b"); (4, 5, $"did:a")].*2 -> k ∈ calls).
Proof. apply (batch_resolves_once (fun k => Ok (Some (len k)))). vm_compute. done. Defined.

(** Past the bound a key is resolved again: 1025 distinct keys and then the first one. *)
Definition many_keys : list pystr := (fun i => [Z.of_nat i]) <$> seq 0 1025.
Definition many_requests : list (Z * Z * pystr) := (fun k => (0, 0, k)) <$> (many_keys ++ [[0]]).

(** The bound of the batch cache shows.  [batch_resolvers] documents that each distinct
    key is resolved exactly once; a batch of 1025 distinct keys that returns to the first
    one resolves that one twice, because the caches keep the default bound of 1024
    entries. *)
Theorem batch_evicts_past_bound :
  exists calls, (resolve_all (fun k => Ok (Some (len k))) batch_cache many_requests).2 = calls /\
    len calls = 1026 /\ filter (fun k => k = [0]) calls = [[0]; [0]].
Proof. eexists. split; [reflexivity|]. split; vm_compute; reflexivity. Qed.

(** A cache without room for one entry cannot store: the [KeyError] is a bare built-in. *)
Lemma set_no_room {A} (c : TtlCache A) now key v :
  max_entries c <= 0 -> data c = [] -> set c now key v = Err KeyError.
Proof.
  intros Hm Hd. unfold set. rewrite Hd. unfold dmem, len. simpl.
  destruct (Z.leb_spec (max_entries c) (Z.of_nat 0)); [done|lia].
Qed.
