(* ===== verification/Jcs.v ===== *)
(** [openvc.proof._jcs] (src/src/openvc/proof/_jcs.py): the JSON canonicalization scheme
    of RFC 8785, which decides the bytes a JCS Data Integrity proof signs. *)
From Stdlib Require Import SpecFloat.
From S2P Require Import Prelude Errors PyStr Utf8 Json Decimal Base64 PyNum Doubles.

Definition MAX_DEPTH : Z := 100.

(** * Strings *)

(** The UTF-16 code units JCS orders member names by. *)
Definition code_units_of (cp : Z) : list Z :=
  if 65535 <? cp then
    let cp := cp - 65536 in [55296 + Z.shiftr cp 10; 56320 + Z.land cp 1023]
  else [cp].
Definition code_units (s : pystr) : list Z := concat (map code_units_of s).

Definition SHORT_ESCAPE : list (Z * pystr) :=
  [(8, $"\b"); (9, $"\t"); (10, $"\n"); (12, $"\f"); (13, $"\r"); (34, 92 :: [34]); (92, $"\\")].

Definition hex_digit (d : Z) : Z := if d <? 10 then 48 + d else 87 + d.
(** [f"\\u{cp:04x}"] for [cp < 0x20]. *)
Definition u_escape (cp : Z) : pystr := ($"\u00") ++ [hex_digit (cp / 16); hex_digit (cp mod 16)].

Definition escape_char (cp : Z) : pystr :=
  match dget SHORT_ESCAPE cp with
  | Some esc => esc
  | None => if cp <? 32 then u_escape cp else [cp]
  end.
Definition escape_string (s : pystr) : pystr := 34 :: concat (map escape_char s) ++ [34].

(** * Numbers *)

(** [int(s)] of an optional sign and digits. *)
Definition int_of (s : pystr) : Z :=
  match s with
  | c :: s' => if c =? 45 then - decimal_value s' else if c =? 43 then decimal_value s' else decimal_value s
  | [] => 0
  end.

Definition strip_zeros (s : pystr) : pystr := rstrip 48 (lstrip_zeros s).

Definition assemble_ecmascript (digits : pystr) (k n : Z) : pystr :=
  if (k <=? n) && (n <=? 21) then digits ++ repeat 48 (Z.to_nat (n - k))
  else if (0 <? n) && (n <=? 21) then take (Z.to_nat n) digits ++ [46] ++ drop (Z.to_nat n) digits
  else if (-6 <? n) && (n <=? 0) then ($"0.") ++ repeat 48 (Z.to_nat (- n)) ++ digits
  else
    let e := n - 1 in
    let exp := (if 0 <=? e then 43 else 45) :: str_of_nonneg (Z.abs e) in
    if k =? 1 then digits ++ [101] ++ exp
    else take 1 digits ++ [46] ++ drop 1 digits ++ [101] ++ exp.

(** [neg = r.startswith("-")] and what follows the sign. *)
Definition split_sign (r : pystr) : bool * pystr :=
  match r with
  | c :: r' => if c =? 45 then (true, r') else (false, r)
  | [] => (false, r)
  end.

Definition reformat_ecmascript (r : pystr) : pystr :=
  let '(neg, r) := split_sign r in
  let '(mantissa, exp_s) := partition 101 r in
  let '(int_part, frac_part) := partition 46 mantissa in
  let combined := int_part ++ frac_part in
  let point_pos := len int_part + int_of exp_s in
  let first_sig := len combined - len (lstrip_zeros combined) in
  let digits := match strip_zeros combined with [] => $"0" | d => d end in
  let n := point_pos - first_sig in
  let s := assemble_ecmascript digits (len digits) n in
  if neg then 45 :: s else s.

(** * Values *)

Fixpoint join (sep : pystr) (l : list pystr) : pystr :=
  match l with
  | [] => []
  | [t] => t
  | t :: l => t ++ sep ++ join sep l
  end.

Section jcs.
(** [repr(d)] of a finite, non-zero double: the shortest decimal that reads back as [d]. *)
Context (float_repr : spec_float -> pystr).

Definition ecmascript_double (d : spec_float) : result pystr :=
  match d with
  | S754_nan | S754_infinity _ => Err JcsError
  | S754_zero _ => Ok ($"0")
  | S754_finite _ _ _ => Ok (reformat_ecmascript (float_repr d))
  end.

Definition number (value : json) : result pystr :=
  match value with
  | JBool _ => Err JcsError
  | JInt n =>
      if (- 2 ^ 53 <? n) && (n <? 2 ^ 53) then Ok (str_of_int n)
      else d ← catch_as (fun e => isinstance e OverflowError) JcsError (float_of_int n);
           ecmascript_double d
  | JFloat f => ecmascript_double f
  | _ => Err JcsError
  end.

Fixpoint serialize (depth : Z) (value : json) : result pystr :=
  if MAX_DEPTH <? depth then Err JcsError
  else
    match value with
    | JNull => Ok ($"null")
    | JBool true => Ok ($"true")
    | JBool false => Ok ($"false")
    | JStr s => Ok (escape_string s)
    | JInt _ | JFloat _ => number value
    | JList l =>
        ts ← mapR id (map (serialize (depth + 1)) l);
        Ok (91 :: join ($",") ts ++ [93])
    | JDict d =>
        let members := sort_by (fun m => code_units m.1)
                         (map (fun kv => (kv.1, serialize (depth + 1) kv.2)) d) in
        ts ← mapR (fun m : pystr * result pystr => t ← m.2; Ok (escape_string m.1 ++ 58 :: t)) members;
        Ok (123 :: join ($",") ts ++ [125])
    | JOther => Err JcsError
    end.

Definition canonicalize (value : json) : result bytes :=
  text ← serialize 0 value;
  catch_as (fun e => isinstance e UnicodeEncodeError) JcsError (utf8_encode text).
End jcs.

Example jcs_order_ex :
  canonicalize (fun _ => []) (JDict [([64257], JInt 1); ([128512], JList [JNull]); ($"a", JStr [10])])
    = Ok (($"{") ++ [34] ++ ($"a") ++ [34] ++ ($":") ++ [34] ++ ($"\n") ++ [34] ++ ($",") ++
          [34; 240; 159; 152; 128; 34] ++ ($":[null],") ++ [34; 239; 172; 129; 34] ++ ($":1}")).
Proof. vm_compute. done. Qed.
Example jcs_number_ex :
  map reformat_ecmascript [$"1e+16"; $"1.5e-07"; $"-123.456"; $"1e+22"; $"0.0001"; $"5e-324"; $"100.0"] =
    [$"10000000000000000"; $"1.5e-7"; $"-123.456"; $"1e+22"; $"0.0001"; $"5e-324"; $"100"].
Proof. vm_compute. done. Qed.

(** * Strings are written without ambiguity *)

Definition scalar (c : Z) : Prop := is_code_point c /\ is_surrogate c = false.

#[export] Instance scalar_dec c : Decision (scalar c).
Proof. unfold scalar. apply _. Defined.

Definition unshort (l : Z) : Z :=
  if l =? 98 then 8 else if l =? 116 then 9 else if l =? 110 then 10 else if l =? 102 then 12
  else if l =? 114 then 13 else l.
Definition unhex (c : Z) : Z := if c <=? 57 then c - 48 else c - 87.

(** How a code point was written: itself, a short escape, or [\u00XX]. *)
Inductive escape_shape (c : Z) (e : pystr) : Prop :=
  | shape_raw : e = [c] -> c <> 34 -> c <> 92 -> escape_shape c e
  | shape_short l : e = [92; l] -> l <> 117 -> unshort l = c -> escape_shape c e
  | shape_u a b : e = [92; 117; 48; 48; a; b] -> unhex a * 16 + unhex b = c -> escape_shape c e.

Definition escape_shape_b (c : Z) (e : pystr) : bool :=
  match e with
  | [x] => (x =? c) && negb (c =? 34) && negb (c =? 92)
  | [x; l] => (x =? 92) && negb (l =? 117) && (unshort l =? c)
  | [x; u; z1; z2; a; b] => (x =? 92) && (u =? 117) && (z1 =? 48) && (z2 =? 48) && (unhex a * 16 + unhex b =? c)
  | _ => false
  end.

Lemma escape_shape_b_sound c e : escape_shape_b c e = true -> escape_shape c e.
Proof.
  unfold escape_shape_b. repeat (case_match; try done); rewrite ?andb_true_iff, ?negb_true_iff, ?Z.eqb_eq, ?Z.eqb_neq;
    intros; destruct_and?; subst; [by apply shape_raw|by eapply shape_short|by eapply shape_u].
Qed.

Lemma escape_char_shape c : 0 <= c -> escape_shape c (escape_char c).
Proof.
  intros Hc. destruct (Z.le_gt_cases c 92) as [Hle|Hgt].
  - apply escape_shape_b_sound.
    assert (Forall (fun c => escape_shape_b c (escape_char c) = true) (seqZ 0 93)) as H.
    { apply (bool_decide_unpack _). vm_compute. done. }
    rewrite Forall_forall in H. apply H. apply elem_of_seqZ. lia.
  - apply shape_raw; [|lia..]. unfold escape_char, SHORT_ESCAPE. cbn [dget].
    repeat rewrite decide_False by lia. by replace (c <? 32) with false by lia.
Qed.

Lemma escape_char_inj c c' x y :
  0 <= c -> 0 <= c' -> escape_char c ++ x = escape_char c' ++ y -> c = c' /\ x = y.
Proof.
  intros Hc%escape_char_shape Hc'%escape_char_shape.
  destruct Hc as [-> ? ?|l -> ? ?|a b -> ?], Hc' as [-> ? ?|l' -> ? ?|a' b' -> ?];
    cbn [app]; intros [=]; simplify_eq; done.
Qed.

Lemma escape_char_head c x : 0 <= c -> exists d t, escape_char c ++ x = d :: t /\ d <> 34.
Proof.
  intros Hc%escape_char_shape. destruct Hc as [-> ? ?|l -> ? ?|a b -> ?]; by do 2 eexists.
Qed.

Lemma escape_body_inj s s' x y :
  Forall scalar s -> Forall scalar s' ->
  concat (map escape_char s) ++ 34 :: x = concat (map escape_char s') ++ 34 :: y -> s = s' /\ x = y.
Proof.
  intros Hs. revert s'. induction Hs as [|c s [[Hc _] _] Hs IH]; intros s' Hs'; destruct Hs' as [|c' s' [[Hc' _] _] Hs'];
    cbn [map concat]; rewrite <-?(assoc_L (++)); cbn [app].
  - intros [= ->]. done.
  - intros E. destruct (escape_char_head c' (concat (map escape_char s') ++ 34 :: y) Hc') as (d & t & Hd & Hne).
    rewrite Hd in E. congruence.
  - intros E. destruct (escape_char_head c (concat (map escape_char s) ++ 34 :: x) Hc) as (d & t & Hd & Hne).
    rewrite Hd in E. congruence.
  - intros [-> E]%escape_char_inj; [|done..]. by destruct (IH _ Hs' E) as [-> ->].
Qed.

Lemma escape_string_inj s s' x y :
  Forall scalar s -> Forall scalar s' -> escape_string s ++ x = escape_string s' ++ y -> s = s' /\ x = y.
Proof.
  intros Hs Hs'. unfold escape_string. cbn [app]. rewrite <-!(assoc_L (++)). cbn [app].
  intros [= E]. by apply escape_body_inj in E.
Qed.

(** UTF-16 is faithful on scalar values, so member names never tie. *)
Lemma code_units_of_shape c :
  scalar c ->
  (code_units_of c = [c] /\ ~ 55296 <= c < 56320) \/
  (exists h l, code_units_of c = [h; l] /\ 55296 <= h < 56320 /\
     c = (h - 55296) * 1024 + (l - 56320) + 65536).
Proof.
  intros [Hcp Hsur]. unfold is_code_point, is_surrogate, code_units_of in *.
  destruct (Z.ltb_spec 65535 c).
  - right. do 2 eexists. split; [reflexivity|]. change 1023 with (2 ^ 10 - 1).
    rewrite Z.shiftr_div_pow2, land_ones_mod by lia. change (2 ^ 10) with 1024.
    Z.to_euclidean_division_equations; lia.
  - left. split; [done|]. destruct (Z.leb_spec 55296 c), (Z.leb_spec c 57343); lia.
Qed.

Lemma code_units_inj s s' :
  Forall scalar s -> Forall scalar s' -> code_units s = code_units s' -> s = s'.
Proof.
  unfold code_units. intros Hs. revert s'. induction Hs as [|c s Hc Hs IH]; intros s' Hs';
    destruct Hs' as [|c' s' Hc' Hs']; cbn [map concat]; [done|..].
  - destruct (code_units_of_shape c' Hc') as [[-> _]|(h & l & -> & _)]; done.
  - destruct (code_units_of_shape c Hc) as [[-> _]|(h & l & -> & _)]; done.
  - destruct (code_units_of_shape c Hc) as [[-> ?]|(h & l & -> & ? & ?)],
      (code_units_of_shape c' Hc') as [[-> ?]|(h' & l' & -> & ? & ?)]; cbn [app]; intros [=]; subst;
      try lia; f_equal; auto.
Qed.

(** * Decimal texts *)

Definition number_char (c : Z) : Prop := 48 <= c <= 57 \/ c = 43 \/ c = 45 \/ c = 46 \/ c = 101.
Definition number_text (t : pystr) : Prop := t <> [] /\ Forall number_char t.

Record decimal := {
  neg : bool; int_digits : pystr; frac_digits : option pystr; exp_digits : option (bool * pystr) }.

Definition decimal_ok (d : decimal) : Prop :=
  digit_string (int_digits d) /\
  match frac_digits d with Some f => digit_string f | None => True end /\
  match exp_digits d with Some (_, e) => digit_string e | None => True end.

(** [-]digits[.digits][e(+|-)digits] *)
Definition decimal_text (d : decimal) : pystr :=
  (if neg d then [45] else []) ++ int_digits d ++
  match frac_digits d with Some f => 46 :: f | None => [] end ++
  match exp_digits d with Some (s, e) => 101 :: (if s then 45 else 43) :: e | None => [] end.

(** The number a decimal denotes: a mantissa and a power of ten. *)
Definition decimal_number (d : decimal) : Z * Z :=
  let frac := default [] (frac_digits d) in
  let m := decimal_value (int_digits d ++ frac) in
  let e := match exp_digits d with
           | Some (s, e) => if s then - decimal_value e else decimal_value e
           | None => 0
           end in
  ((if neg d then - m else m), e - len frac).

Definition denotes (r : pystr) (x : Z * Z) : Prop :=
  exists d, decimal_ok d /\ r = decimal_text d /\ x = decimal_number d.

Definition same_number (x y : Z * Z) : Prop :=
  let e := Z.min x.2 y.2 in x.1 * 10 ^ (x.2 - e) = y.1 * 10 ^ (y.2 - e).

Lemma digit_string_chars s : digit_string s -> Forall number_char s.
Proof. intros [_ H]. eapply Forall_impl; [done|]. intros c ?. left. done. Qed.

Lemma denotes_number_text r x : denotes r x -> number_text r.
Proof.
  intros (d & (Hi & Hf & He) & -> & _). unfold decimal_text. split.
  - destruct Hi as [Hi _]. destruct (neg d), (int_digits d); done.
  - repeat apply Forall_app_2.
    + destruct (neg d); repeat constructor; unfold number_char; lia.
    + by apply digit_string_chars.
    + destruct (frac_digits d); [|constructor]. constructor; [unfold number_char; lia|by apply digit_string_chars].
    + destruct (exp_digits d) as [[[] e]|]; [..|constructor];
        (constructor; [unfold number_char; lia|]; constructor; [unfold number_char; lia|by apply digit_string_chars]).
Qed.

#[local] Arguments decimal_value : simpl never.

(** * Reformatting keeps the number *)

Lemma digits_absent c s : Forall (fun c => 48 <= c <= 57) s -> ~ 48 <= c <= 57 -> ~ c ∈ s.
Proof. intros Hs Hc Hin. rewrite Forall_forall in Hs. by apply Hc, Hs. Qed.

Lemma decimal_value_zeros s t : decimal_value (s ++ repeat 48 t) = decimal_value s * 10 ^ Z.of_nat t.
Proof.
  revert s. induction t as [|t IH]; intros s; simpl repeat; [rewrite app_nil_r; lia|].
  change (48 :: repeat 48 t) with ([48] ++ repeat 48 t).
  rewrite (assoc_L (++)), IH, decimal_value_snoc, Nat2Z.inj_succ, Z.pow_succ_r by lia. lia.
Qed.

Lemma decimal_value_lead t s : decimal_value (repeat 48 t ++ s) = decimal_value s.
Proof. induction t as [|t IH]; simpl; [done|]. rewrite decimal_value_cons, IH. lia. Qed.

Lemma rstrip_split c s : exists t, s = rstrip c s ++ repeat c t.
Proof.
  induction s as [|x s [t IH]]; simpl; [by exists 0%nat|].
  destruct (rstrip c s) as [|y r] eqn:E.
  - destruct (Z.eqb_spec x c) as [->|]; [exists (S t)|exists t]; cbn [app repeat] in *; congruence.
  - exists t. cbn [app] in *. congruence.
Qed.

Lemma rstrip_Forall P c s : Forall P s -> Forall P (rstrip c s).
Proof.
  intros Hs. destruct (rstrip_split c s) as [t Ht]. rewrite Ht in Hs. by apply Forall_app in Hs as [? _].
Qed.

Lemma digits_repeat t : Forall (fun c => 48 <= c <= 57) (repeat 48 t).
Proof. induction t; simpl; constructor; [lia|done]. Qed.

(** [x] is [m * 10 ^ e], spread over mantissa and exponent in some way. *)
Definition scaled (m e : Z) (x : Z * Z) : Prop :=
  exists t, 0 <= t /\ x.1 = m * 10 ^ t /\ x.2 + t = e.

Lemma scaled_same m e x y : scaled m e x -> scaled m e y -> same_number x y.
Proof.
  intros (t & Ht & Hx1 & Hx2) (u & Hu & Hy1 & Hy2). unfold same_number. rewrite Hx1, Hy1.
  rewrite <-!Z.mul_assoc, <-!Z.pow_add_r by lia. do 2 f_equal. lia.
Qed.

Definition signed (neg : bool) (m : Z) : Z := if neg then - m else m.

Lemma decimal_scaled d t :
  0 <= t -> forall m e, decimal_value (int_digits d ++ default [] (frac_digits d)) = m * 10 ^ t ->
  (decimal_number d).2 + t = e -> scaled (signed (neg d) m) e (decimal_number d).
Proof.
  intros Ht m e Hm He. exists t. split; [done|]. split; [|done].
  unfold decimal_number. cbn [fst]. rewrite Hm. unfold signed. destruct (neg d); lia.
Qed.

Lemma len_repeat {A} (x : A) n : len (repeat x n) = Z.of_nat n.
Proof. unfold len. by rewrite repeat_length. Qed.

Lemma len_app' {A} (l k : list A) : len (l ++ k) = len l + len k.
Proof. unfold len. rewrite length_app. lia. Qed.

Lemma assemble_denotes (sign : bool) digits n :
  digit_string digits ->
  exists x, denotes ((if sign then [45] else []) ++ assemble_ecmascript digits (len digits) n) x /\
            scaled (signed sign (decimal_value digits)) (n - len digits) x.
Proof.
  intros [Hne Hd]. unfold assemble_ecmascript.
  assert (1 <= len digits) as Hk by (destruct digits; [done|unfold len; simpl; lia]).
  destruct ((len digits <=? n) && (n <=? 21)) eqn:E1.
  { apply andb_true_iff in E1 as [E1%Z.leb_le _].
    set (d := {| neg := sign; int_digits := digits ++ repeat 48 (Z.to_nat (n - len digits));
                 frac_digits := None; exp_digits := None |}).
    exists (decimal_number d). split.
    - exists d. split; [|split; [|done]].
      + split; [|done]. split; [destruct digits; done|]. apply Forall_app_2; [done|apply digits_repeat].
      + unfold decimal_text. cbn. by rewrite !app_nil_r.
    - apply (decimal_scaled d (n - len digits)); [lia|..]; cbn.
      + rewrite app_nil_r, decimal_value_zeros, Z2Nat.id by lia. done.
      + unfold len at 1. simpl. lia. }
  destruct ((0 <? n) && (n <=? 21)) eqn:E2.
  { apply andb_true_iff in E2 as [E2%Z.ltb_lt E3%Z.leb_le].
    assert (n < len digits) by (destruct (Z.leb_spec (len digits) n), (Z.leb_spec n 21); try done; lia).
    set (d := {| neg := sign; int_digits := take (Z.to_nat n) digits;
                 frac_digits := Some (drop (Z.to_nat n) digits); exp_digits := None |}).
    exists (decimal_number d). split.
    - exists d. split; [|split; [|done]].
      + split; [|split; [|done]]; (split; [|by apply Forall_take || by apply Forall_drop]); cbn;
          intros H0%(f_equal length); rewrite ?length_take, ?length_drop in H0; unfold len in *; cbn [length] in H0; lia.
      + unfold decimal_text. cbn. by rewrite !app_nil_r.
    - apply (decimal_scaled d 0); [lia|..]; cbn.
      + rewrite take_drop. by rewrite Z.mul_1_r.
      + unfold len in *. rewrite length_drop. lia. }
  destruct ((-6 <? n) && (n <=? 0)) eqn:E3.
  { apply andb_true_iff in E3 as [E3%Z.ltb_lt E4%Z.leb_le].
    set (d := {| neg := sign; int_digits := [48]; frac_digits := Some (repeat 48 (Z.to_nat (- n)) ++ digits);
                 exp_digits := None |}).
    exists (decimal_number d). split.
    - exists d. split; [|split; [|done]].
      + split; [|split; [|done]]; split; try done.
        * repeat constructor; lia.
        * intros [_ ?]%app_nil. done.
        * apply Forall_app_2; [apply digits_repeat|done].
      + unfold decimal_text. cbn. by rewrite !app_nil_r.
    - apply (decimal_scaled d 0); [lia|..]; cbn [d int_digits frac_digits default from_option Datatypes.id].
      + change ([48] ++ repeat 48 (Z.to_nat (- n)) ++ digits) with (repeat 48 (S (Z.to_nat (- n))) ++ digits).
        rewrite decimal_value_lead. by rewrite Z.mul_1_r.
      + cbn. rewrite len_app', len_repeat. lia. }
  set (s := negb (0 <=? n - 1)).
  assert (exists e, digit_string e /\ str_of_nonneg (Z.abs (n - 1)) = e /\ decimal_value e = Z.abs (n - 1)) as (e & He & -> & Hev).
  { destruct (str_of_nonneg_spec (Z.abs (n - 1))) as (? & ? & _); [lia|]. by eexists. }
  replace (if 0 <=? n - 1 then 43 else 45) with (if s then 45 else 43) by (subst s; by destruct (0 <=? n - 1)).
  assert ((if s then - decimal_value e else decimal_value e) = n - 1) as Hs.
  { subst s. rewrite Hev. destruct (Z.leb_spec 0 (n - 1)); simpl; lia. }
  destruct (Z.eqb_spec (len digits) 1) as [Hone|Hmore].
  - set (d := {| neg := sign; int_digits := digits; frac_digits := None; exp_digits := Some (s, e) |}).
    exists (decimal_number d). split.
    + exists d. split; [|split; [|done]]; [by split|]. unfold decimal_text. by cbn.
    + apply (decimal_scaled d 0); [lia|..]; cbn.
      * by rewrite app_nil_r, Z.mul_1_r.
      * rewrite Hs. unfold len at 1. simpl. lia.
  - set (d := {| neg := sign; int_digits := take 1 digits; frac_digits := Some (drop 1 digits);
                 exp_digits := Some (s, e) |}).
    exists (decimal_number d). split.
    + exists d. split; [|split; [|done]].
      * split; [|split; [|done]]; (split; [|by apply Forall_take || by apply Forall_drop]); cbn [d int_digits];
          intros H0%(f_equal length); rewrite ?length_take, ?length_drop in H0; unfold len in *; cbn [length] in H0; lia.
      * unfold decimal_text. by cbn.
    + apply (decimal_scaled d 0); [lia|..]; cbn [d int_digits frac_digits exp_digits default from_option Datatypes.id].
      * rewrite take_drop. by rewrite Z.mul_1_r.
      * unfold decimal_number. cbn [snd exp_digits frac_digits d default from_option Datatypes.id].
        rewrite Hs. unfold len in *. rewrite length_drop. lia.
Qed.

Lemma scaled_zero x y : x.1 = 0 -> y.1 = 0 -> same_number x y.
Proof.
  intros Hx Hy. unfold same_number. rewrite Hx, Hy. lia.
Qed.

Lemma split_sign_spec (sign : bool) body :
  (exists c b, body = c :: b /\ c <> 45) ->
  split_sign ((if sign then [45] else []) ++ body) = (sign, body).
Proof.
  intros (c & b & -> & Hc). destruct sign; [done|]. simpl. by rewrite (proj2 (Z.eqb_neq c 45)).
Qed.

(** What the code's three cuts find in the text of a decimal. *)
Lemma decimal_text_parts d :
  decimal_ok d -> exists mant ex,
    split_sign (decimal_text d) = (neg d, mant ++ (if exp_digits d then 101 :: ex else [])) /\
    partition 101 (mant ++ (if exp_digits d then 101 :: ex else [])) = (mant, ex) /\
    partition 46 mant = (int_digits d, default [] (frac_digits d)) /\
    int_of ex = match exp_digits d with Some (s, e) => if s then - decimal_value e else decimal_value e
                                      | None => 0 end.
Proof.
  intros ([Hin Hi] & Hf & He).
  set (mant := int_digits d ++ match frac_digits d with Some f => 46 :: f | None => [] end).
  set (ex := match exp_digits d with Some (s, e) => (if s then 45 else 43) :: e | None => [] end).
  assert (decimal_text d = (if neg d then [45] else []) ++ mant ++ (if exp_digits d then 101 :: ex else [])) as ->.
  { unfold decimal_text, mant, ex. rewrite <-(assoc_L (++)). by destruct (exp_digits d) as [[]|]. }
  assert (~ 101 ∈ mant) as Hm.
  { unfold mant. intros [Hx|Hx]%elem_of_app; [by eapply digits_absent in Hx; [|done|lia]|].
    destruct (frac_digits d) as [f|]; [|set_solver]. apply elem_of_cons in Hx as [|Hx]; [lia|].
    destruct Hf as [_ Hf]. by eapply digits_absent in Hx; [|done|lia]. }
  exists mant, ex. split; [|split; [|split]].
  - apply split_sign_spec. unfold mant. destruct (int_digits d) as [|c i]; [done|]. cbn [app].
    apply Forall_cons in Hi as [Hc _]. do 2 eexists. split; [done|lia].
  - unfold ex. destruct (exp_digits d) as [[s e]|]; [by apply partition_present|].
    rewrite app_nil_r. by apply partition_absent.
  - unfold mant. assert (~ 46 ∈ int_digits d) by (eapply digits_absent; [done|lia]).
    destruct (frac_digits d); [by apply partition_present|]. rewrite app_nil_r. by apply partition_absent.
  - unfold ex. by destruct (exp_digits d) as [[[] e]|].
Qed.

(** What the parser of [repr]'s text recovers. *)
Lemma reformat_parts d :
  decimal_ok d ->
  let combined := int_digits d ++ default [] (frac_digits d) in
  let digits := match strip_zeros combined with [] => $"0" | s => s end in
  let n := (decimal_number d).2 + len (lstrip_zeros combined) in
  reformat_ecmascript (decimal_text d) =
    (if neg d then [45] else []) ++ assemble_ecmascript digits (len digits) n.
Proof.
  intros Hd combined digits n. destruct (decimal_text_parts d Hd) as (mant & ex & S & P & Q & E).
  unfold reformat_ecmascript. rewrite S, P, Q. fold combined. fold digits.
  replace (len (int_digits d) + int_of ex - (len combined - len (lstrip_zeros combined))) with n.
  2:{ unfold n, combined, decimal_number. cbn [snd]. rewrite E, len_app'. lia. }
  by destruct (neg d).
Qed.

Lemma lstrip_zeros_Forall P s : Forall P s -> Forall P (lstrip_zeros s).
Proof. induction 1; simpl; [constructor|]. case_match; [done|]. by constructor. Qed.

Lemma reformat_denotes r x :
  denotes r x -> exists y, denotes (reformat_ecmascript r) y /\ same_number x y.
Proof.
  intros (d & Hd & -> & ->). rewrite reformat_parts by done.
  set (combined := int_digits d ++ default [] (frac_digits d)).
  assert (Forall (fun c => 48 <= c <= 57) combined) as Hc.
  { destruct Hd as ([_ Hi] & Hf & _). apply Forall_app_2; [done|].
    destruct (frac_digits d) as [f|]; [apply Hf|constructor]. }
  destruct (rstrip_split 48 (lstrip_zeros combined)) as [t Ht]. fold (strip_zeros combined) in Ht.
  assert (decimal_value combined = decimal_value (strip_zeros combined) * 10 ^ Z.of_nat t) as Hv.
  { by rewrite <-lstrip_zeros_value, Ht, decimal_value_zeros. }
  assert (Forall (fun c => 48 <= c <= 57) (strip_zeros combined)) as Hs.
  { by apply rstrip_Forall, lstrip_zeros_Forall. }
  destruct (strip_zeros combined) as [|c s] eqn:E.
  - destruct (assemble_denotes (neg d) ($"0") ((decimal_number d).2 + len (lstrip_zeros combined))) as (y & Hy & u & _ & Hy1 & _).
    { split; [done|]. repeat constructor; vm_compute; done. }
    exists y. split; [exact Hy|]. apply scaled_zero.
    + unfold decimal_number. cbn [fst]. fold combined. rewrite Hv. destruct (neg d); vm_compute; done.
    + rewrite Hy1. unfold signed. by destruct (neg d).
  - rewrite <-E in *. destruct (assemble_denotes (neg d) (strip_zeros combined)
      ((decimal_number d).2 + len (lstrip_zeros combined))) as (y & Hy & Hsc).
    { split; [by rewrite E|done]. }
    exists y. split; [rewrite E in *; exact Hy|]. eapply scaled_same; [|exact Hsc].
    apply (decimal_scaled d (Z.of_nat t)); [lia|done|].
    rewrite Ht, len_app', len_repeat. lia.
Qed.

(** Reformatting keeps the number.  The ECMAScript layout of a decimal in the shape of
    Python's [repr] is again a JSON decimal, and it denotes the same number: neither the
    moved point, nor the dropped zeros, nor the new exponent changes the value signed. *)
Theorem reformat_same_number (r : pystr) (x : Z * Z) (Hr : denotes r x) :
  exists y, denotes (reformat_ecmascript r) y /\ same_number x y.
Proof. by apply reformat_denotes. Qed.

Lemma reformat_same_number_witness :
  exists y, denotes (reformat_ecmascript ($"1.5e+22")) y /\ same_number (15, 21) y.
Proof.
  apply reformat_same_number. exists {| neg := false; int_digits := $"1"; frac_digits := Some ($"5");
    exp_digits := Some (false, $"22") |}.
  split; [|split; vm_compute; reflexivity].
  split; [|split]; (split; [done|]); repeat constructor; vm_compute; done.
Defined.

(** * Two documents canonicalize alike exactly when they hold the same data *)

(** Equality of JSON values up to the order of an object's members, given when two numbers
    are the same. *)
Inductive same_upto (same : json -> json -> Prop) : json -> json -> Prop :=
  | same_null : same_upto same JNull JNull
  | same_bool b : same_upto same (JBool b) (JBool b)
  | same_str s : same_upto same (JStr s) (JStr s)
  | same_num v1 v2 : same v1 v2 -> same_upto same v1 v2
  | same_list l1 l2 : Forall2 (same_upto same) l1 l2 -> same_upto same (JList l1) (JList l2)
  | same_dict d1 d2 d1' d2' :
      d1' ≡ₚ d1 -> d2' ≡ₚ d2 ->
      Forall2 (fun m1 m2 => m1.1 = m2.1 /\ same_upto same m1.2 m2.2) d1' d2' ->
      same_upto same (JDict d1) (JDict d2).

Section injective.
Context (float_repr : spec_float -> pystr).
(** [repr] writes a decimal. *)
Context (Hrepr : forall s m e, exists x, denotes (float_repr (S754_finite s m e)) x).

(** Documents a JSON text yields: distinct member names, Unicode scalar values only. *)
Fixpoint json_wf (v : json) : Prop :=
  match v with
  | JStr s => Forall scalar s
  | JList l => (fix all l := match l with [] => True | v :: l => json_wf v /\ all l end) l
  | JDict d => dict_ok d /\
      (fix all d := match d with [] => True | (k, v) :: d => (Forall scalar k /\ json_wf v) /\ all d end) d
  | JFloat f => is_double f
  | JOther => False
  | _ => True
  end.

Lemma json_wf_list l : json_wf (JList l) <-> Forall json_wf l.
Proof using. induction l as [|v l IH]; simpl in *; [done|]. by rewrite Forall_cons, <-IH. Qed.

Lemma json_wf_dict d :
  json_wf (JDict d) <-> dict_ok d /\ Forall (fun kv => Forall scalar kv.1 /\ json_wf kv.2) d.
Proof using.
  simpl. apply and_iff_compat_l. induction d as [|[k v] d IH]; simpl; [done|]. by rewrite Forall_cons, <-IH.
Qed.

(** Two numbers with one canonical text. *)
Definition num_text (v1 v2 : json) : Prop := exists t, number float_repr v1 = Ok t /\ number float_repr v2 = Ok t.

Abbreviation same_text := (same_upto num_text).

Lemma ecmascript_double_text d t : ecmascript_double float_repr d = Ok t -> number_text t.
Proof using Hrepr.
  destruct d as [s|s| |s m e]; cbn; try done.
  - intros [= <-]. change ($"0") with [48]. split; [done|]. constructor; [by left|constructor].
  - intros [= <-]. destruct (Hrepr s m e) as [x (y & Hy & _)%reformat_denotes].
    by eapply denotes_number_text.
Qed.

Lemma number_Ok v t :
  number float_repr v = Ok t -> number_text t /\ ((exists n, v = JInt n) \/ exists f, v = JFloat f).
Proof using Hrepr.
  unfold number. destruct v as [| |n|f| | | |]; try done.
  - split; [|eauto]. destruct ((- 2 ^ 53 <? n) && (n <? 2 ^ 53)).
    + injection H as <-. unfold str_of_int.
      assert (forall n, 0 <= n -> number_text (str_of_nonneg n)) as Hs.
      { intros k (Hd & _)%str_of_nonneg_spec. split; [apply Hd|by apply digit_string_chars]. }
      destruct (Z.ltb_spec n 0); [|by apply Hs]. destruct (Hs (- n)) as [Hne Hc]; [lia|].
      split; [done|]. constructor; [right; right; by left|done].
    + apply bind_Ok in H as (d & _ & H). by eapply ecmascript_double_text.
  - split; [by eapply ecmascript_double_text|eauto].
Qed.

(** The first character tells the kind of value. *)
Definition kind (v : json) (c : Z) : Prop :=
  match v with
  | JNull => c = 110
  | JBool true => c = 116
  | JBool false => c = 102
  | JStr _ => c = 34
  | JInt _ | JFloat _ => number_char c
  | JList _ => c = 91
  | JDict _ => c = 123
  | JOther => False
  end.

Lemma serialize_depth depth v t : serialize float_repr depth v = Ok t -> (MAX_DEPTH <? depth) = false.
Proof using. destruct v; cbn; by destruct (MAX_DEPTH <? depth). Qed.

Lemma serialize_kind depth v t :
  serialize float_repr depth v = Ok t -> exists c t', t = c :: t' /\ kind v c.
Proof using Hrepr.
  intros H. apply serialize_depth in H as Hd.
  destruct v as [|[]|n|f|s|l|d|]; cbn [serialize] in H; rewrite Hd in H; try by (injection H as <-; do 2 eexists).
  - apply number_Ok in H as [[Hne Hc] _]. destruct t as [|c t]; [done|]. apply Forall_cons in Hc as [Hc _].
    by do 2 eexists.
  - apply number_Ok in H as [[Hne Hc] _]. destruct t as [|c t]; [done|]. apply Forall_cons in Hc as [Hc _].
    by do 2 eexists.
  - apply bind_Ok in H as (ts & _ & [= <-]). by do 2 eexists.
  - apply bind_Ok in H as (ts & _ & [= <-]). by do 2 eexists.
  - done.
Qed.

(** Where a value's text ends. *)
Definition delim (r : pystr) : Prop := match r with [] => True | c :: _ => c = 44 \/ c = 93 \/ c = 125 end.

Lemma number_span t1 t2 r1 r2 :
  Forall number_char t1 -> Forall number_char t2 -> delim r1 -> delim r2 ->
  t1 ++ r1 = t2 ++ r2 -> t1 = t2 /\ r1 = r2.
Proof using.
  intros H1. revert t2. induction H1 as [|c t1 Hc H1 IH]; intros t2 H2 Hr1 Hr2; destruct H2 as [|c2 t2 Hc2 H2];
    cbn [app]; intros E.
  - done.
  - subst r1. cbn in Hr1. unfold number_char in Hc2. lia.
  - subst r2. cbn in Hr2. unfold number_char in Hc. lia.
  - injection E as <- E. by destruct (IH _ H2 Hr1 Hr2 E) as [-> ->].
Qed.

(** A bracketed, comma-separated list of unambiguous texts is unambiguous. *)
Lemma join_inj {A} (enc1 enc2 : A -> pystr -> Prop) (R : A -> A -> Prop) close l1 ts1 :
  close = 93 \/ close = 125 ->
  (forall x t, enc1 x t \/ enc2 x t -> exists c t', t = c :: t' /\ c <> close) ->
  Forall (fun x => forall y t1 t2 r1 r2, enc1 x t1 -> enc2 y t2 -> delim r1 -> delim r2 ->
    t1 ++ r1 = t2 ++ r2 -> R x y /\ r1 = r2) l1 ->
  Forall2 enc1 l1 ts1 -> forall l2 ts2, Forall2 enc2 l2 ts2 -> forall r1 r2,
  join ($",") ts1 ++ close :: r1 = join ($",") ts2 ++ close :: r2 -> Forall2 R l1 l2 /\ r1 = r2.
Proof using.
  intros Hclose Hhead Hall Henc. change ($",") with [44].
  set (tail := fun (ts : list pystr) r => match ts with [] => close :: r | _ => 44 :: join [44] ts ++ close :: r end).
  assert (forall t ts r, join [44] (t :: ts) ++ close :: r = t ++ tail ts r) as Hjoin.
  { intros t [|t' ts] r; [done|]. cbn [join tail]. by rewrite <-!(assoc_L (++)). }
  assert (forall ts r, delim (tail ts r)) as Hdelim.
  { intros [] r; cbn; lia. }
  revert ts1 Henc. induction Hall as [|x l1 Hx Hall IH]; intros ts1 Henc l2 ts2 Henc2 r1 r2;
    destruct Henc2 as [|y t2 l2 ts2 Hy Henc2].
  - apply Forall2_nil_inv_l in Henc as ->. cbn. by intros [= ->].
  - apply Forall2_nil_inv_l in Henc as ->. rewrite Hjoin. destruct (Hhead y t2) as (c & t' & -> & Hne); [by right|].
    cbn. intros [= -> _]. done.
  - apply Forall2_cons_inv_l in Henc as (t1 & ts1' & Ht1 & Henc & ->). rewrite Hjoin.
    destruct (Hhead x t1) as (c & t' & -> & Hne); [by left|]. cbn. intros [= -> _]. done.
  - apply Forall2_cons_inv_l in Henc as (t1 & ts1' & Ht1 & Henc & ->). rewrite !Hjoin. intros E.
    destruct (Hx y t1 t2 _ _ Ht1 Hy (Hdelim _ _) (Hdelim _ _) E) as [HR Htail].
    destruct ts1' as [|t1' ts1'], ts2 as [|t2' ts2]; cbn [tail] in Htail.
    + injection Htail as ->. apply Forall2_nil_inv_r in Henc as ->. apply Forall2_nil_inv_r in Henc2 as ->.
      by split; [repeat constructor|].
    + exfalso. injection Htail. lia.
    + exfalso. injection Htail. lia.
    + injection Htail as Htail. destruct (IH _ Henc _ _ Henc2 _ _ Htail) as [HF ->]. by split; [constructor|].
Qed.

Definition enc_value (v : json) (t : pystr) : Prop := json_wf v /\ exists depth, serialize float_repr depth v = Ok t.
Definition enc_member (m : pystr * json) (t : pystr) : Prop :=
  Forall scalar m.1 /\ exists tv, t = escape_string m.1 ++ 58 :: tv /\ enc_value m.2 tv.
Definition same_member (m1 m2 : pystr * json) : Prop := m1.1 = m2.1 /\ same_text m1.2 m2.2.

(** The members in the order they are written. *)
Definition ordered (d : jobject) : jobject := sort_by (fun m => code_units m.1) d.

Lemma serialize_list depth l t :
  json_wf (JList l) -> serialize float_repr depth (JList l) = Ok t ->
  exists ts, t = 91 :: join ($",") ts ++ [93] /\ Forall2 enc_value l ts.
Proof using.
  intros Hwf%json_wf_list H. apply serialize_depth in H as Hd. cbn [serialize] in H. rewrite Hd in H.
  apply bind_Ok in H as (ts & Hts & [= <-]). rewrite mapR_map in Hts. apply mapR_Ok in Hts.
  exists ts. split; [done|]. eapply Forall2_impl_elem; [exact Hts|]. intros v tv Hin Hv.
  rewrite Forall_forall in Hwf. split; [by apply Hwf|]. exists (depth + 1). exact Hv.
Qed.

Lemma serialize_dict depth d t :
  json_wf (JDict d) -> serialize float_repr depth (JDict d) = Ok t ->
  exists ts, t = 123 :: join ($",") ts ++ [125] /\ Forall2 enc_member (ordered d) ts.
Proof using.
  intros [_ Hwf]%json_wf_dict H. apply serialize_depth in H as Hd. cbn [serialize] in H. rewrite Hd in H.
  apply bind_Ok in H as (ts & Hts & [= <-]). rewrite sort_by_map, mapR_map in Hts. apply mapR_Ok in Hts.
  exists ts. split; [done|]. eapply Forall2_impl_elem; [exact Hts|]. intros m tm Hin Hm.
  cbn in Hm. unfold ordered in Hin. rewrite elem_of_sort_by in Hin. rewrite Forall_forall in Hwf. destruct (Hwf _ Hin) as [Hk Hv].
  apply bind_Ok in Hm as (tv & Htv & [= <-]). split; [done|]. exists tv. split; [done|]. split; [done|]. by eexists.
Qed.

Definition unambiguous (v : json) : Prop := forall v2 t1 t2 r1 r2,
  enc_value v t1 -> enc_value v2 t2 -> delim r1 -> delim r2 -> t1 ++ r1 = t2 ++ r2 -> same_text v v2 /\ r1 = r2.

Lemma kinds_agree v v2 t1 t2 r1 r2 :
  enc_value v t1 -> enc_value v2 t2 -> t1 ++ r1 = t2 ++ r2 ->
  exists c t1' t2', t1 = c :: t1' /\ t2 = c :: t2' /\ kind v c /\ kind v2 c /\ t1' ++ r1 = t2' ++ r2.
Proof using Hrepr.
  intros (_ & d1 & H1) (_ & d2 & H2) E. apply serialize_kind in H1 as (c & t1' & -> & Hk1).
  apply serialize_kind in H2 as (c2 & t2' & -> & Hk2). injection E as <- E. by exists c, t1', t2'.
Qed.

Lemma number_serialize v depth t n f :
  v = JInt n \/ v = JFloat f -> serialize float_repr depth v = Ok t -> number float_repr v = Ok t.
Proof using.
  intros Hv H. apply serialize_depth in H as Hd. destruct Hv as [-> | ->]; cbn [serialize] in H; by rewrite Hd in H.
Qed.

Lemma numbers_unambiguous v : ((exists n, v = JInt n) \/ exists f, v = JFloat f) -> unambiguous v.
Proof using Hrepr.
  intros Hv v2 t1 t2 r1 r2 E1 E2 Hr1 Hr2 E.
  destruct (kinds_agree _ _ _ _ _ _ E1 E2 E) as (c & t1' & t2' & -> & -> & Hk1 & Hk2 & _).
  assert (number_char c) as Hc by (destruct Hv as [[n ->]|[f ->]]; exact Hk1).
  assert ((exists n, v2 = JInt n) \/ exists f, v2 = JFloat f) as Hv2.
  { destruct v2 as [|[]| | | | | |]; cbn in Hk2; eauto; unfold number_char in Hc; lia. }
  destruct E1 as (_ & d1 & E1), E2 as (_ & d2 & E2).
  assert (number float_repr v = Ok (c :: t1')) as H1.
  { destruct Hv as [[n Hv]|[f Hv]]; [apply (number_serialize v d1 _ n S754_nan)|apply (number_serialize v d1 _ 0 f)]; auto. }
  assert (number float_repr v2 = Ok (c :: t2')) as H2.
  { destruct Hv2 as [[n Hv2]|[f Hv2]]; [apply (number_serialize v2 d2 _ n S754_nan)|apply (number_serialize v2 d2 _ 0 f)]; auto. }
  apply number_Ok in H1 as Hn1. apply number_Ok in H2 as Hn2. destruct Hn1 as [[_ Hn1] _], Hn2 as [[_ Hn2] _].
  destruct (number_span _ _ _ _ Hn1 Hn2 Hr1 Hr2 E) as [Et ->]. split; [|done].
  rewrite <-Et in H2. apply same_num. by eexists.
Qed.

Lemma value_head v t : enc_value v t -> exists c t', t = c :: t' /\ c <> 93 /\ c <> 125.
Proof using Hrepr.
  intros (_ & d & H). apply serialize_kind in H as (c & t' & -> & Hk). exists c, t'. split; [done|].
  destruct v as [|[]| | | | | |]; cbn in Hk; unfold number_char in Hk; lia.
Qed.

Lemma members_unambiguous m : unambiguous m.2 ->
  forall m2 t1 t2 r1 r2, enc_member m t1 -> enc_member m2 t2 -> delim r1 -> delim r2 ->
  t1 ++ r1 = t2 ++ r2 -> same_member m m2 /\ r1 = r2.
Proof using.
  intros Hv m2 t1 t2 r1 r2 (Hk1 & tv1 & -> & Hv1) (Hk2 & tv2 & -> & Hv2) Hr1 Hr2.
  rewrite <-!(assoc_L (++)). intros [Ek E]%escape_string_inj; [|done..]. cbn [app] in E. injection E as E.
  destruct (Hv _ _ _ _ _ Hv1 Hv2 Hr1 Hr2 E) as [Hs ->]. by split.
Qed.

Lemma all_unambiguous v : unambiguous v.
Proof using Hrepr.
  induction v as [|b|n|f|s|l IH|d IH|] using json_ind'; try (apply numbers_unambiguous; by eauto);
    intros v2 t1 t2 r1 r2 E1 E2 Hr1 Hr2 E;
    destruct (kinds_agree _ _ _ _ _ _ E1 E2 E) as (c & t1' & t2' & Ht1 & Ht2 & Hk1 & Hk2 & E').
  - destruct v2 as [|[]| | | | | |]; cbn in Hk1, Hk2; subst c; unfold number_char in *; try lia.
    destruct E1 as (_ & d1 & E1), E2 as (_ & d2 & E2). apply serialize_depth in E1 as H1, E2 as H2.
    cbn in E1, E2. rewrite H1 in E1. rewrite H2 in E2. simplify_eq. split; [constructor|]. congruence.
  - destruct b, v2 as [|[]| | | | | |]; cbn in Hk1, Hk2; subst c; unfold number_char in *; try lia;
    destruct E1 as (_ & d1 & E1), E2 as (_ & d2 & E2); apply serialize_depth in E1 as H1, E2 as H2;
    cbn in E1, E2; rewrite H1 in E1; rewrite H2 in E2; simplify_eq; (split; [constructor|]); congruence.
  - destruct v2 as [|[]| | |s2| | |]; cbn in Hk1, Hk2; subst c; unfold number_char in *; try lia.
    destruct E1 as (Hw1 & d1 & E1), E2 as (Hw2 & d2 & E2). apply serialize_depth in E1 as H1, E2 as H2.
    cbn [serialize] in E1, E2. rewrite H1 in E1. rewrite H2 in E2. injection E1 as <-. injection E2 as <-.
    apply escape_string_inj in E as [-> ->]; [|done..]. split; [constructor|done].
  - destruct v2 as [|[]| | | |l2| |]; cbn in Hk1, Hk2; subst c; unfold number_char in *; try lia.
    destruct E1 as (Hw1 & d1 & E1), E2 as (Hw2 & d2 & E2).
    apply serialize_list in E1 as (ts1 & -> & F1); [|done]. apply serialize_list in E2 as (ts2 & -> & F2); [|done].
    cbn [app] in E. injection E as E. rewrite <-!(assoc_L (++)) in E. cbn [app] in E.
    destruct (join_inj enc_value enc_value same_text 93 l ts1) with (l2 := l2) (ts2 := ts2) (r1 := r1) (r2 := r2)
      as [HF ->]; try done; [by left| |by split; [constructor|]].
    intros x t [Hx|Hx]; destruct (value_head x t Hx) as (c & t' & -> & ? & ?); eauto.
  - destruct v2 as [|[]| | | | |d2|]; cbn in Hk1, Hk2; subst c; unfold number_char in *; try lia.
    destruct E1 as (Hw1 & n1 & E1), E2 as (Hw2 & n2 & E2).
    apply serialize_dict in E1 as (ts1 & -> & F1); [|done]. apply serialize_dict in E2 as (ts2 & -> & F2); [|done].
    cbn [app] in E. injection E as E. rewrite <-!(assoc_L (++)) in E. cbn [app] in E.
    destruct (join_inj enc_member enc_member same_member 125 (ordered d) ts1)
      with (l2 := ordered d2) (ts2 := ts2) (r1 := r1) (r2 := r2) as [HF ->]; try done; [by right|..].
    + intros m t [(_ & tv & -> & _)|(_ & tv & -> & _)]; unfold escape_string; cbn [app]; by do 2 eexists.
    + apply Forall_forall. intros m Hm. unfold ordered in Hm. rewrite elem_of_sort_by in Hm.
      rewrite Forall_forall in IH. apply members_unambiguous. by apply IH.
    + split; [|done]. eapply same_dict; [apply sort_by_perm..|exact HF].
  - done.
Qed.

(** ** The same data is written the same way *)
Lemma member_keys_NoDup d :
  dict_ok d -> Forall (fun kv => Forall scalar kv.1 /\ json_wf kv.2) d -> NoDup ((fun m => code_units m.1) <$> d).
Proof using.
  unfold dict_ok. induction d as [|[k v] d IH]; csimpl; intros Hd Hs; [constructor|].
  apply NoDup_cons in Hd as [Hni Hd]. apply Forall_cons in Hs as [[Hk _] Hs]. constructor; [|by apply IH].
  intros ((k' & v') & E & Hin)%list_elem_of_fmap. cbn in E, Hk. apply Hni.
  rewrite Forall_forall in Hs. destruct (Hs _ Hin) as [Hk' _]. apply code_units_inj in E; [|done..]. subst.
  apply list_elem_of_fmap. by exists (k', v').
Qed.

Lemma serialize_same v1 v2 depth :
  json_wf v1 -> json_wf v2 -> same_text v1 v2 -> serialize float_repr depth v1 = serialize float_repr depth v2.
Proof using Hrepr.
  revert v2 depth. induction v1 as [|b|n|f|s|l IH|d IH|] using json_ind'; intros v2 depth Hw1 Hw2 Hs;
    inversion Hs as [| | |? ? (t & N1 & N2)|? l2 HF|? d2 d1' d2' P1 P2 HF]; subst; try done;
    try (apply number_Ok in N2 as Hv2; destruct Hv2 as [_ [[n2 ->]|[f2 ->]]]; cbn [serialize]; by rewrite N1, N2);
    try (apply number_Ok in N1 as [_ [[? ?]|[? ?]]]; done).
  - apply json_wf_list in Hw1, Hw2. cbn [serialize]. destruct (MAX_DEPTH <? depth); [done|].
    assert (map (serialize float_repr (depth + 1)) l = map (serialize float_repr (depth + 1)) l2) as ->; [|done].
    clear Hs. induction HF as [|x y l l2 Hxy HF IHF]; [done|]. apply Forall_cons in IH as [IHx IH], Hw1 as [Hx Hw1], Hw2 as [Hy Hw2].
    cbn [map]. f_equal; [by apply IHx|by apply IHF].
  - apply json_wf_dict in Hw1 as [Hd1 Hw1], Hw2 as [Hd2 Hw2]. cbn [serialize].
    destruct (MAX_DEPTH <? depth); [done|].
    set (f := fun kv : pystr * json => (kv.1, serialize float_repr (depth + 1) kv.2)).
    assert (map f d1' = map f d2') as Hm.
    { assert (Forall (fun kv => forall v2 depth, json_wf kv.2 -> json_wf v2 -> same_text kv.2 v2 ->
        serialize float_repr depth kv.2 = serialize float_repr depth v2) d1') as IH' by by rewrite P1.
      assert (Forall (fun kv => Forall scalar kv.1 /\ json_wf kv.2) d1') as Hw1' by by rewrite P1.
      assert (Forall (fun kv => Forall scalar kv.1 /\ json_wf kv.2) d2') as Hw2' by by rewrite P2.
      clear -HF IH' Hw1' Hw2'. induction HF as [|x y d1' d2' [Hk Hxy] HF IHF]; [done|].
      apply Forall_cons in IH' as [IHx IH'], Hw1' as [[_ Hx] Hw1'], Hw2' as [[_ Hy] Hw2'].
      cbn [map]. f_equal; [|by apply IHF]. unfold f. rewrite Hk. f_equal. by apply IHx. }
    rewrite (sort_by_unique (fun m => code_units m.1) (map f d) (map f d2)); [done|..].
    + rewrite <-list_fmap_compose. by apply member_keys_NoDup.
    + rewrite <-P1, <-P2. by rewrite Hm.
Qed.

(** ** A canonical text is a Python string *)
Lemma escape_string_ok s : Forall scalar s -> pystr_ok (escape_string s).
Proof using.
  intros Hs. unfold escape_string, pystr_ok. constructor; [done|]. apply Forall_app_2; [|by repeat constructor].
  induction Hs as [|c s [Hc _] Hs IH]; cbn [map concat]; [constructor|]. apply Forall_app_2; [|done].
  destruct (Z.le_gt_cases c 92) as [Hle|Hgt].
  - assert (Forall (fun c => pystr_ok (escape_char c)) (seqZ 0 93)) as H.
    { apply (bool_decide_unpack _). vm_compute. done. }
    rewrite Forall_forall in H. apply H. apply elem_of_seqZ. destruct Hc. lia.
  - unfold escape_char, SHORT_ESCAPE. cbn [dget]. repeat rewrite decide_False by lia.
    replace (c <? 32) with false by lia. by apply Forall_singleton.
Qed.

Lemma join_ok ts : Forall pystr_ok ts -> pystr_ok (join ($",") ts).
Proof using.
  change ($",") with [44]. induction 1 as [|t ts Ht Hts IH]; [constructor|]. destruct ts; [done|].
  cbn [join]. apply Forall_app_2; [done|]. constructor; done.
Qed.

Lemma serialize_ok v depth t : json_wf v -> serialize float_repr depth v = Ok t -> pystr_ok t.
Proof using Hrepr.
  assert (forall t, number_text t -> pystr_ok t) as Hnum.
  { intros t' [_ H]. eapply Forall_impl; [exact H|]. intros c Hc. unfold number_char in Hc. unfold is_code_point. lia. }
  revert depth t. induction v as [|b|n|f|s|l IH|d IH|] using json_ind'; intros depth t Hw H;
    apply serialize_depth in H as Hd.
  - cbn in H. rewrite Hd in H. injection H as <-. by repeat constructor.
  - destruct b; cbn in H; rewrite Hd in H; injection H as <-; by repeat constructor.
  - cbn [serialize] in H. rewrite Hd in H. apply Hnum. by apply number_Ok in H as [? _].
  - cbn [serialize] in H. rewrite Hd in H. apply Hnum. by apply number_Ok in H as [? _].
  - cbn [serialize] in H. rewrite Hd in H. injection H as <-. by apply escape_string_ok.
  - apply json_wf_list in Hw as Hw'. cbn [serialize] in H. rewrite Hd in H. apply bind_Ok in H as (ts & Hts & [= <-]).
    rewrite mapR_map in Hts. apply mapR_Ok in Hts. constructor; [done|]. apply Forall_app_2; [|by repeat constructor].
    apply join_ok. rewrite Forall_forall in IH, Hw'. clear -Hts IH Hw'.
    induction Hts as [|x y l ts Hx Hts IHt]; constructor; [|apply IHt; set_solver].
    eapply IH; [left|apply Hw'; left|exact Hx].
  - apply json_wf_dict in Hw as [_ Hw']. cbn [serialize] in H. rewrite Hd in H. apply bind_Ok in H as (ts & Hts & [= <-]).
    rewrite sort_by_map, mapR_map in Hts. apply mapR_Ok in Hts. constructor; [done|].
    apply Forall_app_2; [|by repeat constructor]. apply join_ok.
    apply (Forall2_Forall_r _ _ _ _ Hts). apply Forall_forall. intros [k v] Hin y Hy.
    rewrite elem_of_sort_by in Hin. rewrite Forall_forall in IH, Hw'. destruct (Hw' _ Hin) as [Hk Hv].
    cbn in Hy, Hk, Hv. apply bind_Ok in Hy as (tv & Htv & [= <-]).
    apply (Forall_app_2 _ (escape_string k)); [by apply escape_string_ok|]. constructor; [done|]. by eapply (IH _ Hin).
  - done.
Qed.
End injective.

Abbreviation same_text float_repr := (same_upto (num_text float_repr)).

Lemma canonicalize_inj (float_repr : spec_float -> pystr)
    (Hrepr : forall s m e, exists x, denotes (float_repr (S754_finite s m e)) x)
    (v1 v2 : json) (H1 : json_wf v1) (H2 : json_wf v2) (b : bytes) :
  canonicalize float_repr v1 = Ok b -> canonicalize float_repr v2 = Ok b -> same_text float_repr v1 v2.
Proof.
  unfold canonicalize. intros Hb Hb2.
  apply bind_Ok in Hb as (t1 & Ht1 & Hb). apply bind_Ok in Hb2 as (t2 & Ht2 & Hb2).
  assert (forall t, catch_as (fun e => isinstance e UnicodeEncodeError) JcsError (utf8_encode t) = Ok b ->
    utf8_encode t = Ok b) as Hcatch by (intros t; destruct (utf8_encode t); cbn; [done|by case_match]).
  apply Hcatch in Hb, Hb2.
  assert (t1 = t2) as <-.
  { eapply utf8_encode_inj; [by apply (serialize_ok float_repr Hrepr v1 0)
      |by apply (serialize_ok float_repr Hrepr v2 0)|exact Hb|exact Hb2]. }
  destruct (all_unambiguous float_repr Hrepr v1 v2 t1 t1 [] []) as [Hs _]; try done.
  + split; [done|]. by eexists.
  + split; [done|]. by eexists.
Qed.

(** * Numbers: the same text exactly for the same double *)

(** ** The number a decimal text denotes *)

Lemma same_number_at k x y :
  k <= x.2 -> k <= y.2 -> same_number x y <-> x.1 * 10 ^ (x.2 - k) = y.1 * 10 ^ (y.2 - k).
Proof.
  intros Hx Hy. unfold same_number. set (e := Z.min x.2 y.2).
  replace (x.2 - k) with (x.2 - e + (e - k)) by lia. replace (y.2 - k) with (y.2 - e + (e - k)) by lia.
  rewrite !Z.pow_add_r, !Z.mul_assoc by lia. assert (0 < 10 ^ (e - k)) by (apply Z.pow_pos_nonneg; lia). nia.
Qed.

#[export] Instance same_number_equiv : Equivalence same_number.
Proof.
  split.
  - by intros x.
  - intros x y. rewrite !(same_number_at (Z.min x.2 y.2)) by lia. done.
  - intros x y z. set (k := Z.min x.2 (Z.min y.2 z.2)). rewrite !(same_number_at k) by lia. congruence.
Qed.

Lemma denotes_unique r x y : denotes r x -> denotes r y -> x = y.
Proof.
  intros (d & Hd & -> & ->) (d' & Hd' & E & ->).
  destruct (decimal_text_parts d Hd) as (m & ex & S1 & P1 & Q1 & E1).
  destruct (decimal_text_parts d' Hd') as (m' & ex' & S2 & P2 & Q2 & E2).
  rewrite E, S2 in S1. injection S1 as Hn Hr. rewrite Hr, P1 in P2. injection P2 as -> ->.
  rewrite Q1 in Q2. injection Q2 as Hi Hf. unfold decimal_number. by rewrite <-E1, E2, Hi, Hf, Hn.
Qed.

(** ** An integer keeps its own digits *)

Notation digits := (Forall (fun c => 48 <= c <= 57)).

Lemma digits_same_value s s' :
  digits s -> digits s' -> length s = length s' -> decimal_value s = decimal_value s' -> s = s'.
Proof.
  intros H. revert s'. induction H as [|c s Hc H IH]; intros s' H' El Ev; destruct H' as [|c' s' Hc' H']; try done.
  injection El as El. rewrite !decimal_value_cons in Ev.
  pose proof (decimal_value_bounds s H) as B. pose proof (decimal_value_bounds s' H') as B'.
  assert (len s = len s') as Hl by (unfold len; lia). rewrite Hl in *.
  assert (c = c') as ->.
  { set (P := 10 ^ len s') in *. destruct (Z.lt_trichotomy c c') as [H1|[H1|H1]]; [exfalso|done|exfalso].
    - assert (P <= (c' - c) * P) by nia. lia.
    - assert (P <= (c - c') * P) by nia. lia. }
  f_equal. apply IH; [done..|lia].
Qed.

Lemma lstrip_zeros_length s : (length (lstrip_zeros s) <= length s)%nat.
Proof. induction s as [|y s IH]; simpl; [lia|]. case_match; simpl; lia. Qed.

Lemma lstrip_zeros_fixed c s : lstrip_zeros (c :: s) = c :: s <-> c <> 48.
Proof.
  cbn [lstrip_zeros]. destruct (Z.eqb_spec c 48) as [->|]; [|done]. split; [|done].
  intros H%(f_equal length). pose proof (lstrip_zeros_length s). cbn in H. lia.
Qed.

Lemma no_leading_zero s :
  s <> [] -> digits s -> lstrip_zeros s = s -> 10 ^ (len s - 1) <= decimal_value s < 10 ^ len s.
Proof.
  intros Hne Hs Hl. split; [|by apply decimal_value_bounds]. destruct Hs as [|c s Hc Hs]; [done|].
  apply lstrip_zeros_fixed in Hl. rewrite decimal_value_cons. pose proof (decimal_value_bounds s Hs).
  replace (len (c :: s) - 1) with (len s) by (unfold len; cbn [length]; lia).
  assert (0 < 10 ^ len s) by (apply Z.pow_pos_nonneg; unfold len; lia). nia.
Qed.

(** Digits with no leading zero are the text of their value. *)
Lemma digits_canonical s :
  s <> [] -> digits s -> lstrip_zeros s = s -> s = str_of_nonneg (decimal_value s).
Proof.
  intros Hne Hs Hl. pose proof (no_leading_zero s Hne Hs Hl) as B.
  assert (0 < 10 ^ (len s - 1)) as Hp by (apply Z.pow_pos_nonneg; [lia|]; destruct s; unfold len; cbn [length]; [done|lia]).
  destruct (str_of_nonneg_spec (decimal_value s)) as ([Hne' Hs'] & Ev & Hl'); [lia|]. specialize (Hl' ltac:(lia)).
  pose proof (no_leading_zero _ Hne' Hs' Hl') as B'. rewrite Ev in B'. set (s' := str_of_nonneg _) in *.
  apply digits_same_value; try done. destruct (Z.lt_trichotomy (len s) (len s')) as [H|[H|H]]; [|unfold len in H; lia|].
  - assert (10 ^ len s <= 10 ^ (len s' - 1)) by (apply Z.pow_le_mono_r; lia). lia.
  - assert (10 ^ len s' <= 10 ^ (len s - 1)) by (apply Z.pow_le_mono_r; lia). lia.
Qed.

Lemma rstrip_last c s a x : rstrip c s = a ++ [x] -> x <> c.
Proof.
  revert a. induction s as [|y s IH]; intros a; cbn [rstrip]; [by destruct a|].
  destruct (rstrip c s) as [|z r] eqn:E.
  - destruct (Z.eqb_spec y c) as [->|Hne]; intros H; [by destruct a|]. destruct a as [|? [|]]; simplify_eq/=; done.
  - intros H. destruct a as [|? a]; [done|]. cbn in H. injection H as -> H. by eapply IH.
Qed.

Lemma strip_zeros_mod s : digits s -> strip_zeros s <> [] -> decimal_value (strip_zeros s) mod 10 <> 0.
Proof.
  intros Hs Hne. unfold strip_zeros in *.
  assert (digits (rstrip 48 (lstrip_zeros s))) as Hd by (by apply rstrip_Forall, lstrip_zeros_Forall).
  destruct (rstrip 48 (lstrip_zeros s)) as [|x a _] eqn:E using rev_ind; [done|].
  apply rstrip_last in E. apply Forall_app in Hd as [_ [Hx _]%Forall_cons].
  rewrite decimal_value_snoc, Z.add_comm, Z.mod_add by lia. rewrite Z.mod_small by lia. lia.
Qed.

Lemma lstrip_zeros_idem s : lstrip_zeros (lstrip_zeros s) = lstrip_zeros s.
Proof. induction s as [|c s IH]; cbn [lstrip_zeros]; [done|]. case_match eqn:E; [done|]. cbn [lstrip_zeros]. by rewrite E. Qed.

(** What is laid out: the significant digits and their power of ten. *)
Lemma reformat_digits r x :
  denotes r x -> x.1 <> 0 -> exists (sign : bool) D u,
    reformat_ecmascript r = (if sign then [45] else []) ++ assemble_ecmascript D (len D) (u + len D) /\
    same_number x (signed sign (decimal_value D), u) /\
    D <> [] /\ digits D /\ lstrip_zeros D = D /\ decimal_value D mod 10 <> 0.
Proof.
  intros (d & Hd & -> & ->) Hx. rewrite reformat_parts by done.
  set (combined := int_digits d ++ default [] (frac_digits d)). set (e := (decimal_number d).2).
  assert (digits combined) as Hc.
  { destruct Hd as ([_ Hi] & Hf & _). apply Forall_app_2; [done|].
    destruct (frac_digits d) as [f|]; [apply Hf|constructor]. }
  destruct (rstrip_split 48 (lstrip_zeros combined)) as [t Ht]. fold (strip_zeros combined) in Ht.
  assert ((decimal_number d).1 = signed (neg d) (decimal_value (strip_zeros combined) * 10 ^ Z.of_nat t)) as Hv.
  { unfold decimal_number. cbn [fst]. fold combined. by rewrite <-lstrip_zeros_value, Ht, decimal_value_zeros. }
  pose proof (strip_zeros_mod _ Hc) as Hmod.
  assert (digits (strip_zeros combined)) as HD by (by apply rstrip_Forall, lstrip_zeros_Forall).
  destruct (strip_zeros combined) as [|c D'] eqn:ED; [rewrite Hv in Hx; by destruct (neg d)|].
  cbv zeta. rewrite <-ED in *. exists (neg d), (strip_zeros combined), (e + Z.of_nat t).
  split; [rewrite ED at 1; rewrite <-ED; do 2 f_equal; rewrite Ht, len_app', len_repeat; lia|].
  split; [|split; [by rewrite ED|]; split; [done|]; split; [|apply Hmod; by rewrite ED]].
  - apply (same_number_at e); [done|cbn; lia|]. cbn [fst snd]. fold e. rewrite Hv, Z.sub_diag.
    replace (e + Z.of_nat t - e) with (Z.of_nat t) by lia. unfold signed. destruct (neg d); lia.
  - assert (strip_zeros combined <> []) as Hne by (by rewrite ED).
    destruct (lstrip_zeros combined) as [|y l] eqn:El; [by rewrite ED in Ht|].
    pose proof (lstrip_zeros_idem combined) as Hi. rewrite El in Hi. apply lstrip_zeros_fixed in Hi.
    rewrite ED in Ht |- *. cbn [app] in Ht. injection Ht as -> Ht. by apply lstrip_zeros_fixed.
Qed.

Lemma same_number_integer m u n :
  same_number (m, u) (n, 0) -> m mod 10 <> 0 -> 0 <= u /\ m * 10 ^ u = n.
Proof.
  intros H Hm. destruct (Z.le_gt_cases 0 u) as [Hu|Hu].
  - split; [done|]. rewrite (same_number_at 0) in H by (cbn; lia). cbn [fst snd] in H.
    by rewrite !Z.sub_0_r, Z.mul_1_r in H.
  - exfalso. rewrite (same_number_at u) in H by (cbn; lia). cbn [fst snd] in H.
    rewrite Z.sub_diag, Z.mul_1_r in H. replace (0 - u) with (-u - 1 + 1) in H by lia.
    rewrite Z.pow_add_r, Z.mul_assoc in H by lia. apply Hm. subst m. by apply Z.mod_mul.
Qed.

(** The layout of a decimal that denotes an integer of at most 21 digits is that integer. *)
Lemma reformat_integer r x n :
  denotes r x -> same_number x (n, 0) -> n <> 0 -> Z.abs n < 10 ^ 21 -> reformat_ecmascript r = str_of_int n.
Proof.
  intros Hr Hx Hn0 Hn. assert (x.1 <> 0) as Hx0.
  { intros E. rewrite (same_number_at (Z.min x.2 0)) in Hx by (cbn; lia). cbn [fst snd] in Hx. rewrite E in Hx.
    assert (0 < 10 ^ (0 - Z.min x.2 0)) by (apply Z.pow_pos_nonneg; lia). nia. }
  destruct (reformat_digits r x Hr Hx0) as (sign & D & u & -> & Hs & HDne & HD & Hl & Hmod).
  rewrite Hx in Hs. symmetry in Hs. apply same_number_integer in Hs as [Hu Hv].
  2: { unfold signed. destruct sign; [|done]. rewrite Z.mod_opp_l_nz; [|done..].
       pose proof (Z.mod_pos_bound (decimal_value D) 10). lia. }
  pose proof (no_leading_zero D HDne HD Hl) as B. set (t := Z.to_nat u).
  assert (Z.abs n = decimal_value (D ++ repeat 48 t)) as Ha.
  { rewrite decimal_value_zeros. unfold t. rewrite Z2Nat.id by done. unfold signed in Hv.
    assert (0 < 10 ^ u) by (by apply Z.pow_pos_nonneg). destruct sign; nia. }
  assert (D ++ repeat 48 t = str_of_nonneg (Z.abs n)) as Hstr.
  { rewrite Ha. apply digits_canonical; [by destruct D|apply Forall_app_2; [done|apply digits_repeat]|].
    destruct D as [|c D]; [done|]. cbn [app]. apply lstrip_zeros_fixed. by apply lstrip_zeros_fixed in Hl. }
  assert (u + len D <= 21) as H21.
  { destruct (Z.le_gt_cases (u + len D) 21) as [|Hlt]; [done|exfalso].
    assert (10 ^ 21 <= 10 ^ (len D - 1 + u)) by (apply Z.pow_le_mono_r; lia).
    assert (0 <= len D - 1) by (destruct D; [done|unfold len; cbn [length]; lia]).
    rewrite Z.pow_add_r in * by lia. rewrite decimal_value_zeros in Ha. unfold t in Ha. rewrite Z2Nat.id in Ha by done.
    assert (0 < 10 ^ u) by (by apply Z.pow_pos_nonneg). nia. }
  unfold assemble_ecmascript. replace ((len D <=? u + len D) && (u + len D <=? 21)) with true by lia.
  replace (u + len D - len D) with u by lia. fold t. rewrite Hstr. unfold str_of_int, signed in *.
  assert (0 < 10 ^ u) by (by apply Z.pow_pos_nonneg).
  assert (0 < decimal_value D) by (destruct (Z.eq_dec (decimal_value D) 0) as [E|]; [by rewrite E in Hmod|lia]).
  destruct sign, (Z.ltb_spec n 0); try nia; cbn [app]; f_equal; f_equal; lia.
Qed.

(** ** The double a JSON number is *)

(** RFC 8785: a JSON number is the nearest binary64; its value is exact. *)
Definition number_double (v : json) : option spec_float :=
  match v with
  | JInt n => match float_of_int n with Ok f => Some f | Err _ => None end
  | JFloat f => Some f
  | _ => None
  end.

(** Two numbers have the same value, as doubles; a NaN or an infinity has none. *)
Definition same_numeric (v1 v2 : json) : Prop :=
  exists f1 f2 x1 x2, number_double v1 = Some f1 /\ number_double v2 = Some f2 /\
    finite_value f1 = Some x1 /\ finite_value f2 = Some x2 /\ same_value x1 x2.

(** The same data: objects up to the order of their members, numbers up to their value. *)
Abbreviation same_json := (same_upto same_numeric).

Definition nonzero_double (f : spec_float) : Prop :=
  is_double f /\ match f with S754_finite _ _ _ => True | _ => False end.

(** What the language promises of [repr] on a finite, non-zero double [f], [shortest f] being
    the decimal it chooses: a number in decimal notation; with the double's sign;
    [float(repr(f)) == f], so that two doubles never share a decimal; and the shortest that
    reads back, which for an integral double below [2 ^ 53] is that integer. *)
Record repr_spec (float_repr : spec_float -> pystr) (shortest : spec_float -> Z * Z) : Prop := {
  repr_denotes s m e : denotes (float_repr (S754_finite s m e)) (shortest (S754_finite s m e));
  repr_sign s m e : is_double (S754_finite s m e) -> Z.sgn (shortest (S754_finite s m e)).1 = if s then -1 else 1;
  repr_reads_back f g : nonzero_double f -> nonzero_double g -> same_number (shortest f) (shortest g) -> f = g;
  repr_integral f x n : nonzero_double f -> finite_value f = Some x -> same_value x (n, 0) ->
    - 2 ^ 53 < n < 2 ^ 53 -> same_number (shortest f) (n, 0) }.

Section numbers.
Context (float_repr : spec_float -> pystr) (shortest : spec_float -> Z * Z).
Context (Hrepr : repr_spec float_repr shortest).

Lemma same_value_zero x n : same_value x (n, 0) -> x.1 = 0 <-> n = 0.
Proof using.
  unfold same_value. cbn [fst snd]. intros E.
  assert (0 < 2 ^ (x.2 - Z.min x.2 0)) by (apply Z.pow_pos_nonneg; lia).
  assert (0 < 2 ^ (0 - Z.min x.2 0)) by (apply Z.pow_pos_nonneg; lia). split; intros E0; rewrite E0 in E; nia.
Qed.

(** The code writes a number as the double it is. *)
Lemma number_as_double v :
  json_wf v -> number float_repr v =
    match number_double v with Some f => ecmascript_double float_repr f | None => Err JcsError end.
Proof using Hrepr.
  destruct v as [| |n|f| | | |]; try done. intros _. cbn [number number_double].
  destruct ((- 2 ^ 53 <? n) && (n <? 2 ^ 53)) eqn:En.
  - apply andb_true_iff in En as [E1%Z.ltb_lt E2%Z.ltb_lt].
    destruct (float_of_int_exact n) as (f & x & -> & Hf & Hx & Hv); [lia|].
    pose proof (same_value_zero _ _ Hv) as H0.
    destruct f as [s|s| |s m e]; cbn in Hx; try done.
    + injection Hx as <-. by rewrite (proj1 H0 eq_refl).
    + assert (n <> 0) by (injection Hx as <-; cbn in H0; destruct s; naive_solver).
      cbn [ecmascript_double]. f_equal. symmetry.
      apply (reformat_integer _ (shortest (S754_finite s m e))); [apply (repr_denotes _ _ Hrepr)| |done|lia].
      by apply (repr_integral _ _ Hrepr _ x).
  - destruct (float_of_int n) as [f|e] eqn:Ef; [done|]. unfold float_of_int in Ef.
    destruct (binary_normalize _ _ _ _ _); [done| |done..]. by injection Ef as <-.
Qed.

Lemma number_double_ok v f : json_wf v -> number_double v = Some f -> is_double f.
Proof using.
  destruct v as [| |n|f'| | | |]; try done; cbn; [|congruence].
  intros _. destruct (float_of_int n) as [f'|e] eqn:Ef; [|done]. intros [= <-]. by apply float_of_int_double in Ef as [? _].
Qed.

(** A non-zero double is never written as zero. *)
Lemma ecmascript_nonzero f s m e t :
  f = S754_finite s m e -> is_double f -> ecmascript_double float_repr f = Ok t ->
  exists y, denotes t y /\ same_number (shortest f) y /\ y.1 <> 0.
Proof using Hrepr.
  intros -> Hf [= <-]. destruct (reformat_denotes _ _ (repr_denotes _ _ Hrepr s m e)) as (y & Hy & Hs).
  exists y. split; [done|]. split; [done|]. intros E. pose proof (repr_sign _ _ Hrepr s m e Hf) as Hsgn.
  rewrite (same_number_at (Z.min (shortest (S754_finite s m e)).2 y.2)) in Hs by lia. rewrite E in Hs.
  assert ((shortest (S754_finite s m e)).1 = 0) as E'.
  { match type of Hs with _ * ?p = _ => assert (0 < p) by (apply Z.pow_pos_nonneg; lia) end. nia. }
  rewrite E' in Hsgn. by destruct s.
Qed.

Lemma zero_denotes y : denotes ($"0") y -> y.1 = 0.
Proof using.
  intros H. rewrite (denotes_unique _ _ (0, 0) H); [done|].
  exists {| neg := false; int_digits := $"0"; frac_digits := None; exp_digits := None |}.
  split; [|done]. split; [|done]. split; [done|]. repeat constructor; vm_compute; done.
Qed.

Lemma ecmascript_inj f g t :
  is_double f -> is_double g -> ecmascript_double float_repr f = Ok t -> ecmascript_double float_repr g = Ok t ->
  exists x y, finite_value f = Some x /\ finite_value g = Some y /\ same_value x y.
Proof using Hrepr.
  intros Hf Hg Ef Eg.
  destruct f as [s|s| |s m e] eqn:E1, g as [s'|s'| |s' m' e'] eqn:E2; try done; rewrite <-E1, <-E2 in *.
  - subst f g. by do 2 eexists.
  - destruct (ecmascript_nonzero g s' m' e' t E2 Hg Eg) as (y & Hy & _ & Hy0). subst f. injection Ef as <-.
    by apply zero_denotes in Hy.
  - destruct (ecmascript_nonzero f s m e t E1 Hf Ef) as (y & Hy & _ & Hy0). subst g. injection Eg as <-.
    by apply zero_denotes in Hy.
  - destruct (ecmascript_nonzero f s m e t E1 Hf Ef) as (y & Hy & Sy & _).
    destruct (ecmascript_nonzero g s' m' e' t E2 Hg Eg) as (z & Hz & Sz & _).
    rewrite (denotes_unique _ _ _ Hy Hz) in Sy. assert (f = g) as <-.
    { apply (repr_reads_back _ _ Hrepr); [by split; [|subst f]|by split; [|subst g]|]. by rewrite Sy. }
    subst f. by do 2 eexists.
Qed.

(** A number's canonical text is that of every number with its value, and of no other. *)
Lemma number_faithful v1 v2 t :
  json_wf v1 -> json_wf v2 -> number float_repr v1 = Ok t -> number float_repr v2 = Ok t <-> same_numeric v1 v2.
Proof using Hrepr.
  intros W1 W2 H1. rewrite number_as_double in H1 by done. rewrite number_as_double by done.
  destruct (number_double v1) as [f|] eqn:E1; [|done]. pose proof (number_double_ok _ _ W1 E1) as Hf.
  unfold same_numeric. rewrite E1. split.
  - destruct (number_double v2) as [g|] eqn:E2; [|done]. intros H2.
    destruct (ecmascript_inj f g t Hf (number_double_ok _ _ W2 E2) H1 H2) as (x & y & ? & ? & ?).
    by exists f, g, x, y.
  - intros (? & g & x & y & [= <-] & E2 & Hx & Hy & E). rewrite E2.
    destruct (double_value_inj f g x y Hf (number_double_ok _ _ W2 E2) Hx Hy E) as [<-|[[s ->] [s' ->]]]; done.
Qed.

Lemma same_upto_impl (P Q : json -> json -> Prop) :
  (forall v1 v2, json_wf v1 -> json_wf v2 -> P v1 v2 -> Q v1 v2) ->
  forall v1 v2, json_wf v1 -> json_wf v2 -> same_upto P v1 v2 -> same_upto Q v1 v2.
Proof using.
  intros HPQ v1. induction v1 as [|b|n|f|s|l IH|d IH|] using json_ind'; intros v2 W1 W2 H;
    inversion H as [| | |? ? Hn|? l2 HF|? d2 d1' d2' P1 P2 HF]; subst; try apply same_null; try apply same_bool; try apply same_str;
    try (apply same_num; by apply HPQ).
  - apply same_list. apply json_wf_list in W1, W2. clear H. induction HF as [|x y l l2 Hxy HF IHF]; [constructor|].
    apply Forall_cons in IH as [IHx IH], W1 as [Wx W1], W2 as [Wy W2]. constructor; [by apply IHx|by apply IHF].
  - eapply same_dict; [exact P1|exact P2|]. apply json_wf_dict in W1 as [_ W1], W2 as [_ W2].
    rewrite <-P1 in W1, IH. rewrite <-P2 in W2. clear -HF IH W1 W2. induction HF as [|x y d1' d2' [Hk Hxy] HF IHF]; [constructor|].
    apply Forall_cons in IH as [IHx IH], W1 as [[_ Wx] W1], W2 as [[_ Wy] W2].
    constructor; [split; [done|by apply IHx]|by apply IHF].
Qed.

(** Equality by text is equality by value. *)
Lemma same_json_text v1 v2 :
  json_wf v1 -> json_wf v2 -> same_text float_repr v1 v2 <-> same_json v1 v2.
Proof using Hrepr.
  intros W1 W2. split.
  - apply same_upto_impl; [|done..]. intros x y Wx Wy (t' & N1 & N2). by apply (number_faithful x y t').
  - apply same_upto_impl; [|done..]. intros x y Wx Wy Hs.
    assert (exists t', number float_repr x = Ok t') as [t' N].
    { destruct Hs as (f & _ & z & _ & E & _ & Hz & _). rewrite number_as_double, E by done. destruct f; try done; by eexists. }
    exists t'. split; [done|]. by apply (number_faithful x y t').
Qed.
End numbers.

Lemma repr_spec_decimal float_repr shortest : repr_spec float_repr shortest ->
  forall s m e, exists x, denotes (float_repr (S754_finite s m e)) x.
Proof. intros H s m e. eexists. apply (repr_denotes _ _ H). Qed.

(** C35: Canonicalization is faithful.  For two documents a JSON text yields, the JCS bytes
    are equal exactly when the documents hold the same data: the order of an object's
    members and the spelling of a number do not change them, and nothing else can be
    changed without changing them, so a signature over the bytes pins the document.  Two
    numbers are the same when they have the same value as binary64, whatever text the
    canonicalizer gives them. *)
Theorem canonicalize_faithful (float_repr : spec_float -> pystr) (shortest : spec_float -> Z * Z)
    (Hrepr : repr_spec float_repr shortest)
    (v1 v2 : json) (H1 : json_wf v1) (H2 : json_wf v2) (b : bytes)
    (Hb : canonicalize float_repr v1 = Ok b) :
  canonicalize float_repr v2 = Ok b <-> same_json v1 v2.
Proof.
  pose proof (repr_spec_decimal _ _ Hrepr) as Hdec.
  rewrite <-(same_json_text float_repr shortest Hrepr v1 v2) by done.
  split; [by eapply canonicalize_inj|]. unfold canonicalize in *.
  intros Hs. by rewrite <-(serialize_same float_repr Hdec v1 v2 0).
Qed.

(** A [repr] that keeps its promises: the exact decimal expansion. *)
Definition exact_mantissa (m : positive) (e : Z) : Z := Z.pos m * 2 ^ Z.max e 0 * 5 ^ Z.max (- e) 0.
Definition exact_number (f : spec_float) : Z * Z :=
  match f with S754_finite s m e => (signed s (exact_mantissa m e), Z.min e 0) | _ => (0, 0) end.
Definition exact_decimal (s : bool) (m : positive) (e : Z) : decimal :=
  {| neg := s; int_digits := str_of_nonneg (exact_mantissa m e); frac_digits := None;
     exp_digits := Some (true, str_of_nonneg (- Z.min e 0)) |}.
Definition exact_repr (f : spec_float) : pystr :=
  match f with S754_finite s m e => decimal_text (exact_decimal s m e) | _ => $"0" end.

Lemma exact_mantissa_pos m e : 0 < exact_mantissa m e.
Proof.
  unfold exact_mantissa. assert (0 < 2 ^ Z.max e 0) by (apply Z.pow_pos_nonneg; lia).
  assert (0 < 5 ^ Z.max (- e) 0) by (apply Z.pow_pos_nonneg; lia). nia.
Qed.

Lemma exact_scale m e k : k <= Z.min e 0 ->
  exact_mantissa m e * 10 ^ (Z.min e 0 - k) = Z.pos m * 2 ^ (e - k) * 5 ^ (- k).
Proof.
  intros Hk. unfold exact_mantissa. change 10 with (2 * 5). rewrite Z.pow_mul_l.
  replace (e - k) with (Z.max e 0 + (Z.min e 0 - k)) by lia.
  replace (- k) with (Z.max (- e) 0 + (Z.min e 0 - k)) by lia. rewrite !Z.pow_add_r by lia. ring.
Qed.

Lemma exact_same_number m e x k (s : bool) :
  k <= Z.min e 0 -> signed s (exact_mantissa m e) * 10 ^ (Z.min e 0 - k) = x * 5 ^ (- k) <->
  (if s then Z.neg m else Z.pos m) * 2 ^ (e - k) = x.
Proof.
  intros Hk. pose proof (exact_scale m e k Hk) as E. assert (0 < 5 ^ (- k)) by (apply Z.pow_pos_nonneg; lia).
  replace (signed s (exact_mantissa m e) * 10 ^ (Z.min e 0 - k))
    with ((if s then Z.neg m else Z.pos m) * 2 ^ (e - k) * 5 ^ (- k)).
  - split; intros H'; [|by rewrite H']. by apply Z.mul_reg_r in H'; [|lia].
  - unfold signed. destruct s; [|lia]. rewrite Z.mul_opp_l, E. lia.
Qed.

Lemma exact_repr_spec : repr_spec exact_repr exact_number.
Proof.
  split.
  - intros s m e. exists (exact_decimal s m e).
    destruct (str_of_nonneg_spec (exact_mantissa m e)) as (H1 & V1 & _); [pose proof (exact_mantissa_pos m e); lia|].
    destruct (str_of_nonneg_spec (- Z.min e 0)) as (H2 & V2 & _); [lia|].
    split; [by split|]. split; [done|]. unfold decimal_number, exact_decimal. cbn [exp_digits frac_digits int_digits neg default from_option Datatypes.id].
    rewrite app_nil_r, V1, V2. unfold signed. cbn [exact_number]. f_equal. unfold len. cbn. lia.
  - intros s m e _. pose proof (exact_mantissa_pos m e). cbn. unfold signed. destruct s; lia.
  - intros f g [Hf Nf] [Hg Ng] E. destruct f as [| | |s m e], g as [| | |s' m' e']; try done.
    destruct (double_value_inj _ _ (if s then Z.neg m else Z.pos m, e) (if s' then Z.neg m' else Z.pos m', e') Hf Hg)
      as [?|[[? ?] _]]; try done.
    set (k := Z.min (Z.min e 0) (Z.min e' 0)). cbn [exact_number] in E.
    rewrite (same_number_at k) in E by (cbn; lia). cbn [fst snd] in E.
    rewrite (same_value_at k) by (cbn; lia). cbn [fst snd].
    apply (exact_same_number m e _ k s); [lia|]. rewrite E.
    by apply (exact_same_number m' e' _ k s'); [lia|].
  - intros f x n [_ Nf] Hx Hv _. destruct f as [| | |s m e]; try done. injection Hx as <-.
    set (k := Z.min e 0). cbn [exact_number]. rewrite (same_number_at k) by (cbn; lia). cbn [fst snd].
    rewrite (same_value_at k) in Hv by (cbn; lia). cbn [fst snd] in Hv.
    change 10 with (2 * 5) at 2. rewrite Z.pow_mul_l, Z.mul_assoc. replace (5 ^ (0 - k)) with (5 ^ (- k)) by done.
    apply (exact_same_number m e _ k s); [lia|done].
Qed.

(** [{"b": null, "a": 1}] against [{"a": 1.0, "b": null}]. *)
Lemma canonicalize_faithful_witness :
  canonicalize exact_repr (JDict [($"b", JNull); ($"a", JFloat (S754_finite false (2 ^ 52) (-52)))]) =
    Ok (123 :: [34; 97; 34; 58; 49; 44; 34; 98; 34; 58; 110; 117; 108; 108; 125])
  <-> same_json (JDict [($"a", JInt 1); ($"b", JNull)])
        (JDict [($"b", JNull); ($"a", JFloat (S754_finite false (2 ^ 52) (-52)))]).
Proof.
  apply (canonicalize_faithful exact_repr exact_number exact_repr_spec).
  - split; [by apply (bool_decide_unpack _); vm_compute|]. repeat split; by apply (bool_decide_unpack _); vm_compute.
  - split; [by apply (bool_decide_unpack _); vm_compute|]. repeat split; by apply (bool_decide_unpack _); vm_compute.
  - vm_compute. reflexivity.
Defined.

(** A number and its opposite are different data, and have different bytes. *)
Example sign_kept :
  canonicalize exact_repr (JFloat (S754_finite true 3 (-1))) = Ok ($"-1.5") /\
  canonicalize exact_repr (JFloat (S754_finite false 3 (-1))) = Ok ($"1.5").
Proof. vm_compute. done. Qed.
Lemma serialize_errs float_repr v depth : errs_in (eq JcsError) (serialize float_repr depth v).
Proof.
  assert (forall d, errs_in (eq JcsError) (ecmascript_double float_repr d)) as Hd.
  { intros d. unfold ecmascript_double. solve_errs. }
  revert depth. induction v as [|b|n|f|s|l IH|d IH|] using json_ind'; intros depth; cbn [serialize];
    (destruct (MAX_DEPTH <? depth); [by apply errs_in_Err|]); try solve [solve_errs].
  - cbn [number]. case_match; [solve_errs|]. apply errs_in_bind; [|intros; apply Hd].
    unfold float_of_int. case_match; cbn; solve_errs.
  - apply errs_in_bind; [|intros; solve_errs]. rewrite mapR_map. apply mapR_errs_in. intros x Hx.
    rewrite Forall_forall in IH. by apply IH.
  - apply errs_in_bind; [|intros; solve_errs]. rewrite sort_by_map, mapR_map. apply mapR_errs_in.
    intros kv Hin. rewrite elem_of_sort_by in Hin. rewrite Forall_forall in IH.
    apply errs_in_bind; [by apply IH|intros; solve_errs].
Qed.

Lemma serialize_bounded float_repr v depth t :
  serialize float_repr depth v = Ok t -> json_depth v + depth <= MAX_DEPTH + 1.
Proof.
  revert depth t. induction v as [|b|n|f|s|l IH|d IH|] using json_ind'; intros depth t H;
    apply serialize_depth in H as Hd; apply Z.ltb_ge in Hd as Hle; try (cbn [json_depth]; lia).
  - cbn [serialize] in H. rewrite Hd in H. apply bind_Ok in H as (ts & Hts & _).
    rewrite mapR_map in Hts. apply mapR_Ok in Hts.
    assert (max_depth l + depth <= MAX_DEPTH) as Hmax; [|rewrite json_depth_children; cbn [is_container children]; lia].
    clear -Hts IH Hle. induction Hts as [|x y l ts Hx Hts IHt]; [cbn; lia|].
    apply Forall_cons in IH as [IHx IH]. cbn [max_depth foldr]. apply IHx in Hx. specialize (IHt IH).
    unfold max_depth in IHt. lia.
  - cbn [serialize] in H. rewrite Hd in H. apply bind_Ok in H as (ts & Hts & _).
    rewrite sort_by_map, mapR_map in Hts. apply mapR_Ok in Hts.
    assert (forall kv, kv ∈ d -> json_depth kv.2 + depth <= MAX_DEPTH) as Hall.
    { intros kv Hin. rewrite <-(elem_of_sort_by (fun x => code_units x.1)) in Hin.
      destruct (Forall2_elem_l _ _ _ _ Hts Hin) as (y & _ & Hy). cbn in Hy. apply bind_Ok in Hy as (tv & Hy & _).
      rewrite Forall_forall in IH. rewrite elem_of_sort_by in Hin. specialize (IH _ Hin _ _ Hy). lia. }
    assert (max_depth d.*2 + depth <= MAX_DEPTH) as Hmax; [|rewrite json_depth_children; cbn [is_container children]; lia].
    clear -Hall Hle. induction d as [|kv d IHd]; [cbn; lia|]. cbn [max_depth foldr fmap list_fmap].
    assert (max_depth d.*2 + depth <= MAX_DEPTH) by (apply IHd; intros; apply Hall; by right).
    pose proof (Hall kv ltac:(left)). unfold max_depth in *. lia.
Qed.

(** Canonicalization fails closed.  On every value, however deep or ill-formed, it
    returns bytes or raises [JcsError], and a value that nests containers past the bound
    is an error. *)
Theorem canonicalize_errors (float_repr : spec_float -> pystr) (v : json) :
  errs_in (eq JcsError) (canonicalize float_repr v) /\
  (MAX_DEPTH + 1 < json_depth v -> canonicalize float_repr v = Err JcsError).
Proof.
  assert (errs_in (eq JcsError) (canonicalize float_repr v)) as Hall.
  { unfold canonicalize. apply errs_in_bind; [apply serialize_errs|]. intros t _ e.
    destruct (utf8_encode t) as [b|e'] eqn:E; [done|]. apply utf8_encode_errs in E as <-. by intros [= ->]. }
  split; [exact Hall|]. intros Hd. destruct (canonicalize float_repr v) as [b|e] eqn:E.
  - unfold canonicalize in E. apply bind_Ok in E as (t & Ht%serialize_bounded & _). lia.
  - by rewrite <-(Hall e).
Qed.

Definition deep (n : nat) : json := Nat.iter n (fun v => JList [v]) (JInt 0).

Lemma canonicalize_errors_witness : canonicalize (fun _ => []) (deep 102) = Err JcsError.
Proof. apply (canonicalize_errors (fun _ => []) (deep 102)). vm_compute. done. Defined.
