(* ===== verification/VerifyCommon.v ===== *)
(** [openvc.proof._verify_common] (src/src/openvc/proof/_verify_common.py): the policy
    checks every proof suite shares: validity windows, NumericDate claims, audiences,
    freshness, proof purpose and presentation binding, and the algorithm a key selects.

    An instant is a number of microseconds since the epoch in UTC; the caller's clock
    readings are arguments.  The error class a function is told to raise is an argument
    where the code takes one. *)
From Stdlib Require Import SpecFloat.
From S2P Require Import Prelude Errors PyStr Json PyNum Decimal Multibase.

Definition MAX_LEEWAY_S : Z := 86400.
Definition DEFAULT_LEEWAY_S : Z := 60.
Definition DEFAULT_KB_MAX_AGE_S : Z := 300.

Definition reject_unknown_crit (header : jobject) : result unit :=
  raise_if (dmem header ($"crit")) MalformedToken.

Definition issuer_identifiers (issuer : json) : list json :=
  match issuer with
  | JDict d => omap (fun key => dget d key) [$"id"; $"@id"]
  | _ => [issuer]
  end.

(** * Leeways and ages *)

Definition leeway_seconds (value : json) (error : exn) : result Z :=
  match value with
  | JInt n => if (0 <=? n) && (n <=? MAX_LEEWAY_S) then Ok n else Err error
  | _ => Err error
  end.

Definition non_negative_seconds (value : json) (error : exn) : result Z :=
  match value with
  | JInt n => if n <? 0 then Err error else Ok n
  | _ => Err error
  end.

(** * Timestamps *)

Section timestamps.
(** Unicode white space and decimal digits, and [datetime.fromisoformat]: a local time in
    microseconds and its UTC offset, if the text names one. *)
Context (is_space is_decimal : Z -> bool).
Context (fromisoformat : pystr -> option (Z * option Z)).

Fixpoint span_digits (s : pystr) : pystr * pystr :=
  match s with
  | c :: s' => if is_decimal c then let '(ds, r) := span_digits s' in (c :: ds, r) else ([], s)
  | [] => ([], [])
  end.

(** [_FRACTION.sub(..., count=1)]: the first fraction, cut or padded to six digits. *)
Fixpoint normalise_fraction (s : pystr) : pystr :=
  match s with
  | [] => []
  | c :: s' =>
      if c =? 46 then
        match span_digits s' with
        | ([], _) => c :: normalise_fraction s'
        | (ds, r) => c :: take 6 (ds ++ $"000000") ++ r
        end
      else c :: normalise_fraction s'
  end.

Definition ends_with_z (s : pystr) : bool :=
  match reverse s with c :: _ => (c =? 90) || (c =? 122) | [] => false end.

Definition parse_ts (value : json) : option Z :=
  match value with
  | JStr [] => None
  | JStr v =>
      let text := strip is_space v in
      let text := if ends_with_z text then take (length text - 1) text ++ $"+00:00" else text in
      match fromisoformat (normalise_fraction text) with
      | Some (wall, offset) => Some (wall - default 0 offset)
      | None => None
      end
  | _ => None
  end.

Fixpoint bound (document : jobject) (keys : list pystr) : result (option Z) :=
  match keys with
  | [] => Ok None
  | key :: keys =>
      let raw := jget document key in
      if is_none raw || match raw with JStr s => bool_decide (strip is_space s = []) | _ => false end
      then bound document keys
      else match parse_ts raw with
           | Some ts => Ok (Some ts)
           | None => Err MalformedTimestamp
           end
  end.

(** [instant] is the caller's [now], read by [utc_window]. *)
Definition check_validity_window (document proof : jobject) (instant : Z) (leeway_s : json)
    (check_temporal : bool) : result bool :=
  leeway ← leeway_seconds leeway_s ProofError;
  let leeway := leeway * 1000000 in
  not_before ← bound document [$"validFrom"; $"issuanceDate"];
  raise_if (match not_before with Some t => leeway <? t - instant | None => false end) CredentialNotYetValid;;
  not_after ← bound document [$"validUntil"; $"expirationDate"];
  let past := match not_after with Some t => leeway <? instant - t | None => false end in
  raise_if (past && check_temporal) CredentialExpired;;
  proof_expires ← bound proof [$"expires"; $"expirationDate"];
  let proof_past := match proof_expires with Some t => leeway <? instant - t | None => false end in
  raise_if (proof_past && check_temporal) CredentialExpired;;
  Ok (past || proof_past).
End timestamps.

(** * NumericDate claims *)

Definition is_numeric_date (value : json) : bool :=
  match as_num value with
  | Some v => match isfinite v with Ok b => b | Err _ => false end
  | None => false
  end.

Definition check_numeric_dates (claims : jobject) (names : list pystr) : result unit :=
  raise_if (existsb (fun name => match dget claims name with
                                 | Some v => negb (is_numeric_date v)
                                 | None => false
                                 end) names) ClaimsInvalid.

(** [name in claims], with its number, after the shape gate. *)
Definition date_claim (claims : jobject) (name : pystr) : option num :=
  v ← dget claims name; as_num v.

Definition check_jwt_temporal (claims : jobject) (leeway_s : json) (current : num)
    (check_temporal : bool) : result bool :=
  leeway ← leeway_seconds leeway_s ClaimsInvalid;
  check_numeric_dates claims [$"exp"; $"nbf"; $"iat"];;
  expired ← match date_claim claims ($"exp") with
            | Some exp =>
                d ← num_sub current exp;
                let past := num_geb d (NInt leeway) in
                raise_if (past && check_temporal) ClaimsInvalid;; Ok past
            | None => Ok false
            end;
  match date_claim claims ($"nbf") with
  | Some nbf => d ← num_sub nbf current; raise_if (num_gtb d (NInt leeway)) ClaimsInvalid
  | None => Ok tt
  end;;
  match date_claim claims ($"iat") with
  | Some iat => d ← num_sub iat current; raise_if (num_gtb d (NInt leeway)) ClaimsInvalid
  | None => Ok tt
  end;;
  Ok expired.

(** [int(v)]: a float is truncated towards zero. *)
Definition int_of_num (v : num) : Z :=
  match v with
  | NInt n => n
  | NFloat f => match finite_value f with
                | Some (m, e) => if 0 <=? e then m * 2 ^ e else Z.quot m (2 ^ (- e))
                | None => 0
                end
  end.

Definition check_iat_freshness (iat : json) (max_age_s : Z) (leeway_s : json) (current : num) : result Z :=
  leeway ← leeway_seconds leeway_s ClaimsInvalid;
  raise_if (is_none iat) ClaimsInvalid;;
  raise_if (negb (is_numeric_date iat)) ClaimsInvalid;;
  match as_num iat with
  | None => Err ClaimsInvalid
  | Some iat =>
      age ← num_sub current iat;
      raise_if (num_gtb age (NInt (max_age_s + leeway))) ClaimsInvalid;;
      ahead ← num_sub iat current;
      raise_if (num_gtb ahead (NInt leeway)) ClaimsInvalid;;
      Ok (int_of_num iat)
  end.

(** * Audiences *)

Definition check_expected_audience (audience : json) : result unit :=
  raise_if (negb (is_none audience) && negb (is_str audience && truthy audience)) ClaimsInvalid.

Definition check_jwt_audience (claims : jobject) (audience : json) (require_present : bool) : result unit :=
  match dget claims ($"aud") with
  | None =>
      if require_present then
        check_expected_audience audience;;
        raise_if (negb (is_none audience)) ClaimsInvalid
      else Ok tt
  | Some aud =>
      check_expected_audience audience;;
      let auds := match aud with JStr _ => JList [aud] | _ => aud end in
      match auds with
      | JList l =>
          raise_if (negb (forallb is_str l)) ClaimsInvalid;;
          match audience with
          | JStr a => raise_if (negb (existsb (fun v => eq_str v a) l)) ClaimsInvalid
          | _ => Err ClaimsInvalid
          end
      | _ => Err ClaimsInvalid
      end
  end.

(** * Data Integrity proofs *)

Definition check_proof_purpose (proof : jobject) (expected : option pystr) : result unit :=
  match expected with
  | None => Ok tt
  | Some p => raise_if (negb (eq_str (jget proof ($"proofPurpose")) p)) ProofPurposeMismatch
  end.

Definition check_presentation_binding (proof : jobject) (expected_challenge expected_domain : option pystr)
    : result unit :=
  raise_if (match expected_challenge with
            | Some c => negb (eq_str (jget proof ($"challenge")) c)
            | None => false
            end) PresentationBindingError;;
  match expected_domain with
  | None => Ok tt
  | Some d =>
      let domain := jget proof ($"domain") in
      raise_if (negb (eq_str domain d || match domain with
                                         | JList l => existsb (fun v => eq_str v d) l
                                         | _ => false
                                         end)) PresentationBindingError
  end.

Definition prepare_di_proof (secured : jobject) (proof_type cryptosuite : pystr)
    : result (jobject * jobject * bytes) :=
  raise_if (nesting_exceeds (JDict secured) JSON_MAX_DEPTH) ProofMalformed;;
  match jget secured ($"proof") with
  | JDict proof =>
      raise_if (negb (eq_str (jget proof ($"type")) proof_type)) ProofMalformed;;
      raise_if (negb (eq_str (jget proof ($"cryptosuite")) cryptosuite)) UnsupportedCryptosuite;;
      match jget proof ($"proofValue") with
      | JStr proof_value =>
          signature ← catch_as (fun e => isinstance e PyException) ProofMalformed (decode_multibase proof_value);
          let proof_config := dset (ddel proof ($"proofValue")) ($"@context") (jget secured ($"@context")) in
          Ok (proof, proof_config, signature)
      | _ => Err ProofMalformed
      end
  | _ => Err ProofMalformed
  end.

Definition ALG_PROFILE : list (pystr * (pystr * pystr * pystr)) :=
  [($"EdDSA", ($"OKP", $"Ed25519", $"sha256"));
   ($"ES256", ($"EC", $"P-256", $"sha256"));
   ($"ES384", ($"EC", $"P-384", $"sha384"))].

(** The loop over the sorted algorithm names. *)
Fixpoint match_alg_in (jwk : jobject) (algs : list pystr) : result pystr :=
  match algs with
  | [] => Err ProofMalformed
  | alg :: algs =>
      match dget ALG_PROFILE alg with
      | None => Err KeyError
      | Some (p_kty, p_crv, _) =>
          if eq_str (jget jwk ($"kty")) p_kty && eq_str (jget jwk ($"crv")) p_crv then Ok alg
          else match_alg_in jwk algs
      end
  end.
Definition match_alg (jwk : jobject) (allowed_algs : list pystr) : result pystr :=
  match_alg_in jwk (sort_by id allowed_algs).

(** * What the temporal checks accept *)

Lemma reject_unknown_crit_Ok header u : reject_unknown_crit header = Ok u -> dmem header ($"crit") = false.
Proof. apply raise_if_Ok. Qed.

Lemma leeway_seconds_Ok value error n :
  leeway_seconds value error = Ok n <-> value = JInt n /\ 0 <= n <= MAX_LEEWAY_S.
Proof.
  unfold leeway_seconds. destruct value; try (split; [done|]; by intros [[=] _]).
  destruct ((0 <=? n0) && (n0 <=? MAX_LEEWAY_S)) eqn:E.
  - apply andb_true_iff in E as [?%Z.leb_le ?%Z.leb_le]. naive_solver.
  - split; [done|]. intros [[= ->] [? ?]]. apply andb_false_iff in E as [E|E]; apply Z.leb_gt in E; lia.
Qed.

Lemma leeway_seconds_errs value error : errs_in (eq error) (leeway_seconds value error).
Proof. unfold leeway_seconds. solve_errs. Qed.

Lemma is_numeric_date_num v : is_numeric_date v = true -> exists x f, as_num v = Some x /\ to_float x = Ok f.
Proof.
  unfold is_numeric_date. destruct (as_num v) as [x|]; [|done]. unfold isfinite.
  destruct (to_float x) as [f|] eqn:E; [|done]. intros _. eauto.
Qed.

Lemma check_numeric_dates_Ok claims names :
  check_numeric_dates claims names = Ok tt <->
  forall name v, name ∈ names -> dget claims name = Some v -> is_numeric_date v = true.
Proof.
  unfold check_numeric_dates. rewrite raise_if_Ok, <-not_true_iff_false, existsb_exists. split.
  - intros Hno name v Hin Hv. destruct (is_numeric_date v) eqn:E; [done|]. exfalso. apply Hno.
    exists name. split; [by apply list_elem_of_In|]. by rewrite Hv, E.
  - intros Hall (name & Hin%list_elem_of_In & Hx). destruct (dget claims name) as [v|] eqn:E; [|done].
    by rewrite (Hall _ _ Hin E) in Hx.
Qed.

(** A gated date can be compared with any clock a double can hold. *)
Lemma date_claim_sub claims names name x current fc :
  check_numeric_dates claims names = Ok tt -> name ∈ names -> date_claim claims name = Some x ->
  to_float current = Ok fc ->
  (exists c, num_sub current x = Ok c) /\ (exists c, num_sub x current = Ok c).
Proof.
  rewrite check_numeric_dates_Ok. intros Hall Hin Hx Hc. unfold date_claim in Hx.
  destruct (dget claims name) as [v|] eqn:E; [|done]. cbn in Hx.
  apply (Hall _ _ Hin), is_numeric_date_num in E as (y & f & Hy & Hf). simplify_eq.
  split; by eapply num_sub_total.
Qed.

Lemma check_jwt_temporal_errs claims leeway current fc ct :
  to_float current = Ok fc -> errs_in (eq ClaimsInvalid) (check_jwt_temporal claims leeway current ct).
Proof.
  intros Hc. unfold check_jwt_temporal. apply errs_in_bind; [apply leeway_seconds_errs|]. intros l _.
  apply errs_in_bind; [unfold check_numeric_dates; solve_errs|]. intros [] Hgate.
  assert (forall name x, name ∈ [$"exp"; $"nbf"; $"iat"] -> date_claim claims name = Some x ->
    (exists c, num_sub current x = Ok c) /\ (exists c, num_sub x current = Ok c)) as Hsub.
  { intros name x Hin Hx. by eapply date_claim_sub. }
  apply errs_in_bind.
  { destruct (date_claim claims ($"exp")) as [x|] eqn:E; [|solve_errs].
    destruct (Hsub ($"exp") x ltac:(set_solver) E) as [[c ->] _]. cbn [mbind result_bind]. solve_errs. }
  intros b _. apply errs_in_bind.
  { destruct (date_claim claims ($"nbf")) as [x|] eqn:E; [|solve_errs].
    destruct (Hsub ($"nbf") x ltac:(set_solver) E) as [_ [c ->]]. cbn [mbind result_bind]. solve_errs. }
  intros _ _. apply errs_in_bind; [|intros; solve_errs].
  destruct (date_claim claims ($"iat")) as [x|] eqn:E; [|solve_errs].
  destruct (Hsub ($"iat") x ltac:(set_solver) E) as [_ [c ->]]. cbn [mbind result_bind]. solve_errs.
Qed.

Lemma date_claim_int claims name n : dget claims name = Some (JInt n) -> date_claim claims name = Some (NInt n).
Proof. unfold date_claim. by intros ->. Qed.

Lemma date_claim_none claims name : dget claims name = None -> date_claim claims name = None.
Proof. unfold date_claim. by intros ->. Qed.

(** The JWT clock check.  A present [exp], [nbf] or [iat] that is not a finite JSON
    number ([null], a bool, a string, NaN, an infinity, a bignum) is refused whatever the
    clock and whatever is waived.  On integer dates and an integer clock the check passes
    exactly inside the window [now < exp + leeway], [nbf <= now + leeway],
    [iat <= now + leeway]; the waiver drops the first condition only and its result says
    whether it was violated. *)
Theorem check_jwt_temporal_window (claims : jobject) (l now : Z) (check_temporal : bool)
    (Hl : 0 <= l <= MAX_LEEWAY_S) :
  (forall name v, name ∈ [$"exp"; $"nbf"; $"iat"] -> dget claims name = Some v ->
     is_numeric_date v = false ->
     forall current, check_jwt_temporal claims (JInt l) current check_temporal = Err ClaimsInvalid) /\
  ((forall name v, name ∈ [$"exp"; $"nbf"; $"iat"] -> dget claims name = Some v ->
      is_numeric_date v = true /\ exists n, v = JInt n) ->
   let at_claim name (P : Z -> Prop) := forall n, dget claims name = Some (JInt n) -> P n in
   forall b, check_jwt_temporal claims (JInt l) (NInt now) check_temporal = Ok b <->
     (at_claim ($"exp") (fun e => if b then e + l <= now else now < e + l)) /\
     (b = true -> check_temporal = false /\ exists e, dget claims ($"exp") = Some (JInt e)) /\
     (at_claim ($"nbf") (fun n => n <= now + l)) /\ (at_claim ($"iat") (fun n => n <= now + l))).
Proof.
  assert (leeway_seconds (JInt l) ClaimsInvalid = Ok l) as Hlee by by apply leeway_seconds_Ok.
  split.
  - intros name v Hin Hv Hbad current. unfold check_jwt_temporal. rewrite Hlee. cbn [mbind result_bind].
    destruct (check_numeric_dates claims _) as [[]|e] eqn:E.
    + rewrite check_numeric_dates_Ok in E. rewrite (E _ _ Hin Hv) in Hbad. done.
    + unfold check_numeric_dates in E. by apply raise_if_Err in E as [_ ->].
  - intros Hall at_claim b. unfold check_jwt_temporal. rewrite Hlee. cbn [mbind result_bind].
    rewrite (proj2 (check_numeric_dates_Ok claims [$"exp"; $"nbf"; $"iat"])) by (intros; by eapply Hall).
    cbn [mbind result_bind].
    assert (forall name, name ∈ [$"exp"; $"nbf"; $"iat"] ->
      dget claims name = None /\ date_claim claims name = None \/
      exists n, dget claims name = Some (JInt n) /\ date_claim claims name = Some (NInt n)) as Hcase.
    { intros name Hin. destruct (dget claims name) as [v|] eqn:E; [right|left; auto using date_claim_none].
      destruct (Hall _ _ Hin E) as [_ [n ->]]. exists n. auto using date_claim_int. }
    unfold at_claim. clear Hall Hlee at_claim.
    destruct (Hcase ($"exp")) as [[-> ->]|(e & -> & ->)]; [set_solver|..];
    (destruct (Hcase ($"nbf")) as [[-> ->]|(n & -> & ->)]; [set_solver|..]);
    (destruct (Hcase ($"iat")) as [[-> ->]|(i & -> & ->)]; [set_solver|..]);
    cbn [num_sub mbind result_bind]; rewrite ?num_geb_int, ?num_gtb_int; unfold raise_if;
    repeat match goal with
    | |- context [Z.leb ?x ?y] => destruct (Z.leb_spec x y); cbn [andb]
    | |- context [Z.ltb ?x ?y] => destruct (Z.ltb_spec x y)
    end; destruct b, check_temporal; cbn [andb mbind result_bind];
    (split; [intros Hb; try discriminate Hb; (split_and!; [..|intros|intros]); intros; simplify_eq; eauto; try lia; done|
             intros (Q1 & Q2 & Q3 & Q4);
             try (destruct (Q2 eq_refl) as [? [? ?]]; done);
             try (specialize (Q1 _ eq_refl)); try (specialize (Q3 _ eq_refl)); try (specialize (Q4 _ eq_refl));
             first [reflexivity|lia|discriminate]]).
Qed.

Lemma check_jwt_temporal_window_witness :
  check_jwt_temporal [($"exp", JNull)] (JInt 60) (NInt 0) false = Err ClaimsInvalid /\
  check_jwt_temporal [($"exp", JInt 100); ($"iat", JInt 5)] (JInt 60) (NInt 160) false = Ok true.
Proof.
  split.
  - apply (check_jwt_temporal_window [($"exp", JNull)] 60 0 false ltac:(done)) with (name := $"exp") (v := JNull);
      [left|reflexivity|reflexivity].
  - apply (check_jwt_temporal_window [($"exp", JInt 100); ($"iat", JInt 5)] 60 160 false ltac:(done)).
    + intros name v _ Hv. apply dget_Some_elem in Hv.
      apply elem_of_cons in Hv as [[= -> ->]|[[= -> ->]|Hv]%elem_of_cons]; [..|by apply not_elem_of_nil in Hv];
        (split; [vm_compute; reflexivity|by eexists]).
    + split_and!.
      * intros n [= <-]. done.
      * intros _. split; [done|]. by eexists.
      * intros n [=].
      * intros n [= <-]. done.
Defined.

(** * The windows, against the clock *)

(** The dates of a JWT at [now]: every date present is a number; [exp] is passed, by the
    leeway, exactly when [expired]; neither [nbf] nor [iat] is ahead of the clock by more
    than it. *)
Record jwt_window (claims : jobject) (leeway : Z) (now : num) (expired : bool) : Prop := {
  jw_exp : match dget claims ($"exp") with
           | Some v => exists e d, as_num v = Some e /\ num_sub now e = Ok d /\ num_geb d (NInt leeway) = expired
           | None => expired = false
           end;
  jw_nbf v : dget claims ($"nbf") = Some v ->
    exists n d, as_num v = Some n /\ num_sub n now = Ok d /\ num_gtb d (NInt leeway) = false;
  jw_iat v : dget claims ($"iat") = Some v ->
    exists n d, as_num v = Some n /\ num_sub n now = Ok d /\ num_gtb d (NInt leeway) = false }.

Lemma date_claim_present claims names name v :
  check_numeric_dates claims names = Ok tt -> name ∈ names -> dget claims name = Some v ->
  exists x, as_num v = Some x /\ date_claim claims name = Some x.
Proof.
  rewrite check_numeric_dates_Ok. intros Hall Hin Hv. destruct (is_numeric_date_num v) as (x & f & Hx & _); [by eapply Hall|].
  exists x. split; [done|]. unfold date_claim. by rewrite Hv.
Qed.

Lemma check_jwt_temporal_Ok claims leeway_s now ct expired :
  check_jwt_temporal claims leeway_s now ct = Ok expired ->
  exists leeway, leeway_s = JInt leeway /\ 0 <= leeway <= MAX_LEEWAY_S /\ jwt_window claims leeway now expired /\
    (ct = true -> expired = false).
Proof.
  unfold check_jwt_temporal. intros H. apply bind_Ok in H as (l & [-> Hl]%leeway_seconds_Ok & H).
  apply bind_Ok in H as ([] & Hgate & H). apply bind_Ok in H as (ex & Hexp & H).
  apply bind_Ok in H as ([] & Hnbf & H). apply bind_Ok in H as ([] & Hiat & H). apply Ok_inj in H as ->.
  exists l. split; [done|]. split; [done|].
  assert (forall name v, name ∈ [$"exp"; $"nbf"; $"iat"] -> dget claims name = Some v ->
    exists x, as_num v = Some x /\ date_claim claims name = Some x) as Hdate by (intros; by eapply date_claim_present).
  split; [split|].
  - destruct (dget claims ($"exp")) as [v|] eqn:E.
    + destruct (Hdate ($"exp") v ltac:(set_solver) E) as (x & Hx & Hd). rewrite Hd in Hexp.
      apply bind_Ok in Hexp as (d & Hs & Hexp). apply bind_Ok in Hexp as (u & _ & Hexp). apply Ok_inj in Hexp. by exists x, d.
    + rewrite date_claim_none in Hexp by done. by apply Ok_inj in Hexp.
  - intros v E. destruct (Hdate ($"nbf") v ltac:(set_solver) E) as (x & Hx & Hd). rewrite Hd in Hnbf.
    apply bind_Ok in Hnbf as (d & Hs & Hr%raise_if_Ok). by exists x, d.
  - intros v E. destruct (Hdate ($"iat") v ltac:(set_solver) E) as (x & Hx & Hd). rewrite Hd in Hiat.
    apply bind_Ok in Hiat as (d & Hs & Hr%raise_if_Ok). by exists x, d.
  - intros ->. destruct (date_claim claims ($"exp")) as [x|]; [|by apply Ok_inj in Hexp].
    apply bind_Ok in Hexp as (d & _ & Hexp). apply bind_Ok in Hexp as (u & Hr%raise_if_Ok & Hexp). apply Ok_inj in Hexp as <-.
    by rewrite andb_true_r in Hr.
Qed.

Lemma enforced_not_expired claims l clock b : check_jwt_temporal claims l clock true = Ok b -> b = false.
Proof. intros (l' & _ & _ & _ & H)%check_jwt_temporal_Ok. by apply H. Qed.

(** On whole seconds: [now < exp + leeway], [nbf <= now + leeway], [iat <= now + leeway]. *)
Lemma jwt_window_int claims leeway now :
  jwt_window claims leeway (NInt now) false ->
  (forall e, dget claims ($"exp") = Some (JInt e) -> now < e + leeway) /\
  (forall n, dget claims ($"nbf") = Some (JInt n) -> n <= now + leeway) /\
  (forall n, dget claims ($"iat") = Some (JInt n) -> n <= now + leeway).
Proof.
  intros [He Hn Hi]. split_and!.
  - intros e E. rewrite E in He. destruct He as (x & d & [= <-] & [= <-] & H). rewrite num_geb_int in H. lia.
  - intros n E. destruct (Hn _ E) as (x & d & [= <-] & [= <-] & H). rewrite num_gtb_int in H. lia.
  - intros n E. destruct (Hi _ E) as (x & d & [= <-] & [= <-] & H). rewrite num_gtb_int in H. lia.
Qed.

(** An issue time no older than [max_age], and no further ahead than the leeway. *)
Definition issued_recently (iat : json) (max_age leeway : Z) (now : num) : Prop :=
  exists i age ahead, as_num iat = Some i /\ num_sub now i = Ok age /\ num_gtb age (NInt (max_age + leeway)) = false /\
    num_sub i now = Ok ahead /\ num_gtb ahead (NInt leeway) = false.

Lemma check_iat_freshness_Ok iat max_age leeway_s now i :
  check_iat_freshness iat max_age leeway_s now = Ok i ->
  exists leeway, leeway_s = JInt leeway /\ issued_recently iat max_age leeway now.
Proof.
  unfold check_iat_freshness. intros H. apply bind_Ok in H as (l & [-> _]%leeway_seconds_Ok & H).
  apply bind_Ok in H as (? & _ & H). apply bind_Ok in H as (? & _ & H). destruct (as_num iat) as [w|] eqn:Ew; [|done].
  apply bind_Ok in H as (age & Ha & H). apply bind_Ok in H as (? & H1%raise_if_Ok & H).
  apply bind_Ok in H as (ahead & Hb & H). apply bind_Ok in H as (? & H2%raise_if_Ok & H).
  exists l. split; [done|]. by exists w, age, ahead.
Qed.

Section windows.
Context (is_space is_decimal : Z -> bool) (fromisoformat : pystr -> option (Z * option Z)).

Definition blank (v : json) : Prop := v = JNull \/ exists s, v = JStr s /\ strip is_space s = [].

(** The date a document declares under the first of two names that is not blank. *)
Definition dated (document : jobject) (first second : pystr) (t : option Z) : Prop :=
  match t with
  | Some t =>
      (~ blank (jget document first) /\ parse_ts is_space is_decimal fromisoformat (jget document first) = Some t) \/
      (blank (jget document first) /\ ~ blank (jget document second) /\
       parse_ts is_space is_decimal fromisoformat (jget document second) = Some t)
  | None => blank (jget document first) /\ blank (jget document second)
  end.

(** The validity window of a document, and the expiry of its proof, at an instant: it has
    begun, and it is over, each by the leeway in microseconds, exactly when [expired]. *)
Record validity_window (document proof : jobject) (instant leeway : Z) (expired : bool) : Prop := {
  vw_begun : exists t, dated document ($"validFrom") ($"issuanceDate") t /\ forall t', t = Some t' -> t' <= instant + leeway;
  vw_over : exists t p, dated document ($"validUntil") ($"expirationDate") t /\
    dated proof ($"expires") ($"expirationDate") p /\
    (expired = false <-> forall t', t = Some t' \/ p = Some t' -> instant <= t' + leeway) }.

Lemma blank_test v :
  is_none v || match v with JStr s => bool_decide (strip is_space s = []) | _ => false end = true <-> blank v.
Proof.
  unfold blank. rewrite orb_true_iff. split.
  - intros [H|H]; [left; by destruct v|]. destruct v; try done. apply bool_decide_eq_true in H. right. by eexists.
  - intros [->|(s & -> & H)]; [by left|right]. by apply bool_decide_eq_true.
Qed.

Lemma bound_Ok document first second t :
  bound is_space is_decimal fromisoformat document [first; second] = Ok t -> dated document first second t.
Proof.
  cbn [bound]. unfold dated. pose proof (blank_test (jget document first)) as B1.
  pose proof (blank_test (jget document second)) as B2.
  destruct (_ || _) in B1 |- *; [apply proj1 in B1; specialize (B1 eq_refl)|].
  - destruct (_ || _) in B2 |- *; [apply proj1 in B2; specialize (B2 eq_refl)|].
    + by intros [= <-].
    + destruct (parse_ts _ _ _ _) as [u|]; [|done]. intros [= <-]. right. split; [done|]. split; [|done].
      intros Hb. by apply B2 in Hb.
  - destruct (parse_ts _ _ _ _) as [u|]; [|done]. intros [= <-]. left. split; [|done]. intros Hb. by apply B1 in Hb.
Qed.

(** The window, with the leeway in seconds; [ct] is whether expiry is enforced. *)
Definition in_window (document proof : jobject) (instant : Z) (leeway_s : json) (ct expired : bool) : Prop :=
  exists leeway, leeway_s = JInt leeway /\ 0 <= leeway <= MAX_LEEWAY_S /\
    validity_window document proof instant (leeway * 1000000) expired /\ (ct = true -> expired = false).

Lemma check_validity_window_Ok document proof instant leeway_s ct expired :
  check_validity_window is_space is_decimal fromisoformat document proof instant leeway_s ct = Ok expired ->
  in_window document proof instant leeway_s ct expired.
Proof.
  unfold check_validity_window. intros H. apply bind_Ok in H as (l & [-> Hl]%leeway_seconds_Ok & H).
  apply bind_Ok in H as (nb & Hnb%bound_Ok & H). apply bind_Ok in H as (u & H1%raise_if_Ok & H).
  apply bind_Ok in H as (na & Hna%bound_Ok & H). apply bind_Ok in H as (u' & H2%raise_if_Ok & H).
  apply bind_Ok in H as (pe & Hpe%bound_Ok & H). apply bind_Ok in H as (u'' & H3%raise_if_Ok & H). apply Ok_inj in H as <-.
  exists l. split; [done|]. split; [done|]. split; [split|].
  - exists nb. split; [done|]. intros t ->. lia.
  - exists na, pe. split; [done|]. split; [done|]. rewrite orb_false_iff. split.
    + intros [Ha Hb] t [-> | ->]; lia.
    + intros Hall. split; [destruct na as [t|]|destruct pe as [t|]]; try done; apply Z.ltb_ge;
        (assert (instant <= t + l * 1000000) by (apply Hall; auto); lia).
  - intros ->. rewrite andb_true_r in H2, H3. by rewrite H2, H3.
Qed.
End windows.

(** * What the expiry waiver waives *)

(** The waiver waives the expiry and nothing else.  For the JWT dates and for the
    validity window alike: when the waived check returns, the enforced one returns exactly
    if the waived one reported no expiry, and reports an expiry as its error otherwise;
    and where the waived check fails, the enforced one fails too. *)
Theorem waiver_only_expiry :
  (forall claims leeway current,
     match check_jwt_temporal claims leeway current false with
     | Ok expired => check_jwt_temporal claims leeway current true = if expired then Err ClaimsInvalid else Ok false
     | Err _ => exists e, check_jwt_temporal claims leeway current true = Err e
     end) /\
  (forall is_space is_decimal fromisoformat document proof instant leeway,
     match check_validity_window is_space is_decimal fromisoformat document proof instant leeway false with
     | Ok expired => check_validity_window is_space is_decimal fromisoformat document proof instant leeway true
                       = if expired then Err CredentialExpired else Ok false
     | Err _ => exists e, check_validity_window is_space is_decimal fromisoformat document proof instant leeway true = Err e
     end).
Proof.
  split.
  - intros claims leeway current. unfold check_jwt_temporal.
    destruct (leeway_seconds leeway ClaimsInvalid) as [l|]; cbn [mbind result_bind]; [|by eexists].
    destruct (check_numeric_dates claims _) as [|]; cbn [mbind result_bind]; [|by eexists].
    set (rest := match date_claim claims ($"nbf") with Some _ => _ | None => _ end).
    set (rest' := match date_claim claims ($"iat") with Some _ => _ | None => _ end).
    destruct (date_claim claims ($"exp")) as [x|].
    + destruct (num_sub current x) as [d|]; cbn [mbind result_bind]; [|by eexists].
      destruct (num_geb d (NInt l)); cbn [andb raise_if mbind result_bind].
      * destruct rest as [|]; cbn [mbind result_bind]; [|by eexists]. destruct rest'; [done|by eexists].
      * destruct rest as [|]; cbn [mbind result_bind]; [|by eexists]. destruct rest'; [done|by eexists].
    + cbn [mbind result_bind]. destruct rest as [|]; cbn [mbind result_bind]; [|by eexists].
      destruct rest'; [done|by eexists].
  - intros is_space is_decimal fromisoformat document proof instant leeway. unfold check_validity_window.
    destruct (leeway_seconds leeway ProofError) as [l|]; cbn [mbind result_bind]; [|by eexists].
    destruct (bound _ _ _ document [_; $"issuanceDate"]) as [nb|]; cbn [mbind result_bind]; [|by eexists].
    destruct (raise_if _ CredentialNotYetValid) as [|]; cbn [mbind result_bind]; [|by eexists].
    destruct (bound _ _ _ document [_; $"expirationDate"]) as [na|]; cbn [mbind result_bind]; [|by eexists].
    set (past := match na with Some _ => _ | None => _ end).
    rewrite !andb_false_r, !andb_true_r. cbn [raise_if mbind result_bind].
    destruct (bound _ _ _ proof _) as [pe|]; cbn [mbind result_bind].
    + set (proof_past := match pe with Some _ => _ | None => _ end).
      rewrite !andb_false_r. cbn [raise_if mbind result_bind]. by destruct past, proof_past.
    + destruct past; by eexists.
Qed.

(** * Audiences *)

(** The token is for the audience: it names none and none was expected (or none is required), or
    its [aud] is, or holds among strings, the non-empty string expected. *)
Definition for_audience (claims : jobject) (audience : json) (require_present : bool) : Prop :=
  match dget claims ($"aud") with
  | None => require_present = false \/ audience = JNull
  | Some aud => exists a, audience = JStr a /\ a <> [] /\
      (aud = JStr a \/ exists l, aud = JList l /\ Forall (fun v => exists s, v = JStr s) l /\ JStr a ∈ l)
  end.

(** The audience rule.  The check passes exactly when the token names no audience and
    none was expected (or none is required), or when the token's [aud] is a string, or an
    array of strings, that contains the non-empty string the caller expects. *)
Theorem check_jwt_audience_rule (claims : jobject) (audience : json) (require_present : bool) :
  errs_in (eq ClaimsInvalid) (check_jwt_audience claims audience require_present) /\
  (check_jwt_audience claims audience require_present = Ok tt <-> for_audience claims audience require_present).
Proof.
  unfold for_audience.
  assert (forall audience, check_expected_audience audience = Ok tt <->
    audience = JNull \/ exists a, audience = JStr a /\ a <> []) as Hexp.
  { intros v. unfold check_expected_audience. rewrite raise_if_Ok.
    destruct v as [| | | |s| | |]; cbn; try (split; [done|]; intros [|(a & ? & ?)]; done); [naive_solver|].
    destruct s; [|naive_solver]. split; [done|]. intros [|(a & ? & ?)]; [done|]. naive_solver. }
  assert (forall l a, Forall (fun v => exists s, v = JStr s) l ->
    (existsb (fun v => eq_str v a) l = true <-> JStr a ∈ l)) as Hmem.
  { intros l a Hl. rewrite existsb_exists. setoid_rewrite <-list_elem_of_In. split.
    - intros (v & Hin & Hv). destruct v; try done. apply bool_decide_eq_true in Hv as ->. done.
    - intros Hin. exists (JStr a). split; [done|]. by apply bool_decide_eq_true. }
  assert (forall l, forallb is_str l = true <-> Forall (fun v => exists s, v = JStr s) l) as Hstr.
  { intros l. rewrite forallb_forall, Forall_forall. setoid_rewrite <-list_elem_of_In.
    split; intros H v Hin; specialize (H v Hin); destruct v; naive_solver. }
  split; [unfold check_jwt_audience, check_expected_audience; solve_errs|].
  unfold check_jwt_audience. destruct (dget claims ($"aud")) as [aud|].
  - rewrite bind_Ok. split.
    + intros ([] & Hx%Hexp & H). set (auds := match aud with JStr _ => _ | _ => _ end) in H.
      destruct auds as [| | | | |l| |] eqn:Ea; try done. apply bind_Ok in H as (? & Hall%raise_if_Ok & H).
      apply negb_false_iff, Hstr in Hall. destruct audience as [| | | |a| | |]; try done.
      apply raise_if_Ok, negb_false_iff in H. rewrite Hmem in H by done.
      exists a. split; [done|]. split; [by destruct Hx as [|(? & [= <-] & ?)]|].
      destruct aud; try done; injection Ea as <-.
      * left. by apply list_elem_of_singleton in H as [= <-].
      * right. eauto.
    + intros (a & -> & Ha & Haud). exists tt. split; [apply Hexp; eauto|].
      assert (exists l, match aud with JStr _ => JList [aud] | _ => aud end = JList l /\
        Forall (fun v => exists s, v = JStr s) l /\ JStr a ∈ l) as (l & -> & Hl & Hin).
      { destruct Haud as [->|(l & -> & Hl & Hin)]; [|by exists l]. exists [JStr a].
        split; [done|]. split; [repeat constructor; by eexists|by left]. }
      apply Hstr in Hl as Hl'. rewrite Hl'. cbn [negb raise_if mbind result_bind].
      apply raise_if_Ok, negb_false_iff. by rewrite Hmem.
  - destruct require_present; [|naive_solver]. rewrite bind_Ok. split.
    + intros ([] & _ & H%raise_if_Ok). right. by destruct audience.
    + intros [| ->]; [done|]. exists tt. done.
Qed.

Lemma check_jwt_audience_Ok claims audience require_present :
  check_jwt_audience claims audience require_present = Ok tt -> for_audience claims audience require_present.
Proof. apply check_jwt_audience_rule. Qed.
