(* ===== verification/VcJwt.v ===== *)
(** [openvc.proof.vc_jwt] (src/src/openvc/proof/vc_jwt.py) and the compact JWS of
    [proof/_jws.py]: the JOSE-secured credential.  The JSON parser, the signature
    primitives, PyJWT and the key loaders are parameters. *)
From S2P Require Import Prelude Errors PyStr Json Base64 PyNum VerifyCommon.

Definition ALLOWED_ALGS : list pystr := [$"ES256"; $"ES384"; $"EdDSA"; $"Ed25519"].
Definition ALLOWED_ALGS_PQ : list pystr := [$"ML-DSA-44"; $"ML-DSA-65"; $"ML-DSA-87"].
Definition ALLOWED_ALGS_ES256K : list pystr := [$"ES256K"].

(** [alg not in algs], type-checked first. *)
Definition allowed_alg (alg : json) (algs : list pystr) : option pystr :=
  match alg with JStr a => if bool_decide (a ∈ algs) then Some a else None | _ => None end.

Definition value_or_recursion (e : exn) : bool := isinstance e ValueError || isinstance e RecursionError.

Section vc_jwt.
(** [openvc._json.loads], which raises [ValueError] (or lets a [RecursionError] through). *)
Context (json_loads : bytes -> result json).
(** [openvc.keys.verify_signature(alg, jwk, signing_input, signature)]. *)
Context (verify_signature : pystr -> json -> bytes -> bytes -> result bool).
Context (lower : pystr -> pystr).

(** * The compact JWS *)

Definition parse_compact (token : pystr) : result (jobject * jobject * bytes * bytes) :=
  '(header, payload, signature, h, p) ← catch_as value_or_recursion MalformedToken
    (match split_on 46 token with
     | [h; p; s] =>
         hb ← b64url_decode h; header ← json_loads hb;
         pb ← b64url_decode p; payload ← json_loads pb;
         signature ← b64url_decode s;
         Ok (header, payload, signature, h, p)
     | _ => Err ValueError
     end);
  match header, payload with
  | JDict hd, JDict pl =>
      signing_input ← encode_ascii (h ++ 46 :: p);
      Ok (hd, pl, signing_input, signature)
  | _, _ => Err MalformedToken
  end.

Definition verify_compact (token : pystr) (public_key_jwk : json) (allowed_algs : list pystr)
    : result (jobject * jobject) :=
  '(header, payload, signing_input, signature) ← parse_compact token;
  match allowed_alg (jget header ($"alg")) allowed_algs with
  | None => Err UnsupportedAlgorithm
  | Some alg =>
      reject_unknown_crit header;;
      ok ← catch_as (fun e => isinstance e KeyBackendError) SignatureInvalid
             (verify_signature alg public_key_jwk signing_input signature);
      raise_if (negb ok) SignatureInvalid;;
      Ok (header, payload)
  end.

(** * Telling a VC-JWT from an SD-JWT *)

Definition vc_split (token : pystr) : result (pystr * pystr * pystr) :=
  raise_if (negb (isascii token)) MalformedToken;;
  match split_on 46 token with
  | [h; p; s] => Ok (h, p, s)
  | _ => Err MalformedToken
  end.

Definition reject_sd_jwt_typ (header : jobject) : result unit :=
  match jget header ($"typ") with
  | JStr typ =>
      let media := lower typ in
      let media := if startswith media ($"application/") then drop (length ($"application/")) media else media in
      raise_if (bool_decide (media = $"sd-jwt") || endswith media ($"+sd-jwt")
                || bool_decide (media = $"kb+jwt")) MalformedToken
  | _ => Ok tt
  end.

Definition MARKERS : list pystr := [$"_sd"; $"_sd_alg"; $"..."].

(** The [while stack] loop, the top of the stack first. *)
Fixpoint marker_loop (fuel : nat) (stack : list json) : bool :=
  match fuel, stack with
  | S fuel, current :: stack =>
      match current with
      | JDict d => existsb (dmem d) MARKERS || marker_loop fuel (reverse d.*2 ++ stack)
      | JList l => marker_loop fuel (reverse l ++ stack)
      | _ => marker_loop fuel stack
      end
  | _, _ => false
  end.
(** Each value is visited once, so its size is fuel enough. *)
Definition carries_sd_jwt_marker (node : json) : bool := marker_loop (json_size node) [node].

Definition reject_sd_jwt_payload (payload : jobject) : result unit :=
  raise_if (carries_sd_jwt_marker (JDict payload)) MalformedToken.

(** * ES256K keys *)

Definition SECP256K1_FIELD_PRIME : Z := 2 ^ 256 - 2 ^ 32 - 977.

Definition is_b64url_char (c : Z) : bool :=
  ((65 <=? c) && (c <=? 90)) || ((97 <=? c) && (c <=? 122)) || ((48 <=? c) && (c <=? 57)) || (c =? 95) || (c =? 45).

Definition es256k_coordinate (jwk : jobject) (member : pystr) : result Z :=
  match jget jwk member with
  | JStr value =>
      raise_if (negb ((len value =? 43) && forallb is_b64url_char value)) ProofError;;
      raw ← urlsafe_b64decode (value ++ [61]);
      raise_if (negb (bool_decide (b64url_encode raw = value))) ProofError;;
      let number := from_bytes_be raw in
      raise_if (SECP256K1_FIELD_PRIME <=? number) ProofError;;
      Ok number
  | _ => Err ProofError
  end.

Definition es256k_check_members (jwk : jobject) : result unit :=
  raise_if (dmem jwk ($"alg") && negb (eq_str (jget jwk ($"alg")) ($"ES256K"))) ProofError;;
  raise_if (dmem jwk ($"use") && negb (eq_str (jget jwk ($"use")) ($"sig"))) ProofError;;
  match dget jwk ($"key_ops") with
  | None => Ok tt
  | Some (JList ops) =>
      raise_if (negb (forallb is_str ops) || negb (existsb (fun v => eq_str v ($"verify")) ops)) ProofError
  | Some _ => Err ProofError
  end.

(** Whether the curve holds the point, as the cryptography library says. *)
Context (on_curve : Z -> Z -> bool).

Definition es256k_public_key (jwk : json) : result unit :=
  match jwk with
  | JDict d =>
      raise_if (negb (eq_str (jget d ($"kty")) ($"EC")) || negb (eq_str (jget d ($"crv")) ($"secp256k1"))) ProofError;;
      es256k_check_members d;;
      x ← es256k_coordinate d ($"x");
      y ← es256k_coordinate d ($"y");
      raise_if (negb (on_curve x y)) ProofError
  | _ => Err ProofError
  end.

(** Whether PyJWT loads the key. *)
Context (from_jwk : jobject -> bool).
Definition EC_CRV : list (pystr * pystr) := [($"ES256", $"P-256"); ($"ES384", $"P-384")].

Definition jwk_to_key (jwk : json) (alg : pystr) : result unit :=
  match jwk with
  | JDict d =>
      if bool_decide (alg = $"ES256K") then es256k_public_key jwk
      else
        raise_if (bool_decide (alg ∈ [$"EdDSA"; $"Ed25519"]) &&
                  (negb (eq_str (jget d ($"kty")) ($"OKP")) || negb (eq_str (jget d ($"crv")) ($"Ed25519")))) ProofError;;
        raise_if (match dget EC_CRV alg with
                  | Some crv => negb (eq_str (jget d ($"kty")) ($"EC")) || negb (eq_str (jget d ($"crv")) crv)
                  | None => false
                  end) ProofError;;
        raise_if (negb (from_jwk d)) ProofError
  | _ => Err ProofError
  end.

(** * Untrusted inspection *)

Definition peek_issuer (token : pystr) : result (pystr * option pystr) :=
  '(h, p, _) ← vc_split token;
  '(header, payload) ← catch_as value_or_recursion MalformedToken
    (hb ← b64url_decode h; header ← json_loads hb; pb ← b64url_decode p; payload ← json_loads pb;
     Ok (header, payload));
  match header, payload with
  | JDict hd, JDict pl =>
      let iss := jget pl ($"iss") in
      let iss := if truthy iss then iss
                 else match jget pl ($"vc") with JDict vc => jget vc ($"issuer") | _ => JNull end in
      let iss := match iss with JDict d => jget d ($"id") | _ => iss end in
      iss ← match iss with
            | JStr s => raise_if (bool_decide (s = [])) MalformedToken;; Ok s
            | _ => Err MalformedToken
            end;
      kid ← match jget hd ($"kid") with
            | JNull => Ok None
            | JStr k => Ok (Some k)
            | _ => Err MalformedToken
            end;
      Ok (iss, kid)
  | _, _ => Err MalformedToken
  end.

Definition peek_claims (token : pystr) : result jobject :=
  '(_, p, _) ← vc_split token;
  payload ← catch_as value_or_recursion MalformedToken (pb ← b64url_decode p; json_loads pb);
  match payload with JDict d => Ok d | _ => Err MalformedToken end.

(** * Envelope against credential *)

Definition reconcile (claims vc : jobject) : result (pystr * option pystr) :=
  match jget claims ($"iss") with
  | JStr iss =>
      raise_if (match dget vc ($"issuer") with
                | Some issuer => existsb (fun name => negb (eq_str name iss)) (issuer_identifiers issuer)
                | None => false
                end) ClaimsInvalid;;
      let sub := jget claims ($"sub") in
      let vc_sub := match jget vc ($"credentialSubject") with JDict cs => jget cs ($"id") | _ => JNull end in
      raise_if (truthy sub && truthy vc_sub && negb (py_eq sub vc_sub)) ClaimsInvalid;;
      let jti := jget claims ($"jti") in
      raise_if (truthy jti && truthy (jget vc ($"id")) && negb (py_eq jti (jget vc ($"id")))) ClaimsInvalid;;
      Ok (iss, match sub, vc_sub with JStr s, _ => Some s | _, JStr s => Some s | _, _ => None end)
  | _ => Err ClaimsInvalid
  end.

Definition check_types (vc : jobject) (expected : list pystr) : result unit :=
  let types := match dget vc ($"type") with
               | Some (JStr s) => [JStr s]
               | Some (JList l) => l
               | _ => []
               end in
  raise_if (existsb (fun t => negb (existsb (fun v => eq_str v t) types)) expected) ClaimsInvalid.

(** * Verification *)

Record suite := { leeway : json; algs : list pystr }.

Definition make_suite (leeway_s : json) (allow_pq allow_es256k : bool) : result suite :=
  l ← leeway_seconds leeway_s ProofError;
  Ok {| leeway := JInt l;
        algs := ALLOWED_ALGS ++ (if allow_pq then ALLOWED_ALGS_PQ else [])
                  ++ (if allow_es256k then ALLOWED_ALGS_ES256K else []) |}.

Definition check_jwt_claims (su : suite) (claims : jobject) (clock : num) (check_temporal : bool) : result bool :=
  raise_if (negb (is_str (jget claims ($"iss")))) ClaimsInvalid;;
  raise_if (dmem claims ($"sub") && negb (is_str (jget claims ($"sub")))) ClaimsInvalid;;
  raise_if (dmem claims ($"jti") && negb (is_str (jget claims ($"jti")))) ClaimsInvalid;;
  check_jwt_temporal claims (leeway su) clock check_temporal.

Definition verify_mldsa (su : suite) (token alg : pystr) (jwk : json) (clock : num) (check_temporal : bool)
    : result (jobject * bool) :=
  match split_on 46 token with
  | [h; p; s] =>
      signing_input ← encode_ascii (h ++ 46 :: p);
      '(signature, payload) ← catch_as (fun e => isinstance e ValueError || isinstance e TypeError) MalformedToken
        (signature ← b64url_decode s; payload ← b64url_decode p; Ok (signature, payload));
      ok ← catch_as (fun e => isinstance e KeyBackendError) SignatureInvalid
             (verify_signature alg jwk signing_input signature);
      raise_if (negb ok) SignatureInvalid;;
      claims ← catch_as value_or_recursion MalformedToken (json_loads payload);
      match claims with
      | JDict claims => expired ← check_jwt_claims su claims clock check_temporal; Ok (claims, expired)
      | _ => Err ClaimsInvalid
      end
  | _ => Err MalformedToken
  end.

(** What [jwt.decode] answers with openvc's options (the token, the key, the algorithm, the
    leeway, the audience, whether [exp] is enforced) at its own clock: the claims of a
    verified token, or why not. *)
Inductive jwt_outcome := JwtClaims (claims : jobject) | JwtExpired | JwtBadSignature | JwtInvalid.
Context (pyjwt_decode : pystr -> json -> pystr -> json -> json -> bool -> jwt_outcome).

(** [_decode]; [None] is [ExpiredSignatureError], left to the caller. *)
Definition jwt_decode (su : suite) (token : pystr) (jwk : json) (alg : pystr) (audience : json) (verify_exp : bool)
    : result (option jobject) :=
  match pyjwt_decode token jwk alg (leeway su) audience verify_exp with
  | JwtClaims claims => Ok (Some claims)
  | JwtExpired => Ok None
  | JwtBadSignature => Err SignatureInvalid
  | JwtInvalid => Err ClaimsInvalid
  end.

Context (is_space is_decimal : Z -> bool) (fromisoformat : pystr -> option (Z * option Z)).

Record VerifiedCredential := {
  credential : jobject; vc_issuer : pystr; vc_subject : option pystr; vc_claims : jobject; vc_expired : bool }.

Definition vc_verify (su : suite) (token : pystr) (public_key_jwk : json) (expected_types : list pystr)
    (audience : json) (check_temporal : bool) (clock : num) (instant : Z) : result VerifiedCredential :=
  check_expected_audience audience;;
  '(h, _, _) ← vc_split token;
  header ← catch_as value_or_recursion MalformedToken (hb ← b64url_decode h; json_loads hb);
  match header with
  | JDict header =>
      match allowed_alg (jget header ($"alg")) (algs su) with
      | None => Err UnsupportedAlgorithm
      | Some alg =>
          reject_unknown_crit header;;
          reject_sd_jwt_typ header;;
          payload ← peek_claims token;
          reject_sd_jwt_payload payload;;
          check_numeric_dates payload [$"exp"; $"nbf"; $"iat"];;
          '(claims, jwt_expired) ←
            (if bool_decide (alg ∈ ALLOWED_ALGS_PQ)
             then verify_mldsa su token alg public_key_jwk clock check_temporal
             else
               jwk_to_key public_key_jwk alg;;
               first ← jwt_decode su token public_key_jwk alg audience true;
               match first with
               | Some claims => Ok (claims, false)
               | None =>
                   raise_if check_temporal ClaimsInvalid;;
                   second ← jwt_decode su token public_key_jwk alg audience false;
                   match second with
                   | Some claims => Ok (claims, true)
                   | None => Err ClaimsInvalid
                   end
               end);
          check_jwt_audience claims audience true;;
          match jget claims ($"vc") with
          | JDict credential =>
              body_expired ← check_validity_window is_space is_decimal fromisoformat credential [] instant
                               (leeway su) check_temporal;
              '(issuer, subject) ← reconcile claims credential;
              check_types credential expected_types;;
              Ok {| credential := credential; vc_issuer := issuer; vc_subject := subject;
                    vc_claims := claims; vc_expired := jwt_expired || body_expired |}
          | _ => Err ClaimsInvalid
          end
      end
  | _ => Err MalformedToken
  end.
End vc_jwt.

Lemma b64url_decode_ascii s b : b64url_decode s = Ok b -> isascii s = true.
Proof.
  unfold b64url_decode, urlsafe_b64decode. intros H. apply bind_Ok in H as (? & H%raise_if_Ok & _).
  rewrite existsb_app in H. apply orb_false_iff in H as [H _]. rewrite existsb_false_Forall in H.
  apply forallb_forall. intros c Hc%list_elem_of_In. rewrite Forall_forall in H. specialize (H c Hc). lia.
Qed.

Lemma parse_compact_errs json_loads token : (forall raw, errs_in (fun e => value_or_recursion e = true) (json_loads raw)) ->
  errs_in (fun e => isinstance e ProofError = true) (parse_compact json_loads token).
Proof.
  intros json_errs. unfold parse_compact. apply errs_in_bind.
  - eapply errs_in_impl; [|apply catch_as_errs]; [by intros ? <-|].
    destruct (split_on 46 token) as [|h [|p [|s [|]]]]; try by apply errs_in_Err.
    assert (Hb : forall x, errs_in (fun e => value_or_recursion e = true) (b64url_decode x))
      by (intros x; eapply errs_in_impl; [|apply b64url_decode_errs]; by intros ? <-).
    repeat (apply errs_in_bind; [apply Hb || apply json_errs|intros]). apply errs_in_Ok.
  - intros [[[[hv pv] sg] h] p] H%catch_as_Ok. destruct hv; try by apply errs_in_Err. destruct pv; try by apply errs_in_Err.
    destruct (split_on 46 token) as [|h' [|p' [|s' [|]]]]; try done.
    apply bind_Ok in H as (? & Hh%b64url_decode_ascii & H). apply bind_Ok in H as (? & _ & H).
    apply bind_Ok in H as (? & Hp%b64url_decode_ascii & H). apply bind_Ok in H as (? & _ & H).
    apply bind_Ok in H as (? & _ & [= _ _ _ -> ->]). unfold encode_ascii, isascii in *.
    rewrite forallb_app. cbn [forallb]. rewrite Hh, Hp. apply errs_in_bind; [apply errs_in_Ok|intros; apply errs_in_Ok].
Qed.

(** * The marker walk *)

(** Reference: a marker member at any depth. *)
Fixpoint has_marker (v : json) : bool :=
  match v with
  | JDict d => existsb (dmem d) MARKERS || existsb (fun kv => has_marker kv.2) d
  | JList l => existsb has_marker l
  | _ => false
  end.

Lemma existsb_app' {A} (f : A -> bool) l k : existsb f (l ++ k) = existsb f l || existsb f k.
Proof. induction l as [|x l IH]; simpl; [done|]. by rewrite IH, orb_assoc. Qed.

Lemma existsb_values (d : jobject) : existsb has_marker d.*2 = existsb (fun kv => has_marker kv.2) d.
Proof. induction d as [|kv d IH]; csimpl; [done|]. by rewrite IH. Qed.

Lemma sizes_reverse l : sizes (reverse l) = sizes l.
Proof. induction l as [|v l IH]; [done|]. rewrite reverse_cons, sizes_app, IH. simpl. lia. Qed.

Lemma marker_loop_spec fuel stack :
  (sizes stack <= fuel)%nat -> marker_loop fuel stack = existsb has_marker stack.
Proof.
  revert stack. induction fuel as [|fuel IH]; intros [|v stack] Hf; try done.
  - exfalso. simpl in Hf. pose proof (json_size_children v). lia.
  - simpl in Hf. rewrite json_size_children in Hf. simpl.
    destruct v as [| | | | |l|d|]; cbn [children] in Hf; try (rewrite IH; [done|simpl in Hf; lia]).
    + rewrite IH; [|rewrite sizes_app, sizes_reverse; lia].
      by rewrite existsb_app', existsb_reverse.
    + rewrite IH; [|rewrite sizes_app, sizes_reverse; lia].
      by rewrite existsb_app', existsb_reverse, existsb_values, orb_assoc.
Qed.

Lemma carries_spec v : carries_sd_jwt_marker v = has_marker v.
Proof.
  unfold carries_sd_jwt_marker. rewrite marker_loop_spec; simpl; [by rewrite orb_false_r|lia].
Qed.

(** * What a verified credential guarantees *)

Lemma allowed_alg_Some v l a : allowed_alg v l = Some a <-> v = JStr a /\ a ∈ l.
Proof. unfold allowed_alg. destruct v; try (split; [done|]; by intros [[=] _]). case_bool_decide; naive_solver. Qed.

Lemma verify_compact_Ok json_loads verify_signature token jwk allowed header claims :
  verify_compact json_loads verify_signature token jwk allowed = Ok (header, claims) ->
  exists si sig alg, parse_compact json_loads token = Ok (header, claims, si, sig) /\
    jget header ($"alg") = JStr alg /\ alg ∈ allowed /\ dmem header ($"crit") = false /\
    verify_signature alg jwk si sig = Ok true.
Proof.
  unfold verify_compact. intros H. apply bind_Ok in H as ([[[hd pl] si] sig] & Hp & H).
  destruct (allowed_alg _ _) as [alg|] eqn:Ea; [|done]. apply allowed_alg_Some in Ea as [Ealg Hin].
  apply bind_Ok in H as (u & Hcrit%reject_unknown_crit_Ok & H). apply bind_Ok in H as (ok & Hv%catch_as_Ok & H).
  apply bind_Ok in H as (u' & Hok%raise_if_Ok%negb_false_iff & H). subst ok. apply Ok_inj in H. injection H as -> ->.
  by exists si, sig, alg.
Qed.

Lemma reconcile_Ok claims vc iss sub :
  reconcile claims vc = Ok (iss, sub) ->
  jget claims ($"iss") = JStr iss /\
  (forall issuer name, dget vc ($"issuer") = Some issuer -> name ∈ issuer_identifiers issuer -> name = JStr iss).
Proof.
  unfold reconcile. destruct (jget claims ($"iss")) as [| | | |i| | |] eqn:Ei; try done. intros H.
  apply bind_Ok in H as (u & Hiss%raise_if_Ok & H). apply bind_Ok in H as (? & _ & H).
  apply bind_Ok in H as (? & _ & [= -> _]). split; [done|]. intros issuer name Hd Hin. rewrite Hd in Hiss.
  apply not_true_iff_false in Hiss. rewrite existsb_exists in Hiss.
  destruct (eq_str name iss) eqn:E.
  - destruct name; try done. by apply bool_decide_eq_true in E as ->.
  - exfalso. apply Hiss. exists name. split; [by apply list_elem_of_In|]. by rewrite E.
Qed.

(** The identifier of a credential's single subject. *)
Definition subject_id (vc : jobject) : json :=
  match jget vc ($"credentialSubject") with JDict cs => jget cs ($"id") | _ => JNull end.

(** Two names for one thing: where both are given, they are equal. *)
Definition consistent (v w : json) : Prop := truthy v = true -> truthy w = true -> py_eq v w = true.

Lemma reconcile_names claims vc iss sub :
  reconcile claims vc = Ok (iss, sub) ->
  consistent (jget claims ($"sub")) (subject_id vc) /\ consistent (jget claims ($"jti")) (jget vc ($"id")) /\
  (forall s, sub = Some s -> jget claims ($"sub") = JStr s \/ subject_id vc = JStr s).
Proof.
  unfold reconcile, consistent. fold (subject_id vc). destruct (jget claims ($"iss")) as [| | | |i| | |]; try done. intros H.
  apply bind_Ok in H as (? & _ & H). cbv zeta in H. apply bind_Ok in H as (? & Hs%raise_if_Ok & H).
  apply bind_Ok in H as (? & Hj%raise_if_Ok & [= _ Hsub]). split_and!.
  - intros H1 H2. rewrite H1, H2 in Hs. by apply negb_false_iff in Hs.
  - intros H1 H2. rewrite H1, H2 in Hj. by apply negb_false_iff in Hj.
  - intros s ->. destruct (jget claims ($"sub")), (subject_id vc); simplify_eq; auto.
Qed.

Lemma parse_compact_Ok json_loads token header payload si sig :
  parse_compact json_loads token = Ok (header, payload, si, sig) ->
  exists h p s hb pb, split_on 46 token = [h; p; s] /\ si = h ++ 46 :: p /\
    b64url_decode h = Ok hb /\ json_loads hb = Ok (JDict header) /\
    b64url_decode p = Ok pb /\ json_loads pb = Ok (JDict payload) /\ b64url_decode s = Ok sig.
Proof.
  unfold parse_compact. intros H. apply bind_Ok in H as ([[[[hv pv] sg] h] p] & Hp%catch_as_Ok & H).
  destruct hv as [| | | | | |hd|], pv as [| | | | | |pl|]; try done.
  apply bind_Ok in H as (si' & Hsi & [= <- <- <- <-]). unfold encode_ascii in Hsi. case_match; [|done].
  injection Hsi as <-. destruct (split_on 46 token) as [|h' [|p' [|s' [|]]]]; try done.
  apply bind_Ok in Hp as (hb & Hhb & Hp). apply bind_Ok in Hp as (? & Hhd & Hp).
  apply bind_Ok in Hp as (pb & Hpb & Hp). apply bind_Ok in Hp as (? & Hpd & Hp).
  apply bind_Ok in Hp as (? & Hs & [= -> -> -> -> ->]). by exists h, p, s', hb, pb.
Qed.

Section vc_sound.
Context (json_loads : bytes -> result json) (verify_signature : pystr -> json -> bytes -> bytes -> result bool)
  (lower : pystr -> pystr) (on_curve : Z -> Z -> bool) (from_jwk : jobject -> bool)
  (pyjwt_decode : pystr -> json -> pystr -> json -> json -> bool -> jwt_outcome)
  (is_space is_decimal : Z -> bool) (fromisoformat : pystr -> option (Z * option Z)).

(** What the JWT library answered: the claims, with the expiry enforced, or that the token is
    expired and, with the expiry waived, the claims. *)
Definition library_answer (su : suite) (token : pystr) (jwk : json) (alg : pystr) (audience : json) (claims : jobject)
    (expired : bool) : Prop :=
  if expired
  then pyjwt_decode token jwk alg (leeway su) audience true = JwtExpired /\
       pyjwt_decode token jwk alg (leeway su) audience false = JwtClaims claims
  else pyjwt_decode token jwk alg (leeway su) audience true = JwtClaims claims.

(** The claims are those of a token whose signature the key verified under the algorithm, and
    their dates were held against the clock: by the suite on a post-quantum token, by the JWT
    library on any other. *)
Definition authenticated (su : suite) (token : pystr) (jwk : json) (alg : pystr) (audience : json) (clock : num)
    (claims : jobject) (expired : bool) : Prop :=
  if bool_decide (alg ∈ ALLOWED_ALGS_PQ)
  then exists h p s payload signature,
    split_on 46 token = [h; p; s] /\ b64url_decode p = Ok payload /\ b64url_decode s = Ok signature /\
    verify_signature alg jwk (h ++ 46 :: p) signature = Ok true /\ json_loads payload = Ok (JDict claims) /\
    exists l, leeway su = JInt l /\ jwt_window claims l clock expired
  else library_answer su token jwk alg audience claims expired.

Lemma verify_mldsa_Ok su token alg jwk clock ct claims expired audience :
  bool_decide (alg ∈ ALLOWED_ALGS_PQ) = true ->
  verify_mldsa json_loads verify_signature su token alg jwk clock ct = Ok (claims, expired) ->
  authenticated su token jwk alg audience clock claims expired /\ (ct = true -> expired = false).
Proof using.
  intros Hpq H. unfold authenticated. rewrite Hpq. unfold verify_mldsa in H.
  destruct (split_on 46 token) as [|h [|p [|s [|]]]] eqn:Es; try done.
  apply bind_Ok in H as (si & Hsi & H). unfold encode_ascii in Hsi. case_match; [|done]. injection Hsi as <-.
  apply bind_Ok in H as ([signature payload] & Hsp%catch_as_Ok & H).
  apply bind_Ok in Hsp as (sig & Hsig & Hsp). apply bind_Ok in Hsp as (pl & Hpl & [= -> ->]).
  apply bind_Ok in H as (ok & Hok%catch_as_Ok & H). apply bind_Ok in H as (? & Hneg%raise_if_Ok & H).
  apply negb_false_iff in Hneg as ->. apply bind_Ok in H as (cl & Hcl%catch_as_Ok & H).
  destruct cl as [| | | | | |cd|]; try done. apply bind_Ok in H as (ex & Hex & [= -> ->]).
  unfold check_jwt_claims in Hex. apply bind_Ok in Hex as (? & _ & Hex). apply bind_Ok in Hex as (? & _ & Hex).
  apply bind_Ok in Hex as (? & _ & Hex). apply check_jwt_temporal_Ok in Hex as (l & Hl & _ & Hw & Hct).
  split; [|done]. exists h, p, s, payload, signature. split_and!; try done. by exists l.
Qed.

(** The media type a header declares is neither an SD-JWT's nor a key binding's. *)
Definition not_sd_typ (header : jobject) : Prop :=
  forall typ media, jget header ($"typ") = JStr typ ->
    lower typ = $"application/" ++ media \/ (media = lower typ /\ startswith (lower typ) ($"application/") = false) ->
    media <> $"sd-jwt" /\ media <> $"kb+jwt" /\ forall name, media <> name ++ $"+sd-jwt".

Lemma reject_sd_jwt_typ_Ok header : reject_sd_jwt_typ lower header = Ok tt -> not_sd_typ header.
Proof using.
  unfold reject_sd_jwt_typ. intros H typ media E Hm. rewrite E in H. cbv zeta in H. apply raise_if_Ok in H.
  assert ((if startswith (lower typ) ($"application/") then drop (length ($"application/")) (lower typ) else lower typ) = media) as Em.
  { destruct Hm as [Hm|[-> Hm]]; [|by rewrite Hm]. rewrite Hm. rewrite (proj2 (startswith_spec _ _)) by by eexists. apply drop_app_length. }
  rewrite Em in H. apply orb_false_iff in H as [[H1%bool_decide_eq_false H2]%orb_false_iff H3%bool_decide_eq_false].
  split; [done|]. split; [done|]. intros name ->. apply not_true_iff_false in H2. apply H2, endswith_spec. by eexists.
Qed.

Lemma check_types_named vc expected : check_types vc expected = Ok tt -> forall t, t ∈ expected ->
  jget vc ($"type") = JStr t \/ exists l, jget vc ($"type") = JList l /\ JStr t ∈ l.
Proof using.
  unfold check_types. intros H%raise_if_Ok t Ht. rewrite existsb_false_Forall, Forall_forall in H.
  specialize (H t Ht). apply negb_false_iff, existsb_exists in H as (v & Hv%list_elem_of_In & ->%eq_str_true).
  unfold jget. destruct (dget vc ($"type")) as [[]|]; try by apply elem_of_nil in Hv.
  - apply list_elem_of_singleton in Hv as [= ->]. by left.
  - right. by eexists.
Qed.

(** What a returned credential says of the token it came from. *)
Record vc_guarantee (su : suite) (token : pystr) (jwk : json) (expected_types : list pystr)
    (audience : json) (ct : bool) (clock : num) (instant : Z) (r : VerifiedCredential) : Prop := {
  g_alg : exists h p s hb header alg payload jwt_expired,
    split_on 46 token = [h; p; s] /\ b64url_decode h = Ok hb /\ json_loads hb = Ok (JDict header) /\
    jget header ($"alg") = JStr alg /\ alg ∈ algs su /\ dmem header ($"crit") = false /\
    not_sd_typ header /\
    peek_claims json_loads token = Ok payload /\ has_marker (JDict payload) = false /\
    authenticated su token jwk alg audience clock (vc_claims r) jwt_expired /\
    (jwt_expired = true -> vc_expired r = true);
  g_credential : jget (vc_claims r) ($"vc") = JDict (credential r);
  g_audience : for_audience (vc_claims r) audience true;
  g_issuer : jget (vc_claims r) ($"iss") = JStr (vc_issuer r) /\
    forall issuer name, dget (credential r) ($"issuer") = Some issuer ->
      name ∈ issuer_identifiers issuer -> name = JStr (vc_issuer r);
  (** a [sub] and a [jti] name the credential's subject and the credential *)
  g_subject : consistent (jget (vc_claims r) ($"sub")) (subject_id (credential r)) /\
    consistent (jget (vc_claims r) ($"jti")) (jget (credential r) ($"id")) /\
    forall s, vc_subject r = Some s -> jget (vc_claims r) ($"sub") = JStr s \/ subject_id (credential r) = JStr s;
  g_types : forall t, t ∈ expected_types ->
    jget (credential r) ($"type") = JStr t \/ exists l, jget (credential r) ($"type") = JList l /\ JStr t ∈ l;
  (** the credential's own window, at the instant of the verification *)
  g_window : exists l body_expired, leeway su = JInt l /\ 0 <= l <= MAX_LEEWAY_S /\
    validity_window is_space is_decimal fromisoformat (credential r) [] instant (l * 1000000) body_expired /\
    (body_expired = true -> vc_expired r = true);
  g_expired : ct = true -> vc_expired r = false;
}.
End vc_sound.

(** What was read from the payload before the signature is what the signature covers. *)
Lemma verified_payload json_loads verify_signature pyjwt_decode su token jwk alg audience clock payload claims expired :
  (forall token jwk alg l aud enforce cl, pyjwt_decode token jwk alg l aud enforce = JwtClaims cl -> peek_claims json_loads token = Ok cl) ->
  authenticated json_loads verify_signature pyjwt_decode su token jwk alg audience clock claims expired ->
  peek_claims json_loads token = Ok payload -> payload = claims.
Proof.
  intros Hpyjwt Hau Hpl. unfold authenticated in Hau. case_bool_decide.
  - destruct Hau as (h & p & s & pb & sig & Hs & Hpb & _ & _ & Hcl & _). unfold peek_claims, vc_split in Hpl.
    destruct (negb _); [done|]. cbn [raise_if mbind result_bind] in Hpl. rewrite Hs in Hpl. cbn [mbind result_bind] in Hpl.
    rewrite Hpb in Hpl. cbn [mbind result_bind] in Hpl. rewrite Hcl in Hpl. by injection Hpl.
  - assert (exists enforce, pyjwt_decode token jwk alg (leeway su) audience enforce = JwtClaims claims) as [enf Ha]
      by (unfold library_answer in Hau; destruct expired; [destruct Hau|]; by eexists).
    apply Hpyjwt in Ha. rewrite Hpl in Ha. by injection Ha.
Qed.

(** The issuer read before the signature is the one reported after it. *)
Lemma peeked_vc_issuer json_loads token iss kid payload vc i :
  peek_issuer json_loads token = Ok (iss, kid) -> peek_claims json_loads token = Ok payload ->
  jget payload ($"vc") = JDict vc -> jget payload ($"iss") = JStr i ->
  (forall issuer name, dget vc ($"issuer") = Some issuer -> name ∈ issuer_identifiers issuer -> name = JStr i) ->
  iss = i.
Proof.
  intros H Hc Hvc Hi Hids. unfold peek_issuer in H. unfold peek_claims in Hc.
  apply bind_Ok in H as ([[h p] s] & Hs & H). rewrite Hs in Hc. cbn [mbind result_bind] in Hc.
  apply bind_Ok in H as ([hv pv] & Hp%catch_as_Ok & H). apply bind_Ok in Hp as (hb & _ & Hp).
  apply bind_Ok in Hp as (hv' & _ & Hp). apply bind_Ok in Hp as (pb & Hpb & Hp).
  apply bind_Ok in Hp as (pv' & Hpv & Hp). injection Hp as <- <-. rewrite Hpb in Hc. cbn [mbind result_bind catch_as] in Hc.
  rewrite Hpv in Hc. cbn [mbind result_bind catch_as] in Hc.
  destruct hv' as [| | | | | |hd|], pv' as [| | | | | |pl|]; try done. apply Ok_inj in Hc as ->. cbv zeta in H. rewrite Hi, Hvc in H.
  apply bind_Ok in H as (i' & Hi' & H). apply bind_Ok in H as (k & _ & H). injection H as -> _.
  destruct i as [|c i]; [change (truthy (JStr [])) with false in Hi'|change (truthy (JStr (c :: i))) with true in Hi']; cbn match in Hi'.
  - destruct (jget vc ($"issuer")) as [| | | |t| |d|] eqn:Ed; cbn match in Hi'; try done.
    + apply jget_Some in Ed; [|done]. assert (JStr t = JStr []) as [= ->]; [|done]. eapply Hids; [exact Ed|left].
    + apply jget_Some in Ed; [|done]. destruct (jget d ($"id")) as [| | | |w| | |] eqn:Ew; try done.
      apply jget_Some in Ew; [|done]. assert (JStr w = JStr []) as [= ->]; [|done].
      eapply Hids; [exact Ed|]. unfold issuer_identifiers. cbn [omap list_omap]. rewrite Ew. left.
  - apply bind_Ok in Hi' as (u & _ & Hi'). by apply Ok_inj in Hi' as <-.
Qed.

Lemma vc_verify_guarantee json_loads verify_signature lower on_curve from_jwk pyjwt_decode
    is_space is_decimal fromisoformat (su : suite) (token : pystr) (jwk : json)
    (expected_types : list pystr) (audience : json) (ct : bool) (clock : num) (instant : Z)
    (r : VerifiedCredential)
    (H : vc_verify json_loads verify_signature lower on_curve from_jwk pyjwt_decode is_space is_decimal
           fromisoformat su token jwk expected_types audience ct clock instant = Ok r) :
  vc_guarantee json_loads verify_signature lower pyjwt_decode is_space is_decimal fromisoformat su token jwk expected_types
    audience ct clock instant r.
Proof.
  unfold vc_verify in H. apply bind_Ok in H as (? & _ & H). apply bind_Ok in H as ([[h p] s] & Hsplit & H).
  apply bind_Ok in H as (hd & Hhd%catch_as_Ok & H). apply bind_Ok in Hhd as (hb & Hhb & Hhd).
  destruct hd as [| | | | | |header|]; try done.
  destruct (allowed_alg _ _) as [alg|] eqn:Ea; [|done]. apply allowed_alg_Some in Ea as [Ealg Hin].
  apply bind_Ok in H as (? & Hcrit%raise_if_Ok & H). apply bind_Ok in H as ([] & Htyp & H).
  apply bind_Ok in H as (payload & Hpl & H). apply bind_Ok in H as (? & Hm%raise_if_Ok & H).
  rewrite carries_spec in Hm. apply bind_Ok in H as (? & _ & H).
  apply bind_Ok in H as ([claims jexp] & Hauth & H). apply bind_Ok in H as ([] & Haud & H).
  destruct (jget claims ($"vc")) as [| | | | | |vc|] eqn:Evc; try done.
  apply bind_Ok in H as (bexp & Hbexp & H). apply bind_Ok in H as ([iss sub] & Hrec & H).
  apply bind_Ok in H as ([] & Htypes & [= <-]). pose proof (check_types_named _ _ Htypes). apply reject_sd_jwt_typ_Ok in Htyp. apply check_jwt_audience_Ok in Haud.
  apply check_validity_window_Ok in Hbexp as (l & Hl & Hlb & Hw & Hbe).
  assert (authenticated json_loads verify_signature pyjwt_decode su token jwk alg audience clock claims jexp /\
          (ct = true -> jexp = false)) as [Hau Hje].
  { destruct (bool_decide (alg ∈ ALLOWED_ALGS_PQ)) eqn:Epq; [by eapply verify_mldsa_Ok|].
    unfold authenticated. rewrite Epq. apply bind_Ok in Hauth as (? & _ & Hauth).
    apply bind_Ok in Hauth as (first & Hf & Hauth). unfold jwt_decode, library_answer in *. destruct first as [cl|].
    - injection Hauth as -> <-. split; [|done]. by destruct (pyjwt_decode _ _ _ _ _ _); simplify_eq.
    - apply bind_Ok in Hauth as (? & Hct%raise_if_Ok & Hauth). apply bind_Ok in Hauth as (second & Hs & Hauth).
      destruct second as [cl|]; [|done]. injection Hauth as -> <-. split; [|congruence].
      destruct (pyjwt_decode token jwk alg _ audience true), (pyjwt_decode token jwk alg _ audience false); by simplify_eq. }
  unfold vc_split in Hsplit. apply bind_Ok in Hsplit as (? & _ & Hsplit).
  destruct (split_on 46 token) as [|h' [|p' [|s' [|]]]] eqn:Esp; try done. injection Hsplit as -> -> ->.
  split; cbn.
  - exists h, p, s, hb, header, alg, payload, jexp. split_and!; try done. by intros ->.
  - done.
  - done.
  - by apply (reconcile_Ok _ _ _ sub).
  - by apply (reconcile_names _ _ iss).
  - done.
  - exists l, bexp. split_and!; try done; try lia. intros ->. apply orb_true_r.
  - intros Hct. by rewrite (Hje Hct), (Hbe Hct).
Qed.

(** C14: What a verified VC-JWT guarantees.  When [verify] returns, the algorithm was on the
    suite's allow-list, no [crit] extension was declared, the token was neither typed as
    an SD-JWT nor carried an SD-JWT marker at any depth of its payload; the claims are
    those of a token the key's signature covers; the credential is their [vc], every
    identifier its [issuer] carries is the verified [iss], a [sub] or [jti] is that of the
    credential, the audience rule and the expected types hold.  At the instant of the verification, with the leeway, the
    credential's own [validFrom] (or [issuanceDate]) has come, and its [validUntil] (or
    [expirationDate]) has passed only if the result says so; the [exp], [nbf] and [iat] of
    the claims were held against the clock, by the suite on an ML-DSA token and by the JWT
    library (asked with the expiry enforced) on any other; and unless the caller waived it
    nothing had expired. *)
Theorem vc_verify_sound json_loads verify_signature lower on_curve from_jwk pyjwt_decode
    is_space is_decimal fromisoformat (su : suite) (token : pystr) (jwk : json)
    (expected_types : list pystr) (audience : json) (ct : bool) (clock : num) (instant : Z)
    (r : VerifiedCredential)
    (H : vc_verify json_loads verify_signature lower on_curve from_jwk pyjwt_decode is_space is_decimal
           fromisoformat su token jwk expected_types audience ct clock instant = Ok r) :
  vc_guarantee json_loads verify_signature lower pyjwt_decode is_space is_decimal fromisoformat su token jwk expected_types
    audience ct clock instant r.
Proof. by eapply vc_verify_guarantee. Qed.

Definition example_credential : jobject :=
  [($"issuer", JDict [($"id", JStr ($"did:x"))]); ($"validUntil", JStr ($"t"))].
Definition example_payload : jobject := [($"iss", JStr ($"did:x")); ($"vc", JDict example_credential)].
(** A parser that knows the header ["h"] and the payload ["p"] of the token [aA.cA.cw]. *)
Definition example_loads (b : bytes) : result json :=
  if bool_decide (b = [104]) then Ok (JDict [($"alg", JStr ($"ES256"))])
  else if bool_decide (b = [112]) then Ok (JDict example_payload) else Err ValueError.

Lemma vc_verify_sound_witness :
  vc_guarantee example_loads (fun _ _ _ _ => Ok true) (fun s => s) (fun _ _ _ _ _ _ => JwtClaims example_payload)
    (fun _ => false) (fun _ => false) (fun _ => Some (7000000, None))
    {| leeway := JInt 60; algs := ALLOWED_ALGS |} ($"aA.cA.cw") (JDict [($"kty", JStr ($"EC")); ($"crv", JStr ($"P-256"))])
    [] JNull true (NInt 0) 5000000
    {| credential := example_credential; vc_issuer := $"did:x"; vc_subject := None;
       vc_claims := example_payload; vc_expired := false |}.
Proof.
  apply (vc_verify_sound example_loads (fun _ _ _ _ => Ok true) (fun s => s) (fun _ _ => true) (fun _ => true)
    (fun _ _ _ _ _ _ => JwtClaims example_payload) (fun _ => false) (fun _ => false) (fun _ => Some (7000000, None))).
  vm_compute. reflexivity.
Defined.
