(* ===== verification/SdJwt.v ===== *)
(** [openvc.proof.sd_jwt] (src/src/openvc/proof/sd_jwt.py): the SD-JWT VC suite.  The
    recursive unpacking of disclosures is modelled with its three pieces of shared state;
    hashes, the JSON parser and serialiser and the signature primitives are parameters. *)
From S2P Require Import Prelude Errors PyStr Json Base64 PyNum VerifyCommon VcJwt.

Definition MAX_DEPTH : Z := 100.
Definition HASHES : list pystr := [$"sha-256"; $"sha-384"; $"sha-512"].
Definition DEFAULT_HASH : pystr := $"sha-256".
Definition ISSUER_TYP : pystr := $"dc+sd-jwt".
Definition KB_TYP : pystr := $"kb+jwt".
Definition W3C_TYPS : list pystr := [$"vc+sd-jwt"; $"vc+ld+json+sd-jwt"].
Definition ACCEPTED_ISSUER_TYP : list pystr := ISSUER_TYP :: W3C_TYPS.
Definition VCDM_CONTEXTS : list pystr :=
  [$"https://www.w3.org/ns/credentials/v2"; $"https://www.w3.org/2018/credentials/v1"].
Definition SD_JWT_VC_NON_DISCLOSABLE : list pystr :=
  [$"iss"; $"nbf"; $"exp"; $"cnf"; $"vct"; $"vct#integrity"; $"aka_vcts"; $"status"].
Definition OPENVC_NON_DISCLOSABLE : list pystr := [$"credentialStatus"; $"@context"].
Definition VCDM_VALIDITY_CLAIMS : list pystr := [$"validFrom"; $"validUntil"; $"issuanceDate"; $"expirationDate"].

(** * Unpacking *)

(** What [_unpack] mutates: the digests used, the digests met, and where each disclosure
    landed, [(top-level claim, nested)]. *)
Record ustate := { used : list pystr; seen : list pystr; placed : list (option pystr * bool) }.

(** A digest met for the first time. *)
Definition meet (digest : pystr) (s : ustate) : result ustate :=
  raise_if (bool_decide (digest ∈ seen s)) SdJwtError;;
  Ok {| used := used s; seen := digest :: seen s; placed := placed s |}.

Definition place (digest : pystr) (where_ : option pystr * bool) (s : ustate) : ustate :=
  {| used := digest :: used s; seen := seen s; placed := placed s ++ [where_] |}.

Definition sd_digests (sd : json) : result (list pystr) :=
  match sd with
  | JNull => Ok []
  | JList l => mapR (fun d => match d with JStr s => Ok s | _ => Err SdJwtError end) l
  | _ => Err SdJwtError
  end.

(** [top] is the claim a nested node lies under: [key if top is None else top]. *)
Definition under (top : option pystr) (key : pystr) : option pystr :=
  match top with None => Some key | _ => top end.

Section unpack.
Context (disclosures : list (pystr * list json)).
(** The recursive call, one level deeper. *)
Context (rec : json -> option pystr -> ustate -> result (json * ustate)).

(** One member of an object. *)
Definition unpack_member (top : option pystr) (acc : jobject * ustate) (m : pystr * json)
    : result (jobject * ustate) :=
  let '(r, s) := acc in
  if bool_decide (m.1 = $"_sd") then Ok (r, s)
  else
    raise_if (bool_decide (m.1 = $"...")) SdJwtError;;
    '(v, s) ← rec m.2 (under top m.1) s;
    Ok (dset r m.1 v, s).

(** One digest of an object's [_sd]. *)
Definition unpack_digest (top : option pystr) (acc : jobject * ustate) (digest : pystr)
    : result (jobject * ustate) :=
  let '(r, s) := acc in
  s ← meet digest s;
  match dget disclosures digest with
  | None => Ok (r, s)
  | Some [_; name; value] =>
      match name with
      | JStr name =>
          raise_if (bool_decide (name = $"_sd") || bool_decide (name = $"...")) SdJwtError;;
          raise_if (dmem r name) SdJwtError;;
          let s := place digest (match top with None => (Some name, false) | _ => (top, true) end) s in
          '(v, s) ← rec value (under top name) s;
          Ok (dset r name v, s)
      | _ => Err SdJwtError
      end
  | Some _ => Err SdJwtError
  end.

(** [set(element) == {"..."}]. *)
Definition element_digest (element : json) : option json :=
  match element with
  | JDict [(k, d)] => if bool_decide (k = $"...") then Some d else None
  | _ => None
  end.

(** One element of an array. *)
Definition unpack_element (top : option pystr) (acc : list json * ustate) (element : json)
    : result (list json * ustate) :=
  let '(out, s) := acc in
  match element_digest element with
  | Some (JStr digest) =>
      s ← meet digest s;
      match dget disclosures digest with
      | None => Ok (out, s)
      | Some [_; value] =>
          '(v, s) ← rec value top (place digest (top, true) s);
          Ok (out ++ [v], s)
      | Some _ => Err SdJwtError
      end
  | Some _ => Err SdJwtError
  | None => '(v, s) ← rec element top s; Ok (out ++ [v], s)
  end.
End unpack.

(** [room] is how many levels are left before [depth > _MAX_DEPTH]. *)
Fixpoint unpack_at (disclosures : list (pystr * list json)) (room : nat) (node : json)
    (top : option pystr) (s : ustate) : result (json * ustate) :=
  match room with
  | O => Err SdJwtError
  | S room =>
      let rec := unpack_at disclosures room in
      match node with
      | JDict d =>
          '(r, s) ← foldR (unpack_member rec top) ([], s) d;
          digests ← sd_digests (jget d ($"_sd"));
          '(r, s) ← foldR (unpack_digest disclosures rec top) (r, s) digests;
          Ok (JDict r, s)
      | JList l =>
          '(out, s) ← foldR (unpack_element disclosures rec top) ([], s) l;
          Ok (JList out, s)
      | _ => Ok (node, s)
      end
  end.

Definition start : ustate := {| used := []; seen := []; placed := [] |}.

(** [_unpack(claims, by_digest, used, set(), placed=placed)]. *)
Definition unpack (disclosures : list (pystr * list json)) (claims : json) : result (json * ustate) :=
  unpack_at disclosures (Z.to_nat (MAX_DEPTH + 1)) claims None start.

(** * What a payload declares *)

Definition disclosure_refusal (name : option pystr) (vcdm : bool) : bool :=
  match name with
  | None => false
  | Some n => bool_decide (n ∈ SD_JWT_VC_NON_DISCLOSABLE) || bool_decide (n ∈ OPENVC_NON_DISCLOSABLE)
              || (vcdm && bool_decide (n ∈ VCDM_VALIDITY_CLAIMS))
  end.

Definition str_in (v : json) (l : list pystr) : bool :=
  match v with JStr s => bool_decide (s ∈ l) | _ => false end.

Definition declares_vcdm (claims : jobject) : bool :=
  let context := jget claims ($"@context") in
  existsb (fun entry => str_in entry VCDM_CONTEXTS) (match context with JList l => l | _ => [context] end).

Definition declares_credential (claims : jobject) : bool :=
  let declared := jget claims ($"type") in
  let names := match declared with JList l => l | _ => [declared] end in
  existsb (fun v => eq_str v ($"VerifiableCredential")) names
  && negb (existsb (fun v => eq_str v ($"VerifiablePresentation")) names).

Definition check_aka_vcts (payload : jobject) : result unit :=
  match jget payload ($"aka_vcts") with
  | JNull => Ok tt
  | JList (i :: aka) =>
      raise_if (negb (forallb (fun item => is_str item && truthy item) (i :: aka))) ClaimsInvalid;;
      raise_if (match jget payload ($"vct") with
                | JStr vct => existsb (fun item => eq_str item vct) (i :: aka)
                | _ => false
                end) ClaimsInvalid
  | _ => Err ClaimsInvalid
  end.

Definition vcdm_issuer (body : jobject) : option pystr :=
  match issuer_identifiers (jget body ($"issuer")) with
  | JStr i :: others => if bool_decide (i = []) then None
                    else if forallb (fun v => eq_str v i) others then Some i else None
  | _ => None
  end.

Definition may_use_vcdm_issuer (body header : jobject) : bool :=
  negb (dmem body ($"iss")) &&
  match dget header ($"typ") with None => true | Some typ => str_in typ W3C_TYPS end.

Definition issuer_from_body (body header : jobject) : json :=
  if may_use_vcdm_issuer body header
  then match vcdm_issuer body with Some i => JStr i | None => JNull end
  else jget body ($"iss").

Definition starts_with_base_context (claims : jobject) : bool :=
  let context := jget claims ($"@context") in
  str_in (match context with JList (c :: _) => c | _ => context end) VCDM_CONTEXTS.

(** [_vcdm_nonconformity(claims) is not None]. *)
Definition vcdm_nonconformity (claims : jobject) : bool :=
  negb (starts_with_base_context claims) || negb (declares_credential claims).

(** * The suite *)

Section suite.
Context (hash : pystr -> bytes -> bytes).
Context (json_loads : bytes -> result json) (json_bytes : json -> result bytes).
Context (verify_signature : pystr -> json -> bytes -> bytes -> result bool).
Context (is_space is_decimal : Z -> bool) (fromisoformat : pystr -> option (Z * option Z)).

Definition make_object_disclosure (salt name : pystr) (value : json) : result pystr :=
  raw ← json_bytes (JList [JStr salt; JStr name; value]); Ok (b64url_encode raw).
Definition make_array_disclosure (salt : pystr) (value : json) : result pystr :=
  raw ← json_bytes (JList [JStr salt; value]); Ok (b64url_encode raw).

Definition disclosure_digest (disclosure hash_name : pystr) : result pystr :=
  raise_if (negb (bool_decide (hash_name ∈ HASHES))) SdJwtError;;
  raw ← encode_ascii disclosure;
  Ok (b64url_encode (hash hash_name raw)).

(** [value.encode("ascii")] as a typed error. *)
Definition ascii_bytes (value : pystr) : result bytes :=
  catch_as (fun e => isinstance e UnicodeEncodeError) SdJwtError (encode_ascii value).

Definition split (sd_jwt : pystr) : result (pystr * list pystr * pystr) :=
  match split_on 126 sd_jwt with
  | p :: q :: rest =>
      Ok (p, filter (fun d => d <> []) (removelast (q :: rest)), List.last (q :: rest) [])
  | _ => Err MalformedToken
  end.

(** The presented string [<jwt>~<d>~...~]. *)
Definition presented (issuer_jwt : pystr) (disclosures : list pystr) : pystr :=
  issuer_jwt ++ 126 :: concat (map (fun d => d ++ [126]) disclosures).

Definition decode_jws (jws : pystr) : result (jobject * jobject * bytes * bytes) :=
  parse_compact json_loads jws.

Definition verify_sig (alg : pystr) (jwk : json) (signing_input signature : bytes) : result unit :=
  ok ← catch_as (fun e => isinstance e KeyBackendError) ProofError
         (verify_signature alg jwk signing_input signature);
  raise_if (negb ok) SignatureInvalid.

Fixpoint index_disclosures (disclosures : list pystr) (hash_name : pystr)
    (by_digest : list (pystr * list json)) : result (list (pystr * list json)) :=
  match disclosures with
  | [] => Ok by_digest
  | disclosure :: disclosures =>
      parsed ← catch_as value_or_recursion SdJwtError (raw ← b64url_decode disclosure; json_loads raw);
      match parsed with
      | JList l =>
          raise_if (negb ((len l =? 2) || (len l =? 3))) SdJwtError;;
          digest ← disclosure_digest disclosure hash_name;
          raise_if (dmem by_digest digest) SdJwtError;;
          index_disclosures disclosures hash_name (dset by_digest digest l)
      | _ => Err SdJwtError
      end
  end.

Definition verify_key_binding (su : suite) (kb_jwt issuer_jwt : pystr) (disclosures : list pystr)
    (cnf : json) (hash_name : pystr) (audience nonce : json) (required : bool) (current : num)
    (max_age_s : Z) : result bool :=
  raise_if (required && (is_none audience || is_none nonce)) ClaimsInvalid;;
  if bool_decide (kb_jwt = []) then raise_if required ClaimsInvalid;; Ok false
  else
    raise_if ((negb (is_none audience) || negb (is_none nonce)) && (is_none audience || is_none nonce)) ClaimsInvalid;;
    raise_if ((negb (is_none audience) || negb (is_none nonce)) &&
              negb (is_str audience && truthy audience && is_str nonce && truthy nonce)) ClaimsInvalid;;
    '(header, claims, signing_input, signature) ← decode_jws kb_jwt;
    raise_if (negb (eq_str (jget header ($"typ")) KB_TYP)) SdJwtError;;
    match allowed_alg (jget header ($"alg")) (algs su) with
    | None => Err UnsupportedAlgorithm
    | Some alg =>
        reject_unknown_crit header;;
        match cnf with
        | JDict c =>
            match jget c ($"jwk") with
            | JDict jwk =>
                verify_sig alg (JDict jwk) signing_input signature;;
                check_iat_freshness (jget claims ($"iat")) max_age_s (leeway su) current;;
                check_numeric_dates claims [$"exp"; $"nbf"];;
                catch_as (fun e => isinstance e ClaimsInvalid) ClaimsInvalid
                  (check_jwt_temporal claims (leeway su) current true);;
                raise_if (negb (is_none audience) && negb (py_eq (jget claims ($"aud")) audience)) ClaimsInvalid;;
                raise_if (negb (is_none nonce) && negb (py_eq (jget claims ($"nonce")) nonce)) ClaimsInvalid;;
                raw ← ascii_bytes (presented issuer_jwt disclosures);
                raise_if (negb (eq_str (jget claims ($"sd_hash")) (b64url_encode (hash hash_name raw)))) ClaimsInvalid;;
                Ok true
            | _ => Err ClaimsInvalid
            end
        | _ => Err ClaimsInvalid
        end
    end.

(** The nested function [_iss_and_hash]. *)
Definition iss_and_hash (claims header : jobject) : result (pystr * pystr) :=
  match issuer_from_body claims header with
  | JStr [] => Err ClaimsInvalid
  | JStr iss =>
      match default (JStr DEFAULT_HASH) (dget claims ($"_sd_alg")) with
      | JStr h => raise_if (negb (bool_decide (h ∈ HASHES))) SdJwtError;; Ok (iss, h)
      | _ => Err SdJwtError
      end
  | _ => Err ClaimsInvalid
  end.

Record VerifiedSdJwt := {
  sd_claims : jobject; sd_issuer : pystr; sd_vct : option pystr; sd_key_bound : bool;
  sd_confirmation : json; sd_expired : bool; sd_vcdm : bool; sd_typ : option pystr }.

(** The checks on the processed payload, after the disclosures are placed. *)
Definition check_profile (typ : option pystr) (unpacked : jobject) (placed : list (option pystr * bool))
    : result bool :=
  let vcdm := declares_vcdm unpacked in
  raise_if (existsb (fun p : option pystr * bool => disclosure_refusal p.1 vcdm) placed) SdJwtError;;
  (if bool_decide (typ = Some ISSUER_TYP) then
     match jget unpacked ($"vct") with
     | JStr (_ :: _) => Ok tt
     | _ => Err ClaimsInvalid
     end
   else
     raise_if (negb vcdm) SdJwtError;;
     raise_if (bool_decide (typ = None) && (dmem unpacked ($"vc") || dmem unpacked ($"vp"))) SdJwtError;;
     raise_if (vcdm_nonconformity unpacked) SdJwtError);;
  Ok vcdm.

(** [clock] is the current time the issuer JWT is judged at, [current] the instant of the
    key-binding window ([now], or [clock]), [instant] the clock of the VCDM window. *)
Definition sd_verify (su : suite) (presentation : pystr) (public_key_jwk audience nonce : json)
    (require_key_binding : bool) (expected_vct : option pystr) (check_temporal : bool)
    (kb_max_age_s : json) (current clock : num) (instant : Z) : result VerifiedSdJwt :=
  max_age ← non_negative_seconds kb_max_age_s SdJwtError;
  '(issuer_jwt, disclosures, kb_jwt) ← split presentation;
  '(header, claims, signing_input, signature) ← decode_jws issuer_jwt;
  match allowed_alg (jget header ($"alg")) (algs su) with
  | None => Err UnsupportedAlgorithm
  | Some alg =>
      typ ← match dget header ($"typ") with
            | None => Ok None
            | Some (JStr t) => raise_if (negb (bool_decide (t ∈ ACCEPTED_ISSUER_TYP))) SdJwtError;; Ok (Some t)
            | Some _ => Err SdJwtError
            end;
      reject_unknown_crit header;;
      verify_sig alg public_key_jwk signing_input signature;;
      let bind hash_name required :=
        verify_key_binding su kb_jwt issuer_jwt disclosures (jget claims ($"cnf")) hash_name audience nonce
          required current max_age in
      '(expired, iss, hash_name, key_bound) ←
        (if require_key_binding then
           '(iss, hash_name) ← iss_and_hash claims header;
           kb ← bind hash_name true;
           expired ← check_jwt_temporal claims (leeway su) clock check_temporal;
           Ok (expired, iss, hash_name, kb)
         else
           expired ← check_jwt_temporal claims (leeway su) clock check_temporal;
           '(iss, hash_name) ← iss_and_hash claims header;
           Ok (expired, iss, hash_name, false));
      by_digest ← index_disclosures disclosures hash_name [];
      '(node, s) ← unpack by_digest (JDict claims);
      raise_if (existsb (fun d => negb (bool_decide (d ∈ used s))) by_digest.*1) SdJwtError;;
      match node with
      | JDict unpacked =>
          let unpacked := ddel unpacked ($"_sd_alg") in
          vcdm ← check_profile typ unpacked (placed s);
          again ← check_jwt_temporal unpacked (leeway su) clock check_temporal;
          check_jwt_audience unpacked audience false;;
          window ← (if vcdm : bool then
                      w ← check_validity_window is_space is_decimal fromisoformat unpacked [] instant
                            (leeway su) check_temporal;
                      reconcile (dset unpacked ($"iss") (JStr iss)) unpacked;;
                      Ok w
                    else Ok false);
          let vct := jget unpacked ($"vct") in
          raise_if (match expected_vct with Some v => negb (eq_str vct v) | None => false end) ClaimsInvalid;;
          check_aka_vcts unpacked;;
          key_bound ← (if require_key_binding then Ok key_bound else bind hash_name false);
          Ok {| sd_claims := unpacked; sd_issuer := iss; sd_vct := as_str vct; sd_key_bound := key_bound;
                sd_confirmation := jget claims ($"cnf"); sd_expired := window || again || expired;
                sd_vcdm := vcdm; sd_typ := typ |}
      | _ => Err TypeError
      end
  end.
End suite.

(** * Unpacking: totality and its state *)

Lemma meet_errs digest s : errs_in (eq SdJwtError) (meet digest s).
Proof. unfold meet. solve_errs. Qed.

Lemma sd_digests_errs sd : errs_in (eq SdJwtError) (sd_digests sd).
Proof.
  unfold sd_digests. destruct sd; solve_errs. apply mapR_errs_in. intros [] _; solve_errs.
Qed.

#[local] Hint Resolve meet_errs sd_digests_errs : py.

Lemma unpack_at_errs D room node top s : errs_in (eq SdJwtError) (unpack_at D room node top s).
Proof.
  revert node top s. induction room as [|room IH]; intros node top s; [by apply errs_in_Err|].
  cbn [unpack_at]. destruct node; try apply errs_in_Ok.
  - apply errs_in_bind; [|intros []; solve_errs]. apply foldR_errs_in. intros [out s1] x _.
    unfold unpack_element. solve_errs.
  - apply errs_in_bind.
    { apply foldR_errs_in. intros [r s1] x _. unfold unpack_member. solve_errs. }
    intros [r s1] _. apply errs_in_bind; [apply sd_digests_errs|]. intros ds _.
    apply errs_in_bind; [|intros []; solve_errs]. apply foldR_errs_in. intros [r' s2] x _.
    unfold unpack_digest. solve_errs.
Qed.

(** The three pieces of state agree: no digest is met twice, each one used was met, names a
    presented disclosure, and is recorded once. *)
Record ustate_ok (D : list (pystr * list json)) (s : ustate) : Prop := {
  seen_nodup : NoDup (seen s);
  used_nodup : NoDup (used s);
  used_seen : used s ⊆ seen s;
  used_presented : used s ⊆ D.*1;
  placed_used : length (placed s) = length (used s) }.

Lemma start_ok D : ustate_ok D start.
Proof. split; simpl; [constructor|constructor|set_solver|set_solver|done]. Qed.

Lemma meet_ok D digest s s' : meet digest s = Ok s' -> ustate_ok D s -> ustate_ok D s'.
Proof.
  unfold meet. intros H [Hs Hu Hus Hup Hl]. inv_result. case_bool_decide; [done|].
  split; simpl; [by constructor|done|set_solver|done|done].
Qed.

Lemma place_ok D digest d where_ s s' :
  meet digest s = Ok s' -> dget D digest = Some d -> ustate_ok D s -> ustate_ok D (place digest where_ s').
Proof.
  intros H Hd Hok. pose proof (meet_ok D _ _ _ H Hok) as [Hs Hu Hus Hup Hl].
  destruct Hok as [_ _ Hus' _ _]. unfold meet in H. inv_result. simpl in *.
  case_bool_decide; [done|]. split; simpl.
  - done.
  - constructor; [set_solver|done].
  - set_solver.
  - intros y [->|?]%elem_of_cons; [|set_solver]. apply dget_Some_elem in Hd. apply list_elem_of_fmap. by exists (digest, d).
  - rewrite length_app. simpl. lia.
Qed.

(** Take a step of the unpacking loops apart. *)
Ltac inv_step :=
  repeat (simplify_eq; inv_result; try match goal with
    | H : (let '(_, _) := ?p in _) = Ok _ |- _ => is_var p; destruct p
    | H : match ?x with _ => _ end = Ok _ |- _ => destruct x eqn:?
    end).

Section steps.
Context (D : list (pystr * list json)) (rec : json -> option pystr -> ustate -> result (json * ustate)).
Context (rec_ok : forall node top s v s', rec node top s = Ok (v, s') -> ustate_ok D s -> ustate_ok D s').

Lemma unpack_member_ok top r s m r' s' :
  unpack_member rec top (r, s) m = Ok (r', s') -> ustate_ok D s -> ustate_ok D s'.
Proof using rec_ok. unfold unpack_member. intros H ?. inv_step; eauto. Qed.

Lemma unpack_digest_ok top r s digest r' s' :
  unpack_digest D rec top (r, s) digest = Ok (r', s') -> ustate_ok D s -> ustate_ok D s'.
Proof using rec_ok. unfold unpack_digest. intros H ?. inv_step; eauto using meet_ok, place_ok. Qed.

Lemma unpack_element_ok top out s e out' s' :
  unpack_element D rec top (out, s) e = Ok (out', s') -> ustate_ok D s -> ustate_ok D s'.
Proof using rec_ok. unfold unpack_element. intros H ?. inv_step; eauto using meet_ok, place_ok. Qed.
End steps.

Lemma unpack_at_ok D room node top s v s' :
  unpack_at D room node top s = Ok (v, s') -> ustate_ok D s -> ustate_ok D s'.
Proof.
  revert node top s v s'. induction room as [|room IH]; intros node top s v s' H Hs; [done|].
  cbn [unpack_at] in H. destruct node as [| | | | |l|d|]; try (by inv_step).
  - apply bind_Ok in H as ([out s1] & H & [= _ <-]).
    apply (foldR_inv (fun acc => ustate_ok D acc.2) _ _ _ _ H); [done|].
    intros [] x [] _ Hok Hf. eauto using unpack_element_ok.
  - apply bind_Ok in H as ([r s1] & H1 & H). apply bind_Ok in H as (ds & _ & H).
    apply bind_Ok in H as ([r2 s2] & H2 & [= _ <-]).
    apply (foldR_inv (fun acc => ustate_ok D acc.2) _ _ _ _ H2);
      [apply (foldR_inv (fun acc => ustate_ok D acc.2) _ _ _ _ H1); [done|]|];
      intros [] x [] _ Hok Hf; eauto using unpack_member_ok, unpack_digest_ok.
Qed.

(** * What is issuer-signed plaintext *)

(** Reference: what a payload says to a verifier shown no disclosure at all. *)
Fixpoint plain (v : json) : json :=
  match v with
  | JDict d => JDict (ddel (map (fun kv => (kv.1, plain kv.2)) d) ($"_sd"))
  | JList l => JList (concat (map (fun e => if element_digest e is Some _ then [] else [plain e]) l))
  | _ => v
  end.

(** Objects with distinct member names, at every depth: all the loader returns. *)
Fixpoint json_ok (v : json) : Prop :=
  match v with
  | JDict d => dict_ok d /\ Forall id (map (fun kv => json_ok kv.2) d)
  | JList l => Forall id (map json_ok l)
  | _ => True
  end.

Lemma json_ok_dict d : json_ok (JDict d) <-> dict_ok d /\ Forall (fun kv => json_ok kv.2) d.
Proof. cbn [json_ok]. by rewrite Forall_map. Qed.

Lemma json_ok_list l : json_ok (JList l) <-> Forall json_ok l.
Proof. cbn [json_ok]. by rewrite Forall_map. Qed.

(** Between two states, only sub-claims of [t] were placed. *)
Definition placed_under (t : pystr) (s s' : ustate) : Prop :=
  exists k, placed s' = placed s ++ repeat (Some t, true) k.

Lemma placed_under_refl t s : placed_under t s s.
Proof. exists 0%nat. by rewrite app_nil_r. Qed.

Lemma placed_under_trans t s1 s2 s3 : placed_under t s1 s2 -> placed_under t s2 s3 -> placed_under t s1 s3.
Proof. intros [k Hk] [j Hj]. exists (k + j)%nat. by rewrite Hj, Hk, repeat_app, app_assoc. Qed.

Lemma placed_under_meet t digest s s' : meet digest s = Ok s' -> placed_under t s s'.
Proof. unfold meet. intros. inv_result. exists 0%nat. by rewrite app_nil_r. Qed.

Lemma placed_under_place t digest s : placed_under t s (place digest (Some t, true) s).
Proof. by exists 1%nat. Qed.

#[local] Hint Resolve placed_under_refl placed_under_trans placed_under_meet placed_under_place : py.

Lemma placed_under_same t s1 s2 s3 :
  placed_under t s1 s2 -> placed_under t s2 s3 -> placed s3 = placed s1 ->
  placed s2 = placed s1 /\ placed s3 = placed s2.
Proof.
  intros [k Hk] [j Hj] H. rewrite Hk in Hj. rewrite Hj, <-app_assoc, <-repeat_app in H.
  apply (f_equal length) in H as Hl. rewrite length_app, repeat_length in Hl.
  assert (k = 0 /\ j = 0)%nat as [-> ->] by lia. simpl in *. by rewrite Hj, Hk, !app_nil_r.
Qed.

(** One computation below the top-level claim [t]: it places only sub-claims of [t], and if it
    places none its outcome is [v]. *)
Definition under_claim (t : pystr) (s s' : ustate) (outcome : Prop) : Prop :=
  placed_under t s s' /\ (placed s' = placed s -> outcome).

Lemma under_claim_seq t s1 s2 s3 (P Q R : Prop) :
  under_claim t s1 s2 P -> under_claim t s2 s3 Q -> (P -> Q -> R) -> under_claim t s1 s3 R.
Proof.
  intros [H1 HP] [H2 HQ] HR. split; [eauto with py|]. intros H.
  destruct (placed_under_same t s1 s2 s3) as [Ha Hb]; auto.
Qed.

Lemma under_claim_meet t digest s s1 s' P :
  meet digest s = Ok s1 -> under_claim t s1 s' P -> under_claim t s s' P.
Proof.
  intros Hm H. eapply (under_claim_seq t s s1 s' True P P); [|done|auto]. split; [eauto with py|done].
Qed.

Lemma under_claim_place t digest s s' P Q :
  under_claim t (place digest (Some t, true) s) s' P -> under_claim t s s' Q.
Proof.
  intros [[k Hk] _]. simpl in Hk. rewrite <-app_assoc in Hk. split; [by exists (S k)|].
  intros H. rewrite Hk in H. apply (f_equal length) in H. rewrite length_app in H. simpl in H. lia.
Qed.

Section below.
Context (D : list (pystr * list json)) (rec : json -> option pystr -> ustate -> result (json * ustate)).
Context (t : pystr).
Context (rec_plain : forall node s v s', rec node (Some t) s = Ok (v, s') ->
  under_claim t s s' (json_ok node -> v = plain node)).

Lemma members_plain l r s r' s' :
  foldR (unpack_member rec (Some t)) (r, s) l = Ok (r', s') ->
  under_claim t s s' (Forall (fun kv => json_ok kv.2) l -> NoDup (r.*1 ++ l.*1) ->
    r' = r ++ ddel (map (fun kv => (kv.1, plain kv.2)) l) ($"_sd")).
Proof using rec_plain.
  revert r s. induction l as [|[k w] l IH]; intros r s H; cbn [foldR] in H.
  { simplify_eq. split; [eauto with py|]. intros _ _ _. by rewrite app_nil_r. }
  apply bind_Ok in H as ([r1 s1] & Hm & H). apply IH in H. unfold unpack_member in Hm. cbn [fst snd] in Hm.
  unfold ddel. cbn [map fst snd]. rewrite filter_cons. cbn [fst].
  case_bool_decide as Hk; [|rewrite decide_True by done]; simplify_eq.
  - destruct H as [H1 H2]. split; [done|]. intros Hp Hok Hnd. inversion_clear Hok. rewrite decide_False by naive_solver.
    apply H2; [done..|]. csimpl in Hnd. apply NoDup_app in Hnd as (? & ? & [_ ?]%NoDup_cons). apply NoDup_app.
    split_and!; [done|set_solver|done].
  - inv_step. cbn [under] in *. match goal with H : rec _ _ _ = _ |- _ => apply rec_plain in H as Hr end.
    eapply under_claim_seq; [done..|]. intros Hw Hr' Hok Hnd. inversion_clear Hok as [|?? Hokw Hokl].
    csimpl in Hnd. assert (k ∉ r.*1) by (apply NoDup_app in Hnd as (_ & ? & _); set_solver).
    rewrite (Hw Hokw), (dset_new r k) in Hr' by done. rewrite Hr'; [by rewrite <-app_assoc|done|].
    by rewrite fmap_app, <-app_assoc.
Qed.

Lemma digests_plain ds r s r' s' :
  foldR (unpack_digest D rec (Some t)) (r, s) ds = Ok (r', s') -> under_claim t s s' (r' = r).
Proof using rec_plain.
  revert r s. induction ds as [|digest ds IH]; intros r s H; cbn [foldR] in H.
  { simplify_eq. split; [eauto with py|done]. }
  apply bind_Ok in H as ([r1 s1] & Hm & H). apply IH in H. unfold unpack_digest in Hm. inv_step.
  - eapply (under_claim_seq _ _ _ _ False); [|done|done]. eapply under_claim_meet; [done|].
    eapply under_claim_place. by apply rec_plain.
  - by eapply under_claim_meet.
Qed.

Lemma elements_plain l out s out' s' :
  foldR (unpack_element D rec (Some t)) (out, s) l = Ok (out', s') ->
  under_claim t s s' (Forall json_ok l ->
    out' = out ++ concat (map (fun e => if element_digest e is Some _ then [] else [plain e]) l)).
Proof using rec_plain.
  revert out s. induction l as [|e l IH]; intros out s H; cbn [foldR] in H.
  { simplify_eq. split; [eauto with py|]. intros _ _. by rewrite app_nil_r. }
  apply bind_Ok in H as ([o1 s1] & Hm & H). apply IH in H. unfold unpack_element in Hm.
  cbn [map concat]. destruct (element_digest e) as [d|]; [destruct d; try done|].
  - apply bind_Ok in Hm as (s2 & Hmeet & Hm). eapply under_claim_meet; [done|]. destruct (dget D s0) as [dis|].
    + destruct dis as [|? [|v [|]]]; try done. apply bind_Ok in Hm as ([w s3] & Hr & [= <- <-]).
      apply rec_plain in Hr. eapply under_claim_seq; [by eapply (under_claim_place _ _ _ _ _ False)|done|done].
    + injection Hm as <- <-. destruct H as [H1 H2]. split; [done|]. intros Hp Hok. inversion_clear Hok. by apply H2.
  - apply bind_Ok in Hm as ([w s3] & Hr & [= <- <-]). apply rec_plain in Hr.
    eapply under_claim_seq; [done..|]. intros Hw Ho Hok. inversion_clear Hok as [|?? H1 H2].
    rewrite (Ho H2), (Hw H1). by rewrite <-app_assoc.
Qed.
End below.

Lemma unpack_below D room node t s v s' :
  unpack_at D room node (Some t) s = Ok (v, s') -> under_claim t s s' (json_ok node -> v = plain node).
Proof.
  revert node s v s'. induction room as [|room IH]; intros node s v s' H; [done|].
  cbn [unpack_at] in H. destruct node as [| | | | |l|d|];
    try (simplify_eq; split; [eauto with py|done]).
  - apply bind_Ok in H as ([out s1] & H & [= <- <-]). apply elements_plain in H as [H1 H2]; [|by apply IH].
    split; [done|]. intros Hp Hok%json_ok_list. by rewrite (H2 Hp Hok).
  - apply bind_Ok in H as ([r1 s1] & Hm & H). apply bind_Ok in H as (ds & _ & H).
    apply bind_Ok in H as ([r2 s2] & Hd & [= <- <-]).
    apply members_plain in Hm; [|by apply IH]. apply digests_plain in Hd; [|by apply IH].
    eapply under_claim_seq; [done..|]. cbn beta. intros Hr ->. rewrite json_ok_dict. intros [Hnd Hok].
    rewrite Hr; [done..|]. exact Hnd.
Qed.

(** At the root: only claims [placed] records differ from the issuer-signed plaintext. *)
Definition untouched (n : pystr) (s : ustate) : Prop := forall nested, (Some n, nested) ∉ placed s.

Section root.
Context (D : list (pystr * list json)) (room : nat).

Lemma root_members l r s r' s' :
  foldR (unpack_member (unpack_at D room) None) (r, s) l = Ok (r', s') ->
  exists ext, placed s' = placed s ++ ext /\
    (forall n, n ∉ l.*1 -> dget r' n = dget r n) /\
    (NoDup l.*1 -> forall n w, (n, w) ∈ l -> json_ok w -> n <> $"_sd" -> (Some n, true) ∉ ext ->
       dget r' n = Some (plain w)).
Proof.
  revert r s. induction l as [|[k w] l IH]; intros r s H; cbn [foldR] in H.
  { simplify_eq. exists []. rewrite app_nil_r. split_and!; [done|done|]. set_solver. }
  apply bind_Ok in H as ([r1 s1] & Hm & H). apply IH in H as (ext & Hext & Hout & Hin).
  unfold unpack_member in Hm. cbn [fst snd under] in Hm. case_bool_decide as Hk; simplify_eq.
  - exists ext. csimpl. split_and!; [done|set_solver|].
    intros [_ Hnd]%NoDup_cons n v [[=]|?]%elem_of_cons; [by subst|by apply Hin].
  - inv_step. match goal with H : unpack_at _ _ _ _ _ = _ |- _ => apply unpack_below in H as [[i Hj] Hw] end.
    exists (repeat (Some k, true) i ++ ext). csimpl. split_and!.
    + by rewrite Hext, Hj, app_assoc.
    + intros n Hn. rewrite Hout, dget_dset, decide_False by set_solver. done.
    + intros [Hk' Hnd]%NoDup_cons n v [[= -> ->]|Hl]%elem_of_cons Hok Hsd Hp.
      * rewrite Hout, dget_dset, decide_True by done. f_equal. apply Hw; [|done].
        destruct i; [by rewrite Hj, app_nil_r|]. exfalso. apply Hp. simpl. left.
      * apply Hin; [done..|]. set_solver.
Qed.

Lemma root_digests ds r s r' s' :
  foldR (unpack_digest D (unpack_at D room) None) (r, s) ds = Ok (r', s') ->
  exists ext, placed s' = placed s ++ ext /\
    (forall n, (Some n, false) ∉ ext -> dget r' n = dget r n).
Proof.
  revert r s. induction ds as [|digest ds IH]; intros r s H; cbn [foldR] in H.
  { simplify_eq. exists []. by rewrite app_nil_r. }
  apply bind_Ok in H as ([r1 s1] & Hm & H). apply IH in H as (ext & Hext & Hout).
  unfold unpack_digest in Hm. apply bind_Ok in Hm as (s2 & Hmeet & Hm).
  assert (placed s2 = placed s) as Hp by (unfold meet in Hmeet; by inv_result). inv_step.
  - match goal with H : unpack_at _ _ _ _ _ = _ |- _ => apply unpack_below in H as [[i Hj] _] end.
    cbn [place placed under] in Hj. eexists. split; [by rewrite Hext, Hj, Hp, <-!app_assoc|].
    intros n Hn. rewrite !elem_of_app, elem_of_cons in Hn. rewrite Hout by tauto.
    rewrite dget_dset, decide_False; [done|]. intros ->. tauto.
  - exists ext. by rewrite Hext, Hp.
Qed.
End root.

Lemma unpack_protected D c v s :
  unpack D (JDict c) = Ok (v, s) -> json_ok (JDict c) ->
  exists r, v = JDict r /\ forall n, n <> $"_sd" -> untouched n s -> dget r n = plain <$> dget c n.
Proof.
  unfold unpack. change (Z.to_nat (MAX_DEPTH + 1)) with (S 100). generalize 100%nat as room. intros room.
  cbn [unpack_at]. intros H Hj. apply json_ok_dict in Hj as [Hnd Hok].
  apply bind_Ok in H as ([r1 s1] & Hm & H). apply bind_Ok in H as (ds & _ & H).
  apply bind_Ok in H as ([r2 s2] & Hd & [= <- <-]). exists r2. split; [done|]. intros n Hn Hun.
  apply root_members in Hm as (e1 & He1 & Hout & Hin). apply root_digests in Hd as (e2 & He2 & Hd).
  unfold untouched in Hun. rewrite He2, He1 in Hun. simpl in Hun.
  rewrite Hd by (intros ?; apply (Hun false); set_solver). destruct (dget c n) as [w|] eqn:E.
  - apply dget_Some_elem in E. rewrite Forall_forall in Hok. apply (Hin Hnd _ w); [done|by apply (Hok (n, w))|done|].
    intros ?. apply (Hun true). set_solver.
  - apply dget_None in E. by rewrite Hout.
Qed.

(** Unpacking is total, bounded and linear in the disclosures.  Whatever the payload and
    the disclosures (cycles through digests included), it returns, and raises nothing but
    SdJwtError; when it succeeds no digest was met twice, every digest it used was met and
    names a presented disclosure, and each use was recorded once. *)
Theorem unpack_linear (D : list (pystr * list json)) (claims : json) :
  match unpack D claims with
  | Ok (_, s) => ustate_ok D s
  | Err e => e = SdJwtError
  end.
Proof.
  destruct (unpack D claims) as [[v s]|e] eqn:E.
  - eapply unpack_at_ok; [exact E|apply start_ok].
  - symmetry. by eapply unpack_at_errs.
Qed.

(** A disclosure changes only the claims it was placed at.  After a successful unpacking,
    every member of the payload that no disclosure was placed at or under is exactly what
    the issuer signed in the clear, with the digests removed. *)
Theorem undisclosed_claims_are_signed (D : list (pystr * list json)) (c : jobject) (v : json) (s : ustate)
    (Hok : json_ok (JDict c)) (H : unpack D (JDict c) = Ok (v, s)) :
  exists r, v = JDict r /\ forall n, n <> $"_sd" -> untouched n s -> dget r n = plain <$> dget c n.
Proof. by eapply unpack_protected. Qed.

Definition example_disclosures : list (pystr * list json) :=
  [($"d1", [JStr ($"salt"); JStr ($"name"); JDict [($"_sd", JList [JStr ($"d2")])]]); ($"d2", [JStr ($"salt"); JStr ($"first"); JStr ($"A")])].
Definition example_claims : jobject :=
  [($"iss", JStr ($"did:x")); ($"nats", JList [JStr ($"PT"); JDict [($"...", JStr ($"d9"))]]);
   ($"_sd", JList [JStr ($"d1"); JStr ($"decoy")])].

Lemma undisclosed_claims_are_signed_witness : exists r,
  unpack example_disclosures (JDict example_claims) =
    Ok (JDict r, {| used := [$"d2"; $"d1"]; seen := [$"decoy"; $"d2"; $"d1"; $"d9"];
                    placed := [(Some ($"name"), false); (Some ($"name"), true)] |}) /\
  dget r ($"nats") = Some (JList [JStr ($"PT")]) /\ dget r ($"iss") = Some (JStr ($"did:x")).
Proof.
  destruct (undisclosed_claims_are_signed example_disclosures example_claims
    (JDict [($"iss", JStr ($"did:x")); ($"nats", JList [JStr ($"PT")]);
            ($"name", JDict [($"first", JStr ($"A"))])])
    {| used := [$"d2"; $"d1"]; seen := [$"decoy"; $"d2"; $"d1"; $"d9"];
       placed := [(Some ($"name"), false); (Some ($"name"), true)] |}) as (r & [= <-] & H).
  - split; [by vm_compute; repeat constructor; set_solver|]. repeat constructor; vm_compute; set_solver.
  - vm_compute. reflexivity.
  - eexists. split; [vm_compute; reflexivity|]. split; apply H; try (vm_compute; discriminate);
      intros b; apply not_elem_of_nil || (vm_compute; set_solver).
Defined.

(** * What a verified SD-JWT guarantees *)

Section sd_sound.
Context (hash : pystr -> bytes -> bytes).
Context (json_loads : bytes -> result json) (verify_signature : pystr -> json -> bytes -> bytes -> result bool).

(** The holder signed, with the key of the issuer-signed [cnf], this audience, this nonce and
    these disclosures. *)
Definition holder_bound (su : suite) (kb_jwt issuer_jwt : pystr) (disclosures : list pystr)
    (cnf : json) (hash_name : pystr) (audience nonce : json) : Prop :=
  exists header claims si sig alg c jwk,
    decode_jws json_loads kb_jwt = Ok (header, claims, si, sig) /\
    jget header ($"typ") = JStr KB_TYP /\ jget header ($"alg") = JStr alg /\ alg ∈ algs su /\
    dmem header ($"crit") = false /\ cnf = JDict c /\ jget c ($"jwk") = JDict jwk /\
    verify_signature alg (JDict jwk) si sig = Ok true /\
    jget claims ($"sd_hash") = JStr (b64url_encode (hash hash_name (presented issuer_jwt disclosures))) /\
    (audience <> JNull \/ nonce <> JNull ->
       (exists a n, audience = JStr a /\ nonce = JStr n /\ a <> [] /\ n <> []) /\
       py_eq (jget claims ($"aud")) audience = true /\ py_eq (jget claims ($"nonce")) nonce = true).

(** The key-binding JWT was issued within [max_age] of [current], and its dates hold then. *)
Definition holder_fresh (su : suite) (kb_jwt : pystr) (max_age : Z) (current : num) : Prop :=
  exists header claims si sig l,
    decode_jws json_loads kb_jwt = Ok (header, claims, si, sig) /\ leeway su = JInt l /\
    issued_recently (jget claims ($"iat")) max_age l current /\ jwt_window claims l current false.

Lemma verify_sig_Ok alg jwk si sig u :
  verify_sig verify_signature alg jwk si sig = Ok u -> verify_signature alg jwk si sig = Ok true.
Proof using.
  unfold verify_sig. intros H. apply bind_Ok in H as (ok & Hok%catch_as_Ok & H%raise_if_Ok).
  by apply negb_false_iff in H as ->.
Qed.

Lemma verify_key_binding_Ok su kb_jwt issuer_jwt ds cnf h audience nonce required current max_age b :
  verify_key_binding hash json_loads verify_signature su kb_jwt issuer_jwt ds cnf h audience nonce
    required current max_age = Ok b ->
  (required = true -> b = true /\ audience <> JNull /\ nonce <> JNull) /\
  (b = true -> holder_bound su kb_jwt issuer_jwt ds cnf h audience nonce /\ holder_fresh su kb_jwt max_age current).
Proof using.
  unfold verify_key_binding. intros H. apply bind_Ok in H as (? & Hreq%raise_if_Ok & H).
  assert (Han : required = true -> audience <> JNull /\ nonce <> JNull).
  { intros ->. apply orb_false_iff in Hreq as [??]. by destruct audience, nonce. }
  case_bool_decide.
  { apply bind_Ok in H as (? & Hr%raise_if_Ok & [= <-]). by subst required. }
  apply bind_Ok in H as (? & H1%raise_if_Ok & H). apply bind_Ok in H as (? & H2%raise_if_Ok & H).
  apply bind_Ok in H as ([[[header claims] si] sig] & Hdec & H).
  apply bind_Ok in H as (? & Htyp%raise_if_Ok & H). apply negb_false_iff, eq_str_true in Htyp.
  destruct (allowed_alg _ _) as [alg|] eqn:Ea; [|done]. apply allowed_alg_Some in Ea as [Ealg Hin].
  apply bind_Ok in H as (? & Hcrit%reject_unknown_crit_Ok & H).
  destruct cnf as [| | | | | |c|]; try done. destruct (jget c _) as [| | | | | |jwk|] eqn:Ej; try done.
  apply bind_Ok in H as (? & Hsig%verify_sig_Ok & H).
  apply bind_Ok in H as (iat & Hiat%check_iat_freshness_Ok & H). destruct Hiat as (l & Hl & Hiat).
  apply bind_Ok in H as (? & _ & H). apply bind_Ok in H as (ex & Hex%catch_as_Ok & H).
  apply check_jwt_temporal_Ok in Hex as (l' & Hl' & _ & Hw & Hex). rewrite (Hex eq_refl) in Hw.
  assert (l' = l) as -> by congruence.
  apply bind_Ok in H as (? & Haud%raise_if_Ok & H). apply bind_Ok in H as (? & Hno%raise_if_Ok & H).
  apply bind_Ok in H as (raw & Hraw%catch_as_Ok & H). apply bind_Ok in H as (? & Hh%raise_if_Ok & [= <-]).
  apply negb_false_iff, eq_str_true in Hh. unfold encode_ascii in Hraw. case_match; [|done]. injection Hraw as <-.
  split; [naive_solver|]. intros _. split; [|by exists header, claims, si, sig, l].
  exists header, claims, si, sig, alg, c, jwk. split_and!; try done. intros Hgiven. assert (negb (is_none audience) || negb (is_none nonce) = true) as Hg.
  { destruct audience, nonce; try done; naive_solver. }
  rewrite Hg in H1, H2. cbn [andb] in H1, H2. apply orb_false_iff in H1 as [E1 E2]. rewrite E1 in Haud. rewrite E2 in Hno.
  apply negb_false_iff in H2. cbn [negb andb] in Haud, Hno. apply negb_false_iff in Haud, Hno. split; [|done].
  apply andb_true_iff in H2 as [[[Ha Hta]%andb_true_iff Hn]%andb_true_iff Htn].
  destruct audience as [| | | |aud| | |]; try done. destruct nonce as [| | | |non| | |]; try done.
  exists aud, non. by split_and!; [..|intros ->|intros ->].
Qed.
End sd_sound.

(** What the record [sd_verify] returns says of the presentation it came from. *)
Section sd_guarantee.
Context (hash : pystr -> bytes -> bytes).
Context (json_loads : bytes -> result json) (verify_signature : pystr -> json -> bytes -> bytes -> result bool).
Context (is_space is_decimal : Z -> bool) (fromisoformat : pystr -> option (Z * option Z)).

(** [D] holds the disclosures presented, each under its own digest. *)
Definition indexed (disclosures : list pystr) (hash_name : pystr) (D : list (pystr * list json)) : Prop :=
  NoDup D.*1 /\
  Forall2 (fun d kv => disclosure_digest hash d hash_name = Ok kv.1 /\
                       exists raw, b64url_decode d = Ok raw /\ json_loads raw = Ok (JList kv.2)) disclosures D.

Lemma index_disclosures_Ok ds h D : index_disclosures hash json_loads ds h [] = Ok D -> indexed ds h D.
Proof using.
  cut (forall D0, index_disclosures hash json_loads ds h D0 = Ok D -> NoDup D0.*1 ->
    NoDup D.*1 /\ exists D', D = D0 ++ D' /\ Forall2 (fun d kv => disclosure_digest hash d h = Ok kv.1 /\
       exists raw, b64url_decode d = Ok raw /\ json_loads raw = Ok (JList kv.2)) ds D').
  { intros H Hi. destruct (H [] Hi) as (? & D' & -> & ?); [constructor|by split]. }
  induction ds as [|d ds IH]; intros D0 H Hnd; cbn [index_disclosures] in H.
  { injection H as <-. split; [done|]. exists []. by rewrite app_nil_r. }
  apply bind_Ok in H as (parsed & Hp%catch_as_Ok & H). apply bind_Ok in Hp as (raw & Hraw & Hp).
  destruct parsed as [| | | | |l| |]; try done. apply bind_Ok in H as (? & _ & H).
  apply bind_Ok in H as (digest & Hd & H). apply bind_Ok in H as (? & Hm%raise_if_Ok & H).
  assert (digest ∉ D0.*1) as Hn by (intros ?%dmem_spec; congruence).
  apply IH in H as (? & D' & -> & HF).
  - split; [done|]. exists ((digest, l) :: D'). rewrite dset_new, <-app_assoc by done. split; [done|].
    constructor; [|done]. split; [done|]. by exists raw.
  - by apply dset_ok.
Qed.

Record sd_guarantee (su : suite) (presentation : pystr) (jwk audience nonce : json) (require_kb : bool)
    (expected_vct : option pystr) (ct : bool) (kb_max_age_s : json) (current clock : num) (instant : Z)
    (r : VerifiedSdJwt) (issuer_jwt : pystr) (disclosures : list pystr)
    (kb_jwt : pystr) (header claims : jobject) (hash_name : pystr) : Prop := {
  sg_split : split presentation = Ok (issuer_jwt, disclosures, kb_jwt);
  sg_signed : exists si sig alg, decode_jws json_loads issuer_jwt = Ok (header, claims, si, sig) /\
    jget header ($"alg") = JStr alg /\ alg ∈ algs su /\ dmem header ($"crit") = false /\
    verify_signature alg jwk si sig = Ok true;
  (** the issuer is read from the signed body, never from a disclosure *)
  sg_issuer : issuer_from_body claims header = JStr (sd_issuer r) /\ sd_issuer r <> [];
  sg_hash : default (JStr DEFAULT_HASH) (dget claims ($"_sd_alg")) = JStr hash_name /\ hash_name ∈ HASHES;
  (** every disclosure presented was asked for by a digest, and none is of a protected claim *)
  sg_disclosures : exists D node s, indexed disclosures hash_name D /\
    unpack D (JDict claims) = Ok (JDict node, s) /\ sd_claims r = ddel node ($"_sd_alg") /\
    D.*1 ⊆ used s /\ forall p, p ∈ placed s -> disclosure_refusal p.1 (sd_vcdm r) = false;
  (** the claims validity is judged on are issuer-signed plaintext *)
  sg_protected : forall n,
    n ∈ SD_JWT_VC_NON_DISCLOSABLE \/ n ∈ OPENVC_NON_DISCLOSABLE \/ (sd_vcdm r = true /\ n ∈ VCDM_VALIDITY_CLAIMS) ->
    dget (sd_claims r) n = plain <$> dget claims n;
  sg_profile :
    (sd_typ r = Some ISSUER_TYP /\
     exists vct, sd_vct r = Some vct /\ vct <> [] /\ dget claims ($"vct") = Some (JStr vct)) \/
    ((sd_typ r = None \/ exists t, sd_typ r = Some t /\ t ∈ W3C_TYPS) /\ sd_vcdm r = true /\
     starts_with_base_context (sd_claims r) = true /\ declares_credential (sd_claims r) = true);
  sg_vct : forall v, expected_vct = Some v -> sd_vct r = Some v;
  sg_required : require_kb = true -> sd_key_bound r = true /\ audience <> JNull /\ nonce <> JNull;
  sg_bound : sd_key_bound r = true ->
    holder_bound hash json_loads verify_signature su kb_jwt issuer_jwt disclosures (jget claims ($"cnf"))
      hash_name audience nonce;
  sg_audience : for_audience (sd_claims r) audience false;
  (** the dates of the signed body and of the disclosed claims against the clock, and the
      window of a VCDM payload at the instant *)
  sg_window : exists l signed_past again window, leeway su = JInt l /\ 0 <= l <= MAX_LEEWAY_S /\
    jwt_window claims l clock signed_past /\ jwt_window (sd_claims r) l clock again /\
    (if sd_vcdm r
     then validity_window is_space is_decimal fromisoformat (sd_claims r) [] instant (l * 1000000) window
     else window = false) /\
    sd_expired r = window || again || signed_past;
  (** the holder's signature is recent *)
  sg_fresh : sd_key_bound r = true ->
    exists max_age, kb_max_age_s = JInt max_age /\ holder_fresh json_loads su kb_jwt max_age current;
  sg_expired : ct = true -> sd_expired r = false }.
End sd_guarantee.

Lemma protected_names n :
  n ∈ SD_JWT_VC_NON_DISCLOSABLE ++ OPENVC_NON_DISCLOSABLE ++ VCDM_VALIDITY_CLAIMS -> n <> $"_sd" /\ n <> $"_sd_alg".
Proof.
  revert n. apply Forall_forall, (bool_decide_unpack _). vm_compute. exact I.
Qed.

Lemma disclosure_refusal_false n vcdm :
  disclosure_refusal (Some n) vcdm = false <->
  ~ (n ∈ SD_JWT_VC_NON_DISCLOSABLE \/ n ∈ OPENVC_NON_DISCLOSABLE \/ (vcdm = true /\ n ∈ VCDM_VALIDITY_CLAIMS)).
Proof.
  unfold disclosure_refusal. rewrite !orb_false_iff, andb_false_iff, !bool_decide_eq_false.
  destruct vcdm; naive_solver.
Qed.

Lemma iss_and_hash_Ok claims header iss h :
  iss_and_hash claims header = Ok (iss, h) ->
  (issuer_from_body claims header = JStr iss /\ iss <> []) /\
  default (JStr DEFAULT_HASH) (dget claims ($"_sd_alg")) = JStr h /\ h ∈ HASHES.
Proof.
  unfold iss_and_hash. destruct (issuer_from_body claims header) as [| | | |[|c i]| | |]; try done.
  destruct (default _ _); try done. intros H. apply bind_Ok in H as (? & Hb%raise_if_Ok & [= <- <-]).
  by apply negb_false_iff, bool_decide_eq_true in Hb.
Qed.

Lemma check_profile_Ok typ u placed vcdm :
  check_profile typ u placed = Ok vcdm -> (typ = None \/ exists t, typ = Some t /\ t ∈ ACCEPTED_ISSUER_TYP) ->
  (forall p, p ∈ placed -> disclosure_refusal p.1 vcdm = false) /\
  ((typ = Some ISSUER_TYP /\ exists vct, jget u ($"vct") = JStr vct /\ vct <> []) \/
   ((typ = None \/ exists t, typ = Some t /\ t ∈ W3C_TYPS) /\ vcdm = true /\
    starts_with_base_context u = true /\ declares_credential u = true)).
Proof.
  unfold check_profile. intros H Htyp. apply bind_Ok in H as (? & Hp%raise_if_Ok & H).
  apply bind_Ok in H as (? & Hc & [= <-]). split.
  { intros p Hin. destruct (disclosure_refusal p.1 _) eqn:E; [|done]. rewrite <-Hp. symmetry.
    apply existsb_exists. exists p. by split; [apply list_elem_of_In|]. }
  case_bool_decide as Ht.
  - left. split; [done|]. destruct (jget u _) as [| | | |[|c i]| | |]; try done. by eexists.
  - right. apply bind_Ok in Hc as (? & Hv%raise_if_Ok & Hc). apply bind_Ok in Hc as (? & _ & Hn%raise_if_Ok).
    apply negb_false_iff in Hv. unfold vcdm_nonconformity in Hn. apply orb_false_iff in Hn as [??].
    split_and!; [|done|by apply negb_false_iff..]. destruct Htyp as [->|(t & -> & Hin)]; [by left|right].
    exists t. split; [done|]. unfold ACCEPTED_ISSUER_TYP in Hin. apply elem_of_cons in Hin as [->|]; done.
Qed.

Lemma decode_jws_json_ok json_loads jws header claims si sig :
  (forall raw v, json_loads raw = Ok v -> json_ok v) ->
  decode_jws json_loads jws = Ok (header, claims, si, sig) -> json_ok (JDict claims).
Proof. intros Hl (?&?&?&?&?&_&_&_&_&_&H&_)%parse_compact_Ok. by apply Hl in H. Qed.

Lemma typ_ok (header : jobject) typ :
  (match dget header ($"typ") with
   | None => Ok None
   | Some (JStr t) => raise_if (negb (bool_decide (t ∈ ACCEPTED_ISSUER_TYP))) SdJwtError;; Ok (Some t)
   | Some _ => Err SdJwtError
   end) = Ok typ -> typ = None \/ exists t, typ = Some t /\ t ∈ ACCEPTED_ISSUER_TYP.
Proof.
  destruct (dget _ _) as [[]|]; try done; [|intros [= <-]; by left].
  intros H. apply bind_Ok in H as (? & Hb%raise_if_Ok & [= <-]).
  apply negb_false_iff, bool_decide_eq_true in Hb. right. by eexists.
Qed.

(** The two orders of the checks on the issuer JWT come to the same guarantees. *)
Lemma sd_first_checks (require_kb : bool) (ih : result (pystr * pystr)) (kb : pystr -> result bool)
    (temporal : result bool) expired iss h kb0 :
  (if require_kb then
     '(iss, hash_name) ← ih; kb ← kb hash_name; expired ← temporal; Ok (expired, iss, hash_name, kb)
   else expired ← temporal; '(iss, hash_name) ← ih; Ok (expired, iss, hash_name, false))
  = Ok (expired, iss, h, kb0) ->
  ih = Ok (iss, h) /\ temporal = Ok expired /\ (require_kb = true -> kb h = Ok kb0).
Proof.
  destruct require_kb; intros H.
  - apply bind_Ok in H as ([iss' h'] & Hih & H). apply bind_Ok in H as (k & Hk & H).
    by apply bind_Ok in H as (ex & Hex & [= <- <- <- <-]).
  - apply bind_Ok in H as (ex & Hex & H). by apply bind_Ok in H as ([iss' h'] & Hih & [= <- <- <- <-]).
Qed.

Lemma sd_verify_guarantee hash json_loads verify_signature is_space is_decimal fromisoformat
    (su : suite) (presentation : pystr) (jwk audience nonce : json) (require_kb : bool)
    (expected_vct : option pystr) (ct : bool) (kb_max_age_s : json) (current clock : num) (instant : Z)
    (r : VerifiedSdJwt)
    (Hloads : forall raw v, json_loads raw = Ok v -> json_ok v)
    (H : sd_verify hash json_loads verify_signature is_space is_decimal fromisoformat su presentation jwk
           audience nonce require_kb expected_vct ct kb_max_age_s current clock instant = Ok r) :
  exists issuer_jwt disclosures kb_jwt header claims hash_name,
    sd_guarantee hash json_loads verify_signature is_space is_decimal fromisoformat su presentation jwk audience nonce
      require_kb expected_vct ct kb_max_age_s current clock instant r issuer_jwt disclosures kb_jwt header claims hash_name.
Proof.
  unfold sd_verify in H. apply bind_Ok in H as (max_age & Hmax & H).
  assert (kb_max_age_s = JInt max_age) as Hage.
  { unfold non_negative_seconds in Hmax. destruct kb_max_age_s as [| |n| | | | |]; try done. destruct (n <? 0); [done|]. by apply Ok_inj in Hmax as ->. }
  apply bind_Ok in H as ([[issuer_jwt disclosures] kb_jwt] & Hsplit & H).
  apply bind_Ok in H as ([[[header claims] si] sig] & Hdec & H).
  destruct (allowed_alg _ _) as [alg|] eqn:Ea; [|done]. apply allowed_alg_Some in Ea as [Ealg Hin].
  apply bind_Ok in H as (typ & Htyp & H). apply bind_Ok in H as (? & Hcrit%reject_unknown_crit_Ok & H).
  apply bind_Ok in H as (? & Hsig%verify_sig_Ok & H). cbv zeta in H.
  apply bind_Ok in H as ([[[expired iss] hash_name] kb0] & Hfirst & H).
  apply sd_first_checks in Hfirst as (Hih & Htemp & Hkb0).
  apply bind_Ok in H as (D & HD%index_disclosures_Ok & H). apply bind_Ok in H as ([node s] & Hun & H).
  apply bind_Ok in H as (? & Hused%raise_if_Ok & H). destruct node as [| | | | | |u|]; try done.
  apply bind_Ok in H as (vcdm & Hprof & H). apply bind_Ok in H as (again & Hagain & H).
  apply bind_Ok in H as ([] & Haud%check_jwt_audience_Ok & H). apply bind_Ok in H as (window & Hwin & H).
  apply bind_Ok in H as (? & Hev%raise_if_Ok & H). apply bind_Ok in H as (? & _ & H).
  apply bind_Ok in H as (key_bound & Hkb & [= <-]).
  apply check_jwt_temporal_Ok in Htemp as (l & Hl & Hlb & W1 & He1).
  apply check_jwt_temporal_Ok in Hagain as (l' & Hl' & _ & W2 & He2). assert (l' = l) as -> by congruence.
  assert (key_bound = true -> holder_bound hash json_loads verify_signature su kb_jwt issuer_jwt disclosures
    (jget claims ($"cnf")) hash_name audience nonce /\ holder_fresh json_loads su kb_jwt max_age current) as Hkbound.
  { intros ->. destruct require_kb.
    - injection Hkb as ->. by apply verify_key_binding_Ok in Hkb0 as [_ Hb]; [apply Hb|].
    - apply verify_key_binding_Ok in Hkb as [_ Hb]. by apply Hb. }
  assert (Hokc : json_ok (JDict claims)) by by eapply decode_jws_json_ok.
  apply check_profile_Ok in Hprof as [Hplaced Hprof]; [|by eapply typ_ok].
  destruct (unpack_protected _ _ _ _ Hun Hokc) as (u' & [= <-] & Hplain).
  assert (Hprot : forall n,
    n ∈ SD_JWT_VC_NON_DISCLOSABLE \/ n ∈ OPENVC_NON_DISCLOSABLE \/ (vcdm = true /\ n ∈ VCDM_VALIDITY_CLAIMS) ->
    dget (ddel u ($"_sd_alg")) n = plain <$> dget claims n).
  { intros n Hn. destruct (protected_names n) as [??]; [rewrite !elem_of_app; tauto|].
    rewrite ddel_dget, decide_False by done. apply Hplain; [done|]. intros b Hb. apply Hplaced in Hb.
    by apply disclosure_refusal_false in Hb. }
  exists issuer_jwt, disclosures, kb_jwt, header, claims, hash_name. split; cbn [sd_claims sd_issuer sd_vct
    sd_key_bound sd_confirmation sd_expired sd_vcdm sd_typ]; try done.
  - exists si, sig, alg. by split_and!.
  - by apply iss_and_hash_Ok in Hih as [? ?].
  - by apply iss_and_hash_Ok in Hih as [? ?].
  - exists D, u, s. split_and!; try done. intros d Hd. apply not_true_iff_false in Hused.
    destruct (decide (d ∈ used s)) as [|Hn]; [done|]. exfalso. apply Hused, existsb_exists. exists d.
    split; [by apply list_elem_of_In|]. by rewrite bool_decide_eq_false_2.
  - destruct Hprof as [[-> (vct & Hv & Hne)]|Hw]; [left|by right]. split; [done|]. exists vct.
    unfold jget in Hv. rewrite Hprot in Hv by (left; apply (bool_decide_unpack _); vm_compute; done).
    unfold jget. rewrite Hprot by (left; apply (bool_decide_unpack _); vm_compute; done).
    destruct (dget claims _) as [w|]; [|done]. change (plain w = JStr vct) in Hv. destruct w; try done. cbn in Hv. by simplify_eq.
  - intros v ->. apply negb_false_iff, eq_str_true in Hev. by rewrite Hev.
  - intros ->. apply verify_key_binding_Ok in Hkb0 as [Hr _]; [|done]. injection Hkb as <-. by apply Hr.
  - intros Hk. by apply Hkbound.
  - exists l, expired, again, window. split_and!; try done; try lia. destruct vcdm; [|by injection Hwin as <-].
    apply bind_Ok in Hwin as (w & Hw & Hwin). apply bind_Ok in Hwin as (? & _ & [= <-]).
    apply check_validity_window_Ok in Hw as (l2 & Hl2 & _ & Hw & _). by assert (l2 = l) as -> by congruence.
  - intros Hk. exists max_age. split; [done|]. by apply Hkbound.
  - intros Hct. rewrite (He1 Hct), (He2 Hct). destruct vcdm; [|by injection Hwin as <-].
    apply bind_Ok in Hwin as (w & Hw & Hwin). apply bind_Ok in Hwin as (? & _ & [= <-]).
    apply check_validity_window_Ok in Hw as (? & _ & _ & _ & He3). by rewrite (He3 Hct).
Qed.


Definition sd_example_body : jobject :=
  [($"iss", JStr ($"did:x")); ($"vct", JStr ($"T")); ($"exp", JInt 100); ($"_sd", JList [JStr ($"AA")]);
   ($"cnf", JDict [($"jwk", JDict [($"kty", JStr ($"EC"))])])].
(** A parser for the issuer JWT [aA.cA.cw], the disclosure [ZA] and the key-binding JWT [aw.aQ.cw]. *)
Definition sd_example_loads (b : bytes) : result json :=
  if bool_decide (b = [104]) then Ok (JDict [($"alg", JStr ($"ES256")); ($"typ", JStr ISSUER_TYP)])
  else if bool_decide (b = [112]) then Ok (JDict sd_example_body)
  else if bool_decide (b = [100]) then Ok (JList [JStr ($"s"); JStr ($"name"); JStr ($"A")])
  else if bool_decide (b = [107]) then Ok (JDict [($"alg", JStr ($"ES256")); ($"typ", JStr KB_TYP)])
  else if bool_decide (b = [105]) then
    Ok (JDict [($"iat", JInt 50); ($"aud", JStr ($"me")); ($"nonce", JStr ($"n")); ($"sd_hash", JStr ($"AA"))])
  else Err ValueError.

Ltac solve_json_ok :=
  repeat (cbn [snd]; match goal with
    | |- json_ok (JDict _) => apply json_ok_dict; split
    | |- json_ok (JList _) => apply json_ok_list
    | |- dict_ok _ => apply (bool_decide_unpack _); vm_compute; exact I
    | |- Forall _ _ => constructor
    | |- json_ok _ => exact I
    end).

