(* ===== verification/SdIssue.v ===== *)
(** Issuing and presenting, the producing half of [openvc.proof.sd_jwt]
    (src/src/openvc/proof/sd_jwt.py), and the round trip through the verifier's half. *)
From S2P Require Import Prelude Errors PyStr Json Base64 PyNum VerifyCommon VcJwt SdJwt.

(** * Issuing and presenting *)

Section issue.
Context (hash : pystr -> bytes -> bytes).
Context (json_loads : bytes -> result json) (json_bytes : json -> result bytes).

(** [signing_key.sign], and the i-th [secrets.token_bytes(n)] of the call. *)
Context (sign : bytes -> result bytes) (token_bytes : nat -> Z -> bytes).
Context (std_json_loads : bytes -> result json).

Definition SALT_BYTES : Z := 16.
(** [_HASHES[name]().digest_size]. *)
Definition digest_size (hash_name : pystr) : Z :=
  if bool_decide (hash_name = $"sha-256") then 32 else if bool_decide (hash_name = $"sha-384") then 48 else 64.

Definition sign_compact (header payload : jobject) : result pystr :=
  h ← json_bytes (JDict header); p ← json_bytes (JDict payload);
  let signing_input := b64url_encode h ++ 46 :: b64url_encode p in
  raw ← encode_ascii signing_input;
  signature ← sign raw;
  Ok (signing_input ++ 46 :: b64url_encode signature).

(** The claims to sign, before any is made disclosable. *)
Definition issue_payload (now : Z) (claims : jobject) (vct : option pystr) (expires_in_s : option Z)
    (holder_jwk : option jobject) : result jobject :=
  let payload := if dmem claims ($"iat") then claims else dset claims ($"iat") (JInt now) in
  let payload := match vct with None => payload | Some v => dset payload ($"vct") (JStr v) end in
  raise_if (negb (truthy (jget payload ($"iss")))) SdJwtError;;
  raise_if (negb (is_str (jget payload ($"vct")) && truthy (jget payload ($"vct")))) SdJwtError;;
  check_aka_vcts payload;;
  let payload := match expires_in_s with None => payload | Some n => dset payload ($"exp") (JInt (now + n)) end in
  Ok (match holder_jwk with None => payload | Some j => dset payload ($"cnf") (JDict [($"jwk", JDict j)]) end).

(** The loop that moves each named claim into a disclosure: what is left, the disclosures and
    their digests. *)
Fixpoint conceal (hash_name : pystr) (names : list pystr) (i : nat) (payload : jobject)
    : result (jobject * list pystr * list pystr) :=
  match names with
  | [] => Ok (payload, [], [])
  | name :: names =>
      match dget payload name with
      | None => Err SdJwtError
      | Some value =>
          disclosure ← make_object_disclosure json_bytes (b64url_encode (token_bytes i SALT_BYTES)) name value;
          digest ← disclosure_digest hash disclosure hash_name;
          '(payload, disclosures, digests) ← conceal hash_name names (S i) (ddel payload name);
          Ok (payload, disclosure :: disclosures, digest :: digests)
      end
  end.

(** [decoys] is the list [range(decoys)] runs over. *)
Definition decoy_digests (hash_name : pystr) (i : nat) (decoys : Z) : list pystr :=
  map (fun k => b64url_encode (token_bytes (i + k) (digest_size hash_name))) (seq 0 (Z.to_nat decoys)).

Definition with_digests (hash_name : pystr) (payload : jobject) (digests : list pystr) : jobject :=
  match digests with
  | [] => payload
  | _ => dset (dset payload ($"_sd") (JList (map JStr (sort_by id digests)))) ($"_sd_alg") (JStr hash_name)
  end.

Definition sd_issue (su : suite) (hash_name key_alg key_kid : pystr) (now : Z) (claims : jobject)
    (names : list pystr) (holder_jwk : option jobject) (vct : option pystr) (expires_in_s : option Z)
    (decoys : Z) (x5c : option (list json)) : result pystr :=
  raise_if (negb (bool_decide (key_alg ∈ algs su))) UnsupportedAlgorithm;;
  payload ← issue_payload now claims vct expires_in_s holder_jwk;
  raw ← json_bytes (JDict payload); parsed ← std_json_loads raw;
  vcdm ← match parsed with JDict p => Ok (declares_vcdm p) | _ => Err TypeError end;
  raise_if (existsb (fun name => disclosure_refusal (Some name) vcdm) names) SdJwtError;;
  '(payload, disclosures, digests) ← conceal hash_name names 0 payload;
  let payload := with_digests hash_name payload (digests ++ decoy_digests hash_name (length names) decoys) in
  let header := [($"typ", JStr ISSUER_TYP); ($"alg", JStr key_alg); ($"kid", JStr key_kid)] in
  header ← match x5c with
           | None => Ok header
           | Some [] => Err SdJwtError
           | Some chain =>
               raise_if (negb (forallb (fun c => is_str c && truthy c) chain)) SdJwtError;;
               Ok (dset header ($"x5c") (JList chain))
           end;
  issuer_jwt ← sign_compact header payload;
  Ok (presented issuer_jwt disclosures).

Definition create_presentation (su : suite) (hash_name sd_jwt holder_alg audience nonce : pystr) (now : Z)
    : result pystr :=
  raise_if (negb (bool_decide (holder_alg ∈ algs su))) UnsupportedAlgorithm;;
  '(issuer_jwt, disclosures, _) ← split sd_jwt;
  raw ← ascii_bytes (presented issuer_jwt disclosures);
  kb_jwt ← sign_compact [($"typ", JStr KB_TYP); ($"alg", JStr holder_alg)]
             [($"iat", JInt now); ($"aud", JStr audience); ($"nonce", JStr nonce);
              ($"sd_hash", JStr (b64url_encode (hash hash_name raw)))];
  Ok (presented issuer_jwt disclosures ++ kb_jwt).
End issue.

(** * Any subset of an issuer's disclosures reveals that subset *)

Lemma forallb_existsb_false {A} (f : A -> bool) l : existsb f l = false -> forall x, x ∈ l -> f x = false.
Proof.
  intros H x Hin. destruct (f x) eqn:E; [|done]. rewrite <-H. symmetry. apply existsb_exists.
  exists x. by split; [apply list_elem_of_In|].
Qed.

Lemma has_marker_dict d : has_marker (JDict d) = false ->
  dget d ($"_sd") = None /\ dget d ($"_sd_alg") = None /\ dget d ($"...") = None /\
  forall k v, (k, v) ∈ d -> has_marker v = false.
Proof.
  cbn [has_marker]. intros [Hm Hd]%orb_false_iff.
  assert (forall k, k ∈ MARKERS -> dget d k = None) as Hk.
  { intros k Hin. apply (forallb_existsb_false _ _ Hm) in Hin. unfold dmem in Hin. by destruct (dget d k). }
  split_and!; [apply Hk; apply (bool_decide_unpack _); vm_compute; exact I..|].
  intros k v Hin. by apply (forallb_existsb_false _ _ Hd) in Hin.
Qed.

Lemma max_depth_elem v l : v ∈ l -> json_depth v <= max_depth l.
Proof. unfold max_depth. induction 1; simpl; lia. Qed.

Definition clean (v : json) : Prop := has_marker v = false /\ json_ok v.

Section clean.
Context (D : list (pystr * list json)) (rec : json -> option pystr -> ustate -> result (json * ustate)).

Lemma clean_members top s l r :
  (forall k v, (k, v) ∈ l -> k <> $"_sd" /\ k <> $"..." /\ forall top, rec v top s = Ok (v, s)) ->
  NoDup (r.*1 ++ l.*1) ->
  foldR (unpack_member rec top) (r, s) l = Ok (r ++ l, s).
Proof using.
  revert r. induction l as [|[k v] l IH]; intros r Hl Hnd; cbn [foldR]; [by rewrite app_nil_r|].
  destruct (Hl k v) as (H1 & H2 & Hv); [left|].
  assert (unpack_member rec top (r, s) (k, v) = Ok (dset r k v, s)) as ->.
  { unfold unpack_member. cbn [fst snd]. rewrite !bool_decide_eq_false_2 by done. cbn. by rewrite Hv. }
  cbn [mbind result_bind].
  csimpl in Hnd. rewrite dset_new by (apply NoDup_app in Hnd as (_ & Hd & _); intros Hk; apply (Hd k Hk); left).
  rewrite IH; [by rewrite <-app_assoc|intros; apply Hl; by right|].
  by rewrite fmap_app, <-app_assoc.
Qed.

Lemma clean_elements top s l out :
  (forall v, v ∈ l -> element_digest v = None /\ rec v top s = Ok (v, s)) ->
  foldR (unpack_element D rec top) (out, s) l = Ok (out ++ l, s).
Proof using.
  revert out. induction l as [|v l IH]; intros out Hl; cbn [foldR]; [by rewrite app_nil_r|].
  destruct (Hl v) as [H1 H2]; [left|].
  assert (unpack_element D rec top (out, s) v = Ok (out ++ [v], s)) as ->.
  { unfold unpack_element. by rewrite H1, H2. }
  cbn [mbind result_bind].
  rewrite IH; [by rewrite <-app_assoc|intros; apply Hl; by right].
Qed.
End clean.

Lemma element_digest_clean v : has_marker v = false -> element_digest v = None.
Proof.
  destruct v as [| | | | | |[|[k w] [|]]|]; try done. intros (_ & _ & H & _)%has_marker_dict. simpl in *.
  case_bool_decide; [subst|done]. by rewrite decide_True in H.
Qed.

Lemma unpack_clean D room v top s :
  clean v -> json_depth v < Z.of_nat room -> unpack_at D room v top s = Ok (v, s).
Proof.
  revert top room. induction v as [| | | | |l IH|d IH|] using json_ind'; intros top room [Hm Hok] Hd;
    (destruct room as [|room]; [pose proof (json_depth_nonneg (JList []));
       first [simpl in Hd; lia | pose proof (max_depth_nonneg l); unfold max_depth in *; simpl in Hd; lia
             | rewrite json_depth_children in Hd; pose proof (max_depth_nonneg (children (JDict d))); simpl in *; lia]|]);
    cbn [unpack_at]; try done.
  - rewrite clean_elements; [done|]. intros v Hv. cbn [has_marker] in Hm.
    apply (forallb_existsb_false _ _ Hm) in Hv as Hmv. split; [by apply element_digest_clean|].
    rewrite Forall_forall in IH. apply json_ok_list in Hok. rewrite Forall_forall in Hok.
    apply (IH v Hv); [split; [done|by apply Hok]|].
    rewrite json_depth_children in Hd. pose proof (max_depth_elem _ _ Hv). simpl in *. lia.
  - apply json_ok_dict in Hok as [Hnd Hok]. apply has_marker_dict in Hm as (H1 & _ & H3 & Hm).
    rewrite clean_members; [|intros k v Hv|done].
    + cbn [mbind result_bind]. unfold jget. by rewrite H1.
    + apply dget_None in H1, H3. assert (k ∈ d.*1) by (apply list_elem_of_fmap; by exists (k, v)).
      split_and!; [set_solver|set_solver|]. intros top'. rewrite Forall_forall in IH, Hok.
      apply (IH (k, v) Hv); [split; [by eapply Hm|by apply (Hok (k, v))]|].
      rewrite json_depth_children in Hd. assert (v ∈ d.*2) as Hv2 by (apply list_elem_of_fmap; by exists (k, v)).
      pose proof (max_depth_elem _ _ Hv2). cbn [is_container children snd] in *. lia.
Qed.

(** * The digests of an object reveal what is presented for them *)

Section reveal.
Context (D : list (pystr * list json)) (room : nat).

Definition shown (g : pystr) : option (pystr * json) :=
  match dget D g with Some [_; JStr name; v] => Some (name, v) | _ => None end.

Definition presentable (g : pystr) : Prop := forall l, dget D g = Some l ->
  exists salt name v, l = [salt; JStr name; v] /\ clean v /\ json_depth v < Z.of_nat room /\
    name <> $"_sd" /\ name <> $"...".

Lemma digests_reveal sds r s :
  Forall presentable sds -> NoDup sds -> (forall g, g ∈ sds -> g ∉ seen s) ->
  NoDup (r.*1 ++ (omap shown sds).*1) ->
  exists s', foldR (unpack_digest D (unpack_at D room) None) (r, s) sds = Ok (r ++ omap shown sds, s') /\
    (forall g, g ∈ used s -> g ∈ used s') /\ (forall g, g ∈ sds -> g ∈ D.*1 -> g ∈ used s').
Proof using.
  revert r s. induction sds as [|g sds IH]; intros r s Hp Hnd Hseen Hnames; cbn [foldR].
  { exists s. rewrite app_nil_r. split_and!; [done|done|set_solver]. }
  apply Forall_cons in Hp as [Hg Hp]. apply NoDup_cons in Hnd as [Hgs Hnd].
  assert (meet g s = Ok {| used := used s; seen := g :: seen s; placed := placed s |}) as Hmeet.
  { unfold meet. rewrite bool_decide_eq_false_2; [done|]. apply Hseen. left. }
  csimpl in Hnames.
  destruct (dget D g) as [l|] eqn:El.
  - destruct (Hg l El) as (salt & name & v & -> & Hv & Hdv & H1 & H2).
    assert (shown g = Some (name, v)) as Hs by (unfold shown; by rewrite El).
    rewrite Hs in Hnames. csimpl in Hnames.
    assert (name ∉ r.*1) as Hn by (apply NoDup_app in Hnames as (_ & Hx & _); set_solver).
    assert (dmem r name = false) as Hd by (apply not_true_iff_false; by rewrite dmem_spec).
    set (s1 := place g (Some name, false) {| used := used s; seen := g :: seen s; placed := placed s |}).
    assert (unpack_digest D (unpack_at D room) None (r, s) g = Ok (r ++ [(name, v)], s1)) as ->.
    { unfold unpack_digest. rewrite Hmeet. cbn [mbind result_bind]. rewrite El.
      rewrite !(bool_decide_eq_false_2 (name = _)) by done. rewrite Hd. cbn [raise_if orb mbind result_bind].
      by rewrite unpack_clean, <-dset_new by done. }
    cbn [mbind result_bind]. destruct (IH (r ++ [(name, v)]) s1)
      as (s' & -> & Hu1 & Hu2); [done|done| | |].
    + intros g' Hg'. simpl. intros [->|?]%elem_of_cons; [done|]. apply (Hseen g'); [by right|done].
    + by rewrite fmap_app, <-app_assoc.
    + exists s'. simpl. rewrite Hs, <-app_assoc. split_and!; [done|intros ??; apply Hu1; by right|].
      intros g' [->|?]%elem_of_cons ?; [apply Hu1; left|by apply Hu2].
  - assert (shown g = None) as Hs by (unfold shown; by rewrite El). rewrite Hs in Hnames.
    assert (unpack_digest D (unpack_at D room) None (r, s) g =
            Ok (r, {| used := used s; seen := g :: seen s; placed := placed s |})) as ->.
    { unfold unpack_digest. rewrite Hmeet. cbn [mbind result_bind]. by rewrite El. }
    cbn [mbind result_bind]. destruct (IH r {| used := used s; seen := g :: seen s; placed := placed s |}) as (s' & -> & Hu1 & Hu2); [done|done| |done|].
    + intros g' Hg'. simpl. intros [->|?]%elem_of_cons; [done|]. apply (Hseen g'); [by right|done].
    + exists s'. simpl. rewrite Hs. split_and!; [done|done|].
      intros g' [->|?]%elem_of_cons ?; [|by apply Hu2]. by apply dget_None in El.
Qed.
End reveal.

(** * What [issue] hides *)

(** One claim moved into a disclosure. *)
Record item := { i_name : pystr; i_value : json; i_salt : pystr; i_disclosure : pystr; i_digest : pystr }.

Section items.
Context (hash : pystr -> bytes -> bytes) (json_bytes : json -> result bytes).
Context (token_bytes : nat -> Z -> bytes).
Definition parsed (it : item) : list json := [JStr (i_salt it); JStr (i_name it); i_value it].

Definition item_ok (h : pystr) (payload : jobject) (it : item) : Prop :=
  dget payload (i_name it) = Some (i_value it) /\
  disclosure_digest hash (i_disclosure it) h = Ok (i_digest it) /\
  exists raw, json_bytes (JList (parsed it)) = Ok raw /\ i_disclosure it = b64url_encode raw.

Lemma conceal_Ok h names i payload rest ds gs :
  conceal hash json_bytes token_bytes h names i payload = Ok (rest, ds, gs) ->
  exists items, names = map i_name items /\ ds = map i_disclosure items /\ gs = map i_digest items /\
    Forall (item_ok h payload) items /\ NoDup names /\
    rest = filter (fun kv => kv.1 ∉ names) payload.
Proof using.
  revert i payload rest ds gs. induction names as [|name names IH]; intros i payload rest ds gs H; cbn [conceal] in H.
  { injection H as <- <- <-. exists []. split_and!; try done; [constructor|].
    symmetry. clear. induction payload as [|kv p IHp]; [done|]. rewrite filter_cons, decide_True by set_solver. by rewrite IHp. }
  destruct (dget payload name) as [value|] eqn:Ev; [|done].
  apply bind_Ok in H as (d & Hd & H). apply bind_Ok in H as (g & Hg & H).
  apply bind_Ok in H as ([[rest' ds'] gs'] & H & [= <- <- <-]).
  apply IH in H as (items & -> & -> & -> & Hok & Hnd & ->).
  unfold make_object_disclosure in Hd. apply bind_Ok in Hd as (raw & Hraw & [= <-]).
  assert (Hne : Forall (fun it => i_name it <> name) items).
  { rewrite Forall_forall in Hok |- *. intros it Hin Heq. apply Hok in Hin as [Hget _].
    by rewrite ddel_dget, decide_True in Hget. }
  exists ({| i_name := name; i_value := value; i_salt := b64url_encode (token_bytes i SALT_BYTES);
             i_disclosure := b64url_encode raw; i_digest := g |} :: items). split_and!; try done.
  - constructor; [by split_and!; [..|exists raw]|]. rewrite Forall_forall in Hok, Hne |- *. intros it Hin.
    destruct (Hok it Hin) as (Hget & ? & ?). rewrite ddel_dget, decide_False in Hget by auto. done.
  - cbn [map]. constructor; [|done]. intros (it & Hi & Hin)%list_elem_of_fmap.
    rewrite Forall_forall in Hne. by apply (Hne it).
  - unfold ddel. rewrite list_filter_filter. apply list_filter_iff. intros [k v]. cbn. set_solver.
Qed.

Context (json_loads : bytes -> result json).
Context (codec : forall v raw, json_ok v -> json_depth v <= JSON_MAX_DEPTH -> json_bytes v = Ok raw ->
  raw <> [] /\ bytes_ok raw /\ json_loads raw = Ok v).

Lemma item_parsed h payload it :
  item_ok h payload it -> clean (JDict payload) -> json_depth (JDict payload) <= JSON_MAX_DEPTH ->
  (raw ← b64url_decode (i_disclosure it); json_loads raw) = Ok (JList (parsed it)) /\
  clean (i_value it) /\ json_depth (i_value it) < 100 /\
  exists raw, bytes_ok raw /\ raw <> [] /\ i_disclosure it = b64url_encode raw.
Proof using codec.
  intros (Hget & Hdig & raw & Hraw & ->) [Hm Hok] Hd. apply dget_Some_elem in Hget as Hin.
  apply json_ok_dict in Hok as [_ Hok]. rewrite Forall_forall in Hok. apply Hok in Hin as Hokv.
  apply has_marker_dict in Hm as (_ & _ & _ & Hm). apply Hm in Hin as Hmv. cbn [snd] in Hokv.
  rewrite json_depth_children in Hd. cbn [is_container children] in Hd.
  assert (i_value it ∈ payload.*2) as Hv2 by (apply list_elem_of_fmap; by eexists (_, _)).
  apply max_depth_elem in Hv2. unfold JSON_MAX_DEPTH in Hd.
  edestruct (codec (JList (parsed it)) raw) with (3 := Hraw) as (Hne & Hby & Hl).
  - unfold parsed. apply json_ok_list. repeat constructor. done.
  - rewrite json_depth_children. unfold parsed, max_depth. cbn [is_container children foldr json_depth].
    unfold JSON_MAX_DEPTH. pose proof (json_depth_nonneg (i_value it)). lia.
  - rewrite b64url_decode_encode by done. split_and!; [done|by split|lia|by exists raw].
Qed.

Lemma index_items h payload items :
  Forall (item_ok h payload) items -> clean (JDict payload) -> json_depth (JDict payload) <= JSON_MAX_DEPTH ->
  NoDup (map i_digest items) ->
  index_disclosures hash json_loads (map i_disclosure items) h [] =
    Ok (map (fun it => (i_digest it, parsed it)) items).
Proof using codec.
  intros Hok Hc Hd Hnd.
  cut (forall D0, NoDup (D0.*1 ++ map i_digest items) ->
    index_disclosures hash json_loads (map i_disclosure items) h D0 =
      Ok (D0 ++ map (fun it => (i_digest it, parsed it)) items)).
  { intros H. by apply (H []). }
  clear Hnd. induction Hok as [|it items Hit Hok IH]; intros D0 Hnd; cbn [map index_disclosures].
  { by rewrite app_nil_r. }
  destruct (item_parsed _ _ _ Hit Hc Hd) as (-> & _). cbn [catch_as mbind result_bind parsed].
  destruct Hit as (_ & -> & _). cbn [mbind result_bind]. csimpl in Hnd.
  assert (i_digest it ∉ D0.*1) as Hn by (apply NoDup_app in Hnd as (_ & Hx & _); set_solver).
  assert (dmem D0 (i_digest it) = false) as -> by (apply not_true_iff_false; by rewrite dmem_spec).
  cbn [raise_if orb negb mbind result_bind len length Z.of_nat Z.eqb]. simpl raise_if. cbn [mbind result_bind].
  rewrite dset_new, IH by (try done; by rewrite fmap_app, <-app_assoc). by rewrite <-app_assoc.
Qed.
End items.

(** * The wire form *)

Lemma split_presented j ds :
  126 ∉ j -> Forall (fun d => 126 ∉ d /\ d <> []) ds -> split (presented j ds) = Ok (j, ds, []).
Proof.
  intros Hj Hds. unfold split, presented. rewrite split_on_app by done.
  assert (split_on 126 (concat (map (fun d => d ++ [126]) ds)) = ds ++ [[]]) as ->.
  { induction Hds as [|d ds [Hd _] _ IH]; [done|]. cbn [map concat]. rewrite <-app_assoc. cbn [app].
    by rewrite split_on_app, IH. }
  assert (filter (fun d => d <> []) ds = ds) as Hf.
  { induction Hds as [|d ds' [_ Hd] _ IH]; [done|]. by rewrite filter_cons, decide_True, IH. }
  destruct (ds ++ [[]]) as [|x l] eqn:E; [by destruct ds|]. by rewrite <-E, removelast_last, last_last, Hf.
Qed.

Lemma b64url_seps data : bytes_ok data -> 126 ∉ b64url_encode data /\ 46 ∉ b64url_encode data.
Proof.
  intros Hd. split; apply b64url_encode_no; try done; apply (bool_decide_unpack _); vm_compute; exact I.
Qed.

Lemma b64url_ascii data : bytes_ok data -> Forall (fun c => 0 <= c < 128) (b64url_encode data).
Proof. intros Hd. eapply Forall_impl; [by apply b64url_encode_ascii|]. naive_solver. Qed.

Lemma sign_compact_parts json_bytes sign header payload jws hb pb :
  json_bytes (JDict header) = Ok hb -> json_bytes (JDict payload) = Ok pb -> bytes_ok hb -> bytes_ok pb ->
  (forall m sig, sign m = Ok sig -> bytes_ok sig) ->
  sign_compact json_bytes sign header payload = Ok jws ->
  isascii jws = true /\ 126 ∉ jws /\ exists sig, sign (b64url_encode hb ++ 46 :: b64url_encode pb) = Ok sig /\ bytes_ok sig /\
    split_on 46 jws = [b64url_encode hb; b64url_encode pb; b64url_encode sig].
Proof.
  intros Hh Hp Hhb Hpb Hsign H. unfold sign_compact in H. rewrite Hh, Hp in H. cbn [mbind result_bind] in H.
  set (si := b64url_encode hb ++ 46 :: b64url_encode pb) in *.
  assert (Hsi : Forall (fun c => 0 <= c < 128) si).
  { unfold si. apply Forall_app; split; [by apply b64url_ascii|]. constructor; [lia|by apply b64url_ascii]. }
  rewrite encode_ascii_ok in H by done. cbn [mbind result_bind] in H. apply bind_Ok in H as (sig & Hsig & [= <-]).
  apply Hsign in Hsig as Hsb. destruct (b64url_seps hb), (b64url_seps pb), (b64url_seps sig); try done. split_and!.
  - apply forallb_forall. intros c Hc%list_elem_of_In. apply Z.ltb_lt. revert c Hc. apply Forall_forall.
    apply Forall_app; split; [eapply Forall_impl; [exact Hsi|cbn; lia]|].
    constructor; [lia|]. eapply Forall_impl; [by apply b64url_ascii|cbn; lia].
  - unfold si. rewrite !not_elem_of_app, !not_elem_of_cons. split_and!; done || lia.
  - exists sig. split_and!; [done..|]. unfold si. rewrite <-app_assoc. cbn [app]. by rewrite !split_on_app, split_on_none.
Qed.

Lemma sign_compact_decodes json_loads json_bytes sign header payload jws hb pb :
  json_bytes (JDict header) = Ok hb -> json_bytes (JDict payload) = Ok pb ->
  bytes_ok hb -> bytes_ok pb -> json_loads hb = Ok (JDict header) -> json_loads pb = Ok (JDict payload) ->
  (forall m sig, sign m = Ok sig -> bytes_ok sig) ->
  sign_compact json_bytes sign header payload = Ok jws ->
  126 ∉ jws /\ exists si sig, sign si = Ok sig /\ parse_compact json_loads jws = Ok (header, payload, si, sig).
Proof.
  intros Hh Hp Hhb Hpb Hlh Hlp Hsign H.
  destruct (sign_compact_parts _ _ _ _ _ _ _ Hh Hp Hhb Hpb Hsign H) as (_ & Hno & sig & Hsig & Hsb & Hs).
  split; [done|]. eexists _, sig. split; [exact Hsig|]. unfold parse_compact. rewrite Hs, !b64url_decode_encode by done.
  cbn [mbind result_bind]. rewrite Hlh. cbn [mbind result_bind]. rewrite Hlp. cbn [mbind result_bind catch_as].
  by rewrite encode_ascii_ok by (apply Forall_app; split; [|constructor; [lia|]]; by apply b64url_ascii).
Qed.

(** * The signed body *)

Definition rest_of (payload : jobject) (names : list pystr) : jobject := filter (fun kv => kv.1 ∉ names) payload.
Definition alg_of (h : pystr) (sds : list pystr) : jobject := if sds is [] then [] else [($"_sd_alg", JStr h)].

Lemma dget_rest payload names n :
  dget (rest_of payload names) n = if decide (n ∈ names) then None else dget payload n.
Proof.
  unfold rest_of. induction payload as [|[k v] p IH]; [by case_decide|]. rewrite filter_cons. cbn [fst dget].
  destruct (decide (k ∉ names)) as [Hk|Hk]; cbn [dget]; repeat case_decide; simplify_eq; try done;
    rewrite IH; repeat case_decide; done.
Qed.

Lemma max_depth_le l n : 0 <= n -> (forall v, v ∈ l -> json_depth v <= n) -> max_depth l <= n.
Proof.
  intros Hn. unfold max_depth. induction l as [|v l IH]; intros H; simpl; [done|].
  specialize (IH (fun w Hw => H w ltac:(by right))). specialize (H v ltac:(left)). lia.
Qed.

Section body.
Context (h : pystr) (payload : jobject).
Context (payload_clean : clean (JDict payload)) (payload_depth : json_depth (JDict payload) <= JSON_MAX_DEPTH).

Lemma payload_member k v : (k, v) ∈ payload -> clean v /\ json_depth v < 100.
Proof using payload_clean payload_depth.
  intros Hin. destruct payload_clean as [(_ & _ & _ & Hm)%has_marker_dict Hok].
  apply json_ok_dict in Hok as [_ Hok]. rewrite Forall_forall in Hok. split.
  - split; [by eapply Hm|by apply (Hok (k, v))].
  - assert (v ∈ payload.*2) as Hv by (apply list_elem_of_fmap; by exists (k, v)). apply max_depth_elem in Hv.
    rewrite json_depth_children in payload_depth. cbn [is_container children] in payload_depth.
    unfold JSON_MAX_DEPTH in payload_depth. lia.
Qed.

Lemma payload_key_ne k : k ∈ payload.*1 -> k <> $"_sd" /\ k <> $"_sd_alg" /\ k <> $"...".
Proof using payload_clean.
  destruct payload_clean as [(H1 & H2 & H3 & _)%has_marker_dict _]. apply dget_None in H1, H2, H3.
  intros Hk. split_and!; intros ->; done.
Qed.

Lemma rest_key k names : k ∈ (rest_of payload names).*1 -> k ∈ payload.*1 /\ k ∉ names.
Proof using.
  clear. intros (kv & -> & H)%list_elem_of_fmap. apply list_elem_of_filter in H as [H1 H2]. split; [|done].
  apply list_elem_of_fmap. by exists kv.
Qed.

Lemma rest_nodup names : NoDup (rest_of payload names).*1.
Proof using payload_clean.
  destruct payload_clean as [_ [Hnd _]%json_ok_dict]. unfold dict_ok in Hnd. clear -Hnd. unfold rest_of.
  eapply sublist_NoDup; [done|]. apply fmap_sublist, sublist_filter.
Qed.

Lemma body_shape names sds :
  with_digests h (rest_of payload names) sds =
    rest_of payload names ++ (if sds is [] then [] else [($"_sd", JList (map JStr (sort_by id sds)))]) ++ alg_of h sds.
Proof using payload_clean.
  destruct sds as [|g sds]; cbn [with_digests alg_of app]; [by rewrite app_nil_r|].
  rewrite (dset_new (rest_of _ _)).
  2:{ intros [Hk _]%rest_key. by apply payload_key_ne in Hk as (? & ? & _). }
  rewrite dset_new; [by rewrite <-app_assoc|].
  - rewrite fmap_app, elem_of_app. intros [[Hk _]%rest_key|H%list_elem_of_singleton]; [|by vm_compute in H].
    by apply payload_key_ne in Hk as (? & ? & _).
Qed.

Lemma body_ok names sds :
  json_ok (JDict (with_digests h (rest_of payload names) sds)) /\
  json_depth (JDict (with_digests h (rest_of payload names) sds)) <= JSON_MAX_DEPTH.
Proof using payload_clean payload_depth.
  rewrite body_shape. set (tail := (if sds is [] then [] else _) ++ _).
  assert (Htail : Forall (fun kv => json_ok kv.2 /\ json_depth kv.2 < 100) tail).
  { unfold tail. destruct sds as [|g sds]; [constructor|]. repeat constructor; cbn.
    - rewrite Forall_map, Forall_map. by apply Forall_true.
    - assert (max_depth (map JStr (sort_by id (g :: sds))) <= 0) as Hd; [|unfold max_depth in Hd; cbn in Hd; lia].
      apply max_depth_le; [done|]. intros v (s & -> & _)%list_elem_of_fmap. done. }
  assert (Hall : forall k v, (k, v) ∈ rest_of payload names ++ tail -> json_ok v /\ json_depth v < 100).
  { intros k v [Hin|Hin]%elem_of_app.
    - apply list_elem_of_filter in Hin as [_ Hin]. by apply payload_member in Hin as [[_ ?] ?].
    - rewrite Forall_forall in Htail. by apply (Htail (k, v)). }
  split.
  - apply json_ok_dict. split; [|apply Forall_forall; intros [k v] Hin; by apply (Hall k)].
    unfold dict_ok. rewrite fmap_app. apply NoDup_app. split_and!; [apply rest_nodup| |].
    + intros k [Hk _]%rest_key. apply payload_key_ne in Hk as (? & ? & _). unfold tail.
      destruct sds; csimpl; set_solver.
    + unfold tail. destruct sds; csimpl; [constructor|]. apply (bool_decide_unpack _). vm_compute. exact I.
  - rewrite json_depth_children. cbn [is_container children].
    assert (max_depth (rest_of payload names ++ tail).*2 <= 99); [|unfold JSON_MAX_DEPTH; lia].
    apply max_depth_le; [lia|]. intros v ([k w] & -> & Hin)%list_elem_of_fmap. apply Hall in Hin. cbn. lia.
Qed.

Lemma body_digests names sds :
  sd_digests (jget (with_digests h (rest_of payload names) sds) ($"_sd")) = Ok (sort_by id sds).
Proof using payload_clean.
  rewrite body_shape. unfold jget. rewrite dget_app, dget_rest.
  destruct payload_clean as [(-> & _)%has_marker_dict _]. destruct sds as [|g sds]; [by case_decide|].
  assert (forall l, mapR (fun d => match d with JStr s => Ok s | _ => Err SdJwtError end) (map JStr l) = Ok l) as Hm.
  { induction l as [|x l IH]; simpl; [done|]. by rewrite IH. }
  case_decide; cbn [app dget]; keys; cbn [default from_option sd_digests]; apply Hm.
Qed.

Lemma body_members D room s names sds :
  100 <= Z.of_nat room ->
  foldR (unpack_member (unpack_at D room) None) ([], s) (with_digests h (rest_of payload names) sds) =
    Ok (rest_of payload names ++ alg_of h sds, s).
Proof using payload_clean payload_depth.
  intros Hroom. rewrite body_shape, foldR_app. rewrite clean_members; [|intros k v Hin|apply rest_nodup].
  - cbn [mbind result_bind app]. destruct sds as [|g sds]; [cbn [app foldR alg_of]; by rewrite app_nil_r|].
    assert (forall r w, unpack_member (unpack_at D room) None (r, s) ($"_sd", w) = Ok (r, s)) as Hsd.
    { intros r w. unfold unpack_member. cbn [fst]. by rewrite bool_decide_eq_true_2. }
    assert (forall r, unpack_member (unpack_at D room) None (r, s) ($"_sd_alg", JStr h) =
              Ok (dset r ($"_sd_alg") (JStr h), s)) as Halg.
    { intros r. unfold unpack_member. cbn [fst snd].
      rewrite !bool_decide_eq_false_2 by (vm_compute; discriminate). destruct room; [lia|done]. }
    cbn [app alg_of foldR]. rewrite Hsd. cbn [mbind result_bind]. rewrite Halg. cbn [mbind result_bind].
    rewrite dset_new; [done|]. intros [Hk _]%rest_key. by apply payload_key_ne in Hk as (? & ? & _).
  - apply list_elem_of_filter in Hin as [_ Hin].
    assert (k ∈ payload.*1) as Hk by (apply list_elem_of_fmap; by exists (k, v)).
    apply payload_key_ne in Hk as (? & _ & ?). split_and!; [done..|]. intros top.
    apply payload_member in Hin as [??]. apply unpack_clean; [done|lia].
Qed.

(** The presented items, indexed by digest, reveal themselves and nothing else. *)
Section kept.
Context (hash : pystr -> bytes -> bytes) (json_bytes : json -> result bytes).
Context (kept : list item) (kept_ok : Forall (item_ok hash json_bytes h payload) kept).
Context (kept_digests : NoDup (map i_digest kept)) (kept_names : NoDup (map i_name kept)).

Definition index : list (pystr * list json) := map (fun it => (i_digest it, parsed it)) kept.

Lemma index_ok : dict_ok index.
Proof using kept_digests.
  unfold dict_ok, index. rewrite <-list_fmap_compose. exact kept_digests.
Qed.

Lemma index_elem g l : dget index g = Some l <-> exists it, it ∈ kept /\ g = i_digest it /\ l = parsed it.
Proof using kept_digests.
  split.
  - intros (it & [= -> ->] & Hin)%dget_Some_elem%list_elem_of_fmap. by exists it.
  - intros (it & Hin & -> & ->). apply dget_elem; [apply index_ok|]. apply list_elem_of_fmap. by exists it.
Qed.

Lemma shown_Some g n v : shown index g = Some (n, v) <->
  exists it, it ∈ kept /\ g = i_digest it /\ n = i_name it /\ v = i_value it.
Proof using kept_digests.
  unfold shown. split.
  - destruct (dget index g) as [l|] eqn:E; [|done]. apply index_elem in E as (it & ? & -> & ->).
    cbn. intros [= <- <-]. by exists it.
  - intros (it & ? & -> & -> & ->).
    assert (dget index (i_digest it) = Some (parsed it)) as -> by (apply index_elem; by exists it). done.
Qed.

Lemma name_inj it1 it2 : it1 ∈ kept -> it2 ∈ kept -> i_name it1 = i_name it2 -> it1 = it2.
Proof using kept_names.
  clear -kept_names. intros [i Hi]%list_elem_of_lookup [j Hj]%list_elem_of_lookup He.
  assert (i = j) as ->; [|congruence]. eapply (NoDup_lookup _ i j (i_name it1) kept_names);
    rewrite list_lookup_fmap; [by rewrite Hi|by rewrite Hj, He].
Qed.

Lemma kept_presentable room g : 100 <= Z.of_nat room -> presentable index room g.
Proof using kept_digests kept_ok payload_clean payload_depth.
  intros Hroom l (it & Hin & _ & ->)%index_elem. rewrite Forall_forall in kept_ok.
  destruct (kept_ok it Hin) as (Hget & _). apply dget_Some_elem in Hget as Hp.
  assert (i_name it ∈ payload.*1) as Hk by (apply list_elem_of_fmap; by eexists (_, _)).
  apply payload_key_ne in Hk as (? & _ & ?). apply payload_member in Hp as [??].
  eexists _, _, _. split; [done|]. split_and!; try done. lia.
Qed.

Lemma revealed_lookup names sds n :
  NoDup sds -> (forall it, it ∈ kept -> i_digest it ∈ sds /\ i_name it ∈ names) ->
  NoDup ((rest_of payload names ++ alg_of h sds).*1 ++ (omap (shown index) sds).*1) /\
  dget (ddel ((rest_of payload names ++ alg_of h sds) ++ omap (shown index) sds) ($"_sd_alg")) n =
    if bool_decide (n ∈ names /\ n ∉ map i_name kept) then None else dget payload n.
Proof using All.
  intros Hnd Hkept.
  assert (Hrev : forall k v, (k, v) ∈ omap (shown index) sds <-> exists it, it ∈ kept /\ k = i_name it /\ v = i_value it).
  { intros k v. rewrite list_elem_of_omap. split.
    - intros (g & _ & (it & ? & _ & -> & ->)%shown_Some). by exists it.
    - intros (it & Hin & -> & ->). exists (i_digest it). split; [by apply Hkept|]. apply shown_Some. by exists it. }
  assert (Hrevk : forall k, k ∈ (omap (shown index) sds).*1 -> exists it, it ∈ kept /\ k = i_name it).
  { intros k ([k' v] & -> & Hin)%list_elem_of_fmap. apply Hrev in Hin as (it & ? & -> & _). by exists it. }
  assert (Hname : forall it, it ∈ kept -> i_name it ∈ payload.*1 /\ dget payload (i_name it) = Some (i_value it)).
  { intros it Hin. rewrite Forall_forall in kept_ok. destruct (kept_ok it Hin) as (Hg & _).
    split; [|done]. apply dmem_spec. unfold dmem. by rewrite Hg. }
  assert (Hnd2 : NoDup (omap (shown index) sds).*1).
  { assert ((omap (shown index) sds).*1 = omap (fun g => fst <$> shown index g) sds) as ->.
    { clear. induction sds as [|g sds IH]; [done|]. simpl. destruct (shown index g); csimpl; by rewrite IH. }
    apply NoDup_omap; [|done]. intros g1 g2 k _ _.
    destruct (shown index g1) as [[k1 v1]|] eqn:E1, (shown index g2) as [[k2 v2]|] eqn:E2; cbn; try done.
    intros [= ->] [= ->]. apply shown_Some in E1 as (i1 & H1 & -> & Hn1 & _).
    apply shown_Some in E2 as (i2 & H2 & -> & Hn2 & _). f_equal. apply name_inj; congruence. }
  assert (Halg : forall k, k ∈ (alg_of h sds).*1 -> k = $"_sd_alg").
  { intros k. destruct sds; csimpl; set_solver. }
  split.
  - rewrite fmap_app, <-app_assoc. apply NoDup_app. split_and!; [apply rest_nodup| |].
    + intros k [Hk Hn]%rest_key [Ha|(it & Hin & ->)%Hrevk]%elem_of_app.
      * apply Halg in Ha as ->. by apply payload_key_ne in Hk as (? & ? & _).
      * by apply Hn, Hkept.
    + apply NoDup_app. split_and!; [destruct sds; csimpl; [constructor|apply NoDup_singleton]| |done].
      intros k ->%Halg (it & Hin & He)%Hrevk. apply Hname in Hin as [Hk _]. rewrite <-He in Hk.
      by apply payload_key_ne in Hk as (? & ? & _).
  - rewrite ddel_dget, !dget_app, dget_rest.
    assert (dget payload ($"_sd_alg") = None) as Hpa.
    { destruct payload_clean as [(_ & ? & _)%has_marker_dict _]. done. }
    case_decide as Ha; [subst n; rewrite Hpa; by case_bool_decide|].
    assert (dget (alg_of h sds) n = None) as -> by (apply dget_None; by intros ?%Halg).
    case_decide as Hn.
    + case_bool_decide as Hb; [apply dget_None; intros (it & Hin & ->)%Hrevk|].
      * apply Hb. apply list_elem_of_fmap. by exists it.
      * destruct (decide (n ∈ map i_name kept)) as [(it & -> & Hin)%list_elem_of_fmap|]; [|naive_solver].
        rewrite (proj2 (Hname it Hin)). apply dget_elem; [done|]. apply Hrev. by exists it.
    + rewrite bool_decide_eq_false_2 by naive_solver. destruct (dget payload n) eqn:E; [done|].
      apply dget_None. intros (it & Hin & ->)%Hrevk. by apply Hn, Hkept.
Qed.
End kept.
End body.

(** * The round trip *)

(** The header [issue] signs. *)
Lemma header_ok (header : jobject) (x5c : option (list json)) alg kid :
  (match x5c with
   | None => Ok [($"typ", JStr ISSUER_TYP); ($"alg", JStr alg); ($"kid", JStr kid)]
   | Some [] => Err SdJwtError
   | Some chain =>
       raise_if (negb (forallb (fun c => is_str c && truthy c) chain)) SdJwtError;;
       Ok (dset [($"typ", JStr ISSUER_TYP); ($"alg", JStr alg); ($"kid", JStr kid)] ($"x5c") (JList chain))
   end) = Ok header -> json_ok (JDict header) /\ json_depth (JDict header) <= JSON_MAX_DEPTH.
Proof.
  destruct x5c as [[|c chain]|]; [done| |intros [= <-]; split; [solve_json_ok|cbn; unfold JSON_MAX_DEPTH; lia]].
  intros H. apply bind_Ok in H as (? & Hs%raise_if_Ok & [= <-]). apply negb_false_iff in Hs.
  rewrite forallb_forall in Hs.
  assert (Hc : forall v, v ∈ c :: chain -> exists s, v = JStr s).
  { intros v Hv%list_elem_of_In. apply Hs, andb_true_iff in Hv as [Hv _]. destruct v; try done. by eexists. }
  split.
  - apply json_ok_dict. split; [apply (bool_decide_unpack _); vm_compute; exact I|].
    repeat (constructor; [done|]). constructor; [|done]. apply json_ok_list, Forall_forall.
    by intros v (s & ->)%Hc.
  - rewrite json_depth_children. cbn [is_container children].
    assert (max_depth (c :: chain) <= 0) as Hd by (apply max_depth_le; [done|]; by intros v (s & ->)%Hc).
    unfold max_depth in *. cbn [app fmap list_fmap snd foldr json_depth] in *. unfold JSON_MAX_DEPTH.
    cbn [foldr] in Hd. lia.
Qed.

Lemma kept_items (items : list item) kept :
  kept `sublist_of` zip (map i_name items) (map i_disclosure items) ->
  exists its, its `sublist_of` items /\ kept.*1 = map i_name its /\ kept.*2 = map i_disclosure its.
Proof.
  assert (zip (map i_name items) (map i_disclosure items) = map (fun it => (i_name it, i_disclosure it)) items) as ->.
  { induction items as [|it items IH]; [done|]. cbn. by rewrite IH. }
  intros (its & -> & Hs)%sublist_map_inv. exists its. split; [done|].
  change (map (fun it => (i_name it, i_disclosure it)) its) with ((fun it => (i_name it, i_disclosure it)) <$> its).
  by rewrite <-!list_fmap_compose.
Qed.

(** What a verifier shown [kept] reads from the signed [body]: the disclosures index and unpack,
    every one is used, and the outcome is the payload without the claims withheld. *)
Definition reveals hash json_loads (h : pystr) (body payload : jobject) (names : list pystr)
    (kept : list (pystr * pystr)) : Prop :=
  exists D r s, index_disclosures hash json_loads kept.*2 h [] = Ok D /\
    unpack D (JDict body) = Ok (JDict r, s) /\ D.*1 ⊆ used s /\
    forall n, dget (ddel r ($"_sd_alg")) n =
      if bool_decide (n ∈ names /\ n ∉ kept.*1) then None else dget payload n.

Lemma unpack_at_dict D room d top s :
  unpack_at D (S room) (JDict d) top s =
    ('(r, s) ← foldR (unpack_member (unpack_at D room) top) ([], s) d;
     digests ← sd_digests (jget d ($"_sd"));
     '(r, s) ← foldR (unpack_digest D (unpack_at D room) top) (r, s) digests;
     Ok (JDict r, s)).
Proof. done. Qed.

Section reveals.
Context (hash : pystr -> bytes -> bytes) (json_bytes : json -> result bytes) (json_loads : bytes -> result json).
Context (codec : forall v raw, json_ok v -> json_depth v <= JSON_MAX_DEPTH -> json_bytes v = Ok raw ->
  raw <> [] /\ bytes_ok raw /\ json_loads raw = Ok v).
Context (h : pystr) (payload : jobject).
Context (payload_clean : clean (JDict payload)) (payload_depth : json_depth (JDict payload) <= JSON_MAX_DEPTH).

Lemma items_reveal items decoys kept :
  Forall (item_ok hash json_bytes h payload) items -> NoDup (map i_name items) ->
  NoDup (map i_digest items ++ decoys) ->
  kept `sublist_of` zip (map i_name items) (map i_disclosure items) ->
  reveals hash json_loads h (with_digests h (rest_of payload (map i_name items)) (map i_digest items ++ decoys))
    payload (map i_name items) kept.
Proof using All.
  intros Hok Hnames Hdig (its & Hsub & Hk1 & Hk2)%kept_items.
  assert (Hin : forall it, it ∈ its -> it ∈ items) by (intros; by eapply elem_of_sublist).
  assert (Hok' : Forall (item_ok hash json_bytes h payload) its) by (rewrite Forall_forall in Hok |- *; auto).
  assert (Hnames' : NoDup (map i_name its)) by (eapply sublist_NoDup; [exact Hnames|by apply fmap_sublist]).
  apply NoDup_app in Hdig as Hd'. destruct Hd' as [Hdi _].
  assert (Hdig' : NoDup (map i_digest its)) by (eapply sublist_NoDup; [exact Hdi|by apply fmap_sublist]).
  set (sds := map i_digest items ++ decoys) in *.
  assert (Hsort : NoDup (sort_by id sds)) by by rewrite sort_by_perm.
  assert (Halg : alg_of h sds = alg_of h (sort_by id sds)).
  { pose proof (length_sort_by id sds). by destruct sds, (sort_by id _). }
  assert (Hk : forall it, it ∈ its -> i_digest it ∈ sort_by id sds /\ i_name it ∈ map i_name items).
  { intros it Hit%Hin. rewrite elem_of_sort_by. unfold sds. rewrite elem_of_app.
    split; [left|]; apply list_elem_of_fmap; by exists it. }
  destruct (digests_reveal (index its) 100 (sort_by id sds) (rest_of payload (map i_name items) ++ alg_of h sds) start)
    as (s' & Hrun & _ & Hused).
  - apply Forall_forall. intros g _. by eapply kept_presentable.
  - done.
  - intros g _. apply not_elem_of_nil.
  - rewrite Halg. by apply (fun Hn Hi => proj1 (revealed_lookup h payload payload_clean payload_depth hash json_bytes
      its Hok' Hdig' Hnames' (map i_name items) (sort_by id sds) [] Hn Hi)).
  - exists (index its). rewrite Hk2. eexists _, s'. split_and!.
    + by eapply index_items.
    + unfold unpack. change (Z.to_nat (MAX_DEPTH + 1)) with (S 100). rewrite unpack_at_dict.
      rewrite body_members by (done || lia). cbn [mbind result_bind]. rewrite body_digests by done.
      cbn [mbind result_bind]. by rewrite Hrun.
    + intros g (l & -> & Hg)%list_elem_of_fmap. apply Hused; [|by apply list_elem_of_fmap; exists l].
      apply list_elem_of_fmap in Hg as (it & -> & Hit). by apply Hk.
    + intros n. rewrite Halg, Hk1. by apply (revealed_lookup h payload payload_clean payload_depth hash json_bytes
        its Hok' Hdig' Hnames').
Qed.
End reveals.

(** An issued SD-JWT discloses exactly what the holder chooses.  Whatever claims, claims
    to conceal, decoys and salts: the token [issue] returns splits into an issuer JWT the
    verifier parses back, whose signed body holds none of the concealed claims in the
    clear; and for any subset of its disclosures, presented in order, the verifier finds
    every one used and reads the issuer's claims minus exactly those withheld (provided no
    two of the body's digests collide).  The JSON codec is assumed to round-trip. *)
Theorem issued_reveals_exactly hash json_bytes json_loads std_json_loads sign token_bytes
    (su : suite) (hash_name key_alg key_kid : pystr) (now : Z) (claims payload : jobject) (names : list pystr)
    (holder_jwk : option jobject) (vct : option pystr) (expires_in_s : option Z) (decoys : Z)
    (x5c : option (list json)) (token : pystr)
    (codec : forall v raw, json_ok v -> json_depth v <= JSON_MAX_DEPTH -> json_bytes v = Ok raw ->
       raw <> [] /\ bytes_ok raw /\ json_loads raw = Ok v)
    (Hsign : forall m sig, sign m = Ok sig -> bytes_ok sig)
    (Hissue : sd_issue hash json_bytes sign token_bytes std_json_loads su hash_name key_alg key_kid now claims
       names holder_jwk vct expires_in_s decoys x5c = Ok token)
    (Hpayload : issue_payload now claims vct expires_in_s holder_jwk = Ok payload)
    (Hclean : clean (JDict payload)) (Hdepth : json_depth (JDict payload) <= JSON_MAX_DEPTH) :
  exists issuer_jwt disclosures digests header body si sig,
    token = presented issuer_jwt disclosures /\ length disclosures = length names /\
    sign si = Ok sig /\ decode_jws json_loads issuer_jwt = Ok (header, body, si, sig) /\
    sd_digests (jget body ($"_sd")) = Ok digests /\ (forall n, n ∈ names -> dget body n = None) /\
    forall kept, kept `sublist_of` zip names disclosures -> NoDup digests ->
      split (presented issuer_jwt kept.*2) = Ok (issuer_jwt, kept.*2, []) /\
      reveals hash json_loads hash_name body payload names kept.
Proof.
  unfold sd_issue in Hissue. rewrite Hpayload in Hissue. apply bind_Ok in Hissue as (? & _ & H). cbn [mbind result_bind] in H.
  apply bind_Ok in H as (raw & _ & H). apply bind_Ok in H as (parsed & _ & H).
  apply bind_Ok in H as (vcdm & _ & H). apply bind_Ok in H as (? & _ & H).
  apply bind_Ok in H as ([[rest ds] gs] & Hc & H). apply bind_Ok in H as (header & Hh & H).
  apply bind_Ok in H as (jwt & Hj & [= <-]). apply header_ok in Hh as [Hhok Hhd].
  apply conceal_Ok in Hc as (items & -> & -> & -> & Hok & Hnd & ->).
  set (extra := decoy_digests token_bytes hash_name (length (map i_name items)) decoys) in *.
  fold (rest_of payload (map i_name items)) in Hj.
  destruct (body_ok hash_name payload Hclean Hdepth (map i_name items) (map i_digest items ++ extra)) as [Hbok Hbd].
  pose proof (body_digests hash_name payload Hclean (map i_name items) (map i_digest items ++ extra)) as Hsd.
  set (body := with_digests _ _ _) in *. unfold sign_compact in Hj.
  apply bind_Ok in Hj as (hb & Hhb & Hj). apply bind_Ok in Hj as (pb & Hpb & Hj).
  destruct (codec _ _ Hhok Hhd Hhb) as (_ & Hhby & Hhl). destruct (codec _ _ Hbok Hbd Hpb) as (_ & Hpby & Hpl).
  destruct (sign_compact_decodes json_loads json_bytes sign header body jwt hb pb) as (Hno & si & sig & Hsi & Hdec); try done.
  { unfold sign_compact. by rewrite Hhb, Hpb. }
  change (parse_compact json_loads jwt) with (decode_jws json_loads jwt) in Hdec.
  exists jwt, (map i_disclosure items), (sort_by id (map i_digest items ++ extra)), header, body, si, sig.
  split_and!; try done; [by rewrite !length_map| |].
  - intros n Hn. unfold body. rewrite body_shape, dget_app, dget_rest, decide_True by done.
    apply dget_None. apply list_elem_of_fmap in Hn as (it & -> & Hit). rewrite Forall_forall in Hok.
    destruct (Hok it Hit) as (Hg & _). assert (i_name it ∈ payload.*1) as Hk by (apply dmem_spec; unfold dmem; by rewrite Hg).
    apply payload_key_ne in Hk as (? & ? & _); [|done]. destruct (map i_digest items ++ extra); csimpl; [set_solver|].
    rewrite !elem_of_cons. set_solver.
  - intros kept Hkept Hndg. rewrite sort_by_perm in Hndg. split.
    + apply split_presented; [done|]. apply kept_items in Hkept as (its & Hsub & _ & ->).
      apply Forall_map, Forall_forall. intros it Hit. rewrite Forall_forall in Hok.
      eapply elem_of_sublist in Hit; [|done]. destruct (item_parsed hash json_bytes json_loads codec _ _ _ (Hok it Hit) Hclean Hdepth)
        as (_ & _ & _ & raw' & Hb & Hne & ->). split; [by apply b64url_seps|by apply b64url_encode_nonempty].
    + by eapply items_reveal.
Qed.

(** A codec for the values of a small issuance: each has one byte. *)
Definition issued_claims : jobject := [($"iss", JStr ($"did:x")); ($"iat", JInt 1); ($"name", JStr ($"A"))].
Definition issued_body : jobject :=
  [($"iss", JStr ($"did:x")); ($"iat", JInt 1); ($"vct", JStr ($"T")); ($"_sd", JList [JStr ($"AA")]); ($"_sd_alg", JStr DEFAULT_HASH)].
Definition issued_values : list json :=
  [JDict [($"typ", JStr ISSUER_TYP); ($"alg", JStr ($"ES256")); ($"kid", JStr ($"k"))];
   JDict issued_body; JList [JStr ($"AA"); JStr ($"name"); JStr ($"A")];
   JDict (issued_claims ++ [($"vct", JStr ($"T"))])].
Definition table_bytes (v : json) : result bytes :=
  match list_find (fun w => w = v) issued_values with Some (i, _) => Ok [Z.of_nat i] | None => Err TypeError end.
Definition table_loads (raw : bytes) : result json :=
  match raw with [i] => match issued_values !! Z.to_nat i with Some v => Ok v | None => Err ValueError end | _ => Err ValueError end.

Lemma table_codec v raw : json_ok v -> json_depth v <= JSON_MAX_DEPTH -> table_bytes v = Ok raw ->
  raw <> [] /\ bytes_ok raw /\ table_loads raw = Ok v.
Proof.
  intros _ _. unfold table_bytes. destruct (list_find _ _) as [[i w]|] eqn:E; [|done]. intros [= <-].
  apply list_find_Some in E as (Hi & -> & _). split_and!; [done| |].
  - apply lookup_lt_Some in Hi as Hl. cbn in Hl. repeat constructor; lia.
  - unfold table_loads. by rewrite Nat2Z.id, Hi.
Qed.

Lemma issued_reveals_exactly_witness :
  exists issuer_jwt disclosures digests header body si sig,
    $"AA.AQ.AA~Ag~" = presented issuer_jwt disclosures /\ length disclosures = 1%nat /\
    Ok [0] = Ok sig /\ decode_jws table_loads issuer_jwt = Ok (header, body, si, sig) /\
    sd_digests (jget body ($"_sd")) = Ok digests /\ (forall n, n ∈ [$"name"] -> dget body n = None) /\
    forall kept, kept `sublist_of` zip [$"name"] disclosures -> NoDup digests ->
      split (presented issuer_jwt kept.*2) = Ok (issuer_jwt, kept.*2, []) /\
      reveals (fun _ _ => [0]) table_loads DEFAULT_HASH body (issued_claims ++ [($"vct", JStr ($"T"))]) [$"name"] kept.
Proof.
  apply (issued_reveals_exactly (fun _ _ => [0]) table_bytes table_loads table_loads (fun _ => Ok [0]) (fun _ _ => [0])
    {| leeway := JInt 60; algs := ALLOWED_ALGS |} DEFAULT_HASH ($"ES256") ($"k") 1 issued_claims
    (issued_claims ++ [($"vct", JStr ($"T"))]) [$"name"] None (Some ($"T")) None 0 None).
  - apply table_codec.
  - intros m sig [= <-]. constructor; [unfold is_byte; lia|constructor].
  - vm_compute. reflexivity.
  - vm_compute. reflexivity.
  - split; [vm_compute; reflexivity|]. unfold issued_claims. cbn [app]. solve_json_ok.
  - vm_compute. discriminate.
Defined.
