(* ===== verification/VcIssue.v ===== *)
(** Issuing a VC-JWT, [VcJwtProofSuite.sign] (src/src/openvc/proof/vc_jwt.py), and the round trip
    through [verify].  The JSON codec and the signing key are parameters. *)
From S2P Require Import Prelude Errors PyStr Json Base64 PyNum VerifyCommon VcJwt SdJwt SdIssue.

Section sign.
Context (json_bytes : json -> result bytes) (sign : bytes -> result bytes).

(** [_jws.sign_compact] for a key of algorithm [key_alg]. *)
Definition jws_sign_compact (allowed_algs : list pystr) (key_alg : pystr) (header payload : jobject) : result pystr :=
  raise_if (negb (bool_decide (key_alg ∈ allowed_algs))) UnsupportedAlgorithm;;
  sign_compact json_bytes sign header payload.

(** [_sign_algs]: the allow-list without the verification-only names. *)
Definition sign_algs (su : suite) : list pystr := filter (fun a => a ∉ ALLOWED_ALGS_ES256K) (algs su).

Definition vc_payload (now : Z) (credential : jobject) (expires_in_s : option Z) : jobject :=
  let issuer := match jget credential ($"issuer") with JDict d => jget d ($"id") | issuer => issuer end in
  let subject := match jget credential ($"credentialSubject") with JDict cs => jget cs ($"id") | _ => JNull end in
  [($"iss", issuer); ($"nbf", JInt now); ($"iat", JInt now); ($"vc", JDict credential)]
    ++ (if is_none (jget credential ($"id")) then [] else [($"jti", jget credential ($"id"))])
    ++ (if truthy subject then [($"sub", subject)] else [])
    ++ match expires_in_s with None => [] | Some n => [($"exp", JInt (now + n))] end.

Definition vc_header (key_alg key_kid : pystr) : jobject :=
  [($"alg", JStr key_alg); ($"typ", JStr ($"JWT")); ($"kid", JStr key_kid)].

Definition vc_sign (su : suite) (key_alg key_kid : pystr) (now : Z) (credential : jobject)
    (expires_in_s : option Z) : result pystr :=
  jws_sign_compact (sign_algs su) key_alg (vc_header key_alg key_kid) (vc_payload now credential expires_in_s).
End sign.

(** * What is signed verifies *)

Definition subject_of (credential : jobject) : json :=
  match jget credential ($"credentialSubject") with JDict cs => jget cs ($"id") | _ => JNull end.
Definition no_other_id (issuer : jobject) : Prop := dget issuer ($"@id") = None.

(** The identifiers a credential names itself with are strings, and its issuer has one. *)
Record well_named (credential : jobject) (iss : pystr) : Prop := {
  wn_issuer : jget credential ($"issuer") = JStr iss \/
    exists d, jget credential ($"issuer") = JDict d /\ jget d ($"id") = JStr iss /\ no_other_id d;
  wn_id : is_none (jget credential ($"id")) = true \/ is_str (jget credential ($"id")) = true;
  wn_subject : truthy (subject_of credential) = true -> is_str (subject_of credential) = true;
}.

Section payload.
Context (now : Z) (credential : jobject) (expires : option Z) (iss : pystr).
Context (Hname : well_named credential iss).

Abbreviation payload := (vc_payload now credential expires).

Ltac tail := unfold vc_payload; fold (subject_of credential);
  destruct (is_none (jget credential ($"id"))), (truthy (subject_of credential)), expires; look; try done.

Lemma payload_vc : jget payload ($"vc") = JDict credential.
Proof using. done. Qed.
Lemma payload_iss : jget payload ($"iss") = JStr iss.
Proof using Hname.
  unfold vc_payload. look. destruct (wn_issuer _ _ Hname) as [H|(d & H & Hd & _)]; unfold jget in H; by rewrite H.
Qed.
Lemma payload_jti : jget payload ($"jti") = if is_none (jget credential ($"id")) then JNull else jget credential ($"id").
Proof using. tail. Qed.
Lemma payload_sub : jget payload ($"sub") = if truthy (subject_of credential) then subject_of credential else JNull.
Proof using. tail. Qed.
Lemma payload_sub_mem : dmem payload ($"sub") = truthy (subject_of credential).
Proof using. unfold dmem. tail. Qed.
Lemma payload_jti_mem : dmem payload ($"jti") = negb (is_none (jget credential ($"id"))).
Proof using. unfold dmem. tail. Qed.
Lemma payload_exp : dget payload ($"exp") = match expires with None => None | Some n => Some (JInt (now + n)) end.
Proof using. tail. Qed.
Lemma payload_nbf : dget payload ($"nbf") = Some (JInt now).
Proof using. done. Qed.
Lemma payload_iat : dget payload ($"iat") = Some (JInt now).
Proof using. done. Qed.
Lemma payload_aud : dget payload ($"aud") = None.
Proof using. tail. Qed.
End payload.

Lemma has_marker_ok d : (forall k, k ∈ MARKERS -> k ∉ d.*1) -> (forall k v, (k, v) ∈ d -> has_marker v = false) -> has_marker (JDict d) = false.
Proof.
  intros Hk Hv. cbn [has_marker]. apply orb_false_iff. split; apply not_true_iff_false; rewrite existsb_exists.
  - intros (k & Hin%list_elem_of_In & Hm%dmem_spec). by eapply Hk.
  - intros ([k v] & Hin%list_elem_of_In & Hm). cbn in Hm. by rewrite (Hv k v) in Hm.
Qed.

Lemma json_depth_dict d n : 0 <= n -> (forall k v, (k, v) ∈ d -> json_depth v <= n) -> json_depth (JDict d) <= n + 1.
Proof.
  intros Hn Hd. rewrite json_depth_children. cbn [is_container children]. enough (max_depth d.*2 <= n) by lia.
  assert (forall v, v ∈ d.*2 -> json_depth v <= n) as Hv.
  { intros v ([k v'] & -> & Hin)%list_elem_of_fmap. by apply (Hd k). }
  clear Hd. induction d.*2 as [|v l IH]; cbn [max_depth foldr]; [lia|]. fold (max_depth l).
  apply Z.max_lub; [apply Hv; left|apply IH; intros; apply Hv; by right].
Qed.

Section payload_shape.
Context (now : Z) (credential : jobject) (expires : option Z) (iss : pystr).
Context (Hname : well_named credential iss).

(** The members of the payload beside the credential are strings and numbers. *)
Lemma payload_members k v : (k, v) ∈ vc_payload now credential expires -> v = JDict credential \/ is_str v = true \/ exists n, v = JInt n.
Proof using Hname.
  pose proof (wn_id _ _ Hname) as Hid. pose proof (wn_subject _ _ Hname) as Hsub.
  pose proof (payload_iss now credential expires iss Hname) as Hiss. intros Hin.
  unfold vc_payload in Hiss, Hin.
  rewrite !elem_of_app, !elem_of_cons in Hin.
  destruct Hin as [[[= -> ->]|[[= -> ->]|[[= -> ->]|[[= -> ->]|Hin%not_elem_of_nil]]]]|[Hin|[Hin|Hin]]]; eauto; try done.
  - right. left. change (match jget credential ($"issuer") with JDict d => jget d ($"id") | issuer => issuer end = JStr iss) in Hiss. by rewrite Hiss.
  - destruct (is_none _) eqn:E; [by apply not_elem_of_nil in Hin|]. apply list_elem_of_singleton in Hin as [= -> ->].
    destruct Hid as [[=]|H]; auto.
  - unfold subject_of in Hsub. destruct (truthy _); [|by apply not_elem_of_nil in Hin].
    apply list_elem_of_singleton in Hin as [= -> ->]. auto.
  - destruct expires; [|by apply not_elem_of_nil in Hin]. apply list_elem_of_singleton in Hin as [= -> ->]. eauto.
Qed.

Lemma payload_keys : (vc_payload now credential expires).*1 ⊆ [$"iss"; $"nbf"; $"iat"; $"vc"; $"jti"; $"sub"; $"exp"] /\
  NoDup (vc_payload now credential expires).*1.
Proof using Hname.
  unfold vc_payload. split.
  - rewrite !fmap_app. destruct (is_none _), (truthy _), expires; csimpl; set_solver.
  - destruct (is_none _), (truthy _), expires; apply (bool_decide_unpack _); vm_compute; exact I.
Qed.

Lemma payload_unmarked : has_marker (JDict credential) = false -> has_marker (JDict (vc_payload now credential expires)) = false.
Proof using Hname.
  intros Hm. apply has_marker_ok.
  - intros k Hk Hin. apply (proj1 payload_keys) in Hin. unfold MARKERS in Hk. rewrite !elem_of_cons, elem_of_nil in Hk.
    destruct Hk as [->|[->|[->|[]]]]; revert Hin; apply (bool_decide_unpack _); vm_compute; exact I.
  - intros k v Hin; destruct (payload_members k v Hin) as [->|[Hs|[n ->]]]; [done| |done]. by destruct v.
Qed.

Lemma payload_depth : json_depth (JDict credential) < JSON_MAX_DEPTH -> json_depth (JDict (vc_payload now credential expires)) <= JSON_MAX_DEPTH.
Proof using Hname.
  intros Hd. replace JSON_MAX_DEPTH with (JSON_MAX_DEPTH - 1 + 1) by lia. apply json_depth_dict; [done|].
  intros k v Hin; destruct (payload_members k v Hin) as [->|[Hs|[n ->]]]; [lia| |done]. by destruct v.
Qed.

Lemma payload_json_ok : json_ok (JDict credential) -> json_ok (JDict (vc_payload now credential expires)).
Proof using Hname.
  intros Hok. apply json_ok_dict. split; [apply payload_keys|]. apply Forall_forall.
  intros [k v] Hin; destruct (payload_members k v Hin) as [->|[Hs|[n ->]]]; [done| |done]. by destruct v.
Qed.
End payload_shape.

(** ** The round trip *)

Section issued.
Context (json_loads : bytes -> result json) (verify_signature : pystr -> json -> bytes -> bytes -> result bool)
  (lower : pystr -> pystr) (on_curve : Z -> Z -> bool) (from_jwk : jobject -> bool)
  (pyjwt_decode : pystr -> json -> pystr -> json -> json -> bool -> jwt_outcome)
  (is_space is_decimal : Z -> bool) (fromisoformat : pystr -> option (Z * option Z)).
Context (json_bytes : json -> result bytes) (sign : bytes -> result bytes).
Context (su : suite) (alg kid : pystr) (jwk : json) (clock : Z).

(** The loader reads back what the encoder wrote, within its own limit. *)
Definition json_codec : Prop := forall v raw, json_ok v -> json_depth v <= JSON_MAX_DEPTH -> json_bytes v = Ok raw ->
  bytes_ok raw /\ json_loads raw = Ok v.
(** The public key verifies what the private one signs. *)
Definition key_pair : Prop := forall m sig, sign m = Ok sig -> bytes_ok sig /\ verify_signature alg jwk m sig = Ok true.
(** PyJWT returns the claims of a token whose signature verifies and whose claims pass the checks
    openvc repeats for the algorithms PyJWT does not know. *)
Definition pyjwt_accepts : Prop := forall token audience header claims si sig,
  parse_compact json_loads token = Ok (header, claims, si, sig) -> jget header ($"alg") = JStr alg ->
  verify_signature alg jwk si sig = Ok true -> check_jwt_claims su claims (NInt clock) true = Ok false ->
  check_jwt_audience claims audience true = Ok tt -> pyjwt_decode token jwk alg (leeway su) audience true = JwtClaims claims.

Record issuing_setup : Prop := {
  su_codec : json_codec;
  su_key : key_pair;
  su_pyjwt : pyjwt_accepts;
  su_jwk : jwk_to_key on_curve from_jwk jwk alg = Ok tt;
  su_lower : lower ($"JWT") = $"jwt";
}.
Context (Hsetup : issuing_setup).

Context (l now : Z) (credential : jobject) (expires : option Z) (iss : pystr).
Context (Hname : well_named credential iss) (Hleeway : leeway su = JInt l) (Hl : 0 <= l <= MAX_LEEWAY_S).
Context (Hnow : now <= clock + l) (Hexp : match expires with None => True | Some n => clock < now + n + l end).
Context (Hnow_num : is_numeric_date (JInt now) = true)
  (Hexp_num : match expires with None => True | Some n => is_numeric_date (JInt (now + n)) = true end).

Abbreviation payload := (vc_payload now credential expires).

Lemma payload_dates : check_numeric_dates payload [$"exp"; $"nbf"; $"iat"] = Ok tt.
Proof using Hexp Hnow_num Hexp_num.
  apply check_numeric_dates_Ok. intros name v Hin. rewrite !elem_of_cons, elem_of_nil in Hin.
  destruct Hin as [->|[->|[->|[]]]]; [rewrite payload_exp|rewrite payload_nbf|rewrite payload_iat].
  - destruct expires; [by intros [= <-]|done].
  - by intros [= <-].
  - by intros [= <-].
Qed.

Lemma payload_temporal : check_jwt_temporal payload (leeway su) (NInt clock) true = Ok false.
Proof using Hleeway Hl Hnow Hexp Hnow_num Hexp_num.
  rewrite Hleeway. unfold check_jwt_temporal. rewrite (proj2 (leeway_seconds_Ok _ _ l)) by done. cbn [mbind result_bind].
  rewrite payload_dates. cbn [mbind result_bind].
  rewrite (date_claim_int _ ($"nbf") now) by apply (payload_nbf now credential expires). rewrite (date_claim_int _ ($"iat") now) by apply (payload_iat now credential expires).
  cbn [num_sub mbind result_bind]. rewrite !num_gtb_int. replace (l <? now - clock) with false by (symmetry; apply Z.ltb_ge; lia).
  destruct expires as [n|].
  - rewrite (date_claim_int _ ($"exp") (now + n)) by by rewrite payload_exp. cbn [num_sub mbind result_bind].
    rewrite num_geb_int. by replace (l <=? clock - (now + n)) with false by (symmetry; apply Z.leb_gt; lia).
  - rewrite (date_claim_none _ ($"exp")) by by rewrite payload_exp. done.
Qed.

Lemma payload_claims_accepted : check_jwt_claims su payload (NInt clock) true = Ok false.
Proof using Hname Hleeway Hl Hnow Hexp Hnow_num Hexp_num.
  unfold check_jwt_claims. rewrite (payload_iss now credential expires iss Hname). cbn [is_str negb raise_if mbind result_bind].
  rewrite payload_sub_mem, payload_sub, payload_jti_mem, payload_jti.
  replace (truthy (subject_of credential) && _) with false.
  2:{ pose proof (wn_subject _ _ Hname) as H. destruct (truthy _); [|done]. by rewrite H. }
  replace (negb (is_none (jget credential ($"id"))) && _) with false.
  2:{ destruct (wn_id _ _ Hname) as [->|H]; [done|]. destruct (jget credential ($"id")); done. }
  apply payload_temporal.
Qed.

Lemma py_eq_string v : is_str v = true -> py_eq v v = true.
Proof using. destruct v; try done. intros _. rewrite py_eq_str. by apply bool_decide_eq_true. Qed.

Lemma payload_reconciled : exists subject, reconcile payload credential = Ok (iss, subject).
Proof using Hname.
  unfold reconcile. rewrite (payload_iss now credential expires iss Hname).
  fold (subject_of credential). rewrite payload_sub, payload_jti.
  assert (match dget credential ($"issuer") with Some issuer => existsb (fun name => negb (eq_str name iss)) (issuer_identifiers issuer) | None => false end = false) as ->.
  { destruct (wn_issuer _ _ Hname) as [H|(d & H & Hd & Ho)]; apply jget_Some in H; try done; rewrite H.
    - cbn. by rewrite bool_decide_eq_true_2.
    - unfold issuer_identifiers. cbn [omap list_omap]. rewrite Ho. apply jget_Some in Hd; [|done]. rewrite Hd.
      cbn. by rewrite bool_decide_eq_true_2. }
  cbn [raise_if mbind result_bind].
  replace (_ && _ && negb (py_eq _ (subject_of credential))) with false.
  2:{ pose proof (wn_subject _ _ Hname) as H. destruct (truthy (subject_of credential)) eqn:E; [|done].
      rewrite py_eq_string by auto. by rewrite andb_false_r. }
  cbn [raise_if mbind result_bind].
  replace (_ && _ && negb (py_eq _ (jget credential ($"id")))) with false; [by eexists|].
  destruct (wn_id _ _ Hname) as [E|E]; [by rewrite E|].
  destruct (is_none _); [done|]. rewrite py_eq_string by done. by rewrite andb_false_r.
Qed.

Lemma header_clean : json_ok (JDict (vc_header alg kid)) /\ json_depth (JDict (vc_header alg kid)) <= JSON_MAX_DEPTH.
Proof using. split; [unfold vc_header; solve_json_ok|by vm_compute]. Qed.

Lemma header_typ : lower ($"JWT") = $"jwt" -> reject_sd_jwt_typ lower (vc_header alg kid) = Ok tt.
Proof using.
  intros H. unfold reject_sd_jwt_typ. replace (jget (vc_header alg kid) ($"typ")) with (JStr ($"JWT")) by done.
  cbv zeta. rewrite H. by vm_compute.
Qed.

Context (Hok : json_ok (JDict credential)) (Hdepth : json_depth (JDict credential) < JSON_MAX_DEPTH)
  (Hunmarked : has_marker (JDict credential) = false).
Context (instant : Z) (expected_types : list pystr) (token : pystr).
Context (Hwindow : check_validity_window is_space is_decimal fromisoformat credential [] instant (leeway su) true = Ok false)
  (Htypes : check_types credential expected_types = Ok tt)
  (Hsigned : vc_sign json_bytes sign su alg kid now credential expires = Ok token).

Lemma signed_verifies : exists subject,
  vc_verify json_loads verify_signature lower on_curve from_jwk pyjwt_decode is_space is_decimal fromisoformat
    su token jwk expected_types JNull true (NInt clock) instant
  = Ok (Build_VerifiedCredential credential iss subject payload false).
Proof using All.
  destruct payload_reconciled as [subject Hrec]. exists subject. destruct Hsetup as [Hcodec Hkey Hpyjwt Hjwk Hlower].
  pose proof Hsigned as Hs. unfold vc_sign, jws_sign_compact in Hs. apply bind_Ok in Hs as (? & Hin%raise_if_Ok & Hs).
  apply negb_false_iff, bool_decide_eq_true in Hin. unfold sign_algs in Hin. apply list_elem_of_filter in Hin as [Hnk Hin].
  pose proof Hs as Hs'. unfold sign_compact in Hs'. apply bind_Ok in Hs' as (hb & Hhb & Hs'). apply bind_Ok in Hs' as (pb & Hpb & _).
  pose proof header_clean as [Hhok Hhd].
  pose proof (payload_json_ok now credential expires iss Hname Hok) as Hpok.
  pose proof (payload_depth now credential expires iss Hname Hdepth) as Hpd.
  destruct (Hcodec _ _ Hhok Hhd Hhb) as [Hhby Hhl]. destruct (Hcodec _ _ Hpok Hpd Hpb) as [Hpby Hpl].
  assert (Hsig : forall m sig, sign m = Ok sig -> bytes_ok sig) by (intros m sig H; by apply Hkey in H as [? _]).
  destruct (sign_compact_parts _ _ _ _ _ _ _ Hhb Hpb Hhby Hpby Hsig Hs) as (Hascii & _ & sig & Hsg & Hsb & Hsplit).
  destruct (sign_compact_decodes json_loads _ _ _ _ _ _ _ Hhb Hpb Hhby Hpby Hhl Hpl Hsig Hs) as (_ & si & sig' & Hsg' & Hparse).
  apply Hkey in Hsg' as [_ Hver'].
  assert (Hpeek : peek_claims json_loads token = Ok payload).
  { unfold peek_claims, vc_split. rewrite Hascii, Hsplit. cbn [negb raise_if mbind result_bind].
    rewrite b64url_decode_encode by done. cbn [mbind result_bind]. by rewrite Hpl. }
  unfold vc_verify. cbn [check_expected_audience is_none is_str negb andb raise_if mbind result_bind].
  unfold vc_split. rewrite Hascii, Hsplit. cbn [negb raise_if mbind result_bind].
  rewrite b64url_decode_encode by done. cbn [mbind result_bind]. rewrite Hhl. cbn [mbind result_bind catch_as].
  change (jget (vc_header alg kid) ($"alg")) with (JStr alg). cbn [allowed_alg]. rewrite bool_decide_eq_true_2 by done.
  change (reject_unknown_crit (vc_header alg kid)) with (Ok tt : result unit). cbn [mbind result_bind].
  rewrite header_typ by done. cbn [mbind result_bind]. rewrite Hpeek. cbn [mbind result_bind].
  unfold reject_sd_jwt_payload. rewrite carries_spec, (payload_unmarked now credential expires iss Hname Hunmarked).
  cbn [raise_if mbind result_bind]. rewrite payload_dates. cbn [mbind result_bind].
  assert (check_jwt_audience payload JNull true = Ok tt) as Haud.
  { unfold check_jwt_audience. by rewrite payload_aud. }
  match goal with |- (?lane ≫= _) = _ => assert (lane = Ok (payload, false)) as -> end.
  { case_bool_decide.
    - unfold verify_mldsa. rewrite Hsplit. unfold parse_compact in Hparse.
      rewrite encode_ascii_ok by (apply Forall_app; split; [|constructor; [lia|]]; by apply b64url_ascii).
      rewrite !b64url_decode_encode by done. cbn [mbind result_bind catch_as]. apply Hkey in Hsg as [_ ->].
      cbn [negb raise_if mbind result_bind catch_as]. rewrite Hpl. cbn [mbind result_bind catch_as].
      by rewrite payload_claims_accepted.
    - rewrite Hjwk. cbn [mbind result_bind]. unfold jwt_decode.
      rewrite (Hpyjwt token JNull (vc_header alg kid) payload si sig'); try done. apply payload_claims_accepted. }
  cbn [mbind result_bind]. rewrite Haud. cbn [mbind result_bind]. rewrite payload_vc, Hwindow. cbn [mbind result_bind].
  rewrite Hrec. cbn [mbind result_bind]. by rewrite Htypes.
Qed.
End issued.

(** A credential a VC-JWT can carry, signed at [now] by a suite whose verifier's clock says
    [clock]. *)
Record issuable (su : suite) (clock now : Z) (credential : jobject) (expires : option Z) (iss : pystr) : Prop := {
  is_named : well_named credential iss;
  is_json : json_ok (JDict credential);
  is_shallow : json_depth (JDict credential) < JSON_MAX_DEPTH;
  is_unmarked : has_marker (JDict credential) = false;
  is_now : exists l, leeway su = JInt l /\ 0 <= l <= MAX_LEEWAY_S /\ now <= clock + l /\
    match expires with None => True | Some n => clock < now + n + l end;
  is_dates : is_numeric_date (JInt now) = true /\
    match expires with None => True | Some n => is_numeric_date (JInt (now + n)) = true end;
}.

(** What a suite signs, a suite with the same allow-list verifies.  A credential whose
    issuer, id and subject are strings, which carries no SD-JWT marker at any depth and leaves
    the loader's depth limit one level for the envelope, is returned by [verify] member for
    member, under its own issuer and unexpired, on the ML-DSA lane and on PyJWT's alike, as long
    as its own validity window is open and the clocks agree within the leeway. *)
Theorem signed_vc_verifies json_loads verify_signature lower on_curve from_jwk pyjwt_decode is_space is_decimal fromisoformat
    json_bytes sign (su : suite) (alg kid : pystr) (jwk : json) (clock now : Z) (credential : jobject) (expires : option Z)
    (iss token : pystr) (instant : Z) (expected_types : list pystr)
    (Hsetup : issuing_setup json_loads verify_signature lower on_curve from_jwk pyjwt_decode json_bytes sign su alg jwk clock)
    (Hissuable : issuable su clock now credential expires iss)
    (Hwindow : check_validity_window is_space is_decimal fromisoformat credential [] instant (leeway su) true = Ok false)
    (Htypes : check_types credential expected_types = Ok tt)
    (Hsigned : vc_sign json_bytes sign su alg kid now credential expires = Ok token) :
  exists subject,
    vc_verify json_loads verify_signature lower on_curve from_jwk pyjwt_decode is_space is_decimal fromisoformat
      su token jwk expected_types JNull true (NInt clock) instant
    = Ok (Build_VerifiedCredential credential iss subject (vc_payload now credential expires) false).
Proof. destruct Hissuable as [? ? ? ? (l & ? & ? & ? & ?) [? ?]]. by eapply signed_verifies. Qed.

Definition issue_example : jobject :=
  [($"id", JStr ($"urn:1")); ($"issuer", JDict [($"id", JStr ($"did:x"))]); ($"type", JList [JStr ($"VerifiableCredential")])].
Definition issue_example_bytes (v : json) : result bytes :=
  if bool_decide (v = JDict (vc_header ($"ES256") ($"k"))) then Ok [1]
  else if bool_decide (v = JDict (vc_payload 100 issue_example (Some 60))) then Ok [2] else Err TypeError.
Definition issue_example_loads (raw : bytes) : result json :=
  if bool_decide (raw = [1]) then Ok (JDict (vc_header ($"ES256") ($"k")))
  else if bool_decide (raw = [2]) then Ok (JDict (vc_payload 100 issue_example (Some 60))) else Err ValueError.
Definition issue_example_decode (token : pystr) (_ : json) (_ : pystr) (_ _ : json) (_ : bool) : jwt_outcome :=
  match parse_compact issue_example_loads token with Ok (_, claims, _, _) => JwtClaims claims | Err _ => JwtInvalid end.

Lemma signed_vc_verifies_witness : exists subject,
    vc_verify issue_example_loads (fun _ _ _ _ => Ok true) (fun s => if bool_decide (s = $"JWT") then $"jwt" else s)
      (fun _ _ => true) (fun _ => true) issue_example_decode (fun _ => false) (fun _ => false) (fun _ => None)
      {| leeway := JInt 60; algs := ALLOWED_ALGS |} ($"AQ.Ag.AA") (JDict [($"kty", JStr ($"EC")); ($"crv", JStr ($"P-256"))])
      [$"VerifiableCredential"] JNull true (NInt 90) 0
    = Ok (Build_VerifiedCredential issue_example ($"did:x") subject (vc_payload 100 issue_example (Some 60)) false).
Proof.
  apply (signed_vc_verifies issue_example_loads (fun _ _ _ _ => Ok true) (fun s => if bool_decide (s = $"JWT") then $"jwt" else s)
      (fun _ _ => true) (fun _ => true) issue_example_decode (fun _ => false) (fun _ => false) (fun _ => None)
      issue_example_bytes (fun _ => Ok [0]) {| leeway := JInt 60; algs := ALLOWED_ALGS |} ($"ES256") ($"k")).
  - split.
    + intros v raw _ _. unfold issue_example_bytes. repeat case_bool_decide; intros [= <-]; subst;
        (split; [constructor; [split; lia|constructor]|vm_compute; reflexivity]).
    + intros m sig [= <-]. split; [|done]. constructor; [split; lia|constructor].
    + intros token audience header claims si sig Hp _ _ _ _. unfold issue_example_decode. by rewrite Hp.
    + vm_compute. reflexivity.
    + vm_compute. reflexivity.
  - split.
    + split; [right; by eexists|by right|done].
    + unfold issue_example. solve_json_ok.
    + by vm_compute.
    + vm_compute. reflexivity.
    + exists 60. split_and!; done || lia.
    + split; vm_compute; reflexivity.
  - vm_compute. reflexivity.
  - vm_compute. reflexivity.
  - vm_compute. reflexivity.
Defined.
