(* ===== verification/Schema.v ===== *)
(** [openvc.schema] (src/src/openvc/schema.py): subresource integrity and the validation of a
    credential against the JSON Schemas it declares.  The fetch, the inner verifier, the
    hashes and the [jsonschema] processor are parameters. *)
From S2P Require Import Prelude Errors PyStr Json Base64.

Definition SCHEMA_TYPE_JSON : pystr := $"JsonSchema".
Definition SCHEMA_TYPE_JSON_CREDENTIAL : pystr := $"JsonSchemaCredential".
Definition KNOWN_SCHEMA_TYPES : list pystr := [SCHEMA_TYPE_JSON; SCHEMA_TYPE_JSON_CREDENTIAL].
Definition SRI_HASHES : list pystr := [$"sha256"; $"sha384"; $"sha512"].

(** * Subresource integrity *)

(** [base64.b64decode(s)]: the standard alphabet, so [-] and [_] are skipped like any other
    character outside it. *)
Definition b64decode (s : pystr) : result bytes :=
  urlsafe_b64decode (filter (fun c => c <> 45 /\ c <> 95) s).

(** [max] of a non-empty list of algorithm names. *)
Definition max_name (x : pystr) (l : list pystr) : pystr :=
  foldl (fun a b => if lex_leb b a then a else b) x l.

Section sri.
Context (is_space : Z -> bool) (sri_hash : pystr -> bytes -> bytes).

Definition sri_option (token : pystr) : option (pystr * bytes) :=
  let '(alg, b64) := partition 45 token in
  if bool_decide (alg ∈ SRI_HASHES) && negb (bool_decide (b64 = [])) then
    match b64decode b64 with Ok digest => Some (alg, digest) | Err _ => None end
  else None.

Definition verify_sri (data : bytes) (integrity : pystr) : result unit :=
  match omap sri_option (split_ws is_space integrity) with
  | [] => Err SchemaResolutionError
  | (alg, digest) :: options =>
      let strongest := max_name alg options.*1 in
      raise_if (negb (existsb (fun o => bool_decide (o.1 = strongest) && bool_decide (sri_hash o.1 data = o.2))
                        ((alg, digest) :: options))) SchemaResolutionError
  end.
End sri.

(** * Parsing [credentialSchema] *)

Record CredentialSchemaRef := { ref_id : pystr; ref_type : pystr; digest_sri : option pystr }.
Record SchemaValidationResult := { validated : bool; schemas : list pystr }.

Definition as_entry_list (raw : json) : result (list jobject) :=
  match raw with
  | JNull => Ok []
  | JDict d => Ok [d]
  | JList l => mapR (fun e => match e with JDict d => Ok d | _ => Err SchemaResolutionError end) l
  | _ => Err SchemaResolutionError
  end.

Definition parse_schema_entry (raw : jobject) : result CredentialSchemaRef :=
  match jget raw ($"id") with
  | JStr [] => Err SchemaResolutionError
  | JStr sid =>
      types ← match jget raw ($"type") with
              | JStr t => Ok [t]
              | JList l => mapR (fun t => match t with JStr t => Ok t | _ => Err SchemaResolutionError end) l
              | _ => Err SchemaResolutionError
              end;
      let chosen := match filter (fun t => t ∈ KNOWN_SCHEMA_TYPES) types with
                    | t :: _ => t
                    | [] => hd [] types
                    end in
      raise_if (bool_decide (chosen = [])) SchemaResolutionError;;
      match jget raw ($"digestSRI") with
      | JNull => Ok {| ref_id := sid; ref_type := chosen; digest_sri := None |}
      | JStr sri => Ok {| ref_id := sid; ref_type := chosen; digest_sri := Some sri |}
      | _ => Err SchemaResolutionError
      end
  | _ => Err SchemaResolutionError
  end.

Definition parse_credential_schemas (credential : jobject) : result (list CredentialSchemaRef) :=
  entries ← as_entry_list (jget credential ($"credentialSchema"));
  mapR parse_schema_entry entries.

(** * Validation *)

Definition extract_json_schema (resource : jobject) : jobject :=
  match jget resource ($"jsonSchema") with JDict embedded => embedded | _ => resource end.

(** How the [jsonschema] processor ends: it is missing, or the schema is not one, raises while
    validating, holds an unresolvable [$ref], overruns the interpreter's stack, finds
    errors or none. *)
Inductive schema_outcome :=
  | BackendMissing | NotASchema | ValidationRaised | UnresolvableRef | TooDeep | SchemaErrors | Conforms.

Section validation.
Context (is_space : Z -> bool) (sri_hash : pystr -> bytes -> bytes) (json_loads : bytes -> result json).
Context (processor : jobject -> jobject -> schema_outcome).
(** The injected fetch: [None] when what it returns is not bytes. *)
Context (resolve_credential_schema : pystr -> result (option bytes)).
(** The injected verifier of the inner credential, if any. *)
Context (verify_inner : option (bytes -> result json)).

Definition validate_instance (instance schema : jobject) : result unit :=
  match processor schema instance with
  | BackendMissing => Err SchemaBackendUnavailable
  | outcome =>
      raise_if (negb (is_str (jget schema ($"$schema")))) SchemaResolutionError;;
      match outcome with
      | NotASchema | UnresolvableRef | TooDeep => Err SchemaResolutionError
      | ValidationRaised | SchemaErrors => Err SchemaValidationError
      | _ => Ok tt
      end
  end.

Definition require_known_schema_type (ref : CredentialSchemaRef) : result unit :=
  raise_if (negb (bool_decide (ref_type ref ∈ KNOWN_SCHEMA_TYPES))) UnsupportedSchemaType.

Definition prepare_schema_bytes (ref : CredentialSchemaRef) (raw : option bytes) : result bytes :=
  match raw with
  | None => Err SchemaResolutionError
  | Some data =>
      match digest_sri ref with
      | Some (c :: sri) => verify_sri is_space sri_hash data (c :: sri);; Ok data
      | _ => Ok data
      end
  end.

Definition parse_schema_resource (raw : bytes) : result jobject :=
  resource ← catch_as (fun e => isinstance e ValueError || isinstance e RecursionError)
               SchemaResolutionError (json_loads raw);
  match resource with JDict d => Ok d | _ => Err SchemaResolutionError end.

Definition has_json_schema (s : json) : bool :=
  match s with JDict d => is_dict (jget d ($"jsonSchema")) | _ => false end.

Definition json_schema_from_verified_credential (inner : json) : result jobject :=
  match inner with
  | JDict d =>
      let types := match jget d ($"type") with JStr t => [JStr t] | JList l => l | _ => [] end in
      raise_if (negb (existsb (fun t => eq_str t SCHEMA_TYPE_JSON_CREDENTIAL) types)) SchemaResolutionError;;
      let subject := match jget d ($"credentialSubject") with
                     | JList l => default JNull (head (filter (fun s => has_json_schema s = true) l))
                     | s => s
                     end in
      match subject with
      | JDict subject =>
          match jget subject ($"jsonSchema") with JDict schema => Ok schema | _ => Err SchemaResolutionError end
      | _ => Err SchemaResolutionError
      end
  | _ => Err SchemaResolutionError
  end.

Definition schema_from_credential (raw : bytes) : result jobject :=
  match verify_inner with
  | None => Err UnsupportedSchemaType
  | Some verify =>
      inner ← catch_as (fun e => isinstance e OpenvcError) SchemaResolutionError (verify raw);
      json_schema_from_verified_credential inner
  end.

Definition resolve_schema (ref : CredentialSchemaRef) : result jobject :=
  require_known_schema_type ref;;
  raw ← catch_as (fun e => isinstance e SchemaError || isinstance e DidError) SchemaResolutionError
          (resolve_credential_schema (ref_id ref));
  data ← prepare_schema_bytes ref raw;
  if bool_decide (ref_type ref = SCHEMA_TYPE_JSON_CREDENTIAL) then schema_from_credential data
  else resource ← parse_schema_resource data; Ok (extract_json_schema resource).

Definition validate_credential_schema (credential : jobject) : result SchemaValidationResult :=
  refs ← parse_credential_schemas credential;
  applied ← foldR (fun applied ref =>
                     schema ← resolve_schema ref;
                     validate_instance credential schema;;
                     Ok (applied ++ [ref_id ref])) [] refs;
  Ok {| validated := negb (bool_decide (applied = [])); schemas := applied |}.
End validation.

(** * The strongest digest decides *)

Lemma max_name_bound x l : lex_le x (max_name x l) /\ Forall (fun y => lex_le y (max_name x l)) l.
Proof.
  unfold max_name. revert x. induction l as [|y l IH]; intros x; cbn [foldl].
  { split; [by destruct (total lex_le x x)|constructor]. }
  destruct (lex_leb y x) eqn:E; destruct (IH (if lex_leb y x then x else y)) as [H1 H2]; rewrite E in H1, H2.
  - split; [done|]. constructor; [|done]. by transitivity x.
  - assert (lex_le x y) by (destruct (total lex_le x y) as [|Hc]; [done|]; unfold lex_le in Hc; congruence).
    split; [by transitivity y|]. by constructor.
Qed.

Lemma max_name_elem x l : max_name x l ∈ x :: l.
Proof.
  unfold max_name. revert x. induction l as [|y l IH]; intros x; cbn [foldl]; [left|].
  specialize (IH (if lex_leb y x then x else y)). destruct (lex_leb y x); set_solver.
Qed.

Section sri_spec.
Context (is_space : Z -> bool) (sri_hash : pystr -> bytes -> bytes).

(** The digests a metadata string offers. *)
Definition sri_options (integrity : pystr) : list (pystr * bytes) := omap sri_option (split_ws is_space integrity).

(** The data has one of the digests given under the strongest algorithm offered. *)
Definition sri_matches (data : bytes) (integrity : pystr) : Prop :=
  exists alg, (alg, sri_hash alg data) ∈ sri_options integrity /\
    forall o, o ∈ sri_options integrity -> lex_le o.1 alg.

Lemma verify_sri_spec data integrity :
  verify_sri is_space sri_hash data integrity = Ok tt <-> sri_matches data integrity.
Proof using.
  unfold verify_sri, sri_matches, sri_options. destruct (omap _ _) as [|[alg digest] options].
  { split; [done|]. intros (alg & []%not_elem_of_nil & _). }
  rewrite raise_if_Ok, negb_false_iff, existsb_exists.
  destruct (max_name_bound alg options.*1) as [H1 H2]. rewrite Forall_forall in H2.
  assert (Hb : forall o, o ∈ (alg, digest) :: options -> lex_le o.1 (max_name alg options.*1)).
  { intros o [->|Ho]%elem_of_cons; [done|]. apply H2. apply list_elem_of_fmap. by exists o. }
  split.
  - intros ([a d] & Hin%list_elem_of_In & [Ha%bool_decide_eq_true Hd%bool_decide_eq_true]%andb_true_iff).
    cbn in Ha, Hd. exists a. subst d. split; [done|]. by rewrite Ha.
  - intros (a & Hin & Hmax). exists (a, sri_hash a data). split; [by apply list_elem_of_In|].
    cbn [fst snd]. rewrite !bool_decide_eq_true_2; [done..|]. apply (anti_symm lex_le); [by apply (Hb _ Hin)|].
    pose proof (max_name_elem alg options.*1) as Hm.
    change (alg :: options.*1) with ((alg, digest) :: options).*1 in Hm.
    apply list_elem_of_fmap in Hm as (o & -> & Ho). by apply Hmax.
Qed.

Lemma verify_sri_errs data integrity : errs_in (eq SchemaResolutionError) (verify_sri is_space sri_hash data integrity).
Proof using. unfold verify_sri. solve_errs. Qed.
End sri_spec.

(** * What a validated credential satisfies *)

Section enforced.
Context (is_space : Z -> bool) (sri_hash : pystr -> bytes -> bytes) (json_loads : bytes -> result json)
  (processor : jobject -> jobject -> schema_outcome) (resolve_credential_schema : pystr -> result (option bytes))
  (verify_inner : option (bytes -> result json)).

(** One declared schema: fetched, pinned, authenticated where it is a credential, and met. *)
Record schema_met (credential : jobject) (ref : CredentialSchemaRef) (data : bytes) (schema : jobject) : Prop := {
  sm_type : ref_type ref ∈ KNOWN_SCHEMA_TYPES;
  sm_fetched : resolve_credential_schema (ref_id ref) = Ok (Some data);
  sm_pinned : forall sri, digest_sri ref = Some sri -> sri <> [] -> sri_matches is_space sri_hash data sri;
  sm_source : if decide (ref_type ref = SCHEMA_TYPE_JSON_CREDENTIAL)
    then exists verify inner, verify_inner = Some verify /\ verify data = Ok inner /\
      json_schema_from_verified_credential inner = Ok schema
    else exists d, json_loads data = Ok (JDict d) /\ schema = extract_json_schema d;
  sm_dialect : is_str (jget schema ($"$schema")) = true;
  sm_conforms : processor schema credential = Conforms }.

Lemma resolve_schema_Ok ref schema credential :
  resolve_schema is_space sri_hash json_loads resolve_credential_schema verify_inner ref = Ok schema ->
  validate_instance processor credential schema = Ok tt -> exists data, schema_met credential ref data schema.
Proof using.
  unfold resolve_schema. intros H Hv. apply bind_Ok in H as (? & Ht%raise_if_Ok & H).
  apply negb_false_iff, bool_decide_eq_true in Ht. apply bind_Ok in H as (raw & Hraw%catch_as_Ok & H).
  apply bind_Ok in H as (data & Hdata & H). exists data.
  assert (raw = Some data /\ forall sri, digest_sri ref = Some sri -> sri <> [] -> sri_matches is_space sri_hash data sri)
    as [-> Hpin].
  { unfold prepare_schema_bytes in Hdata. destruct raw as [d|]; [|done].
    destruct (digest_sri ref) as [[|c sri]|]; try (injection Hdata as ->; split; [done|congruence]).
    apply bind_Ok in Hdata as ([] & Hs%verify_sri_spec & [= ->]). split; [done|]. by intros ? [= <-] _. }
  assert (is_str (jget schema ($"$schema")) = true /\ processor schema credential = Conforms) as [Hd Hc].
  { unfold validate_instance in Hv. destruct (processor schema credential); try done; apply bind_Ok in Hv as (? & Hs%raise_if_Ok & Hv);
      try done. by apply negb_false_iff in Hs. }
  split; try done. case_decide as Hty; [rewrite bool_decide_eq_true_2 in H by done|rewrite bool_decide_eq_false_2 in H by done].
  - unfold schema_from_credential in H. destruct verify_inner as [verify|]; [|done].
    apply bind_Ok in H as (inner & Hin%catch_as_Ok & H). by exists verify, inner.
  - apply bind_Ok in H as (d & Hd' & [= <-]). unfold parse_schema_resource in Hd'.
    apply bind_Ok in Hd' as (v & Hl%catch_as_Ok & Hd'). destruct v; try done. injection Hd' as ->. by exists d.
Qed.
End enforced.

(** The guarantee of a validated credential. *)
Definition schemas_met is_space sri_hash json_loads processor resolve_credential_schema verify_inner
    (credential : jobject) (r : SchemaValidationResult) : Prop :=
  exists refs, parse_credential_schemas credential = Ok refs /\ schemas r = map ref_id refs /\
    (validated r = true <-> refs <> []) /\
    forall ref, ref ∈ refs -> exists data schema,
      schema_met is_space sri_hash json_loads processor resolve_credential_schema verify_inner credential ref data schema.

Lemma validate_credential_schema_Ok is_space sri_hash json_loads processor resolve_credential_schema verify_inner
    (credential : jobject) (r : SchemaValidationResult)
    (H : validate_credential_schema is_space sri_hash json_loads processor resolve_credential_schema verify_inner
           credential = Ok r) :
  schemas_met is_space sri_hash json_loads processor resolve_credential_schema verify_inner credential r.
Proof.
  unfold validate_credential_schema in H. apply bind_Ok in H as (refs & Hrefs & H).
  apply bind_Ok in H as (applied & Happ & [= <-]). exists refs. split; [done|]. cbn [schemas validated].
  cut (applied = [] ++ map ref_id refs /\ forall ref, ref ∈ refs -> exists data schema,
    schema_met is_space sri_hash json_loads processor resolve_credential_schema verify_inner credential ref data schema).
  { intros [-> Hm]. cbn [app]. split_and!; [done| |done]. rewrite negb_true_iff, bool_decide_eq_false.
    by destruct refs. }
  clear Hrefs. revert Happ.
  match goal with |- foldR ?F _ _ = _ -> _ => set (step := F) end. generalize (@nil pystr) as acc.
  induction refs as [|ref refs IH]; intros acc Happ; cbn [foldR] in Happ.
  { injection Happ as <-. rewrite app_nil_r. split; [done|]. by intros ref ?%not_elem_of_nil. }
  apply bind_Ok in Happ as (acc' & Hstep & Happ). unfold step in Hstep. apply bind_Ok in Hstep as (schema & Hs & Hstep).
  apply bind_Ok in Hstep as ([] & Hv & [= <-]). apply IH in Happ as [-> Hm]. cbn [map]. rewrite <-app_assoc. split; [done|].
  intros ref' [->|Hin]%elem_of_cons; [|by apply Hm].
  destruct (resolve_schema_Ok _ _ _ _ _ _ _ _ _ Hs Hv) as [data Hd]. by exists data, schema.
Qed.

(** Schema validation enforces every declared schema.  When it succeeds, each entry of
    [credentialSchema] named a supported type, its resource was fetched and matched the
    strongest digest its [digestSRI] pins, a schema credential was verified before its
    schema was trusted, and the credential conforms to each schema; the result lists all
    the schemas declared, in order. *)
Theorem credential_schemas_enforced is_space sri_hash json_loads processor resolve_credential_schema verify_inner
    (credential : jobject) (r : SchemaValidationResult)
    (H : validate_credential_schema is_space sri_hash json_loads processor resolve_credential_schema verify_inner
           credential = Ok r) :
  schemas_met is_space sri_hash json_loads processor resolve_credential_schema verify_inner credential r.
Proof. by apply validate_credential_schema_Ok. Qed.

Definition schema_doc : jobject := [($"$schema", JStr ($"d"))].
Definition pinned_credential : jobject :=
  [($"credentialSchema", JDict [($"id", JStr ($"u")); ($"type", JStr SCHEMA_TYPE_JSON); ($"digestSRI", JStr ($"md5-AA sha256-AQ=="))])].

Lemma credential_schemas_enforced_witness :
  exists refs, parse_credential_schemas pinned_credential = Ok refs /\ [$"u"] = map ref_id refs /\
    (true = true <-> refs <> []) /\
    forall ref, ref ∈ refs -> exists data schema,
      schema_met (fun c => c =? 32) (fun _ _ => [1]) (fun _ => Ok (JDict schema_doc)) (fun _ _ => Conforms)
        (fun _ => Ok (Some [7])) None pinned_credential ref data schema.
Proof.
  apply (credential_schemas_enforced (fun c => c =? 32) (fun _ _ => [1]) (fun _ => Ok (JDict schema_doc))
    (fun _ _ => Conforms) (fun _ => Ok (Some [7])) None pinned_credential {| validated := true; schemas := [$"u"] |}).
  vm_compute. reflexivity.
Defined.
