(* ===== verification/TypeMetadata.v ===== *)
(** [openvc.type_metadata] (src/src/openvc/type_metadata.py): the Type Metadata of an SD-JWT
    VC: the [extends] chain, the composition of its claims and the path engine. *)
From S2P Require Import Prelude Errors Json Schema.

Definition MAX_EXTENDS_DEPTH : Z := 10.
Definition MAX_SELECT_NODES : Z := 10000.

Record TypeMetadataResult := { tm_vct : pystr; documents : list jobject; tm_claims : list jobject }.

(** * Paths *)

Definition is_valid_component (component : json) : bool :=
  match component with JStr _ | JNull => true | JInt n => 0 <=? n | _ => false end.

Definition is_valid_path (path : json) : bool :=
  match path with JList (c :: l) => forallb is_valid_component (c :: l) | _ => false end.

(** What one node contributes for one component. *)
Definition select_node (component node : json) : result (list json) :=
  match component with
  | JStr key => match node with
                | JDict d => Ok (match dget d key with Some v => [v] | None => [] end)
                | _ => Err TypeMetadataClaimsInvalid
                end
  | JNull => match node with JList l => Ok l | _ => Err TypeMetadataClaimsInvalid end
  | JInt i => if 0 <=? i then
                match node with
                | JList l => Ok (match l !! Z.to_nat i with Some v => [v] | None => [] end)
                | _ => Err TypeMetadataClaimsInvalid
                end
              else Err TypeMetadataClaimsInvalid
  | _ => Err TypeMetadataClaimsInvalid
  end.

Definition select_step (nodes : list json) (component : json) : result (list json) :=
  selected ← foldR (fun selected node => new ← select_node component node; Ok (selected ++ new)) [] nodes;
  raise_if (MAX_SELECT_NODES <? len selected) TypeMetadataClaimsInvalid;;
  Ok selected.

Definition select (payload : jobject) (path : list json) : result (list json) :=
  foldR select_step [JDict payload] path.

(** * The extends chain *)

Section chain.
Context (is_space : Z -> bool) (sri_hash : pystr -> bytes -> bytes) (json_loads : bytes -> result json).
(** The caller's resolver: [None] when what it returns is not bytes. *)
Context (resolve : pystr -> result (option bytes)).

Definition fetch_document (vct : pystr) (integrity : json) : result jobject :=
  raw ← catch_as (fun e => isinstance e PyException) TypeMetadataResolutionError (resolve vct);
  match raw with
  | None => Err TypeMetadataResolutionError
  | Some raw =>
      match integrity with
      | JNull => Ok tt
      | JStr i => catch_as (fun e => isinstance e SchemaResolutionError) TypeMetadataResolutionError
                    (verify_sri is_space sri_hash raw i)
      | _ => Err TypeMetadataResolutionError
      end;;
      document ← catch_as (fun e => isinstance e ValueError || isinstance e RecursionError)
                   TypeMetadataResolutionError (json_loads raw);
      match document with
      | JDict d => raise_if (negb (eq_str (jget d ($"vct")) vct)) TypeMetadataMismatch;; Ok d
      | _ => Err TypeMetadataResolutionError
      end
  end.

Definition claim_list (document : jobject) : result (list jobject) :=
  match jget document ($"claims") with
  | JNull => Ok []
  | JList l =>
      claims ← mapR (fun c => match c with JDict d => Ok d | _ => Err TypeMetadataResolutionError end) l;
      raise_if (negb (forallb (fun c => is_valid_path (jget c ($"path"))) claims)) TypeMetadataResolutionError;;
      Ok claims
  | _ => Err TypeMetadataResolutionError
  end.

(** Paths that passed [is_valid_path] hold strings, nulls and integers, whose Python equality
    is equality. *)
Definition compose_claims (child parent : list jobject) : list jobject :=
  child ++ filter (fun p => jget p ($"path") ∉ map (fun c => jget c ($"path")) child) parent.

(** [room] is how many levels [max_depth] still allows. *)
Fixpoint resolve_chain (room : nat) (vct : pystr) (integrity : json) (seen : list pystr)
    : result (list jobject * list jobject) :=
  match room with
  | O => Err TypeMetadataResolutionError
  | S room =>
      raise_if (bool_decide (vct ∈ seen)) TypeMetadataResolutionError;;
      document ← fetch_document vct integrity;
      claims ← claim_list document;
      match jget document ($"extends") with
      | JNull => Ok ([document], claims)
      | JStr extends =>
          '(parent_docs, parent_claims) ←
            resolve_chain room extends (jget document ($"extends#integrity")) (seen ++ [vct]);
          Ok (document :: parent_docs, compose_claims claims parent_claims)
      | _ => Err TypeMetadataResolutionError
      end
  end.

Definition validate_claim (payload claim : jobject) : result unit :=
  match jget claim ($"path") with
  | JList (c :: path) =>
      selection ← select payload (c :: path);
      raise_if (match jget claim ($"mandatory") with JBool true => bool_decide (selection = []) | _ => false end)
        TypeMetadataClaimsInvalid
  | _ => Err TypeMetadataClaimsInvalid
  end.

Definition validate_claims (payload : jobject) (claims : list jobject) : result unit :=
  foldR (fun _ claim => validate_claim payload claim) tt claims.

Definition validate_type_metadata (payload : jobject) (vct : pystr) (vct_integrity : json)
    (max_extends_depth : Z) : result TypeMetadataResult :=
  '(docs, claims) ← resolve_chain (Z.to_nat max_extends_depth) vct vct_integrity [];
  validate_claims payload claims;;
  Ok {| tm_vct := vct; documents := docs; tm_claims := claims |}.
End chain.

(** * The path engine, by recursion on the path *)

(** Reference: the nodes a path reaches from a node, depth first. *)
Fixpoint reach (path : list json) (node : json) : list json :=
  match path with
  | [] => [node]
  | component :: path =>
      concat (map (reach path) (match select_node component node with Ok l => l | Err _ => [] end))
  end.

Lemma select_step_Ok nodes component out :
  select_step nodes component = Ok out ->
  out = concat (map (fun n => match select_node component n with Ok l => l | Err _ => [] end) nodes) /\
  len out <= MAX_SELECT_NODES.
Proof.
  unfold select_step. intros H. apply bind_Ok in H as (sel & H & Hl). apply bind_Ok in Hl as (? & Hl%raise_if_Ok & [= <-]).
  split; [|lia]. clear Hl.
  cut (forall acc, foldR (fun selected node => new ← select_node component node; Ok (selected ++ new)) acc nodes = Ok sel ->
    sel = acc ++ concat (map (fun n => match select_node component n with Ok l => l | Err _ => [] end) nodes)).
  { intros Hc. by apply (Hc []). }
  clear H. induction nodes as [|n nodes IH]; intros acc H; cbn [foldR] in H.
  { injection H as <-. by rewrite app_nil_r. }
  apply bind_Ok in H as (acc' & Hn & H). apply bind_Ok in Hn as (new & Hn & [= <-]). apply IH in H as ->.
  cbn [map concat]. by rewrite Hn, <-app_assoc.
Qed.

Lemma concat_map_concat {A B} (f : A -> list B) l : concat (map f (concat l)) = concat (map (fun x => concat (map f x)) l).
Proof. induction l as [|x l IH]; [done|]. cbn [concat map]. by rewrite map_app, concat_app, IH. Qed.

Lemma select_reach nodes path out : foldR select_step nodes path = Ok out -> out = concat (map (reach path) nodes).
Proof.
  revert nodes. induction path as [|c path IH]; intros nodes H; cbn [foldR] in H.
  { injection H as <-. induction nodes as [|n nodes IHn]; [done|]. cbn. by f_equal. }
  apply bind_Ok in H as (mid & Hs & H). apply IH in H as ->. apply select_step_Ok in Hs as [-> _].
  rewrite concat_map_concat, map_map. done.
Qed.

Lemma select_spec payload path out : select payload path = Ok out -> out = reach path (JDict payload).
Proof. intros H%select_reach. cbn [map concat] in H. by rewrite app_nil_r in H. Qed.

(** * Every failure is typed *)

Section errors.
Context (is_space : Z -> bool) (sri_hash : pystr -> bytes -> bytes) (json_loads : bytes -> result json)
  (resolve : pystr -> result (option bytes)).
Context (resolve_errs : forall url, errs_in (fun e => isinstance e PyException = true) (resolve url)).
Context (loads_errs : forall raw, errs_in (fun e => isinstance e ValueError = true) (json_loads raw)).

Definition typed (e : exn) : Prop := isinstance e TypeMetadataError = true.

Lemma typed_resolution : typed TypeMetadataResolutionError. Proof using. reflexivity. Qed.
Lemma typed_mismatch : typed TypeMetadataMismatch. Proof using. reflexivity. Qed.
Lemma typed_claims : typed TypeMetadataClaimsInvalid. Proof using. reflexivity. Qed.
#[local] Hint Resolve typed_resolution typed_mismatch typed_claims : py.

(** A handler that catches everything its body raises leaves only its own class. *)
Lemma catch_as_typed {A} caught e (m : result A) :
  errs_in (fun e' => caught e' = true) m -> typed e -> errs_in typed (catch_as caught e m).
Proof using.
  intros Hm He e' H. destruct m as [a|e0]; [done|]. cbn in H. rewrite (Hm e0 eq_refl) in H. by injection H as <-.
Qed.

Lemma fetch_document_errs vct integrity :
  errs_in typed (fetch_document is_space sri_hash json_loads resolve vct integrity).
Proof using resolve_errs loads_errs.
  unfold fetch_document. apply errs_in_bind; [by apply catch_as_typed; [apply resolve_errs|]|].
  intros [raw|] _; [|solve_errs]. apply errs_in_bind.
  { destruct integrity; solve_errs. apply catch_as_typed; [|done].
    eapply errs_in_impl; [|apply verify_sri_errs]. by intros ? <-. }
  intros _ _. apply errs_in_bind; [|intros; solve_errs]. apply catch_as_typed; [|done].
  eapply errs_in_impl; [|apply loads_errs]. cbn. intros ? ->. done.
Qed.

Lemma claim_list_errs document : errs_in typed (claim_list document).
Proof using. unfold claim_list. solve_errs. apply mapR_errs_in. intros [] _; solve_errs. Qed.

Lemma select_errs payload path : errs_in typed (select payload path).
Proof using.
  unfold select. apply foldR_errs_in. intros nodes c _. unfold select_step. apply errs_in_bind; [|intros; solve_errs].
  apply foldR_errs_in. intros out n _. unfold select_node. solve_errs.
Qed.

#[local] Hint Resolve fetch_document_errs claim_list_errs select_errs : py.

Lemma resolve_chain_errs room vct integrity seen :
  errs_in typed (resolve_chain is_space sri_hash json_loads resolve room vct integrity seen).
Proof using resolve_errs loads_errs.
  revert vct integrity seen. induction room as [|room IH]; intros; cbn [resolve_chain]; [solve_errs|].
  apply errs_in_bind; [solve_errs|]. intros _ _. apply errs_in_bind; [apply fetch_document_errs|]. intros d _.
  apply errs_in_bind; [apply claim_list_errs|]. intros c _. destruct (jget d _); solve_errs.
Qed.

Lemma validate_claims_errs payload claims : errs_in typed (validate_claims payload claims).
Proof using.
  apply foldR_errs_in. intros [] c _. unfold validate_claim.
  destruct (jget c ($"path")) as [| | | | |[|k p]| |]; try (apply errs_in_Err, typed_claims).
  apply errs_in_bind; [apply select_errs|]. intros. apply errs_in_raise_if, typed_claims.
Qed.
End errors.

(** * What a composed chain is *)

Section sound.
Context (is_space : Z -> bool) (sri_hash : pystr -> bytes -> bytes) (json_loads : bytes -> result json)
  (resolve : pystr -> result (option bytes)).

(** A document fetched for [vct] under the pin [integrity]. *)
Definition fetched (vct : pystr) (integrity : json) (document : jobject) : Prop :=
  jget document ($"vct") = JStr vct /\
  exists raw, resolve vct = Ok (Some raw) /\ json_loads raw = Ok (JDict document) /\
    (integrity = JNull \/ exists pin, integrity = JStr pin /\ sri_matches is_space sri_hash raw pin).

(** Each document is the one its subtype extends, and the last extends nothing. *)
Inductive chain : pystr -> json -> list jobject -> Prop :=
  | chain_root vct integrity d :
      fetched vct integrity d -> jget d ($"extends") = JNull -> chain vct integrity [d]
  | chain_extends vct integrity d parent ds :
      fetched vct integrity d -> jget d ($"extends") = JStr parent ->
      chain parent (jget d ($"extends#integrity")) ds -> chain vct integrity (d :: ds).

(** The claim metadata in force: the subtype's own, then what it inherits and does not
    override, the nearest definition of a path winning. *)
Fixpoint inherited (ds : list jobject) : list jobject :=
  match ds with
  | [] => []
  | d :: ds => match claim_list d with Ok own => compose_claims own (inherited ds) | Err _ => [] end
  end.

Lemma fetch_document_Ok vct integrity d :
  fetch_document is_space sri_hash json_loads resolve vct integrity = Ok d -> fetched vct integrity d.
Proof using.
  unfold fetch_document. intros H. apply bind_Ok in H as ([raw|] & Hr%catch_as_Ok & H); [|done].
  apply bind_Ok in H as ([] & Hi & H). apply bind_Ok in H as (doc & Hd%catch_as_Ok & H).
  destruct doc; try done. apply bind_Ok in H as (? & Hv%raise_if_Ok & [= ->]). split.
  - apply negb_false_iff in Hv. unfold eq_str in Hv. destruct (jget d _); try done. by apply bool_decide_eq_true in Hv as ->.
  - exists raw. split_and!; [done..|]. destruct integrity; try done; [by left|right].
    eexists. split; [done|]. apply catch_as_Ok in Hi. by apply verify_sri_spec.
Qed.

Lemma compose_paths child parent p :
  p ∈ map (fun c => jget c ($"path")) (compose_claims child parent) <->
  p ∈ map (fun c => jget c ($"path")) child \/ p ∈ map (fun c => jget c ($"path")) parent.
Proof using.
  clear. unfold compose_claims. rewrite map_app, elem_of_app. split; intros [H|H]; auto.
  - right. apply list_elem_of_fmap in H as (c & -> & [_ H]%list_elem_of_filter). apply list_elem_of_fmap. by exists c.
  - apply list_elem_of_fmap in H as (c & -> & H).
    destruct (decide (jget c ($"path") ∈ map (fun c => jget c ($"path")) child)) as [|Hn]; [by left|right].
    apply list_elem_of_fmap. exists c. split; [done|]. by apply list_elem_of_filter.
Qed.

Lemma resolve_chain_Ok room vct integrity seen ds claims :
  resolve_chain is_space sri_hash json_loads resolve room vct integrity seen = Ok (ds, claims) ->
  chain vct integrity ds /\ (length ds <= room)%nat /\ claims = inherited ds /\
  NoDup (map (fun d => jget d ($"vct")) ds) /\
  (forall s, s ∈ seen -> JStr s ∉ map (fun d => jget d ($"vct")) ds).
Proof using.
  revert vct integrity seen ds claims. induction room as [|room IH]; intros vct integrity seen ds claims H; [done|].
  cbn [resolve_chain] in H. apply bind_Ok in H as (? & Hs%raise_if_Ok & H). apply bool_decide_eq_false in Hs.
  apply bind_Ok in H as (d & Hd%fetch_document_Ok & H). apply bind_Ok in H as (own & Hown & H).
  pose proof (proj1 Hd) as Hv.
  destruct (jget d ($"extends")) as [| | | |parent| | |] eqn:Ee; try done.
  - injection H as <- <-. split_and!; [by constructor|cbn; lia| | |].
    + cbn [inherited]. rewrite Hown. unfold compose_claims. by rewrite filter_nil, app_nil_r.
    + apply NoDup_singleton.
    + intros s Hin. cbn [map]. rewrite Hv, list_elem_of_singleton. intros [= ->]. done.
  - apply bind_Ok in H as ([pds pclaims] & Hp & [= <- <-]). apply IH in Hp as (Hc & Hl & -> & Hnd & Hseen).
    split_and!; [by eapply chain_extends|cbn; lia| | |].
    + cbn [inherited]. by rewrite Hown.
    + cbn [map]. constructor; [|done]. rewrite Hv. apply Hseen. set_solver.
    + intros s Hin. cbn [map]. rewrite Hv, not_elem_of_cons. split; [intros [= ->]; done|].
      apply Hseen. set_solver.
Qed.

Lemma validate_claims_Ok payload claims :
  validate_claims payload claims = Ok tt -> forall c, c ∈ claims -> exists path,
    jget c ($"path") = JList path /\ path <> [] /\ select payload path = Ok (reach path (JDict payload)) /\
    (jget c ($"mandatory") = JBool true -> reach path (JDict payload) <> []).
Proof using.
  unfold validate_claims. induction claims as [|c claims IH]; cbn [foldR]; intros H; [by intros c ?%not_elem_of_nil|].
  apply bind_Ok in H as ([] & Hc & H). intros c' [->|Hin]%elem_of_cons; [|by apply IH].
  unfold validate_claim in Hc. destruct (jget c ($"path")) as [| | | | |[|k path]| |]; try done.
  apply bind_Ok in Hc as (sel & Hsel & Hm%raise_if_Ok). apply select_spec in Hsel as Heq. subst sel.
  exists (k :: path). split_and!; [done..|]. intros Hmand. rewrite Hmand in Hm. by apply bool_decide_eq_false in Hm.
Qed.
End sound.

(** What validated Type Metadata guarantees.  When validation succeeds: the documents are
    the [extends] chain of the credential's [vct], each fetched for the type it describes
    and matching its integrity pin, without a repeated type and no longer than the bound;
    the claims are each document's own plus those it inherits and does not override; and
    every claim path applies to the payload, a mandatory one reaching a node. *)
Theorem type_metadata_sound is_space sri_hash json_loads resolve (payload : jobject) (vct : pystr)
    (vct_integrity : json) (max_extends_depth : Z) (r : TypeMetadataResult)
    (H : validate_type_metadata is_space sri_hash json_loads resolve payload vct vct_integrity max_extends_depth = Ok r) :
  chain is_space sri_hash json_loads resolve vct vct_integrity (documents r) /\
  len (documents r) <= max_extends_depth /\
  NoDup (map (fun d => jget d ($"vct")) (documents r)) /\
  tm_claims r = inherited (documents r) /\
  forall c, c ∈ tm_claims r -> exists path,
    jget c ($"path") = JList path /\ path <> [] /\ select payload path = Ok (reach path (JDict payload)) /\
    (jget c ($"mandatory") = JBool true -> reach path (JDict payload) <> []).
Proof.
  unfold validate_type_metadata in H. apply bind_Ok in H as ([ds claims] & Hc & H).
  apply bind_Ok in H as ([] & Hv & [= <-]). apply resolve_chain_Ok in Hc as (Hc & Hl & -> & Hnd & _).
  cbn [documents tm_claims]. split_and!; try done.
  - unfold len. destruct ds; [by inversion Hc|]. cbn [length] in *. lia.
  - by apply validate_claims_Ok.
Qed.

Definition base_type : jobject :=
  [($"vct", JStr ($"base")); ($"claims", JList [JDict [($"path", JList [JStr ($"name")]); ($"mandatory", JBool true)]])].
Definition sub_type : jobject := [($"vct", JStr ($"sub")); ($"extends", JStr ($"base"))].

Lemma type_metadata_sound_witness :
  let resolve := fun url => Ok (Some url) in
  let loads := fun raw => if bool_decide (raw = $"sub") then Ok (JDict sub_type) else Ok (JDict base_type) in
  chain (fun _ => false) (fun _ _ => []) loads resolve ($"sub") JNull [sub_type; base_type] /\
  len [sub_type; base_type] <= 10 /\
  NoDup (map (fun d => jget d ($"vct")) [sub_type; base_type]) /\
  [ [($"path", JList [JStr ($"name")]); ($"mandatory", JBool true)] ] = inherited [sub_type; base_type] /\
  forall c, c ∈ [ [($"path", JList [JStr ($"name")]); ($"mandatory", JBool true)] ] -> exists path,
    jget c ($"path") = JList path /\ path <> [] /\
    select [($"name", JStr ($"A"))] path = Ok (reach path (JDict [($"name", JStr ($"A"))])) /\
    (jget c ($"mandatory") = JBool true -> reach path (JDict [($"name", JStr ($"A"))]) <> []).
Proof.
  cbv zeta.
  apply (type_metadata_sound (fun _ => false) (fun _ _ => [])
    (fun raw => if bool_decide (raw = $"sub") then Ok (JDict sub_type) else Ok (JDict base_type)) (fun url => Ok (Some url))
    [($"name", JStr ($"A"))] ($"sub") JNull 10
    {| tm_vct := $"sub"; documents := [sub_type; base_type];
       tm_claims := [ [($"path", JList [JStr ($"name")]); ($"mandatory", JBool true)] ] |}).
  vm_compute. reflexivity.
Defined.

(** Type metadata processing fails closed.  Whatever the resolver and the JSON parser
    raise and whatever they return, validation ends, and the only errors it lets out are
    TypeMetadataError and its subclasses. *)
Theorem type_metadata_errors is_space sri_hash json_loads resolve (payload : jobject) (vct : pystr)
    (vct_integrity : json) (max_extends_depth : Z)
    (Hresolve : forall url, errs_in (fun e => isinstance e PyException = true) (resolve url))
    (Hloads : forall raw, errs_in (fun e => isinstance e ValueError = true) (json_loads raw)) :
  errs_in (fun e => isinstance e TypeMetadataError = true)
    (validate_type_metadata is_space sri_hash json_loads resolve payload vct vct_integrity max_extends_depth).
Proof.
  unfold validate_type_metadata. apply errs_in_bind; [by apply resolve_chain_errs|].
  intros [ds claims] _. apply errs_in_bind; [by apply validate_claims_errs|]. intros. apply errs_in_Ok.
Qed.

Lemma type_metadata_errors_witness :
  validate_type_metadata (fun _ => false) (fun _ _ => []) (fun _ => Ok (JDict [($"vct", JStr ($"t")); ($"extends", JStr ($"t"))]))
    (fun url => Ok (Some url)) [] ($"t") JNull 10 = Err TypeMetadataResolutionError /\
  errs_in (fun e => isinstance e TypeMetadataError = true)
    (validate_type_metadata (fun _ => false) (fun _ _ => []) (fun _ => Err JSONDecodeError)
      (fun url => Err OSError) [] ($"t") JNull 10).
Proof.
  split; [vm_compute; reflexivity|].
  apply (type_metadata_errors (fun _ => false) (fun _ _ => []) (fun _ => Err JSONDecodeError) (fun url => Err OSError)).
  - intros url e [= <-]. reflexivity.
  - intros raw e [= <-]. reflexivity.
Defined.
