(* ===== verification/Did.v ===== *)
(** [openvc.did] (src/src/openvc/did/base.py, did_key.py, did_jwk.py, did_web.py) and the key
    lookup of the proof suites, [resolve_verification_key]
    (src/src/openvc/proof/_verify_common.py): the DID document model, the lookups by key id
    and by purpose, the document parser, the registry and the did:key, did:jwk and did:web
    resolvers. *)
From S2P Require Import Prelude Errors PyStr Json Multibase Base64.

(** * The model of a document *)

Record VerificationMethod := {
  vm_id : pystr; vm_type : pystr; controller : pystr; public_key_jwk : jobject }.

Record DidDocument := {
  doc_id : pystr;
  verification_methods : list VerificationMethod;
  raw : jobject;
  relationships : list (pystr * list pystr) }.

Definition RELATIONSHIP_KEYS : list pystr :=
  [$"assertionMethod"; $"authentication"; $"keyAgreement"; $"capabilityInvocation"; $"capabilityDelegation"].

(** [s.split("#", 1)[-1]] and [s.split("#", 1)[0]]. *)
Definition fragment (s : pystr) : pystr := if bool_decide (35 ∈ s) then (partition 35 s).2 else s.
Definition before_fragment (s : pystr) : pystr := (partition 35 s).1.

Definition kid (vm : VerificationMethod) : pystr := fragment (vm_id vm).

Definition key_by_kid (doc : DidDocument) (k : json) : option VerificationMethod :=
  match k with
  | JNull => match verification_methods doc with [vm] => Some vm | _ => None end
  | JStr k => List.find (fun vm => bool_decide (vm_id vm = k) || bool_decide (kid vm = fragment k))
                (verification_methods doc)
  | _ => None
  end.

(** ** [_DID_SYNTAX.fullmatch] *)

Definition between (a b c : Z) : bool := (a <=? c) && (c <=? b).
Definition is_digit (c : Z) : bool := between 48 57 c.
Definition is_lower (c : Z) : bool := between 97 122 c.
Definition is_upper (c : Z) : bool := between 65 90 c.
Definition is_alnum (c : Z) : bool := is_lower c || is_upper c || is_digit c.
Definition is_hex (c : Z) : bool := is_digit c || between 65 70 c || between 97 102 c.

(** [(?:[A-Za-z0-9._-]|%[0-9A-Fa-f]{2})*] *)
Fixpoint idchars (s : pystr) : bool :=
  match s with
  | [] => true
  | c :: s' =>
      if c =? 37 then match s' with a :: b :: r => is_hex a && is_hex b && idchars r | _ => false end
      else (is_alnum c || (c =? 46) || (c =? 95) || (c =? 45)) && idchars s'
  end.

Definition DID_SYNTAX (s : pystr) : bool :=
  match split_on 58 s with
  | d :: m :: seg :: segs =>
      bool_decide (d = $"did") && negb (bool_decide (m = [])) && forallb (fun c => is_lower c || is_digit c) m
      && forallb idchars (seg :: segs) && negb (bool_decide (List.last (seg :: segs) [] = []))
  | _ => false
  end.

Example did_syntax_ex :
  DID_SYNTAX ($"did:web:example.edu%3A3000:issuers") = true /\ DID_SYNTAX ($"did:key:") = false /\
  DID_SYNTAX ($"did:ex:a#b") = false /\ DID_SYNTAX ($"did:Ex:a") = false /\ DID_SYNTAX ($"did:ex:a%4") = false /\
  DID_SYNTAX ($"did:ex::a") = true /\ DID_SYNTAX ($"did:ex:a:") = false.
Proof. vm_compute. done. Qed.

Definition base (doc : DidDocument) : option pystr :=
  if DID_SYNTAX (doc_id doc) then Some (doc_id doc) else None.

Definition absolute (url : pystr) (b : option pystr) : option pystr :=
  if startswith url ($"did:") then Some url
  else match b with
       | Some b => if startswith url ($"#") then Some (b ++ url) else None
       | None => None
       end.

Definition spellings (a : option pystr) (b : option pystr) : list pystr :=
  match a with
  | Some a =>
      if startswith a ($"did:") then
        match b with
        | Some b => if startswith a b && startswith (drop (length b) a) ($"#")
                    then [a; drop (length b) a] else [a]
        | None => [a]
        end
      else []
  | None => []
  end.

Definition methods_with_id (doc : DidDocument) (id : option pystr) (b : option pystr) : list VerificationMethod :=
  filter (fun vm => vm_id vm ∈ spellings id b) (verification_methods doc).

Definition key_for_purpose (doc : DidDocument) (k proof_purpose : json) : option VerificationMethod :=
  match proof_purpose with
  | JStr purpose =>
      let b := base doc in
      vm ← (if is_none k then key_by_kid doc JNull
            else match methods_with_id doc (as_str k) b with [vm] => Some vm | _ => None end);
      match dget (relationships doc) purpose with
      | None => Some vm
      | Some refs =>
          if existsb (fun ref => bool_decide (ref ∈ spellings (absolute (vm_id vm) b) b)) refs
          then Some vm else None
      end
  | _ => None
  end.

(** * Parsing a document *)

Definition array (value : json) : result (list json) :=
  match value with JList l => Ok l | _ => Err DidResolutionError end.

Definition ref_of (item : json) : option pystr :=
  match item with
  | JStr s => Some s
  | JDict d => as_str (jget d ($"id"))
  | _ => None
  end.

Definition relationship_refs (doc : jobject) (key : pystr) : result (list pystr) :=
  l ← array (default (JList []) (dget doc key)); Ok (omap (M:=list) ref_of l).

Definition text (value : json) : pystr := default [] (as_str value).

(** [n.to_bytes(size, "big")]. *)
Definition int_to_bytes (size : nat) (n : Z) : result bytes :=
  if (0 <=? n) && (n <? 256 ^ Z.of_nat size) then Ok (to_bytes_be size n) else Err OverflowError.

Definition okp_jwk (key : bytes) : jobject :=
  [($"kty", JStr ($"OKP")); ($"crv", JStr ($"Ed25519")); ($"x", JStr (b64url_encode key))].
Definition ec_jwk (crv : pystr) (x y : bytes) : jobject :=
  [($"kty", JStr ($"EC")); ($"crv", JStr crv); ($"x", JStr (b64url_encode x)); ($"y", JStr (b64url_encode y))].

Section documents.
(** [EllipticCurvePublicKey.from_encoded_point] on a named curve: the affine coordinates, when
    the octets are a point of it. *)
Context (decode_point : pystr -> bytes -> option (Z * Z)).

Definition point_jwk (crv : pystr) (size : nat) (key : bytes) : result jobject :=
  match decode_point crv key with
  | None => Err ValueError
  | Some (x, y) => bx ← int_to_bytes size x; by_ ← int_to_bytes size y; Ok (ec_jwk crv bx by_)
  end.

Definition multikey_to_jwk (multibase_key : pystr) : result jobject :=
  data ← decode_multibase multibase_key;
  '(code, off) ← read_varint data;
  let key := drop (Z.to_nat off) data in
  if code =? 237 then raise_if (negb (len key =? 32)) ValueError;; Ok (okp_jwk key)
  else if code =? 4608 then point_jwk ($"P-256") 32 key
  else if code =? 4609 then point_jwk ($"P-384") 48 key
  else Err ValueError.

Definition vm_public_jwk (vm : jobject) : result (option jobject) :=
  match dget vm ($"publicKeyJwk") with
  | Some (JDict jwk) => Ok (Some jwk)
  | _ =>
      match dget vm ($"publicKeyMultibase") with
      | Some (JStr mb) =>
          match multikey_to_jwk mb with
          | Ok jwk => Ok (Some jwk)
          | Err e => if isinstance e MultibaseError || isinstance e ValueError || isinstance e TypeError
                     then Ok None else Err e
          end
      | _ => Ok None
      end
  end.

Definition parse_method (doc_id : pystr) (item : json) : result (option VerificationMethod) :=
  match item with
  | JDict vm =>
      match dget vm ($"id") with
      | Some (JStr id) =>
          jwk ← vm_public_jwk vm;
          Ok (option_map (fun jwk => {| vm_id := id; vm_type := text (jget vm ($"type"));
                             controller := match dget vm ($"controller") with
                                           | Some c => text c | None => doc_id end;
                             public_key_jwk := jwk |}) jwk)
      | _ => Ok None
      end
  | _ => Ok None
  end.

Definition parse_did_document (raw : json) : result DidDocument :=
  match raw with
  | JDict r =>
      raise_if (nesting_exceeds raw JSON_MAX_DEPTH) DidResolutionError;;
      match default raw (dget r ($"didDocument")) with
      | JDict doc =>
          let id := text (jget doc ($"id")) in
          items ← array (default (JList []) (dget doc ($"verificationMethod")));
          vms ← mapR (parse_method id) items;
          rels ← mapR (fun key => refs ← relationship_refs doc key; Ok (key, refs))
                   (filter (fun key => is_Some (dget doc key)) RELATIONSHIP_KEYS);
          Ok {| doc_id := id; verification_methods := omap (M:=list) Datatypes.id vms; raw := doc; relationships := rels |}
      | _ => Err DidResolutionError
      end
  | _ => Err DidResolutionError
  end.
End documents.

(** * Resolvers *)

(** A resolver of the caller; the registry itself has no [supports]. *)
Record DidResolver := { supports : option (pystr -> bool); resolve : pystr -> result DidDocument }.

Definition supported (r : DidResolver) (did : pystr) : bool :=
  match supports r with Some s => s did | None => true end.

Definition register (resolvers : list DidResolver) (r : DidResolver) : list DidResolver := resolvers ++ [r].

Definition registry_resolve (resolvers : list DidResolver) (did : pystr) : result DidDocument :=
  match List.find (fun r => supported r did) resolvers with
  | Some r => resolve r did
  | None => Err UnsupportedDidMethod
  end.

Definition DidResolverRegistry (resolvers : list DidResolver) : DidResolver :=
  {| supports := None; resolve := registry_resolve resolvers |}.

(** The document of a self-contained method: one key under the listed relationships. *)
Definition single_key_document (did vm_id : pystr) (jwk : jobject) (rels : list pystr) : DidDocument :=
  {| doc_id := did;
     verification_methods :=
       [{| vm_id := vm_id; vm_type := $"JsonWebKey2020"; controller := did; public_key_jwk := jwk |}];
     raw := [($"@context", JList [JStr ($"https://www.w3.org/ns/did/v1")]); ($"id", JStr did);
             ($"verificationMethod",
               JList [JDict [($"id", JStr vm_id); ($"type", JStr ($"JsonWebKey2020"));
                             ($"controller", JStr did); ($"publicKeyJwk", JDict jwk)]])]
            ++ map (fun rel => (rel, JList [JStr vm_id])) rels;
     relationships := map (fun rel => (rel, [vm_id])) rels |}.

(** ** did:key *)

Fixpoint key_b58_accumulate (num : Z) (s : pystr) : result Z :=
  match s with
  | [] => Ok num
  | ch :: s => match B58_INDEX ch with
               | Some i => key_b58_accumulate (num * 58 + i) s
               | None => Err DidResolutionError
               end
  end.

Definition key_b58decode (s : pystr) : result bytes :=
  num ← key_b58_accumulate 0 s;
  let body := if num =? 0 then [] else to_bytes_be (Z.to_nat ((bit_length num + 7) / 8)) num in
  Ok (replicate (count_leading 49 s) 0 ++ body).

Fixpoint key_read_varint_from (i result_ shift : Z) (data : bytes) : result (Z * Z) :=
  match data with
  | [] => Err DidResolutionError
  | byte :: data =>
      let result_ := Z.lor result_ (Z.shiftl (Z.land byte 127) shift) in
      if Z.land byte 128 =? 0 then Ok (result_, i + 1)
      else key_read_varint_from (i + 1) result_ (shift + 7) data
  end.
Definition key_read_varint (data : bytes) : result (Z * Z) := key_read_varint_from 0 0 0 data.

Section did_key.
Context (decode_point : pystr -> bytes -> option (Z * Z)).

Definition key_point_jwk (crv : pystr) (size : nat) (key : bytes) : result jobject :=
  match decode_point crv key with
  | None => Err DidResolutionError
  | Some (x, y) => bx ← int_to_bytes size x; by_ ← int_to_bytes size y; Ok (ec_jwk crv bx by_)
  end.

Definition did_key_resolve (did : pystr) : result DidDocument :=
  let multibase := drop 8 did in
  raise_if (negb (startswith multibase ($"z"))) DidResolutionError;;
  data ← key_b58decode (drop 1 multibase);
  '(code, offset) ← key_read_varint data;
  let key_bytes := drop (Z.to_nat offset) data in
  jwk ← (if code =? 237 then Ok (okp_jwk key_bytes)
         else if code =? 4608 then key_point_jwk ($"P-256") 32 key_bytes
         else if code =? 4609 then key_point_jwk ($"P-384") 48 key_bytes
         else Err DidResolutionError);
  Ok (single_key_document did (did ++ $"#" ++ multibase) jwk [$"authentication"; $"assertionMethod"]).

Definition DidKeyResolver : DidResolver :=
  {| supports := Some (fun did => startswith did ($"did:key:z")); resolve := did_key_resolve |}.
End did_key.

(** ** did:jwk *)

Definition JWK_RELATIONSHIPS : list pystr :=
  [$"assertionMethod"; $"authentication"; $"capabilityInvocation"; $"capabilityDelegation"].

Section did_jwk.
(** [_json.loads] on bytes. *)
Context (json_loads : bytes -> result json).

Definition did_jwk_resolve (did : pystr) : result DidDocument :=
  let encoded := drop 8 did in
  raise_if (bool_decide (encoded = [])) DidResolutionError;;
  jwk ← catch_as (fun e => isinstance e ValueError || isinstance e RecursionError) DidResolutionError
          (data ← b64url_decode encoded; json_loads data);
  match jwk with
  | JDict jwk =>
      raise_if (negb (dmem jwk ($"kty"))) DidResolutionError;;
      raise_if (dmem jwk ($"d")) DidResolutionError;;
      Ok (single_key_document did (did ++ $"#0") jwk JWK_RELATIONSHIPS)
  | _ => Err DidResolutionError
  end.

Definition DidJwkResolver : DidResolver :=
  {| supports := Some (fun did => startswith did ($"did:jwk:")); resolve := did_jwk_resolve |}.
End did_jwk.

(** ** did:web *)

(** [_LABEL.fullmatch], [_PORT.fullmatch] and [_NUMERIC_LABEL.fullmatch]. *)
Definition LABEL (s : pystr) : bool :=
  match s, reverse s with
  | a :: _, z :: _ => is_alnum a && is_alnum z && (len s <=? 63) && forallb (fun c => is_alnum c || (c =? 45)) s
  | _, _ => false
  end.
Definition PORT (s : pystr) : bool := (1 <=? len s) && (len s <=? 5) && forallb is_digit s.
Definition NUMERIC_LABEL (s : pystr) : bool :=
  match s with
  | [] => false
  | a :: r => forallb is_digit s
              || (a =? 48) && match r with x :: h => ((x =? 120) || (x =? 88)) && forallb is_hex h | [] => false end
  end.

(** [int(s)] of decimal digits. *)
Definition decimal_int (s : pystr) : Z := foldl (fun n c => n * 10 + (c - 48)) 0 s.

(** [s.rpartition(c)], without the separator, of an [s] that has it. *)
Definition rpartition (c : Z) (s : pystr) : pystr * pystr :=
  let '(b, a) := partition c (reverse s) in (reverse a, reverse b).

Definition check_host (host : pystr) : result unit :=
  let '(name, port) := if bool_decide (58 ∈ host) then let '(n, p) := rpartition 58 host in (n, Some p)
                       else (host, None) in
  raise_if (match port with
            | Some p => negb (PORT p && (0 <? decimal_int p) && (decimal_int p <=? 65535))
            | None => false
            end) DidResolutionError;;
  raise_if (253 <? len name) DidResolutionError;;
  raise_if (negb (isascii name)) DidResolutionError;;
  let labels := split_on 46 name in
  raise_if (negb (forallb LABEL labels)) DidResolutionError;;
  raise_if (NUMERIC_LABEL (List.last labels [])) DidResolutionError.

(** [sep.join(parts)]. *)
Fixpoint join (sep : pystr) (parts : list pystr) : pystr :=
  match parts with
  | [] => []
  | [p] => p
  | p :: ps => p ++ sep ++ join sep ps
  end.

Section did_web.
(** [urllib.parse.unquote], the caller's HTTPS fetch. *)
Context (unquote : pystr -> pystr) (fetch : pystr -> result json).
Context (decode_point : pystr -> bytes -> option (Z * Z)).

Definition did_web_url (did : pystr) : result pystr :=
  let msi := drop 8 did in
  raise_if (bool_decide (msi = [])) DidResolutionError;;
  let parts := split_on 58 msi in
  let host := unquote (hd [] parts) in
  check_host host;;
  match map unquote (tl parts) with
  | [] => Ok ($"https://" ++ host ++ $"/.well-known/did.json")
  | segments => Ok ($"https://" ++ host ++ $"/" ++ join ($"/") segments ++ $"/did.json")
  end.

Definition validated_document (raw : json) (did : pystr) : result DidDocument :=
  doc ← parse_did_document decode_point raw;
  raise_if (negb (bool_decide (doc_id doc = did))) DidResolutionError;;
  Ok doc.

Definition did_web_resolve (did : pystr) : result DidDocument :=
  url ← did_web_url did;
  raw ← fetch url;
  validated_document raw did.

Definition DidWebResolver : DidResolver :=
  {| supports := Some (fun did => startswith did ($"did:web:")); resolve := did_web_resolve |}.
End did_web.

(** * The key a proof names *)

Section lookup.
Context (decode_point : pystr -> bytes -> option (Z * Z)).

(** The document of the DID part of a verification method. *)
Definition resolve_document (resolver : option DidResolver) (did : pystr) : result DidDocument :=
  doc ← match resolver with
        | Some r =>
            if supported r did then
              match resolve r did with
              | Ok doc => Ok (Some doc)
              | Err e => if isinstance e UnsupportedDidMethod then Ok None
                         else if isinstance e DidResolutionError then Err KeyResolutionError else Err e
              end
            else Ok None
        | None => Ok None
        end;
  match doc with
  | Some doc => Ok doc
  | None =>
      raise_if (negb (startswith did ($"did:key:"))) KeyResolutionError;;
      catch_as (fun e => isinstance e DidResolutionError) KeyResolutionError (did_key_resolve decode_point did)
  end.

Definition purpose_or_default (proof_purpose : json) : pystr :=
  match proof_purpose with JStr (c :: p) => c :: p | _ => $"assertionMethod" end.

Definition resolve_verification_key (verification_method proof_purpose : json) (resolver : option DidResolver)
    : result jobject :=
  match verification_method with
  | JStr ((_ :: _) as v) =>
      raise_if (negb (is_none proof_purpose || is_str proof_purpose)) ProofMalformed;;
      doc ← resolve_document resolver (before_fragment v);
      match key_for_purpose doc (JStr v) (JStr (purpose_or_default proof_purpose)) with
      | Some vm => Ok (public_key_jwk vm)
      | None =>
          match methods_with_id doc (Some v) (base doc) with
          | [_] => Err ProofPurposeMismatch
          | _ => Err KeyResolutionError
          end
      end
  | _ => Err KeyResolutionError
  end.
End lookup.

(** * Comparing spellings is resolving references *)

Lemma DID_SYNTAX_did s : DID_SYNTAX s = true -> startswith s ($"did:") = true.
Proof.
  unfold DID_SYNTAX. intros H. destruct (split_on 58 s) as [|d [|m [|seg segs]]] eqn:E; try done.
  repeat (apply andb_true_iff in H as [H ?]). apply bool_decide_eq_true in H as ->.
  apply startswith_spec. clear -E.
  destruct s as [|c0 s]; [done|]. cbn [split_on] in E.
  destruct (Z.eqb_spec c0 58) as [->|]; [by injection E|].
  destruct (split_on 58 s) as [|w0 ws0] eqn:E0; [by injection E|]. injection E as -> -> ->.
  destruct s as [|c1 s]; [done|]. cbn [split_on] in E0.
  destruct (Z.eqb_spec c1 58) as [->|]; [by injection E0|].
  destruct (split_on 58 s) as [|w1 ws1] eqn:E1; [by injection E0|]. injection E0 as -> -> ->.
  destruct s as [|c2 s]; [done|]. cbn [split_on] in E1.
  destruct (Z.eqb_spec c2 58) as [->|]; [by injection E1|].
  destruct (split_on 58 s) as [|w2 ws2] eqn:E2; [by injection E1|]. injection E1 as -> -> ->.
  destruct s as [|c3 s]; [done|]. cbn [split_on] in E2.
  destruct (Z.eqb_spec c3 58) as [->|]; [by exists s|].
  destruct (split_on 58 s); by injection E2.
Qed.

Lemma base_did doc b : base doc = Some b -> startswith b ($"did:") = true.
Proof. unfold base. destruct (DID_SYNTAX (doc_id doc)) eqn:E; [|done]. intros [= <-]. by apply DID_SYNTAX_did. Qed.

(** The strings equal to a spelling of [a] are those that resolve to [a]. *)
Lemma spellings_absolute a b r :
  (forall b', b = Some b' -> startswith b' ($"did:") = true) ->
  r ∈ spellings (Some a) b <-> absolute r b = Some a.
Proof.
  intros Hb. unfold spellings, absolute.
  destruct (startswith r ($"did:")) eqn:Er.
  - split.
    + intros H. destruct (startswith a ($"did:")); [|by apply elem_of_nil in H].
      destruct b as [b|]; [|by apply list_elem_of_singleton in H as ->].
      destruct (startswith a b && startswith (drop (length b) a) ($"#")) eqn:Ef;
        [|by apply list_elem_of_singleton in H as ->].
      apply andb_true_iff in Ef as [_ Ef]. apply elem_of_cons in H as [->|H]; [done|].
      apply list_elem_of_singleton in H as ->. apply startswith_spec in Ef as [x Ex], Er as [y Ey].
      by rewrite Ex in Ey.
    + intros [= ->]. rewrite Er. destruct b as [b|]; [case_match|]; left.
  - destruct b as [b|].
    2: { split; [|done]. intros H. destruct (startswith a ($"did:")) eqn:Ea; [|by apply elem_of_nil in H].
         apply list_elem_of_singleton in H as ->. congruence. }
    specialize (Hb b eq_refl). destruct (startswith r ($"#")) eqn:Eh.
    + split.
      * intros H. destruct (startswith a ($"did:")) eqn:Ea; [|by apply elem_of_nil in H].
        destruct (startswith a b && startswith (drop (length b) a) ($"#")) eqn:Ef.
        2: { apply list_elem_of_singleton in H as ->. congruence. }
        apply andb_true_iff in Ef as [Ef _]. apply startswith_spec in Ef as [x ->].
        rewrite drop_app_length in H. apply elem_of_cons in H as [->|H]; [congruence|].
        apply list_elem_of_singleton in H as ->. done.
      * intros [= <-]. rewrite drop_app_length, Eh.
        assert (startswith (b ++ r) ($"did:") = true) as ->.
        { apply startswith_spec. apply startswith_spec in Hb as [x ->]. exists (x ++ r). by rewrite <-app_assoc. }
        assert (startswith (b ++ r) b = true) as ->; [|by right; left].
        apply startswith_spec. by exists r.
    + split; [|done]. intros H. destruct (startswith a ($"did:")) eqn:Ea; [|by apply elem_of_nil in H].
      destruct (startswith a b && startswith (drop (length b) a) ($"#")) eqn:Ef.
      2: { apply list_elem_of_singleton in H as ->. congruence. }
      apply andb_true_iff in Ef as [_ Ef]. apply elem_of_cons in H as [->|H]; [congruence|].
      apply list_elem_of_singleton in H as ->. congruence.
Qed.

(** The methods of a document whose id, resolved as a DID URL, is [v]. *)
Definition methods_named (doc : DidDocument) (v : pystr) : list VerificationMethod :=
  filter (fun vm => absolute (vm_id vm) (base doc) = Some v) (verification_methods doc).

(** A relationship the document declares grants [v]; one it does not declare grants all. *)
Definition grants (doc : DidDocument) (purpose v : pystr) : Prop :=
  forall refs, dget (relationships doc) purpose = Some refs ->
    exists ref, ref ∈ refs /\ absolute ref (base doc) = Some v.

Lemma methods_with_id_named doc v : methods_with_id doc (Some v) (base doc) = methods_named doc v.
Proof. apply list_filter_iff. intros vm. apply spellings_absolute, base_did. Qed.

Lemma methods_named_elem doc v vm l :
  methods_named doc v = l -> vm ∈ l -> vm ∈ verification_methods doc /\ absolute (vm_id vm) (base doc) = Some v.
Proof. intros <- H. by apply list_elem_of_filter in H as [? ?]. Qed.

Lemma key_for_purpose_spec doc v purpose vm :
  key_for_purpose doc (JStr v) (JStr purpose) = Some vm <-> methods_named doc v = [vm] /\ grants doc purpose v.
Proof.
  unfold key_for_purpose. cbn [is_none as_str]. rewrite methods_with_id_named.
  assert (forall m, methods_named doc v = [m] -> forall ref, ref ∈ spellings (absolute (vm_id m) (base doc)) (base doc)
    <-> absolute ref (base doc) = Some v) as Hs.
  { intros m Hm ref. destruct (methods_named_elem doc v m _ Hm ltac:(left)) as [_ ->].
    apply spellings_absolute, base_did. }
  unfold grants. destruct (methods_named doc v) as [|m [|m' ms]]; [by split; [|intros [? _]]| |by split; [|intros [? _]]].
  specialize (Hs m eq_refl). cbn. destruct (dget (relationships doc) purpose) as [refs|]; [|naive_solver].
  destruct (existsb _ refs) eqn:E.
  - apply existsb_exists in E as (ref & Hin%list_elem_of_In & Href%bool_decide_eq_true). apply Hs in Href.
    naive_solver.
  - split; [done|]. intros [[= ->] Hg]. destruct (Hg refs eq_refl) as (ref & Hin & Href).
    rewrite <-not_true_iff_false in E. exfalso. apply E, existsb_exists. exists ref.
    split; [by apply list_elem_of_In|]. by apply bool_decide_eq_true, Hs.
Qed.

Lemma single_key_lookup did frag jwk rels purpose :
  startswith did ($"did:") = true ->
  exists vm, public_key_jwk vm = jwk /\
    key_for_purpose (single_key_document did (did ++ $"#" ++ frag) jwk rels)
      (JStr (did ++ $"#" ++ frag)) (JStr purpose) = Some vm.
Proof.
  intros Hdid. set (doc := single_key_document _ _ _ _). set (id := did ++ $"#" ++ frag).
  set (vm := {| vm_id := id; vm_type := $"JsonWebKey2020"; controller := did; public_key_jwk := jwk |}).
  assert (absolute id (base doc) = Some id) as Habs.
  { unfold absolute. apply startswith_spec in Hdid as [x Hx].
    assert (startswith id ($"did:") = true) as ->; [|done].
    apply startswith_spec. exists (x ++ $"#" ++ frag). unfold id. rewrite Hx, <-!app_assoc. done. }
  exists vm. split; [done|]. apply key_for_purpose_spec. split.
  - unfold methods_named. cbn [verification_methods doc single_key_document]. fold vm.
    by rewrite filter_cons, decide_True, filter_nil.
  - intros refs Hr. apply dget_Some_elem in Hr. cbn [relationships doc single_key_document] in Hr.
    apply list_elem_of_In, in_map_iff in Hr as (r & [= _ <-] & _). exists id. split; [left|done].
Qed.

(** ** The did:key decoder agrees with the multibase one *)

Lemma key_b58_accumulate_spec n s :
  key_b58_accumulate n s = match b58_accumulate n s with Ok m => Ok m | Err _ => Err DidResolutionError end.
Proof. revert n. induction s as [|c s IH]; intros n; cbn; [done|]. by destruct (B58_INDEX c). Qed.

Lemma key_b58decode_encode data : bytes_ok data -> key_b58decode (b58btc_encode data) = Ok data.
Proof.
  intros Hok. destruct (b58btc_encode_value data Hok) as [Hv Hl]. unfold key_b58decode.
  rewrite key_b58_accumulate_spec, Hv. cbn [mbind result_bind]. rewrite Hl.
  destruct (count_leading_split 0 data) as (l & Hd & H0).
  assert (bytes_ok l) as Hl' by (rewrite Hd in Hok; by apply Forall_app in Hok as [_ ?]).
  f_equal. fold (b58_body (from_bytes_be data)). rewrite Hd at 2 3.
  by rewrite from_bytes_be_zeros, b58_body_minimal.
Qed.

Lemma b58_char_in i : 0 <= i < 58 -> b58_char i ∈ B58.
Proof.
  intros Hi. unfold b58_char. apply list_elem_of_In, nth_In. change (length B58) with 58%nat. lia.
Qed.

Lemma b58_digits_in fuel n chars :
  Forall (fun c => c ∈ B58) chars -> Forall (fun c => c ∈ B58) (b58_digits fuel n chars).
Proof.
  revert n chars. induction fuel as [|fuel IH]; intros n chars H; cbn [b58_digits]; [done|].
  destruct (0 <? n); [|done]. apply IH. constructor; [|done]. apply b58_char_in, Z.mod_pos_bound. lia.
Qed.

Lemma b58btc_encode_in data : Forall (fun c => c ∈ B58) (b58btc_encode data).
Proof.
  unfold b58btc_encode. apply Forall_app. split; [|by apply b58_digits_in].
  apply Forall_replicate. apply (bool_decide_unpack _). reflexivity.
Qed.

Lemma before_fragment_app did frag : 35 ∉ did -> before_fragment (did ++ $"#" ++ frag) = did.
Proof. intros H. unfold before_fragment. change ($"#" ++ frag) with (35 :: frag). by rewrite (partition_present 35 did frag H). Qed.

Lemma did_key_no_fragment data : 35 ∉ $"did:key:" ++ encode_multibase data.
Proof.
  unfold encode_multibase. intros H. apply elem_of_app in H as [H|H].
  - revert H. apply (bool_decide_unpack _). vm_compute. exact I.
  - cbn [app] in H. apply elem_of_app in H as [H|H].
    + revert H. apply (bool_decide_unpack _). vm_compute. exact I.
    + pose proof (b58btc_encode_in data) as Hin. rewrite Forall_forall in Hin. apply Hin in H. revert H.
      apply (bool_decide_unpack _). vm_compute. exact I.
Qed.

(** The verification method of the did:key of an Ed25519 public key. *)
Definition ed25519_did (key : bytes) : pystr := $"did:key:" ++ encode_multibase (237 :: 1 :: key).

(** Did:key resolves to the key it names.  For every Ed25519 public key, with no resolver
    and no network, the verification method of its did:key resolves, for every purpose, to
    exactly that key. *)
Theorem did_key_roundtrip decode_point (key : bytes) (purpose : json) :
  bytes_ok key -> is_none purpose || is_str purpose = true ->
  resolve_verification_key decode_point
    (JStr (ed25519_did key ++ $"#" ++ encode_multibase (237 :: 1 :: key))) purpose None = Ok (okp_jwk key).
Proof.
  intros Hok Hp. set (mb := encode_multibase (237 :: 1 :: key)).
  assert (bytes_ok (237 :: 1 :: key)) as Hok' by (repeat constructor; done).
  destruct (single_key_lookup (ed25519_did key) mb (okp_jwk key) [$"authentication"; $"assertionMethod"]
              (purpose_or_default purpose)) as (vm & Hjwk & Hvm).
  { apply startswith_spec. exists ($"key:" ++ mb). done. }
  assert (did_key_resolve decode_point (ed25519_did key) =
    Ok (single_key_document (ed25519_did key) (ed25519_did key ++ $"#" ++ mb) (okp_jwk key)
          [$"authentication"; $"assertionMethod"])) as Hres.
  { unfold did_key_resolve. replace (drop 8 (ed25519_did key)) with mb by done.
    assert (startswith mb ($"z") = true) as -> by (apply startswith_spec; by eexists).
    cbn [negb raise_if mbind result_bind]. replace (drop 1 mb) with (b58btc_encode (237 :: 1 :: key)) by done.
    rewrite key_b58decode_encode by done. done. }
  unfold resolve_verification_key. rewrite Hp. cbn [negb raise_if mbind result_bind].
  rewrite before_fragment_app by apply did_key_no_fragment.
  unfold resolve_document. cbn [mbind result_bind].
  assert (startswith (ed25519_did key) ($"did:key:") = true) as -> by (apply startswith_spec; by eexists).
  cbn [negb raise_if mbind result_bind]. rewrite Hres. cbn [catch_as mbind result_bind].
  change (ed25519_did key ++ $"#" ++ mb) with (100 :: tl (ed25519_did key ++ $"#" ++ mb)) at 1.
  cbn beta iota. change (100 :: tl (ed25519_did key ++ $"#" ++ mb)) with (ed25519_did key ++ $"#" ++ mb).
  rewrite Hvm. by rewrite Hjwk.
Qed.

Lemma did_key_roundtrip_witness :
  resolve_verification_key (fun _ _ => None)
    (JStr (ed25519_did (repeat 7 32) ++ $"#" ++ encode_multibase (237 :: 1 :: repeat 7 32))) JNull None
  = Ok (okp_jwk (repeat 7 32)).
Proof. apply did_key_roundtrip; [by apply (bool_decide_unpack _); vm_compute|reflexivity]. Defined.

(** The key lookup of every Data Integrity proof.  The JWK returned is the key of the one
    method of the resolved document whose id, resolved as a DID URL, is the verification method
    the proof names, and a relationship the document declares for the purpose holds a reference
    that resolves to that same URL; conversely such a method is always found.  A bare fragment,
    another DID, a second method with the same id never select a key. *)
Theorem resolve_verification_key_selects decode_point (v : pystr) (purpose : json)
    (resolver : option DidResolver) (jwk : jobject) :
  v <> [] -> is_none purpose || is_str purpose = true ->
  resolve_verification_key decode_point (JStr v) purpose resolver = Ok jwk <->
  exists doc vm, resolve_document decode_point resolver (before_fragment v) = Ok doc /\
    methods_named doc v = [vm] /\ grants doc (purpose_or_default purpose) v /\ public_key_jwk vm = jwk.
Proof.
  intros Hv Hp. destruct v as [|c v]; [done|]. unfold resolve_verification_key.
  rewrite Hp. cbn [negb raise_if mbind result_bind].
  destruct (resolve_document _ _ _) as [doc|]; [|naive_solver]. cbn [mbind result_bind].
  pose proof (key_for_purpose_spec doc (c :: v) (purpose_or_default purpose)) as Hk.
  destruct (key_for_purpose _ _ _) as [vm|].
  - destruct (Hk vm) as [H _]. specialize (H eq_refl) as [Hm Hg]. clear Hk. split.
    { intros [= <-]. by exists doc, vm. }
    intros (d & vm' & [= <-] & Hm' & _ & <-). rewrite Hm in Hm'. by injection Hm' as ->.
  - destruct (methods_with_id _ _ _) as [|? [|]].
    all: split; [done|]; intros (d & vm & [= <-] & Hm & Hg & _); destruct (Hk vm) as [_ H]; by discriminate H.
Qed.

(** Two documents of the examples: one declares an empty relationship. *)
Definition example_did_doc : DidDocument :=
  {| doc_id := $"did:web:a.example";
     verification_methods :=
       [{| vm_id := $"#key-1"; vm_type := []; controller := []; public_key_jwk := [($"kty", JStr ($"OKP"))] |}];
     raw := []; relationships := [($"assertionMethod", [$"did:web:a.example#key-1"]); ($"authentication", [])] |}.
Definition example_resolver : DidResolver := {| supports := None; resolve := fun _ => Ok example_did_doc |}.

Lemma resolve_verification_key_selects_witness :
  $"did:web:a.example#key-1" <> [] /\
  resolve_verification_key (fun _ _ => None) (JStr ($"did:web:a.example#key-1")) JNull (Some example_resolver)
    = Ok [($"kty", JStr ($"OKP"))].
Proof.
  split; [discriminate|].
  apply resolve_verification_key_selects; [discriminate|reflexivity|].
  exists example_did_doc, (hd {| vm_id := []; vm_type := []; controller := []; public_key_jwk := [] |}
    (verification_methods example_did_doc)).
  split; [reflexivity|]. split; [vm_compute; reflexivity|]. split; [|reflexivity].
  intros refs [= <-]. exists ($"did:web:a.example#key-1"). split; [left|reflexivity].
Defined.

(** * Every failure of the lookup is typed *)

(** A resolver that fails the way the protocol says. *)
Definition did_failure (e : exn) : Prop := isinstance e UnsupportedDidMethod = true \/ isinstance e DidResolutionError = true.

Lemma key_b58_accumulate_errs n s : errs_in (eq DidResolutionError) (key_b58_accumulate n s).
Proof. revert n. induction s; intros; cbn; solve_errs. Qed.

Lemma key_read_varint_from_errs i r s data : errs_in (eq DidResolutionError) (key_read_varint_from i r s data).
Proof. revert i r s. induction data; intros; cbn; solve_errs. Qed.

Section errors.
Context (decode_point : pystr -> bytes -> option (Z * Z)).
(** The coordinates of a point fit the field the code writes them in. *)
Context (point_bounds : forall crv key x y, decode_point crv key = Some (x, y) ->
  let size := if decide (crv = $"P-256") then 32 else 48 in 0 <= x < 256 ^ size /\ 0 <= y < 256 ^ size).

Lemma int_to_bytes_ok size n : 0 <= n < 256 ^ Z.of_nat size -> int_to_bytes size n = Ok (to_bytes_be size n).
Proof using. intros [? ?]. unfold int_to_bytes. rewrite (proj2 (Z.leb_le 0 n)) by done. by rewrite (proj2 (Z.ltb_lt n _)) by done. Qed.

Lemma key_point_jwk_errs crv size key :
  (crv = $"P-256" /\ size = 32%nat \/ crv = $"P-384" /\ size = 48%nat) ->
  errs_in (eq DidResolutionError) (key_point_jwk decode_point crv size key).
Proof using point_bounds.
  intros Hc. unfold key_point_jwk. destruct (decode_point crv key) as [[x y]|] eqn:E; [|solve_errs].
  apply point_bounds in E. destruct Hc as [[-> ->]|[-> ->]].
  all: cbn zeta in E; repeat (rewrite int_to_bytes_ok by (apply E); cbn [mbind result_bind]); solve_errs.
Qed.

Lemma did_key_resolve_errs did : errs_in (eq DidResolutionError) (did_key_resolve decode_point did).
Proof using point_bounds.
  unfold did_key_resolve. apply errs_in_bind; [solve_errs|]. intros _ _. apply errs_in_bind.
  { apply errs_in_bind; [apply key_b58_accumulate_errs|]. intros; apply errs_in_Ok. }
  intros data _. apply errs_in_bind; [apply key_read_varint_from_errs|]. intros [code off] _.
  apply errs_in_bind; [|intros; solve_errs]. repeat case_match; try solve_errs; apply key_point_jwk_errs; tauto.
Qed.

(** The lookup's failures are typed.  With a resolver that fails as the [DidResolver]
    protocol says, whatever the proof names and whatever the document holds, only
    [KeyResolutionError], [ProofMalformed] and [ProofPurposeMismatch] escape. *)
Theorem resolve_verification_key_errors verification_method proof_purpose resolver :
  (forall r did, resolver = Some r -> errs_in did_failure (resolve r did)) ->
  errs_in (fun e => e ∈ [KeyResolutionError; ProofMalformed; ProofPurposeMismatch])
    (resolve_verification_key decode_point verification_method proof_purpose resolver).
Proof using point_bounds.
  intros Hr. assert (KeyResolutionError ∈ [KeyResolutionError; ProofMalformed; ProofPurposeMismatch]) as Hk by left.
  assert (ProofMalformed ∈ [KeyResolutionError; ProofMalformed; ProofPurposeMismatch]) as Hm by (right; left).
  assert (ProofPurposeMismatch ∈ [KeyResolutionError; ProofMalformed; ProofPurposeMismatch]) as Hp by (right; right; left).
  unfold resolve_verification_key. destruct verification_method as [| | | |[|c v]| | |]; try by apply errs_in_Err.
  apply errs_in_bind; [by apply errs_in_raise_if|]. intros _ _. apply errs_in_bind.
  - unfold resolve_document. apply errs_in_bind.
    + destruct resolver as [r|]; [|apply errs_in_Ok]. destruct (supported r _); [|apply errs_in_Ok].
      destruct (resolve r _) as [d|e] eqn:E; [apply errs_in_Ok|].
      destruct (Hr r _ eq_refl e E) as [-> | ->]; [apply errs_in_Ok|].
      case_match; [apply errs_in_Ok|by apply errs_in_Err].
    + intros [d|] _; [apply errs_in_Ok|]. apply errs_in_bind; [by apply errs_in_raise_if|]. intros _ _.
      intros e He. unfold catch_as in He. destruct (did_key_resolve _ _) as [|e0] eqn:E; [done|].
      apply did_key_resolve_errs in E as <-. cbn in He. by injection He as <-.
  - intros doc _. destruct (key_for_purpose _ _ _); [apply errs_in_Ok|].
    destruct (methods_with_id _ _ _) as [|? [|]]; by apply errs_in_Err.
Qed.
End errors.

Lemma resolve_verification_key_errors_witness :
  KeyResolutionError ∈ [KeyResolutionError; ProofMalformed; ProofPurposeMismatch] /\
  resolve_verification_key (fun _ _ => None) (JStr ($"did:web:a.example#key-2")) JNull (Some example_resolver)
    = Err KeyResolutionError.
Proof.
  assert (resolve_verification_key (fun _ _ => None) (JStr ($"did:web:a.example#key-2")) JNull (Some example_resolver)
    = Err KeyResolutionError) as H by (vm_compute; reflexivity).
  split; [|exact H].
  apply (resolve_verification_key_errors (fun _ _ => None)) in H; [exact H|discriminate|].
  intros r did [= <-] e [=].
Defined.

(** * did:web *)

Lemma rpartition_split c s : c ∈ s -> s = (rpartition c s).1 ++ c :: (rpartition c s).2.
Proof.
  intros H. unfold rpartition. pose proof (partition_split c (reverse s)) as Hp.
  rewrite elem_of_reverse in Hp. specialize (Hp H). destruct (partition c (reverse s)) as [b a]. cbn in Hp |- *.
  rewrite <-(reverse_involutive s), Hp, reverse_app, reverse_cons, <-app_assoc. done.
Qed.

(** A port, with its colon: absent, or a decimal number from 1 to 65535. *)
Definition is_port (port : pystr) : Prop :=
  port = [] \/ exists ds, port = $":" ++ ds /\ Forall (fun c => is_digit c = true) ds /\
                          (1 <= length ds <= 5)%nat /\ 1 <= decimal_int ds <= 65535.

(** A domain name that no URL parser takes for an address. *)
Definition is_domain (name : pystr) : Prop :=
  len name <= 253 /\
  Forall (fun c => is_alnum c = true \/ c = 45 \/ c = 46) name /\
  Forall (fun label => LABEL label = true) (split_on 46 name) /\
  NUMERIC_LABEL (List.last (split_on 46 name) []) = false.

Lemma check_host_Ok host u :
  check_host host = Ok u -> exists name port, host = name ++ port /\ is_domain name /\ is_port port.
Proof.
  unfold check_host. intros H.
  set (np := if bool_decide (58 ∈ host) then let '(n, p) := rpartition 58 host in (n, Some p) else (host, None)) in H.
  assert (host = np.1 ++ match np.2 with Some p => $":" ++ p | None => [] end) as Hhost.
  { subst np. case_bool_decide as E; [|by rewrite app_nil_r].
    pose proof (rpartition_split 58 host E) as Hs. by destruct (rpartition 58 host). }
  destruct np as [name port]. cbn [fst snd] in Hhost.
  apply bind_Ok in H as (_ & Hport%raise_if_Ok & H). apply bind_Ok in H as (_ & Hlen%raise_if_Ok & H).
  apply bind_Ok in H as (_ & _ & H). apply bind_Ok in H as (_ & Hl%raise_if_Ok & Hn%raise_if_Ok).
  apply negb_false_iff in Hl. rewrite forallb_forall in Hl.
  exists name, (match port with Some p => $":" ++ p | None => [] end). split; [exact Hhost|]. split.
  - split; [lia|]. split; [|split; [|exact Hn]].
    + apply Forall_forall. intros x Hx. destruct (decide (x = 46)) as [->|Hne]; [by right; right|].
      destruct (split_on_elem 46 name x Hx Hne) as (w & Hw & Hxw). apply list_elem_of_In, Hl in Hw.
      unfold LABEL in Hw. destruct w as [|a w]; [by apply elem_of_nil in Hxw|].
      destruct (reverse (a :: w)) as [|z r]; [done|]. apply andb_true_iff in Hw as [_ Hw].
      rewrite forallb_forall in Hw. apply list_elem_of_In, Hw in Hxw.
      apply orb_true_iff in Hxw as [?|?%Z.eqb_eq]; tauto.
    + apply Forall_forall. intros w Hw. apply Hl. by apply list_elem_of_In.
  - destruct port as [p|]; [right|by left]. exists p. split; [done|].
    apply negb_false_iff in Hport. apply andb_true_iff in Hport as [Hport H2%Z.leb_le].
    apply andb_true_iff in Hport as [Hport H1%Z.ltb_lt]. unfold PORT in Hport.
    apply andb_true_iff in Hport as [Hport Hd]. apply andb_true_iff in Hport as [Hp1%Z.leb_le Hp2%Z.leb_le].
    rewrite forallb_forall in Hd. unfold len in *. repeat split; try lia.
    apply Forall_forall. intros c Hc. by apply Hd, list_elem_of_In.
Qed.

(** Where did:web goes to fetch.  Whatever the DID says, the URL it maps to is https, its
    authority is the decoded first segment and nothing else, and that is a domain name (ASCII
    labels of letters, digits and inner hyphens, the last one not a number) with an optional
    port from 1 to 65535: no user info, no address literal, no path, query or fragment can be
    smuggled into it. *)
Theorem did_web_url_host (unquote : pystr -> pystr) (did url : pystr) :
  did_web_url unquote did = Ok url ->
  exists name port path, url = $"https://" ++ name ++ port ++ $"/" ++ path /\
    name ++ port = unquote (hd [] (split_on 58 (drop 8 did))) /\ is_domain name /\ is_port port.
Proof.
  unfold did_web_url. intros H. apply bind_Ok in H as (_ & _ & H). apply bind_Ok in H as (u & Hh & H).
  apply check_host_Ok in Hh as (name & port & Hhost & Hn & Hp). rewrite Hhost in H |- *. exists name, port.
  destruct (map unquote _) as [|s segs]; apply Ok_inj in H as <-.
  - exists ($".well-known/did.json"). by rewrite <-!app_assoc.
  - exists (join ($"/") (s :: segs) ++ $"/did.json"). by rewrite <-!app_assoc.
Qed.

Lemma did_web_url_host_witness :
  exists name port path, $"https://example.edu/issuers/physics/did.json" = $"https://" ++ name ++ port ++ $"/" ++ path /\
    name ++ port = $"example.edu" /\ is_domain name /\ is_port port.
Proof. apply (did_web_url_host id ($"did:web:example.edu:issuers:physics")). vm_compute. reflexivity. Defined.

Example did_web_hosts :
  let ok h := is_ok (check_host (str h)) in
  ok "example.edu:3000" = true /\ ok "127.0.0.1" = false /\ ok "0x7f.1" = false /\ ok "a@b" = false /\
  ok "xn--fa-hia.de" = true /\ ok "a..b" = false /\ ok "example.edu:0" = false /\ ok "[::1]" = false.
Proof. vm_compute. done. Qed.

(** * A document's declared relationships are never read as absent *)

Lemma parse_did_document_relationships decode_point value d doc key :
  parse_did_document decode_point (JDict value) = Ok d -> default (JDict value) (dget value ($"didDocument")) = JDict doc ->
  key ∈ RELATIONSHIP_KEYS -> dmem doc key = true ->
  exists l, dget doc key = Some (JList l) /\ dget (relationships d) key = Some (omap ref_of l).
Proof.
  cbn [parse_did_document]. intros H Hdoc Hkey Hmem.
  apply bind_Ok in H as (_ & _ & H). rewrite Hdoc in H. apply bind_Ok in H as (items & _ & H).
  apply bind_Ok in H as (vms & _ & H). apply bind_Ok in H as (rels & Hr & [= <-]). cbn [relationships].
  apply mapR_Ok in Hr.
  assert (is_Some (dget doc key)) as [v Hv].
  { destruct (dget doc key) eqn:E; [by eexists|]. apply dmem_spec in Hmem. by apply dget_None in E. }
  assert (key ∈ filter (fun key => is_Some (dget doc key)) RELATIONSHIP_KEYS) as Hf
    by (apply list_elem_of_filter; split; [by exists v|done]).
  assert (forall k refs, (k, refs) ∈ rels -> relationship_refs doc k = Ok refs) as Hspec.
  { intros k refs Hin. apply list_elem_of_lookup in Hin as [i Hi]. eapply Forall2_lookup_r in Hr as (x & _ & Hx); [|done].
    apply bind_Ok in Hx as (r & Hx & [= -> ->]). done. }
  assert (exists refs, (key, refs) ∈ rels) as [refs Hin].
  { eapply Forall2_elem_l in Hr as (p & Hp & Hx); [|exact Hf].
    apply bind_Ok in Hx as (r & _ & [= <-]). by exists r. }
  pose proof (Hspec _ _ Hin) as Hx. unfold relationship_refs in Hx. rewrite Hv in Hx. cbn [default from_option] in Hx.
  apply bind_Ok in Hx as (l & Hl & [= <-]). destruct v; try discriminate Hl. injection Hl as ->. exists l. split; [done|].
  apply dget_elem; [|done]. unfold dict_ok.
  assert (rels.*1 = filter (fun key => is_Some (dget doc key)) RELATIONSHIP_KEYS) as ->.
  { clear -Hr. induction Hr as [|k p ks ps Hx _ IH]; [done|]. cbn. rewrite IH.
    by apply bind_Ok in Hx as (r & _ & [= <-]). }
  apply NoDup_filter. apply (bool_decide_unpack _). vm_compute. exact I.
Qed.

(** A relationship the document declares always restricts the key.  On a document as
    fetched, whatever its shape, if the key lookup for a declared purpose returns a method,
    the member is an array and one of its entries (a string, or the [id] of an object)
    resolves to the id asked for: [null], a string or an object there never reads as "not
    declared". *)
Theorem declared_relationship_restricts decode_point value d doc (v key : pystr) vm :
  parse_did_document decode_point (JDict value) = Ok d ->
  default (JDict value) (dget value ($"didDocument")) = JDict doc ->
  key ∈ RELATIONSHIP_KEYS -> dmem doc key = true ->
  key_for_purpose d (JStr v) (JStr key) = Some vm ->
  exists entries entry ref, dget doc key = Some (JList entries) /\ entry ∈ entries /\
    ref_of entry = Some ref /\ absolute ref (base d) = Some v.
Proof.
  intros Hd Hdoc Hkey Hmem Hk. apply key_for_purpose_spec in Hk as [_ Hg].
  destruct (parse_did_document_relationships _ _ _ _ _ Hd Hdoc Hkey Hmem) as (l & Hl & Hr).
  destruct (Hg _ Hr) as (ref & Hin & Habs). apply list_elem_of_omap in Hin as (entry & Hentry & Href).
  by exists l, entry, ref.
Qed.

Definition example_did_json (refs : json) : jobject :=
  [($"id", JStr ($"did:web:a.example"));
   ($"verificationMethod", JList [JDict [($"id", JStr ($"#k")); ($"publicKeyJwk", JDict [])]; JNull]);
   ($"assertionMethod", refs)].

Lemma declared_relationship_restricts_witness :
  exists entries entry ref,
    Some (JList [JInt 1; JDict [($"id", JStr ($"#k"))]]) = Some (JList entries) /\ entry ∈ entries /\
    ref_of entry = Some ref /\ absolute ref (Some ($"did:web:a.example")) = Some ($"did:web:a.example#k").
Proof.
  set (value := example_did_json (JList [JInt 1; JDict [($"id", JStr ($"#k"))]])).
  destruct (parse_did_document (fun _ _ => None) (JDict value)) as [d|] eqn:E; [|discriminate E].
  assert (Ok d = parse_did_document (fun _ _ => None) (JDict value)) as E' by (symmetry; exact E).
  vm_compute in E'. injection E' as ->.
  eapply (declared_relationship_restricts _ value _ value _ ($"assertionMethod") _ E); [reflexivity|left|reflexivity|].
  vm_compute. reflexivity.
Defined.
