(* ===== verification/Urllib.v ===== *)
(** Reading a URL: what [urllib.parse] does on a string of visible ASCII characters, and the
    one reader of an origin in [openvc_ebsi] (src/src/openvc_ebsi/_url.py).

    On visible ASCII the stripping of white space and control characters and the check of
    normalized host names change nothing, and are left out.  Which bracketed hosts are IPv6
    addresses ([ipaddress]) and the percent-decoding of a query are parameters. *)
From S2P Require Import Prelude Errors PyStr Decimal Did.

Definition lower_ascii (s : pystr) : pystr := (fun c => if is_upper c then c + 32 else c) <$> s.
Definition scheme_char (c : Z) : bool := is_alnum c || bool_decide (c ∈ [43; 45; 46]).

Record SplitResult := { scheme : pystr; netloc : pystr; path : pystr; query : pystr; fragment_of : pystr }.

(** The scheme, when what precedes the first colon is one. *)
Definition split_scheme (url : pystr) : pystr * pystr :=
  match partition 58 url with
  | ((c :: s) as name, rest) =>
      if bool_decide (58 ∈ url) && (is_lower c || is_upper c) && forallb scheme_char name
      then (lower_ascii name, rest) else ([], url)
  | _ => ([], url)
  end.

(** [_splitnetloc]: up to the first [/], [?] or [#]. *)
Definition netloc_end (c : Z) : bool := bool_decide (c ∈ [47; 63; 35]).
Fixpoint split_netloc (s : pystr) : pystr * pystr :=
  match s with
  | c :: s' => if netloc_end c then ([], s) else let '(a, b) := split_netloc s' in (c :: a, b)
  | [] => ([], [])
  end.

(** [s.rpartition(c)[2]]: all of [s] when [c] is not in it. *)
Definition after_last (c : Z) (s : pystr) : pystr := if bool_decide (c ∈ s) then (rpartition c s).2 else s.

Section urlsplit.
Context (ipv6 : pystr -> bool).

(** [_check_bracketed_host]: [\Av[a-fA-F0-9]+\..+\Z], or an IPv6 address. *)
Definition bracketed_host_ok (hostname : pystr) : bool :=
  match hostname with
  | 118 :: version =>
      let '(digits, rest) := partition 46 version in
      negb (bool_decide (digits = [])) && forallb is_hex digits && negb (bool_decide (rest = []))
  | _ => ipv6 hostname
  end.

(** [_check_bracketed_netloc]. *)
Definition bracketed_netloc_ok (netloc : pystr) : bool :=
  let hostname_and_port := after_last 64 netloc in
  if bool_decide (91 ∈ hostname_and_port) then
    let '(before_bracket, bracketed) := partition 91 hostname_and_port in
    let '(hostname, port) := partition 93 bracketed in
    bool_decide (before_bracket = []) && (bool_decide (port = []) || startswith port ($":")) && bracketed_host_ok hostname
  else bracketed_host_ok (partition 58 hostname_and_port).1.

Definition netloc_ok (netloc : pystr) : bool :=
  match bool_decide (91 ∈ netloc), bool_decide (93 ∈ netloc) with
  | true, true => bracketed_netloc_ok netloc
  | false, false => true
  | _, _ => false
  end.

Definition urlsplit (url : pystr) : result SplitResult :=
  let '(scheme, rest) := split_scheme url in
  '(netloc, rest) ← (if startswith rest ($"//")
                     then let '(n, r) := split_netloc (drop 2 rest) in
                          raise_if (negb (netloc_ok n)) ValueError;; Ok (n, r)
                     else Ok ([], rest));
  let '(rest, fragment) := partition 35 rest in
  let '(path, query) := partition 63 rest in
  Ok {| scheme := scheme; netloc := netloc; path := path; query := query; fragment_of := fragment |}.

(** [SplitResult._hostinfo]: the host and what follows it, [None] when nothing does. *)
Definition hostinfo (u : SplitResult) : pystr * option pystr :=
  let hostinfo := after_last 64 (netloc u) in
  let '(hostname, port) :=
    if bool_decide (91 ∈ hostinfo)
    then let '(h, p) := partition 93 (partition 91 hostinfo).2 in (h, (partition 58 p).2)
    else partition 58 hostinfo in
  (hostname, match port with [] => None | _ => Some port end).

(** [hostname], lowercased but for the zone of a scoped address. *)
Definition hostname (u : SplitResult) : option pystr :=
  match (hostinfo u).1 with
  | [] => None
  | h => let '(name, zone) := partition 37 h in
         Some (lower_ascii name ++ (if bool_decide (37 ∈ h) then [37] else []) ++ zone)
  end.

Definition port (u : SplitResult) : result (option Z) :=
  match (hostinfo u).2 with
  | None => Ok None
  | Some p => if forallb is_ascii_digit p && (decimal_value p <=? 65535) then Ok (Some (decimal_value p)) else Err ValueError
  end.

(** [urlunsplit]. *)
Definition uses_netloc : list pystr :=
  [$""; $"ftp"; $"http"; $"gopher"; $"nntp"; $"telnet"; $"imap"; $"wais"; $"file"; $"mms"; $"https"; $"shttp"; $"snews";
   $"prospero"; $"rtsp"; $"rtspu"; $"rsync"; $"svn"; $"svn+ssh"; $"sftp"; $"nfs"; $"git"; $"git+ssh"; $"ws"; $"wss"].
Definition urlunsplit (u : SplitResult) : pystr :=
  let url := path u in
  let url := if negb (bool_decide (netloc u = [])) ||
               (negb (bool_decide (scheme u = [])) && bool_decide (scheme u ∈ uses_netloc) && negb (startswith url ($"//")))
             then $"//" ++ netloc u ++ (if bool_decide (url = []) || startswith url ($"/") then url else 47 :: url)
             else url in
  let url := match scheme u with [] => url | s => s ++ 58 :: url end in
  let url := match query u with [] => url | q => url ++ 63 :: q end in
  match fragment_of u with [] => url | f => url ++ 35 :: f end.

(** [parse_qsl(query, keep_blank_values=True)]. *)
Context (unquote : pystr -> pystr).
Definition plus_to_space (s : pystr) : pystr := (fun c => if c =? 43 then 32 else c) <$> s.
Definition parse_qsl (query : pystr) : list (pystr * pystr) :=
  (fun name_value => let '(n, v) := partition 61 name_value in (unquote (plus_to_space n), unquote (plus_to_space v)))
    <$> filter (fun name_value => name_value <> []) (split_on 38 query).

(** * The origin of a URL *)

Definition HTTPS_PORT : Z := 443.
Definition DEFAULT_PORTS : list (pystr * Z) := [($"https", HTTPS_PORT)].

Record Origin := { o_scheme : pystr; o_host : pystr; o_port : option Z }.
Inductive url_error := UrlNotVisibleAscii | UrlDoesNotParse.

Definition visible_ascii (url : pystr) : bool := forallb (fun c => (33 <=? c) && (c <=? 126)) url.

(** [_split]: what [urlparse] makes of the URL and of its port; the parameters it takes off
    the path are never read. *)
Definition split_url (url : pystr) : url_error + SplitResult * option Z :=
  if negb (visible_ascii url) then inl UrlNotVisibleAscii
  else match (u ← urlsplit url; p ← port u; Ok (u, p)) with
       | Ok up => inr up
       | Err _ => inl UrlDoesNotParse
       end.

Definition read_origin (url : pystr) : url_error + Origin :=
  match split_url url with
  | inl e => inl e
  | inr (parsed, port) =>
      let scheme := lower_ascii (scheme parsed) in
      inr {| o_scheme := scheme; o_host := lower_ascii (default [] (hostname parsed));
             o_port := match port with Some p => Some p | None => dget DEFAULT_PORTS scheme end |}
  end.

Definition carries_userinfo (url : pystr) : url_error + bool :=
  match split_url url with inl e => inl e | inr (parsed, _) => inr (bool_decide (64 ∈ netloc parsed)) end.
End urlsplit.

Example read_origin_ex :
  read_origin (fun _ => false) ($"HTTPS://u:p@API.Example:/v1?x#y") =
    inr {| o_scheme := $"https"; o_host := $"api.example"; o_port := Some 443 |} /\
  read_origin (fun _ => false) ($"https://h:99999/") = inl UrlDoesNotParse /\
  read_origin (fun _ => true) ($"http://[::1]:80") = inr {| o_scheme := $"http"; o_host := $"::1"; o_port := Some 80 |} /\
  read_origin (fun _ => true) ($"https://a b") = inl UrlNotVisibleAscii.
Proof. by vm_compute. Qed.

(** * Lemmas *)

Lemma partition_elem c s x : x ∈ (partition c s).1 \/ x ∈ (partition c s).2 -> x ∈ s.
Proof.
  induction s as [|y s IH]; cbn [partition]; [by intros [?|?]|]. destruct (y =? c).
  - intros [H|H]; [by apply elem_of_nil in H|by right].
  - destruct (partition c s) as [a b]. cbn in IH |- *. rewrite !elem_of_cons. tauto.
Qed.

Lemma partition_app c s t : c ∈ s -> partition c (s ++ t) = ((partition c s).1, (partition c s).2 ++ t).
Proof.
  induction s as [|x s IH]; intros H; [by apply elem_of_nil in H|]. cbn [app partition].
  destruct (Z.eqb_spec x c) as [->|Hx]; [done|]. apply elem_of_cons in H as [->|H]; [done|].
  rewrite IH by done. by destruct (partition c s).
Qed.

Lemma split_netloc_app s t : existsb netloc_end s = true ->
  split_netloc (s ++ t) = ((split_netloc s).1, (split_netloc s).2 ++ t).
Proof.
  induction s as [|c s IH]; cbn [existsb app split_netloc]; [done|]. destruct (netloc_end c) eqn:Ec; [done|].
  cbn [orb]. intros H. rewrite IH by done. by destruct (split_netloc s).
Qed.

Lemma split_netloc_parts s :
  s = (split_netloc s).1 ++ (split_netloc s).2 /\ existsb netloc_end (split_netloc s).1 = false /\
  (forall c rest, (split_netloc s).2 = c :: rest -> netloc_end c = true).
Proof.
  induction s as [|c s (IH1 & IH2 & IH3)]; cbn [split_netloc]; [done|]. destruct (netloc_end c) eqn:Ec.
  - split; [done|split; [done|]]. by intros d rest [= <- <-].
  - destruct (split_netloc s) as [a b]. cbn in *. rewrite Ec. by rewrite <- IH1.
Qed.

Lemma split_netloc_join n c rest : existsb netloc_end n = false -> netloc_end c = true ->
  split_netloc (n ++ c :: rest) = (n, c :: rest).
Proof.
  intros Hn Hc. induction n as [|x n IH]; cbn [app split_netloc]; [by rewrite Hc|].
  cbn [existsb] in Hn. apply orb_false_iff in Hn as [Hx Hn]. by rewrite Hx, (IH Hn).
Qed.

Lemma lower_ascii_idem s : lower_ascii (lower_ascii s) = lower_ascii s.
Proof.
  unfold lower_ascii. rewrite <- list_fmap_compose. apply list_fmap_ext. intros i c _. unfold compose.
  destruct (is_upper c) eqn:E; [|by rewrite E]. unfold is_upper, between in *.
  assert ((65 <=? c + 32) && (c + 32 <=? 90) = false) as -> by lia. done.
Qed.

Lemma scheme_char_not c : scheme_char c = true -> c <> 58 /\ c <> 47.
Proof. intros H. split; intros ->; by vm_compute in H. Qed.

Lemma scheme_name_colon s : forallb scheme_char s = true -> 58 ∉ s.
Proof.
  intros H Hin. rewrite forallb_forall in H. apply list_elem_of_In in Hin. by apply H in Hin as [? _]%scheme_char_not.
Qed.

(** A scheme that was read reads again. *)
Lemma split_scheme_Some url s rest : split_scheme url = (s, rest) -> s <> [] ->
  exists name, url = name ++ 58 :: rest /\ s = lower_ascii name /\ forall rest', split_scheme (s ++ 58 :: rest') = (s, rest').
Proof.
  unfold split_scheme. destruct (partition 58 url) as [[|c name] r] eqn:Ep; [by intros [= <- _]|].
  destruct (bool_decide_reflect (58 ∈ url)) as [Hc|]; cbn [andb]; [|by intros [= <- _]].
  destruct ((is_lower c || is_upper c) && forallb scheme_char (c :: name)) eqn:E; [|by intros [= <- _]].
  intros [= <- <-] _. apply andb_true_iff in E as [Ha Hs]. exists (c :: name).
  pose proof (partition_split 58 url Hc) as Hu. rewrite Ep in Hu.
  assert (Hl : forallb scheme_char (lower_ascii (c :: name)) = true).
  { rewrite forallb_forall in Hs |- *. intros x Hx. apply list_elem_of_In, list_elem_of_fmap in Hx as (y & -> & Hy).
    apply list_elem_of_In in Hy. specialize (Hs y Hy). destruct (is_upper y) eqn:Ey; [|done].
    unfold scheme_char, is_alnum. unfold is_upper, between in Ey. unfold is_lower, is_upper, between.
    assert ((97 <=? y + 32) && (y + 32 <=? 122) = true) as -> by lia. done. }
  split; [done|split; [done|]]. intros rest'. rewrite partition_present by (by apply scheme_name_colon).
  pose proof (lower_ascii_idem (c :: name)) as Hidem.
  change (lower_ascii (c :: name)) with ((if is_upper c then c + 32 else c) :: lower_ascii name) in *.
  assert (is_lower (if is_upper c then c + 32 else c) || is_upper (if is_upper c then c + 32 else c) = true) as Hd.
  { destruct (is_upper c) eqn:Eu; [|by rewrite Eu]. unfold is_lower, is_upper, between in *. lia. }
  rewrite bool_decide_true by set_solver. cbn [andb]. rewrite Hd, Hl. cbn [andb]. by rewrite Hidem.
Qed.

(** What follows a path segment cannot change what the prefix says of scheme and authority. *)
Lemma split_scheme_prefix q tail : 58 ∉ tail -> 47 ∈ tail ->
  exists s q', forall t, split_scheme (q ++ tail ++ t) = (s, q' ++ tail ++ t).
Proof.
  intros Hc Hs. destruct (decide (58 ∈ q)) as [Hq|Hq].
  - unfold split_scheme. destruct (partition 58 q) as [[|c name] r] eqn:Ep.
    + exists [], q. intros t. rewrite partition_app by done. by rewrite Ep.
    + destruct ((is_lower c || is_upper c) && forallb scheme_char (c :: name)) eqn:E.
      * exists (lower_ascii (c :: name)), r. intros t. rewrite partition_app by done. rewrite Ep. cbn [fst snd].
        rewrite bool_decide_true by set_solver. cbn [andb]. by rewrite E.
      * exists [], q. intros t. rewrite partition_app by done. rewrite Ep. cbn [fst snd].
        rewrite bool_decide_true by set_solver. cbn [andb]. by rewrite E.
  - exists [], q. intros t. unfold split_scheme. destruct (decide (58 ∈ t)) as [Ht|Ht].
    + assert ((partition 58 (q ++ tail ++ t)).1 = (q ++ tail) ++ (partition 58 t).1) as Hp.
      { rewrite (partition_split 58 t Ht) at 1. rewrite app_assoc, app_assoc, partition_present; [done|].
        rewrite !elem_of_app. intros [[?|?]|Hx]; try done.
        assert (forall s, 58 ∉ (partition 58 s).1) as Hp; [|by apply (Hp t)].
        intros s. induction s as [|x s IH]; cbn [partition]; [set_solver|]. destruct (Z.eqb_spec x 58); [set_solver|].
        destruct (partition 58 s). cbn in *. set_solver. }
      destruct (partition 58 (q ++ tail ++ t)) as [[|c name] r]; [done|]. cbn [fst] in Hp.
      assert (forallb scheme_char (c :: name) = false) as ->; [|by rewrite andb_false_r].
      rewrite Hp. apply not_true_iff_false. intros H. rewrite forallb_forall in H.
      assert (In 47 ((q ++ tail) ++ (partition 58 t).1)) as Hin by (apply list_elem_of_In; set_solver).
      by apply H in Hin as [_ ?]%scheme_char_not.
    + destruct (partition 58 (q ++ tail ++ t)) as [[|c name] r]; [done|]. rewrite bool_decide_false by set_solver. done.
Qed.

Section origin_lemmas.
Context (ipv6 : pystr -> bool).

(** An origin is read off the scheme and the authority alone. *)
Definition same_authority (r r' : result SplitResult) : Prop :=
  match r, r' with
  | Ok u, Ok v => scheme u = scheme v /\ netloc u = netloc v
  | Err _, Err _ => True
  | _, _ => False
  end.

Lemma read_origin_same_authority url url' : visible_ascii url = true -> visible_ascii url' = true ->
  same_authority (urlsplit ipv6 url) (urlsplit ipv6 url') -> read_origin ipv6 url = read_origin ipv6 url'.
Proof.
  intros Hv Hv' H. unfold read_origin, split_url. rewrite Hv, Hv'. cbn [negb].
  destruct (urlsplit ipv6 url) as [u|], (urlsplit ipv6 url') as [v|]; try done. destruct H as [Hs Hn].
  cbn [mbind result_bind]. assert (Hi : hostinfo u = hostinfo v) by (unfold hostinfo; by rewrite Hn).
  unfold port. rewrite Hi. destruct (match (hostinfo v).2 with Some _ => _ | None => _ end); cbn [mbind result_bind]; [|done].
  unfold hostname. by rewrite Hi, Hs.
Qed.

Lemma read_origin_visible url o : read_origin ipv6 url = inr o -> visible_ascii url = true.
Proof. unfold read_origin, split_url. destruct (visible_ascii url); done. Qed.

Lemma urlsplit_scheme url s rest : split_scheme url = (s, rest) ->
  same_authority (urlsplit ipv6 url)
    (if startswith rest ($"//")
     then let n := (split_netloc (drop 2 rest)).1 in
          raise_if (negb (netloc_ok ipv6 n)) ValueError;;
          Ok {| scheme := s; netloc := n; path := []; query := []; fragment_of := [] |}
     else Ok {| scheme := s; netloc := []; path := []; query := []; fragment_of := [] |}).
Proof.
  intros E. unfold urlsplit. rewrite E. destruct (startswith rest ($"//")).
  - destruct (split_netloc (drop 2 rest)) as [n r]. cbn [fst]. destruct (raise_if _ _); [|done]. cbn [mbind result_bind].
    destruct (partition 35 r) as [r' f]. by destruct (partition 63 r').
  - cbn [mbind result_bind]. destruct (partition 35 rest) as [r' f]. by destruct (partition 63 r').
Qed.

Lemma same_authority_trans r1 r2 r3 : same_authority r1 r2 -> same_authority r2 r3 -> same_authority r1 r3.
Proof. destruct r1, r2, r3; cbn; try done. intros [-> ->] [-> ->]. done. Qed.
Lemma same_authority_sym r1 r2 : same_authority r1 r2 -> same_authority r2 r1.
Proof. destruct r1, r2; cbn; try done. by intros [-> ->]. Qed.
Lemma same_authority_refl r : same_authority r r.
Proof. by destruct r. Qed.

(** Two URLs that share everything up to the end of a path segment have the same origin. *)
Lemma read_origin_prefix q seg t t' :
  58 ∉ seg -> (2 <= length seg)%nat -> visible_ascii (q ++ (seg ++ [47]) ++ t) = true ->
  visible_ascii (q ++ (seg ++ [47]) ++ t') = true ->
  read_origin ipv6 (q ++ (seg ++ [47]) ++ t) = read_origin ipv6 (q ++ (seg ++ [47]) ++ t').
Proof.
  intros Hc Hl Hv Hv'. destruct (split_scheme_prefix q (seg ++ [47])) as (s & q' & Hs); [set_solver|set_solver|].
  apply read_origin_same_authority; [done|done|]. eapply same_authority_trans; [apply urlsplit_scheme, Hs|].
  apply same_authority_sym. eapply same_authority_trans; [apply urlsplit_scheme, Hs|].
  assert (Hpre : forall u, take 2 (q' ++ (seg ++ [47]) ++ u) = take 2 (q' ++ seg ++ [47])).
  { intros u. rewrite !app_assoc, <- (app_assoc q'). rewrite take_app_le; [by rewrite app_assoc|]. rewrite !length_app. cbn. lia. }
  assert (Hdrop : forall u, split_netloc (drop 2 (q' ++ (seg ++ [47]) ++ u)) =
     ((split_netloc (drop 2 (q' ++ seg ++ [47]))).1, (split_netloc (drop 2 (q' ++ seg ++ [47]))).2 ++ u)).
  { intros u. rewrite app_assoc, drop_app_le by (rewrite !length_app; cbn; lia). apply split_netloc_app.
    rewrite app_assoc, drop_app_le by (rewrite length_app; lia). rewrite existsb_app. cbn. by rewrite orb_true_r. }
  unfold startswith. cbn [length str String.list_ascii_of_string fmap list_fmap]. rewrite !Hpre, !Hdrop.
  apply same_authority_refl.
Qed.

Lemma visible_app s t : visible_ascii (s ++ t) = visible_ascii s && visible_ascii t.
Proof. apply forallb_app. Qed.

Lemma visible_partition c s : visible_ascii s = true ->
  visible_ascii (partition c s).1 = true /\ visible_ascii (partition c s).2 = true.
Proof.
  intros H. unfold visible_ascii in *. rewrite forallb_forall in H.
  split; apply forallb_forall; intros x Hx%list_elem_of_In; apply H, list_elem_of_In, (partition_elem c); tauto.
Qed.

(** The parts of a URL whose origin names a scheme and a host. *)
Lemma urlsplit_named url u o : read_origin ipv6 url = inr o -> urlsplit ipv6 url = Ok u ->
  o_scheme o <> [] -> o_host o <> [] ->
  scheme u <> [] /\ netloc_ok ipv6 (netloc u) = true /\ netloc u <> [] /\ existsb netloc_end (netloc u) = false /\
  (forall rest, split_scheme (scheme u ++ 58 :: rest) = (scheme u, rest)) /\
  visible_ascii (scheme u) = true /\ visible_ascii (netloc u) = true /\ visible_ascii (path u) = true /\
  visible_ascii (query u) = true /\ visible_ascii (fragment_of u) = true.
Proof.
  intros Ho Hu Hs Hh. pose proof (read_origin_visible _ _ Ho) as Hv.
  assert (Hsch : scheme u <> [] /\ netloc u <> []).
  { unfold read_origin, split_url in Ho. rewrite Hv, Hu in Ho. cbn [negb mbind result_bind] in Ho.
    destruct (port u); [|done]. injection Ho as <-. cbn in Hs, Hh. split; intros E.
    - rewrite E in Hs. done.
    - unfold hostname, hostinfo in Hh. by rewrite E in Hh. }
  destruct Hsch as [Hsch Hn]. split; [done|]. unfold urlsplit in Hu. destruct (split_scheme url) as [s rest] eqn:Es.
  apply bind_Ok in Hu as ([n r] & Hnr & Hu). destruct (partition 35 r) as [r' f] eqn:Ef.
  destruct (partition 63 r') as [p q] eqn:Eq. apply Ok_inj in Hu as <-. cbn in Hsch, Hn |- *.
  destruct (split_scheme_Some _ _ _ Es Hsch) as (name & -> & -> & Hagain).
  destruct (startswith rest ($"//")) eqn:Est; [|by injection Hnr as <- _].
  destruct (split_netloc_parts (drop 2 rest)) as (Hd & Hnn & _).
  destruct (split_netloc (drop 2 rest)) as [n' r''] eqn:Esn. cbn [fst snd] in Hd, Hnn.
  apply bind_Ok in Hnr as (? & Hok%raise_if_Ok & Hnr). apply Ok_inj in Hnr as [= -> ->]. apply negb_false_iff in Hok.
  rewrite visible_app in Hv. apply andb_true_iff in Hv as [Hvn Hv]. cbn in Hv.
  assert (Hvd : visible_ascii (drop 2 rest) = true).
  { rewrite <- (take_drop 2 rest) in Hv. rewrite visible_app in Hv. by apply andb_true_iff in Hv as [_ ?]. }
  rewrite Hd, visible_app in Hvd. apply andb_true_iff in Hvd as [Hvnl Hvr].
  pose proof (visible_partition 35 r Hvr) as Hpf. rewrite Ef in Hpf. destruct Hpf as [Hr' Hf].
  pose proof (visible_partition 63 r' Hr') as Hpq. rewrite Eq in Hpq. destruct Hpq as [Hp Hq].
  repeat split; try done. unfold visible_ascii in *. rewrite forallb_forall in Hvn |- *.
  intros c Hc%list_elem_of_In. apply list_elem_of_fmap in Hc as (y & -> & Hy%list_elem_of_In). specialize (Hvn y Hy).
  destruct (is_upper y) eqn:Ey; [|done]. unfold is_upper, between in Ey. lia.
Qed.

(** Replacing the query of such a URL keeps its origin. *)
Lemma read_origin_new_query url u o q : read_origin ipv6 url = inr o -> urlsplit ipv6 url = Ok u ->
  o_scheme o <> [] -> o_host o <> [] -> q <> [] -> visible_ascii q = true ->
  read_origin ipv6 (urlunsplit {| scheme := scheme u; netloc := netloc u; path := path u; query := q;
                                  fragment_of := fragment_of u |}) = inr o.
Proof.
  intros Ho Hu Hs Hh Hq Hvq.
  destruct (urlsplit_named _ _ _ Ho Hu Hs Hh) as (Hsch & Hok & Hn & Hnn & Hagain & V1 & V2 & V3 & V4 & V5).
  rewrite <- Ho. pose proof (read_origin_visible _ _ Ho) as Hv. clear Ho.
  set (path' := if bool_decide (path u = []) || startswith (path u) ($"/") then path u else 47 :: path u).
  set (tail := path' ++ 63 :: q ++ match fragment_of u with [] => [] | f => 35 :: f end).
  assert (Hurl : urlunsplit {| scheme := scheme u; netloc := netloc u; path := path u; query := q;
                               fragment_of := fragment_of u |} = scheme u ++ 58 :: $"//" ++ netloc u ++ tail).
  { unfold urlunsplit. cbn [scheme netloc path query fragment_of]. rewrite (bool_decide_false _ Hn). cbn [negb orb].
    fold path'. destruct (scheme u) as [|c s]; [done|]. destruct q as [|d q]; [done|]. unfold tail.
    destruct (fragment_of u) as [|e f]; cbn [app]; rewrite <- ?app_assoc; cbn [app]; rewrite <- ?app_assoc, ?app_nil_r; done. }
  assert (exists c rest, tail = c :: rest /\ netloc_end c = true) as (c & rest & Ht & Hc).
  { unfold tail, path'. destruct (path u) as [|x p]; cbn [bool_decide orb]; [by eexists _, _|].
    unfold startswith. destruct (bool_decide_reflect (x :: p = [])); [done|]. cbn [orb].
    destruct (bool_decide_reflect (take (length ($"/")) (x :: p) = $"/")) as [Hx|]; [|by eexists _, _].
    cbn in Hx. injection Hx as ->. by eexists _, _. }
  rewrite Hurl. apply read_origin_same_authority; [|done|].
  - rewrite visible_app, V1. cbn [visible_ascii forallb andb app]. change (visible_ascii (netloc u ++ tail) = true).
    rewrite visible_app, V2. unfold tail. rewrite visible_app. cbn [visible_ascii forallb andb].
    apply andb_true_iff. split.
    + unfold path'. by destruct (_ || _).
    + change (visible_ascii (q ++ match fragment_of u with [] => [] | f => 35 :: f end) = true).
      rewrite visible_app, Hvq. cbn [andb]. destruct (fragment_of u); [done|]. exact V5.
  - eapply same_authority_trans; [apply urlsplit_scheme, Hagain|].
    assert (drop 2 ($"//" ++ netloc u ++ tail) = netloc u ++ tail) as -> by done.
    assert (startswith ($"//" ++ netloc u ++ tail) ($"//") = true) as -> by (by unfold startswith; rewrite bool_decide_true).
    rewrite Ht, (split_netloc_join _ _ _ Hnn Hc). cbn [fst]. rewrite Hok. cbn [negb raise_if mbind result_bind].
    rewrite Hu. done.
Qed.
End origin_lemmas.
