(* ===== verification/Datetime.v ===== *)
(** The parts of [datetime] the code computes with, in UTC: an instant is in microseconds since
    the epoch. *)
From Stdlib Require Import SpecFloat.
From S2P Require Import Prelude Errors Json PyNum.

Definition SECOND : Z := 1000000.

(** ** [datetime(year, month, day, hour, minute, second, microsecond, tzinfo=utc)] *)

Definition is_leap (y : Z) : bool := (y mod 4 =? 0) && (negb (y mod 100 =? 0) || (y mod 400 =? 0)).
Definition days_in_month (y m : Z) : Z := if (m =? 2) && is_leap y then 29 else nth (Z.to_nat (m - 1)) [31; 28; 31; 30; 31; 30; 31; 31; 30; 31; 30; 31] 0.
Definition days_before_year (y : Z) : Z := (y - 1) * 365 + (y - 1) / 4 - (y - 1) / 100 + (y - 1) / 400.
Definition days_before_month (y m : Z) : Z :=
  nth (Z.to_nat (m - 1)) [0; 31; 59; 90; 120; 151; 181; 212; 243; 273; 304; 334] 0 + (if (2 <? m) && is_leap y then 1 else 0).
Definition datetime_us (y m d hh mm ss us : Z) : result Z :=
  raise_if (negb ((1 <=? y) && (y <=? 9999) && (1 <=? m) && (m <=? 12) && (1 <=? d) && (d <=? days_in_month y m) &&
                  (0 <=? hh) && (hh <=? 23) && (0 <=? mm) && (mm <=? 59) && (0 <=? ss) && (ss <=? 59) &&
                  (0 <=? us) && (us <=? 999999))) ValueError;;
  Ok (((days_before_year y + days_before_month y m + d - 719163) * 86400 + hh * 3600 + mm * 60 + ss) * SECOND + us).
Definition datetime (y m d hh mm ss : Z) : result Z := datetime_us y m d hh mm ss 0.

(** [datetime.min] and [datetime.max] as UTC instants. *)
Definition MIN_INSTANT : Z := -62135596800 * SECOND.
Definition MAX_INSTANT : Z := 253402300800 * SECOND - 1.

(** ** The fields of an instant, [isoformat] and [replace] *)

(** Year, month and day of a day counted from 0001-01-01. *)
Definition civil (n : Z) : Z * Z * Z :=
  let n400 := n / 146097 in let n := n mod 146097 in
  let n100 := n / 36524 in let n := n mod 36524 in
  let n4 := n / 1461 in let n := n mod 1461 in
  let n1 := n / 365 in let n := n mod 365 in
  let year := 400 * n400 + 100 * n100 + 4 * n4 + n1 + 1 in
  if (n1 =? 4) || (n100 =? 4) then (year - 1, 12, 31)
  else
    let month := default 1 (List.find (fun m => days_before_month year m <=? n) [12; 11; 10; 9; 8; 7; 6; 5; 4; 3; 2; 1]) in
    (year, month, n - days_before_month year month + 1).

Definition date_of (instant : Z) : Z * Z * Z := civil (instant / SECOND / 86400 + 719162).
Definition time_of_day (instant : Z) : Z := instant mod (86400 * SECOND).

(** [n] in [k] decimal digits. *)
Fixpoint padded (k : nat) (n : Z) : pystr := match k with O => [] | S k => padded k (n / 10) ++ [48 + n mod 10] end.

Definition isoformat (instant : Z) : pystr :=
  let '(y, m, d) := date_of instant in
  let t := time_of_day instant in
  padded 4 y ++ 45 :: padded 2 m ++ 45 :: padded 2 d ++ 84 :: padded 2 (t / SECOND / 3600) ++ 58 :: padded 2 (t / SECOND / 60 mod 60)
    ++ 58 :: padded 2 (t / SECOND mod 60) ++ (if t mod SECOND =? 0 then [] else 46 :: padded 6 (t mod SECOND)) ++ $"+00:00".

(** [dt.replace(year=y, month=m, day=d)]. *)
Definition replace_date (instant y m d : Z) : result Z :=
  t ← datetime y m d 0 0 0; Ok (t + time_of_day instant).

Example isoformat_ex : isoformat (1792108800 * SECOND) = $"2026-10-16T00:00:00+00:00" /\
  isoformat (-1) = $"1969-12-31T23:59:59.999999+00:00" /\ date_of (951782400 * SECOND) = (2000, 2, 29) /\
  date_of MAX_INSTANT = (9999, 12, 31) /\ date_of MIN_INSTANT = (1, 1, 1).
Proof. by vm_compute. Qed.

(** ** [datetime.fromtimestamp(f, tz=utc)] *)

(** [n / 2 ^ k] to the nearest integer, ties to the even one. *)
Definition round_half_even (n k : Z) : Z :=
  let q := n / 2 ^ k in
  match Z.compare (2 * (n mod 2 ^ k)) (2 ^ k) with
  | Lt => q | Gt => q + 1 | Eq => if Z.even q then q else q + 1
  end.

(** The seconds and the microseconds of a double: its integral part, and its fractional part
    times a million, multiplied in doubles and rounded half to even. *)
Definition split_timestamp (f : spec_float) : option (Z * Z) :=
  match finite_value f with
  | None => None
  | Some (m, e) =>
      if 0 <=? e then Some (m * 2 ^ e, 0)
      else
        let whole := Z.quot m (2 ^ (- e)) in
        let us := SFmul 53 1024 (binary_normalize 53 1024 (m - whole * 2 ^ (- e)) e false) (binary_normalize 53 1024 1000000 0 false) in
        match finite_value us with
        | None => None
        | Some (m', e') =>
            let us := if 0 <=? e' then m' * 2 ^ e' else round_half_even m' (- e') in
            Some (if 1000000 <=? us then (whole + 1, us - 1000000) else if us <? 0 then (whole - 1, us + 1000000) else (whole, us))
        end
  end.

(** A timestamp no [datetime] holds raises one of three classes, as the platform has it. *)
Definition fromtimestamp (f : spec_float) : result Z :=
  match split_timestamp f with
  | Some (s, us) =>
      let t := s * SECOND + us in
      raise_if (negb ((MIN_INSTANT <=? t) && (t <=? MAX_INSTANT))) ValueError;; Ok t
  | None => Err ValueError
  end.

Example fromtimestamp_ex :
  fromtimestamp (S754_finite false 6755399441055744 (-52)) = Ok 1500000 /\ fromtimestamp (S754_finite true 4503599627370496 (-53)) = Ok (-500000) /\
  fromtimestamp (binary_normalize 53 1024 253402300800 0 false) = Err ValueError.
Proof. by vm_compute. Qed.

Example datetime_ex : datetime 2026 10 16 0 0 0 = Ok (1792108800 * SECOND) /\ datetime 9999 12 31 23 59 59 = Ok (MAX_INSTANT - 999999) /\
  datetime 1 1 1 0 0 0 = Ok MIN_INSTANT /\ datetime 2023 2 29 0 0 0 = Err ValueError.
Proof. by vm_compute. Qed.
