(* ===== verification/StatusIssue.v ===== *)
(** Building and reading back whole status lists, [openvc.status.issue]
    (src/src/openvc/status/issue.py): the unsigned list credential, and the status-list token and
    its verification.

    A [datetime] is its wall clock in microseconds and what its [tzinfo] answers; a buffer is the
    bytes it shows.  The compressors, the JSON codec, the signing key and the interpreter's own
    limits on encoding are parameters. *)
From Stdlib Require Import SpecFloat.
From S2P Require Import Prelude Errors PyStr Json Base64 PyNum Datetime VerifyCommon VcJwt SdJwt SdIssue VcIssue StatusIndex StatusCodec StatusCheck.

(** * Instants *)

(** A caller's time: the [tzinfo] of a [datetime] raises, says nothing (a naive value), or gives an offset. *)
Inductive moment := Datetime (wall : Z) (utcoffset : option (option Z)) | Value (v : json).

Definition utc_instant (wall : Z) (utcoffset : option (option Z)) (error : exn) : result Z :=
  match utcoffset with
  | None => Err error
  | Some offset =>
      let t := wall - default 0 offset in
      raise_if (negb ((MIN_INSTANT <=? t) && (t <=? MAX_INSTANT))) error;; Ok t
  end.

(** An integer as a double holds it before rounding. *)
Definition exact (n : Z) : spec_float :=
  match n with Z0 => S754_zero false | Zpos p => S754_finite false p 0 | Zneg p => S754_finite true p 0 end.
(** [timestamp()] of an aware [datetime]: its microseconds over a million, correctly rounded. *)
Definition timestamp (instant : Z) : spec_float := SFdiv 53 1024 (exact instant) (exact SECOND).

(** [utc_epoch] of a [datetime]: a timestamp needs no UTC [datetime]. *)
Definition utc_epoch (wall : Z) (utcoffset : option (option Z)) (error : exn) : result Z :=
  match utcoffset with
  | None => Err error
  | Some offset => Ok (int_of_num (NFloat (timestamp (wall - default 0 offset))))
  end.

Example timestamp_ex : int_of_num (NFloat (timestamp 1500000)) = 1 /\ int_of_num (NFloat (timestamp (-1500000))) = -1 /\
  int_of_num (NFloat (timestamp MAX_INSTANT)) = 253402300800 /\ int_of_num (NFloat (timestamp 1792108800999999)) = 1792108800.
Proof. by vm_compute. Qed.

Definition iso (value : moment) : result pystr :=
  match value with
  | Datetime wall offset => t ← utc_instant wall offset StatusListError; Ok (take 19 (isoformat t) ++ $"Z")
  | Value _ => Err StatusListError
  end.

Definition epoch (value : moment) : result Z :=
  match value with
  | Datetime wall offset => t ← utc_instant wall offset StatusListError; Ok (int_of_num (NFloat (timestamp t)))
  | Value v =>
      raise_if (negb (is_numeric_date v)) StatusListError;;
      Ok (match as_num v with Some n => int_of_num n | None => 0 end)
  end.

(** [utc_instant] of any value, [None] being the current time; the text and the window made of it. *)
Definition utc_reading (clock : Z) (value : moment) (error : exn) : result Z :=
  match value with
  | Datetime wall offset => utc_instant wall offset error
  | Value JNull => Ok clock
  | Value _ => Err error
  end.
Definition utc_iso (clock : Z) (value : moment) (error : exn) : result pystr :=
  t ← utc_reading clock value error; Ok (take 19 (isoformat t) ++ $"Z").
Definition utc_window (clock : Z) (now : moment) (leeway_s : json) (error : exn) : result (Z * Z) :=
  instant ← utc_reading clock now error; l ← leeway_seconds leeway_s error; Ok (instant, l * SECOND).

Example utc_iso_ex : utc_iso 0 (Datetime (1792108800 * SECOND - 1) (Some (Some (3600 * SECOND)))) ProofError = Ok ($"2026-10-15T22:59:59Z") /\
  utc_iso (-62135596800 * SECOND) (Value JNull) ProofError = Ok ($"0001-01-01T00:00:00Z") /\
  utc_iso 0 (Datetime MAX_INSTANT (Some (Some (-1)))) ProofError = Err ProofError.
Proof. by vm_compute. Qed.

(** [value is None]. *)
Definition moment_none (value : moment) : bool := match value with Value JNull => true | _ => false end.

Definition ttl (value : json) : result (option Z) :=
  match value with
  | JNull => Ok None
  | JInt n => raise_if (negb ((1 <=? n) && is_numeric_date (JInt n))) StatusListError;; Ok (Some n)
  | _ => Err StatusListError
  end.

(** [None] is an object that exports no readable buffer. *)
Definition packed (value : option bytes) : result bytes :=
  match value with
  | None => Err StatusListError
  | Some data => raise_if (MAX_DECOMPRESSED_BYTES <? len data) StatusListError;; Ok data
  end.

(** * The list credential *)

Definition VC2_CONTEXT : pystr := $"https://www.w3.org/ns/credentials/v2".
Definition VC_BASE_CONTEXTS : list pystr := [VC2_CONTEXT; $"https://www.w3.org/2018/credentials/v1"].
Definition BITSTRING_CREDENTIAL_TYPE : pystr := $"BitstringStatusListCredential".
Definition BITSTRING_SUBJECT_TYPE : pystr := $"BitstringStatusList".
Definition STATUS_LIST_JWT_TYP : pystr := $"statuslist+jwt".
Definition ISSUER_MAX_DEPTH : Z := JSON_MAX_DEPTH - 2.
Definition CONTEXT_ENTRY_MAX_DEPTH : Z := JSON_MAX_DEPTH - 3.

(** What [json.loads(json.dumps(value, default=_not_json))] makes of an encodable value. *)
Fixpoint wire (value : json) : json :=
  match value with
  | JList l => JList (map wire l)
  | JDict d => JDict (map (fun kv => (kv.1, wire kv.2)) d)
  | JOther => JNull
  | _ => value
  end.

(** A field that is [None] or a non-empty string. *)
Definition optional_text (value : json) : result (option pystr) :=
  match value with JNull => Ok None | _ => s ← text value; Ok (Some s) end.

Section build.
(** Whether [json.dumps] can write a value at all: no cycle, no nesting or integer past the interpreter's own limits. *)
Context (encodable : json -> bool).
Context (gzip_compress zlib_compress : bytes -> bytes).

Definition refuse_unreadable (value : json) (max_depth : Z) : result unit :=
  raise_if (negb (encodable value)) StatusListError;;
  raise_if (nesting_exceeds (wire value) max_depth) StatusListError;;
  raise_if (carries_sd_jwt_marker (wire value)) StatusListError.

Definition credential_issuer (value : json) : result json :=
  match value with
  | JStr _ => s ← text value; Ok (JStr s)
  | JDict issuer =>
      raise_if (dmem issuer ($"@id")) StatusListError;;
      match dget issuer ($"id") with
      | None => Err StatusListError
      | Some id =>
          id ← text id;
          let issuer := dset issuer ($"id") (JStr id) in
          refuse_unreadable (JDict issuer) ISSUER_MAX_DEPTH;;
          Ok (JDict issuer)
      end
  | _ => Err StatusListError
  end.

Definition context_entry (entry : json) : result json :=
  match entry with
  | JStr s => raise_if (bool_decide (s = [])) StatusListError;; Ok entry
  | JDict _ => refuse_unreadable entry CONTEXT_ENTRY_MAX_DEPTH;; Ok entry
  | _ => Err StatusListError
  end.

Definition contexts (value : json) : result (list json) :=
  match value with
  | JNull => Ok [JStr VC2_CONTEXT]
  | JList [] => Err StatusListError
  | JList (first :: rest) =>
      match first with
      | JStr s => raise_if (negb (bool_decide (s ∈ VC_BASE_CONTEXTS))) StatusListError;;
                  rest ← mapR context_entry rest; Ok (JStr s :: rest)
      | _ => Err StatusListError
      end
  | _ => Err StatusListError
  end.

Definition optional_iso (value : moment) : result (option pystr) :=
  if moment_none value then Ok None else s ← iso value; Ok (Some s).

Definition optional_member (name : pystr) (value : option json) : jobject :=
  match value with Some v => [(name, v)] | None => [] end.

Definition list_subject (subject_id status_purpose encoded_list : pystr) (ttl : option Z) : jobject :=
  [($"id", JStr subject_id); ($"type", JStr BITSTRING_SUBJECT_TYPE); ($"statusPurpose", JStr status_purpose);
   ($"encodedList", JStr encoded_list)] ++ optional_member ($"ttl") (JInt <$> ttl).

Definition build_status_list_credential (id issuer : json) (bitstring : option bytes) (status_purpose : json)
    (valid_from valid_until : moment) (subject_id ttl_ : json) (contexts_ : json) : result jobject :=
  id ← text id;
  status_purpose ← text status_purpose;
  issuer ← credential_issuer issuer;
  subject_id ← optional_text subject_id;
  context ← contexts contexts_;
  raw_bits ← packed bitstring;
  ttl ← ttl ttl_;
  valid_from_iso ← optional_iso valid_from;
  valid_until_iso ← optional_iso valid_until;
  let subject := list_subject (default (id ++ $"#list") subject_id) status_purpose (encode_bitstring gzip_compress raw_bits) ttl in
  Ok ([($"@context", JList context); ($"id", JStr id);
       ($"type", JList [JStr ($"VerifiableCredential"); JStr BITSTRING_CREDENTIAL_TYPE]);
       ($"issuer", issuer); ($"credentialSubject", JDict subject)]
      ++ optional_member ($"validFrom") (JStr <$> valid_from_iso) ++ optional_member ($"validUntil") (JStr <$> valid_until_iso)).

(** * The status-list token *)

Context (json_bytes : json -> result bytes) (sign : bytes -> result bytes).

(** [now] is [time.time()] in whole seconds. *)
Definition status_token_payload (now : Z) (uri : json) (status_list : option bytes) (bits : json) (issued_at expires : moment)
    (ttl_ issuer : json) : result jobject :=
  uri ← text uri;
  issuer ← optional_text issuer;
  bits ← check_bits bits;
  packed ← packed status_list;
  iat ← if moment_none issued_at then Ok now else epoch issued_at;
  exp ← if moment_none expires then Ok None else e ← epoch expires; Ok (Some e);
  ttl ← ttl ttl_;
  Ok ([($"sub", JStr uri); ($"iat", JInt iat);
       ($"status_list", JDict [($"bits", JInt bits); ($"lst", JStr (encode_status_list zlib_compress packed))])]
      ++ optional_member ($"iss") (JStr <$> issuer) ++ optional_member ($"exp") (JInt <$> exp) ++ optional_member ($"ttl") (JInt <$> ttl)).

Definition status_token_header (key_alg key_kid : pystr) : jobject :=
  [($"typ", JStr STATUS_LIST_JWT_TYP); ($"alg", JStr key_alg); ($"kid", JStr key_kid)].

Definition build_status_list_token (key_alg key_kid : pystr) (now : Z) (uri : json) (status_list : option bytes) (bits : json)
    (issued_at expires : moment) (ttl_ issuer : json) : result pystr :=
  payload ← status_token_payload now uri status_list bits issued_at expires ttl_ issuer;
  jws_sign_compact json_bytes sign ALLOWED_ALGS key_alg (status_token_header key_alg key_kid) payload.
End build.

Section verify.
Context (json_loads : bytes -> result json) (verify_signature : pystr -> json -> bytes -> bytes -> result bool).

(** The instant the dates are judged at; [clock] is [time.time()]. *)
Definition pinned_instant (now : moment) (clock : num) : result num :=
  match now with
  | Value JNull => Ok clock
  | Value (JInt n) => Ok (NInt n)
  | Datetime wall offset => e ← utc_epoch wall offset StatusListError; Ok (NInt e)
  | Value _ => Err StatusListError
  end.

Definition verify_status_list_token (token : pystr) (public_key_jwk : json) (expected_uri : option pystr) (leeway_s : json)
    (now : moment) (clock : num) : result jobject :=
  leeway_seconds leeway_s StatusListError;;
  '(header, claims) ← verify_compact json_loads verify_signature token public_key_jwk ALLOWED_ALGS;
  raise_if (negb (eq_str (jget header ($"typ")) STATUS_LIST_JWT_TYP)) StatusListError;;
  raise_if (match expected_uri with Some u => negb (eq_str (jget claims ($"sub")) u) | None => false end) StatusListError;;
  raise_if (existsb (fun name => match dget claims name with Some v => negb (is_numeric_date v) | None => false end)
              [$"exp"; $"nbf"; $"iat"]) StatusListError;;
  instant ← pinned_instant now clock;
  catch_as (fun e => isinstance e ClaimsInvalid) StatusListError (check_jwt_temporal claims leeway_s instant true);;
  Ok claims.
End verify.

(** * What the builder lets through *)

Lemma wire_depth v : json_depth (wire v) = json_depth v.
Proof.
  induction v as [| | | | |l IH|d IH|] using json_ind'; try done; cbn [wire json_depth]; f_equal.
  - induction IH as [|v l Hv _ IHl]; csimpl; [done|]. by rewrite Hv, IHl.
  - induction IH as [|kv d Hv _ IHd]; csimpl; [done|]. by rewrite Hv, IHd.
Qed.

Lemma wire_marker v : has_marker (wire v) = has_marker v.
Proof.
  induction v as [| | | | |l IH|d IH|] using json_ind'; try done; cbn [wire has_marker].
  - induction IH as [|v l Hv _ IHl]; csimpl; [done|]. by rewrite Hv, IHl.
  - f_equal.
    + assert (forall k, dmem (map (fun kv => (kv.1, wire kv.2)) d) k = dmem d k) as Hk; [|unfold MARKERS; cbn [existsb]; by rewrite !Hk].
      intros k. apply eq_iff_eq_true. rewrite !dmem_spec. by rewrite <-list_fmap_compose.
    + induction IH as [|kv d Hv _ IHd]; csimpl; [done|]. by rewrite Hv, IHd.
Qed.

Lemma refuse_unreadable_Ok encodable v n : 0 <= n -> refuse_unreadable encodable v n = Ok tt -> json_depth v <= n /\ has_marker v = false.
Proof.
  intros Hn H. unfold refuse_unreadable in H. apply bind_Ok in H as (? & _ & H).
  apply bind_Ok in H as (? & Hd%raise_if_Ok & Hm%raise_if_Ok). rewrite nesting_exceeds_spec, wire_depth in Hd by done.
  rewrite carries_spec, wire_marker in Hm. split; [by apply Z.ltb_ge|done].
Qed.

Lemma credential_issuer_Ok encodable v issuer :
  credential_issuer encodable v = Ok issuer -> issuer = v /\ json_depth v <= ISSUER_MAX_DEPTH /\ has_marker v = false /\
    exists iss, iss <> [] /\ (v = JStr iss \/ exists d, v = JDict d /\ jget d ($"id") = JStr iss /\ no_other_id d).
Proof.
  unfold credential_issuer. destruct v as [| | | |s| |d|]; try done; intros H.
  - apply bind_Ok in H as (t & [[= <-] Hne]%text_Ok & [= <-]). split_and!; [done|by vm_compute|done|]. exists s. auto.
  - apply bind_Ok in H as (? & Hid%raise_if_Ok & H). destruct (dget d ($"id")) as [i|] eqn:Ei; [|done].
    apply bind_Ok in H as (iss & [-> Hne]%text_Ok & H). rewrite dset_same in H by done.
    apply bind_Ok in H as ([] & [Hd Hm]%refuse_unreadable_Ok & [= <-]); [|done]. split_and!; try done.
    exists iss. split; [done|]. right. exists d. split_and!; try done; [unfold jget; by rewrite Ei|].
    unfold no_other_id. unfold dmem in Hid. by destruct (dget d ($"@id")).
Qed.

Lemma context_entry_Ok encodable v e :
  context_entry encodable v = Ok e -> e = v /\ json_depth v <= CONTEXT_ENTRY_MAX_DEPTH /\ has_marker v = false.
Proof.
  unfold context_entry. destruct v as [| | | |s| |d|]; try done; intros H.
  - apply bind_Ok in H as (? & _ & [= <-]). split_and!; done.
  - apply bind_Ok in H as ([] & [Hd Hm]%refuse_unreadable_Ok & [= <-]); done.
Qed.

Lemma contexts_Ok encodable v l :
  contexts encodable v = Ok l -> (v = JNull /\ l = [JStr VC2_CONTEXT] \/ v = JList l) /\
    forall e, e ∈ l -> json_depth e <= CONTEXT_ENTRY_MAX_DEPTH /\ has_marker e = false.
Proof.
  unfold contexts. destruct v as [| | | | |[|[| | | |s| | |] rest]| |]; try done; intros H.
  - injection H as <-. split; [by left|]. intros e ->%list_elem_of_singleton. done.
  - apply bind_Ok in H as (? & _ & H). apply bind_Ok in H as (rest' & Hr%mapR_Ok & [= <-]).
    assert (rest' = rest /\ forall e, e ∈ rest -> json_depth e <= CONTEXT_ENTRY_MAX_DEPTH /\ has_marker e = false) as [-> Hrest].
    { induction Hr as [|e e' rest rest' [-> He]%context_entry_Ok _ [-> IH]]; [split; [done|]; by intros ? ?%not_elem_of_nil|].
      split; [done|]. intros e'' [->|Hin]%elem_of_cons; auto. }
    split; [by right|]. intros e [->|Hin]%elem_of_cons; [done|auto].
Qed.

Lemma optional_text_Ok v s : optional_text v = Ok (Some s) -> s <> [].
Proof. unfold optional_text. destruct v; try done; intros H; by apply bind_Ok in H as (? & [_ Hs]%text_Ok & [= <-]). Qed.

Lemma has_marker_list l : (forall v, v ∈ l -> has_marker v = false) -> has_marker (JList l) = false.
Proof.
  intros Hl. cbn [has_marker]. apply existsb_false_Forall, Forall_forall. intros v Hv. by apply Hl.
Qed.

Lemma json_depth_list l n : 0 <= n -> (forall v, v ∈ l -> json_depth v <= n) -> json_depth (JList l) <= n + 1.
Proof.
  intros Hn Hl. rewrite json_depth_children. cbn [is_container children]. enough (max_depth l <= n) by lia.
  induction l as [|v l IH]; cbn [max_depth foldr]; [lia|]. fold (max_depth l).
  apply Z.max_lub; [apply Hl; left|apply IH; intros; apply Hl; by right].
Qed.

(** The names a builder chooses are none of the reserved ones. *)
Ltac unmarked_keys Hkeys :=
  let k := fresh in let Hk := fresh in let Hin := fresh in
  intros k Hk Hin; apply Hkeys in Hin; unfold MARKERS in Hk; rewrite !elem_of_cons, elem_of_nil in Hk;
  destruct Hk as [->|[->|[->|[]]]]; revert Hin; apply (bool_decide_unpack _); vm_compute; exact I.

Lemma list_subject_ok sid q enc t :
  let subject := list_subject sid q enc t in
  json_ok (JDict subject) /\ json_depth (JDict subject) <= 1 /\ has_marker (JDict subject) = false.
Proof.
  intros subject.
  assert (Hv : forall k v, (k, v) ∈ subject -> is_str v = true \/ exists n, v = JInt n).
  { intros k v. unfold subject, list_subject. rewrite elem_of_app, !elem_of_cons, elem_of_nil.
    intros [[[= _ ->]|[[= _ ->]|[[= _ ->]|[[= _ ->]|[]]]]]|Hin]; auto.
    destruct t; [|by apply not_elem_of_nil in Hin]. apply list_elem_of_singleton in Hin as [= _ ->]. eauto. }
  assert (Hk : subject.*1 ⊆ [$"id"; $"type"; $"statusPurpose"; $"encodedList"; $"ttl"]).
  { unfold subject, list_subject. destruct t; csimpl; set_solver. }
  split_and!.
  - apply json_ok_dict. split; [unfold subject, list_subject; destruct t; apply (bool_decide_unpack _); vm_compute; exact I|].
    apply Forall_forall. intros [k v] [Hs|[n ->]]%Hv; [by destruct v|done].
  - apply (json_depth_dict _ 0); [done|]. intros k v [Hs|[n ->]]%Hv; [by destruct v|done].
  - apply has_marker_ok; [unmarked_keys Hk|]. intros k v [Hs|[n ->]]%Hv; [by destruct v|done].
Qed.

(** What the rest of the system needs of a list credential, whatever built it. *)
Record list_credential (gzip_compress : bytes -> bytes) (u q iss : pystr) (bits : bytes) (c : jobject) : Prop := {
  lc_named : well_named c iss;
  lc_json : json_ok (JDict c);
  lc_shallow : json_depth (JDict c) < JSON_MAX_DEPTH;
  lc_unmarked : has_marker (JDict c) = false;
  lc_types : check_types c [$"VerifiableCredential"; BITSTRING_CREDENTIAL_TYPE] = Ok tt;
  lc_id : jget c ($"id") = JStr u;
  lc_size : len bits <= MAX_DECOMPRESSED_BYTES;
  lc_list : exists subject, jget c ($"credentialSubject") = JDict subject /\ jget subject ($"statusPurpose") = JStr q /\
    jget subject ($"encodedList") = JStr (encode_bitstring gzip_compress bits);
}.

Section built.
Context (encodable : json -> bool) (gzip_compress : bytes -> bytes).
Context (id issuer : json) (bitstring : option bytes) (status_purpose : json) (valid_from valid_until : moment)
  (subject_id ttl_ contexts_ : json) (c : jobject).
Context (Hissuer : json_ok issuer) (Hcontexts : json_ok contexts_).

Lemma build_status_list_credential_Ok :
  build_status_list_credential encodable gzip_compress id issuer bitstring status_purpose valid_from valid_until subject_id ttl_ contexts_ = Ok c ->
  exists u q iss bits, id = JStr u /\ status_purpose = JStr q /\ bitstring = Some bits /\ list_credential gzip_compress u q iss bits c.
Proof using Hissuer Hcontexts.
  unfold build_status_list_credential. intros H.
  apply bind_Ok in H as (u & [-> Hu]%text_Ok & H). apply bind_Ok in H as (q & [-> Hq]%text_Ok & H).
  apply bind_Ok in H as (iss' & (-> & Hid & Him & iss & Hne & His)%credential_issuer_Ok & H).
  apply bind_Ok in H as (sid & Hsid & H). apply bind_Ok in H as (ctx & (Hctx & Hce)%contexts_Ok & H).
  apply bind_Ok in H as (bits & Hbits & H). apply bind_Ok in H as (t & _ & H).
  apply bind_Ok in H as (vf & _ & H). apply bind_Ok in H as (vu & _ & Hc).
  unfold packed in Hbits. destruct bitstring as [bits'|]; [|done].
  apply bind_Ok in Hbits as (? & Hlen%raise_if_Ok & [= ->]). apply Z.ltb_ge in Hlen.
  set (sid' := default (u ++ $"#list") sid) in Hc.
  assert (Hsne : sid' <> []).
  { unfold sid'. destruct sid; [by eapply optional_text_Ok|]. by destruct u. }
  set (subject := list_subject _ _ _ _) in Hc. apply Ok_inj in Hc.
  assert (Hsub : jget c ($"credentialSubject") = JDict subject) by (subst c; done).
  assert (Hissc : jget c ($"issuer") = issuer) by (subst c; done).
  assert (Hidc : jget c ($"id") = JStr u) by (subst c; done).
  assert (Hmem : forall k v, (k, v) ∈ c -> v = JList ctx \/ v = issuer \/ v = JDict subject \/ is_str v = true \/
            v = JList [JStr ($"VerifiableCredential"); JStr BITSTRING_CREDENTIAL_TYPE]).
  { intros k v. subst c. rewrite !elem_of_app, !elem_of_cons, elem_of_nil.
    intros [[[= _ ->]|[[= _ ->]|[[= _ ->]|[[= _ ->]|[[= _ ->]|[]]]]]]|[Hin|Hin]]; auto.
    - destruct vf; [|by apply not_elem_of_nil in Hin]. apply list_elem_of_singleton in Hin as [= _ ->]. auto.
    - destruct vu; [|by apply not_elem_of_nil in Hin]. apply list_elem_of_singleton in Hin as [= _ ->]. auto. }
  assert (Hkeys : c.*1 ⊆ [$"@context"; $"id"; $"type"; $"issuer"; $"credentialSubject"; $"validFrom"; $"validUntil"])
    by (subst c; destruct vf, vu; csimpl; set_solver).
  destruct (list_subject_ok sid' q (encode_bitstring gzip_compress bits) t) as (Hsok & Hsd & Hsm). fold subject in Hsok, Hsd, Hsm.
  exists u, q, iss, bits. split_and!; [done..|]. split.
  - split.
    + rewrite Hissc. destruct His as [->|(d & -> & Hd & Ho)]; [by left|]. right. by exists d.
    + right. by rewrite Hidc.
    + intros _. unfold subject_of. rewrite Hsub. done.
  - apply json_ok_dict. split; [subst c; destruct vf, vu; apply (bool_decide_unpack _); vm_compute; exact I|].
    apply Forall_forall. intros [k v] Hin. apply Hmem in Hin as [->|[->|[->|[Hs| ->]]]]; cbn [snd]; [|done|done|by destruct v|].
    + destruct Hctx as [[_ ->]| ->]; [|done]. apply json_ok_list. by repeat constructor.
    + apply json_ok_list. by repeat constructor.
  - enough (json_depth (JDict c) <= 98 + 1) by (unfold JSON_MAX_DEPTH; lia). apply json_depth_dict; [done|].
    intros k v [->|[->|[->|[Hs| ->]]]]%Hmem; [|exact Hid|lia|by destruct v|by vm_compute].
    change 98 with (97 + 1). apply json_depth_list; [done|]. intros e He. by apply Hce in He as [He _].
  - apply has_marker_ok; [unmarked_keys Hkeys|]. intros k v [->|[->|[->|[Hs| ->]]]]%Hmem; [|done|done|by destruct v|done].
    apply has_marker_list. intros e He. by apply Hce in He as [_ He].
  - subst c. by vm_compute.
  - done.
  - done.
  - by exists subject.
Qed.
End built.

(** * What is published reads back *)

(** The life of a W3C status list.  A list credential the builder accepts is one the default
    lane reads back: signed as a VC-JWT it verifies, member for member, as a
    [BitstringStatusListCredential] of its own issuer, whatever objects the caller put in its
    issuer and its contexts; and a credential carrying the entry built for a slot of it, checked
    against the verified list, reports exactly the bit of that slot. *)
Theorem issued_status_list_reads_back json_loads verify_signature lower on_curve from_jwk pyjwt_decode is_space is_decimal fromisoformat
    json_bytes sign encodable gzip_read gzip_compress (su : suite) (alg kid : pystr) (jwk : json) (clock now instant l : Z)
    (Hsetup : issuing_setup json_loads verify_signature lower on_curve from_jwk pyjwt_decode json_bytes sign su alg jwk clock)
    (Hgzip : gzip_roundtrip gzip_read gzip_compress)
    (id issuer : json) (bits : bytes) (status_purpose : json) (valid_from valid_until : moment) (subject_id ttl_ contexts_ : json) (c : jobject)
    (Hissuer : json_ok issuer) (Hcontexts : json_ok contexts_) (Hbits : bytes_ok bits)
    (Hbuild : build_status_list_credential encodable gzip_compress id issuer (Some bits) status_purpose valid_from valid_until
                subject_id ttl_ contexts_ = Ok c)
    (Hclock : leeway su = JInt l /\ 0 <= l <= MAX_LEEWAY_S /\ now <= clock + l /\ is_numeric_date (JInt now) = true)
    (Hwindow : check_validity_window is_space is_decimal fromisoformat c [] instant (leeway su) true = Ok false)
    (token : pystr) (Hsigned : vc_sign json_bytes sign su alg kid now c None = Ok token)
    (index entry_id : json) (n b : Z) (pointer : jobject)
    (Hentry : build_status_list_entry id index status_purpose entry_id = Ok pointer)
    (Hindex : index = JInt n) (Hb : bit_statuses bits !! Z.to_nat n = Some b) :
  exists r u q, status_purpose = JStr q /\ id = JStr u /\
    vc_verify json_loads verify_signature lower on_curve from_jwk pyjwt_decode is_space is_decimal fromisoformat
      su token jwk [$"VerifiableCredential"; BITSTRING_CREDENTIAL_TYPE] JNull true (NInt clock) instant = Ok r /\
    credential r = c /\ vc_expired r = false /\
    forall resolve, resolve u = Ok (JDict (credential r)) ->
      exists res, check_credential_status gzip_read [($"credentialStatus", JDict pointer)] resolve = Ok res /\
        revoked res = negb (b =? 0) && bool_decide (q = PURPOSE_REVOCATION) /\
        suspended res = negb (b =? 0) && bool_decide (q = PURPOSE_SUSPENSION).
Proof.
  apply build_status_list_credential_Ok in Hbuild as (u & q & iss & bits' & -> & -> & [= <-] & Hc); [|done..].
  destruct Hc as [Hn Hj Hd Hm Ht _ Hlen (subject & Hs & Hp & He)]. destruct Hclock as (Hl & Hlr & Hnow & Hnum).
  destruct (signed_verifies _ _ _ _ _ _ is_space is_decimal fromisoformat _ _ su alg kid jwk clock Hsetup l now c None iss
    Hn Hl Hlr Hnow I Hnum I Hj Hd Hm instant _ token Hwindow Ht Hsigned) as [sub Hv].
  exists (Build_VerifiedCredential c iss sub (vc_payload now c None) false), u, q. split_and!; try done.
  intros resolve Hres. by eapply (entry_bit_reads_back gzip_read gzip_compress bits (JStr u) (JStr q) index).
Qed.

Definition list_example_issuer : json := JDict [($"id", JStr ($"did:x")); ($"name", JStr ($"..."))].
Definition list_example : jobject :=
  [($"@context", JList [JStr VC2_CONTEXT]); ($"id", JStr ($"https://x/1"));
   ($"type", JList [JStr ($"VerifiableCredential"); JStr BITSTRING_CREDENTIAL_TYPE]); ($"issuer", list_example_issuer);
   ($"credentialSubject", JDict (list_subject ($"https://x/1#list") PURPOSE_REVOCATION (encode_bitstring (fun d => d) [0; 64]) None))].
Definition list_example_bytes (v : json) : result bytes :=
  if bool_decide (v = JDict (vc_header ($"ES256") ($"k"))) then Ok [1]
  else if bool_decide (v = JDict (vc_payload 100 list_example None)) then Ok [2] else Err TypeError.
Definition list_example_loads (raw : bytes) : result json :=
  if bool_decide (raw = [1]) then Ok (JDict (vc_header ($"ES256") ($"k")))
  else if bool_decide (raw = [2]) then Ok (JDict (vc_payload 100 list_example None)) else Err ValueError.
Definition list_example_decode (token : pystr) (_ : json) (_ : pystr) (_ _ : json) (_ : bool) : jwt_outcome :=
  match parse_compact list_example_loads token with Ok (_, claims, _, _) => JwtClaims claims | Err _ => JwtInvalid end.
Definition list_example_suite : suite := {| leeway := JInt 60; algs := ALLOWED_ALGS |}.
Definition list_example_jwk : json := JDict [($"kty", JStr ($"EC")); ($"crv", JStr ($"P-256"))].
Definition list_example_lower (s : pystr) : pystr := if bool_decide (s = $"JWT") then $"jwt" else s.

Lemma list_example_setup : issuing_setup list_example_loads (fun _ _ _ _ => Ok true) list_example_lower (fun _ _ => true) (fun _ => true)
  list_example_decode list_example_bytes (fun _ => Ok [0]) list_example_suite ($"ES256") list_example_jwk 90.
Proof.
  split.
  - intros v raw _ _. unfold list_example_bytes. repeat case_bool_decide; intros [= <-]; subst;
      (split; [constructor; [split; lia|constructor]|vm_compute; reflexivity]).
  - intros m sig [= <-]. split; [|done]. constructor; [split; lia|constructor].
  - intros token audience header claims si sig Hp _ _ _ _. unfold list_example_decode. by rewrite Hp.
  - vm_compute. reflexivity.
  - vm_compute. reflexivity.
Qed.

Lemma issued_status_list_reads_back_witness : exists r u q, JStr PURPOSE_REVOCATION = JStr q /\ JStr ($"https://x/1") = JStr u /\
    vc_verify list_example_loads (fun _ _ _ _ => Ok true) list_example_lower (fun _ _ => true) (fun _ => true) list_example_decode
      (fun _ => false) (fun _ => false) (fun _ => None) list_example_suite ($"AQ.Ag.AA") list_example_jwk
      [$"VerifiableCredential"; BITSTRING_CREDENTIAL_TYPE] JNull true (NInt 90) 0 = Ok r /\
    credential r = list_example /\ vc_expired r = false /\
    forall resolve, resolve u = Ok (JDict (credential r)) ->
      exists res, check_credential_status stored_read [($"credentialStatus", JDict [($"type", JStr BITSTRING_ENTRY_TYPE);
          ($"statusPurpose", JStr PURPOSE_REVOCATION); ($"statusListIndex", JStr ($"9")); ($"statusListCredential", JStr ($"https://x/1"))])] resolve = Ok res /\
        revoked res = negb (1 =? 0) && bool_decide (q = PURPOSE_REVOCATION) /\
        suspended res = negb (1 =? 0) && bool_decide (q = PURPOSE_SUSPENSION).
Proof.
  apply (issued_status_list_reads_back _ _ _ _ _ _ (fun _ => false) (fun _ => false) (fun _ => None) _ _ (fun _ => true) stored_read (fun d => d)
    _ ($"ES256") ($"k") _ _ 100 0 60 list_example_setup) with (issuer := list_example_issuer) (bits := [0; 64])
    (valid_from := Value JNull) (valid_until := Value JNull) (subject_id := JNull) (ttl_ := JNull) (contexts_ := JNull) (index := JInt 9) (entry_id := JNull) (n := 9).
  - intros data Hd. split; [done|]. intros. reflexivity.
  - unfold list_example_issuer. solve_json_ok.
  - exact I.
  - by apply (bool_decide_unpack _); vm_compute.
  - vm_compute. reflexivity.
  - split_and!; by vm_compute.
  - vm_compute. reflexivity.
  - vm_compute. reflexivity.
  - vm_compute. reflexivity.
  - reflexivity.
  - vm_compute. reflexivity.
Defined.

(** ** The token *)

Lemma verify_compact_parsed json_loads verify_signature token jwk allowed header claims si sig alg :
  parse_compact json_loads token = Ok (header, claims, si, sig) -> jget header ($"alg") = JStr alg -> alg ∈ allowed ->
  dmem header ($"crit") = false -> verify_signature alg jwk si sig = Ok true ->
  verify_compact json_loads verify_signature token jwk allowed = Ok (header, claims).
Proof.
  intros Hp Ha Hin Hc Hv. unfold verify_compact. rewrite Hp. cbn [mbind result_bind]. rewrite Ha. cbn [allowed_alg].
  rewrite bool_decide_eq_true_2 by done. unfold reject_unknown_crit. rewrite Hc. cbn [raise_if mbind result_bind]. rewrite Hv.
  done.
Qed.

Lemma temporal_dates claims l instant ct b : check_jwt_temporal claims l instant ct = Ok b ->
  existsb (fun name => match dget claims name with Some v => negb (is_numeric_date v) | None => false end) [$"exp"; $"nbf"; $"iat"] = false.
Proof.
  unfold check_jwt_temporal. intros H. apply bind_Ok in H as (? & _ & H). apply bind_Ok in H as (? & Hd & _).
  by apply raise_if_Ok in Hd.
Qed.

Lemma verify_status_list_token_Ok json_loads verify_signature token jwk expected_uri leeway_s now clock claims :
  verify_status_list_token json_loads verify_signature token jwk expected_uri leeway_s now clock = Ok claims <->
  exists header instant l, leeway_seconds leeway_s StatusListError = Ok l /\
    verify_compact json_loads verify_signature token jwk ALLOWED_ALGS = Ok (header, claims) /\
    jget header ($"typ") = JStr STATUS_LIST_JWT_TYP /\ (forall u, expected_uri = Some u -> jget claims ($"sub") = JStr u) /\
    pinned_instant now clock = Ok instant /\ check_jwt_temporal claims leeway_s instant true = Ok false.
Proof.
  unfold verify_status_list_token. split.
  - intros H. apply bind_Ok in H as (l & Hl & H). apply bind_Ok in H as ([header claims'] & Hv & H).
    apply bind_Ok in H as (? & Ht%raise_if_Ok & H). apply bind_Ok in H as (? & Hs%raise_if_Ok & H).
    apply bind_Ok in H as (? & _ & H). apply bind_Ok in H as (instant & Hi & H).
    apply bind_Ok in H as (b & Hb%catch_as_Ok & [= <-]). exists header, instant, l. split_and!; try done.
    + by apply eq_str_true, negb_false_iff.
    + intros u ->. by apply eq_str_true, negb_false_iff.
    + by rewrite (enforced_not_expired _ _ _ _ Hb) in Hb.
  - intros (header & instant & l & Hl & Hv & Ht & Hs & Hi & Hc). rewrite Hl. cbn [mbind result_bind]. rewrite Hv.
    cbn [mbind result_bind]. rewrite (proj2 (eq_str_true _ _)) by done. cbn [negb raise_if mbind result_bind].
    assert (match expected_uri with Some u => negb (eq_str (jget claims ($"sub")) u) | None => false end = false) as ->.
    { destruct expected_uri; [|done]. by rewrite (proj2 (eq_str_true _ _)) by auto. }
    cbn [raise_if mbind result_bind]. rewrite (temporal_dates _ _ _ _ _ Hc). cbn [raise_if mbind result_bind]. rewrite Hi.
    cbn [mbind result_bind]. by rewrite Hc.
Qed.

(** What a verified status-list token guarantees.  The claims are those of a compact JWS that
    parses, whose algorithm is on the allow-list and which declares no critical extension; the
    issuer's key verifies its signature over exactly those claims; its [typ] is
    [statuslist+jwt]; its [sub] is the URI the caller fetched it from, when one was given; and its
    dates are finite numbers that hold at the pinned instant within the leeway. *)
Theorem verify_status_list_token_sound json_loads verify_signature (token : pystr) (jwk : json) (expected_uri : option pystr)
    (leeway_s : json) (now : moment) (clock : num) (claims : jobject)
    (H : verify_status_list_token json_loads verify_signature token jwk expected_uri leeway_s now clock = Ok claims) :
  exists header si sig alg instant,
    parse_compact json_loads token = Ok (header, claims, si, sig) /\
    jget header ($"alg") = JStr alg /\ alg ∈ ALLOWED_ALGS /\ dmem header ($"crit") = false /\
    verify_signature alg jwk si sig = Ok true /\ jget header ($"typ") = JStr STATUS_LIST_JWT_TYP /\
    (forall u, expected_uri = Some u -> jget claims ($"sub") = JStr u) /\
    pinned_instant now clock = Ok instant /\ check_jwt_temporal claims leeway_s instant true = Ok false.
Proof.
  apply verify_status_list_token_Ok in H as (header & instant & l & _ & Hv & Ht & Hs & Hi & Hc).
  apply verify_compact_Ok in Hv as (si & sig & alg & Hp & Ha & Hin & Hcrit & Hver). exists header, si, sig, alg, instant.
  by split_and!.
Qed.

Lemma status_token_payload_Ok zlib_compress now uri status_list bits issued_at expires ttl_ issuer payload :
  status_token_payload zlib_compress now uri status_list bits issued_at expires ttl_ issuer = Ok payload ->
  exists u data w, uri = JStr u /\ u <> [] /\ bits = JInt w /\ status_list = Some data /\ len data <= MAX_DECOMPRESSED_BYTES /\ valid_width w /\
    jget payload ($"sub") = JStr u /\ json_ok (JDict payload) /\ json_depth (JDict payload) <= JSON_MAX_DEPTH /\
    exists sl, jget payload ($"status_list") = JDict sl /\ jget sl ($"bits") = JInt w /\
      jget sl ($"lst") = JStr (encode_status_list zlib_compress data).
Proof.
  unfold status_token_payload. intros H. apply bind_Ok in H as (u & [-> Hu]%text_Ok & H). apply bind_Ok in H as (iss & _ & H).
  apply bind_Ok in H as (w & [-> Hw]%check_bits_Ok & H). apply bind_Ok in H as (data & Hdata & H). apply bind_Ok in H as (iat & _ & H).
  apply bind_Ok in H as (exp & _ & H). apply bind_Ok in H as (t & _ & Hp). apply Ok_inj in Hp. unfold packed in Hdata.
  destruct status_list as [d|]; [|done]. apply bind_Ok in Hdata as (? & Hlen%raise_if_Ok & [= ->]). apply Z.ltb_ge in Hlen.
  exists u, data, w. split_and!; try done.
  - by subst payload.
  - subst payload. apply json_ok_dict. split; [destruct iss, exp, t; apply (bool_decide_unpack _); vm_compute; exact I|].
    destruct iss, exp, t; cbn [optional_member fmap option_fmap option_map app];
      repeat (apply Forall_cons; split); try apply Forall_nil; solve_json_ok; exact I.
  - subst payload. by destruct iss, exp, t.
  - eexists. split; [by subst payload|]. done.
Qed.

(** The life of an IETF status list.  Every token the builder signs, the key's verifier
    returns with the claims it was built from while their window is open, under the URI it was
    built for; and a referenced token carrying the reference built for an index reads back, from
    those verified claims, exactly the value stored at that index. *)
Theorem issued_status_token_reads_back json_loads verify_signature json_bytes sign z output zlib_compress (alg kid : pystr) (jwk : json)
    (Hcodec : json_codec json_loads json_bytes) (Hkey : key_pair verify_signature sign alg jwk)
    (Hz : zlib_roundtrip z output zlib_compress)
    (now : Z) (data : bytes) (Hdata : bytes_ok data) (u : pystr) (w : Z) (issued_at expires : moment) (ttl_ issuer : json)
    (payload : jobject) (token : pystr)
    (Hpayload : status_token_payload zlib_compress now (JStr u) (Some data) (JInt w) issued_at expires ttl_ issuer = Ok payload)
    (Hbuild : build_status_list_token zlib_compress json_bytes sign alg kid now (JStr u) (Some data) (JInt w) issued_at expires
                ttl_ issuer = Ok token)
    (leeway_s : json) (at_ : moment) (clock instant : num) (Hinstant : pinned_instant at_ clock = Ok instant)
    (Hopen : check_jwt_temporal payload leeway_s instant true = Ok false)
    (n v : Z) (claims : jobject) (Hreference : build_token_status_reference (JStr u) (JInt n) = Ok claims)
    (Hv : token_statuses w data !! Z.to_nat n = Some v) :
  verify_status_list_token json_loads verify_signature token jwk (Some u) leeway_s at_ clock = Ok payload /\
  forall resolve, resolve u = Ok (JDict payload) ->
    exists r, check_token_status z claims resolve = Ok (Some r) /\
      uri (ref r) = u /\ ref_index (ref r) = n /\ status r = v /\
      token_revoked r = (v =? STATUS_INVALID) /\ token_suspended r = (v =? STATUS_SUSPENDED).
Proof.
  assert (exists l, leeway_seconds leeway_s StatusListError = Ok l) as [l Hl].
  { unfold check_jwt_temporal in Hopen. apply bind_Ok in Hopen as (l & Hl%leeway_seconds_Ok & _). exists l. by apply leeway_seconds_Ok. }
  unfold build_status_list_token in Hbuild. rewrite Hpayload in Hbuild. cbn [mbind result_bind] in Hbuild.
  apply status_token_payload_Ok in Hpayload as (u' & data' & w' & [= <-] & Hu & [= <-] & [= <-] & Hlen & Hw & Hsub & Hok & Hd & sl & Hsl & Hb & Hlst).
  split; [|intros resolve Hres; by eapply token_status_reads_back].
  unfold jws_sign_compact in Hbuild. apply bind_Ok in Hbuild as (? & Hin%raise_if_Ok & Hs).
  apply negb_false_iff, bool_decide_eq_true in Hin.
  pose proof Hs as Hs'. unfold sign_compact in Hs'. apply bind_Ok in Hs' as (hb & Hhb & Hs'). apply bind_Ok in Hs' as (pb & Hpb & _).
  assert (json_ok (JDict (status_token_header alg kid))) as Hhok by (unfold status_token_header; solve_json_ok).
  destruct (Hcodec _ _ Hhok ltac:(by vm_compute) Hhb) as [Hhby Hhl]. destruct (Hcodec _ _ Hok Hd Hpb) as [Hpby Hpl].
  destruct (sign_compact_decodes json_loads _ _ _ _ _ _ _ Hhb Hpb Hhby Hpby Hhl Hpl (fun m sig H => proj1 (Hkey m sig H)) Hs)
    as (_ & si & sig & [_ Hsg]%Hkey & Hparse).
  apply verify_status_list_token_Ok. exists (status_token_header alg kid), instant, l. split_and!; try done.
  - by eapply (verify_compact_parsed _ _ _ _ _ _ _ si sig alg).
  - by intros ? [= <-].
Qed.

Definition token_example_payload : jobject :=
  [($"sub", JStr ($"https://x/1")); ($"iat", JInt 100);
   ($"status_list", JDict [($"bits", JInt 2); ($"lst", JStr (encode_status_list (fun d => d) [0; 8]))]);
   ($"iss", JStr ($"did:x")); ($"exp", JInt 1792108800); ($"ttl", JInt 60)].
Definition token_example_bytes (v : json) : result bytes :=
  if bool_decide (v = JDict (status_token_header ($"ES256") ($"k"))) then Ok [1]
  else if bool_decide (v = JDict token_example_payload) then Ok [2] else Err TypeError.
Definition token_example_loads (raw : bytes) : result json :=
  if bool_decide (raw = [1]) then Ok (JDict (status_token_header ($"ES256") ($"k")))
  else if bool_decide (raw = [2]) then Ok (JDict token_example_payload) else Err ValueError.

Lemma verify_status_list_token_sound_witness : exists header si sig alg instant,
    parse_compact token_example_loads ($"AQ.Ag.AA") = Ok (header, token_example_payload, si, sig) /\
    jget header ($"alg") = JStr alg /\ alg ∈ ALLOWED_ALGS /\ dmem header ($"crit") = false /\
    (fun _ _ _ _ => Ok true : result bool) alg list_example_jwk si sig = Ok true /\ jget header ($"typ") = JStr STATUS_LIST_JWT_TYP /\
    (forall u, Some ($"https://x/1") = Some u -> jget token_example_payload ($"sub") = JStr u) /\
    pinned_instant (Value JNull) (NInt 90) = Ok instant /\ check_jwt_temporal token_example_payload (JInt 60) instant true = Ok false.
Proof.
  apply (verify_status_list_token_sound token_example_loads (fun _ _ _ _ => Ok true) ($"AQ.Ag.AA") list_example_jwk (Some ($"https://x/1"))
    (JInt 60) (Value JNull) (NInt 90)). vm_compute. reflexivity.
Defined.

Lemma issued_status_token_reads_back_witness :
  verify_status_list_token token_example_loads (fun _ _ _ _ => Ok true) ($"AQ.Ag.AA") list_example_jwk (Some ($"https://x/1")) (JInt 60)
    (Value JNull) (NInt 90) = Ok token_example_payload /\
  forall resolve, resolve ($"https://x/1") = Ok (JDict token_example_payload) ->
    exists r, check_token_status stored_zlib
        [($"status", JDict [($"status_list", JDict [($"idx", JInt 5); ($"uri", JStr ($"https://x/1"))])])] resolve = Ok (Some r) /\
      uri (ref r) = $"https://x/1" /\ ref_index (ref r) = 5 /\ status r = 2 /\
      token_revoked r = (2 =? STATUS_INVALID) /\ token_suspended r = (2 =? STATUS_SUSPENDED).
Proof.
  apply (issued_status_token_reads_back token_example_loads (fun _ _ _ _ => Ok true) token_example_bytes (fun _ => Ok [0]) stored_zlib
    (fun d data => d ++ data) (fun d => d) ($"ES256") ($"k") list_example_jwk) with (now := 100) (data := [0; 8]) (w := 2) (issued_at := Value JNull)
    (expires := Datetime (1792108800 * SECOND) (Some None)) (ttl_ := JInt 60) (issuer := JStr ($"did:x")) (instant := NInt 90).
  - intros v raw _ _. unfold token_example_bytes. repeat case_bool_decide; intros [= <-]; subst;
      (split; [constructor; [split; lia|constructor]|vm_compute; reflexivity]).
  - intros m sig [= <-]. split; [|done]. constructor; [split; lia|constructor].
  - exact stored_zlib_roundtrip.
  - by apply (bool_decide_unpack _); vm_compute.
  - vm_compute. reflexivity.
  - vm_compute. reflexivity.
  - reflexivity.
  - vm_compute. reflexivity.
  - vm_compute. reflexivity.
  - vm_compute. reflexivity.
Defined.
