(* ===== verification/EbsiRegistry.v ===== *)
(** [openvc_ebsi.versioning] and [openvc_ebsi.models] (src/src/openvc_ebsi/versioning.py,
    models.py): the readers of the EBSI registries, one adapter per version of the API, and the
    resolver that binds what they read to the DID that was asked for.

    A registry answers anything: [fetch sent url] is its answer to a request for [url] after the
    requests [sent], and every operation threads the requests made so far ([fetching]). *)
From S2P Require Import Prelude Errors PyStr Json Decimal Did Urllib.

(** * The domain model *)

Record Accreditation := {
  attribute_id : pystr; issuer_type : pystr; tao : option pystr; root_tao : option pystr;
  credential_types : list pystr; credential_jwt : option pystr; accreditation_types : list pystr }.
Record IssuerRecord := { ir_did : pystr; has_attributes : bool; accreditations : list Accreditation }.

Definition TRUST_ROLES : list pystr := [$"RootTAO"; $"TAO"; $"TI"].
Definition DELEGATING_ROLES : list pystr := [$"RootTAO"; $"TAO"].
Definition ACCREDITATION_TO_ATTEST : pystr := $"VerifiableAccreditationToAttest".
Definition ACCREDITATION_TO_ACCREDIT : pystr := $"VerifiableAccreditationToAccredit".

Definition REVOKED_ROLES : list pystr := [$"Revoked"; $"revoked"].
Definition is_revoked (acc : Accreditation) : bool := bool_decide (issuer_type acc ∈ REVOKED_ROLES).
Definition has_trust_role (acc : Accreditation) : bool := bool_decide (issuer_type acc ∈ TRUST_ROLES).
Definition can_accredit (acc : Accreditation) : bool := bool_decide (issuer_type acc ∈ DELEGATING_ROLES).
Definition is_to_attest (acc : Accreditation) : bool := bool_decide (ACCREDITATION_TO_ATTEST ∈ accreditation_types acc).
Definition is_to_accredit (acc : Accreditation) : bool := bool_decide (ACCREDITATION_TO_ACCREDIT ∈ accreditation_types acc).

(** * Reading a response *)

Definition require_object (value : json) : result jobject :=
  match value with JDict d => Ok d | _ => Err MalformedRegistryResponse end.

(** An absent member keeps its default; one that is sent has the declared type. *)
Definition wire_str (obj : jobject) (key : pystr) : result pystr :=
  match dget obj key with
  | None => Ok []
  | Some (JStr s) => Ok s
  | Some _ => Err MalformedRegistryResponse
  end.
Definition wire_opt_str (obj : jobject) (key : pystr) : result (option pystr) :=
  match jget obj key with
  | JNull => Ok None
  | JStr s => Ok (Some s)
  | _ => Err MalformedRegistryResponse
  end.
Definition wire_bool (obj : jobject) (key : pystr) : result bool :=
  match dget obj key with
  | None => Ok false
  | Some (JBool b) => Ok b
  | Some _ => Err MalformedRegistryResponse
  end.
Definition wire_object (obj : jobject) (key : pystr) : result jobject :=
  match dget obj key with
  | None => Ok []
  | Some (JDict d) => Ok d
  | Some _ => Err MalformedRegistryResponse
  end.

(** [tuple(dict.fromkeys(types))]: the first of each. *)
Definition first_seen (l : list pystr) : list pystr :=
  foldl (fun seen x => if bool_decide (x ∈ seen) then seen else seen ++ [x]) [] l.

Definition string_member (member : json) : result pystr :=
  match member with JStr s => Ok s | _ => Err MalformedRegistryResponse end.

Definition entry_types (entry : json) : result (list pystr) :=
  match entry with
  | JStr s => Ok [s]
  | JDict d =>
      match dget d ($"types") with
      | None => Ok []
      | Some (JList members) => mapR string_member members
      | Some _ => Err MalformedRegistryResponse
      end
  | _ => Err MalformedRegistryResponse
  end.

Definition wire_accredited_for (subject : jobject) : result (list pystr) :=
  match dget subject ($"accreditedFor") with
  | None => Ok []
  | Some (JList entries) => types ← mapR entry_types entries; Ok (first_seen (concat types))
  | Some _ => Err MalformedRegistryResponse
  end.

Definition wire_vc_type (vc : jobject) : result (list pystr) :=
  match dget vc ($"type") with
  | None => Ok []
  | Some (JStr s) => Ok [s]
  | Some (JList kinds) => mapR string_member kinds
  | Some _ => Err MalformedRegistryResponse
  end.

(** [re.compile(r"did:ebsi:z[1-9A-HJ-NP-Za-km-z]{22,23}").fullmatch]. *)
Definition base58_char (c : Z) : bool :=
  between 49 57 c || between 65 72 c || between 74 78 c || between 80 90 c || between 97 107 c || between 109 122 c.
Definition DID_EBSI (s : pystr) : bool :=
  startswith s ($"did:ebsi:z") &&
  (let id := drop 10 s in bool_decide (length id = 22%nat \/ length id = 23%nat) && forallb base58_char id).

Definition require_did_ebsi (did : json) : result pystr :=
  match did with
  | JStr s => raise_if (negb (DID_EBSI s)) DidResolutionError;; Ok s
  | _ => Err DidResolutionError
  end.

Definition CONTRACT_ADDRESS_PARAM : pystr := $"contractAddress".
(** [[A-Za-z0-9._-]{1,128}]. *)
Definition CONTRACT_ADDRESS (s : pystr) : bool :=
  (1 <=? len s) && (len s <=? 128) && forallb (fun c => is_alnum c || bool_decide (c ∈ [46; 95; 45])) s.
Definition require_contract_address (value : json) : result pystr :=
  match value with
  | JStr s => raise_if (negb (CONTRACT_ADDRESS s)) ValueError;; Ok s
  | _ => Err ValueError
  end.

(** * Requests *)

Definition fetching (A : Type) : Type := list pystr -> result A * list pystr.
#[export] Instance fetching_ret : MRet fetching := fun A a sent => (Ok a, sent).
#[export] Instance fetching_bind : MBind fetching := fun A B f m sent =>
  let '(r, sent) := m sent in
  match r with Ok a => f a sent | Err e => (Err e, sent) end.
Definition lift {A} (r : result A) : fetching A := fun sent => (r, sent).
(** What happens to the outcome of [m] afterwards. *)
Definition outcome {A B} (f : result A -> result B) (m : fetching A) : fetching B :=
  fun sent => let '(r, sent) := m sent in (f r, sent).

Section registry.
Context (fetch : list pystr -> pystr -> result json).
Context (decode : pystr -> result json) (decode_point : pystr -> bytes -> option (Z * Z)).
Context (ipv6 : pystr -> bool) (unquote casefold : pystr -> pystr).

Definition get (url : pystr) : fetching json := fun sent => (fetch sent url, sent ++ [url]).

Record TokenScope := { scope_types : list pystr; scope_kinds : list pystr }.
Definition NO_SCOPE : TokenScope := {| scope_types := []; scope_kinds := [] |}.

Definition types_from_token (body : option pystr) : result TokenScope :=
  match body with
  | None | Some [] => Ok NO_SCOPE
  | Some body =>
      claims ← catch_as (fun e => isinstance e ProofError) MalformedRegistryResponse (decode body);
      claims ← require_object claims;
      vc ← wire_object claims ($"vc");
      kinds ← wire_vc_type vc;
      subject ← wire_object vc ($"credentialSubject");
      types ← wire_accredited_for subject;
      Ok {| scope_types := types; scope_kinds := kinds |}
  end.

(** ** Origins *)

Definition MAX_URL_LENGTH : Z := 8192.

Definition show_origin (o : Origin) : pystr :=
  o_scheme o ++ $"://" ++ o_host o ++ 58 :: match o_port o with None => [] | Some p => str_of_int p end.

Definition origin (url : pystr) : result pystr :=
  raise_if (MAX_URL_LENGTH <? len url) MalformedRegistryResponse;;
  match read_origin ipv6 url with
  | inl _ => Err MalformedRegistryResponse
  | inr o => Ok (show_origin o)
  end.

Definition on_origin (url orig : pystr) : bool :=
  match origin url with Ok o => bool_decide (o = orig) | Err _ => false end.

(** The link of a registry, bound to the configured instance. *)
Definition on_contract_address (url address : pystr) : result pystr :=
  parts ← urlsplit ipv6 url;
  raise_if (bool_decide (59 ∈ query parts)) MalformedRegistryResponse;;
  let needle := casefold CONTRACT_ADDRESS_PARAM in
  match filter (fun nv => contains (casefold nv.1) needle = true) (parse_qsl unquote (query parts)) with
  | [] =>
      let q := match query parts with [] => [] | q => q ++ [38] end ++ CONTRACT_ADDRESS_PARAM ++ 61 :: address in
      Ok (urlunsplit {| scheme := scheme parts; netloc := netloc parts; path := path parts; query := q;
                        fragment_of := fragment_of parts |})
  | named =>
      raise_if (existsb (fun nv => negb (bool_decide (nv = (CONTRACT_ADDRESS_PARAM, address)))) named)
        MalformedRegistryResponse;;
      Ok url
  end.

(** ** DID Registry adapters *)

Record DidRegistryAdapter := {
  identifiers_url : pystr -> pystr -> pystr; adapter_parse : json -> result DidDocument }.

Definition DidRegistryV5 : DidRegistryAdapter := {|
  identifiers_url := fun base did => base ++ $"/did-registry/v5/identifiers/" ++ did;
  adapter_parse := parse_did_document decode_point |}.

(** [?contractAddress=...] on a URL without a query. *)
Definition with_query (contract_address : option pystr) (url : pystr) : pystr :=
  match contract_address with None => url | Some a => url ++ 63 :: CONTRACT_ADDRESS_PARAM ++ 61 :: a end.

Definition optional_contract_address (contract_address : json) : result (option pystr) :=
  match contract_address with JNull => Ok None | value => a ← require_contract_address value; Ok (Some a) end.

Definition DidRegistryCoreV1 (contract_address : json) : result DidRegistryAdapter :=
  a ← optional_contract_address contract_address;
  Ok {| identifiers_url := fun base did => with_query a (base ++ $"/v1/did-registry/identifiers/" ++ did);
        adapter_parse := parse_did_document decode_point |}.

(** ** Trusted Issuers Registry adapters *)

(** The hooks of a version: where a record is, where the DID of a response sits, how the
    response becomes a record. *)
Record TirAdapter := {
  issuer_url : pystr -> pystr -> pystr;
  response_did : jobject -> json;
  parse_issuer : json -> pystr -> pystr -> fetching IssuerRecord }.

(** [Accreditation(...)] with its scalars typed before the token is read. *)
Definition v4_accreditation (a : jobject) : result Accreditation :=
  body ← wire_opt_str a ($"body");
  id ← wire_str a ($"hash");
  issuer_type ← wire_str a ($"issuerType");
  tao ← wire_opt_str a ($"tao");
  root_tao ← wire_opt_str a ($"rootTao");
  scope ← types_from_token body;
  Ok {| attribute_id := id; issuer_type := issuer_type; tao := tao; root_tao := root_tao;
        credential_types := scope_types scope; credential_jwt := body; accreditation_types := scope_kinds scope |}.

Definition v4_parse_issuer (raw : json) (did : pystr) : result IssuerRecord :=
  raw ← require_object raw;
  match default (JList []) (dget raw ($"attributes")) with
  | JList attributes =>
      attributes ← mapR require_object attributes;
      accs ← mapR v4_accreditation attributes;
      Ok {| ir_did := did; has_attributes := negb (bool_decide (length accs = O)); accreditations := accs |}
  | _ => Err MalformedRegistryResponse
  end.

Definition TirV4 : TirAdapter := {|
  issuer_url := fun base did => base ++ $"/trusted-issuers-registry/v4/issuers/" ++ did;
  response_did := fun raw => jget raw ($"did");
  parse_issuer := fun raw _ did => lift (v4_parse_issuer raw did) |}.

(** *** The attribute walk *)

(** What a version with the walk supplies. *)
Record attribute_walk := {
  walk_issuer_url : pystr -> pystr -> pystr;
  default_attributes_url : pystr -> pystr -> pystr;
  follow : pystr -> result pystr }.

Definition MAX_ATTRIBUTE_PAGES : nat := 50.
Definition MAX_ATTRIBUTE_ITEMS : nat := 1000.

Section walk.
Context (w : attribute_walk).

(** The items of a page, each handed to the loop that consumes the listing; whether the walk
    was cut at the item cap. *)
Fixpoint walk_items {A} (body : A -> jobject -> fetching A) (acc : A) (collected : nat) (items : list json)
    : fetching (A * nat * bool) :=
  match items with
  | [] => mret (acc, collected, false)
  | JDict item :: items =>
      acc ← body acc item;
      let collected := S collected in
      if bool_decide (MAX_ATTRIBUTE_ITEMS <= collected)%nat then mret (acc, collected, true)
      else walk_items body acc collected items
  | _ :: items => walk_items body acc collected items
  end.

Definition page_total (total : option Z) (page : jobject) : option Z :=
  match total with
  | Some t => Some t
  | None => match jget page ($"total") with JInt n => if 0 <=? n then Some n else None | _ => None end
  end.

Definition next_url (page : jobject) (listing_origin : pystr) : result (option pystr) :=
  match match jget page ($"links") with JDict links => jget links ($"next") | _ => JNull end with
  | JStr ((_ :: _) as next) => if on_origin next listing_origin then url ← follow w next; Ok (Some url) else Ok None
  | _ => Ok None
  end.

(** The pages of a listing; [pages] is how many more may be visited. *)
Fixpoint walk_pages {A} (body : A -> jobject -> fetching A) (listing_origin : pystr) (pages : nat) (acc : A)
    (url : option pystr) (seen : list pystr) (collected : nat) (total : option Z) : fetching A :=
  match url, pages with
  | Some url, S pages =>
      if bool_decide (url ∈ seen) then mret acc
      else
        page ← get url;
        page ← lift (require_object page);
        match jget page ($"items") with
        | JList ((_ :: _) as items) =>
            '(acc, collected, truncated) ← walk_items body acc collected items;
            if (truncated : bool) then mret acc
            else
              let total := page_total total page in
              if match total with Some t => t <=? Z.of_nat collected | None => false end then mret acc
              else
                next ← lift (next_url page listing_origin);
                walk_pages body listing_origin pages acc next (url :: seen) collected total
        | _ => mret acc
        end
  | _, _ => mret acc
  end.

(** [for item in self._iter_attribute_items(attributes_url, fetch): acc = body(acc, item)]. *)
Definition iter_attribute_items {A} (attributes_url : pystr) (body : A -> jobject -> fetching A) (acc : A) : fetching A :=
  listing_origin ← lift (origin attributes_url);
  walk_pages body listing_origin MAX_ATTRIBUTE_PAGES acc (Some attributes_url) [] 0 None.

Definition read_revision (item : jobject) (revision : json) : result Accreditation :=
  revision ← require_object revision;
  match jget revision ($"attribute") with
  | JDict attribute =>
      body ← wire_opt_str attribute ($"body");
      id ← wire_str item ($"id");
      attribute_id ← match id with [] => wire_str attribute ($"hash") | _ => Ok id end;
      issuer_type ← wire_str attribute ($"issuerType");
      tao ← wire_opt_str attribute ($"tao");
      root_tao ← wire_opt_str attribute ($"rootTao");
      scope ← types_from_token body;
      Ok {| attribute_id := attribute_id; issuer_type := issuer_type; tao := tao; root_tao := root_tao;
            credential_types := scope_types scope; credential_jwt := body; accreditation_types := scope_kinds scope |}
  | _ => Err MalformedRegistryResponse
  end.

(** One item of the listing: skipped when it cannot be followed. *)
Definition read_item (listing_origin : pystr) (accs : list Accreditation) (item : jobject) : fetching (list Accreditation) :=
  match jget item ($"href") with
  | JStr ((_ :: _) as href) =>
      if on_origin href listing_origin then
        url ← lift (follow w href);
        revision ← get url;
        acc ← lift (read_revision item revision);
        mret (accs ++ [acc])
      else mret accs
  | _ => mret accs
  end.

Definition attributes_url (raw : jobject) (base did listing_origin : pystr) : result pystr :=
  let raw_attrs := jget raw ($"attributes") in
  if negb (truthy raw_attrs) then Ok (default_attributes_url w base did)
  else match raw_attrs with
       | JStr url => o ← origin url;
                     raise_if (negb (bool_decide (o = listing_origin))) MalformedRegistryResponse;; Ok url
       | _ => Err MalformedRegistryResponse
       end.

Definition walk_parse_issuer (raw : json) (base did : pystr) : fetching IssuerRecord :=
  raw ← lift (require_object raw);
  has_attrs ← lift (wire_bool raw ($"hasAttributes"));
  if (has_attrs : bool) then
    listing_origin ← lift (origin (walk_issuer_url w base did));
    url ← lift (attributes_url raw base did listing_origin);
    url ← lift (follow w url);
    accs ← iter_attribute_items url (read_item listing_origin) [];
    mret {| ir_did := did; has_attributes := true; accreditations := accs |}
  else mret {| ir_did := did; has_attributes := false; accreditations := [] |}.

Definition walk_adapter : TirAdapter := {|
  issuer_url := walk_issuer_url w; response_did := fun raw => jget raw ($"did"); parse_issuer := walk_parse_issuer |}.
End walk.

Definition v5_issuer_url (base did : pystr) : pystr := base ++ $"/trusted-issuers-registry/v5/issuers/" ++ did.
Definition v5_walk : attribute_walk := {|
  walk_issuer_url := v5_issuer_url;
  default_attributes_url := fun base did => v5_issuer_url base did ++ $"/attributes"; follow := Ok |}.
Definition TirV5 : TirAdapter := walk_adapter v5_walk.

Definition core_issuer_path (base did : pystr) : pystr := base ++ $"/v1/issuers-registry/issuers/" ++ did.
Definition core_walk (a : option pystr) : attribute_walk := {|
  walk_issuer_url := fun base did => with_query a (core_issuer_path base did);
  default_attributes_url := fun base did => with_query a (core_issuer_path base did ++ $"/attributes");
  follow := fun url => match a with None => Ok url | Some a => on_contract_address url a end |}.
Definition TirCoreV1 (contract_address : json) : result TirAdapter :=
  a ← optional_contract_address contract_address; Ok (walk_adapter (core_walk a)).

(** ** Version selection *)

Definition did_registry_adapter (version : pystr) : result DidRegistryAdapter :=
  match dget [($"v5", Ok DidRegistryV5); ($"core-v1", DidRegistryCoreV1 JNull)] version with
  | Some adapter => adapter
  | None => Err ValueError
  end.
Definition tir_adapter (version : pystr) : result TirAdapter :=
  match dget [($"v4", Ok TirV4); ($"v5", Ok TirV5); ($"core-v1", TirCoreV1 JNull)] version with
  | Some adapter => adapter
  | None => Err ValueError
  end.

(** * The resolver *)

Record DidEbsiResolver := { r_base : pystr; r_didr : DidRegistryAdapter; r_tir : TirAdapter }.

Definition ebsi_resolve (r : DidEbsiResolver) (did : json) : fetching DidDocument :=
  did ← lift (require_did_ebsi did);
  raw ← get (identifiers_url (r_didr r) (r_base r) did);
  doc ← lift (adapter_parse (r_didr r) raw);
  _ ← lift (raise_if (negb (bool_decide (doc_id doc = did))) DidResolutionError);
  mret doc.

Definition issuer_record (r : DidEbsiResolver) (did : json) : fetching IssuerRecord :=
  did ← lift (require_did_ebsi did);
  raw ← get (issuer_url (r_tir r) (r_base r) did);
  raw ← lift (require_object raw);
  _ ← lift (raise_if (negb (eq_str (response_did (r_tir r) raw) did)) MalformedRegistryResponse);
  parse_issuer (r_tir r) (JDict raw) (r_base r) did.
End registry.

(** * Lemmas *)

Lemma fbind_Ok {A B} (m : fetching A) (f : A -> fetching B) sent b sent' :
  (m ≫= f) sent = (Ok b, sent') <-> exists a sent1, m sent = (Ok a, sent1) /\ f a sent1 = (Ok b, sent').
Proof.
  unfold mbind, fetching_bind. destruct (m sent) as [[a|e] sent1]; split.
  - intros H. by exists a, sent1.
  - by intros (a' & s & [= <- <-] & H).
  - done.
  - by intros (a' & s & [=] & _).
Qed.

Lemma lift_Ok {A} (r : result A) sent a sent' : lift r sent = (Ok a, sent') <-> r = Ok a /\ sent' = sent.
Proof. unfold lift. split; [by intros [= -> ->]|by intros [-> ->]]. Qed.

Lemma fret_Ok {A} (a : A) sent b sent' : (mret a : fetching A) sent = (Ok b, sent') <-> b = a /\ sent' = sent.
Proof. unfold mret, fetching_ret. split; [by intros [= -> ->]|by intros [-> ->]]. Qed.

(** [m] makes at most [n] requests, all satisfying [P], whatever the answers. *)
Definition requests {A} (P : pystr -> Prop) (n : nat) (m : fetching A) : Prop :=
  forall sent, exists new, (m sent).2 = sent ++ new /\ Forall P new /\ (length new <= n)%nat.

Lemma requests_silent {A} P n (m : fetching A) : (forall sent, (m sent).2 = sent) -> requests P n m.
Proof. intros H sent. exists []. rewrite H, app_nil_r. repeat split; [done|]. cbn. lia. Qed.

Lemma requests_ret {A} P n (a : A) : requests P n (mret a).
Proof. by apply requests_silent. Qed.

Lemma requests_lift {A} P n (r : result A) : requests P n (lift r).
Proof. by apply requests_silent. Qed.

Lemma requests_bind {A B} P n k (m : fetching A) (f : A -> fetching B) :
  requests P n m -> (forall a, requests P k (f a)) -> requests P (n + k) (m ≫= f).
Proof.
  intros Hm Hf sent. destruct (Hm sent) as (new & Hs & Hnew & Hn). unfold mbind, fetching_bind.
  destruct (m sent) as [[a|e] sent1]; cbn in Hs |- *; subst sent1.
  - destruct (Hf a (sent ++ new)) as (new' & Hs' & Hnew' & Hk). exists (new ++ new').
    rewrite Hs', app_assoc. split; [done|]. split; [by apply Forall_app|]. rewrite length_app. lia.
  - exists new. split; [done|]. split; [done|]. lia.
Qed.

Lemma requests_bind_lift {A B} P n (r : result A) (f : A -> fetching B) :
  (forall a, r = Ok a -> requests P n (f a)) -> requests P n (lift r ≫= f).
Proof.
  intros Hf. destruct r as [a|e].
  - intros sent. exact (Hf a eq_refl sent).
  - apply requests_silent. done.
Qed.

Lemma requests_outcome {A B} P n (f : result A -> result B) (m : fetching A) : requests P n m -> requests P n (outcome f m).
Proof. intros Hm sent. destruct (Hm sent) as (new & Hs & ?). exists new. unfold outcome. destruct (m sent). by cbn in *. Qed.

Lemma requests_weaken {A} P n k (m : fetching A) : requests P n m -> (n <= k)%nat -> requests P k m.
Proof. intros Hm Hle sent. destruct (Hm sent) as (new & ? & ? & ?). exists new. split; [done|]. split; [done|lia]. Qed.

#[export] Hint Resolve requests_ret requests_lift : py.

Section registry_lemmas.
Context (fetch : list pystr -> pystr -> result json) (decode : pystr -> result json).
Context (ipv6 : pystr -> bool) (unquote casefold : pystr -> pystr).

Lemma requests_get (P : pystr -> Prop) url : P url -> requests P 1 (get fetch url).
Proof. intros Hu sent. exists [url]. unfold get. cbn. repeat split; [by constructor|lia]. Qed.

(** ** Origins *)

(** The URL parses, and its origin reads [lo]. *)
Definition sits_on (url lo : pystr) : Prop := exists o, read_origin ipv6 url = inr o /\ show_origin o = lo.

Lemma origin_sits_on url lo : origin ipv6 url = Ok lo -> sits_on url lo.
Proof.
  unfold origin. intros H. apply bind_Ok in H as (? & _ & H). destruct (read_origin ipv6 url) as [|o] eqn:E; [done|].
  injection H as <-. by exists o.
Qed.

Lemma on_origin_sits_on url lo : on_origin ipv6 url lo = true -> sits_on url lo.
Proof.
  unfold on_origin. destruct (origin ipv6 url) as [o|] eqn:E; [|done]. intros ->%bool_decide_eq_true. by apply origin_sits_on.
Qed.

Lemma read_origin_scheme url o : read_origin ipv6 url = inr o -> 58 ∉ o_scheme o.
Proof.
  intros H. unfold read_origin, split_url in H. destruct (visible_ascii url); [|done]. cbn [negb] in H.
  destruct (urlsplit ipv6 url) as [u|] eqn:Eu; [|done]. cbn [mbind result_bind] in H. destruct (port u); [|done].
  injection H as <-. cbn [o_scheme]. assert (Hs : scheme u = (split_scheme url).1).
  { unfold urlsplit in Eu. destruct (split_scheme url) as [s rest]. apply bind_Ok in Eu as ([n r] & _ & Eu).
    destruct (partition 35 r) as [r' f]. destruct (partition 63 r') as [p q]. by injection Eu as <-. }
  rewrite Hs. unfold split_scheme. destruct (partition 58 url) as [[|c name] r]; [cbn; set_solver|].
  destruct (_ && _) eqn:E; [|cbn; set_solver]. cbn [fst]. rewrite lower_ascii_idem.
  apply andb_true_iff in E as [_ Hn]. apply scheme_name_colon in Hn. unfold lower_ascii. intros (c' & Hc & Hin)%list_elem_of_fmap.
  destruct (is_upper c') eqn:Eu'; [|by subst c']. unfold is_upper, between in Eu'. lia.
Qed.

(** A listing whose origin names its scheme and its host (an address in brackets is not a name). *)
Definition named_host (lo : pystr) : Prop :=
  exists s c rest, lo = s ++ (58 :: 47 :: 47 :: c :: rest) /\ s <> [] /\ (58 ∉ s) /\ c <> 58.

Lemma sits_on_named url lo : sits_on url lo -> named_host lo ->
  exists o, read_origin ipv6 url = inr o /\ show_origin o = lo /\ o_scheme o <> [] /\ o_host o <> [].
Proof.
  intros (o & Ho & <-) (s & c & rest & E & Hs & Hc & Hh). exists o. split; [done|]. split; [done|].
  pose proof (read_origin_scheme _ _ Ho) as Hcs. unfold show_origin in E.
  change ($"://" ++ o_host o ++ 58 :: match o_port o with None => [] | Some p => str_of_int p end)
    with (58 :: 47 :: 47 :: o_host o ++ 58 :: match o_port o with None => [] | Some p => str_of_int p end) in E.
  pose proof (f_equal (partition 58) E) as Ep. rewrite !partition_present in Ep by done. injection Ep as -> Eh.
  split; [done|]. destruct (o_host o); [|done]. cbn in Eh. by injection Eh as <- _.
Qed.

Lemma contract_address_visible a : CONTRACT_ADDRESS a = true -> visible_ascii a = true.
Proof.
  unfold CONTRACT_ADDRESS. intros [_ H]%andb_true_iff. unfold visible_ascii. rewrite forallb_forall in H |- *.
  intros c Hc. specialize (H c Hc). apply orb_true_iff in H as [H|H%bool_decide_eq_true].
  - unfold is_alnum, is_lower, is_upper, is_digit, between in H. lia.
  - set_unfold. lia.
Qed.

Lemma on_contract_address_origin url a url' lo : CONTRACT_ADDRESS a = true -> named_host lo -> sits_on url lo ->
  on_contract_address ipv6 unquote casefold url a = Ok url' -> sits_on url' lo.
Proof.
  intros Ha Hlo Hu H. destruct (sits_on_named _ _ Hu Hlo) as (o & Ho & Hshow & Hs & Hh).
  unfold on_contract_address in H. apply bind_Ok in H as (u & Eu & H). apply bind_Ok in H as (? & _ & H).
  destruct (filter _ _); [|by apply bind_Ok in H as (? & _ & [= <-])].
  injection H as <-. exists o. split; [|done]. apply (read_origin_new_query ipv6 url u); try done.
  - by destruct (query u).
  - destruct (urlsplit_named _ _ _ _ Ho Eu Hs Hh) as (_ & _ & _ & _ & _ & _ & _ & _ & Vq & _).
    rewrite visible_app. apply andb_true_iff. split.
    + revert Vq. generalize (query u). intros [|c q] Vq; [done|].
      change (visible_ascii ((c :: q) ++ [38]) = true). by rewrite visible_app, Vq.
    + exact (contract_address_visible _ Ha).
Qed.

(** ** What a version's links may name *)

Record keeps_origin (w : attribute_walk) (base did lo : pystr) : Prop := {
  ko_default : sits_on (default_attributes_url w base did) lo;
  ko_follow : forall url url', sits_on url lo -> follow w url = Ok url' -> sits_on url' lo }.

Lemma sits_on_prefix q seg t t' lo : 58 ∉ seg -> (2 <= length seg)%nat ->
  visible_ascii (q ++ (seg ++ [47]) ++ t') = true -> sits_on (q ++ (seg ++ [47]) ++ t) lo -> sits_on (q ++ (seg ++ [47]) ++ t') lo.
Proof.
  intros Hc Hl Hv (o & Ho & Hshow). exists o. split; [|done]. rewrite <- Ho. symmetry.
  apply read_origin_prefix; try done. by apply (read_origin_visible ipv6 _ o).
Qed.

Lemma v5_keeps_origin base did lo : origin ipv6 (walk_issuer_url v5_walk base did) = Ok lo -> keeps_origin v5_walk base did lo.
Proof using Type.
  clear fetch decode unquote casefold.
  intros Ho%origin_sits_on. split; [|by intros ? ? ? [= <-]]. cbn [v5_walk walk_issuer_url default_attributes_url] in *.
  unfold v5_issuer_url in *. rewrite <- app_assoc.
  apply (sits_on_prefix base ($"/trusted-issuers-registry/v5/issuers") did (did ++ $"/attributes")); [vm_compute; set_solver|by vm_compute; lia| |done].
  destruct Ho as (o & Hv%read_origin_visible & _). rewrite !visible_app in Hv |- *.
  apply andb_true_iff in Hv as [-> Hv]. apply andb_true_iff in Hv as [_ Hv]. by rewrite (visible_app did), Hv.
Qed.

Lemma core_keeps_origin a base did lo :
  match a with Some a => CONTRACT_ADDRESS a = true /\ named_host lo | None => True end ->
  origin ipv6 (walk_issuer_url (core_walk ipv6 unquote casefold a) base did) = Ok lo ->
  keeps_origin (core_walk ipv6 unquote casefold a) base did lo.
Proof using Type.
  clear fetch decode.
  intros Ha Ho%origin_sits_on. split.
  - cbn [core_walk walk_issuer_url default_attributes_url] in *. destruct Ho as (o & Ho & Hshow).
    pose proof (read_origin_visible _ _ _ Ho) as Hv.
    assert (Hq : exists q, visible_ascii q = true /\ forall t, with_query a t = t ++ q).
    { destruct a as [a|]; cbn [with_query]; [|exists []; split; [done|]; intros; by rewrite app_nil_r].
      exists (63 :: CONTRACT_ADDRESS_PARAM ++ 61 :: a). split; [|done]. destruct Ha as [Ha _]. exact (contract_address_visible _ Ha). }
    destruct Hq as (q & Hq & Hw). rewrite Hw in Ho, Hv |- *. unfold core_issuer_path in *. rewrite <- !app_assoc in *.
    apply (sits_on_prefix base ($"/v1/issuers-registry/issuers") (did ++ q) (did ++ $"/attributes" ++ q)); [vm_compute; set_solver|by vm_compute; lia| |by exists o].
    rewrite !visible_app in Hv |- *. apply andb_true_iff in Hv as [-> Hv]. apply andb_true_iff in Hv as [_ Hv].
    apply andb_true_iff in Hv as [Hd Hq']. by rewrite (visible_app did), Hd, (visible_app ($"/attributes")), Hq'.
  - cbn [core_walk follow]. intros url url' Hu H. destruct a as [a|]; [|by injection H as <-].
    destruct Ha as [Ha Hlo]. by apply (on_contract_address_origin url a).
Qed.

(** ** The requests of a walk *)

Lemma walk_items_requests {A} P (body : A -> jobject -> fetching A) items :
  (forall acc item, requests P 1 (body acc item)) -> forall acc c sent, (c < MAX_ATTRIBUTE_ITEMS)%nat ->
  exists new, (walk_items body acc c items sent).2 = sent ++ new /\ Forall P new /\ (length new + c <= MAX_ATTRIBUTE_ITEMS)%nat /\
    forall acc' c' cut, (walk_items body acc c items sent).1 = Ok (acc', c', cut) ->
      (length new + c <= c' <= MAX_ATTRIBUTE_ITEMS)%nat /\ (cut = false -> (c' < MAX_ATTRIBUTE_ITEMS)%nat).
Proof.
  intros Hbody. induction items as [|item items IH]; intros acc c sent Hc.
  - exists []. cbn. rewrite app_nil_r. split; [done|]. split; [done|]. split; [lia|]. intros ? ? ? [= <- <- <-]. lia.
  - destruct item as [| | | | | |item|]; cbn [walk_items]; try exact (IH acc c sent Hc).
    destruct (Hbody acc item sent) as (new & Hs & Hnew & Hn). unfold mbind, fetching_bind.
    destruct (body acc item sent) as [[acc1|e] sent1]; cbn in Hs; subst sent1.
    + destruct (bool_decide_reflect (MAX_ATTRIBUTE_ITEMS <= S c)%nat) as [Hcut|Hcut].
      * exists new. cbn. split; [done|]. split; [done|]. split; [lia|]. intros ? ? ? [= <- <- <-]. split; [lia|done].
      * destruct (IH acc1 (S c) (sent ++ new)) as (new' & Hs' & Hnew' & Hb & Hok); [lia|]. exists (new ++ new').
        rewrite Hs', app_assoc, length_app. split; [done|]. split; [by apply Forall_app|]. split; [lia|].
        intros acc' c' cut E. destruct (Hok _ _ _ E). split; [lia|done].
    + exists new. cbn. split; [done|]. split; [done|]. split; [lia|done].
Qed.

Lemma walk_pages_requests {A} P w (body : A -> jobject -> fetching A) lo pages :
  (forall acc item, requests P 1 (body acc item)) ->
  (forall next url, on_origin ipv6 next lo = true -> follow w next = Ok url -> P url) ->
  forall acc url seen c total, (c < MAX_ATTRIBUTE_ITEMS)%nat -> (forall u, url = Some u -> P u) ->
  requests P (pages + (MAX_ATTRIBUTE_ITEMS - c)) (walk_pages fetch ipv6 w body lo pages acc url seen c total).
Proof.
  intros Hbody Hnext. induction pages as [|pages IH]; intros acc url seen c total Hc Hurl;
    (destruct url as [url|]; [|apply requests_ret]); [apply requests_ret|]. cbn [walk_pages].
  destruct (bool_decide (url ∈ seen)); [apply requests_ret|].
  change (S pages + (MAX_ATTRIBUTE_ITEMS - c))%nat with (1 + (pages + (MAX_ATTRIBUTE_ITEMS - c)))%nat.
  apply requests_bind; [by apply requests_get, Hurl|]. intros page. apply requests_bind_lift. intros obj _.
  destruct (jget obj ($"items")) as [| | | | |items| |]; try apply requests_ret. destruct items as [|item items]; [apply requests_ret|].
  intros sent. destruct (walk_items_requests P body (item :: items) Hbody acc c sent Hc) as (new & Hs & Hnew & Hn & Hok).
  unfold mbind at 1, fetching_bind. destruct (walk_items body acc c (item :: items) sent) as [[[[acc1 c1] cut]|e] sent1] eqn:E;
    cbn [fst snd] in Hs, Hok; subst sent1; [|exists new; split; [done|]; split; [done|]; lia].
  destruct (Hok _ _ _ eq_refl) as [Hc1 Hcut].
  assert (requests P (pages + (MAX_ATTRIBUTE_ITEMS - c1))
    (if cut then mret acc1
     else let total := page_total total obj in
          if match total with Some t => t <=? Z.of_nat c1 | None => false end then mret acc1
          else next ← lift (next_url ipv6 w obj lo); walk_pages fetch ipv6 w body lo pages acc1 next (url :: seen) c1 total))
    as Hrest.
  { destruct cut; [apply requests_ret|]. cbv zeta. destruct (match page_total total obj with Some _ => _ | None => _ end); [apply requests_ret|].
    apply requests_bind_lift. intros next Hnx. apply IH; [by apply Hcut|]. intros u ->. unfold next_url in Hnx.
    destruct (match jget obj ($"links") with JDict links => jget links ($"next") | _ => JNull end) as [| | | |[|x nx]| | |]; try done.
    destruct (on_origin ipv6 (x :: nx) lo) eqn:Eo; [|done]. apply bind_Ok in Hnx as (u' & Hf & [= <-]). by apply (Hnext (x :: nx)). }
  destruct (Hrest (sent ++ new)) as (new' & Hs' & Hnew' & Hk). exists (new ++ new'). rewrite app_assoc, length_app.
  split; [exact Hs'|]. split; [by apply Forall_app|]. lia.
Qed.

Lemma read_item_requests w base did lo acc item : keeps_origin w base did lo ->
  requests (fun url => sits_on url lo) 1 (read_item fetch decode ipv6 w lo acc item).
Proof.
  intros [_ Hf]. unfold read_item. destruct (jget item ($"href")) as [| | | |[|c href]| | |]; try apply requests_ret.
  destruct (on_origin ipv6 (c :: href) lo) eqn:E; [|apply requests_ret]. apply requests_bind_lift. intros url Hu.
  change 1%nat with (1 + 0)%nat. apply requests_bind; [|intros; apply requests_bind_lift; intros; apply requests_ret].
  apply requests_get, (Hf (c :: href)); [|done]. by apply on_origin_sits_on.
Qed.

Lemma walk_requests w raw base did :
  (forall lo, origin ipv6 (walk_issuer_url w base did) = Ok lo -> keeps_origin w base did lo) ->
  requests (fun url => exists lo, origin ipv6 (walk_issuer_url w base did) = Ok lo /\ sits_on url lo)
    (MAX_ATTRIBUTE_PAGES + MAX_ATTRIBUTE_ITEMS) (walk_parse_issuer fetch decode ipv6 w raw base did).
Proof.
  intros Hk. unfold walk_parse_issuer. apply requests_bind_lift. intros obj _. apply requests_bind_lift. intros [|] _; [|apply requests_ret].
  apply requests_bind_lift. intros lo Elo. specialize (Hk lo Elo). pose proof (ko_follow _ _ _ _ Hk) as Hf.
  apply requests_bind_lift. intros url Hu. apply requests_bind_lift. intros url' Hu'.
  assert (Hs : sits_on url' lo).
  { apply (Hf url); [|done]. unfold attributes_url in Hu. destruct (negb (truthy _)); [injection Hu as <-; apply Hk|].
    destruct (jget obj ($"attributes")); try done. apply bind_Ok in Hu as (o & Ho & Hu). apply bind_Ok in Hu as (? & Hb%raise_if_Ok & [= <-]).
    apply negb_false_iff, bool_decide_eq_true in Hb as ->. by apply origin_sits_on. }
  rewrite <- (Nat.add_0_r (_ + _)). apply requests_bind; [|intros; apply requests_ret].
  unfold iter_attribute_items. apply requests_bind_lift. intros lo' Elo'.
  assert (lo' = lo) as ->.
  { apply origin_sits_on in Elo' as (o & Ho & <-). destruct Hs as (o' & Ho' & <-). rewrite Ho in Ho'. by injection Ho' as ->. }
  assert (HP : forall A n (m : fetching A), requests (fun url => sits_on url lo) n m ->
     requests (fun url => exists lo0, origin ipv6 (walk_issuer_url w base did) = Ok lo0 /\ sits_on url lo0) n m).
  { intros A n m Hm sent. destruct (Hm sent) as (new & ? & Hnew & ?). exists new. split; [done|]. split; [|done].
    eapply Forall_impl; [exact Hnew|]. intros x Hx. by exists lo. }
  apply HP. refine (walk_pages_requests _ w _ lo MAX_ATTRIBUTE_PAGES _ _ [] (Some url') [] 0 None _ _).
  - intros acc item. by apply (read_item_requests w base did).
  - intros next u Hn%on_origin_sits_on Hfu. by apply (Hf next).
  - unfold MAX_ATTRIBUTE_ITEMS. lia.
  - by intros u [= <-].
Qed.
End registry_lemmas.

Lemma first_seen_elem l x : x ∈ first_seen l <-> x ∈ l.
Proof.
  unfold first_seen. assert (H : forall acc, x ∈ foldl (fun seen y => if bool_decide (y ∈ seen) then seen else seen ++ [y]) acc l
    <-> x ∈ acc \/ x ∈ l).
  { induction l as [|y l IH]; intros acc; cbn [foldl]; [set_solver|]. rewrite IH. case_bool_decide; set_solver. }
  rewrite H. set_solver.
Qed.

(** * What a record is read from *)

Section registry_theorems.
Context (fetch : list pystr -> pystr -> result json) (decode : pystr -> result json).
Context (ipv6 : pystr -> bool) (unquote casefold : pystr -> pystr).

(** The walks the code ships, for a registry at [base]; a configured instance needs a base
    that names its host. *)
Inductive shipped_walk (base : pystr) : attribute_walk -> Prop :=
  | shipped_v5 : shipped_walk base v5_walk
  | shipped_core : shipped_walk base (core_walk ipv6 unquote casefold None)
  | shipped_instance a : CONTRACT_ADDRESS a = true ->
      (forall did lo, origin ipv6 (with_query (Some a) (core_issuer_path base did)) = Ok lo -> named_host lo) ->
      shipped_walk base (core_walk ipv6 unquote casefold (Some a)).

Lemma shipped_keeps_origin base w did lo : shipped_walk base w ->
  origin ipv6 (walk_issuer_url w base did) = Ok lo -> keeps_origin ipv6 w base did lo.
Proof using Type.
  intros [| |a Ha Hn] Ho.
  - by apply v5_keeps_origin.
  - by apply core_keeps_origin.
  - exact (core_keeps_origin ipv6 unquote casefold (Some a) base did lo (conj Ha (Hn did lo Ho)) Ho).
Qed.

(** The requests of one reading: first for the record of the DID that was asked for, and then,
    only if the answer names that DID, for links on the same origin. *)
Definition trace_of_reading (base : pystr) (w : attribute_walk) (did : json) (sent new : list pystr) : Prop :=
  match new with
  | [] => True
  | first :: links =>
      exists d, did = JStr d /\ DID_EBSI d = true /\ first = walk_issuer_url w base d /\
        (links <> [] -> exists raw lo, fetch sent first = Ok (JDict raw) /\ jget raw ($"did") = JStr d /\
           origin ipv6 first = Ok lo /\ Forall (fun url => sits_on ipv6 url lo) links)
  end.

(** C33: Reading a record sends a bounded number of requests, none of which leaves the registry.
    Whatever the registry answers, [issuer_record] sends at most 1051 requests: none at all
    unless the DID is a [did:ebsi] identifier, then one for the record of exactly that DID; and
    only if the response names that DID does it follow a link, each one on the origin of
    that first URL, host and port included. *)
Theorem registry_walk_bounded base w didr did sent result sent' (Hw : shipped_walk base w)
    (H : issuer_record fetch {| r_base := base; r_didr := didr; r_tir := walk_adapter fetch decode ipv6 w |} did sent
         = (result, sent')) :
  exists new, sent' = sent ++ new /\ (length new <= 1 + (MAX_ATTRIBUTE_PAGES + MAX_ATTRIBUTE_ITEMS))%nat /\
    trace_of_reading base w did sent new.
Proof using Type.
  unfold issuer_record in H. unfold mbind at 1, fetching_bind, lift at 1 in H.
  assert (Hnone : sent' = sent -> exists new, sent' = sent ++ new /\
    (length new <= 1 + (MAX_ATTRIBUTE_PAGES + MAX_ATTRIBUTE_ITEMS))%nat /\ trace_of_reading base w did sent new).
  { intros ->. exists []. rewrite app_nil_r. split; [done|]. split; [apply Nat.le_0_l|done]. }
  destruct did as [| | | |d| | |]; try (injection H as _ <-; by apply Hnone).
  cbn [require_did_ebsi] in H. destruct (DID_EBSI d) eqn:Hd; [|injection H as _ <-; by apply Hnone]. clear Hnone.
  cbn [negb raise_if mbind result_bind r_tir r_base walk_adapter issuer_url response_did parse_issuer] in H.
  set (first := walk_issuer_url w base d) in *.
  assert (Hone : forall r : Errors.result IssuerRecord, (r, sent ++ [first]) = (result, sent') -> exists new, sent' = sent ++ new /\
    (length new <= 1 + (MAX_ATTRIBUTE_PAGES + MAX_ATTRIBUTE_ITEMS))%nat /\ trace_of_reading base w (JStr d) sent new).
  { intros r [= _ <-]. exists [first]. split; [done|]. split; [cbn [length]; lia|]. by exists d. }
  unfold mbind at 1, fetching_bind, get at 1 in H. destruct (fetch sent first) as [raw|e] eqn:Ef; [|by apply (Hone _ H)].
  unfold mbind at 1, fetching_bind, lift at 1 in H. destruct raw as [| | | | | |raw|]; try (by apply (Hone _ H)). cbn [require_object] in H.
  unfold mbind at 1, fetching_bind, lift at 1 in H. destruct (eq_str (jget raw ($"did")) d) eqn:Enamed; [|by apply (Hone _ H)].
  cbn [negb raise_if] in H. apply eq_str_true in Enamed.
  destruct (walk_requests fetch decode ipv6 w (JDict raw) base d (fun lo => shipped_keeps_origin base w d lo Hw)
              (sent ++ [first])) as (links & Hs & Hlinks & Hn).
  rewrite H in Hs. cbn [snd] in Hs. exists (first :: links). rewrite <- app_assoc in Hs.
  split; [done|]. split; [cbn [length]; lia|]. exists d. split; [done|]. split; [done|]. split; [done|]. intros Hne.
  destruct links as [|l links]; [done|]. pose proof (Forall_inv Hlinks) as (lo & Elo & _). exists raw, lo.
  split; [done|]. split; [done|]. split; [done|]. eapply Forall_impl; [exact Hlinks|]. intros url (lo' & Elo' & Hurl).
  rewrite Elo in Elo'. by injection Elo' as <-.
Qed.

(** ** Accreditations *)

Lemma walk_items_inv {A} (I : A -> Prop) (body : A -> jobject -> fetching A) :
  (forall acc item s acc' s', I acc -> body acc item s = (Ok acc', s') -> I acc') ->
  forall items acc c s acc' c' cut s', I acc -> walk_items body acc c items s = (Ok (acc', c', cut), s') -> I acc'.
Proof using Type.
  intros Hb. induction items as [|item items IH]; intros acc c s acc' c' cut s' HI H.
  - by injection H as <- _ _ _.
  - destruct item as [| | | | | |item|]; cbn [walk_items] in H; try exact (IH _ _ _ _ _ _ _ HI H).
    apply fbind_Ok in H as (acc1 & s1 & H1 & H). specialize (Hb _ _ _ _ _ HI H1).
    destruct (bool_decide _); [by apply fret_Ok in H as [[= -> _ _] _]|exact (IH _ _ _ _ _ _ _ Hb H)].
Qed.

Lemma walk_pages_inv {A} (I : A -> Prop) w (body : A -> jobject -> fetching A) lo :
  (forall acc item s acc' s', I acc -> body acc item s = (Ok acc', s') -> I acc') ->
  forall pages acc url seen c total s acc' s', I acc ->
    walk_pages fetch ipv6 w body lo pages acc url seen c total s = (Ok acc', s') -> I acc'.
Proof using Type.
  intros Hb. induction pages as [|pages IH]; intros acc url seen c total s acc' s' HI H;
    (destruct url as [url|]; [|by apply fret_Ok in H as [-> _]]); [by apply fret_Ok in H as [-> _]|].
  cbn [walk_pages] in H. destruct (bool_decide (url ∈ seen)); [by apply fret_Ok in H as [-> _]|].
  apply fbind_Ok in H as (page & s1 & _ & H). apply fbind_Ok in H as (obj & s2 & _ & H).
  destruct (jget obj ($"items")) as [| | | | |[|item items]| |]; try (by apply fret_Ok in H as [-> _]).
  apply fbind_Ok in H as ([[acc1 c1] cut] & s3 & H1 & H). pose proof (walk_items_inv I body Hb _ _ _ _ _ _ _ _ HI H1) as HI1.
  destruct cut; [by apply fret_Ok in H as [-> _]|]. cbv zeta in H.
  destruct (match page_total total obj with Some _ => _ | None => _ end); [by apply fret_Ok in H as [-> _]|].
  apply fbind_Ok in H as (next & s4 & _ & H). exact (IH _ _ _ _ _ _ _ _ HI1 H).
Qed.

(** An entry of [accreditedFor] names a type. *)
Definition entry_names (entry : json) (type : pystr) : Prop :=
  entry = JStr type \/ exists d members, entry = JDict d /\ dget d ($"types") = Some (JList members) /\ JStr type ∈ members.

(** The signed token of an accreditation lists a type. *)
Definition token_lists (token : option pystr) (type : pystr) : Prop :=
  exists body claims vc subject entries entry,
    token = Some body /\ decode body = Ok (JDict claims) /\ dget claims ($"vc") = Some (JDict vc) /\
    dget vc ($"credentialSubject") = Some (JDict subject) /\ dget subject ($"accreditedFor") = Some (JList entries) /\
    entry ∈ entries /\ entry_names entry type.

Lemma string_members_Ok members types : mapR string_member members = Ok types ->
  forall t, t ∈ types -> JStr t ∈ members.
Proof using Type.
  intros H%mapR_Ok t Ht. destruct (list_elem_of_lookup_1 _ _ Ht) as [i Hi].
  destruct (Forall2_lookup_r _ _ _ _ _ H Hi) as (v & Hv & E). destruct v; try done. injection E as ->.
  by eapply list_elem_of_lookup_2.
Qed.

Lemma wire_object_Some obj key d k v : wire_object obj key = Ok d -> dget d k = Some v -> dget obj key = Some (JDict d).
Proof using Type.
  unfold wire_object. destruct (dget obj key) as [[]|]; try done; [by intros [= <-]|]. by intros [= <-].
Qed.

Lemma types_from_token_lists token scope t : types_from_token decode token = Ok scope -> t ∈ scope_types scope ->
  token_lists token t.
Proof using Type.
  intros H Ht. unfold types_from_token in H. destruct token as [[|c token]|];
    [by injection H as <-; apply elem_of_nil in Ht| |by injection H as <-; apply elem_of_nil in Ht].
  apply bind_Ok in H as (cl & Hcl%catch_as_Ok & H). apply bind_Ok in H as (claims & Hclaims & H).
  destruct cl as [| | | | | |cl|]; try done. injection Hclaims as ->.
  apply bind_Ok in H as (vc & Hvc & H). apply bind_Ok in H as (kinds & _ & H). apply bind_Ok in H as (subject & Hsub & H).
  apply bind_Ok in H as (types & Htypes & H). injection H as <-. cbn in Ht. unfold wire_accredited_for in Htypes.
  destruct (dget subject ($"accreditedFor")) as [[| | | | |entries| |]|] eqn:Ea; try done;
    [|by injection Htypes as <-; apply elem_of_nil in Ht].
  apply bind_Ok in Htypes as (tss & Htss & Htypes). injection Htypes as <-.
  rewrite first_seen_elem in Ht. apply list_elem_of_In, in_concat in Ht as (ts & Hts & Ht).
  apply list_elem_of_In in Hts, Ht. apply mapR_Ok in Htss. destruct (list_elem_of_lookup_1 _ _ Hts) as [i Hi].
  destruct (Forall2_lookup_r _ _ _ _ _ Htss Hi) as (entry & He & E).
  pose proof (wire_object_Some _ _ _ _ _ Hsub Ea) as Hsub'. pose proof (wire_object_Some _ _ _ _ _ Hvc Hsub') as Hvc'.
  exists (c :: token), claims, vc, subject, entries, entry. repeat (split; [done|]).
  split; [by eapply list_elem_of_lookup_2|]. unfold entry_types in E. destruct entry as [| | | |s| |d|]; try done.
  - injection E as <-. apply list_elem_of_singleton in Ht as ->. by left.
  - destruct (dget d ($"types")) as [[| | | | |members| |]|] eqn:Em; try done; [|by injection E as <-; apply elem_of_nil in Ht].
    right. exists d, members. split; [done|]. split; [done|]. by apply (string_members_Ok _ _ E).
Qed.

(** An accreditation was read from an answer of the registry at [lo], and authorises only types
    its own token lists. *)
Definition read_from (lo : pystr) (acc : Accreditation) : Prop :=
  (exists sent url item revision, sits_on ipv6 url lo /\ fetch sent url = Ok revision /\
     read_revision decode item revision = Ok acc) /\
  forall t, t ∈ credential_types acc -> token_lists (credential_jwt acc) t.

Lemma read_revision_lists item revision acc t : read_revision decode item revision = Ok acc ->
  t ∈ credential_types acc -> token_lists (credential_jwt acc) t.
Proof using Type.
  intros H. unfold read_revision in H. apply bind_Ok in H as (rev & _ & H). destruct (jget rev _); try done.
  apply bind_Ok in H as (body & _ & H). do 5 (apply bind_Ok in H as (? & _ & H)).
  apply bind_Ok in H as (scope & Hs & H). injection H as <-. cbn. by apply types_from_token_lists.
Qed.

Lemma read_item_reads w base did lo accs item s accs' s' : keeps_origin ipv6 w base did lo ->
  Forall (read_from lo) accs -> read_item fetch decode ipv6 w lo accs item s = (Ok accs', s') -> Forall (read_from lo) accs'.
Proof using Type.
  intros [_ Hf] Haccs H. unfold read_item in H.
  destruct (jget item ($"href")) as [| | | |[|c href]| | |]; try (by apply fret_Ok in H as [-> _]).
  destruct (on_origin ipv6 (c :: href) lo) eqn:E; [|by apply fret_Ok in H as [-> _]].
  apply fbind_Ok in H as (url & s1 & [Hu ->]%lift_Ok & H). apply fbind_Ok in H as (revision & s2 & Hg & H).
  apply fbind_Ok in H as (acc & s3 & [Hr ->]%lift_Ok & [-> _]%fret_Ok). apply Forall_app. split; [done|].
  constructor; [|done]. split; [|intros t; by apply (read_revision_lists item revision)].
  injection Hg as Hg _. exists s, url, item, revision. split; [|done]. apply (Hf (c :: href)); [|done]. by apply on_origin_sits_on.
Qed.

(** A registry record is about the DID that was asked for, and what it accredits was read
    from that registry.  The record names the requested [did:ebsi] identifier, the answer it was
    built from names it too, and every accreditation in it was fetched from the origin the
    record was read from and authorises only credential types its own signed token lists. *)
Theorem registry_record_sound base w didr did sent record sent' (Hw : shipped_walk base w)
    (H : issuer_record fetch {| r_base := base; r_didr := didr; r_tir := walk_adapter fetch decode ipv6 w |} did sent
         = (Ok record, sent')) :
  did = JStr (ir_did record) /\ DID_EBSI (ir_did record) = true /\
  (exists raw, fetch sent (walk_issuer_url w base (ir_did record)) = Ok (JDict raw) /\
     jget raw ($"did") = JStr (ir_did record) /\ wire_bool raw ($"hasAttributes") = Ok (has_attributes record)) /\
  (accreditations record <> [] -> exists lo, origin ipv6 (walk_issuer_url w base (ir_did record)) = Ok lo /\
     Forall (read_from lo) (accreditations record)).
Proof using Type.
  apply fbind_Ok in H as (d & s1 & [Hd ->]%lift_Ok & H). cbn [r_tir r_base walk_adapter issuer_url response_did parse_issuer] in H.
  apply fbind_Ok in H as (raw & s2 & Hg & H). injection Hg as Hg <-. apply fbind_Ok in H as (obj & s3 & [Ho ->]%lift_Ok & H).
  apply fbind_Ok in H as (? & s4 & [Hn ->]%lift_Ok & H). apply raise_if_Ok, negb_false_iff, eq_str_true in Hn.
  destruct raw as [| | | | | |raw|]; try done. injection Ho as <-.
  assert (Hdid : did = JStr d /\ DID_EBSI d = true).
  { destruct did; try done. apply bind_Ok in Hd as (? & Hb%raise_if_Ok & [= <-]). by apply negb_false_iff in Hb. }
  apply fbind_Ok in H as (obj' & s5 & [Ho ->]%lift_Ok & H). injection Ho as <-.
  apply fbind_Ok in H as (has & s6 & [Hh ->]%lift_Ok & H). destruct has.
  - apply fbind_Ok in H as (lo & s7 & [Hlo ->]%lift_Ok & H). apply fbind_Ok in H as (url & s8 & _ & H).
    apply fbind_Ok in H as (url' & s9 & _ & H). apply fbind_Ok in H as (accs & s10 & Hacc & [-> _]%fret_Ok). cbn.
    destruct Hdid. split; [done|]. split; [done|]. split; [by exists raw|]. intros _. exists lo. split; [done|].
    apply fbind_Ok in Hacc as (lo' & s11 & _ & Hacc). revert Hacc. apply walk_pages_inv; [|done].
    intros acc item s acc' s'. apply (read_item_reads w base d). by apply shipped_keeps_origin.
  - apply fret_Ok in H as [-> _]. cbn. destruct Hdid. split; [done|]. split; [done|]. split; [by exists raw|done].
Qed.
End registry_theorems.

(** Whatever is answered, one record takes at most 1051 requests. *)
Lemma issuer_record_requests fetch decode ipv6 unquote casefold base w didr did :
  shipped_walk ipv6 unquote casefold base w ->
  requests (fun _ => True) (1 + (MAX_ATTRIBUTE_PAGES + MAX_ATTRIBUTE_ITEMS))
    (issuer_record fetch {| r_base := base; r_didr := didr; r_tir := walk_adapter fetch decode ipv6 w |} did).
Proof.
  intros Hw. unfold issuer_record. apply requests_bind_lift. intros d _. apply requests_bind; [by apply requests_get|]. intros raw.
  apply requests_bind_lift. intros obj _. apply requests_bind_lift. intros ? _. cbn [r_tir r_base walk_adapter parse_issuer].
  intros sent. destruct (walk_requests fetch decode ipv6 w (JDict obj) base d
    (fun lo => shipped_keeps_origin ipv6 unquote casefold base w d lo Hw) sent) as (new & Hs & _ & Hn).
  exists new. split; [done|]. split; [by apply Forall_true|done].
Qed.

Lemma ebsi_resolve_requests fetch r did : requests (fun _ => True) 1 (ebsi_resolve fetch r did).
Proof.
  apply requests_bind_lift. intros d _. change 1%nat with (1 + 0)%nat. apply requests_bind; [by apply requests_get|].
  intros raw. apply requests_bind_lift. intros doc _. apply requests_bind_lift. intros ? _. apply requests_ret.
Qed.

(** * Examples *)

Definition example_leaf : pystr := $"did:ebsi:z1111111111111111111111".
Definition example_anchor : pystr := $"did:ebsi:z2222222222222222222222".
Definition example_base : pystr := $"https://api.example".

(** A registry with one issuer, whose listing also holds junk and a link to another host. *)
Definition example_fetch (sent : list pystr) (url : pystr) : result json :=
  match dget
    [(v5_issuer_url example_base example_leaf, JDict [($"did", JStr example_leaf); ($"hasAttributes", JBool true)]);
     (v5_issuer_url example_base example_leaf ++ $"/attributes",
      JDict [($"items", JList [JNull; JDict [($"href", JStr ($"https://evil.example/rev"))];
                               JDict [($"id", JStr ($"a1")); ($"href", JStr ($"https://api.example:443/rev/1"))]]);
             ($"links", JDict [($"next", JStr ($"https://api.example:8443/next"))])]);
     ($"https://api.example:443/rev/1",
      JDict [($"attribute", JDict [($"body", JStr ($"token")); ($"issuerType", JStr ($"TI")); ($"tao", JStr example_anchor)])]);
     ($"https://api.example/did-registry/v5/identifiers/" ++ example_anchor,
      JDict [($"id", JStr example_anchor);
             ($"verificationMethod", JList [JDict [($"id", JStr (example_anchor ++ $"#k")); ($"type", JStr ($"JsonWebKey2020"));
                ($"publicKeyJwk", JDict [($"kty", JStr ($"EC"))])]])]);
     ($"https://api.example/did-registry/v5/identifiers/" ++ example_leaf,
      JDict [($"id", JStr example_leaf);
             ($"verificationMethod", JList [JDict [($"id", JStr (example_leaf ++ $"#k")); ($"type", JStr ($"JsonWebKey2020"));
                ($"publicKeyJwk", JDict [($"kty", JStr ($"EC"))])]])])] url with
  | Some v => Ok v
  | None => Err HttpNotFound
  end.

Definition example_vc : jobject :=
  [($"type", JList [JStr ACCREDITATION_TO_ATTEST]);
   ($"credentialSubject", JDict [($"id", JStr example_leaf);
      ($"accreditedFor", JList [JDict [($"types", JList [JStr ($"Diploma"); JStr ($"Diploma")])]])])].
Definition example_decode (token : pystr) : result json := Ok (JDict [($"vc", JDict example_vc)]).

Definition example_read : result IssuerRecord * list pystr :=
  issuer_record example_fetch {| r_base := example_base; r_didr := DidRegistryV5 (fun _ _ => None);
    r_tir := walk_adapter example_fetch example_decode (fun _ => false) v5_walk |} (JStr example_leaf) [].

Definition example_record : IssuerRecord :=
  {| ir_did := example_leaf; has_attributes := true;
     accreditations := [{| attribute_id := $"a1"; issuer_type := $"TI"; tao := Some example_anchor; root_tao := None;
       credential_types := [$"Diploma"]; credential_jwt := Some ($"token"); accreditation_types := [ACCREDITATION_TO_ATTEST] |}] |}.

Example example_read_eq : example_read = (Ok example_record,
  [v5_issuer_url example_base example_leaf; v5_issuer_url example_base example_leaf ++ $"/attributes"; $"https://api.example:443/rev/1"]).
Proof. by vm_compute. Qed.

Lemma registry_walk_bounded_witness : exists new, example_read.2 = [] ++ new /\ (length new <= 1051)%nat /\
  trace_of_reading example_fetch (fun _ => false) example_base v5_walk (JStr example_leaf) [] new.
Proof.
  exact (registry_walk_bounded example_fetch example_decode (fun _ => false) id id example_base v5_walk
    (DidRegistryV5 (fun _ _ => None)) (JStr example_leaf) [] _ _ (shipped_v5 _ _ _ _) (surjective_pairing example_read)).
Defined.

Lemma registry_record_sound_witness : exists lo, origin (fun _ => false) (v5_issuer_url example_base example_leaf) = Ok lo /\
  Forall (read_from example_fetch example_decode (fun _ => false) lo) (accreditations example_record).
Proof.
  refine (proj2 (proj2 (proj2 (registry_record_sound example_fetch example_decode (fun _ => false) id id example_base v5_walk
    (DidRegistryV5 (fun _ _ => None)) (JStr example_leaf) [] example_record _ (shipped_v5 _ _ _ _) example_read_eq))) _). done.
Defined.
