(* ===== verification/OpenPgp.v ===== *)
(** [openvc_ebsi._openpgp] (src/src/openvc_ebsi/_openpgp.py): the OpenPGP reader behind the
    Trusted Nodes List: packet and subpacket framing, signatures, key blocks and their armor.

    A position in the input is what is left of it.  The hashes, the check that a point is on
    the curve and ECDSA itself are parameters. *)
From S2P Require Import Prelude Errors PyStr Json Base64.

Definition MAX_SIGNATURE_FILE_BYTES : Z := 4096.
Definition MAX_ARMOR_CHARS : Z := 12288.
Definition MAX_KEY_BLOCK_BYTES : Z := 8192.
Definition MAX_PACKETS : nat := 32.
Definition MAX_SUBPACKETS : nat := 64.
Definition MAX_ARMOR_LINE : Z := 76.

Definition TAG_SIGNATURE : Z := 2.
Definition TAG_PUBLIC_KEY : Z := 6.
Definition TAG_USER_ID : Z := 13.
Definition TAG_PUBLIC_SUBKEY : Z := 14.
Definition ALGO_ECDSA : Z := 19.
Definition SIG_BINARY : Z := 0.
Definition REVOCATION_TYPES : list Z := [32; 40; 48].
Definition SUB_CREATION_TIME : Z := 2.
Definition SUB_SIG_EXPIRATION : Z := 3.
Definition SUB_KEY_EXPIRATION : Z := 9.
Definition SUB_ISSUER_FINGERPRINT : Z := 33.
Definition UNDERSTOOD_WHEN_CRITICAL : list Z := [SUB_CREATION_TIME; SUB_ISSUER_FINGERPRINT].

(** The profile: the curve by its OID, and the hash by its number. *)
Record Curve := { curve_name : pystr; point_len : Z; scalar_bits : Z }.
Definition CURVES : list (bytes * Curve) :=
  [([42; 134; 72; 206; 61; 3; 1; 7], {| curve_name := $"P-256"; point_len := 65; scalar_bits := 256 |})].
Definition HASHES : list Z := [8].
Definition CURVE_NAMES : list (pystr * bytes) := (fun oc => (curve_name oc.2, oc.1)) <$> CURVES.

Record PublicKey := { fingerprint : pystr; curve : pystr; point : bytes }.
Record Signature := { signer : option pystr; hash_id : Z; prefix : bytes; suffix : bytes; sig_r : Z; sig_s : Z }.

Definition fail {A} : result A := Err OpenPgpError.

(** [b.hex().upper()]. *)
Definition hex_upper_digit (d : Z) : Z := if d <? 10 then 48 + d else 55 + d.
Definition hex_upper (b : bytes) : pystr := flat_map (fun x => [hex_upper_digit (x / 16); hex_upper_digit (x mod 16)]) b.

(** * Framing *)

(** The length octets of an old-format header; [None] is the indefinite length. *)
Definition length_width (kind : Z) : option nat :=
  match kind with 0 => Some 1%nat | 1 => Some 2%nat | 2 => Some 4%nat | _ => None end.

Fixpoint packets_from (fuel n : nat) (data : bytes) : result (list (Z * bytes)) :=
  match data, fuel with
  | [], _ => Ok []
  | head :: rest, S fuel =>
      raise_if (MAX_PACKETS <=? n)%nat OpenPgpError;;
      raise_if (Z.land head 128 =? 0) OpenPgpError;;
      raise_if (negb (Z.land head 64 =? 0)) OpenPgpError;;
      let tag := Z.land (Z.shiftr head 2) 15 in
      match length_width (Z.land head 3) with
      | None => fail
      | Some width =>
          raise_if (length rest <? width)%nat OpenPgpError;;
          let len_ := from_bytes_be (take width rest) in
          let body := drop width rest in
          raise_if (len body <? len_) OpenPgpError;;
          ps ← packets_from fuel (S n) (drop (Z.to_nat len_) body);
          Ok ((tag, take (Z.to_nat len_) body) :: ps)
      end
  | _, O => Err AssertionError
  end.
Definition packets (data : bytes) : result (list (Z * bytes)) := packets_from (length data) 0 data.

(** The length of a subpacket and the octets it is written in. *)
Definition subpacket_length (first : Z) (rest : bytes) : result (Z * nat) :=
  if first <? 192 then Ok (first, 0%nat)
  else if first <? 255 then
    match rest with
    | second :: _ => Ok (Z.shiftl (first - 192) 8 + second + 192, 1%nat)
    | [] => fail
    end
  else raise_if (length rest <? 4)%nat OpenPgpError;; Ok (from_bytes_be (take 4 rest), 4%nat).

Record Subpacket := { sub_type : Z; critical : bool; sub_data : bytes }.

Fixpoint subpackets_from (fuel n : nat) (area : bytes) : result (list Subpacket) :=
  match area, fuel with
  | [], _ => Ok []
  | first :: rest, S fuel =>
      raise_if (MAX_SUBPACKETS <=? n)%nat OpenPgpError;;
      '(len_, hdr) ← subpacket_length first rest;
      let body := drop hdr rest in
      raise_if ((len_ <? 1) || (len body <? len_)) OpenPgpError;;
      match body with
      | [] => fail
      | kind :: data =>
          subs ← subpackets_from fuel (S n) (drop (Z.to_nat len_) body);
          Ok ({| sub_type := Z.land kind 127; critical := negb (Z.land kind 128 =? 0);
                 sub_data := take (Z.to_nat (len_ - 1)) data |} :: subs)
      end
  | _, O => Err AssertionError
  end.
Definition subpackets (area : bytes) : result (list Subpacket) := subpackets_from (length area) 0 area.

(** A multiprecision integer, and what follows it. *)
Definition mpi (data : bytes) (max_bits : Z) : result (bytes * bytes) :=
  raise_if (length data <? 2)%nat OpenPgpError;;
  let bits := from_bytes_be (take 2 data) in
  raise_if ((bits <? 1) || (max_bits <? bits)) OpenPgpError;;
  let size := (bits + 7) / 8 in
  raise_if (len data <? 2 + size) OpenPgpError;;
  let value := take (Z.to_nat size) (drop 2 data) in
  match value with
  | [] => fail
  | top :: _ =>
      raise_if ((top =? 0) || negb (8 * (size - 1) + bit_length top =? bits)) OpenPgpError;;
      Ok (value, drop (Z.to_nat size) (drop 2 data))
  end.

(** * Signatures *)

(** Type, public-key algorithm, hash algorithm, hashed area, and the offset after the
    unhashed area. *)
Definition split_v4_signature (body : bytes) : result (Z * Z * Z * bytes * nat) :=
  match body with
  | version :: sig_type :: algo :: hash_id :: l1 :: l2 :: rest =>
      raise_if (negb (version =? 4)) OpenPgpError;;
      let hashed_len := from_bytes_be [l1; l2] in
      raise_if (len body <? 6 + hashed_len + 2) OpenPgpError;;
      let hashed := take (Z.to_nat hashed_len) rest in
      let at_ := (6 + Z.to_nat hashed_len)%nat in
      let unhashed_len := from_bytes_be (take 2 (drop at_ body)) in
      raise_if (len body <? Z.of_nat at_ + 2 + unhashed_len) OpenPgpError;;
      Ok (sig_type, algo, hash_id, hashed, (at_ + 2 + Z.to_nat unhashed_len)%nat)
  | _ => fail
  end.

(** One hashed subpacket: the signer named so far and whether a creation time was seen. *)
Definition check_hashed (signature_file : bool) (st : option pystr * bool) (sub : Subpacket) : result (option pystr * bool) :=
  let '(signer, created) := st in
  raise_if (bool_decide (sub_type sub ∈ [SUB_SIG_EXPIRATION; SUB_KEY_EXPIRATION])) OpenPgpError;;
  if negb signature_file then Ok (signer, created) else
  raise_if (critical sub && negb (bool_decide (sub_type sub ∈ UNDERSTOOD_WHEN_CRITICAL))) OpenPgpError;;
  created ← (if sub_type sub =? SUB_CREATION_TIME
             then raise_if (created || negb (len (sub_data sub) =? 4)) OpenPgpError;; Ok true
             else Ok created);
  if sub_type sub =? SUB_ISSUER_FINGERPRINT then
    raise_if (bool_decide (is_Some signer)) OpenPgpError;;
    match sub_data sub with
    | 4 :: fp => raise_if (negb (len fp =? 20)) OpenPgpError;; Ok (Some (hex_upper fp), created)
    | _ => fail
    end
  else Ok (signer, created).

Definition check_hashed_area (hashed : bytes) (signature_file : bool) : result (option pystr) :=
  subs ← subpackets hashed;
  '(signer, created) ← foldR (check_hashed signature_file) (None, false) subs;
  raise_if (signature_file && negb created) OpenPgpError;;
  Ok signer.

Definition check_unhashed_area (unhashed : bytes) : result unit :=
  subs ← subpackets unhashed; raise_if (existsb critical subs) OpenPgpError.

(** What a signature adds to the document it covers. *)
Definition signature_suffix (header : bytes) : bytes := header ++ [4; 255] ++ to_bytes_be 4 (len header).

Definition parse_signature (body : bytes) : result Signature :=
  '(sig_type, algo, hash_id, hashed, after) ← split_v4_signature body;
  raise_if (negb (sig_type =? SIG_BINARY)) OpenPgpError;;
  raise_if (negb (algo =? ALGO_ECDSA)) OpenPgpError;;
  raise_if (bool_decide (hash_id ∉ HASHES)) OpenPgpError;;
  signer ← check_hashed_area hashed true;
  check_unhashed_area (slice body (6 + length hashed + 2) after);;
  raise_if (length body <? after + 2)%nat OpenPgpError;;
  let prefix := take 2 (drop after body) in
  let bits := foldr (fun oc m => Z.max (scalar_bits oc.2) m) 0 CURVES in
  '(r, rest) ← mpi (drop (after + 2) body) bits;
  '(s, rest) ← mpi rest bits;
  raise_if (negb (bool_decide (rest = []))) OpenPgpError;;
  Ok {| signer := signer; hash_id := hash_id; prefix := prefix; suffix := signature_suffix (take (6 + length hashed) body);
        sig_r := from_bytes_be r; sig_s := from_bytes_be s |}.

Definition read_signatures (data : bytes) : result (list Signature) :=
  raise_if (bool_decide (data = [])) OpenPgpError;;
  raise_if (MAX_SIGNATURE_FILE_BYTES <? len data) OpenPgpError;;
  ps ← packets data;
  mapR (fun tb => raise_if (negb (tb.1 =? TAG_SIGNATURE)) OpenPgpError;; parse_signature tb.2) ps.

Section primitives.
Context (sha256 : bytes -> bytes) (sha1 : bytes -> bytes).
(** Whether ECDSA over P-256 accepts [r], [s] for a digest under a point; whether a point is on
    the curve. *)
Context (ecdsa : bytes -> Z -> Z -> bytes -> bool) (on_curve : bytes -> bool).

Definition verify (sig : Signature) (document : bytes) (key : PublicKey) : bool :=
  let digest := sha256 (document ++ suffix sig) in
  bool_decide (take 2 digest = prefix sig) && ecdsa (point key) (sig_r sig) (sig_s sig) digest.

(** A key of [allowed] by its fingerprint. *)
Definition allowed_key (allowed : list (pystr * PublicKey)) (sig : Signature) : option PublicKey :=
  match signer sig with Some s => dget allowed s | None => None end.

(** The distinct allowed signers, each once. *)
Definition verified_signers (sigs : list Signature) (document : bytes) (allowed : list (pystr * PublicKey))
    : result (list pystr) :=
  foldR (fun signers sig =>
    match allowed_key allowed sig with
    | None => Ok signers
    | Some key =>
        raise_if (negb (verify sig document key)) NodeListSignatureError;;
        Ok (if bool_decide (fingerprint key ∈ signers) then signers else signers ++ [fingerprint key])
    end) [] sigs.

(** * Keys *)

Definition make_public_key (curve : json) (point : bytes) (fp : pystr) : result PublicKey :=
  match match curve with JStr c => dget CURVE_NAMES c | _ => None end with
  | None => fail
  | Some oid =>
      match dget CURVES oid with
      | None => Err KeyError
      | Some spec =>
          raise_if (negb (len point =? point_len spec) || negb (bool_decide (head point = Some 4))) OpenPgpError;;
          raise_if (negb (on_curve point)) OpenPgpError;;
          Ok {| fingerprint := fp; curve := curve_name spec; point := point |}
      end
  end.

Definition key_fingerprint (body : bytes) : pystr := hex_upper (sha1 (153 :: to_bytes_be 2 (len body) ++ body)).

Definition parse_primary_key (body : bytes) : result PublicKey :=
  match body with
  | version :: _ :: _ :: _ :: _ :: algo :: oid_len :: rest =>
      raise_if (negb (version =? 4)) OpenPgpError;;
      raise_if (negb (algo =? ALGO_ECDSA)) OpenPgpError;;
      let oid := take (Z.to_nat oid_len) rest in
      match (if (0 <? oid_len) && (oid_len <? 255) && (len oid =? oid_len) then dget CURVES oid else None) with
      | None => fail
      | Some spec =>
          '(point, rest) ← mpi (drop (Z.to_nat oid_len) rest) (8 * point_len spec);
          raise_if (negb (bool_decide (rest = []))) OpenPgpError;;
          make_public_key (JStr (curve_name spec)) point (key_fingerprint body)
      end
  | _ => fail
  end.

Definition check_key_signature (body : bytes) : result unit :=
  '(sig_type, _, _, hashed, _) ← split_v4_signature body;
  raise_if (bool_decide (sig_type ∈ REVOCATION_TYPES)) OpenPgpError;;
  check_hashed_area hashed false;;
  Ok tt.

(** * Armor *)

Definition ARMOR_BEGIN : pystr := $"-----BEGIN PGP PUBLIC KEY BLOCK-----".
Definition ARMOR_END : pystr := $"-----END PGP PUBLIC KEY BLOCK-----".

(** [[A-Za-z0-9+/]+={0,2}] and [=[A-Za-z0-9+/]{4}]. *)
Definition B64_LINE (s : pystr) : bool :=
  negb (bool_decide (b64_data s = [])) && forallb b64_std_char (b64_data s) && (b64_pads s <=? 2)%nat.
Definition CRC_LINE (s : pystr) : bool :=
  match s with 61 :: c => (length c =? 4)%nat && forallb b64_std_char c | _ => false end.

(** One shift of the checksum register. *)
Definition crc24_shift (crc : Z) : Z :=
  let crc := Z.shiftl crc 1 in
  if negb (Z.land crc 16777216 =? 0) then Z.lxor crc 25578747 else crc.
Definition crc24_entry (i : Z) : Z := Z.land (Nat.iter 8 crc24_shift (Z.shiftl i 16)) 16777215.
Definition CRC24 : list Z := (fun i => crc24_entry (Z.of_nat i)) <$> seq 0 256.
Definition crc24_byte (crc byte : Z) : Z :=
  Z.lxor (Z.land (Z.shiftl crc 8) 16777215)
    (nth (Z.to_nat (Z.land (Z.lxor (Z.shiftr crc 16) byte) 255)) CRC24 0).
Definition crc24 (data : bytes) : Z := foldl crc24_byte 11994318 data.

Fixpoint check_armor_lines (lines : list pystr) : result unit :=
  match lines with
  | [] => Ok tt
  | line :: rest =>
      raise_if (negb ((1 <=? len line) && (len line <=? MAX_ARMOR_LINE)) || negb (B64_LINE line)) OpenPgpError;;
      raise_if (bool_decide (61 ∈ line) && negb (bool_decide (rest = []))) OpenPgpError;;
      check_armor_lines rest
  end.

Definition armor_lines (s : pystr) : list pystr :=
  let lines := split_on 10 s in
  if bool_decide (List.last lines [] = []) then removelast lines else lines.

(** The base64 lines, and the checksum line when the last one is. *)
Definition armor_body (body : list pystr) : list pystr * option pystr :=
  if startswith (List.last body []) ($"=") then (removelast body, Some (List.last body [])) else (body, None).

Definition dearmor (text : json) : result bytes :=
  match text with
  | JStr s =>
      raise_if (MAX_ARMOR_CHARS <? len s) OpenPgpError;;
      raise_if (negb (isascii s)) OpenPgpError;;
      let lines := armor_lines s in
      match lines with
      | first :: second :: ((_ :: _ :: _) as rest) =>
          raise_if (negb (bool_decide (first = ARMOR_BEGIN)) || negb (bool_decide (second = []))
                    || negb (bool_decide (List.last rest [] = ARMOR_END))) OpenPgpError;;
          let '(body, crc_line) := armor_body (removelast rest) in
          raise_if (bool_decide (body = [])) OpenPgpError;;
          check_armor_lines body;;
          '(data, crc) ← catch_as (fun e => isinstance e ValueError) OpenPgpError
            (data ← b64decode_validate (concat body);
             crc ← match crc_line with
                   | None => Ok None
                   | Some line =>
                       raise_if (negb (CRC_LINE line)) OpenPgpError;;
                       c ← b64decode_validate (drop 1 line); Ok (Some (from_bytes_be c))
                   end;
             Ok (data, crc));
          raise_if (MAX_KEY_BLOCK_BYTES <? len data) OpenPgpError;;
          raise_if (match crc with Some c => negb (c =? crc24 data) | None => false end) OpenPgpError;;
          Ok data
      | _ => fail
      end
  | _ => fail
  end.

Definition read_public_key_block (armored : json) : result PublicKey :=
  data ← dearmor armored;
  ps ← packets data;
  match ps with
  | (6, body) :: rest =>
      key ← parse_primary_key body;
      mapR (fun tb =>
        if tb.1 =? TAG_SIGNATURE then check_key_signature tb.2
        else raise_if (negb (bool_decide (tb.1 ∈ [TAG_USER_ID; TAG_PUBLIC_SUBKEY]))) OpenPgpError) rest;;
      Ok key
  | _ => fail
  end.
End primitives.

Example crc24_check : crc24 ($"123456789") = 2215682.
Proof. by vm_compute. Qed.

(** * What a signature covers *)

Lemma signature_suffix_app_inj d d' h h' : len h < 2 ^ 32 -> len h' < 2 ^ 32 ->
  d ++ signature_suffix h = d' ++ signature_suffix h' -> d = d' /\ h = h'.
Proof.
  intros Hh Hh' E. unfold signature_suffix in E. rewrite !app_assoc in E.
  apply app_inj_2 in E as [E El]; [|by rewrite !length_to_bytes_be].
  apply (f_equal from_bytes_be) in El. unfold len in *. rewrite !from_to_bytes_be in El by (cbn; lia).
  apply app_inv_tail, app_inj_2 in E; [done|lia].
Qed.

(** What a parsed signature covers besides the document: a header that carries its signer. *)
Lemma parse_signature_header body sig : bytes_ok body -> parse_signature body = Ok sig ->
  exists header, suffix sig = signature_suffix header /\ len header < 2 ^ 32 /\
    check_hashed_area (drop 6 header) true = Ok (signer sig) /\ nth 3 header 0 = hash_id sig.
Proof.
  intros Hb H. unfold parse_signature in H. apply bind_Ok in H as ([[[[ty algo] hid] hashed] after] & Hs & H).
  do 3 (apply bind_Ok in H as (? & _ & H)). apply bind_Ok in H as (sg & Hsg & H). do 2 (apply bind_Ok in H as (? & _ & H)).
  apply bind_Ok in H as ([r rest] & _ & H). apply bind_Ok in H as ([s rest'] & _ & H). apply bind_Ok in H as (? & _ & [= <-]).
  exists (take (6 + length hashed) body). cbn [suffix signer hash_id]. split; [done|].
  unfold split_v4_signature in Hs. destruct body as [|v [|t [|a [|h [|l1 [|l2 rest0]]]]]]; try done.
  apply bind_Ok in Hs as (? & _ & Hs). apply bind_Ok in Hs as (? & Hl%raise_if_Ok & Hs). apply bind_Ok in Hs as (? & _ & Hs).
  injection Hs as -> -> -> <- _. apply Z.ltb_ge in Hl.
  assert (Hn : 0 <= from_bytes_be [l1; l2] < 65536).
  { apply (from_bytes_be_bounds [l1; l2]). unfold bytes_ok in *. rewrite !Forall_cons in Hb.
    destruct Hb as (_ & _ & _ & _ & ? & ? & _). constructor; [done|]. constructor; [done|]. constructor. }
  set (n := Z.to_nat (from_bytes_be [l1; l2])) in *. assert (Hlen : length (take n rest0) = n).
  { rewrite length_take. unfold len in Hl. cbn [length] in Hl. lia. }
  rewrite Hlen. cbn [Nat.add take drop nth]. split; [|done].
  unfold len. cbn [length]. rewrite Hlen. lia.
Qed.

(** A signature covers one document and names one signer.  If what two signatures of the
    accepted profile cover is the same string of bytes, then the documents are equal, and so
    are the hash algorithm and the signer their hashed areas name: no byte of a document can
    be passed off as part of a signature, nor the signer changed without changing what is hashed. *)
Theorem openpgp_signature_binds body body' sig sig' document document' (Hb : bytes_ok body) (Hb' : bytes_ok body')
    (H : parse_signature body = Ok sig) (H' : parse_signature body' = Ok sig')
    (E : document ++ suffix sig = document' ++ suffix sig') :
  document = document' /\ signer sig = signer sig' /\ hash_id sig = hash_id sig'.
Proof.
  destruct (parse_signature_header _ _ Hb H) as (h & Es & Hh & Hsg & Hid).
  destruct (parse_signature_header _ _ Hb' H') as (h' & Es' & Hh' & Hsg' & Hid'). rewrite Es, Es' in E.
  apply signature_suffix_app_inj in E as [-> ->]; [|done|done]. split; [done|]. rewrite Hsg in Hsg'. injection Hsg' as ->.
  split; [done|congruence].
Qed.

(** ** The checksum *)

(** The checksum as RFC 4880 (section 6.1) defines it, one bit at a time. *)
Definition crc24_rfc (data : bytes) : Z :=
  foldl (fun crc byte => Z.land (Nat.iter 8 crc24_shift (Z.lxor crc (Z.shiftl byte 16))) 16777215) 11994318 data.

Lemma crc24_shift_eq x : 0 <= x < 2 ^ 24 ->
  crc24_shift x = Z.lxor (Z.shiftl x 1) (if Z.testbit x 23 then 25578747 else 0).
Proof.
  intros Hx. unfold crc24_shift. assert ((Z.land (Z.shiftl x 1) 16777216 =? 0) = negb (Z.testbit x 23)) as ->.
  { change 16777216 with (2 ^ 24). rewrite Z.land_comm. apply eq_true_iff_eq. rewrite Z.eqb_eq, negb_true_iff. split.
    - intros E. assert (Hb : Z.testbit (Z.land (2 ^ 24) (Z.shiftl x 1)) 24 = false) by (rewrite E; apply Z.bits_0).
      rewrite Z.land_spec, Z.pow2_bits_true, Z.shiftl_spec in Hb by lia. done.
    - intros E. apply Z.bits_inj'. intros i Hi. rewrite Z.land_spec, Z.bits_0. destruct (Z.eq_dec i 24) as [->|Hne].
      + rewrite Z.shiftl_spec by lia. change (24 - 1) with 23. by rewrite E, andb_false_r.
      + by rewrite Z.pow2_bits_false by lia. }
  destruct (Z.testbit x 23); cbn [negb]; [done|by rewrite Z.lxor_0_r].
Qed.

Lemma below_pow2 n x : 0 <= n -> 0 <= x -> (forall i, n <= i -> Z.testbit x i = false) -> x < 2 ^ n.
Proof.
  intros Hn Hx Hb. destruct (Z_lt_le_dec x (2 ^ n)) as [|Hge]; [done|]. assert (0 < x) by (assert (0 < 2 ^ n) by (by apply Z.pow_pos_nonneg); lia).
  assert (n <= Z.log2 x) by (by apply Z.log2_le_pow2). specialize (Hb (Z.log2 x) ltac:(done)). by rewrite Z.bit_log2 in Hb.
Qed.

Lemma lxor_range n x y : 0 <= n -> 0 <= x < 2 ^ n -> 0 <= y < 2 ^ n -> 0 <= Z.lxor x y < 2 ^ n.
Proof.
  intros Hn Hx Hy. split; [apply Z.lxor_nonneg; lia|]. apply below_pow2; [lia|apply Z.lxor_nonneg; lia|].
  intros i Hi. by rewrite Z.lxor_spec, (testbit_small x n), (testbit_small y n) by lia.
Qed.

Lemma crc24_shift_range x : 0 <= x < 2 ^ 24 -> 0 <= crc24_shift x < 2 ^ 24.
Proof.
  intros Hx. rewrite crc24_shift_eq by done. split.
  - apply Z.lxor_nonneg. split; intros _; [by destruct (Z.testbit x 23)|]. apply Z.shiftl_nonneg. lia.
  - apply below_pow2; [lia| |].
    + apply Z.lxor_nonneg. split; intros _; [by destruct (Z.testbit x 23)|]. apply Z.shiftl_nonneg. lia.
    + intros i Hi. rewrite Z.lxor_spec, Z.shiftl_spec by lia. destruct (Z.eq_dec i 24) as [->|Hne].
      * change (24 - 1) with 23. by destruct (Z.testbit x 23).
      * assert (Z.testbit x (i - 1) = false) as ->.
        { apply (testbit_small x 24); lia. }
        destruct (Z.testbit x 23); [|by rewrite Z.bits_0]. apply (testbit_small 25578747 25); lia.
Qed.

Lemma crc24_shift_lxor x y : 0 <= x < 2 ^ 24 -> 0 <= y < 2 ^ 24 ->
  crc24_shift (Z.lxor x y) = Z.lxor (crc24_shift x) (crc24_shift y).
Proof.
  intros Hx Hy. assert (Hxy : 0 <= Z.lxor x y < 2 ^ 24) by (by apply lxor_range).
  rewrite (crc24_shift_eq _ Hxy), (crc24_shift_eq _ Hx), (crc24_shift_eq _ Hy), Z.lxor_spec, Z.shiftl_lxor.
  apply Z.bits_inj'. intros i Hi. rewrite !Z.lxor_spec.
  destruct (Z.testbit x 23), (Z.testbit y 23), (Z.testbit (Z.shiftl x 1) i), (Z.testbit (Z.shiftl y 1) i); cbn [xorb];
    rewrite ?Z.bits_0; by destruct (Z.testbit 25578747 i).
Qed.

Lemma crc24_iter_range k x : 0 <= x < 2 ^ 24 -> 0 <= Nat.iter k crc24_shift x < 2 ^ 24.
Proof. intros Hx. induction k as [|k IH]; [done|]. by apply crc24_shift_range. Qed.

Lemma crc24_iter_lxor k x y : 0 <= x < 2 ^ 24 -> 0 <= y < 2 ^ 24 ->
  Nat.iter k crc24_shift (Z.lxor x y) = Z.lxor (Nat.iter k crc24_shift x) (Nat.iter k crc24_shift y).
Proof.
  intros Hx Hy. induction k as [|k IH]; [done|]. cbn [Nat.iter nat_rect]. change (nat_rect _ ?a (fun _ => ?f) k) with (Nat.iter k f a).
  unfold Nat.iter in *. rewrite IH. by apply crc24_shift_lxor; apply crc24_iter_range.
Qed.

(** A short register is only shifted. *)
Lemma crc24_iter_short k x : (k <= 24)%nat -> 0 <= x < 2 ^ (24 - Z.of_nat k) -> Nat.iter k crc24_shift x = Z.shiftl x (Z.of_nat k).
Proof.
  induction k as [|k IH]; intros Hk Hx; [by rewrite Z.shiftl_0_r|].
  assert (Hp : 2 ^ (24 - Z.of_nat k) = 2 * 2 ^ (24 - Z.of_nat (S k))) by (rewrite <- Z.pow_succ_r by lia; f_equal; lia).
  change (Nat.iter (S k) crc24_shift x) with (crc24_shift (Nat.iter k crc24_shift x)). rewrite IH by lia.
  assert (Hs : 0 <= Z.shiftl x (Z.of_nat k) < 2 ^ 23).
  { rewrite Z.shiftl_mul_pow2 by lia. split; [apply Z.mul_nonneg_nonneg; lia|].
    replace (2 ^ 23) with (2 ^ (24 - Z.of_nat (S k)) * 2 ^ Z.of_nat k) by (rewrite <- Z.pow_add_r by lia; f_equal; lia).
    apply Z.mul_lt_mono_pos_r; [by apply Z.pow_pos_nonneg; lia|lia]. }
  rewrite crc24_shift_eq by (change (2 ^ 24) with (2 * 2 ^ 23); lia). rewrite (testbit_small _ 23) by lia.
  rewrite Z.lxor_0_r, Z.shiftl_shiftl by lia. f_equal. lia.
Qed.

Lemma nth_CRC24 x : 0 <= x < 256 -> nth (Z.to_nat x) CRC24 0 = Nat.iter 8 crc24_shift (Z.shiftl x 16).
Proof.
  intros Hx. unfold CRC24. rewrite (nth_indep _ 0 (crc24_entry (Z.of_nat 0))) by (rewrite length_map, length_seq; lia).
  rewrite (map_nth (fun i => crc24_entry (Z.of_nat i))), seq_nth by lia. cbn [Nat.add]. rewrite Z2Nat.id by lia.
  unfold crc24_entry. change 16777215 with (Z.ones 24). rewrite Z.land_ones by lia. apply Z.mod_small, crc24_iter_range.
  rewrite Z.shiftl_mul_pow2 by lia. lia.
Qed.

Lemma crc24_byte_rfc crc byte : 0 <= crc < 2 ^ 24 -> 0 <= byte < 256 ->
  crc24_byte crc byte = Z.land (Nat.iter 8 crc24_shift (Z.lxor crc (Z.shiftl byte 16))) 16777215 /\ 0 <= crc24_byte crc byte < 2 ^ 24.
Proof.
  intros Hc Hb. set (low := Z.land crc 65535). set (high := Z.lxor (Z.shiftr crc 16) byte).
  assert (Hlow : 0 <= low < 2 ^ 16) by (unfold low; change 65535 with (Z.ones 16); rewrite Z.land_ones by lia; apply Z.mod_pos_bound; lia).
  assert (Hsr : 0 <= Z.shiftr crc 16 < 2 ^ 8) by (rewrite Z.shiftr_div_pow2 by lia; split; [apply Z.div_pos; lia|apply Z.div_lt_upper_bound; lia]).
  assert (Hhigh : 0 <= high < 2 ^ 8).
  { apply lxor_range; lia. }
  assert (E : Z.lxor crc (Z.shiftl byte 16) = Z.lxor low (Z.shiftl high 16)).
  { unfold low, high. apply Z.bits_inj'. intros i Hi. rewrite !Z.lxor_spec, Z.land_spec, !Z.shiftl_spec, Z.lxor_spec by lia.
    change 65535 with (Z.ones 16). destruct (Z_lt_le_dec i 16) as [Hl|Hl].
    - rewrite Z.ones_spec_low, (Z.testbit_neg_r byte), (Z.testbit_neg_r (Z.shiftr crc 16)) by lia. by rewrite andb_true_r.
    - rewrite Z.ones_spec_high, andb_false_r, Z.shiftr_spec by lia. rewrite xorb_false_l. do 2 f_equal. lia. }
  assert (Hhs : 0 <= Z.shiftl high 16 < 2 ^ 24) by (rewrite Z.shiftl_mul_pow2 by lia; lia).
  rewrite E, crc24_iter_lxor, (crc24_iter_short 8 low) by (cbn; lia).
  assert (Hl8 : Z.land (Z.shiftl crc 8) 16777215 = Z.shiftl low 8).
  { unfold low. apply Z.bits_inj'. intros i Hi. change 16777215 with (Z.ones 24). change 65535 with (Z.ones 16).
    rewrite Z.land_spec, !Z.shiftl_spec, Z.land_spec by lia. destruct (Z_lt_le_dec i 8); [rewrite !(Z.testbit_neg_r _ (i - 8)) by lia; done|].
    destruct (Z_lt_le_dec i 24); [by rewrite !Z.ones_spec_low by lia|by rewrite !Z.ones_spec_high by lia]. }
  assert (Hby : crc24_byte crc byte = Z.lxor (Z.shiftl low 8) (Nat.iter 8 crc24_shift (Z.shiftl high 16))).
  { unfold crc24_byte. fold high. rewrite Hl8. f_equal. change 255 with (Z.ones 8). rewrite Z.land_ones by lia.
    rewrite Z.mod_small by lia. apply nth_CRC24. lia. }
  assert (Hr : 0 <= Z.lxor (Z.shiftl low 8) (Nat.iter 8 crc24_shift (Z.shiftl high 16)) < 2 ^ 24).
  { pose proof (crc24_iter_range 8 _ Hhs) as Hi8. assert (0 <= Z.shiftl low 8 < 2 ^ 24) by (rewrite Z.shiftl_mul_pow2 by lia; lia).
    by apply lxor_range. }
  rewrite Hby. split; [|done]. change 16777215 with (Z.ones 24). rewrite Z.land_ones by lia. symmetry. by apply Z.mod_small.
Qed.

(** The table-driven checksum of the armor is the CRC-24 of OpenPGP.  On every string of
    bytes, [crc24] with its 256-entry table computes what the bit-at-a-time definition of the
    standard computes. *)
Theorem crc24_is_rfc4880 data (Hdata : bytes_ok data) : crc24 data = crc24_rfc data.
Proof.
  unfold crc24, crc24_rfc. assert (Hc : 0 <= 11994318 < 2 ^ 24) by lia. revert Hc. generalize 11994318.
  induction Hdata as [|byte data Hb _ IH]; intros crc Hc; cbn [foldl]; [done|].
  destruct (crc24_byte_rfc crc byte Hc Hb) as [<- Hr]. by apply IH.
Qed.

(** * Examples *)

(** A signature of the key [0101...01]: a creation time, the issuer's fingerprint, [r = s = 1]. *)
Definition example_signature_body : bytes :=
  [4; 0; 19; 8; 0; 29] ++ [5; 2; 0; 0; 0; 9] ++ (22 :: 33 :: 4 :: repeat 1 20) ++ [0; 0; 171; 205; 0; 1; 1; 0; 1; 1].

Lemma openpgp_signature_binds_witness : exists sig, parse_signature example_signature_body = Ok sig /\
  signer sig = Some ($"0101010101010101010101010101010101010101") /\
  ($"doc" = $"doc" /\ signer sig = signer sig /\ hash_id sig = hash_id sig).
Proof.
  assert (Hb : bytes_ok example_signature_body) by (apply (bool_decide_unpack _); vm_compute; exact I).
  destruct (parse_signature example_signature_body) as [sig|e] eqn:E; [|vm_compute in E; discriminate E].
  exists sig. split; [reflexivity|]. split; [|exact (openpgp_signature_binds _ _ _ _ ($"doc") ($"doc") Hb Hb E E eq_refl)].
  vm_compute in E. apply Ok_inj in E as <-. reflexivity.
Defined.

Lemma crc24_is_rfc4880_witness : bytes_ok ($"123456789") /\ crc24 ($"123456789") = crc24_rfc ($"123456789").
Proof.
  assert (Hb : bytes_ok ($"123456789")) by (apply (bool_decide_unpack _); vm_compute; exact I).
  exact (conj Hb (crc24_is_rfc4880 _ Hb)).
Defined.
