(* ===== verification/Nodes.v ===== *)
(** [openvc_ebsi.nodes] (src/src/openvc_ebsi/nodes.py): the verifier of the Trusted Nodes List, from
    the anchor that signs the custodians to the origins of one environment.

    An instant is in microseconds since the epoch, in UTC.  The parser behind [_json.loads], the
    hashes and the curve are parameters. *)
From S2P Require Import Prelude Errors PyStr Utf8 Json Base64 Decimal Datetime OpenPgp.

Definition LIST_VERSION_FLOOR : Z := 4.
Definition KEYS_VERSION_FLOOR : Z := 1.
Definition DEFAULT_MIN_THRESHOLD : Z := 2.
Definition MAX_LIST_BYTES : Z := 262144.
Definition MAX_KEYS_BYTES : Z := 65536.
Definition MAX_CUSTODIANS : nat := 16.
Definition MAX_NODES : nat := 512.
Definition MAX_VERSION : Z := 2 ^ 63 - 1.
Definition SKEW : Z := 300 * SECOND.
Definition MAX_VALIDITY : Z := 90 * 86400 * SECOND.

Definition ENVIRONMENTS : list pystr := [$"pilot"; $"preprod"; $"prod"].
Definition PREFIX : list (pystr * pystr) :=
  [($"pilot", $"https://api-pilot.ebsi."); ($"preprod", $"https://api-preprod.ebsi."); ($"prod", $"https://api.ebsi.")].

(** * The patterns *)

Definition is_lower_alnum (c : Z) : bool := ((97 <=? c) && (c <=? 122)) || is_ascii_digit c.
Definition URL (s : pystr) : bool :=
  startswith s ($"https://") && negb (bool_decide (drop 8 s = [])) &&
  forallb (fun c => is_lower_alnum c || bool_decide (c ∈ [46; 45])) (drop 8 s).
Definition COUNTRY (s : pystr) : bool := (length s =? 2)%nat && forallb (fun c => (65 <=? c) && (c <=? 90)) s.
Definition FINGERPRINT (s : pystr) : bool :=
  (length s =? 40)%nat && forallb (fun c => is_ascii_digit c || ((65 <=? c) && (c <=? 70))) s.
Definition SHA256_HEX (s : pystr) : bool :=
  (length s =? 64)%nat && forallb (fun c => is_ascii_digit c || ((97 <=? c) && (c <=? 102))) s.
Definition ECMA_SPACE : list Z :=
  [9; 10; 11; 12; 13; 32; 160; 5760; 8192; 8193; 8194; 8195; 8196; 8197; 8198; 8199; 8200; 8201; 8202; 8232; 8233; 8239;
   8287; 12288; 65279].
Definition ECMA_LINE_TERMINATORS : list Z := [10; 13; 8232; 8233].

(** [b.hex()]. *)
Definition hex_lower_digit (d : Z) : Z := if d <? 10 then 48 + d else 87 + d.
Definition hex_lower (b : bytes) : pystr := flat_map (fun x => [hex_lower_digit (x / 16); hex_lower_digit (x mod 16)]) b.

(** [_INSTANT]: [YYYY-MM-DDTHH:MM:SSZ]. *)
Definition INSTANT (s : pystr) : option (Z * Z * Z * Z * Z * Z) :=
  let field i n := take n (drop i s) in
  if (length s =? 20)%nat &&
     forallb (forallb is_ascii_digit) [field 0 4; field 5 2; field 8 2; field 11 2; field 14 2; field 17 2]%nat &&
     bool_decide (map (fun i => nth i s 0) [4; 7; 10; 13; 16; 19]%nat = [45; 45; 84; 58; 58; 90])
  then Some (decimal_value (field 0 4), decimal_value (field 5 2), decimal_value (field 8 2), decimal_value (field 11 2),
             decimal_value (field 14 2), decimal_value (field 17 2))%nat
  else None.

(** * The caller's types *)

Record Accepted := { acc_version : Z; acc_sha256 : pystr }.
Record Anchor := { anchor_fingerprint : pystr; anchor_curve : json; public_point : bytes }.
(** Europeum's key-list signing key. *)
Definition EUROPEUM_KEY_LIST_ANCHOR : Anchor := {|
  anchor_fingerprint := $"ACCC82E5FC8902F114929481747CB65CFB7574F9"; anchor_curve := JStr ($"P-256");
  public_point :=
    [4; 143; 11; 227; 236; 152; 197; 249; 47; 95; 222; 214; 196; 133; 189; 0; 141; 60; 119; 92; 6; 141; 169; 215;
     138; 31; 255; 122; 36; 117; 141; 206; 157; 28; 141; 170; 20; 26; 177; 53; 204; 215; 14; 173; 161; 229; 4;
     204; 45; 76; 16; 94; 67; 204; 167; 184; 68; 4; 110; 249; 234; 225; 70; 155; 64] |}.
Record Node := { node_origin : pystr; host : pystr; country : pystr; organisation : pystr }.
Record VerifiedNodeList := {
  vl_environment : pystr; vl_version : Z; vl_keys_version : Z; issued : Z; expires : Z; nodes : list Node;
  accepted_list : Accepted; accepted_keys : Accepted }.

(** The lower-case hosts an HTTP client is allowed to call. *)
Definition hosts (l : VerifiedNodeList) : gset pystr := list_to_set (host <$> nodes l).

(** * Argument checks *)

Definition version_ok (v : Z) : bool := (1 <=? v) && (v <=? MAX_VERSION).

Definition accepted_pair (value : Accepted) : result (Z * pystr) :=
  raise_if (negb (version_ok (acc_version value))) NodeListConfigError;;
  raise_if (negb (SHA256_HEX (acc_sha256 value))) NodeListConfigError;;
  Ok (acc_version value, acc_sha256 value).

Definition accepted (value : option Accepted) : result (option (Z * pystr)) :=
  match value with None => Ok None | Some a => p ← accepted_pair a; Ok (Some p) end.

Definition floor (value : json) : result Z :=
  match value with JInt n => raise_if (n <? 1) NodeListConfigError;; Ok n | _ => Err NodeListConfigError end.

Definition snapshot (value : bytes) (cap : Z) : result bytes := raise_if (cap <? len value) NodeListMalformed;; Ok value.

(** * Document checks *)

(** [set(obj) == names]. *)
Definition members (obj : jobject) (names : list pystr) : result unit :=
  raise_if (negb (forallb (dmem obj) names && forallb (fun k => bool_decide (k ∈ names)) obj.*1)) NodeListMalformed.

Definition version (value : json) : result Z :=
  match value with JInt n => raise_if (negb (version_ok n)) NodeListMalformed;; Ok n | _ => Err NodeListMalformed end.

Definition instant (value : json) : result Z :=
  match value with
  | JStr s =>
      match INSTANT s with
      | Some (y, m, d, hh, mm, ss) => catch_as (fun e => isinstance e ValueError) NodeListMalformed (datetime y m d hh mm ss)
      | None => Err NodeListMalformed
      end
  | _ => Err NodeListMalformed
  end.

(** The rollback rule, against the floor and the last accepted pair. *)
Definition check_pair (version : Z) (digest : pystr) (floor : Z) (last : option (Z * pystr)) : result unit :=
  raise_if (version <? floor) NodeListRollback;;
  match last with
  | None => Ok tt
  | Some (v, d) =>
      raise_if (version <? v) NodeListRollback;;
      raise_if ((version =? v) && negb (bool_decide (digest = d))) NodeListRollback
  end.

Definition check_host (host : pystr) : result unit :=
  raise_if ((253 <? len host) ||
            existsb (fun label => negb ((1 <=? len label) && (len label <=? 63)) || bool_decide (head label = Some 45)
                                  || bool_decide (last label = Some 45)) (split_on 46 host)) NodeListMalformed.

Definition check_node_origin (url : json) (environment : json) : result pystr :=
  match match environment with JStr e => dget PREFIX e | _ => None end with
  | None => Err NodeListConfigError
  | Some prefix =>
      match url with
      | JStr u =>
          raise_if (negb (URL u)) NodeListMalformed;;
          raise_if (negb (startswith u prefix)) NodeListMalformed;;
          check_host (drop 8 u);; Ok u
      | _ => Err NodeListMalformed
      end
  end.

(** One node, against the URLs seen so far. *)
Definition node (environment : pystr) (seen : list pystr) (entry : json) : result (Node * list pystr) :=
  match entry with
  | JDict e =>
      members e [$"url"; $"country"; $"organisation"];;
      url ← check_node_origin (jget e ($"url")) (JStr environment);
      raise_if (bool_decide (url ∈ seen)) NodeListMalformed;;
      country ← match jget e ($"country") with
                | JStr c => raise_if (negb (COUNTRY c)) NodeListMalformed;; Ok c
                | _ => Err NodeListMalformed
                end;
      match jget e ($"organisation") with
      | JStr o =>
          utf8 o NodeListMalformed;;
          raise_if (negb ((1 <=? len o) && (len o <=? 200)) || existsb (fun c => bool_decide (c ∈ ECMA_SPACE)) (take 1 o)
                    || existsb (fun c => bool_decide (c ∈ ECMA_SPACE)) (drop (length o - 1) o)
                    || existsb (fun c => bool_decide (c ∈ ECMA_LINE_TERMINATORS)) o) NodeListMalformed;;
          Ok ({| node_origin := url; host := drop 8 url; country := country; organisation := o |}, url :: seen)
      | _ => Err NodeListMalformed
      end
  | _ => Err NodeListMalformed
  end.

Record Document := { doc_version : Z; doc_keys_version : Z; doc_issued : Z; doc_expires : Z; environments : list (pystr * list Node) }.

(** The environments in their fixed order: what is parsed so far, the URLs seen and the total. *)
Definition parse_environment (envs : jobject) (st : list (pystr * list Node) * list pystr * nat) (env : pystr)
    : result (list (pystr * list Node) * list pystr * nat) :=
  let '(parsed, seen, total) := st in
  match dget envs env with
  | None => Ok st
  | Some (JList ((_ :: _) as entries)) =>
      let total := (total + length entries)%nat in
      raise_if (MAX_NODES <? total)%nat NodeListMalformed;;
      '(ns, seen) ← foldR (fun acc entry => '(n, seen) ← node env acc.2 entry; Ok (acc.1 ++ [n], seen)) ([], seen) entries;
      Ok (parsed ++ [(env, ns)], seen, total)
  | Some _ => Err NodeListMalformed
  end.

Record Custodian := { cust_fingerprint : pystr; armor : json }.

Definition custodian (entry : json) : result Custodian :=
  match entry with
  | JDict e =>
      members e [$"fingerprint"; $"publicKey"];;
      match jget e ($"fingerprint") with
      | JStr fp => raise_if (negb (FINGERPRINT fp)) NodeListMalformed;; Ok {| cust_fingerprint := fp; armor := jget e ($"publicKey") |}
      | _ => Err NodeListMalformed
      end
  | _ => Err NodeListMalformed
  end.

Section verifier.
Context (sha256 sha1 : bytes -> bytes) (ecdsa : bytes -> Z -> Z -> bytes -> bool) (on_curve : bytes -> bool).

Definition anchor_key (a : Anchor) : result PublicKey :=
  raise_if (negb (FINGERPRINT (anchor_fingerprint a))) NodeListConfigError;;
  catch_as (fun e => isinstance e OpenPgpError) NodeListConfigError
    (make_public_key on_curve (anchor_curve a) (public_point a) (anchor_fingerprint a)).

(** [Anchor.from_public_key_block], of the text of a block. *)
Definition from_public_key_block (block : json) : result Anchor :=
  key ← catch_as (fun e => isinstance e UnicodeDecodeError || isinstance e OpenPgpError) NodeListConfigError
          (read_public_key_block sha1 on_curve block);
  let a := {| anchor_fingerprint := fingerprint key; anchor_curve := JStr (curve key); public_point := point key |} in
  anchor_key a;; Ok a.

Definition read_custodians (custodians : list Custodian) : result (list (pystr * PublicKey)) :=
  '(allowed, _) ← foldR (fun st c =>
      let '(allowed, points) := st in
      key ← read_public_key_block sha1 on_curve (armor c);
      raise_if (negb (bool_decide (fingerprint key = cust_fingerprint c))) NodeListMalformed;;
      raise_if (dmem allowed (fingerprint key) || bool_decide (point key ∈ points)) NodeListMalformed;;
      Ok (dset allowed (fingerprint key) key, point key :: points)) ([], []) custodians;
  Ok allowed.

Context (parse : pystr -> result json).

Definition load_object (raw : bytes) : result jobject :=
  text ← catch_as (fun e => isinstance e UnicodeDecodeError) NodeListMalformed (utf8_decode raw);
  raise_if (bool_decide (head text = Some 65279)) NodeListMalformed;;
  value ← catch_as (fun e => isinstance e ValueError) NodeListMalformed (loads_checked (parse text));
  match value with JDict d => Ok d | _ => Err NodeListMalformed end.

Definition parse_list (raw : bytes) : result Document :=
  doc ← load_object raw;
  members doc [$"version"; $"keysVersion"; $"issued"; $"expires"; $"environments"];;
  v ← version (jget doc ($"version"));
  kv ← version (jget doc ($"keysVersion"));
  issued ← instant (jget doc ($"issued"));
  expires ← instant (jget doc ($"expires"));
  raise_if (negb (issued <? expires) || (MAX_VALIDITY <? expires - issued)) NodeListMalformed;;
  match jget doc ($"environments") with
  | JDict envs =>
      raise_if (negb ((1 <=? length envs)%nat && (length envs <=? length ENVIRONMENTS)%nat &&
                      forallb (fun k => bool_decide (k ∈ ENVIRONMENTS)) envs.*1)) NodeListMalformed;;
      '(parsed, _, _) ← foldR (parse_environment envs) ([], [], 0%nat) ENVIRONMENTS;
      Ok {| doc_version := v; doc_keys_version := kv; doc_issued := issued; doc_expires := expires; environments := parsed |}
  | _ => Err NodeListMalformed
  end.

Definition parse_key_list (raw : bytes) : result (Z * Z * list Custodian) :=
  doc ← load_object raw;
  members doc [$"version"; $"threshold"; $"keys"];;
  v ← version (jget doc ($"version"));
  match jget doc ($"threshold") with
  | JInt threshold =>
      match jget doc ($"keys") with
      | JList keys =>
          raise_if (negb ((1 <=? length keys)%nat && (length keys <=? MAX_CUSTODIANS)%nat)) NodeListMalformed;;
          custodians ← mapR custodian keys;
          Ok (v, threshold, custodians)
      | _ => Err NodeListMalformed
      end
  | _ => Err NodeListMalformed
  end.

(** * The verifier *)

(** The four byte strings as served, and what the caller says about them. *)
Record tnl_input := { tnl : bytes; tnl_sig : bytes; keys : bytes; keys_sig : bytes }.
Record tnl_policy := {
  p_environment : json; p_anchor : Anchor; list_floor : json; keys_floor : json; max_age : option Z; min_threshold : json }.

(** The arguments, checked: last accepted pairs, anchor, floors and minimum. *)
Record tnl_args := {
  a_environment : pystr; a_instant : Z; a_list : option (Z * pystr); a_keys : option (Z * pystr); a_anchor : PublicKey;
  a_list_floor : Z; a_keys_floor : Z; a_minimum : option Z }.

Definition check_args (p : tnl_policy) (now : option Z) (last_list last_keys : option Accepted) : result tnl_args :=
  env ← match p_environment p with
        | JStr e => raise_if (negb (bool_decide (e ∈ ENVIRONMENTS))) NodeListConfigError;; Ok e
        | _ => Err NodeListConfigError
        end;
  instant ← match now with Some i => Ok i | None => Err NodeListConfigError end;
  ll ← accepted last_list;
  lk ← accepted last_keys;
  anchor ← anchor_key (p_anchor p);
  lf ← floor (list_floor p);
  kf ← floor (keys_floor p);
  raise_if (match max_age p with Some m => m <=? 0 | None => false end) NodeListConfigError;;
  minimum ← match min_threshold p with JNull => Ok None | v => n ← floor v; Ok (Some n) end;
  Ok {| a_environment := env; a_instant := instant; a_list := ll; a_keys := lk; a_anchor := anchor; a_list_floor := lf;
        a_keys_floor := kf; a_minimum := minimum |}.

(** Steps 2 to 4: what the anchor signed, read into the version, the digest, the threshold and
    the custodians' keys. *)
Definition verify_key_list (a : tnl_args) (keys keys_sig : bytes) : result (Z * pystr * Z * list (pystr * PublicKey)) :=
  sigs ← read_signatures keys_sig;
  signers ← verified_signers sha256 ecdsa sigs keys [(fingerprint (a_anchor a), a_anchor a)];
  raise_if (negb (bool_decide (fingerprint (a_anchor a) ∈ signers))) NodeListSignatureError;;
  '(keys_version, threshold, listed) ← parse_key_list keys;
  let digest := hex_lower (sha256 keys) in
  check_pair keys_version digest (a_keys_floor a) (a_keys a);;
  raise_if (negb ((1 <=? threshold) && (threshold <=? Z.of_nat (length listed)))) NodeListMalformed;;
  raise_if (match a_minimum a with Some m => threshold <? m | None => false end) NodeListThresholdError;;
  custodians ← read_custodians listed;
  Ok (keys_version, digest, threshold, custodians).

(** Step 6: the node list itself. *)
Definition verify_document (a : tnl_args) (max_age : option Z) (keys_version : Z) (keys_digest : pystr) (tnl : bytes)
    : result VerifiedNodeList :=
  document ← parse_list tnl;
  let list_digest := hex_lower (sha256 tnl) in
  check_pair (doc_version document) list_digest (a_list_floor a) (a_list a);;
  raise_if (keys_version <? doc_keys_version document) NodeListRollback;;
  raise_if (doc_expires document <=? a_instant a) NodeListExpired;;
  raise_if (SKEW <? doc_issued document - a_instant a) NodeListNotYetValid;;
  raise_if (match max_age with Some m => m <? a_instant a - doc_issued document | None => false end) NodeListStale;;
  match dget (environments document) (a_environment a) with
  | None => Err NodeListEnvironmentMissing
  | Some nodes =>
      Ok {| vl_environment := a_environment a; vl_version := doc_version document; vl_keys_version := doc_keys_version document;
            issued := doc_issued document; expires := doc_expires document; nodes := nodes;
            accepted_list := {| acc_version := doc_version document; acc_sha256 := list_digest |};
            accepted_keys := {| acc_version := keys_version; acc_sha256 := keys_digest |} |}
  end.

Definition verify_node_list (p : tnl_policy) (input : tnl_input) (now : option Z) (last_list last_keys : option Accepted)
    : result VerifiedNodeList :=
  a ← check_args p now last_list last_keys;
  tnl_b ← snapshot (tnl input) MAX_LIST_BYTES;
  tnl_sig_b ← snapshot (tnl_sig input) MAX_SIGNATURE_FILE_BYTES;
  keys_b ← snapshot (keys input) MAX_KEYS_BYTES;
  keys_sig_b ← snapshot (keys_sig input) MAX_SIGNATURE_FILE_BYTES;
  '(keys_version, keys_digest, threshold, custodians) ← verify_key_list a keys_b keys_sig_b;
  sigs ← read_signatures tnl_sig_b;
  signers ← verified_signers sha256 ecdsa sigs tnl_b custodians;
  raise_if (Z.of_nat (length signers) <? threshold) NodeListThresholdError;;
  verify_document a (max_age p) keys_version keys_digest tnl_b.
End verifier.

(** * Lemmas *)

Lemma NoDup_fmap_elem {A B} (f : A -> B) l x y : NoDup (f <$> l) -> x ∈ l -> y ∈ l -> f x = f y -> x = y.
Proof.
  intros Hn (i & Hi)%list_elem_of_lookup (j & Hj)%list_elem_of_lookup E.
  assert (i = j) as -> by (apply (NoDup_lookup _ i j (f y) Hn); rewrite list_lookup_fmap, ?Hi, ?Hj; cbn; congruence). congruence.
Qed.

(** The signers a run counts are distinct, allowed, and each signed the document. *)
Lemma verified_signers_Ok sha256 ecdsa sigs document allowed signers
  (Hal : forall f key, dget allowed f = Some key -> fingerprint key = f) :
  verified_signers sha256 ecdsa sigs document allowed = Ok signers ->
  NoDup signers /\ Forall (fun f => exists sig key, sig ∈ sigs /\ signer sig = Some f /\ dget allowed f = Some key /\
    verify sha256 ecdsa sig document key = true) signers.
Proof.
  intros H. refine (foldR_inv (fun s => NoDup s /\ Forall _ s) _ _ _ _ H _ _); [split; constructor|].
  intros s sig s' Hin [Hnd Hf] E. unfold allowed_key in E. destruct (signer sig) as [f|] eqn:Es; [|by injection E as <-].
  destruct (dget allowed f) as [key|] eqn:Ek; [|by injection E as <-].
  apply bind_Ok in E as (? & Hv%raise_if_Ok%negb_false_iff & E). apply Ok_inj in E as <-. rewrite (Hal _ _ Ek).
  case_bool_decide as Hm; [done|]. split; [apply NoDup_app; split_and!; [done|set_solver+Hm|apply NoDup_singleton]|].
  apply Forall_app. split; [done|]. constructor; [|constructor]. by exists sig, key.
Qed.

(** ** The nodes *)

(** A node of an environment: a bare origin under its prefix, whose host is a DNS name. *)
Record node_ok (environment : pystr) (n : Node) : Prop := {
  node_is_bare : URL (node_origin n) = true;
  node_host : node_origin n = $"https://" ++ host n;
  node_dns : check_host (host n) = Ok tt;
  node_prefix : exists prefix, dget PREFIX environment = Some prefix /\ startswith (node_origin n) prefix = true;
  node_country : COUNTRY (country n) = true }.

Lemma startswith_drop s p : startswith s p = true -> s = p ++ drop (length p) s.
Proof. unfold startswith. intros H%bool_decide_eq_true. rewrite <- H at 1. by rewrite take_drop. Qed.

Lemma check_node_origin_Ok url environment u : check_node_origin url environment = Ok u ->
  url = JStr u /\ exists e prefix, environment = JStr e /\ dget PREFIX e = Some prefix /\ URL u = true /\
    startswith u prefix = true /\ check_host (drop 8 u) = Ok tt.
Proof.
  unfold check_node_origin. destruct environment as [| | | |e| | |]; try done. destruct (dget PREFIX e) as [prefix|] eqn:Ep; [|done].
  destruct url as [| | | |w| | |]; try done. intros H. apply bind_Ok in H as (? & Hu%raise_if_Ok%negb_false_iff & H).
  apply bind_Ok in H as (? & Hp%raise_if_Ok%negb_false_iff & H). apply bind_Ok in H as ([] & Hh & [= <-]).
  split; [done|]. by exists e, prefix.
Qed.

Lemma node_Ok environment seen entry n seen' : node environment seen entry = Ok (n, seen') ->
  node_ok environment n /\ (node_origin n ∉ seen) /\ seen' = node_origin n :: seen.
Proof.
  unfold node. destruct entry as [| | | | | |e|]; try done. intros H. apply bind_Ok in H as (? & _ & H).
  apply bind_Ok in H as (u & Hu & H). apply bind_Ok in H as (? & Hseen%raise_if_Ok%bool_decide_eq_false & H).
  apply bind_Ok in H as (c & Hc & H). destruct (jget e ($"organisation")) as [| | | |o| | |]; try done.
  apply bind_Ok in H as (? & _ & H). apply bind_Ok in H as (? & _ & [= <- <-]). cbn [node_origin].
  apply check_node_origin_Ok in Hu as (_ & ? & prefix & [= <-] & Hp & Hu & Hpre & Hh). split; [|done].
  destruct (jget e ($"country")) as [| | | |c'| | |]; try done. apply bind_Ok in Hc as (? & Hc%raise_if_Ok%negb_false_iff & [= <-]).
  split; try done; [|by exists prefix]. apply (startswith_drop _ ($"https://")). by apply andb_prop in Hu as [[? _]%andb_prop _].
Qed.

Lemma parse_nodes_Ok environment entries : forall ns seen ns' seen',
  foldR (fun acc entry => '(n, seen) ← node environment acc.2 entry; Ok (acc.1 ++ [n], seen)) (ns, seen) entries = Ok (ns', seen') ->
  exists new, ns' = ns ++ new /\ length new = length entries /\ Forall (node_ok environment) new /\
    seen' = reverse (node_origin <$> new) ++ seen /\ (NoDup seen -> NoDup seen').
Proof.
  induction entries as [|entry entries IH]; intros ns seen ns' seen' H; cbn [foldR] in H.
  { injection H as <- <-. exists []. rewrite app_nil_r. by repeat split. }
  apply bind_Ok in H as ([? ?] & Hn & H). apply bind_Ok in Hn as ([n seen1] & Hn & [= <- <-]). cbn [fst snd] in Hn.
  apply node_Ok in Hn as (Hok & Hnew & ->). apply IH in H as (new & -> & Hl & Hf & -> & Hnd).
  exists (n :: new). rewrite <- app_assoc. split; [done|]. split; [cbn; lia|]. split; [by constructor|].
  cbn [fmap list_fmap]. rewrite reverse_cons, <- app_assoc. split; [done|]. intros Hs. apply Hnd. by constructor.
Qed.

(** What the environments of a document hold. *)
Definition parsed_ok (parsed : list (pystr * list Node)) : Prop :=
  NoDup (node_origin <$> concat parsed.*2) /\ (length (concat parsed.*2) <= MAX_NODES)%nat /\
  Forall (fun en => en.2 <> [] /\ Forall (node_ok en.1) en.2) parsed.

Lemma parse_environments_Ok envs l parsed seen total :
  foldR (parse_environment envs) ([], [], 0%nat) l = Ok (parsed, seen, total) -> parsed_ok parsed.
Proof.
  intros H. cut (NoDup seen /\ seen ≡ₚ node_origin <$> concat parsed.*2 /\ total = length seen /\ (total <= MAX_NODES)%nat /\
    Forall (fun en => en.2 <> [] /\ Forall (node_ok en.1) en.2) parsed).
  { intros (Hnd & Hp & -> & Hl & Hf). rewrite Hp in Hnd. rewrite Hp, length_fmap in Hl. done. }
  refine (foldR_inv (fun st => NoDup st.1.2 /\ st.1.2 ≡ₚ node_origin <$> concat st.1.1.*2 /\ st.2 = length st.1.2 /\
    (st.2 <= MAX_NODES)%nat /\ Forall _ st.1.1) _ _ _ _ H _ _); [cbn; split_and!; try constructor; unfold MAX_NODES; lia|].
  clear. intros [[parsed seen] total] env [[parsed' seen'] total'] _ (Hnd & Hp & Ht & Hl & Hf) E. cbn [fst snd] in *.
  unfold parse_environment in E. destruct (dget envs env) as [v|]; [|by injection E as <- <- <-].
  destruct v as [| | | | |[|entry entries]| |]; try done. apply bind_Ok in E as (? & Hcap%raise_if_Ok%Nat.ltb_ge & E).
  apply bind_Ok in E as ([ns seen1] & Hns & [= <- <- <-]).
  apply parse_nodes_Ok in Hns as (new & -> & Hlen & Hok & -> & Hnd'). split; [by apply Hnd'|].
  rewrite !fmap_app, concat_app, fmap_app. cbn [fmap list_fmap snd concat app]. rewrite app_nil_r, reverse_Permutation, Hp.
  split; [apply Permutation_app_comm|]. rewrite !length_app, ?length_reverse, ?length_fmap, Hlen.
  rewrite Hp, length_fmap in Ht. split; [cbn; lia|]. split; [done|]. apply Forall_app. split; [done|]. constructor; [|constructor]. by destruct new.
Qed.

Lemma parse_list_Ok parse raw doc : parse_list parse raw = Ok doc ->
  parsed_ok (environments doc) /\ doc_issued doc < doc_expires doc <= doc_issued doc + MAX_VALIDITY /\ 1 <= doc_version doc <= MAX_VERSION.
Proof.
  intros H. unfold parse_list in H. apply bind_Ok in H as (d & _ & H). apply bind_Ok in H as (? & _ & H).
  apply bind_Ok in H as (v & Hv & H). apply bind_Ok in H as (kv & _ & H). do 2 (apply bind_Ok in H as (? & _ & H)).
  apply bind_Ok in H as (? & [Hlt%negb_false_iff%Z.ltb_lt Hmax%Z.ltb_ge]%raise_if_Ok%orb_false_iff & H).
  destruct (jget d ($"environments")) as [| | | | | |envs|]; try done. apply bind_Ok in H as (? & _ & H).
  apply bind_Ok in H as ([[parsed seen] total] & Hp & [= <-]). cbn. split; [by eapply parse_environments_Ok|]. split; [lia|].
  unfold version in Hv. destruct (jget d ($"version")); try done.
  apply bind_Ok in Hv as (? & Hb%raise_if_Ok%negb_false_iff%andb_prop & [= <-]). lia.
Qed.

(** ** The signatures *)

Section soundness.
Context (sha256 sha1 : bytes -> bytes) (ecdsa : bytes -> Z -> Z -> bytes -> bool) (on_curve : bytes -> bool).

(** [key]'s owner signed [document], by a signature of the file. *)
Definition signed_by (sig_file document : bytes) (key : PublicKey) : Prop :=
  exists sigs sig, read_signatures sig_file = Ok sigs /\ sig ∈ sigs /\ signer sig = Some (fingerprint key) /\
    verify sha256 ecdsa sig document key = true.

(** The key of a custodian of the key list. *)
Definition custodian_key (listed : list Custodian) (key : PublicKey) : Prop :=
  exists c, c ∈ listed /\ cust_fingerprint c = fingerprint key /\ read_public_key_block sha1 on_curve (armor c) = Ok key.

Lemma read_custodians_Ok listed allowed : read_custodians sha1 on_curve listed = Ok allowed ->
  dict_ok allowed /\ NoDup (point <$> allowed.*2) /\ Forall (fun fk => fk.1 = fingerprint fk.2 /\ custodian_key listed fk.2) allowed.
Proof.
  intros H. unfold read_custodians in H. apply bind_Ok in H as ([a points] & H & [= <-]).
  cut (dict_ok a /\ NoDup points /\ points ≡ₚ point <$> a.*2 /\ Forall (fun fk => fk.1 = fingerprint fk.2 /\ custodian_key listed fk.2) a).
  { intros (? & Hnd & Hp & ?). by rewrite Hp in Hnd. }
  refine (foldR_inv (fun st => dict_ok st.1 /\ NoDup st.2 /\ st.2 ≡ₚ point <$> st.1.*2 /\ Forall _ st.1) _ _ _ _ H _ _);
    [by repeat split; constructor|]. clear. intros [a points] c [a' points'] Hin (Hd & Hn & Hp & Hf) E. cbn [fst snd] in *.
  apply bind_Ok in E as (key & Hk & E). apply bind_Ok in E as (? & Hfp%raise_if_Ok%negb_false_iff%bool_decide_eq_true & E).
  apply bind_Ok in E as (? & Hnew%raise_if_Ok%orb_false_iff & [= <- <-]). destruct Hnew as [Hm Hpt%bool_decide_eq_false].
  assert (fingerprint key ∉ a.*1) by (intros Hx%dmem_spec; congruence).
  split; [by apply dset_ok|]. rewrite dset_new, !fmap_app by done. split; [by constructor|]. split.
  { rewrite Hp. cbn [fmap list_fmap fst snd]. by rewrite Permutation_app_comm. }
  apply Forall_app. split; [done|]. constructor; [|constructor]. split; [done|]. by exists c.
Qed.

(** At least [threshold] custodians, no two with one key, signed the document. *)
Definition quorum (listed : list Custodian) (threshold : Z) (sig_file document : bytes) : Prop :=
  exists signers, threshold <= Z.of_nat (length signers) /\ NoDup (point <$> signers) /\ NoDup (fingerprint <$> signers) /\
    Forall (fun key => custodian_key listed key /\ signed_by sig_file document key) signers.

Lemma signed_by_anchor sig_file document sigs signers anchor : read_signatures sig_file = Ok sigs ->
  verified_signers sha256 ecdsa sigs document [(fingerprint anchor, anchor)] = Ok signers -> fingerprint anchor ∈ signers ->
  signed_by sig_file document anchor.
Proof using Type.
  intros Hs Hv Hin. apply verified_signers_Ok in Hv as [_ Hf].
  - rewrite Forall_forall in Hf. destruct (Hf _ Hin) as (sig & key & Hsig & Hsg & Hk & Hok). cbn [dget] in Hk.
    rewrite decide_True in Hk by done. injection Hk as <-. by exists sigs, sig.
  - intros f key. cbn [dget]. case_decide; [|done]. by intros [= <-].
Qed.

Lemma custodians_quorum listed allowed sig_file document sigs signers threshold :
  read_custodians sha1 on_curve listed = Ok allowed -> read_signatures sig_file = Ok sigs ->
  verified_signers sha256 ecdsa sigs document allowed = Ok signers -> threshold <= Z.of_nat (length signers) ->
  quorum listed threshold sig_file document.
Proof.
  intros (Hd & Hpt & Hal)%read_custodians_Ok Hs Hv Ht. rewrite Forall_forall in Hal.
  assert (Hfp : forall f key, dget allowed f = Some key -> fingerprint key = f)
    by (intros f key Hk; by destruct (Hal _ (dget_Some_elem _ _ _ Hk))).
  destruct (verified_signers_Ok _ _ _ _ _ _ Hfp Hv) as [Hnd Hf]. exists (omap (dget allowed) signers).
  assert (Hmap : fingerprint <$> omap (dget allowed) signers = signers).
  { clear -Hf Hfp. induction Hf as [|f signers (sig & key & _ & _ & Hk & _) _ IH]; [done|].
    cbn [omap list_omap]. rewrite Hk. cbn [fmap list_fmap]. f_equal; [by apply Hfp|done]. }
  split; [by rewrite <- (length_fmap fingerprint), Hmap|]. split; [|split; [by rewrite Hmap|]].
  - rewrite list_fmap_omap. apply NoDup_omap; [|done]. intros f f' pt _ _ Hx Hy.
    destruct (dget allowed f) as [k|] eqn:Ek; [|done]. destruct (dget allowed f') as [k'|] eqn:Ek'; [|done].
    cbn in Hx, Hy. apply dget_Some_elem in Ek, Ek'. rewrite <- list_fmap_compose in Hpt.
    assert ((f, k) = (f', k')) by (apply (NoDup_fmap_elem _ _ _ _ Hpt Ek Ek'); cbn; congruence). congruence.
  - rewrite Forall_forall. intros key (f & Hin & Hk)%list_elem_of_omap. rewrite Forall_forall in Hf.
    destruct (Hf f Hin) as (sig & key' & Hsig & Hsg & Hk' & Hok). rewrite Hk in Hk'. injection Hk' as <-.
    split; [by apply (Hal _ (dget_Some_elem _ _ _ Hk))|]. exists sigs, sig. by rewrite (Hfp _ _ Hk).
Qed.

(** ** The verdict *)

(** A pair a caller may move to: a higher version, or the same bytes. *)
Definition acc_le (a b : Accepted) : Prop := acc_version a < acc_version b \/ a = b.

Definition not_rolled_back (floor : json) (last : option Accepted) (a : Accepted) : Prop :=
  (exists f, floor = JInt f /\ f <= acc_version a) /\ (forall l, last = Some l -> acc_le l a).

(** The list is of this moment. *)
Definition current (p : tnl_policy) (now : Z) (v : VerifiedNodeList) : Prop :=
  issued v <= now + SKEW /\ now < expires v /\ issued v < expires v <= issued v + MAX_VALIDITY /\
  (forall m, max_age p = Some m -> now <= issued v + m).

Lemma snapshot_Ok b cap b' : snapshot b cap = Ok b' -> b' = b.
Proof using Type. unfold snapshot. intros H. by inv_result. Qed.

Lemma floor_Ok value n : floor value = Ok n -> value = JInt n /\ 1 <= n.
Proof using Type. destruct value; try done. cbn. intros H. apply bind_Ok in H as (? & Hn%raise_if_Ok%Z.ltb_ge & [= <-]). done. Qed.

Lemma accepted_Ok value l : accepted value = Ok l -> l = (fun a => (acc_version a, acc_sha256 a)) <$> value.
Proof using Type.
  destruct value as [a|]; cbn; intros H; [|by injection H as <-]. unfold accepted_pair in H. inv_result. done.
Qed.

Lemma check_pair_Ok v digest floor_ f last l u : floor floor_ = Ok f -> accepted last = Ok l -> check_pair v digest f l = Ok u ->
  not_rolled_back floor_ last {| acc_version := v; acc_sha256 := digest |}.
Proof using Type.
  intros [-> _]%floor_Ok ->%accepted_Ok H. unfold check_pair in H. apply bind_Ok in H as (? & Hf%raise_if_Ok%Z.ltb_ge & H).
  split; [by exists f|]. intros [lv ld] ->. cbn in H. apply bind_Ok in H as (? & Hv%raise_if_Ok%Z.ltb_ge & Hd%raise_if_Ok).
  destruct (Z.eq_dec v lv) as [->|]; [|left; cbn; lia]. rewrite Z.eqb_refl in Hd. cbn in Hd.
  apply negb_false_iff, bool_decide_eq_true in Hd as ->. by right.
Qed.

Lemma check_args_Ok p now ll lk a : check_args on_curve p now ll lk = Ok a ->
  now = Some (a_instant a) /\ p_environment p = JStr (a_environment a) /\ anchor_key on_curve (p_anchor p) = Ok (a_anchor a) /\
  accepted ll = Ok (a_list a) /\ accepted lk = Ok (a_keys a) /\ floor (list_floor p) = Ok (a_list_floor a) /\
  floor (keys_floor p) = Ok (a_keys_floor a) /\ (forall m, min_threshold p = JInt m -> a_minimum a = Some m).
Proof using Type.
  intros H. unfold check_args in H. apply bind_Ok in H as (env & He & H). apply bind_Ok in H as (t & Ht & H).
  apply bind_Ok in H as (l & Hl & H). apply bind_Ok in H as (k & Hk & H). apply bind_Ok in H as (anchor & Ha & H).
  apply bind_Ok in H as (lf & Hlf & H). apply bind_Ok in H as (kf & Hkf & H). apply bind_Ok in H as (? & _ & H).
  apply bind_Ok in H as (m & Hm & [= <-]). cbn. destruct now; [|done]. injection Ht as ->.
  destruct (p_environment p); try done. apply bind_Ok in He as (? & _ & [= ->]). split_and!; try done.
  intros n E. rewrite E in Hm. apply bind_Ok in Hm as (? & [[= <-] _]%floor_Ok & [= <-]). done.
Qed.

Context (parse : pystr -> result json).

Lemma verify_key_list_Ok a keys keys_sig kv digest threshold custodians :
  verify_key_list sha256 sha1 ecdsa on_curve parse a keys keys_sig = Ok (kv, digest, threshold, custodians) ->
  signed_by keys_sig keys (a_anchor a) /\ digest = hex_lower (sha256 keys) /\ 1 <= threshold /\
  (forall m, a_minimum a = Some m -> m <= threshold) /\
  (exists u, check_pair kv digest (a_keys_floor a) (a_keys a) = Ok u) /\
  exists listed, parse_key_list parse keys = Ok (kv, threshold, listed) /\ read_custodians sha1 on_curve listed = Ok custodians.
Proof using Type.
  intros H. unfold verify_key_list in H. apply bind_Ok in H as (sigs & Hs & H). apply bind_Ok in H as (signers & Hv & H).
  apply bind_Ok in H as (? & Hin%raise_if_Ok%negb_false_iff%bool_decide_eq_true & H).
  apply bind_Ok in H as ([[kv' th] listed] & Hp & H). apply bind_Ok in H as (u & Hc & H).
  apply bind_Ok in H as (? & Ht%raise_if_Ok%negb_false_iff%andb_prop & H). apply bind_Ok in H as (? & Hm%raise_if_Ok & H).
  apply bind_Ok in H as (cs & Hr & [= <- <- <- <-]). split; [by eapply signed_by_anchor|]. split; [done|]. split; [lia|].
  split; [intros m E; rewrite E in Hm; lia|]. split; [by exists u|]. by exists listed.
Qed.

Lemma verify_document_Ok a max_age kv digest tnl v : verify_document sha256 parse a max_age kv digest tnl = Ok v ->
  exists doc u, parse_list parse tnl = Ok doc /\ dget (environments doc) (a_environment a) = Some (nodes v) /\
    (vl_environment v, vl_version v, vl_keys_version v, issued v, expires v) =
      (a_environment a, doc_version doc, doc_keys_version doc, doc_issued doc, doc_expires doc) /\
    accepted_list v = {| acc_version := doc_version doc; acc_sha256 := hex_lower (sha256 tnl) |} /\
    accepted_keys v = {| acc_version := kv; acc_sha256 := digest |} /\
    check_pair (doc_version doc) (hex_lower (sha256 tnl)) (a_list_floor a) (a_list a) = Ok u /\ doc_keys_version doc <= kv /\
    a_instant a < doc_expires doc /\ doc_issued doc <= a_instant a + SKEW /\
    (forall m, max_age = Some m -> a_instant a <= doc_issued doc + m).
Proof using Type.
  intros H. unfold verify_document in H. apply bind_Ok in H as (doc & Hd & H). apply bind_Ok in H as (u & Hc & H).
  apply bind_Ok in H as (? & Hk%raise_if_Ok%Z.ltb_ge & H). apply bind_Ok in H as (? & He%raise_if_Ok%Z.leb_gt & H).
  apply bind_Ok in H as (? & Hi%raise_if_Ok%Z.ltb_ge & H). apply bind_Ok in H as (? & Hm%raise_if_Ok & H).
  destruct (dget (environments doc) (a_environment a)) as [ns|] eqn:En; [|done]. apply Ok_inj in H as <-.
  exists doc, u. cbn. split_and!; try done; [lia|]. intros m ->. lia.
Qed.

(** What every accepted list establishes. *)
Lemma node_list_verified p input now last_list last_keys v
  (H : verify_node_list sha256 sha1 ecdsa on_curve parse p input now last_list last_keys = Ok v) :
  exists t anchor threshold listed,
    now = Some t /\ p_environment p = JStr (vl_environment v) /\
    anchor_key on_curve (p_anchor p) = Ok anchor /\ signed_by (keys_sig input) (keys input) anchor /\
    parse_key_list parse (keys input) = Ok (acc_version (accepted_keys v), threshold, listed) /\
    1 <= threshold /\ (forall m, min_threshold p = JInt m -> m <= threshold) /\
    quorum listed threshold (tnl_sig input) (tnl input) /\
    accepted_list v = {| acc_version := vl_version v; acc_sha256 := hex_lower (sha256 (tnl input)) |} /\
    acc_sha256 (accepted_keys v) = hex_lower (sha256 (keys input)) /\ vl_keys_version v <= acc_version (accepted_keys v) /\
    not_rolled_back (list_floor p) last_list (accepted_list v) /\ not_rolled_back (keys_floor p) last_keys (accepted_keys v) /\
    current p t v /\
    nodes v <> [] /\ NoDup (node_origin <$> nodes v) /\ Forall (node_ok (vl_environment v)) (nodes v).
Proof using Type.
  unfold verify_node_list in H. apply bind_Ok in H as (a & Ha & H).
  apply check_args_Ok in Ha as (-> & He & Han & Hll & Hlk & Hlf & Hkf & Hmin).
  do 4 (apply bind_Ok in H as (? & ->%snapshot_Ok & H)). apply bind_Ok in H as ([[[kv digest] threshold] custodians] & Hk & H).
  apply verify_key_list_Ok in Hk as (Hsig & -> & Ht & Hm & [u Hck] & listed & Hp & Hr).
  apply bind_Ok in H as (sigs & Hs & H). apply bind_Ok in H as (signers & Hv & H).
  apply bind_Ok in H as (? & Hq%raise_if_Ok%Z.ltb_ge & H).
  apply verify_document_Ok in H as (doc & u' & Hd & Hn & E & Eal & Eak & Hcl & Hkv & Hexp & Hiss & Hage).
  injection E as Ee Ev Ekv Ei Ex. apply parse_list_Ok in Hd as ((Hnd & _ & Hall) & Hval & _).
  exists (a_instant a), (a_anchor a), threshold, listed. rewrite Ee, Ev, Ekv, Eal, Eak. unfold current. rewrite Ei, Ex.
  cbn [acc_version acc_sha256]. apply dget_Some_elem in Hn. rewrite Forall_forall in Hall. destruct (Hall _ Hn) as [Hne Hok].
  split_and!; try done; [eauto|by eapply custodians_quorum|by eapply check_pair_Ok|by eapply check_pair_Ok|lia|lia|].
  apply list_elem_of_split in Hn as (l1 & l2 & El). rewrite El, fmap_app, concat_app, fmap_app in Hnd.
  cbn [fmap list_fmap concat snd] in Hnd. rewrite fmap_app in Hnd. by apply NoDup_app in Hnd as (_ & _ & [? _]%NoDup_app).
Qed.


(** ** A client that persists what it accepts *)

Record client_step := { c_policy : tnl_policy; c_input : tnl_input; c_now : option Z }.

(** The verifications of a client in turn: what it accepted, and the pairs it has persisted. *)
Fixpoint client_run (last_list last_keys : option Accepted) (steps : list client_step) : list VerifiedNodeList :=
  match steps with
  | [] => []
  | s :: steps =>
      match verify_node_list sha256 sha1 ecdsa on_curve parse (c_policy s) (c_input s) (c_now s) last_list last_keys with
      | Ok v => v :: client_run (Some (accepted_list v)) (Some (accepted_keys v)) steps
      | Err _ => client_run last_list last_keys steps
      end
  end.

Lemma acc_le_trans a b c : acc_le a b -> acc_le b c -> acc_le a c.
Proof using Type. unfold acc_le. intros [?| ->] [?| <-]; [left; lia|left; done|left; done|by right]. Qed.

Lemma node_list_pairs p input now ll lk v : verify_node_list sha256 sha1 ecdsa on_curve parse p input now ll lk = Ok v ->
  (forall l, ll = Some l -> acc_le l (accepted_list v)) /\ (forall l, lk = Some l -> acc_le l (accepted_keys v)).
Proof using Type.
  intros H. apply node_list_verified in H as (? & ? & ? & ? & _ & _ & _ & _ & _ & _ & _ & _ & _ & _ & _ & [_ ?] & [_ ?] & _). done.
Qed.

Lemma client_run_pairs steps : forall ll lk,
  Forall (fun v => forall l, ll = Some l -> acc_le l (accepted_list v)) (client_run ll lk steps) /\
  Forall (fun v => forall l, lk = Some l -> acc_le l (accepted_keys v)) (client_run ll lk steps) /\
  StronglySorted acc_le (accepted_list <$> client_run ll lk steps) /\
  StronglySorted acc_le (accepted_keys <$> client_run ll lk steps).
Proof using Type.
  induction steps as [|s steps IH]; intros ll lk; cbn [client_run]; [repeat constructor|].
  destruct (verify_node_list _ _ _ _ _ _ _ _ _ _) as [v|e] eqn:E; [|apply IH].
  apply node_list_pairs in E as [Hl Hk]. destruct (IH (Some (accepted_list v)) (Some (accepted_keys v))) as (Fl & Fk & Sl & Sk).
  assert (Hup : forall (f : VerifiedNodeList -> Accepted) last, (forall l, last = Some l -> acc_le l (f v)) ->
    Forall (fun w => forall l, Some (f v) = Some l -> acc_le l (f w)) (client_run (Some (accepted_list v)) (Some (accepted_keys v)) steps) ->
    Forall (fun w => forall l, last = Some l -> acc_le l (f w)) (client_run (Some (accepted_list v)) (Some (accepted_keys v)) steps)).
  { intros f last Hlast HF. apply (Forall_impl _ _ _ HF). intros w Hw l El. eapply acc_le_trans; [by apply Hlast|by apply Hw]. }
  split; [constructor; [exact Hl|exact (Hup accepted_list ll Hl Fl)]|].
  split; [constructor; [exact Hk|exact (Hup accepted_keys lk Hk Fk)]|].
  cbn [fmap list_fmap]. split; constructor; try done; apply Forall_fmap;
    [apply (Forall_impl _ _ _ Fl)|apply (Forall_impl _ _ _ Fk)]; intros w Hw; by apply Hw.
Qed.

(** C32: A client never goes back.  Over any sequence of verifications, with any policies,
    documents and clocks, in which the client persists the pairs of what it accepts, the node
    lists it accepted carry versions that never decrease, two with one version have the same
    digest, and the same holds of the key lists. *)
Theorem node_list_no_rollback last_list last_keys steps :
  StronglySorted acc_le (accepted_list <$> client_run last_list last_keys steps) /\
  StronglySorted acc_le (accepted_keys <$> client_run last_list last_keys steps).
Proof. by destruct (client_run_pairs steps last_list last_keys) as (_ & _ & ? & ?). Qed.
End soundness.

(** ** What is read before it is authenticated *)

Section authenticated.
Context (sha256 sha1 : bytes -> bytes) (ecdsa : bytes -> Z -> Z -> bytes -> bool) (on_curve : bytes -> bool).


Lemma load_object_parse parse parse' raw : (forall text, utf8_decode raw = Ok text -> parse text = parse' text) ->
  load_object parse raw = load_object parse' raw.
Proof using Type. intros H. unfold load_object. apply bind_ext. intros text Ht%catch_as_Ok. by rewrite (H text Ht). Qed.

Lemma parse_list_parse parse parse' raw : (forall text, utf8_decode raw = Ok text -> parse text = parse' text) ->
  parse_list parse raw = parse_list parse' raw.
Proof using Type. intros H. unfold parse_list. by rewrite (load_object_parse parse parse'). Qed.

Lemma parse_key_list_parse parse parse' raw : (forall text, utf8_decode raw = Ok text -> parse text = parse' text) ->
  parse_key_list parse raw = parse_key_list parse' raw.
Proof using Type. intros H. unfold parse_key_list. by rewrite (load_object_parse parse parse'). Qed.

(** C11: Nothing is parsed before it is authenticated.  Take any two parsers.  If they agree on
    the key list when the anchor signed it, and on the node list when a quorum of the custodians
    the anchor vouches for signed it, then [verify_node_list] answers the same with either: the
    text of a document that fails its signature check influences nothing, not even which error
    is raised. *)
Theorem authenticated_before_parsed parse parse' p input now last_list last_keys
  (Hk : forall text anchor, utf8_decode (keys input) = Ok text -> anchor_key on_curve (p_anchor p) = Ok anchor ->
        signed_by sha256 ecdsa (keys_sig input) (keys input) anchor -> parse text = parse' text)
  (Ht : forall text kv threshold listed, utf8_decode (tnl input) = Ok text ->
        parse_key_list parse (keys input) = Ok (kv, threshold, listed) ->
        quorum sha256 sha1 ecdsa on_curve listed threshold (tnl_sig input) (tnl input) -> parse text = parse' text) :
  verify_node_list sha256 sha1 ecdsa on_curve parse p input now last_list last_keys =
  verify_node_list sha256 sha1 ecdsa on_curve parse' p input now last_list last_keys.
Proof.
  unfold verify_node_list. apply bind_ext. intros a Ha. apply check_args_Ok in Ha as (_ & _ & Han & _).
  do 4 (apply bind_ext; intros ? ->%snapshot_Ok).
  assert (verify_key_list sha256 sha1 ecdsa on_curve parse a (keys input) (keys_sig input) =
          verify_key_list sha256 sha1 ecdsa on_curve parse' a (keys input) (keys_sig input)) as <-.
  { unfold verify_key_list. apply bind_ext. intros sigs Hs. apply bind_ext. intros signers Hv. apply bind_ext.
    intros _ Hin%raise_if_Ok%negb_false_iff%bool_decide_eq_true. rewrite (parse_key_list_parse parse parse'); [done|].
    intros text Htext. apply (Hk text _ Htext Han). by eapply signed_by_anchor. }
  apply bind_ext. intros [[[kv digest] threshold] custodians] Hkl.
  apply verify_key_list_Ok in Hkl as (_ & _ & _ & _ & _ & listed & Hp & Hr).
  apply bind_ext. intros sigs Hs. apply bind_ext. intros signers Hv. apply bind_ext. intros _ Hq%raise_if_Ok%Z.ltb_ge.
  unfold verify_document. rewrite (parse_list_parse parse parse'); [done|].
  intros text Htext. apply (Ht text _ _ _ Htext Hp). by eapply custodians_quorum.
Qed.
End authenticated.

(** * Examples *)

(** Two custodians, with points [04 01...] and [04 02...], and an anchor with point [04 03...].
    A fingerprint is the end of the point and a digest starts with [abcd]; any [r = s = 1] is a
    valid signature. *)
Definition example_sha256 (_ : bytes) : bytes := 171 :: 205 :: repeat 0 30.
Definition example_sha1 (b : bytes) : bytes := drop (length b - 20) b.
Definition example_point (b : Z) : bytes := 4 :: repeat b 64.
Definition example_fp (b : Z) : pystr := hex_upper (repeat b 20).
Definition example_b64 (b : bytes) : pystr :=
  map (fun c => if c =? 45 then 43 else if c =? 95 then 47 else c) (urlsafe_b64encode b).
Definition example_key (b : Z) : bytes :=
  let body := [4; 0; 0; 0; 0; 19; 8; 42; 134; 72; 206; 61; 3; 1; 7] ++ [2; 3] ++ example_point b in 152 :: len body :: body.
Definition example_armor (b : Z) : pystr :=
  let text := example_b64 (example_key b) in
  ARMOR_BEGIN ++ [10; 10] ++ take 64 text ++ [10] ++ drop 64 text ++ [10] ++ ARMOR_END ++ [10].
Definition example_signature (b : Z) : bytes :=
  let body := [4; 0; 19; 8; 0; 29] ++ [5; 2; 0; 0; 0; 9] ++ (22 :: 33 :: 4 :: repeat b 20) ++ [0; 0; 171; 205; 0; 1; 1; 0; 1; 1] in
  136 :: len body :: body.

Definition example_custodian (b : Z) : json :=
  JDict [($"fingerprint", JStr (example_fp b)); ($"publicKey", JStr (example_armor b))].
Definition example_node (name : pystr) : json :=
  JDict [($"url", JStr ($"https://api.ebsi." ++ name)); ($"country", JStr ($"ES")); ($"organisation", JStr ($"Node 1"))].
Definition example_list (version : Z) : json :=
  JDict [($"version", JInt version); ($"keysVersion", JInt 1); ($"issued", JStr ($"2026-10-16T00:00:00Z"));
         ($"expires", JStr ($"2026-12-16T00:00:00Z"));
         ($"environments", JDict [($"prod", JList [example_node ($"es"); example_node ($"pt")])])].
Definition example_parse (text : pystr) : result json :=
  if bool_decide (text = $"keys") then
    Ok (JDict [($"version", JInt 1); ($"threshold", JInt 2); ($"keys", JList (example_custodian <$> [1; 2]))])
  else if bool_decide (text = $"list 4") then Ok (example_list 4)
  else if bool_decide (text = $"list 5") then Ok (example_list 5) else Err ValueError.

Definition example_policy : tnl_policy := {|
  p_environment := JStr ($"prod"); list_floor := JInt LIST_VERSION_FLOOR; keys_floor := JInt KEYS_VERSION_FLOOR; max_age := None;
  min_threshold := JInt DEFAULT_MIN_THRESHOLD;
  p_anchor := {| anchor_fingerprint := example_fp 3; anchor_curve := JStr ($"P-256"); public_point := example_point 3 |} |}.
Definition example_input (doc : pystr) : tnl_input := {|
  tnl := doc; tnl_sig := example_signature 1 ++ example_signature 2; keys := $"keys"; keys_sig := example_signature 3 |}.
Definition example_instant : Z := (1792108800 + 3600) * SECOND.
Definition example_verify parse doc := verify_node_list example_sha256 example_sha1 (fun _ _ _ _ => true) (fun _ => true) parse
  example_policy (example_input doc) (Some example_instant) None None.


(** A key list the anchor did not sign is refused the same whatever its text says. *)
Lemma authenticated_before_parsed_witness :
  let input := {| tnl := $"list 4"; tnl_sig := example_signature 1; keys := $"keys"; keys_sig := example_signature 1 |} in
  let other text := if bool_decide (text = $"keys") then Ok JNull else example_parse text in
  let run parse := verify_node_list example_sha256 example_sha1 (fun _ _ _ _ => true) (fun _ => true) parse
    example_policy input (Some example_instant) None None in
  run example_parse = Err NodeListSignatureError /\ run example_parse = run other.
Proof.
  split; [vm_compute; reflexivity|]. apply authenticated_before_parsed.
  - intros text anchor _ Ha (sigs & sig & Hs & Hin & Hsig & _). exfalso. vm_compute in Ha. apply Ok_inj in Ha as <-.
    vm_compute in Hs. apply Ok_inj in Hs as <-. apply list_elem_of_singleton in Hin as ->. vm_compute in Hsig. discriminate Hsig.
  - intros text kv threshold listed Ht _ _. vm_compute in Ht. apply Ok_inj in Ht as <-. reflexivity.
Defined.

(** The client moves forward, and is not moved back. *)
Example client_ex : acc_version ∘ accepted_list <$> client_run example_sha256 example_sha1 (fun _ _ _ _ => true) (fun _ => true)
  example_parse None None
  (map (fun doc => {| c_policy := example_policy; c_input := example_input doc; c_now := Some example_instant |})
     [$"list 4"; $"list 5"; $"list 4"; $"list 5"]) = [4; 5; 5].
Proof. by vm_compute. Qed.

Example instant_ex : instant (JStr ($"2026-10-16T00:00:00Z")) = Ok (1792108800 * SECOND) /\
  instant (JStr ($"2026-02-29T00:00:00Z")) = Err NodeListMalformed /\ instant (JStr ($"1970-01-01T00:00:01Z")) = Ok SECOND.
Proof. by vm_compute. Qed.

Example europeum_ex : is_ok (anchor_key (fun _ => true) EUROPEUM_KEY_LIST_ANCHOR) = true.
Proof. by vm_compute. Qed.
