(* ===== verification/Webvh.v ===== *)
(** [openvc.did.did_webvh] (src/src/openvc/did/did_webvh.py): the did:webvh resolver, which
    replays a hash-chained, signed version log.  SHA-256, the signature primitive, the JSON
    parser and [datetime.fromisoformat] are parameters; the canonicalization, the multihash
    encoding and the multikeys are those of the modules modelled here. *)
From Stdlib Require Import SpecFloat.
From S2P Require Import Prelude Errors PyStr Utf8 Multibase Json Base64 Decimal PyNum Doubles Jcs VerifyCommon Did.

Definition SCID_PLACEHOLDER : pystr := $"{SCID}".
Definition MULTIHASH_SHA256_PREFIX : bytes := [18; 32].
Definition ED25519_MULTICODEC : Z := 237.
Definition EDDSA_JCS : pystr := $"eddsa-jcs-2022".
Definition MAX_LOG_ENTRIES : Z := 1000.
Definition MAX_SCID_DEPTH : nat := 100.

(** * The log's URL *)

Definition did_webvh_url (unquote : pystr -> pystr) (did : pystr) : result pystr :=
  let '(scid, rest) := partition 58 (drop 10 did) in
  raise_if (bool_decide (scid = []) || bool_decide (rest = [])) DidWebvhError;;
  web_url ← catch_as (fun e => isinstance e DidResolutionError) DidWebvhError
              (did_web_url unquote ($"did:web:" ++ rest));
  Ok (take (length web_url - 8) web_url ++ $"did.jsonl").

(** * Hashes and keys *)

(** [_deep_replace_scid]; [room] is how many more levels the depth bound allows. *)
Fixpoint deep_replace_scid (room : nat) (scid : pystr) (obj : json) : result json :=
  match room with
  | O => Err DidWebvhError
  | S room =>
      match obj with
      | JStr s => Ok (JStr (replace scid SCID_PLACEHOLDER s))
      | JList l => l ← mapR (deep_replace_scid room scid) l; Ok (JList l)
      | JDict d => d ← mapR (fun kv => v ← deep_replace_scid room scid kv.2; Ok (kv.1, v)) d; Ok (JDict d)
      | _ => Ok obj
      end
  end.

Definition webvh_multikey_to_jwk (multikey : pystr) : result jobject :=
  '(code, key) ← catch_as (fun e => isinstance e MultibaseError) DidWebvhError
    (data ← decode_multibase multikey; '(code, off) ← read_varint data; Ok (code, drop (Z.to_nat off) data));
  raise_if (negb (code =? ED25519_MULTICODEC) || negb (len key =? 32)) DidWebvhError;;
  Ok (okp_jwk key).

Definition entry_without_proof (entry : jobject) : jobject := ddel entry ($"proof").

(** The entry that is hashed: its predecessor's [versionId] takes the place of its own. *)
Definition rehashed (entry : jobject) (predecessor : pystr) : json :=
  JDict (dset (entry_without_proof entry) ($"versionId") (JStr predecessor)).

Section replay.
Context (float_repr : spec_float -> pystr) (sha256 : bytes -> bytes).
Context (verify_signature : pystr -> json -> bytes -> bytes -> result bool).
Context (fromisoformat : pystr -> option (Z * option Z)).

Definition jcs (obj : json) : result bytes :=
  catch_as (fun e => isinstance e JcsError || isinstance e RecursionError || isinstance e ValueError
                     || isinstance e TypeError) DidWebvhError (canonicalize float_repr obj).

Definition multihash_b58 (data : bytes) : pystr := b58btc_encode (MULTIHASH_SHA256_PREFIX ++ sha256 data).

(** [multikey.encode("utf-8")] raises on a surrogate. *)
Definition prerotation_hash (multikey : pystr) : result pystr := b ← utf8_encode multikey; Ok (multihash_b58 b).

(** * One entry *)

(** What one proof of the entry says: [None] when it is passed over. *)
Definition verify_one_proof (active : list pystr) (doc_hash : bytes) (proof : json) : result bool :=
  match proof with
  | JDict proof =>
      if negb (eq_str (jget proof ($"type")) ($"DataIntegrityProof"))
         || negb (eq_str (jget proof ($"cryptosuite")) EDDSA_JCS) then Ok false
      else if negb (eq_str (jget proof ($"proofPurpose")) ($"assertionMethod")) then Ok false
      else
        match jget proof ($"verificationMethod"), jget proof ($"proofValue") with
        | JStr vm, JStr pv =>
            let multikey := if startswith vm ($"did:key:") then before_fragment (drop 8 vm) else [] in
            if negb (bool_decide (multikey ∈ active)) then Ok false
            else
              config ← jcs (JDict (ddel proof ($"proofValue")));
              match decode_multibase pv with
              | Err e => if isinstance e MultibaseError then Ok false else Err e
              | Ok sig =>
                  jwk ← webvh_multikey_to_jwk multikey;
                  verify_signature ($"EdDSA") (JDict jwk) (sha256 config ++ doc_hash) sig
              end
        | _, _ => Ok false
        end
  | _ => Ok false
  end.

Fixpoint first_valid (active : list pystr) (doc_hash : bytes) (proofs : list json) : result unit :=
  match proofs with
  | [] => Err DidWebvhError
  | proof :: proofs =>
      ok ← verify_one_proof active doc_hash proof;
      if (ok : bool) then Ok tt else first_valid active doc_hash proofs
  end.

Definition verify_entry_proof (entry : jobject) (active_keys : list pystr) : result unit :=
  let proofs := match jget entry ($"proof") with JDict p => JList [JDict p] | p => p end in
  match proofs with
  | JList (p :: ps) =>
      document ← jcs (JDict (entry_without_proof entry));
      first_valid active_keys (sha256 document) (p :: ps)
  | _ => Err DidWebvhError
  end.

Definition parse_version_id (version_id : json) (expected_number : Z) : result pystr :=
  match version_id with
  | JStr v =>
      raise_if (negb (bool_decide (45 ∈ v))) DidWebvhError;;
      let '(number, entry_hash) := partition 45 v in
      raise_if (negb (bool_decide (number = str_of_int expected_number)) || bool_decide (entry_hash = [])) DidWebvhError;;
      Ok entry_hash
  | _ => Err DidWebvhError
  end.

(** [witness] is the dict in force. *)
Definition witness_policy_active (witness : jobject) : bool :=
  match witness with
  | [] => false
  | _ =>
      match jget witness ($"witnesses") with
      | JList (_ :: _) => true
      | _ => let threshold := jget witness ($"threshold") in
             negb (is_none threshold) && negb (py_eq threshold (JInt 0))
      end
  end.

Definition version_time (entry : jobject) : result Z :=
  match jget entry ($"versionTime") with
  | JStr raw =>
      let text := if ends_with_z raw then take (length raw - 1) raw ++ $"+00:00" else raw in
      match fromisoformat text with
      | Some (wall, offset) => Ok (wall - default 0 offset)
      | None => Err DidWebvhError
      end
  | _ => Err DidWebvhError
  end.

(** * The replay *)

(** The variables the loop carries from one entry to the next. *)
Record replay := {
  prev_version_id : pystr; prev_time : option Z;
  active_keys : list pystr; next_key_hashes : list json;
  witness : jobject; state : jobject; deactivated : bool }.

(** [params.get("updateKeys")]: [None], or ASCII strings. *)
Definition declared_keys (params : jobject) : result (option (list pystr)) :=
  match jget params ($"updateKeys") with
  | JNull => Ok None
  | JList l =>
      keys ← mapR (fun k => match k with
                            | JStr s => if isascii s then Ok s else Err DidWebvhError
                            | _ => Err DidWebvhError
                            end) l;
      Ok (Some keys)
  | _ => Err DidWebvhError
  end.

(** The keys that may sign an entry, and the [versionId] its hash is chained to. *)
Definition genesis_authority (params : jobject) (declared : option (list pystr)) : result (list pystr * pystr) :=
  raise_if (negb (eq_str (jget params ($"method")) ($"did:webvh:1.0"))) DidWebvhError;;
  match jget params ($"scid"), declared with
  | JStr ((_ :: _) as scid), Some ((_ :: _) as keys) => Ok (keys, scid)
  | _, _ => Err DidWebvhError
  end.

Definition later_authority (st : replay) (declared : option (list pystr)) : result (list pystr * pystr) :=
  match next_key_hashes st with
  | [] => Ok (active_keys st, prev_version_id st)
  | hashes =>
      match declared with
      | Some ((_ :: _) as keys) =>
          foldR (fun _ key => h ← prerotation_hash key;
                              raise_if (negb (existsb (fun v => eq_str v h) hashes)) DidWebvhError) tt keys;;
          Ok (keys, prev_version_id st)
      | _ => Err DidWebvhError
      end
  end.

Definition check_scid (entry : jobject) (scid : pystr) : result unit :=
  prelim ← deep_replace_scid (S MAX_SCID_DEPTH) scid (rehashed entry SCID_PLACEHOLDER);
  b ← jcs prelim;
  raise_if (negb (bool_decide (multihash_b58 b = scid))) DidWebvhError.

Definition carry (params : jobject) (declared : option (list pystr)) (st : replay) : replay :=
  {| prev_version_id := prev_version_id st; prev_time := prev_time st;
     active_keys := default (active_keys st) declared;
     next_key_hashes := match dget params ($"nextKeyHashes") with
                        | Some (JList l) => l | Some _ => [] | None => next_key_hashes st end;
     witness := match dget params ($"witness") with
                | Some (JDict d) => d | Some _ => [] | None => witness st end;
     state := state st;
     deactivated := match dget params ($"deactivated") with Some v => truthy v | None => deactivated st end |}.

Definition replay_entry (st : replay) (ie : nat * jobject) : result replay :=
  let '(index, entry) := ie in
  match jget entry ($"parameters") with
  | JDict params =>
      declared ← declared_keys params;
      '(authorized, predecessor) ← match index with
                                   | O => genesis_authority params declared
                                   | _ => later_authority st declared
                                   end;
      match index with O => check_scid entry predecessor | _ => Ok tt end;;
      entry_hash ← parse_version_id (jget entry ($"versionId")) (Z.of_nat index + 1);
      b ← jcs (rehashed entry predecessor);
      raise_if (negb (bool_decide (multihash_b58 b = entry_hash))) DidWebvhError;;
      vtime ← version_time entry;
      raise_if (match prev_time st with Some t => vtime <? t | None => false end) DidWebvhError;;
      verify_entry_proof entry authorized;;
      let st := carry params declared st in
      raise_if (witness_policy_active (witness st)) DidWebvhError;;
      match jget entry ($"state"), jget entry ($"versionId") with
      | JDict new_state, JStr v =>
          Ok {| prev_version_id := v; prev_time := Some vtime; active_keys := active_keys st;
                next_key_hashes := next_key_hashes st; witness := witness st; state := new_state;
                deactivated := deactivated st |}
      | _, _ => Err DidWebvhError
      end
  | _ => Err DidWebvhError
  end.

Definition replay_start : replay :=
  {| prev_version_id := []; prev_time := None; active_keys := []; next_key_hashes := []; witness := [];
     state := []; deactivated := false |}.

Definition replay_all (entries : list jobject) : result replay :=
  foldR replay_entry replay_start (imap (fun i e => (i, e)) entries).

Context (decode_point : pystr -> bytes -> option (Z * Z)).

Definition replay_document (did : pystr) (entries : list jobject) : result DidDocument :=
  st ← replay_all entries;
  raise_if (negb (eq_str (jget (state st) ($"id")) did)) DidWebvhError;;
  raise_if (dmem (state st) ($"didDocument")) DidWebvhError;;
  raise_if (deactivated st) DidWebvhError;;
  doc ← parse_did_document decode_point (JDict (state st));
  raise_if (negb (bool_decide (doc_id doc = did))) DidWebvhError;;
  Ok doc.

(** * Reading the log *)

(** [_json.loads] on text; Unicode white space. *)
Context (json_loads : pystr -> result json) (is_space : Z -> bool).

Definition parse_line (entries : list jobject) (line : pystr) : result (list jobject) :=
  if bool_decide (strip is_space line = []) then Ok entries
  else
    raise_if (MAX_LOG_ENTRIES <=? len entries) DidWebvhError;;
    obj ← catch_as (fun e => isinstance e ValueError || isinstance e RecursionError) DidWebvhError (json_loads line);
    match obj with JDict d => Ok (entries ++ [d]) | _ => Err DidWebvhError end.

Definition parse_lines (log : pystr) : result (list jobject) :=
  entries ← foldR parse_line [] (splitlines log);
  raise_if (bool_decide (entries = [])) DidWebvhError;;
  Ok entries.

(** The caller's text fetch. *)
Context (unquote : pystr -> pystr) (fetch : pystr -> result pystr).

Definition webvh_resolve (did : pystr) : result DidDocument :=
  url ← did_webvh_url unquote did;
  log ← fetch url;
  entries ← parse_lines log;
  replay_document did entries.

Definition DidWebvhResolver : DidResolver :=
  {| supports := Some (fun did => startswith did ($"did:webvh:")); resolve := webvh_resolve |}.
End replay.

(** * What an accepted entry satisfies *)

Definition version_id (n : Z) (entry_hash : pystr) : pystr := str_of_int n ++ 45 :: entry_hash.

Lemma parse_version_id_Ok v n h : parse_version_id v n = Ok h -> v = JStr (version_id n h) /\ h <> [].
Proof.
  unfold parse_version_id. destruct v as [| | | |v| | |]; try done. intros H.
  apply bind_Ok in H as (_ & Hd%raise_if_Ok & H). apply negb_false_iff, bool_decide_eq_true in Hd.
  apply partition_split in Hd. destruct (partition 45 v) as [a b]. cbn [fst snd] in Hd.
  apply bind_Ok in H as (_ & Hn%raise_if_Ok & H). injection H as ->.
  apply orb_false_iff in Hn as [Hn%negb_false_iff Hne]. apply bool_decide_eq_true in Hn as ->.
  apply bool_decide_eq_false in Hne. split; [|done]. unfold version_id. by rewrite Hd.
Qed.

Lemma str_of_int_no_dash n : 0 <= n -> 45 ∉ str_of_int n.
Proof.
  intros Hn H. unfold str_of_int in H. destruct (Z.ltb_spec n 0); [lia|].
  destruct (str_of_nonneg_spec n Hn) as ((_ & Hd) & _). rewrite Forall_forall in Hd. apply Hd in H. lia.
Qed.

Lemma version_id_inj n m h h' : 0 <= n -> 0 <= m -> version_id n h = version_id m h' -> n = m /\ h = h'.
Proof.
  intros Hn Hm E. unfold version_id in E.
  pose proof (partition_present 45 (str_of_int n) h (str_of_int_no_dash n Hn)) as P1.
  rewrite E, (partition_present 45 (str_of_int m) h' (str_of_int_no_dash m Hm)) in P1.
  injection P1 as E1 E2. split; [|done]. symmetry. by apply str_of_int_inj.
Qed.

(** The declarative reading of a log: what is in force after the entries of a prefix. *)
Definition params_of (entry : jobject) : jobject := default [] (as_dict (jget entry ($"parameters"))).
Definition entry_keys (entry : jobject) : option (list pystr) :=
  match declared_keys (params_of entry) with Ok k => k | Err _ => None end.
Definition keys_in_force (prefix : list jobject) : list pystr :=
  foldl (fun keys e => default keys (entry_keys e)) [] prefix.
Definition hashes_in_force (prefix : list jobject) : list json :=
  foldl (fun hashes e => match dget (params_of e) ($"nextKeyHashes") with
                         | Some (JList l) => l | Some _ => [] | None => hashes end) [] prefix.
Definition deactivation_in_force (prefix : list jobject) : bool :=
  foldl (fun b e => match dget (params_of e) ($"deactivated") with Some v => truthy v | None => b end) false prefix.

(** The keys that may sign the entry after [prefix]: those it declares when it is the first
    or a pre-rotation is in force, those in force otherwise. *)
Definition authorized (prefix : list jobject) (entry : jobject) : list pystr :=
  match prefix, hashes_in_force prefix with
  | _ :: _, [] => keys_in_force prefix
  | _, _ => default [] (entry_keys entry)
  end.

(** What the hash of the entry after [prefix] is chained to. *)
Definition predecessor (prefix : list jobject) (entry : jobject) : json :=
  match last prefix with
  | Some p => jget p ($"versionId")
  | None => jget (params_of entry) ($"scid")
  end.

Section sound.
Context (float_repr : spec_float -> pystr) (sha256 : bytes -> bytes).
Context (verify_signature : pystr -> json -> bytes -> bytes -> result bool).
Context (fromisoformat : pystr -> option (Z * option Z)).
Abbreviation jcs_ := (jcs float_repr).
Abbreviation replay_entry_ := (replay_entry float_repr sha256 verify_signature fromisoformat).
Abbreviation replay_all_ := (replay_all float_repr sha256 verify_signature fromisoformat).

(** The entry carries a proof whose Ed25519 signature by [key] covers it. *)
Definition signed_by (entry : jobject) (key : pystr) : Prop :=
  exists proof jwk config document sig,
    (jget entry ($"proof") = JDict proof \/
     exists l, jget entry ($"proof") = JList l /\ JDict proof ∈ l) /\
    eq_str (jget proof ($"cryptosuite")) EDDSA_JCS = true /\
    eq_str (jget proof ($"proofPurpose")) ($"assertionMethod") = true /\
    webvh_multikey_to_jwk key = Ok jwk /\
    jcs_ (JDict (ddel proof ($"proofValue"))) = Ok config /\
    jcs_ (JDict (entry_without_proof entry)) = Ok document /\
    verify_signature ($"EdDSA") (JDict jwk) (sha256 config ++ sha256 document) sig = Ok true.

Lemma verify_one_proof_Ok active h proof :
  verify_one_proof float_repr sha256 verify_signature active h proof = Ok true ->
  exists p key jwk config sig, proof = JDict p /\ key ∈ active /\
    eq_str (jget p ($"cryptosuite")) EDDSA_JCS = true /\
    eq_str (jget p ($"proofPurpose")) ($"assertionMethod") = true /\
    webvh_multikey_to_jwk key = Ok jwk /\ jcs_ (JDict (ddel p ($"proofValue"))) = Ok config /\
    verify_signature ($"EdDSA") (JDict jwk) (sha256 config ++ h) sig = Ok true.
Proof using.
  unfold verify_one_proof. intros H. destruct proof as [| | | | | |p|]; try done.
  destruct (negb _ || negb _) eqn:E1; [done|]. apply orb_false_iff in E1 as [_ E1%negb_false_iff].
  destruct (negb _) eqn:E2 in H; [done|]. apply negb_false_iff in E2.
  destruct (jget p ($"verificationMethod")) as [| | | |vm| | |]; try done.
  destruct (jget p ($"proofValue")) as [| | | |pv| | |]; try done.
  set (key := if startswith vm _ then _ else _) in H.
  destruct (negb (bool_decide (key ∈ active))) eqn:E3; [done|]. apply negb_false_iff, bool_decide_eq_true in E3.
  apply bind_Ok in H as (config & Hc & H). destruct (decode_multibase pv) as [sig|e]; [|by case_match].
  apply bind_Ok in H as (jwk & Hj & H). by exists p, key, jwk, config, sig.
Qed.

Lemma first_valid_Ok active h proofs u :
  first_valid float_repr sha256 verify_signature active h proofs = Ok u ->
  exists proof, proof ∈ proofs /\ verify_one_proof float_repr sha256 verify_signature active h proof = Ok true.
Proof using.
  induction proofs as [|p ps IH]; intros H; [done|]. cbn [first_valid] in H.
  apply bind_Ok in H as (ok & Hp & H). destruct ok; [exists p; split; [left|done]|].
  destruct (IH H) as (q & Hq & Hv). exists q. split; [by right|done].
Qed.

Lemma verify_entry_proof_Ok entry active u :
  verify_entry_proof float_repr sha256 verify_signature entry active = Ok u ->
  exists key, key ∈ active /\ signed_by entry key.
Proof using.
  unfold verify_entry_proof. intros H.
  set (proofs := match jget entry ($"proof") with JDict p => JList [JDict p] | p => p end) in H.
  destruct proofs as [| | | | |[|p ps]| |] eqn:E; try done.
  apply bind_Ok in H as (document & Hd & H). apply first_valid_Ok in H as (proof & Hin & Hv).
  apply verify_one_proof_Ok in Hv as (q & key & jwk & config & sig & -> & Hkey & Hs & Hp & Hj & Hc & Hv).
  exists key. split; [done|]. exists q, jwk, config, document, sig. split; [|done].
  subst proofs. destruct (jget entry ($"proof")) as [| | | | |l|d|]; try done.
  - right. exists l. injection E as ->. done.
  - left. injection E as <- <-. by apply list_elem_of_singleton in Hin as [= ->].
Qed.

(** The hash chain: the entry's [versionId] is its number and the hash of its canonical form
    with its predecessor's [versionId] in place of its own. *)
Definition linked (prefix : list jobject) (entry : jobject) : Prop :=
  exists p b, predecessor prefix entry = JStr p /\ jcs_ (rehashed entry p) = Ok b /\
    jget entry ($"versionId") = JStr (version_id (Z.of_nat (length prefix) + 1) (multihash_b58 sha256 b)).

(** The genesis entry's [scid] is the hash of the entry with the SCID taken out. *)
Definition self_certifying (entry : jobject) : Prop :=
  exists scid prelim b, jget (params_of entry) ($"scid") = JStr scid /\
    deep_replace_scid (S MAX_SCID_DEPTH) scid (rehashed entry SCID_PLACEHOLDER) = Ok prelim /\
    jcs_ prelim = Ok b /\ multihash_b58 sha256 b = scid.

(** Under a pre-rotation every key the entry declares was committed to before. *)
Definition prerotated (prefix : list jobject) (entry : jobject) : Prop :=
  prefix <> [] -> hashes_in_force prefix <> [] ->
  exists keys, entry_keys entry = Some keys /\ keys <> [] /\
    Forall (fun key => exists h, prerotation_hash sha256 key = Ok h /\ JStr h ∈ hashes_in_force prefix) keys.

Definition entry_ok (prefix : list jobject) (entry : jobject) : Prop :=
  linked prefix entry /\ prerotated prefix entry /\ (prefix = [] -> self_certifying entry) /\
  (exists key, key ∈ authorized prefix entry /\ signed_by entry key) /\
  (exists t, version_time fromisoformat entry = Ok t /\
     forall p, last prefix = Some p -> exists t', version_time fromisoformat p = Ok t' /\ t' <= t).

(** What the loop variables hold after a prefix. *)
Definition state_of (prefix : list jobject) (st : replay) : Prop :=
  active_keys st = keys_in_force prefix /\ next_key_hashes st = hashes_in_force prefix /\
  deactivated st = deactivation_in_force prefix /\
  match last prefix with
  | Some p => jget p ($"versionId") = JStr (prev_version_id st) /\ jget p ($"state") = JDict (state st) /\
              exists t, version_time fromisoformat p = Ok t /\ prev_time st = Some t
  | None => prev_time st = None
  end.

Lemma prerotated_Ok hashes keys u :
  foldR (fun _ key => h ← prerotation_hash sha256 key;
                      raise_if (negb (existsb (fun v => eq_str v h) hashes)) DidWebvhError) tt keys = Ok u ->
  Forall (fun key => exists h, prerotation_hash sha256 key = Ok h /\ JStr h ∈ hashes) keys.
Proof using.
  induction keys as [|k keys IH]; intros H; [constructor|]. cbn [foldR] in H.
  apply bind_Ok in H as ([] & Hk & H). apply bind_Ok in Hk as (h & Hh & Hin%raise_if_Ok).
  constructor; [|by apply IH]. exists h. split; [done|]. apply negb_false_iff, existsb_exists in Hin as (v & Hv & Hs).
  apply list_elem_of_In. destruct v; try done. cbn in Hs. by apply bool_decide_eq_true in Hs as ->.
Qed.

Lemma later_authority_Ok prefix entry st declared auth p :
  state_of prefix st -> prefix <> [] -> entry_keys entry = declared ->
  later_authority sha256 st declared = Ok (auth, p) ->
  auth = authorized prefix entry /\ predecessor prefix entry = JStr p /\ prerotated prefix entry.
Proof using.
  intros (Ha & Hn & _ & Hl) Hne Hd H. unfold later_authority in H. rewrite Hn in H.
  unfold authorized, predecessor, prerotated.
  destruct prefix as [|e0 prefix']; [done|]. set (prefix := e0 :: prefix') in *.
  destruct (last prefix) as [q|] eqn:El; [|by apply last_None in El]. destruct Hl as (Hv & _ & _).
  destruct (hashes_in_force prefix) as [|h0 hs] eqn:Eh.
  - injection H as <- <-. split; [done|]. split; [done|]. by intros.
  - rewrite Hd. destruct declared as [[|k ks]|]; try done.
    apply bind_Ok in H as (u & Hp & [= <- <-]). split; [done|]. split; [done|]. intros _ _.
    exists (k :: ks). split; [done|]. split; [done|]. by apply prerotated_Ok in Hp.
Qed.

Lemma genesis_authority_Ok entry declared auth p :
  entry_keys entry = declared -> genesis_authority (params_of entry) declared = Ok (auth, p) ->
  auth = authorized [] entry /\ predecessor [] entry = JStr p /\ jget (params_of entry) ($"scid") = JStr p.
Proof using.
  intros Hd H. unfold genesis_authority in H. apply bind_Ok in H as (_ & _ & H).
  unfold authorized, predecessor. cbn [last]. rewrite Hd.
  destruct (jget (params_of entry) ($"scid")) as [| | | |[|c s]| | |]; try done.
  destruct declared as [[|k ks]|]; try done. by injection H as <- <-.
Qed.

Lemma check_scid_Ok entry scid u :
  check_scid float_repr sha256 entry scid = Ok u -> jget (params_of entry) ($"scid") = JStr scid ->
  self_certifying entry.
Proof using.
  intros H Hs. unfold check_scid in H. apply bind_Ok in H as (prelim & Hp & H).
  apply bind_Ok in H as (b & Hb & H%raise_if_Ok). apply negb_false_iff, bool_decide_eq_true in H.
  by exists scid, prelim, b.
Qed.

Lemma replay_entry_Ok prefix st entry st' :
  state_of prefix st -> replay_entry_ st (length prefix, entry) = Ok st' ->
  entry_ok prefix entry /\ state_of (prefix ++ [entry]) st'.
Proof using.
  intros Hst H. unfold replay_entry in H.
  destruct (jget entry ($"parameters")) as [| | | | | |params|] eqn:Ep; try done.
  assert (params_of entry = params) as Hpar by (unfold params_of; by rewrite Ep).
  apply bind_Ok in H as (declared & Hdecl & H). apply bind_Ok in H as ([auth pred] & Hauth & H).
  assert (entry_keys entry = declared) as Hkeys by (unfold entry_keys; by rewrite Hpar, Hdecl).
  apply bind_Ok in H as ([] & Hscid & H). apply bind_Ok in H as (h & Hvid & H).
  apply bind_Ok in H as (b & Hb & H). apply bind_Ok in H as ([] & Hh%raise_if_Ok & H).
  apply bind_Ok in H as (t & Ht & H). apply bind_Ok in H as ([] & Hmono%raise_if_Ok & H).
  apply bind_Ok in H as ([] & Hproof & H). cbn zeta in H. apply bind_Ok in H as ([] & _ & H).
  apply negb_false_iff, bool_decide_eq_true in Hh as <-.
  apply parse_version_id_Ok in Hvid as [Hvid _]. apply verify_entry_proof_Ok in Hproof.
  assert (auth = authorized prefix entry /\ predecessor prefix entry = JStr pred /\
          prerotated prefix entry /\ (prefix = [] -> self_certifying entry)) as (-> & Hpred & Hpre & Hself).
  { destruct prefix as [|e0 prefix'].
    - cbn [length] in Hauth, Hscid. rewrite <-Hpar in Hauth.
      destruct (genesis_authority_Ok entry declared auth pred Hkeys Hauth) as (-> & Hp & Hs).
      split; [done|]. split; [done|]. split; [by intros []|]. intros _. by eapply check_scid_Ok.
    - cbn [length] in Hauth. edestruct later_authority_Ok as (-> & Hp & Hr); [exact Hst|done|exact Hkeys|exact Hauth|].
      by repeat split. }
  destruct Hst as (Ha & Hn & Hde & Hl). split.
  - split; [by exists pred, b|]. split; [done|]. split; [done|]. split; [done|]. exists t. split; [done|].
    intros p Hlast. rewrite Hlast in Hl. destruct Hl as (_ & _ & t' & Ht' & Hpt). exists t'. split; [done|].
    rewrite Hpt in Hmono. by apply Z.ltb_ge in Hmono.
  - rewrite Hvid in H. destruct (jget entry ($"state")) as [| | | | | |new_state|] eqn:Es; try done.
    injection H as <-. unfold state_of, keys_in_force, hashes_in_force, deactivation_in_force.
    rewrite !foldl_app, last_snoc. cbn [foldl active_keys next_key_hashes deactivated carry state prev_version_id prev_time].
    rewrite Hpar, Hkeys, Ha, Hn, Hde. repeat (split; [done|]). by exists t.
Qed.

Lemma replay_all_snoc entries entry :
  replay_all_ (entries ++ [entry]) = (st ← replay_all_ entries; replay_entry_ st (length entries, entry)).
Proof using.
  unfold replay_all. rewrite imap_app, foldR_app. cbn [imap foldR compose]. rewrite Nat.add_0_r.
  assert (forall m : result replay, m ≫= Ok = m) as Hret by (by intros []).
  destruct (foldR _ _ _) as [st|e]; [|reflexivity]. cbn [mbind result_bind]. apply Hret.
Qed.

Lemma state_of_start : state_of [] replay_start.
Proof using. done. Qed.

Lemma replay_all_Ok entries st :
  replay_all_ entries = Ok st ->
  state_of entries st /\ (forall i entry, entries !! i = Some entry -> entry_ok (take i entries) entry).
Proof using.
  revert st. induction entries as [|entry entries IH] using rev_ind; intros st H.
  { injection H as <-. split; [apply state_of_start|]. intros i e [=]. }
  rewrite replay_all_snoc in H. apply bind_Ok in H as (st0 & H0 & H). destruct (IH st0 H0) as [Hst Hall].
  destruct (replay_entry_Ok entries st0 entry st Hst H) as [Hok Hst']. split; [done|].
  intros i e Hi. apply lookup_app_Some in Hi as [Hi|[Hlen Hi]].
  - rewrite take_app_le by (apply lookup_lt_Some in Hi; lia). by apply Hall.
  - apply list_lookup_singleton_Some in Hi as [Hi ->]. replace i with (length entries) by lia.
    by rewrite take_app_length.
Qed.
End sound.

(** * The log as a hash chain *)

(** C31: What resolving a did:webvh identifier verified.  Every entry of an accepted log is
    chained by hash to the one before it (the first to its own SCID, which is the hash of the
    entry with the SCID taken out), numbered consecutively, no older than its predecessor, and
    signed by a key that is in force at that point: a key the previous entries left in force,
    or, under a pre-rotation, one of the new keys the previous entries committed to by hash.
    The document returned is the state of the last entry, its id is the identifier resolved,
    and no entry left the identifier deactivated. *)
Theorem webvh_log_sound float_repr sha256 verify_signature fromisoformat decode_point did entries doc :
  replay_document float_repr sha256 verify_signature fromisoformat decode_point did entries = Ok doc ->
  (forall i entry, entries !! i = Some entry ->
    entry_ok float_repr sha256 verify_signature fromisoformat (take i entries) entry) /\
  deactivation_in_force entries = false /\
  exists entry state, last entries = Some entry /\ jget entry ($"state") = JDict state /\
    parse_did_document decode_point (JDict state) = Ok doc /\ doc_id doc = did.
Proof.
  intros H. unfold replay_document in H. apply bind_Ok in H as (st & Hr & H).
  apply bind_Ok in H as ([] & Hid%raise_if_Ok & H). apply bind_Ok in H as ([] & _ & H).
  apply bind_Ok in H as ([] & Hd%raise_if_Ok & H). apply bind_Ok in H as (d & Hp & H).
  apply bind_Ok in H as ([] & Hdid%raise_if_Ok & [= <-]). apply negb_false_iff, bool_decide_eq_true in Hdid.
  apply replay_all_Ok in Hr as Hr'. destruct Hr' as ((_ & _ & Hde & Hl) & Hall).
  split; [done|]. split; [by rewrite <-Hde|].
  destruct (last entries) as [entry|] eqn:El.
  - destruct Hl as (_ & Hs & _). by exists entry, (state st).
  - apply last_None in El as ->. injection Hr as <-. done.
Qed.

Lemma json_wf_get d k v : json_wf (JDict d) -> dget d k = Some v -> json_wf v.
Proof.
  intros [_ Hd]%json_wf_dict Hk. rewrite Forall_forall in Hd. by apply dget_Some_elem, Hd in Hk as [_ ?].
Qed.

Lemma rehashed_wf entry p : json_wf (JDict entry) -> Forall scalar p -> json_wf (rehashed entry p).
Proof.
  intros [Hd Hall]%json_wf_dict Hp. unfold rehashed, entry_without_proof. apply json_wf_dict. split; [auto with py|].
  rewrite Forall_forall in Hall |- *. intros [k v] Hin.
  assert (dict_ok (dset (ddel entry ($"proof")) ($"versionId") (JStr p))) as Hok by auto with py.
  apply dget_elem in Hin; [|done]. rewrite dget_dset in Hin. destruct (decide _) as [->|].
  - injection Hin as <-. split; [|exact Hp]. apply (bool_decide_unpack _). vm_compute. exact I.
  - rewrite ddel_dget in Hin. destruct (decide (k = _)); [done|]. by apply dget_Some_elem, Hall in Hin.
Qed.

(** Objects with the same data agree on a string member. *)
Lemma same_text_str float_repr d1 d2 k s1 s2 :
  same_text float_repr (JDict d1) (JDict d2) -> dict_ok d1 -> dict_ok d2 ->
  dget d1 k = Some (JStr s1) -> dget d2 k = Some (JStr s2) -> s1 = s2.
Proof.
  intros Hs H1 H2 G1 G2. inversion Hs as [| | |? ? (t & N1 & N2)| |? ? d1' d2' P1 P2 HF]; subst; [done|].
  apply dget_Some_elem in G1. rewrite <-P1 in G1. eapply Forall2_elem_l in HF as ([k' v'] & Hin & Hk & Hv); [|exact G1].
  cbn in Hk, Hv. subst k'. rewrite P2 in Hin. apply dget_elem in Hin; [|done]. rewrite G2 in Hin. injection Hin as <-.
  inversion Hv as [| |?|? ? (? & N1 & N2)| |]; subst; [done|]. discriminate N1.
Qed.

Section chains.
Context (float_repr : spec_float -> pystr) (sha256 : bytes -> bytes).
(** [repr] writes a decimal; a digest is bytes. *)
Context (Hrepr : forall s m e, exists x, denotes (float_repr (S754_finite s m e)) x).
Context (Hsha : forall data, bytes_ok (sha256 data)).

Definition collision : Prop := exists x y, x <> y /\ sha256 x = sha256 y.

Definition chain (entries : list jobject) : Prop :=
  forall i entry, entries !! i = Some entry -> linked float_repr sha256 (take i entries) entry.

(** The same number, hash and signed content: only the proofs may differ. *)
Definition same_entry (a b : jobject) : Prop :=
  jget a ($"versionId") = jget b ($"versionId") /\
  exists p, same_text float_repr (rehashed a p) (rehashed b p).

Lemma multihash_inj x y : multihash_b58 sha256 x = multihash_b58 sha256 y -> x = y \/ collision.
Proof using Hsha.
  intros H. assert (forall d, bytes_ok (MULTIHASH_SHA256_PREFIX ++ sha256 d)) as Hok.
  { intros d. apply Forall_app. split; [by apply (bool_decide_unpack _); vm_compute|apply Hsha]. }
  unfold multihash_b58 in H.
  pose proof (key_b58decode_encode _ (Hok x)) as E. rewrite H, (key_b58decode_encode _ (Hok y)) in E.
  apply Ok_inj, app_inv_head in E. destruct (decide (x = y)) as [|Hne]; [by left|right].
  exists x, y. split; [exact Hne|]. by symmetry.
Qed.

Lemma chain_snoc entries entry : chain (entries ++ [entry]) -> chain entries /\ linked float_repr sha256 entries entry.
Proof using.
  intros H. split.
  - intros i e Hi. rewrite <-(take_app_le entries [entry] i) by (apply lookup_lt_Some in Hi; lia).
    apply H. by apply lookup_app_l_Some.
  - rewrite <-(take_app_length entries [entry]). apply H. by rewrite lookup_app_r, Nat.sub_diag by lia.
Qed.

Lemma predecessor_scalar prefix entry p :
  Forall (fun e => json_wf (JDict e)) (prefix ++ [entry]) ->
  predecessor prefix entry = JStr p -> Forall scalar p.
Proof using.
  intros Hwf H. rewrite Forall_forall in Hwf. unfold predecessor in H.
  assert (forall d k s, json_wf (JDict d) -> jget d k = JStr s -> Forall scalar s) as Hget.
  { intros d k s Hd Hk. unfold jget in Hk. destruct (dget d k) as [v|] eqn:E; [|done].
    cbn in Hk. subst v. exact (json_wf_get _ _ _ Hd E). }
  destruct (last prefix) as [q|] eqn:El.
  - apply last_Some in El as [l ->]. eapply Hget; [|exact H]. apply Hwf, elem_of_app. left. apply elem_of_app. right; left.
  - unfold params_of in H. destruct (jget entry ($"parameters")) as [| | | | | |ps|] eqn:Ep; try done.
    eapply Hget; [|exact H]. unfold jget in Ep. destruct (dget entry ($"parameters")) as [v|] eqn:E; [|done].
    cbn in Ep. subst v. eapply json_wf_get; [|exact E]. apply Hwf, elem_of_app. right; left.
Qed.

(** Two chained entries with the same [versionId]. *)
Lemma linked_same P Q a b :
  Forall (fun e => json_wf (JDict e)) (P ++ [a]) -> Forall (fun e => json_wf (JDict e)) (Q ++ [b]) ->
  linked float_repr sha256 P a -> linked float_repr sha256 Q b -> jget a ($"versionId") = jget b ($"versionId") ->
  length P = length Q /\ ((same_entry a b /\ predecessor P a = predecessor Q b) \/ collision).
Proof using Hrepr Hsha.
  intros Wa Wb (p & x & Hp & Hx & Hva) (q & y & Hq & Hy & Hvb) E. pose proof E as E'. rewrite Hva, Hvb in E. injection E as E.
  apply version_id_inj in E as [Elen Eh]; [|lia..]. split; [lia|].
  destruct (multihash_inj x y Eh) as [->|Hc]; [left|by right].
  pose proof (predecessor_scalar P a p Wa Hp) as Sp. pose proof (predecessor_scalar Q b q Wb Hq) as Sq.
  apply Forall_app in Wa as [_ [Wa _]%Forall_cons], Wb as [_ [Wb _]%Forall_cons].
  assert (forall m r, jcs float_repr m = Ok r -> canonicalize float_repr m = Ok r) as Hc.
  { intros m r Hm. unfold jcs in Hm. destruct (canonicalize float_repr m); cbn in Hm; [done|by case_match]. }
  pose proof (canonicalize_inj float_repr Hrepr (rehashed a p) (rehashed b q) (rehashed_wf a p Wa Sp)
    (rehashed_wf b q Wb Sq) y (Hc _ _ Hx) (Hc _ _ Hy)) as Hs.
  assert (p = q) as ->.
  { apply json_wf_dict in Wa as [Da _], Wb as [Db _].
    apply (same_text_str float_repr _ _ ($"versionId") p q Hs); unfold entry_without_proof;
      [by auto with py|by auto with py|by rewrite dget_dset, decide_True|by rewrite dget_dset, decide_True]. }
  split; [|by rewrite Hp, Hq]. split; [exact E'|]. by exists q.
Qed.

Lemma chain_same e1 e2 v :
  Forall (fun e => json_wf (JDict e)) e1 -> Forall (fun e => json_wf (JDict e)) e2 ->
  chain e1 -> chain e2 -> e1 <> [] -> e2 <> [] ->
  ((fun e => jget e ($"versionId")) <$> last e1) = Some v -> ((fun e => jget e ($"versionId")) <$> last e2) = Some v ->
  Forall2 same_entry e1 e2 \/ collision.
Proof using Hrepr Hsha.
  revert e2 v. induction e1 as [|a P IH] using rev_ind; intros e2 v W1 W2 C1 C2 N1 N2 L1 L2; [done|].
  destruct e2 as [|b Q _] using rev_ind; [done|]. rewrite last_snoc in L1, L2. injection L1 as <-. injection L2 as L2.
  apply chain_snoc in C1 as [C1 Ha], C2 as [C2 Hb].
  destruct (linked_same P Q a b W1 W2 Ha Hb (eq_sym L2)) as [Hlen [[Hab Hpred]|Hc]]; [|by right].
  destruct P as [|a0 P'].
  { destruct Q; [|done]. left. by constructor. }
  destruct Q as [|b0 Q']; [done|]. set (P := a0 :: P') in *. set (Q := b0 :: Q') in *.
  destruct (last P) as [pa|] eqn:EP; [|by apply last_None in EP].
  destruct (last Q) as [qb|] eqn:EQ; [|by apply last_None in EQ].
  unfold predecessor in Hpred. rewrite EP, EQ in Hpred.
  apply Forall_app in W1 as [W1 _], W2 as [W2 _].
  destruct (IH Q (jget pa ($"versionId")) W1 W2 C1 C2 ltac:(done) ltac:(done)) as [HF|Hc];
    [done|by rewrite EQ, Hpred| |by right].
  left. by apply Forall2_app; [|constructor].
Qed.
End chains.

Lemma entry_ok_chain float_repr sha256 verify_signature fromisoformat entries st :
  replay_all float_repr sha256 verify_signature fromisoformat entries = Ok st ->
  chain float_repr sha256 entries /\
  (entries <> [] -> ((fun e => jget e ($"versionId")) <$> last entries) = Some (JStr (prev_version_id st))).
Proof.
  intros H. apply replay_all_Ok in H as [(_ & _ & _ & Hl) Hall]. split.
  - intros i e Hi. by destruct (Hall i e Hi) as [? _].
  - intros Hne. destruct (last entries) as [p|] eqn:E; [|by apply last_None in E]. destruct Hl as [Hv _].
    cbn. by rewrite Hv.
Qed.

(** A did:webvh log is tamper evident.  Two accepted logs that end with the same
    [versionId] have the same number of entries, and each entry has the same [versionId] and
    the same content up to its proofs; otherwise the two logs hold two different byte strings
    with the same SHA-256 digest.  An entry cannot be changed, dropped, added or moved without
    changing the last [versionId]. *)
Theorem webvh_tamper_evident (float_repr : spec_float -> pystr) (sha256 : bytes -> bytes)
    verify_signature fromisoformat log1 log2 st1 st2
    (Hrepr : forall s m e, exists x, denotes (float_repr (S754_finite s m e)) x)
    (Hsha : forall data, bytes_ok (sha256 data))
    (W1 : Forall (fun e => json_wf (JDict e)) log1) (W2 : Forall (fun e => json_wf (JDict e)) log2)
    (N1 : log1 <> []) (N2 : log2 <> [])
    (H1 : replay_all float_repr sha256 verify_signature fromisoformat log1 = Ok st1)
    (H2 : replay_all float_repr sha256 verify_signature fromisoformat log2 = Ok st2)
    (E : prev_version_id st1 = prev_version_id st2) :
  Forall2 (same_entry float_repr) log1 log2 \/ collision sha256.
Proof.
  apply entry_ok_chain in H1 as [C1 L1], H2 as [C2 L2]. rewrite <-E in L2.
  exact (chain_same float_repr sha256 Hrepr Hsha log1 log2 _ W1 W2 C1 C2 N1 N2 (L1 N1) (L2 N2)).
Qed.

(** * Examples *)

(** A 256-bit polynomial checksum for SHA-256, a signature primitive that accepts one
    signature and a clock that reads one time. *)
Definition toy_hash (data : bytes) : bytes :=
  to_bytes_be 32 (foldl (fun h b => (h * 65537 + b + 1) mod 2 ^ 256) 0 data).
Definition toy_verify (alg : pystr) (jwk : json) (input sig : bytes) : result bool := Ok (bool_decide (sig = [1])).
Definition toy_time (s : pystr) : option (Z * option Z) := Some (0, Some 0).
Definition toy_repr (f : spec_float) : pystr := $"1.5".
Definition toy_key : pystr := encode_multibase (237 :: 1 :: repeat 7 32).

Definition toy_proof : json :=
  JDict [($"type", JStr ($"DataIntegrityProof")); ($"cryptosuite", JStr EDDSA_JCS);
         ($"proofPurpose", JStr ($"assertionMethod"));
         ($"verificationMethod", JStr ($"did:key:" ++ toy_key ++ $"#" ++ toy_key));
         ($"proofValue", JStr (encode_multibase [1]))].

Definition genesis (scid did version_id : pystr) (proof : json) : jobject :=
  [($"versionId", JStr version_id); ($"versionTime", JStr ($"2026-01-01T00:00:00Z"));
   ($"parameters", JDict [($"method", JStr ($"did:webvh:1.0")); ($"scid", JStr scid);
                          ($"updateKeys", JList [JStr toy_key])]);
   ($"state", JDict [($"id", JStr did)]); ($"proof", proof)].

Definition hash_of (obj : json) : pystr :=
  match jcs toy_repr obj with Ok b => multihash_b58 toy_hash b | Err _ => [] end.

(** The controller's genesis entry of the identifier [did_of scid]. *)
Definition make_genesis (did_of : pystr -> pystr) (proof : json) : pystr * jobject :=
  let scid := hash_of (rehashed (genesis SCID_PLACEHOLDER (did_of SCID_PLACEHOLDER) [] proof) SCID_PLACEHOLDER) in
  let entry := genesis scid (did_of scid) [] proof in
  (did_of scid, genesis scid (did_of scid) (version_id 1 (hash_of (rehashed entry scid))) proof).

Abbreviation toy_replay := (replay_document toy_repr toy_hash toy_verify toy_time (fun _ _ => None)).

Definition own_did (scid : pystr) : pystr := $"did:webvh:" ++ scid ++ $":a.example".
Definition own_log : pystr * jobject := make_genesis own_did toy_proof.

Lemma own_log_accepted : exists doc, toy_replay own_log.1 [own_log.2] = Ok doc.
Proof.
  assert (is_ok (toy_replay own_log.1 [own_log.2]) = true) as H by (vm_compute; reflexivity).
  destruct (toy_replay own_log.1 [own_log.2]) as [doc|]; [by exists doc|discriminate H].
Qed.

Lemma webvh_log_sound_witness :
  exists doc, toy_replay own_log.1 [own_log.2] = Ok doc /\ doc_id doc = own_log.1.
Proof.
  destruct own_log_accepted as [doc H]. exists doc. split; [exact H|].
  apply webvh_log_sound in H as (_ & _ & entry & state & _ & _ & _ & Hid). exact Hid.
Defined.

(** The same entry with a second proof: another log, the same last [versionId]. *)
Definition own_log_twice : jobject := (make_genesis own_did (JList [toy_proof; toy_proof])).2.

Definition last_id (log : list jobject) : option pystr :=
  match replay_all toy_repr toy_hash toy_verify toy_time log with Ok st => Some (prev_version_id st) | Err _ => None end.

Lemma last_id_Some log v : last_id log = Some v ->
  exists st, replay_all toy_repr toy_hash toy_verify toy_time log = Ok st /\ prev_version_id st = v.
Proof. unfold last_id. destruct (replay_all _ _ _ _ log) as [st|]; [|done]. intros [= <-]. by exists st. Qed.

Definition same_last_id (log1 log2 : list jobject) : bool :=
  match last_id log1, last_id log2 with Some v, Some w => bool_decide (v = w) | _, _ => false end.

Lemma same_last_id_spec log1 log2 : same_last_id log1 log2 = true ->
  exists v, last_id log1 = Some v /\ last_id log2 = Some v.
Proof.
  unfold same_last_id. destruct (last_id log1) as [v|], (last_id log2) as [w|]; try done.
  intros ->%bool_decide_eq_true. by exists w.
Qed.

Lemma toy_logs_accepted : exists v, last_id [own_log.2] = Some v /\ last_id [own_log_twice] = Some v.
Proof. apply same_last_id_spec. vm_compute. reflexivity. Qed.

Lemma toy_repr_denotes s m e : exists x, denotes (toy_repr (S754_finite s m e)) x.
Proof.
  eexists. exists {| neg := false; int_digits := $"1"; frac_digits := Some ($"5"); exp_digits := None |}.
  split; [|split; reflexivity]. split; [|split]; [(split; [done|])..|done]; repeat constructor; vm_compute; done.
Qed.

Lemma toy_hash_bytes data : bytes_ok (toy_hash data).
Proof.
  apply to_bytes_be_ok.
Qed.

(** [json_wf] decided. *)
Fixpoint json_wf_b (v : json) : bool :=
  match v with
  | JStr s => forallb (fun c => bool_decide (scalar c)) s
  | JList l => forallb json_wf_b l
  | JDict d => bool_decide (dict_ok d) &&
      forallb (fun kv => forallb (fun c => bool_decide (scalar c)) kv.1 && json_wf_b kv.2) d
  | JFloat f => bool_decide (is_double f)
  | JOther => false
  | _ => true
  end.

Lemma json_wf_b_sound v : json_wf_b v = true -> json_wf v.
Proof.
  assert (forall s, forallb (fun c => bool_decide (scalar c)) s = true -> Forall scalar s) as Hs.
  { intros s H. apply Forall_forall. rewrite forallb_forall in H. intros c Hc.
    by eapply bool_decide_eq_true, H, list_elem_of_In. }
  induction v as [| | |f|s|l IH|d IH|] using json_ind'; cbn [json_wf_b]; try done.
  - by intros H%bool_decide_eq_true.
  - intros H. by apply Hs.
  - intros H. apply json_wf_list. rewrite forallb_forall in H. rewrite Forall_forall in IH |- *.
    intros x Hx. apply IH; [done|]. by apply H, list_elem_of_In.
  - intros [Hd%bool_decide_eq_true H]%andb_true_iff. apply json_wf_dict. split; [done|].
    rewrite forallb_forall in H. rewrite Forall_forall in IH |- *. intros kv Hkv.
    pose proof Hkv as Hin. apply list_elem_of_In, H, andb_true_iff in Hin as [H1 H2]. split; [by apply Hs|by apply IH].
Qed.

Lemma webvh_tamper_evident_witness :
  Forall2 (same_entry toy_repr) [own_log.2] [own_log_twice] \/ collision toy_hash.
Proof.
  destruct toy_logs_accepted as (v & L1 & L2).
  destruct (last_id_Some _ _ L1) as (st1 & H1 & E1), (last_id_Some _ _ L2) as (st2 & H2 & E2).
  apply (webvh_tamper_evident toy_repr toy_hash toy_verify toy_time _ _ st1 st2 toy_repr_denotes toy_hash_bytes).
  - constructor; [apply json_wf_b_sound; vm_compute; reflexivity|constructor].
  - constructor; [apply json_wf_b_sound; vm_compute; reflexivity|constructor].
  - discriminate.
  - discriminate.
  - exact H1.
  - exact H2.
  - rewrite E1, E2. reflexivity.
Defined.

(** The SCID of the identifier is not compared with the SCID of the log: a genesis entry with
    its own SCID and its own keys is accepted for an identifier that names another SCID, since
    only the [id] of its state is compared with the identifier. *)
Definition foreign_did (scid : pystr) : pystr := $"did:webvh:QmVictim:a.example".
Definition foreign_log : pystr * jobject := make_genesis foreign_did toy_proof.

Definition accepted_for_victim (log : pystr * jobject) : bool :=
  bool_decide (log.1 = $"did:webvh:QmVictim:a.example")
  && negb (eq_str (jget (params_of log.2) ($"scid")) ($"QmVictim"))
  && match toy_replay log.1 [log.2] with
     | Ok doc => bool_decide (doc_id doc = $"did:webvh:QmVictim:a.example") | Err _ => false end.

Lemma accepted_for_victim_spec log : accepted_for_victim log = true ->
  log.1 = $"did:webvh:QmVictim:a.example" /\ jget (params_of log.2) ($"scid") <> JStr ($"QmVictim") /\
  exists doc, toy_replay log.1 [log.2] = Ok doc /\ doc_id doc = $"did:webvh:QmVictim:a.example".
Proof.
  unfold accepted_for_victim. intros [[H1%bool_decide_eq_true H2%negb_true_iff]%andb_true_iff H3]%andb_true_iff.
  split; [exact H1|]. split; [intros E; rewrite E in H2; discriminate H2|].
  destruct (toy_replay _ _) as [doc|]; [|discriminate H3]. apply bool_decide_eq_true in H3. by exists doc.
Qed.

Lemma scid_not_bound_to_did :
  foreign_log.1 = $"did:webvh:QmVictim:a.example" /\
  jget (params_of foreign_log.2) ($"scid") <> JStr ($"QmVictim") /\
  exists doc, toy_replay foreign_log.1 [foreign_log.2] = Ok doc /\ doc_id doc = $"did:webvh:QmVictim:a.example".
Proof. apply accepted_for_victim_spec. vm_compute. reflexivity. Qed.
