(* ===== verification/Keys.v ===== *)
(** [openvc.keys] (src/src/openvc/keys.py): the JOSE form of signatures and public keys, the
    verification dispatch and the RFC 7638 thumbprint.  The curve arithmetic of the
    [cryptography] package is a parameter. *)
From Stdlib Require Import SpecFloat.
From S2P Require Import Prelude Errors PyStr Utf8 Json Base64 Decimal PyNum Jcs Did.

Definition P256_COORD_BYTES : nat := 32.
Definition P384_COORD_BYTES : nat := 48.
Definition ED25519_ALG_NAMES : list pystr := [$"EdDSA"; $"Ed25519"].
Definition MLDSA_ALGS : list pystr := [$"ML-DSA-44"; $"ML-DSA-65"; $"ML-DSA-87"].

(** [_int_to_fixed]. *)
Definition int_to_fixed (n : Z) (length : nat) : result bytes := int_to_bytes length n.

(** [jwk[name]], decoded. *)
Definition b64url_member (jwk : json) (name : pystr) : result bytes :=
  match jwk with
  | JDict d => match dget d name with
               | Some (JStr s) => b64url_decode s
               | Some _ => Err TypeError
               | None => Err KeyError
               end
  | _ => Err TypeError
  end.
Definition int_member (jwk : json) (name : pystr) : result Z := b ← b64url_member jwk name; Ok (from_bytes_be b).

Section backends.
(** [Ed25519PublicKey.from_public_bytes(raw).verify], [EllipticCurvePublicNumbers(x, y, curve)
    .public_key().verify] over a DER signature of [(r, s)], the ML-DSA class of a parameter
    set: [None] when the key does not load, otherwise whether the signature verifies. *)
Context (ed25519_verify : bytes -> bytes -> bytes -> option bool).
Context (ecdsa_verify : pystr -> Z -> Z -> Z * Z -> bytes -> option bool).
Context (mldsa_verify : pystr -> bytes -> bytes -> bytes -> result bool).

Definition loaded (v : option bool) : result bool := match v with Some b => Ok b | None => Err ValueError end.

Definition verify_ecdsa (crv : pystr) (size : nat) (jwk : json) (signing_input signature : bytes) : result bool :=
  raise_if (negb (len signature =? 2 * Z.of_nat size)) InvalidKey;;
  let r := from_bytes_be (take size signature) in
  let s := from_bytes_be (drop size signature) in
  x ← int_member jwk ($"x");
  y ← int_member jwk ($"y");
  loaded (ecdsa_verify crv x y (r, s) signing_input).

Definition verify_signature (alg : pystr) (public_jwk : json) (signing_input signature : bytes) : result bool :=
  catch_as (fun e => isinstance e ValueError || isinstance e KeyError || isinstance e TypeError) InvalidKey
    (if bool_decide (alg ∈ ED25519_ALG_NAMES) then
       raw ← b64url_member public_jwk ($"x"); loaded (ed25519_verify raw signature signing_input)
     else if bool_decide (alg = $"ES256") then verify_ecdsa ($"P-256") P256_COORD_BYTES public_jwk signing_input signature
     else if bool_decide (alg = $"ES384") then verify_ecdsa ($"P-384") P384_COORD_BYTES public_jwk signing_input signature
     else if bool_decide (alg ∈ MLDSA_ALGS) then
       pub ← b64url_member public_jwk ($"pub"); mldsa_verify alg pub signature signing_input
     else Err InvalidKey).
End backends.

(** * Signing keys *)

(** A software key: an Ed25519 key that returns its raw signature, or an ECDSA key whose DER
    signature decodes to [(r, s)]. *)
Inductive SigningKey :=
  | Ed25519SigningKey (alg kid : pystr) (public : bytes) (sign : bytes -> bytes)
  | P256SigningKey (kid : pystr) (x y : Z) (sign : bytes -> Z * Z)
  | P384SigningKey (kid : pystr) (x y : Z) (sign : bytes -> Z * Z).

Definition key_alg (k : SigningKey) : pystr :=
  match k with Ed25519SigningKey alg _ _ _ => alg | P256SigningKey _ _ _ _ => $"ES256" | P384SigningKey _ _ _ _ => $"ES384" end.

(** The constructor's check. *)
Definition make_ed25519 (alg kid : pystr) (public : bytes) (sign : bytes -> bytes) : result SigningKey :=
  raise_if (negb (bool_decide (alg ∈ ED25519_ALG_NAMES))) InvalidKey;; Ok (Ed25519SigningKey alg kid public sign).

Definition raw_rs (size : nat) (rs : Z * Z) : result bytes :=
  r ← int_to_fixed rs.1 size; s ← int_to_fixed rs.2 size; Ok (r ++ s).

Definition sign (k : SigningKey) (signing_input : bytes) : result bytes :=
  match k with
  | Ed25519SigningKey _ _ _ sk => Ok (sk signing_input)
  | P256SigningKey _ _ _ sk => raw_rs P256_COORD_BYTES (sk signing_input)
  | P384SigningKey _ _ _ sk => raw_rs P384_COORD_BYTES (sk signing_input)
  end.

Definition public_jwk (k : SigningKey) : result jobject :=
  match k with
  | Ed25519SigningKey _ _ raw _ => Ok (okp_jwk raw)
  | P256SigningKey _ x y _ => bx ← int_to_fixed x P256_COORD_BYTES; by_ ← int_to_fixed y P256_COORD_BYTES; Ok (ec_jwk ($"P-256") bx by_)
  | P384SigningKey _ x y _ => bx ← int_to_fixed x P384_COORD_BYTES; by_ ← int_to_fixed y P384_COORD_BYTES; Ok (ec_jwk ($"P-384") bx by_)
  end.

(** ** What a signature verifies as *)

(** The primitives agree on this key and message. *)
Definition signs_for ed25519_verify ecdsa_verify (k : SigningKey) (m : bytes) : Prop :=
  match k with
  | Ed25519SigningKey alg _ raw sk =>
      alg ∈ ED25519_ALG_NAMES /\ bytes_ok raw /\ ed25519_verify raw (sk m) m = Some true
  | P256SigningKey _ x y sk =>
      let fits n := 0 <= n < 256 ^ Z.of_nat P256_COORD_BYTES in
      fits x /\ fits y /\ fits (sk m).1 /\ fits (sk m).2 /\ ecdsa_verify ($"P-256") x y (sk m) m = Some true
  | P384SigningKey _ x y sk =>
      let fits n := 0 <= n < 256 ^ Z.of_nat P384_COORD_BYTES in
      fits x /\ fits y /\ fits (sk m).1 /\ fits (sk m).2 /\ ecdsa_verify ($"P-384") x y (sk m) m = Some true
  end.

Lemma raw_rs_ok size rs :
  0 <= rs.1 < 256 ^ Z.of_nat size -> 0 <= rs.2 < 256 ^ Z.of_nat size ->
  raw_rs size rs = Ok (to_bytes_be size rs.1 ++ to_bytes_be size rs.2).
Proof. intros H1 H2. unfold raw_rs, int_to_fixed. by rewrite !int_to_bytes_ok. Qed.

Lemma ec_member crv x y : bytes_ok x -> bytes_ok y ->
  b64url_member (JDict (ec_jwk crv x y)) ($"x") = Ok x /\ b64url_member (JDict (ec_jwk crv x y)) ($"y") = Ok y.
Proof. intros Hx Hy. unfold b64url_member, ec_jwk. look. by rewrite !b64url_decode_encode. Qed.

Lemma verify_ecdsa_ok ecdsa_verify crv size x y rs m :
  0 <= x < 256 ^ Z.of_nat size -> 0 <= y < 256 ^ Z.of_nat size ->
  0 <= rs.1 < 256 ^ Z.of_nat size -> 0 <= rs.2 < 256 ^ Z.of_nat size ->
  verify_ecdsa ecdsa_verify crv size (JDict (ec_jwk crv (to_bytes_be size x) (to_bytes_be size y))) m
    (to_bytes_be size rs.1 ++ to_bytes_be size rs.2) = loaded (ecdsa_verify crv x y rs m).
Proof.
  intros Hx Hy Hr Hs. unfold verify_ecdsa. unfold len. rewrite length_app, !length_to_bytes_be.
  rewrite (proj2 (Z.eqb_eq _ _)) by lia. cbn [negb raise_if mbind result_bind].
  destruct (ec_member crv (to_bytes_be size x) (to_bytes_be size y)) as [Ex Ey]; [apply to_bytes_be_ok..|].
  unfold int_member. rewrite Ex, Ey. cbn [mbind result_bind]. rewrite !from_to_bytes_be by done.
  rewrite take_app_length', drop_app_length' by by rewrite length_to_bytes_be.
  rewrite !from_to_bytes_be by done. by destruct rs.
Qed.

(** Signatures round trip in their JOSE form.  What a key signs verifies against the public
    JWK the key publishes, under its algorithm name: Ed25519 under either of its two names, and
    ECDSA in the fixed-width R||S form, the leading zero bytes of [r], [s] and of the
    coordinates included. *)
Theorem sign_verify_roundtrip ed25519_verify ecdsa_verify mldsa_verify (k : SigningKey) (m : bytes) :
  signs_for ed25519_verify ecdsa_verify k m ->
  exists jwk sig, public_jwk k = Ok jwk /\ sign k m = Ok sig /\
    verify_signature ed25519_verify ecdsa_verify mldsa_verify (key_alg k) (JDict jwk) m sig = Ok true.
Proof.
  destruct k as [alg id raw sk|id x y sk|id x y sk]; cbn [signs_for sign public_jwk key_alg].
  - intros (Ha & Hraw & Hv). exists (okp_jwk raw), (sk m). split; [done|]. split; [done|].
    unfold verify_signature. rewrite (bool_decide_eq_true_2 (alg ∈ ED25519_ALG_NAMES)) by done.
    assert (b64url_member (JDict (okp_jwk raw)) ($"x") = Ok raw) as ->.
    { unfold b64url_member, okp_jwk. look. by apply b64url_decode_encode. }
    cbn [mbind result_bind]. by rewrite Hv.
  - intros (Hx & Hy & Hr & Hs & Hv). unfold int_to_fixed. rewrite !int_to_bytes_ok, raw_rs_ok by done.
    do 2 eexists. split; [done|]. split; [done|]. unfold verify_signature.
    rewrite bool_decide_eq_false_2 by by apply (bool_decide_unpack _). rewrite bool_decide_eq_true_2 by done.
    rewrite verify_ecdsa_ok by done. by rewrite Hv.
  - intros (Hx & Hy & Hr & Hs & Hv). unfold int_to_fixed. rewrite !int_to_bytes_ok, raw_rs_ok by done.
    do 2 eexists. split; [done|]. split; [done|]. unfold verify_signature.
    rewrite bool_decide_eq_false_2 by by apply (bool_decide_unpack _).
    rewrite bool_decide_eq_false_2 by by apply (bool_decide_unpack _). rewrite bool_decide_eq_true_2 by done.
    rewrite verify_ecdsa_ok by done. by rewrite Hv.
Qed.

Lemma sign_verify_roundtrip_witness :
  exists jwk sig, public_jwk (P256SigningKey [] 5 7 (fun _ => (0, 255))) = Ok jwk /\
    sign (P256SigningKey [] 5 7 (fun _ => (0, 255))) [1; 2] = Ok sig /\
    verify_signature (fun _ _ _ => None)
      (fun _ x y rs _ => Some ((x =? 5) && (y =? 7) && (rs.1 =? 0) && (rs.2 =? 255))) (fun _ _ _ _ => Ok false)
      ($"ES256") (JDict jwk) [1; 2] sig = Ok true.
Proof.
  apply (sign_verify_roundtrip (fun _ _ _ => None) (fun _ x y rs _ => Some ((x =? 5) && (y =? 7) && (rs.1 =? 0) && (rs.2 =? 255)))
    (fun _ _ _ _ => Ok false) (P256SigningKey [] 5 7 (fun _ => (0, 255)))).
  vm_compute. repeat split; try discriminate.
Defined.

(** * The RFC 7638 thumbprint *)

Definition THUMBPRINT_HASHES : list pystr := [$"sha-256"; $"sha-384"; $"sha-512"].
Definition THUMBPRINT_MEMBERS : list (pystr * list pystr) :=
  [($"EC", [$"crv"; $"kty"; $"x"; $"y"]); ($"OKP", [$"crv"; $"kty"; $"x"]);
   ($"RSA", [$"e"; $"kty"; $"n"]); ($"oct", [$"k"; $"kty"])].

(** [json.dumps(d, sort_keys=True, separators=(",", ":"), ensure_ascii=False)] of a dict of
    strings; the escapes are those of JCS. *)
Definition dumps_strings (d : list (pystr * pystr)) : pystr :=
  123 :: Jcs.join ($",") (map (fun kv => escape_string kv.1 ++ 58 :: escape_string kv.2) (sort_by (fun kv => kv.1) d))
      ++ [125].

(** The member a thumbprint needs. *)
Definition thumbprint_member (jwk : jobject) (name : pystr) : result (pystr * pystr) :=
  match jget jwk name with
  | JStr value => utf8 value InvalidKey;; Ok (name, value)
  | _ => Err InvalidKey
  end.

Section thumbprint.
Context (digest : pystr -> bytes -> bytes).

Definition canonical_members (jwk : jobject) : result (list (pystr * pystr)) :=
  match jget jwk ($"kty") with
  | JStr kty => match dget THUMBPRINT_MEMBERS kty with
                | Some members => mapR (thumbprint_member jwk) members
                | None => Err InvalidKey
                end
  | _ => Err InvalidKey
  end.

Definition jwk_thumbprint_bytes (jwk : jobject) (hash_name : pystr) : result bytes :=
  raise_if (negb (bool_decide (hash_name ∈ THUMBPRINT_HASHES))) InvalidKey;;
  canonical ← canonical_members jwk;
  serialized ← utf8_encode (dumps_strings canonical);
  Ok (digest hash_name serialized).

Definition jwk_thumbprint (jwk : jobject) (hash_name : pystr) : result pystr :=
  b ← jwk_thumbprint_bytes jwk hash_name; Ok (b64url_encode b).
End thumbprint.

(** The example of RFC 7638 is an RSA key; this is its text for an OKP key. *)
Example dumps_ex : dumps_strings [($"kty", $"OKP"); ($"crv", $"Ed25519"); ($"x", [34; 10])] =
  [123] ++ escape_string ($"crv") ++ [58] ++ escape_string ($"Ed25519") ++ [44] ++ escape_string ($"kty") ++ [58]
  ++ escape_string ($"OKP") ++ [44; 34; 120; 34; 58; 34; 92; 34; 92; 110; 34; 125].
Proof. vm_compute. reflexivity. Qed.

(** The dict that is digested, as a JSON value. *)
Definition thumbprint_json (d : list (pystr * pystr)) : json := JDict (map (fun kv => (kv.1, JStr kv.2)) d).

(** The names of the members of a key type, sorted as JCS and Python sort them. *)
Lemma members_sorted kty members : dget THUMBPRINT_MEMBERS kty = Some members ->
  NoDup members /\ StronglySorted (key_le id) members /\ StronglySorted (key_le code_units) members /\
  Forall (fun c => Forall scalar c) members /\ $"kty" ∈ members.
Proof.
  intros H. apply dget_Some_elem in H.
  assert (Forall (fun km => NoDup km.2 /\ sort_by id km.2 = km.2 /\ sort_by code_units km.2 = km.2 /\
    Forall (fun c => Forall scalar c) km.2 /\ $"kty" ∈ km.2) THUMBPRINT_MEMBERS) as Hall
    by (apply (bool_decide_unpack _); vm_compute; exact I).
  rewrite Forall_forall in Hall. destruct (Hall _ H) as (H1 & H2 & H3 & H4 & H5). cbn in *.
  split; [done|]. split; [rewrite <-H2; apply sort_by_sorted|]. split; [rewrite <-H3; apply sort_by_sorted|done].
Qed.

Lemma canonical_members_Ok jwk d :
  canonical_members jwk = Ok d ->
  exists kty members, jget jwk ($"kty") = JStr kty /\ dget THUMBPRINT_MEMBERS kty = Some members /\
    d.*1 = members /\ forall name value, (name, value) ∈ d -> jget jwk name = JStr value /\ exists b, utf8_encode value = Ok b.
Proof.
  unfold canonical_members. intros H. destruct (jget jwk ($"kty")) as [| | | |kty| | |] eqn:Ek; try done.
  destruct (dget THUMBPRINT_MEMBERS kty) as [members|] eqn:Em; [|done]. exists kty, members. split; [done|]. split; [done|].
  apply mapR_Ok in H. assert (forall name p, thumbprint_member jwk name = Ok p ->
    p.1 = name /\ jget jwk name = JStr p.2 /\ exists b, utf8_encode p.2 = Ok b) as Hm.
  { intros name p Hp. unfold thumbprint_member in Hp. destruct (jget jwk name) as [| | | |v| | |]; try done.
    apply bind_Ok in Hp as (b & Hb & [= <-]). split; [done|]. split; [done|]. exists b. cbn [snd]. unfold utf8 in Hb.
    destruct (utf8_encode v); cbn in *; [done|by case_match]. }
  clear Em Ek. split.
  - induction H as [|name p members d Hp H IH]; [done|]. cbn. rewrite IH. f_equal. by apply Hm.
  - intros name value Hin. induction H as [|name' p members d Hp H IH]; [by apply elem_of_nil in Hin|].
    apply elem_of_cons in Hin as [<-|Hin]; [|by apply IH]. apply Hm in Hp as (<- & Hp). exact Hp.
Qed.

(** ** The text that is digested is the JCS form of the required members *)

Definition plain_repr (f : spec_float) : pystr := $"1.5".

Lemma plain_repr_denotes s m e : exists x, denotes (plain_repr (S754_finite s m e)) x.
Proof.
  eexists. exists {| neg := false; int_digits := $"1"; frac_digits := Some ($"5"); exp_digits := None |}.
  split; [|split; reflexivity]. split; [|split]; [(split; [done|])..|done]; repeat constructor; vm_compute; done.
Qed.

Lemma key_le_sorted (key : pystr -> list Z) (d : list (pystr * pystr)) :
  StronglySorted (key_le key) d.*1 -> StronglySorted (key_le (fun kv => key kv.1)) d.
Proof.
  induction d as [|kv d IH]; intros H; [constructor|]. apply StronglySorted_inv in H as [H Hall].
  constructor; [by apply IH|]. apply Forall_forall. intros x Hx. rewrite Forall_forall in Hall. apply (Hall x.1). by apply list_elem_of_fmap_2.
Qed.

Lemma thumbprint_jcs jwk d : canonical_members jwk = Ok d ->
  serialize plain_repr 0 (thumbprint_json d) = Ok (dumps_strings d) /\
  (Forall (fun kv => Forall scalar kv.2) d -> json_wf (thumbprint_json d)).
Proof.
  intros (kty & members & _ & Hm & Hnames & _)%canonical_members_Ok.
  destruct (members_sorted _ _ Hm) as (Hnd & Hs1 & Hs2 & Hsc & _). split.
  - unfold thumbprint_json, dumps_strings. cbn [serialize]. change (MAX_DEPTH <? 0) with false. cbn match.
    rewrite map_map, sort_by_map. cbn [fst]. rewrite !sort_by_id.
    2: apply (key_le_sorted id d); by rewrite Hnames.
  2: apply (key_le_sorted code_units d); by rewrite Hnames.
    rewrite mapR_map. cbn [fst snd serialize].
    change (MAX_DEPTH <? 0 + 1) with false. cbn match.
    assert (mapR (fun x : pystr * pystr => t ← Ok (escape_string x.2); Ok (escape_string x.1 ++ 58 :: t)) d =
      Ok (map (fun kv => escape_string kv.1 ++ 58 :: escape_string kv.2) d)) as ->; [|done].
    clear. induction d as [|kv d IH]; [done|]. cbn [mapR map]. by rewrite IH.
  - intros Hv. apply json_wf_dict. unfold dict_ok. split.
    + rewrite <-list_fmap_compose. change (NoDup d.*1). by rewrite Hnames.
    + apply Forall_fmap. apply Forall_forall. intros kv Hin. cbn. split; [|exact (proj1 (Forall_forall _ _) Hv _ Hin)].
      apply (proj1 (Forall_forall _ _) Hsc). rewrite <-Hnames. by apply list_elem_of_fmap_2.
Qed.

Definition members_of (jwk : jobject) : list pystr :=
  match jget jwk ($"kty") with JStr kty => default [] (dget THUMBPRINT_MEMBERS kty) | _ => [] end.

(** The same key: every member its type requires, the type included, has the same value. *)
Definition same_key (j1 j2 : jobject) : Prop :=
  forall name, name ∈ members_of j1 -> jget j2 name = jget j1 name.

Lemma mapR_ext {A B} (f g : A -> result B) l : (forall x, x ∈ l -> f x = g x) -> mapR f l = mapR g l.
Proof.
  induction l as [|x l IH]; intros H; [done|]. cbn [mapR]. rewrite (H x) by left.
  rewrite IH; [done|]. intros; apply H; by right.
Qed.

Lemma same_key_canonical j1 j2 d : canonical_members j1 = Ok d -> same_key j1 j2 -> canonical_members j2 = Ok d.
Proof.
  intros H Hs. pose proof (canonical_members_Ok _ _ H) as (kty & members & Hk & Hm & _ & _).
  destruct (members_sorted _ _ Hm) as (_ & _ & _ & _ & Hkin).
  unfold same_key, members_of in Hs. rewrite Hk, Hm in Hs. cbn [default from_option id] in Hs.
  unfold canonical_members in *. rewrite (Hs _ Hkin), Hk, Hm. rewrite Hk, Hm in H. rewrite <-H.
  apply mapR_ext. intros name Hin. unfold thumbprint_member. by rewrite (Hs _ Hin).
Qed.

Definition strings_ok (j : jobject) : Prop := forall name v, jget j name = JStr v -> pystr_ok v.

Lemma canonical_scalar j d : strings_ok j -> canonical_members j = Ok d -> Forall (fun kv => Forall scalar kv.2) d.
Proof.
  intros Hj (kty & members & _ & _ & _ & Hd)%canonical_members_Ok. apply Forall_forall. intros [k v] Hin.
  apply Hd in Hin as [Hv [b Hb]]. apply Hj in Hv. cbn. unfold pystr_ok in Hv. clear -Hv Hb. revert b Hb.
  induction Hv as [|c v Hc Hv IH]; intros b Hb; [constructor|]. cbn [utf8_encode] in Hb.
  destruct (is_surrogate c) eqn:E; [done|]. constructor; [by split|].
  destruct (utf8_encode v) as [b'|]; [by eapply IH|done].
Qed.

(** The RFC 7638 thumbprint identifies the key.  A second JWK has the thumbprint of the
    first exactly when every member the key type requires, the type included, has the same
    value; no other member counts, the private ones included.  Otherwise the two JWKs exhibit
    two different texts with the same digest. *)
Theorem thumbprint_identifies_key (digest : pystr -> bytes -> bytes) (hash_name : pystr) (j1 j2 : jobject) (t : bytes) :
  strings_ok j1 -> strings_ok j2 -> jwk_thumbprint_bytes digest j1 hash_name = Ok t ->
  (jwk_thumbprint_bytes digest j2 hash_name = Ok t <-> same_key j1 j2) \/
  exists x y, x <> y /\ digest hash_name x = digest hash_name y.
Proof.
  intros S1 S2 H1. unfold jwk_thumbprint_bytes in *. apply bind_Ok in H1 as ([] & Hh & H1).
  rewrite Hh. cbn [mbind result_bind]. apply bind_Ok in H1 as (d1 & Hd1 & H1). apply bind_Ok in H1 as (b1 & Hb1 & H1).
  apply Ok_inj in H1.
  destruct (canonical_members j2) as [d2|e] eqn:Hd2.
  2: { left. split; [done|]. intros Hs. pose proof (same_key_canonical _ _ _ Hd1 Hs). congruence. }
  cbn [mbind result_bind]. destruct (utf8_encode (dumps_strings d2)) as [b2|e] eqn:Hb2.
  2: { left. split; [done|]. intros Hs. pose proof (same_key_canonical _ _ _ Hd1 Hs). congruence. }
  cbn [mbind result_bind]. destruct (decide (b1 = b2)) as [->|Hne].
  - left. rewrite H1. split; [intros _|done].
    destruct (thumbprint_jcs _ _ Hd1) as [T1 W1], (thumbprint_jcs _ _ Hd2) as [T2 W2].
    assert (same_text plain_repr (thumbprint_json d1) (thumbprint_json d2)) as Hsame.
    { apply (canonicalize_inj plain_repr plain_repr_denotes) with (b := b2).
      - exact (W1 (canonical_scalar j1 d1 S1 Hd1)).
      - exact (W2 (canonical_scalar j2 d2 S2 Hd2)).
      - unfold canonicalize. rewrite T1. cbn [mbind result_bind]. by rewrite Hb1.
      - unfold canonicalize. rewrite T2. cbn [mbind result_bind]. by rewrite Hb2. }
    intros name Hin. pose proof (canonical_members_Ok _ _ Hd1) as (kty & members & Hk & Hm & Hn & Hv1).
    pose proof (canonical_members_Ok _ _ Hd2) as (_ & _ & _ & _ & _ & Hv2).
    unfold members_of in Hin. rewrite Hk, Hm in Hin. cbn in Hin. rewrite <-Hn in Hin.
    apply list_elem_of_fmap in Hin as ([n v] & -> & Hin). cbn [fst].
    pose proof (proj1 (Hv1 _ _ Hin)) as ->.
    inversion Hsame as [| | |? ? (? & N1 & _)| |? ? d1' d2' P1 P2 HF]; subst; [discriminate N1|].
    assert ((n, JStr v) ∈ d1') as Hin' by (rewrite P1; by apply (list_elem_of_fmap_2 (fun kv : pystr * pystr => (kv.1, JStr kv.2)) d1 (n, v))).
    eapply Forall2_elem_l in HF as ([n' v'] & Hin2 & En & Ev); [|exact Hin']. cbn in En, Ev. subst n'.
    rewrite P2 in Hin2. apply list_elem_of_In, in_map_iff in Hin2 as ([n2 v2] & [= -> <-] & Hin2%list_elem_of_In).
    cbn [fst snd] in Ev. destruct (Hv2 _ _ Hin2) as [-> _]. inversion Ev as [| | |? ? (? & N1 & _)| |]; subst; [done|discriminate N1].
  - destruct (decide (digest hash_name b1 = digest hash_name b2)) as [E|E]; [right; by exists b1, b2|left].
    split; [intros H2%Ok_inj; congruence|]. intros Hs. pose proof (same_key_canonical _ _ _ Hd1 Hs). congruence.
Qed.

Lemma thumbprint_identifies_key_witness :
  let j := [($"kty", JStr ($"OKP")); ($"crv", JStr ($"Ed25519")); ($"x", JStr ($"AA"))] in
  (jwk_thumbprint_bytes (fun _ b => b) (($"d", JStr ($"BB")) :: j) ($"sha-256") =
     Ok (dumps_strings [($"crv", $"Ed25519"); ($"kty", $"OKP"); ($"x", $"AA")]) <-> same_key j (($"d", JStr ($"BB")) :: j))
  \/ exists x y, x <> y /\ (fun _ b => b) ($"sha-256") x = (fun _ b => b) ($"sha-256") y :> bytes.
Proof.
  cbv zeta. assert (forall j, Forall (fun kv => match kv.2 with JStr v => pystr_ok v | _ => True end) j -> strings_ok j) as Hok.
  { intros j Hj name v Hv. unfold jget in Hv. destruct (dget j name) as [w|] eqn:E; [|done]. cbn in Hv. subst w.
    apply dget_Some_elem in E. rewrite Forall_forall in Hj. apply (Hj _ E). }
  apply thumbprint_identifies_key; [apply Hok|apply Hok|vm_compute; reflexivity].
  all: repeat constructor; apply (bool_decide_unpack _); vm_compute; exact I.
Defined.

(** * The signer interface *)

(** The [SigningKey] protocol of [openvc.proof.vc_jwt]: what the issuers ask of a key, an
    in-process one or a remote one. *)
Class Signer (K : Type) := { signer_alg : K -> pystr; signer_sign : K -> bytes -> result bytes }.

#[export] Instance software_signer : Signer SigningKey := {| signer_alg := key_alg; signer_sign := sign |}.
