(* ===== verification/Contexts.v ===== *)
(** [openvc.proof.contexts] (src/src/openvc/proof/contexts/__init__.py): the offline document
    loader, and what a call of the JSON-LD processor may share with another.

    A document is served from the bundle or injected by the caller; only the object of the bundle
    itself is [static].  What pyld resolved for a URL is of some type [R]; the process keeps one
    map of them, and each call sees it through the window of its own loader. *)
From S2P Require Import Prelude Errors PyStr Json.

Definition BASE_URL : pystr := $"https://www.w3.org/ns/credentials/v2".

(** * The loader *)

(** [extra] maps a URL to a document, and says whether it is the bundle's own object. *)
Record OfflineLoader := { contexts : list (pystr * json); static_urls : list pystr }.
Record loaded := { document_url : pystr; document : json; static : bool }.

Section loader.
(** The parsed files: [_BUNDLED_FILES] names one. *)
Context (bundled : list (pystr * json)).

Definition document_loader (extra_contexts : list (pystr * (json * bool))) : OfflineLoader :=
  let cache := foldl (fun d kv => dset d kv.1 kv.2) ((fun kv => (kv.1, (kv.2, true))) <$> bundled) extra_contexts in
  {| contexts := (fun kv => (kv.1, kv.2.1)) <$> cache;
     static_urls := fst <$> filter (fun kv => kv.2.2 = true /\ dmem bundled kv.1 = true) cache |}.

Definition load (loader : OfflineLoader) (url : pystr) : result loaded :=
  match dget (contexts loader) url with
  | None => Err DocumentLoaderError
  | Some d => Ok {| document_url := url; document := d; static := bool_decide (url ∈ static_urls loader) |}
  end.
End loader.

(** pyld, the JSON-LD processor: each call is given the callable that serves documents.  A
    failure caused by that callable's refusal carries it; [canonize] is [URDNA2015] over parsed
    N-Quads, with the labels it issued. *)
Record json_ld := {
  ld_expand : (pystr -> result loaded) -> json -> result json;
  ld_compact : (pystr -> result loaded) -> json -> json -> result json;
  ld_to_rdf : (pystr -> result loaded) -> json -> result pystr;
  ld_normalize : (pystr -> result loaded) -> json -> result pystr;
  ld_canonize : pystr -> result (pystr * list (pystr * pystr)) }.

(** * What is shared between calls *)

Section resolutions.
Context {R : Type}.

(** [_BUNDLED_RESOLVED], read and written through a window of URLs. *)
Definition getitem (urls : list pystr) (store : list (pystr * R)) (key : pystr) : result R :=
  if bool_decide (key ∈ urls) then match dget store key with Some r => Ok r | None => Err KeyError end else Err KeyError.
Definition setitem (urls : list pystr) (store : list (pystr * R)) (key : pystr) (value : R) : list (pystr * R) :=
  if bool_decide (key ∈ urls) then dset store key value else store.
Definition delitem (urls : list pystr) (store : list (pystr * R)) (key : pystr) : result (list (pystr * R)) :=
  if negb (bool_decide (key ∈ urls)) then Err KeyError
  else if dmem store key then Ok (ddel store key) else Err KeyError.
Definition iter (urls : list pystr) (store : list (pystr * R)) : list pystr := filter (fun key => key ∈ urls) store.*1.

(** The window of a call: the static URLs of its loader, or nothing for another callable. *)
Definition window (loader : option OfflineLoader) : list pystr := match loader with Some l => static_urls l | None => [] end.

(** What one call does to the store through its window. *)
Inductive access := Write (key : pystr) (value : R) | Delete (key : pystr).
Definition access_key (a : access) : pystr := match a with Write key _ | Delete key => key end.
Definition do_access (urls : list pystr) (store : list (pystr * R)) (a : access) : list (pystr * R) :=
  match a with
  | Write key value => setitem urls store key value
  | Delete key => match delitem urls store key with Ok store => store | Err _ => store end
  end.
(** One call of the process: its loader and its accesses. *)
Definition pyld_call : Type := option OfflineLoader * list access.
Definition do_call (store : list (pystr * R)) (c : pyld_call) : list (pystr * R) := foldl (do_access (window c.1)) store c.2.
End resolutions.
Arguments access R : clear implicits.
Arguments pyld_call R : clear implicits.

(** * Lemmas *)

Section lemmas.
Context (bundled : list (pystr * json)).

Lemma dset_elem_of {V} (d : list (pystr * V)) k v k' v' : (k', v') ∈ dset d k v -> (k', v') = (k, v) \/ (k', v') ∈ d.
Proof using Type.
  induction d as [|[k0 v0] d IH]; cbn [dset]; [intros H%list_elem_of_singleton; by left|].
  case_decide as Hk.
  - intros [H|H]%elem_of_cons; [left; congruence|right; by right].
  - intros [H|H]%elem_of_cons; [right; rewrite H; by left|]. apply IH in H as [H|H]; [by left|right; by right].
Qed.
Lemma foldl_dset_elem {V} (extra : list (pystr * V)) : forall cache k v,
  (k, v) ∈ foldl (fun d kv => dset d kv.1 kv.2) cache extra -> (k, v) ∈ extra \/ (k, v) ∈ cache.
Proof using Type.
  induction extra as [|[k' v'] extra IH]; intros cache k v H; [by right|]. cbn [foldl fst snd] in H.
  apply IH in H as [H|[H|H]%dset_elem_of]; [left; by right|left; rewrite H; by left|by right].
Qed.

Lemma foldl_dset_ok {V} (extra : list (pystr * V)) : forall cache, dict_ok cache -> dict_ok (foldl (fun d kv => dset d kv.1 kv.2) cache extra).
Proof using Type. induction extra as [|kv extra IH]; intros cache H; [done|]. cbn [foldl]. by apply IH, dset_ok. Qed.

Lemma dget_map_snd {V W} (f : V -> W) (d : list (pystr * V)) k : dget ((fun kv => (kv.1, f kv.2)) <$> d) k = f <$> dget d k.
Proof using Type. induction d as [|[k0 v0] d IH]; [done|]. cbn. by case_decide. Qed.

(** A static URL serves the bundle's own document. *)
Lemma static_is_bundled extra url (Hb : dict_ok bundled) (Hextra : forall k d, (k, (d, true)) ∈ extra -> dget bundled k = Some d) :
  url ∈ static_urls (document_loader bundled extra) ->
  exists d, dget bundled url = Some d /\ dget (contexts (document_loader bundled extra)) url = Some d.
Proof using Type.
  unfold document_loader. cbn [static_urls contexts]. set (cache := foldl _ _ extra).
  assert (Hok : dict_ok cache).
  { apply foldl_dset_ok. unfold dict_ok in *. by rewrite <- list_fmap_compose. }
  intros ([k [d b]] & -> & [Hf Hin]%list_elem_of_filter)%list_elem_of_fmap. cbn in Hf. destruct Hf as [-> _]. cbn [fst].
  assert (Hd : dget bundled k = Some d).
  { apply foldl_dset_elem in Hin as [Hin|Hin]; [by eapply Hextra|]. apply list_elem_of_fmap in Hin as ([k' d'] & [= <- <-] & Hin). by apply dget_elem. }
  exists d. split; [done|]. rewrite dget_map_snd. by rewrite (dget_elem cache k (d, true)).
Qed.

Lemma do_access_outside {R} urls (store : list (pystr * R)) a key : key ∉ urls -> dget (do_access urls store a) key = dget store key.
Proof using Type.
  intros Hk. destruct a as [k v|k]; cbn [do_access].
  - unfold setitem. case_bool_decide; [|done]. rewrite dget_dset, decide_False; [done|set_solver].
  - unfold delitem. case_bool_decide; [|done]. cbn [negb]. destruct (dmem store k); [|done]. rewrite ddel_dget, decide_False; [done|set_solver].
Qed.

(** Whatever an entry of the store is, some call of the process wrote it through its window. *)
Lemma do_accesses_written {R} urls (accesses : list (access R)) : forall (store : list (pystr * R)) key r,
  dget (foldl (do_access urls) store accesses) key = Some r ->
  dget store key = Some r \/ key ∈ urls /\ Write key r ∈ accesses.
Proof using Type.
  induction accesses as [|a accesses IH]; intros store key r H; [by left|]. cbn [foldl] in H.
  apply IH in H as [H|[H1 H2]]; [|right; split; [done|by right]]. destruct (decide (key ∈ urls)) as [Hin|Hout]; [|left; by rewrite do_access_outside in H].
  destruct a as [k v|k]; cbn [do_access] in H.
  - unfold setitem in H. case_bool_decide; [|by left]. rewrite dget_dset in H. case_decide; [|by left]. simplify_eq. right. split; [done|by left].
  - unfold delitem in H. case_bool_decide; [|by left]. cbn [negb] in H. destruct (dmem store k); [|by left].
    rewrite ddel_dget in H. case_decide; [done|by left].
Qed.

Lemma do_calls_written {R} (calls : list (pyld_call R)) : forall store key r, dget (foldl do_call store calls) key = Some r ->
  dget store key = Some r \/ exists c, c ∈ calls /\ key ∈ window c.1 /\ Write key r ∈ c.2.
Proof using Type.
  induction calls as [|c calls IH]; intros store key r H; [by left|]. cbn [foldl] in H.
  apply IH in H as [H|(c' & Hin & H)]; [|right; exists c'; split; [by right|done]].
  apply do_accesses_written in H as [H|H]; [by left|]. right. exists c. split; [by left|done].
Qed.
End lemmas.

(** The loaders of the process, each built by [document_loader] over the one bundle. *)
Definition built {R} (bundled : list (pystr * json)) (c : pyld_call R) : Prop :=
  forall loader, c.1 = Some loader -> exists extra, loader = document_loader bundled extra /\
    forall k d, (k, (d, true)) ∈ extra -> dget bundled k = Some d.

(** No call of the JSON-LD processor sees another's contexts.  After any calls of the process,
    each with its own loader, what a call finds in the shared store was put there by a call whose
    loader serves the same document for that URL, the bundle's own; nothing an injected
    document, a shadowed URL or an inline context resolved to is ever found. *)
Theorem resolutions_isolated {R} (bundled : list (pystr * json)) (calls : list (pyld_call R)) (c : pyld_call R) key r
    (Hb : dict_ok bundled) (Hcalls : Forall (built bundled) (c :: calls))
    (H : getitem (window c.1) (foldl do_call [] calls) key = Ok r) :
  exists d, dget bundled key = Some d /\ (exists loader, c.1 = Some loader /\ dget (contexts loader) key = Some d) /\
    exists c' loader', c' ∈ calls /\ c'.1 = Some loader' /\ dget (contexts loader') key = Some d /\ Write key r ∈ c'.2.
Proof.
  unfold getitem in H. case_bool_decide as Hw; [|done]. destruct (dget _ key) as [r'|] eqn:Hg; [|done]. injection H as ->.
  apply do_calls_written in Hg as [Hg|(c' & Hin & Hw' & Hwrite)]; [done|]. rewrite Forall_cons in Hcalls. destruct Hcalls as [Hc Hcs].
  rewrite Forall_forall in Hcs. specialize (Hcs c' Hin). unfold window in *.
  destruct c.1 as [loader|] eqn:Ec; [|set_solver]. destruct c'.1 as [loader'|] eqn:Ec'; [|set_solver].
  destruct (Hc _ Ec) as (extra & -> & He). destruct (Hcs _ Ec') as (extra' & -> & He').
  apply (static_is_bundled bundled extra key Hb He) in Hw as (d & Hd & Hs). apply (static_is_bundled bundled extra' key Hb He') in Hw' as (d' & Hd' & Hs').
  rewrite Hd in Hd'. injection Hd' as <-. exists d. split; [done|]. split; [by eexists|]. by exists c', (document_loader bundled extra').
Qed.

(** ** Examples *)

Definition example_bundle : list (pystr * json) := [(BASE_URL, JDict [($"@context", JDict [])])].

(** A caller's document under a bundled URL is served to that caller, and shares nothing. *)
Example shadowed_base :
  let loader := document_loader example_bundle [(BASE_URL, (JDict [($"@context", JStr ($"evil"))], false)); ($"https://ctx.example", (JDict [], false))] in
  load loader BASE_URL = Ok {| document_url := BASE_URL; document := JDict [($"@context", JStr ($"evil"))]; static := false |} /\
  load loader ($"https://other.example") = Err DocumentLoaderError /\ static_urls loader = [] /\ static_urls (document_loader example_bundle []) = [BASE_URL].
Proof. by vm_compute. Qed.

Lemma resolutions_isolated_witness : exists d, dget example_bundle BASE_URL = Some d.
Proof.
  pose (loader := document_loader example_bundle []).
  assert (Hbuilt : forall accesses : list (access nat), built example_bundle (Some loader, accesses)).
  { intros accesses l [= <-]. exists []. split; [done|]. intros k d Hx. by apply elem_of_nil in Hx. }
  destruct (resolutions_isolated example_bundle [(Some loader, [Write BASE_URL 7%nat])] (Some loader, []) BASE_URL 7%nat) as (d & Hd & _).
  - apply (bool_decide_unpack _). by vm_compute.
  - by repeat constructor.
  - by vm_compute.
  - by exists d.
Defined.

