(* ===== verification/ContextValidation.v ===== *)
(** [openvc.proof._context_validation] (src/src/openvc/proof/_context_validation.py): the JSON of
    a document whose RDF dataset is signed must be the compacted form of that dataset under
    contexts the verifier trusts.

    pyld's [expand] and [compact] are parameters, over the loader of Contexts.v.  A Python set is
    the list of its elements; a message, and the path in it, is left out, so a search for the
    place of a fault is the question whether there is one.  The memo of the spellings' verdicts
    and the index shared by document and proof change no answer. *)
From S2P Require Import Prelude Errors PyStr Json PyNum Decimal Contexts.

Definition VC_BASE_CONTEXTS : list pystr := [BASE_URL; $"https://www.w3.org/2018/credentials/v1"].
Definition REFUSED_KEYWORDS : list pystr := [$"@included"; $"@reverse"; $"@index"; $"@direction"].
Definition EMBEDDED_CREDENTIALS : pystr := $"verifiableCredential".
Definition CRED : pystr := $"https://www.w3.org/2018/credentials#".
Definition CREDENTIAL_STATUS : pystr := CRED ++ $"credentialStatus".
Definition STATUS : pystr := $"https://www.w3.org/ns/credentials/status#".
Definition STATUS_LIST_2021 : pystr := $"https://w3id.org/vc/status-list#".

Definition POLICY_TERMS : list (pystr * pystr) :=
  [(CRED ++ $"validFrom", $"validFrom"); (CRED ++ $"validUntil", $"validUntil"); (CRED ++ $"issuanceDate", $"issuanceDate");
   (CRED ++ $"expirationDate", $"expirationDate"); (CRED ++ $"credentialStatus", $"credentialStatus");
   (CRED ++ $"credentialSchema", $"credentialSchema"); ($"https://w3id.org/security#expiration", $"expires");
   (STATUS ++ $"BitstringStatusListEntry", $"BitstringStatusListEntry"); (STATUS ++ $"statusPurpose", $"statusPurpose");
   (STATUS ++ $"statusListIndex", $"statusListIndex"); (STATUS ++ $"statusListCredential", $"statusListCredential");
   (STATUS_LIST_2021 ++ $"StatusList2021Entry", $"StatusList2021Entry"); (STATUS_LIST_2021 ++ $"statusPurpose", $"statusPurpose");
   (STATUS_LIST_2021 ++ $"statusListIndex", $"statusListIndex"); (STATUS_LIST_2021 ++ $"statusListCredential", $"statusListCredential")].

Definition MAX_CONTEXT_DEPTH : nat := 16.

(** ** IRIs *)

Definition keyword (s : pystr) : bool := startswith s ($"@").
Definition alpha (c : Z) : bool := ((65 <=? c) && (c <=? 90)) || ((97 <=? c) && (c <=? 122)).
(** [[A-Za-z0-9+-.]], whose last part is the range from [+] to [.]. *)
Definition scheme_char (c : Z) : bool := alpha c || is_ascii_digit c || ((43 <=? c) && (c <=? 46)).

Section validation.
(** [str.isspace] of one character. *)
Context (is_space : Z -> bool).

(** [_RDF_IRI.match]: [$] matches before a last newline too. *)
Definition rdf_iri (s : pystr) : bool :=
  let '(scheme, rest) := partition 58 s in
  let rest' := match rev rest with 10 :: r => rev r | _ => rest end in
  bool_decide (58 ∈ s) &&
  (bool_decide (scheme = $"_") || match scheme with c :: l => alpha c && forallb scheme_char l | [] => false end) &&
  (forallb (fun c => negb (is_space c)) rest || forallb (fun c => negb (is_space c)) rest').
Definition is_predicate (value : json) : bool :=
  match value with JStr s => negb (startswith s ($"_:")) && rdf_iri s | _ => false end.
Definition is_node_iri (value : json) : bool := match value with JStr s => rdf_iri s | _ => false end.

(** ** The [@context] *)

Definition context_entries (context : json) : option (list json) :=
  match context with JStr s => Some [JStr s] | JList l => Some l | _ => None end.
Definition check_entry (entry : json) : result unit :=
  match entry with
  | JStr (_ :: _) => Ok tt
  | JDict [(k, v)] => raise_if (negb (bool_decide (k = $"@vocab") && is_predicate v)) ProofMalformed
  | _ => Err ProofMalformed
  end.
Definition check_context (context : json) : result unit :=
  match context_entries context with
  | Some (JStr base :: entries) =>
      raise_if (negb (bool_decide (base ∈ VC_BASE_CONTEXTS))) ProofMalformed;; mapR check_entry entries;; Ok tt
  | _ => Err ProofMalformed
  end.

Definition is_presentation (document : jobject) : bool :=
  match jget document ($"type") with
  | JStr t => bool_decide (t = $"VerifiablePresentation")
  | JList types => existsb (fun t => eq_str t ($"VerifiablePresentation")) types
  | _ => false
  end.

(** ** Comparison of spellings *)

Fixpoint normalize (element : bool) (value : json) : json :=
  match value with
  | JList l =>
      let items := List.map (normalize true) l in
      match l, items with [x], [y] => if negb element && negb (is_list x) then y else JList items | _, _ => JList items end
  | JDict d =>
      match d with
      | [(k, x)] => if bool_decide (k = $"id") then normalize element x else JDict [(k, normalize false x)]
      | _ => JDict (List.map (fun kv => (kv.1, normalize false kv.2)) d)
      end
  | v => v
  end.

(** [json.dumps(value, sort_keys=True, allow_nan=False)] up to the text it writes: two dumps are
    equal when these are.  An integer of more than 4300 digits has no text. *)
Definition INT_TEXT_BOUND : Z := Eval vm_compute in 10 ^ 4300.
Fixpoint dumped (value : json) : result json :=
  match value with
  | JInt n => raise_if (INT_TEXT_BOUND <=? Z.abs n) ValueError;; Ok (JInt n)
  | JFloat f => match finite_value f with Some _ => Ok (JFloat f) | None => Err ValueError end
  | JList l => l ← mapR dumped l; Ok (JList l)
  | JDict d => d ← mapR (fun kv => v ← dumped kv.2; Ok (kv.1, v)) d; Ok (JDict (sort_by fst d))
  | JOther => Err TypeError
  | v => Ok v
  end.
Definition canonical (value : json) : result json := dumped (normalize false value).

(** ** The expanded form *)

(** [iter(value)]. *)
Definition items_of (value : json) : result (list json) :=
  match value with
  | JList l => Ok l
  | JStr s => Ok ((fun c => JStr [c]) <$> s)
  | JDict d => Ok (JStr <$> d.*1)
  | _ => Err TypeError
  end.

Definition check_members (check : json -> result unit) (d : jobject) : result unit :=
  mapR (fun kv : pystr * json =>
          raise_if (negb (keyword kv.1) && negb (is_predicate (JStr kv.1))) ProofMalformed;;
          (if bool_decide (kv.1 ∈ [$"@id"; $"@type"]) then Ok tt else check kv.2)) d;; Ok tt.

(** A node object's own part of [_check_expanded]. *)
Definition check_node (top_id : option json) (top : bool) (d : jobject) : result unit :=
  (match dget d ($"@id") with Some i => raise_if (negb (is_node_iri i)) ProofMalformed | None => Ok tt end);;
  types ← match dget d ($"@type") with Some t => items_of t | None => Ok [] end;
  raise_if (negb (forallb is_node_iri types)) ProofMalformed;;
  raise_if (negb top && match top_id with Some (JStr i) => bool_decide (dget d ($"@id") = Some (JStr i)) | _ => false end
            && existsb (fun k => negb (bool_decide (k = $"@id"))) d.*1) ProofMalformed.

Fixpoint check_expanded (top_id : option json) (top : bool) (value : json) : result unit :=
  match value with
  | JList l => mapR (check_expanded top_id false) l;; Ok tt
  | JDict d =>
      raise_if (existsb (dmem d) REFUSED_KEYWORDS) ProofMalformed;;
      if dmem d ($"@value") then Ok tt
      else check_node top_id top d;; check_members (check_expanded top_id false) d
  | _ => Ok tt
  end.

(** ** The status entries *)

(** The [@id]s directly under [credentialStatus], each with the forms of its descriptions. *)
Fixpoint collect_status_entries (value : json) (entries : list (pystr * list json)) : result (list (pystr * list json)) :=
  match value with
  | JList l => foldR (fun entries v => collect_status_entries v entries) entries l
  | JDict d =>
      if dmem d ($"@value") then Ok entries
      else match dmem d ($"@list") with
           | true => foldR (fun entries kv => if bool_decide (kv.1 = $"@list") then collect_status_entries kv.2 entries else Ok entries) entries d
           | false => match dget d ($"@id") with
                     | Some (JStr i) => form ← canonical (JDict d); Ok (dset entries i (form :: default [] (dget entries i)))
                     | _ => Ok entries
                     end
           end
  | _ => Ok entries
  end.

(** Whether some node outside them describes one of [entries] otherwise than by a copy. *)
Fixpoint described_elsewhere (entries : list (pystr * list json)) (top in_status : bool) (value : json) : result bool :=
  match value with
  | JList l => found ← mapR (described_elsewhere entries false in_status) l; Ok (existsb id found)
  | JDict d =>
      if dmem d ($"@value") then Ok false
      else if dmem d ($"@list") then
        found ← mapR (fun kv => if bool_decide (kv.1 = $"@list") then described_elsewhere entries false in_status kv.2 else Ok false) d;
        Ok (existsb id found)
      else
        moved ← match dget d ($"@id") with
                | Some (JStr i) =>
                    match dget entries i with
                    | Some forms =>
                        if negb in_status && existsb (fun k => negb (bool_decide (k = $"@id"))) d.*1
                        then form ← canonical (JDict d); Ok (negb (bool_decide (form ∈ forms))) else Ok false
                    | None => Ok false
                    end
                | _ => Ok false
                end;
        found ← mapR (fun kv => if bool_decide (kv.1 ∈ [$"@id"; $"@type"]) then Ok false
                                else described_elsewhere entries false (top && bool_decide (kv.1 = CREDENTIAL_STATUS)) kv.2) d;
        Ok (moved || existsb id found)
  | _ => Ok false
  end.

Definition check_status_in_place (node : jobject) : result unit :=
  entries ← collect_status_entries (jget node CREDENTIAL_STATUS) [];
  if bool_decide (entries = []) then Ok tt
  else moved ← described_elsewhere entries true false (JDict node); raise_if moved ProofMalformed.

(** ** The term index *)

Record TermIndex := {
  spellings : list (pystr * list pystr); iris : list (pystr * list pystr); vocabs : list pystr; suffixes : list (pystr * list pystr);
  type_keys : list pystr; base : list (pystr * list pystr) }.

(** [d.setdefault(k, set()).add(v)]. *)
Definition add_to (d : list (pystr * list pystr)) (k v : pystr) : list (pystr * list pystr) :=
  let s := default [] (dget d k) in dset d k (if bool_decide (v ∈ s) then s else s ++ [v]).
Definition at_key (d : list (pystr * list pystr)) (k : pystr) : list pystr := default [] (dget d k).

(** The [@id] of a definition. *)
Definition target_of (definition : json) : json := match definition with JDict d => jget d ($"@id") | v => v end.

(** The absolute IRIs a term definition's [@id] may name; the fuel is the depth left, and at its
    end there is none. *)
Fixpoint resolve_iris (fuel : nat) (definitions : list (pystr * list json)) (vocabs : list pystr) (target : pystr) : list pystr :=
  match fuel with
  | O => []
  | S fuel =>
      if keyword target then []
      else
        let in_vocabs name := (fun vocab => vocab ++ name) <$> vocabs in
        let term_targets term :=
          List.concat (List.map (fun definition =>
            match target_of definition with
            | JStr t => if bool_decide (t = term)
                        then (if bool_decide (58 ∈ term) then resolve_iris fuel definitions vocabs term else in_vocabs term)
                        else resolve_iris fuel definitions vocabs t
            | JNull => if bool_decide (58 ∈ term) then resolve_iris fuel definitions vocabs term else in_vocabs term
            | _ => []
            end) (default [] (dget definitions term))) in
        if bool_decide (58 ∈ target) then
          let '(prefix, suffix) := partition 58 target in
          let absolute := startswith suffix ($"//") in
          let resolved := (if absolute || negb (dmem definitions prefix) then [target] else [])
                          ++ (if absolute then [] else (fun b => b ++ suffix) <$> term_targets prefix) in
          if bool_decide (resolved = []) then [target] else resolved
        else if dmem definitions target then term_targets target
        else in_vocabs target
  end.
Definition resolve_top := resolve_iris (S MAX_CONTEXT_DEPTH).

(** The definitions of one context object, with its vocabulary and its aliases of [@type]. *)
Definition collected : Type := list (pystr * list json) * list pystr * list pystr.
Definition collect_member (acc : collected) (kv : pystr * json) : collected :=
  let '(definitions, vocabs, types) := acc in
  let '(term, definition) := kv in
  match definition with
  | JStr v => if bool_decide (term = $"@vocab") then (definitions, vocabs ++ [v], types)
              else if keyword term then acc
              else (dset definitions term (default [] (dget definitions term) ++ [definition]), vocabs,
                    if bool_decide (v = $"@type") then types ++ [term] else types)
  | JNull => acc
  | _ => if keyword term || match definition with JDict d => dmem d ($"@reverse") | _ => false end then acc
         else (dset definitions term (default [] (dget definitions term) ++ [definition]), vocabs,
               if bool_decide (target_of definition = JStr ($"@type")) then types ++ [term] else types)
  end.
Definition collect_object (acc : collected) (obj : jobject) : collected := foldl collect_member acc obj.

(** One definition of a term: every IRI it is defined as, both ways. *)
Definition index_definition (definitions : list (pystr * list json)) (vocabs : list pystr) (term : pystr)
    (maps : list (pystr * list pystr) * list (pystr * list pystr)) (definition : json) :=
  match match target_of definition with JNull => Some term | JStr t => Some t | _ => None end with
  | Some target => foldl (fun maps iri => (add_to maps.1 term iri, add_to maps.2 iri term)) maps (resolve_top definitions vocabs target)
  | None => maps
  end.

Definition index_definitions (objects : list jobject) (inline_vocabs : list pystr) : TermIndex :=
  let '(definitions, all_vocabs, types) := foldl collect_object ([], inline_vocabs, [$"@type"]) objects in
  let vocabs := List.concat (List.map (resolve_top definitions all_vocabs) all_vocabs) in
  let '(by_term, by_iri) :=
    foldl (fun maps kv => foldl (index_definition definitions vocabs kv.1) maps kv.2) ([], []) definitions in
  {| spellings := by_iri; iris := by_term; vocabs := vocabs; suffixes := []; type_keys := types; base := [] |}.

(** [_inline_vocabs]: the vocabulary in effect where each URL is last listed, and the last one. *)
Definition inline_vocabs (entries : list json) : list pystr :=
  let '(current, at_url) := foldl (fun '(current, at_url) entry =>
      match entry with
      | JDict d => (match jget d ($"@vocab") with JStr v => Some v | _ => None end, at_url)
      | JStr url => (current, dset at_url url current)
      | _ => (current, at_url)
      end) (None, []) entries in
  omap id (at_url.*2 ++ [current]).

(** ** Gathering contexts *)

Context (json_loads : pystr -> result json) (loader : OfflineLoader).

Definition listed_contexts (context : json) : list json := match context with JList l => l | v => [v] end.
Definition gathered : Type := list jobject * list pystr.

(** A document's own [@context]; [None] when the loader does not serve the URL, or serves no object. *)
Definition context_of (url : pystr) : result (option json) :=
  match load loader url with
  | Err DocumentLoaderError => Ok None
  | Err e => Err e
  | Ok l =>
      d ← match document l with JStr text => json_loads text | d => Ok d end;
      Ok (match d with JDict d => Some (jget d ($"@context")) | _ => None end)
  end.

(** The fuel is the depth left; past it the [@context] nests too deeply. *)
Fixpoint gather_contexts (fuel : nat) (context : json) (acc : gathered) : result gathered :=
  match fuel with
  | O => Err ProofMalformed
  | S fuel =>
      foldR (fun '(objects, seen) entry =>
        match entry with
        | JStr url =>
            if bool_decide (url ∈ seen) then Ok (objects, seen)
            else c ← context_of url;
                 match c with Some c => gather_contexts fuel c (objects, seen ++ [url]) | None => Ok (objects, seen ++ [url]) end
        | JDict d =>
            acc ← match jget d ($"@import") with
                  | JStr url => gather_contexts fuel (JStr url) (objects ++ [d], seen)
                  | _ => Ok (objects ++ [d], seen)
                  end;
            foldR (fun acc kv => match kv.2 with
                                 | JDict definition =>
                                     match jget definition ($"@context") with
                                     | JNull => Ok acc
                                     | scoped => if keyword kv.1 then Ok acc else gather_contexts fuel scoped acc
                                     end
                                 | _ => Ok acc
                                 end) acc d
        | _ => Ok (objects, seen)
        end) acc (listed_contexts context)
  end.
Definition gather_top := gather_contexts (S MAX_CONTEXT_DEPTH).

Definition served : json := JList (JStr <$> sort_by id (contexts loader).*1).

(** The suffixes of the defined IRIs that follow a vocabulary. *)
Definition suffix_index (vocabs defined : list pystr) : list (pystr * list pystr) :=
  foldl (fun d iri => foldl (fun d vocab => if bool_decide (vocab <> []) && startswith iri vocab && bool_decide (vocab <> iri)
                                            then add_to d (drop (length vocab) iri) iri else d) d vocabs) [] defined.

(** The index with the IRIs the policy reads, the suffixes, and the base context's own terms. *)
Definition with_policy (index base_index : TermIndex) : TermIndex :=
  let all := foldl (fun d kv => add_to d kv.1 kv.2) (spellings index) POLICY_TERMS in
  {| spellings := all; iris := iris index; vocabs := vocabs index; suffixes := suffix_index (vocabs index) all.*1;
     type_keys := type_keys index; base := spellings base_index |}.

Definition term_index (context : json) : result TermIndex :=
  let entries := listed_contexts context in
  '(base_objects, seen) ← gather_top (JList (take 1 entries)) ([], []);
  '(objects, _) ← gather_top served (base_objects, seen);
  Ok (with_policy (index_definitions objects (inline_vocabs entries)) (index_definitions base_objects [])).

(** ** Spellings *)

Definition key_iris (key : pystr) (index : TermIndex) : list pystr :=
  if negb (bool_decide (58 ∈ key)) then at_key (iris index) key ++ at_key (suffixes index) key
  else let '(prefix, suffix) := partition 58 key in
       key :: (if startswith suffix ($"//") then [] else (fun b => b ++ suffix) <$> at_key (iris index) prefix).

(** The terms an IRI may be spelled by; any, when there is none. *)
Definition allowed_terms (iri : pystr) (index : TermIndex) : list pystr :=
  match dget POLICY_TERMS iri with
  | Some term => [term]
  | None => match at_key (base index) iri with [] => at_key (spellings index) iri | terms => terms end
  end.
Definition is_misspelled (spelling : pystr) (index : TermIndex) : bool :=
  existsb (fun iri => let terms := allowed_terms iri index in
                      negb (bool_decide (terms = [])) && negb (bool_decide (spelling ∈ terms))) (key_iris spelling index).

(** The strings of a [type] member. *)
Definition type_values (item : json) : list pystr := omap as_str (match item with JList l => l | v => [v] end).

Fixpoint misspelled_key (index : TermIndex) (value : json) : bool :=
  match value with
  | JList l => existsb (misspelled_key index) l
  | JDict d =>
      negb (dmem d ($"@value")) &&
      existsb (fun kv : pystr * json =>
        negb (bool_decide (kv.1 = $"@context")) &&
        ((negb (keyword kv.1) && is_misspelled kv.1 index) ||
         (bool_decide (kv.1 ∈ type_keys index) && existsb (fun s => negb (keyword s) && is_misspelled s index) (type_values kv.2)) ||
         misspelled_key index kv.2)) d
  | _ => false
  end.

(** A top-level type that is a served term, standing for another IRI. *)
Definition hijacked_type (document node : jobject) (index : TermIndex) : bool :=
  let signed := match jget node ($"@type") with JList l => l | JNull => [] | v => [v] end in
  existsb (fun key => existsb (fun value => match dget (iris index) value with
                                            | Some meant => negb (existsb (fun iri => bool_decide (JStr iri ∈ signed)) meant)
                                            | None => false
                                            end) (type_values (jget document key))) (type_keys index).

(** [_stub_json_literals], and whether anything was replaced. *)
Fixpoint stub_json_literals (value : json) : json * bool :=
  match value with
  | JList l => let items := List.map stub_json_literals l in
               if existsb snd items then (JList items.*1, true) else (value, false)
  | JDict d =>
      if dmem d ($"@value") then
        if bool_decide (dget d ($"@type") = Some (JStr ($"@json"))) then (JDict (dset d ($"@value") (JInt 0)), true) else (value, false)
      else let items := List.map (fun kv => (kv.1, stub_json_literals kv.2)) d in
           if existsb (fun kv => kv.2.2) items then (JDict ((fun kv => (kv.1, kv.2.1)) <$> items), true) else (value, false)
  | v => (v, false)
  end.

(** ** Validation *)

(** [jsonld.expand] and [jsonld.compact], through the loader. *)
Context (expand : json -> result json) (compact : json -> json -> result json).

Definition no_key_error {A} (v : option A) : result A := match v with Some a => Ok a | None => Err KeyError end.

(** The body of the [try]. *)
Definition validated_form (document : jobject) : result jobject :=
  expanded ← expand (JDict document);
  node ← match expanded with JList [JDict node] => Ok node | _ => Err ProofMalformed end;
  check_expanded (dget node ($"@id")) true (JDict node);;
  context ← no_key_error (dget document ($"@context"));
  compacted ← compact expanded context;
  ours ← canonical (JDict document);
  theirs ← canonical compacted;
  raise_if (negb (bool_decide (theirs = ours))) ProofMalformed;;
  compacted ← (match stub_json_literals expanded with (stubbed, true) => compact stubbed context | _ => Ok compacted end);
  index ← term_index context;
  raise_if (misspelled_key index compacted) ProofMalformed;;
  raise_if (hijacked_type document node index) ProofMalformed;;
  Ok node.

Definition check_compacted (document : jobject) : result unit :=
  node ← catch_as (fun e => negb (isinstance e ProofError)) ProofMalformed (validated_form document);
  check_status_in_place node.

Definition validate_document (unsecured proof_config : jobject) : result unit :=
  check_context (jget unsecured ($"@context"));;
  check_compacted (if is_presentation unsecured then ddel unsecured EMBEDDED_CREDENTIALS else unsecured);;
  check_compacted proof_config.

(** ** Types by IRI *)

Definition trusted_index : result TermIndex := '(objects, _) ← gather_top served ([], []); Ok (index_definitions objects []).

Definition trusted_iris (name : pystr) (index : TermIndex) : list pystr :=
  if bool_decide (name = []) || keyword name then []
  else match dget (iris index) name with
       | Some meant => meant
       | None =>
           if negb (bool_decide (58 ∈ name)) then (fun vocab => vocab ++ name) <$> vocabs index
           else let '(prefix, suffix) := partition 58 name in
                (if startswith suffix ($"//") || negb (dmem (iris index) prefix) then [name] else [])
                ++ (if startswith suffix ($"//") then [] else (fun b => b ++ suffix) <$> at_key (iris index) prefix)
       end.

Definition missing_types (document : jobject) (expected : list pystr) : result (list pystr) :=
  let unsecured := ddel document ($"proof") in
  let unsecured := if is_presentation unsecured then ddel unsecured EMBEDDED_CREDENTIALS else unsecured in
  expanded ← catch_as (fun _ => true) ProofMalformed (expand (JDict unsecured));
  let signed := match expanded with
                | JList [JDict node] => match jget node ($"@type") with JList l => l | JNull => [] | v => [v] end
                | _ => []
                end in
  trusted ← trusted_index;
  Ok (filter (fun name => Forall (fun iri => JStr iri ∉ signed) (trusted_iris name trusted)) expected).
End validation.

(** * Lemmas on the index *)

Lemma at_key_add_to d k v k' x : x ∈ at_key (add_to d k v) k' <-> x ∈ at_key d k' \/ k' = k /\ x = v.
Proof.
  unfold at_key, add_to. rewrite dget_dset. case_decide as Hk; [subst|]; cbn [default]; [|naive_solver].
  case_bool_decide; set_solver.
Qed.
Lemma add_to_keys d k v : k ∈ (add_to d k v).*1.
Proof. apply dmem_spec. unfold dmem, add_to. rewrite dget_dset. by rewrite decide_True. Qed.
Lemma add_to_keys_mono d k v k' : k' ∈ d.*1 -> k' ∈ (add_to d k v).*1.
Proof. rewrite <- !dmem_spec. unfold dmem, add_to. rewrite dget_dset. by case_decide. Qed.

(** A fold whose every step keeps [P], and one of whose steps brings it about. *)
Lemma foldl_keeps {A B} (f : A -> B -> A) (P : A -> Prop) l : (forall a b, P a -> P (f a b)) -> forall a, P a -> P (foldl f a l).
Proof. intros Hf. induction l as [|b l IH]; intros a Ha; [done|]. cbn [foldl]. by apply IH, Hf. Qed.
Lemma foldl_reaches {A B} (f : A -> B -> A) (P : A -> Prop) l b : (forall a b, P a -> P (f a b)) -> (forall a, P (f a b)) -> b ∈ l ->
  forall a, P (foldl f a l).
Proof.
  intros Hk Hb Hin. induction Hin as [b l|b b' l Hin IH]; intros a; cbn [foldl]; [by apply foldl_keeps|by apply IH].
Qed.

Lemma suffix_index_complete vocabs defined iri vocab k :
  iri ∈ defined -> vocab ∈ vocabs -> vocab <> [] -> k <> [] -> iri = vocab ++ k -> iri ∈ at_key (suffix_index vocabs defined) k.
Proof.
  intros Hiri Hvoc Hv Hk ->. unfold suffix_index. set (step := fun d iri => _).
  assert (Hmono : forall d iri' x key, x ∈ at_key d key -> x ∈ at_key (step d iri') key).
  { intros d iri' x key Hx. unfold step. apply foldl_keeps; [|done]. intros d' v' Hd'. case_match; [|done]. apply at_key_add_to. by left. }
  apply (foldl_reaches step (fun d => vocab ++ k ∈ at_key d k) defined (vocab ++ k)); [intros; by apply Hmono| |done].
  intros d. unfold step. apply (foldl_reaches _ (fun d => vocab ++ k ∈ at_key d k) vocabs vocab); [| |done].
  - intros d' v' Hd'. case_match; [|done]. apply at_key_add_to. by left.
  - intros d'. rewrite (bool_decide_true (vocab <> [])) by done. unfold startswith. rewrite take_app_length, (bool_decide_true (vocab = vocab)) by done.
    rewrite bool_decide_true; [|intros Heq; apply (f_equal length) in Heq; rewrite length_app in Heq; destruct k; [done|cbn in Heq; lia]].
    cbn [andb]. rewrite drop_app_length. apply at_key_add_to. by right.
Qed.

(** What a key of the compacted form may stand for: itself, or a compact IRI over a term; a term of
    that name, or a vocabulary and the key. *)
Definition stands_for (index : TermIndex) (key iri : pystr) : Prop :=
  if decide (58 ∈ key)
  then iri = key \/ startswith (partition 58 key).2 ($"//") = false /\
       exists b, b ∈ at_key (iris index) (partition 58 key).1 /\ iri = b ++ (partition 58 key).2
  else iri ∈ at_key (iris index) key \/ exists vocab, vocab ∈ vocabs index /\ vocab <> [] /\ key <> [] /\ iri = vocab ++ key.

Definition suffixes_complete (index : TermIndex) : Prop := suffixes index = suffix_index (vocabs index) (spellings index).*1.

Lemma key_iris_complete index key iri : suffixes_complete index -> iri ∈ (spellings index).*1 -> stands_for index key iri -> iri ∈ key_iris key index.
Proof.
  intros Hs Hiri. unfold stands_for, key_iris. case_decide as Hc.
  - rewrite (bool_decide_true (58 ∈ key)) by done. cbn [negb]. destruct (partition 58 key) as [prefix suffix]. cbn [fst snd].
    intros [->|(Hss & b & Hb & ->)]; [by left|]. right. rewrite Hss. apply list_elem_of_fmap. by exists b.
  - rewrite (bool_decide_false (58 ∈ key)) by done. cbn [negb]. intros [H|(vocab & Hv & Hne & Hk & Heq)]; apply elem_of_app; [by left|].
    right. rewrite Hs. by eapply suffix_index_complete.
Qed.

Lemma spelled_allowed index key iri : suffixes_complete index -> iri ∈ (spellings index).*1 -> stands_for index key iri ->
  is_misspelled key index = false -> allowed_terms iri index <> [] -> key ∈ allowed_terms iri index.
Proof.
  intros Hs Hiri Hst Hm Hne. unfold is_misspelled in Hm. destruct (decide (key ∈ allowed_terms iri index)) as [|Hout]; [done|].
  exfalso. apply not_true_iff_false in Hm. apply Hm, existsb_exists. exists iri. split; [by apply list_elem_of_In, key_iris_complete|].
  cbn zeta. rewrite (bool_decide_false (allowed_terms iri index = [])) by done. by rewrite bool_decide_false.
Qed.

(** * The places of a form *)

(** The node objects of a form, members under [skip] and literals apart. *)
Inductive reaches (skip : list pystr) : json -> jobject -> Prop :=
  | reach_here d : dmem d ($"@value") = false -> reaches skip (JDict d) d
  | reach_item l v d : v ∈ l -> reaches skip v d -> reaches skip (JList l) d
  | reach_member d0 k v d : dmem d0 ($"@value") = false -> (k, v) ∈ d0 -> k ∉ skip -> reaches skip v d -> reaches skip (JDict d0) d.

Lemma misspelled_key_reaches index value d : misspelled_key index value = false -> reaches [$"@context"] value d ->
  forall k v, (k, v) ∈ d -> k <> $"@context" ->
    (keyword k = false -> is_misspelled k index = false) /\
    (k ∈ type_keys index -> forall t, t ∈ type_values v -> keyword t = false -> is_misspelled t index = false).
Proof.
  intros Hm Hr. revert Hm. induction Hr as [d Hv|l v d Hin Hr IH|d0 k0 v0 d Hv Hin Hk Hr IH]; intros Hm; cbn [misspelled_key] in Hm.
  - rewrite Hv in Hm. cbn [negb andb] in Hm. apply not_true_iff_false in Hm. rewrite existsb_exists in Hm. intros k v Hin Hc.
    assert (H : (negb (keyword k) && is_misspelled k index) || (bool_decide (k ∈ type_keys index) &&
      existsb (fun s => negb (keyword s) && is_misspelled s index) (type_values v)) || misspelled_key index v = false).
    { apply not_true_iff_false. intros H. apply Hm. exists (k, v). split; [by apply list_elem_of_In|]. cbn [fst snd].
      by rewrite (bool_decide_false (k = _)). }
    apply orb_false_iff in H as [H _]. apply orb_false_iff in H as [H1 H2]. split.
    + intros Hkw. by rewrite Hkw in H1.
    + intros Ht t Hin' Hkw. rewrite bool_decide_true in H2 by done. cbn [andb] in H2. apply not_true_iff_false in H2.
      apply not_true_iff_false. intros Hmis. apply H2, existsb_exists. exists t. split; [by apply list_elem_of_In|]. by rewrite Hkw, Hmis.
  - apply IH. apply not_true_iff_false in Hm. apply not_true_iff_false. intros H. apply Hm, existsb_exists. exists v. split; [by apply list_elem_of_In|done].
  - apply IH. rewrite Hv in Hm. cbn [negb andb] in Hm. apply not_true_iff_false in Hm. apply not_true_iff_false. intros H. apply Hm, existsb_exists.
    exists (k0, v0). split; [by apply list_elem_of_In|]. cbn [fst snd]. rewrite bool_decide_false by set_solver. rewrite H. cbn [negb andb]. by rewrite orb_true_r.
Qed.

Lemma check_expanded_reaches is_space top_id value d : forall top, check_expanded is_space top_id top value = Ok tt ->
  reaches [$"@id"; $"@type"] value d ->
  (forall k, k ∈ d.*1 -> (k ∉ REFUSED_KEYWORDS) /\ (keyword k = false -> is_predicate is_space (JStr k) = true)) /\
  (forall i, dget d ($"@id") = Some i -> is_node_iri is_space i = true) /\
  exists top', check_node is_space top_id top' d = Ok tt.
Proof.
  intros top Hc Hr. revert top Hc. induction Hr as [d Hv|l v d Hin Hr IH|d0 k0 v0 d Hv Hin Hk Hr IH]; intros top Hc; cbn [check_expanded] in Hc.
  - apply bind_Ok in Hc as (_ & Href%raise_if_Ok & Hc). rewrite Hv in Hc. apply bind_Ok in Hc as ([] & Hn & Hc). split_and!.
    + intros k Hin. split.
      * intros Hx. apply not_true_iff_false in Href. apply Href, existsb_exists. exists k. split; [by apply list_elem_of_In|by apply dmem_spec].
      * intros Hkw. unfold check_members in Hc. apply bind_Ok in Hc as (ys & Hys%mapR_Ok & _).
        apply list_elem_of_fmap in Hin as ([k' v'] & -> & Hin). apply list_elem_of_lookup in Hin as [i Hi].
        eapply Forall2_lookup_l in Hys as (y & _ & Hy); [|exact Hi]. apply bind_Ok in Hy as (_ & Hy%raise_if_Ok & _). cbn [fst] in *.
        rewrite Hkw in Hy. by apply negb_false_iff in Hy.
    + intros i Hi. unfold check_node in Hn. rewrite Hi in Hn. by apply bind_Ok in Hn as (_ & Hn%raise_if_Ok%negb_false_iff & _).
    + by exists top.
  - apply bind_Ok in Hc as (ys & Hys%mapR_Ok & _). apply list_elem_of_lookup in Hin as [i Hi].
    eapply Forall2_lookup_l in Hys as ([] & _ & Hy); [|exact Hi]. by eapply IH.
  - apply bind_Ok in Hc as (_ & _ & Hc). rewrite Hv in Hc. apply bind_Ok in Hc as ([] & _ & Hc). unfold check_members in Hc.
    apply bind_Ok in Hc as (ys & Hys%mapR_Ok & _). apply list_elem_of_lookup in Hin as [i Hi].
    eapply Forall2_lookup_l in Hys as ([] & _ & Hy); [|exact Hi]. apply bind_Ok in Hy as (_ & _ & Hy). cbn [fst snd] in Hy.
    rewrite bool_decide_false in Hy by done. by eapply IH.
Qed.

(** ** Normal forms *)

Lemma canonical_keys d form : canonical (JDict d) = Ok form -> (forall v, d <> [($"id", v)]) ->
  exists d', form = JDict d' /\ d'.*1 ≡ₚ d.*1.
Proof.
  intros H Hid. unfold canonical in H.
  assert (Hn : exists m, normalize false (JDict d) = JDict m /\ m.*1 = d.*1).
  { cbn [normalize]. destruct d as [|[k v] [|kv d]].
    - by exists [].
    - case_bool_decide; [subst; by exfalso; eapply Hid|]. by eexists.
    - eexists. split; [done|]. change (List.map ?f ?l) with (f <$> l). by rewrite <- list_fmap_compose. }
  destruct Hn as (m & Hn & Hk). rewrite Hn in H. cbn [dumped] in H. apply bind_Ok in H as (d' & Hd' & [= <-]). exists (sort_by fst d'). split; [done|].
  rewrite (sort_by_perm fst d'). rewrite <- Hk. clear Hk Hn. apply mapR_Ok in Hd'.
  induction Hd' as [|[k v] [k' v'] m d' Hx _ IH]; [done|]. apply bind_Ok in Hx as (y & _ & [= <- _]). cbn. apply perm_skip, IH.
Qed.

(** * The index of a context *)

Lemma with_policy_suffixes index base_index : suffixes_complete (with_policy index base_index).
Proof. unfold suffixes_complete, with_policy. cbn [suffixes vocabs spellings]. reflexivity. Qed.

Lemma with_policy_terms index base_index iri term : dget POLICY_TERMS iri = Some term -> iri ∈ (spellings (with_policy index base_index)).*1.
Proof.
  intros Hp%dget_Some_elem. unfold with_policy. cbn [spellings]. generalize (spellings index). revert Hp. generalize POLICY_TERMS. intros l Hin d.
  apply (foldl_reaches _ (fun d => iri ∈ d.*1) l (iri, term)); [| |done].
  - intros d' [i t] Hd. by apply add_to_keys_mono.
  - intros d'. apply add_to_keys.
Qed.

Lemma term_index_parts json_loads loader context index : term_index json_loads loader context = Ok index ->
  suffixes_complete index /\ forall iri term, dget POLICY_TERMS iri = Some term -> iri ∈ (spellings index).*1.
Proof.
  unfold term_index. intros ([base_objects seen] & _ & H)%bind_Ok. apply bind_Ok in H as ([objects seen'] & _ & H). apply Ok_inj in H as <-.
  split; [apply with_policy_suffixes|]. intros iri term. apply with_policy_terms.
Qed.

(** What holds of a form [validated_form] accepts. *)
Record form_ok (is_space : Z -> bool) (json_loads : pystr -> result json) (loader : OfflineLoader) (expand : json -> result json)
    (compact : json -> json -> result json) (document node : jobject) : Prop := {
  (** one top-level node, nothing in it the RDF conversion drops or detaches *)
  fo_expanded : expand (JDict document) = Ok (JList [JDict node]) /\ check_expanded is_space (dget node ($"@id")) true (JDict node) = Ok tt;
  (** the document is the compacted form of its expansion, and no key or type of that form is misspelled *)
  fo_compacted : exists context compacted plain form index,
    dget document ($"@context") = Some context /\ compact (JList [JDict node]) context = Ok compacted /\
    canonical compacted = Ok form /\ canonical (JDict document) = Ok form /\
    term_index json_loads loader context = Ok index /\ misspelled_key index plain = false /\ hijacked_type document node index = false /\
    (if (stub_json_literals (JList [JDict node])).2 then compact (stub_json_literals (JList [JDict node])).1 context = Ok plain else plain = compacted) }.

Lemma validated_form_ok is_space json_loads loader expand compact document node :
  validated_form is_space json_loads loader expand compact document = Ok node -> form_ok is_space json_loads loader expand compact document node.
Proof.
  unfold validated_form. intros (expanded & He & H)%bind_Ok. apply bind_Ok in H as (node' & Hn & H).
  destruct expanded as [| | | | |[|[| | | | | |n|] [|]]| |]; try done. injection Hn as <-.
  apply bind_Ok in H as ([] & Hc & H). apply bind_Ok in H as (context & Hctx & H). apply bind_Ok in H as (compacted & Hcomp & H).
  apply bind_Ok in H as (ours & Ho & H). apply bind_Ok in H as (theirs & Ht & H).
  apply bind_Ok in H as (_ & Heq%raise_if_Ok%negb_false_iff%bool_decide_eq_true & H). subst theirs.
  apply bind_Ok in H as (plain & Hp & H). apply bind_Ok in H as (index & Hi & H). apply bind_Ok in H as (_ & Hm%raise_if_Ok & H).
  apply bind_Ok in H as (_ & Hh%raise_if_Ok & [= <-]). split; [done|]. exists context, compacted, plain, ours, index.
  split_and!; try done.
  - destruct (dget document _); [|done]. by injection Hctx as ->.
  - destruct (stub_json_literals (JList [JDict n])) as [stubbed []]; cbn [fst snd]; [done|]. by injection Hp as ->.
Qed.

Lemma check_compacted_Ok is_space json_loads loader expand compact document :
  check_compacted is_space json_loads loader expand compact document = Ok tt ->
  exists node, form_ok is_space json_loads loader expand compact document node /\ check_status_in_place node = Ok tt.
Proof.
  unfold check_compacted. intros (node & Hn%catch_as_Ok%validated_form_ok & Hs)%bind_Ok. by exists node.
Qed.

(** The document validated: all of it, but the credentials a presentation embeds. *)
Definition validated_part (unsecured : jobject) : jobject :=
  if is_presentation unsecured then ddel unsecured EMBEDDED_CREDENTIALS else unsecured.

Lemma validate_document_Ok is_space json_loads loader expand compact unsecured proof_config :
  validate_document is_space json_loads loader expand compact unsecured proof_config = Ok tt ->
  check_context is_space (jget unsecured ($"@context")) = Ok tt /\
  check_compacted is_space json_loads loader expand compact (validated_part unsecured) = Ok tt /\
  check_compacted is_space json_loads loader expand compact proof_config = Ok tt.
Proof. unfold validate_document. intros ([] & Hc & H)%bind_Ok. by apply bind_Ok in H as ([] & Hd & Hp). Qed.

(** * Properties *)

(** C20: A member the policy reads cannot hide.  When a document validates (and holds no [@json]
    literal), any key of its compacted form's top-level node that may stand for an IRI the policy
    reads (the IRI itself, a compact IRI over a served term, a term some served context defines as
    it, or what a vocabulary in play leaves of it) is the one key the policy reads it under, and
    the document has that member. *)
Theorem policy_members_visible is_space json_loads loader expand compact unsecured proof_config
    (H : validate_document is_space json_loads loader expand compact unsecured proof_config = Ok tt) :
  exists node context d index,
    expand (JDict (validated_part unsecured)) = Ok (JList [JDict node]) /\
    dget (validated_part unsecured) ($"@context") = Some context /\
    compact (JList [JDict node]) context = Ok d /\ term_index json_loads loader context = Ok index /\
    ((stub_json_literals (JList [JDict node])).2 = false -> forall c, d = JDict c -> dmem c ($"@value") = false -> forall key iri term,
      key ∈ c.*1 -> key <> $"@context" -> keyword key = false -> dget POLICY_TERMS iri = Some term -> stands_for index key iri ->
      key = term /\ term ∈ (validated_part unsecured).*1).
Proof.
  apply validate_document_Ok in H as (_ & Hd & _). apply check_compacted_Ok in Hd as (node & [[He _] Hc] & _).
  destruct Hc as (context & compacted & plain & form & index & Hctx & Hcomp & Hform & Hdoc & Hi & Hm & _ & Hstub).
  exists node, context, compacted, index. split_and!; try done. intros Hs c -> Hv key iri term Hkey Hkc Hkw Hp Hst. rewrite Hs in Hstub. subst plain.
  destruct (term_index_parts _ _ _ _ Hi) as [Hsuf Hpol]. apply list_elem_of_fmap in Hkey as ([k v] & -> & Hin). cbn [fst] in *.
  destruct (misspelled_key_reaches index (JDict c) c Hm (reach_here _ c Hv) k v Hin Hkc) as [Hmis _].
  assert (Hk : k ∈ allowed_terms iri index).
  { apply spelled_allowed; [done|by eapply Hpol|done|by apply Hmis|]. unfold allowed_terms. by rewrite Hp. }
  unfold allowed_terms in Hk. rewrite Hp in Hk. apply list_elem_of_singleton in Hk as ->. split; [done|].
  assert (Hid : forall v, c <> [($"id", v)]).
  { intros v' ->. apply list_elem_of_singleton in Hin. injection Hin as -> _. apply dget_Some_elem in Hp. revert Hp. clear. unfold POLICY_TERMS.
    intros Hp. repeat (apply elem_of_cons in Hp as [Hp|Hp]; [by injection Hp|]). by apply elem_of_nil in Hp. }
  apply canonical_keys in Hform as (f1 & -> & Hperm); [|done]. apply canonical_keys in Hdoc as (f2 & [= <-] & Hperm'); [|].
  - rewrite <- Hperm', Hperm. apply list_elem_of_fmap. by exists (term, v).
  - intros v' Heq. rewrite Heq in Hctx. done.
Qed.

(** * Every served context is indexed *)

Lemma foldR_rel {A B} (R : B -> B -> Prop) `{!PreOrder R} (f : B -> A -> result B) l :
  (forall b x b', x ∈ l -> f b x = Ok b' -> R b b') -> forall b b', foldR f b l = Ok b' ->
  R b b' /\ forall x, x ∈ l -> exists b1 b2, f b1 x = Ok b2 /\ R b2 b'.
Proof.
  induction l as [|x l IH]; intros Hf b b' H; cbn [foldR] in H; [injection H as <-; split; [done|]; intros x Hx; by apply elem_of_nil in Hx|].
  apply bind_Ok in H as (b1 & Hb1 & H). apply IH in H as [H1 H2]; [|intros b2 y b3 Hy; apply Hf; by right].
  pose proof (Hf b x b1 ltac:(by left) Hb1) as HR. split; [by etrans|]. intros y [->|Hy]%elem_of_cons; [by exists b, b1|by apply H2].
Qed.

Section gathering.
Context (json_loads : pystr -> result json) (loader : OfflineLoader).

(** The objects of a URL's document are among those gathered. *)
Definition url_gathered (objects : list jobject) (url : pystr) : Prop :=
  forall c obj, context_of json_loads loader url = Ok (Some c) -> JDict obj ∈ listed_contexts c -> obj ∈ objects.

(** Objects and URLs only grow, and a new URL's objects come with it. *)
Definition grows (acc acc' : gathered) : Prop :=
  acc.1 ⊆ acc'.1 /\ acc.2 ⊆ acc'.2 /\ forall url, url ∈ acc'.2 -> url ∈ acc.2 \/ url_gathered acc'.1 url.

#[export] Instance grows_preorder : PreOrder grows.
Proof using Type.
  split; [intros acc; split_and!; [done|done|by left]|]. intros a1 a2 a3 (O1 & S1 & U1) (O2 & S2 & U2). split_and!; [set_solver|set_solver|].
  intros url Hu. apply U2 in Hu as [Hu|Hu]; [|by right]. apply U1 in Hu as [Hu|Hu]; [by left|]. right. intros c obj Hc Hobj. apply O2. by eapply Hu.
Qed.

(** What a call gathers of the entries it is given. *)
Definition gathers (context : json) (acc acc' : gathered) : Prop :=
  grows acc acc' /\ (forall url, JStr url ∈ listed_contexts context -> url ∈ acc'.2) /\ (forall obj, JDict obj ∈ listed_contexts context -> obj ∈ acc'.1).

Lemma grows_object objects seen d : grows (objects, seen) (objects ++ [d], seen).
Proof using Type. split_and!; cbn; [set_solver|done|by left]. Qed.

Lemma gather_contexts_gathers fuel : forall context acc acc', gather_contexts json_loads loader fuel context acc = Ok acc' -> gathers context acc acc'.
Proof using Type.
  induction fuel as [|fuel IH]; intros context acc acc' H; cbn [gather_contexts] in H; [done|].
  assert (IHg : forall c a a', gather_contexts json_loads loader fuel c a = Ok a' -> grows a a') by (intros c a a' Hg; by apply IH in Hg as [? _]).
  match type of H with foldR ?f _ _ = _ => set (step := f) in H end.
  assert (Hstep : forall acc entry acc', step acc entry = Ok acc' -> grows acc acc' /\
    (forall url, entry = JStr url -> url ∈ acc'.2) /\ (forall obj, entry = JDict obj -> obj ∈ acc'.1)).
  { clear H. intros [objects seen] entry acc1 H. destruct entry as [| | | |url| |d|]; cbn in H; try (injection H as <-; split_and!; [reflexivity|done|done]).
    - case_bool_decide as Hseen; [injection H as <-; split_and!; [reflexivity|by intros u [= <-]|done]|].
      apply bind_Ok in H as (c & Hc & H). destruct c as [c|].
      + apply IH in H as (Hg & Hurls & Hobjs). destruct Hg as (O & S & U). cbn [fst snd] in *. split_and!; [|intros u [= <-]; set_solver|done].
        split_and!; cbn [fst snd]; [done|set_solver|]. intros u Hu. apply U in Hu as [Hu|Hu]; [|by right].
        apply elem_of_app in Hu as [Hu| ->%list_elem_of_singleton]; [by left|]. right. intros c' obj Hc' Hobj. rewrite Hc in Hc'. injection Hc' as <-. by apply Hobjs.
      + injection H as <-. split_and!; [|intros u [= <-]; cbn; set_solver|done]. split_and!; cbn; [done|set_solver|].
        intros u [Hu| ->%list_elem_of_singleton]%elem_of_app; [by left|]. right. intros c' obj Hc'. by rewrite Hc in Hc'.
    - apply bind_Ok in H as (acc2 & H2 & H). assert (G1 : grows (objects ++ [d], seen) acc2).
      { destruct (jget d ($"@import")); try (injection H2 as <-; reflexivity). by apply IHg in H2. }
      apply (foldR_rel grows) in H as [G2 _].
      2:{ intros b [k v] b' _ Hb. cbn [fst snd] in Hb. destruct v; try (injection Hb as <-; reflexivity).
          destruct (jget _ ($"@context")); destruct (keyword k); try (injection Hb as <-; reflexivity); by apply IHg in Hb. }
      assert (G : grows (objects ++ [d], seen) acc1) by (by etrans). split_and!; [etrans; [apply grows_object|exact G]|done|].
      intros obj [= <-]. apply G. cbn. set_solver. }
  apply (foldR_rel grows) in H as [G Hall]; [|intros b x b' _ Hb; by apply Hstep in Hb as [? _]].
  split; [done|]. split; [intros url Hin|intros obj Hin]; destruct (Hall _ Hin) as (b1 & b2 & Hb & (O & S & _)); apply Hstep in Hb as (_ & Hu & Hd).
  - apply S. by apply Hu.
  - apply O. by apply Hd.
Qed.

Lemma served_gathered acc acc' url doc obj : gather_top json_loads loader (served loader) acc = Ok acc' -> (forall u, u ∈ acc.2 -> url_gathered acc.1 u) ->
  dget (contexts loader) url = Some (JDict doc) -> JDict obj ∈ listed_contexts (jget doc ($"@context")) -> obj ∈ acc'.1.
Proof using Type.
  intros (G & Hu & _)%gather_contexts_gathers Hacc Hd Hobj. destruct G as (O & S & U). assert (Hin : url ∈ acc'.2).
  { apply Hu. unfold served. cbn [listed_contexts]. apply list_elem_of_fmap. exists url. split; [done|]. rewrite sort_by_perm.
    apply list_elem_of_fmap. exists (url, JDict doc). split; [done|]. by apply dget_Some_elem. }
  assert (Hc : context_of json_loads loader url = Ok (Some (jget doc ($"@context")))) by (unfold context_of, load; by rewrite Hd).
  apply U in Hin as [Hin|Hin]; [apply O; by eapply Hacc|by eapply Hin].
Qed.
End gathering.

(** ** From an object to the index *)

Definition defined_in (definitions : list (pystr * list json)) (term : pystr) (definition : json) : Prop :=
  definition ∈ default [] (dget definitions term).

Lemma defined_in_dset definitions t x term definition : defined_in definitions term definition ->
  defined_in (dset definitions t (default [] (dget definitions t) ++ [x])) term definition.
Proof. unfold defined_in. rewrite dget_dset. case_decide; [subst; cbn; set_solver|done]. Qed.
Lemma defined_in_new definitions t x : defined_in (dset definitions t (default [] (dget definitions t) ++ [x])) t x.
Proof. unfold defined_in. rewrite dget_dset, decide_True by done. cbn. set_solver. Qed.

Lemma collect_member_keeps acc kv term definition : defined_in acc.1.1 term definition -> defined_in (collect_member acc kv).1.1 term definition.
Proof.
  destruct acc as [[definitions vocs] types], kv as [t v]. cbn [fst]. intros H. unfold collect_member.
  destruct v; repeat case_match; cbn [fst]; try done; by apply defined_in_dset.
Qed.
Lemma collect_member_defines acc term iri : keyword term = false -> defined_in (collect_member acc (term, JStr iri)).1.1 term (JStr iri).
Proof.
  destruct acc as [[definitions vocs] types]. intros Hk. unfold collect_member. rewrite Hk.
  rewrite bool_decide_false by (intros ->; done). apply defined_in_new.
Qed.

Lemma collected_defines objects acc obj term iri : obj ∈ objects -> (term, JStr iri) ∈ obj -> keyword term = false ->
  defined_in (foldl collect_object acc objects).1.1 term (JStr iri).
Proof.
  intros Hobj Hin Hk. apply (foldl_reaches collect_object (fun acc => defined_in acc.1.1 term (JStr iri)) objects obj); [| |done].
  - intros a o Ha. unfold collect_object. apply foldl_keeps; [|done]. intros a' kv. apply collect_member_keeps.
  - intros a. unfold collect_object. apply (foldl_reaches collect_member (fun acc => defined_in acc.1.1 term (JStr iri)) obj (term, JStr iri)); [| |done].
    + intros a' kv. apply collect_member_keeps.
    + intros a'. by apply collect_member_defines.
Qed.

(** An absolute IRI, with an authority. *)
Definition absolute_iri (iri : pystr) : Prop := keyword iri = false /\ 58 ∈ iri /\ startswith (partition 58 iri).2 ($"//") = true.

Lemma resolve_absolute definitions vocabs iri : absolute_iri iri -> iri ∈ resolve_top definitions vocabs iri.
Proof.
  intros (Hk & Hc & Ha). unfold resolve_top. generalize MAX_CONTEXT_DEPTH. intros fuel. cbn [resolve_iris]. rewrite Hk, (bool_decide_true (58 ∈ iri)) by done.
  destruct (partition 58 iri) as [prefix suffix]. cbn [snd] in Ha. rewrite Ha. cbn [orb]. rewrite app_nil_r, bool_decide_false by done. by left.
Qed.

(** A pair of maps has the term for the IRI. *)
Definition both (maps : list (pystr * list pystr) * list (pystr * list pystr)) (term iri : pystr) : Prop := term ∈ at_key maps.2 iri.

Lemma index_definition_keeps definitions vocabs t maps x term iri : both maps term iri -> both (index_definition definitions vocabs t maps x) term iri.
Proof.
  intros H. unfold index_definition. destruct (match target_of x with JNull => _ | JStr _ => _ | _ => _ end) as [target|]; [|done].
  apply foldl_keeps; [|done]. intros m i Hm. unfold both. cbn [snd]. apply at_key_add_to. by left.
Qed.
Lemma index_definition_adds definitions vocabs term maps iri : absolute_iri iri -> both (index_definition definitions vocabs term maps (JStr iri)) term iri.
Proof.
  intros Ha. unfold index_definition. cbn [target_of]. apply (foldl_reaches _ (fun m => both m term iri) _ iri); [| |by apply resolve_absolute].
  - intros m i Hm. unfold both. cbn [snd]. apply at_key_add_to. by left.
  - intros m. unfold both. cbn [snd]. apply at_key_add_to. by right.
Qed.

Lemma index_definitions_spells objects inline obj term iri : obj ∈ objects -> (term, JStr iri) ∈ obj -> keyword term = false -> absolute_iri iri ->
  term ∈ at_key (spellings (index_definitions objects inline)) iri.
Proof.
  intros Hobj Hin Hk Ha. unfold index_definitions. pose proof (collected_defines objects ([], inline, [$"@type"]) obj term iri Hobj Hin Hk) as Hd.
  destruct (foldl collect_object _ objects) as [[definitions all_vocabs] types]. cbn [fst] in Hd. unfold defined_in in Hd.
  destruct (dget definitions term) as [defs|] eqn:Et; [|by apply elem_of_nil in Hd]. cbn [default] in Hd. apply dget_Some_elem in Et.
  set (vocs := List.concat _). match goal with |- context [foldl ?f ([], []) definitions] => set (step := f) end.
  assert (H : both (foldl step ([], []) definitions) term iri).
  { apply (foldl_reaches step (fun m => both m term iri) definitions (term, defs)); [| |done].
    - intros m kv Hm. unfold step. apply foldl_keeps; [|done]. intros m' x. apply index_definition_keeps.
    - intros m. unfold step. cbn [fst snd]. apply (foldl_reaches _ (fun m => both m term iri) defs (JStr iri)); [| |done].
      + intros m' x. apply index_definition_keeps.
      + intros m'. by apply index_definition_adds. }
  by destruct (foldl step ([], []) definitions).
Qed.

Lemma with_policy_spells index base_index iri term : term ∈ at_key (spellings index) iri -> term ∈ at_key (spellings (with_policy index base_index)) iri.
Proof.
  unfold with_policy. cbn [spellings]. generalize POLICY_TERMS. intros l H. apply foldl_keeps; [|done]. intros d kv Hd. apply at_key_add_to. by left.
Qed.

Lemma at_key_keys d k x : x ∈ at_key d k -> k ∈ d.*1.
Proof. unfold at_key. rewrite <- dmem_spec. unfold dmem. destruct (dget d k); [done|]. intros H. by apply elem_of_nil in H. Qed.

Lemma term_index_serves json_loads loader context index url doc obj term iri : term_index json_loads loader context = Ok index ->
  dget (contexts loader) url = Some (JDict doc) -> JDict obj ∈ listed_contexts (jget doc ($"@context")) ->
  (term, JStr iri) ∈ obj -> keyword term = false -> absolute_iri iri -> term ∈ at_key (spellings index) iri.
Proof.
  unfold term_index. intros ([base_objects seen] & Hb & H)%bind_Ok Hd Hobj Hin Hk Ha. apply bind_Ok in H as ([objects seen'] & Ho & H).
  apply Ok_inj in H as <-. apply with_policy_spells. eapply index_definitions_spells; [|done..].
  eapply (served_gathered json_loads loader (base_objects, seen) (objects, seen')); [done| |done|done].
  apply gather_contexts_gathers in Hb as ((_ & _ & U) & _). cbn [fst snd] in *. intros u Hu. apply U in Hu as [Hu|Hu]; [by apply elem_of_nil in Hu|done].
Qed.

Lemma allowed_terms_nonempty iri index term : term ∈ at_key (spellings index) iri -> allowed_terms iri index <> [].
Proof.
  unfold allowed_terms. destruct (dget POLICY_TERMS iri); [done|]. destruct (at_key (base index) iri); [|done].
  intros H Hn. rewrite Hn in H. by apply elem_of_nil in H.
Qed.

(** A term a served context defines is the only spelling of its IRI.  Whatever [@context] the
    holder of a document lists, once the document validates, an IRI that any context of the
    verifier's loader defines a term for stands under no key and no [type] of the compacted form,
    at any depth outside literals, but under the terms allowed for it: the policy's own, else the base
    context's, else those defined. *)
Theorem served_terms_spelled is_space json_loads loader expand compact unsecured proof_config url doc obj term iri
    (H : validate_document is_space json_loads loader expand compact unsecured proof_config = Ok tt)
    (Hd : dget (contexts loader) url = Some (JDict doc)) (Hobj : JDict obj ∈ listed_contexts (jget doc ($"@context")))
    (Hin : (term, JStr iri) ∈ obj) (Hk : keyword term = false) (Ha : absolute_iri iri) :
  exists index plain, term_index json_loads loader (jget (validated_part unsecured) ($"@context")) = Ok index /\
    (exists expanded context, compact expanded context = Ok plain) /\
    forall d, reaches [$"@context"] plain d -> forall key v, (key, v) ∈ d -> key <> $"@context" ->
      (keyword key = false -> stands_for index key iri -> key ∈ allowed_terms iri index) /\
      (key ∈ type_keys index -> forall t, t ∈ type_values v -> keyword t = false -> stands_for index t iri -> t ∈ allowed_terms iri index).
Proof.
  apply validate_document_Ok in H as (_ & Hc & _). apply check_compacted_Ok in Hc as (node & [[He _] Hcomp] & _).
  destruct Hcomp as (context & compacted & plain & form & index & Hctx & Hcomp & _ & _ & Hi & Hm & _ & Hstub).
  exists index, plain. split; [unfold jget; by rewrite Hctx|].
  split; [destruct (stub_json_literals _).2; [by do 2 eexists|subst; by do 2 eexists]|].
  intros d Hr key v Hkv Hne. destruct (misspelled_key_reaches index plain d Hm Hr key v Hkv Hne) as [H1 H2].
  pose proof (term_index_serves _ _ _ _ _ _ _ _ _ Hi Hd Hobj Hin Hk Ha) as Hterm. pose proof (term_index_parts _ _ _ _ Hi) as [Hs _].
  assert (Hall : forall k, stands_for index k iri -> is_misspelled k index = false -> k ∈ allowed_terms iri index).
  { intros k Hst Hmis. apply spelled_allowed; [done|by eapply at_key_keys|done|done|by eapply allowed_terms_nonempty]. }
  split; [intros Hkw Hst; apply Hall; [done|by apply H1]|]. intros Ht t Htv Hkw Hst. apply Hall; [done|by eapply H2].
Qed.

(** * The status entries *)

(** The nodes directly under a [credentialStatus]. *)
Inductive status_entry : json -> jobject -> Prop :=
  | entry_here d : dmem d ($"@value") = false -> dmem d ($"@list") = false -> status_entry (JDict d) d
  | entry_item l v d : v ∈ l -> status_entry v d -> status_entry (JList l) d
  | entry_list d0 v d : dmem d0 ($"@value") = false -> ($"@list", v) ∈ d0 -> status_entry v d -> status_entry (JDict d0) d.

(** The nodes of a form that are not entries of the top-level [credentialStatus]. *)
Inductive elsewhere : bool -> bool -> json -> jobject -> Prop :=
  | else_here top d : dmem d ($"@value") = false -> dmem d ($"@list") = false -> elsewhere top false (JDict d) d
  | else_item top in_status l v d : v ∈ l -> elsewhere false in_status v d -> elsewhere top in_status (JList l) d
  | else_list top in_status d0 v d : dmem d0 ($"@value") = false -> ($"@list", v) ∈ d0 -> elsewhere false in_status v d -> elsewhere top in_status (JDict d0) d
  | else_member top in_status d0 k v d : dmem d0 ($"@value") = false -> dmem d0 ($"@list") = false -> (k, v) ∈ d0 -> k ∉ [$"@id"; $"@type"] ->
      elsewhere false (top && bool_decide (k = CREDENTIAL_STATUS)) v d -> elsewhere top in_status (JDict d0) d.

Definition entries_t : Type := list (pystr * list json).

(** Where an entry of the map comes from: an entry under [value], unless it was there. *)
Definition collects (value : json) (entries entries' : entries_t) : Prop :=
  (forall i, i ∈ entries.*1 -> i ∈ entries'.*1) /\
  (forall e i, status_entry value e -> dget e ($"@id") = Some (JStr i) -> i ∈ entries'.*1) /\
  forall i forms, dget entries' i = Some forms -> forall f, f ∈ forms ->
    f ∈ default [] (dget entries i) \/ exists e, status_entry value e /\ dget e ($"@id") = Some (JStr i) /\ canonical (JDict e) = Ok f.

(** A fold that collects from each of some values. *)
Lemma collects_fold {A} (f : entries_t -> A -> result entries_t) (value : json) l : forall entries entries',
  (forall x, x ∈ l -> forall a a', f a x = Ok a' ->
     (forall i, i ∈ a.*1 -> i ∈ a'.*1) /\
     (forall i forms, dget a' i = Some forms -> forall g, g ∈ forms ->
        g ∈ default [] (dget a i) \/ exists e, status_entry value e /\ dget e ($"@id") = Some (JStr i) /\ canonical (JDict e) = Ok g)) ->
  foldR f entries l = Ok entries' ->
  (forall i, i ∈ entries.*1 -> i ∈ entries'.*1) /\
  (forall x, x ∈ l -> exists a a', f a x = Ok a' /\ forall i, i ∈ a'.*1 -> i ∈ entries'.*1) /\
  forall i forms, dget entries' i = Some forms -> forall g, g ∈ forms ->
    g ∈ default [] (dget entries i) \/ exists e, status_entry value e /\ dget e ($"@id") = Some (JStr i) /\ canonical (JDict e) = Ok g.
Proof.
  induction l as [|x l IH]; intros entries entries' Hf H; cbn [foldR] in H.
  { injection H as <-. split_and!; [done|intros x Hx; by apply elem_of_nil in Hx|]. intros i forms -> g Hg. by left. }
  apply bind_Ok in H as (a & Ha & H). apply IH in H as (H1 & H2 & H3); [|intros y Hy; apply Hf; by right].
  destruct (Hf x ltac:(by left) _ _ Ha) as [K F]. split_and!; [by auto| |].
  - intros y [->|Hy]%elem_of_cons; [by exists entries, a|by apply H2].
  - intros i forms Hi g Hg. destruct (H3 i forms Hi g Hg) as [Hold|?]; [|by right].
    destruct (dget a i) as [fa|] eqn:Ea; [|by apply elem_of_nil in Hold]. by eapply F.
Qed.

Lemma collect_status_entries_collects value : forall entries entries', collect_status_entries value entries = Ok entries' -> collects value entries entries'.
Proof.
  induction value as [| | | | |l IH|d IH|] using json_ind'; intros entries entries' H; cbn [collect_status_entries] in H;
    try (injection H as <-; split_and!; [done|intros e i He; inversion He|intros i forms -> g Hg; by left]).
  - rewrite Forall_forall in IH. apply (collects_fold _ (JList l)) in H as (H1 & H2 & H3).
    + split_and!; [done| |done]. intros e i He Hi. inversion He as [|l' v d' Hin Hv|]; subst. destruct (H2 v Hin) as (a & a' & Ha & Hmono).
      apply Hmono. apply (IH v Hin) in Ha as (_ & Ha & _). by eapply Ha.
    + intros x Hx a a' Ha. apply (IH x Hx) in Ha as (A1 & _ & A3). split; [done|]. intros i forms Hi g Hg.
      destruct (A3 i forms Hi g Hg) as [?|(e & He & ?)]; [by left|]. right. exists e. split; [by eapply entry_item|done].
  - destruct (dmem d ($"@value")) eqn:Ev; [injection H as <-; split_and!; [done| |intros i forms -> g Hg; by left]; intros e i He; inversion He; congruence|].
    destruct (dmem d ($"@list")) eqn:El.
    + rewrite Forall_forall in IH. apply (collects_fold _ (JDict d)) in H as (H1 & H2 & H3).
      * split_and!; [done| |done]. intros e i He Hi. inversion He as [d' Hv Hl|l' v d' Hin Hv|d0 v d' Hv Hin Hs]; subst; [congruence|].
        destruct (H2 _ Hin) as (a & a' & Ha & Hmono). cbn [fst snd] in Ha. rewrite bool_decide_true in Ha by done.
        apply Hmono. apply (IH _ Hin) in Ha as (_ & Ha & _). by eapply Ha.
      * intros [k v] Hx a a' Ha. cbn [fst snd] in Ha. case_bool_decide as Hk; [|injection Ha as <-; split; [done|]; intros i forms -> g Hg; by left].
        subst k. apply (IH _ Hx) in Ha as (A1 & _ & A3). split; [done|]. intros i forms Hi g Hg.
        destruct (A3 i forms Hi g Hg) as [?|(e & He & ?)]; [by left|]. right. exists e. split; [by eapply entry_list|done].
    + assert (Hself : forall e, status_entry (JDict d) e -> e = d).
      { intros e He. inversion He as [d' Hv Hl|l' v d' Hin Hv|d0 v d' Hv Hin Hs]; subst; [done|]. exfalso.
        apply not_true_iff_false in El. apply El, dmem_spec, list_elem_of_fmap. by exists ($"@list", v). }
      destruct (dget d ($"@id")) as [[| | | |i0| | |]|] eqn:Ei;
        try (injection H as <-; split_and!; [done| |intros i forms -> g Hg; by left]; intros e i He%Hself Hi; subst e; congruence).
      apply bind_Ok in H as (form & Hform & [= <-]). split_and!.
      * intros i Hi. apply dmem_spec in Hi. apply dmem_spec. unfold dmem in *. rewrite dget_dset. by case_decide.
      * intros e i He%Hself Hi. subst e. rewrite Ei in Hi. injection Hi as ->. apply dmem_spec. unfold dmem. by rewrite dget_dset, decide_True.
      * intros i forms Hi g Hg. rewrite dget_dset in Hi. case_decide as Hd; [|rewrite Hi; by left]. injection Hi as <-.
        apply elem_of_cons in Hg as [->|Hg]; [|subst; by left]. right. exists d. subst. split_and!; [by apply entry_here|done|done].
Qed.

(** What a search that finds nothing says of every node elsewhere. *)
Lemma described_elsewhere_none entries value d : forall top in_status, described_elsewhere entries top in_status value = Ok false ->
  elsewhere top in_status value d -> forall i forms, dget d ($"@id") = Some (JStr i) -> dget entries i = Some forms ->
  (forall k, k ∈ d.*1 -> k = $"@id") \/ exists form, canonical (JDict d) = Ok form /\ form ∈ forms.
Proof.
  intros top in_status Hd He. revert Hd. induction He as [top d Hv Hl|top in_status l v d Hin He IH|top in_status d0 v d Hv Hin He IH|top in_status d0 k v d Hv Hl Hin Hk He IH];
    intros Hd; cbn [described_elsewhere] in Hd.
  - intros i forms Hi Hf. rewrite Hv, Hl in Hd. apply bind_Ok in Hd as (moved & Hm & Hd). apply bind_Ok in Hd as (found & _ & Hd). apply Ok_inj in Hd.
    apply orb_false_iff in Hd as [-> _]. rewrite Hi, Hf in Hm. cbn [negb andb] in Hm.
    destruct (existsb _ d.*1) eqn:Ex.
    + apply bind_Ok in Hm as (form & Hform & Hm). apply Ok_inj, negb_false_iff, bool_decide_eq_true in Hm. right. by exists form.
    + left. intros k Hk. destruct (decide (k = $"@id")) as [|Hne]; [done|]. exfalso. apply not_true_iff_false in Ex. apply Ex, existsb_exists.
      exists k. split; [by apply list_elem_of_In|]. by rewrite bool_decide_false.
  - apply bind_Ok in Hd as (found & Hf%mapR_Ok & Hd). apply Ok_inj in Hd. apply IH. apply list_elem_of_lookup in Hin as [j Hj].
    eapply Forall2_lookup_l in Hf as (b & Hb & Hfb); [|exact Hj]. destruct b; [|done]. exfalso. apply not_true_iff_false in Hd. apply Hd, existsb_exists.
    exists true. split; [apply list_elem_of_In; by eapply list_elem_of_lookup_2|done].
  - rewrite Hv in Hd. rewrite (proj2 (dmem_spec d0 ($"@list"))) in Hd by (apply list_elem_of_fmap; by exists ($"@list", v)).
    apply bind_Ok in Hd as (found & Hf%mapR_Ok & Hd). apply Ok_inj in Hd. apply IH. apply list_elem_of_lookup in Hin as [j Hj].
    eapply Forall2_lookup_l in Hf as (b & Hb & Hfb); [|exact Hj]. cbn [fst snd] in Hfb. rewrite bool_decide_true in Hfb by done.
    destruct b; [|done]. exfalso. apply not_true_iff_false in Hd. apply Hd, existsb_exists.
    exists true. split; [apply list_elem_of_In; by eapply list_elem_of_lookup_2|done].
  - rewrite Hv, Hl in Hd. apply bind_Ok in Hd as (moved & _ & Hd). apply bind_Ok in Hd as (found & Hf%mapR_Ok & Hd). apply Ok_inj in Hd.
    apply orb_false_iff in Hd as [_ Hd]. apply IH. apply list_elem_of_lookup in Hin as [j Hj].
    eapply Forall2_lookup_l in Hf as (b & Hb & Hfb); [|exact Hj]. cbn [fst snd] in Hfb. rewrite bool_decide_false in Hfb by done.
    destruct b; [|done]. exfalso. apply not_true_iff_false in Hd. apply Hd, existsb_exists.
    exists true. split; [apply list_elem_of_In; by eapply list_elem_of_lookup_2|done].
Qed.

(** The status entries are described where the status check reads them.  When a document
    validates, a node of its expansion outside the top-level [credentialStatus] with the [@id] of
    one of the entries there says nothing of it, or is an exact copy of such an entry. *)
Theorem status_entries_in_place is_space json_loads loader expand compact unsecured proof_config
    (H : validate_document is_space json_loads loader expand compact unsecured proof_config = Ok tt) :
  exists node, expand (JDict (validated_part unsecured)) = Ok (JList [JDict node]) /\
    forall e i d, status_entry (jget node CREDENTIAL_STATUS) e -> dget e ($"@id") = Some (JStr i) ->
      elsewhere true false (JDict node) d -> dget d ($"@id") = Some (JStr i) ->
      (forall k, k ∈ d.*1 -> k = $"@id") \/
      exists e' form, status_entry (jget node CREDENTIAL_STATUS) e' /\ dget e' ($"@id") = Some (JStr i) /\
        canonical (JDict e') = Ok form /\ canonical (JDict d) = Ok form.
Proof.
  apply validate_document_Ok in H as (_ & Hc & _). apply check_compacted_Ok in Hc as (node & [[He _] _] & Hs). exists node. split; [done|].
  unfold check_status_in_place in Hs. apply bind_Ok in Hs as (entries & (_ & Hin & Hfrom)%collect_status_entries_collects & Hs).
  intros e i d Hentry Hi Helse Hd. pose proof (Hin e i Hentry Hi) as Hmem. apply dmem_spec in Hmem. unfold dmem in Hmem.
  destruct (dget entries i) as [forms|] eqn:Ef; [|done]. case_bool_decide as Hempty; [by subst|].
  apply bind_Ok in Hs as ([] & Hm & Hr%raise_if_Ok); [done|].
  destruct (described_elsewhere_none entries (JDict node) d true false Hm Helse i forms Hd Ef) as [?|(form & Hform & Hf)]; [by left|]. right.
  destruct (Hfrom i forms Ef form Hf) as [Hx|(e' & He' & Hi' & Hc')]; [by apply elem_of_nil in Hx|]. by exists e', form.
Qed.

Lemma types_by_iri json_loads loader expand document expected :
  missing_types json_loads loader expand document expected = Ok [] ->
  exists index expanded, trusted_index json_loads loader = Ok index /\ expand (JDict (validated_part (ddel document ($"proof")))) = Ok expanded /\
    (expected <> [] -> exists node, expanded = JList [JDict node] /\
      forall name, name ∈ expected -> exists iri, iri ∈ trusted_iris name index /\
        (jget node ($"@type") = JStr iri \/ exists l, jget node ($"@type") = JList l /\ JStr iri ∈ l)).
Proof.
  intros H. unfold missing_types in H. apply bind_Ok in H as (expanded & He%catch_as_Ok & H). apply bind_Ok in H as (index & Hi & H). apply Ok_inj in H.
  exists index, expanded. split_and!; [done|done|]. intros Hne.
  assert (Hall : forall name, name ∈ expected -> exists iri, iri ∈ trusted_iris name index /\
    JStr iri ∈ match expanded with JList [JDict node] => match jget node ($"@type") with JList l => l | JNull => [] | v => [v] end | _ => [] end).
  { intros name Hin. destruct (decide (Forall (fun iri => JStr iri ∉ match expanded with JList [JDict node] =>
      match jget node ($"@type") with JList l => l | JNull => [] | v => [v] end | _ => [] end) (trusted_iris name index))) as [Hf|Hf].
    - exfalso. eapply (not_elem_of_nil name). rewrite <- H. by apply list_elem_of_filter.
    - apply not_Forall_Exists in Hf; [|apply _]. apply Exists_exists in Hf as (iri & Hiri & Hx). exists iri. split; [done|]. by apply dec_stable in Hx. }
  destruct expected as [|n0 expected]; [done|]. destruct (Hall n0 ltac:(by left)) as (iri0 & _ & H0).
  destruct expanded as [| | | | |[|[| | | | | |node|] [|]]| |]; try (by apply elem_of_nil in H0). exists node. split; [done|].
  intros name Hin. destruct (Hall name Hin) as (iri & Hiri & Hx). exists iri. split; [done|].
  destruct (jget node ($"@type")) as [| | | | |l| |]; try (by apply elem_of_nil in Hx); try (apply list_elem_of_singleton in Hx; congruence).
  - apply list_elem_of_singleton in Hx. left. congruence.
  - right. by exists l.
Qed.

(** Expected types are matched by IRI.  A name of the policy is found only when the top-level
    node of the expansion is typed with an IRI the name stands for under the contexts the
    verifier serves; nothing the document's [@context] says makes a name stand for another. *)
Theorem expected_types_by_iri json_loads loader expand document expected
    (H : missing_types json_loads loader expand document expected = Ok []) :
  exists index expanded, trusted_index json_loads loader = Ok index /\ expand (JDict (validated_part (ddel document ($"proof")))) = Ok expanded /\
    (expected <> [] -> exists node, expanded = JList [JDict node] /\
      forall name, name ∈ expected -> exists iri, iri ∈ trusted_iris name index /\
        (jget node ($"@type") = JStr iri \/ exists l, jget node ($"@type") = JList l /\ JStr iri ∈ l)).
Proof. by apply types_by_iri. Qed.

(** ** Examples *)

Definition example_terms : jobject :=
  [($"id", JStr ($"@id")); ($"type", JStr ($"@type")); ($"validUntil", JDict [($"@id", JStr (CRED ++ $"validUntil")); ($"@type", JStr ($"xsd:dateTime"))]);
   ($"DegreeCredential", JStr ($"https://x.example/v#DegreeCredential")); ($"issuer", JStr ($"https://www.w3.org/2018/credentials#issuer"))].
Definition example_loader : OfflineLoader := document_loader [(BASE_URL, JDict [($"@context", JDict example_terms)])] [].
(** A processor that wraps the document in a literal, and unwraps it. *)
Definition wrap (v : json) : result json := Ok (JList [JDict [($"https://x.example/doc", JList [JDict [($"@value", v)]])]]).
Definition unwrap (v _ : json) : result json :=
  match v with JList [JDict [(_, JList [JDict [(_, v)]])]] => Ok v | _ => Err ValueError end.
Definition example_space (c : Z) : bool := bool_decide (c ∈ [9; 10; 13; 32]).
Definition example_loads (_ : pystr) : result json := Err ValueError.
Definition example_validate : jobject -> jobject -> result unit :=
  validate_document example_space example_loads example_loader wrap unwrap.

Definition base_context : json := JStr BASE_URL.
Definition example_document : jobject := [($"@context", base_context); ($"validUntil", JStr ($"2020-01-01T00:00:00Z")); ($"issuer", JStr ($"did:x"))].
Definition example_config : jobject := [($"@context", base_context); ($"type", JStr ($"DataIntegrityProof"))].

(** The member under its term passes; under its IRI, or what a vocabulary leaves of it, it does not;
    nor does a member no served context defines a term for but the policy reads. *)
Example respelled_members :
  (fun d => example_validate d example_config) <$>
    [example_document;
     [($"@context", base_context); (CRED ++ $"validUntil", JStr ($"2020"))];
     [($"@context", JList [base_context; JDict [($"@vocab", JStr (CRED ++ $"valid"))]]); ($"Until", JStr ($"2020"))];
     [($"@context", base_context); (CRED ++ $"expirationDate", JStr ($"2020"))];
     [($"@context", JList [base_context; JDict [($"validUntil", JStr ($"https://x.example/other"))]]); ($"validUntil", JStr ($"2020"))];
     [($"@context", base_context); ($"issuer", JDict [($"https://x.example/v#DegreeCredential", JInt 1)])];
     [($"@context", JStr ($"https://other.example")); ($"validUntil", JStr ($"2020"))]] =
  [Ok tt; Err ProofMalformed; Err ProofMalformed; Err ProofMalformed; Err ProofMalformed; Err ProofMalformed; Err ProofMalformed].
Proof. by vm_compute. Qed.

(** The spellings one form of JSON-LD treats as one, and those it does not. *)
Example spellings_folded :
  canonical (JDict [($"a", JList [JStr ($"x")])]) = canonical (JDict [($"a", JStr ($"x"))]) /\
  canonical (JDict [($"a", JDict [($"id", JStr ($"x"))])]) = canonical (JDict [($"a", JStr ($"x"))]) /\
  canonical (JDict [($"a", JList [JList [JStr ($"x")]])]) <> canonical (JDict [($"a", JStr ($"x"))]) /\
  canonical (JDict [($"a", JInt 1)]) <> canonical (JDict [($"a", JBool true)]).
Proof. by vm_compute. Qed.

(** An IRI may end in a newline: [$] matches before it. *)
Example trailing_newline : rdf_iri example_space ($"https://x.example/" ++ [10]) = true /\
  rdf_iri example_space ($"https://x.example/ ") = false.
Proof. by vm_compute. Qed.

Lemma example_valid : validate_document example_space example_loads example_loader wrap unwrap example_document example_config = Ok tt.
Proof. by vm_compute. Qed.

Lemma policy_members_visible_witness : exists index, term_index example_loads example_loader base_context = Ok index /\
  stands_for index ($"validUntil") (CRED ++ $"validUntil").
Proof.
  destruct (policy_members_visible example_space example_loads example_loader wrap unwrap example_document example_config example_valid) as (node & context & d & index & He & Hctx & _ & Hi & _).
  exists index. assert (context = base_context) as -> by (clear -Hctx; vm_compute in Hctx; injection Hctx as <-; reflexivity). split; [exact Hi|].
  assert (Hidx : match term_index example_loads example_loader base_context with
                 | Ok i => bool_decide (CRED ++ $"validUntil" ∈ at_key (iris i) ($"validUntil")) | Err _ => false end = true) by (by vm_compute).
  rewrite Hi in Hidx. apply bool_decide_eq_true in Hidx. unfold stands_for. rewrite decide_False; [by left|].
  apply (bool_decide_unpack _). by vm_compute.
Defined.

Lemma served_terms_spelled_witness : exists index,
  term_index example_loads example_loader (jget (validated_part example_document) ($"@context")) = Ok index.
Proof.
  destruct (served_terms_spelled example_space example_loads example_loader wrap unwrap example_document example_config BASE_URL [($"@context", JDict example_terms)] example_terms ($"issuer") (CRED ++ $"issuer")
    example_valid) as (index & plain & Hi & _).
  - by vm_compute.
  - by left.
  - apply (bool_decide_unpack _). by vm_compute.
  - by vm_compute.
  - split_and!; [by vm_compute|apply (bool_decide_unpack _); by vm_compute|by vm_compute].
  - by exists index.
Defined.

Lemma status_entries_in_place_witness : exists node, wrap (JDict (validated_part example_document)) = Ok (JList [JDict node]).
Proof.
  destruct (status_entries_in_place example_space example_loads example_loader wrap unwrap example_document example_config example_valid) as (node & Hn & _). by exists node.
Defined.

Lemma expected_types_by_iri_witness : exists index, trusted_index example_loads example_loader = Ok index.
Proof.
  destruct (expected_types_by_iri example_loads example_loader
    (fun _ => Ok (JList [JDict [($"@type", JList [JStr ($"https://x.example/v#DegreeCredential")])]])) example_document [$"DegreeCredential"]) as (index & expanded & Hi & _).
  - by vm_compute.
  - by exists index.
Defined.
