(* ===== verification/DataIntegrity.v ===== *)
(** The whole-document Data Integrity suites: [openvc.proof.di_jcs]
    (src/src/openvc/proof/di_jcs.py), [data_integrity.py] and [di_ecdsa_rdfc.py].  Hash
    functions, curve arithmetic and pyld's [normalize] are parameters, and so is the JSON-LD
    context validation of the RDF suites, which [Verify] gives as [ContextValidation]'s; JCS, the
    keys and the policy checks are those of the modules modelled here. *)
From Stdlib Require Import SpecFloat.
From S2P Require Import Prelude Errors PyStr Utf8 Multibase Json Base64 PyNum Jcs VerifyCommon Did Keys.

Definition PROOF_TYPE : pystr := $"DataIntegrityProof".
Definition CRYPTOSUITE : pystr := $"eddsa-rdfc-2022".
Definition EDDSA_JCS_CRYPTOSUITE : pystr := $"eddsa-jcs-2022".
Definition ECDSA_JCS_CRYPTOSUITE : pystr := $"ecdsa-jcs-2019".
Definition ECDSA_RDFC_CRYPTOSUITE : pystr := $"ecdsa-rdfc-2019".
Definition ECDSA_ALGS : list pystr := [$"ES256"; $"ES384"].

Record VerifiedDataIntegrity := {
  di_credential : jobject; di_issuer : json; di_subject : json; di_proof : jobject; di_expired : bool }.

Definition unsecured (document : jobject) : jobject := ddel document ($"proof").

(** The digest [ALG_PROFILE] gives an algorithm. *)
Definition profile_hash (alg : pystr) : result pystr :=
  match dget ALG_PROFILE alg with Some (_, h) => Ok h | None => Err KeyError end.

(** [issuer.get("id") if isinstance(issuer, dict) else issuer]. *)
Definition issuer_of (secured : jobject) : json :=
  match jget secured ($"issuer") with JDict d => jget d ($"id") | i => i end.
Definition subject_of (secured : jobject) : json :=
  match jget secured ($"credentialSubject") with JDict d => jget d ($"id") | _ => JNull end.

(** What the caller expects of a proof. *)
Record expectations := {
  expected_proof_purpose : option pystr; expected_challenge : option pystr; expected_domain : option pystr }.

Section suites.
Context (hash : pystr -> bytes -> bytes).
Context (ed25519_verify : bytes -> bytes -> bytes -> option bool)
  (ecdsa_verify : pystr -> Z -> Z -> Z * Z -> bytes -> option bool)
  (mldsa_verify : pystr -> bytes -> bytes -> bytes -> result bool).
Context (decode_point : pystr -> bytes -> option (Z * Z)).
Context (is_space is_decimal : Z -> bool) (fromisoformat : pystr -> option (Z * option Z)).

(** [public_key_jwk or resolve_verification_key(...)]: an empty JWK is no key. *)
Definition proof_key (public_key_jwk : option jobject) (resolver : option DidResolver) (proof : jobject)
    : result jobject :=
  match public_key_jwk with
  | Some ((_ :: _) as jwk) => Ok jwk
  | _ => resolve_verification_key decode_point (jget proof ($"verificationMethod")) (jget proof ($"proofPurpose")) resolver
  end.

(** The checks after the signature, and the result. *)
Definition check_policy (secured proof : jobject) (expected : expectations) (instant : Z) (leeway : json)
    (check_temporal : bool) : result VerifiedDataIntegrity :=
  check_proof_purpose proof (expected_proof_purpose expected);;
  check_presentation_binding proof (expected_challenge expected) (expected_domain expected);;
  expired ← check_validity_window is_space is_decimal fromisoformat (unsecured secured) proof instant leeway check_temporal;
  Ok {| di_credential := secured; di_issuer := issuer_of secured; di_subject := subject_of secured;
        di_proof := proof; di_expired := expired |}.

(** The ECDSA and JCS suites hand the signature to [keys.verify_signature]. *)
Definition check_signature (alg : pystr) (jwk : jobject) (data signature : bytes) : result unit :=
  ok ← catch_as (fun e => isinstance e OpenvcError || isinstance e ValueError || isinstance e KeyError) SignatureInvalid
         (verify_signature ed25519_verify ecdsa_verify mldsa_verify alg (JDict jwk) data signature);
  raise_if (negb ok) SignatureInvalid.

(** ** The JCS suites *)
Section jcs.
Context (float_repr : spec_float -> pystr).

Definition jcs_hash_data (document proof_config : jobject) (hash_name : pystr) : result bytes :=
  catch_as (fun e => isinstance e JcsError || isinstance e RecursionError || isinstance e ValueError || isinstance e TypeError)
    ProofMalformed
    (c ← canonicalize float_repr (JDict proof_config);
     d ← canonicalize float_repr (JDict document);
     Ok (hash hash_name c ++ hash hash_name d)).

(** A suite is its cryptosuite name and the algorithms it allows. *)
Context (cryptosuite : pystr) (allowed_algs : list pystr).

Definition jcs_verify (secured : jobject) (public_key_jwk : option jobject) (resolver : option DidResolver)
    (expected : expectations) (instant : Z) (leeway : json) (check_temporal : bool) : result VerifiedDataIntegrity :=
  '(proof, proof_config, signature) ← prepare_di_proof secured PROOF_TYPE cryptosuite;
  jwk ← proof_key public_key_jwk resolver proof;
  alg ← match_alg jwk allowed_algs;
  hash_name ← profile_hash alg;
  data ← jcs_hash_data (unsecured secured) proof_config hash_name;
  check_signature alg jwk data signature;;
  check_policy secured proof expected instant leeway check_temporal.

(** [created] is the caller's instant as [utc_iso] writes it. *)
Definition unsigned_proof (created verification_method proof_purpose : pystr) (challenge domain : option pystr) : jobject :=
  [($"type", JStr PROOF_TYPE); ($"cryptosuite", JStr cryptosuite); ($"created", JStr created);
   ($"verificationMethod", JStr verification_method); ($"proofPurpose", JStr proof_purpose)]
  ++ match challenge with Some c => [($"challenge", JStr c)] | None => [] end
  ++ match domain with Some d => [($"domain", JStr d)] | None => [] end.

Definition jcs_add_proof {K} `{Signer K} (signing_key : K) (credential : jobject)
    (created : result pystr) (verification_method proof_purpose : pystr) (challenge domain : option pystr) : result jobject :=
  raise_if (negb (bool_decide (signer_alg signing_key ∈ allowed_algs))) UnsupportedCryptosuite;;
  raise_if (negb (dmem credential ($"@context"))) ProofMalformed;;
  raise_if (dmem credential ($"proof")) ProofMalformed;;
  created ← created;
  let proof := unsigned_proof created verification_method proof_purpose challenge domain in
  let proof_config := dset proof ($"@context") (jget credential ($"@context")) in
  hash_name ← profile_hash (signer_alg signing_key);
  data ← jcs_hash_data (unsecured credential) proof_config hash_name;
  signature ← signer_sign signing_key data;
  Ok (dset credential ($"proof") (JDict (dset proof ($"proofValue") (JStr (encode_multibase signature))))).
End jcs.

Definition eddsa_jcs_verify float_repr := jcs_verify float_repr EDDSA_JCS_CRYPTOSUITE [$"EdDSA"].
Definition ecdsa_jcs_verify float_repr := jcs_verify float_repr ECDSA_JCS_CRYPTOSUITE ECDSA_ALGS.

(** ** The RDF suites *)
Section rdf.
(** pyld's [normalize], to N-Quads, and [validate_document], each with the loader of the call. *)
Context (normalize : json -> result pystr) (validate_document : jobject -> jobject -> result unit).

(** [_canonize]: a refusal of the loader is raised as it is, any other failure is the suite's. *)
Definition canonize (document : jobject) : result bytes :=
  nquads ← catch_as (fun e => negb (isinstance e DocumentLoaderError)) DataIntegrityError (normalize (JDict document));
  utf8 nquads DataIntegrityError.

Definition rdf_hash_data (document proof_config : jobject) (hash_name : pystr) : result bytes :=
  c ← canonize proof_config;
  d ← canonize document;
  Ok (hash hash_name c ++ hash hash_name d).

Definition verify_ed25519 (jwk : jobject) (data signature : bytes) : result bool :=
  raise_if (negb (eq_str (jget jwk ($"kty")) ($"OKP")) || negb (eq_str (jget jwk ($"crv")) ($"Ed25519"))) ProofMalformed;;
  match jget jwk ($"x") with
  | JStr x =>
      raw ← catch_as (fun e => isinstance e ValueError || isinstance e TypeError) ProofMalformed (b64url_decode x);
      match ed25519_verify raw signature data with Some b => Ok b | None => Err ProofMalformed end
  | _ => Err ProofMalformed
  end.

Definition eddsa_rdfc_verify (secured : jobject) (public_key_jwk : option jobject) (resolver : option DidResolver)
    (expected : expectations) (instant : Z) (leeway : json) (check_temporal : bool) : result VerifiedDataIntegrity :=
  '(proof, proof_config, signature) ← prepare_di_proof secured PROOF_TYPE CRYPTOSUITE;
  data ← rdf_hash_data (unsecured secured) proof_config ($"sha256");
  jwk ← proof_key public_key_jwk resolver proof;
  ok ← verify_ed25519 jwk data signature;
  raise_if (negb ok) SignatureInvalid;;
  validate_document (unsecured secured) proof_config;;
  check_policy secured proof expected instant leeway check_temporal.

Definition ecdsa_rdfc_verify (secured : jobject) (public_key_jwk : option jobject) (resolver : option DidResolver)
    (expected : expectations) (instant : Z) (leeway : json) (check_temporal : bool) : result VerifiedDataIntegrity :=
  '(proof, proof_config, signature) ← prepare_di_proof secured PROOF_TYPE ECDSA_RDFC_CRYPTOSUITE;
  jwk ← proof_key public_key_jwk resolver proof;
  alg ← match_alg jwk ECDSA_ALGS;
  hash_name ← profile_hash alg;
  data ← rdf_hash_data (unsecured secured) proof_config hash_name;
  check_signature alg jwk data signature;;
  validate_document (unsecured secured) proof_config;;
  check_policy secured proof expected instant leeway check_temporal.

Definition rdfc_add_proof {K} `{Signer K} (cryptosuite : pystr) (allowed_algs : list pystr) (signing_key : K)
    (credential : jobject) (created : result pystr) (verification_method proof_purpose : pystr)
    (challenge domain : option pystr) : result jobject :=
  raise_if (negb (bool_decide (signer_alg signing_key ∈ allowed_algs))) UnsupportedCryptosuite;;
  raise_if (negb (dmem credential ($"@context"))) ProofMalformed;;
  raise_if (dmem credential ($"proof")) ProofMalformed;;
  created ← created;
  let proof := unsigned_proof cryptosuite created verification_method proof_purpose challenge domain in
  let proof_config := dset proof ($"@context") (jget credential ($"@context")) in
  hash_name ← profile_hash (signer_alg signing_key);
  data ← rdf_hash_data (unsecured credential) proof_config hash_name;
  validate_document (unsecured credential) proof_config;;
  signature ← signer_sign signing_key data;
  Ok (dset credential ($"proof") (JDict (dset proof ($"proofValue") (JStr (encode_multibase signature))))).

Definition eddsa_rdfc_add_proof {K} `{Signer K} (signing_key : K) := rdfc_add_proof CRYPTOSUITE [$"EdDSA"] signing_key.
Definition ecdsa_rdfc_add_proof {K} `{Signer K} (signing_key : K) := rdfc_add_proof ECDSA_RDFC_CRYPTOSUITE ECDSA_ALGS signing_key.
End rdf.
End suites.

(** * What an accepted proof covers *)

Lemma match_alg_Ok jwk allowed alg :
  match_alg jwk allowed = Ok alg ->
  alg ∈ allowed /\ exists kty crv h, dget ALG_PROFILE alg = Some (kty, crv, h) /\
    eq_str (jget jwk ($"kty")) kty = true /\ eq_str (jget jwk ($"crv")) crv = true.
Proof.
  unfold match_alg. assert (forall l, match_alg_in jwk l = Ok alg -> alg ∈ l /\ exists kty crv h,
    dget ALG_PROFILE alg = Some (kty, crv, h) /\ eq_str (jget jwk ($"kty")) kty = true /\ eq_str (jget jwk ($"crv")) crv = true) as Hl.
  { induction l as [|a l IH]; intros H; [done|]. cbn [match_alg_in] in H.
    destruct (dget ALG_PROFILE a) as [[[kty crv] h]|] eqn:E; [|done].
    destruct (eq_str _ kty && _) eqn:Eb.
    - injection H as ->. apply andb_true_iff in Eb as [? ?]. split; [left|]. by exists kty, crv, h.
    - destruct (IH H) as [? ?]. split; [by right|done]. }
  intros H. apply Hl in H as [Hin Hx]. split; [|done]. by rewrite elem_of_sort_by in Hin.
Qed.

Lemma prepare_di_proof_Ok secured pt cs proof config sig :
  prepare_di_proof secured pt cs = Ok (proof, config, sig) ->
  jget secured ($"proof") = JDict proof /\ eq_str (jget proof ($"type")) pt = true /\
  eq_str (jget proof ($"cryptosuite")) cs = true /\
  config = dset (ddel proof ($"proofValue")) ($"@context") (jget secured ($"@context")) /\
  exists pv, jget proof ($"proofValue") = JStr pv /\ decode_multibase pv = Ok sig.
Proof.
  unfold prepare_di_proof. intros H. apply bind_Ok in H as ([] & _ & H).
  destruct (jget secured ($"proof")) as [| | | | | |p|]; try done.
  apply bind_Ok in H as ([] & Ht%raise_if_Ok%negb_false_iff & H).
  apply bind_Ok in H as ([] & Hc%raise_if_Ok%negb_false_iff & H).
  destruct (jget p ($"proofValue")) as [| | | |pv| | |] eqn:Ep; try done.
  apply bind_Ok in H as (s & Hs%catch_as_Ok & [= <- <- <-]). repeat (split; [done|]). by exists pv.
Qed.

Lemma check_proof_purpose_Ok proof expected u :
  check_proof_purpose proof expected = Ok u ->
  forall p, expected = Some p -> jget proof ($"proofPurpose") = JStr p.
Proof.
  unfold check_proof_purpose. intros H p ->. apply raise_if_Ok, negb_false_iff in H.
  destruct (jget proof _); try done. cbn in H. by apply bool_decide_eq_true in H as ->.
Qed.

Lemma check_presentation_binding_Ok proof challenge domain u :
  check_presentation_binding proof challenge domain = Ok u ->
  (forall c, challenge = Some c -> jget proof ($"challenge") = JStr c) /\
  (forall d, domain = Some d -> jget proof ($"domain") = JStr d \/
     exists l, jget proof ($"domain") = JList l /\ JStr d ∈ l).
Proof.
  assert (forall v s, eq_str v s = true -> v = JStr s) as Hs.
  { intros v s Hv. destruct v; try done. cbn in Hv. by apply bool_decide_eq_true in Hv as ->. }
  unfold check_presentation_binding. intros H. apply bind_Ok in H as ([] & Hc%raise_if_Ok & Hd). split.
  - intros c ->. apply negb_false_iff in Hc. by apply Hs.
  - intros d ->. apply raise_if_Ok, negb_false_iff, orb_true_iff in Hd as [Hd|Hd]; [left; by apply Hs|right].
    destruct (jget proof ($"domain")) as [| | | | |l| |]; try done. exists l. split; [done|].
    apply existsb_exists in Hd as (v & Hv%list_elem_of_In & E). by apply Hs in E as ->.
Qed.

Section sound.
Context (hash : pystr -> bytes -> bytes).
Context (ed25519_verify : bytes -> bytes -> bytes -> option bool)
  (ecdsa_verify : pystr -> Z -> Z -> Z * Z -> bytes -> option bool)
  (mldsa_verify : pystr -> bytes -> bytes -> bytes -> result bool).
Context (decode_point : pystr -> bytes -> option (Z * Z)).
Context (is_space is_decimal : Z -> bool) (fromisoformat : pystr -> option (Z * option Z)).

(** What the policy checks establish about the proof and the document. *)
Definition policy_holds (secured proof : jobject) (expected : expectations) (instant : Z) (leeway : json)
    (check_temporal : bool) (r : VerifiedDataIntegrity) : Prop :=
  di_credential r = secured /\ di_proof r = proof /\
  (forall p, expected_proof_purpose expected = Some p -> jget proof ($"proofPurpose") = JStr p) /\
  (forall c, expected_challenge expected = Some c -> jget proof ($"challenge") = JStr c) /\
  (forall d, expected_domain expected = Some d -> jget proof ($"domain") = JStr d \/
     exists l, jget proof ($"domain") = JList l /\ JStr d ∈ l) /\
  check_validity_window is_space is_decimal fromisoformat (unsecured secured) proof instant leeway check_temporal
    = Ok (di_expired r) /\
  di_issuer r = issuer_of secured /\ di_subject r = subject_of secured /\
  in_window is_space is_decimal fromisoformat (unsecured secured) proof instant leeway check_temporal (di_expired r).

Lemma check_policy_Ok secured proof expected instant leeway ct r :
  check_policy is_space is_decimal fromisoformat secured proof expected instant leeway ct = Ok r ->
  policy_holds secured proof expected instant leeway ct r.
Proof using.
  unfold check_policy. intros H. apply bind_Ok in H as (u & Hp & H). apply bind_Ok in H as (u' & Hb & H).
  apply bind_Ok in H as (expired & Hw & [= <-]). pose proof (check_proof_purpose_Ok _ _ _ Hp).
  pose proof (check_presentation_binding_Ok _ _ _ _ Hb) as [? ?].
  pose proof (check_validity_window_Ok _ _ _ _ _ _ _ _ _ Hw). by do 7 (split; [done|]).
Qed.

(** The proof of [secured] and the bytes its signature covers. *)
Definition proof_of (secured : jobject) (cryptosuite : pystr) (proof config : jobject) (sig : bytes) : Prop :=
  jget secured ($"proof") = JDict proof /\ eq_str (jget proof ($"cryptosuite")) cryptosuite = true /\
  config = dset (ddel proof ($"proofValue")) ($"@context") (jget secured ($"@context")) /\
  exists pv, jget proof ($"proofValue") = JStr pv /\ decode_multibase pv = Ok sig.

Definition key_for_alg (jwk : jobject) (alg hash_name : pystr) : Prop :=
  exists kty crv, dget ALG_PROFILE alg = Some (kty, crv, hash_name) /\
    eq_str (jget jwk ($"kty")) kty = true /\ eq_str (jget jwk ($"crv")) crv = true.

Definition jcs_covered float_repr (secured config : jobject) (h : pystr) (data : bytes) : Prop :=
  exists c d, canonicalize float_repr (JDict config) = Ok c /\ canonicalize float_repr (JDict (unsecured secured)) = Ok d /\
    data = hash h c ++ hash h d.

(** What a verified document guarantees. *)
Definition jcs_guarantee (float_repr : spec_float -> pystr) (cryptosuite : pystr) (allowed : list pystr) (secured : jobject)
    (public_key : option jobject) (resolver : option DidResolver) (expected : expectations) (instant : Z) (leeway : json)
    (ct : bool) (r : VerifiedDataIntegrity) : Prop :=
  exists proof config sig jwk alg h data,
    proof_of secured cryptosuite proof config sig /\
    proof_key decode_point public_key resolver proof = Ok jwk /\
    alg ∈ allowed /\ key_for_alg jwk alg h /\
    jcs_covered float_repr secured config h data /\
    verify_signature ed25519_verify ecdsa_verify mldsa_verify alg (JDict jwk) data sig = Ok true /\
    policy_holds secured proof expected instant leeway ct r.

(** ** The RDF suites *)
Section rdf.
Context (normalize : json -> result pystr) (validate_document : jobject -> jobject -> result unit).

(** The canonical N-Quads of a document, in UTF-8. *)
Definition canonical_rdf (document : jobject) (b : bytes) : Prop :=
  exists nquads, normalize (JDict document) = Ok nquads /\ utf8_encode nquads = Ok b.

Definition rdf_covered (secured config : jobject) (h : pystr) (data : bytes) : Prop :=
  exists c d, canonical_rdf config c /\ canonical_rdf (unsecured secured) d /\ data = hash h c ++ hash h d.

Lemma rdf_hash_data_Ok secured config h data :
  rdf_hash_data hash normalize (unsecured secured) config h = Ok data -> rdf_covered secured config h data.
Proof using.
  unfold rdf_hash_data, canonize, utf8. intros H. apply bind_Ok in H as (c & (nc & Hnc%catch_as_Ok & Hc%catch_as_Ok)%bind_Ok & H).
  apply bind_Ok in H as (d & (nd & Hnd%catch_as_Ok & Hd%catch_as_Ok)%bind_Ok & [= <-]).
  exists c, d. split; [by exists nc|]. split; [by exists nd|done].
Qed.

(** The key is an Ed25519 key, and the signature verifies over the data under it. *)
Definition ed25519_signed (jwk : jobject) (data sig : bytes) : Prop :=
  eq_str (jget jwk ($"kty")) ($"OKP") = true /\ eq_str (jget jwk ($"crv")) ($"Ed25519") = true /\
  exists x raw, jget jwk ($"x") = JStr x /\ b64url_decode x = Ok raw /\ ed25519_verify raw sig data = Some true.

Lemma verify_ed25519_Ok jwk data sig : verify_ed25519 ed25519_verify jwk data sig = Ok true -> ed25519_signed jwk data sig.
Proof using.
  unfold verify_ed25519. intros ([] & Hk%raise_if_Ok & H)%bind_Ok. apply orb_false_iff in Hk as [Hk1%negb_false_iff Hk2%negb_false_iff].
  destruct (jget jwk ($"x")) as [| | | |x| | |] eqn:Ex; try done. apply bind_Ok in H as (raw & Hr%catch_as_Ok & H).
  destruct (ed25519_verify raw sig data) as [b|] eqn:Ev; [|done]. apply Ok_inj in H as ->.
  split; [done|]. split; [done|]. by exists x, raw.
Qed.

(** What a verified [eddsa-rdfc-2022] document guarantees. *)
Definition eddsa_rdfc_guarantee (secured : jobject) (public_key : option jobject) (resolver : option DidResolver)
    (expected : expectations) (instant : Z) (leeway : json) (ct : bool) (r : VerifiedDataIntegrity) : Prop :=
  exists proof config sig jwk data,
    proof_of secured CRYPTOSUITE proof config sig /\
    proof_key decode_point public_key resolver proof = Ok jwk /\
    rdf_covered secured config ($"sha256") data /\ ed25519_signed jwk data sig /\
    validate_document (unsecured secured) config = Ok tt /\
    policy_holds secured proof expected instant leeway ct r.

(** What a verified [ecdsa-rdfc-2019] document guarantees. *)
Definition ecdsa_rdfc_guarantee (secured : jobject) (public_key : option jobject) (resolver : option DidResolver)
    (expected : expectations) (instant : Z) (leeway : json) (ct : bool) (r : VerifiedDataIntegrity) : Prop :=
  exists proof config sig jwk alg h data,
    proof_of secured ECDSA_RDFC_CRYPTOSUITE proof config sig /\
    proof_key decode_point public_key resolver proof = Ok jwk /\
    alg ∈ ECDSA_ALGS /\ key_for_alg jwk alg h /\
    rdf_covered secured config h data /\
    verify_signature ed25519_verify ecdsa_verify mldsa_verify alg (JDict jwk) data sig = Ok true /\
    validate_document (unsecured secured) config = Ok tt /\
    policy_holds secured proof expected instant leeway ct r.

Lemma eddsa_rdfc_verify_guarantee secured public_key resolver expected instant leeway ct r :
  eddsa_rdfc_verify hash ed25519_verify decode_point is_space is_decimal fromisoformat normalize validate_document secured
    public_key resolver expected instant leeway ct = Ok r ->
  eddsa_rdfc_guarantee secured public_key resolver expected instant leeway ct r.
Proof using.
  unfold eddsa_rdfc_verify. intros ([[proof config] sig] & Hp & H)%bind_Ok.
  apply bind_Ok in H as (data & Hd%rdf_hash_data_Ok & H). apply bind_Ok in H as (jwk & Hk & H).
  apply bind_Ok in H as (ok & Hs & H). apply bind_Ok in H as ([] & Hok%raise_if_Ok%negb_false_iff & H). subst ok.
  apply bind_Ok in H as ([] & Hv & H%check_policy_Ok). apply verify_ed25519_Ok in Hs.
  apply prepare_di_proof_Ok in Hp as (P1 & _ & P2 & P3 & P4). by exists proof, config, sig, jwk, data.
Qed.

Lemma ecdsa_rdfc_verify_guarantee secured public_key resolver expected instant leeway ct r :
  ecdsa_rdfc_verify hash ed25519_verify ecdsa_verify mldsa_verify decode_point is_space is_decimal fromisoformat normalize
    validate_document secured public_key resolver expected instant leeway ct = Ok r ->
  ecdsa_rdfc_guarantee secured public_key resolver expected instant leeway ct r.
Proof using.
  unfold ecdsa_rdfc_verify. intros ([[proof config] sig] & Hp & H)%bind_Ok. apply bind_Ok in H as (jwk & Hk & H).
  apply bind_Ok in H as (alg & Ha & H). apply bind_Ok in H as (h & Hh & H).
  apply bind_Ok in H as (data & Hd%rdf_hash_data_Ok & H). apply bind_Ok in H as (u & Hs & H).
  apply bind_Ok in H as ([] & Hv & H%check_policy_Ok).
  apply prepare_di_proof_Ok in Hp as (P1 & _ & P2 & P3 & P4). apply match_alg_Ok in Ha as (Hin & kty & crv & h' & Hprof & Hkty & Hcrv).
  unfold profile_hash in Hh. rewrite Hprof in Hh. injection Hh as ->.
  unfold check_signature in Hs. apply bind_Ok in Hs as (ok & Hsig%catch_as_Ok & Hok%raise_if_Ok). apply negb_false_iff in Hok as ->.
  exists proof, config, sig, jwk, alg, h, data. split; [done|]. split; [done|]. split; [done|].
  split; [by exists kty, crv|done].
Qed.
End rdf.
End sound.

Lemma jcs_verify_guarantee hash ed25519_verify ecdsa_verify mldsa_verify decode_point is_space is_decimal
    fromisoformat float_repr cryptosuite allowed secured public_key resolver expected instant leeway ct r :
  jcs_verify hash ed25519_verify ecdsa_verify mldsa_verify decode_point is_space is_decimal fromisoformat
    float_repr cryptosuite allowed secured public_key resolver expected instant leeway ct = Ok r ->
  jcs_guarantee hash ed25519_verify ecdsa_verify mldsa_verify decode_point is_space is_decimal fromisoformat
    float_repr cryptosuite allowed secured public_key resolver expected instant leeway ct r.
Proof.
  unfold jcs_verify. intros H. apply bind_Ok in H as ([[proof config] sig] & Hp & H).
  apply bind_Ok in H as (jwk & Hk & H). apply bind_Ok in H as (alg & Ha & H). apply bind_Ok in H as (h & Hh & H).
  apply bind_Ok in H as (data & Hd & H). apply bind_Ok in H as (u & Hs & H). apply check_policy_Ok in H.
  apply prepare_di_proof_Ok in Hp as (P1 & _ & P2 & P3 & P4).
  apply match_alg_Ok in Ha as (Hin & kty & crv & h' & Hprof & Hkty & Hcrv).
  unfold profile_hash in Hh. rewrite Hprof in Hh. injection Hh as ->.
  apply catch_as_Ok in Hd. apply bind_Ok in Hd as (c & Hc & Hd). apply bind_Ok in Hd as (d & Hdoc & Hd).
  apply Ok_inj in Hd. unfold check_signature in Hs. apply bind_Ok in Hs as (ok & Hv%catch_as_Ok & Hok%raise_if_Ok).
  apply negb_false_iff in Hok as ->.
  exists proof, config, sig, jwk, alg, h, data. split; [done|]. split; [done|]. split; [done|].
  split; [by exists kty, crv|]. split; [by exists c, d|]. done.
Qed.

(** C15: What a verified JCS Data Integrity document guarantees.  The signature of its proof
    verifies, under an algorithm the suite allows and that is the one of the key's curve, over
    the digest of the canonical proof options (every member of the proof but [proofValue], and
    the document's [@context]) followed by the digest of the canonical document (every member
    but [proof]); the key is the caller's or the one the verification method resolves to; the
    purpose, challenge and domain are those expected, and the validity window was checked. *)
Theorem di_jcs_verify_sound hash ed25519_verify ecdsa_verify mldsa_verify decode_point is_space is_decimal
    fromisoformat float_repr cryptosuite allowed secured public_key resolver expected instant leeway ct r :
  jcs_verify hash ed25519_verify ecdsa_verify mldsa_verify decode_point is_space is_decimal fromisoformat
    float_repr cryptosuite allowed secured public_key resolver expected instant leeway ct = Ok r ->
  jcs_guarantee hash ed25519_verify ecdsa_verify mldsa_verify decode_point is_space is_decimal fromisoformat
    float_repr cryptosuite allowed secured public_key resolver expected instant leeway ct r.
Proof. apply jcs_verify_guarantee. Qed.

(** * Issuing and verifying *)

Lemma ddel_absent {V} (d : list (pystr * V)) k : k ∉ d.*1 -> ddel d k = d.
Proof.
  intros Hk. unfold ddel. induction d as [|[k' v] d IH]; [done|]. csimpl in Hk. apply not_elem_of_cons in Hk as [Hne Hk].
  rewrite filter_cons, decide_True by (cbn; congruence). by rewrite IH.
Qed.

Lemma ddel_dset_new {V} (d : list (pystr * V)) k v : k ∉ d.*1 -> ddel (dset d k v) k = d.
Proof.
  intros Hk. rewrite dset_new by done. unfold ddel. rewrite filter_app, filter_cons, decide_False by (cbn; tauto).
  rewrite filter_nil, app_nil_r. by apply ddel_absent.
Qed.

Lemma jget_dset d k v k' : jget (dset d k v) k' = if decide (k' = k) then v else jget d k'.
Proof. unfold jget. rewrite dget_dset. by destruct (decide (k' = k)). Qed.

Lemma dmem_false d k : dmem d k = false -> k ∉ (d : jobject).*1.
Proof. intros H Hin. apply dmem_spec in Hin. congruence. Qed.

(** The members of an unsigned proof. *)
Lemma unsigned_proof_members cs created vm purpose challenge domain :
  let p := unsigned_proof cs created vm purpose challenge domain in
  jget p ($"type") = JStr PROOF_TYPE /\ jget p ($"cryptosuite") = JStr cs /\ jget p ($"proofPurpose") = JStr purpose /\
  (forall c, challenge = Some c -> jget p ($"challenge") = JStr c) /\
  (forall d, domain = Some d -> jget p ($"domain") = JStr d) /\
  ($"proofValue" ∉ p.*1) /\ jget p ($"expires") = JNull /\ jget p ($"expirationDate") = JNull.
Proof.
  cbv zeta. destruct challenge, domain; (split_and!; [reflexivity..| | | |reflexivity|reflexivity]).
  all: try (intros ? [= <-]; reflexivity); try done; apply (bool_decide_unpack _); vm_compute; exact I.
Qed.

Lemma window_no_expiry is_space is_decimal fromisoformat document p1 p2 instant leeway ct :
  jget p1 ($"expires") = jget p2 ($"expires") -> jget p1 ($"expirationDate") = jget p2 ($"expirationDate") ->
  check_validity_window is_space is_decimal fromisoformat document p1 instant leeway ct =
  check_validity_window is_space is_decimal fromisoformat document p2 instant leeway ct.
Proof. intros E1 E2. unfold check_validity_window. cbn [bound]. by rewrite E1, E2. Qed.

(** Issuing and verifying agree.  What [add_proof] returns for any signer whose signatures
    verify under a key is accepted by [verify] with that key, for the purpose, challenge and
    domain it was issued with, at every instant inside the credential's own window, and comes
    back unchanged. *)
Theorem jcs_add_verify_roundtrip {K} `{Signer K} hash ed25519_verify ecdsa_verify mldsa_verify decode_point is_space
    is_decimal fromisoformat float_repr cryptosuite allowed (key : K) credential created vm purpose challenge domain
    secured jwk resolver instant leeway ct expired
    (Hadd : jcs_add_proof hash float_repr cryptosuite allowed key credential created vm purpose challenge domain = Ok secured)
    (Hjwk : jwk <> []) (Halg : match_alg jwk allowed = Ok (signer_alg key))
    (Hsign : forall m s, signer_sign key m = Ok s -> bytes_ok s /\ len (b58btc_encode s) <= MAX_B58_LEN /\
       verify_signature ed25519_verify ecdsa_verify mldsa_verify (signer_alg key) (JDict jwk) m s = Ok true)
    (Hdepth : nesting_exceeds (JDict secured) JSON_MAX_DEPTH = false)
    (Hwindow : check_validity_window is_space is_decimal fromisoformat credential [] instant leeway ct = Ok expired) :
  exists r, jcs_verify hash ed25519_verify ecdsa_verify mldsa_verify decode_point is_space is_decimal fromisoformat
    float_repr cryptosuite allowed secured (Some jwk) resolver
    {| expected_proof_purpose := Some purpose; expected_challenge := challenge; expected_domain := domain |}
    instant leeway ct = Ok r /\ di_credential r = secured /\ unsecured (di_credential r) = credential /\ di_expired r = expired.
Proof.
  unfold jcs_add_proof in Hadd. apply bind_Ok in Hadd as ([] & _ & Hadd). apply bind_Ok in Hadd as ([] & Hctx & Hadd).
  apply bind_Ok in Hadd as ([] & Hno%raise_if_Ok%dmem_false & Hadd). apply bind_Ok in Hadd as (at_ & _ & Hadd).
  apply bind_Ok in Hadd as (h & Hh & Hadd). apply bind_Ok in Hadd as (data & Hdata & Hadd).
  apply bind_Ok in Hadd as (sig & Hsig & Hadd). apply Ok_inj in Hadd as <-.
  destruct (Hsign _ _ Hsig) as (Hbytes & Hlen & Hverify).
  destruct (unsigned_proof_members cryptosuite at_ vm purpose challenge domain)
    as (Mt & Mc & Mp & Mch & Md & Mv & Me & Me').
  set (p := unsigned_proof cryptosuite at_ vm purpose challenge domain) in *.
  set (pv := JStr (encode_multibase sig)) in *.
  assert (forall k, k <> $"proofValue" -> jget (dset p ($"proofValue") pv) k = jget p k) as Hp.
  { intros k Hk. rewrite jget_dset. by rewrite decide_False. }
  set (secured := dset credential ($"proof") (JDict (dset p ($"proofValue") pv))) in *.
  assert (unsecured secured = credential) as Hun by by apply ddel_dset_new.
  assert (unsecured credential = credential) as Hun' by by apply ddel_absent.
  assert (prepare_di_proof secured PROOF_TYPE cryptosuite =
    Ok (dset p ($"proofValue") pv, dset p ($"@context") (jget credential ($"@context")), sig)) as Hprep.
  { unfold prepare_di_proof. rewrite Hdepth. cbn [raise_if mbind result_bind].
    replace (jget secured ($"proof")) with (JDict (dset p ($"proofValue") pv)) by (unfold secured; by rewrite jget_dset, decide_True).
    rewrite (Hp ($"type")), (Hp ($"cryptosuite")) by (apply (bool_decide_unpack _); vm_compute; exact I). rewrite Mt, Mc. cbn [eq_str].
    rewrite !bool_decide_eq_true_2 by done. cbn [negb raise_if mbind result_bind].
    rewrite jget_dset, decide_True by done. unfold pv at 1. rewrite decode_encode_multibase by done.
    cbn [catch_as mbind result_bind]. rewrite ddel_dset_new by done. unfold secured. rewrite jget_dset.
    by rewrite decide_False by (apply (bool_decide_unpack _); vm_compute; exact I). }
  exists {| di_credential := secured; di_issuer := issuer_of secured; di_subject := subject_of secured;
            di_proof := dset p ($"proofValue") pv; di_expired := expired |}.
  split; [|split; [reflexivity|split; [exact Hun|reflexivity]]].
  unfold jcs_verify. rewrite Hprep. cbn [mbind result_bind]. unfold proof_key. destruct jwk as [|m jwk]; [done|].
  cbn [mbind result_bind]. rewrite Halg. cbn [mbind result_bind]. rewrite Hh. cbn [mbind result_bind].
  rewrite Hun. rewrite Hun' in Hdata. rewrite Hdata. cbn [mbind result_bind]. unfold check_signature. rewrite Hverify.
  cbn [catch_as negb raise_if mbind result_bind]. unfold check_policy, check_proof_purpose.
  cbn [expected_proof_purpose expected_challenge expected_domain].
  rewrite Hp, Mp by (apply (bool_decide_unpack _); vm_compute; exact I). cbn [eq_str].
  rewrite bool_decide_eq_true_2 by done. cbn [negb raise_if mbind result_bind].
  assert (check_presentation_binding (dset p ($"proofValue") pv) challenge domain = Ok ()) as ->.
  { unfold check_presentation_binding. rewrite !Hp by (apply (bool_decide_unpack _); vm_compute; exact I).
    destruct challenge as [c|]; [rewrite (Mch c eq_refl); cbn [eq_str]; rewrite bool_decide_eq_true_2 by done|];
      (destruct domain as [d|]; [rewrite (Md d eq_refl); cbn [eq_str]; rewrite bool_decide_eq_true_2 by done|]); done. }
  cbn [mbind result_bind]. rewrite Hun.
  rewrite (window_no_expiry _ _ _ _ _ []).
  2, 3: rewrite Hp, ?Me, ?Me' by (apply (bool_decide_unpack _); vm_compute; exact I); done.
  rewrite Hwindow. reflexivity.
Qed.

(** * Examples *)

Definition di_key : SigningKey := Ed25519SigningKey ($"EdDSA") [] (repeat 7 32) (fun _ => [1]).
Definition di_ed25519 (raw sig data : bytes) : option bool := Some (bool_decide (raw = repeat 7 32 /\ sig = [1])).
Definition di_credential_ex : jobject :=
  [($"@context", JList [JStr ($"https://www.w3.org/ns/credentials/v2")]); ($"issuer", JDict [($"id", JStr ($"did:x"))]);
   ($"credentialSubject", JDict [($"id", JStr ($"did:y"))])].
Definition di_expected : expectations :=
  {| expected_proof_purpose := Some ($"authentication"); expected_challenge := Some ($"c1"); expected_domain := Some ($"v.example") |}.

Definition di_secured_ex : result jobject :=
  jcs_add_proof (fun _ b => b) (fun _ => []) EDDSA_JCS_CRYPTOSUITE [$"EdDSA"] di_key di_credential_ex
    (Ok ($"2026-01-01T00:00:00Z")) ($"did:x#k") ($"authentication") (Some ($"c1")) (Some ($"v.example")).
Definition di_example : jobject := match di_secured_ex with Ok s => s | Err _ => [] end.

Abbreviation di_example_verify := (jcs_verify (fun _ b => b) di_ed25519 (fun _ _ _ _ _ => None) (fun _ _ _ _ => Ok false)
    (fun _ _ => None) (fun _ => false) (fun _ => false) (fun _ => None) (fun _ => []) EDDSA_JCS_CRYPTOSUITE [$"EdDSA"]
    di_example (Some (okp_jwk (repeat 7 32))) None di_expected 0 (JInt 60) true).

Lemma di_example_ok : exists r, di_example_verify = Ok r.
Proof.
  assert (is_ok di_example_verify = true) as H by (vm_compute; reflexivity).
  destruct di_example_verify as [r|]; [by exists r|discriminate H].
Qed.

Lemma di_jcs_verify_sound_witness :
  exists r, di_example_verify = Ok r /\ di_credential r = di_example /\
    jget di_example ($"proof") = JDict (di_proof r) /\ jget (di_proof r) ($"challenge") = JStr ($"c1").
Proof.
  destruct di_example_ok as [r H]. exists r. split; [exact H|].
  apply di_jcs_verify_sound in H as (p & config & sig & jwk & alg & h & data & Hp & _ & _ & _ & _ & _ & Hpol).
  destruct Hpol as (Hc & Hpr & _ & Hch & _). destruct Hp as (Hproof & _). rewrite Hpr.
  split; [exact Hc|]. split; [exact Hproof|]. apply Hch. reflexivity.
Defined.

Lemma di_secured_ok : di_secured_ex = Ok di_example.
Proof. vm_compute. reflexivity. Qed.

Lemma di_key_signs m s : signer_sign di_key m = Ok s ->
  bytes_ok s /\ len (b58btc_encode s) <= MAX_B58_LEN /\
  verify_signature di_ed25519 (fun _ _ _ _ _ => None) (fun _ _ _ _ => Ok false) (signer_alg di_key)
    (JDict (okp_jwk (repeat 7 32))) m s = Ok true.
Proof.
  cbn. intros [= <-]. split; [by apply (bool_decide_unpack _)|]. split; [vm_compute; discriminate|vm_compute; reflexivity].
Qed.

Lemma jcs_add_verify_roundtrip_witness :
  exists r, di_example_verify = Ok r /\ di_credential r = di_example /\ unsecured (di_credential r) = di_credential_ex /\
    di_expired r = false.
Proof.
  apply (jcs_add_verify_roundtrip (fun _ b => b) di_ed25519 (fun _ _ _ _ _ => None) (fun _ _ _ _ => Ok false)
    (fun _ _ => None) (fun _ => false) (fun _ => false) (fun _ => None) (fun _ => []) EDDSA_JCS_CRYPTOSUITE [$"EdDSA"]
    di_key di_credential_ex (Ok ($"2026-01-01T00:00:00Z")) ($"did:x#k") ($"authentication") (Some ($"c1"))
    (Some ($"v.example")) di_example (okp_jwk (repeat 7 32)) None 0 (JInt 60) true false).
  - exact di_secured_ok.
  - discriminate.
  - vm_compute. reflexivity.
  - exact di_key_signs.
  - vm_compute. reflexivity.
  - vm_compute. reflexivity.
Defined.
