(* ===== verification/JwtVcIssuer.v ===== *)
(** [openvc.jwt_vc_issuer] (src/src/openvc/jwt_vc_issuer.py): the key of an issuer named by an
    https URL, from its published metadata.  [urllib.parse] and the fetch are parameters. *)
From S2P Require Import Prelude Errors PyStr Json PyNum VerifyCommon Did.

Definition WELL_KNOWN : pystr := $"/.well-known/jwt-vc-issuer".
Definition DOT_SEGMENTS : list pystr := [$"."; $".."; $"%2e"; $".%2e"; $"%2e."; $"%2e%2e"].

(** What [urlparse] gives: [None] where the attribute is [None]. *)
Record ParseResult := {
  scheme : pystr; netloc : pystr; path : pystr; hostname : option pystr; port : option Z; has_userinfo : bool }.

Definition raw_url_disagreement (value : pystr) : bool :=
  negb (isascii value) || bool_decide (92 ∈ value) || existsb (fun c => (c =? 59) || (c =? 63) || (c =? 35)) value.

Section urls.
(** [urlparse] and its lazy [hostname] and [port], which raise [ValueError]; [urlunparse];
    [str.lower]; the fetch. *)
Context (urlparse : pystr -> result ParseResult) (urlunparse_https : pystr -> pystr -> pystr).
Context (lower : pystr -> pystr).

Definition parsed_url_disagreement (parsed : ParseResult) : bool :=
  bool_decide (37 ∈ netloc parsed) || bool_decide (port parsed = Some 0)
  || existsb (fun segment => bool_decide (lower segment ∈ DOT_SEGMENTS)) (split_on 47 (path parsed)).

Definition parse_https_issuer (iss : json) : result ParseResult :=
  match iss with
  | JStr iss =>
      raise_if (existsb (fun c => (c <? 33) || (c =? 127)) iss) JwtVcIssuerError;;
      raise_if (raw_url_disagreement iss) JwtVcIssuerError;;
      parsed ← catch_as (fun e => isinstance e ValueError) JwtVcIssuerError (urlparse iss);
      raise_if (negb (bool_decide (scheme parsed = $"https"))) JwtVcIssuerError;;
      raise_if (match hostname parsed with
                | Some h => forallb (fun c => c =? 46) h
                | None => true
                end) JwtVcIssuerError;;
      raise_if (has_userinfo parsed) JwtVcIssuerError;;
      raise_if (parsed_url_disagreement parsed) JwtVcIssuerError;;
      Ok parsed
  | _ => Err JwtVcIssuerError
  end.

Definition jwt_vc_issuer_metadata_url (iss : pystr) : result pystr :=
  parsed ← parse_https_issuer (JStr iss);
  let p := if bool_decide (path parsed = $"/") then [] else path parsed in
  Ok (urlunparse_https (netloc parsed) (WELL_KNOWN ++ p)).

Definition public_keys (keys : list json) : list jobject :=
  omap (fun k => match k with JDict d => if dmem d ($"d") then None else Some d | _ => None end) keys.

(** A [kid] header, as the lookups take it. *)
Definition kid_value (kid : option pystr) : json := match kid with Some k => JStr k | None => JNull end.

(** [kid] is whatever the header holds. *)
Definition select_key (keys : list json) (kid : json) : result jobject :=
  match public_keys keys with
  | [] => Err JwtVcIssuerError
  | candidates =>
      if is_none kid then match candidates with [key] => Ok key | _ => Err JwtVcIssuerError end
      else match List.find (fun key => py_eq (jget key ($"kid")) kid) candidates with
           | Some key => Ok key
           | None => Err JwtVcIssuerError
           end
  end.

(** The inline JWK Set, or the URI of one. *)
Definition inline_jwks_or_uri (metadata : json) (iss : pystr) : result (json + pystr) :=
  match metadata with
  | JDict m =>
      raise_if (nesting_exceeds metadata JSON_MAX_DEPTH) JwtVcIssuerError;;
      raise_if (negb (eq_str (jget m ($"issuer")) iss)) JwtVcIssuerError;;
      match jget m ($"jwks") with
      | JNull => match jget m ($"jwks_uri") with JStr uri => Ok (inr uri) | _ => Err JwtVcIssuerError end
      | jwks => Ok (inl jwks)
      end
  | _ => Err JwtVcIssuerError
  end.

Definition key_from_jwks (jwks kid : json) : result jobject :=
  raise_if (nesting_exceeds jwks JSON_MAX_DEPTH) JwtVcIssuerError;;
  match jwks with
  | JDict d => match jget d ($"keys") with
               | JList ((_ :: _) as keys) => select_key keys kid
               | _ => Err JwtVcIssuerError
               end
  | _ => Err JwtVcIssuerError
  end.

Definition resolve_jwt_vc_issuer_key (fetch : pystr -> result json) (iss : pystr) (kid : json) : result jobject :=
  url ← jwt_vc_issuer_metadata_url iss;
  metadata ← fetch url;
  found ← inline_jwks_or_uri metadata iss;
  jwks ← match found with inl jwks => Ok jwks | inr uri => fetch uri end;
  key_from_jwks jwks kid.
End urls.

Lemma select_key_Ok keys kid key :
  select_key keys kid = Ok key ->
  JDict key ∈ keys /\ dmem key ($"d") = false /\ (forall k, kid = JStr k -> jget key ($"kid") = JStr k) /\
  (kid = JNull -> public_keys keys = [key]).
Proof.
  assert (forall k, k ∈ public_keys keys -> JDict k ∈ keys /\ dmem k ($"d") = false) as Hpub.
  { intros k Hk. apply list_elem_of_omap in Hk as (v & Hv & Hd). destruct v; try done.
    destruct (dmem d ($"d")) eqn:E; [done|]. by injection Hd as ->. }
  unfold select_key. intros H. destruct (public_keys keys) as [|c cs] eqn:E; [done|].
  destruct (is_none kid) eqn:En.
  - destruct kid; try done. destruct cs; [|done]. injection H as ->.
    destruct (Hpub key) as [? ?]; [left|]. repeat (split; [done|]). done.
  - destruct (List.find _ _) as [key'|] eqn:Ef; [|done]. injection H as ->.
    apply find_some in Ef as [Hin%list_elem_of_In Hk]. destruct (Hpub _ Hin) as [? ?].
    split; [done|]. split; [done|]. split; [|by intros ->]. intros k ->. rewrite py_eq_str in Hk. by apply eq_str_true.
Qed.

(** The key of an https issuer.  The key returned is a public key of a JWK Set that the
    metadata fetched from the issuer's own well-known URL, and naming that same issuer, holds
    inline or points to; it is the one with the token's [kid], or, for a token without one,
    the only public key of the set. *)
Theorem jwt_vc_issuer_key_sound urlparse urlunparse_https lower fetch iss kid key :
  resolve_jwt_vc_issuer_key urlparse urlunparse_https lower fetch iss kid = Ok key ->
  exists url metadata jwks keys,
    jwt_vc_issuer_metadata_url urlparse urlunparse_https lower iss = Ok url /\ fetch url = Ok (JDict metadata) /\
    jget metadata ($"issuer") = JStr iss /\
    (jget metadata ($"jwks") = jwks \/ exists uri, jget metadata ($"jwks_uri") = JStr uri /\ fetch uri = Ok jwks) /\
    (exists d, jwks = JDict d /\ jget d ($"keys") = JList keys) /\
    JDict key ∈ keys /\ dmem key ($"d") = false /\ (forall k, kid = JStr k -> jget key ($"kid") = JStr k) /\
    (kid = JNull -> public_keys keys = [key]).
Proof.
  unfold resolve_jwt_vc_issuer_key. intros H. apply bind_Ok in H as (url & Hurl & H).
  apply bind_Ok in H as (metadata & Hm & H). apply bind_Ok in H as (found & Hf & H). apply bind_Ok in H as (jwks & Hj & H).
  unfold inline_jwks_or_uri in Hf. destruct metadata as [| | | | | |m|]; try done.
  apply bind_Ok in Hf as ([] & _ & Hf). apply bind_Ok in Hf as ([] & Hiss%raise_if_Ok%negb_false_iff & Hf).
  assert (jget m ($"issuer") = JStr iss) as Hi.
  { destruct (jget m ($"issuer")); try done. cbn in Hiss. by apply bool_decide_eq_true in Hiss as ->. }
  unfold key_from_jwks in H. apply bind_Ok in H as ([] & _ & H). destruct jwks as [| | | | | |d|]; try done.
  destruct (jget d ($"keys")) as [| | | | |[|k ks]| |] eqn:Ek; try done. apply select_key_Ok in H.
  exists url, m, (JDict d), (k :: ks). split; [done|]. split; [done|]. split; [done|]. split.
  - destruct (jget m ($"jwks")) as [| | | | | |d'|] eqn:Ejw; try (left; injection Hf as <-; congruence).
    right. destruct (jget m ($"jwks_uri")) as [| | | |uri| | |] eqn:Eu; try done. injection Hf as <-. by exists uri.
  - split; [by exists d|]. done.
Qed.

Definition issuer_url (iss : pystr) : result ParseResult :=
  Ok {| scheme := $"https"; netloc := $"i.example"; path := []; hostname := Some ($"i.example"); port := None; has_userinfo := false |}.
Definition issuer_fetch (url : pystr) : result json :=
  Ok (JDict [($"issuer", JStr ($"https://i.example"));
             ($"jwks", JDict [($"keys", JList [JDict [($"kid", JStr ($"a")); ($"d", JStr ($"x"))]; JDict [($"kid", JStr ($"b"))]])])]).

Lemma jwt_vc_issuer_key_sound_witness :
  exists url metadata jwks keys,
    jwt_vc_issuer_metadata_url issuer_url (fun h p => $"https://" ++ h ++ p) (fun s => s) ($"https://i.example") = Ok url /\
    issuer_fetch url = Ok (JDict metadata) /\ jget metadata ($"issuer") = JStr ($"https://i.example") /\
    (jget metadata ($"jwks") = jwks \/ exists uri, jget metadata ($"jwks_uri") = JStr uri /\ issuer_fetch uri = Ok jwks) /\
    (exists d, jwks = JDict d /\ jget d ($"keys") = JList keys) /\
    JDict [($"kid", JStr ($"b"))] ∈ keys /\ dmem ([($"kid", JStr ($"b"))] : jobject) ($"d") = false /\
    (forall k, JNull = JStr k -> jget [($"kid", JStr ($"b"))] ($"kid") = JStr k) /\
    (JNull = JNull -> public_keys keys = [[($"kid", JStr ($"b"))]]).
Proof. apply (jwt_vc_issuer_key_sound issuer_url (fun h p => $"https://" ++ h ++ p) (fun s => s) issuer_fetch). vm_compute. reflexivity. Defined.
