(* ===== verification/X5c.v ===== *)
(** [openvc.x5c] (src/src/openvc/x5c.py): keys from X.509 chains, for the JOSE [x5c] header and
    for an mdoc's [x5chain].

    Certificates, their parsing and the path validation are the [cryptography] library's: one
    record, [x509_library].  An instant is in microseconds. *)
From S2P Require Import Prelude Errors Json Base64 Schema Did Keys JwtVcIssuer.

(** * The library *)

(** A certificate's public key: EC keys by curve name and affine point, Ed25519 keys by their
    raw bytes. *)
Inductive cert_key := EcKey (curve : pystr) (x y : Z) | Ed25519Key (raw : bytes) | OtherKey.

(** [san]: the URIs and the DNS names of the subjectAltName, [None] when it is absent.
    [verify_path]: anchors, time, leaf, intermediates. *)
Record x509_library := {
  cert : Type;
  load_der : bytes -> option cert;
  san : cert -> result (option (list pystr * list pystr));
  extended_key_usage : cert -> result (option (list pystr));
  public_key : cert -> cert_key;
  not_valid_before : cert -> Z;
  not_valid_after : cert -> Z;
  verify_path : list cert -> Z -> cert -> list cert -> bool }.

Section x5c.
Context (L : x509_library).
Context (urlparse : pystr -> result ParseResult) (lower : pystr -> pystr).

Definition load_x5c_chain (x5c : json) : result (list (cert L)) :=
  match x5c with
  | JList ((_ :: _) as entries) =>
      mapR (fun entry => match entry with
                         | JStr s =>
                             der ← catch_as (fun e => isinstance e PyException) X5cError (b64decode s);
                             match load_der L der with Some c => Ok c | None => Err X5cError end
                         | _ => Err X5cError
                         end) entries
  | _ => Err X5cError
  end.

Definition load_der_chain (x5chain : list bytes) : result (list (cert L)) :=
  raise_if (bool_decide (x5chain = [])) X5cError;;
  mapR (fun der => match load_der L der with Some c => Ok c | None => Err X5cError end) x5chain.

(** The host a dNSName may bind: that of a clean https issuer. *)
Definition bindable_host (iss : pystr) : result (option pystr) :=
  match parse_https_issuer urlparse lower (JStr iss) with
  | Ok parsed => Ok (hostname parsed)
  | Err e => if isinstance e JwtVcIssuerError then Ok None else Err e
  end.

Definition check_issuer_binding (leaf : cert L) (iss : pystr) : result unit :=
  found ← san L leaf;
  match found with
  | None => Err X5cError
  | Some (uris, names) =>
      if bool_decide (iss ∈ uris) then Ok tt
      else
        host ← bindable_host iss;
        match host with
        | Some ((_ :: _) as h) => raise_if (negb (bool_decide (h ∈ names))) X5cError
        | _ => Err X5cError
        end
  end.

Definition leaf_p256_jwk (leaf : cert L) : result jobject :=
  match public_key L leaf with
  | EcKey curve x y =>
      raise_if (negb (bool_decide (curve = $"secp256r1"))) X5cError;;
      bx ← int_to_fixed x 32; by_ ← int_to_fixed y 32; Ok (ec_jwk ($"P-256") bx by_)
  | _ => Err X5cError
  end.

Definition leaf_public_jwk (leaf : cert L) : result jobject :=
  match public_key L leaf with
  | EcKey curve x y =>
      '(name, size) ← (if bool_decide (curve = $"secp256r1") then Ok ($"P-256", 32%nat)
                       else if bool_decide (curve = $"secp384r1") then Ok ($"P-384", 48%nat) else Err X5cError);
      bx ← int_to_fixed x size; by_ ← int_to_fixed y size; Ok (ec_jwk name bx by_)
  | Ed25519Key raw => Ok (okp_jwk raw)
  | OtherKey => Err X5cError
  end.

(** [now] has been read by [utc_instant]. *)
Definition validate_cert_chain (chain : list (cert L)) (trust_anchors : list (cert L)) (now : Z) : result (cert L) :=
  match chain with
  | leaf :: intermediates =>
      raise_if (match trust_anchors with [] => true | _ => false end) X5cError;;
      raise_if (negb (verify_path L trust_anchors now leaf intermediates)) X5cError;;
      Ok leaf
  | [] => Err IndexError
  end.

Definition resolve_x5c_key (trust_anchors : list (cert L)) (now : Z) (x5c : json) (iss : pystr) : result jobject :=
  chain ← load_x5c_chain x5c;
  leaf ← validate_cert_chain chain trust_anchors now;
  check_issuer_binding leaf iss;;
  leaf_p256_jwk leaf.

(** ** The mdoc document signer *)

Definition MDOC_DS_EKU_OID : pystr := $"1.0.18013.5.1.2".

Definition require_mdoc_ds_eku (leaf : cert L) : result unit :=
  eku ← extended_key_usage L leaf;
  match eku with
  | None => Err X5cError
  | Some oids => raise_if (negb (bool_decide (MDOC_DS_EKU_OID ∈ oids))) X5cError
  end.

Definition check_mdoc_signed_within_ds_validity (x5chain : list bytes) (signed : Z) : result unit :=
  chain ← load_der_chain x5chain;
  match chain with
  | leaf :: _ => raise_if (negb ((not_valid_before L leaf <=? signed) && (signed <=? not_valid_after L leaf))) X5cError
  | [] => Err IndexError
  end.

Definition resolve_mdoc_signer_key (x5chain : list bytes) (trust_anchors : list (cert L)) (now : Z) : result jobject :=
  chain ← load_der_chain x5chain;
  leaf ← validate_cert_chain chain trust_anchors now;
  require_mdoc_ds_eku leaf;;
  leaf_public_jwk leaf.

(** * What a resolved key guarantees *)

(** A chain of parsed certificates that validates to an anchor. *)
Definition anchored (trust_anchors : list (cert L)) (now : Z) (leaf : cert L) (intermediates : list (cert L)) : Prop :=
  trust_anchors <> [] /\ verify_path L trust_anchors now leaf intermediates = true.

Lemma validate_cert_chain_Ok chain trust_anchors now leaf :
  validate_cert_chain chain trust_anchors now = Ok leaf ->
  exists intermediates, chain = leaf :: intermediates /\ anchored trust_anchors now leaf intermediates.
Proof using.
  unfold validate_cert_chain. destruct chain as [|c cs]; [done|]. intros H.
  apply bind_Ok in H as (u & H1%raise_if_Ok & H). apply bind_Ok in H as (u' & H2%raise_if_Ok%negb_false_iff & H).
  apply Ok_inj in H as ->. exists cs. split; [done|]. split; [|done]. by destruct trust_anchors.
Qed.

(** The issuer's name in the leaf: the URI itself, or the host of a clean https issuer. *)
Definition names_issuer (leaf : cert L) (iss : pystr) : Prop :=
  exists uris names, san L leaf = Ok (Some (uris, names)) /\
    (iss ∈ uris \/ exists parsed h, parse_https_issuer urlparse lower (JStr iss) = Ok parsed /\
       hostname parsed = Some h /\ h <> [] /\ h ∈ names).

Lemma check_issuer_binding_Ok leaf iss u : check_issuer_binding leaf iss = Ok u -> names_issuer leaf iss.
Proof using.
  unfold check_issuer_binding. intros H. apply bind_Ok in H as (found & Hs & H).
  destruct found as [[uris names]|]; [|done]. exists uris, names. split; [done|]. case_bool_decide; [by left|right].
  apply bind_Ok in H as (host & Hh & H). destruct host as [[|c h]|]; try done.
  apply raise_if_Ok, negb_false_iff, bool_decide_eq_true in H. unfold bindable_host in Hh.
  destruct (parse_https_issuer _ _ _) as [parsed|e]; [|by destruct (isinstance e _)].
  apply Ok_inj in Hh. by exists parsed, (c :: h).
Qed.
End x5c.

(** A key from an [x5c] header.  When [resolve_x5c_key] returns, every entry of the header
    parsed as a certificate, the chain validates at the given instant to one of the caller's
    anchors, the leaf's subjectAltName names the issuer (its URI, or the host of an
    unambiguous https issuer), and the JWK is the leaf's own P-256 key. *)
Theorem x5c_key_sound L urlparse lower trust_anchors now x5c iss jwk
    (H : resolve_x5c_key L urlparse lower trust_anchors now x5c iss = Ok jwk) :
  exists leaf intermediates x y bx by_,
    load_x5c_chain L x5c = Ok (leaf :: intermediates) /\ anchored L trust_anchors now leaf intermediates /\
    names_issuer L urlparse lower leaf iss /\ public_key L leaf = EcKey ($"secp256r1") x y /\
    int_to_fixed x 32 = Ok bx /\ int_to_fixed y 32 = Ok by_ /\ jwk = ec_jwk ($"P-256") bx by_.
Proof.
  unfold resolve_x5c_key in H. apply bind_Ok in H as (chain & Hc & H).
  apply bind_Ok in H as (leaf & Hl & H). apply validate_cert_chain_Ok in Hl as (cs & -> & Ha).
  apply bind_Ok in H as (u & Hb%check_issuer_binding_Ok & H). unfold leaf_p256_jwk in H.
  destruct (public_key L leaf) as [curve x y| |] eqn:Ek; try done.
  apply bind_Ok in H as (u' & Hcu%raise_if_Ok%negb_false_iff%bool_decide_eq_true & H). subst curve.
  apply bind_Ok in H as (bx & Hx & H). apply bind_Ok in H as (by_ & Hy & H). apply Ok_inj in H as <-.
  by exists leaf, cs, x, y, bx, by_.
Qed.

(** A library whose certificates are their DER: the first byte is the key, the rest nothing. *)
Definition toy_x509 : x509_library :=
  {| cert := bytes; load_der := fun der => match der with [] => None | _ => Some der end;
     san := fun _ => Ok (Some ([$"did:web:i.example"], [])); extended_key_usage := fun _ => Ok (Some [MDOC_DS_EKU_OID]);
     public_key := fun c => EcKey ($"secp256r1") (hd 0 c) 2; not_valid_before := fun _ => 0; not_valid_after := fun _ => 100;
     verify_path := fun anchors _ leaf _ => bool_decide (leaf ∈ anchors) |}.

Lemma x5c_key_sound_witness : exists leaf intermediates x y bx by_,
  load_x5c_chain toy_x509 (JList [JStr ($"Bw==")]) = Ok (leaf :: intermediates) /\
  anchored toy_x509 [[7]] 5 leaf intermediates /\
  names_issuer toy_x509 issuer_url (fun s => s) leaf ($"did:web:i.example") /\
  public_key toy_x509 leaf = EcKey ($"secp256r1") x y /\
  int_to_fixed x 32 = Ok bx /\ int_to_fixed y 32 = Ok by_ /\
  ec_jwk ($"P-256") (to_bytes_be 32 7) (to_bytes_be 32 2) = ec_jwk ($"P-256") bx by_.
Proof. apply (x5c_key_sound toy_x509 issuer_url (fun s => s) [[7]] 5). vm_compute. reflexivity. Defined.
