(* ===== verification/TrustModel.v ===== *)
(** [openvc.trustlist.model] (src/src/openvc/trustlist/model.py): a trusted list and what is
    distilled from one.

    Certificates are the [cryptography] library's, as in [X5c].  A moment is a local time in
    microseconds and its offset, [None] for a [datetime] without one. *)
From S2P Require Import Prelude Errors PyStr X5c.

Definition moment : Type := Z * option Z.

(** [a < b] of two moments; one with an offset is not compared with one without. *)
Definition moment_ltb (a b : moment) : result bool :=
  match a, b with
  | (wa, Some oa), (wb, Some ob) => Ok (wa - oa <? wb - ob)
  | (wa, None), (wb, None) => Ok (wa <? wb)
  | _, _ => Err TypeError
  end.
Definition utc (instant : Z) : moment := (instant, Some 0).

Section model.
Context (L : x509_library).

Record TslPointer := {
  location : pystr; signer_certs : list (cert L); pt_territory : option pystr; pt_type : option pystr; mime_type : option pystr }.
Record TrustServiceAnchor := {
  an_certificate : cert L; service_type : pystr; service_status : pystr; tsp_name : option pystr; service_name : option pystr;
  an_territory : option pystr }.
Record TrustServiceProvider := { tsp_display : option pystr; services : list TrustServiceAnchor }.
Record TrustList := {
  tsl_type : option pystr; scheme_operator : option pystr; tl_territory : option pystr; sequence_number : option Z;
  issue_datetime : option pystr; next_update : option moment; pointers : list TslPointer;
  providers : list TrustServiceProvider; tl_version : option Z }.
Record TrustListProblem := { pb_location : pystr; stage : pystr }.
Record TrustAnchorSet := { anchors : list TrustServiceAnchor; problems : list TrustListProblem }.

Definition is_lotl (l : TrustList) : bool :=
  match tsl_type l with Some t => endswith t ($"EUlistofthelists") | None => false end.

(** All the services of a list, in order. *)
Definition all_services (l : TrustList) : list TrustServiceAnchor := flat_map services (providers l).

(** [public_bytes(DER)], and [sha256(...).hexdigest()]. *)
Context (der : cert L -> bytes) (sha256_hex : bytes -> pystr).

Definition anchor_sha256 (a : TrustServiceAnchor) : pystr := sha256_hex (der (an_certificate a)).

Fixpoint first_by_der (seen : list bytes) (l : list (cert L)) : list (cert L) :=
  match l with
  | [] => []
  | c :: l => if bool_decide (der c ∈ seen) then first_by_der seen l else c :: first_by_der (der c :: seen) l
  end.
Definition certificates (s : TrustAnchorSet) : list (cert L) := first_by_der [] (an_certificate <$> anchors s).

Definition x509_hashes (s : TrustAnchorSet) : gset pystr := list_to_set (anchor_sha256 <$> anchors s).

Lemma first_by_der_Ok l : forall seen, NoDup (der <$> first_by_der seen l) /\
  (forall c, c ∈ first_by_der seen l -> c ∈ l /\ der c ∉ seen) /\
  (forall c, c ∈ l -> der c ∈ seen \/ der c ∈ der <$> first_by_der seen l).
Proof using Type.
  induction l as [|c l IH]; intros seen; cbn [first_by_der].
  { split; [constructor|]. by split; intros c ?%not_elem_of_nil. }
  case_bool_decide as Hin.
  - destruct (IH seen) as (Hn & Hs & Hc). split; [done|]. split.
    + intros x [? ?]%Hs. split; [by right|done].
    + intros x [->|Hx]%elem_of_cons; [by left|by apply Hc].
  - destruct (IH (der c :: seen)) as (Hn & Hs & Hc). cbn [fmap list_fmap]. split; [|split].
    + constructor; [|done]. intros (x & E & [_ Hx]%Hs)%list_elem_of_fmap. apply Hx. rewrite E. left.
    + intros x [->|[Hx Hd]%Hs]%elem_of_cons; [split; [left|done]|]. split; [by right|]. set_solver.
    + intros x [->|Hx]%elem_of_cons; [right; left|]. destruct (Hc x Hx) as [[->|?]%elem_of_cons|?]; [right; left|by left|right; by right].
Qed.
End model.
Arguments location {L}. Arguments signer_certs {L}. Arguments pt_territory {L}. Arguments pt_type {L}. Arguments mime_type {L}.
Arguments an_certificate {L}. Arguments service_type {L}. Arguments service_status {L}. Arguments tsp_name {L}.
Arguments service_name {L}. Arguments an_territory {L}. Arguments tsp_display {L}. Arguments services {L}.
Arguments tsl_type {L}. Arguments scheme_operator {L}. Arguments tl_territory {L}. Arguments sequence_number {L}.
Arguments issue_datetime {L}. Arguments next_update {L}. Arguments pointers {L}. Arguments providers {L}.
Arguments tl_version {L}. Arguments anchors {L}. Arguments problems {L}. Arguments is_lotl {L}. Arguments all_services {L}.
Arguments certificates {L}. Arguments first_by_der {L}.
