(* ===== verification/TrustXml.v ===== *)
(** [openvc.trustlist.parse] and [xades] (src/src/openvc/trustlist/): the XML of a trusted list,
    and the structure its signature must have.

    [expat] is a parameter: the events it reports on a byte string, and the exception it stops
    with if it does.  The tree it is made into is [xml.etree]'s.  The signature itself is
    [signxml]'s. *)
From S2P Require Import Prelude Errors PyStr Base64 Schema X5c TrustModel.

Definition TSL : pystr := $"http://uri.etsi.org/02231/v2#".
Definition ADD : pystr := $"http://uri.etsi.org/02231/v2/additionaltypes#".
Definition XML_LANG : pystr := $"{http://www.w3.org/XML/1998/namespace}lang".
Definition DEFAULT_MAX_BYTES : Z := 16 * 1024 * 1024.
Definition DEFAULT_MAX_ELEMENTS : Z := 500000.
Definition NS_SEP : Z := 1.

(** [f"{{{ns}}}{local}"]. *)
Definition qualified (ns local : pystr) : pystr := 123 :: ns ++ 125 :: local.
Definition q (local : pystr) : pystr := qualified TSL local.

(** * The tree *)

Inductive element := Element (tag : pystr) (attrs : list (pystr * pystr)) (text : option pystr) (children : list element).
Definition tag (e : element) : pystr := let 'Element t _ _ _ := e in t.
Definition attrs (e : element) : list (pystr * pystr) := let 'Element _ a _ _ := e in a.
Definition text_of (e : element) : option pystr := let 'Element _ _ t _ := e in t.
Definition subelements (e : element) : list element := let 'Element _ _ _ c := e in c.

Inductive xml_event := EDoctype | EStart (name : pystr) (attrs : list (pystr * pystr)) | EEnd (name : pystr) | EData (s : pystr).

Definition qname (name : pystr) : pystr :=
  if bool_decide (NS_SEP ∈ name) then let '(uri, local) := partition NS_SEP name in qualified uri local else name.

(** An open element: its children so far, the last first. *)
Record frame := { f_tag : pystr; f_attrs : list (pystr * pystr); f_text : option pystr; f_children : list element }.
Definition closed (f : frame) : element := Element (f_tag f) (f_attrs f) (f_text f) (reverse (f_children f)).

(** The builder: the open elements, the innermost first; the root once it is closed; and how
    many elements have started.  Character data after a child is that child's tail, which
    nothing reads. *)
Record builder := { stack : list frame; root : option element; count : Z }.

Definition handle (max_elements : Z) (b : builder) (e : xml_event) : result builder :=
  match e with
  | EDoctype => Err TrustListParseError
  | EStart name attrs =>
      raise_if (max_elements <? count b + 1) TrustListParseError;;
      let attrs := foldl (fun d kv => dset d (qname kv.1) kv.2) [] attrs in
      Ok {| stack := {| f_tag := qname name; f_attrs := attrs; f_text := None; f_children := [] |} :: stack b; root := root b;
            count := count b + 1 |}
  | EEnd _ =>
      match stack b with
      | f :: parent :: rest =>
          Ok {| stack := {| f_tag := f_tag parent; f_attrs := f_attrs parent; f_text := f_text parent;
                            f_children := closed f :: f_children parent |} :: rest; root := root b; count := count b |}
      | [f] => Ok {| stack := []; root := match root b with None => Some (closed f) | r => r end; count := count b |}
      | [] => Err IndexError
      end
  | EData s =>
      match stack b with
      | f :: rest =>
          match f_children f with
          | [] => Ok {| stack := {| f_tag := f_tag f; f_attrs := f_attrs f; f_text := Some (default [] (f_text f) ++ s);
                                    f_children := [] |} :: rest; root := root b; count := count b |}
          | _ => Ok b
          end
      | [] => Ok b
      end
  end.

Section parse.
Context (expat : bytes -> list xml_event * option exn).

Definition hardened_parse (xml : bytes) (max_bytes max_elements : Z) : result element :=
  raise_if (max_bytes <? len xml) TrustListParseError;;
  b ← foldR (handle max_elements) {| stack := []; root := None; count := 0 |} (expat xml).1;
  match (expat xml).2 with
  | Some e => Err (if isinstance e TrustListParseError then e else if isinstance e ExpatError then TrustListParseError else e)
  | None =>
      match stack b, root b with
      | [], Some r => Ok r
      | _, _ => Err AssertionError
      end
  end.

Definition find (e : element) (t : pystr) : option element := List.find (fun c => bool_decide (tag c = t)) (subelements e).
Definition findall (e : element) (t : pystr) : list element := List.filter (fun c => bool_decide (tag c = t)) (subelements e).
Fixpoint iter (t : pystr) (e : element) : list element :=
  let 'Element t' _ _ cs := e in (if bool_decide (t' = t) then [e] else []) ++ flat_map (iter t) cs.

(** Unicode white space, decimal digits by value, [str.lower] and [datetime.fromisoformat]. *)
Context (is_space : Z -> bool) (digit_value : Z -> option Z) (lower : pystr -> pystr)
  (fromisoformat : pystr -> option (Z * option Z)).
Context (L : x509_library).

(** A non-empty text, stripped. *)
Definition stripped (e : element) : option pystr := match text_of e with Some ((_ :: _) as s) => Some (strip is_space s) | _ => None end.
Definition text (parent : option element) (t : pystr) : option pystr := p ← parent; el ← find p t; stripped el.

Definition localized_name (name_parent : option element) : option pystr :=
  parent ← name_parent;
  let names := findall parent (q ($"Name")) in
  let english e := bool_decide (lower (default [] (dget (attrs e) XML_LANG)) = $"en") in
  match omap (fun e => if english e then stripped e else None) names with
  | n :: _ => Some n
  | [] => head (omap stripped names)
  end.

(** [int(value)]: white space around it, a sign, digits with single underscores between them, at
    most 4300 digits. *)
Fixpoint int_digits (acc : Z) (n : Z) (underscore : bool) (s : pystr) : option (Z * Z) :=
  match s with
  | [] => if underscore then None else Some (acc, n)
  | c :: s =>
      if c =? 95 then if underscore then None else int_digits acc n true s
      else match digit_value c with Some d => int_digits (acc * 10 + d) (n + 1) false s | None => None end
  end.
Definition int_of_str (value : pystr) : option Z :=
  let s := strip is_space value in
  let '(sign, digits) := match s with 45 :: r => (-1, r) | 43 :: r => (1, r) | _ => (1, s) end in
  match int_digits 0 0 true digits with
  | Some (v, n) => if 4300 <? n then None else Some (sign * v)
  | None => None
  end.
Definition int (value : option pystr) : option Z := v ← value; int_of_str v.

Definition parse_datetime (value : option pystr) : option moment :=
  match value with
  | Some ((_ :: _) as v) => fromisoformat (replace ($"Z") ($"+00:00") v)
  | _ => None
  end.

Definition certs_under (node : option element) : list (cert L) :=
  match node with
  | None => []
  | Some n =>
      omap (fun el => match stripped el with
                      | Some ((_ :: _) as s) => match b64decode s with Ok der => load_der L der | Err _ => None end
                      | _ => None
                      end) (iter (q ($"X509Certificate")) n)
  end.

(** The qualifiers of a pointer: the last text of each wins. *)
Definition qualify (st : option pystr * option pystr * option pystr) (other : element)
    : option pystr * option pystr * option pystr :=
  let '(territory, tsl_type, mime_type) := st in
  let keep old t := match find other t with Some el => match stripped el with Some s => Some s | None => old end | None => old end in
  (keep territory (q ($"SchemeTerritory")), keep tsl_type (q ($"TSLType")), keep mime_type (qualified ADD ($"MimeType"))).

Definition parse_pointer (op : element) : option (TslPointer L) :=
  match text (Some op) (q ($"TSLLocation")) with
  | None | Some [] => None
  | Some loc =>
      let others := match find op (q ($"AdditionalInformation")) with Some add => findall add (q ($"OtherInformation")) | None => [] end in
      let '(territory, tsl_type, mime) := foldl qualify (None, None, None) others in
      Some {| location := strip is_space loc; signer_certs := certs_under (find op (q ($"ServiceDigitalIdentities")));
              pt_territory := territory; pt_type := tsl_type; mime_type := mime |}
  end.

Definition parse_service (svc : element) (tsp_name territory : option pystr) : list (TrustServiceAnchor L) :=
  match find svc (q ($"ServiceInformation")) with
  | None => []
  | Some info =>
      (fun c => {| an_certificate := c; service_type := default [] (text (Some info) (q ($"ServiceTypeIdentifier")));
                   service_status := default [] (text (Some info) (q ($"ServiceStatus"))); tsp_name := tsp_name;
                   service_name := localized_name (find info (q ($"ServiceName"))); an_territory := territory |})
        <$> certs_under (find info (q ($"ServiceDigitalIdentity")))
  end.

Definition parse_provider (tsp : element) (territory : option pystr) : TrustServiceProvider L :=
  let name := match find tsp (q ($"TSPInformation")) with Some info => localized_name (find info (q ($"TSPName"))) | None => None end in
  {| tsp_display := name;
     services := match find tsp (q ($"TSPServices")) with
                 | Some l => flat_map (fun svc => parse_service svc name territory) (findall l (q ($"TSPService")))
                 | None => []
                 end |}.

Definition parse_trust_list (xml : bytes) (max_bytes : Z) : result (TrustList L) :=
  root ← hardened_parse xml max_bytes DEFAULT_MAX_ELEMENTS;
  raise_if (negb (bool_decide (tag root = q ($"TrustServiceStatusList")))) TrustListParseError;;
  let scheme := find root (q ($"SchemeInformation")) in
  let under t := s ← scheme; find s (q t) in
  let territory := text scheme (q ($"SchemeTerritory")) in
  Ok {| tsl_type := text scheme (q ($"TSLType")); scheme_operator := localized_name (under ($"SchemeOperatorName"));
        tl_territory := territory; sequence_number := int (text scheme (q ($"TSLSequenceNumber")));
        issue_datetime := text scheme (q ($"ListIssueDateTime"));
        next_update := match under ($"NextUpdate") with Some nu => parse_datetime (text (Some nu) (q ($"dateTime"))) | None => None end;
        pointers := match under ($"PointersToOtherTSL") with
                    | Some ptrs => omap parse_pointer (findall ptrs (q ($"OtherTSLPointer")))
                    | None => []
                    end;
        providers := match find root (q ($"TrustServiceProviderList")) with
                     | Some l => (fun tsp => parse_provider tsp territory) <$> findall l (q ($"TrustServiceProvider"))
                     | None => []
                     end;
        tl_version := int (text scheme (q ($"TSLVersionIdentifier"))) |}.
End parse.

(** * The references of a XAdES signature *)

Definition DSIG_NS : pystr := $"http://www.w3.org/2000/09/xmldsig#".
Definition XADES_SIGNED_PROPERTIES : pystr := $"{http://uri.etsi.org/01903/v1.3.2#}SignedProperties".
Definition DS_KEY_INFO : pystr := qualified DSIG_NS ($"KeyInfo").

(** [results]: the tag of what each verified reference resolved to; [uris]: the [URI] of each. *)
Definition check_signed_references (results uris : list (option pystr)) (root_tag : pystr) : result unit :=
  raise_if (negb (length uris =? length results)%nat) TrustListSignatureError;;
  doc_refs ← foldR (fun doc_refs tu =>
      if bool_decide (tu.2 = Some []) then
        raise_if (negb (bool_decide (tu.1 = Some root_tag))) TrustListSignatureError;; Ok (doc_refs + 1)
      else raise_if (negb (bool_decide (tu.1 ∈ [Some XADES_SIGNED_PROPERTIES; Some DS_KEY_INFO]))) TrustListSignatureError;; Ok doc_refs)
    0 (zip results uris);
  raise_if (negb (doc_refs =? 1)) TrustListSignatureError.

(** [signxml]'s answer under one certificate: what each reference resolved to with the [URI]s of
    the signature, one of its four errors, or another exception. *)
Inductive xml_verdict := XVerified (results uris : list (option pystr)) | XInvalid | XRaised (e : exn).

Section xades.
Context (L : x509_library) (root_tag_of : bytes -> option pystr) (pem_ok : cert L -> bool)
  (xml_verify : bytes -> cert L -> xml_verdict).

Fixpoint try_signers (data : bytes) (root_tag : pystr) (certs : list (cert L)) : result unit :=
  match certs with
  | [] => Err TrustListSignatureError
  | c :: certs =>
      if negb (pem_ok c) then try_signers data root_tag certs
      else match xml_verify data c with
           | XInvalid => try_signers data root_tag certs
           | XRaised e => Err e
           | XVerified results uris => check_signed_references results uris root_tag
           end
  end.

(** With the backend installed. *)
Definition verify_xades_enveloped (xml : bytes) (signer_certs : list (cert L)) (max_bytes : Z) : result unit :=
  raise_if (max_bytes <? len xml) TrustListSignatureError;;
  raise_if (match signer_certs with [] => true | _ => false end) TrustListSignatureError;;
  match root_tag_of xml with
  | None => Err TrustListSignatureError
  | Some root_tag => try_signers xml root_tag signer_certs
  end.

(** * What an accepted signature covers *)

(** One reference signs the document itself, by the enveloped [URI=""], and it resolved to the
    root; any other signs properties of the signature or its key. *)
Definition covers_document (results uris : list (option pystr)) (root_tag : pystr) : Prop :=
  length uris = length results /\
  (exists i, uris !! i = Some (Some []) /\ results !! i = Some (Some root_tag) /\ forall j, uris !! j = Some (Some []) -> j = i) /\
  (forall i t, results !! i = Some t -> uris !! i <> Some (Some []) -> t ∈ [Some XADES_SIGNED_PROPERTIES; Some DS_KEY_INFO]).
End xades.

(** How many references are the enveloped one. *)
Definition enveloped (uris : list (option pystr)) : nat := length (filter (fun u => u = Some []) uris).

Lemma enveloped_0 uris i : enveloped uris = 0%nat -> uris !! i <> Some (Some []).
Proof.
  unfold enveloped. intros H Hi. apply list_elem_of_lookup_2 in Hi.
  assert (Some [] ∈ filter (fun u => u = Some []) uris) as Hf by (by apply list_elem_of_filter).
  apply list_elem_of_lookup in Hf as [k Hk]. apply lookup_lt_Some in Hk. lia.
Qed.

Lemma enveloped_1 uris : enveloped uris = 1%nat -> exists i, uris !! i = Some (Some []) /\ forall j, uris !! j = Some (Some []) -> j = i.
Proof.
  induction uris as [|u uris IH]; [done|]. unfold enveloped. rewrite filter_cons. destruct (decide (u = Some [])) as [->|Hu]; cbn [length].
  - intros [= H]. exists 0%nat. split; [done|]. intros [|j] Hj; [done|]. by apply (enveloped_0 uris j) in H.
  - intros H. destruct (IH H) as (i & Hi & Hun). exists (S i). split; [done|]. intros [|j] Hj; [by injection Hj as ->|]. f_equal. by apply Hun.
Qed.

Lemma check_signed_references_Ok results uris root_tag u : check_signed_references results uris root_tag = Ok u ->
  covers_document results uris root_tag.
Proof.
  unfold check_signed_references. intros H. apply bind_Ok in H as (? & Hl%raise_if_Ok%negb_false_iff%Nat.eqb_eq & H).
  apply bind_Ok in H as (m & Hf & Hm%raise_if_Ok%negb_false_iff%Z.eqb_eq). subst m.
  assert (Hgen : forall n, foldR (fun doc_refs tu =>
      if bool_decide (tu.2 = Some []) then raise_if (negb (bool_decide (tu.1 = Some root_tag))) TrustListSignatureError;; Ok (doc_refs + 1)
      else raise_if (negb (bool_decide (tu.1 ∈ [Some XADES_SIGNED_PROPERTIES; Some DS_KEY_INFO]))) TrustListSignatureError;; Ok doc_refs)
      n (zip results uris) = Ok 1 -> 1 = n + Z.of_nat (enveloped uris) /\
    forall i t, results !! i = Some t -> (uris !! i = Some (Some []) -> t = Some root_tag) /\
      (uris !! i <> Some (Some []) -> t ∈ [Some XADES_SIGNED_PROPERTIES; Some DS_KEY_INFO])).
  { clear Hf. revert uris Hl. induction results as [|t results IH]; intros [|u' uris] Hl n Hf; try done.
    { cbn in Hf. injection Hf as ->. split; [reflexivity|]. by intros i t. }
    cbn [zip zip_with foldR fst snd] in Hf. injection Hl as Hl. unfold enveloped. rewrite filter_cons.
    destruct (decide (u' = Some [])) as [->|Hu]; [rewrite bool_decide_eq_true_2 in Hf by done|rewrite bool_decide_eq_false_2 in Hf by done];
      apply bind_Ok in Hf as (n' & Hf & Hrest); apply bind_Ok in Hf as (? & Ht%raise_if_Ok%negb_false_iff%bool_decide_eq_true & [= <-]);
      destruct (IH uris Hl _ Hrest) as [Hc Hi]; unfold enveloped in Hc; (split; [cbn [length]; lia|]);
      intros [|i] t' Hi'; try (by apply Hi); injection Hi' as <-; (split; intros Hx; [done || (by injection Hx)|done || (by destruct Hx)]). }
  apply Hgen in Hf as [Hc Hi]. assert (enveloped uris = 1%nat) as (i & Hu & Hun)%enveloped_1 by lia.
  split; [done|]. split.
  - exists i. split; [done|]. split; [|done]. pose proof (lookup_lt_Some _ _ _ Hu) as Hlt. rewrite Hl in Hlt.
    apply lookup_lt_is_Some in Hlt as [t Ht]. rewrite Ht. f_equal. by apply (Hi i t).
  - intros j t Ht Hj. by apply (Hi j t).
Qed.

(** A signed trusted list is signed whole.  When [verify_xades_enveloped] accepts, the
    signature verified under one of the expected certificates, and of the references it signs
    exactly one is the enveloped document reference, which resolved to the root of the document
    as it is now; every other reference is the signature's own properties or key.  No signed
    subtree moved under a new root is accepted. *)
Theorem xades_covers_document (L : x509_library) root_tag_of pem_ok xml_verify xml (signers : list (cert L)) max_bytes u
  (H : verify_xades_enveloped L root_tag_of pem_ok xml_verify xml signers max_bytes = Ok u) :
  exists root_tag c results uris, root_tag_of xml = Some root_tag /\ c ∈ signers /\ xml_verify xml c = XVerified results uris /\
    covers_document results uris root_tag /\ len xml <= max_bytes.
Proof.
  unfold verify_xades_enveloped in H. apply bind_Ok in H as (? & Hl%raise_if_Ok%Z.ltb_ge & H). apply bind_Ok in H as (? & _ & H).
  destruct (root_tag_of xml) as [root_tag|] eqn:Er; [|done]. exists root_tag. revert H.
  induction signers as [|c signers IH]; cbn [try_signers]; [done|]. intros H.
  assert (try_signers L pem_ok xml_verify xml root_tag signers = Ok u ->
    exists c' results uris, Some root_tag = Some root_tag /\ c' ∈ c :: signers /\ xml_verify xml c' = XVerified results uris /\
      covers_document results uris root_tag /\ len xml <= max_bytes) as Hrest.
  { intros (c' & rs & us & ? & ? & ?)%IH. exists c', rs, us. split; [done|]. split; [by right|done]. }
  destruct (negb (pem_ok c)); [by apply Hrest|]. destruct (xml_verify xml c) as [rs us| |e] eqn:Ev; [|by apply Hrest|done].
  exists c, rs, us. split; [done|]. split; [left|]. split; [done|]. split; [|done]. by eapply check_signed_references_Ok.
Qed.

(** The references beyond the document's are not counted, one of each kind or not. *)
Lemma repeated_properties_accepted root_tag : root_tag <> [] ->
  check_signed_references [Some root_tag; Some XADES_SIGNED_PROPERTIES; Some XADES_SIGNED_PROPERTIES]
    [Some []; Some ($"#p"); Some ($"#q")] root_tag = Ok tt.
Proof. intros _. unfold check_signed_references. cbn. by rewrite !(bool_decide_eq_true_2 (Some root_tag = Some root_tag)). Qed.

Lemma xades_covers_document_witness :
  let results := [Some ($"r"); Some XADES_SIGNED_PROPERTIES] in
  verify_xades_enveloped toy_x509 (fun _ => Some ($"r")) (fun _ => true) (fun _ _ => XVerified results [Some []; Some ($"#p")])
    ($"<r/>") [[7] : cert toy_x509] DEFAULT_MAX_BYTES = Ok tt /\ covers_document results [Some []; Some ($"#p")] ($"r").
Proof.
  assert (H : verify_xades_enveloped toy_x509 (fun _ => Some ($"r")) (fun _ => true)
    (fun _ _ => XVerified [Some ($"r"); Some XADES_SIGNED_PROPERTIES] [Some []; Some ($"#p")]) ($"<r/>") [[7] : cert toy_x509] DEFAULT_MAX_BYTES
    = Ok tt) by (vm_compute; reflexivity).
  split; [exact H|]. destruct (xades_covers_document _ _ _ _ _ _ _ _ H) as (rt & c & rs & us & [= <-] & _ & [= <- <-] & Hc & _). exact Hc.
Defined.

(** A small list, its text read back from the events of its document. *)
Example parse_ex :
  let ev l := ($"http://uri.etsi.org/02231/v2#") ++ 1 :: l in
  let leaf t s := [EStart (ev t) []; EData s; EEnd (ev t)] in
  let node t c := EStart (ev t) [] :: c ++ [EEnd (ev t)] in
  let doc := node ($"TrustServiceStatusList") (node ($"SchemeInformation")
    (leaf ($"TSLSequenceNumber") ($" 1_2 ") ++ leaf ($"SchemeTerritory") ($"EU") ++ node ($"NextUpdate") (leaf ($"dateTime") ($"2026Z")))) in
  (fun l => (sequence_number l, tl_territory l, next_update l)) <$>
    (match parse_trust_list (fun _ => (doc, None)) (fun c => c =? 32) (fun c => if (48 <=? c) && (c <=? 57) then Some (c - 48) else None)
       (fun s => s) (fun s => if bool_decide (s = $"2026+00:00") then Some (5, Some 0) else None) toy_x509 [] 10 with Ok l => Some l | Err _ => None end)
  = Some (Some 12, Some ($"EU"), Some (5, Some 0)).
Proof. by vm_compute. Qed.
