(* ===== verification/EcdsaSd.v ===== *)
(** [openvc.proof.ecdsa_sd] (src/src/openvc/proof/ecdsa_sd.py): selective disclosure over P-256,
    from the proof value's codec to the issuer's, the holder's and the verifier's operations.

    RDF is the JSON-LD processor's: [expand], [compact], [to_rdf], [normalize] and the canonical
    N-Quads of a dataset with the labels they give are parameters, each taking the loader of the
    call as given, and so are HMAC, the hash functions and the curve.  The 32 random bytes and the
    proof-scoped key of a base proof are arguments. *)
From S2P Require Import Prelude Errors PyStr Utf8 Cbor Json Base64 Decimal VerifyCommon Did Keys DataIntegrity TrustXml.

Definition BASE_PROOF_HEADER : bytes := [217; 93; 0].
Definition DERIVED_PROOF_HEADER : bytes := [217; 93; 1].
Definition SD_CRYPTOSUITE : pystr := $"ecdsa-sd-2023".
Definition P256_MULTIKEY_PREFIX : bytes := [128; 36].

(** * The proof value *)

Definition mb_encode (data : bytes) : pystr := $"u" ++ b64url_encode data.
Definition mb_decode (value : pystr) : result bytes :=
  raise_if (negb (startswith value ($"u"))) ProofValueMalformed;; b64url_decode (drop 1 value).

(** [_check_proof_subset]: the shape test of a map's key. *)
Definition check_key (k : ckey) (e : exn) : result unit :=
  match k with KInt n => raise_if (n <? 0) e | KBytes _ | KText _ => Ok tt end.
Fixpoint check_proof_subset (obj : cval) (e : exn) : result unit :=
  match obj with
  | CNull | CBool _ | CTag _ _ _ => Err e
  | CInt n => raise_if (n <? 0) e
  | CBytes _ | CText _ => Ok tt
  | CArray l => (fix items l := match l with [] => Ok tt | x :: l => check_proof_subset x e;; items l end) l
  | CMap d => (fix entries d := match d with
                                | [] => Ok tt
                                | (k, v) :: d => check_key k e;; check_proof_subset v e;; entries d
                                end) d
  | CRaw _ | COther => Err e
  end.

Definition is_cbor_error (e : exn) : bool := isinstance e CborError.
Definition encode_cbor (obj : cval) : result bytes :=
  check_proof_subset obj EcdsaSdError;; catch_as is_cbor_error EcdsaSdError (encode obj).
Definition decode_cbor (data : bytes) : result cval :=
  obj ← catch_as is_cbor_error ProofValueMalformed (decode data);
  check_proof_subset obj ProofValueMalformed;; Ok obj.

(** [_is_index]. *)
Definition is_index (v : cval) : bool := match v with CInt n => 0 <=? n | _ => false end.
Definition as_bytes (v : cval) : option bytes := match v with CBytes b => Some b | _ => None end.

(** ** The label map *)

Section labels.
Context (is_space : Z -> bool) (digit_value : Z -> option Z).
Context (hmac : bytes -> bytes -> bytes).

Definition hmac_label (hmac_key : bytes) (canonical_label : pystr) : result pystr :=
  text ← utf8_encode canonical_label; Ok (mb_encode (hmac hmac_key text)).

Definition C14N : pystr := $"c14n".
Definition compress_entry (out : list (Z * bytes)) (entry : pystr * pystr) : result (list (Z * bytes)) :=
  raise_if (negb (startswith entry.1 C14N)) EcdsaSdError;;
  index ← (match int_of_str is_space digit_value (drop (length C14N) entry.1) with Some n => Ok n | None => Err ValueError end);
  digest ← mb_decode entry.2;
  Ok (dset out index digest).
Definition compress_label_map (label_map : list (pystr * pystr)) : result (list (Z * bytes)) := foldR compress_entry [] label_map.
Definition decompress_label_map (compressed : list (Z * bytes)) : list (pystr * pystr) :=
  foldl (fun out entry => dset out (C14N ++ str_of_int entry.1) (mb_encode entry.2)) [] compressed.

(** ** Base and derived proof values *)

Definition encode_base_proof (base_signature public_key hmac_key : bytes) (signatures : list bytes)
    (mandatory_pointers : list pystr) : result pystr :=
  body ← encode_cbor (CArray [CBytes base_signature; CBytes public_key; CBytes hmac_key; CArray (CBytes <$> signatures);
                              CArray (CText <$> mandatory_pointers)]);
  Ok (mb_encode (BASE_PROOF_HEADER ++ body)).

(** The parts of a base proof are of any shape the codec reads. *)
Record base_proof := {
  bp_signature : cval; bp_public_key : cval; bp_hmac_key : cval; bp_signatures : cval; bp_pointers : cval }.
Definition decode_base_proof (proof_value : pystr) : result base_proof :=
  raw ← mb_decode proof_value;
  raise_if (negb (startswith raw BASE_PROOF_HEADER)) ProofValueMalformed;;
  parts ← decode_cbor (drop (length BASE_PROOF_HEADER) raw);
  match parts with
  | CArray [base_signature; public_key; hmac_key; signatures; mandatory_pointers] =>
      Ok {| bp_signature := base_signature; bp_public_key := public_key; bp_hmac_key := hmac_key;
            bp_signatures := signatures; bp_pointers := mandatory_pointers |}
  | _ => Err ProofValueMalformed
  end.

Definition encode_derived_proof (base_signature public_key : cval) (signatures : list cval)
    (label_map : list (pystr * pystr)) (mandatory_indexes : list Z) : result pystr :=
  compressed ← compress_label_map label_map;
  body ← encode_cbor (CArray [base_signature; public_key; CArray signatures;
                              CMap ((fun kv => (KInt kv.1, CBytes kv.2)) <$> compressed); CArray (CInt <$> mandatory_indexes)]);
  Ok (mb_encode (DERIVED_PROOF_HEADER ++ body)).

Record derived_proof := {
  dp_signature : bytes; dp_public_key : bytes; dp_signatures : list bytes;
  dp_label_map : list (pystr * pystr); dp_indexes : list Z }.

(** The tests of the parts, in the code's order; each keeps the value it tested. *)
Definition bytes_part (v : cval) : result bytes := match as_bytes v with Some b => Ok b | None => Err ProofValueMalformed end.
Definition signatures_part (v : cval) : result (list bytes) :=
  match v with CArray l => mapR bytes_part l | _ => Err ProofValueMalformed end.
Definition index_part (v : cval) : result Z :=
  match v with CInt n => raise_if (negb (is_index v)) ProofValueMalformed;; Ok n | _ => Err ProofValueMalformed end.
Definition label_part (kv : ckey * cval) : result (Z * bytes) :=
  n ← index_part (key_val kv.1); b ← bytes_part kv.2; Ok (n, b).
Definition labels_part (v : cval) : result (list (Z * bytes)) :=
  match v with CMap d => mapR label_part d | _ => Err ProofValueMalformed end.
Definition indexes_part (v : cval) : result (list Z) :=
  match v with CArray l => mapR index_part l | _ => Err ProofValueMalformed end.

Definition decode_derived_proof (proof_value : pystr) : result derived_proof :=
  raw ← mb_decode proof_value;
  raise_if (negb (startswith raw DERIVED_PROOF_HEADER)) ProofValueMalformed;;
  parts ← decode_cbor (drop (length DERIVED_PROOF_HEADER) raw);
  match parts with
  | CArray [base_signature; public_key; signatures; compressed_map; mandatory_indexes] =>
      base_signature ← bytes_part base_signature;
      public_key ← bytes_part public_key;
      signatures ← signatures_part signatures;
      compressed_map ← labels_part compressed_map;
      mandatory_indexes ← indexes_part mandatory_indexes;
      raise_if (negb (bool_decide (NoDup compressed_map.*2))) ProofValueMalformed;;
      Ok {| dp_signature := base_signature; dp_public_key := public_key; dp_signatures := signatures;
            dp_label_map := decompress_label_map compressed_map; dp_indexes := mandatory_indexes |}
  | _ => Err ProofValueMalformed
  end.
End labels.

(** * Blank nodes *)

Definition SKOLEM_PREFIX : pystr := $"urn:bnid:".

(** [_skolemize]: the counter is threaded through the value, an object's own id after its members. *)
Fixpoint skolemize (node : json) (counter : Z) : json * Z :=
  match node with
  | JList l =>
      let '(l, counter) := (fix items l counter := match l with
                            | [] => ([], counter)
                            | x :: l => let '(x, counter) := skolemize x counter in
                                        let '(l, counter) := items l counter in (x :: l, counter)
                            end) l counter in (JList l, counter)
  | JDict d =>
      if dmem d ($"@value") then (node, counter)
      else
        let '(out, counter) := (fix members d counter := match d with
                                | [] => ([], counter)
                                | (k, v) :: d => let '(v, counter) := skolemize v counter in
                                                 let '(d, counter) := members d counter in ((k, v) :: d, counter)
                                end) d counter in
        match jget out ($"@id") with
        | JNull => (JDict (dset out ($"@id") (JStr (SKOLEM_PREFIX ++ $"b" ++ str_of_int counter))), counter + 1)
        | JStr id => if startswith id ($"_:") then (JDict (dset out ($"@id") (JStr (SKOLEM_PREFIX ++ drop 2 id))), counter)
                     else (JDict out, counter)
        | _ => (JDict out, counter)
        end
  | _ => (node, counter)
  end.

(** The characters before the first one that fails a test. *)
Fixpoint span (p : Z -> bool) (s : pystr) : pystr := match s with c :: s' => if p c then c :: span p s' else [] | [] => [] end.

(** [<urn:bnid:X>] at the head of a text: [X]. *)
Definition skolem_open : pystr := $"<" ++ SKOLEM_PREFIX.
Definition skolem_iri (s : pystr) : option pystr :=
  if startswith s skolem_open then
    let rest := drop (length skolem_open) s in
    let body := span (fun c => negb (c =? 62)) rest in
    match body, drop (length body) rest with _ :: _, 62 :: _ => Some body | _, _ => None end
  else None.
(** What is matched is skipped. *)
Fixpoint deskolemize_from (s : pystr) (skip : nat) : pystr :=
  match s with
  | [] => []
  | c :: s' =>
      match skip with
      | S skip => deskolemize_from s' skip
      | O => match skolem_iri s with
             | Some body => $"_:" ++ body ++ deskolemize_from s' (length skolem_open + length body)
             | None => c :: deskolemize_from s' 0
             end
      end
  end.
Definition deskolemize_nquads (nquads : pystr) : pystr := deskolemize_from nquads 0.

Definition is_id (k : pystr) : bool := bool_decide (k ∈ [$"@id"; $"id"]).
Definition skolem_id (k : pystr) (v : json) : option pystr :=
  match v with
  | JStr v => if is_id k && startswith v SKOLEM_PREFIX then Some ($"_:" ++ drop (length SKOLEM_PREFIX) v) else None
  | _ => None
  end.
Fixpoint deskolemize_document (node : json) : json :=
  match node with
  | JList l => JList (map deskolemize_document l)
  | JDict d => JDict (map (fun '(k, v) => (k, match skolem_id k v with Some s => JStr s | None => deskolemize_document v end)) d)
  | _ => node
  end.

(** [_BNODE_RE] at the head of a text. *)
Definition alnum (c : Z) : bool := is_ascii_digit c || ((65 <=? c) && (c <=? 90)) || ((97 <=? c) && (c <=? 122)).
Definition bnode_first (c : Z) : bool := alnum c || (c =? 95).
Definition bnode_char (c : Z) : bool := bnode_first c || (c =? 46) || (c =? 45).
Definition bnode_token (s : pystr) : option pystr :=
  match s with
  | 95 :: 58 :: c :: rest => if bnode_first c then Some (95 :: 58 :: c :: span bnode_char rest) else None
  | _ => None
  end.
Fixpoint relabel_from (mapping : list (pystr * pystr)) (s : pystr) (skip : nat) : pystr :=
  match s with
  | [] => []
  | c :: s' =>
      match skip with
      | S skip => relabel_from mapping s' skip
      | O => match bnode_token s with
             | Some token => default token (dget mapping token) ++ relabel_from mapping s' (length token - 1)
             | None => c :: relabel_from mapping s' 0
             end
      end
  end.
Definition relabel_line (mapping : list (pystr * pystr)) (line : pystr) : pystr := relabel_from mapping line 0.
Definition relabel (lines : list pystr) (mapping : list (pystr * pystr)) : list pystr := sort_by id (relabel_line mapping <$> lines).
Definition nonempty (s : pystr) : bool := negb (bool_decide (s = [])).
Definition lines_of (text : pystr) : list pystr := filter (fun ln => nonempty ln = true) (split_on 10 text).

Example relabel_ex : relabel [$"_:c14n0 <p> _:c14n10 ."; $"_:c14n1 <p> <o> ."] [($"_:c14n0", $"_:ux"); ($"_:c14n1", $"_:ua")]
  = [$"_:ua <p> <o> ."; $"_:ux <p> _:c14n10 ."] /\
  deskolemize_nquads ($"<urn:bnid:b0> <p> <urn:bnid:> <urn:x> .") = $"_:b0 <p> <urn:bnid:> <urn:x> .".
Proof. by vm_compute. Qed.

(** * Selection *)

Definition parse_pointer (pointer : cval) : result (list pystr) :=
  match pointer with
  | CText p =>
      raise_if (negb (startswith p ($"/"))) EcdsaSdError;;
      Ok ((fun tok => replace ($"~0") ($"~") (replace ($"~1") ($"/") tok)) <$> split_on 47 (drop 1 p))
  | CBytes _ => Err TypeError
  | _ => Err AttributeError
  end.

Definition id_member (source : jobject) (key : pystr) (sel : jobject) : jobject :=
  match jget source key with JStr s => dset sel key (JStr s) | _ => sel end.
Definition initial_selection (source : json) : jobject :=
  match source with
  | JDict d => let sel := id_member d ($"id") (id_member d ($"@id") []) in
               match dget d ($"type") with Some t => dset sel ($"type") t | None => sel end
  | _ => []
  end.

(** [_select_path]: what it leaves in [selection].  The object a path goes through is created
    where it is missing, and changed in place. *)
Fixpoint select_path (tokens : list pystr) (source selection : json) : result json :=
  match tokens with
  | [] => Ok selection
  | tok :: tokens' =>
      match source with
      | JDict src =>
          match dget src tok with
          | None => Err EcdsaSdError
          | Some value =>
              match selection with
              | JDict sel =>
                  match tokens' with
                  | [] => Ok (JDict (dset sel tok value))
                  | _ =>
                      let child := match jget sel tok with JNull => JDict (initial_selection value) | child => child end in
                      child ← select_path tokens' value child;
                      Ok (JDict (dset sel tok child))
                  end
              | _ => Err (match tokens' with [] => TypeError | _ => AttributeError end)
              end
          end
      | _ => Err EcdsaSdError
      end
  end.

Definition select_pointer (document : jobject) (selection : json) (pointer : cval) : result json :=
  tokens ← parse_pointer pointer; select_path tokens (JDict document) selection.
Definition with_context (document selection : jobject) : jobject :=
  match dget document ($"@context") with Some c => dset selection ($"@context") c | None => selection end.
Definition select_json_ld (pointers : list cval) (document : jobject) : result (option jobject) :=
  match pointers with
  | [] => Ok None
  | _ => selection ← foldR (select_pointer document) (JDict (with_context document (initial_selection (JDict document)))) pointers;
         Ok (as_dict selection)
  end.

(** * The suite *)

(** [enumerate(l)]. *)
Definition enumerate {A} (l : list A) : list (Z * A) := imap (fun i x => (Z.of_nat i, x)) l.
Definition lines_at (indexes : list Z) (lines : list pystr) : list pystr := snd <$> filter (fun il => il.1 ∈ indexes) (enumerate lines).
Definition lines_not_at (indexes : list Z) (lines : list pystr) : list pystr := snd <$> filter (fun il => il.1 ∉ indexes) (enumerate lines).
Definition indexes_of (chosen lines : list pystr) : list Z := fst <$> filter (fun il => il.2 ∈ chosen) (enumerate lines).

(** [iter(v)] of a value the codec read. *)
Definition py_iter (v : cval) : result (list cval) :=
  match v with
  | CArray l => Ok l
  | CBytes b => Ok (CInt <$> b)
  | CText s => Ok ((fun c => CText [c]) <$> s)
  | CMap d => Ok ((fun kv => key_val kv.1) <$> d)
  | _ => Err TypeError
  end.

Definition is_text (s : pystr) (v : cval) : bool := match v with CText s' => bool_decide (s = s') | _ => false end.

Record VerifiedSdCredential := {
  sd_credential : jobject; sd_issuer : json; sd_subject : json; sd_proof : jobject; sd_expired : bool }.

Record Transform := {
  relabeled : list pystr; skolem_to_hmac : list (pystr * pystr); skolemized_compact : jobject }.

Section suite.
Context (hash : pystr -> bytes -> bytes) (hmac : bytes -> bytes -> bytes).
Context (ed25519_verify : bytes -> bytes -> bytes -> option bool)
  (ecdsa_verify : pystr -> Z -> Z -> Z * Z -> bytes -> option bool)
  (mldsa_verify : pystr -> bytes -> bytes -> bytes -> result bool).
Context (decode_point : pystr -> bytes -> option (Z * Z)) (encode_point : Z -> Z -> option bytes).
Context (is_space is_decimal : Z -> bool) (digit_value : Z -> option Z) (fromisoformat : pystr -> option (Z * option Z)).
(** pyld, with the loader of the call; [canonize] is [URDNA2015] over parsed N-Quads. *)
Context (expand : json -> result json) (compact : json -> json -> result jobject)
  (to_rdf normalize : json -> result pystr) (canonize : pystr -> result (pystr * list (pystr * pystr))).
Context (validate_document : jobject -> jobject -> result unit).

(** ** The proof-scoped key *)

(** [EllipticCurvePublicNumbers(x, y).public_key()] compressed, [from_encoded_point]. *)
Definition p256_public_multikey (jwk : jobject) : result bytes :=
  raise_if (negb (eq_str (jget jwk ($"kty")) ($"EC")) || negb (eq_str (jget jwk ($"crv")) ($"P-256"))) EcdsaSdError;;
  x ← int_member (JDict jwk) ($"x");
  y ← int_member (JDict jwk) ($"y");
  match encode_point x y with Some point => Ok (P256_MULTIKEY_PREFIX ++ point) | None => Err ValueError end.
Definition p256_multikey_to_jwk (multikey : bytes) : result jobject :=
  raise_if (negb (startswith multikey P256_MULTIKEY_PREFIX) || negb (len multikey =? 35)) ProofValueMalformed;;
  match decode_point ($"P-256") (drop (length P256_MULTIKEY_PREFIX) multikey) with
  | Some (x, y) => bx ← int_to_bytes 32 x; by_ ← int_to_bytes 32 y; Ok (ec_jwk ($"P-256") bx by_)
  | None => Err ValueError
  end.

(** ** From a document to its statements *)

Definition proof_config (proof : jobject) (context : json) : jobject := dset (ddel proof ($"proofValue")) ($"@context") context.
Definition sha256 (data : bytes) : bytes := hash ($"sha256") data.
Definition proof_config_hash (proof : jobject) (context : json) : result bytes :=
  nquads ← normalize (JDict (proof_config proof context));
  text ← utf8 nquads ProofMalformed;
  Ok (sha256 text).
Definition sha256_lines (lines : list pystr) : result bytes :=
  text ← utf8 (concat ((fun ln => ln ++ [10]) <$> lines)) ProofMalformed; Ok (sha256 text).

Definition canonicalize (nquads : pystr) : result (list pystr * list (pystr * pystr)) :=
  '(text, issued) ← canonize nquads; Ok (sort_by id (lines_of text), issued).

(** [hmac.new] wants a byte string. *)
Definition blinded_label (hmac_key : cval) (c14n : pystr) : result pystr :=
  match hmac_key with CBytes key => l ← hmac_label hmac key (drop 2 c14n); Ok ($"_:" ++ l) | _ => Err TypeError end.
Definition c14n_to_hmac (hmac_key : cval) (id_map : list (pystr * pystr)) : result (list (pystr * pystr)) :=
  foldR (fun out c14n => l ← blinded_label hmac_key c14n; Ok (dset out c14n l)) [] id_map.*2.
Definition no_key_error {A} (v : option A) : result A := match v with Some a => Ok a | None => Err KeyError end.
(** [{bn: m[c14n] for bn, c14n in id_map.items()}]. *)
Definition through (m id_map : list (pystr * pystr)) : result (list (pystr * pystr)) :=
  mapR (fun kv => v ← no_key_error (dget m kv.2); Ok (kv.1, v)) id_map.

Definition transform (document : jobject) (hmac_key : cval) : result Transform :=
  expanded ← expand (JDict document);
  let skolemized := (skolemize expanded 0).1 in
  compacted ← compact skolemized (jget document ($"@context"));
  nquads ← to_rdf skolemized;
  '(lines, id_map) ← canonicalize (deskolemize_nquads nquads);
  blinded ← c14n_to_hmac hmac_key id_map;
  skolem_to_hmac ← through blinded id_map;
  Ok {| relabeled := relabel lines blinded; skolem_to_hmac := skolem_to_hmac; skolemized_compact := compacted |}.

Definition selection_lines (selected : jobject) (skolem_to_hmac : list (pystr * pystr)) : result (list pystr) :=
  nquads ← to_rdf (JDict selected);
  Ok (relabel (lines_of (deskolemize_nquads nquads)) skolem_to_hmac).

(** [_selection_lines(select_json_ld(p, doc) or {}, ...) if p else set()]. *)
Definition mandatory_statements (pointers : list cval) (t : Transform) : result (list pystr) :=
  match pointers with
  | [] => Ok []
  | _ => selected ← select_json_ld pointers (skolemized_compact t);
         selection_lines (default [] selected) (skolem_to_hmac t)
  end.

Definition canonicalizing {A} (m : result A) : result A := catch_as (fun e => negb (isinstance e ProofError)) ProofMalformed m.

(** ** Issuing *)

Definition add_base_proof {K} `{Signer K} (signing_key : K) (ephemeral : SigningKey) (hmac_key : bytes) (credential : jobject)
    (created : result pystr) (verification_method proof_purpose : pystr) (mandatory_pointers : list pystr) : result jobject :=
  raise_if (negb (bool_decide (signer_alg signing_key = $"ES256"))) UnsupportedCryptosuite;;
  raise_if (negb (dmem credential ($"@context"))) ProofMalformed;;
  raise_if (dmem credential ($"proof")) ProofMalformed;;
  created ← created;
  let context := jget credential ($"@context") in
  let proof := unsigned_proof SD_CRYPTOSUITE created verification_method proof_purpose None None in
  '(proof_hash, mandatory_hash, non_mandatory) ← canonicalizing
    (proof_hash ← proof_config_hash proof context;
     validate_document credential (proof_config proof context);;
     t ← transform credential (CBytes hmac_key);
     mandatory_set ← mandatory_statements (CText <$> mandatory_pointers) t;
     mandatory_hash ← sha256_lines (filter (fun ln => ln ∈ mandatory_set) (relabeled t));
     Ok (proof_hash, mandatory_hash, filter (fun ln => ln ∉ mandatory_set) (relabeled t)));
  jwk ← public_jwk ephemeral;
  public_key ← p256_public_multikey jwk;
  signatures ← mapR (fun ln => text ← utf8 (ln ++ [10]) ProofMalformed; sign ephemeral text) non_mandatory;
  base_signature ← signer_sign signing_key (proof_hash ++ public_key ++ mandatory_hash);
  proof_value ← encode_base_proof base_signature public_key hmac_key signatures mandatory_pointers;
  Ok (dset credential ($"proof") (JDict (dset proof ($"proofValue") (JStr proof_value)))).

(** ** Deriving *)

Definition reveal_view (reveal : json) (skolem_to_hmac : list (pystr * pystr)) (mandatory_set : list pystr)
    : result (list pystr * list (pystr * pystr) * list Z) :=
  nquads ← to_rdf reveal;
  '(c14n_lines, id_map) ← canonicalize nquads;
  relabel_map ← foldR (fun out kv => v ← no_key_error (dget skolem_to_hmac kv.1); Ok (dset out kv.2 v)) [] id_map;
  let label_map := foldl (fun out kv => dset out (drop 2 kv.1) (drop 2 kv.2)) [] relabel_map in
  let lines := relabel c14n_lines relabel_map in
  Ok (lines, label_map, indexes_of mandatory_set lines).

(** [dict(zip(lines, signatures))]. *)
Definition signatures_by_line (lines : list pystr) (signatures : list cval) : list (pystr * cval) :=
  foldl (fun out kv => dset out kv.1 kv.2) [] (zip lines signatures).

Definition derive_proof (secured : jobject) (selective_pointers : list pystr) : result jobject :=
  match jget secured ($"proof") with
  | JDict proof =>
      raise_if (negb (eq_str (jget proof ($"cryptosuite")) SD_CRYPTOSUITE)) UnsupportedCryptosuite;;
      proof_value ← (match dget proof ($"proofValue") with Some (JStr s) => Ok s | Some _ => Err AttributeError | None => Err KeyError end);
      base ← decode_base_proof proof_value;
      mandatory ← py_iter (bp_pointers base);
      let combined := mandatory ++ (CText <$> filter (fun p => existsb (is_text p) mandatory = false) selective_pointers) in
      '(sig_by_line, reveal, reveal_relabeled, reveal_map, reveal_mandatory_idx) ← canonicalizing
        (t ← transform (ddel secured ($"proof")) (bp_hmac_key base);
         mandatory_set ← mandatory_statements mandatory t;
         combined_selection ← select_json_ld combined (skolemized_compact t);
         signatures ← py_iter (bp_signatures base);
         let reveal := deskolemize_document (JDict (default [] combined_selection)) in
         '(lines, label_map, idx) ← reveal_view reveal (skolem_to_hmac t) mandatory_set;
         Ok (signatures_by_line (filter (fun ln => ln ∉ mandatory_set) (relabeled t)) signatures, reveal, lines, label_map, idx));
      filtered_sigs ← mapR (fun ln => match dget sig_by_line ln with Some s => Ok s | None => Err EcdsaSdError end)
                        (lines_not_at reveal_mandatory_idx reveal_relabeled);
      proof_value ← encode_derived_proof is_space digit_value (bp_signature base) (bp_public_key base) filtered_sigs reveal_map
                      reveal_mandatory_idx;
      Ok (dset (default [] (as_dict reveal)) ($"proof") (JDict (dset (ddel proof ($"proofValue")) ($"proofValue") (JStr proof_value))))
  | _ => Err UnsupportedCryptosuite
  end.

(** ** Verifying *)

Definition is_shape_error (e : exn) : bool :=
  isinstance e ValueError || isinstance e KeyError || isinstance e TypeError || isinstance e IndexError || isinstance e AttributeError.
Definition parse_derived (proof_value : pystr) : result derived_proof :=
  catch_as (fun e => negb (isinstance e ProofError) && is_shape_error e) ProofValueMalformed (decode_derived_proof proof_value).

(** The statements of the document as presented, and the digest of the proof's options. *)
Definition presented (derived proof : jobject) (parsed : derived_proof) : result (list pystr * bytes) :=
  canonicalizing
    (nquads ← to_rdf (JDict (unsecured derived));
     '(c14n_lines, _) ← canonicalize nquads;
     let relabel_map := foldl (fun out kv => dset out ($"_:" ++ kv.1) ($"_:" ++ kv.2)) [] (dp_label_map parsed) in
     proof_hash ← proof_config_hash proof (jget derived ($"@context"));
     Ok (relabel c14n_lines relabel_map, proof_hash)).

Definition verify_statement (jwk : jobject) (statement : pystr * bytes) : result unit :=
  text ← utf8 (statement.1 ++ [10]) ProofMalformed;
  ok ← verify_signature ed25519_verify ecdsa_verify mldsa_verify ($"ES256") (JDict jwk) text statement.2;
  raise_if (negb ok) SignatureInvalid.

Definition sd_verify (derived : jobject) (public_key_jwk : option jobject) (resolver : option DidResolver)
    (expected_purpose : option pystr) (instant : Z) (leeway : json) (check_temporal : bool) : result VerifiedSdCredential :=
  raise_if (nesting_exceeds (JDict derived) JSON_MAX_DEPTH) ProofMalformed;;
  match jget derived ($"proof") with
  | JDict proof =>
      raise_if (negb (eq_str (jget proof ($"cryptosuite")) SD_CRYPTOSUITE)) UnsupportedCryptosuite;;
      proof_value ← (match jget proof ($"proofValue") with JStr s => Ok s | _ => Err ProofValueMalformed end);
      parsed ← parse_derived proof_value;
      '(lines, proof_hash) ← presented derived proof parsed;
      mandatory_hash ← sha256_lines (lines_at (dp_indexes parsed) lines);
      issuer_jwk ← proof_key decode_point public_key_jwk resolver proof;
      ok ← verify_signature ed25519_verify ecdsa_verify mldsa_verify ($"ES256") (JDict issuer_jwk)
             (proof_hash ++ dp_public_key parsed ++ mandatory_hash) (dp_signature parsed);
      raise_if (negb ok) SignatureInvalid;;
      ephemeral_jwk ← p256_multikey_to_jwk (dp_public_key parsed);
      let non_mandatory := lines_not_at (dp_indexes parsed) lines in
      raise_if (negb (bool_decide (length (dp_signatures parsed) = length non_mandatory))) SignatureInvalid;;
      foldR (fun _ => verify_statement ephemeral_jwk) tt (zip non_mandatory (dp_signatures parsed));;
      validate_document (unsecured derived) (proof_config proof (jget derived ($"@context")));;
      check_proof_purpose proof expected_purpose;;
      expired ← check_validity_window is_space is_decimal fromisoformat (unsecured derived) proof instant leeway check_temporal;
      Ok {| sd_credential := derived; sd_issuer := issuer_of (unsecured derived); sd_subject := subject_of (unsecured derived);
            sd_proof := proof; sd_expired := expired |}
  | _ => Err ProofMalformed
  end.
End suite.

(** * What a derived proof's parts are *)

(** A dict built from distinct keys. *)
Lemma foldl_dset_fresh {A K V} `{EqDecision K} (f : A -> K) (g : A -> V) (l : list A) : forall out,
  NoDup (f <$> l) -> (forall x, x ∈ l -> f x ∉ out.*1) ->
  foldl (fun out x => dset out (f x) (g x)) out l = out ++ ((fun x => (f x, g x)) <$> l).
Proof.
  induction l as [|x l IH]; intros out Hnd Hf; cbn [foldl fmap list_fmap]; [by rewrite app_nil_r|].
  rewrite fmap_cons in Hnd. apply NoDup_cons in Hnd as [Hx Hnd]. rewrite dset_new by (apply Hf; left).
  rewrite IH; [by rewrite <- app_assoc|done|]. intros y Hy Hin. rewrite fmap_app in Hin. apply elem_of_app in Hin as [Hin|Hin].
  - apply (Hf y); [by right|done].
  - apply list_elem_of_singleton in Hin. cbn in Hin. apply Hx. rewrite <- Hin. by apply list_elem_of_fmap_2.
Qed.

Definition labels_ok (m : list (Z * bytes)) : Prop := dict_ok m /\ Forall (fun kv => 0 <= kv.1 /\ bytes_ok kv.2) m.

Lemma NoDup_fmap_on {A B} (f : A -> B) (l : list A) :
  (forall x y, x ∈ l -> y ∈ l -> f x = f y -> x = y) -> NoDup l -> NoDup (f <$> l).
Proof.
  intros Hinj Hl. induction Hl as [|x l Hx Hl IH]; [constructor|]. rewrite fmap_cons. apply NoDup_cons. split.
  - intros (y & E & Hy)%list_elem_of_fmap. apply Hinj in E; [congruence|left|by right].
  - apply IH. intros a b Ha Hb. apply Hinj; by right.
Qed.

Lemma label_keys m : labels_ok m -> NoDup ((fun kv : Z * bytes => C14N ++ str_of_int kv.1) <$> m).
Proof.
  intros [Hd Hm]. change (NoDup (((fun n => C14N ++ str_of_int n) ∘ fst) <$> m)). rewrite list_fmap_compose.
  apply NoDup_fmap_on; [|done]. rewrite Forall_forall in Hm.
  intros x y ([? ?] & -> & Hx)%list_elem_of_fmap ([? ?] & -> & Hy)%list_elem_of_fmap E%app_inv_head.
  apply Hm in Hx as [? _], Hy as [? _]. by apply str_of_int_inj.
Qed.

Lemma decompress_map m : labels_ok m -> decompress_label_map m = (fun kv => (C14N ++ str_of_int kv.1, mb_encode kv.2)) <$> m.
Proof.
  intros Hm. unfold decompress_label_map.
  apply (foldl_dset_fresh (fun kv : Z * bytes => C14N ++ str_of_int kv.1) (fun kv => mb_encode kv.2) m []); [by apply label_keys|set_solver].
Qed.

Lemma mb_encode_inj b1 b2 : bytes_ok b1 -> bytes_ok b2 -> mb_encode b1 = mb_encode b2 -> b1 = b2.
Proof. unfold mb_encode. intros H1 H2 E%app_inv_head. by apply b64url_encode_inj. Qed.

Lemma NoDup_snd_inj {K V} (m : list (K * V)) k1 k2 v : NoDup m.*2 -> (k1, v) ∈ m -> (k2, v) ∈ m -> k1 = k2.
Proof.
  intros Hnd [i Hi]%list_elem_of_lookup [j Hj]%list_elem_of_lookup.
  assert (i = j) as <-; [|congruence]. eapply NoDup_lookup; [done|..]; rewrite list_lookup_fmap; [by rewrite Hi|by rewrite Hj].
Qed.

(** Blank nodes with one label are one blank node. *)
Definition injective_labels (label_map : list (pystr * pystr)) : Prop :=
  dict_ok label_map /\ forall k1 k2 v, dget label_map k1 = Some v -> dget label_map k2 = Some v -> k1 = k2.

Lemma decompress_injective m : labels_ok m -> NoDup m.*2 -> injective_labels (decompress_label_map m).
Proof.
  intros Hm Hnd. pose proof Hm as [Hd Hok]. rewrite decompress_map by done. rewrite Forall_forall in Hok. split.
  - unfold dict_ok. rewrite <- list_fmap_compose. by apply label_keys.
  - intros k1 k2 v ([n1 d1] & [= -> ->] & H1)%dget_Some_elem%list_elem_of_fmap ([n2 d2] & [= -> E] & H2)%dget_Some_elem%list_elem_of_fmap.
    pose proof (Hok _ H1) as [_ B1]. pose proof (Hok _ H2) as [_ B2]. cbn in *. apply b64url_encode_inj in E as ->; [|done..].
    by rewrite (NoDup_snd_inj m n1 n2 d2).
Qed.

Lemma bytes_part_Ok v b : bytes_part v = Ok b <-> v = CBytes b.
Proof. destruct v; cbn; naive_solver. Qed.
Lemma index_part_Ok v n : index_part v = Ok n <-> v = CInt n /\ 0 <= n.
Proof.
  split.
  - destruct v; try done. cbn. intros (? & H%raise_if_Ok & [= <-])%bind_Ok. split; [done|]. apply negb_false_iff in H. lia.
  - intros [-> H]. cbn. by rewrite (proj2 (Z.leb_le _ _)).
Qed.
Lemma label_part_Ok kv n b : label_part kv = Ok (n, b) <-> kv = (KInt n, CBytes b) /\ 0 <= n.
Proof.
  unfold label_part. rewrite bind_Ok. setoid_rewrite bind_Ok. split.
  - intros (m & [E H]%index_part_Ok & b' & E'%bytes_part_Ok & [= -> ->]). destruct kv as [[] ?]; cbn in *; simplify_eq. done.
  - intros [-> H]. exists n. split; [by apply index_part_Ok|]. by exists b.
Qed.


Lemma decode_cbor_Ok data v : decode_cbor data = Ok v -> decode data = Ok v.
Proof. unfold decode_cbor. by intros (? & H%catch_as_Ok & (? & _ & [= ->])%bind_Ok)%bind_Ok. Qed.

Lemma drop_bytes n b : bytes_ok b -> bytes_ok (drop n b).
Proof. apply Forall_drop. Qed.

Lemma labels_part_Ok d m : cval_ok (CMap d) -> labels_part (CMap d) = Ok m -> labels_ok m.
Proof.
  intros [Hd Hv]%cval_ok_map Hm%mapR_Ok. assert (E : d = (fun kv => (KInt kv.1, CBytes kv.2)) <$> m /\ Forall (fun kv => 0 <= kv.1) m).
  { clear Hd Hv. induction Hm as [|kv [n b] d m [-> Hn]%label_part_Ok _ [-> IH]]; [done|]. split; [done|]. by constructor. }
  destruct E as [-> Hn]. split.
  - unfold dict_ok in *. rewrite <- list_fmap_compose in Hd. change (NoDup ((KInt ∘ fst) <$> m)) in Hd.
    rewrite list_fmap_compose in Hd. by eapply NoDup_fmap_1.
  - rewrite Forall_forall in Hn. rewrite Forall_forall in Hv. apply Forall_forall. intros kv H. split; [by apply Hn|].
    apply (Hv (KInt kv.1, CBytes kv.2)). by apply (list_elem_of_fmap_2 (fun kv => (KInt kv.1, CBytes kv.2))).
Qed.

Lemma decode_derived_parts pv p : decode_derived_proof pv = Ok p ->
  exists raw m, mb_decode pv = Ok raw /\ bytes_ok raw /\
    decode (drop 3 raw) = Ok (CArray [CBytes (dp_signature p); CBytes (dp_public_key p); CArray (CBytes <$> dp_signatures p);
      CMap ((fun kv => (KInt kv.1, CBytes kv.2)) <$> m); CArray (CInt <$> dp_indexes p)]) /\
    labels_ok m /\ NoDup m.*2 /\ dp_label_map p = decompress_label_map m /\ Forall (fun n => 0 <= n) (dp_indexes p).
Proof.
  unfold decode_derived_proof. intros (raw & Hraw & (? & _ & (parts & Hparts%decode_cbor_Ok & H)%bind_Ok)%bind_Ok)%bind_Ok.
  assert (bytes_ok raw) as Hok.
  { unfold mb_decode in Hraw. apply bind_Ok in Hraw as (? & _ & Hraw). by eapply b64url_decode_bytes. }
  change (length DERIVED_PROOF_HEADER) with 3%nat in Hparts.
  destruct parts as [| | | | |[|s [|k [|g [|l [|i [|? ?]]]]]]| | | |]; try done.
  apply bind_Ok in H as (sig & ->%bytes_part_Ok & H). apply bind_Ok in H as (pk & ->%bytes_part_Ok & H).
  apply bind_Ok in H as (sigs & Hg & H). apply bind_Ok in H as (m & Hl & H). apply bind_Ok in H as (idx & Hi & H).
  apply bind_Ok in H as (? & Hnd%raise_if_Ok%negb_false_iff%bool_decide_eq_true & [= <-]). cbn [dp_signature dp_public_key dp_signatures dp_indexes dp_label_map].
  destruct g as [| | | | |g| | | |]; try done. destruct i as [| | | | |i| | | |]; try done. destruct l as [| | | | | |d| | |]; try done.
  assert (g = CBytes <$> sigs) as ->.
  { cbn in Hg. apply mapR_Ok in Hg. clear -Hg. induction Hg as [|? ? ? ? ->%bytes_part_Ok _ IH]; [done|]. cbn. by rewrite IH. }
  assert (i = CInt <$> idx /\ Forall (fun n => 0 <= n) idx) as [-> Hidx].
  { cbn in Hi. apply mapR_Ok in Hi. clear -Hi. induction Hi as [|? ? ? ? [-> ?]%index_part_Ok _ [-> IH]]; [done|]. split; [done|by constructor]. }
  assert (cval_ok (CMap d)) as Hd.
  { pose proof (inv_ok _ _ _ _ _ (decode_inv _ _ (drop_bytes 3 raw Hok) Hparts)) as Hc%cval_ok_array.
    rewrite Forall_forall in Hc. apply Hc. set_solver. }
  assert (d = (fun kv => (KInt kv.1, CBytes kv.2)) <$> m) as Ed.
  { cbn in Hl. apply mapR_Ok in Hl. clear -Hl. induction Hl as [|kv [n b] d m [-> Hn]%label_part_Ok _ IH]; [done|]. cbn. by rewrite IH. }
  exists raw, m. pose proof (labels_part_Ok _ _ Hd Hl). subst d. done.
Qed.

Lemma decode_cbor_errs data : bytes_ok data -> errs_in (eq ProofValueMalformed) (decode_cbor data).
Proof.
  intros Hok. unfold decode_cbor. apply errs_in_bind.
  - apply catch_as_errs. eapply errs_in_impl; [|by apply decode_errs]. by intros ? <-.
  - intros v _. apply errs_in_bind; [|intros; apply errs_in_Ok]. clear. generalize ProofValueMalformed as e. intros e.
    induction v as [| | | | |l IH|d IH| | |] using cval_ind'; cbn [check_proof_subset]; try (by solve_errs).
    + induction IH as [|x l Hx _ IHl]; [apply errs_in_Ok|]. by apply errs_in_bind.
    + induction IH as [|[k x] d Hx _ IHl]; [apply errs_in_Ok|].
      apply errs_in_bind; [destruct k; cbn; by solve_errs|]. intros. by apply errs_in_bind.
Qed.

Lemma decode_derived_errs pv : errs_in (fun e => e = ProofValueMalformed \/ e = ValueError) (decode_derived_proof pv).
Proof.
  unfold decode_derived_proof.
  assert (Hb : forall v, errs_in (fun e => e = ProofValueMalformed \/ e = ValueError) (bytes_part v)).
  { intros []; cbn; solve_errs; by left. }
  assert (Hx : forall v, errs_in (fun e => e = ProofValueMalformed \/ e = ValueError) (index_part v)).
  { intros []; cbn; solve_errs; by left. }
  apply errs_in_bind.
  { unfold mb_decode. apply errs_in_bind; [apply errs_in_raise_if; by left|]. intros _ _.
    eapply errs_in_impl; [|apply b64url_decode_errs]. by right. }
  intros raw Hraw. assert (bytes_ok raw) as Hok.
  { unfold mb_decode in Hraw. apply bind_Ok in Hraw as (? & _ & Hraw). by eapply b64url_decode_bytes. }
  apply errs_in_bind; [apply errs_in_raise_if; by left|]. intros _ _. apply errs_in_bind.
  { eapply errs_in_impl; [|by apply decode_cbor_errs, drop_bytes]. intros ? <-. by left. }
  intros parts _. repeat (case_match; try (apply errs_in_Err; by left)).
  apply errs_in_bind; [done|]. intros. apply errs_in_bind; [done|]. intros.
  apply errs_in_bind; [unfold signatures_part; case_match; try (apply errs_in_Err; by left); by apply mapR_errs_in|]. intros.
  apply errs_in_bind.
  { unfold labels_part. case_match; try (apply errs_in_Err; by left). apply mapR_errs_in. intros. unfold label_part.
    apply errs_in_bind; [done|]. intros. apply errs_in_bind; [done|]. intros. apply errs_in_Ok. }
  intros. apply errs_in_bind; [unfold indexes_part; case_match; try (apply errs_in_Err; by left); by apply mapR_errs_in|]. intros.
  apply errs_in_bind; [apply errs_in_raise_if; by left|]. intros. apply errs_in_Ok.
Qed.

(** C19: A derived proof value fails closed.  Whatever string the holder sends, the parse gives
    either the five parts, with the types the verifier relies on (byte strings, indexes that are
    not negative, and a label map that gives no two blank nodes one label), or
    [ProofValueMalformed]; no other exception leaves it. *)
Theorem derived_proof_fails_closed (proof_value : pystr) :
  (exists p, parse_derived proof_value = Ok p /\ bytes_ok (dp_signature p) /\ bytes_ok (dp_public_key p) /\
     Forall bytes_ok (dp_signatures p) /\ Forall (fun n => 0 <= n) (dp_indexes p) /\ injective_labels (dp_label_map p)) \/
  parse_derived proof_value = Err ProofValueMalformed.
Proof.
  unfold parse_derived. destruct (decode_derived_proof proof_value) as [p|e] eqn:E.
  - left. exists p. split; [done|]. destruct (decode_derived_parts _ _ E) as (raw & m & _ & Hok & Hd & Hm & Hnd & -> & Hi).
    pose proof (inv_ok _ _ _ _ _ (decode_inv _ _ (drop_bytes 3 raw Hok) Hd)) as Hc%cval_ok_array.
    repeat match goal with H : Forall cval_ok (_ :: _) |- _ => apply Forall_cons in H as [? ?] end.
    split_and!; [done..| |done|by apply decompress_injective].
    apply cval_ok_array in H1. by rewrite Forall_fmap in H1.
  - right. by destruct (decode_derived_errs _ _ E) as [-> | ->].
Qed.

(** * What a verified credential guarantees *)

Section sound.
Context (hash : pystr -> bytes -> bytes).
Context (ed25519_verify : bytes -> bytes -> bytes -> option bool)
  (ecdsa_verify : pystr -> Z -> Z -> Z * Z -> bytes -> option bool)
  (mldsa_verify : pystr -> bytes -> bytes -> bytes -> result bool).
Context (decode_point : pystr -> bytes -> option (Z * Z)).
Context (is_space is_decimal : Z -> bool) (fromisoformat : pystr -> option (Z * option Z)).
Context (to_rdf normalize : json -> result pystr) (canonize : pystr -> result (pystr * list (pystr * pystr))).
Context (validate_document : jobject -> jobject -> result unit).

Definition verifies (jwk : jobject) (message signature : bytes) : Prop :=
  verify_signature ed25519_verify ecdsa_verify mldsa_verify ($"ES256") (JDict jwk) message signature = Ok true.

(** [lines] are the statements of the document as presented: its canonical N-Quads, the blank
    nodes renamed by the label map. *)
Definition statements_of (derived : jobject) (parsed : derived_proof) (lines : list pystr) : Prop :=
  exists nquads text issued mapping, to_rdf (JDict (unsecured derived)) = Ok nquads /\ canonize nquads = Ok (text, issued) /\
    mapping = ((fun kv => ($"_:" ++ kv.1, $"_:" ++ kv.2)) <$> dp_label_map parsed) /\
    lines = relabel (sort_by id (lines_of text)) mapping.

(** The issuer's signature: over the digest of the proof's options, the proof-scoped key and the
    digest of the statements the proof marks mandatory. *)
Definition issuer_signed (derived proof : jobject) (parsed : derived_proof) (lines : list pystr) (issuer_jwk : jobject) : Prop :=
  exists config text, normalize (JDict (proof_config proof (jget derived ($"@context")))) = Ok config /\ utf8_encode config = Ok text /\
    exists mandatory, utf8_encode (concat ((fun ln => ln ++ [10]) <$> lines_at (dp_indexes parsed) lines)) = Ok mandatory /\
    verifies issuer_jwk (hash ($"sha256") text ++ dp_public_key parsed ++ hash ($"sha256") mandatory) (dp_signature parsed).

(** A statement is under the issuer's own signature, or under one by the key the issuer signed. *)
Definition statement_signed (parsed : derived_proof) (lines : list pystr) (key : jobject) (ln : pystr) : Prop :=
  ln ∈ lines_at (dp_indexes parsed) lines \/
  exists text sig, utf8_encode (ln ++ [10]) = Ok text /\ sig ∈ dp_signatures parsed /\ verifies key text sig.

Definition sd_guarantee (derived : jobject) (public_key : option jobject) (resolver : option DidResolver)
    (expected_purpose : option pystr) (instant : Z) (leeway : json) (ct : bool) (r : VerifiedSdCredential) : Prop :=
  exists proof pv parsed lines issuer_jwk key,
    jget derived ($"proof") = JDict proof /\ jget proof ($"cryptosuite") = JStr SD_CRYPTOSUITE /\
    jget proof ($"proofValue") = JStr pv /\ decode_derived_proof pv = Ok parsed /\ injective_labels (dp_label_map parsed) /\
    proof_key decode_point public_key resolver proof = Ok issuer_jwk /\
    statements_of derived parsed lines /\ issuer_signed derived proof parsed lines issuer_jwk /\
    p256_multikey_to_jwk decode_point (dp_public_key parsed) = Ok key /\ Forall (statement_signed parsed lines key) lines /\
    validate_document (unsecured derived) (proof_config proof (jget derived ($"@context"))) = Ok tt /\
    (forall p, expected_purpose = Some p -> jget proof ($"proofPurpose") = JStr p) /\
    check_validity_window is_space is_decimal fromisoformat (unsecured derived) proof instant leeway ct = Ok (sd_expired r) /\
    sd_credential r = derived /\ sd_proof r = proof /\
    sd_issuer r = issuer_of (unsecured derived) /\ sd_subject r = subject_of (unsecured derived) /\
    in_window is_space is_decimal fromisoformat (unsecured derived) proof instant leeway ct (sd_expired r).

Lemma relabel_pairs m : labels_ok m ->
  foldl (fun out kv => dset out ($"_:" ++ kv.1) ($"_:" ++ kv.2)) [] (decompress_label_map m) =
  (fun kv => ($"_:" ++ kv.1, $"_:" ++ kv.2)) <$> decompress_label_map m.
Proof using.
  intros Hm. apply (foldl_dset_fresh (fun kv : pystr * pystr => $"_:" ++ kv.1) (fun kv => $"_:" ++ kv.2) _ []); [|set_solver].
  rewrite decompress_map, <- list_fmap_compose by done. change (NoDup ((app ($"_:") ∘ (fun kv : Z * bytes => C14N ++ str_of_int kv.1)) <$> m)).
  rewrite list_fmap_compose. apply NoDup_fmap_on; [|by apply label_keys]. intros x y _ _. apply app_inv_head.
Qed.

(** The lines at the indexes and the others are all the lines. *)
Lemma lines_split idx lines ln : ln ∈ lines -> ln ∈ lines_at idx lines \/ ln ∈ lines_not_at idx lines.
Proof using.
  intros [i Hi]%list_elem_of_lookup. assert (He : (Z.of_nat i, ln) ∈ enumerate lines).
  { apply list_elem_of_lookup. exists i. unfold enumerate. by rewrite list_lookup_imap, Hi. }
  destruct (decide (Z.of_nat i ∈ idx)) as [H|H]; [left|right]; apply list_elem_of_fmap; (exists (Z.of_nat i, ln); split; [done|]);
    by apply list_elem_of_filter.
Qed.

Lemma statements_verified key lines sigs u :
  length sigs = length lines ->
  foldR (fun _ => verify_statement ed25519_verify ecdsa_verify mldsa_verify key) u (zip lines sigs) = Ok tt ->
  Forall (fun ln => exists text sig, utf8_encode (ln ++ [10]) = Ok text /\ sig ∈ sigs /\ verifies key text sig) lines.
Proof using.
  revert sigs u. induction lines as [|ln lines IH]; intros [|sig sigs] u Hl H; try done. cbn [zip zip_with foldR] in H.
  apply bind_Ok in H as ([] & Hs & H). unfold verify_statement in Hs. cbn [fst snd] in Hs.
  apply bind_Ok in Hs as (text & Ht%catch_as_Ok & (ok & Hv & Hok%raise_if_Ok)%bind_Ok). apply negb_false_iff in Hok as ->. constructor.
  - exists text, sig. split; [done|]. split; [left|exact Hv].
  - eapply Forall_impl; [apply (IH sigs () ltac:(by injection Hl) H)|]. intros x (t & s & ? & ? & ?). exists t, s. split; [done|]. split; [by right|done].
Qed.
End sound.

Lemma sd_verify_disclosure hash ed25519_verify ecdsa_verify mldsa_verify decode_point is_space is_decimal fromisoformat to_rdf
    normalize canonize validate_document derived public_key resolver expected_purpose instant leeway ct r :
  sd_verify hash ed25519_verify ecdsa_verify mldsa_verify decode_point is_space is_decimal fromisoformat to_rdf normalize canonize
    validate_document derived public_key resolver expected_purpose instant leeway ct = Ok r ->
  sd_guarantee hash ed25519_verify ecdsa_verify mldsa_verify decode_point is_space is_decimal fromisoformat to_rdf normalize canonize
    validate_document derived public_key resolver expected_purpose instant leeway ct r.
Proof.
  unfold sd_verify. intros (? & _ & H)%bind_Ok. destruct (jget derived ($"proof")) as [| | | | | |proof|] eqn:Eproof; try done.
  apply bind_Ok in H as (? & Hcs%raise_if_Ok%negb_false_iff%eq_str_true & H).
  destruct (jget proof ($"proofValue")) as [| | | |pv| | |] eqn:Epv; try done. cbn [mbind result_bind] in H.
  apply bind_Ok in H as (parsed & Hp%catch_as_Ok & H). apply bind_Ok in H as ([lines ph] & Hpres%catch_as_Ok & H).
  apply bind_Ok in H as (mh & Hmh & H). apply bind_Ok in H as (jwk & Hjwk & H).
  apply bind_Ok in H as (ok & Hsig & H). apply bind_Ok in H as (? & Hok%raise_if_Ok & H). apply negb_false_iff in Hok as ->.
  apply bind_Ok in H as (key & Hkey & H). apply bind_Ok in H as (? & Hlen%raise_if_Ok%negb_false_iff%bool_decide_eq_true & H).
  apply bind_Ok in H as ([] & Hstat & H). apply bind_Ok in H as ([] & Hval & H). apply bind_Ok in H as ([] & Hpurp & H).
  apply bind_Ok in H as (expired & Hwin & [= <-]).
  apply bind_Ok in Hpres as (nquads & Hrdf & ([l0 issued] & Hcan & (ph' & Hph & [= <- <-])%bind_Ok)%bind_Ok).
  apply bind_Ok in Hcan as ([text issued'] & Hcan & [= <- <-]).
  apply bind_Ok in Hph as (config & Hnorm & (ctext & Hutf%catch_as_Ok & [= <-])%bind_Ok).
  apply bind_Ok in Hmh as (mtext & Hmtext%catch_as_Ok & [= <-]).
  destruct (decode_derived_parts _ _ Hp) as (raw & m & _ & _ & _ & Hm & Hnd & Elm & _).
  rewrite Elm, relabel_pairs, <- Elm in * by done.
  set (L := relabel _ _) in *.
  exists proof, pv, parsed, L, jwk, key. split_and!; try done.
  - rewrite Elm. by apply decompress_injective.
  - by exists nquads, text, issued', ((fun kv => ($"_:" ++ kv.1, $"_:" ++ kv.2)) <$> dp_label_map parsed).
  - by exists config, ctext; split; [|split; [|exists mtext]].
  - apply Forall_forall. intros ln Hln. destruct (lines_split (dp_indexes parsed) L ln Hln) as [Hin|Hin]; [by left|right].
    pose proof (statements_verified _ _ _ _ _ _ _ Hlen Hstat) as Hs. rewrite Forall_forall in Hs. by apply Hs.
  - by eapply check_proof_purpose_Ok.
  - by eapply check_validity_window_Ok.
Qed.

(** C16: What a verified selective disclosure guarantees.  Its document's statements are the
    canonical N-Quads of everything it presents but the proof, read as presented; the label map is
    injective, so blank nodes that differ in the document differ in the statements.  The issuer's
    key (the caller's, or the one the verification method resolves to) signed the options of the
    proof, the proof-scoped key and exactly the statements the proof marks mandatory; every other
    statement carries a signature of that proof-scoped key, so no statement of the document is
    unsigned.  The JSON says no more than the statements do (context validation), the purpose is
    the expected one, and the validity window of what was disclosed was checked. *)
Theorem disclosure_verify_sound hash ed25519_verify ecdsa_verify mldsa_verify decode_point is_space is_decimal fromisoformat to_rdf
    normalize canonize validate_document derived public_key resolver expected_purpose instant leeway ct r :
  sd_verify hash ed25519_verify ecdsa_verify mldsa_verify decode_point is_space is_decimal fromisoformat to_rdf normalize canonize
    validate_document derived public_key resolver expected_purpose instant leeway ct = Ok r ->
  sd_guarantee hash ed25519_verify ecdsa_verify mldsa_verify decode_point is_space is_decimal fromisoformat to_rdf normalize canonize
    validate_document derived public_key resolver expected_purpose instant leeway ct r.
Proof.
  by apply sd_verify_disclosure.
Qed.

(** * What a selection reveals *)

(** The value at the end of a path of member names. *)
Fixpoint at_path (v : json) (path : list pystr) : option json :=
  match path with
  | [] => Some v
  | k :: path => match v with JDict d => match dget d k with Some v => at_path v path | None => None end | _ => None end
  end.

Lemma at_path_app v p q : at_path v (p ++ q) = (w ← at_path v p; at_path w q).
Proof.
  revert v. induction p as [|k p IH]; intros v; [done|]. cbn [app at_path]. destruct v as [| | | | | |d|]; try done.
  destruct (dget d k) as [w|]; [apply IH|done].
Qed.

(** What an object keeps of its source when a path goes through it. *)
Definition ID_MEMBERS : list pystr := [$"@id"; $"id"; $"type"].

Lemma initial_selection_spec source k v : dget (initial_selection source) k = Some v ->
  exists d, source = JDict d /\ k ∈ ID_MEMBERS /\ dget d k = Some v.
Proof.
  unfold initial_selection. destruct source as [| | | | | |d|]; try done. intros H. exists d. split; [done|].
  assert (Hid : forall key sel, (dget (id_member d key sel) k = Some v -> dget sel k = Some v \/ k = key /\ dget d k = Some v)).
  { intros key sel. unfold id_member. destruct (jget d key) eqn:E; try by left. rewrite dget_dset. case_decide; [|by left].
    subst. intros [= <-]. right. split; [done|]. by apply jget_Some. }
  assert (Hids : dget (id_member d ($"id") (id_member d ($"@id") [])) k = Some v -> k ∈ ID_MEMBERS /\ dget d k = Some v).
  { intros [Hi|[-> ?]]%Hid; [apply Hid in Hi as [?|[-> ?]]; [done|]|]; split; [..|done| |done]; unfold ID_MEMBERS; set_solver. }
  destruct (dget d ($"type")) as [t|] eqn:Et; [|by apply Hids]. rewrite dget_dset in H. case_decide; [|by apply Hids].
  subst. injection H as <-. split; [unfold ID_MEMBERS; set_solver|done].
Qed.

(** Everything a selection [sel] of [source] holds, for the pointers [ps]: a path of [sel] is
    under one the pointers name, or under an identifying member of an object on the way, and has
    the source's value there; or it is on the way. *)
Inductive disclosed (paths : list (list pystr)) (path : list pystr) : Prop :=
  | named tokens rest : tokens ∈ paths -> path = tokens ++ rest -> disclosed paths path
  | identifying tokens before after k rest : tokens ∈ paths -> tokens = before ++ after -> after <> [] -> k ∈ ID_MEMBERS ->
      path = before ++ k :: rest -> disclosed paths path.
Definition on_the_way (paths : list (list pystr)) (path : list pystr) : Prop :=
  exists tokens after, tokens ∈ paths /\ tokens = path ++ after /\ after <> [].

Lemma select_path_spec tokens : forall source sel sel', select_path tokens source sel = Ok sel' -> tokens <> [] ->
  (exists v, at_path source tokens = Some v) /\
  at_path sel' tokens = at_path source tokens /\
  (forall path, (exists v, at_path sel path = Some v /\ at_path source path = Some v) -> at_path sel' path = at_path source path) /\
  (forall path v, at_path sel' path = Some v ->
     at_path sel path = Some v \/ (disclosed [tokens] path /\ at_path source path = Some v) \/ on_the_way [tokens] path).
Proof.
  induction tokens as [|tok tokens IH]; intros source sel sel' H Hn; [done|clear Hn]. cbn [select_path] in H.
  destruct source as [| | | | | |src|]; try done. destruct (dget src tok) as [value|] eqn:Ev; [|done].
  destruct sel as [| | | | | |sel|]; try done. destruct tokens as [|tok' tokens].
  - injection H as <-. split; [exists value; cbn; by rewrite Ev|]. split; [cbn; by rewrite dget_dset, decide_True, Ev|]. split.
    + intros [|k path] (v & H1 & H2); cbn [at_path] in *.
      * simplify_eq. by rewrite dset_same.
      * rewrite dget_dset. case_decide as Hk; [subst; by rewrite Ev|]. by rewrite H1, H2.
    + intros [|k path] v Hp; cbn [at_path] in *.
      * right. right. exists [tok], [tok]. split; [left|done].
      * rewrite dget_dset in Hp. case_decide as Hk; [|by left]. subst. right. left. rewrite Ev. split; [|done].
        by apply (named _ _ [tok] path); [left|].
  - set (child := match jget sel tok with JNull => JDict (initial_selection value) | c => c end) in H.
    apply bind_Ok in H as (child' & Hc & [= <-]). apply IH in Hc as (Hv & Hend & Hkeep & Honly); [|done].
    split; [cbn [at_path]; by rewrite Ev|]. split; [cbn [at_path] in *; by rewrite dget_dset, decide_True, Ev|]. split.
    + intros [|k path] (v & H1 & H2); cbn [at_path] in *.
      * simplify_eq. assert (Hch : child = value).
        { unfold child, jget. rewrite Ev. cbn. destruct value; try done. destruct Hv as (? & Hv). by cbn in Hv. }
        rewrite Hch in Hkeep. pose proof (Hkeep [] ltac:(by exists value)) as [= ->]. by rewrite dset_same.
      * rewrite dget_dset. case_decide as Hk; [|by rewrite H1, H2]. subst. rewrite Ev in *. apply Hkeep.
        destruct (dget sel tok) as [c|] eqn:Es; [|done]. exists v. split; [|done]. unfold child, jget. rewrite Es. cbn.
        destruct c; try done. destruct path as [|? ?]; [|done]. cbn in *. simplify_eq. destruct Hv as (? & Hv). by cbn in Hv.
    + intros [|k path] v Hp; cbn [at_path] in Hp.
      * right. right. exists (tok :: tok' :: tokens), (tok :: tok' :: tokens). split; [left|done].
      * rewrite dget_dset in Hp. case_decide as Hk; [subst k|by left]. cbn [at_path]. rewrite Ev.
        destruct (Honly _ _ Hp) as [Ho|[[Hd Ho]|Ho]].
        -- unfold child, jget in Ho. destruct (dget sel tok) as [c|] eqn:Es; cbn in Ho.
           1: destruct c; try (by left).
           all: destruct path as [|k path]; [right; right; exists (tok :: tok' :: tokens), (tok' :: tokens); split; [left|done]|].
           all: cbn [at_path] in Ho |- *; destruct (dget (initial_selection value) k) as [w|] eqn:Ei; [|done];
             apply initial_selection_spec in Ei as (d & -> & Hk & Hd); rewrite Hd.
           all: right; left; split; [|done]; by eapply (identifying _ _ _ [tok] (tok' :: tokens) k path); [left|..].
        -- right. left. split; [|done]. destruct Hd as [t rest ->%list_elem_of_singleton ->|t before after k' rest ->%list_elem_of_singleton E Hne Hk ->].
           ++ by apply (named _ _ (tok :: tok' :: tokens) rest); [left|].
           ++ apply (identifying _ _ (tok :: tok' :: tokens) (tok :: before) after k' rest); [left|by rewrite E|done..].
        -- right. right. destruct Ho as (t & after & ->%list_elem_of_singleton & E & Hne).
           exists (tok :: tok' :: tokens), after. split; [left|]. by rewrite E.
Qed.

Lemma parse_pointer_nonempty p tokens : parse_pointer p = Ok tokens -> tokens <> [].
Proof.
  destruct p; try done. cbn [parse_pointer]. intros (? & _ & [= <-])%bind_Ok.
  destruct (partition_split_on 47 (drop 1 s)) as [rest ->]. done.
Qed.

Lemma disclosed_mono paths paths' path : (forall t, t ∈ paths -> t ∈ paths') -> disclosed paths path -> disclosed paths' path.
Proof. intros Hsub [t rest Ht ->|t before after k rest Ht -> Hne Hk ->]; [by eapply named; [apply Hsub|]|by eapply identifying; [by apply Hsub|..]]. Qed.
Lemma on_the_way_mono paths paths' path : (forall t, t ∈ paths -> t ∈ paths') -> on_the_way paths path -> on_the_way paths' path.
Proof. intros Hsub (t & after & Ht & E). exists t, after. split; [by apply Hsub|done]. Qed.

Lemma select_pointers_spec document ps : forall sel sel', foldR (select_pointer document) sel ps = Ok sel' ->
  exists paths, Forall2 (fun p tokens => parse_pointer p = Ok tokens) ps paths /\
    (forall path, (exists v, at_path sel path = Some v /\ at_path (JDict document) path = Some v) ->
       at_path sel' path = at_path (JDict document) path) /\
    (forall tokens, tokens ∈ paths -> exists v, at_path (JDict document) tokens = Some v /\ at_path sel' tokens = Some v) /\
    (forall path v, at_path sel' path = Some v ->
       at_path sel path = Some v \/ (disclosed paths path /\ at_path (JDict document) path = Some v) \/ on_the_way paths path).
Proof.
  induction ps as [|p ps IH]; intros sel sel' H; cbn [foldR] in H.
  - injection H as <-. exists []. split; [constructor|]. split; [intros path (v & -> & ->); done|]. split; [set_solver|]. by left.
  - apply bind_Ok in H as (sel1 & H1 & H). unfold select_pointer in H1. apply bind_Ok in H1 as (tokens & Ht & H1).
    apply select_path_spec in H1 as ((v & Hv) & Hend & Hkeep & Honly); [|by eapply parse_pointer_nonempty].
    apply IH in H as (paths & Hps & Hkeep' & Hall & Honly'). exists (tokens :: paths). split; [by constructor|]. split; [|split].
    + intros path Hp. apply Hkeep'. destruct Hp as (w & Hw & Hw'). exists w. split; [|done]. rewrite Hkeep; [done|by exists w].
    + intros t [->|Ht']%elem_of_cons; [|by apply Hall]. exists v. split; [done|]. rewrite Hkeep'; [done|]. exists v. by rewrite Hend.
    + intros path w [Hw|[[Hd Hw]|Hw]]%Honly'.
      * apply Honly in Hw as [Hw|[[Hd Hw]|Hw]]; [by left|right; left; split; [|done]|right; right].
        -- eapply disclosed_mono; [|done]. set_solver.
        -- eapply on_the_way_mono; [|done]. set_solver.
      * right. left. split; [|done]. eapply disclosed_mono; [|done]. set_solver.
      * right. right. eapply on_the_way_mono; [|done]. set_solver.
Qed.

Lemma initial_with_context document k v :
  dget (with_context document (initial_selection (JDict document))) k = Some v -> (k ∈ ID_MEMBERS \/ k = $"@context") /\ dget document k = Some v.
Proof.
  unfold with_context. intros H. destruct (dget document ($"@context")) as [c|] eqn:Ec.
  - rewrite dget_dset in H. case_decide as Hk; [subst; injection H as <-; split; [by right|done]|].
    apply initial_selection_spec in H as (d & [= <-] & ? & ?). split; [by left|done].
  - apply initial_selection_spec in H as (d & [= <-] & ? & ?). split; [by left|done].
Qed.

Lemma select_json_ld_spec ps document sel : select_json_ld ps document = Ok (Some sel) ->
  exists paths, ps <> [] /\ Forall2 (fun p tokens => parse_pointer p = Ok tokens) ps paths /\
    (forall tokens, tokens ∈ paths -> exists v, at_path (JDict document) tokens = Some v /\ at_path (JDict sel) tokens = Some v) /\
    (forall path v, at_path (JDict sel) path = Some v ->
       ((disclosed paths path \/ path !! 0%nat = Some ($"@context")) /\ at_path (JDict document) path = Some v) \/ on_the_way paths path).
Proof.
  intros H. destruct ps as [|p ps]; [done|]. cbn [select_json_ld] in H. apply bind_Ok in H as (s & H & [= Es]).
  destruct s as [| | | | | |s|]; try done. injection Es as ->.
  apply select_pointers_spec in H as (paths & Hps & _ & Hall & Honly). exists paths. split; [done|]. split; [done|]. split; [done|].
  intros path v Hv. destruct (Honly _ _ Hv) as [Hi|[[? ?]|?]]; [|left; split; [by left|done]|by right].
  inversion Hps as [|? tokens ? paths' Hp _]; subst. apply parse_pointer_nonempty in Hp as Hne.
  destruct path as [|k path]; [right; exists tokens, tokens; split; [left|done]|]. cbn [at_path] in Hi.
  destruct (dget (with_context _ _) k) as [w|] eqn:Ew; [|done]. apply initial_with_context in Ew as [Hk Ew]. left.
  split; [|cbn [at_path]; by rewrite Ew]. destruct Hk as [Hk|Hk]; [left|right; cbn; by rewrite Hk].
  by apply (identifying _ _ tokens [] tokens k path); [left|..].
Qed.

(** C40: A selection reveals what its pointers name.  Every pointer resolves in the document, and
    the selection holds the document's own value at the same place, however the pointers overlap
    and in whatever order they come. *)
Theorem selection_reveals_pointers (pointers : list cval) (document sel : jobject) (p : cval) :
  select_json_ld pointers document = Ok (Some sel) -> p ∈ pointers ->
  exists tokens v, parse_pointer p = Ok tokens /\
    at_path (JDict document) tokens = Some v /\ at_path (JDict sel) tokens = Some v.
Proof.
  intros H Hp. apply select_json_ld_spec in H as (paths & _ & Hps & Hall & _).
  apply list_elem_of_lookup in Hp as [i Hi]. destruct (Forall2_lookup_l _ _ _ _ _ Hps Hi) as (tokens & Ht & Hparse).
  destruct (Hall tokens) as (v & ? & ?); [by eapply list_elem_of_lookup_2|]. by exists tokens, v.
Qed.

(** C17: A selection reveals nothing else.  Any value the selection holds is the document's value at
    the same place, and the place is at or below one a pointer names, or is the [@context], or is
    the identifier or the type of an object a pointer goes through; the only other content is those
    objects themselves, on the way to a pointer's end. *)
Theorem selection_reveals_only (pointers : list cval) (document sel : jobject) (path : list pystr) (v : json) :
  select_json_ld pointers document = Ok (Some sel) -> at_path (JDict sel) path = Some v ->
  exists paths, Forall2 (fun p tokens => parse_pointer p = Ok tokens) pointers paths /\
    (((disclosed paths path \/ path !! 0%nat = Some ($"@context")) /\ at_path (JDict document) path = Some v) \/ on_the_way paths path).
Proof. intros H Hv. apply select_json_ld_spec in H as (paths & _ & Hps & _ & Honly). exists paths. split; [done|]. by apply Honly. Qed.

(** * Examples *)

Definition example_vc : jobject :=
  [($"@context", JStr ($"c")); ($"id", JStr ($"urn:bnid:b1")); ($"type", JStr ($"VC")); ($"issuer", JStr ($"did:i"));
   ($"credentialSubject", JDict [($"id", JStr ($"urn:bnid:b0")); ($"name", JStr ($"Ada")); ($"birth/date", JStr ($"1815"))])].

Lemma selection_reveals_pointers_witness : exists tokens v,
  parse_pointer (CText ($"/credentialSubject/birth~1date")) = Ok tokens /\ at_path (JDict example_vc) tokens = Some v /\
  at_path (JDict [($"id", JStr ($"urn:bnid:b1")); ($"type", JStr ($"VC")); ($"@context", JStr ($"c"));
                  ($"credentialSubject", JDict [($"id", JStr ($"urn:bnid:b0")); ($"birth/date", JStr ($"1815"))])]) tokens = Some v.
Proof. apply (selection_reveals_pointers [CText ($"/credentialSubject/birth~1date")] example_vc); [vm_compute; reflexivity|left]. Defined.

Lemma selection_reveals_only_witness : exists paths,
  Forall2 (fun p tokens => parse_pointer p = Ok tokens) [CText ($"/credentialSubject/name")] paths /\
  (((disclosed paths [$"credentialSubject"; $"name"] \/ [$"credentialSubject"; $"name"] !! 0%nat = Some ($"@context")) /\
    at_path (JDict example_vc) [$"credentialSubject"; $"name"] = Some (JStr ($"Ada"))) \/ on_the_way paths [$"credentialSubject"; $"name"]).
Proof.
  apply (selection_reveals_only _ _ [($"id", JStr ($"urn:bnid:b1")); ($"type", JStr ($"VC")); ($"@context", JStr ($"c"));
     ($"credentialSubject", JDict [($"id", JStr ($"urn:bnid:b0")); ($"name", JStr ($"Ada"))])]); vm_compute; reflexivity.
Defined.

(** * A world with one blank node *)

Definition ascii_space (c : Z) : bool := bool_decide (c ∈ [9; 10; 13; 32]).
Definition ascii_digit (c : Z) : option Z := if is_ascii_digit c then Some (c - 48) else None.
Definition toy_expand (v : json) : result json := Ok v.
Definition toy_compact (v _ : json) : result jobject := match v with JDict d => Ok d | _ => Err TypeError end.
Definition toy_subject (d : jobject) : pystr :=
  match jget d ($"@id") with JStr s => if startswith s ($"_:") then s else $"<" ++ s ++ $">" | _ => $"_:b0" end.
Definition toy_to_rdf (v : json) : result pystr :=
  match v with
  | JDict d => Ok (concat ((fun kv => match kv.2 with
                                      | JStr s => if bool_decide (kv.1 ∈ [$"@id"; $"@context"]) then []
                                                  else toy_subject d ++ $" <" ++ kv.1 ++ $"> " ++ s ++ $" ." ++ [10]
                                      | _ => []
                                      end) <$> d))
  | _ => Err TypeError
  end.
Definition toy_normalize (v : json) : result pystr := Ok ($"options").
Definition toy_issued : list (pystr * pystr) := [($"_:b0", $"_:c14n0")].
Definition toy_canonize (q : pystr) : result (pystr * list (pystr * pystr)) := Ok (relabel_line toy_issued q, toy_issued).
Definition toy_hash (_ : pystr) (b : bytes) : bytes := b.
Definition toy_hmac (key _ : bytes) : bytes := key.
Definition toy_encode_point (x y : Z) : option bytes :=
  if (0 <=? x) && (x <? 256 ^ 32) && (y =? 0) then Some (2 :: to_bytes_be 32 x) else None.
Definition toy_decode_point (_ : pystr) (p : bytes) : option (Z * Z) := Some (from_bytes_be (drop 1 p), 0).
Definition toy_ed25519 (_ _ _ : bytes) : option bool := Some true.
Definition toy_ecdsa (_ : pystr) (_ _ : Z) (_ : Z * Z) (_ : bytes) : option bool := Some true.
Definition toy_mldsa (_ : pystr) (_ _ _ : bytes) : result bool := Ok true.
Definition toy_key : SigningKey := P256SigningKey [] 5 0 (fun _ => (1, 2)).
Definition toy_jwk : jobject := ec_jwk ($"P-256") (to_bytes_be 32 5) (to_bytes_be 32 0).
Definition toy_credential : jobject :=
  [($"@context", JStr ($"c")); ($"issuer", JStr ($"did:i")); ($"name", JStr ($"Ada")); ($"year", JStr ($"1815"))].
Definition toy_validate (_ _ : jobject) : result unit := Ok tt.
Definition toy_secured : result jobject :=
  add_base_proof toy_hash toy_hmac toy_encode_point toy_expand toy_compact toy_to_rdf toy_normalize toy_canonize toy_validate
    toy_key toy_key [9; 9] toy_credential (Ok ($"2024-01-01T00:00:00Z")) ($"did:i#k") ($"assertionMethod") [$"/issuer"].
Definition toy_derived : result jobject :=
  secured ← toy_secured;
  derive_proof toy_hmac ascii_space ascii_digit toy_expand toy_compact toy_to_rdf toy_canonize secured [$"/name"].
Definition toy_verify (derived : jobject) : result VerifiedSdCredential :=
  sd_verify toy_hash toy_ed25519 toy_ecdsa toy_mldsa toy_decode_point ascii_space is_ascii_digit (fun _ => None) toy_to_rdf
    toy_normalize toy_canonize toy_validate derived (Some toy_jwk) None (Some ($"assertionMethod")) 0 (JInt 60) true.

(** The holder hides the year, and nothing else. *)
Example toy_disclosed : (derived ← toy_derived; r ← toy_verify derived; Ok (unsecured (sd_credential r))) =
  Ok [($"@id", JStr ($"_:b0")); ($"@context", JStr ($"c")); ($"issuer", JStr ($"did:i")); ($"name", JStr ($"Ada"))].
Proof. vm_compute. reflexivity. Qed.
(** A statement the holder changes is not the issuer's. *)
Example toy_missing_signature : (derived ← toy_derived; r ← toy_verify (dset derived ($"year") (JStr ($"1816"))); Ok (sd_expired r)) = Err SignatureInvalid.
Proof. vm_compute. reflexivity. Qed.

Definition result_or {A} (default : A) (m : result A) : A := match m with Ok a => a | Err _ => default end.

Lemma disclosure_verify_sound_witness :
  sd_guarantee toy_hash toy_ed25519 toy_ecdsa toy_mldsa toy_decode_point ascii_space is_ascii_digit (fun _ => None) toy_to_rdf
    toy_normalize toy_canonize toy_validate (result_or [] toy_derived) (Some toy_jwk) None (Some ($"assertionMethod")) 0 (JInt 60) true
    {| sd_credential := result_or [] toy_derived; sd_issuer := JStr ($"did:i"); sd_subject := JNull;
       sd_proof := match jget (result_or [] toy_derived) ($"proof") with JDict p => p | _ => [] end; sd_expired := false |}.
Proof. apply disclosure_verify_sound. vm_compute. reflexivity. Defined.

(** An error leaves the library's family.  The proof-scoped key is the issuer's choice; one that is no
    point of the curve is met after the issuer's signature has verified, outside every handler, and
    [verify] raises the backend's bare [ValueError]. *)
Theorem off_curve_key_escapes :
  (derived ← toy_derived;
   sd_verify toy_hash toy_ed25519 toy_ecdsa toy_mldsa (fun _ _ => None) ascii_space is_ascii_digit (fun _ => None) toy_to_rdf
     toy_normalize toy_canonize toy_validate derived (Some toy_jwk) None (Some ($"assertionMethod")) 0 (JInt 60) true) = Err ValueError /\
  isinstance ValueError OpenvcError = false.
Proof. split; vm_compute; reflexivity. Qed.
