(* ===== verification/Cose.v ===== *)
(** [openvc.cose] (src/src/openvc/cose.py): COSE_Sign1 and COSE_Mac0, verify only.

    The bytes a signature or a MAC covers are built by the [Cbor] encoder, so what they bind is
    a theorem about that encoder ([tbs_binding]). *)
From S2P Require Import Prelude Errors Utf8 Cbor Json Base64 Did Keys.

Definition HDR_ALG : Z := 1.
Definition HDR_CRIT : Z := 2.
Definition HDR_X5CHAIN : Z := 33.
Definition KNOWN_CRIT_LABELS : list Z := [HDR_ALG; HDR_X5CHAIN].
Definition COSE_ALG_TO_JOSE : list (Z * pystr) := [(-7, $"ES256"); (-35, $"ES384"); (-8, $"EdDSA")].
Definition COSE_HMAC_256 : Z := 5.
Definition TAG_COSE_SIGN1 : Z := 18.
Definition TAG_COSE_MAC0 : Z := 17.

Abbreviation cmap := (list (ckey * cval)).

(** [d.get(label)] on a decoded map. *)
Definition cget (d : cmap) (k : ckey) : cval := default CNull (dget d k).

(** [COSE_Sign1] and [COSE_Mac0]: [authenticator] is the signature or the tag. *)
Record CoseMessage := {
  protected : bytes; protected_header : cmap; unprotected : cmap; payload : option bytes; authenticator : bytes }.

(** * Parsing *)

Definition unwrap (obj : cval) (tag : Z) : result (list cval) :=
  obj ← match obj with
        | CTag t v _ => raise_if (negb (t =? tag)) CoseMalformed;; Ok v
        | _ => Ok obj
        end;
  match obj with
  | CArray [a; b; c; d] => Ok [a; b; c; d]
  | _ => Err CoseMalformed
  end.

Definition as_int (v : cval) : option Z := match v with CInt n => Some n | _ => None end.

Definition reject_unhandled_crit (header : cmap) : result unit :=
  match dget header (KInt HDR_CRIT) with
  | None => Ok tt
  | Some (CArray ((_ :: _) as crit)) =>
      raise_if (existsb (fun v => match as_int v with Some _ => false | None => true end) crit) CoseMalformed;;
      raise_if (existsb (fun v => match as_int v with Some n => negb (bool_decide (n ∈ KNOWN_CRIT_LABELS)) | None => true end) crit)
        CoseMalformed
  | Some _ => Err CoseMalformed
  end.

Definition parse_protected (protected : cval) : result (bytes * cmap) :=
  match protected with
  | CBytes [] => Ok ([], [])
  | CBytes raw =>
      header ← catch_as (fun e => isinstance e CborError) CoseMalformed (Cbor.decode raw);
      match header with
      | CMap header => reject_unhandled_crit header;; Ok (raw, header)
      | _ => Err CoseMalformed
      end
  | _ => Err CoseMalformed
  end.

Definition require_alg (header : cmap) : result Z :=
  match cget header (KInt HDR_ALG) with CInt alg => Ok alg | _ => Err CoseMalformed end.

Definition parse_message (tag : Z) (obj : cval) : result CoseMessage :=
  items ← unwrap obj tag;
  match items with
  | [protected_raw; unprotected; payload; authenticator] =>
      '(protected, header) ← parse_protected protected_raw;
      match unprotected with
      | CMap unprotected =>
          payload ← match payload with CNull => Ok None | CBytes b => Ok (Some b) | _ => Err CoseMalformed end;
          match authenticator with
          | CBytes a => Ok {| protected := protected; protected_header := header; unprotected := unprotected;
                              payload := payload; authenticator := a |}
          | _ => Err CoseMalformed
          end
      | _ => Err CoseMalformed
      end
  | _ => Err CoseMalformed
  end.

Definition parse_sign1 (obj : cval) : result CoseMessage := parse_message TAG_COSE_SIGN1 obj.
Definition parse_mac0 (obj : cval) : result CoseMessage := parse_message TAG_COSE_MAC0 obj.

(** * Verifying *)

(** The structure a signer covers. *)
Definition tbs_value (context : pystr) (protected external_aad payload : bytes) : cval :=
  CArray [CText context; CBytes protected; CBytes external_aad; CBytes payload].
Definition tbs (context : pystr) (protected external_aad payload : bytes) : result bytes :=
  Cbor.encode (tbs_value context protected external_aad payload).

Definition effective_payload (attached detached : option bytes) : result bytes :=
  match attached, detached with
  | Some _, Some _ => Err CoseMalformed
  | Some p, None => Ok p
  | None, Some p => Ok p
  | None, None => Err CoseMalformed
  end.

Section verify.
Context (verify_signature : pystr -> json -> bytes -> bytes -> result bool).
(** [hmac.new(key, message, sha256).digest()]. *)
Context (hmac_sha256 : bytes -> bytes -> bytes).

Definition verify_sign1 (m : CoseMessage) (public_jwk : jobject) (detached_payload : option bytes) (external_aad : bytes)
    : result bool :=
  alg ← require_alg (protected_header m);
  match dget COSE_ALG_TO_JOSE alg with
  | None => Err CoseUnsupportedAlgorithm
  | Some jose_alg =>
      payload ← effective_payload (payload m) detached_payload;
      input ← tbs ($"Signature1") (protected m) external_aad payload;
      verify_signature jose_alg (JDict public_jwk) input (authenticator m)
  end.

Definition verify_mac0 (m : CoseMessage) (mac_key : bytes) (detached_payload : option bytes) (external_aad : bytes)
    : result bool :=
  alg ← require_alg (protected_header m);
  raise_if (negb (alg =? COSE_HMAC_256)) CoseUnsupportedAlgorithm;;
  payload ← effective_payload (payload m) detached_payload;
  input ← tbs ($"MAC0") (protected m) external_aad payload;
  Ok (bool_decide (hmac_sha256 mac_key input = authenticator m)).
End verify.

(** * Keys *)

Definition x5chain_ders (m : CoseMessage) : result (list bytes) :=
  let value := match dget (unprotected m) (KInt HDR_X5CHAIN) with
               | Some v => v
               | None => cget (protected_header m) (KInt HDR_X5CHAIN)
               end in
  match value with
  | CBytes der => Ok [der]
  | CArray ((_ :: _) as chain) => mapR (fun c => match c with CBytes der => Ok der | _ => Err CoseMalformed end) chain
  | _ => Err CoseMalformed
  end.

(** [v == n] for an int [n]: Python's [True == 1]. *)
Definition eq_int (v : cval) (n : Z) : bool :=
  match v with CInt m => m =? n | CBool b => Z.b2z b =? n | _ => false end.

Definition EC2_CRV_TO_JWK : list (Z * (pystr * Z)) := [(1, ($"P-256", 32)); (2, ($"P-384", 48))].

Definition cose_key_to_jwk (cose_key : cval) : result jobject :=
  match cose_key with
  | CMap key =>
      let kty := cget key (KInt 1) in
      let crv := cget key (KInt (-1)) in
      if eq_int kty 2 then
        match as_int crv ≫= dget EC2_CRV_TO_JWK with
        | None => Err CoseMalformed
        | Some (name, size) =>
            match cget key (KInt (-2)), cget key (KInt (-3)) with
            | CBytes x, CBytes y =>
                raise_if (negb (len x =? size) || negb (len y =? size)) CoseMalformed;; Ok (ec_jwk name x y)
            | _, _ => Err CoseMalformed
            end
        end
      else if eq_int kty 1 then
        raise_if (negb (match crv with CInt c => c =? 6 | _ => false end)) CoseMalformed;;
        match cget key (KInt (-2)) with
        | CBytes x => raise_if (negb (len x =? 32)) CoseMalformed;; Ok (okp_jwk x)
        | _ => Err CoseMalformed
        end
      else Err CoseMalformed
  | _ => Err CoseMalformed
  end.

(** * What a signature covers *)

(** Equal bytes were built from equal parts: no two messages share a signing input. *)
Lemma tbs_inj c p a d c' p' a' d' b :
  pystr_ok c -> pystr_ok c' -> Forall bytes_ok [p; a; d; p'; a'; d'] ->
  tbs c p a d = Ok b -> tbs c' p' a' d' = Ok b -> c = c' /\ p = p' /\ a = a' /\ d = d'.
Proof.
  intros Hc Hc' Hb H H'. repeat (apply Forall_cons in Hb as [? Hb]).
  assert (forall c p a d, pystr_ok c -> bytes_ok p -> bytes_ok a -> bytes_ok d -> tbs c p a d = Ok b ->
    Cbor.decode b = Ok (tbs_value c p a d)) as Hd.
  { clear. intros c p a d ???? H. change (tbs_value c p a d) with (received (tbs_value c p a d)).
    apply decode_of_encode; [by repeat split|vm_compute; lia|done]. }
  apply Hd in H; [|done..]. apply Hd in H'; [|done..]. rewrite H in H'. by injection H' as <- <- <- <-.
Qed.

Lemma verify_sign1_Ok verify_signature m jwk detached aad :
  verify_sign1 verify_signature m jwk detached aad = Ok true ->
  exists alg jose payload input, cget (protected_header m) (KInt HDR_ALG) = CInt alg /\
    dget COSE_ALG_TO_JOSE alg = Some jose /\ effective_payload (Cose.payload m) detached = Ok payload /\
    tbs ($"Signature1") (protected m) aad payload = Ok input /\
    verify_signature jose (JDict jwk) input (authenticator m) = Ok true.
Proof.
  unfold verify_sign1. intros H. apply bind_Ok in H as (alg & Ha & H). unfold require_alg in Ha.
  destruct (cget _ _) eqn:Eg; try done. apply Ok_inj in Ha as ->.
  destruct (dget COSE_ALG_TO_JOSE alg) as [jose|] eqn:Ej; [|done]. apply bind_Ok in H as (payload & Hp & H).
  apply bind_Ok in H as (input & Hi & H). by exists alg, jose, payload, input.
Qed.

(** ** What a malformed message raises *)

Lemma unwrap_ok obj tag items : cval_ok obj -> unwrap obj tag = Ok items -> Forall cval_ok items.
Proof.
  intros Hok H. unfold unwrap in H. apply bind_Ok in H as (v & Hv & H).
  assert (Hvok : cval_ok v) by (destruct obj; try (by injection Hv as <-); by apply bind_Ok in Hv as (? & _ & [= <-])).
  destruct v as [| | | | |[|? [|? [|? [|? [|]]]]]| | | |]; try done. injection H as <-. by apply cval_ok_array.
Qed.

Lemma parse_protected_errs v : cval_ok v -> errs_in (eq CoseMalformed) (parse_protected v).
Proof.
  intros Hv. unfold parse_protected. destruct v as [| | |[|x b]| | | | | |]; try (by apply errs_in_Err); [apply errs_in_Ok|].
  apply errs_in_bind.
  - apply catch_as_errs. eapply errs_in_impl; [|by apply decode_errs]. by intros ? <-.
  - intros hd _. destruct hd; try by apply errs_in_Err. apply errs_in_bind; [|intros; apply errs_in_Ok].
    unfold reject_unhandled_crit. destruct (dget _ _) as [[| | | | |[|]| | | |]|]; try (by apply errs_in_Err); try apply errs_in_Ok.
    apply errs_in_bind; [by apply errs_in_raise_if|intros]. by apply errs_in_raise_if.
Qed.

Lemma parse_message_errs tag obj : cval_ok obj -> errs_in (eq CoseMalformed) (parse_message tag obj).
Proof.
  intros Hok. unfold parse_message. apply errs_in_bind.
  - unfold unwrap. apply errs_in_bind; [|intros v _].
    + destruct obj; try apply errs_in_Ok. apply errs_in_bind; [by apply errs_in_raise_if|intros; apply errs_in_Ok].
    + destruct v as [| | | | |[|? [|? [|? [|? [|]]]]]| | | |]; try (by apply errs_in_Err); apply errs_in_Ok.
  - intros items Hit%unwrap_ok; [|done]. destruct items as [|a [|b [|c [|d [|]]]]]; try by apply errs_in_Err.
    apply Forall_cons in Hit as [Ha _]. apply errs_in_bind; [by apply parse_protected_errs|]. intros [pr hd] _.
    destruct b; try by apply errs_in_Err. apply errs_in_bind; [destruct c; try apply errs_in_Ok; by apply errs_in_Err|].
    intros pl _. destruct d; try (by apply errs_in_Err); apply errs_in_Ok.
Qed.

Lemma parse_message_payload_ok tag obj m p : cval_ok obj -> parse_message tag obj = Ok m -> payload m = Some p -> bytes_ok p.
Proof.
  intros Hok H Hp. unfold parse_message in H. apply bind_Ok in H as (items & Hit%unwrap_ok & H); [|done].
  destruct items as [|a [|b [|c [|d [|]]]]]; try done. apply bind_Ok in H as ([pr hd] & _ & H). destruct b; try done.
  apply bind_Ok in H as (pl & Hpl & H). destruct d; try done. apply Ok_inj in H as <-. cbn in Hp. subst pl.
  rewrite !Forall_cons in Hit. destruct c; try done; destruct Hit as (_ & _ & Hc & _). by injection Hpl as <-.
Qed.
