(* ===== verification/Mdoc.v ===== *)
(** [openvc.mdoc] (src/src/openvc/mdoc.py): verification of an ISO/IEC 18013-5 [mso_mdoc]: the
    issuer's seal over every disclosed item, and the device's signature over the session.

    Hashes, HMAC, signatures, X.509 and date parsing are parameters.  An instant is in
    microseconds. *)
From S2P Require Import Prelude Errors PyStr Utf8 Cbor Json VerifyCommon Base64 Did Keys X5c Cose.

Definition TAG_ENCODED_CBOR : Z := 24.
Definition TAG_DATE_TIME : Z := 0.
Definition TAG_FULL_DATE : Z := 1004.

Definition DIGEST_ALGS : list (pystr * pystr) :=
  [($"SHA-256", $"sha256"); ($"SHA-384", $"sha384"); ($"SHA-512", $"sha512")].

Record MdocValidity := { signed : Z; valid_from : Z; valid_until : Z }.
Record VerifiedMdoc := {
  doc_type : pystr; namespaces : list (pystr * list (pystr * cval)); device_signed : bool; issuer_key : jobject;
  validity : MdocValidity }.
Record IssuerParts := {
  ip_doc_type : pystr; ip_namespaces : list (pystr * list (pystr * cval)); ip_issuer_key : jobject;
  ip_validity : MdocValidity; ip_mso : cmap }.


Definition parse_response (device_response : bytes) : result (list cval) :=
  parsed ← catch_as (fun e => isinstance e CborError) MdocMalformed (Cbor.decode device_response);
  match parsed with
  | CMap parsed =>
      match cget parsed (KText ($"status")) with
      | CInt status =>
          raise_if (negb (status =? 0)) MdocMalformed;;
          match cget parsed (KText ($"documents")) with
          | CArray ((_ :: _) as documents) => Ok documents
          | _ => Err MdocMalformed
          end
      | _ => Err MdocMalformed
      end
  | _ => Err MdocMalformed
  end.

(** The content of an embedded-CBOR tag. *)
Definition decode_mso (payload : bytes) : result cmap :=
  tagged ← catch_as (fun e => isinstance e CborError) MdocMalformed (Cbor.decode payload);
  match tagged with
  | CTag t (CBytes body) _ =>
      raise_if (negb (t =? TAG_ENCODED_CBOR)) MdocMalformed;;
      mso ← catch_as (fun e => isinstance e CborError) MdocMalformed (Cbor.decode body);
      match mso with CMap mso => Ok mso | _ => Err MdocMalformed end
  | _ => Err MdocMalformed
  end.

(** [_plain]: tags give way to their content. *)
Fixpoint plain_value (v : cval) : cval :=
  match v with
  | CTag _ v _ => plain_value v
  | CArray l => CArray (map plain_value l)
  | CMap d => CMap (map (fun kv => (kv.1, plain_value kv.2)) d)
  | _ => v
  end.

Section digests.
(** [hasher(data).digest()] of the MSO's algorithm. *)
Context (hasher : bytes -> bytes).

Definition verify_item (ns_digests : cmap) (item : cval) : result (pystr * cval) :=
  match item with
  | CTag t (CBytes body) (Some raw) =>
      raise_if (negb (t =? TAG_ENCODED_CBOR)) MdocMalformed;;
      issuer_item ← catch_as (fun e => isinstance e CborError) MdocMalformed (Cbor.decode body);
      match issuer_item with
      | CMap it =>
          match cget it (KText ($"digestID")) with
          | CInt digest_id =>
              match cget ns_digests (KInt digest_id) with
              | CBytes expected =>
                  raise_if (negb (bool_decide (hasher raw = expected))) MdocDigestMismatch;;
                  match cget it (KText ($"elementIdentifier")) with
                  | CText ((_ :: _) as element_id) => Ok (element_id, plain_value (cget it (KText ($"elementValue"))))
                  | _ => Err MdocMalformed
                  end
              | _ => Err MdocDigestMismatch
              end
          | _ => Err MdocMalformed
          end
      | _ => Err MdocMalformed
      end
  | _ => Err MdocMalformed
  end.

Definition verify_namespace (value_digests : cmap) (disclosed : list (pystr * list (pystr * cval))) (entry : ckey * cval)
    : result (list (pystr * list (pystr * cval))) :=
  match entry with
  | (KText namespace, CArray items) =>
      match cget value_digests (KText namespace) with
      | CMap ns_digests =>
          claims ← foldR (fun claims item => '(e, v) ← verify_item ns_digests item; Ok (dset claims e v)) [] items;
          Ok (dset disclosed namespace claims)
      | _ => Err MdocDigestMismatch
      end
  | _ => Err MdocMalformed
  end.

Definition verify_value_digests (issuer_signed mso : cmap) : result (list (pystr * list (pystr * cval))) :=
  match cget mso (KText ($"valueDigests")) with
  | CMap value_digests =>
      match cget issuer_signed (KText ($"nameSpaces")) with
      | CNull => Ok []
      | CMap ns_items => foldR (verify_namespace value_digests) [] ns_items
      | _ => Err MdocMalformed
      end
  | _ => Err MdocMalformed
  end.
End digests.

(** ** validityInfo *)

Section dates.
(** Unicode white space, [datetime.fromisoformat] (local time and offset), and
    [date.fromisoformat] (midnight UTC). *)
Context (is_space : Z -> bool) (fromisoformat : pystr -> option (Z * option Z)) (date_fromisoformat : pystr -> option Z).

Definition parse_rfc3339 (text : cval) : result Z :=
  match text with
  | CText text =>
      let raw := strip is_space text in
      let raw := if ends_with_z raw then take (length raw - 1) raw ++ $"+00:00" else raw in
      match fromisoformat raw with
      | Some (wall, offset) => Ok (wall - default 0 offset)
      | None => Err MdocMalformed
      end
  | _ => Err MdocMalformed
  end.

Definition parse_full_date (text : cval) : result Z :=
  match text with
  | CText text => match date_fromisoformat (strip is_space text) with Some t => Ok t | None => Err MdocMalformed end
  | _ => Err MdocMalformed
  end.

Definition parse_date (value : cval) : result (option Z) :=
  match value with
  | CNull => Ok None
  | CTag t v _ =>
      if t =? TAG_DATE_TIME then d ← parse_rfc3339 v; Ok (Some d)
      else if t =? TAG_FULL_DATE then d ← parse_full_date v; Ok (Some d)
      else Err MdocMalformed
  | CText _ => d ← parse_rfc3339 value; Ok (Some d)
  | _ => Err MdocMalformed
  end.

Definition check_validity (mso : cmap) (instant leeway : Z) : result MdocValidity :=
  match cget mso (KText ($"validityInfo")) with
  | CMap info =>
      signed ← parse_date (cget info (KText ($"signed")));
      valid_from ← parse_date (cget info (KText ($"validFrom")));
      valid_until ← parse_date (cget info (KText ($"validUntil")));
      match signed, valid_from, valid_until with
      | Some signed, Some valid_from, Some valid_until =>
          raise_if (leeway <? valid_from - instant) MdocValidityError;;
          raise_if (leeway <? instant - valid_until) MdocValidityError;;
          Ok {| signed := signed; valid_from := valid_from; valid_until := valid_until |}
      | _, _, _ => Err MdocMalformed
      end
  | _ => Err MdocMalformed
  end.
End dates.

(** * The two authentications *)

(** The bytes the device signs: the session transcript, the docType and the device's
    namespaces, the first and last exactly as received. *)
Definition device_authentication (session_transcript : bytes) (doc_type : pystr) (device_ns : bytes) : result bytes :=
  inner ← Cbor.encode (CArray [CText ($"DeviceAuthentication"); CRaw session_transcript; CText doc_type; CRaw device_ns]);
  Cbor.encode (CTag TAG_ENCODED_CBOR (CBytes inner) None).

Section mdoc.
Context (L : x509_library) (verify_signature : pystr -> json -> bytes -> bytes -> result bool)
  (hmac_sha256 : bytes -> bytes -> bytes) (hash : pystr -> bytes -> bytes).
Context (is_space : Z -> bool) (fromisoformat : pystr -> option (Z * option Z)) (date_fromisoformat : pystr -> option Z).

Definition verify_issuer_signed_parts (document : cval) (trust_anchors : list (cert L)) (now : Z) (leeway_s : json)
    (expected_doc_type : option pystr) : result IssuerParts :=
  match document with
  | CMap document =>
      match cget document (KText ($"docType")) with
      | CText ((_ :: _) as doc_type) =>
          raise_if (match expected_doc_type with Some e => negb (bool_decide (doc_type = e)) | None => false end)
            MdocDocTypeMismatch;;
          match cget document (KText ($"issuerSigned")) with
          | CMap issuer_signed =>
              '(issuer_auth, chain) ← catch_as (fun e => isinstance e CoseError) MdocMalformed
                (m ← parse_sign1 (cget issuer_signed (KText ($"issuerAuth"))); chain ← x5chain_ders m; Ok (m, chain));
              leeway ← leeway_seconds leeway_s MdocError;
              issuer_key ← catch_as (fun e => isinstance e X5cError) MdocTrustError
                (resolve_mdoc_signer_key L chain trust_anchors now);
              match payload issuer_auth with
              | None => Err MdocMalformed
              | Some mso_bytes =>
                  ok ← catch_as (fun e => isinstance e CoseError) MdocSignatureInvalid
                         (verify_sign1 verify_signature issuer_auth issuer_key None []);
                  raise_if (negb (ok : bool)) MdocSignatureInvalid;;
                  mso ← decode_mso mso_bytes;
                  raise_if (negb (match cget mso (KText ($"docType")) with CText t => bool_decide (t = doc_type) | _ => false end))
                    MdocDocTypeMismatch;;
                  match (match cget mso (KText ($"digestAlgorithm")) with CText a => dget DIGEST_ALGS a | _ => None end) with
                  | None => Err MdocMalformed
                  | Some alg =>
                      validity ← check_validity is_space fromisoformat date_fromisoformat mso now (leeway * 1000000);
                      catch_as (fun e => isinstance e X5cError) MdocValidityError
                        (check_mdoc_signed_within_ds_validity L chain (signed validity));;
                      namespaces ← verify_value_digests (hash alg) issuer_signed mso;
                      Ok {| ip_doc_type := doc_type; ip_namespaces := namespaces; ip_issuer_key := issuer_key;
                            ip_validity := validity; ip_mso := mso |}
                  end
              end
          | _ => Err MdocMalformed
          end
      | _ => Err MdocMalformed
      end
  | _ => Err MdocMalformed
  end.

(** The document is a map: its issuer part has been verified. *)
Definition verify_device_auth (document : cval) (parts : IssuerParts) (session_transcript : bytes)
    (device_mac_key : option bytes) : result unit :=
  match (match document with CMap d => cget d (KText ($"deviceSigned")) | _ => CNull end) with
  | CMap device_signed =>
      match cget device_signed (KText ($"nameSpaces")) with
      | CTag t _ (Some device_ns) =>
          raise_if (negb (t =? TAG_ENCODED_CBOR)) MdocMalformed;;
          match cget device_signed (KText ($"deviceAuth")) with
          | CMap device_auth =>
              detached ← device_authentication session_transcript (ip_doc_type parts) device_ns;
              match cget (ip_mso parts) (KText ($"deviceKeyInfo")) with
              | CMap device_info =>
                  device_key ← catch_as (fun e => isinstance e CoseError) MdocMalformed
                    (cose_key_to_jwk (cget device_info (KText ($"deviceKey"))));
                  match cget device_auth (KText ($"deviceSignature")), cget device_auth (KText ($"deviceMac")) with
                  | CNull, CNull => Err MdocMalformed
                  | CNull, mac =>
                      match device_mac_key with
                      | None => Err MdocDeviceAuthError
                      | Some mac_key =>
                          ok ← catch_as (fun e => isinstance e CoseError) MdocDeviceAuthError
                                 (m ← parse_mac0 mac; verify_mac0 hmac_sha256 m mac_key (Some detached) []);
                          raise_if (negb (ok : bool)) MdocDeviceAuthError
                      end
                  | signature, _ =>
                      ok ← catch_as (fun e => isinstance e CoseError) MdocDeviceAuthError
                             (m ← parse_sign1 signature; verify_sign1 verify_signature m device_key (Some detached) []);
                      raise_if (negb (ok : bool)) MdocDeviceAuthError
                  end
              | _ => Err MdocMalformed
              end
          | _ => Err MdocMalformed
          end
      | _ => Err MdocMalformed
      end
  | _ => Err MdocDeviceAuthError
  end.

Definition verified (parts : IssuerParts) (device_signed : bool) : VerifiedMdoc :=
  {| doc_type := ip_doc_type parts; namespaces := ip_namespaces parts; device_signed := device_signed;
     issuer_key := ip_issuer_key parts; validity := ip_validity parts |}.

Definition verify_issuer_signed (document : cval) (trust_anchors : list (cert L)) (now : Z) (leeway_s : json)
    (expected_doc_type : option pystr) : result VerifiedMdoc :=
  leeway_seconds leeway_s MdocError;;
  parts ← verify_issuer_signed_parts document trust_anchors now leeway_s expected_doc_type;
  Ok (verified parts false).

Definition verify_device_response (device_response : bytes) (trust_anchors : list (cert L)) (session_transcript : bytes)
    (now : Z) (leeway_s : json) (expected_doc_type : option pystr) (device_mac_key : option bytes)
    : result (list VerifiedMdoc) :=
  leeway_seconds leeway_s MdocError;;
  documents ← parse_response device_response;
  mapR (fun document =>
          parts ← verify_issuer_signed_parts document trust_anchors now leeway_s expected_doc_type;
          verify_device_auth document parts session_transcript device_mac_key;;
          Ok (verified parts true)) documents.
End mdoc.

(** * What a verified document guarantees *)

(** A disclosed element: an item of the response whose received bytes hash to the digest the
    MSO holds under the item's digestID. *)
Definition item_sealed (hasher : bytes -> bytes) (value_digests : cmap) (ns element : pystr) (value item : cval) : Prop :=
  exists body raw it digest_id ns_digests,
    item = CTag TAG_ENCODED_CBOR (CBytes body) (Some raw) /\ Cbor.decode body = Ok (CMap it) /\
    cget it (KText ($"elementIdentifier")) = CText element /\ value = plain_value (cget it (KText ($"elementValue"))) /\
    cget it (KText ($"digestID")) = CInt digest_id /\
    cget value_digests (KText ns) = CMap ns_digests /\ cget ns_digests (KInt digest_id) = CBytes (hasher raw).

Lemma verify_item_Ok hasher value_digests ns ns_digests item element value :
  cget value_digests (KText ns) = CMap ns_digests ->
  verify_item hasher ns_digests item = Ok (element, value) -> item_sealed hasher value_digests ns element value item.
Proof.
  intros Hns H. unfold verify_item in H. destruct item as [| | | | | | |t v raw| |]; try done.
  destruct v as [| | |body| | | | | |]; try done. destruct raw as [raw|]; [|done].
  apply bind_Ok in H as (u & Ht%raise_if_Ok%negb_false_iff%Z.eqb_eq & H). subst t.
  apply bind_Ok in H as (ii & Hd%catch_as_Ok & H). destruct ii as [| | | | | |it| | |]; try done.
  destruct (cget it (KText ($"digestID"))) as [| |n| | | | | | |] eqn:Ei; try done.
  destruct (cget ns_digests _) as [| | |expected| | | | | |] eqn:Ed; try done.
  apply bind_Ok in H as (u' & Hh%raise_if_Ok%negb_false_iff%bool_decide_eq_true & H). subst expected.
  destruct (cget it (KText ($"elementIdentifier"))) as [| | | |[|c e]| | | | |] eqn:Ee; try done.
  apply Ok_inj in H. injection H as <- <-. by exists body, raw, it, n, ns_digests.
Qed.

(** Where a disclosed element comes from. *)
Definition disclosed_ok (hasher : bytes -> bytes) (value_digests ns_items : cmap)
    (disclosed : list (pystr * list (pystr * cval))) : Prop :=
  forall ns claims element value, (ns, claims) ∈ disclosed -> (element, value) ∈ claims ->
    exists items item, (KText ns, CArray items) ∈ ns_items /\ item ∈ items /\
      item_sealed hasher value_digests ns element value item.

Lemma dset_elem {V} (d : list (pystr * V)) k v k' v' : (k', v') ∈ dset d k v -> (k', v') = (k, v) \/ (k', v') ∈ d.
Proof.
  induction d as [|[a b] d IH]; cbn [dset].
  - intros ->%list_elem_of_singleton. by left.
  - case_decide as Hk; intros [Heq|H]%elem_of_cons.
    + left. congruence.
    + right. by right.
    + right. rewrite Heq. left.
    + destruct (IH H) as [?|?]; [by left|right; by right].
Qed.

Lemma verify_namespace_Ok hasher value_digests ns_items acc entry acc' :
  entry ∈ ns_items -> disclosed_ok hasher value_digests ns_items acc ->
  verify_namespace hasher value_digests acc entry = Ok acc' -> disclosed_ok hasher value_digests ns_items acc'.
Proof.
  intros Hin Hacc Hs. unfold verify_namespace in Hs. destruct entry as [[n|b|ns] v]; try done.
  destruct v as [| | | | |items| | | |]; try done.
  destruct (cget value_digests (KText ns)) as [| | | | | |dg| | |] eqn:Edg; try done.
  apply bind_Ok in Hs as (claims & Hc & Hs). apply Ok_inj in Hs as <-.
  assert (forall e w, (e, w) ∈ claims -> exists item, item ∈ items /\ item_sealed hasher value_digests ns e w item) as Hclaims.
  { apply (foldR_inv (fun claims => forall e w, (e, w) ∈ claims -> exists item, item ∈ items /\
      item_sealed hasher value_digests ns e w item) _ _ _ _ Hc); [by intros ?? []%not_elem_of_nil|].
    clear Hc. intros c item c' Hit Hc Hstep e w Hew. apply bind_Ok in Hstep as ([e' v] & Hi & Hstep). apply Ok_inj in Hstep as <-.
    apply dset_elem in Hew as [[= -> ->]|Ho]; [|by apply Hc]. exists item. split; [done|]. by eapply verify_item_Ok. }
  intros ns' claims' element value [[= -> ->]|Ho]%dset_elem Hev; [|by eapply Hacc].
  destruct (Hclaims _ _ Hev) as (item & ? & ?). by exists items, item.
Qed.

Lemma verify_value_digests_Ok hasher issuer_signed mso disclosed :
  verify_value_digests hasher issuer_signed mso = Ok disclosed ->
  exists value_digests, cget mso (KText ($"valueDigests")) = CMap value_digests /\
    (disclosed = [] \/ exists ns_items, cget issuer_signed (KText ($"nameSpaces")) = CMap ns_items /\
       disclosed_ok hasher value_digests ns_items disclosed).
Proof.
  unfold verify_value_digests. intros H. destruct (cget mso _) as [| | | | | |vd| | |]; try done. exists vd. split; [done|].
  destruct (cget issuer_signed _) as [| | | | | |nsi| | |]; try done; [apply Ok_inj in H as <-; by left|].
  right. exists nsi. split; [done|]. apply (foldR_inv (disclosed_ok hasher vd nsi) _ _ _ _ H).
  - by intros ???? []%not_elem_of_nil.
  - intros acc entry acc' Hin. by apply verify_namespace_Ok.
Qed.

Section sound.
Context (L : x509_library) (verify_signature : pystr -> json -> bytes -> bytes -> result bool)
  (hmac_sha256 : bytes -> bytes -> bytes) (hash : pystr -> bytes -> bytes).
Context (is_space : Z -> bool) (fromisoformat : pystr -> option (Z * option Z)) (date_fromisoformat : pystr -> option Z).

(** The signer of a chain: anchored at the instant, and marked as a document signer. *)
Definition document_signer (trust_anchors : list (cert L)) (now : Z) (chain : list bytes) (leaf : cert L) (jwk : jobject) : Prop :=
  exists intermediates oids, load_der_chain L chain = Ok (leaf :: intermediates) /\
    anchored L trust_anchors now leaf intermediates /\
    extended_key_usage L leaf = Ok (Some oids) /\ MDOC_DS_EKU_OID ∈ oids /\ leaf_public_jwk L leaf = Ok jwk.

Lemma resolve_mdoc_signer_key_Ok chain trust_anchors now jwk :
  resolve_mdoc_signer_key L chain trust_anchors now = Ok jwk ->
  exists leaf, document_signer trust_anchors now chain leaf jwk.
Proof using.
  unfold resolve_mdoc_signer_key. intros H. apply bind_Ok in H as (cs & Hc & H).
  apply bind_Ok in H as (leaf & Hl & H). apply validate_cert_chain_Ok in Hl as (ints & -> & Ha).
  apply bind_Ok in H as (u & He & H). unfold require_mdoc_ds_eku in He. apply bind_Ok in He as (eku & Hek & He).
  destruct eku as [oids|]; [|done]. apply raise_if_Ok, negb_false_iff, bool_decide_eq_true in He.
  exists leaf, ints, oids. done.
Qed.

Lemma check_signed_Ok chain leaf signed u :
  (exists cs, load_der_chain L chain = Ok (leaf :: cs)) ->
  check_mdoc_signed_within_ds_validity L chain signed = Ok u ->
  not_valid_before L leaf <= signed <= not_valid_after L leaf.
Proof using.
  intros [cs Hc] H. unfold check_mdoc_signed_within_ds_validity in H. rewrite Hc in H. cbn [mbind result_bind] in H.
  apply raise_if_Ok, negb_false_iff, andb_true_iff in H as [?%Z.leb_le ?%Z.leb_le]. done.
Qed.

Abbreviation mso_date := (parse_date is_space fromisoformat date_fromisoformat).

(** The instant is inside the window the signed [validityInfo] declares: its members
    [signed], [validFrom] and [validUntil] are the dates reported, and the clock, with the
    leeway, is neither before the second nor after the third. *)
Record in_validity (mso : cmap) (instant leeway : Z) (v : MdocValidity) : Prop := {
  iv_declared : exists info, cget mso (KText ($"validityInfo")) = CMap info /\
    mso_date (cget info (KText ($"signed"))) = Ok (Some (signed v)) /\
    mso_date (cget info (KText ($"validFrom"))) = Ok (Some (valid_from v)) /\
    mso_date (cget info (KText ($"validUntil"))) = Ok (Some (valid_until v));
  iv_window : valid_from v <= instant + leeway /\ instant <= valid_until v + leeway }.

Lemma check_validity_Ok mso instant leeway v :
  check_validity is_space fromisoformat date_fromisoformat mso instant leeway = Ok v -> in_validity mso instant leeway v.
Proof using.
  unfold check_validity. intros H. destruct (cget mso _) as [| | | | | |info| | |] eqn:Ei; try done.
  apply bind_Ok in H as (a & Ha & H). apply bind_Ok in H as (b & Hb & H). apply bind_Ok in H as (c & Hc & H).
  destruct a, b, c; try done.
  apply bind_Ok in H as (u & H1%raise_if_Ok%Z.ltb_ge & H). apply bind_Ok in H as (u' & H2%raise_if_Ok%Z.ltb_ge & H).
  apply Ok_inj in H as <-. split; [by exists info|cbn; lia].
Qed.

(** The issuer's seal over a document. *)
Record issuer_sealed (document : cmap) (trust_anchors : list (cert L)) (now leeway : Z) (expected : option pystr)
    (parts : IssuerParts) : Prop := {
  is_doc_type : cget document (KText ($"docType")) = CText (ip_doc_type parts) /\
    cget (ip_mso parts) (KText ($"docType")) = CText (ip_doc_type parts) /\
    forall e, expected = Some e -> ip_doc_type parts = e;
  is_signature : exists issuer_signed m chain leaf mso_bytes jose alg input,
    cget document (KText ($"issuerSigned")) = CMap issuer_signed /\
    parse_sign1 (cget issuer_signed (KText ($"issuerAuth"))) = Ok m /\ x5chain_ders m = Ok chain /\
    document_signer trust_anchors now chain leaf (ip_issuer_key parts) /\
    not_valid_before L leaf <= signed (ip_validity parts) <= not_valid_after L leaf /\
    payload m = Some mso_bytes /\ decode_mso mso_bytes = Ok (ip_mso parts) /\
    cget (protected_header m) (KInt HDR_ALG) = CInt alg /\ dget COSE_ALG_TO_JOSE alg = Some jose /\
    tbs ($"Signature1") (protected m) [] mso_bytes = Ok input /\
    verify_signature jose (JDict (ip_issuer_key parts)) input (authenticator m) = Ok true;
  is_validity : in_validity (ip_mso parts) now (leeway * 1000000) (ip_validity parts);
  is_elements : exists issuer_signed alg_name alg value_digests,
    cget document (KText ($"issuerSigned")) = CMap issuer_signed /\
    cget (ip_mso parts) (KText ($"digestAlgorithm")) = CText alg_name /\ dget DIGEST_ALGS alg_name = Some alg /\
    cget (ip_mso parts) (KText ($"valueDigests")) = CMap value_digests /\
    (ip_namespaces parts = [] \/ exists ns_items, cget issuer_signed (KText ($"nameSpaces")) = CMap ns_items /\
       disclosed_ok (hash alg) value_digests ns_items (ip_namespaces parts)) }.

Lemma verify_issuer_signed_parts_Ok document trust_anchors now leeway_s expected parts :
  verify_issuer_signed_parts L verify_signature hash is_space fromisoformat date_fromisoformat document trust_anchors now
    leeway_s expected = Ok parts ->
  exists d leeway, document = CMap d /\ leeway_s = JInt leeway /\ 0 <= leeway <= MAX_LEEWAY_S /\
    issuer_sealed d trust_anchors now leeway expected parts.
Proof using.
  unfold verify_issuer_signed_parts. intros H. destruct document as [| | | | | |d| | |]; try done.
  destruct (cget d (KText ($"docType"))) as [| | | |[|c0 dt]| | | | |] eqn:Edt; try done.
  apply bind_Ok in H as (u & Hexp%raise_if_Ok & H).
  destruct (cget d (KText ($"issuerSigned"))) as [| | | | | |isg| | |] eqn:Eis; try done.
  apply bind_Ok in H as ([m chain] & Hm%catch_as_Ok & H). apply bind_Ok in Hm as (m' & Hm & Hx).
  apply bind_Ok in Hx as (chain' & Hx & Hmc). apply Ok_inj in Hmc. injection Hmc as -> ->.
  apply bind_Ok in H as (leeway & Hl & H). apply leeway_seconds_Ok in Hl as [-> Hl].
  apply bind_Ok in H as (jwk & Hj%catch_as_Ok & H). apply resolve_mdoc_signer_key_Ok in Hj as [leaf Hj].
  destruct (payload m) as [mb|] eqn:Ep; [|done]. apply bind_Ok in H as (ok & Hs%catch_as_Ok & H).
  apply bind_Ok in H as (u1 & Hok%raise_if_Ok%negb_false_iff & H). subst ok.
  apply verify_sign1_Ok in Hs as (alg & jose & pl & input & Ha & Hjose & Hpl & Hi & Hv). rewrite Ep in Hpl. apply Ok_inj in Hpl as <-.
  apply bind_Ok in H as (mso & Hmso & H). apply bind_Ok in H as (u2 & Hmdt%raise_if_Ok%negb_false_iff & H).
  destruct (cget mso (KText ($"docType"))) as [| | | |t| | | | |] eqn:Emdt; try done. apply bool_decide_eq_true in Hmdt as ->.
  destruct (cget mso (KText ($"digestAlgorithm"))) as [| | | |an| | | | |] eqn:Ealg; try done.
  destruct (dget DIGEST_ALGS an) as [da|] eqn:Eda; [|done].
  apply bind_Ok in H as (validity & Hval%check_validity_Ok & H). apply bind_Ok in H as (u3 & Hw%catch_as_Ok & H).
  apply bind_Ok in H as (ns & Hns%verify_value_digests_Ok & H). apply Ok_inj in H as <-. destruct Hns as (vd & Hvd & Hns).
  exists d, leeway. split; [done|]. split; [done|]. split; [done|]. split; cbn [ip_doc_type ip_namespaces ip_issuer_key ip_validity ip_mso].
  - split_and!; [done..|]. intros e ->. by apply negb_false_iff, bool_decide_eq_true in Hexp.
  - exists isg, m, chain, leaf, mb, jose, alg, input. split; [done|]. split; [done|]. split; [done|]. split; [done|].
    split; [|done]. eapply check_signed_Ok; [|exact Hw]. destruct Hj as (ints & _ & Hj & _). by exists ints.
  - done.
  - by exists isg, an, da, vd.
Qed.

(** The device's binding to the session: a signature by the key of the MSO, or a MAC, over the
    transcript, the docType and the device namespaces. *)
Record device_bound (document : cmap) (parts : IssuerParts) (session_transcript : bytes) (device_mac_key : option bytes)
    : Prop := {
  db_device : exists device_signed device_auth w device_ns covered,
    cget document (KText ($"deviceSigned")) = CMap device_signed /\
    cget device_signed (KText ($"nameSpaces")) = CTag TAG_ENCODED_CBOR w (Some device_ns) /\
    cget device_signed (KText ($"deviceAuth")) = CMap device_auth /\
    device_authentication session_transcript (ip_doc_type parts) device_ns = Ok covered /\
    ((exists device_info device_key m jose input,
        cget (ip_mso parts) (KText ($"deviceKeyInfo")) = CMap device_info /\
        cose_key_to_jwk (cget device_info (KText ($"deviceKey"))) = Ok device_key /\
        parse_sign1 (cget device_auth (KText ($"deviceSignature"))) = Ok m /\ payload m = None /\
        tbs ($"Signature1") (protected m) [] covered = Ok input /\
        verify_signature jose (JDict device_key) input (authenticator m) = Ok true) \/
     (exists mac_key m input, device_mac_key = Some mac_key /\
        parse_mac0 (cget device_auth (KText ($"deviceMac"))) = Ok m /\ payload m = None /\
        tbs ($"MAC0") (protected m) [] covered = Ok input /\ hmac_sha256 mac_key input = authenticator m)) }.

Lemma effective_detached p d b : effective_payload p (Some d) = Ok b -> p = None /\ b = d.
Proof using. unfold effective_payload. destruct p; [done|]. intros H%Ok_inj. done. Qed.

Lemma verify_device_auth_Ok document parts session_transcript device_mac_key u :
  verify_device_auth verify_signature hmac_sha256 (CMap document) parts session_transcript device_mac_key = Ok u ->
  device_bound document parts session_transcript device_mac_key.
Proof using.
  unfold verify_device_auth. intros H. split.
  destruct (cget document _) as [| | | | | |ds| | |] eqn:Eds; try done.
  destruct (cget ds (KText ($"nameSpaces"))) as [| | | | | | |t w raw| |] eqn:Ens; try done. destruct raw as [raw|]; [|done].
  apply bind_Ok in H as (u1 & Ht%raise_if_Ok%negb_false_iff%Z.eqb_eq & H). subst t.
  destruct (cget ds (KText ($"deviceAuth"))) as [| | | | | |da| | |] eqn:Eda; try done.
  apply bind_Ok in H as (covered & Hcov & H). exists ds, da, w, raw, covered. do 4 (split; [done|]).
  destruct (cget (ip_mso parts) _) as [| | | | | |info| | |] eqn:Einfo; try done.
  apply bind_Ok in H as (key & Hkey%catch_as_Ok & H).
  assert (forall sg, cget da (KText ($"deviceSignature")) = sg ->
    (ok ← catch_as (fun e => isinstance e CoseError) MdocDeviceAuthError
       (m ← parse_sign1 sg; verify_sign1 verify_signature m key (Some covered) []);
     raise_if (negb ok) MdocDeviceAuthError) = Ok u ->
    exists device_info device_key m jose input, CMap info = CMap device_info /\
      cose_key_to_jwk (cget device_info (KText ($"deviceKey"))) = Ok device_key /\
      parse_sign1 (cget da (KText ($"deviceSignature"))) = Ok m /\ payload m = None /\
      tbs ($"Signature1") (protected m) [] covered = Ok input /\
      verify_signature jose (JDict device_key) input (authenticator m) = Ok true) as Hsig.
  { intros sg Hsg Hv. apply bind_Ok in Hv as (ok & Hv%catch_as_Ok & Hok%raise_if_Ok%negb_false_iff). subst ok.
    apply bind_Ok in Hv as (m & Hm & Hv). apply verify_sign1_Ok in Hv as (alg & jose & pl & input & _ & _ & Hpl & Hi & Hv).
    apply effective_detached in Hpl as [Hpl ->]. exists info, key, m, jose, input. by rewrite Hsg. }
  destruct (cget da (KText ($"deviceSignature"))) eqn:Esg; try (left; by apply (Hsig _ eq_refl)).
  right. clear Hsig. destruct (cget da (KText ($"deviceMac"))) eqn:Emac; try done;
    (destruct device_mac_key as [mk|]; [|done]; apply bind_Ok in H as (ok & Hv%catch_as_Ok & Hok%raise_if_Ok%negb_false_iff);
     subst ok; apply bind_Ok in Hv as (m & Hm & Hv); unfold verify_mac0 in Hv; apply bind_Ok in Hv as (alg & _ & Hv);
     apply bind_Ok in Hv as (u2 & _ & Hv); apply bind_Ok in Hv as (pl & Hpl & Hv); apply effective_detached in Hpl as [Hpl ->];
     apply bind_Ok in Hv as (input & Hi & Hv); apply Ok_inj, bool_decide_eq_true in Hv; by exists mk, m, input).
Qed.
End sound.

(** One result per document, each sealed by its issuer and signed by its device. *)
Definition response_guarantee (L : x509_library) (verify_signature : pystr -> json -> bytes -> bytes -> result bool)
    (hmac_sha256 : bytes -> bytes -> bytes) (hash : pystr -> bytes -> bytes) (is_space : Z -> bool)
    (fromisoformat : pystr -> option (Z * option Z)) (date_fromisoformat : pystr -> option Z) (device_response : bytes)
    (trust_anchors : list (cert L)) (session_transcript : bytes) (now : Z) (leeway_s : json) (expected : option pystr)
    (device_mac_key : option bytes) (rs : list VerifiedMdoc) : Prop :=
  exists documents leeway, parse_response device_response = Ok documents /\ leeway_s = JInt leeway /\
    Forall2 (fun document r => exists d parts, document = CMap d /\ r = verified parts true /\
      issuer_sealed L verify_signature hash is_space fromisoformat date_fromisoformat d trust_anchors now leeway expected parts /\
      device_bound verify_signature hmac_sha256 d parts session_transcript device_mac_key) documents rs.

Lemma verify_device_response_Ok L verify_signature hmac_sha256 hash is_space fromisoformat date_fromisoformat
    device_response trust_anchors session_transcript now leeway_s expected device_mac_key rs :
  verify_device_response L verify_signature hmac_sha256 hash is_space fromisoformat date_fromisoformat
    device_response trust_anchors session_transcript now leeway_s expected device_mac_key = Ok rs ->
  response_guarantee L verify_signature hmac_sha256 hash is_space fromisoformat date_fromisoformat device_response
    trust_anchors session_transcript now leeway_s expected device_mac_key rs.
Proof.
  unfold verify_device_response. intros H. apply bind_Ok in H as (leeway & Hl & H). apply leeway_seconds_Ok in Hl as [-> _].
  apply bind_Ok in H as (documents & Hd & H%mapR_Ok). exists documents, leeway. split; [done|]. split; [done|].
  eapply Forall2_impl; [exact H|]. cbn beta. intros document r Hr. apply bind_Ok in Hr as (parts & Hp & Hr).
  apply bind_Ok in Hr as (u & Hb & Hr). apply Ok_inj in Hr as <-.
  apply verify_issuer_signed_parts_Ok in Hp as (d & leeway' & -> & [= <-] & _ & Hs).
  apply verify_device_auth_Ok in Hb. by exists d, parts.
Qed.

(** C23: What a verified [DeviceResponse] guarantees.  One result per document, and for each:
    the MSO is signed, under an allowed algorithm named in the protected header, by the key of
    a document signer whose chain validates to a caller's anchor and whose validity covers the
    signing time; the docType is the signed one and the expected one; the instant, with the
    leeway, is not before the [validFrom] nor after the [validUntil] that the signed
    [validityInfo] declares; every disclosed element is an item whose received bytes hash to the
    digest the MSO seals under its namespace and digestID; and the device of the MSO's key
    signed (or MACed) this very session transcript, docType and namespaces. *)
Theorem mdoc_verify_sound L verify_signature hmac_sha256 hash is_space fromisoformat date_fromisoformat
    device_response trust_anchors session_transcript now leeway_s expected device_mac_key rs
    (H : verify_device_response L verify_signature hmac_sha256 hash is_space fromisoformat date_fromisoformat
           device_response trust_anchors session_transcript now leeway_s expected device_mac_key = Ok rs) :
  response_guarantee L verify_signature hmac_sha256 hash is_space fromisoformat date_fromisoformat device_response
    trust_anchors session_transcript now leeway_s expected device_mac_key rs.
Proof. by eapply verify_device_response_Ok. Qed.

(** * The session is part of what is signed *)

(** The bytes are one CBOR item. *)
Definition one_item (b : bytes) : Prop := exists levels v, reads (decode_at levels) b v.

Lemma one_item_prefix b1 b2 x y : one_item b1 -> one_item b2 -> b1 ++ x = b2 ++ y -> b1 = b2 /\ x = y.
Proof.
  intros (l1 & v1 & H1) (l2 & v2 & H2) E. set (l := (l1 + l2)%nat).
  apply (reads_extends _ (decode_at l)) in H1; [|apply extends_decode_at; lia].
  apply (reads_extends _ (decode_at l)) in H2; [|apply extends_decode_at; lia].
  pose proof (H1 [] x) as A. pose proof (H2 [] y) as B. cbn [app] in A, B. rewrite E, B in A.
  injection A as Hv Hlen. by apply app_inj_1 in E.
Qed.

Lemma text_one_item s b : pystr_ok s -> encode_text s = Ok b -> one_item b.
Proof. intros Hs Hb. exists 1%nat, (CText s). by apply text_reads. Qed.

Lemma encode_one_item v b : cval_ok v -> encode v = Ok b -> one_item b.
Proof. intros Hv Hb. exists (S (height v)), (received v). apply encode_reads; [done..|lia]. Qed.

Lemma encode_fields t dt ns inner :
  Cbor.encode (CArray [CText ($"DeviceAuthentication"); CRaw t; CText dt; CRaw ns]) = Ok inner ->
  exists h e0 e, head 4 4 = Ok h /\ encode_text ($"DeviceAuthentication") = Ok e0 /\ encode_text dt = Ok e /\
    inner = h ++ e0 ++ t ++ e ++ ns.
Proof.
  intros (h & bs & Hh & Hf & ->)%encode_array_Ok. exists h.
  repeat match type of Hf with Forall2 _ (_ :: _) _ => apply Forall2_cons_inv_l in Hf as (? & ? & ? & Hf & ->) end.
  apply Forall2_nil_inv_l in Hf as ->. cbn [encode] in *.
  repeat match goal with E : Ok _ = Ok _ |- _ => apply Ok_inj in E; subst end.
  eexists _, _. split; [exact Hh|]. split; [done|]. split; [done|]. cbn [concat]. by rewrite app_nil_r.
Qed.

(** The bytes the device signs determine the transcript, the docType and the namespaces. *)
Lemma device_authentication_inj t dt ns t' dt' ns' b :
  one_item t -> one_item t' -> pystr_ok dt -> pystr_ok dt' ->
  device_authentication t dt ns = Ok b -> device_authentication t' dt' ns' = Ok b -> t = t' /\ dt = dt' /\ ns = ns'.
Proof.
  intros Ht Ht' Hdt Hdt' H H'.
  assert (forall t dt ns, device_authentication t dt ns = Ok b ->
    exists h' inner, head 6 TAG_ENCODED_CBOR = Ok h' /\ Cbor.encode (CBytes inner) = Ok (drop (length h') b) /\
      Cbor.encode (CArray [CText ($"DeviceAuthentication"); CRaw t; CText dt; CRaw ns]) = Ok inner) as Hd.
  { clear. intros t dt ns H. unfold device_authentication in H. apply bind_Ok in H as (inner & Hi & H).
    cbn [encode] in H. apply bind_Ok in H as (h' & Hh & H). apply bind_Ok in H as (e & He & H). apply Ok_inj in H as <-.
    exists h', inner. rewrite drop_app_length. done. }
  apply Hd in H as (h1 & i1 & Hh1 & Hi1 & H). apply Hd in H' as (h2 & i2 & Hh2 & Hi2 & H'). clear Hd.
  rewrite Hh1 in Hh2. apply Ok_inj in Hh2 as <-.
  assert (i1 = i2) as <-.
  { cbn [encode] in Hi1, Hi2. apply (bytes_reads 0) in Hi1. apply (bytes_reads 0) in Hi2.
    pose proof (Hi1 [] []) as A. pose proof (Hi2 [] []) as B. rewrite A in B. by injection B. }
  apply encode_fields in H as (h & e0 & e & Hh & He0 & He & ->). apply encode_fields in H' as (h' & e0' & e' & Hh' & He0' & He' & E).
  rewrite Hh in Hh'. apply Ok_inj in Hh' as <-. rewrite He0 in He0'. apply Ok_inj in He0' as <-.
  apply app_inv_head, app_inv_head in E. apply one_item_prefix in E as [-> E]; [|done..].
  apply one_item_prefix in E as [<- ->]; [|eapply text_one_item; [|exact He]; done|eapply text_one_item; [|exact He']; done].
  split; [done|]. split; [|done].
  apply (text_reads 0) in He; [|done]. apply (text_reads 0) in He'; [|done].
  pose proof (He [] []) as A. pose proof (He' [] []) as B. rewrite A in B. by injection B.
Qed.

(** * Example *)

Definition encoded (v : cval) : bytes := match Cbor.encode v with Ok b => b | Err _ => [] end.
Definition toy_item : cval :=
  CMap [(KText ($"digestID"), CInt 0); (KText ($"elementIdentifier"), CText ($"name")); (KText ($"elementValue"), CText ($"A"))].
Definition toy_mso : cval :=
  CMap [(KText ($"docType"), CText ($"mdl")); (KText ($"digestAlgorithm"), CText ($"SHA-256"));
        (KText ($"valueDigests"), CMap [(KText ($"ns"), CMap [(KInt 0, CBytes [1])])]);
        (KText ($"validityInfo"), CMap [(KText ($"signed"), CText ($"t")); (KText ($"validFrom"), CText ($"t")); (KText ($"validUntil"), CText ($"t"))]);
        (KText ($"deviceKeyInfo"), CMap [(KText ($"deviceKey"), CMap [(KInt 1, CInt 1); (KInt (-1), CInt 6); (KInt (-2), CBytes (repeat 7 32))])])].
Definition toy_sign1 (payload unprotected : cval) : cval :=
  CArray [CBytes (encoded (CMap [(KInt 1, CInt (-7))])); unprotected; payload; CBytes [1]].
Definition toy_response : bytes := encoded
  (CMap [(KText ($"status"), CInt 0);
         (KText ($"documents"), CArray [CMap
           [(KText ($"docType"), CText ($"mdl"));
            (KText ($"issuerSigned"), CMap
              [(KText ($"issuerAuth"), toy_sign1 (CBytes (encoded (CTag 24 (CBytes (encoded toy_mso)) None))) (CMap [(KInt 33, CBytes [7])]));
               (KText ($"nameSpaces"), CMap [(KText ($"ns"), CArray [CTag 24 (CBytes (encoded toy_item)) None])])]);
            (KText ($"deviceSigned"), CMap
              [(KText ($"nameSpaces"), CTag 24 (CBytes [160]) None);
               (KText ($"deviceAuth"), CMap [(KText ($"deviceSignature"), toy_sign1 CNull (CMap []))])])]])]).

Abbreviation toy_verify := (verify_device_response toy_x509 (fun _ _ _ _ => Ok true) (fun _ _ => []) (fun _ _ => [1])
  (fun _ => false) (fun _ => Some (5, None)) (fun _ => None) toy_response [[7]] [246] 5 (JInt 60) (Some ($"mdl")) None).

Lemma toy_verify_Ok : exists rs, toy_verify = Ok rs.
Proof.
  assert (is_ok toy_verify = true) as H by (vm_compute; reflexivity).
  destruct toy_verify as [rs|]; [by exists rs|discriminate H].
Qed.

Lemma mdoc_verify_sound_witness : exists rs documents, toy_verify = Ok rs /\ parse_response toy_response = Ok documents /\
  Forall2 (fun document r => exists d parts, document = CMap d /\ r = verified parts true /\
    device_bound (fun _ _ _ _ => Ok true) (fun _ _ => []) d parts [246] None) documents rs.
Proof.
  destruct toy_verify_Ok as [rs H]. exists rs. pose proof H as H'.
  apply mdoc_verify_sound in H' as (documents & leeway & Hd & _ & Hf). exists documents.
  split; [exact H|]. split; [exact Hd|]. eapply Forall2_impl; [exact Hf|]. cbn beta.
  intros document r (d & parts & Hd' & Hr & _ & Hb). exact (ex_intro _ d (ex_intro _ parts (conj Hd' (conj Hr Hb)))).
Defined.
