(* ===== verification/Jwe.v ===== *)
(** [openvc.jwe] (src/src/openvc/jwe.py): decryption of the encrypted responses of OpenID4VP,
    direct ECDH-ES with AES-GCM, and the key agreement of [openvc.keys].

    SHA-256, the P-256 exchange and AES-GCM are parameters. *)
From S2P Require Import Prelude Errors PyStr Json Base64 Keys.

Definition ALLOWED_ALG : list pystr := [$"ECDH-ES"].
Definition ALLOWED_ENC : list (pystr * Z) := [($"A128GCM", 16); ($"A256GCM", 32)].
Definition MAX_JWE_BYTES : Z := 2 * 1024 * 1024.

(** [struct.pack(">I", n)]. *)
Definition pack_u32 (n : Z) : bytes := to_bytes_be 4 n.
Definition len_prefixed (data : bytes) : bytes := pack_u32 (len data) ++ data.

(** [PartyUInfo], [PartyVInfo] and [SuppPubInfo]. *)
Definition other_info (keydatalen_bits : Z) (alg_id apu apv : bytes) : bytes :=
  len_prefixed alg_id ++ len_prefixed apu ++ len_prefixed apv ++ pack_u32 keydatalen_bits.

Section jwe.
Context (sha256 : bytes -> bytes).

(** The [while len(out) < n] loop. *)
Fixpoint kdf_rounds (fuel : nat) (n : Z) (seed : bytes) (counter : Z) (out : bytes) : bytes :=
  match fuel with
  | O => out
  | S fuel => if len out <? n then kdf_rounds fuel n seed (counter + 1) (out ++ sha256 (pack_u32 counter ++ seed)) else out
  end.

(** A digest is not empty, so as many rounds as bytes are enough. *)
Definition concat_kdf (z : bytes) (keydatalen_bits : Z) (alg_id apu apv : bytes) : bytes :=
  let n := keydatalen_bits / 8 in
  take (Z.to_nat n) (kdf_rounds (Z.to_nat n) n (z ++ other_info keydatalen_bits alg_id apu apv) 1 []).

(** ** [P256KeyAgreementKey.agree]: the curve check, the point, the exchange *)
Context (load_point : Z -> Z -> bool) (exchange : Z -> Z -> bytes).

Definition p256_agree (peer_public_jwk : jobject) : result bytes :=
  raise_if (negb (eq_str (jget peer_public_jwk ($"kty")) ($"EC")) || negb (eq_str (jget peer_public_jwk ($"crv")) ($"P-256"))) InvalidKey;;
  '(x, y) ← catch_as (fun e => isinstance e KeyError || isinstance e ValueError || isinstance e TypeError) InvalidKey
    (bx ← b64url_member (JDict peer_public_jwk) ($"x"); by_ ← b64url_member (JDict peer_public_jwk) ($"y");
     let '(x, y) := (from_bytes_be bx, from_bytes_be by_) in
     raise_if (negb (load_point x y)) ValueError;; Ok (x, y));
  Ok (exchange x y).

(** ** Decryption, for any key-agreement key *)
Context (json_loads : bytes -> result json) (agree : jobject -> result bytes).
(** [AESGCM(cek).decrypt(iv, data, aad)]: [None] is [InvalidTag]. *)
Context (aesgcm_decrypt : bytes -> bytes -> bytes -> bytes -> result (option bytes)).

Definition party_info (header : jobject) (name : pystr) : result bytes :=
  match dget header name with
  | None => Ok []
  | Some (JStr s) => b64url_decode s
  | Some _ => Err TypeError
  end.

(** The header of a token this reader accepts: its [enc], the key length and the [epk]. *)
Definition accepted_header (header : jobject) (encrypted_key : pystr) : result (pystr * Z * jobject) :=
  match jget header ($"alg"), jget header ($"enc") with
  | JStr alg, JStr enc =>
      raise_if (negb (bool_decide (alg ∈ ALLOWED_ALG))) UnsupportedJweAlgorithm;;
      match dget ALLOWED_ENC enc with
      | None => Err UnsupportedJweAlgorithm
      | Some size =>
          raise_if (negb (is_none (jget header ($"zip")))) UnsupportedJweAlgorithm;;
          raise_if (dmem header ($"crit")) UnsupportedJweAlgorithm;;
          raise_if (negb (bool_decide (encrypted_key = []))) JweMalformed;;
          match jget header ($"epk") with JDict epk => Ok (enc, size, epk) | _ => Err JweMalformed end
      end
  | _, _ => Err UnsupportedJweAlgorithm
  end.

Definition decrypt_compact (token : pystr) : result bytes :=
  raise_if (MAX_JWE_BYTES <? len token) JweMalformed;;
  match split_on 46 token with
  | [protected_b64; encrypted_key_b64; iv_b64; ciphertext_b64; tag_b64] =>
      header ← catch_as (fun e => isinstance e ValueError || isinstance e RecursionError) JweMalformed
                 (raw ← b64url_decode protected_b64; json_loads raw);
      match header with
      | JDict header =>
          '(enc, size, epk) ← accepted_header header encrypted_key_b64;
          z ← catch_as (fun e => isinstance e KeyBackendError) JweMalformed (agree epk);
          '(apu, apv, iv, ciphertext, tag) ← catch_as (fun e => isinstance e ValueError || isinstance e TypeError) JweMalformed
            (apu ← party_info header ($"apu"); apv ← party_info header ($"apv"); iv ← b64url_decode iv_b64;
             ciphertext ← b64url_decode ciphertext_b64; tag ← b64url_decode tag_b64; Ok (apu, apv, iv, ciphertext, tag));
          raise_if (negb (len iv =? 12)) JweMalformed;;
          raise_if (negb (len tag =? 16)) JweMalformed;;
          let cek := concat_kdf z (size * 8) enc apu apv in
          aad ← encode_ascii protected_b64;
          plain ← catch_as (fun e => isinstance e ValueError) JweDecryptionFailed (aesgcm_decrypt cek iv (ciphertext ++ tag) aad);
          match plain with Some p => Ok p | None => Err JweDecryptionFailed end
      | _ => Err JweMalformed
      end
  | _ => Err JweMalformed
  end.

(** * What a decryption used *)

Lemma concat_kdf_length z bits alg apu apv :
  (forall b, len (sha256 b) = 32) -> bits = 128 \/ bits = 256 ->
  concat_kdf z bits alg apu apv = take (Z.to_nat (bits / 8)) (sha256 (pack_u32 1 ++ z ++ other_info bits alg apu apv)) /\
  len (concat_kdf z bits alg apu apv) = bits / 8.
Proof using.
  intros Hsha Hbits. assert (concat_kdf z bits alg apu apv =
    take (Z.to_nat (bits / 8)) (sha256 (pack_u32 1 ++ z ++ other_info bits alg apu apv))) as ->.
  { unfold concat_kdf. set (seed := z ++ other_info bits alg apu apv). f_equal. destruct Hbits as [->| ->].
    - change (Z.to_nat (128 / 8)) with 16%nat. change (128 / 8) with 16. cbn [kdf_rounds app].
      change (len (@nil Z)) with 0. cbn [Z.ltb Z.compare]. rewrite Hsha. done.
    - change (Z.to_nat (256 / 8)) with 32%nat. change (256 / 8) with 32. cbn [kdf_rounds app].
      change (len (@nil Z)) with 0. cbn [Z.ltb Z.compare]. rewrite Hsha. done. }
  split; [done|]. specialize (Hsha (pack_u32 1 ++ z ++ other_info bits alg apu apv)). unfold len in *.
  rewrite length_take. destruct Hbits as [->| ->]; [change (128 / 8) with 16|change (256 / 8) with 32]; lia.
Qed.

Lemma len_prefixed_inj a b x y :
  len a < 2 ^ 32 -> len b < 2 ^ 32 -> len_prefixed a ++ x = len_prefixed b ++ y -> a = b /\ x = y.
Proof using.
  unfold len_prefixed, pack_u32. rewrite <-!app_assoc. intros Ha Hb E.
  apply app_inj_1 in E as [E1 E2]; [|by rewrite !length_to_bytes_be].
  assert (len a = len b) as El.
  { rewrite <-(from_to_bytes_be 4 (len a)), <-(from_to_bytes_be 4 (len b)); [by f_equal|unfold len in *; lia..]. }
  apply app_inj_1 in E2 as [-> ->]; [done|]. unfold len in El. lia.
Qed.

(** The key-derivation input determines the algorithm and both parties. *)
Lemma other_info_inj bits alg apu apv bits' alg' apu' apv' :
  Forall (fun b => len b < 2 ^ 32) [alg; apu; apv; alg'; apu'; apv'] ->
  other_info bits alg apu apv = other_info bits' alg' apu' apv' -> alg = alg' /\ apu = apu' /\ apv = apv'.
Proof using.
  intros H E. repeat (apply Forall_cons in H as [? H]). unfold other_info in E.
  apply len_prefixed_inj in E as [-> E]; [|done..]. apply len_prefixed_inj in E as [-> E]; [|done..].
  by apply len_prefixed_inj in E as [-> _].
Qed.

(** The content key of RFC 7518, section 4.6.2, where one round is enough: the first bytes of
    the digest of the counter, the secret, the length-prefixed [enc], [apu] and [apv], and the
    key length in bits. *)
Definition content_key (z : bytes) (size : Z) (enc apu apv : bytes) : bytes :=
  take (Z.to_nat size) (sha256 (to_bytes_be 4 1 ++ z ++ to_bytes_be 4 (len enc) ++ enc ++ to_bytes_be 4 (len apu) ++ apu ++
    to_bytes_be 4 (len apv) ++ apv ++ to_bytes_be 4 (size * 8))).

Lemma allowed_enc enc size : dget ALLOWED_ENC enc = Some size -> (enc = $"A128GCM" /\ size = 16) \/ (enc = $"A256GCM" /\ size = 32).
Proof using.
  intros [[= -> ->]|Hsize]%dget_Some_elem%elem_of_cons; [by left|]. apply list_elem_of_singleton in Hsize as [= -> ->]. by right.
Qed.

Lemma concat_kdf_content z enc size apu apv : (forall b, len (sha256 b) = 32) -> dget ALLOWED_ENC enc = Some size ->
  concat_kdf z (size * 8) enc apu apv = content_key z size enc apu apv /\ len (content_key z size enc apu apv) = size.
Proof using.
  intros Hsha He. destruct (concat_kdf_length z (size * 8) enc apu apv Hsha) as [Hk Hl].
  { destruct (allowed_enc _ _ He) as [[_ ->]|[_ ->]]; auto. }
  rewrite Z.div_mul in Hk, Hl by lia. unfold other_info, len_prefixed, pack_u32 in Hk. rewrite <- !app_assoc in Hk.
  fold (content_key z size enc apu apv) in Hk. by rewrite <- Hk.
Qed.

(** What a plaintext is: the opening, under a key derived from the agreed secret with this
    token's own algorithm and parties, of its ciphertext and tag, with its protected header
    as the authenticated data. *)
Definition opened (token : pystr) (plain : bytes) : Prop :=
  exists protected iv_b64 ciphertext_b64 tag_b64 header enc size epk z apu apv iv ciphertext tag,
    split_on 46 token = [protected; []; iv_b64; ciphertext_b64; tag_b64] /\ len token <= MAX_JWE_BYTES /\
    (exists raw, b64url_decode protected = Ok raw /\ json_loads raw = Ok (JDict header)) /\
    jget header ($"alg") = JStr ($"ECDH-ES") /\ jget header ($"enc") = JStr enc /\
    ((enc = $"A128GCM" /\ size = 16) \/ (enc = $"A256GCM" /\ size = 32)) /\
    jget header ($"zip") = JNull /\ dmem header ($"crit") = false /\ jget header ($"epk") = JDict epk /\
    agree epk = Ok z /\ party_info header ($"apu") = Ok apu /\ party_info header ($"apv") = Ok apv /\
    b64url_decode iv_b64 = Ok iv /\ b64url_decode ciphertext_b64 = Ok ciphertext /\ b64url_decode tag_b64 = Ok tag /\
    len iv = 12 /\ len tag = 16 /\
    len (content_key z size enc apu apv) = size /\
    aesgcm_decrypt (content_key z size enc apu apv) iv (ciphertext ++ tag) protected = Ok (Some plain).

Lemma accepted_header_Ok header ek enc size epk :
  accepted_header header ek = Ok (enc, size, epk) ->
  ek = [] /\ jget header ($"alg") = JStr ($"ECDH-ES") /\ jget header ($"enc") = JStr enc /\ dget ALLOWED_ENC enc = Some size /\
  jget header ($"zip") = JNull /\ dmem header ($"crit") = false /\ jget header ($"epk") = JDict epk.
Proof using.
  unfold accepted_header. destruct (jget header ($"alg")) as [| | | |alg| | |]; try done.
  destruct (jget header ($"enc")) as [| | | |enc'| | |]; try done. intros H.
  apply bind_Ok in H as (u & Ha%raise_if_Ok%negb_false_iff%bool_decide_eq_true & H). apply list_elem_of_singleton in Ha as ->.
  destruct (dget ALLOWED_ENC enc') as [size'|] eqn:Es; [|done].
  apply bind_Ok in H as (u1 & Hz%raise_if_Ok%negb_false_iff & H). apply bind_Ok in H as (u2 & Hc%raise_if_Ok & H).
  apply bind_Ok in H as (u3 & He%raise_if_Ok%negb_false_iff%bool_decide_eq_true & H).
  destruct (jget header ($"epk")) as [| | | | | |e|]; try done. apply Ok_inj in H. injection H as -> -> ->.
  destruct (jget header ($"zip")); try done.
Qed.

Lemma decrypt_compact_Ok token plain :
  (forall b, len (sha256 b) = 32) -> decrypt_compact token = Ok plain -> opened token plain.
Proof using.
  intros Hsha. unfold decrypt_compact. intros H. apply bind_Ok in H as (u & Hlen%raise_if_Ok%Z.ltb_ge & H).
  destruct (split_on 46 token) as [|p [|ek [|iv64 [|ct64 [|tag64 [|]]]]]] eqn:Es; try done.
  apply bind_Ok in H as (hv & Hh%catch_as_Ok & H). apply bind_Ok in Hh as (raw & Hraw & Hload).
  destruct hv as [| | | | | |header|]; try done. apply bind_Ok in H as ([[enc size] epk] & Hah%accepted_header_Ok & H).
  destruct Hah as (-> & ? & ? & He & ? & ? & ?). apply bind_Ok in H as (z & Hz%catch_as_Ok & H).
  apply bind_Ok in H as ([[[[apu apv] iv] ct] tag] & Hparts%catch_as_Ok & H).
  apply bind_Ok in Hparts as (apu' & Hapu & Hparts). apply bind_Ok in Hparts as (apv' & Hapv & Hparts).
  apply bind_Ok in Hparts as (iv' & Hiv & Hparts). apply bind_Ok in Hparts as (ct' & Hct & Hparts).
  apply bind_Ok in Hparts as (tag' & Htag & Hparts). apply Ok_inj in Hparts. injection Hparts as -> -> -> -> ->.
  apply bind_Ok in H as (u1 & Hiv12%raise_if_Ok%negb_false_iff%Z.eqb_eq & H).
  apply bind_Ok in H as (u2 & Htag16%raise_if_Ok%negb_false_iff%Z.eqb_eq & H). cbv zeta in H.
  apply bind_Ok in H as (aad & Haad & H). unfold encode_ascii in Haad. destruct (isascii p); [|done]. apply Ok_inj in Haad as <-.
  apply bind_Ok in H as (o & Ho%catch_as_Ok & H). destruct o as [plain'|]; [|done]. apply Ok_inj in H as ->.
  destruct (concat_kdf_content z enc size apu apv Hsha He) as [Ek Hk]. rewrite Ek in Ho. apply allowed_enc in He.
  exists p, iv64, ct64, tag64, header, enc, size, epk, z, apu, apv, iv, ct, tag. split_and!; try done. by exists raw.
Qed.
End jwe.

(** C18: What a decrypted response is.  Whatever [decrypt_compact] returns was opened by AES-GCM
    under direct ECDH-ES with an allowed [enc], with no compression, no critical extension and
    no encrypted key, from a 96-bit nonce and a 128-bit tag; the content key, of exactly the
    length of [enc], is that of the Concat KDF over the secret agreed with the token's ephemeral
    key, for this [enc] and these parties; the token's own protected header is what the tag
    authenticates.  The input of the derivation determines the algorithm and both parties. *)
Theorem jwe_decrypt_sound sha256 json_loads agree aesgcm_decrypt token plain
    (Hsha : forall b, len (sha256 b) = 32)
    (H : decrypt_compact sha256 json_loads agree aesgcm_decrypt token = Ok plain) :
  opened sha256 json_loads agree aesgcm_decrypt token plain /\
  forall bits enc apu apv bits' enc' apu' apv', Forall (fun b => len b < 2 ^ 32) [enc; apu; apv; enc'; apu'; apv'] ->
    other_info bits enc apu apv = other_info bits' enc' apu' apv' -> enc = enc' /\ apu = apu' /\ apv = apv'.
Proof.
  split; [by apply decrypt_compact_Ok|]. intros bits enc apu apv bits' enc' apu' apv'. apply other_info_inj.
Qed.

(** The token [aA..AAAAAAAAAAAAAAAA.cA.AAAAAAAAAAAAAAAAAAAAAA], with a cipher that opens to its data. *)
Definition jwe_loads (b : bytes) : result json :=
  Ok (JDict [($"alg", JStr ($"ECDH-ES")); ($"enc", JStr ($"A128GCM")); ($"epk", JDict [])]).

Lemma jwe_decrypt_sound_witness :
  opened (fun _ => repeat 0 32) jwe_loads (fun _ => Ok [9]) (fun _ _ data _ => Ok (Some (take 1 data)))
    ($"aA..AAAAAAAAAAAAAAAA.cA.AAAAAAAAAAAAAAAAAAAAAA") [112].
Proof.
  apply (jwe_decrypt_sound (fun _ => repeat 0 32) jwe_loads (fun _ => Ok [9]) (fun _ _ data _ => Ok (Some (take 1 data)))).
  - intros b. reflexivity.
  - vm_compute. reflexivity.
Defined.
