(* ===== verification/KeyBackends.v ===== *)
(** The software key backends of [openvc.keys] (src/src/openvc/keys.py): how a private key is
    generated or loaded from a JWK or a PEM file, what it signs with and publishes, ECDH key
    agreement, the ML-DSA backend and the factory [signing_key_from_jwk].

    The [cryptography] package is a parameter: its key types, and the operations the backends call.
    A key that was loaded is a [SigningKey] of [Keys], which has the JOSE forms; the exchange over a
    peer's JWK is [p256_agree] of [Jwe]. *)
From S2P Require Import Prelude Errors PyStr Json Base64 Did Keys DataIntegrity Jwe.

Definition MLDSA_SEED_BYTES : Z := 32.

(** What [load_pem_private_key] returns. *)
Inductive pem_key (Ed Ec : Type) := PemEd25519 (sk : Ed) | PemEc (sk : Ec) | PemOther.
Arguments PemEd25519 {Ed Ec} sk.
Arguments PemEc {Ed Ec} sk.
Arguments PemOther {Ed Ec}.

(** The operations of the package: [None] is a [ValueError].  Curves by their JOSE names. *)
Record cryptography (Ed Ec Ml : Type) := {
  ed_generate : Ed; ed_from_private_bytes : bytes -> option Ed; ed_public : Ed -> bytes; ed_sign : Ed -> bytes -> bytes;
  ec_generate : pystr -> Ec; ec_derive : pystr -> Z -> option Ec; ec_curve : Ec -> pystr; ec_public : Ec -> Z * Z;
  ec_sign : Ec -> pystr -> bytes -> Z * Z; ec_exchange : Ec -> Z -> Z -> bytes; on_p256 : Z -> Z -> bool;
  x962 : bool -> Ec -> bytes;
  load_pem : bytes -> option bytes -> result (pem_key Ed Ec);
  (** whether the [mldsa] module imports; the private-key class is named by its suffix *)
  mldsa_imports : bool; ml_generate : pystr -> result Ml; ml_from_seed_bytes : pystr -> bytes -> result Ml;
  ml_sign : Ml -> bytes -> result bytes; ml_public : Ml -> bytes; ml_seed : Ml -> bytes }.
Arguments ed_generate {Ed Ec Ml}. Arguments ed_from_private_bytes {Ed Ec Ml}. Arguments ed_public {Ed Ec Ml}.
Arguments ed_sign {Ed Ec Ml}. Arguments ec_generate {Ed Ec Ml}. Arguments ec_derive {Ed Ec Ml}. Arguments ec_curve {Ed Ec Ml}.
Arguments ec_public {Ed Ec Ml}. Arguments ec_sign {Ed Ec Ml}. Arguments ec_exchange {Ed Ec Ml}. Arguments on_p256 {Ed Ec Ml}.
Arguments x962 {Ed Ec Ml}. Arguments load_pem {Ed Ec Ml}. Arguments mldsa_imports {Ed Ec Ml}. Arguments ml_generate {Ed Ec Ml}.
Arguments ml_from_seed_bytes {Ed Ec Ml}. Arguments ml_sign {Ed Ec Ml}. Arguments ml_public {Ed Ec Ml}. Arguments ml_seed {Ed Ec Ml}.

Section backends.
Context {Ed Ec Ml : Type} (c : cryptography Ed Ec Ml).

Definition or_value_error {A} (o : option A) : result A := match o with Some a => Ok a | None => Err ValueError end.

(** [jwk.get("kty") != kty or jwk.get("crv") != crv or "d" not in jwk]. *)
Definition private_jwk_of (kty crv : pystr) (jwk : jobject) : bool :=
  eq_str (jget jwk ($"kty")) kty && eq_str (jget jwk ($"crv")) crv && dmem jwk ($"d").

(** ** Ed25519 *)

Definition new_ed25519 (sk : Ed) (kid alg : pystr) : result SigningKey := make_ed25519 alg kid (ed_public c sk) (ed_sign c sk).
Definition ed25519_generate (kid alg : pystr) : result SigningKey := new_ed25519 (ed_generate c) kid alg.
Definition ed25519_from_jwk (jwk : jobject) (kid alg : pystr) : result SigningKey :=
  raise_if (negb (private_jwk_of ($"OKP") ($"Ed25519") jwk)) InvalidKey;;
  raw ← b64url_member (JDict jwk) ($"d");
  sk ← or_value_error (ed_from_private_bytes c raw);
  new_ed25519 sk kid alg.
Definition ed25519_from_pem (pem : bytes) (kid : pystr) (password : option bytes) (alg : pystr) : result SigningKey :=
  k ← load_pem c pem password;
  match k with PemEd25519 sk => new_ed25519 sk kid alg | _ => Err InvalidKey end.

(** ** P-256 and P-384 *)

Definition new_p256 (sk : Ec) (kid : pystr) : result SigningKey :=
  raise_if (negb (bool_decide (ec_curve c sk = $"P-256"))) InvalidKey;;
  Ok (P256SigningKey kid (ec_public c sk).1 (ec_public c sk).2 (ec_sign c sk ($"sha256"))).
Definition new_p384 (sk : Ec) (kid : pystr) : result SigningKey :=
  raise_if (negb (bool_decide (ec_curve c sk = $"P-384"))) InvalidKey;;
  Ok (P384SigningKey kid (ec_public c sk).1 (ec_public c sk).2 (ec_sign c sk ($"sha384"))).

Definition p256_generate (kid : pystr) : result SigningKey := new_p256 (ec_generate c ($"P-256")) kid.
Definition p384_generate (kid : pystr) : result SigningKey := new_p384 (ec_generate c ($"P-384")) kid.

Definition p256_from_jwk (jwk : jobject) (kid : pystr) : result SigningKey :=
  raise_if (negb (private_jwk_of ($"EC") ($"P-256") jwk)) InvalidKey;;
  d ← int_member (JDict jwk) ($"d");
  sk ← or_value_error (ec_derive c ($"P-256") d);
  new_p256 sk kid.
(** The P-384 backend gives a scalar out of range its own error. *)
Definition p384_from_jwk (jwk : jobject) (kid : pystr) : result SigningKey :=
  raise_if (negb (private_jwk_of ($"EC") ($"P-384") jwk)) InvalidKey;;
  d ← int_member (JDict jwk) ($"d");
  catch_as (fun e => isinstance e ValueError) InvalidKey (sk ← or_value_error (ec_derive c ($"P-384") d); new_p384 sk kid).

Definition ec_of_pem (pem : bytes) (password : option bytes) : result Ec :=
  k ← load_pem c pem password;
  match k with PemEc sk => Ok sk | _ => Err InvalidKey end.
Definition p256_from_pem (pem : bytes) (kid : pystr) (password : option bytes) : result SigningKey :=
  sk ← ec_of_pem pem password; new_p256 sk kid.
Definition p384_from_pem (pem : bytes) (kid : pystr) (password : option bytes) : result SigningKey :=
  sk ← ec_of_pem pem password; new_p384 sk kid.

(** [public_key_raw]. *)
Definition ed25519_public_key_raw (sk : Ed) : bytes := ed_public c sk.
Definition ec_public_key_raw (sk : Ec) (compressed : bool) : bytes := x962 c compressed sk.

(** ** Key agreement *)

Record P256KeyAgreementKey := { ka_sk : Ec; ka_kid : pystr }.

Definition new_agreement (sk : Ec) (kid : pystr) : result P256KeyAgreementKey :=
  raise_if (negb (bool_decide (ec_curve c sk = $"P-256"))) InvalidKey;; Ok {| ka_sk := sk; ka_kid := kid |}.
Definition agreement_generate (kid : pystr) : result P256KeyAgreementKey := new_agreement (ec_generate c ($"P-256")) kid.
Definition agreement_from_jwk (jwk : jobject) (kid : pystr) : result P256KeyAgreementKey :=
  raise_if (negb (private_jwk_of ($"EC") ($"P-256") jwk)) InvalidKey;;
  d ← int_member (JDict jwk) ($"d");
  sk ← or_value_error (ec_derive c ($"P-256") d);
  new_agreement sk kid.
Definition agreement_from_pem (pem : bytes) (kid : pystr) (password : option bytes) : result P256KeyAgreementKey :=
  sk ← ec_of_pem pem password; new_agreement sk kid.

Definition agree (k : P256KeyAgreementKey) (peer_public_jwk : jobject) : result bytes :=
  p256_agree (on_p256 c) (ec_exchange c (ka_sk k)) peer_public_jwk.

Definition agreement_public_jwk (k : P256KeyAgreementKey) : result jobject :=
  bx ← int_to_fixed (ec_public c (ka_sk k)).1 P256_COORD_BYTES;
  by_ ← int_to_fixed (ec_public c (ka_sk k)).2 P256_COORD_BYTES;
  Ok [($"kty", JStr ($"EC")); ($"crv", JStr ($"P-256")); ($"use", JStr ($"enc"));
      ($"x", JStr (b64url_encode bx)); ($"y", JStr (b64url_encode by_))].

(** ** ML-DSA *)

(** [_mldsa_classes]: the suffix that names the classes. *)
Definition mldsa_classes (alg : pystr) : result pystr :=
  raise_if (negb (bool_decide (alg ∈ MLDSA_ALGS))) InvalidKey;;
  raise_if (negb (mldsa_imports c)) InvalidKey;;
  Ok (List.last (split_on 45 alg) []).

Definition mldsa_available : bool := is_ok (raise_if (negb (mldsa_imports c)) InvalidKey;; ml_generate c ($"44")).

Record MLDSASigningKey := { ml_sk : Ml; ml_kid : pystr; ml_alg : pystr }.

Definition new_mldsa (sk : Ml) (kid alg : pystr) : result MLDSASigningKey :=
  raise_if (negb (bool_decide (alg ∈ MLDSA_ALGS))) InvalidKey;; Ok {| ml_sk := sk; ml_kid := kid; ml_alg := alg |}.

Definition mldsa_sign (k : MLDSASigningKey) (signing_input : bytes) : result bytes :=
  catch_as (fun _ => true) InvalidKey (ml_sign c (ml_sk k) signing_input).
Definition mldsa_public_jwk (k : MLDSASigningKey) : jobject :=
  [($"kty", JStr ($"AKP")); ($"alg", JStr (ml_alg k)); ($"pub", JStr (b64url_encode (ml_public c (ml_sk k))))].
Definition mldsa_private_jwk (k : MLDSASigningKey) : jobject :=
  dset (mldsa_public_jwk k) ($"priv") (JStr (b64url_encode (ml_seed c (ml_sk k)))).

Definition mldsa_generate (kid alg : pystr) : result MLDSASigningKey :=
  suffix ← mldsa_classes alg;
  catch_as (fun _ => true) InvalidKey (sk ← ml_generate c suffix; new_mldsa sk kid alg).
Definition mldsa_from_seed (seed : bytes) (kid alg : pystr) : result MLDSASigningKey :=
  suffix ← mldsa_classes alg;
  raise_if (negb (len seed =? MLDSA_SEED_BYTES)) InvalidKey;;
  sk ← ml_from_seed_bytes c suffix seed;
  new_mldsa sk kid alg.
Definition mldsa_from_jwk (jwk : jobject) (kid : pystr) : result MLDSASigningKey :=
  raise_if (negb (eq_str (jget jwk ($"kty")) ($"AKP") && dmem jwk ($"priv"))) InvalidKey;;
  match jget jwk ($"alg") with
  | JStr alg =>
      raise_if (negb (bool_decide (alg ∈ MLDSA_ALGS))) InvalidKey;;
      seed ← b64url_member (JDict jwk) ($"priv");
      mldsa_from_seed seed kid alg
  | _ => Err InvalidKey
  end.

(** ** The factory *)

Definition signing_key_from_jwk (jwk : jobject) (kid : pystr) : result (SigningKey + MLDSASigningKey) :=
  let kty := jget jwk ($"kty") in
  let crv := jget jwk ($"crv") in
  if eq_str kty ($"OKP") && eq_str crv ($"Ed25519") then k ← ed25519_from_jwk jwk kid ($"EdDSA"); Ok (inl k)
  else if eq_str kty ($"EC") && eq_str crv ($"P-256") then k ← p256_from_jwk jwk kid; Ok (inl k)
  else if eq_str kty ($"EC") && eq_str crv ($"P-384") then k ← p384_from_jwk jwk kid; Ok (inl k)
  else if eq_str kty ($"AKP") then k ← mldsa_from_jwk jwk kid; Ok (inr k)
  else Err InvalidKey.

(** The [SigningKey] protocol of what the factory returns. *)
Definition backend_alg (k : SigningKey + MLDSASigningKey) : pystr := match k with inl k => key_alg k | inr k => ml_alg k end.
Definition backend_sign (k : SigningKey + MLDSASigningKey) (m : bytes) : result bytes :=
  match k with inl k => sign k m | inr k => mldsa_sign k m end.
Definition backend_public_jwk (k : SigningKey + MLDSASigningKey) : result jobject :=
  match k with inl k => public_jwk k | inr k => Ok (mldsa_public_jwk k) end.
End backends.

(** * What a loaded key is *)

Section facts.
Context {Ed Ec Ml : Type} (c : cryptography Ed Ec Ml).

(** The JWK's own private value, decoded. *)
Definition private_bytes (jwk : jobject) (member : pystr) (raw : bytes) : Prop := b64url_member (JDict jwk) member = Ok raw.

Definition loaded_from (jwk : jobject) (kid : pystr) (k : SigningKey + MLDSASigningKey) : Prop :=
  (jget jwk ($"kty") = JStr ($"OKP") /\ jget jwk ($"crv") = JStr ($"Ed25519") /\
     exists raw sk, private_bytes jwk ($"d") raw /\ ed_from_private_bytes c raw = Some sk /\
       k = inl (Ed25519SigningKey ($"EdDSA") kid (ed_public c sk) (ed_sign c sk))) \/
  (jget jwk ($"kty") = JStr ($"EC") /\ exists crv hash con,
     (crv, hash, con) ∈ [($"P-256", $"sha256", P256SigningKey); ($"P-384", $"sha384", P384SigningKey)] /\ jget jwk ($"crv") = JStr crv /\
     exists raw sk, private_bytes jwk ($"d") raw /\ ec_derive c crv (from_bytes_be raw) = Some sk /\ ec_curve c sk = crv /\
       k = inl (con kid (ec_public c sk).1 (ec_public c sk).2 (ec_sign c sk hash))) \/
  (jget jwk ($"kty") = JStr ($"AKP") /\ exists alg seed sk,
     jget jwk ($"alg") = JStr alg /\ alg ∈ MLDSA_ALGS /\ mldsa_imports c = true /\ private_bytes jwk ($"priv") seed /\ len seed = 32 /\
     ml_from_seed_bytes c (List.last (split_on 45 alg) []) seed = Ok sk /\
     k = inr {| ml_sk := sk; ml_kid := kid; ml_alg := alg |}).

Lemma or_value_error_Ok {A} (o : option A) a : or_value_error o = Ok a <-> o = Some a.
Proof. destruct o; cbn; naive_solver. Qed.

Lemma int_member_Ok jwk name d : int_member jwk name = Ok d <-> exists raw, b64url_member jwk name = Ok raw /\ d = from_bytes_be raw.
Proof. unfold int_member. rewrite bind_Ok. split; intros (raw & H & E); exists raw; by (injection E as <- || subst). Qed.

Lemma signing_key_from_jwk_Ok jwk kid k : signing_key_from_jwk c jwk kid = Ok k -> loaded_from jwk kid k.
Proof.
  unfold signing_key_from_jwk, loaded_from. intros H.
  destruct (eq_str (jget jwk ($"kty")) ($"OKP") && eq_str (jget jwk ($"crv")) ($"Ed25519")) eqn:E1.
  { apply andb_true_iff in E1 as [Hk%eq_str_true Hc%eq_str_true]. left. split; [done|]. split; [done|].
    apply bind_Ok in H as (k' & H & [= <-]). apply bind_Ok in H as (_ & _ & H). apply bind_Ok in H as (raw & Hr & H).
    apply bind_Ok in H as (sk & Hs%or_value_error_Ok & H). apply bind_Ok in H as (_ & _ & [= <-]). by exists raw, sk. }
  destruct (eq_str (jget jwk ($"kty")) ($"EC") && eq_str (jget jwk ($"crv")) ($"P-256")) eqn:E2.
  { apply andb_true_iff in E2 as [Hk%eq_str_true Hc%eq_str_true]. right; left. split; [done|].
    exists ($"P-256"), ($"sha256"), P256SigningKey. split; [left|]. split; [done|].
    apply bind_Ok in H as (k' & H & [= <-]). apply bind_Ok in H as (_ & _ & H). apply bind_Ok in H as (d & Hd & H).
    apply int_member_Ok in Hd as (raw & Hr & ->). apply bind_Ok in H as (sk & Hs%or_value_error_Ok & H).
    apply bind_Ok in H as (_ & Hcv%raise_if_Ok%negb_false_iff%bool_decide_eq_true & [= <-]). by exists raw, sk. }
  destruct (eq_str (jget jwk ($"kty")) ($"EC") && eq_str (jget jwk ($"crv")) ($"P-384")) eqn:E3.
  { apply andb_true_iff in E3 as [Hk%eq_str_true Hc%eq_str_true]. right; left. split; [done|].
    exists ($"P-384"), ($"sha384"), P384SigningKey. split; [right; left|]. split; [done|].
    apply bind_Ok in H as (k' & H & [= <-]). apply bind_Ok in H as (_ & _ & H). apply bind_Ok in H as (d & Hd & H).
    apply int_member_Ok in Hd as (raw & Hr & ->). apply catch_as_Ok, bind_Ok in H as (sk & Hs%or_value_error_Ok & H).
    apply bind_Ok in H as (_ & Hcv%raise_if_Ok%negb_false_iff%bool_decide_eq_true & [= <-]). by exists raw, sk. }
  destruct (eq_str (jget jwk ($"kty")) ($"AKP")) eqn:E4; [|done]. apply eq_str_true in E4. right; right. split; [done|].
  apply bind_Ok in H as (k' & H & [= <-]). apply bind_Ok in H as (_ & _ & H).
  destruct (jget jwk ($"alg")) as [| | | |alg| | |] eqn:Ea; try done.
  apply bind_Ok in H as (_ & Hin%raise_if_Ok%negb_false_iff%bool_decide_eq_true & H). apply bind_Ok in H as (seed & Hs & H).
  apply bind_Ok in H as (suffix & Hsuf & H). apply bind_Ok in Hsuf as (_ & _ & Hsuf).
  apply bind_Ok in Hsuf as (_ & Hi%raise_if_Ok%negb_false_iff & [= <-]).
  apply bind_Ok in H as (_ & Hlen%raise_if_Ok%negb_false_iff%Z.eqb_eq & H). apply bind_Ok in H as (sk & Hsk & H).
  apply bind_Ok in H as (_ & _ & [= <-]). by exists alg, seed, sk.
Qed.

(** ** The primitives, as the package documents them *)

Context (ed25519_verify : bytes -> bytes -> bytes -> option bool) (ecdsa_verify : pystr -> Z -> Z -> Z * Z -> bytes -> option bool)
  (mldsa_verify : pystr -> bytes -> bytes -> bytes -> result bool).

(** A key verifies what it signed; coordinates, scalars and signature components are of the curve's width. *)
Definition primitives_sign : Prop :=
  (forall sk m, bytes_ok (ed_public c sk) /\ ed25519_verify (ed_public c sk) (ed_sign c sk m) m = Some true) /\
  (forall crv hash size sk m, (crv, hash, size) ∈ [($"P-256", $"sha256", 32); ($"P-384", $"sha384", 48)] -> ec_curve c sk = crv ->
     let fits n := 0 <= n < 256 ^ size in
     fits (ec_public c sk).1 /\ fits (ec_public c sk).2 /\ fits (ec_sign c sk hash m).1 /\ fits (ec_sign c sk hash m).2 /\
     ecdsa_verify crv (ec_public c sk).1 (ec_public c sk).2 (ec_sign c sk hash m) m = Some true) /\
  (forall alg seed sk m, ml_from_seed_bytes c (List.last (split_on 45 alg) []) seed = Ok sk ->
     bytes_ok (ml_public c sk) /\ exists sig, ml_sign c sk m = Ok sig /\ mldsa_verify alg (ml_public c sk) sig m = Ok true).
End facts.

(** C39: A private JWK signs for the public JWK published for it.  A key the factory loads was made from the
    JWK's own private value by the backend of its key type and curve; what it signs, under its
    algorithm name, verifies against the public JWK it publishes; and that public JWK has the type and
    curve (or parameter set) of the private one and none of its private members. *)
Theorem loaded_key_signs {Ed Ec Ml} (c : cryptography Ed Ec Ml) ed25519_verify ecdsa_verify mldsa_verify jwk kid k m :
  primitives_sign c ed25519_verify ecdsa_verify mldsa_verify ->
  signing_key_from_jwk c jwk kid = Ok k ->
  loaded_from c jwk kid k /\
  exists public sig, backend_public_jwk c k = Ok public /\ backend_sign c k m = Ok sig /\
    verify_signature ed25519_verify ecdsa_verify mldsa_verify (backend_alg k) (JDict public) m sig = Ok true /\
    jget public ($"kty") = jget jwk ($"kty") /\
    (jget jwk ($"kty") <> JStr ($"AKP") -> jget public ($"crv") = jget jwk ($"crv")) /\
    dmem public ($"d") = false /\ dmem public ($"priv") = false.
Proof.
  intros (Hed & Hec & Hml) H%signing_key_from_jwk_Ok. split; [done|].
  destruct H as [(Hk & Hc & raw & sk & _ & _ & ->)|[(Hk & crv & hash & con & Hin & Hc & raw & sk & _ & _ & Hcv & ->)
    |(Hk & alg & seed & sk & Ha & Hin & _ & _ & _ & Hsk & ->)]]; cbn [backend_public_jwk backend_sign backend_alg].
  - destruct (Hed sk m) as [Hok Hv].
    destruct (sign_verify_roundtrip ed25519_verify ecdsa_verify mldsa_verify (Ed25519SigningKey ($"EdDSA") kid (ed_public c sk) (ed_sign c sk)) m)
      as (pub & sig & Hp & Hs & Hver); [split; [left|done]|].
    exists pub, sig. split_and!; try done; injection Hp as <-; [by rewrite Hk|by rewrite Hc|done..].
  - set (key := con kid _ _ _).
    assert (signs_for ed25519_verify ecdsa_verify key m) as Hf.
    { unfold key. repeat (apply elem_of_cons in Hin as [[= -> -> ->]|Hin]); [..|by apply elem_of_nil in Hin].
      - apply (Hec _ _ 32); [left|done].
      - apply (Hec _ _ 48); [right; left|done]. }
    destruct (sign_verify_roundtrip ed25519_verify ecdsa_verify mldsa_verify key m Hf) as (pub & sig & Hp & Hs & Hver).
    assert (exists x y, pub = ec_jwk crv x y) as (x & y & ->).
    { unfold key in Hp. repeat (apply elem_of_cons in Hin as [[= -> -> ->]|Hin]); [..|by apply elem_of_nil in Hin];
        apply bind_Ok in Hp as (bx & _ & Hp); apply bind_Ok in Hp as (by_ & _ & [= <-]); by exists bx, by_. }
    exists (ec_jwk crv x y), sig. split_and!; try done; by rewrite ?Hk, ?Hc.
  - destruct (Hml alg seed sk m Hsk) as (Hok & sig & Hs & Hv). exists (mldsa_public_jwk c {| ml_sk := sk; ml_kid := kid; ml_alg := alg |}), sig.
    split_and!; try done.
    + unfold mldsa_sign. cbn [ml_sk]. by rewrite Hs.
    + unfold verify_signature. rewrite (bool_decide_eq_false_2 (alg ∈ ED25519_ALG_NAMES)), (bool_decide_eq_false_2 (alg = $"ES256")),
        (bool_decide_eq_false_2 (alg = $"ES384")), (bool_decide_eq_true_2 (alg ∈ MLDSA_ALGS)) by
        (try done; unfold MLDSA_ALGS in Hin; repeat (apply elem_of_cons in Hin as [->|Hin]; [by apply (bool_decide_unpack _)|]);
         by apply elem_of_nil in Hin).
      assert (b64url_member (JDict (mldsa_public_jwk c {| ml_sk := sk; ml_kid := kid; ml_alg := alg |})) ($"pub") = Ok (ml_public c sk)) as ->.
      { unfold b64url_member, mldsa_public_jwk. look. by apply b64url_decode_encode. }
      unfold ml_alg. cbn [mbind result_bind]. by rewrite Hv.
Qed.

(** A toy package: an Ed25519 key is its public key, an EC key its curve and point. *)
Definition toy_crypto : cryptography bytes (pystr * (Z * Z)) bytes :=
  {| ed_generate := [1]; ed_from_private_bytes := fun raw => Some raw; ed_public := fun _ => [7]; ed_sign := fun _ m => m;
     ec_generate := fun crv => (crv, (1, 2)); ec_derive := fun crv d => if d =? 0 then None else Some (crv, (1, 2));
     ec_curve := fst; ec_public := fun sk => (1, 2); ec_sign := fun _ _ _ => (3, 4); ec_exchange := fun _ x y => [x; y];
     on_p256 := fun x y => (x =? 1) && (y =? 2); x962 := fun _ _ => []; load_pem := fun _ _ => Err ValueError;
     mldsa_imports := true; ml_generate := fun _ => Ok []; ml_from_seed_bytes := fun _ seed => Ok seed; ml_sign := fun _ m => Ok m;
     ml_public := fun _ => [9]; ml_seed := fun sk => sk |}.
Definition toy_ecdsa (crv : pystr) (x y : Z) (rs : Z * Z) (m : bytes) : option bool := Some ((x =? 1) && (y =? 2) && (rs.1 =? 3) && (rs.2 =? 4)).
Definition toy_jwk : jobject := [($"kty", JStr ($"EC")); ($"crv", JStr ($"P-384")); ($"d", JStr (b64url_encode [5]))].

Lemma toy_primitives_sign :
  primitives_sign toy_crypto (fun key sig m => Some (bool_decide (key = [7] /\ sig = m))) toy_ecdsa
    (fun _ key sig m => Ok (bool_decide (key = [9] /\ sig = m))).
Proof.
  split; [|split].
  - intros sk m. split; [by repeat constructor|]. cbn. by rewrite bool_decide_true.
  - intros crv hash size sk m Hin _. repeat (apply elem_of_cons in Hin as [[= -> -> ->]|Hin]); [..|by apply elem_of_nil in Hin]; vm_compute; repeat split; discriminate.
  - intros alg seed sk m _. split; [by repeat constructor|]. exists m. cbn. split; [done|]. by rewrite bool_decide_true.
Qed.

Lemma loaded_key_signs_witness : exists k, signing_key_from_jwk toy_crypto toy_jwk [] = Ok k /\ loaded_from toy_crypto toy_jwk [] k.
Proof.
  eexists. split; [vm_compute; reflexivity|].
  eapply (loaded_key_signs toy_crypto (fun key sig m => Some (bool_decide (key = [7] /\ sig = m))) toy_ecdsa
    (fun _ key sig m => Ok (bool_decide (key = [9] /\ sig = m))) toy_jwk [] _ [1]); [apply toy_primitives_sign|vm_compute; reflexivity].
Defined.

(** * The factory's errors *)

Lemma b64url_member_errs jwk name : dmem jwk name = true -> errs_in (fun e => e = ValueError \/ e = TypeError) (b64url_member (JDict jwk) name).
Proof.
  unfold dmem, b64url_member. destruct (dget jwk name) as [v|]; [intros _|done].
  destruct v; try (apply errs_in_Err; by right). eapply errs_in_impl; [|apply b64url_decode_errs]. intros e <-. by left.
Qed.

Lemma b64url_member_all jwk name : errs_in (fun e => e = KeyError \/ e = ValueError \/ e = TypeError) (b64url_member (JDict jwk) name).
Proof.
  destruct (dmem jwk name) eqn:Em.
  - eapply errs_in_impl; [|by apply b64url_member_errs]. naive_solver.
  - unfold dmem, b64url_member in *. destruct (dget jwk name); [done|]. apply errs_in_Err. by left.
Qed.

(** What a load may raise. *)
Definition load_error {Ed Ec Ml} (c : cryptography Ed Ec Ml) (e : exn) : Prop :=
  e = InvalidKey \/ e = ValueError \/ e = TypeError \/ exists suffix seed, ml_from_seed_bytes c suffix seed = Err e.

Lemma or_value_error_errs {A} (P : exn -> Prop) (o : option A) : P ValueError -> errs_in P (or_value_error o).
Proof. intros H. destruct o; [apply errs_in_Ok|by apply errs_in_Err]. Qed.

Ltac loads :=
  repeat first [ discriminate | apply errs_in_Ok | apply errs_in_Err; done | apply errs_in_raise_if; done | apply or_value_error_errs; done
               | solve [eauto 3] |  apply errs_in_bind; [|intros ? ?]
               | progress unfold new_ed25519, make_ed25519, new_p256, mldsa_from_seed, mldsa_classes, new_mldsa ].

(** The factory's refusals.  An unknown key type or curve, a missing private member, an unknown parameter set and a
    seed of the wrong length are [InvalidKey]; so is a P-384 scalar out of range.  What else
    escapes is the [ValueError] or [TypeError] of a private value that is not one (a member that is not base64url text, an
    Ed25519 seed of the wrong length, a P-256 scalar out of range), or what the package raises for an ML-DSA seed. *)
Theorem signing_key_from_jwk_errors {Ed Ec Ml} (c : cryptography Ed Ec Ml) jwk kid :
  errs_in (load_error c) (signing_key_from_jwk c jwk kid) /\
  (forall raw, private_jwk_of ($"EC") ($"P-384") jwk = true -> b64url_member (JDict jwk) ($"d") = Ok raw ->
     ec_derive c ($"P-384") (from_bytes_be raw) = None -> signing_key_from_jwk c jwk kid = Err InvalidKey).
Proof.
  assert (Hd : forall kty crv u, raise_if (negb (private_jwk_of kty crv jwk)) InvalidKey = Ok u ->
            errs_in (load_error c) (b64url_member (JDict jwk) ($"d"))).
  { intros kty crv u [_ H]%raise_if_Ok%negb_false_iff%andb_true_iff. eapply errs_in_impl; [|by apply b64url_member_errs].
    unfold load_error. naive_solver. }
  assert (Hp : forall kty u, raise_if (negb (kty && dmem jwk ($"priv"))) InvalidKey = Ok u ->
            errs_in (load_error c) (b64url_member (JDict jwk) ($"priv"))).
  { intros kty u [_ H]%raise_if_Ok%negb_false_iff%andb_true_iff. eapply errs_in_impl; [|by apply b64url_member_errs].
    unfold load_error. naive_solver. }
  assert (Hm : forall suffix seed, errs_in (load_error c) (ml_from_seed_bytes c suffix seed)).
  { intros suffix seed. destruct (ml_from_seed_bytes c suffix seed) eqn:Em; [apply errs_in_Ok|].
    apply errs_in_Err. right; right; right. by do 2 eexists. }
  assert (load_error c InvalidKey) as HI by by left. assert (load_error c ValueError) as HV by (right; by left).
  split.
  - unfold signing_key_from_jwk. repeat case_match; loads.
    + destruct (ec_derive c _ _) as [sk|]; cbn [or_value_error mbind result_bind]; [|loads].
      unfold new_p384. destruct (bool_decide _); loads.
    + destruct (jget jwk ($"alg")); loads.
  - intros raw Hj Hr Hn. pose proof Hj as Hj'. apply andb_true_iff in Hj as [[Hk%eq_str_true Hc%eq_str_true]%andb_true_iff _].
    unfold signing_key_from_jwk. rewrite Hk, Hc. cbn. unfold p384_from_jwk. rewrite Hj'. cbn [negb raise_if mbind result_bind].
    unfold int_member. by rewrite Hr; cbn [mbind result_bind]; rewrite Hn.
Qed.

Definition zero_scalar (crv : pystr) : jobject := [($"kty", JStr ($"EC")); ($"crv", JStr crv); ($"d", JStr (b64url_encode [0]))].

Lemma signing_key_from_jwk_errors_witness : signing_key_from_jwk toy_crypto (zero_scalar ($"P-384")) [] = Err InvalidKey.
Proof. apply (signing_key_from_jwk_errors toy_crypto (zero_scalar ($"P-384")) []) with (raw := [0]); vm_compute; reflexivity. Defined.

(** A P-256 scalar that is out of range is a bare [ValueError], which [except OpenvcError] does not catch. *)
Theorem zero_scalar_escapes :
  signing_key_from_jwk toy_crypto (zero_scalar ($"P-384")) [] = Err InvalidKey /\
  signing_key_from_jwk toy_crypto (zero_scalar ($"P-256")) [] = Err ValueError /\ isinstance ValueError OpenvcError = false.
Proof. vm_compute. done. Qed.

(** * ML-DSA keys round trip *)

(** An exported ML-DSA key is the key.  The private JWK of a key, handed back to the factory, is the same key
    under the same parameter set, when the package returns for the seed of a key that key; and the public
    JWK is the private one without its seed. *)
Theorem mldsa_private_jwk_roundtrip {Ed Ec Ml} (c : cryptography Ed Ec Ml) sk kid alg k :
  mldsa_imports c = true -> len (ml_seed c sk) = MLDSA_SEED_BYTES -> bytes_ok (ml_seed c sk) ->
  ml_from_seed_bytes c (List.last (split_on 45 alg) []) (ml_seed c sk) = Ok sk ->
  new_mldsa sk kid alg = Ok k ->
  signing_key_from_jwk c (mldsa_private_jwk c k) kid = Ok (inr k) /\
  ddel (mldsa_private_jwk c k) ($"priv") = mldsa_public_jwk c k.
Proof.
  intros Hi Hl Hok Hs Hk. apply bind_Ok in Hk as (u & Ha & [= <-]). pose proof Ha as Hin%raise_if_Ok%negb_false_iff%bool_decide_eq_true.
  unfold mldsa_private_jwk, mldsa_public_jwk. cbn [ml_sk ml_alg]. split.
  - rewrite dset_new by by apply (bool_decide_unpack _). cbn [app]. set (jwk := _ :: _).
    assert (jget jwk ($"kty") = JStr ($"AKP") /\ jget jwk ($"crv") = JNull /\ jget jwk ($"alg") = JStr alg /\ dmem jwk ($"priv") = true)
      as (Ek & Ec' & Ea & Ep) by (split_and!; reflexivity).
    assert (b64url_member (JDict jwk) ($"priv") = Ok (ml_seed c sk)) as Es.
    { unfold b64url_member, jwk. look. by apply b64url_decode_encode. }
    unfold signing_key_from_jwk, mldsa_from_jwk. rewrite Ek, Ec', Ea, Ep, Es. cbv zeta.
    change (eq_str (JStr ($"AKP")) ($"OKP")) with false. change (eq_str (JStr ($"AKP")) ($"EC")) with false.
    change (eq_str (JStr ($"AKP")) ($"AKP")) with true. cbn [andb negb raise_if mbind result_bind].
    rewrite (bool_decide_eq_true_2 (alg ∈ MLDSA_ALGS)) by done. cbn [negb raise_if mbind result_bind].
    unfold mldsa_from_seed, mldsa_classes, new_mldsa. rewrite Hi, (bool_decide_eq_true_2 (alg ∈ MLDSA_ALGS)) by done.
    cbn [negb raise_if mbind result_bind]. rewrite Hl. cbn [Z.eqb MLDSA_SEED_BYTES Pos.eqb negb raise_if mbind result_bind]. by rewrite Hs.
  - apply ddel_dset_new. by apply (bool_decide_unpack _).
Qed.

Lemma mldsa_private_jwk_roundtrip_witness : exists k, new_mldsa (repeat 3 32) ($"k") ($"ML-DSA-65") = Ok k /\
  signing_key_from_jwk toy_crypto (mldsa_private_jwk toy_crypto k) ($"k") = Ok (inr k).
Proof.
  eexists. split; [vm_compute; reflexivity|].
  eapply (mldsa_private_jwk_roundtrip toy_crypto (repeat 3 32) ($"k") ($"ML-DSA-65")); [reflexivity|reflexivity| |reflexivity|vm_compute; reflexivity].
  apply (bool_decide_unpack _). vm_compute. exact I.
Defined.


(** * Key agreement *)

(** Both sides of a key agreement get the same secret, and only from a point of the curve.  When the package's
    exchange is symmetric and public coordinates are of the curve's width and on it, each of two
    keys agrees with the JWK the other publishes on the same secret; and whatever JWK an attacker
    sends as the ephemeral key, an agreement is an exchange with the P-256 point its two
    coordinates spell, any other JWK being [InvalidKey]. *)
Theorem agreement_shared {Ed Ec Ml} (c : cryptography Ed Ec Ml) k1 k2 (pub : Ec -> Z * Z := ec_public c) :
  (forall sk, 0 <= (pub sk).1 < 256 ^ 32 /\ 0 <= (pub sk).2 < 256 ^ 32 /\ on_p256 c (pub sk).1 (pub sk).2 = true) ->
  (forall sk1 sk2, ec_exchange c sk1 (pub sk2).1 (pub sk2).2 = ec_exchange c sk2 (pub sk1).1 (pub sk1).2) ->
  (exists jwk1 jwk2 z, agreement_public_jwk c k1 = Ok jwk1 /\ agreement_public_jwk c k2 = Ok jwk2 /\
     agree c k1 jwk2 = Ok z /\ agree c k2 jwk1 = Ok z) /\
  forall peer, match agree c k1 peer with
    | Ok z => jget peer ($"kty") = JStr ($"EC") /\ jget peer ($"crv") = JStr ($"P-256") /\
        exists x y, int_member (JDict peer) ($"x") = Ok x /\ int_member (JDict peer) ($"y") = Ok y /\ on_p256 c x y = true /\
          z = ec_exchange c (ka_sk k1) x y
    | Err e => e = InvalidKey
    end.
Proof.
  intros Hfit Hsym. split.
  - assert (Hjwk : forall k, exists jwk, agreement_public_jwk c k = Ok jwk /\
      jget jwk ($"kty") = JStr ($"EC") /\ jget jwk ($"crv") = JStr ($"P-256") /\
      b64url_member (JDict jwk) ($"x") = Ok (to_bytes_be 32 (pub (ka_sk k)).1) /\
      b64url_member (JDict jwk) ($"y") = Ok (to_bytes_be 32 (pub (ka_sk k)).2)).
    { intros k. destruct (Hfit (ka_sk k)) as (Hx & Hy & _). unfold agreement_public_jwk, int_to_fixed. fold pub.
      rewrite !int_to_bytes_ok by done. cbn [mbind result_bind]. eexists. split; [done|]. split; [done|]. split; [done|].
      unfold b64url_member. look. by rewrite !b64url_decode_encode by apply to_bytes_be_ok. }
    assert (Hagree : forall k k' jwk, b64url_member (JDict jwk) ($"x") = Ok (to_bytes_be 32 (pub (ka_sk k')).1) ->
      b64url_member (JDict jwk) ($"y") = Ok (to_bytes_be 32 (pub (ka_sk k')).2) -> jget jwk ($"kty") = JStr ($"EC") ->
      jget jwk ($"crv") = JStr ($"P-256") -> agree c k jwk = Ok (ec_exchange c (ka_sk k) (pub (ka_sk k')).1 (pub (ka_sk k')).2)).
    { intros k k' jwk Hx Hy Hk Hc. destruct (Hfit (ka_sk k')) as (Fx & Fy & Hon). unfold agree, p256_agree. rewrite Hk, Hc, Hx, Hy.
      cbn [eq_str mbind result_bind]. rewrite !from_to_bytes_be by done. by rewrite Hon. }
    destruct (Hjwk k1) as (j1 & H1 & K1 & C1 & X1 & Y1), (Hjwk k2) as (j2 & H2 & K2 & C2 & X2 & Y2).
    exists j1, j2, (ec_exchange c (ka_sk k1) (pub (ka_sk k2)).1 (pub (ka_sk k2)).2).
    split_and!; [done|done|by apply Hagree|]. rewrite Hsym. by apply Hagree.
  - intros peer. unfold agree, p256_agree, int_member. destruct (eq_str (jget peer ($"kty")) _) eqn:Ek; [|done].
    destruct (eq_str (jget peer ($"crv")) _) eqn:Ec'; [|done]. apply eq_str_true in Ek, Ec'. cbn [negb orb raise_if mbind result_bind].
    pose proof (b64url_member_all peer ($"x")) as Hx. pose proof (b64url_member_all peer ($"y")) as Hy.
    destruct (b64url_member (JDict peer) ($"x")) as [bx|e]; cbn [mbind result_bind]; [|by destruct (Hx e eq_refl) as [->|[->| ->]]].
    destruct (b64url_member (JDict peer) ($"y")) as [by_|e]; cbn [mbind result_bind]; [|by destruct (Hy e eq_refl) as [->|[->| ->]]].
    destruct (on_p256 c _ _) eqn:Eon; cbn; [|done]. split; [done|]. split; [done|]. by exists (from_bytes_be bx), (from_bytes_be by_).
Qed.

Lemma agreement_shared_witness : exists z,
  agree toy_crypto {| ka_sk := ($"P-256", (1, 2)); ka_kid := [] |}
    [($"kty", JStr ($"EC")); ($"crv", JStr ($"P-256")); ($"use", JStr ($"enc")); ($"x", JStr (b64url_encode (to_bytes_be 32 1)));
     ($"y", JStr (b64url_encode (to_bytes_be 32 2)))] = Ok z.
Proof.
  destruct (agreement_shared toy_crypto {| ka_sk := ($"P-256", (1, 2)); ka_kid := [] |} {| ka_sk := ($"P-256", (1, 2)); ka_kid := [] |})
    as [(jwk1 & jwk2 & z & _ & H2 & Hz & _) _].
  - intros sk. vm_compute. repeat split; discriminate.
  - reflexivity.
  - exists z. vm_compute in H2. injection H2 as <-. exact Hz.
Defined.

