(* ===== verification/Verify.v ===== *)
(** [openvc.verify] (src/src/openvc/verify.py): the verification pipeline, which composes the
    proof suites, key resolution, status and schema checks of the other files under one
    policy.

    What the pipeline calls outside this repository is one record, [runtime], pyld, the JSON-LD
    processor, among it; what the caller injects is another, [resolvers].  X.509 chain validation
    reaches the pipeline as [x5c_key], the function of [X5c] with the caller's anchors. *)
From Stdlib Require Import SpecFloat.
From S2P Require Import Prelude Errors PyStr Utf8 Json PyNum StatusCodec StatusCheck VerifyCommon EcdsaSd VcJwt SdJwt Schema Did Keys Contexts ContextValidation DataIntegrity JwtVcIssuer.

(** * Formats *)

Definition FORMAT_VC_JWT : pystr := $"vc-jwt".
Definition FORMAT_SD_JWT_VC : pystr := $"sd-jwt-vc".
Definition FORMAT_DI_EDDSA : pystr := $"data-integrity:eddsa-rdfc-2022".
Definition FORMAT_DI_ECDSA_SD : pystr := $"data-integrity:ecdsa-sd-2023".
Definition FORMAT_DI_EDDSA_JCS : pystr := $"data-integrity:eddsa-jcs-2022".
Definition FORMAT_DI_ECDSA_JCS : pystr := $"data-integrity:ecdsa-jcs-2019".
Definition FORMAT_DI_ECDSA_RDFC : pystr := $"data-integrity:ecdsa-rdfc-2019".
Definition FORMAT_ENVELOPED : pystr := $"enveloped-verifiable-credential".

Definition CRYPTOSUITE_FORMAT : list (pystr * pystr) :=
  [($"eddsa-rdfc-2022", FORMAT_DI_EDDSA); ($"ecdsa-sd-2023", FORMAT_DI_ECDSA_SD);
   ($"eddsa-jcs-2022", FORMAT_DI_EDDSA_JCS); ($"ecdsa-jcs-2019", FORMAT_DI_ECDSA_JCS);
   ($"ecdsa-rdfc-2019", FORMAT_DI_ECDSA_RDFC)].

Definition detect_format (credential : json) : result pystr :=
  match credential with
  | JStr s =>
      if bool_decide (126 ∈ s) then Ok FORMAT_SD_JWT_VC
      else if bool_decide (length (filter (fun c => c = 46) s) = 2%nat) then Ok FORMAT_VC_JWT
      else Err UnknownCredentialFormat
  | JDict d =>
      let types := match dget d ($"type") with Some (JStr t) => JList [JStr t] | Some v => v | None => JList [] end in
      match types with
      | JList types =>
          if existsb (fun v => eq_str v ($"EnvelopedVerifiableCredential")) types then Ok FORMAT_ENVELOPED
          else
            match jget d ($"proof") with
            | JDict proof =>
                match jget proof ($"cryptosuite") with
                | JStr c => match dget CRYPTOSUITE_FORMAT c with Some fmt => Ok fmt | None => Err UnknownCredentialFormat end
                | _ => Err UnknownCredentialFormat
                end
            | _ => Err UnknownCredentialFormat
            end
      | _ => Err UnknownCredentialFormat
      end
  | _ => Err UnknownCredentialFormat
  end.

Section unwrap.
Context (json_loads : pystr -> result json).

Definition unwrap_enveloped (doc : jobject) : result json :=
  match jget doc ($"id") with
  | JStr eid =>
      raise_if (negb (startswith eid ($"data:"))) UnknownCredentialFormat;;
      let '(meta, payload) := partition 44 (drop 5 eid) in
      raise_if (bool_decide (payload = [])) UnknownCredentialFormat;;
      let params := split_on 59 meta in
      let media := hd [] params in
      catch_as (fun e => isinstance e ValueError || isinstance e RecursionError) UnknownCredentialFormat
        (payload ← (if bool_decide ($"base64" ∈ tl params)
                    then b ← b64decode payload; utf8_decode b else Ok payload);
         if bool_decide (media ∈ [$"application/vc+jwt"; $"application/jwt"]) then Ok (JStr payload)
         else if contains media ($"sd-jwt") then Ok (JStr payload)
         else if bool_decide (media ∈ [$"application/vc+ld+json"; $"application/vc"; $"application/ld+json"])
              then json_loads payload
         else Err UnknownCredentialFormat)
  | _ => Err UnknownCredentialFormat
  end.

Definition bytes_to_credential (raw : bytes) : result json :=
  text ← catch_as (fun e => isinstance e UnicodeDecodeError) UnknownCredentialFormat (utf8_decode raw);
  match json_loads text with
  | Ok (JDict d) => Ok (JDict d)
  | Ok _ => Ok (JStr text)
  | Err e => if isinstance e ValueError || isinstance e RecursionError then Ok (JStr text) else Err e
  end.
End unwrap.

(** * Policy and result *)

(** [expected_types]: [[]] for [None] and the empty sequence; a bare string is a one-element
    list. *)
Record VerificationPolicy := {
  leeway_s : json; expected_types : list pystr; expected_vct : option pystr; audience : json; nonce : json;
  require_key_binding : bool; proof_purpose : pystr; require_status : bool; require_schema : bool;
  require_status_issuer_binding : bool; status_issuer_allowlist : list pystr;
  require_not_expired : bool; require_not_revoked : bool; kb_max_age_s : json }.

Definition default_policy : VerificationPolicy :=
  {| leeway_s := JInt DEFAULT_LEEWAY_S; expected_types := []; expected_vct := None; audience := JNull; nonce := JNull;
     require_key_binding := false; proof_purpose := $"assertionMethod"; require_status := true; require_schema := false;
     require_status_issuer_binding := false; status_issuer_allowlist := [];
     require_not_expired := true; require_not_revoked := true; kb_max_age_s := JInt DEFAULT_KB_MAX_AGE_S |}.

(** [__post_init__]. *)
Definition make_policy (p : VerificationPolicy) : result VerificationPolicy :=
  leeway_seconds (leeway_s p) InvalidPolicy;; non_negative_seconds (kb_max_age_s p) InvalidPolicy;; Ok p.

(** The suite's own result, [raw]. *)
Inductive raw_result := RawVc (v : VerifiedCredential) | RawSd (v : VerifiedSdJwt) | RawDi (v : VerifiedDataIntegrity).

Record VerificationResult := {
  format : pystr; r_credential : jobject; issuer : json; subject : json; claims : option jobject;
  key_bound : option bool; status : option (StatusResult + TokenStatusResult);
  schema : option SchemaValidationResult; r_raw : raw_result; expired : bool }.

(** The instants of one verification: the wall clock, and the policy's [now] (the wall clock
    when it is not pinned), each as a POSIX time and in microseconds. *)
Record clocks := { wall : num; wall_instant : Z; now : num; now_instant : Z }.

(** [VerificationPolicy(...)] of the inner pass; [now] stays with the clocks. *)
Definition schema_inner_policy (policy : VerificationPolicy) : result VerificationPolicy :=
  make_policy
    {| leeway_s := leeway_s policy; expected_types := []; expected_vct := None; audience := JNull; nonce := JNull;
       require_key_binding := false; proof_purpose := $"assertionMethod"; require_status := require_status policy;
       require_schema := false; require_status_issuer_binding := require_status_issuer_binding policy;
       status_issuer_allowlist := status_issuer_allowlist policy;
       require_not_expired := true; require_not_revoked := true; kb_max_age_s := kb_max_age_s policy |}.

(** * What is outside *)

Record runtime := {
  rt_json : bytes -> result json; rt_json_text : pystr -> result json;
  (** the primitives of [keys.verify_signature] *)
  rt_ed25519 : bytes -> bytes -> bytes -> option bool; rt_ecdsa : pystr -> Z -> Z -> Z * Z -> bytes -> option bool;
  rt_mldsa : pystr -> bytes -> bytes -> bytes -> result bool;
  rt_point : pystr -> bytes -> option (Z * Z); rt_float_repr : spec_float -> pystr;
  rt_lower : pystr -> pystr; rt_on_curve : Z -> Z -> bool; rt_from_jwk : jobject -> bool;
  rt_pyjwt : pystr -> json -> pystr -> json -> json -> bool -> jwt_outcome;
  rt_space : Z -> bool; rt_decimal : Z -> bool; rt_fromisoformat : pystr -> option (Z * option Z);
  rt_hash : bytes -> bytes -> bytes;
  rt_processor : jobject -> jobject -> schema_outcome;
  rt_gzip : bytes -> Z -> result bytes; rt_zlib : zlib_object;
  rt_urlparse : pystr -> result ParseResult; rt_urlunparse : pystr -> pystr -> pystr;
  (** [json.loads] of the standard library; pyld; the parsed files of the context bundle, and the
      caller's [extra_contexts] *)
  rt_json_std : pystr -> result json; rt_ld : json_ld;
  rt_bundled : list (pystr * json); rt_extra_contexts : list (pystr * (json * bool)) }.

(** The caller's: an optional argument is [None] when it is not given.  [x5c_key] is
    [resolve_x5c_key] with the caller's anchors. *)
Record resolvers := {
  did_resolver : DidResolver;
  status_list : option (pystr -> result json); status_list_token : option (pystr -> result json);
  issuer_fetch : option (pystr -> result json);
  x5c_key : option (json -> pystr -> result jobject) }.

Definition schema_fetch := pystr -> result (option bytes).

(** * The shared checks *)

Section pipeline.
Context (rt : runtime).

Abbreviation keys_verify := (Keys.verify_signature (rt_ed25519 rt) (rt_ecdsa rt) (rt_mldsa rt)).

(** [document_loader(extra_contexts)], and pyld called with it. *)
Definition rt_loader : OfflineLoader := document_loader (rt_bundled rt) (rt_extra_contexts rt).
Definition rt_expand : json -> result json := ld_expand (rt_ld rt) (load rt_loader).
Definition rt_compact : json -> json -> result json := ld_compact (rt_ld rt) (load rt_loader).
Definition rt_to_rdf : json -> result pystr := ld_to_rdf (rt_ld rt) (load rt_loader).
Definition rt_normalize : json -> result pystr := ld_normalize (rt_ld rt) (load rt_loader).
Definition rt_validate : jobject -> jobject -> result unit :=
  validate_document (rt_space rt) (rt_json_std rt) rt_loader rt_expand rt_compact.

(** [SdJwtVcProofSuite.peek_issuer]. *)
Definition sd_peek_issuer (sd_jwt : pystr) : result (pystr * option pystr) :=
  '(header, payload, _, _) ← decode_jws (rt_json rt) (partition 126 sd_jwt).1;
  match issuer_from_body payload header with
  | JStr ((_ :: _) as iss) =>
      match jget header ($"kid") with
      | JNull => Ok (iss, None)
      | JStr kid => Ok (iss, Some kid)
      | _ => Err MalformedToken
      end
  | _ => Err MalformedToken
  end.

Definition resolve_jose_key (rs : resolvers) (iss : pystr) (kid : json) : result jobject :=
  if startswith iss ($"https://") then
    match issuer_fetch rs with
    | None => Err KeyResolutionFailed
    | Some fetch =>
        catch_as (fun e => isinstance e JwtVcIssuerError || isinstance e DidError) KeyResolutionFailed
          (resolve_jwt_vc_issuer_key (rt_urlparse rt) (rt_urlunparse rt) (rt_lower rt) fetch iss kid)
    end
  else
    doc ← catch_as (fun e => isinstance e DidError) KeyResolutionFailed (Did.resolve (did_resolver rs) iss);
    match key_by_kid doc kid with
    | Some vm => Ok (public_key_jwk vm)
    | None => Err KeyResolutionFailed
    end.

Definition resolve_jose_key_with_x5c (rs : resolvers) (token iss : pystr) (kid : option pystr) (sd_jwt : bool)
    : result jobject :=
  match x5c_key rs with
  | Some resolve_x5c_key =>
      let jws := if sd_jwt then (partition 126 token).1 else token in
      '(header, _, _, _) ← parse_compact (rt_json rt) jws;
      if truthy (jget header ($"x5c"))
      then catch_as (fun e => isinstance e X5cError) KeyResolutionFailed (resolve_x5c_key (jget header ($"x5c")) iss)
      else resolve_jose_key rs iss (kid_value kid)
  | None => resolve_jose_key rs iss (kid_value kid)
  end.

Definition bind_issuer_to_verification_method (verified : VerifiedDataIntegrity) : result unit :=
  match di_issuer verified with
  | JStr ((_ :: _) as iss) =>
      match jget (di_proof verified) ($"verificationMethod") with
      | JStr vm => raise_if (negb (bool_decide (before_fragment vm = iss))) IssuerBindingError
      | _ => Err IssuerBindingError
      end
  | _ => Err IssuerBindingError
  end.

Definition check_types (credential : jobject) (expected : list pystr) : result unit :=
  let types := match dget credential ($"type") with
               | Some (JStr t) => [JStr t] | Some (JList l) => l | _ => []
               end in
  raise_if (existsb (fun t => negb (existsb (fun v => eq_str v t) types)) expected) TypeMismatch.

Definition RDF_DI_FORMATS : list pystr := [FORMAT_DI_EDDSA; FORMAT_DI_ECDSA_RDFC; FORMAT_DI_ECDSA_SD].

Definition check_di_types (credential : jobject) (expected : list pystr) (fmt : pystr) : result unit :=
  if negb (bool_decide (fmt ∈ RDF_DI_FORMATS)) then check_types credential expected
  else match expected with
       | [] => Ok tt
       | _ => missing ← missing_types (rt_json_std rt) rt_loader rt_expand credential expected;
              raise_if (negb (bool_decide (missing = []))) TypeMismatch
       end.

Definition check_sd_jwt_types (verified : VerifiedSdJwt) (expected : list pystr) : result unit :=
  if sd_vcdm verified then check_types (sd_claims verified) expected
  else raise_if (negb (bool_decide (expected = []))) TypeMismatch.

(** ** Status *)

Definition enforce_status_issuer (policy : VerificationPolicy) (credential_issuer : pystr) (field : pystr) (status_obj : json)
    : result unit :=
  let si := match status_obj with JDict d => jget d field | _ => JNull end in
  let si := match si with JDict d => jget d ($"id") | _ => si end in
  match si with
  | JStr ((_ :: _) as si) =>
      raise_if (negb (bool_decide (si = credential_issuer) || bool_decide (si ∈ status_issuer_allowlist policy)))
        StatusListIssuerUntrusted
  | _ => Err StatusListIssuerUntrusted
  end.

Definition bind_status_issuer (policy : VerificationPolicy) (credential_issuer field : pystr)
    (inner : option (pystr -> result json)) : option (pystr -> result json) :=
  match inner with
  | None => None
  | Some inner => Some (fun uri => obj ← inner uri; enforce_status_issuer policy credential_issuer field obj;; Ok obj)
  end.

Definition fail_closed (policy : VerificationPolicy) : result unit :=
  raise_if (require_status policy) StatusUnavailable.

Definition w3c_status (policy : VerificationPolicy) (source : jobject) (resolve : option (pystr -> result json))
    : result (option StatusResult) :=
  entries ← parse_status_entries source;
  match entries with
  | _ :: _ =>
      match resolve with
      | None => fail_closed policy;; Ok None
      | Some f =>
          w3c ← check_credential_status (rt_gzip rt) source f;
          raise_if (revoked w3c && require_not_revoked policy) CredentialRevoked;;
          raise_if (suspended w3c) CredentialSuspended;;
          Ok (Some w3c)
      end
  | [] => raise_if (truthy (jget source ($"credentialStatus")) && require_status policy) StatusUnavailable;; Ok None
  end.

Definition ietf_status (policy : VerificationPolicy) (source : jobject) (resolve : option (pystr -> result json))
    : result (option TokenStatusResult) :=
  ref ← parse_token_status_ref source;
  match ref with
  | Some _ =>
      match resolve with
      | None => fail_closed policy;; Ok None
      | Some f =>
          ietf ← check_token_status (rt_zlib rt) source f;
          match ietf with
          | None => Ok None
          | Some ts =>
              raise_if (token_revoked ts && require_not_revoked policy) CredentialRevoked;;
              raise_if (token_suspended ts) CredentialSuspended;;
              Ok (Some ts)
          end
      end
  | None => raise_if (negb (is_none (jget source ($"status"))) && require_status policy) StatusUnavailable;; Ok None
  end.

(** Every call of the pipeline passes an IETF source. *)
Definition check_status (w3c_source ietf_source : jobject) (policy : VerificationPolicy) (rs : resolvers)
    (credential_issuer : pystr) : result (option (StatusResult + TokenStatusResult)) :=
  raise_if (require_status_issuer_binding policy && bool_decide (credential_issuer = [])) StatusListIssuerUntrusted;;
  let bound field f := if require_status_issuer_binding policy then bind_status_issuer policy credential_issuer field f else f in
  w3c ← w3c_status policy w3c_source (bound ($"issuer") (status_list rs));
  ietf ← ietf_status policy ietf_source (bound ($"iss") (status_list_token rs));
  Ok (match w3c, ietf with
      | Some s, _ => Some (inl s)
      | None, Some s => Some (inr s)
      | None, None => None
      end).

Definition check_schema (credential : jobject) (policy : VerificationPolicy) (fetch : option schema_fetch)
    (verify_inner : option (bytes -> result json)) : result (option SchemaValidationResult) :=
  if negb (truthy (jget credential ($"credentialSchema"))) then Ok None
  else
    match fetch with
    | None => raise_if (require_schema policy) SchemaUnavailable;; Ok None
    | Some f =>
        r ← validate_credential_schema (rt_space rt) (rt_hash rt) (rt_json rt) (rt_processor rt) f verify_inner credential;
        Ok (Some r)
    end.

(** * The lanes *)

(** What every lane is given. *)
Record request := {
  policy : VerificationPolicy; rs : resolvers; fetch_schema : option schema_fetch;
  inner : option (bytes -> result json); clk : clocks }.

Definition verify_vc_jwt (rq : request) (token : pystr) : result VerificationResult :=
  let p := policy rq in
  su ← make_suite (leeway_s p) false false;
  '(iss, kid) ← peek_issuer (rt_json rt) token;
  jwk ← resolve_jose_key_with_x5c (rs rq) token iss kid false;
  v ← vc_verify (rt_json rt) keys_verify (rt_lower rt) (rt_on_curve rt) (rt_from_jwk rt) (rt_pyjwt rt) (rt_space rt)
        (rt_decimal rt) (rt_fromisoformat rt) su token (JDict jwk) [] (audience p) (require_not_expired p)
        (wall (clk rq)) (wall_instant (clk rq));
  check_types (credential v) (expected_types p);;
  status ← check_status (credential v) (vc_claims v) p (rs rq) (vc_issuer v);
  schema ← check_schema (credential v) p (fetch_schema rq) (inner rq);
  Ok {| format := FORMAT_VC_JWT; r_credential := credential v; issuer := JStr (vc_issuer v);
        subject := match vc_subject v with Some s => JStr s | None => JNull end; claims := Some (vc_claims v);
        key_bound := None; status := status; schema := schema; r_raw := RawVc v;
        expired := vc_expired v |}.

(** The SD-JWT suite checks its leeway itself, with its own error. *)
Definition make_sd_suite (leeway : json) : result suite :=
  l ← leeway_seconds leeway SdJwtError; Ok {| VcJwt.leeway := JInt l; algs := ALLOWED_ALGS |}.

(** The audience and nonce a KB-JWT is held to. *)
Definition kb_target (p : VerificationPolicy) (kb_binding : option (json * json)) : result (json * json) :=
  match kb_binding with
  | None => Ok (audience p, nonce p)
  | Some (JStr ((_ :: _) as a), JStr ((_ :: _) as n)) => Ok (JStr a, JStr n)
  | Some _ => Err ClaimsInvalid
  end.

Definition verify_sd_jwt (rq : request) (kb_binding : option (json * json)) (sd_jwt : pystr) : result VerificationResult :=
  let p := policy rq in
  su ← make_sd_suite (leeway_s p);
  '(iss, kid) ← sd_peek_issuer sd_jwt;
  jwk ← resolve_jose_key_with_x5c (rs rq) sd_jwt iss kid true;
  '(aud, nonce) ← kb_target p kb_binding;
  v ← sd_verify (rt_hash rt) (rt_json rt) keys_verify (rt_space rt) (rt_decimal rt) (rt_fromisoformat rt) su sd_jwt
        (JDict jwk) aud nonce (require_key_binding p) (expected_vct p) (require_not_expired p) (kb_max_age_s p)
        (now (clk rq)) (wall (clk rq)) (wall_instant (clk rq));
  check_sd_jwt_types v (expected_types p);;
  status ← check_status (sd_claims v) (sd_claims v) p (rs rq) (sd_issuer v);
  schema ← check_schema (sd_claims v) p (fetch_schema rq) (inner rq);
  Ok {| format := FORMAT_SD_JWT_VC; r_credential := sd_claims v; issuer := JStr (sd_issuer v);
        subject := match jget (sd_claims v) ($"sub") with JStr s => JStr s | _ => JNull end;
        claims := Some (sd_claims v); key_bound := Some (sd_key_bound v); status := status; schema := schema;
        r_raw := RawSd v; expired := sd_expired v |}.

(** The result of the selective-disclosure suite, as the pipeline reads it. *)
Definition di_of_sd (v : EcdsaSd.VerifiedSdCredential) : VerifiedDataIntegrity :=
  {| di_credential := EcdsaSd.sd_credential v; di_issuer := EcdsaSd.sd_issuer v; di_subject := EcdsaSd.sd_subject v;
     di_proof := EcdsaSd.sd_proof v; di_expired := EcdsaSd.sd_expired v |}.

(** [suite.verify(doc, resolver=..., expected_proof_purpose=...)] of the format's suite. *)
Definition di_verify (fmt : pystr) (doc : jobject) (resolver : option DidResolver) (purpose : pystr) (instant : Z)
    (leeway : json) (check_temporal : bool) : result VerifiedDataIntegrity :=
  let expected := {| expected_proof_purpose := Some purpose; expected_challenge := None; expected_domain := None |} in
  l ← leeway_seconds leeway ProofError;
  let jcs verify := verify (rt_hash rt) (rt_ed25519 rt) (rt_ecdsa rt) (rt_mldsa rt) (rt_point rt) (rt_space rt) (rt_decimal rt)
                      (rt_fromisoformat rt) (rt_float_repr rt) doc None resolver expected instant (JInt l) check_temporal in
  if bool_decide (fmt = FORMAT_DI_ECDSA_SD) then
    v ← EcdsaSd.sd_verify (rt_hash rt) (rt_ed25519 rt) (rt_ecdsa rt) (rt_mldsa rt) (rt_point rt) (rt_space rt) (rt_decimal rt)
          (rt_fromisoformat rt) rt_to_rdf rt_normalize (ld_canonize (rt_ld rt)) rt_validate doc None resolver (Some purpose)
          instant (JInt l) check_temporal;
    Ok (di_of_sd v)
  else if bool_decide (fmt = FORMAT_DI_EDDSA_JCS) then jcs eddsa_jcs_verify
  else if bool_decide (fmt = FORMAT_DI_ECDSA_JCS) then jcs ecdsa_jcs_verify
  else if bool_decide (fmt = FORMAT_DI_ECDSA_RDFC) then
    ecdsa_rdfc_verify (rt_hash rt) (rt_ed25519 rt) (rt_ecdsa rt) (rt_mldsa rt) (rt_point rt) (rt_space rt) (rt_decimal rt)
      (rt_fromisoformat rt) rt_normalize rt_validate doc None resolver expected instant (JInt l) check_temporal
  else
    eddsa_rdfc_verify (rt_hash rt) (rt_ed25519 rt) (rt_point rt) (rt_space rt) (rt_decimal rt) (rt_fromisoformat rt)
      rt_normalize rt_validate doc None resolver expected instant (JInt l) check_temporal.

Definition verify_data_integrity (rq : request) (fmt : pystr) (doc : jobject) : result VerificationResult :=
  let p := policy rq in
  v ← di_verify fmt doc (Some (did_resolver (rs rq))) (proof_purpose p) (now_instant (clk rq)) (leeway_s p) (require_not_expired p);
  bind_issuer_to_verification_method v;;
  check_di_types (di_credential v) (expected_types p) fmt;;
  status ← check_status (di_credential v) (di_credential v) p (rs rq)
             match di_issuer v with JStr s => s | _ => [] end;
  schema ← check_schema (di_credential v) p (fetch_schema rq) (inner rq);
  Ok {| format := fmt; r_credential := di_credential v; issuer := di_issuer v; subject := di_subject v; claims := None;
        key_bound := None; status := status; schema := schema; r_raw := RawDi v;
        expired := di_expired v |}.

(** One credential that is not an envelope. *)
Definition verify_leaf (rq : request) (kb_binding : option (json * json)) (fmt : pystr) (credential : json)
    : result VerificationResult :=
  match credential with
  | JStr s => if bool_decide (fmt = FORMAT_VC_JWT) then verify_vc_jwt rq s else verify_sd_jwt rq kb_binding s
  | JDict doc => verify_data_integrity rq fmt doc
  | _ => Err UnknownCredentialFormat
  end.

(** * The pipeline *)

(** The checks before dispatch: the depth bound and the format. *)
Definition classify (credential : json) : result pystr :=
  raise_if (negb (is_str credential) && nesting_exceeds credential JSON_MAX_DEPTH) UnknownCredentialFormat;;
  detect_format credential.

(** A [RecursionError] of the dispatch becomes [UnknownCredentialFormat]. *)
Definition no_recursion_error {A} (m : result A) : result A :=
  catch_as (fun e => isinstance e RecursionError) UnknownCredentialFormat m.

(** [levels] is [2 - _depth], the envelopes that may still be opened; [request] builds what a
    lane is given at a level. *)
Fixpoint verify_at (mk : nat -> request) (levels : nat) (kb_binding : option (json * json)) (credential : json)
    : result VerificationResult :=
  fmt ← classify credential;
  no_recursion_error
    (if bool_decide (fmt = FORMAT_ENVELOPED) then
       match levels, credential with
       | S levels, JDict doc => content ← unwrap_enveloped (rt_json_text rt) doc; verify_at mk levels kb_binding content
       | _, _ => Err UnknownCredentialFormat
       end
     else verify_leaf (mk levels) kb_binding fmt credential).

(** The pass that verifies a schema credential fetched at [levels]: one level deeper, no
    schema fetch. *)
Definition verify_inner (p : VerificationPolicy) (rs : resolvers) (clk : clocks) (levels : nat) (raw : bytes) : result json :=
  credential ← bytes_to_credential (rt_json_text rt) raw;
  inner_policy ← schema_inner_policy p;
  r ← verify_at (fun _ => {| policy := inner_policy; rs := rs; fetch_schema := None; inner := None; clk := clk |})
        (pred levels) None credential;
  Ok (JDict (r_credential r)).

Definition MAX_ENVELOPES : nat := 2.

(** What the lanes of [verify_credential] are given at a level. *)
Definition request_at (p : VerificationPolicy) (rs : resolvers) (fetch : option schema_fetch) (clk : clocks) (levels : nat)
    : request :=
  {| policy := p; rs := rs; fetch_schema := fetch; inner := Some (verify_inner p rs clk levels); clk := clk |}.

Definition verify_credential (p : VerificationPolicy) (rs : resolvers) (fetch : option schema_fetch) (clk : clocks)
    (kb_binding : option (json * json)) (credential : json) : result VerificationResult :=
  verify_at (request_at p rs fetch clk) MAX_ENVELOPES kb_binding credential.

(** ** Batches *)

Record BatchResult := { index : nat; outcome : VerificationResult + exn }.

(** The loop of [verify_many]; the clock of each item is its own, and the caches the batch
    shares return what the resolvers return. *)
Definition verify_many (p : VerificationPolicy) (rs : resolvers) (fetch : option schema_fetch) (clk : nat -> clocks)
    (credentials : list json) : result (list BatchResult) :=
  mapR (fun ic : nat * json =>
          match verify_credential p rs fetch (clk ic.1) None ic.2 with
          | Ok r => Ok {| index := ic.1; outcome := inl r |}
          | Err e => if isinstance e OpenvcError then Ok {| index := ic.1; outcome := inr e |} else Err e
          end) (imap (fun i c => (i, c)) credentials).
End pipeline.
