(* ===== verification/VerifySound.v ===== *)
(** What the pipeline of [Verify] establishes about a credential it accepts. *)
From Stdlib Require Import SpecFloat.
From S2P Require Import Prelude Errors PyStr Utf8 Json Base64 PyNum StatusIndex StatusCodec StatusCheck VerifyCommon Did Keys Contexts ContextValidation DataIntegrity EcdsaSd VcJwt SdJwt Schema JwtVcIssuer Verify.

(** [opens n c leaf]: [leaf] is inside [n] envelopes of [c]. *)
Inductive opens (json_loads : pystr -> result json) : nat -> json -> json -> Prop :=
| opens_leaf c : opens json_loads 0 c c
| opens_envelope n doc c leaf :
    detect_format (JDict doc) = Ok FORMAT_ENVELOPED -> unwrap_enveloped json_loads doc = Ok c ->
    opens json_loads n c leaf -> opens json_loads (S n) (JDict doc) leaf.

Lemma no_recursion_error_Ok {A} (m : result A) a : no_recursion_error m = Ok a -> m = Ok a.
Proof. apply catch_as_Ok. Qed.

Lemma classify_Ok c fmt :
  classify c = Ok fmt ->
  detect_format c = Ok fmt /\ (is_str c = false -> nesting_exceeds c JSON_MAX_DEPTH = false).
Proof.
  unfold classify. intros H. apply bind_Ok in H as (u & Hr%raise_if_Ok & H). split; [done|].
  intros E. by rewrite E in Hr.
Qed.

(** Every acceptance comes down to one leaf, at most [levels] envelopes deep. *)
Lemma verify_at_Ok rt mk levels kb c r :
  verify_at rt mk levels kb c = Ok r ->
  exists n leaf fmt, (n <= levels)%nat /\ opens (rt_json_text rt) n c leaf /\ classify leaf = Ok fmt /\
    fmt <> FORMAT_ENVELOPED /\ verify_leaf rt (mk (levels - n)%nat) kb fmt leaf = Ok r.
Proof.
  revert c. induction levels as [|levels IH]; intros c H; cbn [verify_at] in H;
    apply bind_Ok in H as (fmt & Hc & H); apply no_recursion_error_Ok in H; case_bool_decide as Hf; try done.
  - exists 0%nat, c, fmt. split_and!; [lia|constructor|done..].
  - subst fmt. destruct c as [| | | | | |doc|]; try done. apply bind_Ok in H as (c & Hu & H).
    apply IH in H as (n & leaf & fmt & Hn & Ho & Hl & Hne & Hv). exists (S n), leaf, fmt.
    split_and!; [lia| |done..]. econstructor; [by apply classify_Ok in Hc as [? _]|done..].
  - exists 0%nat, c, fmt. split_and!; [lia|constructor|done..].
Qed.

(** ** The status gates *)

Lemma bind_status_issuer_Ok p iss field f g :
  bind_status_issuer p iss field f = Some g ->
  exists f', f = Some f' /\ forall uri obj, g uri = Ok obj ->
    f' uri = Ok obj /\ enforce_status_issuer p iss field obj = Ok tt.
Proof.
  unfold bind_status_issuer. destruct f as [f'|]; [|done]. intros [= <-]. exists f'. split; [done|].
  intros uri obj H. apply bind_Ok in H as (o & Ho & H). by apply bind_Ok in H as ([] & He & [= ->]).
Qed.

Lemma entry_reads_mono gzip (f g : pystr -> result json) raw p b :
  (forall uri obj, g uri = Ok obj -> f uri = Ok obj) ->
  entry_reads gzip g raw p b -> entry_reads gzip f raw p b.
Proof.
  intros Hg (url & n & vc & s & enc & bits & H1 & H2 & H3 & H4 & H5 & H6). exists url, n, vc, s, enc, bits.
  do 4 (split; [done|]). split; [by apply Hg|done].
Qed.

Lemma parse_status_entries_Ok credential es :
  parse_status_entries credential = Ok es ->
  exists raws, StatusCheck.as_entry_list (jget credential ($"credentialStatus")) = Ok raws /\
    (es <> [] <-> exists raw, raw ∈ raws /\ matched_types (jget raw ($"type")) <> []).
Proof.
  unfold parse_status_entries. intros H. apply bind_Ok in H as (raws & Hraws & H).
  apply bind_Ok in H as (parsed & Hp%mapR_Ok & H). apply Ok_inj in H as <-. exists raws. split; [exact Hraws|]. clear Hraws.
  induction Hp as [|raw o raws parsed Ho Hp IH]; [cbn; split; [by intros []|intros (? & Hin & _); by apply not_elem_of_nil in Hin]|].
  apply parse_status_entry_Ok in Ho. destruct o as [e|]; cbn [omap list_omap id].
  - split; [|done]. intros _. exists raw. split; [set_solver|tauto].
  - rewrite IH. split; intros (raw' & Hin & Hm); exists raw'; [set_solver|].
    apply elem_of_cons in Hin as [->|]; [done|]. done.
Qed.

(** The object a status resolver returned names, in [field], the credential's own issuer or
    one on the policy's allow-list. *)
Definition issued_by_trusted (p : VerificationPolicy) (iss field : pystr) (obj : json) : Prop :=
  exists d si, obj = JDict d /\ (jget d field = JStr si \/ exists i, jget d field = JDict i /\ jget i ($"id") = JStr si) /\
    si <> [] /\ (si = iss \/ si ∈ status_issuer_allowlist p).

Lemma enforce_status_issuer_Ok p iss field obj u :
  enforce_status_issuer p iss field obj = Ok u -> issued_by_trusted p iss field obj.
Proof.
  unfold enforce_status_issuer. destruct obj as [| | | | | |d|]; try done. intros H.
  assert (exists si, (jget d field = JStr si \/ exists i, jget d field = JDict i /\ jget i ($"id") = JStr si) /\
    si <> [] /\ (si = iss \/ si ∈ status_issuer_allowlist p)) as (si & ? & ? & ?); [|by exists d, si].
  destruct (jget d field) as [| | | |[|c si]| |i|] eqn:E; try done.
  2: destruct (jget i _) as [| | | |[|c si]| | |] eqn:Ei; try done.
  all: apply raise_if_Ok, negb_false_iff, orb_true_iff in H; rewrite !bool_decide_eq_true in H;
    exists (c :: si); split; [|done]; eauto.
Qed.

(** [g] answers as the caller's [f] does, and only with lists the policy trusts. *)
Definition trusted_resolver (p : VerificationPolicy) (iss field : pystr) (f g : pystr -> result json) : Prop :=
  forall uri obj, g uri = Ok obj ->
    f uri = Ok obj /\ (require_status_issuer_binding p = true -> issued_by_trusted p iss field obj).

Section status.
Context (rt : runtime) (p : VerificationPolicy).
Context (Hreq : require_status p = true) (Hrev : require_not_revoked p = true).

(** What a declared W3C status guarantees: every recognised entry was read in a list the
    resolver returned, and no revocation or suspension bit is set. *)
Definition w3c_status_good (source : jobject) (iss : pystr) (resolve : option (pystr -> result json)) : Prop :=
  truthy (jget source ($"credentialStatus")) = true ->
  exists raws f g, StatusCheck.as_entry_list (jget source ($"credentialStatus")) = Ok raws /\
    resolve = Some f /\ trusted_resolver p iss ($"issuer") f g /\
    (exists raw, raw ∈ raws /\ matched_types (jget raw ($"type")) <> []) /\
    forall raw, raw ∈ raws -> matched_types (jget raw ($"type")) <> [] ->
      exists q b, entry_reads (rt_gzip rt) g raw q b /\ (q = PURPOSE_REVOCATION \/ q = PURPOSE_SUSPENSION -> b = 0).

Definition bound_resolver (iss field : pystr) (f : option (pystr -> result json)) :=
  if require_status_issuer_binding p then bind_status_issuer p iss field f else f.

Lemma bound_resolver_Ok iss field f g :
  bound_resolver iss field f = Some g -> exists f', f = Some f' /\ trusted_resolver p iss field f' g.
Proof using.
  unfold bound_resolver, trusted_resolver. intros H. destruct (require_status_issuer_binding p) eqn:E.
  - apply bind_status_issuer_Ok in H as (f' & -> & H). exists f'. split; [done|]. intros uri obj Ho.
    apply H in Ho as [? ?%enforce_status_issuer_Ok]. done.
  - exists g. done.
Qed.

Lemma w3c_status_Ok source iss resolve o :
  w3c_status rt p source (bound_resolver iss ($"issuer") resolve) = Ok o -> w3c_status_good source iss resolve.
Proof using Hreq Hrev.
  unfold w3c_status, w3c_status_good, fail_closed. rewrite Hreq, Hrev. intros H Ht. apply bind_Ok in H as (es & Hes & H).
  apply parse_status_entries_Ok in Hes as (raws & Hraws & Hne). destruct es as [|e es].
  { rewrite Ht in H. done. }
  destruct (bound_resolver _ _ _) as [g|] eqn:Eg; [|done]. apply bound_resolver_Ok in Eg as (f & -> & Hg).
  apply bind_Ok in H as (res & Hc & H).
  apply bind_Ok in H as (u1 & H1%raise_if_Ok & H). apply bind_Ok in H as (u2 & H2%raise_if_Ok & _).
  rewrite andb_true_r in H1. apply check_credential_status_reads in Hc as (raws' & Hraws' & Hall & Hr & Hs).
  rewrite Hraws in Hraws'. apply Ok_inj in Hraws' as <-. exists raws, f, g. split_and!; [done..|by apply Hne|].
  intros raw Hin Hm. destruct (Hall raw Hin Hm) as (q & b & Hread). exists q, b. split; [done|].
  intros [->| ->]; destruct (decide (b = 0)) as [|Hb]; [done| |done|]; exfalso.
  - apply not_true_iff_false in H1. apply H1, Hr. by exists raw, b.
  - apply not_true_iff_false in H2. apply H2, Hs. by exists raw, b.
Qed.

(** What a declared IETF status guarantees. *)
Definition ietf_status_good (source : jobject) (iss : pystr) (resolve : option (pystr -> result json)) : Prop :=
  jget source ($"status") <> JNull ->
  exists ref f g obj ts, parse_token_status_ref source = Ok (Some ref) /\ resolve = Some f /\
    trusted_resolver p iss ($"iss") f g /\ g (uri ref) = Ok obj /\
    token_status_result (rt_zlib rt) ref obj = Ok ts /\
    StatusCheck.status ts <> STATUS_INVALID /\ StatusCheck.status ts <> STATUS_SUSPENDED.

Lemma ietf_status_Ok source iss resolve o :
  ietf_status rt p source (bound_resolver iss ($"iss") resolve) = Ok o -> ietf_status_good source iss resolve.
Proof using Hreq Hrev.
  unfold ietf_status, ietf_status_good, fail_closed. rewrite Hreq, Hrev. intros H Hn.
  apply bind_Ok in H as (ref & Href & H). destruct ref as [ref|].
  2: { destruct (jget source _); done. }
  destruct (bound_resolver _ _ _) as [g|] eqn:Eg; [|done]. apply bound_resolver_Ok in Eg as (f & -> & Hg).
  apply bind_Ok in H as (o' & Hc & H). unfold check_token_status in Hc.
  rewrite Href in Hc. cbn [mbind result_bind] in Hc. apply bind_Ok in Hc as (obj & Hobj & Hc).
  apply bind_Ok in Hc as (ts & Hts & Hc). apply Ok_inj in Hc as <-.
  apply bind_Ok in H as (u1 & H1%raise_if_Ok & H). apply bind_Ok in H as (u2 & H2%raise_if_Ok & _).
  rewrite andb_true_r in H1. exists ref, f, g, obj, ts. split_and!; try done.
  all: unfold token_status_result in Hts; apply bind_Ok in Hts as ([bits lst] & _ & Hts);
    apply bind_Ok in Hts as (data & _ & Hts); apply bind_Ok in Hts as (v & _ & Hts); apply Ok_inj in Hts as <-;
    cbn in *; by apply Z.eqb_neq.
Qed.
End status.

(** ** What every lane checks after the signature *)

Record admitted (rt : runtime) (rq : request) (credential ietf_source : jobject) (iss : pystr) (r : VerificationResult) : Prop := {
  ad_w3c : require_status (policy rq) = true -> require_not_revoked (policy rq) = true ->
    w3c_status_good rt (policy rq) credential iss (status_list (rs rq));
  ad_ietf : require_status (policy rq) = true -> require_not_revoked (policy rq) = true ->
    ietf_status_good rt (policy rq) ietf_source iss (status_list_token (rs rq));
  ad_schema : require_schema (policy rq) = true -> truthy (jget credential ($"credentialSchema")) = true ->
    exists fetch res, fetch_schema rq = Some fetch /\ schema r = Some res /\
      schemas_met (rt_space rt) (rt_hash rt) (rt_json rt) (rt_processor rt) fetch (inner rq) credential res }.

Lemma check_schema_Ok rt credential p fetch inner o :
  check_schema rt credential p fetch inner = Ok o -> require_schema p = true ->
  truthy (jget credential ($"credentialSchema")) = true ->
  exists f res, fetch = Some f /\ o = Some res /\
    schemas_met (rt_space rt) (rt_hash rt) (rt_json rt) (rt_processor rt) f inner credential res.
Proof.
  unfold check_schema. intros H Hreq Ht. rewrite Ht, Hreq in H. cbn [negb] in H. destruct fetch as [f|]; [|done].
  apply bind_Ok in H as (res & Hv & H). apply Ok_inj in H as <-. exists f, res. split; [done|]. split; [done|].
  by apply validate_credential_schema_Ok in Hv.
Qed.

Lemma admitted_intro rt rq credential ietf_source iss st o r :
  check_status rt credential ietf_source (policy rq) (rs rq) iss = Ok st ->
  check_schema rt credential (policy rq) (fetch_schema rq) (inner rq) = Ok o ->
  schema r = o -> admitted rt rq credential ietf_source iss r.
Proof.
  unfold check_status. cbv zeta. intros Hs Hsc <-. apply bind_Ok in Hs as (u & _ & Hs).
  apply bind_Ok in Hs as (w & Hw & Hs). apply bind_Ok in Hs as (i & Hi & _). split.
  - intros ??. by eapply w3c_status_Ok.
  - intros ??. by eapply ietf_status_Ok.
  - intros ??. by eapply check_schema_Ok.
Qed.

Definition declared_types (credential : jobject) : list json :=
  match dget credential ($"type") with Some (JStr t) => [JStr t] | Some (JList l) => l | _ => [] end.

Lemma check_types_Ok credential expected u :
  Verify.check_types credential expected = Ok u -> forall t, t ∈ expected -> JStr t ∈ declared_types credential.
Proof.
  unfold Verify.check_types. intros H%raise_if_Ok t Ht. fold (declared_types credential) in H.
  apply not_true_iff_false in H. destruct (existsb (fun v => eq_str v t) (declared_types credential)) eqn:E.
  - apply existsb_exists in E as (v & Hv%list_elem_of_In & ->%eq_str_true). done.
  - exfalso. apply H, existsb_exists. exists t. split; [by apply list_elem_of_In|]. by rewrite E.
Qed.

(** * The lanes *)

Section lanes.
Context (rt : runtime) (rq : request) (kb_binding : option (json * json)).

Abbreviation keys_verify := (Keys.verify_signature (rt_ed25519 rt) (rt_ecdsa rt) (rt_mldsa rt)).

(** A VC-JWT: the suite's guarantee, under a key resolved for the issuer the token names. *)
Definition vc_lane (token : pystr) (r : VerificationResult) : Prop :=
  exists su iss kid jwk v,
    make_suite (leeway_s (policy rq)) false false = Ok su /\ peek_issuer (rt_json rt) token = Ok (iss, kid) /\
    resolve_jose_key_with_x5c rt (rs rq) token iss kid false = Ok jwk /\
    vc_guarantee (rt_json rt) keys_verify (rt_lower rt) (rt_pyjwt rt) (rt_space rt) (rt_decimal rt) (rt_fromisoformat rt) su
      token (JDict jwk) [] (audience (policy rq)) (require_not_expired (policy rq)) (wall (clk rq)) (wall_instant (clk rq)) v /\
    format r = FORMAT_VC_JWT /\ r_credential r = credential v /\ issuer r = JStr (vc_issuer v) /\
    claims r = Some (vc_claims v) /\ key_bound r = None /\ expired r = vc_expired v /\
    (forall t, t ∈ expected_types (policy rq) -> JStr t ∈ declared_types (credential v)) /\
    admitted rt rq (credential v) (vc_claims v) (vc_issuer v) r /\ r_raw r = RawVc v.

(** An SD-JWT VC: likewise; the audience and nonce are the policy's or, inside a presentation,
    the presentation's. *)
Definition sd_lane (sd_jwt : pystr) (r : VerificationResult) : Prop :=
  exists su iss kid jwk aud n v issuer_jwt disclosures kb_jwt header body hash_name,
    make_sd_suite (leeway_s (policy rq)) = Ok su /\ sd_peek_issuer rt sd_jwt = Ok (iss, kid) /\
    resolve_jose_key_with_x5c rt (rs rq) sd_jwt iss kid true = Ok jwk /\
    kb_target (policy rq) kb_binding = Ok (aud, n) /\
    SdJwt.sd_guarantee (rt_hash rt) (rt_json rt) keys_verify (rt_space rt) (rt_decimal rt) (rt_fromisoformat rt) su sd_jwt
      (JDict jwk) aud n (require_key_binding (policy rq)) (expected_vct (policy rq)) (require_not_expired (policy rq))
      (kb_max_age_s (policy rq)) (now (clk rq)) (wall (clk rq)) (wall_instant (clk rq)) v issuer_jwt disclosures kb_jwt
      header body hash_name /\
    format r = FORMAT_SD_JWT_VC /\ r_credential r = sd_claims v /\ issuer r = JStr (sd_issuer v) /\
    claims r = Some (sd_claims v) /\ key_bound r = Some (sd_key_bound v) /\ expired r = sd_expired v /\
    (forall t, t ∈ expected_types (policy rq) -> sd_vcdm v = true /\ JStr t ∈ declared_types (sd_claims v)) /\
    admitted rt rq (sd_claims v) (sd_claims v) (sd_issuer v) r /\ r_raw r = RawSd v.

Definition di_expected_of : expectations :=
  {| expected_proof_purpose := Some (proof_purpose (policy rq)); expected_challenge := None; expected_domain := None |}.

(** What the suite of a Data Integrity format guarantees of the document: for each, the
    signature over its statements (RDF) or its bytes (JCS) under the key the proof's
    verification method resolves to, the purpose and the window; for the RDF suites also that
    the JSON says no more than the statements signed. *)
Definition suite_guarantee (fmt : pystr) (doc : jobject) (resolver : option DidResolver) (expected : expectations)
    (instant : Z) (leeway : json) (ct : bool) (v : VerifiedDataIntegrity) : Prop :=
  (fmt = FORMAT_DI_EDDSA /\
   eddsa_rdfc_guarantee (rt_hash rt) (rt_ed25519 rt) (rt_point rt) (rt_space rt) (rt_decimal rt) (rt_fromisoformat rt)
     (rt_normalize rt) (rt_validate rt) doc None resolver expected instant leeway ct v) \/
  (fmt = FORMAT_DI_ECDSA_RDFC /\
   ecdsa_rdfc_guarantee (rt_hash rt) (rt_ed25519 rt) (rt_ecdsa rt) (rt_mldsa rt) (rt_point rt) (rt_space rt) (rt_decimal rt)
     (rt_fromisoformat rt) (rt_normalize rt) (rt_validate rt) doc None resolver expected instant leeway ct v) \/
  (fmt = FORMAT_DI_ECDSA_SD /\ exists sv, v = di_of_sd sv /\
   EcdsaSd.sd_guarantee (rt_hash rt) (rt_ed25519 rt) (rt_ecdsa rt) (rt_mldsa rt) (rt_point rt) (rt_space rt) (rt_decimal rt)
     (rt_fromisoformat rt) (rt_to_rdf rt) (rt_normalize rt) (ld_canonize (rt_ld rt)) (rt_validate rt) doc None resolver
     (expected_proof_purpose expected) instant leeway ct sv) \/
  (exists suite_name algs,
     ((fmt = FORMAT_DI_EDDSA_JCS /\ suite_name = EDDSA_JCS_CRYPTOSUITE /\ algs = [$"EdDSA"]) \/
      (fmt = FORMAT_DI_ECDSA_JCS /\ suite_name = ECDSA_JCS_CRYPTOSUITE /\ algs = ECDSA_ALGS)) /\
     jcs_guarantee (rt_hash rt) (rt_ed25519 rt) (rt_ecdsa rt) (rt_mldsa rt) (rt_point rt) (rt_space rt) (rt_decimal rt)
       (rt_fromisoformat rt) (rt_float_repr rt) suite_name algs doc None resolver expected instant leeway ct v).

(** The top-level node the document expands to is typed with an IRI the name stands for under
    the contexts the verifier serves. *)
Definition typed_by_iri (credential : jobject) (name : pystr) : Prop :=
  exists index node iri, trusted_index (rt_json_std rt) (rt_loader rt) = Ok index /\
    rt_expand rt (JDict (validated_part (ddel credential ($"proof")))) = Ok (JList [JDict node]) /\
    iri ∈ trusted_iris name index /\
    (jget node ($"@type") = JStr iri \/ exists l, jget node ($"@type") = JList l /\ JStr iri ∈ l).

(** The expected types are the credential's: by name, or on an RDF proof by IRI. *)
Definition di_typed (fmt : pystr) (credential : jobject) (expected : list pystr) : Prop :=
  forall t, t ∈ expected ->
    if bool_decide (fmt ∈ RDF_DI_FORMATS) then typed_by_iri credential t else JStr t ∈ declared_types credential.

(** A Data Integrity document: the guarantee of its suite, for the policy's purpose and
    instant, and the proof's verification method is one of the issuer's. *)
Definition di_lane (fmt : pystr) (doc : jobject) (r : VerificationResult) : Prop :=
  exists l v iss vm,
    leeway_seconds (leeway_s (policy rq)) ProofError = Ok l /\
    suite_guarantee fmt doc (Some (did_resolver (rs rq))) di_expected_of (now_instant (clk rq)) (JInt l)
      (require_not_expired (policy rq)) v /\
    di_credential v = doc /\ di_issuer v = issuer_of doc /\ jget doc ($"proof") = JDict (di_proof v) /\
    check_validity_window (rt_space rt) (rt_decimal rt) (rt_fromisoformat rt) (unsecured doc) (di_proof v)
      (now_instant (clk rq)) (JInt l) (require_not_expired (policy rq)) = Ok (di_expired v) /\
    di_issuer v = JStr iss /\ jget (di_proof v) ($"verificationMethod") = JStr vm /\ before_fragment vm = iss /\
    format r = fmt /\ r_credential r = di_credential v /\ issuer r = JStr iss /\
    claims r = None /\ key_bound r = None /\ expired r = di_expired v /\
    di_typed fmt (di_credential v) (expected_types (policy rq)) /\
    admitted rt rq (di_credential v) (di_credential v) iss r /\ r_raw r = RawDi v.

Lemma verify_vc_jwt_Ok token r : verify_vc_jwt rt rq token = Ok r -> vc_lane token r.
Proof using.
  unfold verify_vc_jwt. cbv zeta. intros H. apply bind_Ok in H as (su & Hsu & H).
  apply bind_Ok in H as ([iss kid] & Hpeek & H). apply bind_Ok in H as (jwk & Hkey & H).
  apply bind_Ok in H as (v & Hv%vc_verify_guarantee & H). apply bind_Ok in H as (u & Ht & H).
  apply bind_Ok in H as (st & Hst & H). apply bind_Ok in H as (o & Hsc & H). apply Ok_inj in H as <-.
  exists su, iss, kid, jwk, v. do 10 (split; [done|]). split; [by eapply check_types_Ok|].
  split; [by eapply admitted_intro|done].
Qed.

Lemma verify_sd_jwt_Ok sd_jwt r :
  (forall raw v, rt_json rt raw = Ok v -> json_ok v) -> verify_sd_jwt rt rq kb_binding sd_jwt = Ok r -> sd_lane sd_jwt r.
Proof using.
  intros Hloads. unfold verify_sd_jwt. cbv zeta. intros H. apply bind_Ok in H as (su & Hsu & H).
  apply bind_Ok in H as ([iss kid] & Hpeek & H). apply bind_Ok in H as (jwk & Hkey & H).
  apply bind_Ok in H as ([aud n] & Hkb & H).
  apply bind_Ok in H as (v & Hv & H). apply SdJwt.sd_verify_guarantee in Hv as (ij & ds & kbj & hd & body & hn & Hg); [|done].
  apply bind_Ok in H as (u & Ht & H).
  apply bind_Ok in H as (st & Hst & H). apply bind_Ok in H as (o & Hsc & H). apply Ok_inj in H as <-.
  exists su, iss, kid, jwk, aud, n, v, ij, ds, kbj, hd, body, hn. do 11 (split; [done|]). split; [|split; [by eapply admitted_intro|done]].
  intros t Hin. unfold check_sd_jwt_types in Ht. destruct (sd_vcdm v); [split; [done|by eapply check_types_Ok]|].
  apply raise_if_Ok, negb_false_iff, bool_decide_eq_true in Ht. cbn in Ht. rewrite Ht in Hin. by apply not_elem_of_nil in Hin.
Qed.

Lemma bind_issuer_Ok v u :
  bind_issuer_to_verification_method v = Ok u ->
  exists iss vm, di_issuer v = JStr iss /\ jget (di_proof v) ($"verificationMethod") = JStr vm /\ before_fragment vm = iss.
Proof using.
  unfold bind_issuer_to_verification_method. destruct (di_issuer v) as [| | | |[|c i]| | |]; try done.
  destruct (jget _ _) as [| | | |vm| | |]; try done. intros H%raise_if_Ok%negb_false_iff%bool_decide_eq_true.
  by exists (c :: i), vm.
Qed.

Lemma di_verify_suite fmt doc resolver purpose instant leeway ct v :
  fmt ∈ map snd CRYPTOSUITE_FORMAT -> di_verify rt fmt doc resolver purpose instant leeway ct = Ok v ->
  exists l, leeway_seconds leeway ProofError = Ok l /\
    suite_guarantee fmt doc resolver
      {| expected_proof_purpose := Some purpose; expected_challenge := None; expected_domain := None |} instant (JInt l) ct v.
Proof using.
  unfold di_verify. cbv zeta. intros Hf H. apply bind_Ok in H as (l & Hl & H). exists l. split; [done|]. unfold suite_guarantee.
  case_bool_decide as E1; [right; right; left; split; [done|]|].
  { apply bind_Ok in H as (sv & Hv%sd_verify_disclosure & H). apply Ok_inj in H as <-. by exists sv. }
  case_bool_decide as E2; [right; right; right|].
  { exists EDDSA_JCS_CRYPTOSUITE, [$"EdDSA"]. split; [by left|]. by apply jcs_verify_guarantee. }
  case_bool_decide as E3; [right; right; right|].
  { exists ECDSA_JCS_CRYPTOSUITE, ECDSA_ALGS. split; [by right|]. by apply jcs_verify_guarantee. }
  case_bool_decide as E4; [right; left; split; [done|]; by apply ecdsa_rdfc_verify_guarantee|].
  left. split; [|by apply eddsa_rdfc_verify_guarantee]. cbn [map snd CRYPTOSUITE_FORMAT] in Hf.
  repeat (apply elem_of_cons in Hf as [Hf|Hf]; [done|]). by apply elem_of_nil in Hf.
Qed.

(** What every suite says of its result. *)
Lemma suite_result fmt doc resolver expected instant leeway ct v :
  suite_guarantee fmt doc resolver expected instant leeway ct v ->
  di_credential v = doc /\ di_issuer v = issuer_of doc /\ jget doc ($"proof") = JDict (di_proof v) /\
  check_validity_window (rt_space rt) (rt_decimal rt) (rt_fromisoformat rt) (unsecured doc) (di_proof v) instant leeway ct
    = Ok (di_expired v).
Proof using.
  assert (forall cs proof config sig, proof_of doc cs proof config sig ->
    policy_holds (rt_space rt) (rt_decimal rt) (rt_fromisoformat rt) doc proof expected instant leeway ct v ->
    di_credential v = doc /\ di_issuer v = issuer_of doc /\ jget doc ($"proof") = JDict (di_proof v) /\
    check_validity_window (rt_space rt) (rt_decimal rt) (rt_fromisoformat rt) (unsecured doc) (di_proof v) instant leeway ct
      = Ok (di_expired v)) as Hpol.
  { intros cs proof config sig (Hp & _) (Hc & Hpr & _ & _ & _ & Hw & Hi & _). by rewrite Hpr. }
  intros [(_ & Hg)|[(_ & Hg)|[(_ & sv & -> & Hg)|(cs & algs & _ & Hg)]]].
  - destruct Hg as (proof & config & sig & jwk & data & Hp & _ & _ & _ & _ & H). by eapply Hpol.
  - destruct Hg as (proof & config & sig & jwk & alg & h & data & Hp & _ & _ & _ & _ & _ & _ & H). by eapply Hpol.
  - destruct Hg as (proof & pv & parsed & lines & jwk & key & Hp & _ & _ & _ & _ & _ & _ & _ & _ & _ & _ & _ & Hw & Hc & Hpr & Hi & _).
    cbn [di_of_sd di_credential di_issuer di_proof di_expired]. rewrite Hpr, Hi. split_and!; try done.
    unfold issuer_of, unsecured, jget. by rewrite ddel_dget, decide_False by (apply (bool_decide_unpack _); vm_compute; exact I).
  - destruct Hg as (proof & config & sig & jwk & alg & h & data & Hp & _ & _ & _ & _ & _ & H). by eapply Hpol.
Qed.

Lemma missing_types_Ok credential expected :
  missing_types (rt_json_std rt) (rt_loader rt) (rt_expand rt) credential expected = Ok [] ->
  forall t, t ∈ expected -> typed_by_iri credential t.
Proof using.
  intros H t Ht. apply types_by_iri in H as (index & expanded & Hi & He & Hall). destruct Hall as (node & -> & Hall); [by intros ->; apply elem_of_nil in Ht|].
  destruct (Hall t Ht) as (iri & Hiri & Hn). by exists index, node, iri.
Qed.

Lemma verify_di_Ok fmt doc r :
  fmt ∈ map snd CRYPTOSUITE_FORMAT -> verify_data_integrity rt rq fmt doc = Ok r -> di_lane fmt doc r.
Proof using.
  unfold verify_data_integrity. cbv zeta. intros Hf H. apply bind_Ok in H as (v & Hv & H).
  apply bind_Ok in H as (u & (iss & vm & Hi & Hm & Hb)%bind_issuer_Ok & H). apply bind_Ok in H as (u' & Ht & H).
  rewrite Hi in H. apply bind_Ok in H as (st & Hst & H). apply bind_Ok in H as (o & Hsc & H). apply Ok_inj in H as <-.
  apply di_verify_suite in Hv as (l & Hl & Hg); [|done]. pose proof (suite_result _ _ _ _ _ _ _ _ Hg) as (Hc & Hiss & Hp & Hw).
  exists l, v, iss, vm. do 15 (split; [done|]). split; [|split; [by eapply admitted_intro|done]].
  intros t Hin. unfold check_di_types in Ht. case_bool_decide as Ef; cbn [negb] in Ht; [|by eapply check_types_Ok].
  destruct (expected_types (policy rq)) eqn:E; [by apply elem_of_nil in Hin|]. apply bind_Ok in Ht as (missing & Hm' & Ht).
  apply raise_if_Ok, negb_false_iff, bool_decide_eq_true in Ht as ->. by eapply missing_types_Ok.
Qed.

(** The lane a format selects. *)
Definition leaf_verified (fmt : pystr) (leaf : json) (r : VerificationResult) : Prop :=
  (exists token, leaf = JStr token /\ fmt = FORMAT_VC_JWT /\ vc_lane token r) \/
  (exists sd_jwt, leaf = JStr sd_jwt /\ fmt = FORMAT_SD_JWT_VC /\ sd_lane sd_jwt r) \/
  (exists doc, leaf = JDict doc /\ fmt ∈ map snd CRYPTOSUITE_FORMAT /\ di_lane fmt doc r).

Lemma verify_leaf_Ok fmt leaf r :
  (forall raw v, rt_json rt raw = Ok v -> json_ok v) -> detect_format leaf = Ok fmt -> fmt <> FORMAT_ENVELOPED ->
  verify_leaf rt rq kb_binding fmt leaf = Ok r -> leaf_verified fmt leaf r.
Proof using.
  intros Hloads Hf Hne H. unfold verify_leaf in H. destruct leaf as [| | | |s| |doc|]; try done.
  - unfold detect_format in Hf. destruct (bool_decide (126 ∈ s)).
    + apply Ok_inj in Hf as <-. rewrite bool_decide_eq_false_2 in H by (vm_compute; discriminate).
      right. left. exists s. by apply verify_sd_jwt_Ok in H.
    + destruct (bool_decide (length _ = _)); [|done]. apply Ok_inj in Hf as <-. rewrite bool_decide_eq_true_2 in H by done.
      left. exists s. by apply verify_vc_jwt_Ok in H.
  - right. right. exists doc. split; [done|]. assert (fmt ∈ map snd CRYPTOSUITE_FORMAT) as Hin; [|split; [done|by apply verify_di_Ok]].
    unfold detect_format in Hf. destruct (match dget doc _ with Some (JStr t) => _ | _ => _ end); try done.
    destruct (existsb _ _); [by apply Ok_inj in Hf as <-|]. destruct (jget doc _); try done.
    destruct (jget _ _); try done. destruct (dget CRYPTOSUITE_FORMAT s) as [f|] eqn:E; [|done].
    apply Ok_inj in Hf as <-. apply dget_Some_elem in E. apply list_elem_of_fmap. by exists (s, f).
Qed.
End lanes.

Lemma verify_credential_leaf rt p rs fetch clk kb c r :
  (forall raw v, rt_json rt raw = Ok v -> json_ok v) -> verify_credential rt p rs fetch clk kb c = Ok r ->
  exists n leaf fmt, (n <= MAX_ENVELOPES)%nat /\ opens (rt_json_text rt) n c leaf /\ detect_format leaf = Ok fmt /\
    (is_str leaf = false -> nesting_exceeds leaf JSON_MAX_DEPTH = false) /\
    leaf_verified rt (request_at rt p rs fetch clk (MAX_ENVELOPES - n)) kb fmt leaf r.
Proof.
  intros Hloads H. unfold verify_credential in H. apply verify_at_Ok in H as (n & leaf & fmt & Hn & Ho & Hc & Hne & Hl).
  apply classify_Ok in Hc as [Hf Hd]. exists n, leaf, fmt. split_and!; try done. by apply verify_leaf_Ok.
Qed.

(** C1: What an accepted credential is.  When [verify_credential] returns, at most two
    envelopes were opened, the credential inside is within the nesting bound and was verified
    by the lane of its own format: a VC-JWT, an SD-JWT VC or a Data Integrity document whose
    suite guarantees hold under the key resolved for the issuer it names, whose result reports
    exactly what the suite returned, and which has the expected types and passed the status
    and schema checks the policy requires. *)
Theorem verify_credential_sound rt p rs fetch clk kb c r
    (Hloads : forall raw v, rt_json rt raw = Ok v -> json_ok v)
    (H : verify_credential rt p rs fetch clk kb c = Ok r) :
  exists n leaf fmt, (n <= MAX_ENVELOPES)%nat /\ opens (rt_json_text rt) n c leaf /\ detect_format leaf = Ok fmt /\
    (is_str leaf = false -> nesting_exceeds leaf JSON_MAX_DEPTH = false) /\
    leaf_verified rt (request_at rt p rs fetch clk (MAX_ENVELOPES - n)) kb fmt leaf r.
Proof. by apply verify_credential_leaf. Qed.

(** ** The policy, read off the result *)

(** No [exp] of the claims is past the clock by the leeway. *)
Definition not_past (claims : jobject) (leeway : Z) (now : num) : Prop :=
  forall v e d, dget claims ($"exp") = Some v -> as_num v = Some e -> num_sub now e = Ok d -> num_geb d (NInt leeway) = false.

(** The dates behind a result that is not expired, against the clock of the call: for a VC-JWT
    the [exp] of its claims and the window of its credential; for an SD-JWT VC every date of
    the disclosed claims and, on a VCDM payload, its window; for a Data Integrity document
    its window and the expiry of its proof. *)
Definition unexpired (rt : runtime) (p : VerificationPolicy) (clk : clocks) (r : VerificationResult) : Prop :=
  exists l, leeway_s p = JInt l /\ 0 <= l <= MAX_LEEWAY_S /\
  match r_raw r with
  | RawVc _ => (exists cl, claims r = Some cl /\ not_past cl l (wall clk)) /\
      validity_window (rt_space rt) (rt_decimal rt) (rt_fromisoformat rt) (r_credential r) [] (wall_instant clk) (l * 1000000) false
  | RawSd v => jwt_window (r_credential r) l (wall clk) false /\
      (sd_vcdm v = true -> validity_window (rt_space rt) (rt_decimal rt) (rt_fromisoformat rt) (r_credential r) []
         (wall_instant clk) (l * 1000000) false)
  | RawDi _ => exists proof, jget (r_credential r) ($"proof") = JDict proof /\
      validity_window (rt_space rt) (rt_decimal rt) (rt_fromisoformat rt) (unsecured (r_credential r)) proof
        (now_instant clk) (l * 1000000) false
  end.

Lemma status_sources rt rq c i iss r :
  admitted rt rq c i iss r -> r_credential r = c -> i = default c (claims r) ->
  require_status (policy rq) = true -> require_not_revoked (policy rq) = true ->
  w3c_status_good rt (policy rq) (r_credential r) iss (status_list (rs rq)) /\
  ietf_status_good rt (policy rq) (default (r_credential r) (claims r)) iss (status_list_token (rs rq)).
Proof. intros [Hw Hi _] -> <- ??. auto. Qed.

Lemma schema_enforced rt p rs fetch clk n c i iss r :
  admitted rt (request_at rt p rs fetch clk n) c i iss r -> r_credential r = c -> require_schema p = true ->
  truthy (jget (r_credential r) ($"credentialSchema")) = true ->
  exists f res levels, fetch = Some f /\ schema r = Some res /\
    schemas_met (rt_space rt) (rt_hash rt) (rt_json rt) (rt_processor rt) f (Some (verify_inner rt p rs clk levels))
      (r_credential r) res.
Proof.
  intros [_ _ Hs] <- Hreq Ht. destruct (Hs Hreq Ht) as (f & res & Hf & Hr & Hm). exists f, res, n. done.
Qed.

(** The expected types are the credential's: by IRI where the proof signs RDF, by name otherwise. *)
Definition typed (rt : runtime) (p : VerificationPolicy) (r : VerificationResult) : Prop :=
  di_typed rt (format r) (r_credential r) (expected_types p).

Lemma typed_by_name rt p r : format r ∉ RDF_DI_FORMATS ->
  (forall t, t ∈ expected_types p -> JStr t ∈ declared_types (r_credential r)) -> typed rt p r.
Proof. intros Hf H t Ht. rewrite bool_decide_eq_false_2 by done. by apply H. Qed.

Lemma make_suite_leeway leeway_s pq k su : make_suite leeway_s pq k = Ok su -> VcJwt.leeway su = leeway_s.
Proof. unfold make_suite. by intros (l & [-> _]%leeway_seconds_Ok & [= <-])%bind_Ok. Qed.

Lemma make_sd_suite_leeway leeway_s su : make_sd_suite leeway_s = Ok su -> VcJwt.leeway su = leeway_s.
Proof. unfold make_sd_suite. by intros (l & [-> _]%leeway_seconds_Ok & [= <-])%bind_Ok. Qed.

Section lane_dates.
Context (rt : runtime) (rq : request).

(** PyJWT, asked to enforce [exp], returns no claims that are past its clock by the leeway. *)
Definition pyjwt_enforces (now : num) : Prop :=
  forall token jwk alg l aud cl, rt_pyjwt rt token jwk alg (JInt l) aud true = JwtClaims cl -> not_past cl l now.

Lemma vc_lane_unexpired token r :
  pyjwt_enforces (wall (clk rq)) -> vc_lane rt rq token r -> require_not_expired (policy rq) = true ->
  expired r = false /\ unexpired rt (policy rq) (clk rq) r.
Proof using.
  intros Hpy (su & iss & kid & jwk & v & Hsu & _ & _ & Hg & _ & Ec & _ & Ecl & _ & Ee & _ & _ & Er) Hct.
  destruct Hg as [Ha _ _ _ _ _ Hw Hx]. specialize (Hx Hct). rewrite Ee. split; [done|].
  destruct Hw as (l & b & Hl & Hb & Hw & Hbe). pose proof (make_suite_leeway _ _ _ _ Hsu) as E. rewrite Hl in E. exists l.
  split; [done|]. split; [done|]. rewrite Er, Ec, Ecl. split.
  - exists (vc_claims v). split; [done|]. destruct Ha as (h & q & s & hb & hd & alg & pl & je & _ & _ & _ & _ & Hin & _ & _ & _ & _ & Hau & Hje).
    unfold authenticated in Hau. case_bool_decide as Epq.
    + unfold make_suite in Hsu. apply bind_Ok in Hsu as (l' & _ & [= <-]). exfalso.
      assert (Forall (fun a => a ∉ ALLOWED_ALGS ++ [] ++ []) ALLOWED_ALGS_PQ) as Hno
        by (apply (bool_decide_unpack _); vm_compute; exact I).
      rewrite Forall_forall in Hno. by apply (Hno alg Epq).
    + destruct je; [rewrite Hje in Hx; done|]. unfold library_answer in Hau. rewrite Hl in Hau. by eapply Hpy.
  - destruct b; [rewrite Hbe in Hx; done|done].
Qed.

Lemma sd_lane_unexpired kb token r :
  sd_lane rt rq kb token r -> require_not_expired (policy rq) = true ->
  expired r = false /\ unexpired rt (policy rq) (clk rq) r.
Proof using.
  intros (su & iss & kid & jwk & aud & no & v & ij & ds & kbj & hd & body & hn & Hsu & _ & _ & _ & Hg & _ & Ec & _ & Ecl & _ & Ee & _ & _ & Er) Hct.
  destruct Hg as [_ _ _ _ _ _ _ _ _ _ _ Hw _ Hx]. specialize (Hx Hct). rewrite Ee. split; [done|].
  destruct Hw as (l & b1 & b2 & b3 & Hl & Hb & H1 & H2 & H3 & E). rewrite Hx in E. symmetry in E.
  apply orb_false_iff in E as [[-> ->]%orb_false_iff ->].
  pose proof (make_sd_suite_leeway _ _ Hsu) as E. rewrite Hl in E. exists l. split; [done|]. split; [done|]. rewrite Er, Ec.
  split; [done|]. intros Hv. by rewrite Hv in H3.
Qed.

Lemma di_lane_unexpired fmt doc r :
  di_lane rt rq fmt doc r -> require_not_expired (policy rq) = true ->
  expired r = false /\ unexpired rt (policy rq) (clk rq) r.
Proof using.
  intros (l & v & iss & vm & [El Hb]%leeway_seconds_Ok & _ & Hc & _ & Hp & Hw & _ & _ & _ & _ & Ec & _ & _ & _ & Ee & _ & _ & Er) Hct.
  apply check_validity_window_Ok in Hw as (l' & [= <-] & _ & Hw & Hx). specialize (Hx Hct). rewrite Ee, Hx. split; [done|].
  exists l. split; [done|]. split; [done|]. rewrite Er, Ec, Hc. exists (di_proof v). split; [done|]. by rewrite Hx in Hw.
Qed.
End lane_dates.


(** ** The issuer and its key *)

(** A key resolved for the issuer [iss]: from its DID document by [kid], from the metadata of
    its https URL, or from a certificate chain the caller's anchors accept for it. *)
Inductive issuer_key (rt : runtime) (rs : resolvers) (iss : pystr) (kid : json) (jwk : jobject) : Prop :=
| key_of_did doc vm :
    startswith iss ($"https://") = false -> Did.resolve (did_resolver rs) iss = Ok doc ->
    key_by_kid doc kid = Some vm -> public_key_jwk vm = jwk ->
    issuer_key rt rs iss kid jwk
| key_of_metadata fetch :
    startswith iss ($"https://") = true -> issuer_fetch rs = Some fetch ->
    JwtVcIssuer.resolve_jwt_vc_issuer_key (rt_urlparse rt) (rt_urlunparse rt) (rt_lower rt) fetch iss kid = Ok jwk ->
    issuer_key rt rs iss kid jwk
| key_of_chain chain resolve_x5c_key :
    x5c_key rs = Some resolve_x5c_key -> truthy chain = true -> resolve_x5c_key chain iss = Ok jwk ->
    issuer_key rt rs iss kid jwk.

Lemma resolve_jose_key_Ok rt rs iss kid jwk :
  resolve_jose_key rt rs iss kid = Ok jwk -> issuer_key rt rs iss kid jwk.
Proof.
  unfold resolve_jose_key. intros H. destruct (startswith iss _) eqn:E.
  - destruct (issuer_fetch rs) as [f|] eqn:Ef; [|done]. apply catch_as_Ok in H. by eapply key_of_metadata.
  - apply bind_Ok in H as (doc & Hd%catch_as_Ok & H).
    destruct (key_by_kid doc _) as [vm|] eqn:Ek; [|done]. apply Ok_inj in H as <-. by eapply key_of_did.
Qed.

Lemma resolve_jose_key_with_x5c_Ok rt rs token iss kid sd jwk :
  resolve_jose_key_with_x5c rt rs token iss kid sd = Ok jwk -> issuer_key rt rs iss (kid_value kid) jwk.
Proof.
  unfold resolve_jose_key_with_x5c. intros H. destruct (x5c_key rs) as [f|] eqn:Ef; [|by apply resolve_jose_key_Ok].
  apply bind_Ok in H as ([[[header ?] ?] ?] & _ & H). destruct (truthy _) eqn:Et; [|by apply resolve_jose_key_Ok].
  apply catch_as_Ok in H. by eapply key_of_chain.
Qed.

Lemma peeked_sd_issuer rt sd_jwt iss kid ij ds kb hd body si sig :
  sd_peek_issuer rt sd_jwt = Ok (iss, kid) -> SdJwt.split sd_jwt = Ok (ij, ds, kb) ->
  decode_jws (rt_json rt) ij = Ok (hd, body, si, sig) ->
  (partition 126 sd_jwt).1 = ij /\ issuer_from_body body hd = JStr iss.
Proof.
  unfold sd_peek_issuer, SdJwt.split. intros H Hs Hd. destruct (partition_split_on 126 sd_jwt) as [rest Hr]. rewrite Hr in Hs.
  destruct rest as [|q rest]; [done|]. injection Hs as Hij _ _. split; [done|]. rewrite Hij, Hd in H.
  cbn [mbind result_bind] in H. destruct (issuer_from_body body hd) as [| | | |[|c i]| | |]; try done.
  destruct (jget hd ($"kid")); try done; by injection H as <- _.
Qed.

(** The token's signature verifies under the key: by [keys.verify_signature] over the signed
    part, or by PyJWT. *)
Definition jose_signed (rt : runtime) (token : pystr) (jwk : jobject) : Prop :=
  (exists h p s sig alg, split_on 46 token = [h; p; s] /\ b64url_decode s = Ok sig /\
     Keys.verify_signature (rt_ed25519 rt) (rt_ecdsa rt) (rt_mldsa rt) alg (JDict jwk) (h ++ 46 :: p) sig = Ok true) \/
  (exists alg l aud enforce claims, rt_pyjwt rt token (JDict jwk) alg l aud enforce = JwtClaims claims).

(** The proof of a document is a signature by the key over what its format covers: the digests
    of the canonical options and document, in RDF or in JCS; for [ecdsa-sd-2023] the digests
    of the options and of the mandatory statements, with the key of the other statements. *)
Inductive di_signed (rt : runtime) (doc proof jwk : jobject) : pystr -> Prop :=
| eddsa_rdfc_signed config sig data :
    proof_of doc DataIntegrity.CRYPTOSUITE proof config sig ->
    rdf_covered (rt_hash rt) (rt_normalize rt) doc config ($"sha256") data ->
    ed25519_signed (rt_ed25519 rt) jwk data sig -> di_signed rt doc proof jwk FORMAT_DI_EDDSA
| ecdsa_rdfc_signed config sig alg h data :
    proof_of doc ECDSA_RDFC_CRYPTOSUITE proof config sig -> alg ∈ ECDSA_ALGS -> key_for_alg jwk alg h ->
    rdf_covered (rt_hash rt) (rt_normalize rt) doc config h data ->
    Keys.verify_signature (rt_ed25519 rt) (rt_ecdsa rt) (rt_mldsa rt) alg (JDict jwk) data sig = Ok true ->
    di_signed rt doc proof jwk FORMAT_DI_ECDSA_RDFC
| ecdsa_sd_signed pv parsed lines :
    jget proof ($"proofValue") = JStr pv -> EcdsaSd.decode_derived_proof pv = Ok parsed ->
    EcdsaSd.statements_of (rt_to_rdf rt) (ld_canonize (rt_ld rt)) doc parsed lines ->
    EcdsaSd.issuer_signed (rt_hash rt) (rt_ed25519 rt) (rt_ecdsa rt) (rt_mldsa rt) (rt_normalize rt) doc proof parsed lines jwk ->
    di_signed rt doc proof jwk FORMAT_DI_ECDSA_SD
| jcs_signed fmt suite_name algs config sig alg h data :
    (fmt = FORMAT_DI_EDDSA_JCS /\ suite_name = EDDSA_JCS_CRYPTOSUITE /\ algs = [$"EdDSA"]) \/
    (fmt = FORMAT_DI_ECDSA_JCS /\ suite_name = ECDSA_JCS_CRYPTOSUITE /\ algs = ECDSA_ALGS) ->
    proof_of doc suite_name proof config sig -> alg ∈ algs -> key_for_alg jwk alg h ->
    jcs_covered (rt_hash rt) (rt_float_repr rt) doc config h data ->
    Keys.verify_signature (rt_ed25519 rt) (rt_ecdsa rt) (rt_mldsa rt) alg (JDict jwk) data sig = Ok true ->
    di_signed rt doc proof jwk fmt.

(** The signed proof behind a suite's guarantee: its key is the one its verification method
    resolves to, for the purpose expected. *)
Lemma suite_signed rt fmt doc resolver purpose challenge domain instant leeway ct v :
  suite_guarantee rt fmt doc resolver
    {| expected_proof_purpose := Some purpose; expected_challenge := challenge; expected_domain := domain |} instant leeway ct v ->
  exists jwk, jget (di_proof v) ($"proofPurpose") = JStr purpose /\
    resolve_verification_key (rt_point rt) (jget (di_proof v) ($"verificationMethod")) (JStr purpose) resolver = Ok jwk /\
    di_signed rt doc (di_proof v) jwk fmt.
Proof.
  intros [(-> & Hg)|[(-> & Hg)|[(-> & sv & -> & Hg)|(cs & algs & Hf & Hg)]]].
  - destruct Hg as (proof & config & sig & jwk & data & Hp & Hk & Hc & Hs & _ & (_ & -> & Hpu & _)).
    exists jwk. unfold proof_key in Hk. rewrite (Hpu purpose eq_refl) in *. split; [done|]. split; [done|]. by econstructor.
  - destruct Hg as (proof & config & sig & jwk & alg & h & data & Hp & Hk & Ha & Hka & Hc & Hs & _ & (_ & -> & Hpu & _)).
    exists jwk. unfold proof_key in Hk. rewrite (Hpu purpose eq_refl) in *. split; [done|]. split; [done|]. by econstructor.
  - destruct Hg as (proof & pv & parsed & lines & jwk & key & _ & _ & Hpv & Hd & _ & Hk & Hst & Hs & _ & _ & _ & Hpu & _ & _ & E & _).
    cbn [di_of_sd di_proof]. rewrite E. exists jwk. unfold proof_key in Hk. rewrite (Hpu purpose eq_refl) in *.
    split; [done|]. split; [done|]. by econstructor.
  - destruct Hg as (proof & config & sig & jwk & alg & h & data & Hp & Hk & Ha & Hka & Hc & Hs & (_ & -> & Hpu & _)).
    exists jwk. unfold proof_key in Hk. rewrite (Hpu purpose eq_refl) in *. split; [done|]. split; [done|]. by econstructor.
Qed.

(** C3: The issuer reported is the one whose key signed.  When [verify_credential] returns, the
    signature verifies under a key resolved for the very issuer the result names: a token's
    under a key from its DID document, its https metadata, or a chain accepted for it; that of
    a Data Integrity proof, whichever the suite, over the document it secures and under the key
    its verification method, one of the issuer's, resolves to for the policy's purpose. *)
Theorem issuer_key_binding rt p rs fetch clk kb c r
    (Hloads : forall raw v, rt_json rt raw = Ok v -> json_ok v)
    (Hpyjwt : forall token jwk alg l aud enforce cl,
       rt_pyjwt rt token jwk alg l aud enforce = JwtClaims cl -> peek_claims (rt_json rt) token = Ok cl)
    (H : verify_credential rt p rs fetch clk kb c = Ok r) :
  exists n leaf iss, opens (rt_json_text rt) n c leaf /\ issuer r = JStr iss /\
    match leaf with
    | JStr token => exists kid jwk, issuer_key rt rs iss kid jwk /\ jose_signed rt (partition 126 token).1 jwk
    | JDict doc => exists proof vm jwk, jget doc ($"proof") = JDict proof /\
        jget proof ($"verificationMethod") = JStr vm /\ before_fragment vm = iss /\
        jget proof ($"proofPurpose") = JStr (proof_purpose p) /\
        resolve_verification_key (rt_point rt) (JStr vm) (JStr (proof_purpose p)) (Some (did_resolver rs)) = Ok jwk /\
        di_signed rt doc proof jwk (format r)
    | _ => False
    end.
Proof.
  apply verify_credential_leaf in H as (n & leaf & fmt & _ & Ho & Hf & _ & H); [|done]. exists n, leaf.
  destruct H as [(tok & -> & -> & H)|[(tok & -> & _ & H)|(doc & -> & _ & H)]].
  - destruct H as (su & iss & kid & jwk & v & _ & Hpeek & Hkey & Hg & _ & _ & Ei & _).
    exists (vc_issuer v). split; [done|]. split; [done|]. destruct Hg as [Ha Hvc _ [Hi Hids] _ _ _ _].
    destruct Ha as (h & q & s & hb & hd & alg & pl & je & Hsplit & _ & _ & _ & _ & _ & _ & Hpl & _ & Hau & _).
    assert ((partition 126 tok).1 = tok) as Etok.
    { rewrite partition_absent; [done|]. unfold detect_format in Hf. case_bool_decide as Ht; [by apply Ok_inj in Hf|done]. }
    pose proof (verified_payload _ _ _ _ _ _ _ _ _ _ _ _ Hpyjwt Hau Hpl) as ->.
    rewrite (peeked_vc_issuer _ _ _ _ _ _ _ Hpeek Hpl Hvc Hi Hids) in Hkey.
    exists (kid_value kid), jwk. split; [by eapply resolve_jose_key_with_x5c_Ok|]. rewrite Etok. unfold authenticated in Hau. case_bool_decide.
    + destruct Hau as (h' & p' & s' & pb & sig & Hs' & _ & Hsig & Hv & _). left. by exists h', p', s', sig, alg.
    + right. unfold library_answer in Hau. destruct je; [destruct Hau as [_ Hau]|]; by do 5 eexists.
  - destruct H as (su & iss & kid & jwk & aud & no & v & ij & ds & kbj & hd & body & hn & _ & Hpeek & Hkey & _ & Hg & _ & _ & Ei & _).
    exists (sd_issuer v). split; [done|]. split; [done|]. destruct Hg as [Hsplit Hsig [Hiss _] _ _ _ _ _ _ _ _ _ _ _].
    destruct Hsig as (si & sig & alg & Hdec & _ & _ & _ & Hv). destruct (peeked_sd_issuer _ _ _ _ _ _ _ _ _ _ _ Hpeek Hsplit Hdec) as [-> Hi].
    rewrite Hi in Hiss. injection Hiss as <-. exists (kid_value kid), jwk. split; [by eapply resolve_jose_key_with_x5c_Ok|]. left.
    apply parse_compact_Ok in Hdec as (h & q & s & hb & pb & Hs & -> & _ & _ & _ & _ & Hd). by exists h, q, s, sig, alg.
  - destruct H as (l & v & iss & vm & _ & Hg & _ & _ & Hp & _ & _ & Hm & Hb & Ef & _ & Ei & _).
    exists iss. split; [done|]. split; [done|]. apply suite_signed in Hg as (jwk & Hpu & Hk & Hs). rewrite Hm in Hk. rewrite Ef.
    by exists (di_proof v), vm, jwk.
Qed.

(** * Batches *)

(** The result of one item. *)
Definition item_outcome (o : result VerificationResult) : VerificationResult + exn :=
  match o with Ok r => inl r | Err e => inr e end.

(** One bad credential never spoils a batch.  [verify_many] either returns one outcome per
    credential, in order, each the result or the error [verify_credential] gives for that item
    alone (at the item's own instant); or it raises the first error that is not an
    [OpenvcError], every item before it having been verified or rejected. *)
Theorem verify_many_isolates rt p rs fetch clk cs :
  let one i c := verify_credential rt p rs fetch (clk i) None c in
  match verify_many rt p rs fetch clk cs with
  | Ok out =>
      length out = length cs /\ forall i c, cs !! i = Some c ->
        out !! i = Some {| index := i; outcome := item_outcome (one i c) |} /\
        forall e, one i c = Err e -> isinstance e OpenvcError = true
  | Err e =>
      exists i c, cs !! i = Some c /\ one i c = Err e /\ isinstance e OpenvcError = false /\
        forall j c', (j < i)%nat -> cs !! j = Some c' ->
          (exists r, one j c' = Ok r) \/ exists e', one j c' = Err e' /\ isinstance e' OpenvcError = true
  end.
Proof.
  cbv zeta. unfold verify_many. destruct (mapR _ _) as [out|e] eqn:E.
  - apply mapR_Ok in E. pose proof (Forall2_length _ _ _ E) as Hl. rewrite length_imap in Hl. split; [done|].
    intros i c Hc. assert (imap (fun i c => (i, c)) cs !! i = Some (i, c)) as Hi by (rewrite list_lookup_imap, Hc; done).
    destruct (Forall2_lookup_l _ _ _ _ _ E Hi) as (o & Ho & Hv). cbn [fst snd] in Hv.
    rewrite Ho. unfold item_outcome. destruct (verify_credential _ _ _ _ _ _ _) as [r|e].
    + injection Hv as <-. done.
    + destruct (isinstance e OpenvcError) eqn:Ee; [|done]. injection Hv as <-. split; [done|]. congruence.
  - apply mapR_Err in E as (i & [i' c] & Hi & Hv & Hj). rewrite list_lookup_imap in Hi.
    destruct (cs !! i) as [c'|] eqn:Ec; [|done]. injection Hi as <- <-. exists i, c'. split; [done|]. cbn [fst snd] in Hv.
    destruct (verify_credential _ _ _ _ _ _ c') as [r|e']; [done|]. destruct (isinstance e' OpenvcError) eqn:Ee; [done|].
    injection Hv as ->. split; [done|]. split; [done|]. intros j c Hlt Hc. destruct (Hj j (j, c) Hlt) as [b Hb].
    { by rewrite list_lookup_imap, Hc. }
    cbn [fst snd] in Hb. destruct (verify_credential _ _ _ _ _ _ c) as [r|e'']; [left; by exists r|right].
    exists e''. split; [done|]. by destruct (isinstance e'' OpenvcError).
Qed.

(** * Examples *)

(** A world with one token, [aA.cA.cw], whose issuer is [did:x]. *)
Definition example_vm : VerificationMethod :=
  {| vm_id := $"did:x#k"; vm_type := $"JsonWebKey2020"; controller := $"did:x";
     public_key_jwk := [($"kty", JStr ($"EC")); ($"crv", JStr ($"P-256"))] |}.
Definition example_did_resolver : DidResolver :=
  {| supports := None;
     resolve := fun did => if bool_decide (did = $"did:x")
                           then Ok {| doc_id := did; verification_methods := [example_vm]; raw := []; relationships := [] |}
                           else Err DidResolutionError |}.
Definition example_resolvers : resolvers :=
  {| did_resolver := example_did_resolver; status_list := None; status_list_token := None; issuer_fetch := None; x5c_key := None |}.
(** A [pyld] that reads nothing: the examples below hold no RDF. *)
Definition no_json_ld : json_ld :=
  {| ld_expand := fun _ _ => Err ValueError; ld_compact := fun _ _ _ => Err ValueError; ld_to_rdf := fun _ _ => Err ValueError;
     ld_normalize := fun _ _ => Err ValueError; ld_canonize := fun _ => Err ValueError |}.
Definition example_rt : runtime :=
  {| rt_json := example_loads; rt_json_text := fun _ => Err ValueError;
     rt_ed25519 := fun _ _ _ => None; rt_ecdsa := fun _ _ _ _ _ => None; rt_mldsa := fun _ _ _ _ => Ok false;
     rt_point := fun _ _ => None; rt_float_repr := fun _ => []; rt_lower := fun s => s; rt_on_curve := fun _ _ => true;
     rt_from_jwk := fun _ => true;
     rt_pyjwt := fun token _ _ _ _ _ => match peek_claims example_loads token with Ok claims => JwtClaims claims | Err _ => JwtInvalid end;
     rt_space := fun _ => false; rt_decimal := fun _ => false; rt_fromisoformat := fun _ => Some (7000000, None);
     rt_hash := fun _ _ => []; rt_processor := fun _ _ => Conforms;
     rt_gzip := stored_read; rt_zlib := stored_zlib;
     rt_urlparse := fun _ => Err ValueError; rt_urlunparse := fun a b => a ++ b;
     rt_json_std := fun _ => Err ValueError; rt_ld := no_json_ld; rt_bundled := []; rt_extra_contexts := [] |}.
Definition example_envelope : json :=
  JDict [($"type", JStr ($"EnvelopedVerifiableCredential")); ($"id", JStr ($"data:application/vc+jwt,aA.cA.cw"))].
Definition example_clocks : clocks := {| wall := NInt 0; wall_instant := 0; now := NInt 0; now_instant := 0 |}.

Abbreviation example_verdict :=
  (verify_credential example_rt default_policy example_resolvers None example_clocks None example_envelope).

Lemma example_verdict_Ok : exists r, example_verdict = Ok r.
Proof.
  assert (is_ok example_verdict = true) as H by (vm_compute; reflexivity).
  destruct example_verdict as [r|]; [by exists r|discriminate H].
Qed.

Lemma example_json_ok raw v : rt_json example_rt raw = Ok v -> json_ok v.
Proof.
  cbn [rt_json example_rt]. unfold example_loads. repeat case_bool_decide; intros [= <-]; unfold example_payload; solve_json_ok.
Qed.

Lemma verify_credential_sound_witness : exists r n leaf fmt, example_verdict = Ok r /\ (n <= MAX_ENVELOPES)%nat /\
  opens (rt_json_text example_rt) n example_envelope leaf /\ detect_format leaf = Ok fmt.
Proof.
  destruct example_verdict_Ok as [r H]. exists r. pose proof H as H'.
  apply (verify_credential_sound _ _ _ _ _ _ _ _ example_json_ok) in H' as (n & leaf & fmt & Hn & Ho & Hf & _).
  exists n, leaf, fmt. exact (conj H (conj Hn (conj Ho Hf))).
Defined.

(** The payloads of this world carry no [exp]. *)
Lemma example_enforces now : pyjwt_enforces example_rt now.
Proof.
  intros token jwk alg l aud cl H v e d Hv. cbn [rt_pyjwt example_rt] in H.
  destruct (peek_claims example_loads token) as [c|] eqn:E; [|done]. injection H as ->.
  unfold peek_claims in E. apply bind_Ok in E as ([[h q] s] & _ & E). apply bind_Ok in E as (pl & Hp%catch_as_Ok & E).
  apply bind_Ok in Hp as (pb & _ & Hp). unfold example_loads in Hp. repeat case_bool_decide; [..|done].
  all: apply Ok_inj in Hp as <-; apply Ok_inj in E as <-; by vm_compute in Hv.
Qed.


Lemma issuer_key_binding_witness : exists r n leaf iss, example_verdict = Ok r /\
  opens (rt_json_text example_rt) n example_envelope leaf /\ issuer r = JStr iss.
Proof.
  destruct example_verdict_Ok as [r H]. pose proof H as H'.
  apply (issuer_key_binding _ _ _ _ _ _ _ _ example_json_ok) in H' as (n & leaf & iss & Ho & Hi & _).
  - exists r, n, leaf, iss. exact (conj H (conj Ho Hi)).
  - intros token jwk alg l aud enforce cl. cbn [rt_pyjwt example_rt rt_json].
    destruct (peek_claims example_loads token) as [c|]; [by intros [= ->]|done].
Defined.
