(* ===== verification/Resolvers.v ===== *)
(** [openvc.resolvers] (src/src/openvc/resolvers.py): the default resolvers of status lists,
    schemas and type metadata, which fetch through the caller's (guarded) transport and verify
    a status list through the pipeline before returning it.

    The fetch and the clock readings of one call are arguments; the asynchronous variants are in
    [Aio]. *)
From Stdlib Require Import SpecFloat.
From S2P Require Import Prelude Errors PyStr Utf8 Json Base64 PyNum StatusIndex StatusCodec StatusCheck VerifyCommon VcJwt SdJwt SdIssue VcIssue StatusIssue Schema Did JwtVcIssuer Keys DataIntegrity Verify VerifySound.

Section resolvers.
Context (rt : runtime).

(** ** Schemas and type metadata: the exact bytes fetched *)

Definition default_credential_schema_resolver (fetch : pystr -> result bytes) : pystr -> result bytes := fun url => fetch url.
Definition default_type_metadata_resolver (fetch : pystr -> result bytes) : pystr -> result bytes := fun url => fetch url.

(** ** The W3C list *)

Definition as_credential (raw : pystr) : result json :=
  let text := strip (rt_space rt) raw in
  match rt_json_text rt text with
  | Ok (JDict d) => Ok (JDict d)
  | Ok _ => Ok (JStr text)
  | Err e => if isinstance e ValueError || isinstance e RecursionError then Ok (JStr text) else Err e
  end.

(** An issuer member as the readers of this file take it: a string, or an object's [id]. *)
Definition claimed_name (issuer : json) : option pystr :=
  match issuer with JStr s => Some s | JDict d => as_str (jget d ($"id")) | _ => None end.

Definition claimed_list_issuer (credential : json) : option pystr :=
  match credential with
  | JDict d => claimed_name (jget d ($"issuer"))
  | JStr s =>
      match parse_compact (rt_json rt) (strip (rt_space rt) s) with
      | Err _ => None
      | Ok (_, payload, _, _) =>
          match jget payload ($"iss") with
          | JStr iss => Some iss
          | _ => match jget payload ($"vc") with JDict vc => claimed_name (jget vc ($"issuer")) | _ => None end
          end
      end
  | _ => None
  end.

Definition require_expected_issuer (claimed expected : option pystr) : result unit :=
  match expected, claimed with
  | Some e, Some c => raise_if (negb (bool_decide (c = e))) StatusListError
  | _, _ => Ok tt
  end.

Definition is_identity (signer : json) : bool := is_str signer && truthy signer.

Definition authenticated_list (r : VerificationResult) : result jobject :=
  let credential := r_credential r in
  let signer := issuer r in
  match dget credential ($"issuer") with
  | None => Ok (if is_identity signer then dset credential ($"issuer") signer else credential)
  | Some issuer =>
      let identifiers := issuer_identifiers issuer in
      raise_if (existsb (fun name => negb (py_eq name signer)) identifiers) StatusListError;;
      Ok (match identifiers, issuer with
          | [], JDict d => if is_identity signer then dset credential ($"issuer") (JDict (dset d ($"id") signer)) else credential
          | _, _ => credential
          end)
  end.

(** [VerificationPolicy(require_status=False, leeway_s=leeway_s)]. *)
Definition list_policy (leeway : Z) : result VerificationPolicy :=
  make_policy
    {| leeway_s := JInt leeway; expected_types := []; expected_vct := None; audience := JNull; nonce := JNull;
       require_key_binding := false; proof_purpose := $"assertionMethod"; require_status := false; require_schema := false;
       require_status_issuer_binding := false; status_issuer_allowlist := [];
       require_not_expired := true; require_not_revoked := true; kb_max_age_s := JInt DEFAULT_KB_MAX_AGE_S |}.

(** What a list is verified with: no status or schema resolver of its own. *)
Definition list_resolvers (resolver : DidResolver) (jwt_vc_issuer_fetch : option (pystr -> result json)) : resolvers :=
  {| did_resolver := resolver; status_list := None; status_list_token := None; issuer_fetch := jwt_vc_issuer_fetch; x5c_key := None |}.

Definition default_status_list_resolver (resolver : DidResolver) (jwt_vc_issuer_fetch : option (pystr -> result json))
    (leeway : json) (fetch : pystr -> result pystr) (expected_issuer : option pystr) (clk : clocks) (url : pystr) : result json :=
  leeway ← leeway_seconds leeway StatusListError;
  raw ← fetch url;
  credential ← as_credential raw;
  require_expected_issuer (claimed_list_issuer credential) expected_issuer;;
  policy ← list_policy leeway;
  result ← verify_credential rt policy (list_resolvers resolver jwt_vc_issuer_fetch) None clk None credential;
  d ← authenticated_list result; Ok (JDict d).

(** ** The IETF token *)

Definition default_status_list_token_resolver (resolver : DidResolver) (jwt_vc_issuer_fetch : option (pystr -> result json))
    (leeway : json) (fetch : pystr -> result pystr) (expected_issuer : option pystr) (clock : num) (uri : pystr) : result json :=
  leeway ← leeway_seconds leeway StatusListError;
  raw ← fetch uri;
  let token := strip (rt_space rt) raw in
  '(header, payload, _, _) ← parse_compact (rt_json rt) token;
  match jget payload ($"iss") with
  | JStr ((_ :: _) as iss) =>
      require_expected_issuer (Some iss) expected_issuer;;
      jwk ← resolve_jose_key rt (list_resolvers resolver jwt_vc_issuer_fetch) iss (jget header ($"kid"));
      claims ← verify_status_list_token (rt_json rt) (Keys.verify_signature (rt_ed25519 rt) (rt_ecdsa rt) (rt_mldsa rt))
                 token (JDict jwk) (Some uri) (JInt leeway) (Value JNull) clock;
      Ok (JDict claims)
  | _ => Err StatusListError
  end.
End resolvers.

(** * What the resolvers return *)

Lemma list_policy_Ok l p : list_policy l = Ok p -> require_status p = false.
Proof. unfold list_policy, make_policy. intros H. apply bind_Ok in H as (? & _ & H). by apply bind_Ok in H as (? & _ & [= <-]). Qed.

Lemma verified_issuer rt p rs fetch clk kb c r :
  (forall raw v, rt_json rt raw = Ok v -> json_ok v) -> verify_credential rt p rs fetch clk kb c = Ok r -> exists iss, issuer r = JStr iss.
Proof.
  intros Hl H. apply verify_credential_leaf in H as (n & leaf & fmt & _ & _ & _ & _ & H); [|done].
  destruct H as [(tok & _ & _ & H)|[(tok & _ & _ & H)|(doc & _ & _ & H)]].
  - destruct H as (su & iss & kid & jwk & v & _ & _ & _ & _ & _ & _ & Ei & _). by exists (vc_issuer v).
  - destruct H as (su & iss & kid & jwk & aud & no & v & ij & ds & kbj & hd & body & hn & _ & _ & _ & _ & _ & _ & _ & Ei & _).
    by exists (sd_issuer v).
  - destruct H as (l & v & iss & vm & _ & _ & _ & _ & _ & _ & _ & _ & _ & _ & _ & Ei & _). by exists iss.
Qed.

(** The identifiers a value handed to the binding carries. *)
Definition named_by (d : jobject) (iss : pystr) : Prop :=
  forall i name, dget d ($"issuer") = Some i -> name ∈ issuer_identifiers i -> name = JStr iss.

Lemma named_by_dset c i iss :
  (forall name, name ∈ issuer_identifiers i -> name = JStr iss) ->
  (forall k, k <> $"issuer" -> dget (dset c ($"issuer") i) k = dget c k) /\ named_by (dset c ($"issuer") i) iss.
Proof.
  intros Hi. split.
  - intros k Hk. by rewrite dget_dset, decide_False.
  - intros i' name Hd Hin. rewrite dget_dset, decide_True in Hd by done. injection Hd as <-. auto.
Qed.

Lemma issuer_identifiers_nil d : issuer_identifiers (JDict d) = [] -> dget d ($"id") = None /\ dget d ($"@id") = None.
Proof.
  unfold issuer_identifiers. cbn [omap list_omap]. destruct (dget d ($"id")); [done|]. by destruct (dget d ($"@id")).
Qed.

Lemma authenticated_list_Ok r iss d :
  issuer r = JStr iss -> authenticated_list r = Ok d ->
  (forall k, k <> $"issuer" -> dget d k = dget (r_credential r) k) /\ named_by d iss.
Proof.
  unfold authenticated_list. intros -> H. destruct (dget (r_credential r) ($"issuer")) as [i|] eqn:Ei.
  - apply bind_Ok in H as (? & Hn%raise_if_Ok & H). rewrite existsb_false_Forall, Forall_forall in Hn.
    assert (Hall : forall name, name ∈ issuer_identifiers i -> name = JStr iss).
    { intros name Hin%Hn. rewrite py_eq_str in Hin. by apply eq_str_true, negb_false_iff. }
    assert (Hkeep : named_by (r_credential r) iss).
    { intros i' name Hd Hin. rewrite Ei in Hd. injection Hd as <-. auto. }
    apply Ok_inj in H. destruct (issuer_identifiers i) eqn:El, i as [| | | | | |di|]; try (by subst d).
    destruct (is_identity (JStr iss)); [|by subst d]. subst d. apply named_by_dset.
    apply issuer_identifiers_nil in El as [_ Ho]. unfold issuer_identifiers. cbn [omap list_omap].
    rewrite !dget_dset, decide_True, decide_False by (done || (vm_compute; discriminate)). rewrite Ho.
    by intros name ->%list_elem_of_singleton.
  - apply Ok_inj in H. destruct (is_identity (JStr iss)); subst d; [apply named_by_dset; by intros name ->%list_elem_of_singleton|].
    split; [done|]. intros i name Hd. by rewrite Ei in Hd.
Qed.

(** What the issuer binding accepts of a value whose identifiers are all [iss]. *)
Lemma enforced_is_signer p c d iss u :
  named_by d iss -> enforce_status_issuer p c ($"issuer") (JDict d) = Ok u -> iss = c \/ iss ∈ status_issuer_allowlist p.
Proof.
  intros Hn (d' & si & [= <-] & Hsi & _ & Ht)%enforce_status_issuer_Ok.
  assert (JStr si = JStr iss) as [= <-]; [|done].
  destruct Hsi as [Hi|(di & Hi & Hid)].
  - apply jget_Some in Hi; [|done]. eapply Hn; [exact Hi|left].
  - apply jget_Some in Hi, Hid; try done. eapply Hn; [exact Hi|]. unfold issuer_identifiers. cbn [omap list_omap].
    rewrite Hid. left.
Qed.

Section sound.
Context (rt : runtime) (Hloads : forall raw v, rt_json rt raw = Ok v -> json_ok v).
Context (resolver : DidResolver) (jwt_vc_issuer_fetch : option (pystr -> result json)) (leeway : json)
  (fetch : pystr -> result pystr).

(** A list the default resolver returns was verified.  It is the credential the pipeline
    accepted, under a policy that enforces expiry and signature, from what was fetched; it is
    that credential member for member, except that an [issuer] may have been filled in; every
    identifier its [issuer] carries is the issuer the pipeline authenticated; so a policy that binds
    the status issuer accepts it only when that signer is the credential's own issuer or on the
    policy's allow-list. *)
Theorem default_status_list_sound expected clk url obj
    (H : default_status_list_resolver rt resolver jwt_vc_issuer_fetch leeway fetch expected clk url = Ok obj) :
  exists raw credential policy r iss d,
    fetch url = Ok raw /\ as_credential rt raw = Ok credential /\ require_not_expired policy = true /\
    verify_credential rt policy (list_resolvers resolver jwt_vc_issuer_fetch) None clk None credential = Ok r /\
    issuer r = JStr iss /\ obj = JDict d /\ (forall k, k <> $"issuer" -> dget d k = dget (r_credential r) k) /\ named_by d iss /\
    forall p c u, enforce_status_issuer p c ($"issuer") obj = Ok u -> iss = c \/ iss ∈ status_issuer_allowlist p.
Proof.
  unfold default_status_list_resolver in H. apply bind_Ok in H as (l & _ & H). apply bind_Ok in H as (raw & Hraw & H).
  apply bind_Ok in H as (c & Hc & H). apply bind_Ok in H as (? & _ & H). apply bind_Ok in H as (p & Hp & H).
  apply bind_Ok in H as (r & Hr & H). apply bind_Ok in H as (d & Hd & [= <-]).
  destruct (verified_issuer _ _ _ _ _ _ _ _ Hloads Hr) as [iss Hi]. destruct (authenticated_list_Ok _ _ _ Hi Hd) as [Hk Hn].
  exists raw, c, p, r, iss, d. split_and!; try done; [|intros ???; by apply enforced_is_signer].
  unfold list_policy, make_policy in Hp. apply bind_Ok in Hp as (? & _ & Hp). by apply bind_Ok in Hp as (? & _ & [= <-]).
Qed.

(** Naming the issuer expected of a list only ever refuses one. *)
Lemma expected_issuer_only_refuses expected clk url obj :
  default_status_list_resolver rt resolver jwt_vc_issuer_fetch leeway fetch expected clk url = Ok obj ->
  default_status_list_resolver rt resolver jwt_vc_issuer_fetch leeway fetch None clk url = Ok obj.
Proof using Type.
  unfold default_status_list_resolver. intros H. apply bind_Ok in H as (l & -> & H). apply bind_Ok in H as (raw & Hraw & H).
  apply bind_Ok in H as (c & Hc & H). apply bind_Ok in H as (? & _ & H). cbn [mbind result_bind]. rewrite Hraw.
  cbn [mbind result_bind]. by rewrite Hc.
Qed.

(** A status-list token the default resolver returns was signed by the issuer it names.  Its
    claims are those of the fetched compact JWS, typed [statuslist+jwt], whose signature a key
    resolved for its own [iss] verifies; its [sub] is the URI it was fetched from, and its dates
    hold now; and a policy that binds the status issuer accepts it only when that [iss] is the
    credential's own issuer or on the policy's allow-list. *)
Theorem default_status_list_token_sound expected clock uri obj
    (H : default_status_list_token_resolver rt resolver jwt_vc_issuer_fetch leeway fetch expected clock uri = Ok obj) :
  exists raw header claims iss jwk si sig alg,
    fetch uri = Ok raw /\ obj = JDict claims /\
    parse_compact (rt_json rt) (strip (rt_space rt) raw) = Ok (header, claims, si, sig) /\
    jget claims ($"iss") = JStr iss /\ iss <> [] /\
    issuer_key rt (list_resolvers resolver jwt_vc_issuer_fetch) iss (jget header ($"kid")) jwk /\
    jget header ($"alg") = JStr alg /\ alg ∈ ALLOWED_ALGS /\ jget header ($"typ") = JStr STATUS_LIST_JWT_TYP /\
    Keys.verify_signature (rt_ed25519 rt) (rt_ecdsa rt) (rt_mldsa rt) alg (JDict jwk) si sig = Ok true /\
    jget claims ($"sub") = JStr uri /\ check_jwt_temporal claims leeway clock true = Ok false /\
    forall p c u, enforce_status_issuer p c ($"iss") obj = Ok u -> iss = c \/ iss ∈ status_issuer_allowlist p.
Proof using Type.
  unfold default_status_list_token_resolver in H. apply bind_Ok in H as (l & [-> Hl]%leeway_seconds_Ok & H).
  apply bind_Ok in H as (raw & Hraw & H). apply bind_Ok in H as ([[[header payload] si] sig] & Hp & H).
  destruct (jget payload ($"iss")) as [| | | |[|ch iss]| | |] eqn:Ei; try done. apply bind_Ok in H as (? & _ & H).
  apply bind_Ok in H as (jwk & Hk%resolve_jose_key_Ok & H). apply bind_Ok in H as (claims & Hv & [= <-]).
  apply verify_status_list_token_Ok in Hv as (header' & instant & l' & _ & Hv & Ht & Hs & [= <-] & Hc).
  apply verify_compact_Ok in Hv as (si' & sig' & alg & Hp' & Ha & Hin & _ & Hver). rewrite Hp in Hp'. injection Hp' as <- <- <- <-.
  exists raw, header, payload, (ch :: iss), jwk, si, sig, alg. split_and!; try done; [by apply Hs|].
  intros p c u (d' & s & [= <-] & Hsi & _ & Ht')%enforce_status_issuer_Ok.
  destruct Hsi as [Hsi|(di & Hi & _)]; [|by rewrite Ei in Hi]. rewrite Ei in Hsi. by injection Hsi as ->.
Qed.
End sound.

Lemma default_status_list_sound_witness : exists obj raw credential policy r iss d,
  default_status_list_resolver example_rt example_did_resolver None (JInt 60) (fun _ => Ok ($"aA.cA.cw")) (Some ($"did:x")) example_clocks ($"https://x/1") = Ok obj /\
  Ok ($"aA.cA.cw") = Ok raw /\ as_credential example_rt raw = Ok credential /\ require_not_expired policy = true /\
  verify_credential example_rt policy (list_resolvers example_did_resolver None) None example_clocks None credential = Ok r /\
  issuer r = JStr iss /\ obj = JDict d /\ named_by d iss.
Proof.
  destruct (default_status_list_resolver example_rt example_did_resolver None (JInt 60) (fun _ => Ok ($"aA.cA.cw")) (Some ($"did:x")) example_clocks
    ($"https://x/1")) as [obj|e] eqn:E; [|vm_compute in E; discriminate E].
  pose proof (default_status_list_sound example_rt example_json_ok _ _ _ _ _ _ _ _ E) as H.
  destruct H as (raw & c & p & r & iss & d & H1 & H2 & H3 & H4 & H5 & H6 & _ & H8 & _).
  exists obj, raw, c, p, r, iss, d. repeat split; assumption.
Defined.

Definition token_rt_header : jobject := status_token_header ($"EdDSA") ($"did:x#k").
Definition token_rt : runtime :=
  {| rt_json := fun raw => if bool_decide (raw = [1]) then Ok (JDict token_rt_header)
                           else if bool_decide (raw = [2]) then Ok (JDict token_example_payload) else Err ValueError;
     rt_json_text := fun _ => Err ValueError;
     rt_ed25519 := fun _ _ _ => Some true; rt_ecdsa := fun _ _ _ _ _ => None; rt_mldsa := fun _ _ _ _ => Ok false;
     rt_point := fun _ _ => None; rt_float_repr := fun _ => []; rt_lower := fun s => s; rt_on_curve := fun _ _ => true;
     rt_from_jwk := fun _ => true; rt_pyjwt := fun _ _ _ _ _ _ => JwtInvalid;
     rt_space := fun _ => false; rt_decimal := fun _ => false; rt_fromisoformat := fun _ => None;
     rt_hash := fun _ _ => []; rt_processor := fun _ _ => Conforms;
     rt_gzip := stored_read; rt_zlib := stored_zlib;
     rt_urlparse := fun _ => Err ValueError; rt_urlunparse := fun a b => a ++ b;
     rt_json_std := fun _ => Err ValueError; rt_ld := no_json_ld; rt_bundled := []; rt_extra_contexts := [] |}.
Definition token_rt_resolver : DidResolver :=
  {| supports := None;
     resolve := fun did => Ok {| doc_id := did; raw := []; relationships := [];
       verification_methods := [{| vm_id := $"did:x#k"; vm_type := $"JsonWebKey2020"; controller := $"did:x"; public_key_jwk := [($"x", JStr ($"AA"))] |}] |} |}.

Lemma default_status_list_token_sound_witness : exists raw header claims iss jwk si sig alg,
    Ok ($"AQ.Ag.AA") = Ok raw /\ JDict token_example_payload = JDict claims /\
    parse_compact (rt_json token_rt) (strip (rt_space token_rt) raw) = Ok (header, claims, si, sig) /\
    jget claims ($"iss") = JStr iss /\ iss <> [] /\
    issuer_key token_rt (list_resolvers token_rt_resolver None) iss (jget header ($"kid")) jwk /\
    jget header ($"alg") = JStr alg /\ alg ∈ ALLOWED_ALGS /\ jget header ($"typ") = JStr STATUS_LIST_JWT_TYP /\
    Keys.verify_signature (rt_ed25519 token_rt) (rt_ecdsa token_rt) (rt_mldsa token_rt) alg (JDict jwk) si sig = Ok true /\
    jget claims ($"sub") = JStr ($"https://x/1") /\ check_jwt_temporal claims (JInt 60) (NInt 90) true = Ok false /\
    forall p c u, enforce_status_issuer p c ($"iss") (JDict token_example_payload) = Ok u -> iss = c \/ iss ∈ status_issuer_allowlist p.
Proof.
  apply (default_status_list_token_sound token_rt token_rt_resolver None (JInt 60) (fun _ => Ok ($"AQ.Ag.AA")) None (NInt 90) ($"https://x/1")).
  vm_compute. reflexivity.
Defined.
