(* ===== verification/VpJwt.v ===== *)
(** [openvc.proof.vp_jwt] (src/src/openvc/proof/vp_jwt.py): presentations signed by their holder,
    verified with every credential they embed. *)
From S2P Require Import Prelude Errors PyStr Json Base64 PyNum VerifyCommon VcJwt SdJwt SdIssue Did JwtVcIssuer Keys Verify VerifySound.

Definition VP_CONTEXT : pystr := $"https://www.w3.org/ns/credentials/v2".

Record VerifiedPresentation := {
  holder : pystr; vp_credentials : list VerificationResult; vp_claims : jobject; vp : jobject }.

(** [a or b]. *)
Definition py_or (a b : json) : json := if truthy a then a else b.

(** [claims.get("iss") or vp.get("holder")]. *)
Definition claimed_holder (claims : jobject) : json :=
  py_or (jget claims ($"iss")) (match jget claims ($"vp") with JDict vp => jget vp ($"holder") | _ => JNull end).

Definition holder_and_kid (header payload : jobject) : result (json * option pystr) :=
  kid ← match jget header ($"kid") with JNull => Ok None | JStr k => Ok (Some k) | _ => Err MalformedToken end;
  Ok (match claimed_holder payload with JStr s => JStr s | _ => JNull end, kid).

Definition peek_holder (json_loads : bytes -> result json) (vp_jwt : pystr) : result (json * option pystr) :=
  '(header, payload, _, _) ← parse_compact json_loads vp_jwt; holder_and_kid header payload.

(** * Presenting *)

Section signing.
Context (json_bytes : json -> result bytes).

(** [credentials] as JSON: tokens or objects. *)
Definition vp_sign {K} `{Signer K} (holder_key : K) (kid : pystr) (credentials : list json) (audience nonce : pystr)
    (holder : option pystr) (expires_in_s : option Z) (now : Z) : result pystr :=
  let holder_id := match holder with Some (c :: h) => c :: h | _ => before_fragment kid end in
  let vp := [($"@context", JList [JStr VP_CONTEXT]); ($"type", JList [JStr ($"VerifiablePresentation")]);
             ($"verifiableCredential", JList credentials); ($"holder", JStr holder_id)] in
  let payload := [($"iss", JStr holder_id); ($"aud", JStr audience); ($"nonce", JStr nonce);
                  ($"nbf", JInt now); ($"iat", JInt now); ($"vp", JDict vp)]
                 ++ match expires_in_s with Some n => [($"exp", JInt (now + n))] | None => [] end in
  raise_if (negb (bool_decide (signer_alg holder_key ∈ ALLOWED_ALGS))) UnsupportedAlgorithm;;
  sign_compact json_bytes (signer_sign holder_key)
    [($"alg", JStr (signer_alg holder_key)); ($"typ", JStr ($"JWT")); ($"kid", JStr kid)] payload.
End signing.

(** * Verifying *)

Section verify.
Context (rt : runtime).

Abbreviation keys_verify := (Keys.verify_signature (rt_ed25519 rt) (rt_ecdsa rt) (rt_mldsa rt)).

Definition resolve_holder_key (rs : resolvers) (header payload : jobject) : result jobject :=
  '(holder, kid) ← holder_and_kid header payload;
  match holder with
  | JStr ((_ :: _) as h) =>
      catch_as (fun e => isinstance e KeyResolutionFailed) ClaimsInvalid (resolve_jose_key rt rs h (kid_value kid))
  | _ => Err MalformedToken
  end.

(** The checks before any key is resolved. *)
Definition refuse_other_tokens (header payload : jobject) : result unit :=
  match allowed_alg (jget header ($"alg")) ALLOWED_ALGS with
  | None => Err UnsupportedAlgorithm
  | Some _ => reject_unknown_crit header;; reject_sd_jwt_typ (rt_lower rt) header;; reject_sd_jwt_payload payload
  end.

Definition vp_check_audience (aud : json) (expected : pystr) : result unit :=
  raise_if (negb (eq_str aud expected || match aud with JList l => existsb (fun v => eq_str v expected) l | _ => false end))
    ClaimsInvalid.

(** The holder the signed claims name, checked against the presentation and the caller. *)
Definition signed_holder (claims vp : jobject) (expected_holder : option pystr) : result pystr :=
  match py_or (jget claims ($"iss")) (jget vp ($"holder")) with
  | JStr ((_ :: _) as h) =>
      let claimed := jget vp ($"holder") in
      raise_if (truthy claimed && negb (eq_str claimed h)) ClaimsInvalid;;
      raise_if (match expected_holder with Some e => negb (bool_decide (h = e)) | None => false end) ClaimsInvalid;;
      Ok h
  | _ => Err ClaimsInvalid
  end.

(** [verifiableCredential]: absent, one credential, or an array. *)
Definition embedded (vp : jobject) : result (list json) :=
  match dget vp ($"verifiableCredential") with
  | None => Ok []
  | Some (JList l) => Ok l
  | Some (JStr s) => Ok [JStr s]
  | Some (JDict d) => Ok [JDict d]
  | Some _ => Err ClaimsInvalid
  end.

(** Each embedded credential, in order, at its own instant. *)
Definition verify_embedded (p : VerificationPolicy) (rs : resolvers) (fetch : option schema_fetch) (clk : nat -> clocks)
    (audience nonce : pystr) (entries : list json) : result (list VerificationResult) :=
  mapR (fun ic : nat * json => verify_credential rt p rs fetch (clk ic.1) (Some (JStr audience, JStr nonce)) ic.2)
    (imap (fun i c => (i, c)) entries).

(** [not result.subject or result.subject != holder]. *)
Definition not_subject (holder : pystr) (r : VerificationResult) : bool :=
  negb (truthy (subject r)) || negb (eq_str (subject r) holder).

Definition vp_verify (leeway : json) (vp_jwt audience nonce : pystr) (holder_key_jwk : option jobject)
    (expected_holder : option pystr) (require_holder_binding : bool) (p : VerificationPolicy) (rs : resolvers)
    (fetch : option schema_fetch) (clk : nat -> clocks) (clock : num) : result VerifiedPresentation :=
  leeway ← leeway_seconds leeway ProofError;
  raise_if (bool_decide (audience = []) || bool_decide (nonce = [])) ClaimsInvalid;;
  '(header_peek, payload_peek, _, _) ← parse_compact (rt_json rt) vp_jwt;
  refuse_other_tokens header_peek payload_peek;;
  jwk ← match holder_key_jwk with Some jwk => Ok jwk | None => resolve_holder_key rs header_peek payload_peek end;
  '(_, claims) ← verify_compact (rt_json rt) keys_verify vp_jwt (JDict jwk) ALLOWED_ALGS;
  check_jwt_temporal claims (JInt leeway) clock true;;
  vp_check_audience (jget claims ($"aud")) audience;;
  raise_if (negb (eq_str (jget claims ($"nonce")) nonce)) ClaimsInvalid;;
  match jget claims ($"vp") with
  | JDict vp =>
      holder ← signed_holder claims vp expected_holder;
      raise_if (require_holder_binding && match holder_key_jwk, expected_holder with Some _, None => true | _, _ => false end)
        ClaimsInvalid;;
      entries ← embedded vp;
      results ← verify_embedded p rs fetch clk audience nonce entries;
      raise_if (require_holder_binding && existsb (not_subject holder) results) ClaimsInvalid;;
      Ok {| holder := holder; vp_credentials := results; vp_claims := claims; vp := vp |}
  | _ => Err ClaimsInvalid
  end.

(** * What a verified presentation guarantees *)

Record vp_guarantee (leeway : json) (vp_jwt audience nonce : pystr) (holder_key_jwk : option jobject) (expected_holder : option pystr)
    (require_holder_binding : bool) (p : VerificationPolicy) (rs : resolvers) (fetch : option schema_fetch)
    (clk : nat -> clocks) (clock : num) (r : VerifiedPresentation) : Prop := {
  (** the claims are the token's, and its signature verifies under the holder's key *)
  vg_signed : exists header si sig jwk alg,
    parse_compact (rt_json rt) vp_jwt = Ok (header, vp_claims r, si, sig) /\
    jget header ($"alg") = JStr alg /\ alg ∈ ALLOWED_ALGS /\ dmem header ($"crit") = false /\
    not_sd_typ (rt_lower rt) header /\ has_marker (JDict (vp_claims r)) = false /\
    keys_verify alg (JDict jwk) si sig = Ok true /\
    (holder_key_jwk = Some jwk \/ holder_key_jwk = None /\ exists kid, issuer_key rt rs (holder r) kid jwk);
  (** bound to this verifier and this exchange, and neither may be empty *)
  vg_audience : audience <> [] /\ (jget (vp_claims r) ($"aud") = JStr audience \/
    exists l, jget (vp_claims r) ($"aud") = JList l /\ JStr audience ∈ l);
  vg_nonce : nonce <> [] /\ jget (vp_claims r) ($"nonce") = JStr nonce;
  (** its dates hold at the clock of the call *)
  vg_dates : exists l, leeway = JInt l /\ 0 <= l <= MAX_LEEWAY_S /\ jwt_window (vp_claims r) l clock false;
  vg_vp : jget (vp_claims r) ($"vp") = JDict (vp r);
  (** the holder is the signer's [iss], and the presentation claims no other *)
  vg_holder : holder r <> [] /\ claimed_holder (vp_claims r) = JStr (holder r) /\
    (truthy (jget (vp r) ($"holder")) = true -> jget (vp r) ($"holder") = JStr (holder r)) /\
    (forall e, expected_holder = Some e -> holder r = e);
  (** every embedded credential was verified, a nested KB-JWT against this exchange *)
  vg_credentials : exists entries, embedded (vp r) = Ok entries /\ length (vp_credentials r) = length entries /\
    forall i c v, entries !! i = Some c -> vp_credentials r !! i = Some v ->
      verify_credential rt p rs fetch (clk i) (Some (JStr audience, JStr nonce)) c = Ok v;
  vg_bound : require_holder_binding = true -> (holder_key_jwk = None \/ exists e, expected_holder = Some e) /\
    forall v, v ∈ vp_credentials r -> subject v = JStr (holder r) }.
End verify.

Lemma py_or_claimed claims vp' :
  jget claims ($"vp") = JDict vp' -> py_or (jget claims ($"iss")) (jget vp' ($"holder")) = claimed_holder claims.
Proof. unfold claimed_holder. by intros ->. Qed.

Lemma eq_str_in l s : existsb (fun v => eq_str v s) l = true -> JStr s ∈ l.
Proof. intros (v & Hv%list_elem_of_In & ->%eq_str_true)%existsb_exists. done. Qed.

Lemma vp_verify_guarantee rt leeway vp_jwt audience nonce holder_key_jwk expected_holder rhb p rs fetch clk clock r :
  vp_verify rt leeway vp_jwt audience nonce holder_key_jwk expected_holder rhb p rs fetch clk clock = Ok r ->
  vp_guarantee rt leeway vp_jwt audience nonce holder_key_jwk expected_holder rhb p rs fetch clk clock r.
Proof.
  unfold vp_verify. intros H. apply bind_Ok in H as (l & [-> _]%leeway_seconds_Ok & H). apply bind_Ok in H as (u & Hne%raise_if_Ok & H).
  apply orb_false_iff in Hne as [Hna%bool_decide_eq_false Hnn%bool_decide_eq_false].
  apply bind_Ok in H as ([[[hp pp] si] sig] & Hpeek & H). apply bind_Ok in H as (u1 & Href & H).
  apply bind_Ok in H as (jwk & Hjwk & H). apply bind_Ok in H as ([hd claims] & Hv%verify_compact_Ok & H).
  destruct Hv as (si' & sig' & alg & Hpc & Halg & Hin & Hcrit & Hsig). rewrite Hpeek in Hpc. apply Ok_inj in Hpc.
  injection Hpc as <- <- <- <-. apply bind_Ok in H as (u2 & Hdates & H). apply bind_Ok in H as (u3 & Haud & H).
  apply bind_Ok in H as (u4 & Hnonce%raise_if_Ok%negb_false_iff%eq_str_true & H).
  destruct (jget pp ($"vp")) as [| | | | | |vp'|] eqn:Evp; try done.
  apply bind_Ok in H as (h & Hh & H). apply bind_Ok in H as (u5 & Hpin%raise_if_Ok & H).
  apply bind_Ok in H as (entries & Hent & H). apply bind_Ok in H as (results & Hres & H).
  apply bind_Ok in H as (u6 & Hbound%raise_if_Ok & H). apply Ok_inj in H as <-.
  unfold refuse_other_tokens in Href. destruct (allowed_alg _ _); [|done].
  apply bind_Ok in Href as (u7 & _ & Href). apply bind_Ok in Href as ([] & Htyp%reject_sd_jwt_typ_Ok & Href).
  apply raise_if_Ok in Href. rewrite carries_spec in Href.
  unfold signed_holder in Hh. rewrite (py_or_claimed _ _ Evp) in Hh.
  destruct (claimed_holder pp) as [| | | |[|c0 h']| | |] eqn:Ech; try done.
  apply bind_Ok in Hh as (u8 & Hcl%raise_if_Ok & Hh). apply bind_Ok in Hh as (u9 & Hexp%raise_if_Ok & Hh). apply Ok_inj in Hh as <-.
  split; cbn [holder vp_credentials vp_claims vp]; try done.
  - exists hp, si, sig, jwk, alg. split_and!; try done. destruct holder_key_jwk as [j|]; [left; by apply Ok_inj in Hjwk as ->|right].
    split; [done|]. unfold resolve_holder_key, holder_and_kid in Hjwk. apply bind_Ok in Hjwk as ([hj kid] & Hhk & Hjwk).
    apply bind_Ok in Hhk as (k & _ & Hhk). apply Ok_inj in Hhk. rewrite Ech in Hhk. injection Hhk as <- <-.
    apply catch_as_Ok in Hjwk. exists (kid_value k). by apply resolve_jose_key_Ok in Hjwk.
  - split; [done|]. unfold vp_check_audience in Haud. apply raise_if_Ok, negb_false_iff, orb_true_iff in Haud as [Ha%eq_str_true|Ha]; [by left|right].
    destruct (jget pp ($"aud")) as [| | | | |la| |]; try done. exists la. split; [done|]. by apply eq_str_in.
  - apply check_jwt_temporal_Ok in Hdates as (l' & [= <-] & Hl & Hw & Ht). rewrite Ht in Hw by done. by exists l.
  - split_and!; [done..| |].
    + intros Ht. rewrite Ht in Hcl. by apply negb_false_iff, eq_str_true in Hcl.
    + intros e ->. by apply negb_false_iff, bool_decide_eq_true in Hexp.
  - exists entries. unfold verify_embedded in Hres. apply mapR_imap_Ok in Hres as [Hl Hres]. split; [done|]. split; [done|].
    intros i c v Hc Hv. by apply (Hres i c).
  - intros ->. split; [destruct holder_key_jwk, expected_holder; try (by left); right; by eexists|].
    intros v Hv. apply not_true_iff_false in Hbound. destruct (not_subject (c0 :: h') v) eqn:En.
    { exfalso. apply Hbound. cbn [andb]. apply existsb_exists. exists v. by split; [apply list_elem_of_In|]. }
    unfold not_subject in En. by apply orb_false_iff in En as [_ En%negb_false_iff%eq_str_true].
Qed.

(** C24: What a verified presentation guarantees.  When the VP-JWT suite returns, the token is
    no SD-JWT, its signature verifies under an allowed algorithm and a key resolved for the
    holder it reports (or the key the caller pinned), it is addressed to this verifier and
    carries this nonce, the presentation names no other holder, every embedded credential was
    verified in order with any nested key binding held to this exchange, and when binding is
    required the holder is authenticated and is every credential's subject. *)
Theorem vp_verify_sound rt leeway vp_jwt audience nonce holder_key_jwk expected_holder rhb p rs fetch clk clock r :
  vp_verify rt leeway vp_jwt audience nonce holder_key_jwk expected_holder rhb p rs fetch clk clock = Ok r ->
  vp_guarantee rt leeway vp_jwt audience nonce holder_key_jwk expected_holder rhb p rs fetch clk clock r.
Proof. apply vp_verify_guarantee. Qed.

(** The world of [VerifySound] with one more token: [ag.aQ.cw] presents the envelope there. *)
Definition vp_loads (b : bytes) : result json :=
  if bool_decide (b = [106]) then Ok (JDict [($"alg", JStr ($"EdDSA"))])
  else if bool_decide (b = [105]) then
    Ok (JDict [($"iss", JStr ($"did:x")); ($"aud", JStr ($"me")); ($"nonce", JStr ($"n"));
               ($"vp", JDict [($"verifiableCredential", example_envelope)])])
  else example_loads b.
Definition vp_rt : runtime :=
  {| rt_json := vp_loads; rt_json_text := rt_json_text example_rt;
     rt_ed25519 := fun _ _ _ => Some true; rt_ecdsa := rt_ecdsa example_rt; rt_mldsa := rt_mldsa example_rt;
     rt_point := rt_point example_rt; rt_float_repr := rt_float_repr example_rt; rt_lower := fun s => s;
     rt_on_curve := fun _ _ => true; rt_from_jwk := fun _ => true;
     rt_pyjwt := rt_pyjwt example_rt; rt_space := fun _ => false; rt_decimal := fun _ => false; rt_fromisoformat := rt_fromisoformat example_rt;
     rt_hash := fun _ _ => []; rt_processor := rt_processor example_rt; rt_gzip := rt_gzip example_rt; rt_zlib := rt_zlib example_rt;
     rt_urlparse := rt_urlparse example_rt; rt_urlunparse := fun a b => a ++ b;
     rt_json_std := rt_json_std example_rt; rt_ld := rt_ld example_rt; rt_bundled := []; rt_extra_contexts := [] |}.
Definition vp_resolvers : resolvers :=
  {| did_resolver := {| supports := None;
       resolve := fun did => Ok {| doc_id := did; verification_methods :=
         [{| vm_id := $"did:x#k"; vm_type := $"JsonWebKey2020"; controller := $"did:x";
             public_key_jwk := [($"kty", JStr ($"EC")); ($"crv", JStr ($"P-256")); ($"x", JStr ($"AA"))] |}];
         raw := []; relationships := [] |} |};
     status_list := None; status_list_token := None; issuer_fetch := None; x5c_key := None |}.

Abbreviation vp_example := (vp_verify vp_rt (JInt 60) ($"ag.aQ.cw") ($"me") ($"n") None None false default_policy
  vp_resolvers None (fun _ => example_clocks) (NInt 0)).

Lemma vp_example_Ok : exists r, vp_example = Ok r.
Proof.
  assert (is_ok vp_example = true) as H by (vm_compute; reflexivity).
  destruct vp_example as [r|]; [by exists r|discriminate H].
Qed.

Lemma vp_verify_sound_witness : exists r, vp_example = Ok r /\
  vp_guarantee vp_rt (JInt 60) ($"ag.aQ.cw") ($"me") ($"n") None None false default_policy vp_resolvers None (fun _ => example_clocks) (NInt 0) r.
Proof.
  destruct vp_example_Ok as [r H]. exists r. split; [exact H|]. exact (vp_verify_sound _ _ _ _ _ _ _ _ _ _ _ _ _ _ H).
Defined.
