(* ===== verification/Dcql.v ===== *)
(** The DCQL query of an OpenID4VP request and the shape of the response that answers it
    (src/src/openvc/openid4vp.py, the [_index_dcql], [_check_*] and [_*_values] functions):
    which queries there are, which must be answered, and what type each one asks for. *)
From S2P Require Import Prelude Errors Json.

Definition FORMAT_SD_JWT_VC : pystr := $"dc+sd-jwt".
Definition FORMAT_JWT_VC : pystr := $"jwt_vc_json".
Definition FORMAT_LDP_VC : pystr := $"ldp_vc".
Definition FORMAT_MSO_MDOC : pystr := $"mso_mdoc".

(** [isinstance(d.get(key, default), bool)]. *)
Definition bool_member (d : jobject) (key : pystr) (absent : bool) : option bool :=
  match dget d key with
  | None => Some absent
  | Some (JBool b) => Some b
  | Some _ => None
  end.

(** * Type constraints *)

Definition dcql_meta (query : jobject) : result jobject :=
  match dget query ($"meta") with
  | None => Ok []
  | Some (JDict meta) => Ok meta
  | Some _ => Err VpTokenMalformed
  end.

(** All the items, when each one is a string. *)
Fixpoint strings (l : list json) : option (list pystr) :=
  match l with
  | [] => Some []
  | JStr s :: l => ss ← strings l; Some (s :: ss)
  | _ :: _ => None
  end.

Definition vct_values (query : jobject) : result (option (list pystr)) :=
  meta ← dcql_meta query;
  match dget meta ($"vct_values") with
  | None => Ok None
  | Some (JList ((_ :: _) as l)) => match strings l with Some vs => Ok (Some vs) | None => Err VpTokenMalformed end
  | Some _ => Err VpTokenMalformed
  end.

(** One alternative of [type_values]: a non-empty array of non-empty strings. *)
Definition alternative (v : json) : option (list pystr) :=
  match v with
  | JList ((_ :: _) as l) => ts ← strings l; if bool_decide ([] ∈ ts) then None else Some ts
  | _ => None
  end.

Definition type_values (query : jobject) : result (option (list (list pystr))) :=
  meta ← dcql_meta query;
  match dget meta ($"type_values") with
  | None => Ok None
  | Some (JList ((_ :: _) as l)) => match mapM alternative l with Some alts => Ok (Some alts) | None => Err VpTokenMalformed end
  | Some _ => Err VpTokenMalformed
  end.

Definition mdoc_doctype_value (query : jobject) : result (option pystr) :=
  meta ← dcql_meta query;
  match dget meta ($"doctype_value") with
  | None => Ok None
  | Some (JStr ((_ :: _) as s)) => Ok (Some s)
  | Some _ => Err VpTokenMalformed
  end.

Definition check_constraint (query : jobject) (fmt : pystr) : result unit :=
  if bool_decide (fmt = FORMAT_SD_JWT_VC) then vct_values query;; Ok tt
  else if bool_decide (fmt = FORMAT_MSO_MDOC) then mdoc_doctype_value query;; Ok tt
  else if bool_decide (fmt ∈ [FORMAT_JWT_VC; FORMAT_LDP_VC]) then type_values query;; Ok tt
  else Ok tt.

(** * The queries *)

Definition index_entry (queries : list (pystr * jobject)) (entry : json) : result (list (pystr * jobject)) :=
  match entry with
  | JDict entry =>
      match jget entry ($"id") with
      | JStr ((_ :: _) as query_id) =>
          match jget entry ($"format") with
          | JStr ((_ :: _) as fmt) =>
              raise_if (dmem queries query_id) VpTokenMalformed;;
              raise_if (bool_decide (bool_member entry ($"require_cryptographic_holder_binding") true = None)) VpTokenMalformed;;
              raise_if (bool_decide (bool_member entry ($"multiple") false = None)) VpTokenMalformed;;
              check_constraint entry fmt;;
              Ok (dset queries query_id entry)
          | _ => Err VpTokenMalformed
          end
      | _ => Err VpTokenMalformed
      end
  | _ => Err VpTokenMalformed
  end.

(** A credential set: a non-empty array of non-empty arrays of ids of the query. *)
Definition check_query_id (queries : list (pystr * jobject)) (query_id : json) : result unit :=
  match query_id with
  | JStr query_id => raise_if (negb (dmem queries query_id)) VpTokenMalformed
  | _ => Err VpTokenMalformed
  end.

Definition check_option (queries : list (pystr * jobject)) (option : json) : result unit :=
  match option with
  | JList ((_ :: _) as ids) => foldR (fun _ => check_query_id queries) tt ids
  | _ => Err VpTokenMalformed
  end.

Definition check_credential_set (queries : list (pystr * jobject)) (entry : json) : result unit :=
  match entry with
  | JDict entry =>
      match jget entry ($"options") with
      | JList ((_ :: _) as options) =>
          foldR (fun _ => check_option queries) tt options;;
          raise_if (bool_decide (bool_member entry ($"required") true = None)) VpTokenMalformed
      | _ => Err VpTokenMalformed
      end
  | _ => Err VpTokenMalformed
  end.

Definition check_credential_sets (queries : list (pystr * jobject)) (value : json) : result unit :=
  match value with
  | JList ((_ :: _) as sets) => foldR (fun _ => check_credential_set queries) tt sets
  | _ => Err VpTokenMalformed
  end.

Definition index_dcql (dcql_query : json) : result (list (pystr * jobject)) :=
  match dcql_query with
  | JDict dcql =>
      match jget dcql ($"credentials") with
      | JList ((_ :: _) as credentials) =>
          queries ← foldR index_entry [] credentials;
          match dget dcql ($"credential_sets") with
          | None => Ok queries
          | Some value => check_credential_sets queries value;; Ok queries
          end
      | _ => Err VpTokenMalformed
      end
  | _ => Err VpTokenMalformed
  end.

(** * Completeness *)

(** [any(qid not in token for qid in option)].  The shape was checked by [index_dcql]: what no
    other shape meets is a [TypeError]. *)
Definition option_lacks (token : jobject) (option : json) : result bool :=
  match option with
  | JList ids =>
      missing ← mapR (fun id => match id with JStr query_id => Ok (negb (dmem token query_id)) | _ => Err TypeError end) ids;
      Ok (existsb Datatypes.id missing)
  | _ => Err TypeError
  end.

Definition check_set (token : jobject) (entry : json) : result unit :=
  match entry with
  | JDict entry =>
      if negb (truthy (default (JBool true) (dget entry ($"required")))) then Ok tt
      else match dget entry ($"options") with
           | Some (JList options) =>
               lacking ← mapR (option_lacks token) options;
               raise_if (forallb Datatypes.id lacking) VpTokenIncomplete
           | _ => Err TypeError
           end
  | _ => Err TypeError
  end.

Definition check_completeness (token : jobject) (queries : list (pystr * jobject)) (dcql : jobject) : result unit :=
  match dget dcql ($"credential_sets") with
  | None => raise_if (existsb (fun query_id => negb (dmem token query_id)) queries.*1) VpTokenIncomplete
  | Some (JList sets) => foldR (fun _ => check_set token) tt sets
  | Some _ => Err TypeError
  end.

Definition presentation_list (query : jobject) (value : json) : result (list json) :=
  match value with
  | JList ((_ :: _) as l) =>
      raise_if (negb (truthy (default (JBool false) (dget query ($"multiple")))) && negb (length l =? 1)%nat) VpTokenMalformed;;
      Ok l
  | _ => Err VpTokenMalformed
  end.

(** * What indexing establishes *)

(** A query as the rest of the verifier reads it: identified, with a format, boolean flags and
    a constraint of the shape its format asks for. *)
Record query_ok (query_id : pystr) (query : jobject) : Prop := {
  qo_id : jget query ($"id") = JStr query_id /\ query_id <> [];
  qo_format : exists fmt, jget query ($"format") = JStr fmt /\ fmt <> [] /\ check_constraint query fmt = Ok tt;
  qo_binding : exists b, bool_member query ($"require_cryptographic_holder_binding") true = Some b;
  qo_multiple : exists b, bool_member query ($"multiple") false = Some b }.

Definition queries_ok (queries : list (pystr * jobject)) : Prop :=
  dict_ok queries /\ Forall (fun kv => query_ok kv.1 kv.2) queries.

(** A credential set likewise: its options name queries. *)
Definition option_ok (queries : list (pystr * jobject)) (option : json) : Prop :=
  exists ids, option = JList ids /\ ids <> [] /\ Forall (fun id => exists query_id, id = JStr query_id /\ query_id ∈ queries.*1) ids.

Definition set_ok (queries : list (pystr * jobject)) (entry : json) : Prop :=
  exists e options b, entry = JDict e /\ dget e ($"options") = Some (JList options) /\ options <> [] /\
    Forall (option_ok queries) options /\ bool_member e ($"required") true = Some b.

Definition sets_ok (queries : list (pystr * jobject)) (dcql : jobject) : Prop :=
  match dget dcql ($"credential_sets") with
  | None => True
  | Some v => exists sets, v = JList sets /\ sets <> [] /\ Forall (set_ok queries) sets
  end.

Lemma not_None_Some {A} (o : option A) : bool_decide (o = None) = false -> exists a, o = Some a.
Proof. intros H%bool_decide_eq_false. destruct o; [by eexists|done]. Qed.

Lemma index_entry_Ok queries entry queries' :
  index_entry queries entry = Ok queries' -> queries_ok queries ->
  queries_ok queries' /\ exists query_id e, entry = JDict e /\ queries' = queries ++ [(query_id, e)].
Proof.
  unfold index_entry. intros H [Hd Hf]. destruct entry as [| | | | | |e|]; try done.
  destruct (jget e ($"id")) as [| | | |[|c qid]| | |] eqn:Eid; try done.
  destruct (jget e ($"format")) as [| | | |[|c' fmt]| | |] eqn:Efmt; try done.
  apply bind_Ok in H as (u & Hnew%raise_if_Ok & H). apply bind_Ok in H as (u1 & Hb%raise_if_Ok%not_None_Some & H).
  apply bind_Ok in H as (u2 & Hm%raise_if_Ok%not_None_Some & H). apply bind_Ok in H as ([] & Hc & H). apply Ok_inj in H as <-.
  assert ((c :: qid) ∉ queries.*1) as Hni by (intros Hin%dmem_spec; congruence).
  rewrite dset_new by done. split; [|by eexists _, _]. split.
  - rewrite <-dset_new by done. by apply dset_ok.
  - apply Forall_app; split; [done|]. constructor; [|constructor]. split; [done| |done..]. by exists (c' :: fmt).
Qed.

Lemma index_entries_Ok l queries queries' :
  foldR index_entry queries l = Ok queries' -> queries_ok queries ->
  queries_ok queries' /\ exists new, queries' = queries ++ new /\ l = map JDict new.*2.
Proof.
  revert queries. induction l as [|entry l IH]; intros queries H Hok; cbn [foldR] in H.
  { apply Ok_inj in H as <-. split; [done|]. exists []. by rewrite app_nil_r. }
  apply bind_Ok in H as (q1 & Hq & H). apply index_entry_Ok in Hq as [Hq (qid & e & -> & ->)]; [|done].
  apply IH in H as [Hok' (new & -> & ->)]; [|done]. split; [done|]. exists ((qid, e) :: new). by rewrite <-app_assoc.
Qed.

(** A loop of checks passes when every item does. *)
Lemma foldR_checks {A} (f : A -> result unit) l : foldR (fun _ => f) tt l = Ok tt <-> Forall (fun x => f x = Ok tt) l.
Proof.
  induction l as [|x l IH]; [split; [constructor|done]|]. cbn [foldR]. rewrite bind_Ok, Forall_cons, <-IH.
  split; [intros ([] & Hx & H)|intros [Hx H]; exists tt]; done.
Qed.

Lemma check_option_Ok queries option : check_option queries option = Ok tt -> option_ok queries option.
Proof.
  unfold check_option, option_ok. destruct option as [| | | | |[|i ids]| |]; try done. intros H%foldR_checks.
  exists (i :: ids). split; [done|]. split; [done|]. eapply Forall_impl; [exact H|]. intros id Hid.
  destruct id as [| | | |s| | |]; try done. exists s. split; [done|].
  by apply raise_if_Ok, negb_false_iff, dmem_spec in Hid.
Qed.

Lemma check_credential_set_Ok queries entry : check_credential_set queries entry = Ok tt -> set_ok queries entry.
Proof.
  unfold check_credential_set, set_ok. destruct entry as [| | | | | |e|]; try done.
  destruct (jget e ($"options")) as [| | | | |[|o os]| |] eqn:Eo; try done. intros H.
  apply bind_Ok in H as ([] & Ho%foldR_checks & (b & Hb)%raise_if_Ok%not_None_Some). exists e, (o :: os), b.
  split_and!; [done|by apply jget_Some|done| |done]. eapply Forall_impl; [exact Ho|]. apply check_option_Ok.
Qed.

Lemma index_dcql_Ok dcql_query queries :
  index_dcql dcql_query = Ok queries ->
  exists dcql, dcql_query = JDict dcql /\ queries <> [] /\ queries_ok queries /\ sets_ok queries dcql /\
    jget dcql ($"credentials") = JList (map JDict queries.*2).
Proof.
  unfold index_dcql. destruct dcql_query as [| | | | | |dcql|]; try done.
  destruct (jget dcql ($"credentials")) as [| | | | |[|c cs]| |] eqn:Ec; try done. intros H.
  apply bind_Ok in H as (qs & Hq & H). apply index_entries_Ok in Hq as [Hok (new & -> & Hnew)];
    [|split; [apply NoDup_nil_2|constructor]]. cbn [app] in *. exists dcql. split; [done|].
  unfold sets_ok. destruct (dget dcql _) as [v|].
  - apply bind_Ok in H as ([] & Hs & H). apply Ok_inj in H as <-.
    split; [by intros ->|]. split; [done|]. split; [|congruence]. unfold check_credential_sets in Hs.
    destruct v as [| | | | |[|s ss]| |]; try done. apply foldR_checks in Hs. exists (s :: ss). split; [done|]. split; [done|].
    eapply Forall_impl; [exact Hs|]. apply check_credential_set_Ok.
  - apply Ok_inj in H as <-. split; [by intros ->|]. split; [done|]. split; [done|congruence].
Qed.

Lemma constraint_errs query fmt : errs_in (eq VpTokenMalformed) (check_constraint query fmt).
Proof.
  unfold check_constraint, vct_values, mdoc_doctype_value, type_values, dcql_meta. solve_errs.
Qed.

Lemma index_dcql_errs dcql_query : errs_in (eq VpTokenMalformed) (index_dcql dcql_query).
Proof.
  unfold index_dcql, check_credential_sets. destruct dcql_query; try (by apply errs_in_Err).
  destruct (jget d _) as [| | | | |[|c cs]| |]; try (by apply errs_in_Err). apply errs_in_bind.
  - apply foldR_errs_in. intros qs e _. unfold index_entry. pose proof constraint_errs. solve_errs.
  - intros qs _. destruct (dget d _) as [v|]; [|apply errs_in_Ok]. apply errs_in_bind; [|intros; apply errs_in_Ok].
    destruct v as [| | | | |[|s ss]| |]; try (by apply errs_in_Err). apply foldR_errs_in. intros u x _.
    unfold check_credential_set. destruct x as [| | | | | |e|]; try (by apply errs_in_Err).
    destruct (jget e _) as [| | | | |[|o os]| |]; try (by apply errs_in_Err).
    apply errs_in_bind; [|intros; by apply errs_in_raise_if]. apply foldR_errs_in. intros u' o' _.
    unfold check_option. destruct o' as [| | | | |[|i is']| |]; try (by apply errs_in_Err).
    apply foldR_errs_in. intros. unfold check_query_id. solve_errs.
Qed.

(** * Completeness decided *)

(** Every id of the option is a key of the response. *)
Definition option_answered (token : jobject) (option : json) : Prop :=
  exists ids, option = JList ids /\ forall query_id, JStr query_id ∈ ids -> query_id ∈ token.*1.

(** A required set has an option answered in full; one marked [false] may have none. *)
Definition set_satisfied (token : jobject) (entry : json) : Prop :=
  exists e options, entry = JDict e /\ dget e ($"options") = Some (JList options) /\
    (dget e ($"required") = Some (JBool false) \/ exists option, option ∈ options /\ option_answered token option).

(** OpenID4VP 1.0 §6.4.2: with no credential sets every query is required. *)
Definition answers (token : jobject) (queries : list (pystr * jobject)) (dcql : jobject) : Prop :=
  match dget dcql ($"credential_sets") with
  | None => forall query_id, query_id ∈ queries.*1 -> query_id ∈ token.*1
  | Some (JList sets) => Forall (set_satisfied token) sets
  | Some _ => False
  end.

Lemma dmem_negb (d : jobject) k : negb (dmem d k) = false <-> k ∈ d.*1.
Proof. rewrite negb_false_iff. apply dmem_spec. Qed.

Lemma option_lacks_spec queries token option :
  option_ok queries option -> exists b, option_lacks token option = Ok b /\ (b = false <-> option_answered token option).
Proof.
  intros (ids & -> & _ & Hids). cbn [option_lacks].
  assert (exists ms, mapR (fun id => match id with JStr q => Ok (negb (dmem token q)) | _ => Err TypeError end) ids = Ok ms /\
    (existsb Datatypes.id ms = false <-> forall q, JStr q ∈ ids -> q ∈ token.*1)) as (ms & Hms & Hiff).
  { induction Hids as [|id ids (q & -> & _) _ (ms & Hms & IH)]; cbn [mapR].
    - exists []. split; [done|]. split; [|done]. intros _ q Hq. by apply not_elem_of_nil in Hq.
    - cbn [mbind result_bind]. rewrite Hms. cbn [mbind result_bind]. eexists. split; [done|]. cbn [existsb Datatypes.id].
      rewrite orb_false_iff, IH, dmem_negb. split.
      + intros [H0 H1] q' [[= ->]|Hq']%elem_of_cons; auto.
      + intros H. split; [apply H; left|]. intros q' Hq'. apply H. by right. }
  rewrite Hms. cbn [mbind result_bind]. eexists. split; [done|]. rewrite Hiff. unfold option_answered.
  split; [intros H; by exists ids|]. by intros (ids' & [= <-] & H).
Qed.

Lemma options_lacking queries token options :
  Forall (option_ok queries) options ->
  exists bs, mapR (option_lacks token) options = Ok bs /\
    (forallb Datatypes.id bs = false <-> exists option, option ∈ options /\ option_answered token option).
Proof.
  induction 1 as [|o os Ho _ (bs & Hbs & IH)]; cbn [mapR].
  { exists []. split; [done|]. split; [done|]. intros (o & Ho & _). by apply not_elem_of_nil in Ho. }
  destruct (option_lacks_spec _ token _ Ho) as (b & -> & Hb). cbn [mbind result_bind]. rewrite Hbs. cbn [mbind result_bind].
  eexists. split; [done|]. cbn [forallb Datatypes.id]. rewrite andb_false_iff, IH, Hb. split.
  - intros [?|(o' & ? & ?)]; [exists o|exists o']; split; try done; [left|by right].
  - intros (o' & [->|?]%elem_of_cons & ?); [by left|right; by exists o'].
Qed.

Lemma check_set_spec queries token entry :
  set_ok queries entry -> (check_set token entry = Ok tt <-> set_satisfied token entry) /\ errs_in (eq VpTokenIncomplete) (check_set token entry).
Proof.
  intros (e & options & b & -> & Ho & _ & Hos & Hreq). unfold check_set, set_satisfied.
  destruct (options_lacking _ token _ Hos) as (bs & Hbs & Hiff).
  assert (negb (truthy (default (JBool true) (dget e ($"required")))) = negb b /\ (b = false <-> dget e ($"required") = Some (JBool false))) as [-> Hb].
  { unfold bool_member in Hreq. destruct (dget e ($"required")) as [[]|]; try done; injection Hreq as <-; cbn; split; try done; split; congruence. }
  destruct b; cbn [negb].
  - rewrite Ho, Hbs. cbn [mbind result_bind]. split.
    + rewrite raise_if_Ok, Hiff. split.
      * intros H. exists e, options. split; [done|]. split; [done|]. by right.
      * intros (e' & options' & [= <-] & Ho' & [Hf|H]); [by apply Hb in Hf|]. rewrite Ho in Ho'. by injection Ho' as <-.
    + by apply errs_in_raise_if.
  - split; [|apply errs_in_Ok]. split; [|done]. intros _. exists e, options. split; [done|]. split; [done|]. left. by apply Hb.
Qed.

Lemma check_completeness_spec token queries dcql :
  sets_ok queries dcql ->
  (check_completeness token queries dcql = Ok tt <-> answers token queries dcql) /\
  errs_in (eq VpTokenIncomplete) (check_completeness token queries dcql).
Proof.
  unfold sets_ok, check_completeness, answers. destruct (dget dcql _) as [v|].
  - intros (sets & -> & _ & Hs). split.
    + rewrite foldR_checks. clear -Hs. induction Hs as [|s ss Hs _ IH]; [done|]. rewrite !Forall_cons, IH.
      by rewrite (proj1 (check_set_spec _ token _ Hs)).
    + apply foldR_errs_in. intros [] s Hin. rewrite Forall_forall in Hs. by eapply check_set_spec, Hs.
  - intros _. split; [|by apply errs_in_raise_if]. rewrite raise_if_Ok, existsb_false_Forall, Forall_forall.
    by setoid_rewrite dmem_negb.
Qed.

(** C38: An indexed DCQL query is well typed, and nothing else is raised on a malformed one.
    [index_dcql] fails only with [VpTokenMalformed]; when it returns, the queries are exactly
    the entries of [credentials], in order and with distinct ids, each with a format, boolean
    flags and a type constraint of the right shape, and every credential set names only them. *)
Theorem dcql_well_typed dcql_query :
  errs_in (eq VpTokenMalformed) (index_dcql dcql_query) /\
  forall queries, index_dcql dcql_query = Ok queries ->
    exists dcql, dcql_query = JDict dcql /\ queries <> [] /\ queries_ok queries /\ sets_ok queries dcql /\
      jget dcql ($"credentials") = JList (map JDict queries.*2).
Proof. split; [apply index_dcql_errs|apply index_dcql_Ok]. Qed.

(** C37: The completeness check decides exactly what OpenID4VP requires of a response.  On an
    indexed query it accepts a response if and only if every query is answered or, when there
    are credential sets, every set that is not marked optional has an option all of whose ids
    are answered; and the only failure is [VpTokenIncomplete]. *)
Theorem completeness_decides token queries dcql (H : index_dcql (JDict dcql) = Ok queries) :
  (check_completeness token queries dcql = Ok tt <-> answers token queries dcql) /\
  errs_in (eq VpTokenIncomplete) (check_completeness token queries dcql).
Proof.
  apply index_dcql_Ok in H as (d & [= <-] & _ & _ & Hs & _). by apply check_completeness_spec.
Qed.

(** Two queries, either of which is enough. *)
Definition example_query (query_id fmt : pystr) : json := JDict [($"id", JStr query_id); ($"format", JStr fmt)].
Definition example_dcql : jobject :=
  [($"credentials", JList [example_query ($"pid") FORMAT_SD_JWT_VC; example_query ($"mdl") FORMAT_MSO_MDOC]);
   ($"credential_sets", JList [JDict [($"options", JList [JList [JStr ($"pid")]; JList [JStr ($"mdl")]])]])].

Lemma completeness_decides_witness :
  answers [($"mdl", JList [])] (map (fun q => match q with JDict e => (match jget e ($"id") with JStr s => s | _ => [] end, e) | _ => ([], []) end)
    [example_query ($"pid") FORMAT_SD_JWT_VC; example_query ($"mdl") FORMAT_MSO_MDOC]) example_dcql.
Proof.
  apply (completeness_decides [($"mdl", JList [])]); vm_compute; reflexivity.
Defined.
