(* ===== verification/OpenId4Vp.v ===== *)
(** [openvc.openid4vp] (src/src/openvc/openid4vp.py): verification of the [vp_token] a wallet
    answers a DCQL query with.  [Dcql] holds the query; here are the routing of each
    presentation, the lane of each format, and the whole response.

    JSON-LD expansion is a parameter, as is whether its library is installed. *)
From S2P Require Import Prelude Errors PyStr Base64 Json Cbor PyNum VerifyCommon VcJwt SdJwt Did Keys DataIntegrity X5c Cose Mdoc Jwe Verify VerifySound VpJwt Dcql.

Definition LDP_VP_CRYPTOSUITES : list pystr :=
  [$"eddsa-rdfc-2022"; $"eddsa-jcs-2022"; $"ecdsa-rdfc-2019"; $"ecdsa-jcs-2019"].

(** * The audience *)

Section audience.
Context (is_space : Z -> bool).

(** [isinstance(o, str) and o and o == o.strip()]. *)
Definition origin_ok (o : json) : bool :=
  match o with JStr o => negb (bool_decide (o = [])) && bool_decide (strip is_space o = o) | _ => false end.

(** The accepted [origin:] audiences of the Digital Credentials API flow. *)
Definition dc_api_accepted_auds (client_id : option pystr) (expected_origins : option json) : result (option (list pystr)) :=
  match client_id, expected_origins with
  | None, Some (JList ((_ :: _) as origins)) =>
      raise_if (negb (forallb origin_ok origins)) ClaimsInvalid;;
      Ok (Some (map (fun o => $"origin:" ++ o) (omap as_str origins)))
  | Some ((_ :: _) as c), None => Ok None
  | _, _ => Err ClaimsInvalid
  end.
End audience.

Section peek.
Context (json_loads : bytes -> result json).

(** [seq[i]] of a list. *)
Definition nth_segment (l : list pystr) (i : nat) : result pystr :=
  match l !! i with Some s => Ok s | None => Err IndexError end.

Definition b64url_json (segment : pystr) : result jobject :=
  raw ← b64url_decode segment; v ← json_loads raw; Ok (match v with JDict d => d | _ => [] end).

Definition unverified_audience (fmt : pystr) (presentation : json) : result json :=
  match presentation with
  | JStr s =>
      if bool_decide (fmt = FORMAT_SD_JWT_VC) then
        match default [] (last (split_on 126 s)) with
        | [] => Ok JNull
        | kb => segment ← nth_segment (split_on 46 kb) 1; d ← b64url_json segment; Ok (jget d ($"aud"))
        end
      else if bool_decide (fmt = FORMAT_JWT_VC) then
        segment ← nth_segment (split_on 46 s) 1; d ← b64url_json segment; Ok (jget d ($"aud"))
      else Ok JNull
  | JDict d =>
      if bool_decide (fmt = FORMAT_LDP_VC) then
        let proof := match jget d ($"proof") with JList (p :: _) => p | p => p end in
        Ok (match proof with JDict p => jget p ($"domain") | _ => JNull end)
      else Ok JNull
  | _ => Ok JNull
  end.

Definition peek_audience (fmt : pystr) (presentation : json) : result json :=
  match unverified_audience fmt presentation with
  | Err e => if isinstance e ValueError || isinstance e KeyError || isinstance e IndexError || isinstance e TypeError
                || isinstance e RecursionError then Ok JNull else Err e
  | Ok aud => Ok aud
  end.

(** The first candidate that is accepted. *)
Fixpoint first_accepted (accepted_auds : list pystr) (candidates : list json) : option pystr :=
  match candidates with
  | [] => None
  | JStr s :: candidates => if bool_decide (s ∈ accepted_auds) then Some s else first_accepted accepted_auds candidates
  | _ :: candidates => first_accepted accepted_auds candidates
  end.

Definition effective_audience (fmt : pystr) (presentation : json) (client_id : option pystr) (accepted_auds : option (list pystr))
    : result pystr :=
  match client_id, accepted_auds with
  | Some c, _ => Ok c
  | None, None => Err AssertionError
  | None, Some accepted =>
      aud ← peek_audience fmt presentation;
      match first_accepted accepted (match aud with JList l => l | v => [v] end) with
      | Some a => Ok a
      | None => Err ClaimsInvalid
      end
  end.

(** * The shape of a W3C answer *)

Inductive shape := SHAPE_VP | SHAPE_VC.

#[export] Instance shape_eq_dec : EqDecision shape.
Proof. solve_decision. Defined.

Definition peek_jws (value : json) : result (option (jobject * jobject)) :=
  match value with
  | JStr s =>
      if bool_decide (126 ∈ s) then Ok None
      else match split_on 46 s with
           | [h; p; _] =>
               match (hb ← b64url_decode h; header ← json_loads hb; pb ← b64url_decode p; payload ← json_loads pb; Ok (header, payload)) with
               | Ok (JDict header, JDict payload) => Ok (Some (header, payload))
               | Ok _ => Ok None
               | Err e => if isinstance e ValueError || isinstance e TypeError || isinstance e RecursionError then Ok None else Err e
               end
           | _ => Ok None
           end
  | _ => Ok None
  end.

Context (lower : pystr -> pystr).

Definition jwt_typ_kind (header : jobject) : option shape :=
  match jget header ($"typ") with
  | JStr typ =>
      let media := lower typ in
      let media := if startswith media ($"application/") then drop (length ($"application/")) media else media in
      dget [($"vc+jwt", SHAPE_VC); ($"vp+jwt", SHAPE_VP)] media
  | _ => None
  end.

Definition jwt_shape (presentation : json) : result shape :=
  peeked ← peek_jws presentation;
  match peeked with
  | None => Ok SHAPE_VP
  | Some (header, payload) =>
      let has_vp := dmem payload ($"vp") in
      let has_vc := dmem payload ($"vc") in
      raise_if (has_vp && has_vc) VpTokenMalformed;;
      if negb has_vp && negb (is_dict (jget payload ($"vc"))) then Ok SHAPE_VP
      else
        let shape := if has_vp then SHAPE_VP else SHAPE_VC in
        raise_if (match jwt_typ_kind header with Some typed => negb (bool_decide (typed = shape)) | None => false end) VpTokenMalformed;;
        Ok shape
  end.

Definition type_list (d : jobject) : list json :=
  match jget d ($"type") with JStr t => [JStr t] | JList l => l | _ => [] end.

Definition has_type (d : jobject) (t : pystr) : bool := existsb (fun v => eq_str v t) (type_list d).

Definition ldp_shape (presentation : json) : result shape :=
  match presentation with
  | JDict d =>
      let is_vp := has_type d ($"VerifiablePresentation") in
      let is_vc := has_type d ($"VerifiableCredential") in
      raise_if (is_vp && is_vc) VpTokenMalformed;;
      if is_vp then Ok SHAPE_VP
      else
        raise_if (has_type d ($"EnvelopedVerifiableCredential")) VpTokenMalformed;;
        Ok (if is_vc then SHAPE_VC else SHAPE_VP)
  | _ => Ok SHAPE_VP
  end.

Definition w3c_shape (fmt : pystr) (presentation : json) : result shape :=
  if bool_decide (fmt = FORMAT_JWT_VC) then jwt_shape presentation else ldp_shape presentation.
End peek.

(** * Results *)

Inductive credential_result := VerifiedVc (r : VerificationResult) | VerifiedDoc (m : VerifiedMdoc).
Inductive raw_presentation :=
  | RawSuite (r : raw_result) | RawVp (v : VpJwt.VerifiedPresentation) | RawLdp (v : VerifiedDataIntegrity)
  | RawMdoc (ms : list VerifiedMdoc).

Record VerifiedPresentation := {
  query_id : pystr; p_format : pystr; p_holder : json; p_credentials : list credential_result; p_raw : raw_presentation }.

(** * Types *)

Inductive expand_outcome :=
  | Expanded (v : json)  (** [jsonld.expand] returned *)
  | LoaderRefused        (** it raised, a [DocumentLoaderError] among its causes *)
  | ExpandFailed.        (** it raised anything else *)

Definition RELATIVE_BASE : pystr := $"https://openvc.invalid/relative/".

Definition W3C_FORMATS : list pystr :=
  [FORMAT_VC_JWT; FORMAT_DI_EDDSA_JCS; FORMAT_DI_ECDSA_JCS; FORMAT_DI_EDDSA; FORMAT_DI_ECDSA_RDFC; FORMAT_DI_ECDSA_SD].

(** [value in written], for a [written] that is a string or a list. *)
Definition was_written (written : json) (t : pystr) : bool :=
  match written with JStr s => bool_decide (s = t) | JList l => existsb (fun w => eq_str w t) l | _ => false end.

Definition node_types (written node : json) : list pystr :=
  let values := match node with JDict d => jget d ($"@type") | _ => JNull end in
  omap (fun v => match v with
                 | JStr t =>
                     if startswith t RELATIVE_BASE then
                       let t := drop (length RELATIVE_BASE) t in if was_written written t then Some t else None
                     else if startswith t ($"https://openvc.invalid/") then None
                     else Some t
                 | _ => None
                 end) (match values with JList l => l | v => [v] end).

Section types.
(** [jsonld.expand(document, pyld_options(loader, base=_RELATIVE_BASE))] with the caller's
    contexts, and whether pyld can be imported. *)
Context (expand : jobject -> expand_outcome) (pyld : bool).

Definition require_pyld : result unit := raise_if (negb pyld) OpenID4VPError.

Definition expanded_types (r : VerificationResult) : result (list pystr) :=
  if negb (bool_decide (format r ∈ W3C_FORMATS)) then Ok []
  else
    let document := omap (fun key => v ← dget (r_credential r) key; Some (key, v)) [$"@context"; $"type"] in
    match expand document with
    | LoaderRefused => Err DocumentLoaderError
    | ExpandFailed => Err ClaimsInvalid
    | Expanded v => Ok (concat (map (node_types (jget document ($"type"))) (match v with JList nodes => nodes | _ => [] end)))
    end.

Definition check_type_values (wanted : option (list (list pystr))) (credentials : list VerificationResult) : result unit :=
  match wanted with
  | None => Ok tt
  | Some alts =>
      foldR (fun _ r =>
               expanded ← expanded_types r;
               raise_if (negb (existsb (fun alt => forallb (fun t => bool_decide (t ∈ expanded)) alt) alts)) ClaimsInvalid)
        tt credentials
  end.
End types.

Definition check_vct (wanted : option (list pystr)) (vct : option pystr) : result unit :=
  match wanted with
  | None => Ok tt
  | Some vs => raise_if (negb match vct with Some v => bool_decide (v ∈ vs) | None => false end) ClaimsInvalid
  end.

(** * Holder binding *)

Definition vp_holder (presentation proof : jobject) : result (option pystr) :=
  let authenticated := match jget proof ($"verificationMethod") with JStr vm => Some (before_fragment vm) | _ => None end in
  let claimed := match jget presentation ($"holder") with JDict h => jget h ($"id") | h => h end in
  match claimed, authenticated with
  | JStr ((_ :: _) as c), Some ((_ :: _) as a) => raise_if (negb (bool_decide (c = a))) ClaimsInvalid;; Ok authenticated
  | _, _ => Ok authenticated
  end.

(** [not result.subject or result.subject != holder]. *)
Definition is_not_subject (holder : option pystr) (r : VerificationResult) : bool :=
  negb (truthy (subject r)) || negb match holder with Some h => eq_str (subject r) h | None => false end.

Definition bound_to (holder : option pystr) (r : VerificationResult) : bool :=
  if bool_decide (format r = Verify.FORMAT_SD_JWT_VC) then bool_decide (key_bound r = Some true)
  else negb (is_list (jget (r_credential r) ($"credentialSubject")))
       && negb (bool_decide (default [] holder = []) || is_not_subject holder r).

Definition check_holder_bound (credentials : list VerificationResult) (holder : option pystr) : result unit :=
  foldR (fun _ r => raise_if (negb (bound_to holder r)) ClaimsInvalid) tt credentials.

Definition embedded_vcs (presentation : jobject) : result (list json) :=
  let items := match jget presentation ($"verifiableCredential") with JList l => l | JNull => [] | vc => [vc] end in
  raise_if (bool_decide (items = [])) VpTokenMalformed;;
  raise_if (negb (forallb (fun item => is_str item || is_dict item) items)) VpTokenMalformed;;
  Ok items.

Definition check_bare_format (fmt : pystr) (r : VerificationResult) : result unit :=
  let expected := if bool_decide (fmt = FORMAT_JWT_VC) then [FORMAT_VC_JWT]
                  else [FORMAT_DI_EDDSA; FORMAT_DI_EDDSA_JCS; FORMAT_DI_ECDSA_RDFC; FORMAT_DI_ECDSA_JCS; FORMAT_DI_ECDSA_SD] in
  raise_if (negb (bool_decide (format r ∈ expected))) VpTokenMalformed.

(** * The mdoc session *)

Section session.
Context (sha256 : bytes -> bytes).

Definition optional_bytes (b : option bytes) : cval := match b with Some b => CBytes b | None => CNull end.

Definition handover_info (origin nonce : pystr) (jwk_thumbprint : option bytes) : result bytes :=
  Cbor.encode (CArray [CText origin; CText nonce; optional_bytes jwk_thumbprint]).

Definition dcapi_session_transcript (origin nonce : pystr) (jwk_thumbprint : option bytes) : result bytes :=
  handover_info ← handover_info origin nonce jwk_thumbprint;
  Cbor.encode (CArray [CNull; CNull; CArray [CText ($"OpenID4VPDCAPIHandover"); CBytes (sha256 handover_info)]]).
End session.

(** * The lanes *)

(** The runtime of a call that is given [extra_contexts], each a URL with its document and
    whether that is a dict. *)
Definition with_contexts (rt : runtime) (extra : list (pystr * (json * bool))) : runtime :=
  {| rt_json := rt_json rt; rt_json_text := rt_json_text rt; rt_ed25519 := rt_ed25519 rt; rt_ecdsa := rt_ecdsa rt;
     rt_mldsa := rt_mldsa rt; rt_point := rt_point rt; rt_float_repr := rt_float_repr rt; rt_lower := rt_lower rt;
     rt_on_curve := rt_on_curve rt; rt_from_jwk := rt_from_jwk rt; rt_pyjwt := rt_pyjwt rt; rt_space := rt_space rt;
     rt_decimal := rt_decimal rt; rt_fromisoformat := rt_fromisoformat rt; rt_hash := rt_hash rt;
     rt_processor := rt_processor rt; rt_gzip := rt_gzip rt; rt_zlib := rt_zlib rt; rt_urlparse := rt_urlparse rt;
     rt_urlunparse := rt_urlunparse rt; rt_json_std := rt_json_std rt; rt_ld := rt_ld rt; rt_bundled := rt_bundled rt;
     rt_extra_contexts := extra |}.

(** The caller's arguments.  [trust_anchors] are an mdoc's, of the library's certificates. *)
Record options (L : x509_library) := {
  o_nonce : pystr; o_client_id : option pystr; o_expected_origins : option json; o_trust_anchors : option (list (cert L));
  o_thumbprint : option bytes; o_leeway_s : json; o_kb_max_age_s : json; o_require_holder_binding : bool;
  o_require_status : bool }.

(** The instants of one presentation: those of each credential it carries, the wall clock of
    its own token, and [now] in microseconds. *)
Record instants := { i_credential : nat -> clocks; i_wall : num; i_now : Z }.

(** What is outside this repository, for this module: [Verify]'s runtime, the extra contexts,
    JSON-LD expansion, and the mdoc's libraries. *)
Record environment := {
  e_rt : runtime; e_contexts : list (pystr * (json * bool)); e_expand : jobject -> expand_outcome; e_pyld : bool;
  e_x509 : x509_library; e_hmac_sha256 : bytes -> bytes -> bytes; e_date_fromisoformat : pystr -> option Z }.

Section lanes.
Context (env : environment) (rs : resolvers) (o : options (e_x509 env)).

Abbreviation rt := (e_rt env).
Abbreviation rtx := (with_contexts (e_rt env) (e_contexts env)).
Abbreviation keys_verify := (Keys.verify_signature (rt_ed25519 rt) (rt_ecdsa rt) (rt_mldsa rt)).
Abbreviation sha256 := (rt_hash rt ($"sha256")).

(** [VerificationPolicy(...)] with the arguments the lanes pass. *)
Definition lane_policy (audience nonce : json) (require_binding : bool) : result VerificationPolicy :=
  make_policy
    {| Verify.leeway_s := o_leeway_s _ o; expected_types := []; expected_vct := None; Verify.audience := audience; Verify.nonce := nonce;
       require_key_binding := require_binding; proof_purpose := $"assertionMethod"; require_status := o_require_status _ o;
       require_schema := false; require_status_issuer_binding := false; status_issuer_allowlist := [];
       require_not_expired := true; require_not_revoked := true; Verify.kb_max_age_s := o_kb_max_age_s _ o |}.

Definition verify_sd_jwt_vc (qid : pystr) (wanted : option (list pystr)) (presentation : json) (require_binding : bool)
    (aud : pystr) (t : instants) : result VerifiedPresentation :=
  match presentation with
  | JStr s =>
      raise_if (negb (bool_decide (126 ∈ s))) VpTokenMalformed;;
      p ← lane_policy (JStr aud) (JStr (o_nonce _ o)) require_binding;
      r ← verify_credential rt p rs None (i_credential t 0%nat) None (JStr s);
      raise_if (negb (bool_decide (format r = Verify.FORMAT_SD_JWT_VC))) VpTokenMalformed;;
      let '(issuer_typ, vct) := match r_raw r with RawSd v => (sd_typ v, sd_vct v) | _ => (None, None) end in
      raise_if (negb (bool_decide (issuer_typ = Some FORMAT_SD_JWT_VC))) VpTokenMalformed;;
      check_vct wanted vct;;
      Ok {| query_id := qid; p_format := FORMAT_SD_JWT_VC; p_holder := subject r; p_credentials := [VerifiedVc r];
            p_raw := RawSuite (r_raw r) |}
  | _ => Err VpTokenMalformed
  end.

Definition verify_jwt_vp (qid : pystr) (presentation : json) (require_binding : bool) (aud : pystr)
    (wanted : option (list (list pystr))) (t : instants) : result VerifiedPresentation :=
  match presentation with
  | JStr s =>
      p ← lane_policy JNull JNull require_binding;
      v ← vp_verify rt (o_leeway_s _ o) s aud (o_nonce _ o) None None (o_require_holder_binding _ o) p rs None
            (i_credential t) (i_wall t);
      raise_if (bool_decide (length (vp_credentials v) = 0%nat)) VpTokenMalformed;;
      (if require_binding then check_holder_bound (vp_credentials v) (Some (holder v)) else Ok tt);;
      check_type_values (e_expand env) wanted (vp_credentials v);;
      Ok {| query_id := qid; p_format := FORMAT_JWT_VC; p_holder := JStr (holder v);
            p_credentials := map VerifiedVc (vp_credentials v); p_raw := RawVp v |}
  | _ => Err VpTokenMalformed
  end.

(** [suite.verify] of the suite of the cryptosuite, for the holder's proof. *)
Definition ldp_suite_verify (cryptosuite : pystr) (doc : jobject) (aud : pystr) (instant : Z) : result VerifiedDataIntegrity :=
  l ← leeway_seconds (o_leeway_s _ o) ProofError;
  let expected := {| expected_proof_purpose := Some ($"authentication"); expected_challenge := Some (o_nonce _ o);
                     expected_domain := Some aud |} in
  let jcs verify := verify (rt_hash rt) (rt_ed25519 rt) (rt_ecdsa rt) (rt_mldsa rt) (rt_point rt) (rt_space rt) (rt_decimal rt)
                      (rt_fromisoformat rt) (rt_float_repr rt) doc None (Some (did_resolver rs)) expected instant (JInt l) true in
  if bool_decide (cryptosuite = $"eddsa-rdfc-2022") then
    eddsa_rdfc_verify (rt_hash rt) (rt_ed25519 rt) (rt_point rt) (rt_space rt) (rt_decimal rt) (rt_fromisoformat rt)
      (rt_normalize rtx) (rt_validate rtx) doc None (Some (did_resolver rs)) expected instant (JInt l) true
  else if bool_decide (cryptosuite = $"eddsa-jcs-2022") then jcs eddsa_jcs_verify
  else if bool_decide (cryptosuite = $"ecdsa-jcs-2019") then jcs ecdsa_jcs_verify
  else
    ecdsa_rdfc_verify (rt_hash rt) (rt_ed25519 rt) (rt_ecdsa rt) (rt_mldsa rt) (rt_point rt) (rt_space rt) (rt_decimal rt)
      (rt_fromisoformat rt) (rt_normalize rtx) (rt_validate rtx) doc None (Some (did_resolver rs)) expected instant (JInt l) true.

(** The embedded credentials, in order, a nested KB-JWT held to this exchange. *)
Definition verify_embedded_vcs (p : VerificationPolicy) (aud : pystr) (t : instants) (vcs : list json) : result (list VerificationResult) :=
  mapR (fun ic : nat * json => verify_credential rtx p rs None (i_credential t ic.1) (Some (JStr aud, JStr (o_nonce _ o))) ic.2)
    (imap (fun i c => (i, c)) vcs).

Definition verify_ldp_vp (qid : pystr) (presentation : json) (require_binding : bool) (aud : pystr)
    (wanted : option (list (list pystr))) (t : instants) : result VerifiedPresentation :=
  match presentation with
  | JDict d =>
      raise_if (negb (has_type d ($"VerifiablePresentation"))) VpTokenMalformed;;
      match jget d ($"proof") with
      | JList _ => Err UnsupportedPresentationFormat
      | JDict proof =>
          match jget proof ($"cryptosuite") with
          | JStr cryptosuite =>
              raise_if (negb (bool_decide (cryptosuite ∈ LDP_VP_CRYPTOSUITES))) UnsupportedPresentationFormat;;
              v ← ldp_suite_verify cryptosuite d aud (i_now t);
              holder ← vp_holder d (di_proof v);
              p ← lane_policy JNull JNull require_binding;
              vcs ← embedded_vcs d;
              credentials ← verify_embedded_vcs p aud t vcs;
              (if require_binding then check_holder_bound credentials holder else Ok tt);;
              raise_if (o_require_holder_binding _ o && existsb (is_not_subject holder) credentials) ClaimsInvalid;;
              check_type_values (e_expand env) wanted credentials;;
              Ok {| query_id := qid; p_format := FORMAT_LDP_VC;
                    p_holder := match holder with Some h => JStr h | None => JNull end;
                    p_credentials := map VerifiedVc credentials; p_raw := RawLdp v |}
          | _ => Err UnsupportedPresentationFormat
          end
      | _ => Err VpTokenMalformed
      end
  | _ => Err VpTokenMalformed
  end.

Definition verify_bare_w3c_vc (qid fmt : pystr) (presentation : json) (wanted : option (list (list pystr))) (t : instants)
    : result VerifiedPresentation :=
  raise_if (o_require_holder_binding _ o) ClaimsInvalid;;
  p ← lane_policy JNull JNull false;
  r ← verify_credential rtx p rs None (i_credential t 0%nat) None presentation;
  check_bare_format fmt r;;
  check_type_values (e_expand env) wanted [r];;
  Ok {| query_id := qid; p_format := fmt; p_holder := JNull; p_credentials := [VerifiedVc r]; p_raw := RawSuite (r_raw r) |}.

(** ** mdoc: the origin whose session the device signed *)

Definition b64url_to_bytes (value : pystr) : result bytes :=
  catch_as (fun e => isinstance e ValueError || isinstance e TypeError) VpTokenMalformed (b64url_decode value).

Definition verify_for_origin (device_response : bytes) (trust_anchors : list (cert (e_x509 env))) (expected : option pystr) (now : Z)
    (transcript : bytes) : result (list VerifiedMdoc) :=
  verify_device_response (e_x509 env) keys_verify (e_hmac_sha256 env) (rt_hash rt) (rt_space rt) (rt_fromisoformat rt)
    (e_date_fromisoformat env) device_response trust_anchors transcript now (o_leeway_s _ o) expected None.

Fixpoint try_origins (last_error : exn) (device_response : bytes) (trust_anchors : list (cert (e_x509 env)))
    (expected : option pystr) (now : Z) (origins : list pystr) : result (list VerifiedMdoc) :=
  match origins with
  | [] => Err last_error
  | origin :: origins =>
      transcript ← dcapi_session_transcript sha256 origin (o_nonce _ o) (o_thumbprint _ o);
      match verify_for_origin device_response trust_anchors expected now transcript with
      | Err e => if isinstance e MdocDeviceAuthError then try_origins e device_response trust_anchors expected now origins else Err e
      | Ok documents => Ok documents
      end
  end.

Definition verify_mso_mdoc (qid : pystr) (query : jobject) (presentation : json) (t : instants) : result VerifiedPresentation :=
  match o_expected_origins _ o with
  | None => Err UnsupportedPresentationFormat
  | Some expected_origins =>
      match o_trust_anchors _ o with
      | None => Err ClaimsInvalid
      | Some trust_anchors =>
          match presentation with
          | JStr s =>
              expected ← mdoc_doctype_value query;
              device_response ← b64url_to_bytes s;
              documents ← try_origins AssertionError device_response trust_anchors expected (i_now t)
                            (match expected_origins with JList l => omap as_str l | _ => [] end);
              Ok {| query_id := qid; p_format := FORMAT_MSO_MDOC; p_holder := JNull;
                    p_credentials := map VerifiedDoc documents; p_raw := RawMdoc documents |}
          | _ => Err VpTokenMalformed
          end
      end
  end.

(** * One presentation, and the whole response *)

Definition is_w3c (fmt : pystr) : bool := bool_decide (fmt ∈ [FORMAT_JWT_VC; FORMAT_LDP_VC]).

Definition verify_one (accepted_auds : option (list pystr)) (t : instants) (qid : pystr) (query : jobject) (presentation : json)
    : result VerifiedPresentation :=
  match jget query ($"format") with
  | JStr fmt =>
      if bool_decide (fmt = FORMAT_MSO_MDOC) then verify_mso_mdoc qid query presentation t
      else
        types ← (if is_w3c fmt then type_values query else Ok None);
        (match types with Some _ => require_pyld (e_pyld env) | None => Ok tt end);;
        vcts ← (if bool_decide (fmt = FORMAT_SD_JWT_VC) then vct_values query else Ok None);
        let require_binding := default true (bool_member query ($"require_cryptographic_holder_binding") true) in
        shape ← (if is_w3c fmt then w3c_shape (rt_json rt) (rt_lower rt) fmt presentation else Ok SHAPE_VP);
        if bool_decide (shape = SHAPE_VC) then
          raise_if require_binding VpTokenMalformed;;
          verify_bare_w3c_vc qid fmt presentation types t
        else
          aud ← effective_audience (rt_json rt) fmt presentation (o_client_id _ o) accepted_auds;
          if bool_decide (fmt = FORMAT_SD_JWT_VC) then verify_sd_jwt_vc qid vcts presentation require_binding aud t
          else if bool_decide (fmt = FORMAT_JWT_VC) then verify_jwt_vp qid presentation require_binding aud types t
          else if bool_decide (fmt = FORMAT_LDP_VC) then verify_ldp_vp qid presentation require_binding aud types t
          else Err UnsupportedPresentationFormat
  | _ => Err KeyError
  end.

Definition parse_vp_token (vp_token : json) : result jobject :=
  parsed ← match vp_token with
           | JStr s => catch_as (fun e => isinstance e ValueError || isinstance e RecursionError) VpTokenMalformed (rt_json_text rt s)
           | v => Ok v
           end;
  match parsed with
  | JDict token => raise_if (nesting_exceeds (JDict token) JSON_MAX_DEPTH) VpTokenMalformed;; Ok token
  | _ => Err VpTokenMalformed
  end.

(** The presentations under one key of the token, in order. *)
Definition verify_entry (accepted_auds : option (list pystr)) (clk : nat -> instants) (queries : list (pystr * jobject))
    (entry : pystr * json) : result (list VerifiedPresentation) :=
  match dget queries entry.1 with
  | None => Err VpTokenMalformed
  | Some query =>
      presentations ← presentation_list query entry.2;
      mapR (fun jp : nat * json => verify_one accepted_auds (clk jp.1) entry.1 query jp.2) (imap (fun j p => (j, p)) presentations)
  end.

(** [clk i j] are the instants of the [j]th presentation under the [i]th key. *)
Definition verify_vp_token (clk : nat -> nat -> instants) (vp_token dcql_query : json) : result (list VerifiedPresentation) :=
  leeway_seconds (o_leeway_s _ o) OpenID4VPError;;
  non_negative_seconds (o_kb_max_age_s _ o) OpenID4VPError;;
  raise_if (bool_decide (o_nonce _ o = [])) ClaimsInvalid;;
  accepted_auds ← dc_api_accepted_auds (rt_space rt) (o_client_id _ o) (o_expected_origins _ o);
  token ← parse_vp_token vp_token;
  raise_if (bool_decide (length token = 0%nat)) VpTokenMalformed;;
  queries ← index_dcql dcql_query;
  check_completeness token queries (match dcql_query with JDict d => d | _ => [] end);;
  catch_as (fun e => isinstance e RecursionError) VpTokenMalformed
    (verified ← mapR (fun ie : nat * (pystr * json) => verify_entry accepted_auds (clk ie.1) queries ie.2) (imap (fun i e => (i, e)) token);
     Ok (concat verified)).

(** [verify_encrypted_vp_response]; [agree] and [aesgcm_decrypt] as in [Jwe]. *)
Definition verify_encrypted_vp_response (agree : jobject -> result bytes)
    (aesgcm_decrypt : bytes -> bytes -> bytes -> bytes -> result (option bytes))
    (clk : nat -> nat -> instants) (response : pystr) (dcql_query : json) : result (list VerifiedPresentation) :=
  leeway_seconds (o_leeway_s _ o) OpenID4VPError;;
  plaintext ← decrypt_compact sha256 (rt_json rt) agree aesgcm_decrypt response;
  payload ← catch_as (fun e => isinstance e ValueError || isinstance e RecursionError) VpTokenMalformed (rt_json rt plaintext);
  match payload with
  | JDict d => match dget d ($"vp_token") with Some v => verify_vp_token clk v dcql_query | None => Err VpTokenMalformed end
  | _ => Err VpTokenMalformed
  end.
End lanes.
