(* ===== verification/VpTokenSound.v ===== *)
(** What an accepted [vp_token] establishes about the presentations it carries, and the binding
    of an mdoc's session to the request. *)
From S2P Require Import Prelude Errors PyStr Utf8 Base64 Json Cbor PyNum VerifyCommon VcJwt SdJwt Did Keys DataIntegrity X5c Cose Mdoc Jwe Verify VerifySound VpJwt Dcql OpenId4Vp.

Section sound.
Context (env : environment) (rs : resolvers) (o : options (e_x509 env)).

Abbreviation rt := (e_rt env).
Abbreviation rtx := (with_contexts (e_rt env) (e_contexts env)).
Abbreviation keys_verify := (Keys.verify_signature (rt_ed25519 rt) (rt_ecdsa rt) (rt_mldsa rt)).

(** ** What each lane guarantees *)

(** The audience is the client's, or that of an origin the caller expects. *)
Definition accepted_audience (aud : pystr) : Prop :=
  match o_client_id _ o, o_expected_origins _ o with
  | Some c, None => aud = c /\ c <> []
  | None, Some (JList origins) => exists origin, JStr origin ∈ origins /\ origin <> [] /\ aud = $"origin:" ++ origin
  | _, _ => False
  end.

(** Every credential has, among its expanded types, all those of an alternative asked for. *)
Definition types_met (wanted : option (list (list pystr))) (credentials : list VerificationResult) : Prop :=
  forall alts, wanted = Some alts ->
    Forall (fun r => exists ts alt, expanded_types (e_expand env) r = Ok ts /\ alt ∈ alts /\ alt ⊆ ts) credentials.

(** A credential belongs to the holder: by its own key binding, or as its single subject. *)
Definition belongs_to (holder : option pystr) (r : VerificationResult) : Prop :=
  (format r = Verify.FORMAT_SD_JWT_VC /\ key_bound r = Some true) \/
  (format r <> Verify.FORMAT_SD_JWT_VC /\ is_list (jget (r_credential r) ($"credentialSubject")) = false /\
   exists h, holder = Some h /\ h <> [] /\ subject r = JStr h).

(** The policy a lane builds. *)
Definition lane_values (p : VerificationPolicy) (audience nonce : json) (binding : bool) : Prop :=
  Verify.audience p = audience /\ Verify.nonce p = nonce /\ require_key_binding p = binding /\
  require_status p = o_require_status _ o /\ require_not_expired p = true /\ require_not_revoked p = true.

(** [dc+sd-jwt]: a typed IETF SD-JWT VC of a requested [vct], whose key binding, when required,
    is to this audience and nonce. *)
Definition sd_good (wanted : option (list pystr)) (binding : bool) (t : instants) (presentation : json) (v : VerifiedPresentation) : Prop :=
  exists s aud p r w, presentation = JStr s /\ accepted_audience aud /\ lane_values p (JStr aud) (JStr (o_nonce _ o)) binding /\
    verify_credential rt p rs None (i_credential t 0%nat) None (JStr s) = Ok r /\
    p_credentials v = [VerifiedVc r] /\ p_holder v = subject r /\ r_raw r = RawSd w /\
    sd_typ w = Some FORMAT_SD_JWT_VC /\ (forall vs, wanted = Some vs -> exists vct, sd_vct w = Some vct /\ vct ∈ vs) /\
    (binding = true -> key_bound r = Some true /\ exists su issuer_jwt ds kb_jwt cnf h,
       SdJwt.split s = Ok (issuer_jwt, ds, kb_jwt) /\
       holder_bound (rt_hash rt) (rt_json rt) keys_verify su kb_jwt issuer_jwt ds cnf h (JStr aud) (JStr (o_nonce _ o))).

(** [jwt_vc_json]: a presentation signed by its holder for this audience and nonce. *)
Definition jwt_good (wanted : option (list (list pystr))) (binding : bool) (t : instants) (presentation : json) (v : VerifiedPresentation) : Prop :=
  exists s aud p w, presentation = JStr s /\ accepted_audience aud /\ lane_values p JNull JNull binding /\
    vp_guarantee rt (o_leeway_s _ o) s aud (o_nonce _ o) None None (o_require_holder_binding _ o) p rs None (i_credential t) (i_wall t) w /\
    vp_credentials w <> [] /\ p_credentials v = map VerifiedVc (vp_credentials w) /\ p_holder v = JStr (holder w) /\
    (binding = true -> Forall (belongs_to (Some (holder w))) (vp_credentials w)) /\ types_met wanted (vp_credentials w).

Definition holder_expected (aud : pystr) : expectations :=
  {| expected_proof_purpose := Some ($"authentication"); expected_challenge := Some (o_nonce _ o); expected_domain := Some aud |}.

(** The holder's proof: the guarantee of the suite of its cryptosuite, the signature included. *)
Definition holder_suite (cryptosuite : pystr) (d : jobject) (aud : pystr) (instant : Z) (w : VerifiedDataIntegrity) : Prop :=
  exists fmt l, dget CRYPTOSUITE_FORMAT cryptosuite = Some fmt /\ leeway_seconds (o_leeway_s _ o) ProofError = Ok l /\
    suite_guarantee rtx fmt d (Some (did_resolver rs)) (holder_expected aud) instant (JInt l) true w.

(** [ldp_vc]: a presentation whose [authentication] proof carries this nonce as its challenge
    and this audience as its domain. *)
Definition ldp_good (wanted : option (list (list pystr))) (binding : bool) (t : instants) (presentation : json) (v : VerifiedPresentation) : Prop :=
  exists d proof cryptosuite aud w holder p vcs credentials,
    presentation = JDict d /\ has_type d ($"VerifiablePresentation") = true /\ accepted_audience aud /\
    jget d ($"proof") = JDict proof /\ jget proof ($"cryptosuite") = JStr cryptosuite /\ cryptosuite ∈ LDP_VP_CRYPTOSUITES /\
    holder_suite cryptosuite d aud (i_now t) w /\ di_proof w = proof /\
    jget proof ($"proofPurpose") = JStr ($"authentication") /\ jget proof ($"challenge") = JStr (o_nonce _ o) /\
    (jget proof ($"domain") = JStr aud \/ exists l, jget proof ($"domain") = JList l /\ JStr aud ∈ l) /\
    vp_holder d proof = Ok holder /\ p_holder v = match holder with Some h => JStr h | None => JNull end /\
    lane_values p JNull JNull binding /\ embedded_vcs d = Ok vcs /\ vcs <> [] /\ p_credentials v = map VerifiedVc credentials /\
    length credentials = length vcs /\
    (forall i c r, vcs !! i = Some c -> credentials !! i = Some r ->
       verify_credential rtx p rs None (i_credential t i) (Some (JStr aud, JStr (o_nonce _ o))) c = Ok r) /\
    (binding = true -> Forall (belongs_to holder) credentials) /\
    (o_require_holder_binding _ o = true -> Forall (fun r => exists h, holder = Some h /\ subject r = JStr h) credentials) /\
    types_met wanted credentials.

(** A bare credential: only where binding is waived, and it reports no holder. *)
Definition bare_good (fmt : pystr) (wanted : option (list (list pystr))) (binding : bool) (t : instants) (presentation : json) (v : VerifiedPresentation) : Prop :=
  exists p r, binding = false /\ o_require_holder_binding _ o = false /\ lane_values p JNull JNull false /\
    verify_credential rtx p rs None (i_credential t 0%nat) None presentation = Ok r /\
    (fmt = FORMAT_JWT_VC -> format r = FORMAT_VC_JWT) /\ (fmt = FORMAT_LDP_VC -> format r ∈ map snd CRYPTOSUITE_FORMAT) /\
    p_credentials v = [VerifiedVc r] /\ p_holder v = JNull /\ types_met wanted [r].

(** [mso_mdoc]: every document sealed by its issuer and signed by its device over the session
    of one of the caller's origins and this nonce. *)
Definition mdoc_good (query : jobject) (t : instants) (presentation : json) (v : VerifiedPresentation) : Prop :=
  exists s origins anchors device_response expected origin transcript documents,
    presentation = JStr s /\ o_expected_origins _ o = Some (JList origins) /\ o_trust_anchors _ o = Some anchors /\
    b64url_decode s = Ok device_response /\ mdoc_doctype_value query = Ok expected /\ JStr origin ∈ origins /\
    dcapi_session_transcript (rt_hash rt ($"sha256")) origin (o_nonce _ o) (o_thumbprint _ o) = Ok transcript /\
    p_credentials v = map VerifiedDoc documents /\
    response_guarantee (e_x509 env) keys_verify (e_hmac_sha256 env) (rt_hash rt) (rt_space rt) (rt_fromisoformat rt)
      (e_date_fromisoformat env) device_response anchors transcript (i_now t) (o_leeway_s _ o) expected None documents.

(** A presentation answers its query by the lane of the query's format. *)
Definition presentation_good (query : jobject) (qid : pystr) (t : instants) (presentation : json) (v : VerifiedPresentation) : Prop :=
  exists fmt binding types vcts, jget query ($"format") = JStr fmt /\ query_id v = qid /\ p_format v = fmt /\
    bool_member query ($"require_cryptographic_holder_binding") true = Some binding /\
    (is_w3c fmt = true -> type_values query = Ok types) /\ (fmt = FORMAT_SD_JWT_VC -> vct_values query = Ok vcts) /\
    ((fmt = FORMAT_SD_JWT_VC /\ sd_good vcts binding t presentation v) \/
     (fmt = FORMAT_JWT_VC /\ jwt_good types binding t presentation v) \/
     (fmt = FORMAT_LDP_VC /\ ldp_good types binding t presentation v) \/
     (is_w3c fmt = true /\ bare_good fmt types binding t presentation v) \/
     (fmt = FORMAT_MSO_MDOC /\ mdoc_good query t presentation v)).

(** ** Proofs *)

Lemma first_accepted_in accepted candidates a : first_accepted accepted candidates = Some a -> a ∈ accepted.
Proof using.
  induction candidates as [|c cs IH]; [done|]. cbn [first_accepted]. destruct c; try done. case_bool_decide; [|done].
  by intros [= ->].
Qed.

Lemma effective_audience_Ok fmt presentation accepted aud :
  dc_api_accepted_auds (rt_space rt) (o_client_id _ o) (o_expected_origins _ o) = Ok accepted ->
  effective_audience (rt_json rt) fmt presentation (o_client_id _ o) accepted = Ok aud -> accepted_audience aud.
Proof using.
  unfold dc_api_accepted_auds, effective_audience, accepted_audience. intros Ha H.
  destruct (o_client_id _ o) as [[|c cs]|].
  - by destruct (o_expected_origins _ o).
  - destruct (o_expected_origins _ o); [done|]. by apply Ok_inj in H as <-.
  - destruct (o_expected_origins _ o) as [[| | | | |[|or ors]| |]|]; try done.
    apply bind_Ok in Ha as (u & Hok%raise_if_Ok%negb_false_iff & Ha). apply Ok_inj in Ha as <-.
    apply bind_Ok in H as (pa & _ & H). destruct (first_accepted _ _) as [a|] eqn:Ef; [|done]. apply Ok_inj in H as ->.
    apply first_accepted_in in Ef. apply list_elem_of_fmap in Ef as (origin & -> & Hin).
    apply list_elem_of_omap in Hin as (j & Hj & Ej). destruct j as [| | | |s| | |]; try done. injection Ej as <-. exists s.
    split; [done|]. split; [|done]. rewrite forallb_forall in Hok. apply list_elem_of_In, Hok in Hj. cbn [origin_ok] in Hj.
    apply andb_true_iff in Hj as [Hj _]. by apply negb_true_iff, bool_decide_eq_false in Hj.
Qed.

Lemma check_type_values_Ok wanted credentials u :
  check_type_values (e_expand env) wanted credentials = Ok u -> types_met wanted credentials.
Proof using.
  unfold check_type_values, types_met. intros H alts ->. destruct u. apply foldR_checks in H. eapply Forall_impl; [exact H|].
  cbn beta. intros r Hr. apply bind_Ok in Hr as (ts & Hts & Hr%raise_if_Ok%negb_false_iff).
  apply existsb_exists in Hr as (alt & Hin%list_elem_of_In & Hall). exists ts, alt. split; [done|]. split; [done|].
  rewrite forallb_forall in Hall. intros t Ht%list_elem_of_In%Hall. by apply bool_decide_eq_true in Ht.
Qed.

Lemma bound_to_belongs h r : bound_to h r = true -> belongs_to h r.
Proof using.
  unfold bound_to, belongs_to, is_not_subject. case_bool_decide as Hf.
  - intros H%bool_decide_eq_true. by left.
  - intros [Hl Hs]%andb_true_iff. right. split; [done|]. split; [by apply negb_true_iff in Hl|].
    apply negb_true_iff, orb_false_iff in Hs as [Hn Hs]. apply orb_false_iff in Hs as [_ Hs].
    destruct h as [h|]; [|by apply bool_decide_eq_false in Hn]. exists h. split; [done|].
    split; [by apply bool_decide_eq_false in Hn|]. by apply negb_false_iff, eq_str_true in Hs.
Qed.

Lemma check_holder_bound_Ok (binding : bool) credentials h u :
  (if binding then check_holder_bound credentials h else Ok tt) = Ok u -> binding = true -> Forall (belongs_to h) credentials.
Proof using.
  intros H ->. destruct u. apply foldR_checks in H. eapply Forall_impl; [exact H|].
  cbn beta. intros r Hr%raise_if_Ok%negb_false_iff. by apply bound_to_belongs.
Qed.

Lemma lane_policy_Ok a n b p : lane_policy env o a n b = Ok p -> lane_values p a n b.
Proof using.
  unfold lane_policy, make_policy. intros H. apply bind_Ok in H as (u & _ & H). apply bind_Ok in H as (u' & _ & H).
  by apply Ok_inj in H as <-.
Qed.

(** An SD-JWT is its own leaf, so the lane's guarantee is about the presentation itself. *)
Lemma sd_presentation p t s r :
  (forall raw v, rt_json rt raw = Ok v -> json_ok v) -> 126 ∈ s ->
  verify_credential rt p rs None t None (JStr s) = Ok r ->
  sd_lane rt (request_at rt p rs None t MAX_ENVELOPES) None s r.
Proof using.
  intros Hloads Hin H. apply verify_credential_leaf in H as (n & leaf & fmt & Hn & Ho & Hf & _ & Hl); [|done].
  inversion Ho; subst. rewrite Nat.sub_0_r in Hl. cbn [detect_format] in Hf. rewrite bool_decide_eq_true_2 in Hf by done.
  apply Ok_inj in Hf as <-. destruct Hl as [(tk & [= ->] & E & _)|[(sd & [= ->] & _ & Hl)|(d & [= ] & _)]]; [|done].
  exfalso. revert E. vm_compute. discriminate.
Qed.

Lemma verify_sd_jwt_vc_Ok qid wanted presentation binding aud t v :
  (forall raw v, rt_json rt raw = Ok v -> json_ok v) -> accepted_audience aud ->
  verify_sd_jwt_vc env rs o qid wanted presentation binding aud t = Ok v ->
  query_id v = qid /\ p_format v = FORMAT_SD_JWT_VC /\ sd_good wanted binding t presentation v.
Proof using.
  intros Hloads Haud. unfold verify_sd_jwt_vc. destruct presentation as [| | | |s| | |]; try done. intros H.
  apply bind_Ok in H as (u & Hin%raise_if_Ok%negb_false_iff%bool_decide_eq_true & H).
  apply bind_Ok in H as (p & Hp%lane_policy_Ok & H). apply bind_Ok in H as (r & Hr & H).
  apply bind_Ok in H as (u1 & _ & H). pose proof (sd_presentation _ _ _ _ Hloads Hin Hr) as Hl.
  destruct Hl as (su & iss & kid & jwk & aud' & n' & w & ij & ds & kb & hd & body & hn & _ & _ & _ & Hkb & Hg & _ & _ & _ & _ & Hbound & _ & _ & _ & Hraw).
  rewrite Hraw in H. apply bind_Ok in H as (u2 & Htyp%raise_if_Ok%negb_false_iff%bool_decide_eq_true & H).
  apply bind_Ok in H as (u3 & Hvct & H). apply Ok_inj in H as <-.
  split; [done|]. split; [done|]. exists s, aud, p, r, w. repeat (split; [done|]). split.
  - intros vs ->. cbn [check_vct] in Hvct. apply raise_if_Ok, negb_false_iff in Hvct. destruct (sd_vct w) as [vct|]; [|done].
    exists vct. by apply bool_decide_eq_true in Hvct.
  - intros ->. destruct Hp as (Ha & Hn & Hb & _). cbn [policy request_at] in Hkb, Hg.
    unfold kb_target in Hkb. rewrite Ha, Hn in Hkb. apply Ok_inj in Hkb. injection Hkb as <- <-.
    rewrite Hb in Hg. destruct Hg as [Hsplit _ _ _ _ _ _ _ Hreq Hbd _ _ _ _]. destruct (Hreq eq_refl) as [Hk _].
    split; [by rewrite Hbound, Hk|]. pose proof (Hbd Hk) as Hh.
    exists su, ij, ds, kb, (jget body ($"cnf")), hn. by split.
Qed.

Lemma verify_jwt_vp_Ok qid presentation binding aud wanted t v :
  accepted_audience aud -> verify_jwt_vp env rs o qid presentation binding aud wanted t = Ok v ->
  query_id v = qid /\ p_format v = FORMAT_JWT_VC /\ jwt_good wanted binding t presentation v.
Proof using.
  intros Haud. unfold verify_jwt_vp. destruct presentation as [| | | |s| | |]; try done. intros H.
  apply bind_Ok in H as (p & Hp%lane_policy_Ok & H). apply bind_Ok in H as (w & Hw%vp_verify_guarantee & H).
  apply bind_Ok in H as (u & Hne%raise_if_Ok%bool_decide_eq_false & H). apply bind_Ok in H as (u1 & Hb & H).
  apply bind_Ok in H as (u2 & Ht%check_type_values_Ok & H). apply Ok_inj in H as <-.
  split; [done|]. split; [done|]. exists s, aud, p, w. do 4 (split; [done|]).
  split; [by intros E; rewrite E in Hne|]. do 2 (split; [done|]). split; [|done]. by eapply check_holder_bound_Ok.
Qed.

Lemma verify_bare_Ok qid fmt presentation wanted t v :
  verify_bare_w3c_vc env rs o qid fmt presentation wanted t = Ok v ->
  query_id v = qid /\ p_format v = fmt /\ bare_good fmt wanted false t presentation v.
Proof using.
  unfold verify_bare_w3c_vc. intros H. apply bind_Ok in H as (u & Hr%raise_if_Ok & H).
  apply bind_Ok in H as (p & Hp%lane_policy_Ok & H). apply bind_Ok in H as (r & Hv & H).
  apply bind_Ok in H as (u1 & Hf & H). apply bind_Ok in H as (u2 & Ht%check_type_values_Ok & H). apply Ok_inj in H as <-.
  split; [done|]. split; [done|]. exists p, r. do 4 (split; [done|]). unfold check_bare_format in Hf.
  apply raise_if_Ok, negb_false_iff, bool_decide_eq_true in Hf. split.
  - intros ->. rewrite bool_decide_eq_true_2 in Hf by done. by apply list_elem_of_singleton in Hf.
  - split; [|done]. intros ->. rewrite bool_decide_eq_false_2 in Hf by (vm_compute; discriminate).
    revert Hf. unfold CRYPTOSUITE_FORMAT. cbn [map snd]. rewrite !elem_of_cons. tauto.
Qed.

Lemma try_origins_Ok last_error device_response anchors expected now origins documents :
  try_origins env o last_error device_response anchors expected now origins = Ok documents ->
  exists origin transcript, origin ∈ origins /\
    dcapi_session_transcript (rt_hash rt ($"sha256")) origin (o_nonce _ o) (o_thumbprint _ o) = Ok transcript /\
    verify_for_origin env o device_response anchors expected now transcript = Ok documents.
Proof using.
  revert last_error. induction origins as [|origin origins IH]; intros last_error H; [done|]. cbn [try_origins] in H.
  apply bind_Ok in H as (transcript & Ht & H). destruct (verify_for_origin _ _ _ _ _ _ _) as [ds|e] eqn:Ev.
  - apply Ok_inj in H as <-. exists origin, transcript. split; [left|done].
  - destruct (isinstance e MdocDeviceAuthError); [|done]. apply IH in H as (or & tr & Hin & ?). exists or, tr. split; [by right|done].
Qed.

Lemma verify_mso_mdoc_Ok qid query presentation t v accepted :
  dc_api_accepted_auds (rt_space rt) (o_client_id _ o) (o_expected_origins _ o) = Ok accepted ->
  verify_mso_mdoc env o qid query presentation t = Ok v ->
  query_id v = qid /\ p_format v = FORMAT_MSO_MDOC /\ mdoc_good query t presentation v.
Proof using.
  unfold verify_mso_mdoc. destruct (o_expected_origins _ o) as [eo|] eqn:Eo; [|done].
  destruct (o_trust_anchors _ o) as [anchors|] eqn:Ea; [|done]. destruct presentation as [| | | |s| | |]; try done. intros Hacc H.
  apply bind_Ok in H as (expected & Hexp & H). apply bind_Ok in H as (dr & Hdr%catch_as_Ok & H).
  apply bind_Ok in H as (docs & Hd & H). apply Ok_inj in H as <-. split; [done|]. split; [done|].
  apply try_origins_Ok in Hd as (origin & transcript & Hin & Htr & Hd).
  destruct eo as [| | | | |origins| |]; try by apply not_elem_of_nil in Hin.
  exists s, origins, anchors, dr, expected, origin, transcript, docs. do 5 (split; [done|]). split.
  { apply list_elem_of_omap in Hin as (j & Hj & Ej). destruct j; try done. by injection Ej as <-. }
  split; [exact Htr|]. split; [reflexivity|]. unfold verify_for_origin in Hd.
  exact (verify_device_response_Ok _ _ _ _ _ _ _ _ _ _ _ _ _ _ _ Hd).
Qed.

Lemma policy_holds_binding is_space is_decimal fromisoformat secured proof purpose challenge domain instant leeway ct w :
  policy_holds is_space is_decimal fromisoformat secured proof
    {| expected_proof_purpose := Some purpose; expected_challenge := Some challenge; expected_domain := Some domain |} instant leeway ct w ->
  di_proof w = proof /\ jget proof ($"proofPurpose") = JStr purpose /\ jget proof ($"challenge") = JStr challenge /\
  (jget proof ($"domain") = JStr domain \/ exists l, jget proof ($"domain") = JList l /\ JStr domain ∈ l).
Proof using. intros (_ & Hw & Hp & Hc & Hd & _). split; [done|]. split; [by apply Hp|]. split; [by apply Hc|by apply Hd]. Qed.

Lemma ldp_suite_verify_suite cryptosuite d aud instant w :
  cryptosuite ∈ LDP_VP_CRYPTOSUITES -> ldp_suite_verify env rs o cryptosuite d aud instant = Ok w ->
  holder_suite cryptosuite d aud instant w.
Proof using.
  unfold ldp_suite_verify. cbv zeta. intros Hin H. apply bind_Ok in H as (l & Hl & H).
  assert (forall fmt, dget CRYPTOSUITE_FORMAT cryptosuite = Some fmt ->
    suite_guarantee rtx fmt d (Some (did_resolver rs)) (holder_expected aud) instant (JInt l) true w ->
    holder_suite cryptosuite d aud instant w) as Hg by (intros fmt ??; by exists fmt, l).
  case_bool_decide as E1; [subst|case_bool_decide as E2; [subst|case_bool_decide as E3; [subst|]]].
  - apply (Hg FORMAT_DI_EDDSA eq_refl). left. split; [done|]. by apply eddsa_rdfc_verify_guarantee.
  - apply (Hg FORMAT_DI_EDDSA_JCS eq_refl). do 3 right. exists EDDSA_JCS_CRYPTOSUITE, [$"EdDSA"].
    split; [by left|]. by apply jcs_verify_guarantee.
  - apply (Hg FORMAT_DI_ECDSA_JCS eq_refl). do 3 right. exists ECDSA_JCS_CRYPTOSUITE, ECDSA_ALGS.
    split; [by right|]. by apply jcs_verify_guarantee.
  - assert (cryptosuite = $"ecdsa-rdfc-2019") as ->.
    { repeat (apply elem_of_cons in Hin as [Hin|Hin]; [done|]). by apply elem_of_nil in Hin. }
    apply (Hg FORMAT_DI_ECDSA_RDFC eq_refl). right. left. split; [done|]. by apply ecdsa_rdfc_verify_guarantee.
Qed.

(** Every suite checks the purpose, the challenge and the domain of the document's proof. *)
Lemma ldp_suite_verify_Ok cryptosuite d proof aud instant w :
  jget d ($"proof") = JDict proof -> ldp_suite_verify env rs o cryptosuite d aud instant = Ok w ->
  di_proof w = proof /\ jget proof ($"proofPurpose") = JStr ($"authentication") /\ jget proof ($"challenge") = JStr (o_nonce _ o) /\
  (jget proof ($"domain") = JStr aud \/ exists l, jget proof ($"domain") = JList l /\ JStr aud ∈ l).
Proof using.
  unfold ldp_suite_verify. cbv zeta. intros Hproof H. apply bind_Ok in H as (l & _ & H).
  repeat case_match;
    unfold eddsa_jcs_verify, ecdsa_jcs_verify, jcs_verify, ecdsa_rdfc_verify, eddsa_rdfc_verify in H;
    apply bind_Ok in H as ([[proof' config] sig] & Hp%prepare_di_proof_Ok & H);
    destruct Hp as (Hp & _); rewrite Hproof in Hp; injection Hp as <-;
    repeat match type of H with
    | (_ ← _; _) = Ok _ => apply bind_Ok in H as (? & _ & H)
    end; by eapply policy_holds_binding, check_policy_Ok.
Qed.

Lemma verify_ldp_vp_Ok qid presentation binding aud wanted t v :
  accepted_audience aud -> verify_ldp_vp env rs o qid presentation binding aud wanted t = Ok v ->
  query_id v = qid /\ p_format v = FORMAT_LDP_VC /\ ldp_good wanted binding t presentation v.
Proof using.
  intros Haud. unfold verify_ldp_vp. destruct presentation as [| | | | | |d|]; try done. intros H.
  apply bind_Ok in H as (u & Hvp%raise_if_Ok%negb_false_iff & H).
  destruct (jget d ($"proof")) as [| | | | | |proof|] eqn:Eproof; try done.
  destruct (jget proof ($"cryptosuite")) as [| | | |cs| | |] eqn:Ecs; try done.
  apply bind_Ok in H as (u1 & Hcs%raise_if_Ok%negb_false_iff%bool_decide_eq_true & H). apply bind_Ok in H as (w & Hw & H).
  pose proof (ldp_suite_verify_Ok _ _ _ _ _ _ Eproof Hw) as (Hdp & Hpur & Hch & Hdom). rewrite Hdp in H.
  apply bind_Ok in H as (h & Hh & H). apply bind_Ok in H as (p & Hp%lane_policy_Ok & H).
  apply bind_Ok in H as (vcs & Hvcs & H). apply bind_Ok in H as (creds & [Hcl Hc]%mapR_imap_Ok & H).
  apply bind_Ok in H as (u2 & Hb & H). apply bind_Ok in H as (u3 & Hs%raise_if_Ok & H).
  apply bind_Ok in H as (u4 & Ht%check_type_values_Ok & H). apply Ok_inj in H as <-.
  split; [done|]. split; [done|]. exists d, proof, cs, aud, w, h, p, vcs, creds. do 6 (split; [done|]). split; [by apply ldp_suite_verify_suite|]. do 8 (split; [done|]). split.
  { unfold embedded_vcs in Hvcs. apply bind_Ok in Hvcs as (u5 & Hne%raise_if_Ok%bool_decide_eq_false & Hvcs).
    apply bind_Ok in Hvcs as (u6 & _ & Hvcs). by apply Ok_inj in Hvcs as <-. }
  split; [done|]. split; [done|]. split; [exact Hc|]. split; [by eapply check_holder_bound_Ok|]. split; [|done].
  intros Hr. rewrite Hr in Hs. apply existsb_false_Forall in Hs. eapply Forall_impl; [exact Hs|]. cbn beta. intros r Hr'.
  unfold is_not_subject in Hr'. apply orb_false_iff in Hr' as [_ Hr'%negb_false_iff]. destruct h as [h|]; [|done].
  exists h. by apply eq_str_true in Hr'.
Qed.

Lemma is_w3c_spec fmt : is_w3c fmt = true <-> fmt = FORMAT_JWT_VC \/ fmt = FORMAT_LDP_VC.
Proof using. unfold is_w3c. rewrite bool_decide_eq_true. set_solver. Qed.

Lemma verify_one_Ok query qid t presentation v accepted :
  (forall raw v, rt_json rt raw = Ok v -> json_ok v) -> query_ok qid query ->
  dc_api_accepted_auds (rt_space rt) (o_client_id _ o) (o_expected_origins _ o) = Ok accepted ->
  verify_one env rs o accepted t qid query presentation = Ok v -> presentation_good query qid t presentation v.
Proof using.
  intros Hloads Hq Hacc. unfold verify_one. destruct (qo_binding _ _ Hq) as (binding & Hbinding).
  destruct (qo_format _ _ Hq) as (fmt & Hfmt & _). rewrite Hfmt, Hbinding. cbn [default].
  case_bool_decide as Hm; intros H.
  { apply (verify_mso_mdoc_Ok _ _ _ _ _ _ Hacc) in H as (? & ? & ?). subst fmt. exists FORMAT_MSO_MDOC, binding, None, None.
    do 4 (split; [done|]). split; [done|]. split; [done|]. tauto. }
  apply bind_Ok in H as (types & Htypes & H). apply bind_Ok in H as (u & _ & H). apply bind_Ok in H as (vcts & Hvcts & H).
  apply bind_Ok in H as (sh & Hsh & H).
  assert (forall P, query_id v = qid /\ p_format v = fmt /\ P ->
    (P -> (fmt = FORMAT_SD_JWT_VC /\ sd_good vcts binding t presentation v) \/
     (fmt = FORMAT_JWT_VC /\ jwt_good types binding t presentation v) \/
     (fmt = FORMAT_LDP_VC /\ ldp_good types binding t presentation v) \/
     (is_w3c fmt = true /\ bare_good fmt types binding t presentation v) \/
     (fmt = FORMAT_MSO_MDOC /\ mdoc_good query t presentation v)) -> presentation_good query qid t presentation v) as Hgood.
  { intros P (? & ? & HP) HPgood. exists fmt, binding, types, vcts. do 4 (split; [done|]). split.
    - intros E. by rewrite E in Htypes.
    - split; [|auto]. intros E. by rewrite bool_decide_eq_true_2 in Hvcts. }
  case_bool_decide as Hshape.
  { apply bind_Ok in H as (u1 & Hb%raise_if_Ok & H). cbn in Hb. subst binding. eapply Hgood; [by apply verify_bare_Ok in H|].
    destruct (is_w3c fmt) eqn:Ew; [tauto|]. apply Ok_inj in Hsh. congruence. }
  apply bind_Ok in H as (aud & Haud & H). apply (effective_audience_Ok _ _ _ _ Hacc) in Haud.
  case_bool_decide as H1; [subst fmt; apply (verify_sd_jwt_vc_Ok _ _ _ _ _ _ _ Hloads Haud) in H; eapply Hgood; [exact H|tauto]|].
  case_bool_decide as H2; [subst fmt; apply (verify_jwt_vp_Ok _ _ _ _ _ _ _ Haud) in H; eapply Hgood; [exact H|tauto]|].
  case_bool_decide as H3; [subst fmt; apply (verify_ldp_vp_Ok _ _ _ _ _ _ _ Haud) in H; eapply Hgood; [exact H|tauto]|].
  done.
Qed.
End sound.

(** ** The whole response *)

Lemma presentation_list_Ok query value l :
  presentation_list query value = Ok l ->
  value = JList l /\ l <> [] /\ (bool_member query ($"multiple") false = Some false -> length l = 1%nat).
Proof.
  unfold presentation_list. destruct value as [| | | | |[|x xs]| |]; try done. intros H.
  apply bind_Ok in H as (u & Hm%raise_if_Ok & H). apply Ok_inj in H as <-. split; [done|]. split; [done|].
  unfold bool_member. intros E. destruct (dget query ($"multiple")) as [[]|]; try done.
  1: injection E as ->.
  all: cbn [default truthy negb andb] in Hm; by apply negb_false_iff, Nat.eqb_eq in Hm.
Qed.

(** C6: What an accepted [vp_token] guarantees.  Its keys are ids of the DCQL query and answer
    what the query requires; each value is a list of presentations, one unless the query allows
    more; and every presentation, in order, was verified by the lane of its query's format
    under this nonce and an audience the caller accepts, with the type the query asks for, and
    unless the query waives it every credential belongs to the authenticated holder.  A bare
    credential is accepted only where binding is waived, and reports no holder; an mdoc is
    bound to the session of one of the caller's origins. *)
Theorem vp_token_sound env rs o clk vp_token dcql_query vs
    (Hloads : forall raw v, rt_json (e_rt env) raw = Ok v -> json_ok v)
    (H : verify_vp_token env rs o clk vp_token dcql_query = Ok vs) :
  exists token dcql queries vss,
    parse_vp_token env vp_token = Ok token /\ token <> [] /\ dcql_query = JDict dcql /\ index_dcql dcql_query = Ok queries /\
    answers token queries dcql /\ o_nonce _ o <> [] /\ vs = concat vss /\ length vss = length token /\
    forall i qid value vs_i, token !! i = Some (qid, value) -> vss !! i = Some vs_i ->
      exists query presentations, dget queries qid = Some query /\ value = JList presentations /\ presentations <> [] /\
        (bool_member query ($"multiple") false = Some false -> length presentations = 1%nat) /\
        length vs_i = length presentations /\
        forall j p v, presentations !! j = Some p -> vs_i !! j = Some v -> presentation_good env rs o query qid (clk i j) p v.
Proof.
  unfold verify_vp_token in H. apply bind_Ok in H as (l & _ & H). apply bind_Ok in H as (k & _ & H).
  apply bind_Ok in H as (u & Hn%raise_if_Ok%bool_decide_eq_false & H). apply bind_Ok in H as (acc & Hacc & H).
  apply bind_Ok in H as (token & Htok & H). apply bind_Ok in H as (u1 & Hne%raise_if_Ok%bool_decide_eq_false & H).
  apply bind_Ok in H as (queries & Hq & H). pose proof (index_dcql_Ok _ _ Hq) as (dcql & -> & _ & [Hd Hqs] & Hsets & _).
  apply bind_Ok in H as ([] & Hc & H). apply check_completeness_spec in Hc; [|done].
  apply catch_as_Ok in H. apply bind_Ok in H as (vss & [Hlen Hvss]%mapR_imap_Ok & H). apply Ok_inj in H as <-.
  exists token, dcql, queries, vss. split; [done|]. split; [by intros ->|]. do 6 (split; [done|]).
  intros i qid value vs_i Hi Hv. specialize (Hvss _ _ _ Hi Hv). unfold verify_entry in Hvss. cbn [fst snd] in Hvss.
  destruct (dget queries qid) as [query|] eqn:Eq; [|done]. apply bind_Ok in Hvss as (ps & Hps%presentation_list_Ok & Hvss).
  destruct Hps as (-> & Hpne & Hone). apply mapR_imap_Ok in Hvss as [Hl Hvss]. exists query, ps.
  do 5 (split; [done|]). intros j p v Hj Hvj. specialize (Hvss _ _ _ Hj Hvj). cbn [fst snd] in Hvss.
  eapply verify_one_Ok; [done| |exact Hacc|exact Hvss]. rewrite Forall_forall in Hqs.
  apply dget_Some_elem in Eq. by apply (Hqs (qid, query)).
Qed.

(** ** The session of the Digital Credentials API *)

Lemma optional_bytes_inj a b : optional_bytes a = optional_bytes b -> a = b.
Proof. destruct a, b; cbn; congruence. Qed.

Definition thumbprint_ok (t : option bytes) : Prop := match t with Some b => bytes_ok b | None => True end.

Lemma handover_info_inj o n t o' n' t' b :
  pystr_ok o -> pystr_ok n -> thumbprint_ok t -> pystr_ok o' -> pystr_ok n' -> thumbprint_ok t' ->
  handover_info o n t = Ok b -> handover_info o' n' t' = Ok b -> o = o' /\ n = n' /\ t = t'.
Proof.
  unfold handover_info. intros Ho Hn Ht Ho' Hn' Ht' E E'.
  assert (forall o n t, pystr_ok o -> pystr_ok n -> thumbprint_ok t ->
    cval_ok (CArray [CText o; CText n; optional_bytes t]) /\ (height (CArray [CText o; CText n; optional_bytes t]) <= Cbor.MAX_DEPTH)%nat) as Hok.
  { clear. intros o n t ???. split; [|destruct t; cbn; unfold Cbor.MAX_DEPTH; lia]. rewrite cval_ok_array. by repeat constructor; destruct t. }
  destruct (Hok _ _ _ Ho Hn Ht) as [A B]. destruct (Hok _ _ _ Ho' Hn' Ht') as [A' B'].
  pose proof (encode_inj _ _ _ A A' B B' E E') as H. cbn [received map] in H.
  assert (forall k, received (optional_bytes k) = optional_bytes k) as Hk by (by intros []). rewrite !Hk in H.
  injection H as -> -> Et. by rewrite (optional_bytes_inj _ _ Et).
Qed.

Lemma transcript_value_ok d :
  bytes_ok d -> let v := CArray [CNull; CNull; CArray [CText ($"OpenID4VPDCAPIHandover"); CBytes d]] in
  cval_ok v /\ (height v <= Cbor.MAX_DEPTH)%nat.
Proof.
  intros Hd. cbv zeta. split; [|unfold Cbor.MAX_DEPTH; simpl; lia]. cbn [cval_ok foldr].
  assert (pystr_ok ($"OpenID4VPDCAPIHandover")) by (apply (bool_decide_unpack _); vm_compute; exact I). by split_and!.
Qed.

Lemma session_transcript_inj sha256 o n t o' n' t' tr :
  (forall x, bytes_ok (sha256 x)) -> dcapi_session_transcript sha256 o n t = Ok tr -> dcapi_session_transcript sha256 o' n' t' = Ok tr ->
  exists i i', handover_info o n t = Ok i /\ handover_info o' n' t' = Ok i' /\ sha256 i = sha256 i'.
Proof.
  intros Hsha H H'. unfold dcapi_session_transcript in *. apply bind_Ok in H as (i & Hi & H). apply bind_Ok in H' as (i' & Hi' & H').
  exists i, i'. split; [done|]. split; [done|].
  destruct (transcript_value_ok _ (Hsha i)) as [A B]. destruct (transcript_value_ok _ (Hsha i')) as [A' B'].
  pose proof (encode_inj _ _ _ A A' B B' H H') as E. cbn [received map] in E. by injection E.
Qed.

Lemma session_transcript_item sha256 o n t tr :
  (forall x, bytes_ok (sha256 x)) -> dcapi_session_transcript sha256 o n t = Ok tr -> one_item tr.
Proof.
  intros Hsha H. unfold dcapi_session_transcript in H. apply bind_Ok in H as (i & _ & H). eapply encode_one_item; [|exact H].
  by apply transcript_value_ok.
Qed.

(** An mdoc's device signature is bound to one origin and one request.  The bytes a device
    signs over the Digital Credentials API determine, up to a collision of SHA-256 on the two
    handovers, the web origin, the nonce and the response-encryption key, as well as the
    docType and the device's namespaces: a signature made for one request verifies for no
    other. *)
Theorem dcapi_session_binding sha256 origin nonce key doc_type ns origin' nonce' key' doc_type' ns' tr tr' covered
    (Hsha : forall x, bytes_ok (sha256 x))
    (Hcollision : forall i i', handover_info origin nonce key = Ok i -> handover_info origin' nonce' key' = Ok i' ->
       sha256 i = sha256 i' -> i = i')
    (Hstr : Forall pystr_ok [origin; nonce; doc_type; origin'; nonce'; doc_type'])
    (Hkey : thumbprint_ok key) (Hkey' : thumbprint_ok key')
    (Htr : dcapi_session_transcript sha256 origin nonce key = Ok tr)
    (Htr' : dcapi_session_transcript sha256 origin' nonce' key' = Ok tr')
    (Hsigned : device_authentication tr doc_type ns = Ok covered)
    (Hsigned' : device_authentication tr' doc_type' ns' = Ok covered) :
  origin = origin' /\ nonce = nonce' /\ key = key' /\ doc_type = doc_type' /\ ns = ns'.
Proof.
  repeat (apply Forall_cons in Hstr as [? Hstr]).
  pose proof (session_transcript_item _ _ _ _ _ Hsha Htr) as I. pose proof (session_transcript_item _ _ _ _ _ Hsha Htr') as I'.
  destruct (device_authentication_inj tr doc_type ns tr' doc_type' ns' covered) as (<- & <- & <-); try done.
  destruct (session_transcript_inj _ _ _ _ _ _ _ _ Hsha Htr Htr') as (i & i' & Hi & Hi' & E).
  rewrite (Hcollision _ _ Hi Hi' E) in Hi.
  by destruct (handover_info_inj origin nonce key origin' nonce' key' i') as (-> & -> & ->).
Qed.

(** ** The origin is found *)

(** The origin is a candidate whose session the device did not sign; nothing else was wrong. *)
Definition device_refused (env : environment) (o : options (e_x509 env)) (device_response : bytes)
    (anchors : list (cert (e_x509 env))) (expected : option pystr) (now : Z) (origin : pystr) : Prop :=
  exists transcript e,
    dcapi_session_transcript (rt_hash (e_rt env) ($"sha256")) origin (o_nonce _ o) (o_thumbprint _ o) = Ok transcript /\
    verify_for_origin env o device_response anchors expected now transcript = Err e /\
    isinstance e MdocDeviceAuthError = true.

(** A response bound to one of the caller's origins is accepted.  If a candidate's session
    is the one the device signed, and every candidate before it was refused for its device
    authentication alone, the origins are tried until that one and its documents are
    returned; an issuer-side failure ends the search with its own error. *)
Theorem mdoc_origin_found env o last_error device_response anchors expected now before origin after documents transcript
    (Hbefore : Forall (device_refused env o device_response anchors expected now) before)
    (Htr : dcapi_session_transcript (rt_hash (e_rt env) ($"sha256")) origin (o_nonce _ o) (o_thumbprint _ o) = Ok transcript)
    (Hverified : verify_for_origin env o device_response anchors expected now transcript = Ok documents) :
  try_origins env o last_error device_response anchors expected now (before ++ origin :: after) = Ok documents.
Proof.
  revert last_error. induction Hbefore as [|other before (tr & e & Ht & He & Hauth) _ IH]; intros last_error; cbn [app try_origins].
  - rewrite Htr. cbn [mbind result_bind]. by rewrite Hverified.
  - rewrite Ht. cbn [mbind result_bind]. by rewrite He, Hauth.
Qed.

(** * Examples *)

(** The world of [VpJwt], with a document signer and a device: signatures over bytes in which
    254 occurs are refused, and a hash holds 254 when 126, the character [~], occurs. *)
Definition session_rt : runtime :=
  with_contexts
    {| rt_json := vp_loads; rt_json_text := rt_json_text example_rt; rt_ed25519 := rt_ed25519 vp_rt;
       rt_ecdsa := fun _ _ _ _ data => Some (negb (bool_decide (254 ∈ data))); rt_mldsa := rt_mldsa vp_rt;
       rt_point := rt_point vp_rt; rt_float_repr := rt_float_repr vp_rt; rt_lower := rt_lower vp_rt;
       rt_on_curve := rt_on_curve vp_rt; rt_from_jwk := rt_from_jwk vp_rt; rt_pyjwt := rt_pyjwt vp_rt;
       rt_space := rt_space vp_rt; rt_decimal := rt_decimal vp_rt; rt_fromisoformat := fun _ => Some (5, None);
       rt_hash := fun _ data => if bool_decide (126 ∈ data) then [254] else [1]; rt_processor := rt_processor vp_rt;
       rt_gzip := rt_gzip vp_rt; rt_zlib := rt_zlib vp_rt; rt_urlparse := rt_urlparse vp_rt; rt_urlunparse := rt_urlunparse vp_rt;
       rt_json_std := rt_json_std vp_rt; rt_ld := rt_ld vp_rt; rt_bundled := []; rt_extra_contexts := [] |} [].
Definition example_env (rt : runtime) : environment :=
  {| e_rt := rt; e_contexts := []; e_expand := fun _ => ExpandFailed; e_pyld := false; e_x509 := toy_x509; e_hmac_sha256 := fun _ _ => [];
     e_date_fromisoformat := fun _ => None |}.
Definition example_options (client_id : option pystr) (origins : option json) : options toy_x509 :=
  {| o_nonce := $"n"; o_client_id := client_id; o_expected_origins := origins; o_trust_anchors := (Some [[7]] : option (list (cert toy_x509)));
     o_thumbprint := None; o_leeway_s := JInt 60; o_kb_max_age_s := JInt 300; o_require_holder_binding := false;
     o_require_status := false |}.
Definition example_instants : instants := {| i_credential := fun _ => example_clocks; i_wall := NInt 0; i_now := 5 |}.

(** A query that waives holder binding, answered with the presentation of [VpJwt]. *)
Definition waived_dcql : json :=
  JDict [($"credentials", JList [JDict [($"id", JStr ($"c")); ($"format", JStr FORMAT_JWT_VC);
                                        ($"require_cryptographic_holder_binding", JBool false)]])].
Abbreviation example_token := (verify_vp_token (example_env vp_rt) vp_resolvers (example_options (Some ($"me")) None)
  (fun _ _ => example_instants) (JDict [($"c", JList [JStr ($"ag.aQ.cw")])]) waived_dcql).

Lemma example_token_Ok : exists vs, example_token = Ok vs.
Proof.
  assert (is_ok example_token = true) as H by (vm_compute; reflexivity).
  destruct example_token as [vs|]; [by exists vs|discriminate H].
Qed.

Lemma vp_json_ok raw v : rt_json vp_rt raw = Ok v -> json_ok v.
Proof.
  cbn [rt_json vp_rt]. unfold vp_loads, example_loads. repeat case_bool_decide; intros [= <-];
    unfold example_payload, example_envelope; solve_json_ok.
Qed.

Lemma vp_token_sound_witness : exists vs token dcql queries vss, example_token = Ok vs /\
  index_dcql waived_dcql = Ok queries /\ answers token queries dcql /\ vs = concat vss.
Proof.
  destruct example_token_Ok as [vs H]. pose proof H as H'.
  apply (vp_token_sound (example_env vp_rt) _ _ _ _ _ _ vp_json_ok) in H' as (token & dcql & queries & vss & _ & _ & _ & Hq & Ha & _ & Hvs & _).
  exists vs, token, dcql, queries, vss. exact (conj H (conj Hq (conj Ha Hvs))).
Defined.

Definition session_device_key : cval :=
  CMap [(KInt 1, CInt 2); (KInt (-1), CInt 1); (KInt (-2), CBytes (repeat 7 32)); (KInt (-3), CBytes (repeat 7 32))].
Definition session_mso : cval :=
  CMap [(KText ($"docType"), CText ($"mdl")); (KText ($"digestAlgorithm"), CText ($"SHA-256"));
        (KText ($"valueDigests"), CMap [(KText ($"ns"), CMap [(KInt 0, CBytes [1])])]);
        (KText ($"validityInfo"), CMap [(KText ($"signed"), CText ($"t")); (KText ($"validFrom"), CText ($"t")); (KText ($"validUntil"), CText ($"t"))]);
        (KText ($"deviceKeyInfo"), CMap [(KText ($"deviceKey"), session_device_key)])].
Definition session_sign1 (payload unprotected : cval) : cval :=
  CArray [CBytes (encoded (CMap [(KInt 1, CInt (-7))])); unprotected; payload; CBytes (repeat 1 64)].
Definition session_response : bytes := encoded
  (CMap [(KText ($"status"), CInt 0);
         (KText ($"documents"), CArray [CMap
           [(KText ($"docType"), CText ($"mdl"));
            (KText ($"issuerSigned"), CMap
              [(KText ($"issuerAuth"), session_sign1 (CBytes (encoded (CTag 24 (CBytes (encoded session_mso)) None))) (CMap [(KInt 33, CBytes [7])]));
               (KText ($"nameSpaces"), CMap [(KText ($"ns"), CArray [CTag 24 (CBytes (encoded toy_item)) None])])]);
            (KText ($"deviceSigned"), CMap
              [(KText ($"nameSpaces"), CTag 24 (CBytes [160]) None);
               (KText ($"deviceAuth"), CMap [(KText ($"deviceSignature"), session_sign1 CNull (CMap []))])])]])]).

Abbreviation session_verify := (verify_for_origin (example_env session_rt) (example_options None None) session_response [[7]] (Some ($"mdl")) 5).
Definition session_transcript (origin : pystr) : bytes :=
  match dcapi_session_transcript (rt_hash session_rt ($"sha256")) origin ($"n") None with Ok t => t | Err _ => [] end.

Lemma session_verified : exists documents, session_verify (session_transcript ($"o")) = Ok documents.
Proof.
  assert (is_ok (session_verify (session_transcript ($"o"))) = true) as H by (vm_compute; reflexivity).
  destruct (session_verify _) as [ds|]; [by exists ds|discriminate H].
Qed.

Lemma mdoc_origin_found_witness : exists documents,
  try_origins (example_env session_rt) (example_options None None) AssertionError session_response [[7]] (Some ($"mdl")) 5
    [$"~"; $"o"] = Ok documents.
Proof.
  destruct session_verified as [documents H]. exists documents.
  apply (mdoc_origin_found (example_env session_rt) (example_options None None) AssertionError session_response [[7]] (Some ($"mdl")) 5
    [$"~"] ($"o") [] documents (session_transcript ($"o"))).
  - repeat constructor. exists (session_transcript ($"~")), MdocDeviceAuthError. repeat split; vm_compute; reflexivity.
  - vm_compute. reflexivity.
  - exact H.
Defined.

Lemma dcapi_session_binding_witness : exists tr covered,
  dcapi_session_transcript (map (fun b => b mod 256)) ($"o") ($"n") None = Ok tr /\
  device_authentication tr ($"mdl") [160] = Ok covered /\ $"o" = $"o" /\ $"n" = $"n" /\ @None bytes = None /\ $"mdl" = $"mdl" /\ [160] = [160].
Proof.
  eexists _, _. split; [vm_compute; reflexivity|]. split; [vm_compute; reflexivity|].
  eapply (dcapi_session_binding (map (fun b => b mod 256)) ($"o") ($"n") None ($"mdl") [160] ($"o") ($"n") None ($"mdl") [160]).
  - intros x. apply Forall_map, Forall_true. intros b. apply Z.mod_pos_bound. reflexivity.
  - intros i i' E E' _. rewrite E in E'. by injection E'.
  - by apply (bool_decide_unpack _); vm_compute.
  - exact I.
  - exact I.
  - vm_compute. reflexivity.
  - vm_compute. reflexivity.
  - vm_compute. reflexivity.
  - vm_compute. reflexivity.
Defined.
