(* ===== verification/OpenId4Vci.v ===== *)
(** [openvc.openid4vci] (src/src/openvc/openid4vci.py): the issuer's checks of a Credential
    Request: its shape, every key proof, the invariants of the batch, and the single use of the
    nonce; and the parsers of Credential Offers and issuer metadata.

    The nonce store is the caller's: a state the verification threads and consumes from
    ([NonceStore]).  Signatures, hashes, X.509 and [urlparse] are parameters. *)
From S2P Require Import Prelude Errors PyStr Json Base64 PyNum VerifyCommon VcJwt Did Keys JwtVcIssuer X5c.

Definition PROOF_TYPE_JWT : pystr := $"jwt".
Definition PROOF_TYP : list pystr := [$"openid4vci-proof+jwt"; $"application/openid4vci-proof+jwt"].
Definition MAX_PROOF_BYTES : Z := 16 * 1024.
Definition MAX_KEY_ATTESTATION_BYTES : Z := 16 * 1024.
Definition KEY_PARAMS : list pystr := [$"jwk"; $"kid"; $"x5c"; $"trust_chain"].
Definition ALG_KEY_BINDING : list (pystr * (pystr * pystr)) :=
  [($"EdDSA", ($"OKP", $"Ed25519")); ($"Ed25519", ($"OKP", $"Ed25519")); ($"ES256", ($"EC", $"P-256")); ($"ES384", ($"EC", $"P-384"))].
Definition PRIVATE_JWK_MEMBERS : list pystr := [$"d"; $"k"; $"p"; $"q"; $"dp"; $"dq"; $"qi"; $"priv"].

(** ** Results *)

Record UnverifiedKeyAttestation := {
  attested_keys : list jobject; key_storage : list pystr; user_authentication : list pystr; certification : option pystr;
  ka_nonce : option pystr; ka_status : option jobject; ka_issued_at : option Z; ka_expires_at : option Z;
  ka_header : jobject; ka_claims : jobject }.

Record VerifiedProof := {
  public_jwk : jobject; thumbprint : pystr; alg : pystr; key_source : pystr; issued_at : Z; nonce : option pystr;
  client_id : option pystr; key_attestation : option pystr; pf_header : jobject; pf_claims : jobject }.

Record ProofKeyContext := {
  ctx_kid : pystr; ctx_alg : pystr; ctx_header : jobject; ctx_key_attestation : option UnverifiedKeyAttestation;
  ctx_credential_issuer : pystr; ctx_index : nat }.

Record CredentialRequest := {
  credential_configuration_id : option pystr; credential_identifier : option pystr; proof_type : pystr; proofs : list pystr;
  response_encryption : option jobject; request_raw : jobject }.

Record CredentialOffer := { offer_issuer : pystr; credential_configuration_ids : list pystr; grants : jobject; offer_raw : jobject }.

Record CredentialIssuerMetadata := {
  md_issuer : pystr; credential_endpoint : pystr; authorization_servers : list pystr; nonce_endpoint : option pystr;
  deferred_credential_endpoint : option pystr; notification_endpoint : option pystr;
  credential_configurations_supported : jobject; batch_size : option Z; md_raw : jobject }.

(** * Request shape *)

Section shape.
Context (json_loads : pystr -> result json).

Definition as_mapping (value : json) : result jobject :=
  match value with
  | JDict d => Ok d
  | JStr s =>
      parsed ← catch_as (fun e => isinstance e ValueError || isinstance e RecursionError) CredentialRequestMalformed (json_loads s);
      match parsed with JDict d => Ok d | _ => Err CredentialRequestMalformed end
  | _ => Err CredentialRequestMalformed
  end.

(** One entry of the array under [proofs]. *)
Definition proof_value (proof_type : pystr) (value : json) : result pystr :=
  match value with
  | JStr ((_ :: _) as s) =>
      raise_if (negb (isascii s)) CredentialRequestMalformed;;
      raise_if (MAX_PROOF_BYTES <? len s) CredentialRequestMalformed;; Ok s
  | _ => Err (if bool_decide (proof_type = PROOF_TYPE_JWT) then CredentialRequestMalformed else UnsupportedProofType)
  end.

Definition parse_proofs (proofs : json) (limit : Z) : result (pystr * list pystr) :=
  match proofs with
  | JDict [(proof_type, values)] =>
      raise_if (bool_decide (proof_type = [])) CredentialRequestMalformed;;
      match values with
      | JList ((_ :: _) as values) =>
          raise_if (limit <? len values) CredentialRequestMalformed;;
          vs ← mapR (proof_value proof_type) values; Ok (proof_type, vs)
      | _ => Err CredentialRequestMalformed
      end
  | _ => Err CredentialRequestMalformed
  end.

(** [value is not None and (not isinstance(value, str) or not value)]. *)
Definition optional_name (value : json) : result (option pystr) :=
  match value with JNull => Ok None | JStr ((_ :: _) as s) => Ok (Some s) | _ => Err CredentialRequestMalformed end.

Definition parse_credential_request (body : json) (batch_size : option Z) (supported_configuration_ids : option (list pystr))
    : result CredentialRequest :=
  body ← as_mapping body;
  let limit := default 1 batch_size in
  raise_if (limit <? 1) CredentialRequestMalformed;;
  let config_id := jget body ($"credential_configuration_id") in
  let identifier := jget body ($"credential_identifier") in
  raise_if (Bool.eqb (is_none config_id) (is_none identifier)) CredentialRequestMalformed;;
  config_id ← optional_name config_id;
  identifier ← optional_name identifier;
  raise_if (match config_id, supported_configuration_ids with
            | Some c, Some ids => negb (bool_decide (c ∈ ids))
            | _, _ => false
            end) CredentialRequestMalformed;;
  '(proof_type, proofs) ← parse_proofs (jget body ($"proofs")) limit;
  encryption ← match jget body ($"credential_response_encryption") with
               | JNull => Ok None | JDict d => Ok (Some d) | _ => Err CredentialRequestMalformed
               end;
  Ok {| credential_configuration_id := config_id; credential_identifier := identifier; proof_type := proof_type;
        proofs := proofs; response_encryption := encryption; request_raw := body |}.
End shape.

(** * Offers and metadata *)

Section discovery.
Context (json_loads : pystr -> result json) (urlparse : pystr -> result ParseResult) (lower : pystr -> pystr).

(** [params], [query] and [fragment] are empty: [raw_url_disagreement] refuses their
    delimiters. *)
Definition require_https_url (value : json) (error : exn) : result pystr :=
  match value with
  | JStr ((_ :: _) as s) =>
      raise_if (existsb (fun c => (c <? 33) || (c =? 127)) s) error;;
      raise_if (raw_url_disagreement s) error;;
      parsed ← catch_as (fun e => isinstance e ValueError) error (urlparse s);
      raise_if (negb (bool_decide (scheme parsed = $"https")) || bool_decide (netloc parsed = [])) error;;
      raise_if (match hostname parsed with Some h => forallb (fun c => c =? 46) h | None => true end) error;;
      raise_if (has_userinfo parsed) error;;
      raise_if (parsed_url_disagreement lower parsed) error;;
      Ok s
  | _ => Err error
  end.

Definition as_offer_mapping (value : json) : result jobject :=
  catch_as (fun e => isinstance e CredentialRequestMalformed) CredentialOfferMalformed (as_mapping json_loads value).
Definition as_metadata_mapping (value : json) : result jobject :=
  catch_as (fun e => isinstance e CredentialRequestMalformed) IssuerMetadataMalformed (as_mapping json_loads value).

(** The loop over the ids: non-empty, distinct strings. *)
Definition add_config_id (seen : list pystr) (config_id : json) : result (list pystr) :=
  match config_id with
  | JStr ((_ :: _) as s) => raise_if (bool_decide (s ∈ seen)) CredentialOfferMalformed;; Ok (seen ++ [s])
  | _ => Err CredentialOfferMalformed
  end.

Definition parse_credential_offer (offer : json) : result CredentialOffer :=
  offer ← as_offer_mapping offer;
  issuer ← require_https_url (jget offer ($"credential_issuer")) CredentialOfferMalformed;
  match jget offer ($"credential_configuration_ids") with
  | JList ((_ :: _) as ids) =>
      ids ← foldR add_config_id [] ids;
      grants ← match jget offer ($"grants") with JNull => Ok [] | JDict g => Ok g | _ => Err CredentialOfferMalformed end;
      Ok {| offer_issuer := issuer; credential_configuration_ids := ids; grants := grants; offer_raw := offer |}
  | _ => Err CredentialOfferMalformed
  end.

Definition optional_endpoint (metadata : jobject) (name : pystr) : result (option pystr) :=
  match jget metadata name with
  | JNull => Ok None
  | v => u ← require_https_url v IssuerMetadataMalformed; Ok (Some u)
  end.

Definition metadata_batch_size (batch : json) : result (option Z) :=
  match batch with
  | JNull => Ok None
  | JDict b => match jget b ($"batch_size") with
               | JInt n => raise_if (n <? 2) IssuerMetadataMalformed;; Ok (Some n)
               | _ => Err IssuerMetadataMalformed
               end
  | _ => Err IssuerMetadataMalformed
  end.

Definition parse_credential_issuer_metadata (metadata : json) : result CredentialIssuerMetadata :=
  metadata ← as_metadata_mapping metadata;
  issuer ← require_https_url (jget metadata ($"credential_issuer")) IssuerMetadataMalformed;
  endpoint ← require_https_url (jget metadata ($"credential_endpoint")) IssuerMetadataMalformed;
  servers ← match jget metadata ($"authorization_servers") with
            | JNull => Ok []
            | JList ((_ :: _) as l) => mapR (fun server => require_https_url server IssuerMetadataMalformed) l
            | _ => Err IssuerMetadataMalformed
            end;
  nonce_ep ← optional_endpoint metadata ($"nonce_endpoint");
  deferred ← optional_endpoint metadata ($"deferred_credential_endpoint");
  notification ← optional_endpoint metadata ($"notification_endpoint");
  configs ← match jget metadata ($"credential_configurations_supported") with
            | JNull => Ok [] | JDict d => Ok d | _ => Err IssuerMetadataMalformed
            end;
  batch ← metadata_batch_size (jget metadata ($"batch_credential_issuance"));
  Ok {| md_issuer := issuer; credential_endpoint := endpoint; authorization_servers := servers; nonce_endpoint := nonce_ep;
        deferred_credential_endpoint := deferred; notification_endpoint := notification;
        credential_configurations_supported := configs; batch_size := batch; md_raw := metadata |}.
End discovery.

(** * Key attestations, read without trusting them *)

Section attestation.
Context (json_loads : bytes -> result json).

Definition peek_proof_header (proof : json) : result jobject :=
  match proof with
  | JStr s =>
      raise_if (negb (isascii s)) MalformedToken;;
      raise_if (MAX_PROOF_BYTES <? len s) MalformedToken;;
      '(header, _, _, _) ← parse_compact json_loads s; Ok header
  | _ => Err MalformedToken
  end.

Definition attestation_strings (value : json) : result (list pystr) :=
  match value with
  | JNull => Ok []
  | JList ((_ :: _) as l) => mapR (fun v => match v with JStr s => Ok s | _ => Err ClaimsInvalid end) l
  | _ => Err ClaimsInvalid
  end.

Definition attestation_string (value : json) : result (option pystr) :=
  match value with JNull => Ok None | JStr s => Ok (Some s) | _ => Err ClaimsInvalid end.

Definition attestation_object (value : json) : result (option jobject) :=
  match value with JNull => Ok None | JDict d => Ok (Some d) | _ => Err ClaimsInvalid end.

Definition attestation_timestamp (value : json) : result (option Z) :=
  if is_none value then Ok None
  else match as_num value with
       | Some v => raise_if (negb (is_numeric_date value)) ClaimsInvalid;; Ok (Some (int_of_num v))
       | None => Err ClaimsInvalid
       end.

Definition peek_key_attestation (attestation : json) : result UnverifiedKeyAttestation :=
  match attestation with
  | JStr s =>
      raise_if (negb (isascii s)) MalformedToken;;
      raise_if (MAX_KEY_ATTESTATION_BYTES <? len s) MalformedToken;;
      '(header, claims, _, _) ← parse_compact json_loads s;
      match jget claims ($"attested_keys") with
      | JList ((_ :: _) as keys) =>
          keys ← mapR (fun k => match k with JDict d => Ok d | _ => Err ClaimsInvalid end) keys;
          storage ← attestation_strings (jget claims ($"key_storage"));
          user ← attestation_strings (jget claims ($"user_authentication"));
          cert ← attestation_string (jget claims ($"certification"));
          nonce ← attestation_string (jget claims ($"nonce"));
          status ← attestation_object (jget claims ($"status"));
          iat ← attestation_timestamp (jget claims ($"iat"));
          exp ← attestation_timestamp (jget claims ($"exp"));
          Ok {| attested_keys := keys; key_storage := storage; user_authentication := user; certification := cert;
                ka_nonce := nonce; ka_status := status; ka_issued_at := iat; ka_expires_at := exp;
                ka_header := header; ka_claims := claims |}
      | _ => Err ClaimsInvalid
      end
  | _ => Err MalformedToken
  end.
End attestation.

(** * Key proofs *)

Definition check_key_binds_to_alg (jwk : jobject) (alg : pystr) : result unit :=
  match dget ALG_KEY_BINDING alg with
  | Some (kty, crv) => raise_if (negb (eq_str (jget jwk ($"kty")) kty) || negb (eq_str (jget jwk ($"crv")) crv)) ClaimsInvalid
  | None =>
      if bool_decide (alg ∈ MLDSA_ALGS)
      then raise_if (negb (eq_str (jget jwk ($"kty")) ($"AKP")) || negb (eq_str (jget jwk ($"alg")) alg)) ClaimsInvalid
      else Err UnsupportedAlgorithm
  end.

(** The [aud] of a proof: one string, or an array of exactly one. *)
Definition vci_check_audience (aud : json) (credential_issuer : pystr) : result unit :=
  values ← match aud with JStr s => Ok [JStr s] | JList l => Ok l | _ => Err ClaimsInvalid end;
  match values with
  | [v] => raise_if (negb (eq_str v credential_issuer)) ClaimsInvalid
  | _ => Err ClaimsInvalid
  end.

Section proofs.
Context (json_loads : bytes -> result json) (verify_signature : pystr -> json -> bytes -> bytes -> result bool)
  (digest : pystr -> bytes -> bytes).
Context (L : x509_library).

Definition vci_thumbprint (jwk : jobject) : result pystr :=
  catch_as (fun e => isinstance e InvalidKey) ClaimsInvalid (jwk_thumbprint digest jwk ($"sha-256")).

(** [any(...)] over the attested keys: it stops at the first match, and a key before it that
    has no thumbprint raises. *)
Fixpoint any_attested (tp : pystr) (keys : list jobject) : result bool :=
  match keys with
  | [] => Ok false
  | key :: keys => t ← vci_thumbprint key; if bool_decide (t = tp) then Ok true else any_attested tp keys
  end.

Definition check_attested_key (tp : pystr) (attestation : UnverifiedKeyAttestation) : result unit :=
  found ← any_attested tp (attested_keys attestation); raise_if (negb found) ClaimsInvalid.

(** The caller's arguments; the resolvers return any object. *)
Record vci_options := {
  v_issuer : pystr; v_expected_client_id : option pystr; v_resolve : option (pystr -> result json);
  v_resolve_in_context : option (ProofKeyContext -> result json); v_anchors : list (cert L);
  v_require_attestation : bool; v_require_nonce : bool; v_max_age_s : Z; v_leeway_s : json;
  v_current : Z; v_now : Z; v_allowed_algs : list pystr }.
Context (o : vci_options).

Definition jwk_of (v : json) (alg : pystr) : result jobject :=
  match v with JDict jwk => check_key_binds_to_alg jwk alg;; Ok jwk | _ => Err ClaimsInvalid end.

Definition proof_key (header : jobject) (alg : pystr) (attestation : option UnverifiedKeyAttestation) (index : nat)
    : result (jobject * pystr) :=
  match filter (fun name => negb (is_none (jget header name)) = true) KEY_PARAMS with
  | [source] =>
      if bool_decide (source = $"jwk") then
        match jget header ($"jwk") with
        | JDict jwk =>
            raise_if (existsb (dmem jwk) PRIVATE_JWK_MEMBERS) ClaimsInvalid;;
            check_key_binds_to_alg jwk alg;; Ok (jwk, source)
        | _ => Err ClaimsInvalid
        end
      else if bool_decide (source = $"x5c") then
        raise_if (match v_anchors o with [] => true | _ => false end) ClaimsInvalid;;
        chain ← load_x5c_chain L (jget header ($"x5c"));
        leaf ← validate_cert_chain L chain (v_anchors o) (v_now o);
        jwk ← leaf_public_jwk L leaf;
        check_key_binds_to_alg jwk alg;; Ok (jwk, source)
      else if bool_decide (source = $"kid") then
        match jget header ($"kid") with
        | JStr ((_ :: _) as kid) =>
            v ← match v_resolve_in_context o, v_resolve o with
                | Some f, _ => f {| ctx_kid := kid; ctx_alg := alg; ctx_header := header; ctx_key_attestation := attestation;
                                    ctx_credential_issuer := v_issuer o; ctx_index := index |}
                | None, Some f => f kid
                | None, None => Err ClaimsInvalid
                end;
            jwk ← jwk_of v alg; Ok (jwk, source)
        | _ => Err ClaimsInvalid
        end
      else Err UnsupportedProofType
  | _ => Err ClaimsInvalid
  end.

(** The [key_attestation] header, verbatim and parsed. *)
Definition attested_from (header : jobject) : result (option pystr * option UnverifiedKeyAttestation) :=
  match jget header ($"key_attestation") with
  | JNull => Ok (None, None)
  | JStr s => a ← peek_key_attestation json_loads (JStr s); Ok (Some s, Some a)
  | _ => Err ClaimsInvalid
  end.

Definition verify_one_proof (index : nat) (proof : pystr) : result VerifiedProof :=
  '(header, _, _, _) ← parse_compact json_loads proof;
  raise_if (negb match jget header ($"typ") with JStr t => bool_decide (t ∈ PROOF_TYP) | _ => false end) ClaimsInvalid;;
  match allowed_alg (jget header ($"alg")) (v_allowed_algs o) with
  | None => Err UnsupportedAlgorithm
  | Some alg =>
      reject_unknown_crit header;;
      '(attestation_jwt, attestation) ← attested_from header;
      raise_if (v_require_attestation o && match attestation with None => true | _ => false end) ClaimsInvalid;;
      '(jwk, source) ← proof_key header alg attestation index;
      tp ← vci_thumbprint jwk;
      match attestation with Some a => check_attested_key tp a | None => Ok tt end;;
      '(_, claims) ← verify_compact json_loads verify_signature proof (JDict jwk) (v_allowed_algs o);
      vci_check_audience (jget claims ($"aud")) (v_issuer o);;
      issued_at ← check_iat_freshness (jget claims ($"iat")) (v_max_age_s o) (v_leeway_s o) (NInt (v_current o));
      check_jwt_temporal claims (v_leeway_s o) (NInt (v_current o)) true;;
      client_id ← match jget claims ($"iss") with JNull => Ok None | JStr s => Ok (Some s) | _ => Err ClaimsInvalid end;
      raise_if (match v_expected_client_id o with Some e => negb (bool_decide (client_id = Some e)) | None => false end) ClaimsInvalid;;
      nonce ← match jget claims ($"nonce") with JNull => Ok None | JStr ((_ :: _) as n) => Ok (Some n) | _ => Err ClaimsInvalid end;
      Ok {| public_jwk := jwk; thumbprint := tp; alg := alg; key_source := source; issued_at := issued_at; nonce := nonce;
            client_id := client_id; key_attestation := attestation_jwt; pf_header := header; pf_claims := claims |}
  end.

(** ** The batch, and the nonce store *)

(** [check_nonce]: whether this call consumed the nonce, and the store it leaves. *)
Definition check_batch_invariants {S} (consume : option (pystr -> S -> bool * S)) (verified : list VerifiedProof) (store : S)
    : result unit * S :=
  match remove_dups (map nonce verified) with
  | [n] =>
      match (raise_if (v_require_nonce o && bool_decide (n = None)) ClaimsInvalid;;
             raise_if (negb (bool_decide (NoDup (map thumbprint verified)))) ClaimsInvalid) with
      | Err e => (Err e, store)
      | Ok _ =>
          match n, consume with
          | Some n, Some check_nonce =>
              let '(ok, store) := check_nonce n store in (raise_if (negb ok) ProofReplayed, store)
          | _, _ => (Ok tt, store)
          end
      end
  | _ => (Err ClaimsInvalid, store)
  end.

(** The checks before a request is read. *)
Definition check_arguments {S} (consume : option (pystr -> S -> bool * S)) : result unit :=
  leeway_seconds (v_leeway_s o) CredentialRequestMalformed;;
  raise_if (bool_decide (v_issuer o = [])) CredentialRequestMalformed;;
  raise_if (v_require_nonce o && match consume with None => true | _ => false end) ClaimsInvalid;;
  raise_if (v_max_age_s o <? 0) CredentialRequestMalformed;;
  raise_if (match v_resolve o, v_resolve_in_context o with Some _, Some _ => true | _, _ => false end) CredentialRequestMalformed.

Definition verify_proofs (request : CredentialRequest) : result (list VerifiedProof) :=
  raise_if (negb (bool_decide (proof_type request = PROOF_TYPE_JWT))) UnsupportedProofType;;
  mapR (fun ip : nat * pystr => verify_one_proof ip.1 ip.2) (imap (fun i p => (i, p)) (proofs request)).

(** [verify_credential_request_proofs]: [request] is a parsed request, or a body to parse. *)
Definition verify_credential_request_proofs {S} (json_text : pystr -> result json) (consume : option (pystr -> S -> bool * S))
    (request : CredentialRequest + json) (batch_size : option Z) (store : S) : result (list VerifiedProof) * S :=
  match (check_arguments consume;;
         request ← match request with
                   | inl r => Ok r
                   | inr body => parse_credential_request json_text body batch_size None
                   end;
         verify_proofs request) with
  | Err e => (Err e, store)
  | Ok verified =>
      let '(checked, store) := check_batch_invariants consume verified store in
      ((checked;; Ok verified), store)
  end.
End proofs.

(** * What a verified request guarantees *)

Section sound.
Context (json_loads : bytes -> result json) (verify_signature : pystr -> json -> bytes -> bytes -> result bool)
  (digest : pystr -> bytes -> bytes).
Context (L : x509_library).

(** Where the key of a proof comes from: the one key parameter of its header. *)
Definition key_from (o : vci_options L) (header : jobject) (alg : pystr) (attestation : option UnverifiedKeyAttestation) (index : nat)
    (jwk : jobject) (source : pystr) : Prop :=
  (source = $"jwk" /\ jget header ($"jwk") = JDict jwk /\ forall m, m ∈ PRIVATE_JWK_MEMBERS -> dmem jwk m = false) \/
  (source = $"x5c" /\ exists leaf intermediates, load_x5c_chain L (jget header ($"x5c")) = Ok (leaf :: intermediates) /\
     anchored L (v_anchors _ o) (v_now _ o) leaf intermediates /\ leaf_public_jwk L leaf = Ok jwk) \/
  (source = $"kid" /\ exists kid, jget header ($"kid") = JStr kid /\ kid <> [] /\
     match v_resolve_in_context _ o, v_resolve _ o with
     | Some f, _ => f {| ctx_kid := kid; ctx_alg := alg; ctx_header := header; ctx_key_attestation := attestation;
                         ctx_credential_issuer := v_issuer _ o; ctx_index := index |} = Ok (JDict jwk)
     | None, Some f => f kid = Ok (JDict jwk)
     | None, None => False
     end).

Record proof_guarantee (o : vci_options L) (index : nat) (proof : pystr) (v : VerifiedProof) : Prop := {
  pg_signed : exists si sig, parse_compact json_loads proof = Ok (pf_header v, pf_claims v, si, sig) /\
    jget (pf_header v) ($"alg") = JStr (alg v) /\ alg v ∈ v_allowed_algs _ o /\ dmem (pf_header v) ($"crit") = false /\
    verify_signature (alg v) (JDict (public_jwk v)) si sig = Ok true;
  pg_typ : exists typ, jget (pf_header v) ($"typ") = JStr typ /\ typ ∈ PROOF_TYP;
  (** exactly one key parameter, and the key is of the algorithm's type *)
  pg_one : forall name, name ∈ KEY_PARAMS -> jget (pf_header v) name <> JNull -> name = key_source v;
  pg_binds : check_key_binds_to_alg (public_jwk v) (alg v) = Ok tt;
  pg_thumbprint : vci_thumbprint digest (public_jwk v) = Ok (thumbprint v);
  (** a proof that carries an attestation is signed by one of its keys *)
  pg_attested : exists attestation, key_from o (pf_header v) (alg v) attestation index (public_jwk v) (key_source v) /\
    match key_attestation v, attestation with
    | Some s, Some a => jget (pf_header v) ($"key_attestation") = JStr s /\ peek_key_attestation json_loads (JStr s) = Ok a /\
        exists key, key ∈ attested_keys a /\ vci_thumbprint digest key = Ok (thumbprint v)
    | None, None => jget (pf_header v) ($"key_attestation") = JNull /\ v_require_attestation _ o = false
    | _, _ => False
    end;
  pg_audience : jget (pf_claims v) ($"aud") = JStr (v_issuer _ o) \/ jget (pf_claims v) ($"aud") = JList [JStr (v_issuer _ o)];
  pg_fresh : exists leeway, v_leeway_s _ o = JInt leeway /\ forall n, jget (pf_claims v) ($"iat") = JInt n ->
    issued_at v = n /\ v_current _ o - n <= v_max_age_s _ o + leeway /\ n - v_current _ o <= leeway;
  pg_client : jget (pf_claims v) ($"iss") = match client_id v with Some c => JStr c | None => JNull end /\
    forall e, v_expected_client_id _ o = Some e -> client_id v = Some e;
  pg_nonce : jget (pf_claims v) ($"nonce") = match nonce v with Some n => JStr n | None => JNull end /\ nonce v <> Some [] }.

Lemma check_key_binds_unit jwk alg u : check_key_binds_to_alg jwk alg = Ok u -> check_key_binds_to_alg jwk alg = Ok tt.
Proof using. by destruct u. Qed.

Lemma proof_key_Ok o header alg attestation index jwk source :
  proof_key L o header alg attestation index = Ok (jwk, source) ->
  (forall name, name ∈ KEY_PARAMS -> jget header name <> JNull -> name = source) /\
  check_key_binds_to_alg jwk alg = Ok tt /\ key_from o header alg attestation index jwk source.
Proof using.
  unfold proof_key. destruct (filter _ KEY_PARAMS) as [|src [|]] eqn:Ef; try done. intros H.
  assert (forall name, name ∈ KEY_PARAMS -> jget header name <> JNull -> name = src) as Hone.
  { intros name Hin Hn. assert (name ∈ [src]) as Hs; [|by apply list_elem_of_singleton in Hs].
    rewrite <-Ef. apply list_elem_of_filter. split; [by destruct (jget header name)|done]. }
  assert (source = src /\ check_key_binds_to_alg jwk alg = Ok tt /\ key_from o header alg attestation index jwk src) as (-> & Hb & Hk); [|by split_and!].
  unfold key_from. case_bool_decide as H1; [|case_bool_decide as H2; [|case_bool_decide as H3; [|done]]].
  - destruct (jget header ($"jwk")) as [| | | | | |j|] eqn:Ej; try done.
    apply bind_Ok in H as (u & Hp%raise_if_Ok & H). apply bind_Ok in H as (u1 & Hb%check_key_binds_unit & H).
    apply Ok_inj in H. injection H as <- <-. split; [done|]. split; [done|]. left. split; [done|]. split; [done|].
    intros m Hm. destruct (dmem j m) eqn:Em; [|done]. exfalso. apply not_true_iff_false in Hp. apply Hp, existsb_exists.
    exists m. split; [by apply list_elem_of_In|done].
  - apply bind_Ok in H as (u & _ & H). apply bind_Ok in H as (chain & Hc & H).
    apply bind_Ok in H as (leaf & (cs & -> & Ha)%validate_cert_chain_Ok & H). apply bind_Ok in H as (j & Hj & H).
    apply bind_Ok in H as (u1 & Hb%check_key_binds_unit & H). apply Ok_inj in H. injection H as <- <-.
    split; [done|]. split; [done|]. right. left. split; [done|]. by exists leaf, cs.
  - destruct (jget header ($"kid")) as [| | | |[|c kid]| | |] eqn:Ekid; try done. apply bind_Ok in H as (v & Hv & H).
    apply bind_Ok in H as (j & Hj & H). apply Ok_inj in H. injection H as <- <-. unfold jwk_of in Hj.
    destruct v as [| | | | | |d|]; try done. apply bind_Ok in Hj as (u1 & Hb%check_key_binds_unit & Hj). apply Ok_inj in Hj as ->.
    split; [done|]. split; [done|]. right. right. split; [done|]. exists (c :: kid). split; [done|]. split; [done|].
    destruct (v_resolve_in_context L o); [done|]. by destruct (v_resolve L o).
Qed.

Lemma any_attested_Ok tp keys : any_attested digest tp keys = Ok true -> exists key, key ∈ keys /\ vci_thumbprint digest key = Ok tp.
Proof using.
  induction keys as [|key keys IH]; [done|]. cbn [any_attested]. intros H. apply bind_Ok in H as (t & Ht & H).
  case_bool_decide as E; [subst t; exists key; split; [left|done]|]. apply IH in H as (k & ? & ?). exists k. split; [by right|done].
Qed.

Lemma vci_check_audience_Ok aud issuer u : vci_check_audience aud issuer = Ok u -> aud = JStr issuer \/ aud = JList [JStr issuer].
Proof using.
  unfold vci_check_audience. destruct aud as [| | | |s|l| |]; try done; cbn [mbind result_bind].
  - intros H%raise_if_Ok%negb_false_iff. apply eq_str_true in H as [= ->]. by left.
  - destruct l as [|v [|]]; try done. intros H%raise_if_Ok%negb_false_iff%eq_str_true. subst v. by right.
Qed.

Lemma check_iat_freshness_int iat max_age leeway_s current r :
  check_iat_freshness iat max_age leeway_s (NInt current) = Ok r ->
  exists leeway, leeway_s = JInt leeway /\ forall n, iat = JInt n -> r = n /\ current - n <= max_age + leeway /\ n - current <= leeway.
Proof using.
  unfold check_iat_freshness. intros H. apply bind_Ok in H as (l & (-> & _)%leeway_seconds_Ok & H). exists l. split; [done|].
  intros n ->. apply bind_Ok in H as (u & _ & H). apply bind_Ok in H as (u1 & _ & H). cbn [as_num] in H.
  apply bind_Ok in H as (age & Hage & H). cbn in Hage. apply Ok_inj in Hage as <-. apply bind_Ok in H as (u2 & H1%raise_if_Ok & H).
  apply bind_Ok in H as (ahead & Hah & H). cbn in Hah. apply Ok_inj in Hah as <-. apply bind_Ok in H as (u3 & H2%raise_if_Ok & H).
  apply Ok_inj in H as <-. cbn [int_of_num]. split; [done|]. rewrite num_gtb_int in H1, H2. apply Z.ltb_ge in H1, H2. lia.
Qed.

Lemma attested_Ok s a tp header u :
  attested_from json_loads header = Ok (s, a) -> match a with Some a => check_attested_key digest tp a | None => Ok tt end = Ok u ->
  match s, a with
  | Some s, Some a => jget header ($"key_attestation") = JStr s /\ peek_key_attestation json_loads (JStr s) = Ok a /\
      exists key, key ∈ attested_keys a /\ vci_thumbprint digest key = Ok tp
  | None, None => jget header ($"key_attestation") = JNull
  | _, _ => False
  end.
Proof using.
  unfold attested_from. destruct (jget header ($"key_attestation")) as [| | | |str| | |]; try done; intros H Hc.
  - apply Ok_inj in H. by injection H as <- <-.
  - apply bind_Ok in H as (att & Ha & H). apply Ok_inj in H. injection H as <- <-. split; [done|]. split; [done|].
    unfold check_attested_key in Hc. apply bind_Ok in Hc as (found & Hf & Hc%raise_if_Ok%negb_false_iff). subst found.
    by apply any_attested_Ok.
Qed.

Lemma verify_key_proof_Ok o index proof v :
  verify_one_proof json_loads verify_signature digest L o index proof = Ok v -> proof_guarantee o index proof v.
Proof using.
  unfold verify_one_proof. intros H. apply bind_Ok in H as ([[[hd pl] si] sig] & Hpc & H).
  apply bind_Ok in H as (u & Htyp%raise_if_Ok%negb_false_iff & H).
  destruct (allowed_alg (jget hd ($"alg")) (v_allowed_algs L o)) as [a|] eqn:Ea; [|done]. apply allowed_alg_Some in Ea as [Ealg Hin].
  apply bind_Ok in H as (u0 & Hcrit%reject_unknown_crit_Ok & H). apply bind_Ok in H as ([sa att] & Hatt & H).
  apply bind_Ok in H as (u1 & Hreq%raise_if_Ok & H). apply bind_Ok in H as ([jwk src] & Hk%proof_key_Ok & H).
  destruct Hk as (Hone & Hb & Hfrom). apply bind_Ok in H as (tp & Htp & H). apply bind_Ok in H as (u2 & Hca & H).
  pose proof (attested_Ok _ _ _ _ _ Hatt Hca) as Hattested. apply bind_Ok in H as ([hd' claims] & Hv%verify_compact_Ok & H).
  destruct Hv as (si' & sig' & a' & Hpc' & Ha' & _ & _ & Hsig). rewrite Hpc in Hpc'. apply Ok_inj in Hpc'. injection Hpc' as <- <- <- <-.
  rewrite Ealg in Ha'. injection Ha' as <-.
  apply bind_Ok in H as (u3 & Haud%vci_check_audience_Ok & H). apply bind_Ok in H as (iat & Hiat%check_iat_freshness_int & H).
  apply bind_Ok in H as (u4 & _ & H). apply bind_Ok in H as (cid & Hcid & H). apply bind_Ok in H as (u5 & Hexp%raise_if_Ok & H).
  apply bind_Ok in H as (n & Hn & H). apply Ok_inj in H as <-.
  split; cbn [pf_header pf_claims alg public_jwk thumbprint key_source key_attestation issued_at client_id nonce]; try done.
  - by exists si, sig.
  - destruct (jget hd ($"typ")) as [| | | |t| | |]; try done. exists t. by apply bool_decide_eq_true in Htyp.
  - exists att. split; [done|]. destruct sa as [s|], att as [a'|]; try done. split; [done|]. by rewrite andb_true_r in Hreq.
  - split; [destruct (jget pl ($"iss")); try done; by apply Ok_inj in Hcid as <-|]. intros e He. rewrite He in Hexp.
    by apply negb_false_iff, bool_decide_eq_true in Hexp.
  - destruct (jget pl ($"nonce")) as [| | | |[|c m]| | |]; try done; apply Ok_inj in Hn as <-; done.
Qed.

(** ** The batch *)

Lemma one_nonce {A} `{EqDecision A} (l : list A) n : remove_dups l = [n] -> Forall (eq n) l.
Proof using.
  intros H. rewrite Forall_forall. intros x Hx. assert (x ∈ remove_dups l) as Hr by by apply elem_of_remove_dups.
  rewrite H in Hr. by apply list_elem_of_singleton in Hr.
Qed.

Lemma check_batch_invariants_Ok {S} o (consume : option (pystr -> S -> bool * S)) verified store u store' :
  check_batch_invariants L o consume verified store = (Ok u, store') ->
  NoDup (map thumbprint verified) /\ exists n, verified <> [] /\ Forall (eq n) (map nonce verified) /\
    (v_require_nonce _ o = true -> n <> None) /\
    match n, consume with
    | Some n, Some check_nonce => check_nonce n store = (true, store')
    | _, _ => store' = store
    end.
Proof using.
  unfold check_batch_invariants. destruct (remove_dups (map nonce verified)) as [|n [|]] eqn:En; try done. intros H.
  destruct (_ ≫= _) as [v|e] eqn:Ec; [|done]. apply bind_Ok in Ec as (u1 & H1%raise_if_Ok & H2%raise_if_Ok).
  apply negb_false_iff, bool_decide_eq_true in H2. split; [done|]. exists n.
  split; [by intros ->|]. split; [by apply one_nonce|]. split.
  { intros Hreq. rewrite Hreq in H1. by apply bool_decide_eq_false in H1. }
  destruct n as [n|]; [|by injection H as _ <-]. destruct consume as [f|]; [|by injection H as _ <-].
  destruct (f n store) as [ok st] eqn:Ef. injection H as Hok <-. apply raise_if_Ok, negb_false_iff in Hok. by subst ok.
Qed.
End sound.


(** ** Nonces *)

(** A nonce is spent only for verified proofs.  If a request changed the store, then every
    proof of it verified, all carried the nonce that was consumed, and the request was accepted
    or refused as a replay; every other failure leaves the store as it was, so a request that
    does not verify cannot burn a nonce. *)
Theorem nonce_spent_after_verification {S} json_loads verify_signature digest L o json_text (consume : option (pystr -> S -> bool * S))
    request batch store out store'
    (H : verify_credential_request_proofs json_loads verify_signature digest L o json_text consume request batch store = (out, store'))
    (Hchanged : store' <> store) :
  exists r vs n ok check_nonce,
    match request with inl r' => r = r' | inr body => parse_credential_request json_text body batch None = Ok r end /\
    length vs = length (proofs r) /\
    (forall i p v, proofs r !! i = Some p -> vs !! i = Some v -> proof_guarantee json_loads verify_signature digest L o i p v) /\
    Forall (eq (Some n)) (map nonce vs) /\ consume = Some check_nonce /\ check_nonce n store = (ok, store') /\
    out = if ok then Ok vs else Err ProofReplayed.
Proof.
  unfold verify_credential_request_proofs in H. destruct (_ ≫= _) as [verified|e] eqn:Ev; [|by injection H as _ <-].
  apply bind_Ok in Ev as (u & _ & Ev). apply bind_Ok in Ev as (r & Hr & Ev).
  unfold verify_proofs in Ev. apply bind_Ok in Ev as (u1 & _ & Ev). apply mapR_imap_Ok in Ev as [Hl Hv].
  unfold check_batch_invariants in H.
  destruct (remove_dups (map nonce verified)) as [|n [|]] eqn:En; try (by injection H as _ <-).
  destruct (raise_if (v_require_nonce L o && _) _ ≫= _) as [u2|e]; [|by injection H as _ <-].
  destruct n as [n|]; [|by injection H as _ <-]. destruct consume as [f|]; [|by injection H as _ <-].
  destruct (f n store) as [ok st] eqn:Ef. injection H as Hout <-. exists r, verified, n, ok, f.
  split; [destruct request; [by apply Ok_inj in Hr|done]|]. split; [done|]. split.
  { intros i p v Hp Hvi. apply verify_key_proof_Ok. by apply (Hv i p v). }
  split; [by apply one_nonce|]. split; [done|]. split; [done|]. by destruct ok.
Qed.

(** What the caller's store promises: consuming succeeds only on a live nonce and kills it, and
    no call brings a nonce to life. *)
Class NonceStore (S : Type) := {
  ns_live : S -> pystr -> Prop;
  ns_consume : pystr -> S -> bool * S;
  ns_consumed n s s' : ns_consume n s = (true, s') -> ns_live s n /\ ~ ns_live s' n;
  ns_shrinks n s b s' : ns_consume n s = (b, s') -> forall m, ns_live s' m -> ns_live s m }.

(** The issuer over time: it mints nonces it never minted before, and serves requests that
    require one; [accepted] are the nonces of the requests that were accepted. *)
Record issuer_state (S : Type) := { store : S; minted : list pystr; accepted : list pystr }.
Arguments store {S} _.
Arguments minted {S} _.
Arguments accepted {S} _.

Section trace.
Context {S} `{NonceStore S}.
Context (json_loads : bytes -> result json) (verify_signature : pystr -> json -> bytes -> bytes -> result bool)
  (digest : pystr -> bytes -> bytes) (L : x509_library) (json_text : pystr -> result json).

Inductive issuer_step : issuer_state S -> issuer_state S -> Prop :=
| mint n s store' :
    n ∉ minted s -> (forall m, ns_live store' m -> m = n \/ ns_live (store s) m) ->
    issuer_step s {| store := store'; minted := n :: minted s; accepted := accepted s |}
| accept o request batch s vs v store' n :
    v_require_nonce _ o = true ->
    verify_credential_request_proofs json_loads verify_signature digest L o json_text (Some ns_consume) request batch (store s) = (Ok vs, store') ->
    v ∈ vs -> nonce v = Some n ->
    issuer_step s {| store := store'; minted := minted s; accepted := n :: accepted s |}
| refuse o request batch s e store' :
    v_require_nonce _ o = true ->
    verify_credential_request_proofs json_loads verify_signature digest L o json_text (Some ns_consume) request batch (store s) = (Err e, store') ->
    issuer_step s {| store := store'; minted := minted s; accepted := accepted s |}.

(** Live nonces were minted and not yet accepted; nothing was accepted twice. *)
Record nonces_ok (s : issuer_state S) : Prop := {
  no_live : forall n, ns_live (store s) n -> n ∈ minted s /\ n ∉ accepted s;
  no_accepted : accepted s ⊆ minted s;
  no_dup : NoDup (accepted s) }.

Lemma refused_shrinks o request batch (s : S) e store' :
  verify_credential_request_proofs json_loads verify_signature digest L o json_text (Some ns_consume) request batch s = (Err e, store') ->
  forall m, ns_live store' m -> ns_live s m.
Proof using.
  unfold verify_credential_request_proofs, check_batch_invariants. intros Hv.
  destruct (_ ≫= _) as [verified|e']; [|by injection Hv as _ <-].
  destruct (remove_dups (map nonce verified)) as [|n [|]]; try (by injection Hv as _ <-).
  destruct (raise_if (v_require_nonce L o && _) _ ≫= _) as [u2|e']; [|by injection Hv as _ <-].
  destruct n as [n|]; [|by injection Hv as _ <-]. destruct (ns_consume n s) as [ok st] eqn:Ef. injection Hv as _ <-.
  by eapply ns_shrinks.
Qed.

Lemma accepted_consumes o request batch (s : S) vs v n store' :
  v_require_nonce _ o = true ->
  verify_credential_request_proofs json_loads verify_signature digest L o json_text (Some ns_consume) request batch s = (Ok vs, store') ->
  v ∈ vs -> nonce v = Some n -> ns_consume n s = (true, store').
Proof using.
  intros Hreq Hv Hin Hn. unfold verify_credential_request_proofs in Hv. destruct (_ ≫= _) as [verified|e']; [|done].
  destruct (check_batch_invariants _ _ _ _ _) as [c st] eqn:Eb. injection Hv as Hc <-.
  apply bind_Ok in Hc as (u2 & -> & Hc). apply Ok_inj in Hc as ->.
  apply check_batch_invariants_Ok in Eb as (_ & n' & _ & Hall & _ & Hcons).
  rewrite Forall_forall in Hall. rewrite (Hall (nonce v)) in Hcons by (by apply list_elem_of_fmap_2). by rewrite Hn in Hcons.
Qed.

Lemma issuer_step_ok s s' : issuer_step s s' -> nonces_ok s -> nonces_ok s'.
Proof using.
  intros Hs [Hl Ha Hd]. destruct Hs as [n s st Hnew Hst|o request batch s vs v st n Hreq Hv Hin Hn|o request batch s e st Hreq Hv]; split; cbn; try done.
  - intros m [->|Hm]%Hst; [|destruct (Hl m Hm); split; [by right|done]]. split; [left|]. intros Hin. by apply Hnew, Ha.
  - set_solver.
  - pose proof (accepted_consumes _ _ _ _ _ _ _ _ Hreq Hv Hin Hn) as Hc. intros m Hm.
    pose proof (ns_shrinks _ _ _ _ Hc m Hm) as Hm'. destruct (Hl m Hm') as [? Hna]. split; [done|].
    apply ns_consumed in Hc as [_ Hdead]. intros [->|?]%elem_of_cons; done.
  - pose proof (accepted_consumes _ _ _ _ _ _ _ _ Hreq Hv Hin Hn) as [Hc _]%ns_consumed. apply Hl in Hc as [Hc _]. set_solver.
  - pose proof (accepted_consumes _ _ _ _ _ _ _ _ Hreq Hv Hin Hn) as [Hc _]%ns_consumed. apply Hl in Hc as [_ Hc]. by constructor.
  - intros m Hm. apply Hl. by eapply refused_shrinks.
Qed.

Lemma issuer_run_ok s s' : rtc issuer_step s s' -> nonces_ok s -> nonces_ok s'.
Proof using. induction 1; [done|]. intros Hok. by apply IHrtc, (issuer_step_ok x). Qed.
End trace.

(** C22: No nonce is accepted twice.  Over any run of an issuer that mints fresh nonces and
    serves Credential Requests in any order, whoever sends them, with a store that keeps its
    promise, the nonces of the accepted requests are distinct and were all minted: a key proof
    cannot be replayed. *)
Theorem nonces_accepted_once {S} `{NonceStore S} json_loads verify_signature digest L json_text (s0 s : issuer_state S)
    (Hstart : accepted s0 = []) (Hlive : forall n, ns_live (store s0) n -> n ∈ minted s0)
    (Hrun : rtc (issuer_step json_loads verify_signature digest L json_text) s0 s) :
  NoDup (accepted s) /\ accepted s ⊆ minted s.
Proof.
  apply issuer_run_ok in Hrun; [by destruct Hrun|]. split; rewrite ?Hstart; [|set_solver|constructor].
  intros n Hn. split; [by apply Hlive|apply not_elem_of_nil].
Qed.

(** The store of live nonces as a list; removing is consuming. *)
#[export] Program Instance list_store : NonceStore (list pystr) := {|
  ns_live s n := n ∈ s;
  ns_consume n s := if bool_decide (n ∈ s) then (true, filter (fun m => m <> n) s) else (false, s) |}.
Next Obligation. intros n s s' H. cbn in H. case_bool_decide; [|done]. injection H as <-. split; [done|]. rewrite list_elem_of_filter. naive_solver. Qed.
Next Obligation. intros n s b s' H m. cbn in H. case_bool_decide; injection H as _ <-; rewrite ?list_elem_of_filter; naive_solver. Qed.

(** * Example *)

(** A request with the proof [aA.cA.cw]: its header is [[104]] and its claims are [[112]]. *)
Definition vci_loads (b : bytes) : result json :=
  if bool_decide (b = [104]) then
    Ok (JDict [($"typ", JStr ($"openid4vci-proof+jwt")); ($"alg", JStr ($"ES256"));
               ($"jwk", JDict [($"kty", JStr ($"EC")); ($"crv", JStr ($"P-256")); ($"x", JStr ($"AQ")); ($"y", JStr ($"Ag"))])])
  else Ok (JDict [($"aud", JStr ($"https://i")); ($"iat", JInt 1000); ($"nonce", JStr ($"n"))]).
Definition vci_example_options : vci_options toy_x509 :=
  {| v_issuer := $"https://i"; v_expected_client_id := None; v_resolve := None; v_resolve_in_context := None;
     v_anchors := ([] : list (cert toy_x509)); v_require_attestation := false; v_require_nonce := true; v_max_age_s := 300; v_leeway_s := JInt 60;
     v_current := 1010; v_now := 0; v_allowed_algs := ALLOWED_ALGS |}.
Definition vci_example_body : json :=
  JDict [($"credential_configuration_id", JStr ($"pid")); ($"proofs", JDict [($"jwt", JList [JStr ($"aA.cA.cw")])])].
Abbreviation vci_example := (verify_credential_request_proofs vci_loads (fun _ _ _ _ => Ok true) (fun _ _ => [1]) toy_x509
  vci_example_options (fun _ => Err ValueError) (Some ns_consume) (inr vci_example_body) None [$"n"]).

Lemma vci_example_Ok : exists v, vci_example = (Ok [v], []) /\ nonce v = Some ($"n").
Proof.
  assert (match vci_example with (Ok [v], []) => bool_decide (nonce v = Some ($"n")) | _ => false end = true) as H by (vm_compute; reflexivity).
  destruct vci_example as [[[|v []]|] [|]]; try discriminate H. exists v. split; [reflexivity|]. by apply bool_decide_eq_true in H.
Qed.


Lemma nonce_spent_after_verification_witness : exists v (vs : list VerifiedProof) n, vci_example = (Ok [v], []) /\ Forall (eq (Some n)) (map nonce vs).
Proof.
  destruct vci_example_Ok as (v & H & _). exists v. pose proof H as H'.
  apply nonce_spent_after_verification in H' as (r & vs & n & ok & f & _ & _ & _ & Hn & _); [|discriminate].
  exists vs, n. exact (conj H Hn).
Defined.

(** The issuer mints [n] and accepts the request that presents it. *)
Lemma nonces_accepted_once_witness : exists s : issuer_state (list pystr), accepted s = [$"n"] /\ NoDup (accepted s) /\ accepted s ⊆ minted s.
Proof.
  destruct vci_example_Ok as (v & H & Hn).
  exists {| store := [] : list pystr; minted := [$"n"]; accepted := [$"n"] |}. split; [reflexivity|].
  apply (nonces_accepted_once vci_loads (fun _ _ _ _ => Ok true) (fun _ _ => [1]) toy_x509 (fun _ => Err ValueError)
    {| store := [] : list pystr; minted := []; accepted := [] |}).
  - reflexivity.
  - intros n Hin. exact Hin.
  - eapply rtc_l.
    { apply (mint _ _ _ _ _ ($"n") _ [$"n"]); [apply not_elem_of_nil|]. intros m Hm. left. by apply list_elem_of_singleton. }
    eapply rtc_l; [|apply rtc_refl].
    refine (accept _ _ _ _ _ vci_example_options (inr vci_example_body) None
      {| store := [$"n"]; minted := [$"n"]; accepted := [] |} [v] v [] ($"n") eq_refl H _ Hn). left.
Defined.
