(* ===== verification/EbsiTrust.v ===== *)
(** [openvc_ebsi.trust] and [openvc_ebsi.verify] (src/src/openvc_ebsi/trust.py, verify.py): the walk
    from an issuer up its accreditations to a trusted anchor, and the verification of an EBSI
    badge end to end.

    The proof suite is the caller's object, known by what the walk uses of it ([ProofSuite]);
    [vc_jwt_suite] is the one this library ships.  Its clock is read at every verification: the
    number given to [suite_verify] says which one it is. *)
From S2P Require Import Prelude Errors PyStr Json Did VcJwt StatusCheck EbsiRegistry.

(** * The interface of a proof suite *)

Class ProofSuite := {
  suite_peek_issuer : pystr -> result (pystr * option pystr);
  suite_verify : nat -> pystr -> json -> list pystr -> json -> result VerifiedCredential }.

Definition vc_jwt_suite (json_loads : bytes -> result json) (verify_signature : pystr -> json -> bytes -> bytes -> result bool)
    (lower : pystr -> pystr) (on_curve : Z -> Z -> bool) (from_jwk : jobject -> bool)
    (pyjwt_decode : pystr -> json -> pystr -> json -> json -> bool -> jwt_outcome) (is_space is_decimal : Z -> bool)
    (fromisoformat : pystr -> option (Z * option Z)) (su : suite) (clock : nat -> PyNum.num * Z) : ProofSuite := {|
  suite_peek_issuer := VcJwt.peek_issuer json_loads;
  suite_verify := fun reading token jwk expected_types audience =>
    vc_verify json_loads verify_signature lower on_curve from_jwk pyjwt_decode is_space is_decimal fromisoformat su token jwk
      expected_types audience true (clock reading).1 (clock reading).2 |}.

(** A suite verifies a token of the issuer it had read from it before. *)
Class LawfulSuite `{ProofSuite} : Prop :=
  peeked_is_verified : forall token iss kid reading jwk types audience v,
    suite_peek_issuer token = Ok (iss, kid) -> suite_verify reading token jwk types audience = Ok v -> vc_issuer v = iss.

(** * The chain *)

Definition DEFAULT_MAX_DEPTH : Z := 6.

Record TrustHop := { hop_subject : pystr; hop_accreditor : pystr; hop_accreditation : Accreditation }.
Record TrustChain := { chain_subject : pystr; anchor : pystr; hops : list TrustHop; scope : gset pystr }.

(** Why an accreditation is set aside, in the order of the checks. *)
Inductive ineligibility := NotALiveRole | MayNotAccredit | NotTheKind | NamesNoType.

Definition accreditation_ineligibility (acc : Accreditation) (leaf : bool) : option ineligibility :=
  if negb (has_trust_role acc) then Some NotALiveRole
  else if negb leaf && negb (can_accredit acc) then Some MayNotAccredit
  else let wanted := if leaf then ACCREDITATION_TO_ATTEST else ACCREDITATION_TO_ACCREDIT in
       if bool_decide (wanted ∉ accreditation_types acc) then Some NotTheKind
       else match credential_types acc with [] => Some NamesNoType | _ => None end.

Definition types_of (acc : Accreditation) : gset pystr := list_to_set (credential_types acc).

Definition eligible_for (needed : gset pystr) (leaf : bool) (acc : Accreditation) : bool :=
  match accreditation_ineligibility acc leaf with
  | Some _ => false
  | None => if leaf then bool_decide (types_of acc ∩ needed <> ∅) else bool_decide (needed ⊆ types_of acc)
  end.

Definition pick_accreditation (record : IssuerRecord) (needed : gset pystr) (leaf : bool) : option Accreditation :=
  if has_attributes record then List.find (eligible_for needed leaf) (accreditations record) else None.

(** The names a verified accreditation gives its subject, in the order they are read. *)
Definition subject_names (verified : VerifiedCredential) : result (list json) :=
  names ← match dget (credential verified) ($"credentialSubject") with
          | None => Ok []
          | Some (JDict cs) => Ok (omap (dget cs) [$"id"; $"@id"])
          | Some _ => Err AccreditationInvalid
          end;
  Ok (match dget (vc_claims verified) ($"sub") with Some sub => [sub] | None => [] end ++ names).

Definition check_subject_binding (verified : VerifiedCredential) (subject : pystr) : result unit :=
  names ← subject_names verified;
  match names with
  | [] => Err AccreditationInvalid
  | _ => raise_if (existsb (fun name => negb (eq_str name subject)) names) AccreditationInvalid
  end.

Definition kid_json (kid : option pystr) : json := match kid with Some k => JStr k | None => JNull end.

Section trust.
Context (fetch : list pystr -> pystr -> result json) (gzip_read : bytes -> Z -> result bytes).
Context (resolver : DidEbsiResolver) `{ProofSuite}.

Definition verify_accreditation (reading : nat) (acc : Accreditation) (subject accreditor : pystr) : fetching jobject :=
  match credential_jwt acc with
  | None | Some [] => lift (Err AccreditationInvalid)
  | Some token =>
      '(iss, kid) ← lift (catch_as (fun e => isinstance e ProofError) AccreditationInvalid (suite_peek_issuer token));
      _ ← lift (raise_if (negb (bool_decide (iss = accreditor))) AccreditationInvalid);
      doc ← outcome (catch_as (fun e => isinstance e DidResolutionError) AccreditationInvalid)
              (ebsi_resolve fetch resolver (JStr accreditor));
      match key_by_kid doc (kid_json kid) with
      | None => lift (Err AccreditationInvalid)
      | Some vm =>
          verified ← lift (catch_as (fun e => isinstance e ProofError) AccreditationInvalid
                             (suite_verify reading token (JDict (public_key_jwk vm)) [] JNull));
          _ ← lift (check_subject_binding verified subject);
          mret (credential verified)
      end
  end.

Context (anchors : gset pystr) (resolve_status_list : option (pystr -> result json)).

Definition check_accreditation_status (vc : jobject) : result unit :=
  match resolve_status_list with
  | None => Ok tt
  | Some resolve =>
      status ← catch_as (fun e => isinstance e StatusListError) AccreditationInvalid (check_credential_status gzip_read vc resolve);
      raise_if (revoked status) AccreditationRevoked
  end.

(** One turn of the loop, up to the accreditation it verified and who signed it. *)
Definition read_hop (reading : nat) (current : pystr) (needed : gset pystr) (leaf : bool) : fetching (Accreditation * pystr) :=
  record ← outcome (catch_as (fun e => isinstance e HttpNotFound || isinstance e DidResolutionError) NoTrustedAnchor)
             (issuer_record fetch resolver (JStr current));
  match pick_accreditation record needed leaf with
  | None => lift (Err NoTrustedAnchor)
  | Some acc =>
      match tao acc with
      | None | Some [] => lift (Err AccreditationInvalid)
      | Some accreditor =>
          vc ← verify_accreditation reading acc current accreditor;
          _ ← lift (check_accreditation_status vc);
          mret (acc, accreditor)
      end
  end.

(** The loop, from [current] on; [first] and [scope_] are [subject_did] and the delegated
    scope, [None] until the leaf has fixed it. *)
Fixpoint trust_walk (types : gset pystr) (first : pystr) (depth : nat) (current : pystr) (seen : gset pystr)
    (scope_ : option (gset pystr)) (path : list TrustHop) : fetching TrustChain :=
  match depth with
  | O => lift (Err NoTrustedAnchor)
  | S depth =>
      let leaf := match scope_ with None => true | Some _ => false end in
      '(acc, accreditor) ← read_hop (S (length path)) current (default types scope_) leaf;
      let scope_ := match scope_ with None => types_of acc ∩ types | Some s => s end in
      let path := path ++ [{| hop_subject := current; hop_accreditor := accreditor; hop_accreditation := acc |}] in
      if bool_decide (accreditor ∈ anchors)
      then mret {| chain_subject := first; anchor := accreditor; hops := path; scope := scope_ |}
      else if bool_decide (accreditor ∈ seen) then lift (Err TrustChainError)
      else trust_walk types first depth accreditor ({[accreditor]} ∪ seen) (Some scope_) path
  end.

Definition verify_trust_chain (subject_did : pystr) (credential_types : list pystr) (max_depth : Z) : fetching TrustChain :=
  let types := list_to_set credential_types in
  if bool_decide (subject_did ∈ anchors)
  then mret {| chain_subject := subject_did; anchor := subject_did; hops := []; scope := types |}
  else trust_walk types subject_did (Z.to_nat max_depth) subject_did {[subject_did]} None [].
End trust.

(** * The badge *)

(** Iterating a [dict] gives its keys; a number or a null cannot be iterated. *)
Definition ebsi_credential_types (credential : jobject) : result (list pystr) :=
  match dget credential ($"type") with
  | None => Ok []
  | Some (JStr t) => Ok [t]
  | Some (JList l) => Ok (omap as_str l)
  | Some (JDict d) => Ok d.*1
  | Some _ => Err TypeError
  end.

Definition evaluate_issuer_trust (record : IssuerRecord) (credential_types : list pystr) : option Accreditation :=
  if has_attributes record then List.find (eligible_for (list_to_set credential_types) true) (accreditations record) else None.

Record VerifiedEbsiBadge := {
  badge_credential : jobject; badge_issuer : pystr; badge_subject : option pystr; trusted : bool;
  badge_accreditation : option Accreditation; badge_record : option IssuerRecord; badge_verified : VerifiedCredential;
  badge_chain : option TrustChain; badge_status : option StatusResult }.

Section badge.
Context (fetch : list pystr -> pystr -> result json) (gzip_read : bytes -> Z -> result bytes).
Context (resolver : DidEbsiResolver) `{ProofSuite}.
Context (resolve_status_list : option (pystr -> result json)).

(** Step 5: what granted trust, along with the record or the chain it was found in. *)
Definition issuer_trust (verified : VerifiedCredential) (types : list pystr) (require_trust : bool)
    (trust_anchors : option (gset pystr)) : fetching (bool * option Accreditation * option IssuerRecord * option TrustChain) :=
  match trust_anchors with
  | Some anchors =>
      chain ← outcome (fun r => match r with
                                | Ok chain => Ok (Some chain)
                                | Err e => if isinstance e TrustChainError && negb require_trust then Ok None else Err e
                                end)
                (verify_trust_chain fetch gzip_read resolver anchors resolve_status_list (vc_issuer verified) types DEFAULT_MAX_DEPTH);
      mret (match chain with Some _ => true | None => false end,
            match chain with Some {| hops := h :: _ |} => Some (hop_accreditation h) | _ => None end, None, chain)
  | None =>
      record ← outcome (catch_as (fun e => isinstance e DidResolutionError) EbsiVerificationError)
                 (issuer_record fetch resolver (JStr (vc_issuer verified)));
      let accreditation := evaluate_issuer_trust record types in
      let trusted := match accreditation with Some _ => true | None => false end in
      _ ← lift (raise_if (require_trust && negb trusted) IssuerNotTrusted);
      mret (trusted, accreditation, Some record, None)
  end.

Definition badge_revocation (verified : VerifiedCredential) : result (option StatusResult) :=
  match resolve_status_list with
  | None => Ok None
  | Some resolve =>
      status ← check_credential_status gzip_read (credential verified) resolve;
      raise_if (revoked status) CredentialRevoked;;
      Ok (Some status)
  end.

Definition verify_ebsi_badge (token : pystr) (expected_types : list pystr) (require_trust : bool)
    (trust_anchors : option (gset pystr)) (audience : json) : fetching VerifiedEbsiBadge :=
  '(issuer_hint, kid) ← lift (suite_peek_issuer token);
  doc ← outcome (catch_as (fun e => isinstance e DidResolutionError) EbsiVerificationError)
          (ebsi_resolve fetch resolver (JStr issuer_hint));
  match key_by_kid doc (kid_json kid) with
  | None => lift (Err VerificationMethodNotFound)
  | Some vm =>
      verified ← lift (suite_verify 0 token (JDict (public_key_jwk vm)) expected_types audience);
      types ← lift (ebsi_credential_types (credential verified));
      '(trusted, accreditation, record, chain) ← issuer_trust verified types require_trust trust_anchors;
      status ← lift (badge_revocation verified);
      mret {| badge_credential := credential verified; badge_issuer := vc_issuer verified; badge_subject := vc_subject verified;
              trusted := trusted; badge_accreditation := accreditation; badge_record := record; badge_verified := verified;
              badge_chain := chain; badge_status := status |}
  end.
End badge.

(** * What an accepted chain establishes *)

Lemma outcome_Ok {A B} (f : result A -> result B) (m : fetching A) sent b sent' :
  outcome f m sent = (Ok b, sent') <-> exists r, m sent = (r, sent') /\ f r = Ok b.
Proof.
  unfold outcome. destruct (m sent) as [r s]. split; [by intros [= E <-]; exists r|].
  by intros (r' & [= <- <-] & ->).
Qed.

Lemma outcome_catch_Ok {A} caught e (m : fetching A) sent a sent' :
  outcome (catch_as caught e) m sent = (Ok a, sent') <-> m sent = (Ok a, sent').
Proof. rewrite outcome_Ok. setoid_rewrite catch_as_Ok. split; [by intros (r & ? & ->)|by intros; exists (Ok a)]. Qed.

Section chain.
Context (fetch : list pystr -> pystr -> result json) (gzip_read : bytes -> Z -> result bytes).
Context (resolver : DidEbsiResolver) `{ProofSuite}.
Context (anchors : gset pystr) (resolve_status_list : option (pystr -> result json)).

(** The signed names of the subject: there is one, and each is [did]. *)
Definition names_only (v : VerifiedCredential) (did : pystr) : Prop :=
  exists names, subject_names v = Ok names /\ names <> [] /\ Forall (fun name => name = JStr did) names.

(** A credential the accreditor signed, under a key its own DID document publishes, for the
    subject, and which its status list does not revoke. *)
Definition signed_for (token : pystr) (accreditor subject : pystr) : Prop :=
  exists kid sent doc sent' vm reading v,
    suite_peek_issuer token = Ok (accreditor, kid) /\
    ebsi_resolve fetch resolver (JStr accreditor) sent = (Ok doc, sent') /\ doc_id doc = accreditor /\
    key_by_kid doc (kid_json kid) = Some vm /\
    suite_verify reading token (JDict (public_key_jwk vm)) [] JNull = Ok v /\ names_only v subject /\
    forall resolve, resolve_status_list = Some resolve ->
      exists st, check_credential_status gzip_read (credential v) resolve = Ok st /\ revoked st = false.

(** One hop: an eligible accreditation from the record of its subject, naming and signed by
    its accreditor. *)
Record hop_guarantee (leaf : bool) (h : TrustHop) : Prop := {
  hg_record : exists sent record sent', issuer_record fetch resolver (JStr (hop_subject h)) sent = (Ok record, sent') /\
    hop_accreditation h ∈ accreditations record;
  hg_eligible : accreditation_ineligibility (hop_accreditation h) leaf = None;
  hg_accreditor : tao (hop_accreditation h) = Some (hop_accreditor h);
  hg_signed : exists token, credential_jwt (hop_accreditation h) = Some token /\ signed_for token (hop_accreditor h) (hop_subject h) }.

(** The hops lead from [did] to [last]. *)
Fixpoint linked (did : pystr) (path : list TrustHop) (last : pystr) : Prop :=
  match path with
  | [] => did = last
  | h :: path => hop_subject h = did /\ linked (hop_accreditor h) path last
  end.

Lemma check_subject_binding_Ok v subject u : check_subject_binding v subject = Ok u -> names_only v subject.
Proof using Type.
  intros Hb. apply bind_Ok in Hb as (names & Hn & Hb). exists names. split; [done|]. destruct names as [|n ns]; [done|]. split; [done|].
  apply raise_if_Ok, existsb_false_Forall in Hb. eapply Forall_impl; [exact Hb|]. intros x Hx%negb_false_iff. by apply eq_str_true.
Qed.

Lemma ebsi_resolve_bound did sent doc sent' : ebsi_resolve fetch resolver (JStr did) sent = (Ok doc, sent') ->
  DID_EBSI did = true /\ doc_id doc = did.
Proof using Type.
  intros Hr. apply fbind_Ok in Hr as (d & s1 & [Hd _]%lift_Ok & Hr). apply bind_Ok in Hd as (? & Hb%raise_if_Ok & [= <-]).
  apply fbind_Ok in Hr as (raw & s2 & _ & Hr). apply fbind_Ok in Hr as (doc' & s3 & _ & Hr).
  apply fbind_Ok in Hr as (? & s4 & [Hn _]%lift_Ok & [-> _]%fret_Ok). split; [by apply negb_false_iff in Hb|].
  by apply raise_if_Ok, negb_false_iff, bool_decide_eq_true in Hn.
Qed.

Lemma verify_accreditation_Ok reading acc subject accreditor sent vc sent' :
  verify_accreditation fetch resolver reading acc subject accreditor sent = (Ok vc, sent') ->
  check_accreditation_status gzip_read resolve_status_list vc = Ok tt ->
  exists token, credential_jwt acc = Some token /\ signed_for token accreditor subject.
Proof using Type.
  intros Hv Hst. unfold verify_accreditation in Hv. destruct (credential_jwt acc) as [[|c token]|]; try done.
  exists (c :: token). split; [done|]. apply fbind_Ok in Hv as ([iss kid] & s1 & [Hp%catch_as_Ok ->]%lift_Ok & Hv).
  apply fbind_Ok in Hv as (? & s2 & [Hi%raise_if_Ok ->]%lift_Ok & Hv). apply negb_false_iff, bool_decide_eq_true in Hi as ->.
  apply fbind_Ok in Hv as (doc & s3 & Hr%outcome_catch_Ok & Hv). destruct (key_by_kid doc (kid_json kid)) as [vm|] eqn:Ek; [|done].
  apply fbind_Ok in Hv as (v & s4 & [Hs%catch_as_Ok ->]%lift_Ok & Hv).
  apply fbind_Ok in Hv as (? & s5 & [Hb ->]%lift_Ok & [-> _]%fret_Ok).
  exists kid, sent, doc, s3, vm, reading, v. split; [done|]. split; [done|]. split; [exact (proj2 (ebsi_resolve_bound _ _ _ _ Hr))|].
  split; [done|]. split; [done|]. split; [by apply check_subject_binding_Ok in Hb|]. intros resolve Hres.
  unfold check_accreditation_status in Hst. rewrite Hres in Hst. by apply bind_Ok in Hst as (st & ?%catch_as_Ok & ?%raise_if_Ok); exists st.
Qed.

Lemma pick_accreditation_Some record needed leaf acc : pick_accreditation record needed leaf = Some acc ->
  acc ∈ accreditations record /\ accreditation_ineligibility acc leaf = None /\
  if leaf then types_of acc ∩ needed <> ∅ else needed ⊆ types_of acc.
Proof using Type.
  unfold pick_accreditation. destruct (has_attributes record); [|done]. intros [Hin He]%List.find_some.
  split; [by apply list_elem_of_In|]. unfold eligible_for in He. destruct (accreditation_ineligibility acc leaf); [done|].
  split; [done|]. by destruct leaf; apply bool_decide_eq_true in He.
Qed.

Lemma read_hop_Ok reading current needed leaf sent acc accreditor sent' :
  read_hop fetch gzip_read resolver resolve_status_list reading current needed leaf sent = (Ok (acc, accreditor), sent') ->
  hop_guarantee leaf {| hop_subject := current; hop_accreditor := accreditor; hop_accreditation := acc |} /\
  if leaf then types_of acc ∩ needed <> ∅ else needed ⊆ types_of acc.
Proof using Type.
  intros Hh. apply fbind_Ok in Hh as (record & s1 & Hr%outcome_catch_Ok & Hh).
  destruct (pick_accreditation record needed leaf) as [acc'|] eqn:Ep; [|done]. apply pick_accreditation_Some in Ep as (Hin & Hel & Hsc).
  destruct (tao acc') as [[|c t]|] eqn:Et; try done. apply fbind_Ok in Hh as (vc & s2 & Hv & Hh).
  apply fbind_Ok in Hh as ([] & s3 & [Hst ->]%lift_Ok & [[= -> ->] ->]%fret_Ok).
  split; [|done]. split; cbn; [by exists sent, record, s1|done|done|]. by apply (verify_accreditation_Ok reading _ _ _ _ _ _ Hv).
Qed.

(** Above the leaf: the scope is fixed, and every accreditor is new. *)
Lemma trust_walk_above types first depth : forall current seen sc path sent chain sent', seen ## anchors ->
  trust_walk fetch gzip_read resolver anchors resolve_status_list types first depth current seen (Some sc) path sent = (Ok chain, sent') ->
  chain_subject chain = first /\ scope chain = sc /\ anchor chain ∈ anchors /\
  exists new, hops chain = path ++ new /\ linked current new (anchor chain) /\ new <> [] /\ (length new <= depth)%nat /\
    Forall (hop_guarantee false) new /\ Forall (fun h => sc ⊆ types_of (hop_accreditation h)) new /\
    NoDup (hop_accreditor <$> new) /\ Forall (fun h => hop_accreditor h ∉ seen) new.
Proof using Type.
  induction depth as [|depth IH]; intros current seen sc path sent chain sent' Hd Hw; [done|]. cbn [trust_walk default] in Hw.
  apply fbind_Ok in Hw as ([acc accreditor] & s1 & Hh & Hw). apply read_hop_Ok in Hh as [Hg Hsc].
  set (h := {| hop_subject := current; hop_accreditor := accreditor; hop_accreditation := acc |}) in *.
  destruct (bool_decide_reflect (accreditor ∈ anchors)) as [Ha|Ha].
  - apply fret_Ok in Hw as [-> _]. cbn. repeat (split; [done|]). exists [h]. cbn. repeat (split; [done|]).
    split; [lia|]. split; [by constructor|]. split; [by constructor|]. split; [apply NoDup_singleton|].
    constructor; [set_solver|done].
  - destruct (bool_decide_reflect (accreditor ∈ seen)) as [Hs|Hs]; [done|].
    apply IH in Hw as (-> & -> & Hanc & new & -> & Hl & Hne & Hlen & Hgs & Hscs & Hnd & Hseen); [|set_solver].
    repeat (split; [done|]). exists (h :: new). rewrite <- app_assoc. split; [done|]. split; [done|]. split; [done|].
    split; [cbn; lia|]. split; [by constructor|]. split; [by constructor|]. split.
    + cbn. apply NoDup_cons. split; [|done]. intros (h' & -> & Hin)%list_elem_of_fmap. rewrite Forall_forall in Hseen.
      specialize (Hseen _ Hin). set_solver.
    + constructor; [done|]. eapply Forall_impl; [exact Hseen|]. set_solver.
Qed.

(** The scope a chain vouches for: what the leaf accreditation and the credential share, which
    every accreditor above the leaf may delegate. *)
Definition scope_delegated (types : gset pystr) (path : list TrustHop) (sc : gset pystr) : Prop :=
  match path with
  | [] => sc = types
  | leaf :: above => sc = types_of (hop_accreditation leaf) ∩ types /\ sc <> ∅ /\
                     Forall (fun h => sc ⊆ types_of (hop_accreditation h)) above
  end.

Record chain_guarantee (subject_did : pystr) (types : list pystr) (max_depth : Z) (chain : TrustChain) : Prop := {
  cg_subject : chain_subject chain = subject_did;
  cg_anchor : anchor chain ∈ anchors;
  cg_linked : linked subject_did (hops chain) (anchor chain);
  cg_depth : (length (hops chain) <= Z.to_nat max_depth)%nat;
  cg_acyclic : NoDup (subject_did :: (hop_accreditor <$> hops chain));
  cg_hops : match hops chain with
            | [] => True
            | leaf :: above => hop_guarantee true leaf /\ Forall (hop_guarantee false) above
            end;
  cg_scope : scope_delegated (list_to_set types) (hops chain) (scope chain) }.

Lemma verify_trust_chain_Ok subject_did types max_depth sent chain sent' :
  verify_trust_chain fetch gzip_read resolver anchors resolve_status_list subject_did types max_depth sent = (Ok chain, sent') ->
  chain_guarantee subject_did types max_depth chain.
Proof using Type.
  unfold verify_trust_chain. intros Hv. destruct (bool_decide_reflect (subject_did ∈ anchors)) as [Ha|Ha].
  { apply fret_Ok in Hv as [-> _]. split; cbn; try done; [apply Nat.le_0_l|apply NoDup_singleton]. }
  destruct (Z.to_nat max_depth) as [|depth] eqn:Edepth; [done|]. cbn [trust_walk default] in Hv.
  apply fbind_Ok in Hv as ([acc accreditor] & s1 & Hh & Hv). apply read_hop_Ok in Hh as [Hg Hsc].
  set (h := {| hop_subject := subject_did; hop_accreditor := accreditor; hop_accreditation := acc |}) in *.
  destruct (bool_decide_reflect (accreditor ∈ anchors)) as [Hac|Hac].
  - apply fret_Ok in Hv as [-> _]. split; cbn; try done; [lia|].
    apply NoDup_cons. split; [|apply NoDup_singleton]. intros ->%list_elem_of_singleton. done.
  - destruct (bool_decide_reflect (accreditor ∈ ({[subject_did]} : gset pystr))) as [Hs|Hs]; [done|].
    apply trust_walk_above in Hv as (E1 & E2 & Hanc & new & E3 & Hl & Hne & Hlen & Hgs & Hscs & Hnd & Hseen); [|set_solver].
    split; rewrite ?E1, ?E2, ?E3; cbn [app fmap list_fmap linked length scope_delegated]; try done; [lia|].
    assert (Hnot : forall d, (forall h', h' ∈ new -> hop_accreditor h' <> d) -> d ∉ hop_accreditor <$> new)
      by (intros d Hx (h' & -> & Hin)%list_elem_of_fmap; by apply (Hx h')).
    rewrite Forall_forall in Hseen. apply NoDup_cons. split.
    + apply not_elem_of_cons. split; [set_solver|]. apply Hnot. intros h' Hin E. specialize (Hseen _ Hin). rewrite E in Hseen. set_solver.
    + apply NoDup_cons. split; [|done]. apply Hnot. intros h' Hin E. specialize (Hseen _ Hin). rewrite E in Hseen. set_solver.
Qed.
End chain.

(** C7: An accepted trust chain is a signed delegation from a trusted anchor.  It starts at the
    issuer, ends at one of the caller's anchors and visits no DID twice; each hop is an
    accreditation with a live role and of the right kind, found in the registry record of its
    subject, signed by the accreditor it names under a key of that accreditor's own DID
    document, naming its subject and nobody else, and not revoked; and the scope is what
    the leaf's accreditation shares with the credential and every accreditor above may delegate. *)
Theorem trust_chain_sound fetch gzip_read resolver `{ProofSuite} anchors resolve_status_list subject_did types max_depth sent chain sent'
    (Hv : verify_trust_chain fetch gzip_read resolver anchors resolve_status_list subject_did types max_depth sent = (Ok chain, sent')) :
  chain_guarantee fetch gzip_read resolver anchors resolve_status_list subject_did types max_depth chain.
Proof. by eapply verify_trust_chain_Ok. Qed.

(** ** The walk ends *)

Definition HOP_REQUESTS : nat := S (1 + (MAX_ATTRIBUTE_PAGES + MAX_ATTRIBUTE_ITEMS)).

Section bounded.
Context (fetch : list pystr -> pystr -> result json) (decode : pystr -> result json) (gzip_read : bytes -> Z -> result bytes).
Context (ipv6 : pystr -> bool) (unquote casefold : pystr -> pystr) (base : pystr) (didr : DidRegistryAdapter) (w : attribute_walk).
Context `{ProofSuite} (anchors : gset pystr) (resolve_status_list : option (pystr -> result json)).
Context (Hw : shipped_walk ipv6 unquote casefold base w).
Abbreviation resolver := {| r_base := base; r_didr := didr; r_tir := walk_adapter fetch decode ipv6 w |}.

Lemma verify_accreditation_requests reading acc subject accreditor :
  requests (fun _ => True) 1 (verify_accreditation fetch resolver reading acc subject accreditor).
Proof using Type.
  unfold verify_accreditation. destruct (credential_jwt acc) as [[|c token]|]; try apply requests_lift.
  apply requests_bind_lift. intros [iss kid] _. apply requests_bind_lift. intros ? _. change 1%nat with (1 + 0)%nat.
  apply requests_bind; [apply requests_outcome, ebsi_resolve_requests|]. intros doc.
  destruct (key_by_kid doc (kid_json kid)); [|apply requests_lift].
  apply requests_bind_lift. intros vc _. apply requests_bind_lift. intros ? _. apply requests_ret.
Qed.

Lemma read_hop_requests reading current needed leaf :
  requests (fun _ => True) HOP_REQUESTS (read_hop fetch gzip_read resolver resolve_status_list reading current needed leaf).
Proof using Hw.
  unfold read_hop. change HOP_REQUESTS with (1 + (MAX_ATTRIBUTE_PAGES + MAX_ATTRIBUTE_ITEMS) + 1)%nat.
  apply requests_bind; [by eapply requests_outcome, issuer_record_requests|]. intros record.
  destruct (pick_accreditation record needed leaf) as [acc|]; [|apply requests_lift].
  destruct (tao acc) as [[|c t]|]; try apply requests_lift. change 1%nat with (1 + 0)%nat.
  apply requests_bind; [apply verify_accreditation_requests|]. intros vc. apply requests_bind_lift. intros ? _. apply requests_ret.
Qed.

Lemma trust_walk_requests types first depth : forall current seen sc path, requests (fun _ => True) (depth * HOP_REQUESTS)
  (trust_walk fetch gzip_read resolver anchors resolve_status_list types first depth current seen sc path).
Proof using Hw.
  induction depth as [|depth IH]; intros; [apply requests_lift|]. change (S depth * HOP_REQUESTS)%nat with (HOP_REQUESTS + depth * HOP_REQUESTS)%nat.
  cbn [trust_walk]. apply requests_bind; [apply read_hop_requests|]. intros [acc accreditor].
  destruct (bool_decide _); [apply requests_ret|]. destruct (bool_decide _); [apply requests_lift|apply IH].
Qed.

(** C34: Walking a chain always ends.  Against a registry that answers whatever it likes, links
    in circles and pages without end included, the walk stops with a verdict after at most
    1052 requests per hop allowed, and none at all when the issuer is itself an anchor. *)
Theorem trust_walk_bounded subject_did types max_depth sent result sent'
    (Hv : verify_trust_chain fetch gzip_read resolver anchors resolve_status_list subject_did types max_depth sent = (result, sent')) :
  exists new, sent' = sent ++ new /\ (length new <= Z.to_nat max_depth * HOP_REQUESTS)%nat /\ (subject_did ∈ anchors -> new = []).
Proof using Hw.
  unfold verify_trust_chain in Hv. destruct (bool_decide_reflect (subject_did ∈ anchors)) as [Ha|Ha].
  - injection Hv as _ <-. exists []. rewrite app_nil_r. split; [done|]. split; [apply Nat.le_0_l|done].
  - destruct (trust_walk_requests (list_to_set types) subject_did (Z.to_nat max_depth) subject_did {[subject_did]} None [] sent)
      as (new & Hs & _ & Hn). rewrite Hv in Hs. by exists new.
Qed.
End bounded.

(** * What an accepted badge establishes *)

Lemma evaluate_issuer_trust_Some record types acc : evaluate_issuer_trust record types = Some acc ->
  acc ∈ accreditations record /\ accreditation_ineligibility acc true = None /\ exists t, t ∈ credential_types acc /\ t ∈ types.
Proof.
  intros Hp. assert (Hp' : pick_accreditation record (list_to_set types) true = Some acc) by exact Hp.
  apply pick_accreditation_Some in Hp' as (Hin & Hel & Hne). split; [done|]. split; [done|].
  apply set_choose_L in Hne as [t Ht]. exists t. unfold types_of in Ht. set_solver.
Qed.


Section badge_sound.
Context (fetch : list pystr -> pystr -> result json) (gzip_read : bytes -> Z -> result bytes).
Context (resolver : DidEbsiResolver) `{LawfulSuite}.
Context (resolve_status_list : option (pystr -> result json)).

(** Single-level trust: the issuer's own record holds an accreditation to attest one of the
    credential's types. *)
Definition accredited (issuer : pystr) (types : list pystr) (b : VerifiedEbsiBadge) : Prop :=
  exists sent record sent' acc t, issuer_record fetch resolver (JStr issuer) sent = (Ok record, sent') /\
    badge_record b = Some record /\ badge_accreditation b = Some acc /\ acc ∈ accreditations record /\
    accreditation_ineligibility acc true = None /\ t ∈ credential_types acc /\ t ∈ types.

Record badge_guarantee (token : pystr) (expected_types : list pystr) (require_trust : bool)
    (trust_anchors : option (gset pystr)) (audience : json) (b : VerifiedEbsiBadge) : Prop := {
  bg_signed : exists kid sent doc sent' vm, suite_peek_issuer token = Ok (badge_issuer b, kid) /\
    ebsi_resolve fetch resolver (JStr (badge_issuer b)) sent = (Ok doc, sent') /\
    DID_EBSI (badge_issuer b) = true /\ doc_id doc = badge_issuer b /\ key_by_kid doc (kid_json kid) = Some vm /\
    suite_verify 0 token (JDict (public_key_jwk vm)) expected_types audience = Ok (badge_verified b);
  bg_reported : badge_credential b = credential (badge_verified b) /\ badge_issuer b = vc_issuer (badge_verified b) /\
    badge_subject b = vc_subject (badge_verified b);
  bg_required : require_trust = true -> trusted b = true;
  bg_trusted : trusted b = true -> exists types, ebsi_credential_types (badge_credential b) = Ok types /\
    match trust_anchors with
    | Some anchors => exists chain, badge_chain b = Some chain /\
        chain_guarantee fetch gzip_read resolver anchors resolve_status_list (badge_issuer b) types DEFAULT_MAX_DEPTH chain
    | None => accredited (badge_issuer b) types b
    end;
  bg_status : forall resolve, resolve_status_list = Some resolve -> exists st, badge_status b = Some st /\
    check_credential_status gzip_read (badge_credential b) resolve = Ok st /\ revoked st = false }.

(** C8: What an accepted EBSI badge guarantees.  Its token verifies under a key of the DID
    document the registry publishes for the very issuer it reports; when the caller requires
    trust the badge is trusted; a trusted badge has, in anchored mode, a sound chain to one
    of the anchors for its own types, and otherwise a live accreditation to attest one of them
    in the issuer's record; and with a status resolver it is not revoked. *)
Theorem ebsi_badge_sound token expected_types require_trust trust_anchors audience sent b sent'
    (Hb : verify_ebsi_badge fetch gzip_read resolver resolve_status_list token expected_types require_trust trust_anchors audience sent
          = (Ok b, sent')) :
  badge_guarantee token expected_types require_trust trust_anchors audience b.
Proof using Type*.
  apply fbind_Ok in Hb as ([hint kid] & s1 & [Hpeek ->]%lift_Ok & Hb). apply fbind_Ok in Hb as (doc & s2 & Hr%outcome_catch_Ok & Hb).
  destruct (key_by_kid doc (kid_json kid)) as [vm|] eqn:Ek; [|done]. apply fbind_Ok in Hb as (v & s3 & [Hs ->]%lift_Ok & Hb).
  pose proof (peeked_is_verified _ _ _ _ _ _ _ _ Hpeek Hs) as Hiss. subst hint.
  apply fbind_Ok in Hb as (types & s4 & [Ht ->]%lift_Ok & Hb). apply fbind_Ok in Hb as ([[[tr acc] rec] ch] & s5 & Htr & Hb).
  apply fbind_Ok in Hb as (st & s6 & [Hst ->]%lift_Ok & [-> _]%fret_Ok).
  destruct (ebsi_resolve_bound _ _ _ _ _ _ Hr) as [Hd Hid].
  split; cbn [badge_issuer badge_verified badge_credential badge_subject trusted badge_chain badge_status].
  - exists kid, sent, doc, s2, vm. done.
  - done.
  - intros ->. unfold issuer_trust in Htr. destruct trust_anchors as [an|].
    + apply fbind_Ok in Htr as (chain & s7 & Hc & [[= -> _ _ _] _]%fret_Ok). apply outcome_Ok in Hc as ([c|e] & _ & Hc); [by injection Hc as <-|].
      by rewrite andb_false_r in Hc.
    + apply fbind_Ok in Htr as (record & s7 & _ & Htr). apply fbind_Ok in Htr as (? & s8 & [Hq%raise_if_Ok _]%lift_Ok & [[= -> _ _ _] _]%fret_Ok).
      by apply negb_false_iff in Hq.
  - intros ->. exists types. split; [done|]. unfold issuer_trust in Htr. destruct trust_anchors as [an|].
    + apply fbind_Ok in Htr as (chain & s7 & Hc & [[= Etr _ _ ->] _]%fret_Ok). destruct chain as [c|]; [|done]. exists c. split; [done|].
      apply outcome_Ok in Hc as ([c'|e] & Hc & E); [injection E as ->|by case_match]. by eapply verify_trust_chain_Ok.
    + apply fbind_Ok in Htr as (record & s7 & Hc%outcome_catch_Ok & Htr).
      apply fbind_Ok in Htr as (? & s8 & _ & [[= Etr -> -> _] _]%fret_Ok). cbv zeta in Etr.
      destruct (evaluate_issuer_trust record types) as [a|] eqn:Ee; [|done].
      apply evaluate_issuer_trust_Some in Ee as (Hin & Hel & t & Hta & Htt). by exists s2, record, s7, a, t.
  - intros resolve Hres. unfold badge_revocation in Hst. rewrite Hres in Hst. apply bind_Ok in Hst as (r & Hc & Hst).
    apply bind_Ok in Hst as (? & Hrev%raise_if_Ok & [= <-]). by exists r.
Qed.
End badge_sound.

(** The shipped suite is lawful, given that PyJWT returns the claims of the token it verified. *)
Lemma vc_jwt_suite_lawful json_loads verify_signature lower on_curve from_jwk pyjwt_decode is_space is_decimal fromisoformat su clock :
  (forall token jwk alg l aud enforce cl, pyjwt_decode token jwk alg l aud enforce = JwtClaims cl -> peek_claims json_loads token = Ok cl) ->
  @LawfulSuite (vc_jwt_suite json_loads verify_signature lower on_curve from_jwk pyjwt_decode is_space is_decimal fromisoformat su clock).
Proof.
  intros Hpyjwt token iss kid reading jwk types audience v Hpeek [Ha Hvc _ [Hi Hids] _ _ _]%vc_verify_guarantee.
  destruct Ha as (h & p & s & hb & hd & alg & payload & je & _ & _ & _ & _ & _ & _ & _ & Hpl & _ & Hau & _).
  pose proof (verified_payload _ _ _ _ _ _ _ _ _ _ _ _ Hpyjwt Hau Hpl) as ->.
  symmetry. exact (peeked_vc_issuer _ _ _ _ _ _ _ Hpeek Hpl Hvc Hi Hids).
Qed.

(** * Examples *)

(** A suite that accepts the accreditation ["token"] of the anchor and the badge ["badge"] of
    the accredited issuer. *)
Definition example_suite : ProofSuite := {|
  suite_peek_issuer := fun token => Ok (if bool_decide (token = $"token") then example_anchor else example_leaf, Some ($"k"));
  suite_verify := fun _ token _ _ _ =>
    Ok (if bool_decide (token = $"token")
        then {| credential := example_vc; vc_issuer := example_anchor; vc_subject := None; vc_claims := []; vc_expired := false |}
        else {| credential := [($"type", JList [JStr ($"VerifiableCredential"); JStr ($"Diploma")])]; vc_issuer := example_leaf;
                vc_subject := None; vc_claims := []; vc_expired := false |}) |}.
#[local] Existing Instance example_suite.

#[local] Instance example_suite_lawful : LawfulSuite.
Proof.
  intros token iss kid reading jwk types audience v [= <- <-] [= <-]. by destruct (bool_decide (token = _)).
Qed.

Definition example_resolver : DidEbsiResolver := {| r_base := example_base; r_didr := DidRegistryV5 (fun _ _ => None);
  r_tir := walk_adapter example_fetch example_decode (fun _ => false) v5_walk |}.
Definition example_walk : result TrustChain * list pystr :=
  verify_trust_chain example_fetch stored_read example_resolver {[example_anchor]} None example_leaf [$"Diploma"; $"Other"] 6 [].
Definition example_badge : result VerifiedEbsiBadge * list pystr :=
  verify_ebsi_badge example_fetch stored_read example_resolver None ($"badge") [] true (Some {[example_anchor]}) JNull [].

Example example_walk_fst : match example_walk.1 with Ok chain => anchor chain = example_anchor /\ length (hops chain) = 1%nat /\
   elements (scope chain) = [$"Diploma"] | Err _ => False end /\ length example_walk.2 = 4%nat.
Proof. by vm_compute. Qed.

Lemma trust_chain_sound_witness : exists chain, example_walk.1 = Ok chain /\
  chain_guarantee example_fetch stored_read example_resolver {[example_anchor]} None example_leaf [$"Diploma"; $"Other"] 6 chain.
Proof.
  pose proof (surjective_pairing example_walk) as E. pose proof example_walk_fst as [F _].
  destruct example_walk.1 as [chain|e] eqn:Ec; [|destruct F]. exists chain. split; [reflexivity|].
  exact (trust_chain_sound example_fetch stored_read example_resolver {[example_anchor]} None example_leaf [$"Diploma"; $"Other"] 6 []
    chain _ E).
Defined.

Lemma trust_walk_bounded_witness : exists new, example_walk.2 = [] ++ new /\ (length new <= Z.to_nat 6 * HOP_REQUESTS)%nat /\
  (example_leaf ∈ ({[example_anchor]} : gset pystr) -> new = []).
Proof.
  exact (trust_walk_bounded example_fetch example_decode stored_read (fun _ => false) id id example_base (DidRegistryV5 (fun _ _ => None))
    v5_walk {[example_anchor]} None (shipped_v5 _ _ _ _) example_leaf [$"Diploma"; $"Other"] 6 [] _ _ (surjective_pairing example_walk)).
Defined.

Example example_badge_fst : match example_badge.1 with Ok b => trusted b = true /\ badge_issuer b = example_leaf | Err _ => False end.
Proof. by vm_compute. Qed.

Lemma ebsi_badge_sound_witness : exists b, example_badge.1 = Ok b /\
  badge_guarantee example_fetch stored_read example_resolver None ($"badge") [] true (Some {[example_anchor]}) JNull b.
Proof.
  pose proof (surjective_pairing example_badge) as E. pose proof example_badge_fst as F.
  destruct example_badge.1 as [b|e] eqn:Eb; [|destruct F]. exists b. split; [reflexivity|].
  exact (ebsi_badge_sound example_fetch stored_read example_resolver None ($"badge") [] true (Some {[example_anchor]}) JNull [] b _ E).
Defined.

(** A signed credential whose [type] is a number stops the verification with a bare
    [TypeError], not an error of the library. *)
Example badge_type_escapes : ebsi_credential_types [($"type", JInt 5)] = Err TypeError /\ isinstance TypeError OpenvcError = false.
Proof. done. Qed.
