(* ===== verification/RpCert.v ===== *)
(** [openvc.rp_cert] (src/src/openvc/rp_cert.py): the access certificate of a relying party.

    Certificates are the [cryptography] library's, as in [X5c]; [rp_library] has the readers only
    this module uses.  An instant is in microseconds. *)
From S2P Require Import Prelude Errors PyStr Json Base64 Schema Did Keys JwtVcIssuer X5c.

(** [subject_values]: the values of an attribute, [None] for one that is no [str];
    [information_access]: the locations of the extension, [None] for one that is no URI. *)
Record rp_library (L : x509_library) := {
  load_pem : bytes -> option (cert L);
  subject_values : cert L -> pystr -> result (list (option pystr));
  rfc4514_string : cert L -> result pystr;
  serial_hex : cert L -> result pystr;
  policies : cert L -> result (option (list pystr));
  information_access : cert L -> result (option (list (option pystr))) }.
Arguments load_pem {L}. Arguments subject_values {L}. Arguments rfc4514_string {L}. Arguments serial_hex {L}.
Arguments policies {L}. Arguments information_access {L}.

Definition ORGANIZATION_IDENTIFIER : pystr := $"2.5.4.97".
Definition COMMON_NAME : pystr := $"2.5.4.3".
Definition ORGANIZATION_NAME : pystr := $"2.5.4.10".
Definition COUNTRY_NAME : pystr := $"2.5.4.6".

(** What a caller may hand over as a certificate. *)
Inductive cert_input (L : x509_library) := ParsedCert (c : cert L) | TextCert (s : pystr) | BytesCert (b : bytes) | OtherCert.
Arguments ParsedCert {L}. Arguments TextCert {L}. Arguments BytesCert {L}. Arguments OtherCert {L}.

(** [raw.lstrip()] of bytes. *)
Fixpoint lstrip_bytes (b : bytes) : bytes :=
  match b with c :: b' => if bool_decide (c ∈ [9; 10; 11; 12; 13; 32]) then lstrip_bytes b' else b | [] => [] end.

Record RelyingPartyAccessCertificate (L : x509_library) := {
  entity_identifier : option pystr; trade_name : option pystr; organization_name : option pystr; country : option pystr;
  subject : pystr; serial_number : pystr; not_before : Z; not_after : Z; extended_key_usages : list pystr;
  certificate_policies : list pystr; registration_records : list pystr; rp_public_jwk : option jobject; certificate : cert L }.
Arguments entity_identifier {L}. Arguments trade_name {L}. Arguments organization_name {L}. Arguments country {L}.
Arguments subject {L}. Arguments serial_number {L}. Arguments not_before {L}. Arguments not_after {L}.
Arguments extended_key_usages {L}. Arguments certificate_policies {L}. Arguments registration_records {L}.
Arguments rp_public_jwk {L}. Arguments certificate {L}.

Section rp_cert.
Context (L : x509_library) (R : rp_library L) (is_space : Z -> bool).

Definition load_cert (c : cert_input L) : result (cert L) :=
  let or_error (o : option (cert L)) := match o with Some c => Ok c | None => Err RpCertError end in
  match c with
  | ParsedCert c => Ok c
  | TextCert s => der ← catch_as (fun e => isinstance e PyException) RpCertError (b64decode s); or_error (load_der L der)
  | BytesCert raw => or_error (if startswith (lstrip_bytes raw) ($"-----BEGIN") then load_pem R raw else load_der L raw)
  | OtherCert => Err RpCertError
  end.

Definition subject_value (c : cert L) (oid : pystr) : result (option pystr) :=
  attrs ← subject_values R c oid;
  match attrs with
  | [] => Ok None
  | [Some value] => Ok (if bool_decide (strip is_space value = []) then None else Some value)
  | [None] => Ok None
  | _ => Err RpCertError
  end.

Definition public_jwk_of (c : cert L) : result (option jobject) :=
  match public_key L c with
  | EcKey curve x y =>
      let jwk name size := bx ← int_to_fixed x size; by_ ← int_to_fixed y size; Ok (Some (ec_jwk name bx by_)) in
      if bool_decide (curve = $"secp256r1") then jwk ($"P-256") 32%nat
      else if bool_decide (curve = $"secp384r1") then jwk ($"P-384") 48%nat else Ok None
  | _ => Ok None
  end.

Definition extended_key_usages_of (c : cert L) : result (list pystr) := eku ← extended_key_usage L c; Ok (default [] eku).
Definition certificate_policies_of (c : cert L) : result (list pystr) := ps ← policies R c; Ok (default [] ps).
Definition registration_records_of (c : cert L) : result (list pystr) :=
  sia ← information_access R c; Ok (omap (fun l => l) (default [] sia)).

Definition parse_rp_access_certificate (c : cert_input L) : result (RelyingPartyAccessCertificate L) :=
  c ← load_cert c;
  catch_as (fun e => isinstance e PyException) RpCertError
    (entity ← subject_value c ORGANIZATION_IDENTIFIER;
     trade ← subject_value c COMMON_NAME;
     organization ← subject_value c ORGANIZATION_NAME;
     country ← subject_value c COUNTRY_NAME;
     subject ← rfc4514_string R c;
     serial ← serial_hex R c;
     ekus ← extended_key_usages_of c;
     policies ← certificate_policies_of c;
     records ← registration_records_of c;
     jwk ← public_jwk_of c;
     Ok {| entity_identifier := entity; trade_name := trade; organization_name := organization; country := country;
           subject := subject; serial_number := serial; not_before := not_valid_before L c; not_after := not_valid_after L c;
           extended_key_usages := ekus; certificate_policies := policies; registration_records := records;
           rp_public_jwk := jwk; certificate := c |}).

(** [now] has been read by [utc_instant]; the anchors and the intermediates are sequences. *)
Definition verify_rp_access_certificate (c : cert_input L) (trust_anchors intermediates : list (cert_input L))
    (required_eku : option pystr) (now : Z) : result (RelyingPartyAccessCertificate L) :=
  anchors ← mapR load_cert trust_anchors;
  raise_if (match anchors with [] => true | _ => false end) RpCertError;;
  leaf ← load_cert c;
  inter ← mapR load_cert intermediates;
  raise_if (negb (verify_path L anchors now leaf inter)) RpCertError;;
  parsed ← parse_rp_access_certificate (ParsedCert leaf);
  raise_if (match required_eku with Some oid => negb (bool_decide (oid ∈ extended_key_usages parsed)) | None => false end) RpCertError;;
  Ok parsed.

(** * What an accepted certificate is *)

Lemma parse_rp_access_certificate_Ok leaf parsed : parse_rp_access_certificate (ParsedCert leaf) = Ok parsed ->
  certificate parsed = leaf /\ subject_value leaf ORGANIZATION_IDENTIFIER = Ok (entity_identifier parsed) /\
  subject_value leaf COMMON_NAME = Ok (trade_name parsed) /\
  extended_key_usages_of leaf = Ok (extended_key_usages parsed).
Proof using Type. cbn. intros H%catch_as_Ok. do 10 (apply bind_Ok in H as (? & ? & H)). by apply Ok_inj in H as <-. Qed.

(** A [str] value of the subject that is not blank, alone under its identifier. *)
Definition single_value (c : cert L) (oid value : pystr) : Prop :=
  subject_values R c oid = Ok [Some value] /\ strip is_space value <> [].

Lemma subject_value_Some c oid value : subject_value c oid = Ok (Some value) -> single_value c oid value.
Proof using Type.
  unfold subject_value. intros H. apply bind_Ok in H as (attrs & Ha & H). destruct attrs as [|[v|] [|]]; try done.
  case_bool_decide; [done|]. by injection H as ->.
Qed.

Lemma verify_rp_access_certificate_Ok c trust_anchors intermediates required_eku now parsed :
  verify_rp_access_certificate c trust_anchors intermediates required_eku now = Ok parsed ->
  exists anchors inter, Forall2 (fun i c => load_cert i = Ok c) trust_anchors anchors /\
    load_cert c = Ok (certificate parsed) /\ Forall2 (fun i c => load_cert i = Ok c) intermediates inter /\
    anchored L anchors now (certificate parsed) inter /\
    (forall oid, required_eku = Some oid -> oid ∈ extended_key_usages parsed) /\
    extended_key_usages_of (certificate parsed) = Ok (extended_key_usages parsed) /\
    (forall id, entity_identifier parsed = Some id -> single_value (certificate parsed) ORGANIZATION_IDENTIFIER id) /\
    (forall n, trade_name parsed = Some n -> single_value (certificate parsed) COMMON_NAME n).
Proof using Type.
  intros H. unfold verify_rp_access_certificate in H. apply bind_Ok in H as (anchors & Ha%mapR_Ok & H).
  apply bind_Ok in H as (? & Hn%raise_if_Ok & H). apply bind_Ok in H as (leaf & Hl & H). apply bind_Ok in H as (inter & Hi%mapR_Ok & H).
  apply bind_Ok in H as (? & Hp%raise_if_Ok%negb_false_iff & H). apply bind_Ok in H as (p & Hparse & H).
  apply bind_Ok in H as (? & He%raise_if_Ok & [= <-]).
  apply parse_rp_access_certificate_Ok in Hparse as (-> & Hid & Hname & Hek). exists anchors, inter. split_and!; try done.
  - split; [by destruct anchors|done].
  - intros oid ->. by apply negb_false_iff, bool_decide_eq_true in He.
  - intros id E. rewrite E in Hid. by apply subject_value_Some.
  - intros n E. rewrite E in Hname. by apply subject_value_Some.
Qed.
End rp_cert.
