(* ===== verification/RpRegistration.v ===== *)
(** [openvc.rp_registration] (src/src/openvc/rp_registration.py): the registration certificate
    of a relying party, and whether a request is within it.

    The claims of a CWT are read into the JSON type of the JWT form by [cval_json], which keeps
    what the code can tell apart: types, text keys, the size and the distinctness of every map.
    An instant or a span is in microseconds. *)
From Stdlib Require Import SpecFloat.
From S2P Require Import Prelude Errors PyStr Utf8 Cbor Json Base64 PyNum Decimal Datetime VerifyCommon VcJwt Schema Did Keys JwtVcIssuer X5c Cose RpCert.

Definition WRPRC_JWT_TYP : pystr := $"rc-wrp+jwt".
Definition WRPRC_CWT_TYP : pystr := $"rc-wrp+cwt".
Definition ENTITLEMENT_URI_PREFIX : pystr := $"https://uri.etsi.org/19475/Entitlement/".
Definition MAX_VALIDITY : Z := 366 * 86400 * SECOND.
Definition COSE_HDR_TYP : Z := 16.
Definition CWT_REGISTERED_CLAIMS : list (Z * pystr) :=
  [(1, $"iss"); (2, $"sub"); (3, $"aud"); (4, $"exp"); (5, $"nbf"); (6, $"iat"); (7, $"cti")].
Definition JADES_CRIT : list pystr := [$"alg"; $"typ"; $"x5c"; $"iat"].

(** [meta]: [None] when the entry's is no object. *)
Record RequestableCredential := { rc_format : option pystr; rc_meta : option jobject; claim_paths : list (list json); rc_raw : jobject }.

Record RelyingPartyRegistrationCertificate := {
  subject_identifier : option pystr; reg_trade_name : option pystr; legal_name : option pystr; given_name : option pystr;
  family_name : option pystr; reg_country : option pystr; entitlements : list pystr; intended_use_id : option pystr;
  credentials : list RequestableCredential; provides_attestations : list RequestableCredential; purpose : list jobject;
  service_description : list jobject; policy_ids : list pystr; certificate_policy : option pystr; registry_uri : option pystr;
  privacy_policy : option pystr; info_uri : option pystr; support_uri : option pystr; supervisory_authority : option jobject;
  intermediary : option jobject; public_body : option bool; reg_status : option jobject; issued_at : option Z;
  expires_at : option Z; form : pystr; header : jobject; claims : jobject }.

(** * Claims *)

(** A decoded CBOR value as the code sees it: an integer or byte-string key becomes a string no
    text key is equal to. *)
Definition key_text (k : ckey) : pystr :=
  match k with KText s => s | KInt n => [-1; n] | KBytes b => -2 :: b end.

Fixpoint cval_json (v : cval) : json :=
  match v with
  | CNull => JNull
  | CBool b => JBool b
  | CInt n => JInt n
  | CText s => JStr s
  | CArray l => JList (map cval_json l)
  | CMap d => JDict (map (fun kv => (key_text kv.1, cval_json kv.2)) d)
  | CBytes _ | CTag _ _ _ | CRaw _ | COther => JOther
  end.

(** [_SIG_T]: the six fields and the fraction. *)
Definition SIG_T (s : pystr) : option (Z * Z * Z * Z * Z * Z * pystr) :=
  let field i n := take n (drop i s) in
  let fraction := take (length s - 21) (drop 20 s) in
  if forallb (fun ft => (length ft =? 2)%nat && forallb is_ascii_digit ft) [field 5 2; field 8 2; field 11 2; field 14 2; field 17 2]%nat &&
     (length (field 0 4) =? 4)%nat && forallb is_ascii_digit (field 0 4)%nat &&
     bool_decide (map (fun i => nth i s 0) [4; 7; 10; 13; 16]%nat = [45; 45; 84; 58; 58]) &&
     bool_decide (last s = Some 90) &&
     ((length s =? 20)%nat ||
      (nth 19 s 0 =? 46) && (1 <=? length fraction)%nat && (length fraction <=? 9)%nat && forallb is_ascii_digit fraction)
  then Some (decimal_value (field 0 4), decimal_value (field 5 2), decimal_value (field 8 2), decimal_value (field 11 2),
             decimal_value (field 14 2), decimal_value (field 17 2), fraction)%nat
  else None.

Section rp_registration.
Context (is_space : Z -> bool).

Definition str_or_none (value : json) : option pystr :=
  match value with JStr s => match strip is_space s with [] => None | t => Some t end | _ => None end.

Definition mapping_or_none (value : json) : option jobject := as_dict value.

Definition str_tuple (value : json) (allow_scalar : bool) : list pystr :=
  match value with
  | JStr _ => if allow_scalar then match str_or_none value with Some t => [t] | None => [] end else []
  | JList l => omap str_or_none l
  | _ => []
  end.

Definition mapping_tuple (value : json) : list jobject :=
  match value with
  | JList l => flat_map (fun item => match item with JDict d => [d] | JList subs => omap as_dict subs | _ => [] end) l
  | _ => []
  end.

Definition numeric_date (value : json) : result (option Z) :=
  match value with
  | JNull => Ok None
  | _ =>
      match as_num value with
      | None => Err RpRegistrationError
      | Some n =>
          raise_if (match isfinite n with Ok b => negb b | Err _ => true end) RpRegistrationError;;
          t ← catch_as (fun e => isinstance e OverflowError || isinstance e OSError || isinstance e ValueError)
                RpRegistrationError (f ← to_float n; fromtimestamp f);
          Ok (Some t)
      end
  end.

Definition paths_under (entry : jobject) (key : pystr) : list (list json) :=
  match jget entry key with
  | JList raw =>
      omap (fun item => match item with
                        | JDict d => match jget d ($"path") with JList p => Some p | JStr s => Some [JStr s] | _ => None end
                        | _ => None
                        end) raw
  | _ => []
  end.

Definition registered_paths (entry : jobject) : list (list json) :=
  if dmem entry ($"claim") then paths_under entry ($"claim") else paths_under entry ($"claims").

(** [p not in seen] compares tuples with [==], element by element, as [seen] grows. *)
Definition requested_paths (query : jobject) : list (list json) :=
  foldl (fun seen p => if existsb (fun q => py_eq (JList q) (JList p)) seen then seen else seen ++ [p])
    (paths_under query ($"claims")) (paths_under query ($"claim")).

Definition requestable (value : json) : list RequestableCredential :=
  match value with
  | JList l =>
      omap (fun entry => match entry with
        | JDict e => Some {| rc_format := str_or_none (jget e ($"format"));
                             rc_meta := match jget e ($"meta") with JNull => Some [] | m => mapping_or_none m end;
                             claim_paths := registered_paths e; rc_raw := e |}
        | _ => None
        end) l
  | _ => []
  end.

Definition build (header claims : jobject) (form : pystr) : result RelyingPartyRegistrationCertificate :=
  let text k := str_or_none (jget claims k) in
  issued ← numeric_date (jget claims ($"iat"));
  expires ← numeric_date (jget claims ($"exp"));
  Ok {| subject_identifier := text ($"sub"); reg_trade_name := text ($"name"); legal_name := text ($"sub_ln");
        given_name := text ($"sub_gn"); family_name := text ($"sub_fn"); reg_country := text ($"country");
        entitlements := str_tuple (jget claims ($"entitlements")) false; intended_use_id := text ($"intended_use_id");
        credentials := requestable (jget claims ($"credentials"));
        provides_attestations := requestable (jget claims ($"provides_attestations"));
        purpose := mapping_tuple (jget claims ($"purpose")); service_description := mapping_tuple (jget claims ($"srv_description"));
        policy_ids := str_tuple (jget claims ($"policy_id")) true; certificate_policy := text ($"certificate_policy");
        registry_uri := text ($"registry_uri"); privacy_policy := text ($"privacy_policy"); info_uri := text ($"info_uri");
        support_uri := text ($"support_uri"); supervisory_authority := mapping_or_none (jget claims ($"supervisory_authority"));
        intermediary := mapping_or_none (jget claims ($"intermediary"));
        public_body := match jget claims ($"public_body") with JBool b => Some b | _ => None end;
        reg_status := mapping_or_none (jget claims ($"status")); issued_at := issued; expires_at := expires;
        form := form; header := header; claims := claims |}.

Definition intermediary_identifier (reg : RelyingPartyRegistrationCertificate) : option pystr :=
  let act := match jget (claims reg) ($"act") with JDict act => str_or_none (jget act ($"sub")) | _ => None end in
  match intermediary reg with
  | Some i => match str_or_none (jget i ($"sub")) with Some s => Some s | None => act end
  | None => act
  end.

Definition intermediary_name (reg : RelyingPartyRegistrationCertificate) : option pystr :=
  match intermediary reg with
  | Some i => match str_or_none (jget i ($"sname")) with Some s => Some s | None => str_or_none (jget i ($"name")) end
  | None => None
  end.

(** * The envelopes *)

Definition parse_sig_t (value : json) : result Z :=
  match match value with JStr s => SIG_T s | _ => None end with
  | None => Err RpRegistrationError
  | Some (y, m, d, hh, mm, ss, fraction) =>
      catch_as (fun e => isinstance e ValueError) RpRegistrationError
        (datetime_us y m d hh mm ss (decimal_value (take 6 (fraction ++ $"000000"))))
  end.

Definition claimed_signing_time (reg : RelyingPartyRegistrationCertificate) : option Z :=
  if negb (bool_decide (form reg = $"jwt")) then None
  else match jget (header reg) ($"sigT") with
       | JNull => None
       | v => match parse_sig_t v with Ok t => Some t | Err _ => None end
       end.

Definition check_b64 (value : json) : result unit :=
  match value with JBool true => Ok tt | _ => Err RpRegistrationError end.

Definition UNDERSTOOD_PARAMS : list (pystr * (json -> result unit)) :=
  [($"sigT", fun v => parse_sig_t v;; Ok tt); ($"b64", check_b64)].
Definition KNOWN_CRIT : list pystr := JADES_CRIT ++ UNDERSTOOD_PARAMS.*1.

Definition reject_unknown_crit (header : jobject) : result unit :=
  match dget header ($"crit") with
  | None => Ok tt
  | Some (JList ((_ :: _) as crit)) =>
      raise_if (negb (forallb is_str crit)) RpRegistrationError;;
      let names := omap as_str crit in
      raise_if (negb (bool_decide (NoDup names))) RpRegistrationError;;
      raise_if (negb (forallb (fun c => bool_decide (c ∈ KNOWN_CRIT)) names)) RpRegistrationError;;
      raise_if (negb (forallb (dmem header) names)) RpRegistrationError
  | Some _ => Err RpRegistrationError
  end.

Definition check_understood_params (header : jobject) : result unit :=
  foldR (fun _ nc => match dget header nc.1 with Some v => nc.2 v | None => Ok tt end) tt UNDERSTOOD_PARAMS.

Definition check_alg (alg : json) : result pystr :=
  match alg with
  | JStr a => raise_if (negb (bool_decide (a ∈ ALLOWED_ALGS))) RpRegistrationError;; Ok a
  | _ => Err RpRegistrationError
  end.

(** [typ == expected]; the other refusal differs in its message. *)
Definition check_typ (typ : json) (expected : pystr) : result unit := raise_if (negb (eq_str typ expected)) RpRegistrationError.

Definition normalise_cwt_claims (raw : cmap) : result jobject :=
  foldR (fun claims kv =>
    match (match kv.1 with KInt n => dget CWT_REGISTERED_CLAIMS n | KText s => Some s | KBytes _ => None end) with
    | None => Ok claims
    | Some name => raise_if (dmem claims name) RpRegistrationError;; Ok (claims ++ [(name, cval_json kv.2)])
    end) [] raw.

(** The text of a [typ]: a byte string is the text when it is its UTF-8 (any other byte string
    decodes, with replacements, to no expected text). *)
Definition cose_typ (v : cval) : json :=
  match v with
  | CBytes b => match utf8_decode b with Ok s => JStr s | Err _ => JStr [65533] end
  | v => cval_json v
  end.

Definition cwt_envelope (data : bytes) : result (jobject * jobject * CoseMessage) :=
  sign1 ← catch_as (fun e => isinstance e CborError || isinstance e CoseError) RpRegistrationError
            (v ← Cbor.decode data; parse_sign1 v);
  check_typ (cose_typ (cget (protected_header sign1) (KInt COSE_HDR_TYP))) WRPRC_CWT_TYP;;
  alg ← catch_as (fun e => isinstance e CoseError) RpRegistrationError (require_alg (protected_header sign1));
  raise_if (negb (dmem COSE_ALG_TO_JOSE alg)) RpRegistrationError;;
  match payload sign1 with
  | None => Err RpRegistrationError
  | Some p =>
      raw_claims ← catch_as (fun e => isinstance e CborError) RpRegistrationError (Cbor.decode p);
      match raw_claims with
      | CMap raw =>
          claims ← normalise_cwt_claims raw;
          Ok (map (fun kv => (key_text kv.1, cval_json kv.2)) (protected_header sign1), claims, sign1)
      | _ => Err RpRegistrationError
      end
  end.

(** What a caller may hand over as a registration certificate. *)
Inductive wrprc := JwtToken (s : pystr) | CwtToken (b : bytes) | OtherToken.

Section envelopes.
Context (json_loads : bytes -> result json).

Definition jwt_envelope (token : pystr) : result (jobject * jobject * bytes * bytes) :=
  '(header, claims, signing_input, signature) ← catch_as (fun e => isinstance e ProofError) RpRegistrationError
                                                  (parse_compact json_loads token);
  check_typ (jget header ($"typ")) WRPRC_JWT_TYP;;
  check_alg (jget header ($"alg"));;
  reject_unknown_crit header;;
  check_understood_params header;;
  Ok (header, claims, signing_input, signature).

Definition parse_rp_registration_certificate (token : wrprc) : result RelyingPartyRegistrationCertificate :=
  match token with
  | JwtToken s => '(header, claims, _, _) ← jwt_envelope s; build header claims ($"jwt")
  | CwtToken b => '(header, claims, _) ← cwt_envelope b; build header claims ($"cwt")
  | OtherToken => Err RpRegistrationError
  end.

(** * Verification *)

Context (L : x509_library) (R : rp_library L).
(** [keys.verify_signature]. *)
Context (verify_signature : pystr -> json -> bytes -> bytes -> result bool).

Definition chain_from_jwt (header : jobject) : result (list (cert L)) :=
  match jget header ($"x5c") with
  | JNull => Err RpRegistrationError
  | x5c => catch_as (fun e => isinstance e X5cError) RpRegistrationError (load_x5c_chain L x5c)
  end.

Definition chain_from_cwt (sign1 : CoseMessage) : result (list (cert L)) :=
  ders ← catch_as (fun e => isinstance e CoseError) RpRegistrationError (x5chain_ders sign1);
  catch_as (fun e => isinstance e X5cError) RpRegistrationError (load_der_chain L ders).

Definition rp_load_certs (certs : list (cert_input L)) : result (list (cert L)) :=
  mapR (fun c => catch_as (fun e => isinstance e RpCertError) RpRegistrationError (load_cert L R c)) certs.

Definition require_eku (leaf : cert L) (required_eku : pystr) : result unit :=
  eku ← extended_key_usage L leaf;
  match eku with
  | None => Err RpRegistrationError
  | Some oids => raise_if (negb (bool_decide (required_eku ∈ oids))) RpRegistrationError
  end.

(** The signature of either form, under the leaf's key. *)
Definition wrprc_verify_signature (header : jobject) (public_jwk : jobject) (signed : bytes * bytes + CoseMessage) : result unit :=
  ok ← match signed with
       | inl (signing_input, signature) =>
           catch_as (fun e => isinstance e KeyBackendError) RpRegistrationError
             (alg ← check_alg (jget header ($"alg")); verify_signature alg (JDict public_jwk) signing_input signature)
       | inr sign1 =>
           catch_as (fun e => isinstance e CoseError || isinstance e KeyBackendError) RpRegistrationError
             (verify_sign1 verify_signature sign1 public_jwk None [])
       end;
  raise_if (negb ok) RpRegistrationError.

(** The caller's policy; [p_now] is [now] as [utc_instant] read it, or the clock. *)
Record wrprc_policy := {
  p_anchors : list (cert_input L); p_intermediates : list (cert_input L); p_now : Z; p_leeway_s : json;
  p_required_eku : option pystr; p_max_validity : option Z; p_require_expiry : bool; p_require_entitlement : bool }.

(** [leeway] is in seconds. *)
Definition check_temporal (reg : RelyingPartyRegistrationCertificate) (now leeway : Z) (max_validity : option Z)
    (require_expiry : bool) : result unit :=
  raise_if (match expires_at reg with None => require_expiry | Some _ => false end) RpRegistrationError;;
  raise_if (match expires_at reg with Some t => leeway * SECOND <? now - t | None => false end) RpRegistrationError;;
  nbf ← numeric_date (jget (claims reg) ($"nbf"));
  let not_before := match nbf with Some t => Some t | None => issued_at reg end in
  raise_if (match not_before with Some t => leeway * SECOND <? t - now | None => false end) RpRegistrationError;;
  raise_if (match max_validity, expires_at reg, issued_at reg with Some m, Some e, Some i => m <? e - i | _, _, _ => false end)
    RpRegistrationError.

(** The token's form, read: header, claims, the chain it names, and what was signed. *)
Definition open_token (token : wrprc) : result (jobject * jobject * list (cert L) * (bytes * bytes + CoseMessage) * pystr) :=
  match token with
  | JwtToken s =>
      '(header, claims, signing_input, signature) ← jwt_envelope s;
      chain ← chain_from_jwt header; Ok (header, claims, chain, inl (signing_input, signature), $"jwt")
  | CwtToken b =>
      '(header, claims, sign1) ← cwt_envelope b;
      chain ← chain_from_cwt sign1; Ok (header, claims, chain, inr sign1, $"cwt")
  | OtherToken => Err RpRegistrationError
  end.

Definition verify_rp_registration_certificate (p : wrprc_policy) (token : wrprc) : result RelyingPartyRegistrationCertificate :=
  leeway ← leeway_seconds (p_leeway_s p) RpRegistrationError;
  anchors ← rp_load_certs (p_anchors p);
  raise_if (match anchors with [] => true | _ => false end) RpRegistrationError;;
  extra ← rp_load_certs (p_intermediates p);
  '(header, claims, chain, signed, form) ← open_token token;
  match chain with
  | [] => Err IndexError
  | leaf :: rest =>
      catch_as (fun e => isinstance e X5cError) RpRegistrationError (validate_cert_chain L (leaf :: rest ++ extra) anchors (p_now p));;
      match p_required_eku p with Some oid => require_eku leaf oid | None => Ok tt end;;
      public_jwk ← catch_as (fun e => isinstance e X5cError) RpRegistrationError (leaf_public_jwk L leaf);
      wrprc_verify_signature header public_jwk signed;;
      reg ← build header claims form;
      check_temporal reg (p_now p) leeway (p_max_validity p) (p_require_expiry p);;
      raise_if (p_require_entitlement p && negb (existsb (fun e => startswith e ENTITLEMENT_URI_PREFIX) (entitlements reg)))
        RpRegistrationError;;
      Ok reg
  end.
End envelopes.

(** * Cross-checks *)

Definition check_matches_access_certificate {L} (registration : RelyingPartyRegistrationCertificate)
    (access : RelyingPartyAccessCertificate L) (match_trade_name : bool) : result unit :=
  let text o := match o with Some s => str_or_none (JStr s) | None => None end in
  match subject_identifier registration, text (entity_identifier access) with
  | Some ours, Some theirs =>
      raise_if (negb (bool_decide (ours = theirs))) RpRegistrationError;;
      if negb match_trade_name then Ok tt
      else match reg_trade_name registration, text (trade_name access) with
           | Some our_name, Some their_name => raise_if (negb (bool_decide (our_name = their_name))) RpRegistrationError
           | _, _ => Err RpRegistrationError
           end
  | _, _ => Err RpRegistrationError
  end.

Definition is_bool (v : json) : bool := match v with JBool _ => true | _ => false end.
(** Equality that does not conflate [True] with [1]. *)
Definition same (a b : json) : bool := py_eq a b && eqb (is_bool a) (is_bool b).

Fixpoint elements_cover (registered requested : list json) : bool :=
  match registered, requested with
  | [], _ => true
  | JNull :: registered, _ :: requested => elements_cover registered requested
  | r :: registered, q :: requested => same r q && elements_cover registered requested
  | _ :: _, [] => false
  end.
Definition path_covered (registered requested : list json) : bool :=
  match registered with [] => false | _ => elements_cover registered requested end.

Definition value_covered (have want : json) : bool :=
  match want, have with
  | JList want, JList have => forallb (fun w => existsb (same w) have) want
  | JList _, _ => false
  | want, JList have => existsb (same want) have
  | want, have => same want have
  end.

Definition meta_covered (registered : option jobject) (requested : jobject) : bool :=
  match registered, requested with
  | None, _ => false
  | Some [], [] => true
  | Some (_ :: _), [] => false
  | Some registered, requested =>
      forallb (fun kw => match dget registered kw.1 with Some have => value_covered have kw.2 | None => false end) requested
  end.

(** One credential query. *)
Definition check_query_within (registration : RelyingPartyRegistrationCertificate) (query : json) : result unit :=
  match query with
  | JDict q =>
      match str_or_none (jget q ($"format")) with
      | None => Err RpRegistrationError
      | Some fmt =>
          let want_meta := default [] (mapping_or_none (jget q ($"meta"))) in
          let candidates := filter (fun c => bool_decide (rc_format c = Some fmt) && meta_covered (rc_meta c) want_meta = true)
                              (credentials registration) in
          raise_if (match candidates with [] => true | _ => false end) RpRegistrationError;;
          let wanted := requested_paths q in
          raise_if (match wanted with [] => true | _ => false end) RpRegistrationError;;
          let granted := flat_map claim_paths candidates in
          raise_if (negb (forallb (fun path => existsb (fun reg => path_covered reg path) granted) wanted)) RpRegistrationError
      end
  | _ => Err RpRegistrationError
  end.

Definition check_request_within_registration (registration : RelyingPartyRegistrationCertificate) (dcql_query : json)
    (use_id : option pystr) : result unit :=
  raise_if (match use_id with Some u => negb (bool_decide (intended_use_id registration = Some u)) | None => false end)
    RpRegistrationError;;
  match dcql_query with
  | JDict query =>
      raise_if (nesting_exceeds (JDict query) JSON_MAX_DEPTH) RpRegistrationError;;
      match jget query ($"credentials") with
      | JList ((_ :: _) as queries) => mapR (check_query_within registration) queries;; Ok tt
      | _ => Err RpRegistrationError
      end
  | _ => Err RpRegistrationError
  end.
End rp_registration.

(** * What an accepted certificate is *)

Section accepted.
Context (is_space : Z -> bool) (json_loads : bytes -> result json) (L : x509_library) (R : rp_library L)
  (verify_signature : pystr -> json -> bytes -> bytes -> result bool).

(** The signature of either form verifies under a key, with an algorithm of the allow-list. *)
Definition wrprc_signed (header jwk : jobject) (signed : bytes * bytes + CoseMessage) : Prop :=
  match signed with
  | inl (signing_input, signature) => exists alg, jget header ($"alg") = JStr alg /\ alg ∈ ALLOWED_ALGS /\
      verify_signature alg (JDict jwk) signing_input signature = Ok true
  | inr m => exists n alg pl input, require_alg (protected_header m) = Ok n /\ dget COSE_ALG_TO_JOSE n = Some alg /\
      payload m = Some pl /\ tbs ($"Signature1") (protected m) [] pl = Ok input /\
      verify_signature alg (JDict jwk) input (authenticator m) = Ok true
  end.

(** The certificate's window at an instant, with a leeway in seconds. *)
Definition within_window (reg : RelyingPartyRegistrationCertificate) (p : wrprc_policy L) (leeway : Z) : Prop :=
  (forall e, expires_at reg = Some e -> p_now L p - e <= leeway * SECOND) /\
  (p_require_expiry L p = true -> is_Some (expires_at reg)) /\
  (exists nbf, numeric_date (jget (claims reg) ($"nbf")) = Ok nbf /\
     forall t, match nbf with Some t => Some t | None => issued_at reg end = Some t -> t - p_now L p <= leeway * SECOND) /\
  (forall m e i, p_max_validity L p = Some m -> expires_at reg = Some e -> issued_at reg = Some i -> e - i <= m).

Lemma check_alg_Ok v alg : check_alg v = Ok alg -> v = JStr alg /\ alg ∈ ALLOWED_ALGS.
Proof using Type.
  unfold check_alg. destruct v; try done. intros H. apply bind_Ok in H as (? & Ha%raise_if_Ok%negb_false_iff%bool_decide_eq_true & [= <-]).
  done.
Qed.

Lemma wrprc_verify_signature_Ok header jwk signed u :
  wrprc_verify_signature verify_signature header jwk signed = Ok u -> wrprc_signed header jwk signed.
Proof using Type.
  unfold wrprc_verify_signature. intros H. apply bind_Ok in H as (ok & Hok & H%raise_if_Ok%negb_false_iff). subst ok.
  destruct signed as [[si sg]|m]; apply catch_as_Ok in Hok.
  - apply bind_Ok in Hok as (alg & [? ?]%check_alg_Ok & Hv). by exists alg.
  - unfold verify_sign1 in Hok. apply bind_Ok in Hok as (n & Hn & H). destruct (dget COSE_ALG_TO_JOSE n) as [alg|] eqn:Ea; [|done].
    apply bind_Ok in H as (pl & Hpl & H). apply bind_Ok in H as (input & Hi & H). exists n, alg, pl, input.
    split_and!; try done. unfold effective_payload in Hpl. destruct (payload m); [|done]. by injection Hpl as ->.
Qed.

Lemma check_temporal_Ok reg p leeway u : check_temporal reg (p_now L p) leeway (p_max_validity L p) (p_require_expiry L p) = Ok u ->
  within_window reg p leeway.
Proof using Type.
  unfold check_temporal. intros H. apply bind_Ok in H as (? & Hr%raise_if_Ok & H). apply bind_Ok in H as (? & He%raise_if_Ok & H).
  apply bind_Ok in H as (nbf & Hn & H). apply bind_Ok in H as (? & Hb%raise_if_Ok & Hm%raise_if_Ok). split_and!.
  - intros e E. rewrite E in He. lia.
  - intros Hx. destruct (expires_at reg); [by eexists|congruence].
  - exists nbf. split; [done|]. intros t E. rewrite E in Hb. lia.
  - intros m e i E1 E2 E3. rewrite E1, E2, E3 in Hm. lia.
Qed.

(** What [verify_rp_registration_certificate] establishes. *)
Record wrprc_accepted (p : wrprc_policy L) (token : wrprc) (reg : RelyingPartyRegistrationCertificate)
    (anchors extra : list (cert L)) (leaf : cert L) (rest : list (cert L)) : Prop := {
  wa_anchors : Forall2 (fun i c => load_cert L R i = Ok c) (p_anchors L p) anchors;
  wa_extra : Forall2 (fun i c => load_cert L R i = Ok c) (p_intermediates L p) extra;
  wa_chain : anchored L anchors (p_now L p) leaf (rest ++ extra);
  wa_token : exists signed jwk, open_token json_loads L token = Ok (header reg, claims reg, leaf :: rest, signed, form reg) /\
    leaf_public_jwk L leaf = Ok jwk /\ wrprc_signed (header reg) jwk signed;
  wa_view : build is_space (header reg) (claims reg) (form reg) = Ok reg;
  wa_eku : forall oid, p_required_eku L p = Some oid -> exists oids, extended_key_usage L leaf = Ok (Some oids) /\ oid ∈ oids;
  wa_window : exists leeway, p_leeway_s L p = JInt leeway /\ 0 <= leeway <= MAX_LEEWAY_S /\ within_window reg p leeway;
  wa_entitled : p_require_entitlement L p = true -> exists e, e ∈ entitlements reg /\ startswith e ENTITLEMENT_URI_PREFIX = true }.

Lemma build_Ok hd cl fm reg : build is_space hd cl fm = Ok reg -> header reg = hd /\ claims reg = cl /\ form reg = fm.
Proof using Type.
  unfold build. intros H. apply bind_Ok in H as (? & _ & H). apply bind_Ok in H as (? & _ & H). by apply Ok_inj in H as <-.
Qed.

Lemma rp_load_certs_Ok certs cs : rp_load_certs L R certs = Ok cs -> Forall2 (fun i c => load_cert L R i = Ok c) certs cs.
Proof using Type. intros H%mapR_Ok. eapply Forall2_impl; [done|]. by intros i c ?%catch_as_Ok. Qed.

Lemma verify_rp_registration_certificate_Ok p token reg :
  verify_rp_registration_certificate is_space json_loads L R verify_signature p token = Ok reg ->
  exists anchors extra leaf rest, wrprc_accepted p token reg anchors extra leaf rest.
Proof using Type.
  unfold verify_rp_registration_certificate. intros H. apply bind_Ok in H as (leeway & [Hl Hb]%leeway_seconds_Ok & H).
  apply bind_Ok in H as (anchors & Ha%rp_load_certs_Ok & H). apply bind_Ok in H as (? & _ & H).
  apply bind_Ok in H as (extra & He%rp_load_certs_Ok & H). apply bind_Ok in H as ([[[[hd cl] chain] signed] fm] & Hopen & H).
  destruct chain as [|leaf rest]; [done|]. apply bind_Ok in H as (lf & Hc%catch_as_Ok & H).
  apply validate_cert_chain_Ok in Hc as (inter & [= <- <-] & Hanch). apply bind_Ok in H as (? & Heku & H).
  apply bind_Ok in H as (jwk & Hj%catch_as_Ok & H). apply bind_Ok in H as (? & Hsig%wrprc_verify_signature_Ok & H).
  apply bind_Ok in H as (r & Hr & H). apply bind_Ok in H as (? & Ht%check_temporal_Ok & H).
  apply bind_Ok in H as (? & Hent%raise_if_Ok & [= <-]). destruct (build_Ok _ _ _ _ Hr) as (<- & <- & <-).
  exists anchors, extra, leaf, rest. split; try done; [by exists signed, jwk| |by exists leeway|].
  - intros oid E. rewrite E in Heku. unfold require_eku in Heku. apply bind_Ok in Heku as (eku & Hk & Heku).
    destruct eku as [oids|]; [|done]. apply raise_if_Ok, negb_false_iff, bool_decide_eq_true in Heku. by exists oids.
  - intros E. rewrite E in Hent. apply negb_false_iff, existsb_exists in Hent as (e & Hin%list_elem_of_In & Hs). by exists e.
Qed.
End accepted.

(** * What a request within a registration asks for *)

(** A step into a credential: a member of an object or an element of an array. *)
Inductive step := Member (k : pystr) | Element (i : Z).
Definition step_json (c : step) : json := match c with Member k => JStr k | Element i => JInt i end.

(** The values a path of a DCQL query selects, by where they are: a string selects that member,
    an integer that element, [null] every element. *)
Definition selects_step (e : json) (c : step) : Prop :=
  match e, c with JStr k, Member k' => k = k' | JInt i, Element i' => i = i' | JNull, Element _ => True | _, _ => False end.
Definition selects (path : list json) (position : list step) : Prop := Forall2 selects_step path position.

(** What a registered path grants: the values under it, where [null] stands for any step. *)
Definition grants_step (e : json) (c : step) : Prop := e = JNull \/ same e (step_json c) = true.
Definition grants (path : list json) (position : list step) : Prop :=
  path <> [] /\ exists above below, position = above ++ below /\ Forall2 grants_step path above.

Lemma same_selects r q c : r <> JNull -> same r q = true -> selects_step q c -> same r (step_json c) = true.
Proof. intros Hr. destruct q; try done; destruct c; try done; cbn [selects_step step_json]; by intros ? <- || destruct r. Qed.

Lemma elements_cover_grants registered : forall requested position, elements_cover registered requested = true ->
  selects requested position -> exists above below, position = above ++ below /\ Forall2 grants_step registered above.
Proof.
  induction registered as [|r registered IH]; intros requested position Hc Hs; [by exists [], position|].
  destruct Hs as [|q c requested position Hq Hs]; [by destruct r|].
  assert (grants_step r c /\ elements_cover registered requested = true) as [Hr Hrest].
  { destruct (decide (r = JNull)) as [->|Hn]; [split; [by left|done]|].
    assert (same r q = true /\ elements_cover registered requested = true) as [Hsame ?]
      by (destruct r; try done; by apply andb_prop in Hc).
    split; [right; by eapply same_selects|done]. }
  destruct (IH _ _ Hrest Hs) as (above & below & -> & Hf). exists (c :: above), below. split; [done|by constructor].
Qed.

Lemma path_covered_grants registered requested position : path_covered registered requested = true ->
  selects requested position -> grants registered position.
Proof. unfold path_covered. destruct registered as [|r registered]; [done|]. intros H Hs. split; [done|]. by eapply elements_cover_grants. Qed.

(** A credential by its string-valued attributes ([vct], [docType], a type): what the constraint
    of a query or of a registered entry on one of them accepts. *)
Definition accepts (constraint : json) (value : pystr) : Prop :=
  match constraint with JList l => JStr value ∈ l | JStr s => s = value | _ => False end.

Lemma same_str w h value : w = JStr value -> same w h = true -> h = JStr value.
Proof.
  intros -> H. unfold same in H. apply andb_prop in H as [H _]. destruct h; try done. cbn in H. by apply bool_decide_eq_true in H as ->.
Qed.

Lemma value_covered_accepts have want value : value_covered have want = true -> accepts want value -> accepts have value.
Proof.
  destruct want as [| | | |s|ws|d|]; try done.
  - cbn [accepts]. intros H <-. destruct have as [| | | |h|hs| |]; try done.
    + pose proof (same_str _ _ s eq_refl H) as E. by injection E.
    + cbn in H. apply existsb_exists in H as (h & Hin%list_elem_of_In & H). by apply (same_str _ _ s eq_refl) in H as ->.
  - destruct have as [| | | | |hs| |]; try done. cbn [accepts]. intros H Hin. rewrite <- forallb_True in H || idtac.
    apply forallb_forall with (x := JStr value) in H; [|by apply list_elem_of_In].
    apply existsb_exists in H as (h & Hh%list_elem_of_In & H). by apply (same_str _ _ value eq_refl) in H as ->.
Qed.

(** On every attribute the query constrains, the entry's constraint accepts what the query's does. *)
Definition covers_meta (registered requested : jobject) : Prop :=
  (requested = [] -> registered = []) /\
  forall k want, (k, want) ∈ requested -> exists have, dget registered k = Some have /\
    forall value, accepts want value -> accepts have value.

Lemma meta_covered_Ok registered requested : meta_covered registered requested = true ->
  exists m, registered = Some m /\ covers_meta m requested.
Proof.
  destruct registered as [m|]; [|done]. intros H. exists m. split; [done|].
  destruct requested as [|kw requested]; [split; [by destruct m|intros ? ? Hin; by apply not_elem_of_nil in Hin]|].
  split; [done|]. intros k want Hin.
  assert (forallb (fun kw => match dget m kw.1 with Some have => value_covered have kw.2 | None => false end) (kw :: requested) = true) as Hf
    by (destruct m; done).
  apply forallb_forall with (x := (k, want)) in Hf; [|by apply list_elem_of_In]. cbn [fst snd] in Hf.
  destruct (dget m k) as [have|]; [|done]. exists have. split; [done|]. intros value. by apply value_covered_accepts.
Qed.

Section within.
Context (is_space : Z -> bool).

(** A registered entry that applies to a query, and a path of it. *)
Definition applies (reg : RelyingPartyRegistrationCertificate) (query : jobject) (path : list json) : Prop :=
  exists c fmt m, c ∈ credentials reg /\ str_or_none is_space (jget query ($"format")) = Some fmt /\ rc_format c = Some fmt /\
    rc_meta c = Some m /\ covers_meta m (default [] (mapping_or_none (jget query ($"meta")))) /\ path ∈ claim_paths c.

(** Everything a query asks for is under a path some applicable entry registers. *)
Definition query_within (reg : RelyingPartyRegistrationCertificate) (query : jobject) : Prop :=
  paths_under query ($"claims") ++ paths_under query ($"claim") <> [] /\
  (forall path position, path ∈ paths_under query ($"claims") -> selects path position ->
     exists registered, applies reg query registered /\ grants registered position) /\
  (forall path, path ∈ paths_under query ($"claim") -> exists path', (path' = path \/ py_eq (JList path') (JList path) = true) /\
     exists registered, applies reg query registered /\ path_covered registered path' = true).

Lemma dedup_paths l : forall seen, seen ⊆ foldl (fun seen p => if existsb (fun q => py_eq (JList q) (JList p)) seen then seen else seen ++ [p]) seen l /\
  forall p, p ∈ l -> exists q, q ∈ foldl (fun seen p => if existsb (fun q => py_eq (JList q) (JList p)) seen then seen else seen ++ [p]) seen l /\
    (q = p \/ py_eq (JList q) (JList p) = true).
Proof using Type.
  induction l as [|x l IH]; intros seen; cbn [foldl]; [split; [done|by intros p ?%not_elem_of_nil]|].
  set (seen' := if existsb _ seen then seen else seen ++ [x]). destruct (IH seen') as [Hs Hl].
  assert (seen ⊆ seen') by (unfold seen'; destruct (existsb _ seen); set_solver). split; [set_solver|].
  intros p [->|Hp]%elem_of_cons; [|by apply Hl]. destruct (existsb (fun q => py_eq (JList q) (JList x)) seen) eqn:E.
  - apply existsb_exists in E as (q & Hq%list_elem_of_In & E). exists q. split; [set_solver|by right].
  - exists x. split; [|by left]. apply Hs. unfold seen'. set_solver.
Qed.

Lemma check_query_within_Ok reg query u : check_query_within is_space reg query = Ok u ->
  exists q, query = JDict q /\ query_within reg q.
Proof using Type.
  unfold check_query_within. destruct query as [| | | | | |q|]; try done. destruct (str_or_none is_space (jget q ($"format"))) as [fmt|] eqn:Ef; [|done].
  intros H. apply bind_Ok in H as (? & _ & H). apply bind_Ok in H as (? & Hw%raise_if_Ok & Hg%raise_if_Ok%negb_false_iff).
  exists q. split; [done|]. destruct (dedup_paths (paths_under q ($"claim")) (paths_under q ($"claims"))) as [Hs Hc].
  change (foldl _ _ _) with (requested_paths q) in Hs, Hc.
  assert (Hcov : forall path, path ∈ requested_paths q -> exists registered, applies reg q registered /\ path_covered registered path = true).
  { intros path Hp. apply forallb_forall with (x := path) in Hg; [|by apply list_elem_of_In].
    apply existsb_exists in Hg as (r & Hr%list_elem_of_In & Hcov). exists r. split; [|done].
    apply list_elem_of_In, in_flat_map in Hr as (c & Hin%list_elem_of_In & Hp'%list_elem_of_In).
    apply list_elem_of_filter in Hin as [[Hf%bool_decide_eq_true (m & Em & Hm)%meta_covered_Ok]%andb_prop Hin].
    by exists c, fmt, m. }
  split; [|split].
  - intros E. apply app_nil in E as [E1 E2]. unfold requested_paths in Hw. by rewrite E1, E2 in Hw.
  - intros path position Hp Hsel. destruct (Hcov path) as (r & Ha & Hr); [by apply Hs|]. exists r. split; [done|]. by eapply path_covered_grants.
  - intros path Hp. destruct (Hc path Hp) as (p' & Hp' & E). exists p'. split; [done|]. by apply Hcov.
Qed.

Lemma check_request_within_Ok reg query use u : check_request_within_registration is_space reg query use = Ok u ->
  (forall i, use = Some i -> intended_use_id reg = Some i) /\
  exists dq queries, query = JDict dq /\ jget dq ($"credentials") = JList queries /\ queries <> [] /\
    Forall (fun q => exists qd, q = JDict qd /\ query_within reg qd) queries.
Proof using Type.
  unfold check_request_within_registration. intros H. apply bind_Ok in H as (? & Hu%raise_if_Ok & H).
  split; [intros i ->; by apply negb_false_iff, bool_decide_eq_true in Hu|].
  destruct query as [| | | | | |dq|]; try done. apply bind_Ok in H as (? & _ & H).
  destruct (jget dq ($"credentials")) as [| | | | |[|q queries]| |] eqn:Eq; try done. apply bind_Ok in H as (us & Hq%mapR_Ok & _).
  exists dq, (q :: queries). split_and!; try done. apply Forall_forall. intros q0 Hx.
  destruct (Forall2_elem_l _ _ _ _ Hq Hx) as (y & _ & Hy). by eapply check_query_within_Ok.
Qed.

Lemma check_matches_Ok {L} reg (access : RelyingPartyAccessCertificate L) mt u : check_matches_access_certificate is_space reg access mt = Ok u ->
  exists id raw, subject_identifier reg = Some id /\ entity_identifier access = Some raw /\ strip is_space raw = id /\
    (mt = true -> exists n raw_n, reg_trade_name reg = Some n /\ trade_name access = Some raw_n /\ strip is_space raw_n = n).
Proof using Type.
  assert (Ht : forall o t, match o with Some s => str_or_none is_space (JStr s) | None => None end = Some t ->
    exists raw, o = Some raw /\ strip is_space raw = t).
  { intros [raw|] t; [|done]. cbn. destruct (strip is_space raw) as [|c s] eqn:E; [done|]. intros [= <-]. by exists raw. }
  unfold check_matches_access_certificate. cbv zeta. destruct (subject_identifier reg) as [id|]; [|done].
  destruct (match entity_identifier access with Some s => _ | None => None end) as [t|] eqn:E; [|done].
  apply Ht in E as (raw & Er & <-). intros H. apply bind_Ok in H as (? & Hid%raise_if_Ok%negb_false_iff%bool_decide_eq_true & H).
  exists id, raw. split_and!; try done. intros ->. cbn [negb] in H. destruct (reg_trade_name reg) as [n|]; [|done].
  destruct (match trade_name access with Some s => _ | None => None end) as [t|] eqn:En; [|done].
  apply Ht in En as (rn & Ern & <-). apply raise_if_Ok, negb_false_iff, bool_decide_eq_true in H. by exists n, rn.
Qed.
End within.

(** C29: What an accepted registration certificate establishes.  When
    [verify_rp_registration_certificate] returns, the token has the profile of its form; the
    chain it names, with the caller's intermediates, validates at the caller's instant to one of
    the caller's anchors; the leaf's own key verifies the token's signature with an allowed
    algorithm, and the leaf has the extended key usage the caller requires; the fields returned
    are read off the signed claims; the certificate is within its window and, when it expires,
    within the ceiling on its lifetime; and it registers an entitlement unless that is waived. *)
Theorem rp_registration_sound is_space json_loads L R verify_signature p token reg
  (H : verify_rp_registration_certificate is_space json_loads L R verify_signature p token = Ok reg) :
  exists anchors extra leaf rest, wrprc_accepted is_space json_loads L R verify_signature p token reg anchors extra leaf rest.
Proof. by apply verify_rp_registration_certificate_Ok. Qed.

(** C12: A relying party whose request is authorized asks only for what it registered.  Let a
    registration certificate be accepted, and an access certificate; let the first be bound to
    the second and a DCQL query be within it.  Then the one subject identifier of the
    authenticated party is the one the registration names; and every value that a claim path of
    any of the query's credential queries selects lies under a claim path of an entry registered
    for that format, whose constraints accept whatever the query's constraints accept on each
    attribute the query constrains.  A query that names no claim is never authorized. *)
Theorem authorized_request_within_registration is_space json_loads L R verify_signature p token reg cert_in anchors intermediates eku
    now access match_name query use
  (Hv : verify_rp_registration_certificate is_space json_loads L R verify_signature p token = Ok reg)
  (Ha : verify_rp_access_certificate L R is_space cert_in anchors intermediates eku now = Ok access)
  (Hm : check_matches_access_certificate is_space reg access match_name = Ok tt)
  (Hw : check_request_within_registration is_space reg query use = Ok tt) :
  (exists wa we wl wr, wrprc_accepted is_space json_loads L R verify_signature p token reg wa we wl wr) /\
  (exists id raw roots inter, subject_identifier reg = Some id /\ strip is_space raw = id /\
     single_value L R is_space (certificate access) ORGANIZATION_IDENTIFIER raw /\ load_cert L R cert_in = Ok (certificate access) /\
     Forall2 (fun i c => load_cert L R i = Ok c) anchors roots /\ anchored L roots now (certificate access) inter) /\
  (forall i, use = Some i -> intended_use_id reg = Some i) /\
  exists dq queries, query = JDict dq /\ jget dq ($"credentials") = JList queries /\ queries <> [] /\
    Forall (fun q => exists qd, q = JDict qd /\ query_within is_space reg qd) queries.
Proof.
  split; [by apply verify_rp_registration_certificate_Ok|]. split; [|by eapply check_request_within_Ok].
  apply verify_rp_access_certificate_Ok in Ha as (roots & inter & Hr & Hc & _ & Hanch & _ & _ & Hid & _).
  apply check_matches_Ok in Hm as (id & raw & E & Er & Hs & _). exists id, raw, roots, inter. split_and!; try done. by apply Hid.
Qed.

(** A constraint of an entry that the query leaves out is not looked at: a party registered for
    one [vct] under a second constraint is authorized, by naming the second alone, for every [vct]. *)
Lemma unmentioned_constraint_ignored vcts other :
  meta_covered (Some [($"vct_values", JList vcts); ($"x", JStr other)]) [($"x", JStr other)] = true.
Proof.
  unfold meta_covered, value_covered, same. cbn. rewrite decide_False by done. rewrite decide_True by done. by rewrite bool_decide_eq_true_2.
Qed.


(** ** What a malformed certificate raises *)

Section errors.
Context (is_space : Z -> bool) (json_loads : bytes -> result json).
Hypothesis json_errs : forall raw, errs_in (fun e => value_or_recursion e = true) (json_loads raw).

Abbreviation typed := (errs_in (eq RpRegistrationError)).

Lemma numeric_date_errs v : typed (numeric_date v).
Proof using Type.
  unfold numeric_date. destruct v; try apply errs_in_Ok; try by apply errs_in_Err.
  all: destruct (as_num _) as [nn|] eqn:En; [|by apply errs_in_Err].
  all: apply errs_in_bind; [by apply errs_in_raise_if|]; intros _ Hfin%raise_if_Ok.
  all: apply errs_in_bind; [|intros; apply errs_in_Ok]; apply catch_as_errs.
  all: unfold isfinite in Hfin; destruct (to_float nn) as [fl|e]; [|done]; cbn.
  all: unfold fromtimestamp; destruct (split_timestamp fl) as [[s us]|]; [|by apply errs_in_Err].
  all: apply errs_in_bind; [by apply errs_in_raise_if|intros; apply errs_in_Ok].
Qed.

Lemma build_errs hd cl fm : typed (build is_space hd cl fm).
Proof using Type. clear json_errs. unfold build. repeat (apply errs_in_bind; [apply numeric_date_errs|intros]). apply errs_in_Ok. Qed.

Lemma parse_sig_t_errs v : typed (parse_sig_t v).
Proof using Type.
  unfold parse_sig_t. destruct (match v with JStr s => SIG_T s | _ => None end) as [[[[[[[y m] d] hh] mm] ss] f]|]; [|by apply errs_in_Err].
  apply catch_as_errs. unfold datetime_us. apply errs_in_bind; [by apply errs_in_raise_if|intros; apply errs_in_Ok].
Qed.

Lemma header_checks_errs hd : typed (reject_unknown_crit hd) /\ typed (check_understood_params hd).
Proof using Type.
  split.
  - unfold reject_unknown_crit. destruct (dget hd ($"crit")) as [[| | | | |[|c cs]| |]|]; try (by apply errs_in_Err); [|apply errs_in_Ok].
    repeat (apply errs_in_bind; [by apply errs_in_raise_if|intros]). by apply errs_in_raise_if.
  - apply foldR_errs_in. intros [] nc Hin. destruct (dget hd nc.1) as [v|]; [|apply errs_in_Ok].
    unfold UNDERSTOOD_PARAMS in Hin. apply elem_of_cons in Hin as [->|Hin%list_elem_of_singleton]; [|subst nc]; cbn [snd].
    + apply errs_in_bind; [apply parse_sig_t_errs|intros; apply errs_in_Ok].
    + destruct v as [|[]| | | | | |]; try (by apply errs_in_Err). apply errs_in_Ok.
Qed.

Lemma jwt_envelope_errs token : typed (jwt_envelope json_loads token).
Proof using json_errs.
  unfold jwt_envelope. apply errs_in_bind; [by apply catch_as_errs, parse_compact_errs|]. intros [[[hd cl] si] sg] _.
  apply errs_in_bind; [by apply errs_in_raise_if|intros _ _]. apply errs_in_bind.
  { unfold check_alg. destruct (jget hd ($"alg")); try by apply errs_in_Err.
    apply errs_in_bind; [by apply errs_in_raise_if|intros; apply errs_in_Ok]. }
  intros _ _. destruct (header_checks_errs hd) as [Hc Hu]. apply errs_in_bind; [done|intros _ _].
  apply errs_in_bind; [done|intros; apply errs_in_Ok].
Qed.

Lemma cwt_envelope_errs data : bytes_ok data -> typed (cwt_envelope data).
Proof using Type.
  intros Hd. unfold cwt_envelope. apply errs_in_bind.
  - apply catch_as_errs. apply errs_in_bind; [eapply errs_in_impl; [|by apply decode_errs]; by intros ? <-|]. intros v H.
    apply decode_inv in H as [_ _ Hok _ _ _]; [|done]. eapply errs_in_impl; [|by apply parse_message_errs]. by intros ? <-.
  - intros m Hm%catch_as_Ok. apply bind_Ok in Hm as (v & Hv & Hm).
    apply errs_in_bind; [by apply errs_in_raise_if|intros _ _]. apply errs_in_bind.
    { apply catch_as_errs. unfold require_alg. case_match; try apply errs_in_Ok; by apply errs_in_Err. }
    intros alg _. apply errs_in_bind; [by apply errs_in_raise_if|intros _ _].
    destruct (payload m) as [p|] eqn:Ep; [|by apply errs_in_Err]. apply errs_in_bind.
    { apply catch_as_errs. eapply errs_in_impl; [|apply decode_errs]; [by intros ? <-|].
      apply decode_inv in Hv as [_ _ Hok _ _ _]; [|done]. by eapply parse_message_payload_ok. }
    intros raw _. destruct raw; try by apply errs_in_Err. apply errs_in_bind; [|intros; apply errs_in_Ok].
    unfold normalise_cwt_claims. apply foldR_errs_in. intros b kv _. case_match; [|apply errs_in_Ok].
    apply errs_in_bind; [by apply errs_in_raise_if|intros; apply errs_in_Ok].
Qed.
End errors.

(** A malformed registration certificate is refused with the module's own error.  Whatever
    the token, with a JSON reader that fails with [ValueError] or [RecursionError] only,
    [parse_rp_registration_certificate] returns or raises [RpRegistrationError]: no error of the
    CBOR, COSE, JWS or base64 layers, no overflow of a date and no other exception leaves it. *)
Theorem wrprc_parse_errors is_space json_loads token e
  (Hjson : forall raw, errs_in (fun e => value_or_recursion e = true) (json_loads raw))
  (Hbytes : match token with CwtToken b => bytes_ok b | _ => True end)
  (H : parse_rp_registration_certificate is_space json_loads token = Err e) : e = RpRegistrationError.
Proof.
  symmetry. revert e H. change (errs_in (eq RpRegistrationError) (parse_rp_registration_certificate is_space json_loads token)).
  destruct token as [s|b|]; [| |by apply errs_in_Err].
  - apply errs_in_bind; [by apply jwt_envelope_errs|]. intros [[[hd cl] si] sg] _. apply build_errs.
  - apply errs_in_bind; [by apply cwt_envelope_errs|]. intros [[hd cl] m] _. apply build_errs.
Qed.

(** * Examples *)

Definition example_names : rp_library toy_x509 := {|
  load_pem := fun _ => None;
  subject_values := fun _ oid => Ok (if bool_decide (oid = ORGANIZATION_IDENTIFIER) then [Some ($" VATES-B1")] else []);
  rfc4514_string := fun _ => Ok []; serial_hex := fun _ => Ok ($"1"); policies := fun _ => Ok None;
  information_access := fun _ => Ok None |}.
Definition example_path (path : list pystr) : json := JDict [($"path", JList (JStr <$> path))].
Definition example_entry (key : pystr) (path : list pystr) : json :=
  JDict [($"format", JStr ($"dc+sd-jwt")); ($"meta", JDict [($"vct_values", JList [JStr ($"urn:pid")])]);
         (key, JList [example_path path])].
Definition example_claims : jobject :=
  [($"sub", JStr ($"VATES-B1 ")); ($"iat", JInt 1000); ($"exp", JInt 2000);
   ($"entitlements", JList [JStr (ENTITLEMENT_URI_PREFIX ++ $"Service_Provider")]);
   ($"credentials", JList [example_entry ($"claim") [$"address"]])].
Definition example_header : jobject :=
  [($"typ", JStr WRPRC_JWT_TYP); ($"alg", JStr ($"ES256")); ($"x5c", JList [JStr ($"Bw==")]); ($"sigT", JStr ($"2026-10-16T00:00:00Z"));
   ($"b64", JBool true); ($"crit", JList [JStr ($"sigT"); JStr ($"b64")])].
Definition example_loads (raw : bytes) : result json :=
  if bool_decide (raw = $"h") then Ok (JDict example_header) else Ok (JDict example_claims).
Definition example_policy : wrprc_policy toy_x509 := {|
  p_anchors := [BytesCert [7] : cert_input toy_x509]; p_intermediates := []; p_now := 1500 * SECOND; p_leeway_s := JInt 60; p_required_eku := None;
  p_max_validity := Some MAX_VALIDITY; p_require_expiry := true; p_require_entitlement := true |}.
Definition example_space (c : Z) : bool := c =? 32.
Definition example_verify now := verify_rp_registration_certificate example_space example_loads toy_x509 example_names
  (fun _ _ _ _ => Ok true) {| p_anchors := p_anchors _ example_policy; p_intermediates := []; p_now := now; p_leeway_s := JInt 60;
    p_required_eku := None; p_max_validity := Some MAX_VALIDITY; p_require_expiry := true; p_require_entitlement := true |}
  (JwtToken ($"aA.cA.cw")).
Definition example_access := verify_rp_access_certificate toy_x509 example_names example_space (BytesCert [7] : cert_input toy_x509)
  [BytesCert [7] : cert_input toy_x509] [] None 0.
Definition example_query (path : list pystr) : json := JDict [($"credentials", JList [example_entry ($"claims") path])].

Lemma rp_registration_sound_witness : exists reg, example_verify (1500 * SECOND) = Ok reg /\
  claimed_signing_time reg = Some (1792108800 * SECOND) /\
  exists anchors extra leaf rest, wrprc_accepted example_space example_loads toy_x509 example_names (fun _ _ _ _ => Ok true)
    example_policy (JwtToken ($"aA.cA.cw")) reg anchors extra leaf rest.
Proof.
  destruct (example_verify (1500 * SECOND)) as [reg|e] eqn:E; [|vm_compute in E; discriminate E].
  exists reg. split; [reflexivity|]. split; [|exact (rp_registration_sound _ _ _ _ _ _ _ _ E)].
  vm_compute in E. apply Ok_inj in E as <-. vm_compute. reflexivity.
Defined.

Example expired_ex : example_verify (2061 * SECOND) = Err RpRegistrationError.
Proof. by vm_compute. Qed.

Lemma authorized_request_within_registration_witness : exists reg access, example_verify (1500 * SECOND) = Ok reg /\
  example_access = Ok access /\ (exists id raw, subject_identifier reg = Some id /\ strip example_space raw = id /\
    single_value toy_x509 example_names example_space (certificate access) ORGANIZATION_IDENTIFIER raw) /\
  check_request_within_registration example_space reg (example_query [$"name"]) None = Err RpRegistrationError.
Proof.
  destruct (example_verify (1500 * SECOND)) as [reg|e] eqn:E; [|vm_compute in E; discriminate E].
  destruct example_access as [access|e] eqn:Ea; [|vm_compute in Ea; discriminate Ea].
  assert (Hm : check_matches_access_certificate example_space reg access false = Ok tt /\
               check_request_within_registration example_space reg (example_query [$"address"; $"locality"]) None = Ok tt /\
               check_request_within_registration example_space reg (example_query [$"name"]) None = Err RpRegistrationError).
  { clear -E Ea. vm_compute in E. apply Ok_inj in E as <-. vm_compute in Ea. apply Ok_inj in Ea as <-. vm_compute. auto. }
  destruct Hm as (Hm & Hw & Hn). exists reg, access. split; [reflexivity|]. split; [reflexivity|]. split; [|exact Hn].
  unfold example_access in Ea. destruct (authorized_request_within_registration _ _ _ _ _ _ _ _ _ _ _ _ _ _ _ _ _ E Ea Hm Hw)
    as (_ & (id & raw & _ & _ & Hs & Hr & Hv & _) & _). exists id, raw. auto.
Defined.

Lemma wrprc_parse_errors_witness :
  parse_rp_registration_certificate example_space example_loads (CwtToken [132; 67; 161; 1; 38]) = Err RpRegistrationError /\
  RpRegistrationError = RpRegistrationError.
Proof.
  assert (E : parse_rp_registration_certificate example_space example_loads (CwtToken [132; 67; 161; 1; 38]) = Err RpRegistrationError)
    by (vm_compute; reflexivity).
  split; [exact E|]. apply (wrprc_parse_errors example_space example_loads (CwtToken [132; 67; 161; 1; 38])); [|by apply (bool_decide_unpack _); vm_compute|exact E].
  intros raw e He. unfold example_loads in He. destruct (bool_decide (raw = $"h")); discriminate He.
Defined.
