(* ===== verification/TrustWalk.v ===== *)
(** [openvc.trustlist.consume] (src/src/openvc/trustlist/consume.py): from the list of trusted
    lists to the anchors.

    [fetch] is given the URLs requested before; the verifier of signatures is the caller's. *)
From S2P Require Import Prelude Errors PyStr X5c TrustModel TrustXml.

Definition ETSI : pystr := $"http://uri.etsi.org/TrstSvc".
Definition GRANTED : pystr := ETSI ++ $"/TrustedList/Svcstatus/granted".
Definition WITHDRAWN : pystr := ETSI ++ $"/TrustedList/Svcstatus/withdrawn".
Definition DEPRECATED_AT_NATIONAL_LEVEL : pystr := ETSI ++ $"/TrustedList/Svcstatus/deprecatedatnationallevel".
Definition CA_QC : pystr := ETSI ++ $"/Svctype/CA/QC".

(** A facet that is [None] matches everything. *)
Record Select := { service_types : option (gset pystr); statuses : option (gset pystr); territories : option (gset pystr) }.

Definition facet (s : option (gset pystr)) (v : pystr) : bool := match s with None => true | Some s => bool_decide (v ∈ s) end.
Definition matches {L} (s : Select) (a : TrustServiceAnchor L) : bool :=
  facet (service_types s) (service_type a) && facet (statuses s) (service_status a) && facet (territories s) (default [] (an_territory a)).
Definition DEFAULT_SELECT : Select := {| service_types := Some {[CA_QC]}; statuses := Some {[GRANTED]}; territories := None |}.

(** [select is None or select.matches(svc)]. *)
Definition selected {L} (s : option Select) (a : TrustServiceAnchor L) : bool := match s with None => true | Some s => matches s a end.

(** A pointer whose territory the selection leaves out. *)
Definition outside {L} (s : option Select) (p : TslPointer L) : bool :=
  match s with Some s => negb (facet (territories s) (default [] (pt_territory p))) | None => false end.

Section consume.
Context (L : x509_library) (parse : bytes -> Z -> result (TrustList L)).
Context (verify_signature : option (bytes -> list (cert L) -> result unit)).
Context (fetch : list pystr -> pystr -> result bytes).

Definition consume_trust_list (xml : bytes) (expected_signer_certs : list (cert L)) (max_bytes : Z) : result (TrustList L) :=
  match verify_signature with
  | None => Err TrustListSignatureUnavailable
  | Some verify =>
      match verify xml expected_signer_certs with
      | Ok _ => parse xml max_bytes
      | Err e => Err (if isinstance e TrustListError then e else TrustListSignatureError)
      end
  end.

Definition tl_stage (e : exn) : pystr :=
  if isinstance e TrustListSignatureError || isinstance e TrustListSignatureUnavailable then $"signature"
  else if isinstance e TrustListParseError then $"parse" else $"consume".

Definition expired (tl : TrustList L) (now : Z) : result bool :=
  match next_update tl with None => Ok false | Some m => moment_ltb m (utc now) end.

(** The list at a URL: the problem it is, or the list. *)
Definition consume_at (url : pystr) (certs : list (cert L)) (now max_bytes : Z) (sent : list pystr)
    : result (TrustListProblem + TrustList L) :=
  let problem s := Ok (inl {| pb_location := url; stage := s |}) in
  match fetch sent url with
  | Err _ => problem ($"fetch")
  | Ok xml =>
      match consume_trust_list xml certs max_bytes with
      | Err e => if isinstance e TrustListError then problem (tl_stage e) else Err e
      | Ok tl => stale ← expired tl now; if (stale : bool) then problem ($"expired") else Ok (inr tl)
      end
  end.

(** A pivot to another list of lists yields no anchors. *)
Definition is_pivot (p : TslPointer L) : bool :=
  match pt_type p with Some t => endswith t ($"EUlistofthelists") | None => false end.

Definition walk_state : Type := list (TrustServiceAnchor L) * list TrustListProblem * list pystr.

Definition follow_pointer (select : option Select) (now max_bytes : Z) (st : walk_state) (p : TslPointer L) : result walk_state :=
  let '(anchors, problems, sent) := st in
  if is_pivot p || outside select p then Ok st
  else
    got ← consume_at (location p) (signer_certs p) now max_bytes sent;
    Ok (match got with
        | inl pb => (anchors, problems ++ [pb], sent ++ [location p])
        | inr tl => (anchors ++ List.filter (selected select) (all_services tl), problems, sent ++ [location p])
        end).

Definition walk_lotl (lotl_url : pystr) (lotl_signer_certs : list (cert L)) (select : option Select) (now max_bytes : Z)
    : result (TrustAnchorSet L * list pystr) :=
  got ← consume_at lotl_url lotl_signer_certs now max_bytes [];
  match got with
  | inl pb => Ok ({| anchors := []; problems := [pb] |}, [lotl_url])
  | inr lotl =>
      '(anchors, problems, sent) ← foldR (follow_pointer select now max_bytes) ([], [], [lotl_url]) (pointers lotl);
      Ok ({| anchors := anchors; problems := problems |}, sent)
  end.

(** * What a walk returns *)

(** A list as it was read: fetched after the requests [sent], verified against the certificates
    given, parsed from the same bytes, and not expired. *)
Definition list_read (url : pystr) (certs : list (cert L)) (now max_bytes : Z) (sent : list pystr) (tl : TrustList L) : Prop :=
  exists xml verify, fetch sent url = Ok xml /\ verify_signature = Some verify /\ verify xml certs = Ok tt /\
    parse xml max_bytes = Ok tl /\ expired tl now = Ok false.

Lemma consume_at_Ok url certs now max_bytes sent got : consume_at url certs now max_bytes sent = Ok got ->
  match got with inl pb => pb_location pb = url | inr tl => list_read url certs now max_bytes sent tl end.
Proof using Type.
  unfold consume_at. destruct (fetch sent url) as [xml|e] eqn:Ef; [|by intros [= <-]].
  destruct (consume_trust_list xml certs max_bytes) as [tl|e] eqn:Ec; [|destruct (isinstance e _); [by intros [= <-]|done]].
  intros H. apply bind_Ok in H as ([] & He & H); injection H as <-; [done|].
  unfold consume_trust_list in Ec. destruct verify_signature as [verify|] eqn:Ev; [|done].
  destruct (verify xml certs) as [[]|e] eqn:Es; [|done]. by exists xml, verify.
Qed.

(** What the pointers followed so far account for. *)
Definition accounted (select : option Select) (now max_bytes : Z) (st : walk_state) (p : TslPointer L) : Prop :=
  is_pivot p = true \/ outside select p = true \/ (exists pb, pb ∈ st.1.2 /\ pb_location pb = location p) \/
  (exists sent tl, list_read (location p) (signer_certs p) now max_bytes sent tl /\
     forall a, a ∈ all_services tl -> selected select a = true -> a ∈ st.1.1).

Definition vouched (select : option Select) (now max_bytes : Z) (ps : list (TslPointer L)) (a : TrustServiceAnchor L) : Prop :=
  selected select a = true /\ exists p sent tl, p ∈ ps /\ outside select p = false /\
    list_read (location p) (signer_certs p) now max_bytes sent tl /\ a ∈ all_services tl.

Lemma elem_of_selected select a l : a ∈ List.filter (selected select) l <-> a ∈ l /\ selected (L := L) select a = true.
Proof using Type. rewrite !list_elem_of_In, filter_In. done. Qed.

Lemma follow_pointers_Ok select now max_bytes ps all st st' : (forall p, p ∈ ps -> p ∈ all) ->
  foldR (follow_pointer select now max_bytes) st ps = Ok st' ->
  Forall (vouched select now max_bytes all) st.1.1 ->
  Forall (vouched select now max_bytes all) st'.1.1 /\ st.1.1 ⊆ st'.1.1 /\ st.1.2 ⊆ st'.1.2 /\
  Forall (accounted select now max_bytes st') ps /\ (length st'.2 <= length st.2 + length ps)%nat.
Proof using Type.
  revert st. induction ps as [|p ps IH]; intros st Hall H Hv; cbn [foldR] in H.
  { injection H as <-. repeat split; try done. cbn. lia. }
  apply bind_Ok in H as (st1 & H1 & H). destruct st as [[an pb] sent].
  assert (Forall (vouched select now max_bytes all) st1.1.1 /\ an ⊆ st1.1.1 /\ pb ⊆ st1.1.2 /\
    accounted select now max_bytes st1 p /\ (length st1.2 <= S (length sent))%nat) as (Hv1 & Ha1 & Hp1 & Hacc & Hlen).
  { unfold follow_pointer in H1. destruct (is_pivot p) eqn:Epiv; [injection H1 as <-; repeat split; try done; [by left|cbn; lia]|].
    destruct (outside select p) eqn:Eout; [injection H1 as <-; repeat split; try done; [by right; left|cbn; lia]|]. cbn [orb] in H1.
    apply bind_Ok in H1 as (got & Hgot%consume_at_Ok & H1). injection H1 as <-.
    destruct got as [pr|tl]; cbn [fst snd] in *.
    - repeat split; [done|done|set_solver| |rewrite length_app; cbn; lia]. right. right. left. exists pr. cbn. split; [set_solver|done].
    - repeat split; [|set_solver|done| |rewrite length_app; cbn; lia].
      + apply Forall_app. split; [done|]. apply Forall_forall. intros a [Ha Hs]%elem_of_selected. split; [done|].
        exists p, sent, tl. split; [apply Hall; left|done].
      + right. right. right. exists sent, tl. split; [done|]. intros a Ha Hs. apply elem_of_app. right. by apply elem_of_selected. }
  destruct (IH st1 (fun x Hx => Hall x (list_elem_of_further _ _ _ Hx)) H Hv1) as (Hv' & Ha' & Hp' & Hacc' & Hlen').
  split; [done|]. cbn [fst snd] in *. split; [set_solver|]. split; [set_solver|]. split; [|cbn; lia]. constructor; [|done].
  destruct Hacc as [?|[?|[(x & Hx & ?)|(s & tl & ? & Hin)]]]; [by left|by right; left| |].
  - right. right. left. exists x. split; [set_solver|done].
  - right. right. right. exists s, tl. split; [done|]. intros a ? ?. set_solver.
Qed.

Lemma walk_lotl_Ok url certs select now max_bytes set sent : walk_lotl url certs select now max_bytes = Ok (set, sent) ->
  (anchors set = [] /\ (exists pb, problems set = [pb] /\ pb_location pb = url)) \/
  exists lotl, list_read url certs now max_bytes [] lotl /\
    Forall (vouched select now max_bytes (pointers lotl)) (anchors set) /\
    Forall (accounted select now max_bytes (anchors set, problems set, sent)) (pointers lotl) /\
    (length sent <= S (length (pointers lotl)))%nat.
Proof using Type.
  unfold walk_lotl. intros H. apply bind_Ok in H as (got & Hgot%consume_at_Ok & H). destruct got as [pb|lotl].
  - apply Ok_inj in H. injection H as <- <-. left. split; [done|]. by exists pb.
  - right. apply bind_Ok in H as ([[an pb] s] & Hf & [= <- <-]). apply (follow_pointers_Ok _ _ _ _ (pointers lotl)) in Hf; [|done|constructor].
    destruct Hf as (Hv & _ & _ & Hacc & Hlen). exists lotl. cbn in *. done.
Qed.
End consume.

(** C30: The anchors of a walk are vouched for, and nothing is dropped silently.  When
    [walk_lotl] returns, either it returns no anchor and the reason the root list contributed
    none, or the root list was verified against the certificates the caller pinned and is not
    expired; every anchor is a service the selection keeps, of a list that one of the root's
    pointers names, that was verified against the certificates that pointer carries, and that is
    not expired; and every pointer is a pivot, outside the selected territories, recorded as a
    problem, or has all its selected services among the anchors. *)
Theorem walk_lotl_sound (L : x509_library) parse verify_signature fetch url (certs : list (cert L)) select now max_bytes set sent
  (H : walk_lotl L parse verify_signature fetch url certs select now max_bytes = Ok (set, sent)) :
  (anchors set = [] /\ exists pb, problems set = [pb] /\ pb_location pb = url) \/
  exists lotl, list_read L parse verify_signature fetch url certs now max_bytes [] lotl /\
    Forall (vouched L parse verify_signature fetch select now max_bytes (pointers lotl)) (anchors set) /\
    Forall (accounted L parse verify_signature fetch select now max_bytes (anchors set, problems set, sent)) (pointers lotl) /\
    (length sent <= S (length (pointers lotl)))%nat.
Proof. by apply walk_lotl_Ok. Qed.

(** ** Examples *)

Definition example_pointer (url : pystr) : TslPointer toy_x509 :=
  {| location := url; signer_certs := [[2] : cert toy_x509]; pt_territory := Some ($"ES"); pt_type := Some ($"EUgeneric"); mime_type := None |}.
Definition example_anchor : TrustServiceAnchor toy_x509 :=
  {| an_certificate := [9] : cert toy_x509; service_type := CA_QC; service_status := GRANTED; tsp_name := None; service_name := None;
     an_territory := Some ($"ES") |}.
Definition example_list (next : option moment) (ps : list (TslPointer toy_x509)) (svcs : list (TrustServiceAnchor toy_x509)) : TrustList toy_x509 :=
  {| tsl_type := None; scheme_operator := None; tl_territory := None; sequence_number := None; issue_datetime := None;
     next_update := next; pointers := ps; providers := [{| tsp_display := None; services := svcs |}]; tl_version := None |}.
Definition example_parse (naive : bool) (xml : bytes) (_ : Z) : result (TrustList toy_x509) :=
  if bool_decide (xml = $"lotl") then Ok (example_list (Some (utc 10)) [example_pointer ($"es"); example_pointer ($"down")] [])
  else Ok (example_list (Some (if naive then (10, None) else utc 10)) [] [example_anchor]).
Definition example_fetch (_ : list pystr) (url : pystr) : result bytes := if bool_decide (url = $"down") then Err OSError else Ok url.
Definition example_walk (naive : bool) : result (TrustAnchorSet toy_x509 * list pystr) :=
  walk_lotl toy_x509 (example_parse naive) (Some (fun _ _ => Ok tt)) example_fetch ($"lotl") [[1] : cert toy_x509] (Some DEFAULT_SELECT) 5 100.

Lemma walk_lotl_sound_witness : exists set sent, example_walk false = Ok (set, sent) /\ anchors set = [example_anchor] /\
  problems set = [{| pb_location := $"down"; stage := $"fetch" |}] /\ exists lotl, Forall
    (vouched toy_x509 (example_parse false) (Some (fun _ _ => Ok tt)) example_fetch (Some DEFAULT_SELECT) 5 100 (pointers lotl)) (anchors set).
Proof.
  destruct (example_walk false) as [[set sent]|e] eqn:E; [|vm_compute in E; discriminate E]. exists set, sent. split; [reflexivity|].
  assert (anchors set = [example_anchor] /\ problems set = [{| pb_location := $"down"; stage := $"fetch" |}]) as [Ea Ep]
    by (clear -E; vm_compute in E; apply Ok_inj in E; injection E as <- _; split; reflexivity).
  split; [exact Ea|]. split; [exact Ep|]. unfold example_walk in E.
  destruct (walk_lotl_sound _ _ _ _ _ _ _ _ _ _ _ E) as [[E0 _]|(lotl & _ & Hv & _)]; [rewrite Ea in E0; discriminate E0|].
  exists lotl. exact Hv.
Defined.

(** A list whose [NextUpdate] names no offset ends the whole walk, the other lists with it. *)
Example naive_next_update_aborts : example_walk true = Err TypeError.
Proof. by vm_compute. Qed.
