(* ===== verification/Lote.v ===== *)
(** [openvc.trustlist.lote] (src/src/openvc/trustlist/lote.py): lists of trusted entities, from the
    signed token to the anchors.

    The structural checks raise [TrustListParseError] and return what they checked.  [fetch] is
    given the URLs requested before. *)
From S2P Require Import Prelude Errors PyStr Json Base64 Datetime VerifyCommon VcJwt Did Keys Schema X5c RpCert TrustModel TrustWalk.

Definition DEFAULT_MAX_BYTES : Z := 16 * 1024 * 1024.
Definition URI_19602 : pystr := $"http://uri.etsi.org/19602".
Definition LOTE_KNOWN_CRIT : list pystr := [$"alg"; $"typ"; $"x5c"; $"iat"].

(** [LoteType] and [LoteServiceType]. *)
Definition lote_type_uri (name : pystr) : pystr := URI_19602 ++ $"/LoTEType/" ++ name.
Definition EU_WRPAC_PROVIDERS : pystr := lote_type_uri ($"EUWRPACProvidersList").
Definition EU_WRPRC_PROVIDERS : pystr := lote_type_uri ($"EUWRPRCProvidersList").
Definition service_type_uri (name : pystr) : pystr := URI_19602 ++ $"/SvcType/" ++ name.
Definition WRPAC_ISSUANCE : pystr := service_type_uri ($"WRPAC/Issuance").
Definition WRPAC_REVOCATION : pystr := service_type_uri ($"WRPAC/Revocation").
Definition WRPRC_ISSUANCE : pystr := service_type_uri ($"WRPRC/Issuance").
Definition WRPRC_REVOCATION : pystr := service_type_uri ($"WRPRC/Revocation").

Record LoteProfile := {
  pf_lote_type : pystr; status_determination : list pystr; scheme_rules : pystr; pf_territory : pystr;
  pf_service_types : gset pystr; anchor_service_types : gset pystr; max_update_months : Z }.

Definition EU_WRPAC_PROVIDERS_PROFILE : LoteProfile := {|
  pf_lote_type := EU_WRPAC_PROVIDERS; status_determination := [URI_19602 ++ $"/WRPACProvidersList/StatusDetn/EU"];
  scheme_rules := URI_19602 ++ $"/WRPACProvidersList/schemerules/EU"; pf_territory := $"EU";
  pf_service_types := {[WRPAC_ISSUANCE; WRPAC_REVOCATION]}; anchor_service_types := {[WRPAC_ISSUANCE]}; max_update_months := 6 |}.
Definition EU_WRPRC_PROVIDERS_PROFILE : LoteProfile := {|
  pf_lote_type := EU_WRPRC_PROVIDERS;
  status_determination := [URI_19602 ++ $"/WRPRCrovidersList/StatusDetn/EU"; URI_19602 ++ $"/WRPRCProvidersList/StatusDetn/EU"];
  scheme_rules := URI_19602 ++ $"/WRPRCProvidersList/schemerules/EU"; pf_territory := $"EU";
  pf_service_types := {[WRPRC_ISSUANCE; WRPRC_REVOCATION]}; anchor_service_types := {[WRPRC_ISSUANCE]}; max_update_months := 6 |}.

(** * Structure *)

Definition malformed {A} : result A := Err TrustListParseError.

Definition require_mapping (v : json) : result jobject := match v with JDict d => Ok d | _ => malformed end.
Definition require_list (v : json) : result (list json) := match v with JList l => Ok l | _ => malformed end.
Definition require_str (v : json) : result pystr := match v with JStr s => Ok s | _ => malformed end.
Definition require_int (v : json) : result Z := match v with JInt n => Ok n | _ => malformed end.
(** A list that is not empty. *)
Definition require_items (v : json) : result (list json) :=
  items ← require_list v; raise_if (match items with [] => true | _ => false end) TrustListParseError;; Ok items.

Definition check_keys (obj : jobject) (allowed required : list pystr) : result unit :=
  raise_if (negb (forallb (fun k => bool_decide (k ∈ allowed)) obj.*1)) TrustListParseError;;
  raise_if (negb (forallb (dmem obj) required)) TrustListParseError.

(** A check of an optional member. *)
Definition optional {A} (obj : jobject) (key : pystr) (check : json -> result A) : result (option A) :=
  match dget obj key with Some v => a ← check v; Ok (Some a) | None => Ok None end.

Definition reject_critical_extensions (v : json) : result unit :=
  items ← require_items v;
  raise_if (existsb (fun item => match item with
                                 | JDict d => existsb (fun k => match jget d k with JBool true => true | _ => false end) [$"critical"; $"Critical"]
                                 | _ => false
                                 end) items) TrustListParseError.

Definition ml_uris (v : json) : result (list pystr) :=
  items ← require_items v;
  mapR (fun item => entry ← require_mapping item; check_keys entry [$"lang"; $"uriValue"] [$"lang"; $"uriValue"];;
                    require_str (jget entry ($"lang"));; require_str (jget entry ($"uriValue"))) items.

Definition PKIOB_KEYS : list pystr := [$"encoding"; $"specRef"; $"val"].
Definition SDI_KEYS : list pystr := [$"X509Certificates"; $"X509SubjectNames"; $"PublicKeyValues"; $"X509SKIs"; $"OtherIds"].
Definition QUALIFIER_KEYS : list pystr :=
  [$"LoTEType"; $"SchemeOperatorName"; $"SchemeTypeCommunityRules"; $"SchemeTerritory"; $"MimeType"].
Definition POINTER_KEYS : list pystr := [$"LoTELocation"; $"ServiceDigitalIdentities"; $"LoTEQualifiers"].
Definition SCHEME_KEYS : list pystr :=
  [$"LoTEVersionIdentifier"; $"LoTESequenceNumber"; $"LoTEType"; $"SchemeOperatorName"; $"SchemeOperatorAddress"; $"SchemeName";
   $"SchemeInformationURI"; $"StatusDeterminationApproach"; $"SchemeTypeCommunityRules"; $"SchemeTerritory"; $"PolicyOrLegalNotice";
   $"HistoricalInformationPeriod"; $"PointersToOtherLoTE"; $"ListIssueDateTime"; $"NextUpdate"; $"DistributionPoints"; $"SchemeExtensions"].
Definition SCHEME_REQUIRED : list pystr :=
  [$"LoTEVersionIdentifier"; $"LoTESequenceNumber"; $"SchemeOperatorName"; $"ListIssueDateTime"; $"NextUpdate"].
Definition SERVICE_INFO_KEYS : list pystr :=
  [$"ServiceName"; $"ServiceDigitalIdentity"; $"ServiceTypeIdentifier"; $"ServiceStatus"; $"StatusStartingTime";
   $"SchemeServiceDefinitionURI"; $"ServiceSupplyPoints"; $"ServiceDefinitionURI"; $"ServiceInformationExtensions"].
Definition TE_INFO_KEYS : list pystr := [$"TEName"; $"TETradeName"; $"TEAddress"; $"TEInformationURI"; $"TEInformationExtensions"].

Create HintDb lote.

Section lote.
(** [str.lower], Unicode decimal digits and [datetime.fromisoformat]; the X.509 library, its DER
    encoding and its names. *)
Context (lower : pystr -> pystr) (is_decimal : Z -> bool) (fromisoformat : pystr -> option (Z * option Z)).
Context (L : x509_library) (R : rp_library L) (der : cert L -> bytes).

Definition ml_strings (v : json) : result (list pystr) :=
  items ← require_items v;
  entries ← mapR (fun item => entry ← require_mapping item; check_keys entry [$"lang"; $"value"] [$"lang"; $"value"];;
                              lang ← require_str (jget entry ($"lang")); text ← require_str (jget entry ($"value")); Ok (lang, text)) items;
  let english (e : pystr * pystr) := bool_decide (lower e.1 = $"en") in
  Ok ((List.filter english entries).*2 ++ (List.filter (fun e => negb (english e)) entries).*2).

(** [_DATETIME_Z]. *)
Definition DATETIME_Z (s : pystr) : bool :=
  (length s =? 20)%nat &&
  forallb (fun i => is_decimal (nth i s 0)) [0; 1; 2; 3; 5; 6; 8; 9; 11; 12; 14; 15; 17; 18]%nat &&
  bool_decide (map (fun i => nth i s 0) [4; 7; 10; 13; 16; 19]%nat = [45; 45; 84; 58; 58; 90]).

Definition datetime_z (v : json) : result Z :=
  text ← require_str v;
  raise_if (negb (DATETIME_Z text)) TrustListParseError;;
  match fromisoformat (take 19 text ++ $"+00:00") with
  | Some (wall, offset) => Ok (wall - default 0 offset)
  | None => malformed
  end.

(** A blob that is not a certificate is skipped. *)
Definition x509_certificate (entry : json) : result (option (cert L)) :=
  ob ← require_mapping entry;
  check_keys ob PKIOB_KEYS [$"val"];;
  val ← require_str (jget ob ($"val"));
  Ok (match b64decode_validate val with Ok raw => load_der L raw | Err _ => None end).

Definition certs_from_sdi (v : json) : result (list (cert L)) :=
  sdi ← require_mapping v;
  check_keys sdi SDI_KEYS [];;
  match dget sdi ($"X509Certificates") with
  | None => Ok []
  | Some v => entries ← require_items v; certs ← mapR x509_certificate entries; Ok (omap id certs : list (cert L))
  end.

(** The qualifiers of a pointer: the first of each is kept, and only that one is checked. *)
Definition qualifier (st : option pystr * option pystr * option pystr) (qual : json)
    : result (option pystr * option pystr * option pystr) :=
  let '(territory, lote_type, mime) := st in
  qual ← require_mapping qual;
  check_keys qual QUALIFIER_KEYS [$"LoTEType"; $"SchemeOperatorName"; $"MimeType"];;
  let keep (old : option pystr) key := match old with Some s => Ok (Some s) | None => s ← require_str (jget qual key); Ok (Some s) end in
  lote_type ← keep lote_type ($"LoTEType");
  mime ← keep mime ($"MimeType");
  territory ← (if dmem qual ($"SchemeTerritory") then keep territory ($"SchemeTerritory") else Ok territory);
  Ok (territory, lote_type, mime).

Definition lote_parse_pointer (v : json) : result (TslPointer L) :=
  ptr ← require_mapping v;
  check_keys ptr POINTER_KEYS POINTER_KEYS;;
  loc ← require_str (jget ptr ($"LoTELocation"));
  sdis ← require_items (jget ptr ($"ServiceDigitalIdentities"));
  certs ← mapR certs_from_sdi sdis;
  qualifiers ← require_items (jget ptr ($"LoTEQualifiers"));
  '(territory, lote_type, mime) ← foldR qualifier (None, None, None) qualifiers;
  Ok {| location := loc; signer_certs := concat certs; pt_territory := territory; pt_type := lote_type; mime_type := mime |}.

Definition lote_parse_service (te_name : pystr) (territory : option pystr) (v : json) : result (list (TrustServiceAnchor L)) :=
  svc ← require_mapping v;
  check_keys svc [$"ServiceInformation"; $"ServiceHistory"] [$"ServiceInformation"];;
  info ← require_mapping (jget svc ($"ServiceInformation"));
  check_keys info SERVICE_INFO_KEYS [$"ServiceName"; $"ServiceDigitalIdentity"];;
  names ← ml_strings (jget info ($"ServiceName"));
  type ← optional info ($"ServiceTypeIdentifier") require_str;
  status ← optional info ($"ServiceStatus") require_str;
  optional info ($"StatusStartingTime") datetime_z;;
  optional info ($"ServiceInformationExtensions") reject_critical_extensions;;
  certs ← certs_from_sdi (jget info ($"ServiceDigitalIdentity"));
  Ok (map (fun c => {| an_certificate := c; service_type := default [] type; service_status := default [] status;
                       tsp_name := Some te_name; service_name := head names; an_territory := territory |}) certs).

Definition parse_entity (territory : option pystr) (v : json) : result (TrustServiceProvider L) :=
  entity ← require_mapping v;
  check_keys entity [$"TrustedEntityInformation"; $"TrustedEntityServices"] [$"TrustedEntityInformation"; $"TrustedEntityServices"];;
  info ← require_mapping (jget entity ($"TrustedEntityInformation"));
  check_keys info TE_INFO_KEYS [$"TEName"; $"TEAddress"; $"TEInformationURI"];;
  names ← ml_strings (jget info ($"TEName"));
  require_mapping (jget info ($"TEAddress"));;
  ml_uris (jget info ($"TEInformationURI"));;
  optional info ($"TEInformationExtensions") reject_critical_extensions;;
  raw_services ← require_items (jget entity ($"TrustedEntityServices"));
  match names with
  | [] => Err IndexError
  | name :: _ =>
      services ← mapR (lote_parse_service name territory) raw_services;
      Ok {| tsp_display := Some name; services := concat services |}
  end.

(** The checks of members nothing else reads. *)
Definition check_scheme_members (scheme : jobject) : result unit :=
  optional scheme ($"HistoricalInformationPeriod") require_int;;
  optional scheme ($"StatusDeterminationApproach") require_str;;
  optional scheme ($"SchemeTypeCommunityRules") ml_uris;;
  optional scheme ($"SchemeName") ml_strings;;
  optional scheme ($"SchemeInformationURI") ml_uris;;
  optional scheme ($"SchemeOperatorAddress") require_mapping;;
  optional scheme ($"PolicyOrLegalNotice") require_list;;
  optional scheme ($"DistributionPoints") (fun v => points ← require_items v; mapR require_str points);;
  optional scheme ($"SchemeExtensions") reject_critical_extensions;;
  Ok tt.

(** [parse_lote] of a decoded document. *)
Definition parse_lote (payload : json) : result (TrustList L) :=
  root ← require_mapping payload;
  check_keys root [$"LoTE"] [$"LoTE"];;
  lote ← require_mapping (jget root ($"LoTE"));
  check_keys lote [$"ListAndSchemeInformation"; $"TrustedEntitiesList"] [$"ListAndSchemeInformation"];;
  scheme ← require_mapping (jget lote ($"ListAndSchemeInformation"));
  check_keys scheme SCHEME_KEYS SCHEME_REQUIRED;;
  version ← require_int (jget scheme ($"LoTEVersionIdentifier"));
  sequence ← require_int (jget scheme ($"LoTESequenceNumber"));
  operator_names ← ml_strings (jget scheme ($"SchemeOperatorName"));
  lote_type ← optional scheme ($"LoTEType") require_str;
  territory ← optional scheme ($"SchemeTerritory") require_str;
  check_scheme_members scheme;;
  issue ← datetime_z (jget scheme ($"ListIssueDateTime"));
  next ← match jget scheme ($"NextUpdate") with JNull => Ok None | v => t ← datetime_z v; Ok (Some (utc t)) end;
  pointers ← optional scheme ($"PointersToOtherLoTE") (fun v => ptrs ← require_items v; mapR lote_parse_pointer ptrs);
  providers ← optional lote ($"TrustedEntitiesList") (fun v => es ← require_items v; mapR (parse_entity territory) es);
  Ok {| tsl_type := lote_type; scheme_operator := head operator_names; tl_territory := territory; sequence_number := Some sequence;
        issue_datetime := Some (isoformat issue); next_update := next; pointers := default [] pointers;
        providers := default [] providers; tl_version := Some version |}.

(** [parse_lote] of the raw bytes. *)
Definition parse_lote_bytes (json_loads : bytes -> result json) (raw : bytes) (max_bytes : Z) : result (TrustList L) :=
  raise_if (max_bytes <? len raw) TrustListParseError;;
  decoded ← catch_as value_or_recursion TrustListParseError (json_loads raw);
  parse_lote decoded.

(** * The signed list *)

Context (json_loads : bytes -> result json) (verify_signature : pystr -> json -> bytes -> bytes -> result bool).

Definition lote_reject_unknown_crit (header : jobject) : result unit :=
  match dget header ($"crit") with
  | None => Ok tt
  | Some (JList ((_ :: _) as crit)) =>
      raise_if (negb (forallb is_str crit)) TrustListSignatureError;;
      let names := omap as_str crit in
      raise_if (negb (forallb (fun c => bool_decide (c ∈ LOTE_KNOWN_CRIT)) names)) TrustListSignatureError;;
      raise_if (negb (forallb (dmem header) names)) TrustListSignatureError
  | Some _ => Err TrustListSignatureError
  end.

(** The leaf and what follows it. *)
Definition signer_chain (header : jobject) : result (cert L * list (cert L)) :=
  raise_if (bool_decide (jget header ($"x5c") = JNull)) TrustListSignatureError;;
  chain ← catch_as (fun e => isinstance e X5cError) TrustListSignatureError (load_x5c_chain L (jget header ($"x5c")));
  match chain with leaf :: rest => Ok (leaf, rest) | [] => Err IndexError end.

Definition authenticate_signer (leaf : cert L) (rest pinned : list (cert L)) (now : Z) : result unit :=
  raise_if (match pinned with [] => true | _ => false end) TrustListSignatureError;;
  if existsb (fun c => bool_decide (der leaf = der c)) pinned
  then raise_if (negb ((not_valid_before L leaf <=? now) && (now <=? not_valid_after L leaf))) TrustListSignatureError
  else catch_as (fun e => isinstance e X5cError) TrustListSignatureError (validate_cert_chain L (leaf :: rest) pinned now);; Ok tt.

Definition check_signer_dn (leaf : cert L) (scheme : jobject) (territory : option pystr) : result unit :=
  names ← ml_strings (jget scheme ($"SchemeOperatorName"));
  orgs ← subject_values R leaf ORGANIZATION_NAME;
  raise_if (negb (existsb (fun o => match o with Some o => bool_decide (o ∈ names) | None => false end) orgs)) TrustListSignatureError;;
  match territory with
  | None => Ok tt
  | Some t => countries ← subject_values R leaf COUNTRY_NAME; raise_if (negb (bool_decide (Some t ∈ countries))) TrustListSignatureError
  end.

(** The later date [months] after a moment. *)
Definition plus_months (dt : moment) (months : Z) : result moment :=
  let '(y, m, d) := date_of dt.1 in
  let month := m - 1 + months in
  let year := y + month / 12 in
  let month := month mod 12 + 1 in
  wall ← replace_date dt.1 year month (Z.min d (days_in_month year month)); Ok (wall, dt.2).

(** [ServiceStatus] and [StatusStartingTime], anywhere in the wire object. *)
Definition uses_status (lote : jobject) : bool :=
  let list_of v := match v with JList l => l | _ => [] end in
  existsb (fun entity => match entity with
    | JDict e => existsb (fun svc => match svc with
        | JDict s => match jget s ($"ServiceInformation") with
                     | JDict info => dmem info ($"ServiceStatus") || dmem info ($"StatusStartingTime")
                     | _ => false
                     end
        | _ => false
        end) (list_of (jget e ($"TrustedEntityServices")))
    | _ => false
    end) (list_of (jget lote ($"TrustedEntitiesList"))).

Definition check_profile (trust_list : TrustList L) (lote : jobject) (profile : LoteProfile) : result unit :=
  match jget lote ($"ListAndSchemeInformation") with
  | JDict scheme =>
      raise_if (negb (bool_decide (tl_version trust_list = Some 1))) TrustListProfileError;;
      raise_if (negb (bool_decide (tsl_type trust_list = Some (pf_lote_type profile)))) TrustListProfileError;;
      raise_if (negb match jget scheme ($"StatusDeterminationApproach") with
                     | JStr s => bool_decide (s ∈ status_determination profile) | _ => false end) TrustListProfileError;;
      rules ← match dget scheme ($"SchemeTypeCommunityRules") with Some v => ml_uris v | None => Ok [] end;
      raise_if (negb (bool_decide (scheme_rules profile ∈ rules))) TrustListProfileError;;
      raise_if (negb (bool_decide (tl_territory trust_list = Some (pf_territory profile)))) TrustListProfileError;;
      raise_if (dmem scheme ($"HistoricalInformationPeriod")) TrustListProfileError;;
      match fromisoformat (default [] (issue_datetime trust_list)) with
      | None => Err TrustListProfileError
      | Some issue =>
          match next_update trust_list with
          | None => Ok tt
          | Some next =>
              ceiling ← catch_as (fun e => isinstance e ValueError) TrustListProfileError (plus_months issue (max_update_months profile));
              late ← moment_ltb ceiling next; raise_if late TrustListProfileError
          end;;
          raise_if (negb (forallb (fun svc => bool_decide (service_type svc ∈ pf_service_types profile)) (all_services trust_list)))
            TrustListProfileError;;
          raise_if (uses_status lote) TrustListProfileError
      end
  | _ => Err KeyError
  end.

(** The token as text or as bytes: either way it must be ASCII. *)
Definition consume_lote (token : pystr) (expected_signer_certs : list (cert L)) (profile : option LoteProfile) (now max_bytes : Z)
    : result (TrustList L) :=
  raise_if (negb (isascii token)) TrustListParseError;;
  raise_if (max_bytes <? len token) TrustListParseError;;
  '(header, payload, signing_input, signature) ← catch_as (fun e => isinstance e ProofError) TrustListParseError
                                                   (parse_compact json_loads token);
  match allowed_alg (jget header ($"alg")) ALLOWED_ALGS with
  | None => Err TrustListSignatureError
  | Some alg =>
      lote_reject_unknown_crit header;;
      '(leaf, rest) ← signer_chain header;
      authenticate_signer leaf rest expected_signer_certs now;;
      public_jwk ← catch_as (fun e => isinstance e X5cError) TrustListSignatureError (leaf_public_jwk L leaf);
      ok ← catch_as (fun e => isinstance e KeyBackendError) TrustListSignatureError
             (verify_signature alg (JDict public_jwk) signing_input signature);
      raise_if (negb ok) TrustListSignatureError;;
      trust_list ← parse_lote (JDict payload);
      match jget payload ($"LoTE") with
      | JDict lote =>
          match jget lote ($"ListAndSchemeInformation") with
          | JDict scheme =>
              check_signer_dn leaf scheme (tl_territory trust_list);;
              match profile with Some p => check_profile trust_list lote p | None => Ok tt end;;
              Ok trust_list
          | _ => Err KeyError
          end
      | _ => Err KeyError
      end
  end.

(** * The walk *)

Context (fetch : list pystr -> pystr -> result bytes).

(** The default selection is the profile's. *)
Inductive selection := Derived | Explicit (s : option Select).
Definition derive_select (s : selection) (profile : option LoteProfile) : option Select :=
  match s with
  | Explicit s => s
  | Derived => (fun p => {| service_types := Some (anchor_service_types p); statuses := None; territories := None |}) <$> profile
  end.

Definition lote_stage (e : exn) : pystr :=
  if isinstance e TrustListProfileError then $"profile"
  else if isinstance e TrustListSignatureError then $"signature"
  else if isinstance e TrustListParseError then $"parse" else $"consume".

(** A closed list is stale. *)
Definition stale (trust_list : TrustList L) (now : Z) : result bool :=
  match next_update trust_list with None => Ok true | Some m => moment_ltb m (utc now) end.

Definition lote_at (url : pystr) (certs : list (cert L)) (profile : option LoteProfile) (now max_bytes : Z) (visited : list pystr)
    : result (TrustListProblem + TrustList L) :=
  let problem s := Ok (inl {| pb_location := url; stage := s |}) in
  match fetch visited url with
  | Err _ => problem ($"fetch")
  | Ok token =>
      match consume_lote token certs profile now max_bytes with
      | Err e => if isinstance e TrustListError then problem (lote_stage e) else Err e
      | Ok l => old ← stale l now; if (old : bool) then problem ($"expired") else Ok (inr l)
      end
  end.

(** [visited]: the locations requested, the root first. *)
Definition lote_state : Type := list (TrustServiceAnchor L) * list TrustListProblem * list pystr.

Definition follow_lote (select : option Select) (profile : option LoteProfile) (now max_bytes max_lists : Z) (st : lote_state)
    (p : TslPointer L) : result lote_state :=
  let '(anchors, problems, visited) := st in
  let note s := Ok (anchors, problems ++ [{| pb_location := location p; stage := s |}], visited) in
  if bool_decide (location p ∈ visited) then Ok st
  else if match profile with Some pf => negb (bool_decide (pt_type p = Some (pf_lote_type pf))) | None => false end then note ($"profile")
  else if outside select p then Ok st
  else if max_lists <=? len visited then note ($"consume")
  else
    got ← lote_at (location p) (signer_certs p) profile now max_bytes visited;
    Ok (match got with
        | inl pb => (anchors, problems ++ [pb], visited ++ [location p])
        | inr l => (anchors ++ List.filter (selected select) (all_services l), problems, visited ++ [location p])
        end).

Definition walk_lote (lote_url : pystr) (lote_signer_certs : list (cert L)) (profile : option LoteProfile) (sel : selection)
    (now max_bytes max_lists : Z) : result (TrustAnchorSet L * list pystr) :=
  let select := derive_select sel profile in
  got ← lote_at lote_url lote_signer_certs profile now max_bytes [];
  match got with
  | inl pb => Ok ({| anchors := []; problems := [pb] |}, [lote_url])
  | inr root =>
      '(anchors, problems, visited) ← foldR (follow_lote select profile now max_bytes max_lists)
        (List.filter (selected select) (all_services root), [], [lote_url]) (pointers root);
      Ok ({| anchors := anchors; problems := problems |}, visited)
  end.

(** * What a walk returns *)

(** Signed by a certificate the caller pinned, or that chains to one. *)
Definition pinned_signer (leaf : cert L) (rest pinned : list (cert L)) (now : Z) : Prop :=
  (exists c, c ∈ pinned /\ der leaf = der c /\ not_valid_before L leaf <= now <= not_valid_after L leaf) \/
  anchored L pinned now leaf rest.

(** The operator the list names is the organisation of the certificate. *)
Definition operated_by (leaf : cert L) (scheme : jobject) (territory : option pystr) : Prop :=
  (exists names orgs o, ml_strings (jget scheme ($"SchemeOperatorName")) = Ok names /\
     subject_values R leaf ORGANIZATION_NAME = Ok orgs /\ Some o ∈ orgs /\ o ∈ names) /\
  (forall t, territory = Some t -> exists countries, subject_values R leaf COUNTRY_NAME = Ok countries /\ Some t ∈ countries).

Definition conforming (l : TrustList L) (profile : LoteProfile) : Prop :=
  tl_version l = Some 1 /\ tsl_type l = Some (pf_lote_type profile) /\ tl_territory l = Some (pf_territory profile) /\
  (forall a, a ∈ all_services l -> service_type a ∈ pf_service_types profile) /\
  (forall next, next_update l = Some next -> exists issue ceiling, fromisoformat (default [] (issue_datetime l)) = Some issue /\
     plus_months issue (max_update_months profile) = Ok ceiling /\ moment_ltb ceiling next = Ok false).

Definition authentic (token : pystr) (certs : list (cert L)) (now : Z) (l : TrustList L) : Prop :=
  exists header payload signing_input signature alg leaf rest jwk lote scheme,
    parse_compact json_loads token = Ok (header, payload, signing_input, signature) /\
    alg ∈ ALLOWED_ALGS /\ jget header ($"alg") = JStr alg /\ signer_chain header = Ok (leaf, rest) /\
    pinned_signer leaf rest certs now /\ leaf_public_jwk L leaf = Ok jwk /\
    verify_signature alg (JDict jwk) signing_input signature = Ok true /\ parse_lote (JDict payload) = Ok l /\
    jget payload ($"LoTE") = JDict lote /\ jget lote ($"ListAndSchemeInformation") = JDict scheme /\
    operated_by leaf scheme (tl_territory l).

(** A list that was fetched, authenticated, that conforms to the profile, and that is fresh. *)
Definition lote_read (url : pystr) (certs : list (cert L)) (profile : option LoteProfile) (now : Z) (visited : list pystr) (l : TrustList L) : Prop :=
  exists token, fetch visited url = Ok token /\ authentic token certs now l /\ (forall p, profile = Some p -> conforming l p) /\
    exists next, next_update l = Some next /\ moment_ltb next (utc now) = Ok false.

Lemma authenticate_signer_Ok leaf rest pinned now : authenticate_signer leaf rest pinned now = Ok tt -> pinned_signer leaf rest pinned now.
Proof using Type.
  unfold authenticate_signer. intros H. apply bind_Ok in H as (? & _ & H). destruct (existsb _ _) eqn:E.
  - left. apply existsb_exists in E as (c & Hc & Hd%bool_decide_eq_true). apply raise_if_Ok, negb_false_iff, andb_true_iff in H.
    exists c. split; [by apply list_elem_of_In|]. split; [done|]. lia.
  - right. apply bind_Ok in H as (? & H%catch_as_Ok & _). apply validate_cert_chain_Ok in H as (? & [= -> ->] & ?). done.
Qed.

Lemma check_signer_dn_Ok leaf scheme territory : check_signer_dn leaf scheme territory = Ok tt -> operated_by leaf scheme territory.
Proof using Type.
  unfold check_signer_dn. intros H. apply bind_Ok in H as (names & Hn & H). apply bind_Ok in H as (orgs & Ho & H).
  apply bind_Ok in H as (? & He%raise_if_Ok%negb_false_iff & H). apply existsb_exists in He as ([o|] & Hin & Hb); [|done].
  split; [exists names, orgs, o; split_and!; [done|done|by apply list_elem_of_In|by apply bool_decide_eq_true in Hb]|].
  intros t ->. apply bind_Ok in H as (cs & Hc & H%raise_if_Ok%negb_false_iff%bool_decide_eq_true). by exists cs.
Qed.

Lemma check_lote_profile_Ok l lote p : check_profile l lote p = Ok tt -> conforming l p.
Proof using Type.
  unfold check_profile. destruct (jget lote _) as [| | | | | |scheme|]; try done. intros H.
  apply bind_Ok in H as (? & Hv%raise_if_Ok%negb_false_iff%bool_decide_eq_true & H).
  apply bind_Ok in H as (? & Ht%raise_if_Ok%negb_false_iff%bool_decide_eq_true & H).
  apply bind_Ok in H as (? & _ & H). apply bind_Ok in H as (rules & _ & H). apply bind_Ok in H as (? & _ & H).
  apply bind_Ok in H as (? & Hr%raise_if_Ok%negb_false_iff%bool_decide_eq_true & H).
  apply bind_Ok in H as (? & _ & H). destruct (fromisoformat _) as [issue|] eqn:Ei; [|done].
  apply bind_Ok in H as (? & Hn & H). apply bind_Ok in H as (? & Hs%raise_if_Ok%negb_false_iff & _).
  split_and!; try done.
  - intros a Ha. rewrite forallb_forall in Hs. apply list_elem_of_In, Hs in Ha. by apply bool_decide_eq_true in Ha.
  - intros next En. rewrite En in Hn. apply bind_Ok in Hn as (c & Hc%catch_as_Ok & Hn). apply bind_Ok in Hn as (late & Hl & ->%raise_if_Ok).
    by exists issue, c.
Qed.

Lemma consume_lote_Ok token certs profile now max_bytes l : consume_lote token certs profile now max_bytes = Ok l ->
  authentic token certs now l /\ (forall p, profile = Some p -> conforming l p).
Proof using Type.
  unfold consume_lote. intros H. apply bind_Ok in H as (? & _ & H). apply bind_Ok in H as (? & _ & H).
  apply bind_Ok in H as ([[[header payload] si] sig] & Hp%catch_as_Ok & H).
  destruct (allowed_alg _ _) as [alg|] eqn:Ea; [|done]. apply allowed_alg_Some in Ea as [Ea Hin].
  apply bind_Ok in H as (? & _ & H). apply bind_Ok in H as ([leaf rest] & Hc & H).
  apply bind_Ok in H as ([] & Hs%authenticate_signer_Ok & H). apply bind_Ok in H as (jwk & Hj%catch_as_Ok & H).
  apply bind_Ok in H as (ok & Hv%catch_as_Ok & H). apply bind_Ok in H as (? & ->%raise_if_Ok%negb_false_iff & H).
  apply bind_Ok in H as (tl & Hl & H). destruct (jget payload _) as [| | | | | |lote|] eqn:El; try done.
  destruct (jget lote _) as [| | | | | |scheme|] eqn:Esch; try done.
  apply bind_Ok in H as ([] & Hd%check_signer_dn_Ok & H). apply bind_Ok in H as ([] & Hpf & [= <-]). split.
  - by exists header, payload, si, sig, alg, leaf, rest, jwk, lote, scheme.
  - intros p ->. by eapply check_lote_profile_Ok.
Qed.

Lemma lote_at_Ok url certs profile now max_bytes visited got : lote_at url certs profile now max_bytes visited = Ok got ->
  match got with inl pb => pb_location pb = url | inr l => lote_read url certs profile now visited l end.
Proof using Type.
  unfold lote_at. destruct (fetch visited url) as [token|e] eqn:Ef; [|by intros [= <-]].
  destruct (consume_lote token certs profile now max_bytes) as [l|e] eqn:Ec; [|destruct (isinstance e _); [by intros [= <-]|done]].
  intros H. apply bind_Ok in H as (old & Hs & H). destruct old; injection H as <-; [done|].
  apply consume_lote_Ok in Ec as [Ha Hp]. unfold stale in Hs. destruct (next_update l) as [m|] eqn:En; [|done].
  exists token. split_and!; [done..|]. by exists m.
Qed.

(** Why a pointer contributed what it did; a location is requested once, for the first pointer to it. *)
Definition lote_accounted (select : option Select) (profile : option LoteProfile) (now : Z) (root : pystr) (ps : list (TslPointer L))
    (st : lote_state) (p : TslPointer L) : Prop :=
  location p = root \/ outside select p = true \/ (exists pb, pb ∈ st.1.2 /\ pb_location pb = location p) \/
  (exists q visited l, q ∈ ps /\ location q = location p /\ lote_read (location q) (signer_certs q) profile now visited l /\
     forall a, a ∈ all_services l -> selected select a = true -> a ∈ st.1.1).

Definition lote_vouched (select : option Select) (profile : option LoteProfile) (now : Z) (root : TrustList L) (a : TrustServiceAnchor L) : Prop :=
  selected select a = true /\
  (a ∈ all_services root \/
   exists p visited l, p ∈ pointers root /\ (forall pf, profile = Some pf -> pt_type p = Some (pf_lote_type pf)) /\
     lote_read (location p) (signer_certs p) profile now visited l /\ a ∈ all_services l).

(** What holds of the state after any of the pointers of [root]. *)
Record lote_inv (select : option Select) (profile : option LoteProfile) (now max_lists : Z) (url : pystr) (root : TrustList L)
    (st : lote_state) : Prop := {
  li_vouched : Forall (lote_vouched select profile now root) st.1.1;
  li_once : NoDup st.2;
  li_capped : len st.2 <= Z.max max_lists 1;
  li_visited : forall p, location p ∈ st.2 -> lote_accounted select profile now url (pointers root) st p }.

Definition grows (st st' : lote_state) : Prop := st.1.1 ⊆ st'.1.1 /\ st.1.2 ⊆ st'.1.2.

Lemma lote_accounted_grows select profile now url ps st st' p : grows st st' ->
  lote_accounted select profile now url ps st p -> lote_accounted select profile now url ps st' p.
Proof using Type.
  intros [Ha Hp] [?|[?|[(pb & Hin & ?)|(q & v & l & ? & ? & ? & Hin)]]]; [by left|by right; left| |].
  - right. right. left. exists pb. split; [by apply Hp|done].
  - right. right. right. exists q, v, l. split_and!; [done..|]. intros a ? ?. by apply Ha, Hin.
Qed.

Lemma follow_lote_Ok select profile now max_bytes max_lists url root st p st' : p ∈ pointers root ->
  follow_lote select profile now max_bytes max_lists st p = Ok st' -> lote_inv select profile now max_lists url root st ->
  lote_inv select profile now max_lists url root st' /\ grows st st' /\ lote_accounted select profile now url (pointers root) st' p.
Proof using Type.
  intros Hp H I. destruct st as [[an pb] visited]. unfold follow_lote in H.
  assert (forall s, let st1 := (an, pb ++ [{| pb_location := location p; stage := s |}], visited) in
    lote_inv select profile now max_lists url root st1 /\ grows (an, pb, visited) st1 /\
    lote_accounted select profile now url (pointers root) st1 p) as Hnote.
  { intros s st1. assert (grows (an, pb, visited) st1) as Hg by (split; cbn; set_solver). split_and!; [|done|].
    - destruct I as [? ? ? Hv]. split; [done..|]. intros x Hx. eapply lote_accounted_grows; [done|by apply Hv].
    - right. right. left. eexists. split; [apply elem_of_app; right; left|done]. }
  case_bool_decide as Hvis; [injection H as <-; split_and!; [done|done|by apply I]|].
  destruct (match profile with Some pf => _ | None => false end) eqn:Epf; [injection H as <-; apply Hnote|].
  destruct (outside select p) eqn:Eout; [injection H as <-; split_and!; [done|done|by right; left]|].
  destruct (max_lists <=? len visited) eqn:Ecap; [injection H as <-; apply Hnote|]. clear Hnote.
  apply bind_Ok in H as (got & Hgot%lote_at_Ok & H). apply Ok_inj in H.
  assert (grows (an, pb, visited) st' /\ lote_accounted select profile now url (pointers root) st' p /\
    Forall (lote_vouched select profile now root) st'.1.1 /\ st'.2 = visited ++ [location p]) as (Hg & Hacc & Hv & Ev).
  { destruct got as [pr|l]; subst st'; cbn [fst snd].
    - split_and!; [split; cbn; set_solver| |apply I|done]. right. right. left. exists pr. split; [cbn; set_solver|done].
    - split_and!; [split; cbn; set_solver| | |done].
      + right. right. right. exists p, visited, l. split_and!; [done..|]. intros a Ha Hs. apply elem_of_app. right.
        by apply elem_of_selected.
      + apply Forall_app. split; [apply I|]. apply Forall_forall. intros a [Ha Hs]%elem_of_selected. split; [done|]. right.
        exists p, visited, l. split_and!; [done| |done..]. intros pf ->. by apply negb_false_iff, bool_decide_eq_true in Epf. }
  split_and!; [|done|done]. split; [done|..]; rewrite Ev.
  - apply NoDup_app. split_and!; [apply I|set_solver|apply NoDup_singleton].
  - pose proof (li_capped _ _ _ _ _ _ _ I) as Hc. cbn [snd] in Hc. unfold len in *. rewrite length_app. cbn. lia.
  - intros x [Hx|Hx]%elem_of_app; [eapply lote_accounted_grows; [done|by apply I]|]. apply list_elem_of_singleton in Hx as Ex.
    destruct Hacc as [?|[?|[(e & ? & El)|(q & v & l & ? & El & Hrd & Hsel)]]].
    + left. congruence.
    + congruence.
    + right. right. left. exists e. split; [done|congruence].
    + right. right. right. exists q, v, l. split_and!; [done|congruence|apply Hrd|apply Hsel].
Qed.

Lemma follow_lotes_Ok select profile now max_bytes max_lists url root ps st st' : (forall p, p ∈ ps -> p ∈ pointers root) ->
  foldR (follow_lote select profile now max_bytes max_lists) st ps = Ok st' -> lote_inv select profile now max_lists url root st ->
  lote_inv select profile now max_lists url root st' /\ grows st st' /\
  Forall (lote_accounted select profile now url (pointers root) st') ps.
Proof using Type.
  revert st. induction ps as [|p ps IH]; intros st Hall H I; cbn [foldR] in H; [by injection H as <-|].
  apply bind_Ok in H as (st1 & H1 & H). apply (follow_lote_Ok _ _ _ _ _ url root) in H1 as (I1 & G1 & A1); [|apply Hall; left|done].
  apply IH in H as (I2 & G2 & A2); [|intros x Hx; apply Hall; by right|done]. split; [done|].
  split; [split; [etrans; [apply G1|apply G2]|etrans; [apply G1|apply G2]]|]. constructor; [by eapply lote_accounted_grows|done].
Qed.

Lemma walk_lote_Ok url certs profile sel now max_bytes max_lists set visited :
  walk_lote url certs profile sel now max_bytes max_lists = Ok (set, visited) ->
  let select := derive_select sel profile in
  (anchors set = [] /\ (exists pb, problems set = [pb] /\ pb_location pb = url) /\ visited = [url]) \/
  exists root, lote_read url certs profile now [] root /\ lote_inv select profile now max_lists url root (anchors set, problems set, visited) /\
    Forall (lote_accounted select profile now url (pointers root) (anchors set, problems set, visited)) (pointers root) /\
    forall a, a ∈ all_services root -> selected select a = true -> a ∈ anchors set.
Proof using Type.
  intros H select. unfold walk_lote in H. fold select in H. apply bind_Ok in H as (got & Hgot%lote_at_Ok & H). destruct got as [pb|root].
  { apply Ok_inj in H. injection H as <- <-. left. split_and!; [done| |done]. by exists pb. }
  apply bind_Ok in H as ([[an pb] v] & Hf & [= <- <-]). right. exists root. split; [done|].
  apply (follow_lotes_Ok _ _ _ _ _ url root) in Hf as (I & [Ga Gp] & A); [|done|].
  - split_and!; [done|done|]. intros a Ha Hs. apply Ga. by apply elem_of_selected.
  - split; cbn.
    + apply Forall_forall. intros a [Ha Hs]%elem_of_selected. split; [done|by left].
    + apply NoDup_singleton.
    + unfold len. cbn. lia.
    + intros p Hp%list_elem_of_singleton. by left.
Qed.

(** A walk under a profile keeps the services whose certificates issue. *)
Lemma derived_select_issues profile pf (a : TrustServiceAnchor L) : profile = Some pf ->
  selected (derive_select Derived profile) a = true -> service_type a ∈ anchor_service_types pf.
Proof using Type. intros ->. cbn. unfold matches. cbn. rewrite !andb_true_r. apply bool_decide_eq_true. Qed.

(** * A walk ends *)

Abbreviation structural := (errs_in (eq TrustListParseError)).

Lemma ml_strings_nonempty v names : ml_strings v = Ok names -> names <> [].
Proof using Type.
  unfold ml_strings, require_items. intros H. apply bind_Ok in H as (items & Hi & H). apply bind_Ok in Hi as (l & _ & Hi).
  apply bind_Ok in Hi as (? & Hne%raise_if_Ok & [= ->]). apply bind_Ok in H as (es & He%mapR_Ok & [= <-]).
  destruct He as [|y e ys es Hy He]; [done|]. cbn [List.filter]. destruct (bool_decide (lower e.1 = _)); [done|]. cbn.
  by intros [_ [=]]%app_eq_nil.
Qed.

Lemma require_errs v : structural (require_mapping v) /\ structural (require_list v) /\ structural (require_str v) /\ structural (require_int v) /\
  structural (require_items v).
Proof using Type.
  assert (structural (require_list v)) as Hl by (destruct v; by first [apply errs_in_Ok|apply errs_in_Err]).
  split_and!; [destruct v; by first [apply errs_in_Ok|apply errs_in_Err]|done|destruct v; by first [apply errs_in_Ok|apply errs_in_Err]..|].
  apply errs_in_bind; [done|intros]. apply errs_in_bind; [by apply errs_in_raise_if|intros; apply errs_in_Ok].
Qed.
Lemma require_mapping_errs v : structural (require_mapping v). Proof using Type. apply require_errs. Qed.
Lemma require_list_errs v : structural (require_list v). Proof using Type. apply require_errs. Qed.
Lemma require_str_errs v : structural (require_str v). Proof using Type. apply require_errs. Qed.
Lemma require_int_errs v : structural (require_int v). Proof using Type. apply require_errs. Qed.
Lemma require_items_errs v : structural (require_items v). Proof using Type. apply require_errs. Qed.
Lemma check_keys_errs obj allowed required : structural (check_keys obj allowed required).
Proof using Type. apply errs_in_bind; [by apply errs_in_raise_if|intros; by apply errs_in_raise_if]. Qed.
Lemma optional_errs {A} obj key (check : json -> result A) : (forall v, structural (check v)) -> structural (optional obj key check).
Proof using Type. intros H. unfold optional. destruct (dget obj key); [|apply errs_in_Ok]. apply errs_in_bind; [done|intros; apply errs_in_Ok]. Qed.
Local Hint Resolve require_mapping_errs require_list_errs require_str_errs require_int_errs require_items_errs check_keys_errs : lote.

(** Every structural check raises [TrustListParseError] alone. *)
Ltac structure :=
  repeat first
    [ apply errs_in_Ok | apply errs_in_Err; reflexivity | apply errs_in_raise_if; reflexivity | solve [auto with lote]
    | apply optional_errs; intros | apply errs_in_bind; [|intros] | apply mapR_errs_in; intros | apply foldR_errs_in; intros ].

Lemma reject_critical_extensions_errs v : structural (reject_critical_extensions v).
Proof using Type. unfold reject_critical_extensions. structure. Qed.
Lemma ml_uris_errs v : structural (ml_uris v).
Proof using Type. unfold ml_uris. structure. Qed.
Lemma ml_strings_errs v : structural (ml_strings v).
Proof using Type. unfold ml_strings. structure. Qed.
Lemma datetime_z_errs v : structural (datetime_z v).
Proof using Type. unfold datetime_z. structure. destruct (fromisoformat _) as [[]|]; structure. Qed.
Lemma certs_from_sdi_errs v : structural (certs_from_sdi v).
Proof using Type. unfold certs_from_sdi. structure. destruct (dget _ _); structure. Qed.
Local Hint Resolve reject_critical_extensions_errs ml_uris_errs ml_strings_errs datetime_z_errs certs_from_sdi_errs : lote.

Lemma lote_parse_pointer_errs v : structural (lote_parse_pointer v).
Proof using Type.
  unfold lote_parse_pointer. structure. 2: destruct a5 as [[] ?]; structure. unfold qualifier. destruct b as [[[] []] []]; structure. all: destruct (dmem _ _); structure.
Qed.
Lemma lote_parse_service_errs n t v : structural (lote_parse_service n t v).
Proof using Type. unfold lote_parse_service. structure. Qed.
Lemma parse_entity_errs t v : structural (parse_entity t v).
Proof using Type.
  unfold parse_entity. do 4 (apply errs_in_bind; [auto with lote|intros]). apply errs_in_bind; [auto with lote|intros names Hn].
  structure. destruct names as [|n ns]; [by apply ml_strings_nonempty in Hn|]. structure.
Qed.
Lemma check_scheme_members_errs s : structural (check_scheme_members s).
Proof using Type. unfold check_scheme_members. structure. Qed.
Local Hint Resolve lote_parse_pointer_errs parse_entity_errs check_scheme_members_errs : lote.
Lemma parse_lote_errs v : structural (parse_lote v).
Proof using Type. unfold parse_lote. structure. all: destruct (jget _ ($"NextUpdate")); structure. Qed.

Lemma parse_lote_Ok payload l : parse_lote (JDict payload) = Ok l ->
  (exists lote scheme, jget payload ($"LoTE") = JDict lote /\ jget lote ($"ListAndSchemeInformation") = JDict scheme) /\
  (exists t, issue_datetime l = Some (isoformat t)) /\ (forall m, next_update l = Some m -> exists t, m = utc t).
Proof using Type.
  unfold parse_lote. intros H. cbn [require_mapping] in H. apply bind_Ok in H as (? & [= <-] & H).
  apply bind_Ok in H as (? & _ & H). apply bind_Ok in H as (lote & Hl & H). apply bind_Ok in H as (? & _ & H).
  apply bind_Ok in H as (scheme & Hs & H). do 7 (apply bind_Ok in H as (? & _ & H)).
  apply bind_Ok in H as (t & _ & H). apply bind_Ok in H as (next & Hn & H). do 2 (apply bind_Ok in H as (? & _ & H)). injection H as <-.
  cbn [issue_datetime next_update]. split_and!.
  - exists lote, scheme. unfold require_mapping in *. destruct (jget payload _); try done. injection Hl as ->.
    destruct (jget lote _); try done. by injection Hs as ->.
  - by exists t.
  - intros m ->. destruct (jget scheme ($"NextUpdate")); [done|..]; apply bind_Ok in Hn as (u & _ & [= <-]); by exists u.
Qed.

(** What the code relies on of [datetime] and of the libraries. *)
Hypothesis iso_aware : forall t w o, fromisoformat (isoformat t) = Some (w, o) -> o <> None.
Hypothesis json_errs : forall raw, errs_in (fun e => value_or_recursion e = true) (json_loads raw).
Hypothesis verify_errs : forall alg jwk m sig, errs_in (fun e => isinstance e KeyBackendError = true) (verify_signature alg jwk m sig).
Hypothesis names_read : forall c oid, exists values, subject_values R c oid = Ok values.
Hypothesis keys_fit : forall c curve x y, public_key L c = EcKey curve x y ->
  (curve = $"secp256r1" -> 0 <= x < 2 ^ 256 /\ 0 <= y < 2 ^ 256) /\ (curve = $"secp384r1" -> 0 <= x < 2 ^ 384 /\ 0 <= y < 2 ^ 384).

Abbreviation typed := (errs_in (fun e => isinstance e TrustListError = true)).

Lemma structural_typed {A} (m : result A) : structural m -> typed m.
Proof using Type. apply errs_in_impl. by intros ? <-. Qed.
Lemma caught_typed {A} (caught : exn -> bool) e (m : result A) : isinstance e TrustListError = true -> errs_in (fun x => caught x = true) m ->
  typed (catch_as caught e m).
Proof using Type. intros He Hm. eapply errs_in_impl; [|by apply catch_as_errs]. by intros ? <-. Qed.

Lemma leaf_public_jwk_errs c : errs_in (fun e => isinstance e X5cError = true) (leaf_public_jwk L c).
Proof using keys_fit.
  unfold leaf_public_jwk. destruct (public_key L c) as [curve x y| |] eqn:E; [|apply errs_in_Ok|by apply errs_in_Err].
  destruct (keys_fit _ _ _ _ E) as [H1 H2]. unfold int_to_fixed.
  case_bool_decide as Ec; [|case_bool_decide as Ec'; [|by apply errs_in_Err]]; cbn [mbind result_bind].
  - specialize (H1 Ec). rewrite !int_to_bytes_ok by apply H1. apply errs_in_Ok.
  - specialize (H2 Ec'). rewrite !int_to_bytes_ok by apply H2. apply errs_in_Ok.
Qed.

Lemma b64decode_errs s : errs_in (eq ValueError) (b64decode s).
Proof using Type. unfold b64decode, urlsafe_b64decode. pose proof a2b_base64_errs. solve_errs. Qed.

Lemma signer_chain_errs header : typed (signer_chain header).
Proof using Type.
  unfold signer_chain. apply errs_in_bind; [by apply errs_in_raise_if|intros _ _]. generalize (jget header ($"x5c")) as v. intros v. apply errs_in_bind.
  - apply caught_typed; [done|]. unfold load_x5c_chain. destruct v as [| | | | |[|e es]| |]; try by apply errs_in_Err. apply mapR_errs_in. intros x _.
    destruct x; try by apply errs_in_Err. apply errs_in_bind; [|intros raw _; destruct (load_der L raw); [apply errs_in_Ok|by apply errs_in_Err]].
    eapply errs_in_impl; [|apply catch_as_errs]; [by intros ? <-|]. eapply errs_in_impl; [|apply b64decode_errs]. by intros ? <-.
  - intros chain H%catch_as_Ok. unfold load_x5c_chain in H. destruct v as [| | | | |[|e es]| |]; try done.
    apply mapR_Ok in H. destruct chain; [by inversion H|apply errs_in_Ok].
Qed.

Lemma authenticate_signer_errs leaf rest pinned now : typed (authenticate_signer leaf rest pinned now).
Proof using Type.
  unfold authenticate_signer. apply errs_in_bind; [by apply errs_in_raise_if|intros]. destruct (existsb _ _); [by apply errs_in_raise_if|].
  apply errs_in_bind; [|intros; apply errs_in_Ok]. apply caught_typed; [done|]. unfold validate_cert_chain.
  apply errs_in_bind; [by apply errs_in_raise_if|intros]. apply errs_in_bind; [by apply errs_in_raise_if|intros; apply errs_in_Ok].
Qed.

Lemma check_signer_dn_errs leaf scheme territory : typed (check_signer_dn leaf scheme territory).
Proof using names_read.
  unfold check_signer_dn. apply errs_in_bind; [apply structural_typed, ml_strings_errs|intros].
  destruct (names_read leaf ORGANIZATION_NAME) as [? ->], (names_read leaf COUNTRY_NAME) as [? ->]. cbn [mbind result_bind].
  apply errs_in_bind; [by apply errs_in_raise_if|intros]. destruct territory; [by apply errs_in_raise_if|apply errs_in_Ok].
Qed.

Lemma check_profile_errs l lote p scheme t : jget lote ($"ListAndSchemeInformation") = JDict scheme -> issue_datetime l = Some (isoformat t) ->
  (forall m, next_update l = Some m -> exists t, m = utc t) -> typed (check_profile l lote p).
Proof using iso_aware.
  intros E Ei Hn. unfold check_profile. rewrite E, Ei. cbn [default from_option].
  do 3 (apply errs_in_bind; [by apply errs_in_raise_if|intros]). apply errs_in_bind.
  { destruct (dget scheme _); [apply structural_typed, ml_uris_errs|apply errs_in_Ok]. }
  intros rules _. do 3 (apply errs_in_bind; [by apply errs_in_raise_if|intros]).
  destruct (fromisoformat _) as [[w o]|] eqn:Eiso; [|by apply errs_in_Err]. apply iso_aware in Eiso. apply errs_in_bind.
  - destruct (next_update l) as [m|] eqn:En; [|apply errs_in_Ok]. destruct (Hn m) as [u ->]; [done|].
    unfold plus_months. cbn [fst snd]. destruct (date_of w) as [[y mo] d]. apply errs_in_bind.
    + apply caught_typed; [done|]. apply errs_in_bind; [|intros; apply errs_in_Ok]. unfold replace_date, datetime, datetime_us.
      repeat (apply errs_in_bind; [|intros; apply errs_in_Ok]). by apply errs_in_raise_if.
    + intros c Hc%catch_as_Ok. apply bind_Ok in Hc as (wall & _ & [= <-]). destruct o; [|done]. cbn. by apply errs_in_raise_if.
  - intros _ _. do 1 (apply errs_in_bind; [by apply errs_in_raise_if|intros]). by apply errs_in_raise_if.
Qed.

Lemma consume_lote_errs token certs profile now max_bytes : typed (consume_lote token certs profile now max_bytes).
Proof using json_errs verify_errs names_read keys_fit iso_aware.
  unfold consume_lote. do 2 (apply errs_in_bind; [by apply errs_in_raise_if|intros]).
  apply errs_in_bind; [apply caught_typed; [done|by apply parse_compact_errs]|]. intros [[[header payload] si] sig] _.
  destruct (allowed_alg _ _) as [alg|]; [|by apply errs_in_Err]. apply errs_in_bind.
  { unfold lote_reject_unknown_crit. destruct (dget header _) as [[| | | | |[|c cs]| |]|]; try (by apply errs_in_Err); [|apply errs_in_Ok].
    do 2 (apply errs_in_bind; [by apply errs_in_raise_if|intros]). by apply errs_in_raise_if. }
  intros _ _. apply errs_in_bind; [apply signer_chain_errs|intros [leaf rest] _]. apply errs_in_bind; [apply authenticate_signer_errs|intros _ _].
  apply errs_in_bind; [apply caught_typed; [done|apply leaf_public_jwk_errs]|intros]. apply errs_in_bind; [by apply caught_typed|intros].
  apply errs_in_bind; [by apply errs_in_raise_if|intros]. apply errs_in_bind; [apply structural_typed, parse_lote_errs|intros l Hl].
  apply parse_lote_Ok in Hl as ((lote & scheme & -> & E) & (t & Ei) & Hn). rewrite E.
  apply errs_in_bind; [apply check_signer_dn_errs|intros _ _]. apply errs_in_bind; [|intros; apply errs_in_Ok].
  destruct profile; [by eapply check_profile_errs|apply errs_in_Ok].
Qed.

Lemma lote_at_total url certs profile now max_bytes visited : exists got, lote_at url certs profile now max_bytes visited = Ok got.
Proof using json_errs verify_errs names_read keys_fit iso_aware.
  unfold lote_at. destruct (fetch visited url); [|by eexists]. destruct (consume_lote _ _ _ _ _) as [l|e] eqn:E.
  - unfold stale. assert (forall m, next_update l = Some m -> exists t, m = utc t) as Hn.
    { intros m Em. apply consume_lote_Ok in E as [(? & ? & ? & ? & ? & ? & ? & ? & ? & ? & ? & ? & ? & ? & ? & ? & ? & Hl & ?) _].
      apply parse_lote_Ok in Hl as (_ & _ & Hn). by apply Hn. }
    destruct (next_update l) as [m|]; [|by eexists]. destruct (Hn m) as [t ->]; [done|]. cbn. destruct (_ <? _); by eexists.
  - apply consume_lote_errs in E. rewrite E. by eexists.
Qed.

Lemma follow_lotes_total select profile now max_bytes max_lists ps : forall st,
  exists st', foldR (follow_lote select profile now max_bytes max_lists) st ps = Ok st'.
Proof using json_errs verify_errs names_read keys_fit iso_aware.
  induction ps as [|p ps IH]; intros st; [by eexists|]. cbn [foldR].
  assert (exists st1, follow_lote select profile now max_bytes max_lists st p = Ok st1) as [st1 ->]; [|apply IH].
  destruct st as [[an pb] visited]. unfold follow_lote. do 4 (lazymatch goal with |- exists _, (if ?b then _ else _) = _ => destruct b; [by eexists|] end).
  destruct (lote_at_total (location p) (signer_certs p) profile now max_bytes visited) as [got ->]. by eexists.
Qed.

Lemma walk_lote_returns url certs profile sel now max_bytes max_lists :
  exists set visited, walk_lote url certs profile sel now max_bytes max_lists = Ok (set, visited).
Proof using json_errs verify_errs names_read keys_fit iso_aware.
  unfold walk_lote. destruct (lote_at_total url certs profile now max_bytes []) as [[pb|root] ->]; [by eexists _, _|]. cbn [mbind result_bind].
  destruct (follow_lotes_total (derive_select sel profile) profile now max_bytes max_lists (pointers root)
    (List.filter (selected (derive_select sel profile)) (all_services root), [], [url])) as [[[an pb] v] ->]. by eexists _, _.
Qed.
End lote.


(** No list aborts a walk.  With a JSON reader, a signature verifier, a certificate library
    and a date reader that behave as documented, [walk_lote] returns, whatever the lists fetched
    hold and whatever [fetch] raises: a list that cannot be fetched, verified or parsed, that does
    not conform or is stale contributes its problem, and the others their anchors. *)
Theorem walk_lote_total (lower : pystr -> pystr) is_decimal fromisoformat (L : x509_library) R der json_loads verify_signature fetch
    url certs profile sel now max_bytes max_lists
  (Hiso : forall t w o, fromisoformat (isoformat t) = Some (w, o) -> o <> None)
  (Hjson : forall raw, errs_in (fun e => value_or_recursion e = true) (json_loads raw))
  (Hverify : forall alg jwk m sig, errs_in (fun e => isinstance e KeyBackendError = true) (verify_signature alg jwk m sig))
  (Hnames : forall c oid, exists values, subject_values R c oid = Ok values)
  (Hkeys : forall c curve x y, public_key L c = EcKey curve x y ->
     (curve = $"secp256r1" -> 0 <= x < 2 ^ 256 /\ 0 <= y < 2 ^ 256) /\ (curve = $"secp384r1" -> 0 <= x < 2 ^ 384 /\ 0 <= y < 2 ^ 384)) :
  exists set visited,
    walk_lote lower is_decimal fromisoformat L R der json_loads verify_signature fetch url certs profile sel now max_bytes max_lists
    = Ok (set, visited).
Proof. by apply walk_lote_returns. Qed.

(** ** Examples *)

Definition example_x509 : x509_library :=
  {| cert := bytes; load_der := fun der => match der with [] => None | _ => Some der end; san := fun _ => Ok None;
     extended_key_usage := fun _ => Ok None; public_key := fun c => Ed25519Key c; not_valid_before := fun _ => 0;
     not_valid_after := fun _ => 100; verify_path := fun anchors _ leaf _ => bool_decide (leaf ∈ anchors) |}.
Definition example_names : rp_library example_x509 := {|
  load_pem := fun _ => None;
  subject_values := fun _ oid => Ok (if bool_decide (oid = ORGANIZATION_NAME) then [Some ($"Op")] else [Some ($"EU")]);
  rfc4514_string := fun _ => Ok []; serial_hex := fun _ => Ok ($"1"); policies := fun _ => Ok None; information_access := fun _ => Ok None |}.
Definition example_number (s : pystr) : Z := fold_left (fun n c => n * 10 + (c - 48)) s 0.
Definition example_iso (s : pystr) : option (Z * option Z) :=
  match datetime (example_number (take 4 s)) (example_number (take 2 (drop 5 s))) (example_number (take 2 (drop 8 s)))
          (example_number (take 2 (drop 11 s))) (example_number (take 2 (drop 14 s))) (example_number (take 2 (drop 17 s))) with
  | Ok t => Some (t, Some 0)
  | Err _ => None
  end.
Definition example_ml (key text : pystr) : json := JList [JDict [($"lang", JStr ($"en")); (key, JStr text)]].
Definition example_sdi : json := JDict [($"X509Certificates", JList [JDict [($"val", JStr ($"Bw=="))]])].
Definition example_service (type : pystr) : json :=
  JDict [($"ServiceInformation", JDict [($"ServiceName", example_ml ($"value") ($"S")); ($"ServiceDigitalIdentity", example_sdi);
                                        ($"ServiceTypeIdentifier", JStr type)])].
Definition example_entity : json :=
  JDict [($"TrustedEntityInformation", JDict [($"TEName", example_ml ($"value") ($"T")); ($"TEAddress", JDict []);
                                             ($"TEInformationURI", example_ml ($"uriValue") ($"https://t"))]);
         ($"TrustedEntityServices", JList [example_service WRPAC_ISSUANCE; example_service WRPAC_REVOCATION])].
Definition example_pointer (url type : pystr) : json :=
  JDict [($"LoTELocation", JStr url); ($"ServiceDigitalIdentities", JList [example_sdi]);
         ($"LoTEQualifiers", JList [JDict [($"LoTEType", JStr type); ($"SchemeOperatorName", JNull); ($"MimeType", JStr ($"json"))]])].
Definition example_scheme : jobject :=
  [($"LoTEVersionIdentifier", JInt 1); ($"LoTESequenceNumber", JInt 7); ($"LoTEType", JStr EU_WRPAC_PROVIDERS);
   ($"SchemeOperatorName", example_ml ($"value") ($"Op")); ($"SchemeTerritory", JStr ($"EU"));
   ($"StatusDeterminationApproach", JStr (URI_19602 ++ $"/WRPACProvidersList/StatusDetn/EU"));
   ($"SchemeTypeCommunityRules", example_ml ($"uriValue") (URI_19602 ++ $"/WRPACProvidersList/schemerules/EU"));
   ($"ListIssueDateTime", JStr ($"2026-08-31T00:00:00Z")); ($"NextUpdate", JStr ($"2027-02-28T00:00:00Z"));
   ($"PointersToOtherLoTE", JList [example_pointer ($"root") EU_WRPAC_PROVIDERS; example_pointer ($"down") EU_WRPAC_PROVIDERS;
                                   example_pointer ($"other") EU_WRPRC_PROVIDERS])].
Definition example_lote : json :=
  JDict [($"LoTE", JDict [($"ListAndSchemeInformation", JDict example_scheme); ($"TrustedEntitiesList", JList [example_entity])])].
Definition example_loads (raw : bytes) : result json :=
  Ok (if bool_decide (raw = $"h") then JDict [($"alg", JStr ($"EdDSA")); ($"x5c", JList [JStr ($"Bw==")])] else example_lote).
Definition example_fetch (_ : list pystr) (url : pystr) : result bytes := if bool_decide (url = $"down") then Err OSError else Ok ($"aA.cA.cw").
Definition example_walk (now : Z) : result (TrustAnchorSet example_x509 * list pystr) :=
  walk_lote id (fun c => (48 <=? c) && (c <=? 57)) example_iso example_x509 example_names id example_loads (fun _ _ _ _ => Ok true)
    example_fetch ($"root") [[7] : cert example_x509] (Some EU_WRPAC_PROVIDERS_PROFILE) Derived now DEFAULT_MAX_BYTES 8.


Lemma walk_lote_total_witness : exists set visited, example_walk 500 = Ok (set, visited) /\ anchors set = [] /\
  problems set = [{| pb_location := $"root"; stage := $"signature" |}].
Proof.
  assert (T : exists set visited, example_walk 500 = Ok (set, visited)).
  { apply walk_lote_total.
    - intros t w o Ho. unfold example_iso in Ho. destruct (datetime _ _ _ _ _ _); [injection Ho as <- <-; discriminate|discriminate Ho].
    - intros raw e He. discriminate He.
    - intros alg jwk m sig e He. discriminate He.
    - intros c oid. eexists. reflexivity.
    - intros c curve x y Hk. discriminate Hk. }
  destruct T as (set & v & E). exists set, v. split; [exact E|]. vm_compute in E. apply Ok_inj in E. injection E as <- <-. split; reflexivity.
Defined.
