(* ===== verification/Fetch.v ===== *)
(** [openvc.fetch] (src/src/openvc/fetch.py): the guarded https fetch.

    The world is a resolver, a connection and a monotonic clock; the state is the log of what was
    asked of them.  [ipaddress] is one record per address; a time is in ticks of the clock.  The
    asynchronous twins run the same functions on a thread. *)
From S2P Require Import Prelude Errors Effects PyStr Json Did VcJwt Urllib.

Definition DEFAULT_TIMEOUT_S : Z := 10.
Definition MAX_RESPONSE_BYTES : Z := 1048576.
Definition REDIRECT_STATUSES : list Z := [301; 302; 303; 307; 308].

(** An [ipaddress] object: its text, and what it says of the address. *)
Record ip_address := {
  ip_text : pystr; is_ipv6 : bool; scope_id : option pystr; is_private : bool; is_loopback : bool; is_link_local : bool;
  is_reserved : bool; is_multicast : bool; is_unspecified : bool; is_global : bool; is_site_local : bool }.

Inductive net_event := Resolve (host : pystr) (port : Z) | Connect (host ip : pystr) (port : Z) (target : pystr) | Read (n : Z) | Tick.

#[export] Instance net_event_eq_dec : EqDecision net_event.
Proof. solve_decision. Defined.

(** ** [urlparse] of an ASCII string *)

(** What [urlsplit] drops: leading control characters and spaces, and tabs and newlines anywhere. *)
Definition sanitize (url : pystr) : pystr :=
  filter (fun c => c <> 9 /\ c <> 10 /\ c <> 13) (lstrip_space (fun c => c <=? 32) url).

(** The parameters of the last segment are not part of the path. *)
Definition uses_params : list pystr :=
  [$""; $"ftp"; $"hdl"; $"prospero"; $"http"; $"https"; $"shttp"; $"rtsp"; $"rtsps"; $"sip"; $"sips"; $"mms"; $"sftp"; $"tel"].
Definition drop_params (url : pystr) : pystr :=
  if bool_decide (47 ∈ url) then let '(front, segment) := rpartition 47 url in front ++ 47 :: (partition 59 segment).1
  else (partition 59 url).1.

Section fetch.
Context (ipv6 : pystr -> bool) (ip_of : pystr -> option ip_address).

Definition urlparse (url : pystr) : result SplitResult :=
  u ← urlsplit ipv6 (sanitize url);
  Ok {| scheme := scheme u; netloc := netloc u; path := if bool_decide (scheme u ∈ uses_params) then drop_params (path u) else path u;
        query := query u; fragment_of := fragment_of u |}.

Definition ip_is_forbidden (ip_str : pystr) : result bool :=
  match ip_of ip_str with
  | None => Err ValueError
  | Some ip => Ok (is_private ip || is_loopback ip || is_link_local ip || is_reserved ip || is_multicast ip || is_unspecified ip ||
                   negb (is_global ip) || (is_ipv6 ip && is_site_local ip))
  end.

(** [socket.getaddrinfo], the connection and its answer's status, [read1], [time.monotonic]. *)
Context (getaddrinfo : list net_event -> pystr -> Z -> result (list pystr)).
Context (https_connect : list net_event -> pystr -> pystr -> Z -> pystr -> result Z).
Context (read1 : list net_event -> Z -> result bytes) (monotonic : list net_event -> Z).

Abbreviation net := (io exn (list net_event)).
Definition ask {A} (e : net_event) (world : list net_event -> result A) : net A :=
  fun t => (match world t with Ok a => Done a | Err x => Failed x end, t ++ [e]).

Definition check_public (addr : pystr) : result unit := bad ← ip_is_forbidden addr; raise_if bad UnsafeUrlError.

Definition resolve_public_ips (host : pystr) (port : Z) : net (list pystr) :=
  ips ← rethrow (fun e => if isinstance e GaiError || isinstance e ValueError then UnsafeUrlError else e)
          (ask (Resolve host port) (fun t => getaddrinfo t host port));
  _ ← raise_when (match ips with [] => true | _ => false end) UnsafeUrlError;
  _ ← lift_result (mapR check_public ips);
  mret ips.

(** The body, a chunk at a time, at most [remaining] bytes of it. *)
Fixpoint read_body (fuel : nat) (deadline remaining : Z) (chunks : bytes) : net bytes :=
  match fuel with
  | O => mret chunks
  | S fuel =>
      if remaining <=? 0 then mret chunks
      else
        now ← ask Tick (fun t => Ok (monotonic t));
        _ ← raise_when (deadline <? now) DidResolutionError;
        chunk ← ask (Read (Z.min remaining 65536)) (fun t => read1 t (Z.min remaining 65536));
        match chunk with
        | [] => mret chunks
        | _ => read_body fuel deadline (remaining - len chunk) (chunks ++ chunk)
        end
  end.

Definition https_get (host ip : pystr) (port : Z) (target : pystr) (timeout max_bytes : Z) : net (Z * bytes) :=
  rethrow (fun e => if isinstance e OSError || isinstance e HTTPException || isinstance e ValueError then DidResolutionError else e)
    (status ← ask (Connect host ip port target) (fun t => https_connect t host ip port target);
     now ← ask Tick (fun t => Ok (monotonic t));
     body ← read_body (S (S (Z.to_nat max_bytes))) (now + timeout) (max_bytes + 1) [];
     mret (status, body)).

(** [parsed.port or 443]. *)
Definition port_or_443 (p : option Z) : Z := match p with None | Some 0 => 443 | Some p => p end.

Definition https_fetch_guarded (url : pystr) (timeout_s max_bytes : Z) : net bytes :=
  _ ← raise_when (negb (isascii url)) UnsafeUrlError;
  '(parsed, host, port) ← lift_result (catch_as (fun e => isinstance e ValueError) UnsafeUrlError
     (parsed ← urlparse url; p ← port parsed; Ok (parsed, default [] (hostname parsed), port_or_443 p)));
  _ ← raise_when (negb (bool_decide (scheme parsed = $"https"))) UnsafeUrlError;
  _ ← raise_when (bool_decide (host = [])) UnsafeUrlError;
  _ ← raise_when (253 <? len host) UnsafeUrlError;
  _ ← raise_when (existsb (fun c => (c <? 33) || (c =? 127)) host) UnsafeUrlError;
  ips ← resolve_public_ips host port;
  ip ← lift_result (match ips with ip :: _ => Ok ip | [] => Err IndexError end);
  let target := (match path parsed with [] => [47] | p => p end) ++ match query parsed with [] => [] | q => 63 :: q end in
  '(status, raw) ← https_get host ip port target timeout_s max_bytes;
  _ ← raise_when (bool_decide (status ∈ REDIRECT_STATUSES)) UnsafeUrlError;
  _ ← raise_when (negb (status =? 200)) DidResolutionError;
  _ ← raise_when (max_bytes <? len raw) DidResolutionError;
  mret raw.

Context (json_loads : bytes -> result json) (utf8_decode : bytes -> result pystr).

Definition https_json_fetch (url : pystr) (timeout_s max_bytes : Z) : net jobject :=
  raw ← https_fetch_guarded url timeout_s max_bytes;
  data ← lift_result (catch_as value_or_recursion DidResolutionError (json_loads raw));
  match data with JDict d => mret d | _ => raise DidResolutionError end.

Definition https_text_fetch (url : pystr) (timeout_s max_bytes : Z) : net pystr :=
  raw ← https_fetch_guarded url timeout_s max_bytes;
  lift_result (catch_as (fun e => isinstance e UnicodeDecodeError) DidResolutionError (utf8_decode raw)).

Definition https_bytes_fetch (url : pystr) (timeout_s max_bytes : Z) : net bytes := https_fetch_guarded url timeout_s max_bytes.
End fetch.

(** * What the guard lets through *)

Section guarded.
Context (ipv6 : pystr -> bool) (ip_of : pystr -> option ip_address).
Context (getaddrinfo : list net_event -> pystr -> Z -> result (list pystr)).
Context (https_connect : list net_event -> pystr -> pystr -> Z -> pystr -> result Z).
Context (read1 : list net_event -> Z -> result bytes) (monotonic : list net_event -> Z).

Definition is_connect (e : net_event) : bool := match e with Connect _ _ _ _ => true | _ => false end.

(** A URL the guard admits, its host and its port. *)
Definition admitted (url : pystr) (parsed : SplitResult) (host : pystr) (p : Z) : Prop :=
  isascii url = true /\ urlparse ipv6 url = Ok parsed /\ scheme parsed = $"https" /\ host <> [] /\ hostname parsed = Some host /\
  len host <= 253 /\ Forall (fun c => 33 <= c /\ c <> 127) host /\ (exists o, port parsed = Ok o /\ p = port_or_443 o).

(** A connection goes to the first address the name resolved to, once, just before; and no
    address it resolved to is one the rules forbid. *)
Definition safe_event (url : pystr) (t : list net_event) (e : net_event) : Prop :=
  match e with
  | Connect host ip p target => exists parsed t0 ips,
      t = t0 ++ [Resolve host p] /\ admitted url parsed host p /\ getaddrinfo t0 host p = Ok (ip :: ips) /\
      Forall (fun a => ip_is_forbidden ip_of a = Ok false) (ip :: ips)
  | _ => True
  end.

Abbreviation safe url := (preserves (X := exn) (logs (safe_event url))).

Lemma safe_ask {A} url e (world : list net_event -> result A) : is_connect e = false -> safe url (ask e world).
Proof using Type. intros He t. apply logs_one. by destruct e. Qed.

Lemma safe_read_body url fuel : forall deadline remaining chunks, safe url (read_body read1 monotonic fuel deadline remaining chunks).
Proof using Type.
  induction fuel as [|fuel IH]; intros deadline remaining chunks; cbn [read_body]; [apply preserves_ret, _|].
  destruct (remaining <=? 0); [apply preserves_ret, _|].
  apply preserves_bind; [apply _|by apply safe_ask|intros now]. apply preserves_bind; [apply _|apply preserves_raise_when, _|intros _].
  apply preserves_bind; [apply _|by apply safe_ask|intros chunk]. destruct chunk; [apply preserves_ret, _|apply IH].
Qed.

Lemma resolve_public_ips_Done host p t ips t' : resolve_public_ips ip_of getaddrinfo host p t = (Done ips, t') ->
  ips <> [] /\ t' = t ++ [Resolve host p] /\ getaddrinfo t host p = Ok ips /\ Forall (fun a => ip_is_forbidden ip_of a = Ok false) ips.
Proof using Type.
  unfold resolve_public_ips. intros H. apply io_bind_Done in H as (got & t1 & Hg & H). apply rethrow_Done in Hg.
  apply io_bind_Done in H as (? & t2 & Hn & H). apply raise_when_Done in Hn as [Hn ->].
  apply io_bind_Done in H as (units & t3 & Hc & H). apply lift_result_Done in Hc as [Hc%mapR_Ok ->]. apply io_ret_Done in H as [-> ->].
  unfold ask in Hg. destruct (getaddrinfo t host p) as [l|] eqn:E; [|done]. injection Hg as <- <-.
  split_and!; [by destruct l|done|done|]. clear -Hc. induction Hc as [|a u l us Ha _ IH]; constructor; [|done].
  unfold check_public in Ha. apply bind_Ok in Ha as (bad & Hb & ->%raise_if_Ok). done.
Qed.

(** After the connection nothing connects again. *)
Lemma https_get_safe url host ip p target timeout max_bytes t :
  safe_event url t (Connect host ip p target) ->
  logs (safe_event url) t (https_get https_connect read1 monotonic host ip p target timeout max_bytes t).2 /\
  exists new, (https_get https_connect read1 monotonic host ip p target timeout max_bytes t).2 = t ++ Connect host ip p target :: new /\
    Forall (fun e => is_connect e = false) new.
Proof using Type.
  intros Hs. unfold https_get, rethrow.
  set (m := _ ≫= _). assert (logs (safe_event url) t (m t).2 /\ exists new, (m t).2 = t ++ Connect host ip p target :: new /\
    Forall (fun e => is_connect e = false) new) as H; [|by destruct (m t)].
  set (t1 := t ++ [Connect host ip p target]). assert (logs (safe_event url) t t1) as Hl by (by apply logs_one).
  set (rest := fun status : Z => now ← ask Tick (fun t => Ok (monotonic t));
    body ← read_body read1 monotonic (S (S (Z.to_nat max_bytes))) (now + timeout) (max_bytes + 1) []; mret (status, body)).
  assert (m t = match https_connect t host ip p target with Ok status => rest status t1 | Err e => (Failed e, t1) end) as ->.
  { subst m. unfold mbind at 1, io_bind at 1. unfold ask at 1. by destruct (https_connect t host ip p target). }
  destruct (https_connect t host ip p target) as [status|e]; cbn [snd].
  2:{ split; [done|]. exists []. by split. }
  assert (Hq : preserves (X := exn) (logs (fun _ e => is_connect e = false)) (rest status)).
  { unfold rest. apply preserves_bind; [apply _|intros s; by apply logs_one|intros now]. apply preserves_bind; [apply _| |intros; apply preserves_ret, _].
    generalize (max_bytes + 1), (@nil Z). generalize (S (S (Z.to_nat max_bytes))). intros fuel.
    induction fuel as [|fuel IH]; intros remaining chunks; cbn [read_body]; [apply preserves_ret, _|].
    destruct (remaining <=? 0); [apply preserves_ret, _|].
    apply preserves_bind; [apply _|intros s; by apply logs_one|intros]. apply preserves_bind; [apply _|apply preserves_raise_when, _|intros _].
    apply preserves_bind; [apply _|intros s; by apply logs_one|intros chunk]. destruct chunk; [apply preserves_ret, _|apply IH]. }
  specialize (Hq t1). split.
  - etrans; [done|]. eapply logs_mono; [|exact Hq]. by intros ? [].
  - destruct Hq as (new & -> & Hn). exists new. split; [unfold t1; by rewrite <- app_assoc|].
    apply Forall_forall. intros e (pre & post & ->)%list_elem_of_split. by eapply Hn.
Qed.
End guarded.

(** A run that stops before it connects. *)
Definition quiet (new : list net_event) : Prop := Forall (fun e => is_connect e = false) new.

Section theorem.
Context (ipv6 : pystr -> bool) (ip_of : pystr -> option ip_address).
Context (getaddrinfo : list net_event -> pystr -> Z -> result (list pystr)).
Context (https_connect : list net_event -> pystr -> pystr -> Z -> pystr -> result Z).
Context (read1 : list net_event -> Z -> result bytes) (monotonic : list net_event -> Z).
Context (url : pystr) (timeout max_bytes : Z).

Definition fetched (t : list net_event) (r : outcome exn bytes) (t' : list net_event) : Prop :=
  logs (safe_event ipv6 ip_of getaddrinfo url) t t' /\
  exists new, t' = t ++ new /\ (quiet new \/ exists pre host ip p target post, new = pre ++ Connect host ip p target :: post /\ quiet pre /\ quiet post) /\
    forall raw, r = Done raw -> len raw <= max_bytes /\ exists pre host ip p target post,
      new = pre ++ Connect host ip p target :: post /\ https_connect (t ++ pre) host ip p target = Ok 200.

Lemma fetched_stop t x : fetched t (Failed x) t.
Proof using Type. split; [reflexivity|]. exists []. rewrite app_nil_r. split; [done|]. split; [left; constructor|done]. Qed.

Lemma https_fetch_guarded_ok t :
  let '(r, t') := https_fetch_guarded ipv6 ip_of getaddrinfo https_connect read1 monotonic url timeout max_bytes t in fetched t r t'.
Proof using Type.
  unfold https_fetch_guarded.
  rewrite bind_raise_when. destruct (isascii url) eqn:Ea; cbn [negb]; [|apply fetched_stop].
  rewrite bind_lift_result. destruct (catch_as _ _ _) as [[[parsed host] p]|x] eqn:Ep; [|apply fetched_stop].
  apply catch_as_Ok in Ep. apply bind_Ok in Ep as (parsed' & Eu & Ep). apply bind_Ok in Ep as (o & Eo & [= -> <- <-]).
  set (p := port_or_443 o). rewrite bind_raise_when. destruct (bool_decide (scheme parsed = _)) eqn:Es; cbn [negb]; [|apply fetched_stop].
  apply bool_decide_eq_true in Es. rewrite bind_raise_when.
  destruct (hostname parsed) as [host|] eqn:Eh; cbn [default from_option]; unfold id; [|apply fetched_stop].
  case_bool_decide as Hne; [apply fetched_stop|]. rewrite bind_raise_when.
  destruct (253 <? len host) eqn:El; [apply fetched_stop|]. rewrite bind_raise_when.
  destruct (existsb _ host) eqn:Ec; [apply fetched_stop|].
  assert (admitted ipv6 url parsed host p) as Hadm.
  { split_and!; try done; [lia| |by exists o]. rewrite existsb_false_Forall in Ec. eapply Forall_impl; [exact Ec|]. cbn. lia. }
  assert (Hres : forall r t1, resolve_public_ips ip_of getaddrinfo host p t = (r, t1) -> t1 = t ++ [Resolve host p]).
  { unfold resolve_public_ips, rethrow, ask. intros r t1. unfold mbind, io_bind. destruct (getaddrinfo t host p) as [l|]; [|by intros [= <- <-]].
    unfold raise_when. destruct l as [|a l]; [by intros [= <- <-]|]. generalize (mapR (check_public ip_of) (a :: l)). unfold lift_result, mret, io_ret. intros [us|e]; cbn; congruence. }
  rewrite bind_run. destruct (resolve_public_ips ip_of getaddrinfo host p t) as [[ips|x] t1] eqn:Er; specialize (Hres _ _ eq_refl); subst t1.
  2:{ split; [by apply logs_one|]. eexists. split; [done|]. split; [left; by constructor|done]. }
  apply resolve_public_ips_Done in Er as (Hips & _ & Eg & Hpub). destruct ips as [|ip ips]; [done|].
  rewrite (bind_lift_result (Ok ip)), bind_run. set (target := _ ++ _). set (t1 := t ++ [Resolve host p]).
  destruct (https_get_safe ipv6 ip_of getaddrinfo https_connect read1 monotonic url host ip p target timeout max_bytes t1) as (Hlogs & new & Hn & Hq).
  { exists parsed, t, ips. split_and!; done. }
  assert (Hl1 : logs (safe_event ipv6 ip_of getaddrinfo url) t t1) by (by apply logs_one).
  destruct (https_get https_connect read1 monotonic host ip p target timeout max_bytes t1) as [[[status raw]|x] t2] eqn:Eget; cbn [snd] in Hlogs, Hn; subst t2.
  - assert (Hend : forall r, (forall raw', r = Done raw' -> raw' = raw /\ len raw <= max_bytes /\ status = 200) ->
      fetched t r (t1 ++ Connect host ip p target :: new)).
    { intros r Hr. split; [by etrans|]. exists (Resolve host p :: Connect host ip p target :: new). split; [unfold t1; by rewrite <- app_assoc|].
      split; [right; exists [Resolve host p], host, ip, p, target, new; split_and!; [done|by constructor|done]|].
      intros raw' (-> & Hlen & ->)%Hr. split; [done|]. exists [Resolve host p], host, ip, p, target, new. split; [done|].
      unfold https_get in Eget. apply rethrow_Done, io_bind_Done in Eget as (st & t3 & Hc & Eget). unfold ask in Hc. fold t1.
      destruct (https_connect t1 host ip p target) as [st'|]; [|done]. injection Hc as <- <-. apply io_bind_Done in Eget as (? & ? & _ & Eget).
      apply io_bind_Done in Eget as (? & ? & _ & Eget). apply io_ret_Done in Eget as [[= <- _] _]. done. }
    rewrite bind_raise_when. case_bool_decide; [by apply Hend|]. rewrite bind_raise_when.
    destruct (Z.eqb_spec status 200) as [->|]; cbn [negb]; [|by apply Hend]. rewrite bind_raise_when.
    destruct (max_bytes <? len raw) eqn:Em; [by apply Hend|].
    apply Hend. intros raw' [= <-]. split_and!; [done|lia|done].
  - split; [by etrans|]. exists (Resolve host p :: Connect host ip p target :: new). split; [unfold t1; by rewrite <- app_assoc|].
    split; [right; exists [Resolve host p], host, ip, p, target, new; split_and!; [done|by constructor|done]|done].
Qed.
End theorem.

(** ** The bounded read *)

Section bounded.
Context (read1 : list net_event -> Z -> result bytes) (monotonic : list net_event -> Z).
(** [read1(n)] returns at most [n] bytes. *)
Hypothesis read1_at_most : forall t n chunk, 0 < n -> read1 t n = Ok chunk -> len chunk <= n.

Lemma read_body_bounded fuel : forall deadline remaining chunks t body t',
  read_body read1 monotonic fuel deadline remaining chunks t = (Done body, t') -> len body <= len chunks + Z.max 0 remaining.
Proof using read1_at_most.
  induction fuel as [|fuel IH]; intros deadline remaining chunks t body t'; cbn [read_body].
  { intros [-> ->]%io_ret_Done. lia. }
  destruct (Z.leb_spec remaining 0); [intros [-> ->]%io_ret_Done; lia|].
  intros (now & t1 & _ & Hb)%io_bind_Done. apply io_bind_Done in Hb as (? & t2 & _ & Hb). apply io_bind_Done in Hb as (chunk & t3 & Hr & Hb).
  unfold ask in Hr. destruct (read1 t2 _) as [c|] eqn:Ec; [|done]. injection Hr as <- <-. apply read1_at_most in Ec; [|lia].
  destruct c as [|b c]; [apply io_ret_Done in Hb as [-> ->]; lia|]. apply IH in Hb. revert Hb. unfold len in *. rewrite length_app. lia.
Qed.

(** A fuel past what remains is never used up: the read ends. *)
Lemma read_body_ends fuel k : forall deadline remaining chunks t, (Z.to_nat remaining < fuel)%nat ->
  read_body read1 monotonic (fuel + k) deadline remaining chunks t = read_body read1 monotonic fuel deadline remaining chunks t.
Proof using Type.
  clear read1_at_most. induction fuel as [|fuel IH]; intros deadline remaining chunks t Hf; [lia|]. cbn [Nat.add read_body].
  destruct (Z.leb_spec remaining 0); [done|]. do 2 rewrite bind_run. destruct (ask Tick _ t) as [[now|x] t1]; [|done].
  rewrite !bind_raise_when. destruct (deadline <? now); [done|]. do 2 rewrite bind_run.
  destruct (ask _ _ t1) as [[chunk|x] t2]; [|done]. destruct chunk as [|b c]; [done|]. apply IH. unfold len. cbn [length]. lia.
Qed.
End bounded.

(** C25: The guarded fetch connects where it checked.  Whatever the resolver, the server and the
    clock answer, [_https_fetch_guarded] makes at most one connection; it makes it for an ASCII
    https URL with a host of at most 253 characters, none of them a space or a control character;
    the address it connects to is the first of those the name resolved to just before, and none
    of those addresses is one the rules forbid; and a body it returns came with status 200, so
    after no redirect, and is within the cap. *)
Theorem https_fetch_connects_safely ipv6 ip_of getaddrinfo https_connect read1 monotonic url timeout_s max_bytes t :
  let '(r, t') := https_fetch_guarded ipv6 ip_of getaddrinfo https_connect read1 monotonic url timeout_s max_bytes t in
  fetched ipv6 ip_of getaddrinfo https_connect url max_bytes t r t'.
Proof. apply https_fetch_guarded_ok. Qed.

(** A body is read within its cap.  With a connection whose [read1(n)] returns at most [n]
    bytes, the read of a body ends (more fuel changes nothing), and never holds more than one
    byte past the cap, however much the server sends. *)
Theorem https_body_bounded (read1 : list net_event -> Z -> result bytes) monotonic deadline max_bytes k t
  (Hread : forall t n chunk, 0 < n -> read1 t n = Ok chunk -> len chunk <= n) (Hcap : 0 <= max_bytes) :
  let fuel := S (S (Z.to_nat max_bytes)) in
  read_body read1 monotonic (fuel + k) deadline (max_bytes + 1) [] t = read_body read1 monotonic fuel deadline (max_bytes + 1) [] t /\
  forall body t', read_body read1 monotonic fuel deadline (max_bytes + 1) [] t = (Done body, t') -> len body <= max_bytes + 1.
Proof.
  split; [apply read_body_ends; lia|]. intros body t' H. apply read_body_bounded in H; [|done]. unfold len in *. cbn in H. lia.
Qed.

(** ** Examples *)

Definition example_ip (s : pystr) : option ip_address :=
  let address private := Some {| ip_text := s; is_ipv6 := false; scope_id := None; is_private := private; is_loopback := false;
    is_link_local := false; is_reserved := false; is_multicast := false; is_unspecified := false; is_global := negb private;
    is_site_local := false |} in
  if bool_decide (s = $"8.8.8.8") then address false else if bool_decide (s = $"10.0.0.1") then address true else None.
Definition example_resolve (_ : list net_event) (host : pystr) (_ : Z) : result (list pystr) :=
  Ok (if bool_decide (host = $"mixed.example") then [$"8.8.8.8"; $"10.0.0.1"] else [$"8.8.8.8"]).
(** The body is two bytes, then nothing. *)
Definition example_read (t : list net_event) (n : Z) : result bytes :=
  Ok (if (length t <=? 4)%nat then take (Z.to_nat n) [123; 125] else []).
Definition example_fetch (status : Z) (url : pystr) : outcome exn bytes * list net_event :=
  https_fetch_guarded (fun _ => false) example_ip example_resolve (fun _ _ _ _ _ => Ok status) example_read (fun _ => 0) url 10 100 [].

Example fetch_ex :
  example_fetch 200 ($"https://h.example/d?q") =
    (Done [123; 125], [Resolve ($"h.example") 443; Connect ($"h.example") ($"8.8.8.8") 443 ($"/d?q"); Tick; Tick; Read 101; Tick; Read 99]) /\
  example_fetch 301 ($"https://h.example/d") =
    (Failed UnsafeUrlError, [Resolve ($"h.example") 443; Connect ($"h.example") ($"8.8.8.8") 443 ($"/d"); Tick; Tick; Read 101; Tick; Read 99]) /\
  example_fetch 200 ($"https://mixed.example/") = (Failed UnsafeUrlError, [Resolve ($"mixed.example") 443]).
Proof. by vm_compute. Qed.

(** The parameters of the path's last segment are not requested. *)
Lemma path_parameters_not_requested : Connect ($"h.example") ($"8.8.8.8") 443 ($"/list?q") ∈ (example_fetch 200 ($"https://h.example/list;v=2?q")).2.
Proof. apply (bool_decide_unpack _). by vm_compute. Qed.

Lemma https_body_bounded_witness : exists body t', read_body example_read (fun _ => 0) 103 10 101 [] [] = (Done body, t') /\ len body <= 101.
Proof.
  destruct (https_body_bounded example_read (fun _ => 0) 10 101 0 []) as [_ H]; [|done|].
  - intros t n chunk Hn. unfold example_read. destruct (length t <=? 4)%nat; intros [= <-]; unfold len; [|cbn; lia].
    rewrite length_take. cbn [length]. lia.
  - destruct (read_body example_read (fun _ => 0) 103 10 101 [] []) as [[body|x] t'] eqn:E; [|vm_compute in E; discriminate E].
    exists body, t'. split; [reflexivity|]. vm_compute in E. injection E as <- _. vm_compute. discriminate.
Defined.
