(* ===== verification/HttpClient.v ===== *)
(** [openvc_ebsi.http] (src/src/openvc_ebsi/http.py) and the names of [environments.py]: the
    read-only HTTP client of the EBSI registries.

    The world is a transport, a resolver, clocks and a source of jitter; an answer of it is a
    function of the log of what happened so far.  The state adds the response cache and what a
    caller of the client keeps ([E]).  A time is in microseconds, without the rounding of the
    code's floats; the body of a response is the chunks that arrive before it ends or the
    transport fails.  Messages and the [url] of an error are left out. *)
From S2P Require Import Prelude Errors Effects PyStr Json Base64 Decimal PyNum Datetime StatusIssue VerifyCommon Urllib Fetch EbsiRegistry Cache.

Definition MAX_RESPONSE_BYTES : Z := 5 * 1024 * 1024.
Definition MAX_ERROR_BODY_BYTES : Z := 16 * 1024.
Definition PROBLEM_MEDIA_TYPE : pystr := $"application/problem+json".
Definition PROBE_MAX_BYTES : Z := 1024.
Definition MAX_DEADLINE : Z := 24 * 3600 * SECOND.
Definition MAXSIZE : Z := 2 ^ 63 - 1.

(** ** What an exception carries *)

Record failure := { x_class : exn; x_status : option Z; x_problem : option pystr }.
Definition plain (e : exn) : failure := {| x_class := e; x_status := None; x_problem := None |}.
Definition http_error (e : exn) (status : option Z) : failure := {| x_class := e; x_status := status; x_problem := None |}.
Definition is_a (x : failure) (e : exn) : bool := isinstance (x_class x) e.

(** ** The environments *)

Definition LEGACY_PILOT_HOST : pystr := $"api-pilot.ebsi.eu".
Definition ENVIRONMENTS : list (pystr * option pystr) :=
  [($"pilot", Some LEGACY_PILOT_HOST); ($"conformance", Some ($"api-conformance.ebsi.eu")); ($"production", Some ($"api.ebsi.eu"));
   ($"legacy-pilot", Some LEGACY_PILOT_HOST); ($"preprod", None); ($"prod", None)].
Definition fixed_hosts : list (pystr * pystr) :=
  omap (fun env : pystr * option pystr => match env.2 with Some host => Some (env.1, host) | None => None end) ENVIRONMENTS.
Definition EBSI_HOSTS : list (pystr * pystr) := fixed_hosts.

(** The host a name seeds the allow-list with; anything but a string is unknown. *)
Definition seed_host (environment : json) : result pystr :=
  match environment with
  | JStr name =>
      match dget EBSI_HOSTS name with
      | Some host => Ok host
      | None => match dget ENVIRONMENTS name with
                | Some None => Err NodeDerivedEnvironment
                | _ => Err UnknownEbsiEnvironment
                end
      end
  | _ => Err UnknownEbsiEnvironment
  end.

(** ** The wire *)

Record request := { rq_url : pystr; rq_headers : list (pystr * pystr); rq_sni : option pystr }.
(** The chunks of a body: bytes, or the transport's failure. *)
Inductive chunk := Bytes (b : bytes) | Broken (e : exn).
Record response := { rp_status : Z; rp_header : pystr -> option pystr; rp_body : list chunk }.

Inductive event := Wall | Mono | HealthTick | Lookup (host : pystr) (port : Z) | Send (rq : request) | Sleep (d : Z).

#[export] Instance request_eq_dec : EqDecision request.
Proof. solve_decision. Defined.
#[export] Instance event_eq_dec : EqDecision event.
Proof. solve_decision. Defined.

(** A [zlib] decompressor for a window: output, the state after, whether the stream has ended and
    what was left over. *)
Record inflater := {
  ist : Type; decompressor : Z -> ist; inflate : ist -> bytes -> Z -> result (bytes * ist); at_eof : ist -> bool; unused_data : ist -> bytes }.

Record RetryPolicy := {
  attempts : Z; backoff_base : Z; backoff_max : Z; retry_statuses : list Z; retry_after_max : option Z }.
Definition default_retry : RetryPolicy :=
  {| attempts := 3; backoff_base := SECOND / 4; backoff_max := 5 * SECOND; retry_statuses := [429; 500; 502; 503; 504]; retry_after_max := None |}.
(** [__post_init__]. *)
Definition make_retry (p : RetryPolicy) : result RetryPolicy :=
  raise_if (match retry_after_max p with Some cap => negb ((0 <=? cap) && (cap <=? MAX_DEADLINE)) | None => false end) ValueError;; Ok p.

Record EbsiHttpClient := {
  allowed : list pystr; timeout : Z; max_bytes : Z; cache_ttl : time; retry : RetryPolicy; address_guard : bool; valid_until : option Z }.

(** What the world answers, each a function of the log. *)
Record world := {
  w_ipv6 : pystr -> bool; w_ip : pystr -> option ip_address; w_lower : pystr -> pystr; w_space : Z -> bool;
  w_json : bytes -> result json; w_zlib : inflater; w_parsedate : pystr -> option Z;
  (** the injected wall clock ([None]: it raised), the system's, and the monotonic ones *)
  w_clock : list event -> option moment; w_utcnow : list event -> Z; w_mono : list event -> Z; w_health : list event -> option json;
  (** a draw from [0] to a bound *)
  w_uniform : list event -> Z -> Z;
  w_resolver : list event -> pystr -> Z -> result (list json); w_send : list event -> request -> result response }.

Record hstate (E : Type) := { log : list event; cache : @TtlCache jobject; extra : E }.
Arguments log {E} _.
Arguments cache {E} _.
Arguments extra {E} _.

Section client.
Context {E : Type} (w : world) (c : EbsiHttpClient).
Abbreviation client := (io failure (hstate E)).

Definition emit (e : event) : client unit := fun s => (Done tt, {| log := log s ++ [e]; cache := cache s; extra := extra s |}).
Definition ask_world {A} (e : event) (answer : list event -> A) : client A :=
  fun s => (Done (answer (log s)), {| log := log s ++ [e]; cache := cache s; extra := extra s |}).
(** An answer that leaves no trace: the system clock, the jitter. *)
Definition observe {A} (answer : list event -> A) : client A := fun s => (Done (answer (log s)), s).
Definition with_cache {A} (f : @TtlCache jobject -> result (A * @TtlCache jobject)) : client A :=
  fun s => match f (cache s) with
           | Ok (a, d) => (Done a, {| log := log s; cache := d; extra := extra s |})
           | Err e => (Failed (plain e), s)
           end.
Definition fail {A} (e : exn) : client A := raise (plain e).
Definition pure_result {A} (r : result A) : client A := match r with Ok a => mret a | Err e => fail e end.

Definition monotonic : client Z := ask_world Mono (w_mono w).

(** ** Pure readers *)

Definition visible_text (s : pystr) : bool := (1 <=? len s) && (len s <=? 256) && forallb (fun ch => (33 <=? ch) && (ch <=? 126)) s.

(** [now] is [datetime.now(timezone.utc)]. *)
Definition parse_retry_after (now : Z) (value : option pystr) : option Z :=
  text ← value;
  let text := strip (fun ch => bool_decide (ch ∈ [32; 9])) text in
  if bool_decide (text = []) || negb (isascii text) then None
  else if forallb is_ascii_digit text then (if len text <=? 9 then Some (decimal_value text * SECOND) else None)
  else if 64 <? len text then None
  else match w_parsedate w text with Some at_ => Some (Z.max 0 (at_ - now)) | None => None end.

Definition problem_type (content_type : option pystr) (body : bytes) : option pystr :=
  match content_type with
  | Some ((_ :: _) as ct) =>
      if negb (bool_decide (w_lower w (strip (w_space w) (partition 59 ct).1) = PROBLEM_MEDIA_TYPE)) then None
      else match w_json w body with
           | Ok (JDict data) => match jget data ($"type") with JStr v => if visible_text v then Some v else None | _ => None end
           | _ => None
           end
  | _ => None
  end.

Definition plausible_etag (value : option pystr) : option pystr :=
  match value with Some v => if bool_decide (v = [42]) || negb (visible_text v) then None else Some v | None => None end.

Definition checked_etag (value : json) : result pystr :=
  match value with
  | JStr text => raise_if (bool_decide (text = [42]) || negb (visible_text text)) HttpError;; Ok text
  | _ => Err HttpError
  end.

Definition checked_cap (value : json) : result Z :=
  match value with JInt n => raise_if (n <? 0) HttpError;; Ok n | _ => Err HttpError end.

(** A number of seconds, in ticks. *)
Definition ticks (v : num) : Z :=
  match v with
  | NInt n => n * SECOND
  | NFloat f => match finite_value f with
                | Some (m, e) => if 0 <=? e then m * 2 ^ e * SECOND else (m * SECOND) / 2 ^ (- e)
                | None => 0
                end
  end.
Definition checked_deadline (value : json) : result Z :=
  match as_num value with
  | Some v => raise_if (negb (num_gtb v (NInt 0) && negb (num_gtb v (NInt (24 * 3600))))) HttpError;; Ok (ticks v)
  | None => Err HttpError
  end.

Definition declared_length (value : option pystr) : option Z :=
  match value with
  | None => None
  | Some v =>
      let text := strip (w_space w) v in
      if bool_decide (text = []) || negb (forallb is_ascii_digit text) then None
      else Some (if len text <=? 19 then decimal_value text else 2 ^ 64)
  end.

Definition decoder_for (content_encoding : option pystr) : result (option (ist (w_zlib w))) :=
  let coding := w_lower w (strip (w_space w) (default [] content_encoding)) in
  if bool_decide (coding ∈ [$""; $"identity"]) then Ok None
  else if bool_decide (coding = $"gzip") then Ok (Some (decompressor (w_zlib w) 31))
  else if bool_decide (coding = $"deflate") then Ok (Some (decompressor (w_zlib w) 15))
  else Err HttpUnexpectedEncoding.

(** ** Reading a body *)

(** The loop over the chunks of a 200 body: what is left of the decoder, and the body. *)
Fixpoint read_chunks (cap deadline : Z) (chunks : list chunk) (wire : Z) (decoder : option (ist (w_zlib w))) (body : bytes)
    : client (option (ist (w_zlib w)) * bytes) :=
  match chunks with
  | [] => mret (decoder, body)
  | Broken e :: _ => fail e
  | Bytes b :: chunks =>
      now ← monotonic;
      _ ← raise_when (deadline <? now) (plain HttpError);
      let wire := wire + len b in
      _ ← raise_when (cap <? wire) (http_error HttpError (Some 200));
      match decoder with
      | None => read_chunks cap deadline chunks wire None (body ++ b)
      | Some d =>
          _ ← raise_when (at_eof (w_zlib w) d) (plain MalformedRegistryResponse);
          let room := cap - len body in
          match inflate (w_zlib w) d b (Z.min (room + 1) MAXSIZE) with
          | Err e => fail (if isinstance e ZlibError then MalformedRegistryResponse else e)
          | Ok (piece, d) =>
              _ ← raise_when (room <? len piece) (http_error HttpError (Some 200));
              _ ← raise_when (negb (bool_decide (unused_data (w_zlib w) d = []))) (plain MalformedRegistryResponse);
              read_chunks cap deadline chunks wire (Some d) (body ++ piece)
          end
      end
  end.

(** [min(deadline, until)]. *)
Definition capped (deadline : Z) (until : option Z) : Z := match until with Some u => Z.min deadline u | None => deadline end.

Definition read_verbatim (resp : response) (cap : Z) (until : option Z) : client bytes :=
  match decoder_for (rp_header resp ($"content-encoding")) with
  | Err e => raise (http_error e (Some 200))
  | Ok decoder =>
      _ ← raise_when (match declared_length (rp_header resp ($"content-length")) with Some n => cap <? n | None => false end)
            (http_error HttpError (Some 200));
      now ← monotonic;
      '(decoder, body) ← read_chunks cap (capped (now + timeout c) until) (rp_body resp) 0 decoder [];
      _ ← raise_when (match decoder with Some d => negb (at_eof (w_zlib w) d) | None => false end) (plain MalformedRegistryResponse);
      mret body
  end.

(** One piece of an error body: [zlib] with, for the first chunk of a [deflate] body, the retry
    as a raw stream. *)
Definition drain_piece (coding : pystr) (first : bool) (d : ist (w_zlib w)) (b : bytes) (room : Z) : result (bytes * ist (w_zlib w)) :=
  match inflate (w_zlib w) d b (room + 1) with
  | Err e =>
      if negb (isinstance e ZlibError) then Err e
      else if negb (bool_decide (coding = $"deflate")) || negb first then Err DecodingError
      else catch_as (fun e => isinstance e ZlibError) DecodingError (inflate (w_zlib w) (decompressor (w_zlib w) (-15)) b (room + 1))
  | r => r
  end.

(** The loop over the chunks of an error body; [None] when the rest is not read. *)
Fixpoint drain_chunks (deadline : Z) (coding : pystr) (chunks : list chunk) (wire : Z) (first : bool)
    (decoder : option (ist (w_zlib w))) (body : bytes) : client (option bytes) :=
  match chunks with
  | [] => mret (Some body)
  | Broken e :: _ => fail e
  | Bytes b :: chunks =>
      let wire := wire + len b in
      if MAX_ERROR_BODY_BYTES <? wire then mret None
      else
        now ← monotonic;
        if deadline <? now then mret None
        else
          match decoder with
          | None => drain_chunks deadline coding chunks wire first None (body ++ b)
          | Some d =>
              if at_eof (w_zlib w) d then drain_chunks deadline coding chunks wire first (Some d) body
              else
                let room := MAX_ERROR_BODY_BYTES - len body in
                '(piece, d) ← pure_result (drain_piece coding first d b room);
                if room <? len piece then mret None
                else drain_chunks deadline coding chunks wire false (Some d) (body ++ piece)
          end
  end.

Definition read_problem_type (resp : response) : client (option pystr) :=
  let content_encoding := rp_header resp ($"content-encoding") in
  let coding := w_lower w (strip (w_space w) (default [] content_encoding)) in
  match decoder_for (Some coding) with
  | Err _ => mret None
  | Ok decoder =>
      now ← monotonic;
      body ← drain_chunks (now + timeout c) coding (rp_body resp) 0 true decoder [];
      mret (match body with Some b => problem_type (rp_header resp ($"content-type")) b | None => None end)
  end.

(** ** The gates *)

Definition guard_host (url : pystr) : result unit :=
  match read_origin (w_ipv6 w) url with
  | inl _ => Err HttpForbiddenHost
  | inr o =>
      raise_if (negb (bool_decide (o_scheme o = $"https"))) HttpForbiddenHost;;
      raise_if (bool_decide (o_host o = []) || negb (bool_decide (o_host o ∈ allowed c))) HttpForbiddenHost;;
      raise_if (negb (bool_decide (o_port o = Some HTTPS_PORT))) HttpForbiddenHost;;
      match carries_userinfo (w_ipv6 w) url with
      | inr false => Ok tt
      | _ => Err HttpForbiddenHost
      end
  end.

(** [read_clock]. *)
Definition as_utc (value : moment) : result Z :=
  match value with Datetime wall offset => utc_instant wall offset NodeClientConfigError | Value _ => Err NodeClientConfigError end.
Definition read_clock : client Z :=
  reading ← ask_world Wall (w_clock w);
  match reading with None => fail NodeClientConfigError | Some value => pure_result (as_utc value) end.

Definition check_valid : client unit :=
  match valid_until c with
  | None => mret tt
  | Some until => now ← read_clock; raise_when (until <=? now) (plain NodeListExpired)
  end.

(** ** The address guard *)

Definition is_ip_literal (host : pystr) : bool := match w_ip w host with Some _ => true | None => false end.

Definition checked_address (answer : json) : result pystr :=
  match answer with
  | JStr text =>
      match w_ip w text with
      | Some ip =>
          if match scope_id ip with None => true | Some _ => false end
             && match ip_is_forbidden (w_ip w) text with Ok forbidden => negb forbidden | Err _ => false end
          then Ok (ip_text ip) else Err HttpForbiddenAddress
      | None => Err HttpForbiddenAddress
      end
  | _ => Err HttpForbiddenAddress
  end.

Definition resolution_error (e : exn) : bool := isinstance e OSError || isinstance e ValueError || isinstance e TypeError.

Definition addresses (host : pystr) (port : Z) : client (list pystr) :=
  answers ← (if is_ip_literal host then mret [JStr host]
             else
               r ← ask_world (Lookup host port) (fun t => w_resolver w t host port);
               match r with
               | Ok [] => fail HttpAddressResolutionFailed
               | Ok answers => mret answers
               | Err e => fail (if resolution_error e then HttpAddressResolutionFailed else e)
               end);
  checked ← pure_result (mapR checked_address answers);
  mret (first_seen checked).

(** [s.find(sub)]. *)
Fixpoint find_from (i : Z) (sub s : pystr) : Z :=
  if startswith s sub then i else match s with [] => -1 | _ :: s => find_from (i + 1) sub s end.

(** [host], its port and what follows the authority, read for the pinned request. *)
Definition pinned_parts (url : pystr) : result (pystr * Z * pystr) :=
  match (parsed ← Fetch.urlparse (w_ipv6 w) url; p ← port parsed; Ok (parsed, p)) with
  | Err _ => Err HttpForbiddenHost
  | Ok (parsed, p) =>
      let authority_start := find_from 0 ($"//") url + 2 in
      let after := drop (Z.to_nat authority_start) url in
      match hostname parsed with
      | Some host =>
          raise_if ((authority_start <? 2) || negb (startswith after (netloc parsed))) HttpForbiddenHost;;
          Ok (host, default HTTPS_PORT p, drop (length (netloc parsed)) after)
      | None => Err HttpForbiddenHost
      end
  end.

Definition bracketed (s : pystr) : pystr := if bool_decide (58 ∈ s) then 91 :: s ++ [93] else s.

(** The request of one attempt, and the addresses used so far. *)
Definition open_stream (url : pystr) (tried : list pystr) (headers : list (pystr * pystr)) : client (request * list pystr) :=
  if negb (address_guard c) then mret ({| rq_url := url; rq_headers := headers; rq_sni := None |}, tried)
  else
    '(host, p, rest) ← pure_result (pinned_parts url);
    found ← addresses host p;
    let fresh := filter (fun a => a ∉ tried) found in
    let '(tried, fresh) := match fresh with [] => ([], found) | _ => (tried, fresh) end in
    address ← pure_result (match fresh with a :: _ => Ok a | [] => Err IndexError end);
    let name := bracketed host in
    mret ({| rq_url := $"https://" ++ bracketed address ++ 58 :: str_of_int p ++ rest;
             rq_headers := dset (dset headers ($"Host") (if p =? HTTPS_PORT then name else name ++ 58 :: str_of_int p)) ($"Connection") ($"close");
             rq_sni := Some host |}, tried ++ [address]).

(** ** The request loop *)

Definition is_probe_first (probe : bool) : Z := if probe then Z.max (attempts (retry c) - 1) 0 else 0.

(** [_sleep_before_retry]. *)
Definition backoff (attempt : Z) : client Z :=
  let ceiling := Z.min (backoff_base (retry c) * 2 ^ attempt) (backoff_max (retry c)) in
  observe (fun t => ceiling / 2 + w_uniform w t (ceiling / 2)).

Definition ceiling : Z := Z.min (match retry_after_max (retry c) with None => backoff_max (retry c) | Some m => m end) MAX_DEADLINE.

Definition sleep_before_retry (attempt : Z) (resp : option response) (until : option Z) : client unit :=
  if attempts (retry c) - 1 <=? attempt then mret tt
  else
    delay ← backoff attempt;
    asked ← observe (fun t => match resp with
                              | Some r => parse_retry_after (w_utcnow w t) (rp_header r ($"Retry-After"))
                              | None => None
                              end);
    let delay := match asked with Some secs => Z.max delay secs | None => delay end in
    let delay := Z.min delay ceiling in
    delay ← match until with None => mret delay | Some u => now ← monotonic; mret (Z.min delay (Z.max 0 (u - now))) end;
    emit (Sleep (Z.max 0 delay)).

(** What one attempt comes to: a status with what was read, or a failure to retry. *)
Inductive verdict :=
  | Answered (resp : response) (body : bytes) (problem : option pystr)
  | Retry (x : failure).

(** The handlers around an attempt. *)
Definition handled (x : failure) : client verdict :=
  if is_a x InvalidURL then fail HttpForbiddenHost
  else if is_a x DecodingError then fail MalformedRegistryResponse
  else if is_a x TransportError || is_a x HttpAddressResolutionFailed then mret (Retry x)
  else raise x.

Definition try_else {A B} (m : client A) (handler : failure -> client B) (k : A -> client B) : client B :=
  r ← attempt m; match r with Done a => k a | Failed x => handler x end.

Definition one_attempt (url : pystr) (tried : list pystr) (headers : list (pystr * pystr)) (drain_error_body : bool)
    (read_body : response -> client bytes) : client (verdict * list pystr) :=
  picked ← attempt (open_stream url tried headers);
  match picked with
  | Failed x => v ← handled x; mret (v, tried)
  | Done (rq, tried) =>
      v ← try_else
            (sent ← ask_world (Send rq) (fun t => w_send w t rq);
             resp ← pure_result sent;
             if rp_status resp =? 200 then body ← read_body resp; mret (resp, body, None)
             else if drain_error_body then problem ← read_problem_type resp; mret (resp, [], problem)
             else mret (resp, [], None))
            handled
            (fun '(resp, body, problem) => mret (Answered resp body problem));
      mret (v, tried)
  end.

Definition exhausted (last : option failure) : failure :=
  match last with
  | Some x => if is_a x HttpError then {| x_class := HttpTransientExhausted; x_status := x_status x; x_problem := x_problem x |}
              else plain HttpTransientExhausted
  | None => plain HttpTransientExhausted
  end.

(** [n] attempts are left, the last of them the policy's last. *)
Fixpoint request_loop (n : nat) (url : pystr) (headers : list (pystr * pystr)) (read_body : response -> client bytes)
    (drain_error_body accept_not_modified : bool) (until : option Z) (probe : bool) (tried : list pystr) (last : option failure)
    : client (response * bytes) :=
  match n with
  | O => raise (exhausted last)
  | S n' =>
      let index := attempts (retry c) - Z.of_nat n in
      let again resp x tried :=
        _ ← sleep_before_retry index resp until;
        request_loop n' url headers read_body drain_error_body accept_not_modified until probe tried (Some x) in
      _ ← check_valid;
      _ ← match until with None => mret tt | Some u => now ← monotonic; raise_when (u - now <=? 0) (plain HttpError) end;
      '(v, tried) ← one_attempt url tried headers drain_error_body read_body;
      match v with
      | Retry x => again None x tried
      | Answered resp body problem =>
          let status := rp_status resp in
          if status =? 200 then mret (resp, body)
          else if (status =? 304) && accept_not_modified then mret (resp, [])
          else if probe then mret (resp, [])
          else if status =? 404 then raise {| x_class := HttpNotFound; x_status := Some 404; x_problem := problem |}
          else if bool_decide (status ∈ retry_statuses (retry c)) then
            again (Some resp) {| x_class := HttpError; x_status := Some status; x_problem := problem |} tried
          else raise {| x_class := HttpError; x_status := Some status; x_problem := problem |}
      end
  end.

Definition request_url (url : pystr) (headers : list (pystr * pystr)) (read_body : response -> client bytes)
    (drain_error_body accept_not_modified : bool) (until : option Z) (probe : bool) : client (response * bytes) :=
  _ ← pure_result (guard_host url);
  request_loop (Z.to_nat (attempts (retry c) - is_probe_first probe)) url headers read_body drain_error_body accept_not_modified until
    probe [] None.

(** ** The three readers *)

Definition cache_get (url : pystr) : client (option jobject) :=
  now ← monotonic; with_cache (fun d => Ok (Cache.get d now url)).
Definition cache_set (url : pystr) (data : jobject) : client unit :=
  now ← monotonic; with_cache (fun d => d ← Cache.set d now url (Some data); Ok (tt, d)).

Definition http_get_json (url : pystr) : client jobject :=
  _ ← check_valid;
  _ ← pure_result (guard_host url);
  cached ← cache_get url;
  match cached with
  | Some data => mret data
  | None =>
      '(_, body) ← request_url url [] (fun resp => read_verbatim resp (max_bytes c) None) true false None false;
      match w_json w body with
      | Ok (JDict data) => _ ← cache_set url data; mret data
      | Ok _ => fail MalformedRegistryResponse
      | Err e => fail (if isinstance e ValueError || isinstance e RecursionError then MalformedRegistryResponse else e)
      end
  end.

(** A [deadline_s] argument: absent, or a duration to check. *)
Definition deadline_argument (deadline_s : json) : option (result Z) :=
  match deadline_s with JNull => None | v => Some (checked_deadline v) end.
(** A duration in ticks, checked as [_checked_deadline] does. *)
Definition deadline_of_ticks (d : Z) : result Z := raise_if (negb ((0 <? d) && (d <=? MAX_DEADLINE))) HttpError;; Ok d.

(** [BytesResponse(body, etag)]. *)
Definition http_get_bytes (url : pystr) (max_bytes_ etag : json) (deadline : option (result Z)) : client (option bytes * option pystr) :=
  _ ← check_valid;
  cap ← pure_result (match max_bytes_ with JNull => Ok (max_bytes c) | v => n ← checked_cap v; Ok (Z.min n (max_bytes c)) end);
  sent ← pure_result (match etag with JNull => Ok None | v => t ← checked_etag v; Ok (Some t) end);
  let headers := [($"Accept", $"*/*"); ($"Accept-Encoding", $"identity")] ++ match sent with Some t => [($"If-None-Match", t)] | None => [] end in
  until ← match deadline with
          | None => mret None
          | Some d => now ← monotonic; d ← pure_result d; mret (Some (now + d))
          end;
  '(resp, body) ← request_url url headers (fun resp => read_verbatim resp cap until) false (match sent with Some _ => true | None => false end)
                    until false;
  if rp_status resp =? 304 then mret (None, sent) else mret (Some body, plausible_etag (rp_header resp ($"etag"))).

(** [ProbeResponse(status, body)]. *)
Definition probe (url : pystr) (max_bytes_ : json) : client (Z * bytes) :=
  _ ← check_valid;
  n ← pure_result (checked_cap max_bytes_);
  let cap := Z.min n (max_bytes c) in
  '(resp, body) ← request_url url [($"Accept-Encoding", $"identity")] (fun resp => read_verbatim resp cap None) false false None true;
  mret (rp_status resp, body).
End client.

(** * Building a client *)

Inductive clock_argument := NoClock | NotCallable | AClock.

Record client_options := {
  co_timeout : Z; co_cache_ttl : time; co_retry : option RetryPolicy; co_max_bytes : option Z; co_guard : bool;
  co_valid_until : moment; co_clock : clock_argument }.
Definition default_options : client_options :=
  {| co_timeout := 10 * SECOND; co_cache_ttl := At (300 * SECOND); co_retry := None; co_max_bytes := None; co_guard := false;
     co_valid_until := Value JNull; co_clock := NoClock |}.

(** [proxied]: [getproxies] names a proxy for [https] or for [all]. *)
Definition refuse_environment_proxy (proxied : bool) : result unit := raise_if proxied HttpAddressGuardUnavailable.

Definition new_http_client (lower : pystr -> pystr) (proxied : bool) (allowed_hosts : list pystr) (o : client_options) : result EbsiHttpClient :=
  raise_if (xorb (moment_none (co_valid_until o)) (match co_clock o with NoClock => true | _ => false end)) NodeClientConfigError;;
  until ← (if moment_none (co_valid_until o) then Ok None
           else raise_if (match co_clock o with AClock => false | _ => true end) NodeClientConfigError;;
                u ← as_utc (co_valid_until o); Ok (Some u));
  (if co_guard o then refuse_environment_proxy proxied else Ok tt);;
  Ok {| allowed := map lower allowed_hosts; timeout := co_timeout o; max_bytes := default MAX_RESPONSE_BYTES (co_max_bytes o);
        cache_ttl := co_cache_ttl o; retry := default default_retry (co_retry o); address_guard := co_guard o; valid_until := until |}.

(** ** The environments *)

Definition for_ebsi (lower : pystr -> pystr) (proxied : bool) (environment : json) (extra_hosts : list pystr) (o : client_options)
    : result EbsiHttpClient :=
  host ← seed_host environment;
  new_http_client lower proxied (host :: extra_hosts) o.

(** ** The Trusted Nodes List *)

Definition TNL_HOST : pystr := $"tnl.ebsi.eu".
Definition TNL_FILES : list pystr := [$"trusted-keys.json"; $"trusted-keys.json.sig"; $"tnl.json"; $"tnl.json.sig"].
Definition TNL_MAX_BYTES : list (pystr * Z) :=
  [($"trusted-keys.json", 64 * 1024); ($"trusted-keys.json.sig", 4 * 1024); ($"tnl.json", 64 * 1024); ($"tnl.json.sig", 4 * 1024)].

Definition with_max_bytes (o : client_options) (n : Z) : client_options :=
  {| co_timeout := co_timeout o; co_cache_ttl := co_cache_ttl o; co_retry := co_retry o; co_max_bytes := Some n; co_guard := co_guard o;
     co_valid_until := co_valid_until o; co_clock := co_clock o |}.
(** An [allowed_hosts] among the arguments is a [TypeError]; the cap defaults to 64 KiB. *)
Definition for_tnl (lower : pystr -> pystr) (proxied names_hosts : bool) (o : client_options) : result EbsiHttpClient :=
  raise_if names_hosts TypeError;;
  new_http_client lower proxied [TNL_HOST] (with_max_bytes o (default (64 * 1024) (co_max_bytes o))).

Section tnl.
Context {E : Type} (w : world) (c : EbsiHttpClient).
Abbreviation client := (io failure (hstate E)).

Definition supplied_etags (etags : json) : result (list (pystr * pystr)) :=
  match etags with
  | JNull => Ok []
  | JDict d => foldR (fun supplied kv => raise_if (negb (bool_decide (kv.1 ∈ TNL_FILES))) HttpError;;
                                         t ← checked_etag kv.2; Ok (dset supplied kv.1 t)) [] d
  | _ => Err HttpError
  end.

Definition tnl_url (name : pystr) : pystr := $"https://" ++ TNL_HOST ++ 47 :: name.

Fixpoint tnl_files (names : list pystr) (supplied : list (pystr * pystr)) (end_ : Z) : client (list (pystr * (option bytes * option pystr))) :=
  match names with
  | [] => mret []
  | name :: names =>
      now ← monotonic w;
      let remaining := end_ - now in
      _ ← raise_when (remaining <=? 0) (plain HttpError);
      r ← http_get_bytes w c (tnl_url name) (JInt (default 0 (dget TNL_MAX_BYTES name)))
            (match dget supplied name with Some t => JStr t | None => JNull end) (Some (deadline_of_ticks remaining));
      rest ← tnl_files names supplied end_;
      mret ((name, r) :: rest)
  end.

(** [client.allowed_hosts] as a set is [{TNL_HOST}]. *)
Definition get_tnl_files (etags deadline_s : json) : client (list (pystr * (option bytes * option pystr))) :=
  _ ← raise_when (negb (forallb (fun h => bool_decide (h = TNL_HOST)) (allowed c) && bool_decide (TNL_HOST ∈ allowed c))) (plain HttpForbiddenHost);
  supplied ← pure_result (supplied_etags etags);
  now ← monotonic w;
  d ← pure_result (checked_deadline deadline_s);
  tnl_files TNL_FILES supplied (now + d).
End tnl.

(** * What a read does to the world *)

Section log.
Context {E : Type} (w : world) (c : EbsiHttpClient).
Abbreviation client := (io failure (hstate E)).

(** Neither a request nor a sleep; what the caller keeps is untouched. *)
Definition calm (e : event) : bool := match e with Send _ | Sleep _ => false | _ => true end.
Definition quiet (s s' : hstate E) : Prop :=
  extra s' = extra s /\ exists new, log s' = log s ++ new /\ Forall (fun e => calm e = true) new.

#[export] Instance quiet_preorder : PreOrder quiet.
Proof using Type.
  split.
  - intros s. split; [done|]. exists []. by rewrite app_nil_r.
  - intros s1 s2 s3 (E1 & n1 & H1 & Q1) (E2 & n2 & H2 & Q2). split; [congruence|]. exists (n1 ++ n2). rewrite H2, H1, app_assoc. split; [done|].
    by apply Forall_app.
Qed.

Lemma quiet_ask {A} e (answer : list event -> A) : calm e = true -> preserves quiet (ask_world e answer : client A).
Proof using Type. intros He s. split; [done|]. exists [e]. split; [done|]. by constructor. Qed.
Lemma quiet_observe {A} (answer : list event -> A) : preserves quiet (observe answer : client A).
Proof using Type. intros s. reflexivity. Qed.
Lemma quiet_pure {A} (r : result A) : preserves quiet (pure_result r : client A).
Proof using Type. destruct r; [apply preserves_ret, _|apply preserves_raise, _]. Qed.
Lemma quiet_with_cache {A} (f : @TtlCache jobject -> result (A * @TtlCache jobject)) : preserves quiet (with_cache f : client A).
Proof using Type. intros s. unfold with_cache. destruct (f (cache s)) as [[a d]|]; (split; [done|]); exists []; by rewrite app_nil_r. Qed.
End log.



Create HintDb quiet.
#[export] Hint Resolve quiet_ask quiet_observe quiet_pure quiet_with_cache : quiet.

(** Follow a computation step by step, each step settled by a hint. *)
Ltac quietly :=
  repeat first
    [ solve [eauto 2 with quiet]
    | apply preserves_ret, _ | apply preserves_raise, _ | apply preserves_raise_when, _
    | apply preserves_bind; [apply _| |intros ?]
    | match goal with |- preserves _ (match ?x with _ => _ end) => destruct x end ].

Section calm.
Context {E : Type} (w : world) (c : EbsiHttpClient).
Abbreviation calmly_run m := (preserves (quiet (E := E)) m).

Lemma quiet_monotonic : calmly_run (monotonic w).
Proof using Type. by apply quiet_ask. Qed.
#[local] Hint Resolve quiet_monotonic : quiet.

Lemma quiet_read_chunks cap deadline chunks : forall wire decoder body, calmly_run (read_chunks w cap deadline chunks wire decoder body).
Proof using Type. induction chunks as [|[b|e] chunks IH]; intros wire decoder body; cbn [read_chunks]; quietly. Qed.
#[local] Hint Resolve quiet_read_chunks : quiet.

Lemma quiet_read_verbatim resp cap until : calmly_run (read_verbatim w c resp cap until).
Proof using Type. unfold read_verbatim. quietly. Qed.

Lemma quiet_drain_chunks deadline coding chunks : forall wire first decoder body, calmly_run (drain_chunks w deadline coding chunks wire first decoder body).
Proof using Type. induction chunks as [|[b|e] chunks IH]; intros wire first decoder body; cbn [drain_chunks]; quietly. Qed.
#[local] Hint Resolve quiet_drain_chunks : quiet.

Lemma quiet_read_problem_type resp : calmly_run (read_problem_type w c resp).
Proof using Type. unfold read_problem_type. quietly. Qed.

Lemma quiet_check_valid : calmly_run (check_valid w c).
Proof using Type. unfold check_valid, read_clock. quietly. Qed.

Lemma quiet_addresses host p : calmly_run (addresses w host p).
Proof using Type. unfold addresses. quietly. Qed.
#[local] Hint Resolve quiet_addresses : quiet.

Lemma quiet_open_stream url tried headers : calmly_run (open_stream w c url tried headers).
Proof using Type. unfold open_stream. quietly. Qed.

Lemma quiet_cache_get url : calmly_run (cache_get w url).
Proof using Type. unfold cache_get. quietly. Qed.
Lemma quiet_cache_set url data : calmly_run (cache_set w url data).
Proof using Type. unfold cache_set. quietly. Qed.
End calm.
#[export] Hint Resolve quiet_monotonic quiet_read_verbatim quiet_read_problem_type quiet_check_valid quiet_open_stream quiet_cache_get quiet_cache_set : quiet.

(** * The requests a read sends *)

Section safe.
Context {E : Type} (w : world) (c : EbsiHttpClient).
Abbreviation client := (io failure (hstate E)).

(** The validity gate was passed, and nothing was sent or slept since. *)
Definition gated (t : list event) : Prop :=
  match valid_until c with
  | None => True
  | Some until => exists pre post value now,
      t = pre ++ Wall :: post /\ Forall (fun e => calm e = true) post /\ w_clock w pre = Some value /\ as_utc value = Ok now /\ now < until
  end.

(** An answer of the resolver one may connect to. *)
Definition public (answer : json) : Prop := exists text ip,
  answer = JStr text /\ w_ip w text = Some ip /\ scope_id ip = None /\ ip_is_forbidden (w_ip w) text = Ok false.

(** A pinned request: it goes to an address of an answer just given, every address of which is
    public, on port 443, for a host of the allow-list. *)
Record pinned (t : list event) (rq : request) : Prop := {
  pinned_to : exists host rest text ip answers,
    lower_ascii host ∈ allowed c /\ rq_sni rq = Some host /\ dget (rq_headers rq) ($"Host") = Some (bracketed host) /\
    rq_url rq = $"https://" ++ bracketed (ip_text ip) ++ 58 :: str_of_int 443 ++ rest /\
    (w_ip w host <> None /\ answers = [JStr host] \/
     exists pre, t = pre ++ [Lookup host 443] /\ w_resolver w pre host 443 = Ok answers) /\
    Forall public answers /\ JStr text ∈ answers /\ w_ip w text = Some ip }.

Definition safe_http (url : pystr) (t : list event) (e : event) : Prop :=
  match e with
  | Send rq => guard_host w c url = Ok tt /\ gated t /\
               (if address_guard c then pinned t rq else rq_url rq = url /\ rq_sni rq = None)
  | Sleep d => 0 <= d <= Z.max 0 (ceiling c)
  | _ => True
  end.

Definition is_send (e : event) : bool := match e with Send _ => true | _ => false end.
Definition sends (t : list event) : nat := length (List.filter is_send t).

(** At most [n] requests, each event safe where it stands, and nothing done to what the caller keeps. *)
Definition spends (url : pystr) (n : nat) (s s' : hstate E) : Prop :=
  extra s' = extra s /\ logs (safe_http url) (log s) (log s') /\ (sends (log s') <= sends (log s) + n)%nat.

Lemma spends_trans url n m s1 s2 s3 : spends url n s1 s2 -> spends url m s2 s3 -> spends url (n + m) s1 s3.
Proof using Type. intros (E1 & H1 & C1) (E2 & H2 & C2). split_and!; [congruence|by etrans|lia]. Qed.
Lemma spends_le url n m s s' : (n <= m)%nat -> spends url n s s' -> spends url m s s'.
Proof using Type. intros Hle (He & H & C). split_and!; [done|done|lia]. Qed.

Lemma sends_app t t' : sends (t ++ t') = (sends t + sends t')%nat.
Proof using Type. unfold sends. by rewrite List.filter_app, length_app. Qed.
Lemma sends_calm t : Forall (fun e => calm e = true) t -> sends t = 0%nat.
Proof using Type. unfold sends. induction 1 as [|e t He _ IH]; [done|]. by destruct e. Qed.

Lemma quiet_spends url s s' : quiet s s' -> spends url 0 s s'.
Proof using Type.
  intros (Hx & new & H & Q). unfold spends. rewrite H, sends_app, (sends_calm new Q). split; [done|]. split; [|lia].
  exists new. split; [done|]. intros pre e post ->. apply Forall_app in Q as [_ Q]. inversion_clear Q as [|? ? He _]. by destruct e.
Qed.

Lemma spends_seq {A B} url n k (m : client A) (f : A -> client B) s :
  spends url n s (m s).2 -> (forall a s1, m s = (Done a, s1) -> spends url k s1 (f a s1).2) -> spends url (n + k) s ((m ≫= f) s).2.
Proof using Type.
  intros Hm Hf. rewrite bind_run. destruct (m s) as [[a|x] s1] eqn:Em; cbn [snd] in *.
  - eapply spends_trans; [exact Hm|]. by apply Hf.
  - eapply spends_le, Hm. lia.
Qed.
Lemma attempt_snd {A} (m : client A) s : (attempt m s).2 = (m s).2.
Proof using Type. unfold attempt. by destruct (m s). Qed.
Lemma attempt_Done {A} (m : client A) s r s1 : attempt m s = (Done r, s1) -> m s = (r, s1).
Proof using Type. unfold attempt. destruct (m s). by intros [= -> ->]. Qed.

(** Follow a run whose steps before the last are quiet. *)
Lemma spends_bind {A B} url n (m : client A) (f : A -> client B) :
  preserves quiet m -> (forall a s s1, m s = (Done a, s1) -> spends url n s1 (f a s1).2) -> forall s, spends url n s ((m ≫= f) s).2.
Proof using Type.
  intros Hm Hf s. rewrite bind_run. specialize (Hm s). destruct (m s) as [[a|x] s1] eqn:Em; cbn [snd] in *.
  - apply (spends_trans url 0 n s s1); [by apply quiet_spends|]. by eapply Hf.
  - eapply spends_le, quiet_spends, Hm. lia.
Qed.

Lemma gated_quiet (s s' : hstate E) : quiet s s' -> gated (log s) -> gated (log s').
Proof using Type.
  intros (_ & new & -> & Q). unfold gated. destruct (valid_until c); [|done]. intros (pre & post & v & now & -> & Hp & H).
  exists pre, (post ++ new), v, now. split; [by rewrite <- app_assoc|]. split; [|done]. by apply Forall_app.
Qed.

Lemma check_valid_gated (s : hstate E) u s1 : check_valid w c s = (Done u, s1) -> gated (log s1).
Proof using Type.
  unfold check_valid, gated. destruct (valid_until c) as [until|]; [|done]. unfold read_clock. rewrite !bind_run.
  cbn [ask_world]. destruct (w_clock w (log s)) as [v|] eqn:Ev; [|done]. unfold pure_result. destruct (as_utc v) as [now|] eqn:En; [|done].
  cbn. unfold raise_when. destruct (Z.leb_spec until now); [done|]. intros [= _ <-]. cbn. by exists (log s), [], v, now.
Qed.

(** ** The pinned request *)

Lemma visible_sanitize url : visible_ascii url = true -> sanitize url = url.
Proof using Type.
  intros Hv. assert (Hf : Forall (fun ch => 33 <= ch) url).
  { apply Forall_forall. intros ch Hc. unfold visible_ascii in Hv. rewrite forallb_forall in Hv.
    specialize (Hv ch (proj1 (list_elem_of_In _ _) Hc)). lia. }
  unfold sanitize. replace (lstrip_space _ url) with url.
  - induction Hf as [|ch l Hc Hf IH]; [done|]. rewrite filter_cons_True by lia. f_equal. apply IH.
    unfold visible_ascii in *. cbn in Hv. by apply andb_true_iff in Hv as [_ Hv].
  - destruct Hf as [|ch l Hc _]; [done|]. cbn. by destruct (Z.leb_spec ch 32); [lia|].
Qed.

Lemma guard_pins url host p rest : guard_host w c url = Ok tt -> pinned_parts w url = Ok (host, p, rest) -> lower_ascii host ∈ allowed c /\ p = 443.
Proof using Type.
  unfold guard_host, pinned_parts. intros Hg Hp. destruct (read_origin _ url) as [|o] eqn:Eo; [done|].
  pose proof (read_origin_visible _ _ _ Eo) as Hv. unfold Fetch.urlparse in Hp. rewrite (visible_sanitize _ Hv) in Hp.
  unfold read_origin, split_url in Eo. rewrite Hv in Eo. cbn [negb] in Eo. destruct (urlsplit _ url) as [u|] eqn:Eu; [|done].
  cbn [mbind result_bind] in *. change (port {| scheme := scheme u; netloc := netloc u; path := _; query := query u; fragment_of := fragment_of u |}) with (port u) in Hp.
  destruct (port u) as [p0|] eqn:Ep; [|done]. injection Eo as <-. cbn [o_scheme o_host o_port] in Hg.
  apply bind_Ok in Hg as (_ & Hs%raise_if_Ok%negb_false_iff%bool_decide_eq_true & Hg).
  apply bind_Ok in Hg as (_ & Hh%raise_if_Ok & Hg). apply orb_false_iff in Hh as [_ Hh%negb_false_iff%bool_decide_eq_true].
  apply bind_Ok in Hg as (_ & Hport%raise_if_Ok%negb_false_iff%bool_decide_eq_true & _). rewrite Hs in Hport.
  cbn [mbind result_bind] in Hp.
  change (hostname {| scheme := scheme u; netloc := netloc u; path := _; query := query u; fragment_of := fragment_of u |}) with (hostname u) in Hp.
  destruct (hostname u) as [h|]; [|done]. apply bind_Ok in Hp as (_ & _ & Hp). injection Hp as <- <- _.
  split; [done|]. destruct p0; [by injection Hport as ->|done].
Qed.

Lemma checked_address_public answer a : checked_address w answer = Ok a ->
  exists text ip, answer = JStr text /\ w_ip w text = Some ip /\ a = ip_text ip /\ public answer.
Proof using Type.
  unfold checked_address. destruct answer as [| | | |text| | |]; try done. destruct (w_ip w text) as [ip|] eqn:Ei; [|done].
  destruct (scope_id ip) eqn:Es; [done|]. destruct (ip_is_forbidden _ text) as [[]|] eqn:Ef; try done. intros [= <-].
  exists text, ip. split_and!; try done. by exists text, ip.
Qed.

Lemma checked_addresses answers found : mapR (checked_address w) answers = Ok found ->
  Forall public answers /\ forall a, a ∈ found -> exists text ip, JStr text ∈ answers /\ w_ip w text = Some ip /\ a = ip_text ip.
Proof using Type.
  intros H%mapR_Ok. induction H as [|x a answers found Hx _ [IHp IHa]]; [split; [done|set_solver]|].
  apply checked_address_public in Hx as (text & ip & -> & Hi & -> & Hpub). split; [by constructor|].
  intros b [->|Hb]%elem_of_cons; [exists text, ip; set_solver|]. destruct (IHa b Hb) as (t & i & Ht & Hti & ->). exists t, i. set_solver.
Qed.

Lemma addresses_Done host p (s : hstate E) found s1 : addresses w host p s = (Done found, s1) -> exists answers,
  (w_ip w host <> None /\ answers = [JStr host] \/ exists pre, log s1 = pre ++ [Lookup host p] /\ w_resolver w pre host p = Ok answers) /\
  Forall public answers /\ forall a, a ∈ found -> exists text ip, JStr text ∈ answers /\ w_ip w text = Some ip /\ a = ip_text ip.
Proof using Type.
  unfold addresses, is_ip_literal. intros H. apply io_bind_Done in H as (answers & s2 & Ha & H). apply io_bind_Done in H as (checked & s3 & Hc & H).
  injection H as <- <-. unfold pure_result in Hc. destruct (mapR _ answers) as [l|] eqn:Em; [|done]. injection Hc as -> <-.
  exists answers. apply checked_addresses in Em as [Hp Ha']. split; [|split; [done|]; intros a Hin; apply Ha'; revert Hin; apply first_seen_elem].
  destruct (w_ip w host) eqn:Ei.
  - injection Ha as <- <-. by left.
  - right. apply io_bind_Done in Ha as (r & s4 & [= <- <-] & Ha). exists (log s).
    destruct (w_resolver w (log s) host p) as [[|x l]|]; try done. by injection Ha as <- <-.
Qed.

Lemma open_stream_targets url tried headers (s : hstate E) rq tried' s1 :
  guard_host w c url = Ok tt -> open_stream w c url tried headers s = (Done (rq, tried'), s1) ->
  if address_guard c then pinned (log s1) rq else rq_url rq = url /\ rq_sni rq = None.
Proof using Type.
  unfold open_stream. intros Hg H. destruct (address_guard c); cbn [negb] in H; [|by injection H as <- _ _].
  apply io_bind_Done in H as ([[host p] rest] & s2 & Hp & H). unfold pure_result in Hp.
  destruct (pinned_parts w url) as [[[h' p'] r']|] eqn:Epp; [|done]. injection Hp as -> -> -> <-. apply (guard_pins url) in Epp as [Hh ->]; [|done].
  apply io_bind_Done in H as (found & s3 & Hf & H). apply addresses_Done in Hf as (answers & Hans & Hpub & Hin).
  set (fresh := filter (fun a => a ∉ tried) found) in H.
  assert (Hfresh : forall a, a ∈ match fresh with [] => found | _ => fresh end -> a ∈ found).
  { intros a. destruct fresh eqn:Ef; [done|]. rewrite <- Ef. unfold fresh. by intros [_ ?]%list_elem_of_filter. }
  destruct (match fresh with [] => ([], found) | _ => (tried, fresh) end) as [tr fr] eqn:Efr.
  assert (Hfr : forall a, a ∈ fr -> a ∈ found) by (destruct fresh; injection Efr as <- <-; apply Hfresh). clear Hfresh Efr.
  destruct fr as [|a fr]; [done|]. cbn in H. injection H as <- _ <-.
  destruct (Hin a) as (text & ip & Ht & Hi & ->); [apply Hfr; left|]. split. exists host, rest, text, ip, answers. cbn [rq_sni rq_headers rq_url].
  split_and!; try done. by rewrite !dget_dset.
Qed.

(** ** The loop *)

Lemma emit_spends url n e (s : hstate E) : safe_http url (log s) e -> (sends [e] <= n)%nat -> spends url n s (emit e s).2.
Proof using Type. intros He Hn. split; [done|]. split; [by apply logs_one|]. cbn [emit snd log]. rewrite sends_app. lia. Qed.

Lemma sleep_spends url attempt resp until (s : hstate E) : spends url 0 s (sleep_before_retry w c attempt resp until s).2.
Proof using Type.
  unfold sleep_before_retry. destruct (_ <=? attempt); [apply quiet_spends; reflexivity|].
  revert s. apply spends_bind; [unfold backoff; quietly|]. intros delay _ s _. revert s.
  apply spends_bind; [quietly|]. intros asked _ s _. revert s.
  set (d := match asked with Some secs => Z.max delay secs | None => delay end).
  assert (Hfinal : forall d', d' <= ceiling c -> forall s : hstate E, spends url 0 s (emit (Sleep (Z.max 0 d')) s).2).
  { intros d' Hd s. apply emit_spends; [|done]. cbn. lia. }
  apply spends_bind; [destruct until; quietly|]. intros d' s s1 Hd. apply Hfinal. destruct until as [u|].
  - apply io_bind_Done in Hd as (now & s2 & _ & [= <- _]). lia.
  - injection Hd as <- _. lia.
Qed.

Lemma handled_quiet x : preserves (quiet (E := E)) (handled x).
Proof using Type. unfold handled, fail. quietly. Qed.

Lemma send_spends {A} url rq (k : result response -> client A) (s : hstate E) : safe_http url (log s) (Send rq) ->
  (forall r, preserves quiet (k r)) -> spends url 1 s ((sent ← ask_world (Send rq) (fun t => w_send w t rq); k sent) s).2.
Proof using Type.
  intros Hs Hk. rewrite bind_run. cbn [ask_world].
  apply (spends_trans url 1 0 s (emit (Send rq) s).2); [by apply emit_spends|]. apply quiet_spends, Hk.
Qed.

Lemma one_attempt_spends url tried headers drain (reader : response -> client bytes) (s : hstate E) :
  (forall resp, preserves quiet (reader resp)) -> guard_host w c url = Ok tt -> gated (log s) ->
  spends url 1 s (one_attempt w c url tried headers drain reader s).2.
Proof using Type.
  intros Hr Hg Hgate. unfold one_attempt. apply (spends_seq url 0 1).
  { rewrite attempt_snd. apply quiet_spends, quiet_open_stream. }
  intros r s1 Ho%attempt_Done. pose proof (quiet_open_stream w c url tried headers s) as Hq. rewrite Ho in Hq. cbn [snd] in Hq.
  destruct r as [[rq tried1]|x].
  - apply (open_stream_targets url) in Ho; [|done]. apply (gated_quiet _ _ Hq) in Hgate.
    apply (spends_seq url 1 0); [|intros; apply quiet_spends; reflexivity]. unfold try_else.
    apply (spends_seq url 1 0); [|intros [[[resp body] problem]|x] s2 _; apply quiet_spends; [reflexivity|apply handled_quiet]].
    rewrite attempt_snd. apply send_spends; [done|]. intros r. quietly.
  - apply (spends_seq url 0 1); [apply quiet_spends, handled_quiet|]. intros v s2 _. eapply spends_le; [|apply quiet_spends; reflexivity]. lia.
Qed.

Lemma request_loop_spends n url headers (reader : response -> client bytes) drain accept until probe :
  (forall resp, preserves quiet (reader resp)) -> guard_host w c url = Ok tt -> forall tried last (s : hstate E),
  spends url n s (request_loop w c n url headers reader drain accept until probe tried last s).2.
Proof using Type.
  intros Hr Hg. induction n as [|n IH]; intros tried last s; cbn [request_loop]; [apply quiet_spends; reflexivity|].
  assert (Hagain : forall index resp x tried s, spends url n s
    ((_ ← sleep_before_retry w c index resp until; request_loop w c n url headers reader drain accept until probe tried (Some x)) s).2).
  { intros index resp x tr s1. apply (spends_seq url 0 n); [apply sleep_spends|]. intros u s2 _. apply IH. }
  apply (spends_seq url 0 (S n)); [apply quiet_spends, quiet_check_valid|]. intros u s1 Hgate%check_valid_gated.
  assert (Hd : preserves (quiet (E := E)) (match until with None => mret tt | Some u => now ← monotonic w; raise_when (u - now <=? 0) (plain HttpError) end))
    by quietly.
  apply (spends_seq url 0 (S n)); [apply quiet_spends, Hd|]. intros u' s2 Hs2. specialize (Hd s1). rewrite Hs2 in Hd. cbn [snd] in Hd.
  apply (gated_quiet _ _ Hd) in Hgate.
  apply (spends_seq url 1 n); [by apply one_attempt_spends|]. intros [v tr] s3 _.
  destruct v as [resp body problem|x]; [|apply Hagain]. 
  assert (H0 : forall s : hstate E, spends url n s s) by (intros s'; eapply spends_le; [|apply quiet_spends; reflexivity]; lia).
  repeat case_match; try apply Hagain; apply H0.
Qed.

Lemma request_url_spends url headers (reader : response -> client bytes) drain accept until (probe : bool) : (forall resp, preserves quiet (reader resp)) ->
  forall s : hstate E, spends url (if probe then 1 else Z.to_nat (attempts (retry c))) s (request_url w c url headers reader drain accept until probe s).2.
Proof using Type.
  intros Hr. unfold request_url. destruct (guard_host w c url) as [[]|e] eqn:Hg; intros s.
  - eapply spends_le; [|apply request_loop_spends; done]. unfold is_probe_first. destruct probe; lia.
  - eapply spends_le; [|apply quiet_spends; reflexivity]. lia.
Qed.

Lemma http_get_json_spends url (s : hstate E) : spends url (Z.to_nat (attempts (retry c))) s (http_get_json w c url s).2.
Proof using Type.
  unfold http_get_json. revert s. apply spends_bind; [apply quiet_check_valid|]. intros _ _ s _. revert s.
  apply spends_bind; [apply quiet_pure|]. intros _ _ s _. revert s. apply spends_bind; [apply quiet_cache_get|].
  intros cached _ s _. destruct cached as [data|]; [eapply spends_le; [|apply quiet_spends; reflexivity]; lia|].
  rewrite <- (Nat.add_0_r (Z.to_nat _)). apply spends_seq; [by apply request_url_spends; intros; apply quiet_read_verbatim|].
  intros [resp body] s1 _. apply quiet_spends. unfold fail.
  assert (Hq : forall m : client jobject, preserves quiet m -> quiet s1 (m s1).2) by done. apply Hq. quietly.
Qed.

Lemma http_get_bytes_spends url m etag d (s : hstate E) : spends url (Z.to_nat (attempts (retry c))) s (http_get_bytes w c url m etag d s).2.
Proof using Type.
  unfold http_get_bytes. revert s. apply spends_bind; [apply quiet_check_valid|]. intros _ _ s _. revert s.
  apply spends_bind; [apply quiet_pure|]. intros cap _ s _. revert s. apply spends_bind; [apply quiet_pure|]. intros sent _ s _. revert s.
  apply spends_bind; [destruct d; quietly|]. intros ut _ s _. rewrite <- (Nat.add_0_r (Z.to_nat _)).
  apply spends_seq; [by apply request_url_spends; intros; apply quiet_read_verbatim|].
  intros [resp body] s1 _. apply quiet_spends. by destruct (_ =? _).
Qed.

Lemma probe_spends url m (s : hstate E) : spends url 1 s (probe w c url m s).2.
Proof using Type.
  unfold probe. revert s. apply spends_bind; [apply quiet_check_valid|]. intros _ _ s _. revert s.
  apply spends_bind; [apply quiet_pure|]. intros n _ s _. rewrite <- (Nat.add_0_r 1).
  apply spends_seq; [by apply (request_url_spends _ _ _ _ _ _ true); intros; apply quiet_read_verbatim|].
  intros [resp body] s1 _. apply quiet_spends. reflexivity.
Qed.
End safe.

(** * What a read returns *)

Section answers.
Context {E : Type} (w : world) (c : EbsiHttpClient).
Abbreviation client := (io failure (hstate E)).

Lemma pure_result_Done {A} (r : result A) (s : hstate E) a s' : pure_result r s = (Done a, s') <-> r = Ok a /\ s' = s.
Proof using Type. destruct r; cbn; unfold mret, io_ret, fail, raise; naive_solver. Qed.

Lemma read_chunks_bounded cap deadline chunks : forall wire decoder body (s : hstate E) d' body' s',
  match decoder with None => wire = len body | Some _ => True end -> len body <= Z.max 0 cap ->
  read_chunks w cap deadline chunks wire decoder body s = (Done (d', body'), s') -> len body' <= Z.max 0 cap.
Proof using Type.
  induction chunks as [|[b|e] chunks IH]; intros wire decoder body s d' body' s' Hd Hb H; cbn [read_chunks] in H; [by injection H as <- <- _| |done].
  apply io_bind_Done in H as (now & s1 & _ & H). apply io_bind_Done in H as (_ & s2 & _ & H).
  apply io_bind_Done in H as (u & s3 & Hw & H). apply raise_when_Done in Hw as [Hw%Z.ltb_ge _].
  destruct decoder as [d|]; [|eapply IH, H; unfold len in *; rewrite length_app; lia].
  apply io_bind_Done in H as (_ & s4 & _ & H). destruct (inflate _ d b _) as [[piece d1]|]; [|done].
  apply io_bind_Done in H as (u' & s5 & Hp & H). apply raise_when_Done in Hp as [Hp%Z.ltb_ge _].
  apply io_bind_Done in H as (_ & s6 & _ & H). eapply IH, H; [done|]. unfold len in *. rewrite length_app. lia.
Qed.

Lemma read_verbatim_bounded resp cap until (s : hstate E) body s' : read_verbatim w c resp cap until s = (Done body, s') -> len body <= Z.max 0 cap.
Proof using Type.
  unfold read_verbatim. destruct (decoder_for w _) as [decoder|]; [|done]. intros H. apply io_bind_Done in H as (_ & s1 & _ & H).
  apply io_bind_Done in H as (now & s2 & _ & H). apply io_bind_Done in H as ([d b] & s3 & Hr & H).
  apply io_bind_Done in H as (_ & s4 & _ & [= <- _]). eapply read_chunks_bounded, Hr; [by destruct decoder|]. unfold len; cbn [length]; lia.
Qed.

(** The body of an answer is empty, or what the reader made of a 200. *)
Lemma request_loop_body (Q : bytes -> Prop) n url headers (reader : response -> client bytes) drain accept until probe :
  Q [] -> (forall resp s body s', reader resp s = (Done body, s') -> Q body) -> forall tried last s resp body s',
  request_loop w c n url headers reader drain accept until probe tried last s = (Done (resp, body), s') -> Q body.
Proof using Type.
  intros H0 HQ. induction n as [|n IH]; intros tried last s resp body s' H; cbn [request_loop] in H; [done|].
  apply io_bind_Done in H as (_ & s1 & _ & H). apply io_bind_Done in H as (_ & s2 & _ & H).
  apply io_bind_Done in H as ([v tr] & s3 & Hv & H).
  assert (Hagain : forall index r x tr s,
    (_ ← sleep_before_retry w c index r until; request_loop w c n url headers reader drain accept until probe tr (Some x)) s = (Done (resp, body), s') -> Q body).
  { intros index r x tr' s4 Hg. apply io_bind_Done in Hg as (_ & s5 & _ & Hg). by eapply IH. }
  destruct v as [resp' body' problem|x]; [|exact (Hagain _ _ _ _ _ H)].
  assert (Hbody : Q body').
  { unfold one_attempt in Hv. apply io_bind_Done in Hv as ([[rq tr']|x] & s4 & _ & Hv).
    - apply io_bind_Done in Hv as (v & s5 & Ha & [= -> <- _]). unfold try_else in Ha. apply io_bind_Done in Ha as (r & s6 & Hm%attempt_Done & Ha).
      destruct r as [[[resp2 body2] problem2]|x].
      + injection Ha as <- <- <- _. apply io_bind_Done in Hm as (sent & s7 & _ & Hm). apply io_bind_Done in Hm as (resp3 & s8 & _ & Hm).
        destruct (_ =? 200).
        * apply io_bind_Done in Hm as (b & s9 & Hb%HQ & [= _ <- _]). done.
        * destruct drain; [|by injection Hm as _ <- _]. apply io_bind_Done in Hm as (p & s9 & _ & [= _ <- _]). done.
      + unfold handled in Ha. by repeat case_match.
    - apply io_bind_Done in Hv as (v & s5 & Hh & [= -> _ _]). unfold handled in Hh. by repeat case_match. }
  repeat case_match; try (exact (Hagain _ _ _ _ _ H)); try done; by injection H as <- <- _.
Qed.

Lemma request_url_body (Q : bytes -> Prop) url headers (reader : response -> client bytes) drain accept until probe s resp body s' :
  Q [] -> (forall resp s body s', reader resp s = (Done body, s') -> Q body) ->
  request_url w c url headers reader drain accept until probe s = (Done (resp, body), s') -> Q body.
Proof using Type. intros H0 HQ H. apply io_bind_Done in H as (_ & s1 & _ & H). by eapply request_loop_body. Qed.
End answers.

(** * Properties *)

(** C26: Where the EBSI client's reads go.  Whatever the URL, the arguments and the world, every
    request [get_json], [get_bytes] or [probe] sends goes to the URL it was given only if the
    host guard accepts that URL (https, an allow-listed host, port 443, no userinfo) and the
    client's lifetime has not ended by a reading of its clock with nothing sent or slept since;
    with the address guard on, it goes to a literal address of an answer of the resolver given
    just before, every address of which is public, with the host's name for TLS and [Host].
    A sleep is never negative nor longer than the policy's ceiling, and at most one request per
    attempt is sent, one in all by a probe. *)
Theorem ebsi_reads_reach_only_guarded_origins {E} w c url (s : hstate E) :
  spends w c url (Z.to_nat (attempts (retry c))) s (http_get_json w c url s).2 /\
  (forall max_bytes etag deadline, spends w c url (Z.to_nat (attempts (retry c))) s (http_get_bytes w c url max_bytes etag deadline s).2) /\
  forall max_bytes, spends w c url 1 s (probe w c url max_bytes s).2.
Proof.
  split; [apply http_get_json_spends|]. split; [intros; apply http_get_bytes_spends|]. intros. apply probe_spends.
Qed.

(** A read holds no more than its cap.  Whatever the server sends, compressed or not, the body
    [get_bytes] or [probe] returns is no longer than the smaller of the cap asked for and the
    client's, and what [get_json] returns is cached or is the JSON object of a body within the
    client's cap. *)
Theorem ebsi_body_within_cap {E} w c url (s s' : hstate E) :
  (forall n etag deadline body tag, http_get_bytes w c url (JInt n) etag deadline s = (Done (Some body, tag), s') ->
     len body <= Z.max 0 (Z.min n (max_bytes c))) /\
  (forall n status body, probe w c url (JInt n) s = (Done (status, body), s') -> len body <= Z.max 0 (Z.min n (max_bytes c))) /\
  (forall data, http_get_json w c url s = (Done data, s') ->
     (exists now d d', Cache.get d now url = (Some data, d')) \/
     exists body, w_json w body = Ok (JDict data) /\ len body <= Z.max 0 (max_bytes c)).
Proof.
  assert (H0 : forall cap, len (A := Z) [] <= Z.max 0 cap) by (intros; unfold len; cbn [length]; lia). split_and!.
  - intros n etag deadline body tag H. unfold http_get_bytes in H. apply io_bind_Done in H as (_ & s1 & _ & H).
    apply io_bind_Done in H as (cap & s2 & Hc & H). apply pure_result_Done in Hc as [(k & Hk & [= <-])%bind_Ok _].
    unfold checked_cap in Hk. apply bind_Ok in Hk as (_ & _ & [= <-]).
    apply io_bind_Done in H as (sent & s3 & _ & H). apply io_bind_Done in H as (ut & s4 & _ & H).
    apply io_bind_Done in H as ([resp b] & s5 & Hb & H).
    apply (request_url_body w c (fun b => len b <= Z.max 0 (Z.min n (max_bytes c)))) in Hb; [|done|intros ????; apply read_verbatim_bounded].
    destruct (_ =? 304); [done|]. by injection H as <- _ _.
  - intros n status body H. unfold probe in H. apply io_bind_Done in H as (_ & s1 & _ & H).
    apply io_bind_Done in H as (k & s2 & Hk & H). apply pure_result_Done in Hk as [(_ & _ & [= <-])%bind_Ok _].
    apply io_bind_Done in H as ([resp b] & s3 & Hb & [= _ <- _]).
    by apply (request_url_body w c (fun b => len b <= Z.max 0 (Z.min n (max_bytes c)))) in Hb; [|done|intros ????; apply read_verbatim_bounded].
  - intros data H. unfold http_get_json in H. apply io_bind_Done in H as (_ & s1 & _ & H). apply io_bind_Done in H as (_ & s2 & _ & H).
    apply io_bind_Done in H as (cached & s3 & Hc & H). destruct cached as [data'|].
    + injection H as <- <-. left. unfold cache_get in Hc. apply io_bind_Done in Hc as (now & s4 & _ & Hc). unfold with_cache in Hc.
      destruct (Cache.get (cache s4) now url) as [o d'] eqn:Eg. injection Hc as -> _. by exists now, (cache s4), d'.
    + right. apply io_bind_Done in H as ([resp b] & s4 & Hb & H).
      apply (request_url_body w c (fun b => len b <= Z.max 0 (max_bytes c))) in Hb; [|done|intros ????; apply read_verbatim_bounded].
      exists b. split; [|done]. destruct (w_json w b) as [[]|]; try done. by apply io_bind_Done in H as (_ & s5 & _ & [= <- _]).
Qed.

(** C28: The lifetime of a node list ends every read.  Once the injected clock reads the instant
    the client is valid until, or later, each reader fails with [NodeListExpired] after that
    one reading: neither the cache nor the resolver nor the network is touched. *)
Theorem expired_client_reads_nothing {E} w c url until value now (s : hstate E) (Hu : valid_until c = Some until)
    (Hc : w_clock w (log s) = Some value) (Hv : as_utc value = Ok now) (Hlate : until <= now) :
  let s' := {| log := log s ++ [Wall]; cache := cache s; extra := extra s |} in
  http_get_json w c url s = (Failed (plain NodeListExpired), s') /\
  (forall max_bytes etag deadline, http_get_bytes w c url max_bytes etag deadline s = (Failed (plain NodeListExpired), s')) /\
  forall max_bytes, probe w c url max_bytes s = (Failed (plain NodeListExpired), s').
Proof.
  intros s'. assert (H : check_valid w c s = (Failed (plain NodeListExpired), s')).
  { unfold check_valid. rewrite Hu. unfold read_clock. rewrite !bind_run. cbn [ask_world]. rewrite Hc, Hv. cbn.
    by rewrite (proj2 (Z.leb_le until now) Hlate). }
  split; [|split; intros]; unfold http_get_json, http_get_bytes, probe; rewrite bind_run; by rewrite H.
Qed.

(** ** The Trusted Nodes List *)

Section tnl_lemmas.
Context {E : Type} (w : world) (c : EbsiHttpClient).

(** A safe event of a read of one of the four files. *)
Definition tnl_event (t : list event) (e : event) : Prop := exists name, name ∈ TNL_FILES /\ safe_http w c (tnl_url name) t e.

Lemma tnl_files_run names supplied end_ (s s' : hstate E) r : names ⊆ TNL_FILES -> tnl_files w c names supplied end_ s = (r, s') ->
  logs tnl_event (log s) (log s') /\ (sends (log s') <= sends (log s) + length names * Z.to_nat (attempts (retry c)))%nat /\
  forall out, r = Done out -> out.*1 = names.
Proof using Type.
  revert s s' r. induction names as [|name names IH]; intros s s' r Hn H; cbn [tnl_files] in H.
  - injection H as <- <-. split_and!; [reflexivity|lia|]. by intros out [= <-].
  - assert (Hname : forall n (s1 s2 : hstate E), spends w c (tnl_url name) n s1 s2 -> logs tnl_event (log s1) (log s2) /\ (sends (log s2) <= sends (log s1) + n)%nat).
    { intros n s1 s2 (_ & Hl & Hs). split; [|done]. eapply logs_mono, Hl. intros t e He. exists name. split; [set_solver|done]. }
    rewrite bind_run in H. pose proof (quiet_monotonic w s) as Hq. apply (quiet_spends w c (tnl_url name)), Hname in Hq as [L1 C1].
    destruct (monotonic w s) as [[now|x] s1]; cbn [snd] in *; [|injection H as <- <-; split_and!; [done|lia|done]].
    rewrite bind_raise_when in H. destruct (_ <=? 0); [injection H as <- <-; split_and!; [done|lia|done]|].
    rewrite bind_run in H. set (m := http_get_bytes _ _ _ _ _ _) in H.
    assert (Hm : spends w c (tnl_url name) (Z.to_nat (attempts (retry c))) s1 (m s1).2) by apply http_get_bytes_spends.
    apply Hname in Hm as [L2 C2]. destruct (m s1) as [[a|x] s2]; cbn [snd length] in *; [|injection H as <- <-; split_and!; [by etrans|lia|done]].
    rewrite bind_run in H. destruct (tnl_files w c names supplied end_ s2) as [r3 s3] eqn:E3. apply IH in E3 as (L3 & C3 & Hout); [|set_solver].
    destruct r3 as [rest|x]; injection H as <- <-; (split_and!; [by etrans; [|etrans]|lia|]); [|done].
    intros out [= <-]. rewrite fmap_cons. cbn [fst]. by rewrite (Hout rest).
Qed.
End tnl_lemmas.

(** The Trusted Nodes List is fetched from its own host alone.  A client that allow-lists
    anything but [tnl.ebsi.eu] sends nothing; otherwise every request goes to one of the four
    documents under the same rules as every read, at most the policy's attempts per document,
    and a result, when there is one, holds the four documents in order. *)
Theorem tnl_documents_from_tnl_host {E} w c etags deadline_s (s : hstate E) :
  let '(r, s') := get_tnl_files w c etags deadline_s s in
  ((exists h, h ∈ allowed c /\ h <> TNL_HOST) -> log s' = log s /\ r = Failed (plain HttpForbiddenHost)) /\
  logs (tnl_event w c) (log s) (log s') /\ (sends (log s') <= sends (log s) + 4 * Z.to_nat (attempts (retry c)))%nat /\
  forall out, r = Done out -> out.*1 = TNL_FILES.
Proof.
  destruct (get_tnl_files w c etags deadline_s s) as [r s'] eqn:H. unfold get_tnl_files in H. rewrite bind_raise_when in H.
  destruct (negb _) eqn:Eg; [injection H as <- <-; split_and!; [done|reflexivity|lia|done]|].
  split. { apply negb_false_iff, andb_true_iff in Eg as [Eg _]. rewrite forallb_forall in Eg. intros (h & Hin & Hne).
    apply list_elem_of_In, Eg, bool_decide_eq_true in Hin. done. }
  assert (Hstop : forall x, (Failed x, s) = (r, s') -> logs (tnl_event w c) (log s) (log s') /\
    (sends (log s') <= sends (log s) + 4 * Z.to_nat (attempts (retry c)))%nat /\ forall out, r = Done out -> out.*1 = TNL_FILES).
  { intros x [= <- <-]. split_and!; [reflexivity|lia|done]. }
  rewrite bind_run in H. destruct (supplied_etags etags) as [supplied|e]; [|exact (Hstop _ H)]. cbn [pure_result mret io_ret] in H.
  assert (Hm : logs (tnl_event w c) (log s) (log s ++ [Mono])) by (apply logs_one; exists ($"tnl.json"); split; [apply (bool_decide_unpack _); by vm_compute|done]).
  rewrite bind_run in H. cbn [monotonic ask_world] in H. rewrite bind_run in H.
  destruct (checked_deadline deadline_s) as [d|e]; cbn [pure_result mret io_ret] in H.
  - apply tnl_files_run in H as (L & C & Hout); [|done]. cbn [log length] in *. rewrite sends_app in C. split_and!; [by etrans|cbn in *; lia|done].
  - injection H as <- <-. cbn [log]. rewrite sends_app. split_and!; [done|cbn; lia|done].
Qed.

(** ** Examples *)

Definition stored_inflate : inflater :=
  {| ist := bool; decompressor := fun _ => false; inflate := fun _ b n => Ok (take (Z.to_nat n) b, true); at_eof := id; unused_data := fun _ => [] |}.
(** Two addresses, a 503 and then an answer; a monotonic clock that does not move. *)
Definition example_world : world :=
  let asked t := length (List.filter is_send t) in
  {| w_ipv6 := fun _ => false; w_ip := example_ip; w_lower := lower_ascii; w_space := fun ch => ch =? 32;
     w_json := fun b => if bool_decide (b = [123; 125]) then Ok (JDict []) else Err ValueError; w_zlib := stored_inflate;
     w_parsedate := fun _ => None; w_clock := fun t => Some (Datetime (Z.of_nat (asked t)) (Some (Some 0))); w_utcnow := fun _ => 0; w_mono := fun _ => 0;
     w_health := fun _ => None; w_uniform := fun _ n => n; w_resolver := fun _ _ _ => Ok [JStr ($"8.8.8.8")];
     w_send := fun t rq => Ok {| rp_status := if (asked t <? 1)%nat then 503 else 200;
                                 rp_header := fun h => if bool_decide (h = $"Retry-After") then Some ($"3600") else None;
                                 rp_body := [Bytes [123]; Bytes [125]] |} |}.
Definition example_client (until : option Z) (guard : bool) : EbsiHttpClient :=
  {| allowed := [$"h.example"]; timeout := SECOND; max_bytes := 10; cache_ttl := At SECOND; retry := default_retry; address_guard := guard;
     valid_until := until |}.
Definition example_state : hstate unit := {| log := []; cache := new_cache (At SECOND) 10; extra := tt |}.

(** A retry after five seconds at most, whatever was asked; an hour was. *)
Example retried_read :
  let '(r, s) := http_get_json example_world (example_client None true) ($"https://h.example/v?q") example_state in
  r = Done [] /\ List.filter (fun e => negb (calm e)) (log s) =
    let rq := {| rq_url := $"https://8.8.8.8:443/v?q"; rq_headers := [($"Host", $"h.example"); ($"Connection", $"close")]; rq_sni := Some ($"h.example") |} in
    [Send rq; Sleep (5 * SECOND); Send rq].
Proof. by vm_compute. Qed.

(** The list expires during the sleep: the retry is not sent. *)
Example expired_during_retry :
  let '(r, s) := http_get_json example_world (example_client (Some 1) false) ($"https://h.example/v?q") example_state in
  r = Failed (plain NodeListExpired) /\ sends (log s) = 1%nat.
Proof. by vm_compute. Qed.

Example forbidden_origins :
  (fun u => guard_host example_world (example_client None false) u) <$>
    [$"https://h.example/"; $"https://h.example:443/"; $"https://h.example:8443/"; $"http://h.example/"; $"https://u@h.example/"; $"https://i.example/"] =
  [Ok tt; Ok tt; Err HttpForbiddenHost; Err HttpForbiddenHost; Err HttpForbiddenHost; Err HttpForbiddenHost].
Proof. by vm_compute. Qed.

Lemma ebsi_body_within_cap_witness : exists s' body,
  http_get_bytes example_world (example_client None false) ($"https://h.example/v") (JInt 5) JNull None example_state = (Done (Some body, None), s') /\
  len body <= 5.
Proof.
  destruct (http_get_bytes example_world (example_client None false) ($"https://h.example/v") (JInt 5) JNull None example_state) as [r s'] eqn:H.
  pose proof H as H'. vm_compute in H'. injection H' as <- Hs. eexists s', [123; 125]. split; [done|].
  exact (proj1 (ebsi_body_within_cap example_world (example_client None false) _ _ _) _ _ _ _ _ H).
Defined.

Lemma expired_client_reads_nothing_witness :
  http_get_json example_world (example_client (Some 0) false) ($"https://h.example/v") example_state =
  (Failed (plain NodeListExpired), {| log := [Wall]; cache := new_cache (At SECOND) 10; extra := tt |}).
Proof.
  destruct (expired_client_reads_nothing example_world (example_client (Some 0) false) ($"https://h.example/v") 0 (Datetime 0 (Some (Some 0))) 0 example_state)
    as [H _]; [done|done|done|done|]. exact H.
Defined.

Lemma tnl_documents_from_tnl_host_witness :
  get_tnl_files example_world (example_client None false) JNull (JInt 30) example_state = (Failed (plain HttpForbiddenHost), example_state).
Proof.
  pose proof (tnl_documents_from_tnl_host example_world (example_client None false) JNull (JInt 30) example_state) as H.
  destruct (get_tnl_files _ _ _ _ _) as [r s'] eqn:Hg. vm_compute in Hg. by injection Hg as <- <-.
Defined.
