(* ===== verification/NodeClient.v ===== *)
(** [openvc_ebsi.node_client] (src/src/openvc_ebsi/node_client.py): a client bound to a verified
    node list, with one node per walk.

    A walk is the tree of the reads it makes through its session: it sees each answer or each
    exception and goes on, returns or raises.  The health verdicts are the extra state of the
    HTTP client's computations; a policy's output may depend on all that happened before.  The
    resolver a session carries reads through the session's [get_json] (EbsiRegistry.v), so a walk
    over it is such a tree. *)
From S2P Require Import Prelude Errors Effects PyStr Json PyNum Datetime StatusIssue Urllib Fetch EbsiRegistry Nodes Cache HttpClient.

Inductive NodeFailureKind := Unreachable | Unavailable | Forbidden | Redirect | Limits | Unhealthy.
Record NodeFailure := { nf_origin : pystr; nf_kind : NodeFailureKind; nf_status : option Z }.

#[export] Instance kind_eq_dec : EqDecision NodeFailureKind.
Proof. solve_decision. Defined.
#[export] Instance node_failure_eq_dec : EqDecision NodeFailure.
Proof. solve_decision. Defined.

Definition ALIVE_PATH : pystr := $"/v1/alive".
Definition NODE_RETRY : RetryPolicy :=
  {| attempts := 2; backoff_base := SECOND / 4; backoff_max := 5 * SECOND; retry_statuses := [429; 500; 502; 503; 504]; retry_after_max := None |}.

(** ** Failures and their classification *)

Definition is_plain_http_error (x : failure) : bool := bool_decide (x_class x = HttpError).
Definition in_status (low high : Z) (x : failure) : bool :=
  is_plain_http_error x && (low <=? default 0 (x_status x)) && (default 0 (x_status x) <? high).

(** The first match wins. *)
Definition FAILOVER : list ((failure -> bool) * NodeFailureKind) :=
  [(fun x => is_a x HttpForbiddenAddress, Unreachable);
   (fun x => is_a x HttpTransientExhausted && bool_decide (x_status x = None), Unreachable);
   (fun x => is_a x HttpTransientExhausted, Unavailable);
   (fun x => is_plain_http_error x && (bool_decide (x_status x = Some 429) || (500 <=? default 0 (x_status x))), Unavailable);
   (fun x => is_plain_http_error x && bool_decide (x_status x = Some 403), Forbidden);
   (in_status 300 400, Redirect);
   (fun x => is_plain_http_error x && (bool_decide (x_status x = None) || bool_decide (x_status x = Some 200)), Limits)].

Definition classify (x : failure) : option NodeFailureKind := snd <$> find (fun row => row.1 x) FAILOVER.

Definition is_terminal (x : failure) : bool :=
  is_a x NodeListExpired || is_a x NodeClientConfigError || (is_a x HttpForbiddenHost && negb (is_a x HttpForbiddenAddress)).

Definition failure_of (origin : pystr) (x : failure) : option NodeFailure :=
  (fun kind => {| nf_origin := origin; nf_kind := kind; nf_status := x_status x |}) <$> classify x.

(** ** Walks and sessions *)

Inductive walk (T : Type) :=
  | Returned (value : T)
  | Raised (x : failure)
  | Get (url : json) (k : Effects.outcome failure jobject -> walk T).
Arguments Returned {T} _.
Arguments Raised {T} _.
Arguments Get {T} _ _.

Record NodeSession := { s_origin : pystr; s_pin : pystr }.
(** What a session has recorded: the first node failure and the first terminal error. *)
Record recorded := { r_failure : option NodeFailure; r_terminal : option failure }.
Definition nothing : recorded := {| r_failure := None; r_terminal := None |}.

Definition note (session : NodeSession) (r : recorded) (x : failure) : recorded :=
  if is_terminal x then {| r_failure := r_failure r; r_terminal := match r_terminal r with None => Some x | t => t end |}
  else {| r_failure := match r_failure r with None => failure_of (s_origin session) x | f => f end; r_terminal := r_terminal r |}.

Record EbsiNodeClient := {
  environment : pystr; expires_at : Z; origins : list pystr; http : EbsiHttpClient; max_nodes : Z;
  (** what the policy yields, [None] when it raises *)
  policy : list event -> list pystr -> option (list json) }.

(** A memoised verdict: [None] for a healthy node. *)
Definition Verdict : Type := option NodeFailure.

Section node_client.
Context (w : world) (c : EbsiNodeClient).
Abbreviation health := (@TtlCache Verdict).
Abbreviation client := (io failure (hstate health)).

Definition new_session (origin : pystr) : result NodeSession :=
  pin ← EbsiRegistry.origin (w_ipv6 w) origin; Ok {| s_origin := origin; s_pin := pin |}.

(** The body of the session's [get_json], before what it notes. *)
Definition session_read (session : NodeSession) (url : json) : client jobject :=
  _ ← check_valid w (http c);
  match url with
  | JStr text =>
      _ ← raise_when (negb (on_origin (w_ipv6 w) text (s_pin session))) (plain HttpForbiddenHost);
      http_get_json w (http c) text
  | _ => fail HttpForbiddenHost
  end.

(** The walk's own run: its outcome and what the session recorded. *)
Fixpoint run_walk {T} (session : NodeSession) (m : walk T) (r : recorded) : client (Effects.outcome failure T * recorded) :=
  match m with
  | Returned v => mret (Done v, r)
  | Raised x => mret (Failed x, r)
  | Get url k =>
      answer ← attempt (session_read session url);
      let r := match answer with Failed x => if is_a x EbsiError then note session r x else r | Done _ => r end in
      run_walk session (k answer) r
  end.

(** ** Health *)

Definition alive (body : bytes) : bool :=
  match w_json w body with Ok (JDict data) => bool_decide (dget data ($"health_global") = Some (JInt 1)) | _ => false end.

(** One reading of the memo's clock, checked. *)
Definition checked_reading (reading : option json) : result Z :=
  match reading with
  | None => Err NodeClientConfigError
  | Some v =>
      match as_num v with
      | Some n => raise_if (negb (num_ltb (NInt (- 2 ^ 63)) n && num_ltb n (NInt (2 ^ 63)))) NodeClientConfigError;; Ok (ticks n)
      | None => Err NodeClientConfigError
      end
  end.
Definition health_now : client Z := reading ← ask_world HealthTick (w_health w); pure_result (checked_reading reading).

Definition get_health_memo : client health := fun s => (Done (extra s), s).
Definition set_health (h : health) : client unit := fun s => (Done tt, {| log := log s; cache := cache s; extra := h |}).
Definition health_get (origin : pystr) : client (option Verdict) :=
  now ← health_now;
  h ← get_health_memo;
  let '(v, h) := Cache.get h now origin in
  _ ← set_health h; mret v.
(** [set]: the room is made before the clock is read. *)
Definition health_set (origin : pystr) (v : Verdict) : client unit :=
  h ← get_health_memo;
  let full := negb (dmem (data h) origin) && (max_entries h <=? len (data h)) in
  _ ← set_health (if full then with_data h (tail (data h)) else h);
  now ← health_now;
  h ← pure_result (Cache.set h now origin (Some v));
  set_health h.

Definition unhealthy (origin : pystr) (status : option Z) : NodeFailure :=
  {| nf_origin := origin; nf_kind := Unhealthy; nf_status := status |}.

Definition probe_node (origin : pystr) : client Verdict :=
  reply ← attempt (probe w (http c) (origin ++ ALIVE_PATH) (JInt PROBE_MAX_BYTES));
  match reply with
  | Failed x =>
      if is_a x NodeListExpired || is_a x NodeClientConfigError then raise x
      else if is_a x EbsiError then mret (Some (unhealthy origin (x_status x)))
      else raise x
  | Done (status, body) => mret (if (status =? 200) && alive body then None else Some (unhealthy origin (Some status)))
  end.

Definition member (origin : json) : result pystr :=
  match origin with
  | JStr o => raise_if (negb (bool_decide (o ∈ origins c))) NodeClientConfigError;; Ok o
  | _ => Err NodeClientConfigError
  end.

Definition check_health (origin : json) : client bool :=
  origin ← pure_result (member origin);
  failure ← probe_node origin;
  _ ← health_set origin failure;
  mret (match failure with None => true | Some _ => false end).

Definition session (origin : json) : client NodeSession :=
  origin ← pure_result (member origin);
  _ ← check_valid w (http c);
  pure_result (new_session origin).

(** ** The choice of the node *)

(** The items against those already seen. *)
Fixpoint checked_items (seen : list pystr) (items : list json) : result (list pystr) :=
  match items with
  | [] => Ok []
  | item :: items =>
      o ← member item;
      raise_if (bool_decide (o ∈ seen)) NodeClientConfigError;;
      rest ← checked_items (o :: seen) items; Ok (o :: rest)
  end.
Definition order : client (list pystr) :=
  items ← observe (fun t => policy c t (origins c));
  match items with
  | None => fail NodeClientConfigError
  | Some items =>
      let items := take (S (length (origins c))) items in
      _ ← raise_when (bool_decide (items = [])) (plain NodeClientConfigError);
      pure_result (checked_items [] items)
  end.

(** What one candidate's attempt comes to: a value to return, or a failure to move on from. *)
Definition one_walk {T} (m : NodeSession -> walk T) (origin : pystr) : client (T + NodeFailure) :=
  session ← pure_result (new_session origin);
  '(answer, r) ← run_walk session (m session) nothing;
  match answer with
  | Failed x =>
      if negb (is_a x EbsiError) then raise x
      else match r_terminal r with
           | Some t => raise t
           | None => if is_terminal x then raise x
                     else match r_failure r with None => raise x | Some f => mret (inr f) end
           end
  | Done v =>
      match r_terminal r with
      | Some t => raise t
      | None => match r_failure r with None => mret (inl v) | Some f => mret (inr f) end
      end
  end.

(** The candidates in order: a value, or the failures of [NoHealthyNode]. *)
Fixpoint visit {T} (m : NodeSession -> walk T) (candidates : list pystr) (failures : list NodeFailure) (spent : Z) : client (T + list NodeFailure) :=
  match candidates with
  | [] => mret (inr failures)
  | origin :: candidates =>
      verdict ← health_get origin;
      match verdict with
      | Some (Some f) => visit m candidates (failures ++ [f]) spent
      | _ =>
          if max_nodes c <=? spent then mret (inr failures)
          else
            probed ← match verdict with
                     | Some _ => mret None
                     | None => p ← probe_node origin; _ ← health_set origin p; mret p
                     end;
            match probed with
            | Some f => visit m candidates (failures ++ [f]) (spent + 1)
            | None =>
                r ← one_walk m origin;
                match r with
                | inl v => mret (inl v)
                | inr f => _ ← health_set origin (Some f); visit m candidates (failures ++ [f]) (spent + 1)
                end
            end
      end
  end.

Definition run {T} (m : NodeSession -> walk T) : client (T + list NodeFailure) :=
  _ ← check_valid w (http c);
  candidates ← order;
  visit m candidates [] 0.
(** [run] as its caller sees it. *)
Definition run_or_raise {T} (m : NodeSession -> walk T) : client T :=
  r ← run m; match r with inl v => mret v | inr _ => fail NoHealthyNode end.
End node_client.

(** ** Construction *)

(** A [RetryPolicy] as it was built, and a result as it may be built by hand: [None] where the
    value is not of the class or the container the code asks for. *)
Record raw_retry := {
  rr_attempts : json; rr_statuses : option (list json); rr_backoff_base : json; rr_backoff_max : json; rr_retry_after_max : option Z }.
Record raw_result := { rl_environment : json; rl_nodes : option (list (option (json * json))); rl_expires : moment }.

Record node_options := {
  no_clock : bool; no_decode_jwt : bool; no_policy : bool; no_max_nodes : json; no_health_ttl : json; no_timeout : json; no_cache_ttl : json;
  no_max_response_bytes : json; no_retry : option (option raw_retry); no_user_agent : json; no_cache : bool;
  (** no guard, or an argument that is a guard or not *)
  no_address_guard : option bool; no_didr : pystr; no_tir : pystr }.

Definition MAX_SECONDS : Z := 10 ^ 9.

(** The nodes against the origins already read. *)
Fixpoint checked_nodes (environment : json) (seen : list pystr) (nodes : list (option (json * json))) : result (list pystr) :=
  match nodes with
  | [] => Ok []
  | None :: _ => Err NodeClientConfigError
  | Some (origin, host) :: nodes =>
      o ← catch_as (fun e => isinstance e NodeListError) NodeClientConfigError (check_node_origin origin environment);
      raise_if (negb (eq_str host (drop 8 o))) NodeClientConfigError;;
      raise_if (bool_decide (o ∈ seen)) NodeClientConfigError;;
      rest ← checked_nodes environment (seen ++ [o]) nodes; Ok (o :: rest)
  end.

Definition checked_result (result_ : option raw_result) : result (pystr * Z * list pystr) :=
  match result_ with
  | None => Err NodeClientConfigError
  | Some r =>
      instant ← as_utc (rl_expires r);
      match rl_nodes r with
      | Some nodes =>
          raise_if (negb ((1 <=? len nodes) && (len nodes <=? Z.of_nat MAX_NODES))) NodeClientConfigError;;
          origins ← checked_nodes (rl_environment r) [] nodes;
          match rl_environment r with JStr e => Ok (e, instant, origins) | _ => Err NodeClientConfigError end
      | None => Err NodeClientConfigError
      end
  end.

Definition checked_int (value : json) (low high : Z) : result Z :=
  match value with JInt n => raise_if (negb ((low <=? n) && (n <=? high))) NodeClientConfigError;; Ok n | _ => Err NodeClientConfigError end.

Definition checked_seconds (value : json) (zero_ok : bool) : result Z :=
  match as_num value with
  | Some n => raise_if (negb ((if zero_ok then negb (num_ltb n (NInt 0)) else num_gtb n (NInt 0))
                              && match num_compare n (NInt MAX_SECONDS) with Some Gt | None => false | _ => true end)) NodeClientConfigError;;
              Ok (ticks n)
  | None => Err NodeClientConfigError
  end.

Definition checked_retry (retry : option raw_retry) : result RetryPolicy :=
  match retry with
  | None => Err NodeClientConfigError
  | Some r =>
      attempts ← match rr_attempts r with JInt n => raise_if (n <? 1) NodeClientConfigError;; Ok n | _ => Err NodeClientConfigError end;
      statuses ← match rr_statuses r with
                 | Some l => mapR (fun s => match s with JInt n => Ok n | _ => Err NodeClientConfigError end) l
                 | None => Err NodeClientConfigError
                 end;
      base ← checked_seconds (rr_backoff_base r) true;
      max ← checked_seconds (rr_backoff_max r) true;
      Ok {| attempts := attempts; backoff_base := base; backoff_max := max; retry_statuses := statuses; retry_after_max := rr_retry_after_max r |}
  end.

Definition checked_user_agent (value : json) : result pystr :=
  match value with
  | JStr s => raise_if (negb ((1 <=? len s) && (len s <=? 256) && forallb (fun ch => (32 <=? ch) && (ch <=? 126)) s)) NodeClientConfigError;; Ok s
  | _ => Err NodeClientConfigError
  end.

Section for_nodes.
Context (w : world) (proxied : bool).
(** What an adapter name leads to, and the policy *)
Context (decode_point : pystr -> bytes -> option (Z * Z)) (fetch : list pystr -> pystr -> result json).
Context (decode : pystr -> result json) (unquote casefold : pystr -> pystr).
Context (policy_ : list event -> list pystr -> option (list json)).
Abbreviation health := (@TtlCache Verdict).
Abbreviation client := (io failure (hstate health)).

Definition required (b : bool) : client unit := raise_when (negb b) (plain NodeClientConfigError).

(** The client and its empty memo. *)
Definition for_nodes (result_ : option raw_result) (o : node_options) : client (EbsiNodeClient * health) :=
  _ ← required (no_clock o && no_decode_jwt o && no_policy o);
  max_nodes ← pure_result (checked_int (no_max_nodes o) 1 (Z.of_nat MAX_NODES));
  health_ttl ← pure_result (checked_seconds (no_health_ttl o) false);
  timeout ← pure_result (checked_seconds (no_timeout o) false);
  cache_ttl ← pure_result (checked_seconds (no_cache_ttl o) false);
  max_bytes ← pure_result (match no_max_response_bytes o with JInt n => raise_if (n <? 1) NodeClientConfigError;; Ok n | _ => Err NodeClientConfigError end);
  retry ← pure_result (match no_retry o with None => Ok NODE_RETRY | Some r => checked_retry r end);
  _ ← pure_result (checked_user_agent (no_user_agent o));
  _ ← required (no_cache o);
  _ ← required (default true (no_address_guard o));
  _ ← health_now w;
  '(environment, expires, origins) ← pure_result (checked_result result_);
  _ ← pure_result (catch_as (fun e => isinstance e ValueError || isinstance e TypeError) NodeClientConfigError
                     (_ ← did_registry_adapter decode_point (no_didr o);
                      _ ← tir_adapter fetch decode (w_ipv6 w) unquote casefold (no_tir o); Ok tt));
  now ← read_clock w;
  _ ← raise_when (expires <=? now) (plain NodeListExpired);
  http ← pure_result (new_http_client (w_lower w) proxied (drop 8 <$> origins)
    {| co_timeout := timeout; co_cache_ttl := At cache_ttl; co_retry := Some retry; co_max_bytes := Some max_bytes;
       co_guard := match no_address_guard o with None => false | Some _ => true end; co_valid_until := Datetime expires (Some (Some 0)); co_clock := AClock |});
  mret ({| environment := environment; expires_at := expires; origins := origins; http := http; max_nodes := max_nodes; policy := policy_ |},
        new_cache (At health_ttl) (Z.of_nat MAX_NODES)).
End for_nodes.

(** * One node per walk *)

Section lemmas.
Context (w : world) (c : EbsiNodeClient).
Abbreviation health := (@TtlCache Verdict).
Abbreviation client := (io failure (hstate health)).

(** An event of a read of the node [origin]: its health probe, or a URL on it, under the guards of
    every read. *)
Definition node_event (origin : pystr) (t : list event) (e : event) : Prop := exists url,
  (url = origin ++ ALIVE_PATH \/ exists pin, EbsiRegistry.origin (w_ipv6 w) origin = Ok pin /\ on_origin (w_ipv6 w) url pin = true) /\
  safe_http w (http c) url t e.

(** Nothing but reads of [origin], and the verdicts untouched. *)
Definition confined (origin : pystr) (s s' : hstate health) : Prop :=
  extra s' = extra s /\ logs (node_event origin) (log s) (log s').

#[export] Instance confined_preorder origin : PreOrder (confined origin).
Proof using Type.
  split; [by intros s; split|]. intros s1 s2 s3 [E1 H1] [E2 H2]. split; [congruence|by etrans].
Qed.

Lemma spends_confined origin url n s s' :
  (url = origin ++ ALIVE_PATH \/ exists pin, EbsiRegistry.origin (w_ipv6 w) origin = Ok pin /\ on_origin (w_ipv6 w) url pin = true) ->
  spends w (http c) url n s s' -> confined origin s s'.
Proof using Type. intros Hu (Hx & Hl & _). split; [done|]. eapply logs_mono, Hl. intros t e He. by exists url. Qed.

Lemma quiet_confined origin s s' : quiet s s' -> confined origin s s'.
Proof using Type. intros H. eapply spends_confined; [by left|]. by apply quiet_spends. Qed.

Lemma probe_confined origin : preserves (confined origin) (probe_node w c origin).
Proof using Type.
  intros s. unfold probe_node. apply preserves_bind; [apply _| |].
  - intros s1. rewrite attempt_snd. eapply spends_confined; [by left|]. apply probe_spends.
  - intros [[status body]|x]; [apply preserves_ret, _|]. repeat case_match; (apply preserves_ret || apply preserves_raise); apply _.
Qed.

Lemma new_session_pin origin session : new_session w origin = Ok session ->
  s_origin session = origin /\ EbsiRegistry.origin (w_ipv6 w) origin = Ok (s_pin session).
Proof using Type. unfold new_session. intros (pin & Hp & [= <-])%bind_Ok. done. Qed.

Lemma session_read_confined session url : new_session w (s_origin session) = Ok session ->
  preserves (confined (s_origin session)) (session_read w c session url).
Proof using Type.
  intros (_ & Hpin)%new_session_pin. unfold session_read.
  apply preserves_bind; [apply _|intros s; apply quiet_confined, quiet_check_valid|]. intros _.
  destruct url as [| | | |text| | |]; try (apply preserves_raise, _). intros s. rewrite bind_raise_when.
  destruct (on_origin _ text _) eqn:Eo; [|reflexivity]. eapply spends_confined, http_get_json_spends. right. by exists (s_pin session).
Qed.

Lemma run_walk_confined {T} session (m : walk T) : new_session w (s_origin session) = Ok session -> forall r,
  preserves (confined (s_origin session)) (run_walk w c session m r).
Proof using Type.
  intros Hs. induction m as [v|x|url k IH]; intros r; cbn [run_walk]; try (apply preserves_ret, _).
  apply preserves_bind; [apply _|apply preserves_attempt, session_read_confined, Hs|]. intros answer. apply IH.
Qed.

Lemma one_walk_confined {T} (m : NodeSession -> walk T) origin : preserves (confined origin) (one_walk w c m origin).
Proof using Type.
  unfold one_walk. destruct (new_session w origin) as [session|e] eqn:Hs; [|intros s; reflexivity].
  pose proof (new_session_pin _ _ Hs) as [Ho _]. intros s. rewrite bind_run. cbn [pure_result mret io_ret].
  refine (preserves_bind (confined origin) _ _ _ _ s).
  - rewrite <- Ho in Hs |- *. by apply run_walk_confined.
  - intros [answer r]. destruct answer; repeat case_match; (apply preserves_ret || apply preserves_raise); apply _.
Qed.

(** ** What the session records *)

Lemma failure_of_origin origin x f : failure_of origin x = Some f -> nf_origin f = origin.
Proof using Type. unfold failure_of. destruct (classify x); [|done]. by intros [= <-]. Qed.

Definition names (origin : pystr) (f : option NodeFailure) : Prop := match f with Some f => nf_origin f = origin | None => True end.

Lemma note_names session r x : names (s_origin session) (r_failure r) -> names (s_origin session) (r_failure (note session r x)).
Proof using Type.
  intros H. unfold note. destruct (is_terminal x); [done|]. cbn [r_failure]. destruct (r_failure r); [done|].
  destruct (failure_of _ x) eqn:E; [|done]. by apply failure_of_origin in E.
Qed.

Lemma run_walk_names {T} session (m : walk T) : forall r s answer r' s', names (s_origin session) (r_failure r) ->
  run_walk w c session m r s = (Done (answer, r'), s') -> names (s_origin session) (r_failure r').
Proof using Type.
  induction m as [v|x|url k IH]; intros r s answer r' s' Hr H; cbn [run_walk] in H; [by injection H as _ <- _| by injection H as _ <- _|].
  apply io_bind_Done in H as (a & s1 & _ & H). eapply IH, H. destruct a; [done|]. destruct (is_a _ _); [by apply note_names|done].
Qed.

Lemma one_walk_Done {T} (m : NodeSession -> walk T) origin s r s' : one_walk w c m origin s = (Done r, s') ->
  match r with
  | inl v => exists session, new_session w origin = Ok session /\ run_walk w c session (m session) nothing s = (Done (Done v, nothing), s')
  | inr f => nf_origin f = origin
  end.
Proof using Type.
  unfold one_walk. intros H. apply io_bind_Done in H as (session & s1 & Hs & H). apply pure_result_Done in Hs as [Hs ->].
  pose proof (new_session_pin _ _ Hs) as [Ho _]. apply io_bind_Done in H as ([answer rec] & s2 & Hw & H).
  pose proof (run_walk_names session (m session) nothing s answer rec s2 I Hw) as Hn. rewrite Ho in Hn.
  destruct answer as [v|x].
  - destruct rec as [rf [t|]]; cbn [r_terminal r_failure] in *; [done|]. destruct rf as [f|]; injection H as <- <-; [done|]. by exists session.
  - destruct (is_a x EbsiError); [|done]. cbn [negb] in H. destruct (r_terminal rec); [done|]. destruct (is_terminal x); [done|].
    destruct (r_failure rec); [|done]. by injection H as <- <-.
Qed.

Lemma probe_node_names origin s f s' : probe_node w c origin s = (Done f, s') -> names origin f.
Proof using Type.
  unfold probe_node. intros H. apply io_bind_Done in H as (reply & s1 & _ & H). destruct reply as [[status body]|x].
  - injection H as <- _. by destruct (_ && _).
  - destruct (_ || _); [done|]. destruct (is_a _ _); [|done]. by injection H as <- _.
Qed.

(** ** The memo *)

(** A failure is kept under the origin it names. *)
Definition health_ok (h : health) : Prop := forall k e f, (k, (e, Some (Some f))) ∈ data h -> nf_origin f = k.

Lemma health_ok_new ttl_s max : health_ok (new_cache ttl_s max).
Proof using Type. intros k e f Hx. by apply elem_of_nil in Hx. Qed.

(** A step that sends nothing and keeps the memo well formed. *)
Definition memo (s s' : hstate health) : Prop :=
  (health_ok (extra s) -> health_ok (extra s')) /\ exists new, log s' = log s ++ new /\ Forall (fun e => calm e = true) new.

#[export] Instance memo_preorder : PreOrder memo.
Proof using Type.
  split.
  - intros s. split; [done|]. exists []. by rewrite app_nil_r.
  - intros s1 s2 s3 (E1 & n1 & H1 & Q1) (E2 & n2 & H2 & Q2). split; [auto|]. exists (n1 ++ n2). rewrite H2, H1, app_assoc. split; [done|].
    by apply Forall_app.
Qed.
Lemma quiet_memo s s' : quiet s s' -> memo s s'.
Proof using Type. intros (Hx & H). split; [by rewrite Hx|done]. Qed.

Lemma health_now_quiet : preserves (quiet (E := health)) (health_now w).
Proof using Type. unfold health_now. quietly. Qed.

Lemma health_ok_sub h d : health_ok h -> d ⊆ data h -> health_ok (with_data h d).
Proof using Type. intros Hh Hd k e f Hin. eapply Hh, Hd, Hin. Qed.

Lemma set_health_memo h s : (health_ok (extra s) -> health_ok h) -> memo s (set_health h s).2.
Proof using Type. intros Hh. split; [done|]. exists []. by rewrite app_nil_r. Qed.

Lemma health_get_memo origin s r s' : health_get w origin s = (r, s') ->
  memo s s' /\ (health_ok (extra s) -> forall f, r = Done (Some (Some f)) -> nf_origin f = origin).
Proof using Type.
  unfold health_get. rewrite bind_run. pose proof (health_now_quiet s) as Hq. destruct (health_now w s) as [[now|x] s1]; cbn [snd] in Hq.
  2:{ intros [= <- <-]. split; [by apply quiet_memo|done]. }
  rewrite bind_run. cbn [get_health_memo]. destruct (Cache.get (extra s1) now origin) as [v h] eqn:Eg. rewrite bind_run. intros H.
  assert (Hex : extra s1 = extra s) by apply Hq. cbn [set_health mret io_ret] in H. injection H as <- <-. split.
  - etrans; [by apply quiet_memo|]. apply (set_health_memo h). intros Hh. apply get_sub in Eg as (d & -> & Hd).
    apply health_ok_sub; [done|]. intros x Hx. by eapply elem_of_sublist.
  - intros Hh f [= ->]. rewrite Hex in Eg. unfold Cache.get in Eg. destruct (dget _ origin) as [[ex v0]|] eqn:Ed; [|done].
    destruct (time_ltb ex now); [done|]. injection Eg as -> <-. by eapply Hh, dget_Some_elem.
Qed.

Lemma health_set_memo origin v : names origin v -> preserves memo (health_set w origin v).
Proof using Type.
  intros Hv s. unfold health_set. rewrite bind_run. cbn [get_health_memo]. set (h := extra s). rewrite bind_run.
  match goal with |- context [set_health ?h'] => set (room := h') end.
  assert (H1 : memo s (set_health room s).2).
  { apply set_health_memo. intros Hh. unfold room. destruct (_ && _); [|done]. apply health_ok_sub; [done|]. intros x. unfold h.
    destruct (data (extra s)); [done|]. by right. }
  destruct (set_health room s) as [r s1] eqn:E1. injection E1 as <- <-. cbn [snd] in H1. rewrite bind_run. set (s1 := Build_hstate _ _ _ _) in *.
  pose proof (health_now_quiet s1) as Hq. destruct (health_now w s1) as [[now|x] s2]; cbn [snd] in Hq; [|etrans; [exact H1|by apply quiet_memo]].
  apply quiet_memo in Hq. rewrite bind_run. match goal with |- context [pure_result ?r] => destruct r as [h'|e] eqn:Es end; cbn [pure_result mret io_ret fail raise snd];
    [|etrans; [exact H1|exact Hq]].
  destruct H1 as [_ H1], Hq as [_ Hq]. assert (Hl : exists new, log s2 = log s ++ new /\ Forall (fun e => calm e = true) new).
  { destruct H1 as (n1 & H1 & Q1), Hq as (n2 & H2 & Q2). exists (n1 ++ n2). rewrite H2, H1, app_assoc. split; [done|]. by apply Forall_app. }
  split; [|done]. change (health_ok (extra s) -> health_ok h'). intros Hh. apply set_Ok in Es as (d & Hd & _ & _ & ->). intros k ex f Hin. cbn [data with_data] in Hin. revert Hin.
  rewrite elem_of_app. intros [Hin|Hin]; [eapply Hh, elem_of_sublist, Hd; exact Hin|].
  apply list_elem_of_singleton in Hin. injection Hin as -> _ <-. done.
Qed.

(** ** The candidates *)

(** What a run sends, candidate by candidate in their order: nothing for one passed over, and for
    one that is visited, within the budget, reads of that node alone. *)
Inductive visited : Z -> list pystr -> list event -> list event -> Prop :=
  | visited_end b candidates t new : Forall (fun e => calm e = true) new -> visited b candidates t (t ++ new)
  | visited_skip b o candidates t new t2 : Forall (fun e => calm e = true) new -> visited b candidates (t ++ new) t2 -> visited b (o :: candidates) t t2
  | visited_node b o candidates t t1 t2 : 0 < b -> logs (node_event o) t t1 -> visited (b - 1) candidates t1 t2 -> visited b (o :: candidates) t t2.

Lemma calm_node_event o t new : Forall (fun e => calm e = true) new -> logs (node_event o) t (t ++ new).
Proof using Type.
  intros Q. exists new. split; [done|]. intros pre e post ->. exists (o ++ ALIVE_PATH). split; [by left|].
  apply Forall_app in Q as [_ Q]. inversion_clear Q as [|? ? He _]. by destruct e.
Qed.
Lemma memo_node_event o s s' : memo s s' -> logs (node_event o) (log s) (log s').
Proof using Type. intros (_ & new & -> & Q). by apply calm_node_event. Qed.

(** What is calm before a visit belongs to it. *)
Lemma visited_calm b candidates t new t' : Forall (fun e => calm e = true) new -> visited b candidates (t ++ new) t' -> visited b candidates t t'.
Proof using Type.
  intros Q H. inversion H as [b' l t0 new' Q'|b' o l t0 new' t2 Q' Hv|b' o l t0 t1 t2 Hb Hl Hv]; subst.
  - rewrite <- app_assoc. apply visited_end. by apply Forall_app.
  - eapply visited_skip; [|by rewrite app_assoc]. by apply Forall_app.
  - eapply visited_node; [done| |done]. etrans; [by apply calm_node_event|done].
Qed.

(** Reads of [o] alone, and the memo kept well formed. *)
Definition node_step (o : pystr) (s s' : hstate health) : Prop :=
  (health_ok (extra s) -> health_ok (extra s')) /\ logs (node_event o) (log s) (log s').
#[export] Instance node_step_preorder o : PreOrder (node_step o).
Proof using Type. split; [by intros s; split|]. intros s1 s2 s3 [E1 H1] [E2 H2]. split; [auto|by etrans]. Qed.
Lemma memo_step o s s' : memo s s' -> node_step o s s'.
Proof using Type. intros H. split; [apply H|by apply memo_node_event]. Qed.
Lemma confined_step o s s' : confined o s s' -> node_step o s s'.
Proof using Type. intros [Hx Hl]. split; [by rewrite Hx|done]. Qed.

(** The probe of a candidate with no fresh verdict. *)
Definition fresh_verdict (origin : pystr) (verdict : option Verdict) : client Verdict :=
  match verdict with Some _ => mret None | None => p ← probe_node w c origin; _ ← health_set w origin p; mret p end.

Lemma fresh_verdict_step origin verdict s r s1 : fresh_verdict origin verdict s = (r, s1) ->
  node_step origin s s1 /\ forall f, r = Done (Some f) -> nf_origin f = origin.
Proof using Type.
  unfold fresh_verdict. destruct verdict; [by intros [= <- <-]|]. rewrite bind_run.
  pose proof (probe_confined origin s) as Hp. destruct (probe_node w c origin s) as [[p|x] s2] eqn:Ep; cbn [snd] in Hp;
    [|intros [= <- <-]; split; [by apply confined_step|done]].
  apply probe_node_names in Ep. rewrite bind_run. pose proof (health_set_memo origin p Ep s2) as Hs.
  destruct (health_set w origin p s2) as [[u|x] s3]; cbn [snd] in Hs; intros [= <- <-];
    (split; [etrans; [by apply confined_step|by apply memo_step]|]); [|done]. by intros f [= ->].
Qed.

(** A value comes from one walk of one candidate, run from its start, with nothing recorded. *)
Definition ran {T} (m : NodeSession -> walk T) (candidates : list pystr) (v : T) (s' : hstate health) : Prop :=
  exists origin session s1, origin ∈ candidates /\ new_session w origin = Ok session /\
    run_walk w c session (m session) nothing s1 = (Done (Done v, nothing), s').

(** The failures listed are those of the first candidates, all of them unless the budget ran out. *)
Definition listed (b : Z) (candidates names : list pystr) : Prop :=
  exists k, (k <= length candidates)%nat /\ names = take k candidates /\ ((k < length candidates)%nat -> b <= Z.of_nat k).

Lemma listed_cons b b' o candidates names : b' <= b -> b - 1 <= b' -> listed b' candidates names -> listed b (o :: candidates) (o :: names).
Proof using Type. intros H1 H2 (k & Hk & -> & Hb). exists (S k). cbn [length take]. split_and!; [lia|done|]. intros. lia. Qed.

(** A visit that starts after [failures]. *)
Record visit_ok {T} (m : NodeSession -> walk T) (candidates : list pystr) (b : Z) (failures : list NodeFailure)
    (s : hstate health) (r : Effects.outcome failure (T + list NodeFailure)) (s' : hstate health) : Prop := {
  vo_health : health_ok (extra s) -> health_ok (extra s');
  vo_log : visited b candidates (log s) (log s');
  vo_value : forall v, r = Done (inl v) -> ran m candidates v s';
  vo_failures : health_ok (extra s) -> forall fs, r = Done (inr fs) ->
    exists names, nf_origin <$> fs = (nf_origin <$> failures) ++ names /\ listed b candidates names }.

Lemma visited_logs b o candidates t t' : 0 < b -> logs (node_event o) t t' -> visited b (o :: candidates) t t'.
Proof using Type.
  intros Hb Hl. eapply visited_node; [done|exact Hl|]. rewrite <- (app_nil_r t') at 2. by apply visited_end.
Qed.

Lemma memo_visited b candidates s s' : memo s s' -> visited b candidates (log s) (log s').
Proof using Type. intros (_ & new & -> & Q). by apply visited_end. Qed.

(** A failed step ends the visit. *)
Lemma visit_ok_raised {T} (m : NodeSession -> walk T) o candidates b failures s x s' : 0 < b -> node_step o s s' ->
  visit_ok m (o :: candidates) b failures s (Failed x) s'.
Proof using Type. intros Hb [Hk Hl]. split; [done|by apply visited_logs|done|done]. Qed.

(** A candidate passed on with failure [f], then the rest. *)
Lemma visit_ok_next {T} (m : NodeSession -> walk T) o candidates b failures f s s1 r s' : 0 < b -> nf_origin f = o -> node_step o s s1 ->
  visit_ok m candidates (b - 1) (failures ++ [f]) s1 r s' -> visit_ok m (o :: candidates) b failures s r s'.
Proof using Type.
  intros Hb Hf [Hk Hl] [Hh Hv Hr Hn]. split; [by auto|..].
  - by eapply visited_node.
  - intros v Hd. destruct (Hr v Hd) as (o' & session & s2 & Hin & H). exists o', session, s2. split; [by right|done].
  - intros Hok fs Hd. destruct (Hn (Hk Hok) fs Hd) as (names & Hfs & Hlisted). exists (o :: names). split.
    + rewrite Hfs, fmap_app, <- app_assoc. cbn. by rewrite Hf.
    + eapply listed_cons, Hlisted; lia.
Qed.

Lemma visit_run {T} (m : NodeSession -> walk T) candidates : forall failures spent s r s',
  visit w c m candidates failures spent s = (r, s') -> visit_ok m candidates (max_nodes c - spent) failures s r s'.
Proof using Type.
  induction candidates as [|o candidates IH]; intros failures spent s r s' H; cbn [visit] in H.
  { injection H as <- <-. split; [done| |done|].
    - rewrite <- (app_nil_r (log s)) at 2. by apply visited_end.
    - intros _ fs [= <-]. exists []. rewrite app_nil_r. split; [done|]. exists 0%nat. cbn. split_and!; [lia|done|lia]. }
  rewrite bind_run in H. destruct (health_get w o s) as [rv s1] eqn:Eg. apply health_get_memo in Eg as [Hm Hname].
  destruct rv as [verdict|x]; [|injection H as <- <-; split; [apply Hm|by apply memo_visited|done|done]].
  destruct (match verdict with Some (Some _) => true | _ => false end) eqn:Ekind.
  { destruct verdict as [[f|]|]; try done. apply IH in H as [Hh Hv Hr Hn]. destruct Hm as (Hk & new & Hl & Q). split; [by auto|..].
    - eapply visited_skip; [exact Q|]. by rewrite <- Hl.
    - intros v Hd. destruct (Hr v Hd) as (o' & session & s2 & Hin & Hw). exists o', session, s2. split; [by right|done].
    - intros Hok fs Hd. destruct (Hn (Hk Hok) fs Hd) as (names & Hfs & Hlisted). exists (o :: names). split.
      + rewrite Hfs, fmap_app, <- app_assoc. cbn. by rewrite (Hname Hok f).
      + eapply listed_cons, Hlisted; lia. }
  change (match verdict with Some _ => mret None | None => p ← probe_node w c o; _ ← health_set w o p; mret p end) with (fresh_verdict o verdict) in H.
  assert (H' : (if max_nodes c <=? spent then mret (inr failures)
    else probed ← fresh_verdict o verdict;
         match probed with
         | Some f => visit w c m candidates (failures ++ [f]) (spent + 1)
         | None => r ← one_walk w c m o;
                   match r with inl v => mret (inl v) | inr f => _ ← health_set w o (Some f); visit w c m candidates (failures ++ [f]) (spent + 1) end
         end) s1 = (r, s')) by (by destruct verdict as [[]|]). clear H.
  destruct (Z.leb_spec (max_nodes c) spent) as [Hb|Hb].
  { injection H' as <- <-. split; [apply Hm|by apply memo_visited|done|].
    intros _ fs [= <-]. exists []. rewrite app_nil_r. split; [done|]. exists 0%nat. cbn. split_and!; [lia|done|lia]. }
  apply (memo_step o) in Hm. rewrite bind_run in H'. destruct (fresh_verdict o verdict s1) as [rp s2] eqn:Ep.
  apply fresh_verdict_step in Ep as [Hp Hpn]. assert (H2 : node_step o s s2) by (by etrans). clear Hm Hp.
  destruct rp as [[f|]|x]; [| |injection H' as <- <-; apply (visit_ok_raised m o); [lia|done]].
  { apply IH in H'. replace (max_nodes c - (spent + 1)) with (max_nodes c - spent - 1) in H' by lia.
    eapply visit_ok_next, H'; [lia|by apply Hpn|done]. }
  rewrite bind_run in H'. pose proof (one_walk_confined m o s2) as Hc. destruct (one_walk w c m o s2) as [[[v|f]|x] s3] eqn:Ew; cbn [snd] in Hc;
    apply (confined_step o) in Hc; (assert (H3 : node_step o s s3) by (by etrans)).
  - injection H' as <- <-. apply one_walk_Done in Ew as (session & Hs & Hrun). destruct H3 as [Hk Hl]. split; [done|apply visited_logs; [lia|done]| |done].
    intros v' [= <-]. exists o, session, s2. split; [by left|done].
  - apply one_walk_Done in Ew. rewrite bind_run in H'. pose proof (health_set_memo o (Some f) Ew s3) as Hset.
    destruct (health_set w o (Some f) s3) as [[u|x] s4]; cbn [snd] in Hset; apply (memo_step o) in Hset.
    + apply IH in H'. replace (max_nodes c - (spent + 1)) with (max_nodes c - spent - 1) in H' by lia.
      eapply visit_ok_next, H'; [lia|done|by etrans].
    + injection H' as <- <-. apply (visit_ok_raised m o); [lia|by etrans].
  - injection H' as <- <-. apply (visit_ok_raised m o); [lia|done].
Qed.

(** ** The order *)

Lemma member_Ok j o : member c j = Ok o -> j = JStr o /\ o ∈ origins c.
Proof using Type.
  unfold member. destruct j as [| | | |s| | |]; try done. intros (_ & Hin%raise_if_Ok%negb_false_iff%bool_decide_eq_true & [= <-])%bind_Ok. done.
Qed.

Lemma checked_items_Ok items : forall seen l, checked_items c seen items = Ok l ->
  items = JStr <$> l /\ NoDup l /\ l ⊆ origins c /\ forall o, o ∈ seen -> o ∉ l.
Proof using Type.
  induction items as [|j items IH]; intros seen l H; cbn [checked_items] in H; [injection H as <-; split_and!; [done|constructor|set_solver|set_solver]|].
  apply bind_Ok in H as (o & [-> Ho]%member_Ok & H). apply bind_Ok in H as (_ & Hn%raise_if_Ok%bool_decide_eq_false & H).
  apply bind_Ok in H as (rest & (-> & Hnd & Hsub & Hfresh)%IH & [= <-]). split_and!; [done| |set_solver|].
  - constructor; [|done]. apply Hfresh. set_solver.
  - intros x Hx. rewrite not_elem_of_cons. split; [set_solver|]. apply Hfresh. set_solver.
Qed.

Lemma order_Done s l s1 : order c s = (Done l, s1) -> s1 = s /\ NoDup l /\ l ⊆ origins c /\ l <> [] /\
  exists items, policy c (log s) (origins c) = Some items /\ JStr <$> l = take (S (length (origins c))) items.
Proof using Type.
  unfold order. intros H. apply io_bind_Done in H as (items & s2 & [= <- <-] & H). destruct (policy _ _ _) as [items|]; [|done].
  apply io_bind_Done in H as (u & s3 & He & H). apply raise_when_Done in He as [He%bool_decide_eq_false ->].
  apply pure_result_Done in H as [(Hi & Hnd & Hsub & _)%checked_items_Ok ->]. split_and!; [done..| |by exists items].
  intros ->. by apply He.
Qed.
End lemmas.

(** ** Construction *)

Lemma checked_nodes_Ok environment nodes : forall seen l, checked_nodes environment seen nodes = Ok l ->
  NoDup l /\ (forall o, o ∈ l -> (o ∉ seen) /\ check_node_origin (JStr o) environment = Ok o) /\
  nodes = (fun o => Some (JStr o, JStr (drop 8 o))) <$> l.
Proof.
  induction nodes as [|[[origin host]|] nodes IH]; intros seen l H; cbn [checked_nodes] in H; [injection H as <-; split_and!; [constructor|set_solver|done]| |done].
  apply bind_Ok in H as (o & Ho%catch_as_Ok & H). apply bind_Ok in H as (_ & Hh%raise_if_Ok%negb_false_iff%eq_str_true & H).
  apply bind_Ok in H as (_ & Hn%raise_if_Ok%bool_decide_eq_false & H). apply bind_Ok in H as (rest & (Hnd & Hin & ->)%IH & [= <-]).
  pose proof (check_node_origin_Ok _ _ _ Ho) as [-> _]. subst host. split_and!; [| |done].
  - constructor; [|done]. intros Hx. apply Hin in Hx as [Hx _]. set_solver.
  - intros o' [->|Hx]%elem_of_cons; [done|]. apply Hin in Hx as [Hx Hc]. split; [set_solver|done].
Qed.

Lemma read_clock_Done {E} w (s : hstate E) n s' : read_clock w s = (Done n, s') ->
  s' = {| log := log s ++ [Wall]; cache := cache s; extra := extra s |} /\ exists v, w_clock w (log s) = Some v /\ as_utc v = Ok n.
Proof.
  unfold read_clock. intros H. apply io_bind_Done in H as (r & s1 & [= <- <-] & H). destruct (w_clock w (log s)) as [v|]; [|done].
  apply pure_result_Done in H as [H ->]. split; [done|]. by exists v.
Qed.

(** A [VerifiedNodeList] of an environment, nothing in it unchecked. *)
Record bound_client (w : world) (proxied : bool) (r : raw_result) (o : node_options) (c : EbsiNodeClient) : Prop := {
  (** the origins are the result's, each the verifier's own form for the environment, none twice *)
  bc_origins : NoDup (origins c) /\ rl_environment r = JStr (environment c) /\
    rl_nodes r = Some ((fun o => Some (JStr o, JStr (drop 8 o))) <$> origins c) /\
    Forall (fun o => check_node_origin (JStr o) (rl_environment r) = Ok o) (origins c) /\ 1 <= len (origins c) <= Z.of_nat MAX_NODES;
  (** the HTTP client reaches exactly their hosts, and only until the list expires *)
  bc_allowed : allowed (http c) = (fun o => w_lower w (drop 8 o)) <$> origins c;
  bc_expiry : as_utc (rl_expires r) = Ok (expires_at c) /\ valid_until (http c) = Some (expires_at c);
  bc_guard : address_guard (http c) = bool_decide (no_address_guard o = Some true) /\ (proxied = true -> no_address_guard o = None);
  (** a request loop that can run, a budget that is not empty *)
  bc_bounds : 1 <= attempts (retry (http c)) /\ 1 <= max_nodes c <= Z.of_nat MAX_NODES /\ 1 <= max_bytes (http c) }.

Lemma order_state c (s : hstate (@TtlCache Verdict)) : (order c s).2 = s.
Proof.
  unfold order. rewrite bind_run. cbn [observe]. destruct (policy _ _ _) as [items|]; [|done]. rewrite bind_raise_when.
  destruct (bool_decide _); [done|]. by destruct (checked_items _ _ _).
Qed.

(** * Properties *)

(** C27: A walk runs on one node.  Whatever the policy, the nodes and the walk do, the candidates
    of a run are distinct listed nodes, at most [max_nodes] of them are sent anything, each in
    one stretch and under the guards of every read, a request of a stretch going to that node's
    health probe or to a URL on that node's origin; and a value is returned only from one walk run
    from its start on one listed node, whose session saw no node failure and no terminal error. *)
Theorem run_stays_on_one_node {T} w c (m : NodeSession -> walk T) (s : hstate (@TtlCache Verdict)) :
  let '(r, s') := run w c m s in
  (exists candidates, NoDup candidates /\ candidates ⊆ origins c /\ visited w c (max_nodes c) candidates (log s) (log s')) /\
  forall v, r = Done (inl v) -> ran w c m (origins c) v s'.
Proof.
  destruct (run w c m s) as [r s'] eqn:H. unfold run in H. rewrite bind_run in H.
  pose proof (quiet_check_valid w (http c) s) as (_ & new & Hl & Q).
  assert (Hstop : visited w c (max_nodes c) [] (log s) (log s ++ new)) by (by apply visited_end).
  destruct (check_valid w (http c) s) as [[u|x] s1]; cbn [snd] in Hl.
  2:{ injection H as <- <-. split; [|done]. exists []. split_and!; [constructor|set_solver|by rewrite Hl]. }
  rewrite bind_run in H. pose proof (order_state c s1) as Hs. destruct (order c s1) as [[l|x] s2] eqn:Eo; cbn [snd] in Hs; subst s2.
  - apply order_Done in Eo as (_ & Hnd & Hsub & _). apply visit_run in H as [_ Hv Hr _]. rewrite Z.sub_0_r, Hl in Hv. split.
    + exists l. split_and!; [done..|]. by eapply visited_calm.
    + intros v Hd. destruct (Hr v Hd) as (o & session & s3 & Hin & H). exists o, session, s3. split; [set_solver|done].
  - injection H as <- <-. split; [|done]. exists []. split_and!; [constructor|set_solver|by rewrite Hl].
Qed.

(** What [NoHealthyNode] lists.  When the memo keeps each failure under the node it names, as
    the empty memo of [for_nodes] does, a run leaves it so; and a run that ends without a value or
    an error has one failure for each of the first candidates of the policy's order, in that
    order: for all of them, or for at least [max_nodes]. *)
Theorem no_healthy_node_lists_candidates {T} w c (m : NodeSession -> walk T) (s : hstate (@TtlCache Verdict)) (Hok : health_ok (extra s)) :
  let '(r, s') := run w c m s in
  health_ok (extra s') /\
  forall fs, r = Done (inr fs) -> exists t items candidates,
    policy c t (origins c) = Some items /\ JStr <$> candidates = take (S (length (origins c))) items /\
    listed (max_nodes c) candidates (nf_origin <$> fs).
Proof.
  destruct (run w c m s) as [r s'] eqn:H. unfold run in H. rewrite bind_run in H.
  pose proof (quiet_check_valid w (http c) s) as (Hx & _).
  destruct (check_valid w (http c) s) as [[u|x] s1]; cbn [snd] in Hx; [|injection H as <- <-; by rewrite Hx].
  rewrite bind_run in H. pose proof (order_state c s1) as Hs. destruct (order c s1) as [[l|x] s2] eqn:Eo; cbn [snd] in Hs; subst s2;
    [|injection H as <- <-; by rewrite Hx].
  apply order_Done in Eo as (_ & _ & _ & _ & items & Hp & Hi). rewrite <- Hx in Hok. apply visit_run in H as [Hh _ _ Hf]. split; [by apply Hh|].
  intros fs Hd. destruct (Hf Hok fs Hd) as (names & Hfs & Hlisted). rewrite Z.sub_0_r in Hlisted. exists (log s1), items, l.
  split_and!; [done..|]. by rewrite Hfs.
Qed.

(** The failover table.  A node failure is a forbidden address, retries used up with or
    without an answer, or an exact [HttpError]: a 429, a 5xx, a 403, a redirect, or a limit on the
    body; nothing else is, a terminal error in particular. *)
Theorem failover_table x :
  classify x =
    (if is_a x HttpForbiddenAddress then Some Unreachable
     else if is_a x HttpTransientExhausted then Some (match x_status x with None => Unreachable | Some _ => Unavailable end)
     else if is_plain_http_error x then
       match x_status x with
       | None => Some Limits
       | Some s => if (s =? 429) || (500 <=? s) then Some Unavailable
                   else if s =? 403 then Some Forbidden
                   else if (300 <=? s) && (s <? 400) then Some Redirect
                   else if s =? 200 then Some Limits else None
       end
     else None) /\
  (is_terminal x = true -> classify x = None).
Proof.
  assert (Hc : classify x = (if is_a x HttpForbiddenAddress then Some Unreachable
     else if is_a x HttpTransientExhausted then Some (match x_status x with None => Unreachable | Some _ => Unavailable end)
     else if is_plain_http_error x then
       match x_status x with
       | None => Some Limits
       | Some s => if (s =? 429) || (500 <=? s) then Some Unavailable
                   else if s =? 403 then Some Forbidden
                   else if (300 <=? s) && (s <? 400) then Some Redirect
                   else if s =? 200 then Some Limits else None
       end
     else None)).
  { unfold classify, FAILOVER, in_status. cbn [find fst]. destruct (is_a x HttpForbiddenAddress); [done|].
    destruct (is_a x HttpTransientExhausted); cbn [andb]; [by destruct (x_status x)|]. destruct (is_plain_http_error x); cbn [andb]; [|done].
    destruct (x_status x) as [s|]; [|done]. cbn [default].
    repeat case_bool_decide; simplify_eq; try done; cbn [orb].
    all: destruct (Z.eqb_spec s 429), (Z.eqb_spec s 403), (Z.eqb_spec s 200); try congruence; cbn [orb]; change (id s) with s; by repeat case_match. }
  split; [done|]. rewrite Hc. unfold is_terminal, is_plain_http_error, is_a. by destruct (x_class x); vm_compute.
Qed.

(** The client [for_nodes] builds.  It is bound to its list and to nothing else: its origins
    are the result's nodes, each of the verifier's own form for the result's environment, none
    twice, between 1 and 512; its HTTP client allows exactly their hosts and stops when the list
    expires, which the clock says it has not; the guard is on when asked for, and then no proxy
    is configured; the loop has an attempt to make and the run a node to try. *)
Theorem for_nodes_bounds_the_client w proxied decode_point fetch decode unquote casefold policy_ result_ o
    (s s' : hstate (@TtlCache Verdict)) c memo_
    (H : for_nodes w proxied decode_point fetch decode unquote casefold policy_ result_ o s = (Done (c, memo_), s')) :
  exists r, result_ = Some r /\ bound_client w proxied r o c /\ health_ok memo_ /\ policy c = policy_ /\
    exists t v now, w_clock w t = Some v /\ as_utc v = Ok now /\ now < expires_at c.
Proof.
  unfold for_nodes in H. apply io_bind_Done in H as (_ & s1 & _ & H).
  apply io_bind_Done in H as (mn & s2 & Hmn & H). apply io_bind_Done in H as (httl & s3 & _ & H). apply io_bind_Done in H as (tmo & s4 & _ & H).
  apply io_bind_Done in H as (cttl & s5 & _ & H). apply io_bind_Done in H as (mb & s6 & Hmb & H). apply io_bind_Done in H as (rt & s7 & Hrt & H).
  apply io_bind_Done in H as (_ & s8 & _ & H). apply io_bind_Done in H as (_ & s9 & _ & H). apply io_bind_Done in H as (u & s10 & Hg & H).
  apply io_bind_Done in H as (_ & s11 & _ & H). apply io_bind_Done in H as ([[env ex] os] & s12 & Hr & H). apply io_bind_Done in H as (_ & s13 & _ & H).
  apply io_bind_Done in H as (now & s14 & (_ & v & Hv & Hnow)%read_clock_Done & H). apply io_bind_Done in H as (u' & s15 & Hlate & H).
  apply io_bind_Done in H as (h & s16 & Hh & H). injection H as <- <- _.
  apply pure_result_Done in Hmn as [Hmn _], Hmb as [Hmb _], Hrt as [Hrt _], Hr as [Hr _], Hh as [Hh _].
  apply raise_when_Done in Hg as [Hg%negb_false_iff _], Hlate as [Hlate%Z.leb_gt _].
  destruct result_ as [r|]; [|done]. exists r. split; [done|]. unfold checked_result in Hr. apply bind_Ok in Hr as (instant & Hi & Hr).
  destruct (rl_nodes r) as [nodes|] eqn:En; [|done]. apply bind_Ok in Hr as (_ & Hlen%raise_if_Ok%negb_false_iff & Hr).
  apply bind_Ok in Hr as (l & (Hnd & Hin & ->)%checked_nodes_Ok & Hr). destruct (rl_environment r) as [| | | |e| | |] eqn:Ee; try done. injection Hr as -> -> ->.
  unfold checked_int in Hmn. destruct (no_max_nodes o) as [| |n| | | | |]; try done. apply bind_Ok in Hmn as (_ & Hn%raise_if_Ok%negb_false_iff & [= ->]).
  destruct (no_max_response_bytes o) as [| |k| | | | |]; try done. apply bind_Ok in Hmb as (_ & Hk%raise_if_Ok & [= ->]).
  unfold new_http_client in Hh. cbn [co_valid_until moment_none co_clock xorb co_guard co_retry co_max_bytes co_timeout co_cache_ttl default] in Hh.
  apply bind_Ok in Hh as (_ & _ & Hh). apply bind_Ok in Hh as (until & Hu & Hh). apply bind_Ok in Hu as (_ & _ & Hu).
  apply bind_Ok in Hu as (u0 & Hu0 & [= <-]). apply bind_Ok in Hh as (u1 & Hp & [= <-]).
  assert (u0 = ex) as ->.
  { unfold as_utc, utc_instant in Hu0. cbn [default] in Hu0. rewrite Z.sub_0_r in Hu0. by apply bind_Ok in Hu0 as (_ & _ & [= <-]). }
  split; [|split; [apply health_ok_new|split; [done|by exists (log s13), v, now]]]. split; cbn [origins environment http allowed expires_at valid_until address_guard retry max_nodes max_bytes].
  - split_and!; try done.
    + rewrite Ee. apply Forall_forall. intros x Hx. by apply Hin in Hx as [_ ?].
    + unfold len in *. rewrite length_fmap in Hlen. lia.
    + unfold len in *. rewrite length_fmap in Hlen. lia.
  - change (map (w_lower w)) with (fmap (M := list) (w_lower w)). rewrite <- list_fmap_compose. done.
  - done.
  - destruct (no_address_guard o) as [[]|]; try done. split; [done|]. intros ->. done.
  - split_and!; try lia. cbn [default]. destruct (no_retry o) as [rr|]; [|by injection Hrt as <-]. unfold checked_retry in Hrt. destruct rr as [rr|]; [|done].
    apply bind_Ok in Hrt as (a & Ha & Hrt). apply bind_Ok in Hrt as (st & _ & Hrt). apply bind_Ok in Hrt as (b1 & _ & Hrt).
    apply bind_Ok in Hrt as (b2 & _ & [= <-]). destruct (rr_attempts rr) as [| |z| | | | |]; try done.
    apply bind_Ok in Ha as (_ & Hz%raise_if_Ok & [= <-]). cbn. lia.
Qed.

(** ** Examples *)

Definition node_a : pystr := $"https://node-a.prod.example".
Definition node_b : pystr := $"https://node-b.prod.example".
(** Node A does not answer; node B is alive, and answers [{}] to anything else. *)
Definition node_world (up : bool) : world :=
  {| w_ipv6 := fun _ => false; w_ip := example_ip; w_lower := lower_ascii; w_space := fun ch => ch =? 32;
     w_json := fun b => if bool_decide (b = [49]) then Ok (JDict [($"health_global", JInt 1)]) else if bool_decide (b = [123; 125]) then Ok (JDict []) else Err ValueError;
     w_zlib := stored_inflate; w_parsedate := fun _ => None; w_clock := fun t => Some (Datetime 5 (Some (Some 0))); w_utcnow := fun _ => 0; w_mono := fun _ => 0;
     w_health := fun _ => Some (JInt 0); w_uniform := fun _ n => n; w_resolver := fun _ _ _ => Ok [JStr ($"8.8.8.8")];
     w_send := fun t rq => if up && startswith (rq_url rq) node_b
                           then Ok {| rp_status := 200; rp_header := fun _ => None; rp_body := [Bytes (if bool_decide (rq_url rq = node_b ++ ALIVE_PATH) then [49] else [123; 125])] |}
                           else Err TransportError |}.
Definition node_http (until : Z) : EbsiHttpClient :=
  {| allowed := [drop 8 node_a; drop 8 node_b]; timeout := SECOND; max_bytes := 10; cache_ttl := At SECOND; retry := NODE_RETRY; address_guard := false;
     valid_until := Some until |}.
Definition node_client (until : Z) : EbsiNodeClient :=
  {| environment := $"prod"; expires_at := until; origins := [node_a; node_b]; http := node_http until; max_nodes := 3;
     policy := fun _ l => Some (JStr <$> l) |}.
Definition node_state : hstate (@TtlCache Verdict) :=
  {| log := []; cache := new_cache (At SECOND) 10; extra := new_cache (At SECOND) 512 |}.
(** Reads one document of its node, twice. *)
Definition two_reads (session : NodeSession) : walk nat :=
  Get (JStr (s_origin session ++ $"/v1/x")) (fun a => Get (JStr (s_origin session ++ $"/v1/y")) (fun b =>
    match a, b with Done _, Done _ => Returned 2%nat | Failed x, _ | _, Failed x => Raised x end)).

Definition requests (t : list event) : list pystr := omap (fun e => match e with Send rq => Some (rq_url rq) | _ => None end) t.

(** A fails its probe; the walk runs on B. *)
Example failover_run : let '(r, s) := run (node_world true) (node_client 100) two_reads node_state in
  r = Done (inl 2%nat) /\ requests (log s) = [node_a ++ $"/v1/alive"; node_b ++ $"/v1/alive"; node_b ++ $"/v1/x"; node_b ++ $"/v1/y"].
Proof. by vm_compute. Qed.

(** A walk that reads the other node is refused, and no other node is tried. *)
Example off_node_read : let '(r, s) := run (node_world true) (node_client 100)
    (fun session => Get (JStr (node_a ++ $"/v1/x")) (fun a => Returned tt)) node_state in
  r = Failed (plain HttpForbiddenHost) /\ requests (log s) = [node_a ++ $"/v1/alive"; node_b ++ $"/v1/alive"].
Proof. by vm_compute. Qed.

(** An expired list sends nothing. *)
Example expired_run : run (node_world true) (node_client 5) two_reads node_state =
  (Failed (plain NodeListExpired), {| log := [Wall]; cache := new_cache (At SECOND) 10; extra := new_cache (At SECOND) 512 |}).
Proof. by vm_compute. Qed.

Lemma no_healthy_node_lists_candidates_witness :
  exists fs, (run (node_world false) (node_client 100) two_reads node_state).1 = Done (inr fs) /\
    exists candidates, listed 3 candidates (nf_origin <$> fs).
Proof.
  pose proof (no_healthy_node_lists_candidates (node_world false) (node_client 100) two_reads node_state) as H.
  destruct (run (node_world false) (node_client 100) two_reads node_state) as [r s'] eqn:Hr. pose proof Hr as Hr'. vm_compute in Hr'. injection Hr' as <- _.
  eexists. split; [done|]. destruct (H (health_ok_new _ _)) as [_ H']. destruct (H' _ eq_refl) as (t & items & l & _ & _ & Hl). by exists l.
Defined.

Definition example_nodes : raw_result :=
  {| rl_environment := JStr ($"prod"); rl_nodes := Some [Some (JStr ($"https://api.ebsi.example"), JStr ($"api.ebsi.example"))]; rl_expires := Datetime 100 (Some (Some 0)) |}.
Definition example_options : node_options :=
  {| no_clock := true; no_decode_jwt := true; no_policy := true; no_max_nodes := JInt 3; no_health_ttl := JInt 60; no_timeout := JInt 10; no_cache_ttl := JInt 300;
     no_max_response_bytes := JInt 100; no_retry := None; no_user_agent := JStr ($"openvc-core/1"); no_cache := true; no_address_guard := Some true;
     no_didr := $"core-v1"; no_tir := $"core-v1" |}.

Lemma for_nodes_bounds_the_client_witness : exists c,
  (for_nodes (node_world true) false (fun _ _ => None) (fun _ _ => Ok JNull) (fun _ => Ok JNull) id id (fun _ l => Some (JStr <$> l))
     (Some example_nodes) example_options node_state).1 = Done (c, new_cache (At (60 * SECOND)) 512) /\
  bound_client (node_world true) false example_nodes example_options c.
Proof.
  destruct (for_nodes (node_world true) false (fun _ _ => None) (fun _ _ => Ok JNull) (fun _ => Ok JNull) id id (fun _ l => Some (JStr <$> l))
     (Some example_nodes) example_options node_state) as [r s'] eqn:H.
  pose proof H as H'. vm_compute in H'. injection H' as <- _. eexists. split; [by vm_compute|].
  destruct (for_nodes_bounds_the_client _ _ _ _ _ _ _ _ _ _ _ _ _ _ H) as (r & [= <-] & Hb & _). exact Hb.
Defined.
