(* ===== verification/EcdsaSdFlow.v ===== *)
(** The life of a selective disclosure ([EcdsaSd], src/src/openvc/proof/ecdsa_sd.py): the proof values
    are read back as they were written, the labels the holder computes are those the verifier
    recomputes, and what an issuer signs and a holder derives from it verifies. *)
From S2P Require Import Prelude Errors PyStr Utf8 Cbor Json Base64 Decimal VerifyCommon Did Keys DataIntegrity TrustXml EcdsaSd.

(** * Writing and reading a derived proof *)

Lemma head_bytes major n h : head major n = Ok h -> 0 <= major < 8 -> bytes_ok h.
Proof.
  intros Hh Hm. destruct (head_cases _ _ _ Hh Hm) as [[Hn ->]|(info & nb & _ & Hi & -> & _)].
  - destruct (initial_byte major n) as (E & _ & _); [lia..|]. repeat constructor; cbv zeta in E; rewrite E; lia.
  - destruct (initial_byte major info) as (E & _ & _); [lia..|]. constructor; [split; cbv zeta in E; rewrite E; lia|apply to_bytes_be_ok].
Qed.

Lemma bytes_concat (bs : list bytes) : Forall bytes_ok bs -> bytes_ok (concat bs).
Proof. induction 1 as [|b bs Hb _ IH]; [constructor|]. apply Forall_app. by split. Qed.

Lemma encode_key_bytes_ok k b : key_ok k -> encode_key k = Ok b -> bytes_ok b.
Proof.
  destruct k as [n|x|s]; cbn [key_ok encode_key]; intros Hk H.
  - unfold encode_int in H. case_match; (eapply head_bytes; [done|lia]).
  - unfold encode_bytes in H. apply bind_Ok in H as (h & Hh & [= <-]). apply Forall_app. split; [eapply head_bytes; [done|lia]|done].
  - unfold encode_text in H. apply bind_Ok in H as (r & Hr & (h & Hh & [= <-])%bind_Ok). apply Forall_app.
    split; [eapply head_bytes; [done|lia]|by eapply utf8_encode_ok].
Qed.

Lemma encode_bytes_ok v : forall b, cval_ok v -> encode v = Ok b -> bytes_ok b.
Proof.
  induction v as [|c|n|x|s|l IH|d IH|t v r IH|r|] using cval_ind'; intros b Hok H; try done.
  - cbn in H. simplify_eq. repeat constructor; lia.
  - destruct c; cbn in H; simplify_eq; repeat constructor; lia.
  - by apply (encode_key_bytes_ok (KInt n)).
  - by apply (encode_key_bytes_ok (KBytes x)).
  - by apply (encode_key_bytes_ok (KText s)).
  - apply encode_array_Ok in H as (h & bs & Hh & Hbs & ->). apply cval_ok_array in Hok. apply Forall_app.
    split; [eapply head_bytes; [done|lia]|]. apply bytes_concat. clear Hh. revert IH Hok.
    induction Hbs as [|v b l bs Hv _ IHl]; [constructor|]. intros [Hi IH]%Forall_cons [Ho Hok]%Forall_cons.
    constructor; [by apply Hi|by apply IHl].
  - apply encode_map_Ok in H as (h & bs & Hh & -> & Hbs). apply cval_ok_map in Hok as [_ Hok]. apply Forall_app.
    split; [eapply head_bytes; [done|lia]|]. apply bytes_concat, Forall_forall. intros e [i Hi]%list_elem_of_lookup.
    destruct (Forall2_lookup_r _ _ _ _ _ Hbs Hi) as ([k v] & Hkv & bk & bv & -> & Hk & Hv).
    apply list_elem_of_lookup_2 in Hkv. rewrite elem_of_sort_by in Hkv. rewrite Forall_forall in IH. rewrite Forall_forall in Hok.
    destruct (Hok _ Hkv) as [Hko Hvo]. apply Forall_app. split; [by eapply encode_key_bytes_ok|by apply (IH _ Hkv)].
  - cbn in H. apply bind_Ok in H as (h & Hh & (b' & Hb & [= <-])%bind_Ok). apply Forall_app.
    split; [eapply head_bytes; [done|lia]|by apply IH].
Qed.

Section numerals.
Context (is_space : Z -> bool) (digit_value : Z -> option Z).
(** The ten digits are digits and not white space. *)
Hypothesis digits : forall c, 48 <= c <= 57 -> is_space c = false /\ digit_value c = Some (c - 48).

Lemma strip_digits s : Forall (fun c => 48 <= c <= 57) s -> strip is_space s = s.
Proof using digits.
  assert (Hl : forall t, Forall (fun c => 48 <= c <= 57) t -> lstrip_space is_space t = t).
  { intros [|c t] H; [done|]. cbn. apply Forall_cons in H as [Hc _]. by rewrite (proj1 (digits c Hc)). }
  intros H. unfold strip. rewrite (Hl s), (Hl (reverse s)) by (rewrite ?Forall_reverse; done). apply reverse_involutive.
Qed.

Lemma int_digits_decimal s : forall acc n u, Forall (fun c => 48 <= c <= 57) s -> (s = [] -> u = false) ->
  int_digits digit_value acc n u s = Some (foldl (fun n c => n * 10 + (c - 48)) acc s, n + len s).
Proof using digits.
  induction s as [|c s IH]; intros acc n u Hs Hu; cbn [int_digits foldl].
  - rewrite Hu by done. unfold len. cbn. f_equal. f_equal. lia.
  - apply Forall_cons in Hs as [Hc Hs]. rewrite (proj2 (Z.eqb_neq c 95)) by lia. rewrite (proj2 (digits c Hc)), IH by done.
    unfold len. cbn [length]. f_equal. f_equal. lia.
Qed.

Lemma int_of_str_decimal n m : 0 <= n -> int_of_str is_space digit_value (str_of_int n) = Some m -> m = n.
Proof using digits.
  intros Hn. unfold str_of_int. rewrite (proj2 (Z.ltb_ge n 0)) by done.
  destruct (str_of_nonneg_spec n Hn) as ([Hne Hd] & Hval & _). unfold int_of_str. rewrite strip_digits by done.
  destruct (str_of_nonneg n) as [|c s] eqn:E; [done|]. pose proof Hd as [Hc _]%Forall_cons.
  assert (c <> 45 /\ c <> 43) as [H1 H2] by lia.
  assert (E' : match c :: s with 45 :: r => (-1, r) | 43 :: r => (1, r) | _ => (1, c :: s) end = (1, c :: s)).
  { destruct c as [|p|p]; try done. repeat (destruct p as [p|p|]; try done). }
  rewrite E', int_digits_decimal by (done || by intros). fold (decimal_value (c :: s)). rewrite Hval.
  cbv beta iota. destruct (4300 <? _); [done|]. intros E2%(inj Some). lia.
Qed.

Lemma compress_decompressed m : forall out, labels_ok m -> forall out',
  foldR (compress_entry is_space digit_value) out ((fun kv => (C14N ++ str_of_int kv.1, mb_encode kv.2)) <$> m) = Ok out' ->
  (forall kv, kv ∈ m -> kv.1 ∉ out.*1) -> out' = out ++ m.
Proof using digits.
  induction m as [|[n d] m IH]; intros out [Hd Hok] out' H Hf; cbn [fmap list_fmap foldR] in H.
  { injection H as <-. by rewrite app_nil_r. }
  apply Forall_cons in Hok as [[Hn Hb] Hok]. cbn [fst snd] in *. unfold dict_ok in Hd. rewrite fmap_cons in Hd. apply NoDup_cons in Hd as [Hx Hd].
  apply bind_Ok in H as (o & Ho & H). unfold compress_entry in Ho. cbn [fst snd] in Ho. apply bind_Ok in Ho as (? & _ & Ho).
  rewrite drop_app_length in Ho. apply bind_Ok in Ho as (i & Hi & Ho).
  destruct (int_of_str _ _ _) as [j|] eqn:Ej; [|done]. injection Hi as ->. apply int_of_str_decimal in Ej as ->; [|done].
  unfold mb_decode, mb_encode in Ho.
  assert (startswith ($"u" ++ b64url_encode d) ($"u") = true) as Hu by (apply startswith_spec; by eexists).
  rewrite Hu in Ho. cbn [negb raise_if mbind result_bind] in Ho. change (drop 1 ($"u" ++ b64url_encode d)) with (b64url_encode d) in Ho.
  rewrite b64url_decode_encode in Ho by done. cbn [mbind result_bind] in Ho. injection Ho as <-.
  assert (n ∉ out.*1) as Hno by (apply (Hf (n, d)); left). rewrite dset_new in H by done.
  apply IH in H as ->; [by rewrite <- app_assoc|by split|].
  intros kv Hkv Hin. rewrite fmap_app in Hin. apply elem_of_app in Hin as [Hin|Hin]; [apply (Hf kv); [by right|done]|].
  apply list_elem_of_singleton in Hin. cbn in Hin. apply Hx. cbn. rewrite <- Hin. by apply list_elem_of_fmap_2.
Qed.
End numerals.

(** The parts as the codec's values. *)
Definition derived_value (s k : bytes) (g : list bytes) (m : list (Z * bytes)) (idx : list Z) : cval :=
  CArray [CBytes s; CBytes k; CArray (CBytes <$> g); CMap ((fun kv => (KInt kv.1, CBytes kv.2)) <$> m); CArray (CInt <$> idx)].

Lemma list_max_const {A} (f : A -> nat) l : (forall x, x ∈ l -> f x = 1%nat) -> (list_max (map f l) <= 1)%nat.
Proof. intros H. apply list_max_le, Forall_fmap, Forall_forall. intros x Hx. cbn. by rewrite H. Qed.

Lemma derived_value_height s k g m idx : (height (derived_value s k g m idx) <= MAX_DEPTH)%nat.
Proof.
  unfold derived_value, MAX_DEPTH. cbn [height map list_max].
  assert (list_max (map (fun x => S (height x)) (CBytes <$> g)) <= 1)%nat as H1.
  { apply list_max_const. by intros x (y & -> & _)%list_elem_of_fmap. }
  assert (list_max (map (fun x => S (height x)) (CInt <$> idx)) <= 1)%nat as H2.
  { apply list_max_const. by intros x (y & -> & _)%list_elem_of_fmap. }
  assert (list_max (map (fun kv : ckey * cval => S (height kv.2)) ((fun kv => (KInt kv.1, CBytes kv.2)) <$> m)) <= 1)%nat as H3.
  { apply list_max_const. by intros x (y & -> & _)%list_elem_of_fmap. }
  cbn [list_max foldr]. lia.
Qed.

Lemma derived_value_ok s k g m idx : bytes_ok s -> bytes_ok k -> Forall bytes_ok g -> labels_ok m ->
  cval_ok (derived_value s k g m idx).
Proof.
  intros Hs Hk Hg [Hd Hm]. apply cval_ok_array. rewrite !Forall_cons. split_and!; [done|done| | | |done].
  - apply cval_ok_array. by rewrite Forall_fmap.
  - apply cval_ok_map. split.
    + unfold dict_ok in *. rewrite <- list_fmap_compose. change (NoDup ((KInt ∘ fst) <$> m)). rewrite list_fmap_compose.
      apply NoDup_fmap_on; [|done]. by intros ? ? _ _ [= ->].
    + rewrite Forall_fmap. eapply Forall_impl; [exact Hm|]. by intros [] [].
  - apply cval_ok_array. rewrite Forall_fmap. by apply Forall_true.
Qed.

Lemma map_fmap {A B C} (f : B -> C) (g : A -> B) l : map f (g <$> l) = (fun x => f (g x)) <$> l.
Proof. induction l as [|x l IH]; [done|]. cbn. by rewrite IH. Qed.

(** What a decoder reads of it: the same, the label map in the order of the encoded keys. *)
Lemma derived_value_received s k g m idx :
  exists m', m' ≡ₚ m /\ received (derived_value s k g m idx) = derived_value s k g m' idx.
Proof.
  exists (sort_by (fun kv : Z * bytes => key_bytes (KInt kv.1)) m). split; [apply sort_by_perm|].
  unfold derived_value. cbn [received map]. rewrite !map_fmap. cbn [received fst snd].
  by rewrite (sort_by_map (fun kv : ckey * cval => key_bytes kv.1) (fun kv : Z * bytes => (KInt kv.1, CBytes kv.2))).
Qed.

Lemma mb_decode_encode data : bytes_ok data -> mb_decode (mb_encode data) = Ok data.
Proof.
  intros H. unfold mb_decode, mb_encode.
  assert (startswith ($"u" ++ b64url_encode data) ($"u") = true) as -> by (apply startswith_spec; by eexists).
  cbn [negb raise_if mbind result_bind]. change (drop 1 ($"u" ++ b64url_encode data)) with (b64url_encode data).
  by apply b64url_decode_encode.
Qed.

Lemma check_derived_value s k g m idx e : labels_ok m -> Forall (fun n => 0 <= n) idx ->
  check_proof_subset (derived_value s k g m idx) e = Ok tt.
Proof.
  intros [_ Hm] Hi. assert (Hl : forall l, Forall (fun v => check_proof_subset v e = Ok tt) l -> check_proof_subset (CArray l) e = Ok tt).
  { induction 1 as [|v l Hv _ IH]; [done|]. cbn [check_proof_subset] in *. by rewrite Hv. }
  apply Hl. rewrite !Forall_cons. split_and!; [done|done| | | |done].
  - apply Hl. rewrite Forall_fmap. by apply Forall_true.
  - induction Hm as [|[n b] m [Hn _] _ IH]; [done|]. cbn [check_proof_subset fmap list_fmap check_key fst snd] in *.
    cbn in Hn. rewrite (proj2 (Z.ltb_ge n 0)) by done. exact IH.
  - apply Hl. rewrite Forall_fmap. eapply Forall_impl; [exact Hi|]. intros n Hn. cbn. by rewrite (proj2 (Z.ltb_ge n 0)).
Qed.

Lemma parts_read m idx g : labels_ok m -> Forall (fun n => 0 <= n) idx ->
  mapR label_part ((fun kv => (KInt kv.1, CBytes kv.2)) <$> m) = Ok m /\ mapR index_part (CInt <$> idx) = Ok idx /\
  mapR bytes_part (CBytes <$> g) = Ok g.
Proof.
  intros [_ Hm] Hi. split_and!; apply mapR_Ok.
  - induction Hm as [|[n b] m [Hn _] _ IH]; constructor; [by apply label_part_Ok|done].
  - induction Hi as [|n l Hn _ IH]; constructor; [by apply index_part_Ok|done].
  - induction g; by constructor.
Qed.

Lemma decode_encode_derived is_space digit_value
    (digits : forall c, 48 <= c <= 57 -> is_space c = false /\ digit_value c = Some (c - 48)) s k g m idx pv :
  bytes_ok s -> bytes_ok k -> Forall bytes_ok g -> labels_ok m -> NoDup m.*2 -> Forall (fun n => 0 <= n) idx ->
  encode_derived_proof is_space digit_value (CBytes s) (CBytes k) (CBytes <$> g) (decompress_label_map m) idx = Ok pv ->
  exists m', m' ≡ₚ m /\ labels_ok m' /\ decode_derived_proof pv =
    Ok {| dp_signature := s; dp_public_key := k; dp_signatures := g; dp_label_map := decompress_label_map m'; dp_indexes := idx |}.
Proof.
  intros Hs Hk Hg Hm Hnd Hi H. unfold encode_derived_proof in H. apply bind_Ok in H as (c & Hc & (body & Hb & <-%Ok_inj)%bind_Ok).
  rewrite decompress_map in Hc by done. apply (compress_decompressed _ _ digits) in Hc as ->; [|done|set_solver]. cbn [app] in Hb.
  change (CArray _) with (derived_value s k g m idx) in Hb.
  unfold encode_cbor in Hb. apply bind_Ok in Hb as (? & _ & Hb%catch_as_Ok).
  pose proof (derived_value_ok s k g m idx Hs Hk Hg Hm) as Hok.
  pose proof (decode_of_encode _ _ Hok (derived_value_height s k g m idx) Hb) as Hd.
  destruct (derived_value_received s k g m idx) as (m' & Hp & E). rewrite E in Hd. exists m'. split; [done|].
  assert (Hm' : labels_ok m').
  { destruct Hm as [Hd' Hm]. split; [unfold dict_ok in *; by rewrite Hp|by rewrite Hp]. }
  split; [done|]. assert (bytes_ok (DERIVED_PROOF_HEADER ++ body)) as Hh.
  { apply Forall_app. split; [unfold DERIVED_PROOF_HEADER; repeat constructor; lia|by eapply encode_bytes_ok]. }
  unfold decode_derived_proof. rewrite mb_decode_encode by done. cbn [mbind result_bind].
  assert (startswith (DERIVED_PROOF_HEADER ++ body) DERIVED_PROOF_HEADER = true) as -> by (apply startswith_spec; by eexists).
  cbn [negb raise_if mbind result_bind]. rewrite drop_app_length. unfold decode_cbor. rewrite Hd. cbn [catch_as mbind result_bind].
  rewrite check_derived_value by done. cbn [mbind result_bind derived_value bytes_part as_bytes signatures_part labels_part indexes_part].
  destruct (parts_read m' idx g Hm' Hi) as (E1 & E2 & E3). rewrite E3. cbn [mbind result_bind]. rewrite E1. cbn [mbind result_bind].
  rewrite E2. cbn [mbind result_bind]. rewrite bool_decide_eq_true_2 by by rewrite Hp. done.
Qed.

(** The proof value round trips.  What the holder serialises of a derived proof (the two
    signatures' parts, the label map of a set of distinct blank nodes, the mandatory indexes), the
    verifier's parser reads back: the same parts in the same order, and the same label map. *)
Theorem derived_proof_roundtrip is_space digit_value (s k : bytes) (g : list bytes) (m : list (Z * bytes)) (idx : list Z) (pv : pystr)
    (digits : forall c, 48 <= c <= 57 -> is_space c = false /\ digit_value c = Some (c - 48)) :
  Forall bytes_ok (s :: k :: g) -> labels_ok m -> NoDup m.*2 -> Forall (fun n => 0 <= n) idx ->
  encode_derived_proof is_space digit_value (CBytes s) (CBytes k) (CBytes <$> g) (decompress_label_map m) idx = Ok pv ->
  exists label_map, decode_derived_proof pv =
    Ok {| dp_signature := s; dp_public_key := k; dp_signatures := g; dp_label_map := label_map; dp_indexes := idx |} /\
    label_map ≡ₚ decompress_label_map m.
Proof.
  intros [Hs [Hk Hg]%Forall_cons]%Forall_cons Hm Hnd Hi H.
  destruct (decode_encode_derived _ _ digits s k g m idx pv Hs Hk Hg Hm Hnd Hi H) as (m' & Hp & Hm' & ->).
  eexists. split; [done|]. rewrite !decompress_map by done. by rewrite Hp.
Qed.

Lemma ascii_digits_are c : 48 <= c <= 57 -> ascii_space c = false /\ ascii_digit c = Some (c - 48).
Proof.
  intros Hc. unfold ascii_space, ascii_digit, is_ascii_digit. split.
  - apply bool_decide_eq_false_2. rewrite !elem_of_cons, elem_of_nil. lia.
  - by rewrite (proj2 (Z.leb_le 48 c)), (proj2 (Z.leb_le c 57)) by lia.
Qed.

Lemma derived_proof_roundtrip_witness : exists label_map,
  (pv ← encode_derived_proof ascii_space ascii_digit (CBytes [1]) (CBytes [128; 36]) (CBytes <$> [[2]; [3; 4]])
     (decompress_label_map [(10, [7]); (0, [8])]) [0; 2]; decode_derived_proof pv) =
    Ok {| dp_signature := [1]; dp_public_key := [128; 36]; dp_signatures := [[2]; [3; 4]]; dp_label_map := label_map; dp_indexes := [0; 2] |} /\
  label_map ≡ₚ decompress_label_map [(10, [7]); (0, [8])].
Proof.
  destruct (encode_derived_proof ascii_space ascii_digit (CBytes [1]) (CBytes [128; 36]) (CBytes <$> [[2]; [3; 4]])
     (decompress_label_map [(10, [7]); (0, [8])]) [0; 2]) as [pv|e] eqn:E; [|vm_compute in E; discriminate].
  apply (derived_proof_roundtrip ascii_space ascii_digit [1] [128; 36] [[2]; [3; 4]] [(10, [7]); (0, [8])] [0; 2] pv ascii_digits_are); [..|exact E].
  - apply (bool_decide_unpack _); vm_compute; exact I.
  - split; apply (bool_decide_unpack _); vm_compute; exact I.
  - apply (bool_decide_unpack _); vm_compute; exact I.
  - apply (bool_decide_unpack _); vm_compute; exact I.
Defined.

(** * What an issuer signs and a holder derives verifies *)

Definition base_value (s k h : bytes) (g : list bytes) (ps : list pystr) : cval :=
  CArray [CBytes s; CBytes k; CBytes h; CArray (CBytes <$> g); CArray (CText <$> ps)].

Lemma base_value_read s k h g ps b : Forall bytes_ok [s; k; h] -> Forall bytes_ok g -> Forall pystr_ok ps ->
  encode (base_value s k h g ps) = Ok b -> bytes_ok b /\ decode b = Ok (base_value s k h g ps).
Proof.
  intros Hs Hg Hp Hb. rewrite !Forall_cons in Hs. assert (Hok : cval_ok (base_value s k h g ps)).
  { apply cval_ok_array. rewrite !Forall_cons. split_and!; try apply Hs; try done; apply cval_ok_array; by rewrite Forall_fmap. }
  split; [by eapply encode_bytes_ok|]. assert (E : received (base_value s k h g ps) = base_value s k h g ps).
  { unfold base_value. cbn [received map]. rewrite !map_fmap. cbn [received]. done. }
  rewrite <- E. apply decode_of_encode; [done| |done]. unfold base_value, MAX_DEPTH. cbn [height map].
  assert (list_max (map (fun x => S (height x)) (CBytes <$> g)) <= 1)%nat.
  { apply list_max_const. by intros x (y & -> & _)%list_elem_of_fmap. }
  assert (list_max (map (fun x => S (height x)) (CText <$> ps)) <= 1)%nat.
  { apply list_max_const. by intros x (y & -> & _)%list_elem_of_fmap. }
  cbn [list_max foldr]. lia.
Qed.

Lemma check_texts e ps : check_proof_subset (CArray (CText <$> ps)) e = Ok tt.
Proof. induction ps as [|p ps IH]; [done|]. exact IH. Qed.
Lemma check_strings e g : check_proof_subset (CArray (CBytes <$> g)) e = Ok tt.
Proof. induction g as [|p g IH]; [done|]. exact IH. Qed.

Lemma decode_encode_base s k h g ps pv : Forall bytes_ok [s; k; h] -> Forall bytes_ok g -> Forall pystr_ok ps ->
  encode_base_proof s k h g ps = Ok pv ->
  decode_base_proof pv = Ok {| bp_signature := CBytes s; bp_public_key := CBytes k; bp_hmac_key := CBytes h;
                               bp_signatures := CArray (CBytes <$> g); bp_pointers := CArray (CText <$> ps) |}.
Proof.
  intros Hs Hg Hp H. unfold encode_base_proof in H. apply bind_Ok in H as (body & Hb & <-%Ok_inj).
  unfold encode_cbor in Hb. apply bind_Ok in Hb as (? & _ & Hb%catch_as_Ok). fold (base_value s k h g ps) in Hb.
  destruct (base_value_read s k h g ps body Hs Hg Hp Hb) as [Hbody Hd].
  assert (bytes_ok (BASE_PROOF_HEADER ++ body)) as Hh by (apply Forall_app; split; [unfold BASE_PROOF_HEADER; repeat constructor; lia|done]).
  unfold decode_base_proof. rewrite mb_decode_encode by done. cbn [mbind result_bind].
  assert (startswith (BASE_PROOF_HEADER ++ body) BASE_PROOF_HEADER = true) as -> by (apply startswith_spec; by eexists).
  cbn [negb raise_if mbind result_bind]. rewrite drop_app_length. unfold decode_cbor. rewrite Hd. cbn [catch_as mbind result_bind].
  assert (check_proof_subset (base_value s k h g ps) ProofValueMalformed = Ok tt) as ->; [|done].
  unfold base_value. pose proof (check_strings ProofValueMalformed g) as E1. pose proof (check_texts ProofValueMalformed ps) as E2.
  cbn [check_proof_subset mbind result_bind] in *. by rewrite E1, E2.
Qed.

(** ** Lines and indexes *)

Lemma enumerate_snd {A} (l : list A) : snd <$> enumerate l = l.
Proof.
  apply list_eq. intros i. unfold enumerate. rewrite list_lookup_fmap, list_lookup_imap. by destruct (l !! i).
Qed.
Lemma filter_fmap_snd {A B} (P : B -> Prop) `{!forall x, Decision (P x)} (Q : A * B -> Prop) `{!forall x, Decision (Q x)} (l : list (A * B)) :
  (forall x, x ∈ l -> Q x <-> P x.2) -> snd <$> filter Q l = filter P (snd <$> l).
Proof.
  induction l as [|x l IH]; intros HPQ; [done|]. rewrite fmap_cons, !filter_cons.
  assert (Q x <-> P x.2) as E by (apply HPQ; left). assert (snd <$> filter Q l = filter P (snd <$> l)) as El by (apply IH; intros; apply HPQ; by right).
  destruct (decide (Q x)), (decide (P x.2)); try tauto. by rewrite fmap_cons, El.
Qed.
Lemma enumerate_inj {A} (l : list A) i x y : (i, x) ∈ enumerate l -> (i, y) ∈ enumerate l -> x = y.
Proof.
  intros [j Hj]%list_elem_of_lookup [k Hk]%list_elem_of_lookup. unfold enumerate in *. rewrite list_lookup_imap in Hj, Hk.
  destruct (l !! j) eqn:E1; [|done]. destruct (l !! k) eqn:E2; [|done]. cbn in *. simplify_eq. congruence.
Qed.
Lemma indexes_of_spec chosen lines il : il ∈ enumerate lines -> il.1 ∈ indexes_of chosen lines <-> il.2 ∈ chosen.
Proof.
  destruct il as [i ln]. cbn. intros Hil. unfold indexes_of. split.
  - intros ([j l] & E & [Hc Hin]%list_elem_of_filter)%list_elem_of_fmap. cbn in *. subst i. by rewrite (enumerate_inj _ _ _ _ Hil Hin).
  - intros Hc. apply list_elem_of_fmap. exists (i, ln). split; [done|]. by apply list_elem_of_filter.
Qed.
Lemma lines_at_indexes chosen lines : lines_at (indexes_of chosen lines) lines = filter (fun ln => ln ∈ chosen) lines.
Proof.
  unfold lines_at. erewrite (filter_fmap_snd (fun ln => ln ∈ chosen)); [by rewrite enumerate_snd|]. intros x Hx. by apply indexes_of_spec.
Qed.
Lemma lines_not_at_indexes chosen lines : lines_not_at (indexes_of chosen lines) lines = filter (fun ln => ln ∉ chosen) lines.
Proof.
  unfold lines_not_at. erewrite (filter_fmap_snd (fun ln => ln ∉ chosen)); [by rewrite enumerate_snd|].
  intros x Hx. by rewrite (indexes_of_spec chosen lines x Hx).
Qed.
Lemma indexes_of_nonneg chosen lines : Forall (fun n => 0 <= n) (indexes_of chosen lines).
Proof.
  apply Forall_forall. intros n ([i l] & -> & [_ Hin]%list_elem_of_filter)%list_elem_of_fmap.
  apply list_elem_of_lookup in Hin as [j Hj]. unfold enumerate in Hj. rewrite list_lookup_imap in Hj.
  destruct (lines !! j); [|done]. cbn in *. simplify_eq. cbn. lia.
Qed.

Lemma foldl_dset_from {V} (l : list (pystr * V)) : forall out k v,
  dget (foldl (fun d kv => dset d kv.1 kv.2) out l) k = Some v -> (k, v) ∈ l \/ dget out k = Some v.
Proof.
  induction l as [|[k' v'] l IH]; intros out k v H; [by right|]. cbn [foldl fst snd] in H. apply IH in H as [H|H]; [left; by right|].
  rewrite dget_dset in H. case_decide; [|by right]. subst. injection H as <-. left. left.
Qed.
Lemma signatures_by_line_spec lines sigs ln v : dget (signatures_by_line lines (CBytes <$> sigs)) ln = Some v ->
  exists i s, lines !! i = Some ln /\ sigs !! i = Some s /\ v = CBytes s.
Proof.
  unfold signatures_by_line. intros [[i Hi]%list_elem_of_lookup|H]%foldl_dset_from; [|done].
  apply lookup_zip_Some in Hi as [Hl Hs]. rewrite list_lookup_fmap in Hs. destruct (sigs !! i) as [s|] eqn:E; [|done].
  injection Hs as <-. by exists i, s.
Qed.

(** ** Labels *)

Lemma relabel_from_ext m1 m2 (Hm : forall k, dget m1 k = dget m2 k) s : forall skip, relabel_from m1 s skip = relabel_from m2 s skip.
Proof.
  induction s as [|c s IH]; intros skip; [done|]. cbn [relabel_from]. destruct skip as [|skip]; [|apply IH].
  destruct (bnode_token (c :: s)) as [token|]; [by rewrite Hm, IH|by rewrite IH].
Qed.
Lemma relabel_ext m1 m2 lines : (forall k, dget m1 k = dget m2 k) -> relabel lines m1 = relabel lines m2.
Proof. intros Hm. unfold relabel. f_equal. apply list_fmap_ext. intros _ x _. by apply relabel_from_ext. Qed.

Lemma dget_perm {V} (d1 d2 : list (pystr * V)) k : dict_ok d1 -> d1 ≡ₚ d2 -> dget d1 k = dget d2 k.
Proof.
  intros Hd Hp. assert (dict_ok d2) as Hd2 by (unfold dict_ok in *; by rewrite <- Hp).
  destruct (dget d1 k) as [v|] eqn:E1; symmetry.
  - apply dget_elem; [done|]. rewrite <- Hp. by apply dget_Some_elem.
  - apply dget_None. apply dget_None in E1. by rewrite <- Hp.
Qed.

(** What [URDNA2015] issues: one canonical label per blank node, [_:c14n0], [_:c14n1], ... *)
Definition issued_ok (issued : list (pystr * pystr)) : Prop :=
  NoDup issued.*1 /\ NoDup issued.*2 /\ Forall (fun kv => exists n, 0 <= n /\ kv.2 = $"_:" ++ C14N ++ str_of_int n) issued.

Definition labelled (m : list (Z * bytes)) : list (pystr * pystr) :=
  (fun kv => ($"_:" ++ C14N ++ str_of_int kv.1, $"_:" ++ mb_encode kv.2)) <$> m.

Lemma labelled_keys m : labels_ok m -> dict_ok (labelled m).
Proof.
  intros Hm. unfold dict_ok, labelled. rewrite <- list_fmap_compose.
  change (NoDup ((app ($"_:") ∘ (fun kv : Z * bytes => C14N ++ str_of_int kv.1)) <$> m)).
  rewrite list_fmap_compose. apply NoDup_fmap_on; [|by apply label_keys]. intros x y _ _. apply app_inv_head.
Qed.

Lemma relabel_decompressed m : labels_ok m ->
  foldl (fun out kv => dset out ($"_:" ++ kv.1) ($"_:" ++ kv.2)) [] (decompress_label_map m) = labelled m.
Proof. intros Hm. rewrite relabel_pairs, decompress_map by done. unfold labelled. by rewrite <- list_fmap_compose. Qed.

Section labels_of.
Context (hmac : bytes -> bytes -> bytes) (key : bytes).
Hypothesis hmac_bytes : forall b, bytes_ok (hmac key b).

Lemma c14n_to_hmac_values issued blinded c h : c14n_to_hmac hmac (CBytes key) issued = Ok blinded -> dget blinded c = Some h ->
  exists d, bytes_ok d /\ h = $"_:" ++ mb_encode d.
Proof using hmac_bytes.
  unfold c14n_to_hmac. intros H Hh.
  assert (Hinv : forall c h, dget blinded c = Some h -> exists d, bytes_ok d /\ h = $"_:" ++ mb_encode d); [|by eapply Hinv].
  apply (foldR_inv (fun out => forall c h, dget out c = Some h -> exists d, bytes_ok d /\ h = $"_:" ++ mb_encode d) _ _ _ _ H); [done|].
  intros out x out' _ IH (l & Hl & <-%Ok_inj)%bind_Ok c' h' Hc. rewrite dget_dset in Hc. case_decide; [|by eapply IH]. injection Hc as <-.
  cbn [blinded_label] in Hl. unfold hmac_label in Hl. apply bind_Ok in Hl as (l' & (t & _ & <-%Ok_inj)%bind_Ok & <-%Ok_inj).
  exists (hmac key t). split; [apply hmac_bytes|done].
Qed.

Lemma through_values (m issued s2h : list (pystr * pystr)) bn h : through m issued = Ok s2h -> dget s2h bn = Some h -> exists c, dget m c = Some h.
Proof using Type.
  intros H%mapR_Ok Hh%dget_Some_elem. apply list_elem_of_lookup in Hh as [i Hi].
  destruct (Forall2_lookup_r _ _ _ _ _ H Hi) as ([b c] & _ & (v & Hv & E%Ok_inj)%bind_Ok). cbn in *. simplify_eq.
  exists c. unfold no_key_error in Hv. destruct (dget m c); [by apply Ok_inj in Hv as ->|done].
Qed.

(** The map of [_reveal_view], entry by entry. *)
Lemma reveal_relabel (s2h issued out rm : list (pystr * pystr)) :
  foldR (fun out kv => v ← no_key_error (dget s2h kv.1); Ok (dset out kv.2 v)) out issued = Ok rm ->
  NoDup issued.*2 -> (forall kv, kv ∈ issued -> kv.2 ∉ out.*1) ->
  exists es, rm = out ++ es /\ Forall2 (fun kv e => e.1 = kv.2 /\ dget s2h kv.1 = Some e.2) issued es.
Proof using Type.
  revert out. induction issued as [|[bn c] issued IH]; intros out H Hnd Hf; cbn [foldR] in H.
  { injection H as <-. exists []. split; [by rewrite app_nil_r|constructor]. }
  rewrite fmap_cons in Hnd. apply NoDup_cons in Hnd as [Hx Hnd]. cbn [fst snd] in *.
  apply bind_Ok in H as (o & (v & Hv & <-%Ok_inj)%bind_Ok & H). unfold no_key_error in Hv.
  destruct (dget s2h bn) as [v'|] eqn:Ev; [apply Ok_inj in Hv as ->|done].
  assert (c ∉ out.*1) as Hc by (apply (Hf (bn, c)); left). rewrite dset_new in H by done.
  destruct (IH _ H Hnd) as (es & -> & Hes).
  - intros kv Hkv Hin. rewrite fmap_app in Hin. apply elem_of_app in Hin as [Hin|Hin]; [apply (Hf kv); [by right|done]|].
    apply list_elem_of_singleton in Hin. cbn in Hin. apply Hx. cbn. rewrite <- Hin. by apply list_elem_of_fmap_2.
  - exists ((c, v) :: es). split; [by rewrite <- app_assoc|]. by constructor.
Qed.

Lemma reveal_labels (blinded issued0 s2h issued rm : list (pystr * pystr)) :
  c14n_to_hmac hmac (CBytes key) issued0 = Ok blinded -> through blinded issued0 = Ok s2h -> NoDup s2h.*2 ->
  foldR (fun out kv => v ← no_key_error (dget s2h kv.1); Ok (dset out kv.2 v)) [] issued = Ok rm -> issued_ok issued ->
  exists m, rm = labelled m /\ labels_ok m /\ NoDup m.*2.
Proof using hmac_bytes.
  intros Hb Ht Hs H (Hk & Hv & Hc). apply reveal_relabel in H as (es & -> & Hes); [|done|set_solver]. cbn [app].
  assert (Hval : NoDup es.*2).
  { apply NoDup_alt. intros i j h Hi Hj. rewrite list_lookup_fmap in Hi, Hj.
    destruct (es !! i) as [[c1 h1]|] eqn:E1; [|done]. destruct (es !! j) as [[c2 h2]|] eqn:E2; [|done]. cbn in *. simplify_eq.
    destruct (Forall2_lookup_r _ _ _ _ _ Hes E1) as ([b1 ?] & I1 & _ & D1). destruct (Forall2_lookup_r _ _ _ _ _ Hes E2) as ([b2 ?] & I2 & _ & D2).
    cbn in *. apply dget_Some_elem in D1, D2. assert (b1 = b2) as -> by by eapply (NoDup_snd_inj s2h).
    eapply (NoDup_lookup issued.*1); [done|..]; rewrite list_lookup_fmap; [by rewrite I1|by rewrite I2]. }
  assert (Hm : exists m, es = labelled m /\ Forall (fun kv => 0 <= kv.1 /\ bytes_ok kv.2) m).
  { clear Hk Hv Hval. induction Hes as [|[b c] [c' h] issued es [E Hd] _ IH]; [by exists []|]. cbn in E, Hd. subst c'.
    apply Forall_cons in Hc as [(n & Hn & Ec) Hc]. destruct (IH Hc) as (m & -> & Hm). cbn in *. subst c.
    destruct (through_values _ _ _ _ _ Ht Hd) as (c & Hcv). destruct (c14n_to_hmac_values _ _ _ _ Hb Hcv) as (d & Hd' & ->).
    exists ((n, d) :: m). split; [done|]. by constructor. }
  destruct Hm as (m & -> & Hm). exists m. split; [done|]. split; [split; [|done]|].
  - assert (issued.*2 = (labelled m).*1) as E.
    { clear -Hes. induction Hes as [|? ? ? ? [? ?] _ IH]; [done|]. cbn. by rewrite IH, H. }
    rewrite E in Hv. unfold labelled in Hv. rewrite <- list_fmap_compose in Hv.
    change (NoDup (((fun n => $"_:" ++ C14N ++ str_of_int n) ∘ fst) <$> m)) in Hv. rewrite list_fmap_compose in Hv. by eapply NoDup_fmap_1.
  - unfold labelled in Hval. rewrite <- list_fmap_compose in Hval.
    change (NoDup (((fun d => $"_:" ++ mb_encode d) ∘ snd) <$> m)) in Hval. rewrite list_fmap_compose in Hval. by eapply NoDup_fmap_1.
Qed.
End labels_of.

(** The label map of the derived proof. *)
Lemma label_map_of m : labels_ok m ->
  foldl (fun out kv => dset out (drop 2 kv.1) (drop 2 kv.2)) [] (labelled m) = decompress_label_map m.
Proof.
  intros Hm. rewrite (foldl_dset_fresh (fun kv : pystr * pystr => drop 2 kv.1) (fun kv => drop 2 kv.2) (labelled m) []); [| |set_solver].
  - rewrite decompress_map by done. cbn [app]. unfold labelled. by rewrite <- list_fmap_compose.
  - unfold labelled. rewrite <- list_fmap_compose. by apply label_keys.
Qed.

Lemma ddel_dset_old {V} (d : list (pystr * V)) k v : ddel (dset d k v) k = ddel d k.
Proof.
  unfold ddel. induction d as [|[k' v'] d IH]; cbn [dset].
  - rewrite filter_cons, decide_False by (cbn; tauto). done.
  - case_decide as Hk.
    + rewrite !filter_cons, !decide_False by (cbn; congruence). done.
    + rewrite !filter_cons. cbn [fst]. rewrite !decide_True by congruence. by rewrite IH.
Qed.

Lemma deskolemize_keys d : exists d', deskolemize_document (JDict d) = JDict d' /\ d'.*1 = d.*1.
Proof.
  eexists. split; [reflexivity|]. induction d as [|[k v] d IH]; [done|]. cbn. by rewrite IH.
Qed.

Lemma selection_no_proof ps document sel k : select_json_ld ps document = Ok (Some sel) -> k ∉ document.*1 -> k <> $"@context" -> k ∉ sel.*1.
Proof.
  intros H Hk Hc Hin. apply select_json_ld_spec in H as (paths & _ & _ & Hall & Honly).
  apply dget_None in Hk. assert (exists v, dget sel k = Some v) as [v Hv].
  { destruct (dget sel k) as [v|] eqn:E; [by exists v|]. by apply dget_None in E. }
  destruct (Honly [k] v) as [[_ Hd]|(tokens & after & Ht & -> & _)]; [cbn; by rewrite Hv|cbn in Hd; by rewrite Hk in Hd|].
  apply Hall in Ht as (w & Hw & _). cbn in Hw. by rewrite Hk in Hw.
Qed.

Section issue_derive_verify.
Context (hash : pystr -> bytes -> bytes) (hmac : bytes -> bytes -> bytes).
Context (ed25519_verify : bytes -> bytes -> bytes -> option bool)
  (ecdsa_verify : pystr -> Z -> Z -> Z * Z -> bytes -> option bool)
  (mldsa_verify : pystr -> bytes -> bytes -> bytes -> result bool).
Context (decode_point : pystr -> bytes -> option (Z * Z)) (encode_point : Z -> Z -> option bytes).
Context (is_space is_decimal : Z -> bool) (digit_value : Z -> option Z) (fromisoformat : pystr -> option (Z * option Z)).
Context (expand : json -> result json) (compact : json -> json -> result jobject)
  (to_rdf normalize : json -> result pystr) (canonize : pystr -> result (pystr * list (pystr * pystr))).
Context (validate_document : jobject -> jobject -> result unit).

Abbreviation transform := (transform hmac expand compact to_rdf canonize).
Abbreviation mandatory_statements := (mandatory_statements to_rdf).
Abbreviation reveal_view := (reveal_view to_rdf canonize).
Abbreviation sha256_lines := (sha256_lines hash).
Abbreviation proof_config_hash := (proof_config_hash hash normalize).
Abbreviation verifies := (verifies ed25519_verify ecdsa_verify mldsa_verify).

Lemma add_base_proof_Ok {K} `{Signer K} (key : K) ephemeral hmac_key credential created vm purpose pointers secured :
  add_base_proof hash hmac encode_point expand compact to_rdf normalize canonize validate_document key ephemeral hmac_key
    credential created vm purpose pointers = Ok secured ->
  exists at_ ph mh t M ejwk pk sigs bs pv,
    let proof := unsigned_proof SD_CRYPTOSUITE at_ vm purpose None None in
    ($"proof" ∉ credential.*1) /\ proof_config_hash proof (jget credential ($"@context")) = Ok ph /\
    transform credential (CBytes hmac_key) = Ok t /\ mandatory_statements (CText <$> pointers) t = Ok M /\
    sha256_lines (filter (fun ln => ln ∈ M) (relabeled t)) = Ok mh /\
    public_jwk ephemeral = Ok ejwk /\ p256_public_multikey encode_point ejwk = Ok pk /\
    mapR (fun ln => text ← utf8 (ln ++ [10]) ProofMalformed; sign ephemeral text) (filter (fun ln => ln ∉ M) (relabeled t)) = Ok sigs /\
    signer_sign key (ph ++ pk ++ mh) = Ok bs /\ encode_base_proof bs pk hmac_key sigs pointers = Ok pv /\
    secured = dset credential ($"proof") (JDict (dset proof ($"proofValue") (JStr pv))).
Proof using Type.
  unfold add_base_proof. intros (? & _ & (? & _ & (? & Hno%raise_if_Ok%dmem_false & (at_ & _ & Hx)%bind_Ok)%bind_Ok)%bind_Ok)%bind_Ok.
  cbv zeta in Hx. apply bind_Ok in Hx as ([[ph mh] nm] & Hc%catch_as_Ok & Hx).
  apply bind_Ok in Hc as (ph' & Hph & (? & _ & (t & Ht & (M & HM & (mh' & Hmh & [= -> -> <-])%bind_Ok)%bind_Ok)%bind_Ok)%bind_Ok).
  apply bind_Ok in Hx as (ejwk & He & (pk & Hpk & (sigs & Hsigs & (bs & Hbs & (pv & Hpv & <-%Ok_inj)%bind_Ok)%bind_Ok)%bind_Ok)%bind_Ok).
  by exists at_, ph, mh, t, M, ejwk, pk, sigs, bs, pv.
Qed.

Lemma derive_proof_Ok secured selective derived proof pv bs pk key sigs pointers t M :
  derive_proof hmac is_space digit_value expand compact to_rdf canonize secured selective = Ok derived ->
  jget secured ($"proof") = JDict proof -> jget proof ($"proofValue") = JStr pv ->
  decode_base_proof pv = Ok {| bp_signature := CBytes bs; bp_public_key := CBytes pk; bp_hmac_key := CBytes key;
                               bp_signatures := CArray (CBytes <$> sigs); bp_pointers := CArray (CText <$> pointers) |} ->
  transform (ddel secured ($"proof")) (CBytes key) = Ok t -> mandatory_statements (CText <$> pointers) t = Ok M ->
  exists ps sel reveal lines labels idx filtered pv',
    select_json_ld ps (skolemized_compact t) = Ok sel /\ deskolemize_document (JDict (default [] sel)) = JDict reveal /\
    reveal_view (JDict reveal) (skolem_to_hmac t) M = Ok (lines, labels, idx) /\
    Forall2 (fun ln s => dget (signatures_by_line (filter (fun ln => ln ∉ M) (relabeled t)) (CBytes <$> sigs)) ln = Some s)
      (lines_not_at idx lines) filtered /\
    encode_derived_proof is_space digit_value (CBytes bs) (CBytes pk) filtered labels idx = Ok pv' /\
    derived = dset reveal ($"proof") (JDict (dset (ddel proof ($"proofValue")) ($"proofValue") (JStr pv'))).
Proof using Type.
  intros Hd Hp Hpv Hbase Ht HM. unfold derive_proof in Hd. rewrite Hp in Hd. apply bind_Ok in Hd as (? & _ & Hd).
  rewrite (jget_Some _ _ _ Hpv) in Hd by done. cbn [mbind result_bind] in Hd. rewrite Hbase in Hd. cbn [mbind result_bind bp_pointers py_iter] in Hd.
  set (ps := _ ++ (CText <$> _)) in Hd. apply bind_Ok in Hd as ([[[[sbl rv] lines] labels] idx] & Hc%catch_as_Ok & Hd).
  cbn [bp_hmac_key bp_signatures py_iter] in Hc. rewrite Ht in Hc. cbn [mbind result_bind] in Hc. rewrite HM in Hc. cbn [mbind result_bind] in Hc.
  apply bind_Ok in Hc as (sel & Hsel & Hc). destruct (deskolemize_keys (default [] sel)) as (reveal & Er & _). rewrite Er in Hc.
  apply bind_Ok in Hc as ([[l1 l2] l3] & Hv & [= <- <- -> -> ->]).
  apply bind_Ok in Hd as (filtered & Hf%mapR_Ok & (pv' & Hpv' & <-%Ok_inj)%bind_Ok).
  exists ps, sel, reveal, lines, labels, idx, filtered, pv'. split_and!; try done.
  eapply Forall2_impl; [exact Hf|]. intros ln s Hs. cbv beta in Hs. case_match; [by apply Ok_inj in Hs as ->|done].
Qed.

(** The proof-scoped key of a base proof, and what its signatures verify as. *)
Definition ephemeral_ok (kid : pystr) (x y : Z) (sk : bytes -> Z * Z) : Prop :=
  forall m, signs_for ed25519_verify ecdsa_verify (P256SigningKey kid x y sk) m.

Lemma ephemeral_verifies kid x y sk jwk m s : ephemeral_ok kid x y sk -> public_jwk (P256SigningKey kid x y sk) = Ok jwk ->
  sign (P256SigningKey kid x y sk) m = Ok s -> bytes_ok s /\ verifies jwk m s.
Proof using Type.
  intros He Hj Hs. destruct (He m) as (Hx & Hy & Hr & Hs2 & Hv). cbn [public_jwk sign] in *. unfold int_to_fixed in Hj.
  rewrite !int_to_bytes_ok in Hj by done. apply Ok_inj in Hj as <-. rewrite raw_rs_ok in Hs by done. apply Ok_inj in Hs as <-. split.
  - apply Forall_app. split; apply to_bytes_be_ok.
  - unfold EcdsaSd.verifies, verify_signature. rewrite bool_decide_eq_false_2 by by apply (bool_decide_unpack _). rewrite bool_decide_eq_true_2 by done.
    rewrite verify_ecdsa_ok by done. by rewrite Hv.
Qed.

(** The codec of compressed points. *)
Definition point_codec : Prop :=
  forall x y p, encode_point x y = Some p -> bytes_ok p /\ length p = 33%nat /\ decode_point ($"P-256") p = Some (x, y).

Lemma multikey_roundtrip kid x y sk jwk pk : point_codec -> ephemeral_ok kid x y sk ->
  public_jwk (P256SigningKey kid x y sk) = Ok jwk -> p256_public_multikey encode_point jwk = Ok pk ->
  bytes_ok pk /\ p256_multikey_to_jwk decode_point pk = Ok jwk.
Proof using Type.
  intros Hc He Hj Hp. destruct (He []) as (Hx & Hy & _). cbn [public_jwk] in Hj. unfold int_to_fixed in Hj.
  rewrite !int_to_bytes_ok in Hj by done. apply Ok_inj in Hj as <-. unfold p256_public_multikey in Hp. apply bind_Ok in Hp as (? & _ & Hp).
  destruct (ec_member ($"P-256") (to_bytes_be P256_COORD_BYTES x) (to_bytes_be P256_COORD_BYTES y)) as [Ex Ey]; [apply to_bytes_be_ok..|].
  unfold int_member in Hp. rewrite Ex, Ey in Hp. cbn [mbind result_bind] in Hp. rewrite !from_to_bytes_be in Hp by done.
  destruct (encode_point x y) as [p|] eqn:Ep; [|done]. apply Ok_inj in Hp as <-. destruct (Hc _ _ _ Ep) as (Hb & Hl & Hd). split.
  - apply Forall_app. split; [unfold P256_MULTIKEY_PREFIX; repeat constructor; lia|done].
  - unfold p256_multikey_to_jwk. assert (startswith (P256_MULTIKEY_PREFIX ++ p) P256_MULTIKEY_PREFIX = true) as -> by (apply startswith_spec; by eexists).
    assert ((len (P256_MULTIKEY_PREFIX ++ p) =? 35) = true) as -> by (unfold len; rewrite length_app, Hl; done).
    cbn [negb orb raise_if mbind result_bind].
    rewrite drop_app_length, Hd. change 32%nat with P256_COORD_BYTES. by rewrite !int_to_bytes_ok by done.
Qed.

(** The signatures the holder picked are those of the statements it reveals. *)
Lemma picked_signatures (P : pystr -> bytes -> Prop) base sigs lines filtered :
  Forall2 P base sigs ->
  Forall2 (fun ln s => dget (signatures_by_line base (CBytes <$> sigs)) ln = Some s) lines filtered ->
  exists g, filtered = CBytes <$> g /\ Forall2 P lines g.
Proof using Type.
  intros Hb. induction 1 as [|ln s lines filtered Hs _ (g & -> & IH)]; [by exists []|].
  apply signatures_by_line_spec in Hs as (i & sg & Hi & Hsg & ->). exists (sg :: g). split; [done|]. constructor; [|done].
  by apply (Forall2_lookup_lr _ _ _ i _ _ Hb).
Qed.

Lemma verify_all key lines sigs u :
  Forall2 (fun ln s => exists text, utf8 (ln ++ [10]) ProofMalformed = Ok text /\ verifies key text s) lines sigs ->
  foldR (fun _ => verify_statement ed25519_verify ecdsa_verify mldsa_verify key) u (zip lines sigs) = Ok (match lines with [] => u | _ => tt end).
Proof using Type.
  intros H. revert u. induction H as [|ln s lines sigs (text & Ht & Hv) _ IH]; intros u; [done|]. cbn [zip zip_with foldR].
  assert (verify_statement ed25519_verify ecdsa_verify mldsa_verify key (ln, s) = Ok tt) as ->.
  { unfold verify_statement. cbn [fst snd]. rewrite Ht. cbn [mbind result_bind]. unfold EcdsaSd.verifies in Hv. by rewrite Hv. }
  cbn [mbind result_bind]. rewrite IH. by destruct lines.
Qed.

(** The derived proof's parts, as the verifier parses them, with the statements it recomputes. *)
Lemma derived_parsed hmac_key key_ t0 t M reveal lines labels idx bs pk g pv
    (digits : forall c, 48 <= c <= 57 -> is_space c = false /\ digit_value c = Some (c - 48))
    (hmac_bytes : forall b, bytes_ok (hmac hmac_key b))
    (canonize_issued : forall q text issued, canonize q = Ok (text, issued) -> issued_ok issued) :
  key_ = CBytes hmac_key -> transform t0 key_ = Ok t -> NoDup (skolem_to_hmac t).*2 ->
  reveal_view (JDict reveal) (skolem_to_hmac t) M = Ok (lines, labels, idx) ->
  Forall bytes_ok (bs :: pk :: g) ->
  encode_derived_proof is_space digit_value (CBytes bs) (CBytes pk) (CBytes <$> g) labels idx = Ok pv ->
  idx = indexes_of M lines /\ exists p nquads text issued,
    decode_derived_proof pv = Ok p /\ dp_signature p = bs /\ dp_public_key p = pk /\ dp_signatures p = g /\ dp_indexes p = idx /\
    to_rdf (JDict reveal) = Ok nquads /\ canonize nquads = Ok (text, issued) /\
    relabel (sort_by id (lines_of text)) (foldl (fun out kv => dset out ($"_:" ++ kv.1) ($"_:" ++ kv.2)) [] (dp_label_map p)) = lines.
Proof using Type.
  intros -> Ht Hs Hv Hb He. unfold EcdsaSd.reveal_view in Hv. apply bind_Ok in Hv as (nquads & Hrdf & Hv).
  apply bind_Ok in Hv as ([c14n issued] & Hc & Hv). unfold canonicalize in Hc. apply bind_Ok in Hc as ([text issued'] & Hcan & [= <- <-]).
  apply bind_Ok in Hv as (rm & Hrm & [= <- <- <-]). split; [done|].
  unfold EcdsaSd.transform in Ht. apply bind_Ok in Ht as (ex & _ & Ht). cbv zeta in Ht. apply bind_Ok in Ht as (cp & _ & (nq & _ & Ht)%bind_Ok).
  apply bind_Ok in Ht as ([l0 id0] & _ & (blinded & Hbl & (s2h & Hth & <-%Ok_inj)%bind_Ok)%bind_Ok). cbn [skolem_to_hmac] in *.
  destruct (reveal_labels _ _ hmac_bytes _ _ _ _ _ Hbl Hth Hs Hrm (canonize_issued _ _ _ Hcan)) as (m & -> & Hm & Hnd).
  rewrite label_map_of in He by done.
  apply Forall_cons in Hb as [Hb1 [Hb2 Hb3]%Forall_cons].
  destruct (decode_encode_derived _ _ digits bs pk g m _ pv Hb1 Hb2 Hb3 Hm Hnd (indexes_of_nonneg _ _) He) as (m' & Hp & Hm' & Hd).
  eexists _, nquads, text, issued'. split; [exact Hd|]. split_and!; try done. cbn [dp_label_map].
  rewrite relabel_decompressed by done. apply relabel_ext. intros k. apply dget_perm; [by apply labelled_keys|].
  unfold labelled. by rewrite Hp.
Qed.

(** What the issuer signs and the holder derives carries its signatures.  Let an issuer sign a
    credential with [add_base_proof], and a holder derive a disclosure of it for any pointers that
    resolve.  If the curve and HMAC behave as documented (compressed points decode to themselves,
    the two keys' signatures verify, the credential's blank nodes get distinct labels), the
    canonical labels are distinct, and the disclosure keeps the credential's context and, as the
    JSON-LD processor reads it, its mandatory statements, then every signature check of [verify]
    passes: under the issuer's key and for the purpose it was issued for, its verdict is exactly
    that of the nesting bound, of context validation and of the validity window on the disclosed
    document, and what it returns is the disclosure unchanged. *)
Theorem derived_disclosure_verifies {K} `{Signer K} (key : K) kid x y sk hmac_key credential created vm purpose pointers selective
    secured derived jwk resolver instant leeway ct
    (digits : forall c, 48 <= c <= 57 -> is_space c = false /\ digit_value c = Some (c - 48))
    (hmac_bytes : forall b, bytes_ok (hmac hmac_key b))
    (canonize_issued : forall q text issued, canonize q = Ok (text, issued) -> issued_ok issued)
    (codec : point_codec) (ephemeral : ephemeral_ok kid x y sk)
    (Hsign : forall m s, signer_sign key m = Ok s -> bytes_ok s /\ verifies jwk m s)
    (Hkey : bytes_ok hmac_key) (Hptr : Forall pystr_ok pointers) (Hjwk : jwk <> [])
    (Hadd : add_base_proof hash hmac encode_point expand compact to_rdf normalize canonize validate_document key
       (P256SigningKey kid x y sk) hmac_key credential created vm purpose pointers = Ok secured)
    (Hder : derive_proof hmac is_space digit_value expand compact to_rdf canonize secured selective = Ok derived)
    (Hhmac : forall t, transform credential (CBytes hmac_key) = Ok t ->
       NoDup (skolem_to_hmac t).*2 /\ $"proof" ∉ (skolemized_compact t).*1)
    (Hrdf : forall t M view, transform credential (CBytes hmac_key) = Ok t -> mandatory_statements (CText <$> pointers) t = Ok M ->
       reveal_view (JDict (unsecured derived)) (skolem_to_hmac t) M = Ok view ->
       filter (fun ln => ln ∈ M) view.1.1 = filter (fun ln => ln ∈ M) (relabeled t))
    (Hctx : jget derived ($"@context") = jget credential ($"@context")) :
  exists proof, jget derived ($"proof") = JDict proof /\
    sd_verify hash ed25519_verify ecdsa_verify mldsa_verify decode_point is_space is_decimal fromisoformat to_rdf normalize
      canonize validate_document derived (Some jwk) resolver (Some purpose) instant leeway ct =
    (raise_if (nesting_exceeds (JDict derived) JSON_MAX_DEPTH) ProofMalformed;;
     validate_document (unsecured derived) (proof_config proof (jget derived ($"@context")));;
     expired ← check_validity_window is_space is_decimal fromisoformat (unsecured derived) [] instant leeway ct;
     Ok {| sd_credential := derived; sd_issuer := issuer_of (unsecured derived); sd_subject := subject_of (unsecured derived);
           sd_proof := proof; sd_expired := expired |}).
Proof using Type.
  apply add_base_proof_Ok in Hadd as (at_ & ph & mh & t & M & ejwk & pk & sigs & bs & pv & Hno & Hph & Ht & HM & Hmh & Hej & Hpk & Hsigs & Hbs & Hpv & ->).
  set (proof := unsigned_proof SD_CRYPTOSUITE at_ vm purpose None None) in *.
  destruct (unsigned_proof_members SD_CRYPTOSUITE at_ vm purpose None None) as (_ & Mc & Mp & _ & _ & Mv & Me & Me'). fold proof in Mc, Mp, Mv, Me, Me'.
  destruct (multikey_roundtrip _ _ _ _ _ _ codec ephemeral Hej Hpk) as [Bpk Hkey35]. destruct (Hsign _ _ Hbs) as [Bbs Hbase].
  assert (Hsg : Forall2 (fun ln s => bytes_ok s /\ exists text, utf8 (ln ++ [10]) ProofMalformed = Ok text /\ verifies ejwk text s)
            (filter (fun ln => ln ∉ M) (relabeled t)) sigs).
  { apply mapR_Ok in Hsigs. eapply Forall2_impl; [exact Hsigs|]. cbv beta. intros ln s (text & Htx & Hs)%bind_Ok.
    destruct (ephemeral_verifies _ _ _ _ _ _ _ ephemeral Hej Hs). split; [done|]. by exists text. }
  assert (Forall bytes_ok sigs) as Bsigs by (clear -Hsg; induction Hsg as [|? ? ? ? [? _] _ IH]; by constructor).
  assert (Hb : decode_base_proof pv = _) by (apply (decode_encode_base bs pk hmac_key sigs pointers); [by repeat constructor|done..]).
  destruct (Hhmac t Ht) as [Hnd Hnp].
  eapply (derive_proof_Ok _ _ _ _ _ _ _ _ _ _ t M) in Hder as (ps & sel & reveal & lines & labels & idx & filtered & pv' & Hsel & Er & Hview & Hf & Hpv' & Eder);
    [|by rewrite jget_dset, decide_True|by rewrite jget_dset, decide_True|exact Hb|by rewrite ddel_dset_new|done].
  subst derived. rewrite ddel_dset_old, (ddel_absent proof) in * by done. set (proof' := dset proof ($"proofValue") (JStr pv')) in *.
  assert (Hrev : $"proof" ∉ reveal.*1).
  { destruct (deskolemize_keys (default [] sel)) as (d' & Ed & Ek). rewrite Er in Ed. injection Ed as <-. rewrite Ek.
    destruct sel as [s|]; [|set_solver]. eapply selection_no_proof; [done..|]. by vm_compute. }
  assert (Hun : unsecured (dset reveal ($"proof") (JDict proof')) = reveal) by by apply ddel_dset_new.
  rewrite Hun in *.
  destruct (picked_signatures _ _ _ _ _ Hsg Hf) as (g & -> & Hg).
  assert (Forall bytes_ok g) as Bg by (clear -Hg; induction Hg as [|? ? ? ? [? _] _ IH]; by constructor).
  destruct (derived_parsed hmac_key _ _ t M reveal lines labels idx bs pk g pv' digits hmac_bytes canonize_issued eq_refl Ht Hnd Hview
     ltac:(by repeat constructor) Hpv') as (-> & p & nquads & text & issued & Hdec & E1 & E2 & E3 & E4 & Hto & Hcan & Hlines).
  pose proof (Hrdf t M _ Ht HM Hview) as Hmand. cbn [fst] in Hmand.
  exists proof'. split; [by rewrite jget_dset, decide_True|].
  assert (Hp' : forall k, k <> $"proofValue" -> jget proof' k = jget proof k) by (intros k Hk; unfold proof'; by rewrite jget_dset, decide_False).
  unfold sd_verify. destruct (nesting_exceeds _ _); [done|]. cbn [raise_if mbind result_bind]. rewrite jget_dset, decide_True by done.
  rewrite (Hp' ($"cryptosuite")), Mc by (apply (bool_decide_unpack _); vm_compute; exact I). cbn [eq_str]. rewrite bool_decide_eq_true_2 by done.
  cbn [negb raise_if mbind result_bind]. assert (jget proof' ($"proofValue") = JStr pv') as -> by (unfold proof'; by rewrite jget_dset, decide_True). cbn [mbind result_bind].
  unfold parse_derived. rewrite Hdec. cbn [catch_as mbind result_bind]. rewrite Hctx.
  assert (proof_config proof' (jget credential ($"@context")) = proof_config proof (jget credential ($"@context"))) as Hcfg.
  { unfold proof_config, proof'. by rewrite ddel_dset_old. }
  assert (Hpres : presented hash to_rdf normalize canonize (dset reveal ($"proof") (JDict proof')) proof' p = Ok (lines, ph)).
  { unfold presented. rewrite Hun, Hto. cbn [mbind result_bind]. unfold canonicalize. rewrite Hcan. cbn [mbind result_bind].
    rewrite Hctx. unfold EcdsaSd.proof_config_hash in *. rewrite Hcfg, Hph. cbn [mbind result_bind]. by rewrite Hlines. }
  rewrite Hpres. cbn [mbind result_bind]. rewrite E4, lines_at_indexes, Hmand, Hmh. cbn [mbind result_bind].
  unfold proof_key. destruct jwk as [|m jwk]; [done|]. cbn [mbind result_bind]. rewrite E1, E2, E3. unfold EcdsaSd.verifies in Hbase. rewrite Hbase.
  cbn [negb raise_if mbind result_bind]. rewrite Hkey35. cbn [mbind result_bind]. rewrite <- (Forall2_length _ _ _ Hg).
  rewrite bool_decide_eq_true_2 by done. cbn [negb raise_if mbind result_bind].
  rewrite (verify_all ejwk) by (eapply Forall2_impl; [exact Hg|]; intros ? ? [_ Hx]; exact Hx). cbn [mbind result_bind].
  rewrite Hun. destruct (validate_document _ _) as [[]|]; [|done]. cbn [mbind result_bind]. unfold check_proof_purpose. rewrite Hp', Mp by (apply (bool_decide_unpack _); vm_compute; exact I).
  cbn [eq_str]. rewrite bool_decide_eq_true_2 by done. cbn [negb raise_if mbind result_bind].
  by rewrite (window_no_expiry _ _ _ _ _ []); [|rewrite Hp', ?Me, ?Me' by (apply (bool_decide_unpack _); vm_compute; exact I); done..].
Qed.
End issue_derive_verify.

Lemma toy_ephemeral : ephemeral_ok toy_ed25519 toy_ecdsa [] 5 0 (fun _ => (1, 2)).
Proof. intros m. cbn. repeat split; lia. Qed.

Lemma toy_codec : point_codec toy_decode_point toy_encode_point.
Proof.
  intros x y p H. unfold toy_encode_point in H. destruct (_ && _) eqn:E; [|done].
  apply (inj Some) in H as <-. apply andb_true_iff in E as [[E1 E2]%andb_true_iff E3]. split_and!.
  - constructor; [split; lia|apply to_bytes_be_ok].
  - change (S (length (to_bytes_be 32 x)) = 33%nat). by rewrite length_to_bytes_be.
  - unfold toy_decode_point. change (drop 1 (2 :: to_bytes_be 32 x)) with (to_bytes_be 32 x).
    rewrite from_to_bytes_be; [f_equal; f_equal|]; lia.
Qed.

Lemma derived_disclosure_verifies_witness : exists r,
  toy_verify (result_or [] toy_derived) = Ok r /\ sd_credential r = result_or [] toy_derived /\ sd_expired r = false.
Proof.
  edestruct (derived_disclosure_verifies toy_hash toy_hmac toy_ed25519 toy_ecdsa toy_mldsa toy_decode_point toy_encode_point ascii_space
    is_ascii_digit ascii_digit (fun _ => None) toy_expand toy_compact toy_to_rdf toy_normalize toy_canonize toy_validate
    toy_key [] 5 0 (fun _ => (1, 2)) [9; 9] toy_credential (Ok ($"2024-01-01T00:00:00Z")) ($"did:i#k") ($"assertionMethod") [$"/issuer"]
    [$"/name"] (result_or [] toy_secured) (result_or [] toy_derived) toy_jwk None 0 (JInt 60) true ascii_digits_are) as (proof & _ & E).
  - intros b. apply (bool_decide_unpack _). vm_compute. exact I.
  - intros q text issued [= _ <-]. split_and!; [apply (bool_decide_unpack _); vm_compute; exact I..|].
    repeat constructor. by exists 0.
  - exact toy_codec.
  - exact toy_ephemeral.
  - intros m s Hs. by eapply (ephemeral_verifies toy_ed25519 toy_ecdsa toy_mldsa [] 5 0 (fun _ => (1, 2)) toy_jwk m s toy_ephemeral).
  - apply (bool_decide_unpack _). vm_compute. exact I.
  - repeat constructor; vm_compute; done.
  - done.
  - vm_compute. reflexivity.
  - vm_compute. reflexivity.
  - intros t Ht. vm_compute in Ht. injection Ht as <-. split; apply (bool_decide_unpack _); vm_compute; exact I.
  - intros t M view Ht HM Hv. vm_compute in Ht. injection Ht as <-. vm_compute in HM. injection HM as <-.
    vm_compute in Hv. injection Hv as <-. vm_compute. reflexivity.
  - vm_compute. reflexivity.
  - eexists. split; [unfold toy_verify; rewrite E; vm_compute; reflexivity|]. by split.
Defined.
