(* ===== verification/Aio.v ===== *)
(** The asynchronous surface ([openvc.aio], src/src/openvc/aio.py) and the [_async] twins it calls
    (did/base.py, did/did_web.py, did/did_webvh.py, fetch.py, schema.py, jwt_vc_issuer.py, status/,
    resolvers.py), as coroutines ([Coroutine]).

    Each is written as the code is; [AioTwins] relates it to the synchronous definition of the file that
    models its module. *)
From Stdlib Require Import SpecFloat.
From S2P Require Import Prelude Errors Coroutine PyStr Utf8 Json PyNum StatusCodec StatusCheck VerifyCommon Did Webvh Keys DataIntegrity EcdsaSd VcJwt SdJwt Schema JwtVcIssuer Verify StatusIssue Resolvers Fetch.

(** * Resolvers *)

Section twins.
Context {E : Type -> Type}.

Record AsyncDidResolver := { a_supports : option (pystr -> bool); a_resolve : pystr -> co E DidDocument }.

Definition as_async_resolver (resolver : DidResolver) : AsyncDidResolver :=
  {| a_supports := supports resolver; a_resolve := fun did => lift (Did.resolve resolver did) |}.

Definition a_supported (r : AsyncDidResolver) (did : pystr) : bool := match a_supports r with Some s => s did | None => true end.
Definition a_register (resolvers : list AsyncDidResolver) (r : AsyncDidResolver) : list AsyncDidResolver := resolvers ++ [r].
Fixpoint a_registry_resolve (resolvers : list AsyncDidResolver) (did : pystr) : co E DidDocument :=
  match resolvers with
  | [] => lift (Err UnsupportedDidMethod)
  | r :: resolvers => if a_supported r did then a_resolve r did else a_registry_resolve resolvers did
  end.
Definition AsyncDidResolverRegistry (resolvers : list AsyncDidResolver) : AsyncDidResolver :=
  {| a_supports := None; a_resolve := a_registry_resolve resolvers |}.

Definition AsyncDidWebResolver (unquote : pystr -> pystr) (decode_point : pystr -> bytes -> option (Z * Z))
    (fetch : pystr -> co E json) : AsyncDidResolver :=
  {| a_supports := Some (fun did => startswith did ($"did:web:"));
     a_resolve := fun did => url ← lift (did_web_url unquote did); raw ← fetch url; lift (validated_document decode_point raw did) |}.

(** [_replay] of the log fetched. *)
Definition AsyncDidWebvhResolver (replay : pystr -> pystr -> result DidDocument) (unquote : pystr -> pystr)
    (fetch : pystr -> co E pystr) : AsyncDidResolver :=
  {| a_supports := Some (fun did => startswith did ($"did:webvh:"));
     a_resolve := fun did => url ← lift (did_webvh_url unquote did); log ← fetch url; lift (replay did log) |}.

(** * Status *)

Definition check_credential_status_async (gzip_read : bytes -> Z -> result bytes) (credential : jobject)
    (resolve_status_list : pystr -> co E json) : co E StatusResult :=
  entries ← lift (parse_status_entries credential);
  results ← mapC (fun e => vc ← resolve_status_list (status_list_credential e); lift (read_status_bit gzip_read vc e)) entries;
  mret (tally_status results).

Definition check_token_status_async (z : zlib_object) (claims : jobject) (resolve_status_list_token : pystr -> co E json)
    : co E (option TokenStatusResult) :=
  ref ← lift (parse_token_status_ref claims);
  match ref with
  | None => mret None
  | Some ref => token_claims ← resolve_status_list_token (uri ref);
                r ← lift (token_status_result z ref token_claims); mret (Some r)
  end.

(** * The key of an https issuer *)

Definition resolve_jwt_vc_issuer_key_async (urlparse : pystr -> result ParseResult) (urlunparse_https : pystr -> pystr -> pystr)
    (lower : pystr -> pystr) (fetch : pystr -> co E json) (iss : pystr) (kid : json) : co E jobject :=
  url ← lift (jwt_vc_issuer_metadata_url urlparse urlunparse_https lower iss);
  metadata ← fetch url;
  found ← lift (inline_jwks_or_uri metadata iss);
  jwks ← match found with inl jwks => mret jwks | inr uri => fetch uri end;
  lift (key_from_jwks jwks kid).

(** * Schemas *)

Section schemas.
Context (is_space : Z -> bool) (sri_hash : pystr -> bytes -> bytes) (json_loads : bytes -> result json).
Context (processor : jobject -> jobject -> schema_outcome).
Context (resolve_credential_schema : pystr -> co E (option bytes)) (verify_inner : option (bytes -> co E json)).

Definition schema_from_credential_async (raw : bytes) : co E jobject :=
  match verify_inner with
  | None => lift (Err UnsupportedSchemaType)
  | Some verify =>
      inner ← catching (fun e => isinstance e OpenvcError) SchemaResolutionError (verify raw);
      lift (json_schema_from_verified_credential inner)
  end.

Definition resolve_schema_async (ref : CredentialSchemaRef) : co E jobject :=
  _ ← lift (require_known_schema_type ref);
  raw ← catching (fun e => isinstance e SchemaError || isinstance e DidError) SchemaResolutionError
          (resolve_credential_schema (ref_id ref));
  data ← lift (prepare_schema_bytes is_space sri_hash ref raw);
  if bool_decide (ref_type ref = SCHEMA_TYPE_JSON_CREDENTIAL) then schema_from_credential_async data
  else resource ← lift (parse_schema_resource json_loads data); mret (extract_json_schema resource).

Definition validate_credential_schema_async (credential : jobject) : co E SchemaValidationResult :=
  refs ← lift (parse_credential_schemas credential);
  applied ← foldC (fun applied ref =>
                     schema ← resolve_schema_async ref;
                     _ ← lift (validate_instance processor credential schema);
                     mret (applied ++ [ref_id ref])) [] refs;
  mret {| validated := negb (bool_decide (applied = [])); schemas := applied |}.
End schemas.

(** * The pipeline *)

Record async_resolvers := {
  a_did_resolver : AsyncDidResolver;
  a_status_list : option (pystr -> co E json); a_status_list_token : option (pystr -> co E json);
  a_issuer_fetch : option (pystr -> co E json);
  a_x5c_key : option (json -> pystr -> result jobject) }.

Record async_request := {
  a_policy : VerificationPolicy; a_rs : async_resolvers; a_fetch_schema : option (pystr -> co E (option bytes));
  a_inner : option (bytes -> co E json); a_clk : clocks }.

Section pipeline.
Context (rt : runtime).
Abbreviation keys_verify := (Keys.verify_signature (rt_ed25519 rt) (rt_ecdsa rt) (rt_mldsa rt)).

(** ** Keys *)

Definition resolve_jose_key_async (ars : async_resolvers) (iss : pystr) (kid : json) : co E jobject :=
  if startswith iss ($"https://") then
    match a_issuer_fetch ars with
    | None => lift (Err KeyResolutionFailed)
    | Some fetch =>
        catching (fun e => isinstance e JwtVcIssuerError || isinstance e DidError) KeyResolutionFailed
          (resolve_jwt_vc_issuer_key_async (rt_urlparse rt) (rt_urlunparse rt) (rt_lower rt) fetch iss kid)
    end
  else
    doc ← catching (fun e => isinstance e DidError) KeyResolutionFailed (a_resolve (a_did_resolver ars) iss);
    lift (match key_by_kid doc kid with Some vm => Ok (public_key_jwk vm) | None => Err KeyResolutionFailed end).

Definition resolve_jose_key_with_x5c_async (ars : async_resolvers) (token iss : pystr) (kid : option pystr) (sd_jwt : bool)
    : co E jobject :=
  match a_x5c_key ars with
  | Some resolve_x5c_key =>
      let jws := if sd_jwt then (partition 126 token).1 else token in
      '(header, _, _, _) ← lift (parse_compact (rt_json rt) jws);
      if truthy (jget header ($"x5c"))
      then lift (catch_as (fun e => isinstance e X5cError) KeyResolutionFailed (resolve_x5c_key (jget header ($"x5c")) iss))
      else resolve_jose_key_async ars iss (kid_value kid)
  | None => resolve_jose_key_async ars iss (kid_value kid)
  end.

(** [_OneShotResolver]. *)
Definition OneShotResolver (did : pystr) (doc : DidDocument) : DidResolver :=
  {| supports := Some (fun d => bool_decide (d = did));
     Did.resolve := fun d => if bool_decide (d = did) then Ok doc else Err DidResolutionError |}.

Definition preresolved_di_resolver (doc : jobject) (resolver : AsyncDidResolver) : co E (option DidResolver) :=
  let proof := match jget doc ($"proof") with JDict p => p | _ => [] end in
  match jget proof ($"verificationMethod") with
  | JStr ((_ :: _) as vm) =>
      let did := before_fragment vm in
      if negb (a_supported resolver did) then mret None
      else handling (fun r => lift (match r with
                                    | Ok did_doc => Ok (Some (OneShotResolver did did_doc))
                                    | Err e => if isinstance e UnsupportedDidMethod then Ok None
                                               else if isinstance e DidResolutionError then Err KeyResolutionError else Err e
                                    end)) (a_resolve resolver did)
  | _ => mret None
  end.

(** ** Status and schema *)

Definition bind_status_issuer_async (policy : VerificationPolicy) (credential_issuer field : pystr)
    (inner : option (pystr -> co E json)) : option (pystr -> co E json) :=
  match inner with
  | None => None
  | Some inner => Some (fun uri => obj ← inner uri; _ ← lift (enforce_status_issuer policy credential_issuer field obj); mret obj)
  end.

Definition w3c_status_async (policy : VerificationPolicy) (source : jobject) (resolve : option (pystr -> co E json))
    : co E (option StatusResult) :=
  entries ← lift (parse_status_entries source);
  match entries with
  | _ :: _ =>
      match resolve with
      | None => _ ← lift (fail_closed policy); mret None
      | Some f =>
          w3c ← check_credential_status_async (rt_gzip rt) source f;
          _ ← lift (raise_if (revoked w3c && require_not_revoked policy) CredentialRevoked);
          _ ← lift (raise_if (suspended w3c) CredentialSuspended);
          mret (Some w3c)
      end
  | [] => _ ← lift (raise_if (truthy (jget source ($"credentialStatus")) && require_status policy) StatusUnavailable); mret None
  end.

Definition ietf_status_async (policy : VerificationPolicy) (source : jobject) (resolve : option (pystr -> co E json))
    : co E (option TokenStatusResult) :=
  ref ← lift (parse_token_status_ref source);
  match ref with
  | Some _ =>
      match resolve with
      | None => _ ← lift (fail_closed policy); mret None
      | Some f =>
          ietf ← check_token_status_async (rt_zlib rt) source f;
          match ietf with
          | None => mret None
          | Some ts =>
              _ ← lift (raise_if (token_revoked ts && require_not_revoked policy) CredentialRevoked);
              _ ← lift (raise_if (token_suspended ts) CredentialSuspended);
              mret (Some ts)
          end
      end
  | None => _ ← lift (raise_if (negb (is_none (jget source ($"status"))) && require_status policy) StatusUnavailable); mret None
  end.

Definition check_status_async (w3c_source ietf_source : jobject) (policy : VerificationPolicy) (ars : async_resolvers)
    (credential_issuer : pystr) : co E (option (StatusResult + TokenStatusResult)) :=
  _ ← lift (raise_if (require_status_issuer_binding policy && bool_decide (credential_issuer = [])) StatusListIssuerUntrusted);
  let bound field f := if require_status_issuer_binding policy then bind_status_issuer_async policy credential_issuer field f else f in
  w3c ← w3c_status_async policy w3c_source (bound ($"issuer") (a_status_list ars));
  ietf ← ietf_status_async policy ietf_source (bound ($"iss") (a_status_list_token ars));
  mret (match w3c, ietf with
        | Some s, _ => Some (inl s)
        | None, Some s => Some (inr s)
        | None, None => None
        end).

Definition check_schema_async (credential : jobject) (policy : VerificationPolicy) (fetch : option (pystr -> co E (option bytes)))
    (verify_inner : option (bytes -> co E json)) : co E (option SchemaValidationResult) :=
  if negb (truthy (jget credential ($"credentialSchema"))) then mret None
  else
    match fetch with
    | None => _ ← lift (raise_if (require_schema policy) SchemaUnavailable); mret None
    | Some f =>
        r ← validate_credential_schema_async (rt_space rt) (rt_hash rt) (rt_json rt) (rt_processor rt) f verify_inner credential;
        mret (Some r)
    end.

(** * The lanes *)

Definition verify_vc_jwt_async (rq : async_request) (token : pystr) : co E VerificationResult :=
  let p := a_policy rq in
  su ← lift (make_suite (leeway_s p) false false);
  '(iss, kid) ← lift (peek_issuer (rt_json rt) token);
  jwk ← resolve_jose_key_with_x5c_async (a_rs rq) token iss kid false;
  v ← lift (vc_verify (rt_json rt) keys_verify (rt_lower rt) (rt_on_curve rt) (rt_from_jwk rt) (rt_pyjwt rt) (rt_space rt)
              (rt_decimal rt) (rt_fromisoformat rt) su token (JDict jwk) [] (audience p) (require_not_expired p)
              (wall (a_clk rq)) (wall_instant (a_clk rq)));
  _ ← lift (check_types (credential v) (expected_types p));
  status ← check_status_async (credential v) (vc_claims v) p (a_rs rq) (vc_issuer v);
  schema ← check_schema_async (credential v) p (a_fetch_schema rq) (a_inner rq);
  mret {| format := FORMAT_VC_JWT; r_credential := credential v; issuer := JStr (vc_issuer v);
          subject := match vc_subject v with Some s => JStr s | None => JNull end; claims := Some (vc_claims v);
          key_bound := None; status := status; schema := schema; r_raw := RawVc v;
          expired := vc_expired v |}.

(** The audience and the nonce are the policy's: this surface has no [kb_binding]. *)
Definition verify_sd_jwt_async (rq : async_request) (sd_jwt : pystr) : co E VerificationResult :=
  let p := a_policy rq in
  su ← lift (make_sd_suite (leeway_s p));
  '(iss, kid) ← lift (sd_peek_issuer rt sd_jwt);
  jwk ← resolve_jose_key_with_x5c_async (a_rs rq) sd_jwt iss kid true;
  v ← lift (sd_verify (rt_hash rt) (rt_json rt) keys_verify (rt_space rt) (rt_decimal rt) (rt_fromisoformat rt) su sd_jwt
              (JDict jwk) (audience p) (nonce p) (require_key_binding p) (expected_vct p) (require_not_expired p)
              (kb_max_age_s p) (now (a_clk rq)) (wall (a_clk rq)) (wall_instant (a_clk rq)));
  _ ← lift (check_sd_jwt_types v (expected_types p));
  status ← check_status_async (sd_claims v) (sd_claims v) p (a_rs rq) (sd_issuer v);
  schema ← check_schema_async (sd_claims v) p (a_fetch_schema rq) (a_inner rq);
  mret {| format := FORMAT_SD_JWT_VC; r_credential := sd_claims v; issuer := JStr (sd_issuer v);
          subject := match jget (sd_claims v) ($"sub") with JStr s => JStr s | _ => JNull end;
          claims := Some (sd_claims v); key_bound := Some (sd_key_bound v); status := status; schema := schema;
          r_raw := RawSd v; expired := sd_expired v |}.

(** The suite is made, the proof's DID resolved, and only then the suite run; [di_verify] makes the suite too. *)
Definition verify_data_integrity_async (rq : async_request) (fmt : pystr) (doc : jobject) : co E VerificationResult :=
  let p := a_policy rq in
  _ ← lift (leeway_seconds (leeway_s p) ProofError);
  sync_resolver ← preresolved_di_resolver doc (a_did_resolver (a_rs rq));
  v ← lift (di_verify rt fmt doc sync_resolver (proof_purpose p) (now_instant (a_clk rq)) (leeway_s p) (require_not_expired p));
  _ ← lift (bind_issuer_to_verification_method v);
  _ ← lift (check_di_types rt (di_credential v) (expected_types p) fmt);
  status ← check_status_async (di_credential v) (di_credential v) p (a_rs rq) match di_issuer v with JStr s => s | _ => [] end;
  schema ← check_schema_async (di_credential v) p (a_fetch_schema rq) (a_inner rq);
  mret {| format := fmt; r_credential := di_credential v; issuer := di_issuer v; subject := di_subject v; claims := None;
          key_bound := None; status := status; schema := schema; r_raw := RawDi v; expired := di_expired v |}.

Definition verify_leaf_async (rq : async_request) (fmt : pystr) (credential : json) : co E VerificationResult :=
  match credential with
  | JStr s => if bool_decide (fmt = FORMAT_VC_JWT) then verify_vc_jwt_async rq s else verify_sd_jwt_async rq s
  | JDict doc => verify_data_integrity_async rq fmt doc
  | _ => lift (Err UnknownCredentialFormat)
  end.

(** * The pipeline *)

Fixpoint verify_at_async (mk : nat -> async_request) (levels : nat) (credential : json) : co E VerificationResult :=
  fmt ← lift (classify credential);
  catching (fun e => isinstance e RecursionError) UnknownCredentialFormat
    (if bool_decide (fmt = FORMAT_ENVELOPED) then
       match levels, credential with
       | S levels, JDict doc => content ← lift (unwrap_enveloped (rt_json_text rt) doc); verify_at_async mk levels content
       | _, _ => lift (Err UnknownCredentialFormat)
       end
     else verify_leaf_async (mk levels) fmt credential).

(** [_make_schema_verifier_async]. *)
Definition verify_inner_async (p : VerificationPolicy) (ars : async_resolvers) (clk : clocks) (levels : nat) (raw : bytes)
    : co E json :=
  credential ← lift (bytes_to_credential (rt_json_text rt) raw);
  inner_policy ← lift (schema_inner_policy p);
  r ← verify_at_async (fun _ => {| a_policy := inner_policy; a_rs := ars; a_fetch_schema := None; a_inner := None; a_clk := clk |})
        (pred levels) credential;
  mret (JDict (r_credential r)).

Definition request_at_async (p : VerificationPolicy) (ars : async_resolvers) (fetch : option (pystr -> co E (option bytes)))
    (clk : clocks) (levels : nat) : async_request :=
  {| a_policy := p; a_rs := ars; a_fetch_schema := fetch; a_inner := Some (verify_inner_async p ars clk levels); a_clk := clk |}.

Definition verify_credential_async (p : VerificationPolicy) (ars : async_resolvers)
    (fetch : option (pystr -> co E (option bytes))) (clk : clocks) (credential : json) : co E VerificationResult :=
  verify_at_async (request_at_async p ars fetch clk) MAX_ENVELOPES credential.

(** ** Batches *)

(** [_one]: an [OpenvcError] is the item's. *)
Definition verify_one_async (p : VerificationPolicy) (ars : async_resolvers) (fetch : option (pystr -> co E (option bytes)))
    (clk : nat -> clocks) (ic : nat * json) : co E BatchResult :=
  handling (fun r => match r with
                     | Ok r => mret {| index := ic.1; outcome := inl r |}
                     | Err e => if isinstance e OpenvcError then mret {| index := ic.1; outcome := inr e |} else lift (Err e)
                     end) (verify_credential_async p ars fetch (clk ic.1) ic.2).

(** The tasks [verify_many_async] gathers. *)
Definition batch_async (p : VerificationPolicy) (ars : async_resolvers) (fetch : option (pystr -> co E (option bytes)))
    (clk : nat -> clocks) (credentials : list json) : list (co E BatchResult) :=
  verify_one_async p ars fetch clk <$> imap (fun i c => (i, c)) credentials.

(** * The default resolvers of the optional dependencies (resolvers.py) *)

Definition default_credential_schema_resolver_async (fetch : pystr -> co E bytes) : pystr -> co E bytes := fun url => fetch url.

Definition list_resolvers_async (resolver : AsyncDidResolver) (jwt_vc_issuer_fetch : option (pystr -> co E json)) : async_resolvers :=
  {| a_did_resolver := resolver; a_status_list := None; a_status_list_token := None; a_issuer_fetch := jwt_vc_issuer_fetch;
     a_x5c_key := None |}.

Definition default_status_list_resolver_async (resolver : AsyncDidResolver) (jwt_vc_issuer_fetch : option (pystr -> co E json))
    (leeway : json) (fetch : pystr -> co E pystr) (expected_issuer : option pystr) (clk : clocks) (url : pystr) : co E json :=
  leeway ← lift (leeway_seconds leeway StatusListError);
  raw ← fetch url;
  credential ← lift (as_credential rt raw);
  _ ← lift (require_expected_issuer (claimed_list_issuer rt credential) expected_issuer);
  policy ← lift (list_policy leeway);
  result ← verify_credential_async policy (list_resolvers_async resolver jwt_vc_issuer_fetch) None clk credential;
  d ← lift (authenticated_list result); mret (JDict d).

Definition default_status_list_token_resolver_async (resolver : AsyncDidResolver)
    (jwt_vc_issuer_fetch : option (pystr -> co E json)) (leeway : json) (fetch : pystr -> co E pystr)
    (expected_issuer : option pystr) (clock : num) (uri : pystr) : co E json :=
  leeway ← lift (leeway_seconds leeway StatusListError);
  raw ← fetch uri;
  let token := strip (rt_space rt) raw in
  '(header, payload, _, _) ← lift (parse_compact (rt_json rt) token);
  match jget payload ($"iss") with
  | JStr ((_ :: _) as iss) =>
      _ ← lift (require_expected_issuer (Some iss) expected_issuer);
      jwk ← resolve_jose_key_async (list_resolvers_async resolver jwt_vc_issuer_fetch) iss (jget header ($"kid"));
      claims ← lift (verify_status_list_token (rt_json rt) keys_verify token (JDict jwk) (Some uri) (JInt leeway) (Value JNull) clock);
      mret (JDict claims)
  | _ => lift (Err StatusListError)
  end.
End pipeline.
End twins.

(** ** The default transport and registry *)

Definition https_json_fetch_async (url : pystr) : co transport json := Await (GetJson url DEFAULT_TIMEOUT_S MAX_RESPONSE_BYTES) Done.
Definition https_text_fetch_async (url : pystr) : co transport pystr := Await (GetText url DEFAULT_TIMEOUT_S MAX_RESPONSE_BYTES) Done.
Definition https_bytes_fetch_async (url : pystr) : co transport bytes := Await (GetBytes url DEFAULT_TIMEOUT_S MAX_RESPONSE_BYTES) Done.

Section default.
Context (rt : runtime) (unquote : pystr -> pystr).

(** [_WebvhReplay._replay]. *)
Definition webvh_replay (did log : pystr) : result DidDocument :=
  entries ← parse_lines (rt_json_text rt) (rt_space rt) log;
  replay_document (rt_float_repr rt) (rt_hash rt ($"sha256"))
    (Keys.verify_signature (rt_ed25519 rt) (rt_ecdsa rt) (rt_mldsa rt)) (rt_fromisoformat rt) (rt_point rt) did entries.

Definition default_resolver (json_fetch : pystr -> result json) (text_fetch : pystr -> result pystr) : DidResolver :=
  DidResolverRegistry
    [DidKeyResolver (rt_point rt); DidJwkResolver (rt_json rt); DidWebResolver unquote json_fetch (rt_point rt);
     DidWebvhResolver (rt_float_repr rt) (rt_hash rt ($"sha256"))
       (Keys.verify_signature (rt_ed25519 rt) (rt_ecdsa rt) (rt_mldsa rt)) (rt_fromisoformat rt) (rt_point rt)
       (rt_json_text rt) (rt_space rt) unquote text_fetch].

Definition default_async_did_web_resolver : AsyncDidResolver := AsyncDidWebResolver unquote (rt_point rt) https_json_fetch_async.
Definition default_async_did_webvh_resolver : AsyncDidResolver := AsyncDidWebvhResolver webvh_replay unquote https_text_fetch_async.

Definition default_async_resolver : AsyncDidResolver :=
  AsyncDidResolverRegistry
    [as_async_resolver (DidKeyResolver (rt_point rt)); as_async_resolver (DidJwkResolver (rt_json rt));
     default_async_did_web_resolver; default_async_did_webvh_resolver].
End default.
