(* ===== verification/AioTwins.v ===== *)
(** The asynchronous surface ([Aio]) against the synchronous pipeline: for a world [w] that answers every
    awaited call, each [_async] definition and its synchronous counterpart, given resolvers that
    answer the same, return the same; a batch gathered under any schedule is the list of its items'
    results. *)
From Stdlib Require Import SpecFloat.
From S2P Require Import Prelude Errors Coroutine PyStr Utf8 Json PyNum StatusCodec StatusCheck VerifyCommon Did Webvh Keys Contexts DataIntegrity EcdsaSd VcJwt SdJwt Schema JwtVcIssuer Verify StatusIssue Resolvers Fetch Aio.

(** * Agreement *)

(** Two computations that succeed alike. *)
Definition agrees {A} (m1 m2 : result A) : Prop := forall a, m1 = Ok a <-> m2 = Ok a.

#[export] Instance agrees_equivalence A : Equivalence (@agrees A).
Proof. split; unfold agrees; [done|intros x y H a; by rewrite H|intros x y z H1 H2 a; by rewrite H1, H2]. Qed.

Lemma agrees_bind {A B} (m1 m2 : result A) (f1 f2 : A -> result B) :
  agrees m1 m2 -> (forall a, agrees (f1 a) (f2 a)) -> agrees (m1 ≫= f1) (m2 ≫= f2).
Proof. intros Hm Hf b. rewrite !bind_Ok. split; intros (a & Ha & Hb); exists a; (split; [by apply Hm|by apply Hf]). Qed.
Lemma agrees_catch {A} caught e (m1 m2 : result A) : agrees m1 m2 -> agrees (catch_as caught e m1) (catch_as caught e m2).
Proof. intros H a. rewrite !catch_as_Ok. apply H. Qed.
Lemma agrees_foldR {A B} (f g : B -> A -> result B) l :
  (forall b x, agrees (f b x) (g b x)) -> forall b, agrees (foldR f b l) (foldR g b l).
Proof. intros H. induction l as [|x l IH]; intros b; [done|]. cbn [foldR]. apply agrees_bind; [apply H|apply IH]. Qed.

(** * Twins *)

Section world.
Context {E : Type -> Type} (w : forall X, E X -> result X).
Abbreviation run := (run w).

Lemma run_bind_eq {A B} (m : co E A) (f : A -> co E B) r g :
  run m = r -> (forall a, run (f a) = g a) -> run (m ≫= f) = (r ≫= g).
Proof. intros <- H. rewrite run_bind. destruct (run m); [apply H|done]. Qed.
Lemma run_bind_agrees {A B} (m : co E A) (f : A -> co E B) r g :
  agrees (run m) r -> (forall a, agrees (run (f a)) (g a)) -> agrees (run (m ≫= f)) (r ≫= g).
Proof. intros Hm Hf. rewrite run_bind. by apply agrees_bind. Qed.
Lemma run_catching_eq {A} caught e (m : co E A) r : run m = r -> run (catching caught e m) = catch_as caught e r.
Proof. intros <-. apply run_catching. Qed.
Lemma run_catching_agrees {A} caught e (m : co E A) r : agrees (run m) r -> agrees (run (catching caught e m)) (catch_as caught e r).
Proof. intros H. rewrite run_catching. by apply agrees_catch. Qed.

(** The synchronous resolvers the world makes of asynchronous ones. *)
Definition sync_call {A B} (f : A -> co E B) : A -> result B := fun x => run (f x).
Definition sync_resolver (r : AsyncDidResolver) : DidResolver :=
  {| supports := a_supports r; Did.resolve := sync_call (a_resolve r) |}.
Definition sync_resolvers (ars : async_resolvers) : resolvers :=
  {| did_resolver := sync_resolver (a_did_resolver ars);
     status_list := sync_call <$> a_status_list ars; status_list_token := sync_call <$> a_status_list_token ars;
     issuer_fetch := sync_call <$> a_issuer_fetch ars; x5c_key := a_x5c_key ars |}.

Ltac twin :=
  repeat first [ reflexivity
               | apply run_bind_eq; [|intros ?]
               | apply run_catching_eq
               | progress (unfold sync_call, lift; cbn [Coroutine.run]) ].

Lemma sync_as_async r did : Did.resolve (sync_resolver (as_async_resolver r)) did = Did.resolve r did.
Proof. done. Qed.
Lemma supported_sync r did : supported (sync_resolver r) did = a_supported r did.
Proof. done. Qed.
Lemma registry_twin rs did : run (a_registry_resolve rs did) = registry_resolve (sync_resolver <$> rs) did.
Proof.
  unfold registry_resolve. induction rs as [|r rs IH]; [done|]. rewrite fmap_cons. cbn [a_registry_resolve List.find].
  rewrite supported_sync. destruct (a_supported r did); [done|apply IH].
Qed.
Lemma did_web_twin unquote dp fetch did :
  run (a_resolve (AsyncDidWebResolver unquote dp fetch) did) = Did.resolve (DidWebResolver unquote (sync_call fetch) dp) did.
Proof. cbn [a_resolve AsyncDidWebResolver Did.resolve DidWebResolver]. unfold did_web_resolve. twin. Qed.

Lemma check_credential_status_twin gzip c f :
  run (check_credential_status_async gzip c f) = check_credential_status gzip c (sync_call f).
Proof.
  apply run_bind_eq; [done|intros es]. apply run_bind_eq; [|done]. rewrite run_mapC. clear. induction es as [|x es IH]; [done|].
  cbn [mapR]. by rewrite IH, run_bind.
Qed.
Lemma check_token_status_twin z c f : run (check_token_status_async z c f) = check_token_status z c (sync_call f).
Proof. apply run_bind_eq; [done|intros [ref|]]; twin. Qed.
Lemma jwt_issuer_twin up uu lo fetch iss kid :
  run (resolve_jwt_vc_issuer_key_async up uu lo fetch iss kid) = resolve_jwt_vc_issuer_key up uu lo (sync_call fetch) iss kid.
Proof. do 3 (apply run_bind_eq; [done|intros ?]). apply run_bind_eq; [by destruct (_ : _ + _)|done]. Qed.

(** ** The checks of the pipeline *)

Context (rt : runtime).

Lemma resolve_jose_key_twin ars iss kid :
  run (resolve_jose_key_async rt ars iss kid) = resolve_jose_key rt (sync_resolvers ars) iss kid.
Proof.
  unfold resolve_jose_key_async, resolve_jose_key. destruct (startswith iss _).
  - cbn. destruct (a_issuer_fetch ars) as [f|]; [|done]. cbn. apply run_catching_eq, jwt_issuer_twin.
  - twin.
Qed.

Lemma resolve_jose_key_with_x5c_twin ars token iss kid sd :
  run (resolve_jose_key_with_x5c_async rt ars token iss kid sd) = resolve_jose_key_with_x5c rt (sync_resolvers ars) token iss kid sd.
Proof.
  unfold resolve_jose_key_with_x5c_async, resolve_jose_key_with_x5c. cbn [sync_resolvers x5c_key].
  destruct (a_x5c_key ars) as [f|]; [|apply resolve_jose_key_twin].
  apply run_bind_eq; [done|intros [[[h pl] si] sg]]. destruct (truthy _); [done|apply resolve_jose_key_twin].
Qed.

Lemma w3c_status_twin p src f : run (w3c_status_async rt p src f) = w3c_status rt p src (sync_call <$> f).
Proof.
  apply run_bind_eq; [done|intros [|x es]]; [twin|]. destruct f as [f|]; cbn [fmap option_fmap option_map]; [|twin].
  apply run_bind_eq; [apply check_credential_status_twin|intros r]. twin.
Qed.
Lemma ietf_status_twin p src f : run (ietf_status_async rt p src f) = ietf_status rt p src (sync_call <$> f).
Proof.
  apply run_bind_eq; [done|intros [ref|]]; [|twin]. destruct f as [f|]; cbn [fmap option_fmap option_map]; [|twin].
  apply run_bind_eq; [apply check_token_status_twin|intros [ts|]]; twin.
Qed.

(** A check reads its resolver only by calling it. *)
Lemma w3c_status_ext p src (f g : option (pystr -> result json)) :
  option_Forall2 (fun f g => forall u, f u = g u) f g -> w3c_status rt p src f = w3c_status rt p src g.
Proof.
  intros H. unfold w3c_status. destruct (parse_status_entries src) as [[|x es]|]; [done| |done]. cbn [mbind result_bind].
  destruct H as [f g H|]; [|done]. unfold check_credential_status. destruct (parse_status_entries src) as [l|]; [|done].
  cbn [mbind result_bind]. f_equal. f_equal.
  clear -H. induction l as [|y l IH]; [done|]. cbn [mapR]. by rewrite H, IH.
Qed.
Lemma ietf_status_ext p src (f g : option (pystr -> result json)) :
  option_Forall2 (fun f g => forall u, f u = g u) f g -> ietf_status rt p src f = ietf_status rt p src g.
Proof.
  intros H. unfold ietf_status. destruct (parse_token_status_ref src) as [[ref|]|]; [|done|done]. cbn [mbind result_bind].
  destruct H as [f g H|]; [|done]. unfold check_token_status. destruct (parse_token_status_ref src) as [[ref'|]|]; [|done|done].
  cbn [mbind result_bind]. by rewrite H.
Qed.

Lemma bind_status_issuer_twin p ci field f :
  option_Forall2 (fun f g => forall u, f u = g u) (sync_call <$> bind_status_issuer_async p ci field f)
    (bind_status_issuer p ci field (sync_call <$> f)).
Proof. destruct f as [f|]; constructor. intros u. twin. Qed.

Lemma check_status_twin a b p ars ci :
  run (check_status_async rt a b p ars ci) = check_status rt a b p (sync_resolvers ars) ci.
Proof.
  unfold check_status_async, check_status. apply run_bind_eq; [done|intros _].
  apply run_bind_eq; [|intros w3c; apply run_bind_eq; [|done]].
  - rewrite w3c_status_twin. destruct (require_status_issuer_binding p); [|done]. apply w3c_status_ext, bind_status_issuer_twin.
  - rewrite ietf_status_twin. destruct (require_status_issuer_binding p); [|done]. apply ietf_status_ext, bind_status_issuer_twin.
Qed.

(** ** Schemas: the inner pass need only agree *)

Definition schema_twin (f : option (bytes -> co E json)) (g : option (bytes -> result json)) : Prop :=
  option_Forall2 (fun f g => forall raw, agrees (run (f raw)) (g raw)) f g.

Lemma resolve_schema_twin f vi vj ref :
  schema_twin vi vj ->
  agrees (run (resolve_schema_async (rt_space rt) (rt_hash rt) (rt_json rt) f vi ref))
         (resolve_schema (rt_space rt) (rt_hash rt) (rt_json rt) (sync_call f) vj ref).
Proof.
  intros Hv. apply run_bind_agrees; [done|intros _]. apply run_bind_agrees; [by apply run_catching_agrees|intros raw].
  apply run_bind_agrees; [done|intros data]. destruct (bool_decide _); [|by destruct (parse_schema_resource _ _)].
  unfold schema_from_credential_async, schema_from_credential. destruct Hv as [f1 g1 Hv|]; [|done].
  apply run_bind_agrees; [by apply run_catching_agrees|done].
Qed.

Lemma check_schema_twin c p f vi vj :
  schema_twin vi vj -> agrees (run (check_schema_async rt c p f vi)) (check_schema rt c p (sync_call <$> f) vj).
Proof.
  intros Hv. unfold check_schema_async, check_schema. destruct (negb _); [done|].
  destruct f as [f|]; cbn [fmap option_fmap option_map]; [|by destruct (raise_if _ _)].
  apply run_bind_agrees; [|done]. apply run_bind_agrees; [done|intros refs]. apply run_bind_agrees; [|done].
  rewrite run_foldC. apply agrees_foldR. intros applied ref. apply run_bind_agrees; [by apply resolve_schema_twin|intros schema].
  by destruct (validate_instance _ _ _).
Qed.

(** ** The key of an embedded proof *)

Definition proof_of (doc : jobject) : jobject := match jget doc ($"proof") with JDict p => p | _ => [] end.

(** The one-shot resolver answers the suite as the resolver itself would have. *)
Lemma preresolved_same_key doc r o :
  run (preresolved_di_resolver doc r) = Ok o ->
  proof_key (rt_point rt) None o (proof_of doc) = proof_key (rt_point rt) None (Some (sync_resolver r)) (proof_of doc).
Proof.
  unfold preresolved_di_resolver, proof_key. fold (proof_of doc). unfold resolve_verification_key.
  destruct (jget (proof_of doc) _) as [| | | |[|c vm]| | |]; try done.
  set (did := before_fragment (c :: vm)). set (purpose := jget (proof_of doc) _).
  unfold resolve_document. rewrite supported_sync. destruct (a_supported r did) eqn:Es; cbn [negb]; [|by intros [= <-]].
  rewrite run_handling. change (Did.resolve (sync_resolver r) did) with (run (a_resolve r did)). unfold lift. cbn [Coroutine.run].
  destruct (run (a_resolve r did)) as [d|e].
  - intros [= <-]. unfold supported. cbn. by rewrite bool_decide_true by done.
  - destruct (isinstance e UnsupportedDidMethod); [by intros [= <-]|]. by destruct (isinstance e DidResolutionError).
Qed.
(** When resolving first fails, the suite would have found no key. *)
Lemma preresolved_no_key doc r e jwk :
  run (preresolved_di_resolver doc r) = Err e -> proof_key (rt_point rt) None (Some (sync_resolver r)) (proof_of doc) <> Ok jwk.
Proof.
  unfold preresolved_di_resolver, proof_key. fold (proof_of doc). unfold resolve_verification_key.
  destruct (jget (proof_of doc) _) as [| | | |[|c vm]| | |]; try done.
  set (did := before_fragment (c :: vm)). unfold resolve_document. rewrite supported_sync.
  destruct (a_supported r did) eqn:Es; cbn [negb]; [|done].
  rewrite run_handling. change (Did.resolve (sync_resolver r) did) with (run (a_resolve r did)). unfold lift. cbn [Coroutine.run].
  destruct (run (a_resolve r did)) as [d|e']; [done|].
  destruct (isinstance e' UnsupportedDidMethod); [done|]. intros _ (_ & _ & H)%bind_Ok.
  by destruct (isinstance e' DidResolutionError).
Qed.

(** ** The suites *)

(** A suite reaches the resolver only for the proof's key, and fails without it. *)
Definition resolves_key (verify : jobject -> option DidResolver -> result VerifiedDataIntegrity) : Prop :=
  (forall doc o1 o2, proof_key (rt_point rt) None o1 (proof_of doc) = proof_key (rt_point rt) None o2 (proof_of doc) ->
     verify doc o1 = verify doc o2) /\
  (forall doc o v, verify doc o = Ok v -> exists jwk, proof_key (rt_point rt) None o (proof_of doc) = Ok jwk).

Lemma prepared_proof secured ty cs proof cfg sig : prepare_di_proof secured ty cs = Ok (proof, cfg, sig) -> proof_of secured = proof.
Proof. intros (Hp & _)%prepare_di_proof_Ok. unfold proof_of. by rewrite Hp. Qed.

(** A suite that prepares the proof, reads the key and goes on with it. *)
Lemma prepared_resolves_key ty cs {X} (pre : jobject -> jobject -> bytes -> jobject -> result X)
    (k : jobject -> jobject -> bytes -> jobject -> X -> jobject -> result VerifiedDataIntegrity) verify :
  (forall doc o, verify doc o =
     ('(proof, cfg, sig) ← prepare_di_proof doc ty cs; x ← pre proof cfg sig doc;
      jwk ← proof_key (rt_point rt) None o proof; k proof cfg sig doc x jwk)) ->
  resolves_key verify.
Proof.
  intros Hv. split.
  - intros doc o1 o2 Ho. rewrite !Hv. destruct (prepare_di_proof doc ty cs) as [[[proof cfg] sig]|] eqn:Ep; [|done].
    cbn [mbind result_bind]. apply prepared_proof in Ep as Hp. destruct (pre proof cfg sig doc) as [x|]; [|done]. cbn [mbind result_bind].
    by rewrite <- Hp, Ho.
  - intros doc o v. rewrite Hv. intros ([[proof cfg] sig] & Ep & H)%bind_Ok. apply prepared_proof in Ep as Hp.
    apply bind_Ok in H as (x & _ & H). apply bind_Ok in H as (jwk & Hk & _). exists jwk. by rewrite Hp.
Qed.

Lemma bind_of_Ok {A B} (a : A) (f : A -> result B) : (Ok a ≫= f) = f a.
Proof. done. Qed.

(** The selective-disclosure suite does not prepare its proof the way the others do. *)
Lemma ecdsa_sd_resolves_key purpose inst l ct :
  resolves_key (fun doc o => di_verify rt FORMAT_DI_ECDSA_SD doc o purpose inst (JInt l) ct).
Proof.
  unfold di_verify. destruct (leeway_seconds _ _) as [m|]; [|split; [done|by intros ???]]. cbn [mbind result_bind].
  rewrite bool_decide_eq_true_2 by done. split.
  - intros doc o1 o2. unfold EcdsaSd.sd_verify, proof_of. intros Ho. f_equal. apply bind_ext. intros _ _.
    destruct (jget doc ($"proof")) as [| | | | | |proof|]; try done. apply bind_ext. intros _ _.
    do 2 (apply bind_ext; intros ? _). apply bind_ext; intros [lines ph] _. apply bind_ext; intros mh _. by rewrite Ho.
  - intros doc o v. unfold EcdsaSd.sd_verify, proof_of. intros (r & H & _)%bind_Ok. apply bind_Ok in H as (? & _ & H).
    destruct (jget doc ($"proof")) as [| | | | | |proof|]; try done. do 3 apply bind_Ok in H as (? & _ & H).
    apply bind_Ok in H as ([lines ph] & _ & H). apply bind_Ok in H as (mh & _ & H). apply bind_Ok in H as (jwk & Hk & _). by exists jwk.
Qed.

Lemma di_verify_resolves_key fmt purpose inst lee ct :
  resolves_key (fun doc o => di_verify rt fmt doc o purpose inst lee ct).
Proof.
  destruct (decide (fmt = FORMAT_DI_ECDSA_SD)) as [->|Hn].
  { destruct lee; try (split; [done|by intros ???]). apply ecdsa_sd_resolves_key. }
  unfold di_verify. destruct (leeway_seconds lee ProofError) as [l|]; [|split; [done|by intros ???]].
  cbn [mbind result_bind]. rewrite bool_decide_eq_false_2 by done.
  destruct (bool_decide (fmt = FORMAT_DI_EDDSA_JCS)); [|destruct (bool_decide (fmt = FORMAT_DI_ECDSA_JCS));
    [|destruct (bool_decide (fmt = FORMAT_DI_ECDSA_RDFC))]].
  - eapply (prepared_resolves_key _ _ (fun _ _ _ _ => Ok tt) (fun proof cfg sig doc _ jwk => _)). intros doc o. unfold eddsa_jcs_verify, jcs_verify. reflexivity.
  - eapply (prepared_resolves_key _ _ (fun _ _ _ _ => Ok tt) (fun proof cfg sig doc _ jwk => _)). intros doc o. unfold ecdsa_jcs_verify, jcs_verify. reflexivity.
  - eapply (prepared_resolves_key _ _ (fun _ _ _ _ => Ok tt) (fun proof cfg sig doc _ jwk => _)). intros doc o. unfold ecdsa_rdfc_verify. reflexivity.
  - eapply (prepared_resolves_key _ _ (fun proof cfg sig doc => _) (fun proof cfg sig doc x jwk => _)). intros doc o. unfold eddsa_rdfc_verify. reflexivity.
Qed.

(** ** The lanes and the pipeline *)

Definition request_twin (rq : async_request) (rq' : request) : Prop :=
  policy rq' = a_policy rq /\ rs rq' = sync_resolvers (a_rs rq) /\ fetch_schema rq' = sync_call <$> a_fetch_schema rq /\
  clk rq' = a_clk rq /\ schema_twin (a_inner rq) (inner rq').

Lemma agrees_eq {A} (m1 m2 : result A) : m1 = m2 -> agrees m1 m2.
Proof. by intros ->. Qed.

Ltac lane :=
  repeat first [ done | apply check_schema_twin; done | apply agrees_eq, check_status_twin
               | apply agrees_eq, resolve_jose_key_with_x5c_twin | apply run_bind_agrees; [|intros ?] ].

Lemma vc_jwt_twin rq rq' tok : request_twin rq rq' -> agrees (run (verify_vc_jwt_async rt rq tok)) (verify_vc_jwt rt rq' tok).
Proof.
  intros (Hp & Hr & Hf & Hc & Hi). unfold verify_vc_jwt_async, verify_vc_jwt. rewrite Hp, Hr, Hf, Hc.
  apply run_bind_agrees; [done|intros su]. apply run_bind_agrees; [done|intros [iss kid]]. lane.
Qed.
Lemma sd_jwt_twin rq rq' tok : request_twin rq rq' -> agrees (run (verify_sd_jwt_async rt rq tok)) (verify_sd_jwt rt rq' None tok).
Proof.
  intros (Hp & Hr & Hf & Hc & Hi). unfold verify_sd_jwt_async, verify_sd_jwt. rewrite Hp, Hr, Hf, Hc.
  apply run_bind_agrees; [done|intros su]. apply run_bind_agrees; [done|intros [iss kid]].
  apply run_bind_agrees; [apply agrees_eq, resolve_jose_key_with_x5c_twin|intros jwk]. cbn [kb_target mbind result_bind]. lane.
Qed.

Lemma data_integrity_twin rq rq' fmt doc :
  request_twin rq rq' -> agrees (run (verify_data_integrity_async rt rq fmt doc)) (verify_data_integrity rt rq' fmt doc).
Proof.
  intros (Hp & Hr & Hf & Hc & Hi). unfold verify_data_integrity_async, verify_data_integrity. rewrite Hp, Hr, Hf, Hc.
  set (r := a_did_resolver (a_rs rq)). cbn [sync_resolvers did_resolver]. fold r. rewrite run_bind, run_lift.
  destruct (leeway_seconds (leeway_s (a_policy rq)) ProofError) as [l|e] eqn:El.
  - rewrite bind_of_Ok, run_bind.
    destruct (di_verify_resolves_key fmt (proof_purpose (a_policy rq)) (now_instant (a_clk rq)) (leeway_s (a_policy rq))
                (require_not_expired (a_policy rq))) as [Hsame Hkey].
    destruct (run (preresolved_di_resolver doc r)) as [o|e] eqn:Ep.
    + rewrite bind_of_Ok. specialize (Hsame doc o (Some (sync_resolver r))). cbv beta in Hsame. rewrite <- Hsame by by apply preresolved_same_key. lane.
    + intros res. split; [done|]. intros (v & Hv & _)%bind_Ok. apply Hkey in Hv as (jwk & Hk). by eapply preresolved_no_key in Hk.
  - unfold di_verify. by rewrite El.
Qed.

Lemma leaf_twin rq rq' fmt c :
  request_twin rq rq' -> agrees (run (verify_leaf_async rt rq fmt c)) (verify_leaf rt rq' None fmt c).
Proof.
  intros H. destruct c; try done; cbn [verify_leaf_async verify_leaf]; [|by apply data_integrity_twin].
  destruct (bool_decide _); [by apply vc_jwt_twin|by apply sd_jwt_twin].
Qed.

Lemma verify_at_twin mk mk' levels : (forall n, request_twin (mk n) (mk' n)) ->
  forall c, agrees (run (verify_at_async rt mk levels c)) (verify_at rt mk' levels None c).
Proof.
  intros Hmk. induction levels as [|levels IH]; intros c; cbn [verify_at_async verify_at];
    (apply run_bind_agrees; [done|intros fmt]; apply run_catching_agrees; destruct (bool_decide _); [|by apply leaf_twin]).
  - by destruct c.
  - destruct c; try done. apply run_bind_agrees; [done|apply IH].
Qed.

Lemma inner_twin p ars clk levels raw :
  agrees (run (verify_inner_async rt p ars clk levels raw)) (verify_inner rt p (sync_resolvers ars) clk levels raw).
Proof.
  apply run_bind_agrees; [done|intros c]. apply run_bind_agrees; [done|intros ip]. apply run_bind_agrees; [|done].
  apply verify_at_twin. intros n. split_and!; try done. constructor.
Qed.

Lemma credential_twin p ars fetch clk c :
  agrees (run (verify_credential_async rt p ars fetch clk c))
         (verify_credential rt p (sync_resolvers ars) (sync_call <$> fetch) clk None c).
Proof. apply verify_at_twin. intros n. split_and!; try done. constructor. apply inner_twin. Qed.
End world.

(** * The surface *)

(** C4: The asynchronous pipeline accepts exactly what the synchronous one accepts, with the same result.
    Whatever the awaited calls answer, [verify_credential_async] returns a result if and only if
    [verify_credential], given resolvers that answer the same, returns it.  (Which error a refusal
    raises may differ: the asynchronous lane resolves a proof's DID before the suite has checked
    the proof.) *)
Theorem async_accepts_same {E : Type -> Type} (w : forall X, E X -> result X) rt p ars fetch clk c r :
  run w (verify_credential_async rt p ars fetch clk c) = Ok r <->
  verify_credential rt p (sync_resolvers w ars) (sync_call w <$> fetch) clk None c = Ok r.
Proof. apply credential_twin. Qed.

(** What becomes of one item of a batch. *)
Definition item_of (i : nat) (r : result VerificationResult) (b : BatchResult) : Prop :=
  index b = i /\
  match outcome b with
  | inl v => r = Ok v
  | inr e => isinstance e OpenvcError = true /\ forall v, r <> Ok v
  end.

Lemma run_one_async {E : Type -> Type} (w : forall X, E X -> result X) rt p ars fetch clk i c r :
  run w (verify_one_async rt p ars fetch clk (i, c)) = r ->
  let one := verify_credential rt p (sync_resolvers w ars) (sync_call w <$> fetch) (clk i) None c in
  match r with
  | Ok b => item_of i one b
  | Err e => isinstance e OpenvcError = false /\ forall v, one <> Ok v
  end.
Proof.
  intros <- one. unfold verify_one_async. rewrite run_handling. cbn [fst snd].
  pose proof (credential_twin w rt p ars fetch (clk i) c) as H. fold one in H.
  destruct (run w (verify_credential_async _ _ _ _ _ _)) as [v|e].
  - split; [done|]. by apply H.
  - assert (forall v, one <> Ok v) as Hno by (intros v Hv; by apply H in Hv).
    destruct (isinstance e OpenvcError) eqn:Ee; [split; [done|]; split; [done|apply Hno]|split; [done|apply Hno]].
Qed.

(** C5: A batch verified concurrently is a batch of separate verifications.  Whatever the order in
    which the event loop answers the calls the items await, the batch ends, after no more steps than the
    items await calls; the results it returns are one per credential, in order, each the
    result the synchronous pipeline gives that credential alone, or a library error where it gives none; and
    the batch raises only when some item raises an exception that is not the library's. *)
Theorem verify_many_async_any_schedule {E : Type -> Type} (w : forall X, E X -> result X) rt p ars fetch clk cs :
  let one i c := verify_credential rt p (sync_resolvers w ars) (sync_call w <$> fetch) (clk i) None c in
  let batch := batch_async rt p ars fetch clk cs in
  (exists out, gathers w batch out) /\
  (forall n ts, relations.nsteps (step w) n batch ts -> (n <= pending w batch)%nat) /\
  forall out, gathers w batch out ->
    match out with
    | Ok results => length results = length cs /\
        forall i c, cs !! i = Some c -> exists b, results !! i = Some b /\ item_of i (one i c) b
    | Err e => isinstance e OpenvcError = false /\ exists i c, cs !! i = Some c /\ forall v, one i c <> Ok v
    end.
Proof.
  intros one batch.
  assert (Hone : forall i c r, cs !! i = Some c -> run w (verify_one_async rt p ars fetch clk (i, c)) = r ->
            match r with Ok b => item_of i (one i c) b | Err e => isinstance e OpenvcError = false /\ forall v, one i c <> Ok v end).
  { intros i c r _ Hr. exact (run_one_async w rt p ars fetch clk i c r Hr). }
  destruct (gather_schedule_independent w batch) as (Hends & Hval & Herr & Hsteps).
  split; [done|]. split; [done|]. intros [results|e] Hout.
  - apply Hval, mapR_Ok in Hout. pose proof (Forall2_length _ _ _ Hout) as Hl. unfold batch, batch_async in Hl.
    rewrite length_fmap, length_imap in Hl. split; [done|]. intros i c Hc.
    assert (batch !! i = Some (verify_one_async rt p ars fetch clk (i, c))) as Hb.
    { unfold batch, batch_async. by rewrite list_lookup_fmap, list_lookup_imap, Hc. }
    destruct (Forall2_lookup_l _ _ _ _ _ Hout Hb) as (b & Hr & Hrun). exists b. split; [done|]. by apply Hone in Hrun.
  - apply Herr in Hout as (t & Ht & Hrun). unfold batch, batch_async in Ht. apply list_elem_of_fmap in Ht as ([i c] & -> & Hi).
    apply list_elem_of_lookup in Hi as (j & Hj). rewrite list_lookup_imap in Hj. destruct (cs !! j) as [c'|] eqn:Ec; [|done].
    injection Hj as <- <-. apply (Hone _ _ (Err e)) in Hrun as [He Hno]; [|done]. split; [done|]. by exists j, c'.
Qed.

Lemma did_webvh_twin (w : forall X, transport X -> result X) rt unquote did :
  run w (a_resolve (default_async_did_webvh_resolver rt unquote) did) =
  webvh_resolve (rt_float_repr rt) (rt_hash rt ($"sha256")) (Keys.verify_signature (rt_ed25519 rt) (rt_ecdsa rt) (rt_mldsa rt))
    (rt_fromisoformat rt) (rt_point rt) (rt_json_text rt) (rt_space rt) unquote (sync_call w https_text_fetch_async) did.
Proof. apply run_bind_eq; [done|intros u]. by apply run_bind_eq. Qed.

(** The default resolvers have one meaning.  With the guarded transport answering as the synchronous fetches
    would, the asynchronous registry resolves every DID as the synchronous default registry
    does, and the asynchronous status-list and status-token resolvers return what the synchronous ones return. *)
Theorem default_async_resolvers_same (w : forall X, transport X -> result X) rt unquote jwt_fetch leeway clk clock expected url did :
  let json_fetch := sync_call w https_json_fetch_async in
  let text_fetch := sync_call w https_text_fetch_async in
  let registry := default_async_resolver rt unquote in
  let sync := sync_resolver w registry in
  Did.resolve sync did = Did.resolve (default_resolver rt unquote json_fetch text_fetch) did /\
  agrees (run w (default_status_list_resolver_async rt registry jwt_fetch leeway https_text_fetch_async expected clk url))
         (default_status_list_resolver rt sync (sync_call w <$> jwt_fetch) leeway text_fetch expected clk url) /\
  run w (default_status_list_token_resolver_async rt registry jwt_fetch leeway https_text_fetch_async expected clock url)
  = default_status_list_token_resolver rt sync (sync_call w <$> jwt_fetch) leeway text_fetch expected clock url.
Proof.
  intros json_fetch text_fetch registry sync. split; [|split].
  - unfold sync, registry, sync_resolver. cbn [Did.resolve]. unfold sync_call at 1, default_async_resolver. cbn [AsyncDidResolverRegistry a_resolve].
    rewrite registry_twin. unfold default_resolver, DidResolverRegistry, registry_resolve. cbn [Did.resolve fmap list_fmap List.find].
    unfold supported. cbn. repeat case_match; try done;
      match goal with H : Some _ = Some _ |- _ => injection H as <- end.
    + done.
    + done.
    + apply did_web_twin.
    + apply did_webvh_twin.
  - apply run_bind_agrees; [done|intros l]. apply run_bind_agrees; [done|intros raw]. apply run_bind_agrees; [done|intros c].
    apply run_bind_agrees; [done|intros _]. apply run_bind_agrees; [done|intros pol]. apply run_bind_agrees; [|intros r; by destruct (authenticated_list r)].
    apply credential_twin.
  - apply run_bind_eq; [done|intros l]. apply run_bind_eq; [done|intros raw]. apply run_bind_eq; [done|intros [[[h pl] si] sg]].
    destruct (jget pl ($"iss")) as [| | | |[|x iss]| | |]; try done. apply run_bind_eq; [done|intros _].
    apply run_bind_eq; [apply resolve_jose_key_twin|intros jwk]. by destruct (verify_status_list_token _ _ _ _ _ _ _ _).
Qed.
